(* ===== verification/_CoqProject ===== *)
-Q . S2P
Prelude.v
KArray.v
KBitmap.v
KQueue.v
UserMem.v
Uio.v
BlockDev.v
Lhd.v
SfsFormat.v
Sfs.v
SfsBlocks.v
SfsFile.v
SfsExample.v
SfsIo.v
SfsDir.v
SfsTruncate.v
SfsMount.v
Thread.v
ThreadSpec.v
ThreadTheorems.v
Concurrency.v
Synch.v
SynchInv.v
SynchTriples.v
SynchSafety.v
SynchExample.v
Ram.v
KHeap.v
KHeapSpec.v
KHeapFree.v
KHeapTheorems.v
DumbVm.v
DumbVmSpec.v
DumbVmOps.v
DumbVmTheorems.v
VmCopy.v
LoadElf.v
LoadElfSpec.v
LoadElfTheorems.v
Vfs.v
VfsSpec.v
VfsOps.v
VfsCalls.v
VfsTheorems.v
VfsNames.v
VfsExample.v
Device.v
Libc.v
Printf.v
Monitor.v
ProducerConsumer.v
DataToKernel.v
HelloThreads.v
CatMouse.v
Random.v
LibcRandom.v
Serial.v
Console.v
KGets.v
Panic.v
ConsoleExample.v
Timer.v
Lamebus.v
Emu.v
EmuTheorems.v
EmuExample.v
EmuLayer.v
EmuLayerTheorems.v
Mksfs.v
MksfsTheorems.v
SfsMountExample.v
Syscall.v
SyscallTheorems.v
SyscallExample.v
Sort.v
Screen.v
Menu.v
MenuCmds.v
