(* ===== verification/Prelude.v ===== *)
(** * OS/161 kernel verification

    A model of the OS/161 1.11 kernel of this repository ([src/os161/kern]),
    with the C library functions it uses, the tools and programs that meet its
    file system and system calls, and the thread exercises of [src/hw2].  Paths
    below are under [src/os161/kern] unless they start with another directory.

    ** The system and how its parts interact

    Programs enter the kernel through [mips_trap]: a system call goes to
    [mips_syscall], a TLB fault to [vm_fault], an interrupt to the LAMEbus and
    from there to a driver.  Threads share the kernel; they synchronize with
    semaphores, locks and condition variables built on sleeping and on the
    interrupt priority.  Pathnames go through the VFS layer to vnodes, which
    belong to SFS on a block device, to the emulator's file system or to a
    device.  Everything prints through [kprintf] and the console.

    ** Conventions

    C functions are Rocq functions of the same name.  A result is an [outcome]:
    [Done], [Panic] (a failed assertion or [panic]) or [Stuck] (undefined
    behaviour, a thread that never goes on, fuel used up).  [M S A] adds a
    state and C's error codes; [wp] is its total-correctness predicate, so a
    theorem stated with it says that the code returns.  Machine words are
    integers with the wrap-around written out ([u8], [u16], [u32], [s32]);
    [int_op] makes signed overflow undefined.  [kmalloc] in clients is an
    oracle that may refuse any request.  Hardware and the layers below a
    component are type classes with their documented behaviour as laws, and
    have instances that show that the laws can hold ([Lhd], [VfsExample],
    [EmuExample], [Serial], [Timer]).

    ** Files

    Containers and library: [KArray] ([lib/array.c]), [KBitmap]
    ([lib/bitmap.c]) and [KQueue] ([lib/queue.c]) implement lists and sets;
    [Libc] and [Printf] (os161/lib/libc) have the string, memory and formatting
    functions; [LibcRandom] and [Random] the generators.
    [vprintf_renders] says that the formatter sends the text a format stands
    for, [vprintf_typed] that well-typed calls are defined.

    User memory and transfers: [UserMem] ([lib/copyinout.c]) and [Uio]
    ([userprog/uio.c]).

    Disks and SFS: [BlockDev] (the interface of [dev.h]), [Lhd]
    ([dev/lamebus/lhd.c], an instance of it), [SfsFormat], [Sfs] (all functions
    of [fs/sfs] and [fs/vfs/vnode.c]), [SfsBlocks], [SfsFile], [SfsIo],
    [SfsDir], [SfsTruncate], [SfsMount], with the examples [SfsExample] and
    [SfsMountExample]; [Mksfs] and [MksfsTheorems] (os161/sbin/mksfs).
    Reads and writes are those of a byte sequence ([sfs_io_read_refines],
    [sfs_io_write_refines]), directories are finite maps
    ([sfs_dir_findname_refines], [sfs_dir_link_refines]), the volume invariant
    is kept by operations within the largest file size ([volume_invariant]), a
    sync followed by a mount finds the same
    volume ([sync_remount]) and [mksfs] makes one that mounts ([mksfs_mounts]).

    Threads: [Thread], [ThreadSpec], [ThreadTheorems] ([thread/thread.c],
    [thread/scheduler.c]); [Concurrency], the machine with its interrupts and
    context switches; [Synch] ([thread/synch.c]), [SynchInv] and [SynchTriples],
    a program logic for it, [SynchSafety] and [SynchExample].  In every
    reachable state the thread system is consistent ([synch_invariant]), no
    lock is lost ([lock_owner_stable]) and the machine goes on or panics at an
    assertion ([machine_progress]).

    Memory: [Ram], [KHeap], [KHeapSpec], [KHeapFree], [KHeapTheorems]
    ([lib/kheap.c] refines an allocator of disjoint blocks); [DumbVm],
    [DumbVmSpec], [DumbVmOps], [DumbVmTheorems] ([arch/mips/mips/dumbvm.c]:
    processes have memory of their own); [VmCopy], which connects [UserMem] to
    it; [LoadElf], [LoadElfSpec], [LoadElfTheorems] ([runprogram] loads what the
    executable says).

    Names and devices: [Vfs], [VfsSpec], [VfsOps], [VfsCalls], [VfsTheorems],
    [VfsNames], [VfsExample] ([fs/vfs]: counts in step with references, names
    resolved as documented); [Device]; [Emu], [EmuTheorems], [EmuExample]
    ([dev/lamebus/emu.c]); [EmuLayer] and [EmuLayerTheorems], which prove the
    contract the VFS layer relies on of the vnodes of devices and of the
    emulator's file system ([vfs_calls_balanced]); [Timer]; [Lamebus]; [Screen].

    Console: [Serial], [Console], [KGets], [Panic], [ConsoleExample].

    System calls and the menu: [Syscall], [SyscallTheorems], [SyscallExample]
    put console, virtual memory, VFS layer and threads together; [Menu] and
    [MenuCmds] ([main/menu.c], [lib/misc.c]).

    Exercises and tests: [Monitor] with [ProducerConsumer], [DataToKernel] and
    [HelloThreads] (src/hw2), [CatMouse] ([asst1]), [Sort]
    (os161/testbin/sort).

    Theorems about defects are kept beside the others, for example
    [bad_string_panics], [kmalloc_wraps], [sfs_wblock_media_error_lost] and
    [screen_console_hangs].

    ** Fuel and bounds

    Loops that are not structural take fuel from their caller: the number of
    bytes, words or entries that remain, or the length of the memory for loops
    that end at a NUL; recursive calls take the size plus one.  Running out is
    [Stuck], and the theorems that conclude [Done] show that it does not
    happen.  Retries have the number the code has (ten in [sfs_rwblock]).

    ** Not modelled

    Assembly (exception entry, context switch, start-up, [setjmp]) except the
    TLB operations and the system-call stub; entering user mode; the
    assertions of [mips_trap] on where the trap frame lies; [boot],
    [kmain] and the generated [autoconf.c]; in the menu, [common_prog],
    [cmd_pwd], [cmd_kheapstats] and the commands of other files, which are
    arguments, and the prompt loop; [attach_con_to_lscreen], of which only the
    choice of output functions is used; the byte-order functions of [ntoh.c],
    which return their argument on this machine; the network card (no driver);
    [addrspace.c], a skeleton for configurations without dumbvm, and the VM
    statistics, which nothing calls; the in-kernel tests, the stoplight skeleton, the host library, and the user and
    test programs other than [testA] and [sort], most of which need system
    calls this kernel does not have.  Console messages of drivers, mounting and
    loading are left out where the components above say so.  SFS, the VFS layer
    and the emulator's file system are modelled for one operation at a time, and
    the vnodes of SFS are not among those under the VFS layer;
    interleaving is modelled for threads, synchronization, the serial console
    and the exercises. *)

From stdpp Require Export base numbers list list_numbers gmap.
From Stdlib Require Export ZArith Lia.

#[export] Set Default Goal Selector "!".

#[global] Open Scope Z_scope.

(** ** Error numbers: [kern/include/kern/errno.h] *)

Definition EINVAL : Z := 1.
Definition EFAULT : Z := 2.
Definition ENAMETOOLONG : Z := 3.
Definition ENOMEM : Z := 4.
Definition EIO : Z := 5.
Definition ENOENT : Z := 6.
Definition ENOTDIR : Z := 7.
Definition EISDIR : Z := 8.
Definition EEXIST : Z := 9.
Definition EXDEV : Z := 10.
Definition EAGAIN : Z := 11.
Definition ESPIPE : Z := 12.
Definition EUNIMP : Z := 13.
Definition ENXIO : Z := 14.
Definition ENODEV : Z := 15.
Definition EBUSY : Z := 16.
Definition EIOCTL : Z := 17.
Definition ENOTEMPTY : Z := 18.
Definition ERANGE : Z := 19.
Definition ENOSPC : Z := 20.
Definition EMFILE : Z := 21.
Definition ENFILE : Z := 22.
Definition ENOSYS : Z := 23.
Definition ENOEXEC : Z := 24.
Definition E2BIG : Z := 25.
Definition EBADF : Z := 26.

(** ** Outcomes of a C function

    [Done a] is a normal return; [Panic] is a failed [assert] or a call of
    [panic]; [Stuck] is an access or an arithmetic operation the C language
    leaves undefined (an index outside the object, a signed overflow). *)

Inductive outcome (A : Type) : Type :=
  | Done (a : A)
  | Panic
  | Stuck.
Arguments Done {A} a.
Arguments Panic {A}.
Arguments Stuck {A}.

#[export] Instance outcome_ret : MRet outcome := fun A a => Done a.
#[export] Instance outcome_bind : MBind outcome := fun A B f m =>
  match m with
  | Done a => f a
  | Panic => Panic
  | Stuck => Stuck
  end.

Definition kassert (b : bool) : outcome unit := if b then Done tt else Panic.

Declare Scope os_scope.
Delimit Scope os_scope with os.
Notation "'assert!' b ;; k" := (kassert b ≫= fun _ => k)
  (at level 100, b at level 99, k at level 200, right associativity) : os_scope.
#[global] Open Scope os_scope.

Lemma bind_Done {A B} (m : outcome A) (f : A -> outcome B) b :
  m ≫= f = Done b -> exists a, m = Done a /\ f a = Done b.
Proof. destruct m; cbn; intros; try discriminate; eauto. Qed.

Lemma kassert_Done b u : kassert b = Done u -> b = true.
Proof. destruct b; cbn; congruence. Qed.

Lemma kassert_true b : b = true -> kassert b = Done tt.
Proof. by intros ->. Qed.

(** ** Machine integers *)

Definition INT_MAX : Z := 2147483647.
Definition INT_MIN : Z := -2147483648.

(** Reduction of an unsigned result to its width. *)
Definition u8 (z : Z) : Z := z mod 256.
Definition u16 (z : Z) : Z := z mod 65536.
Definition u32 (z : Z) : Z := z mod 4294967296.

(** Conversion of a 32-bit pattern to [int] ([off_t] is [int32_t]). *)
Definition s32 (z : Z) : Z := (z + 2147483648) mod 4294967296 - 2147483648.

(** Signed arithmetic: a result outside [int] is undefined. *)
Definition int_op (z : Z) : outcome Z :=
  if bool_decide (INT_MIN <= z <= INT_MAX) then Done z else Stuck.

Lemma u32_small z : 0 <= z < 4294967296 -> u32 z = z.
Proof. apply Z.mod_small. Qed.

Lemma u32_range z : 0 <= u32 z < 4294967296.
Proof. apply Z.mod_pos_bound; lia. Qed.

(** The test [(w & (1 << k)) == 0]. *)
Lemma land_pow2_0 w k : 0 <= k -> Z.land w (2 ^ k) = 0 <-> Z.testbit w k = false.
Proof.
  intros Hk. split; intros H.
  - assert (Z.testbit (Z.land w (2 ^ k)) k = false) as Hb by (rewrite H; apply Z.bits_0).
    rewrite Z.land_spec, Z.pow2_bits_true, andb_true_r in Hb by lia. done.
  - apply Z.bits_inj'. intros n Hn. rewrite Z.land_spec, Z.bits_0, Z.pow2_bits_eqb by lia.
    destruct (Z.eqb_spec k n) as [<-|]; [by rewrite H|by rewrite andb_false_r].
Qed.

Lemma u8_range z : 0 <= u8 z < 256.
Proof. apply Z.mod_pos_bound; lia. Qed.

Lemma s32_small z : INT_MIN <= z <= INT_MAX -> s32 z = z.
Proof. unfold s32, INT_MIN, INT_MAX. intros. rewrite Z.mod_small; lia. Qed.

Lemma int_op_ok z : INT_MIN <= z <= INT_MAX -> int_op z = Done z.
Proof. intros. unfold int_op. by rewrite bool_decide_eq_true_2. Qed.

Lemma int_op_Done z r : int_op z = Done r -> r = z /\ INT_MIN <= z <= INT_MAX.
Proof. unfold int_op. case_bool_decide; naive_solver. Qed.

(** ** Objects accessed by index *)

Section indexed.
Context {A : Type}.
Implicit Types (l : list A) (i : Z) (x : A).

Definition getZ l i : outcome A :=
  if bool_decide (0 <= i) then
    match l !! Z.to_nat i with Some x => Done x | None => Stuck end
  else Stuck.

Definition setZ l i x : outcome (list A) :=
  if bool_decide (0 <= i < Z.of_nat (length l))
  then Done (<[Z.to_nat i := x]> l) else Stuck.

Lemma getZ_ok l i x : 0 <= i -> l !! Z.to_nat i = Some x -> getZ l i = Done x.
Proof. intros Hi Hx. unfold getZ. by rewrite bool_decide_eq_true_2, Hx. Qed.

Lemma getZ_Done l i x :
  getZ l i = Done x -> 0 <= i < Z.of_nat (length l) /\ l !! Z.to_nat i = Some x.
Proof.
  unfold getZ. case_bool_decide; [|done].
  destruct (l !! Z.to_nat i) eqn:E; [|done]. intros [= ->].
  apply lookup_lt_Some in E as ?. split; [lia|done].
Qed.

Lemma getZ_total l i :
  0 <= i < Z.of_nat (length l) -> exists x, getZ l i = Done x /\ l !! Z.to_nat i = Some x.
Proof.
  intros Hi. destruct (lookup_lt_is_Some_2 l (Z.to_nat i)) as [x Hx]; [lia|].
  exists x. split; [apply getZ_ok; [lia|done]|done].
Qed.

Lemma setZ_ok l i x :
  0 <= i < Z.of_nat (length l) -> setZ l i x = Done (<[Z.to_nat i := x]> l).
Proof. intros. unfold setZ. by rewrite bool_decide_eq_true_2. Qed.

Lemma setZ_Done l i x l' :
  setZ l i x = Done l' ->
  0 <= i < Z.of_nat (length l) /\ l' = <[Z.to_nat i := x]> l.
Proof. unfold setZ. case_bool_decide; naive_solver. Qed.
End indexed.

(** ** The allocator as its clients see it

    [kmalloc] is modelled on its own in [KHeap]; a client only observes, for
    each call in turn, whether it got memory or NULL.  An [oracle] lists the
    answers to the calls to come, and a client's theorem holds for all
    oracles.  An exhausted oracle answers NULL. *)

Abbreviation oracle := (list bool) (only parsing).

Definition kmalloc_ok (o : oracle) : bool * oracle :=
  match o with
  | [] => (false, [])
  | b :: o' => (b, o')
  end.

(** A cell of an array of pointers: [None] is an uninitialised cell. *)
Abbreviation ptr := Z (only parsing).
Abbreviation cell := (option Z) (only parsing).
Definition NULL : ptr := 0.

Definition SIZEOF_PTR : Z := 4.

(** ** Automation *)

Create HintDb os.
#[export] Hint Resolve getZ_ok setZ_ok int_op_ok kassert_true u32_range u8_range : os.

(** Split the hypotheses that say a monadic computation returned. *)
Ltac inv_done :=
  repeat match goal with
  | H : Done _ = Done _ |- _ => injection H as H; try subst
  | H : Panic = Done _ |- _ => discriminate H
  | H : Stuck = Done _ |- _ => discriminate H
  | H : mret _ = Done _ |- _ => injection H as H; try subst
  | H : (_ ≫= _) = Done _ |- _ =>
      let a := fresh "a" in let Ha := fresh "Ha" in
      apply bind_Done in H as (a & Ha & H)
  | H : kassert _ = Done _ |- _ => apply kassert_Done in H
  | H : int_op _ = Done _ |- _ => apply int_op_Done in H as [-> ?]
  | H : bool_decide _ = true |- _ => apply bool_decide_eq_true_1 in H
  | H : bool_decide _ = false |- _ => apply bool_decide_eq_false_1 in H
  end.

(** Discharge the tests of a computation with facts [lia] can prove. *)
Ltac step_test :=
  match goal with
  | |- context [bool_decide ?P] =>
      first [ rewrite (bool_decide_eq_true_2 P) by lia
            | rewrite (bool_decide_eq_false_2 P) by lia ]
  | |- context [int_op ?z] =>
      rewrite (int_op_ok z) by (unfold INT_MIN, INT_MAX in *; lia)
  end.

Ltac step_tests :=
  repeat first
    [ step_test
    | progress cbn [mbind outcome_bind kassert andb orb negb] ].

(** ** Code that threads a state and returns early on an error

    [M S A] models a C function working on a state of type [S] that returns an
    error number, or 0 and a result of type [A].  The state survives an error:
    C does not roll back. *)

Definition M (S A : Type) : Type := S -> outcome ((Z + A) * S).

#[export] Instance M_ret {S} : MRet (M S) := fun A a s => Done (inr a, s).
#[export] Instance M_bind {S} : MBind (M S) := fun A B f m s =>
  match m s with
  | Done (inr a, s') => f a s'
  | Done (inl e, s') => Done (inl e, s')
  | Panic => Panic
  | Stuck => Stuck
  end.

Definition fail {S A} (e : Z) : M S A := fun s => Done (inl e, s).
Definition get {S} : M S S := fun s => Done (inr s, s).
Definition put {S} (s : S) : M S unit := fun _ => Done (inr tt, s).
Definition modify {S} (f : S -> S) : M S unit := fun s => Done (inr tt, f s).
Definition lift {S A} (o : outcome A) : M S A := fun s => a ← o; Done (inr a, s).
Definition panic {S A} : M S A := fun _ => Panic.

(** [if (result) return result;] *)
Definition check {S} (result : Z) : M S unit :=
  if bool_decide (result = 0) then mret tt else fail result.

Definition massert {S} (b : bool) : M S unit := lift (kassert b).

(** The result code of a call whose error is inspected instead of returned. *)
Definition try {S A} (m : M S A) : M S (Z + A) := fun s =>
  match m s with
  | Done (r, s') => Done (inr r, s')
  | Panic => Panic
  | Stuck => Stuck
  end.

(** Total correctness: the code returns (no panic, nothing undefined), with
    [Q] after a normal return and [E] after an error return. *)
Definition wp {S A} (m : M S A) (Q : A -> S -> Prop) (E : Z -> S -> Prop) (s : S) : Prop :=
  match m s with
  | Done (inr a, s') => Q a s'
  | Done (inl e, s') => E e s'
  | Panic | Stuck => False
  end.

Section wp_rules.
Context {S : Type}.

Lemma wp_mono {A} (m : M S A) (Q Q' : A -> S -> Prop) (E E' : Z -> S -> Prop) s :
  wp m Q E s -> (forall a s', Q a s' -> Q' a s') -> (forall e s', E e s' -> E' e s') ->
  wp m Q' E' s.
Proof. unfold wp. intros H HQ HE. destruct (m s) as [[[e|a] s']| |]; auto. Qed.

Lemma wp_bind {A B} (m : M S A) (f : A -> M S B) Q E s :
  wp m (fun a s' => wp (f a) Q E s') E s -> wp (m ≫= f) Q E s.
Proof.
  unfold wp, mbind, M_bind. by destruct (m s) as [[[e|a] s']| |].
Qed.

Lemma wp_ret {A} (a : A) (Q : A -> S -> Prop) E s : Q a s -> wp (mret a) Q E s.
Proof. done. Qed.

Lemma wp_lift {A} (o : outcome A) a (Q : A -> S -> Prop) E s : o = Done a -> Q a s -> wp (lift o) Q E s.
Proof. unfold wp, lift. by intros ->. Qed.

Lemma wp_massert b (Q : unit -> S -> Prop) E s : b = true -> Q tt s -> wp (massert b) Q E s.
Proof. by intros ->. Qed.

Lemma wp_check r (Q : unit -> S -> Prop) E s :
  (r = 0 -> Q tt s) -> (r ≠ 0 -> E r s) -> wp (check r) Q E s.
Proof. unfold wp, check. case_bool_decide; cbn; auto. Qed.

Lemma wp_try {A} (m : M S A) Q E s :
  wp m (fun a s' => Q (inr a) s') (fun e s' => Q (inl e) s') s -> wp (try m) Q E s.
Proof. unfold wp, try. by destruct (m s) as [[[e|a] s']| |]. Qed.

Lemma wp_untry {A} (m : M S A) Q E s :
  wp (try m) Q E s -> wp m (fun a => Q (inr a)) (fun e => Q (inl e)) s.
Proof. unfold wp, try. by destruct (m s) as [[[e|a] s']| |]. Qed.

Lemma wp_done {A} (m : M S A) Q E s :
  wp m Q E s -> exists r s', m s = Done (r, s') /\ match r with inr a => Q a s' | inl e => E e s' end.
Proof. unfold wp. destruct (m s) as [[[e|a] s']| |]; [eauto..|done|done]. Qed.

Lemma wp_elim {A} (m : M S A) Q E s r s' :
  wp m Q E s -> m s = Done (r, s') -> match r with inr a => Q a s' | inl e => E e s' end.
Proof. unfold wp. intros Hw Hr. rewrite Hr in Hw. by destruct r. Qed.

Lemma wp_get (Q : S -> S -> Prop) E s : Q s s -> wp get Q E s.
Proof. done. Qed.

Lemma wp_put s' (Q : unit -> S -> Prop) E s : Q tt s' -> wp (put s') Q E s.
Proof. done. Qed.

Lemma wp_modify f (Q : unit -> S -> Prop) E s : Q tt (f s) -> wp (modify f) Q E s.
Proof. done. Qed.

Lemma wp_fail {A} e (Q : A -> S -> Prop) E s : E e s -> wp (fail e) Q E s.
Proof. done. Qed.
End wp_rules.

(** One step of a proof about a computation in the monad. *)
Ltac wp_base :=
  lazymatch goal with
  | |- wp (_ ≫= _) _ _ _ => apply wp_bind
  | |- wp (mret _) _ _ _ => apply wp_ret
  | |- wp (fail _) _ _ _ => apply wp_fail
  | |- wp get _ _ _ => apply wp_get
  | |- wp (put _) _ _ _ => apply wp_put
  | |- wp (modify _) _ _ _ => apply wp_modify
  | |- wp (try _) _ _ _ => apply wp_try
  end.

(** The same with a condition [X] under which the code may panic: an assertion
    on what a caller passes in, or on an allocation, can fail. *)
Definition wpp (X : Prop) {S A} (m : M S A) (Q : A -> S -> Prop) (E : Z -> S -> Prop) (s : S) : Prop :=
  match m s with
  | Done (inr a, s') => Q a s'
  | Done (inl e, s') => E e s'
  | Panic => X
  | Stuck => False
  end.

Section wpp_rules.
Context {S : Type} (X : Prop).

Lemma wp_wpp {A} (m : M S A) Q E s : wp m Q E s -> wpp X m Q E s.
Proof. unfold wp, wpp. by destruct (m s) as [[[e|a] s']| |]. Qed.

Lemma wpp_wp {A} (m : M S A) Q E s : ~ X -> wpp X m Q E s -> wp m Q E s.
Proof. unfold wp, wpp. by destruct (m s) as [[[e|a] s']| |]. Qed.

Lemma wpp_mono {A} (X' : Prop) (m : M S A) (Q Q' : A -> S -> Prop) (E E' : Z -> S -> Prop) s :
  wpp X' m Q E s -> (X' -> X) -> (forall a s', Q a s' -> Q' a s') -> (forall e s', E e s' -> E' e s') ->
  wpp X m Q' E' s.
Proof. unfold wpp. intros H HX HQ HE. destruct (m s) as [[[e|a] s']| |]; auto. Qed.

Lemma wpp_bind {A B} (m : M S A) (f : A -> M S B) Q E s :
  wpp X m (fun a s' => wpp X (f a) Q E s') E s -> wpp X (m ≫= f) Q E s.
Proof. unfold wpp, mbind, M_bind. by destruct (m s) as [[[e|a] s']| |]. Qed.

Lemma wpp_lift {A} (o : outcome A) a (Q : A -> S -> Prop) E s : o = Done a -> Q a s -> wpp X (lift o) Q E s.
Proof. unfold wpp, lift. by intros ->. Qed.

Lemma wpp_massert b (Q : unit -> S -> Prop) E s :
  (b = true -> Q tt s) -> (b = false -> X) -> wpp X (massert b) Q E s.
Proof. destruct b; cbn; auto. Qed.

Lemma wpp_try {A} (m : M S A) Q E s :
  wpp X m (fun a s' => Q (inr a) s') (fun e s' => Q (inl e) s') s -> wpp X (try m) Q E s.
Proof. unfold wpp, try. by destruct (m s) as [[[e|a] s']| |]. Qed.
End wpp_rules.

Ltac wpp_base :=
  lazymatch goal with
  | |- wpp _ (_ ≫= _) _ _ _ => apply wpp_bind
  | |- wpp _ (mret _) _ _ _ => apply wp_wpp, wp_ret
  | |- wpp _ (fail _) _ _ _ => apply wp_wpp, wp_fail
  | |- wpp _ get _ _ _ => apply wp_wpp, wp_get
  | |- wpp _ (put _) _ _ _ => apply wp_wpp, wp_put
  | |- wpp _ (modify _) _ _ _ => apply wp_wpp, wp_modify
  | |- wpp _ (try _) _ _ _ => apply wpp_try
  end.
Ltac wpp_steps := cbn beta match; repeat (wpp_base; cbn beta match).

(** ** Byte objects *)

Definition zeros (n : Z) : list Z := replicate (Z.to_nat n) 0.

Definition slice {A} (l : list A) (off n : Z) : list A := take (Z.to_nat n) (drop (Z.to_nat off) l).
Definition splice {A} (l : list A) (off : Z) (d : list A) : list A :=
  take (Z.to_nat off) l ++ d ++ drop (Z.to_nat off + length d) l.

(** [memmove] out of and into an object; outside the object it is undefined. *)
Definition mem_read (l : list Z) (off n : Z) : outcome (list Z) :=
  if bool_decide (0 <= off /\ 0 <= n /\ off + n <= Z.of_nat (length l))
  then Done (slice l off n) else Stuck.
Definition mem_write (l : list Z) (off : Z) (d : list Z) : outcome (list Z) :=
  if bool_decide (0 <= off /\ off + Z.of_nat (length d) <= Z.of_nat (length l))
  then Done (splice l off d) else Stuck.

(** A file after [d] was written at [off]: a gap reads as zeros. *)
Definition write_at (data : list Z) (off : Z) (d : list Z) : list Z :=
  take (Z.to_nat off) (data ++ zeros (off - Z.of_nat (length data))) ++ d ++ drop (Z.to_nat off + length d) data.

Section bytes.
Context {A : Type}.
Implicit Types l d : list A.

Lemma length_slice l off n :
  0 <= off -> 0 <= n -> off + n <= Z.of_nat (length l) -> Z.of_nat (length (slice l off n)) = n.
Proof. intros. unfold slice. rewrite length_take, length_drop. lia. Qed.

Lemma length_splice l off d :
  0 <= off -> off + Z.of_nat (length d) <= Z.of_nat (length l) ->
  length (splice l off d) = length l.
Proof. intros. unfold splice. rewrite !length_app, length_take, length_drop. lia. Qed.

Lemma nth_slice l off n i (x : A) :
  0 <= off -> 0 <= i < n -> nth (Z.to_nat i) (slice l off n) x = nth (Z.to_nat (off + i)) l x.
Proof.
  intros. unfold slice. rewrite !nth_lookup, lookup_take_lt, lookup_drop by lia.
  do 2 f_equal. lia.
Qed.

Lemma nth_splice l off d i (x : A) :
  0 <= off -> 0 <= i -> off + Z.of_nat (length d) <= Z.of_nat (length l) ->
  nth (Z.to_nat i) (splice l off d) x =
  if decide (off <= i < off + Z.of_nat (length d)) then nth (Z.to_nat (i - off)) d x
  else nth (Z.to_nat i) l x.
Proof.
  intros. unfold splice. rewrite !nth_lookup. case_decide.
  - rewrite lookup_app_r by (rewrite length_take; lia).
    rewrite lookup_app_l by (rewrite length_take; lia).
    rewrite length_take. do 2 f_equal. lia.
  - destruct (decide (i < off)).
    + rewrite lookup_app_l by (rewrite length_take; lia). by rewrite lookup_take_lt by lia.
    + rewrite lookup_app_r by (rewrite length_take; lia).
      rewrite lookup_app_r by (rewrite length_take; lia).
      rewrite lookup_drop, length_take. do 2 f_equal. lia.
Qed.

Lemma splice_nil l off : splice l off [] = l.
Proof. unfold splice. cbn. rewrite Nat.add_0_r. apply take_drop. Qed.

Lemma splice_app l off d d' :
  0 <= off -> off + Z.of_nat (length d) + Z.of_nat (length d') <= Z.of_nat (length l) ->
  splice (splice l off d) (off + Z.of_nat (length d)) d' = splice l off (d ++ d').
Proof.
  intros. unfold splice.
  rewrite (app_assoc (take _ l) d), take_app_length' by (rewrite length_app, length_take; lia).
  rewrite drop_app_ge by (rewrite length_app, length_take; lia).
  rewrite length_app, length_take, drop_drop, <- !app_assoc, length_app. do 3 f_equal. f_equal. lia.
Qed.

Lemma splice_before l off d d' :
  0 <= off -> off + Z.of_nat (length d) + Z.of_nat (length d') <= Z.of_nat (length l) ->
  splice (splice l (off + Z.of_nat (length d)) d') off d = splice l off (d ++ d').
Proof.
  intros. unfold splice. rewrite take_app_le by (rewrite length_take; lia).
  rewrite take_take, Nat.min_l, <- app_assoc, length_app by lia. do 2 f_equal.
  rewrite drop_app_ge by (rewrite length_take; lia).
  replace (_ - _)%nat with 0%nat by (rewrite length_take; lia). rewrite drop_0.
  do 2 f_equal. lia.
Qed.

Lemma splice_all l d : length d = length l -> splice l 0 d = d.
Proof.
  intros Hl. unfold splice. change (Z.to_nat 0) with 0%nat. cbn [take app Nat.add].
  rewrite drop_ge by lia. apply app_nil_r.
Qed.

Lemma slice_all l n : n = Z.of_nat (length l) -> slice l 0 n = l.
Proof. intros ->. unfold slice. rewrite drop_0, Nat2Z.id. apply firstn_all. Qed.

Lemma slice_app l b n1 n2 :
  0 <= b -> 0 <= n1 -> 0 <= n2 -> slice l b n1 ++ slice l (b + n1) n2 = slice l b (n1 + n2).
Proof.
  intros. unfold slice. rewrite (Z2Nat.inj_add n1), (Z2Nat.inj_add b), <- drop_drop by lia.
  by rewrite take_take_drop.
Qed.

Lemma slice_mul_0 l off k : slice l off (k * 0) = [].
Proof. by rewrite Z.mul_0_r. Qed.

(** What was written elsewhere does not show. *)
Lemma slice_splice_away l off d b n :
  0 <= off -> 0 <= b -> 0 <= n -> off + Z.of_nat (length d) <= Z.of_nat (length l) -> b + n <= Z.of_nat (length l) ->
  b + n <= off \/ off + Z.of_nat (length d) <= b ->
  slice (splice l off d) b n = slice l b n.
Proof.
  intros. unfold slice, splice. apply list_eq. intros i.
  destruct (decide (i < Z.to_nat n)%nat); [|by rewrite !lookup_take_ge by lia].
  rewrite !lookup_take_lt, !lookup_drop by lia.
  destruct (decide (b + n <= off)).
  - rewrite lookup_app_l by (rewrite length_take; lia). by rewrite lookup_take_lt by lia.
  - rewrite !lookup_app_r by (rewrite ?length_take; lia).
    rewrite lookup_drop, !length_take. f_equal. lia.
Qed.

(** Lists of equal length that agree everywhere are equal. *)
Lemma list_nth_eq l l' (x : A) :
  length l = length l' -> (forall i, 0 <= i < Z.of_nat (length l) -> nth (Z.to_nat i) l x = nth (Z.to_nat i) l' x) ->
  l = l'.
Proof.
  intros Hl H. apply (nth_ext _ _ x x); [done|]. intros n Hn.
  specialize (H (Z.of_nat n)). rewrite Nat2Z.id in H. apply H. lia.
Qed.
End bytes.

Lemma mem_read_ok l off n :
  0 <= off -> 0 <= n -> off + n <= Z.of_nat (length l) -> mem_read l off n = Done (slice l off n).
Proof. intros. unfold mem_read. by rewrite bool_decide_eq_true_2 by lia. Qed.

Lemma mem_write_ok l off d :
  0 <= off -> off + Z.of_nat (length d) <= Z.of_nat (length l) ->
  mem_write l off d = Done (splice l off d).
Proof. intros. unfold mem_write. by rewrite bool_decide_eq_true_2 by lia. Qed.

Lemma length_zeros n : 0 <= n -> Z.of_nat (length (zeros n)) = n.
Proof. intros. unfold zeros. rewrite length_replicate. lia. Qed.

Lemma nth_zeros n i : nth i (zeros n) 0 = 0.
Proof.
  unfold zeros. rewrite nth_lookup. destruct (replicate _ 0 !! i) eqn:E; [|done].
  by apply lookup_replicate in E as [-> _].
Qed.

#[export] Hint Resolve mem_read_ok mem_write_ok : os.
