(* ===== verification/KArray.v ===== *)
(** * Growable arrays of pointers: [kern/lib/array.c]

    The [struct array] with its count, its capacity and its (possibly NULL)
    vector; every operation of the file; and the proof that the operations
    implement a list of cells. *)

From S2P Require Import Prelude.

Module KArray.

(** ** State *)

Record array := mkArray {
  num : Z;
  max : Z;
  v : option (list cell)      (* None is the NULL vector *)
}.

(** The vector as an object; dereferencing NULL is undefined. *)
Definition deref (w : option (list cell)) : outcome (list cell) :=
  match w with Some l => Done l | None => Stuck end.

(** ** Operations *)

Definition array_create (o : oracle) : option array * oracle :=
  let '(ok, o) := kmalloc_ok o in
  if ok then (Some (mkArray 0 0 None), o) else (None, o).

Definition array_getnum (a : array) : Z := num a.

Definition array_getguy (a : array) (index : Z) : outcome cell :=
  assert! bool_decide (num a <= max a) ;;
  assert! bool_decide (0 <= index < num a) ;;
  l ← deref (v a);
  getZ l index.

(** The [while (nguys > newmax)] loop; each turn at least doubles [newmax], so
    32 turns are enough for any [int]. *)
Fixpoint grow_max (fuel : nat) (nguys newmax : Z) : outcome Z :=
  if bool_decide (nguys > newmax) then
    match fuel with
    | O => Stuck
    | S fuel =>
        newmax1 ← int_op (newmax + 1);
        newmax2 ← int_op (newmax1 * 2);
        grow_max fuel nguys newmax2
    end
  else Done newmax.

(** [for (i=0; i<a->num; i++) newv[i] = a->v[i];] *)
Fixpoint copy_cells (n : nat) (i : Z) (src : option (list cell)) (newv : list cell)
    : outcome (list cell) :=
  match n with
  | O => Done newv
  | S n =>
      l ← deref src;
      x ← getZ l i;
      newv ← setZ newv i x;
      copy_cells n (i + 1) src newv
  end.

Definition array_preallocate (a : array) (nguys : Z) (o : oracle)
    : outcome (Z * array * oracle) :=
  assert! bool_decide (0 <= num a <= max a) ;;
  newmax ← grow_max 32 nguys (max a);
  let '(ok, o) := kmalloc_ok o in
  if ok then
    let bytes := u32 (newmax * SIZEOF_PTR) in
    let newv := replicate (Z.to_nat (bytes / SIZEOF_PTR)) None in
    newv ← copy_cells (Z.to_nat (num a)) 0 (v a) newv;
    Done (0, mkArray (num a) newmax (Some newv), o)
  else Done (ENOMEM, a, o).

Definition array_setsize (a : array) (nguys : Z) (o : oracle)
    : outcome (Z * array * oracle) :=
  assert! bool_decide (0 <= num a <= max a) ;;
  if bool_decide (nguys > max a) then
    '(result, a, o) ← array_preallocate a nguys o;
    if bool_decide (result ≠ 0) then Done (result, a, o)
    else Done (0, mkArray nguys (max a) (v a), o)
  else if bool_decide (nguys = 0 /\ max a > 16) then
    assert! bool_decide (v a ≠ None) ;;
    Done (0, mkArray nguys 0 None, o)
  else Done (0, mkArray nguys (max a) (v a), o).

Definition array_setguy (a : array) (index : Z) (p : ptr) : outcome array :=
  assert! bool_decide (num a <= max a) ;;
  assert! bool_decide (0 <= index < num a) ;;
  l ← deref (v a);
  l ← setZ l index (Some p);
  Done (mkArray (num a) (max a) (Some l)).

Definition array_add (a : array) (guy : ptr) (o : oracle)
    : outcome (Z * array * oracle) :=
  let ix := num a in
  ix1 ← int_op (ix + 1);
  '(result, a, o) ← array_setsize a ix1 o;
  if bool_decide (result ≠ 0) then Done (result, a, o)
  else
    l ← deref (v a);
    l ← setZ l ix (Some guy);
    Done (0, mkArray (num a) (max a) (Some l), o).

(** [memmove(v+index, v+index+1, nmove * sizeof(void * ))] inside one object. *)
Definition move_down (l : list cell) (index nmove : Z) : outcome (list cell) :=
  if bool_decide (0 <= nmove /\ 0 <= index /\ index + 1 + nmove <= Z.of_nat (length l))
  then Done (take (Z.to_nat index) l
             ++ take (Z.to_nat nmove) (drop (Z.to_nat (index + 1)) l)
             ++ drop (Z.to_nat (index + nmove)) l)
  else Stuck.

Definition array_remove (a : array) (index : Z) : outcome array :=
  assert! bool_decide (num a <= max a) ;;
  assert! bool_decide (0 <= index < num a) ;;
  let nmove := num a - (index + 1) in
  l ← deref (v a);
  l ← move_down l index nmove;
  Done (mkArray (num a - 1) (max a) (Some l)).

(** The objects [array_destroy] hands to [kfree], in order: the vector when
    there is one, then the array itself. *)
Definition array_destroy (a : array) : list (array + list cell) :=
  match v a with Some l => [inr l] | None => [] end ++ [inl a].

(** ** Well-formedness and the list an array stands for *)

(** Largest capacity for which [max * sizeof(void * )] is not reduced. *)
Definition MAX_CELLS : Z := 1073741824.

Record wf (a : array) : Prop := {
  wf_num : 0 <= num a <= max a;
  wf_max : max a < MAX_CELLS;
  wf_vec : Z.of_nat (length (default [] (v a))) = max a;
}.

Definition contents (a : array) : list cell := take (Z.to_nat (num a)) (default [] (v a)).

(** A run of [array_add]s by a caller that asserts that each returned 0, the
    way [mi_switch] does. *)
Fixpoint add_all (a : array) (ps : list ptr) (o : oracle) : outcome (array * oracle) :=
  match ps with
  | [] => Done (a, o)
  | p :: ps =>
      '(result, a, o) ← array_add a p o;
      assert! bool_decide (result = 0) ;;
      add_all a ps o
  end.

(** ** Lemmas *)

Lemma length_contents a : wf a -> Z.of_nat (length (contents a)) = num a.
Proof. intros [? ? ?]. unfold contents. rewrite length_take. lia. Qed.

Lemma wf_deref a : wf a -> 0 < max a -> exists l, v a = Some l /\ Z.of_nat (length l) = max a.
Proof. intros [? ? Hv] ?. destruct (v a) as [l|]; cbn in *; [eauto|lia]. Qed.

(** The loop ends with a capacity that is large enough and at most twice what
    was asked for. *)
Lemma grow_max_spec fuel nguys m :
  0 <= m -> nguys <= 536870912 -> (nguys + 1) <= (m + 1) * 2 ^ Z.of_nat fuel ->
  exists m', grow_max fuel nguys m = Done m' /\ nguys <= m' /\ m <= m' /\
    (m' = m \/ m' <= 2 * nguys).
Proof.
  revert m. induction fuel as [|fuel IH]; intros m Hm Hn Hf; cbn [grow_max].
  - rewrite bool_decide_eq_false_2 by lia. exists m. auto with lia.
  - case_bool_decide as Hgt.
    + step_tests.
      destruct (IH ((m + 1) * 2)) as (m' & -> & ? & ? & ?); [lia..| |].
      { rewrite Nat2Z.inj_succ, Z.pow_succ_r in Hf by lia.
        assert (0 < 2 ^ Z.of_nat fuel) by (apply Z.pow_pos_nonneg; lia). nia. }
      exists m'. intuition lia.
    + exists m. auto with lia.
Qed.

Lemma copy_cells_spec n i src newv :
  0 <= i -> i + Z.of_nat n <= Z.of_nat (length src) ->
  i + Z.of_nat n <= Z.of_nat (length newv) ->
  copy_cells n i (Some src) newv =
  Done (take (Z.to_nat i) newv ++ take n (drop (Z.to_nat i) src)
        ++ drop (Z.to_nat i + n) newv).
Proof.
  revert i newv. induction n as [|n IH]; intros i newv Hi Hs Hd; cbn [copy_cells].
  - rewrite take_0, Nat.add_0_r, app_nil_l, take_drop. done.
  - cbn [deref mbind outcome_bind].
    destruct (getZ_total src i) as (x & -> & Hx); [lia|]. cbn [mbind outcome_bind].
    rewrite setZ_ok by lia. cbn [mbind outcome_bind].
    rewrite IH by (rewrite ?length_insert; lia).
    replace (Z.to_nat (i + 1)) with (S (Z.to_nat i)) by lia.
    rewrite (take_S_r _ (Z.to_nat i) x) by (apply list_lookup_insert_eq; lia).
    rewrite take_insert_ge by lia. rewrite <- app_assoc. cbn [app].
    rewrite drop_insert_lt by lia.
    rewrite (drop_S src x (Z.to_nat i)) by done. cbn [take app].
    by replace (Z.to_nat i + S n)%nat with (S (Z.to_nat i) + n)%nat by lia.
Qed.

(** Copying the live prefix into the fresh block. *)
Lemma copy_all a newmax :
  wf a -> max a <= newmax ->
  exists l, copy_cells (Z.to_nat (num a)) 0 (v a) (replicate (Z.to_nat newmax) None) = Done l
    /\ Z.of_nat (length l) = newmax /\ take (Z.to_nat (num a)) l = contents a.
Proof.
  intros Hwf Hm. destruct (decide (num a = 0)) as [H0|H0].
  - rewrite H0. cbn. exists (replicate (Z.to_nat newmax) None).
    destruct Hwf. rewrite length_replicate. unfold contents. rewrite H0. cbn. auto with lia.
  - destruct (wf_deref a Hwf) as (l & Hl & Hlen); [destruct Hwf; lia|].
    destruct Hwf as [Hn _ _]. rewrite Hl.
    rewrite copy_cells_spec by (rewrite ?length_replicate; lia). eexists. split; [done|].
    unfold contents. rewrite Hl. change (Z.to_nat 0) with 0%nat. cbn [take app drop default].
    rewrite take_0, app_nil_l, drop_0, Nat.add_0_l.
    rewrite length_app, length_take, length_drop, length_replicate.
    rewrite take_app_le by (rewrite length_take; lia).
    rewrite take_take, Nat.min_id. split; [lia|done].
Qed.

(** [array_preallocate]: on success the same contents with room for [nguys], on
    failure the array is untouched. *)
Lemma array_preallocate_spec a nguys o :
  wf a -> nguys < 536870912 ->
  exists r a' o', array_preallocate a nguys o = Done (r, a', o') /\
    o' = (kmalloc_ok o).2 /\
    if (kmalloc_ok o).1
    then r = 0 /\ wf a' /\ num a' = num a /\ nguys <= max a' /\ max a <= max a'
         /\ contents a' = contents a
    else r = ENOMEM /\ a' = a.
Proof.
  intros Hwf Hn. unfold array_preallocate. pose proof (wf_num a Hwf). pose proof (wf_max a Hwf).
  step_tests.
  destruct (grow_max_spec 32 nguys (max a)) as (m & -> & ? & ? & ?); [lia|lia|cbn; lia|].
  cbn [mbind outcome_bind]. destruct (kmalloc_ok o) as [[] o'']; cbn.
  - assert (m < MAX_CELLS) by (unfold MAX_CELLS in *; lia).
    rewrite u32_small by (unfold SIZEOF_PTR, MAX_CELLS in *; lia).
    unfold SIZEOF_PTR. rewrite Z.div_mul by lia.
    destruct (copy_all a m Hwf) as (l & -> & Hlen & Htake); [lia|]. cbn.
    do 3 eexists. split; [done|]. split; [done|]. cbn.
    repeat split; cbn; auto; lia.
  - do 3 eexists. split; [done|]. done.
Qed.

(** [array_setsize] up to the capacity keeps the vector, unless it empties a
    large array. *)
Lemma array_setsize_within a nguys o :
  wf a -> 0 <= nguys <= max a -> (nguys = 0 -> max a <= 16) ->
  array_setsize a nguys o = Done (0, mkArray nguys (max a) (v a), o).
Proof.
  intros Hwf Hn H0. unfold array_setsize. pose proof (wf_num a Hwf).
  by step_tests.
Qed.

(** Emptying an array whose capacity exceeds 16 gives its storage back. *)
Lemma array_setsize_drop a o :
  wf a -> max a > 16 -> array_setsize a 0 o = Done (0, mkArray 0 0 None, o).
Proof.
  intros Hwf Hm. unfold array_setsize. pose proof (wf_num a Hwf). step_tests.
  destruct (wf_deref a Hwf) as (l & -> & _); [lia|]. done.
Qed.

(** Writing cell [num a] of an array with a spare cell appends to the list. *)
Lemma contents_snoc a l p :
  v a = Some l -> Z.of_nat (length l) = max a -> 0 <= num a < max a ->
  take (Z.to_nat (num a + 1)) (<[Z.to_nat (num a) := Some p]> l) = contents a ++ [Some p].
Proof.
  intros Hv Hl Hn. replace (Z.to_nat (num a + 1)) with (S (Z.to_nat (num a))) by lia.
  rewrite (take_S_r _ _ (Some p)) by (apply list_lookup_insert_eq; lia).
  rewrite take_insert_ge by lia. unfold contents. by rewrite Hv.
Qed.

Lemma array_add_room a p o :
  wf a -> num a < max a ->
  exists a', array_add a p o = Done (0, a', o) /\ wf a' /\ max a' = max a /\
    num a' = num a + 1 /\ contents a' = contents a ++ [Some p].
Proof.
  intros Hwf Hr. pose proof (wf_num a Hwf). pose proof (wf_max a Hwf) as Hm.
  unfold MAX_CELLS in Hm. unfold array_add. step_tests.
  rewrite array_setsize_within by (auto; lia). cbn.
  destruct (wf_deref a Hwf) as (l & Hv & Hl); [lia|]. rewrite Hv. cbn.
  rewrite setZ_ok by lia. cbn. eexists. split; [done|]. cbn.
  split; [|split; [done|split; [done|]]].
  - split; cbn; rewrite ?length_insert; [lia|by apply wf_max|done].
  - unfold contents at 1. cbn. apply contents_snoc; [done..|lia].
Qed.

Lemma array_add_full a p o :
  wf a -> num a = max a -> num a + 1 < 536870912 ->
  exists r a' o', array_add a p o = Done (r, a', o') /\ o' = (kmalloc_ok o).2 /\
    if (kmalloc_ok o).1
    then r = 0 /\ wf a' /\ max a <= max a' /\ contents a' = contents a ++ [Some p]
    else r = ENOMEM /\ a' = a.
Proof.
  intros Hwf Hf Hb. pose proof (wf_num a Hwf). unfold array_add. step_tests.
  unfold array_setsize. step_tests.
  destruct (array_preallocate_spec a (num a + 1) o Hwf) as (r & a1 & o1 & -> & -> & Hr); [lia|].
  destruct (kmalloc_ok o) as [[] o2]; cbn in *.
  - destruct Hr as (-> & Hwf1 & Hnum & Hmax & Hmm & Hc). step_tests. cbn. step_tests.
    destruct (wf_deref a1 Hwf1) as (l & Hv & Hl); [lia|]. rewrite Hv. cbn.
    rewrite setZ_ok by (pose proof (wf_num a1 Hwf1); lia). cbn.
    do 3 eexists. split; [done|]. split; [done|]. split; [done|]. split.
    + pose proof (wf_num a1 Hwf1). pose proof (wf_max a1 Hwf1).
      split; cbn; rewrite ?length_insert; [lia..|done].
    + split; [done|]. rewrite <- Hc, <- Hnum. unfold contents at 1. cbn.
      rewrite contents_snoc with (a := a1); [done..|lia].
  - destruct Hr as [-> ->]. unfold ENOMEM. step_tests. cbn. step_tests.
    do 3 eexists. split; [done|]. done.
Qed.

Lemma array_add_spec a p o :
  wf a -> num a + 1 < 536870912 ->
  exists r a' o', array_add a p o = Done (r, a', o') /\ wf a' /\ max a <= max a' /\
    ((r = 0 /\ contents a' = contents a ++ [Some p]) \/
     (r = ENOMEM /\ a' = a /\ num a = max a /\ (kmalloc_ok o).1 = false)).
Proof.
  intros Hwf Hb. destruct (decide (num a < max a)) as [Hlt|Hge].
  - destruct (array_add_room a p o Hwf Hlt) as (a' & -> & ? & Hm & _ & ?).
    do 3 eexists. split; [done|]. split; [done|]. split; [lia|]. auto.
  - destruct (array_add_full a p o Hwf) as (r & a' & o' & -> & _ & H); [pose proof (wf_num a Hwf); lia|lia|].
    do 3 eexists. split; [done|].
    destruct ((kmalloc_ok o).1) eqn:E; destruct_and? H; subst; auto.
    split; [done|]. split; [lia|]. right. pose proof (wf_num a Hwf). auto with lia.
Qed.

Lemma array_remove_spec a i :
  wf a -> 0 <= i < num a ->
  exists a', array_remove a i = Done a' /\ wf a' /\ max a' = max a /\ num a' = num a - 1 /\
    contents a' = delete (Z.to_nat i) (contents a).
Proof.
  intros Hwf Hi. pose proof (wf_num a Hwf). pose proof (wf_max a Hwf).
  destruct (wf_deref a Hwf) as (l & Hv & Hl); [lia|].
  unfold array_remove. rewrite Hv. step_tests. cbn [deref mbind outcome_bind].
  unfold move_down. rewrite bool_decide_eq_true_2 by lia. cbn.
  eexists. split; [done|]. split; [|split; [done|split; [done|]]].
  - split; cbn; [lia|lia|]. rewrite !length_app, !length_take, !length_drop. lia.
  - unfold contents. cbn. rewrite Hv. cbn. rewrite delete_take_drop, take_take.
    rewrite app_assoc, take_app_le by (rewrite length_app, !length_take, length_drop; lia).
    rewrite take_app_ge by (rewrite length_take; lia).
    rewrite length_take, take_take, skipn_firstn_comm.
    f_equal; [f_equal; lia|]. f_equal; [lia|f_equal; lia].
Qed.

Lemma array_getguy_spec a i :
  wf a -> 0 <= i < num a ->
  exists c, array_getguy a i = Done c /\ contents a !! Z.to_nat i = Some c.
Proof.
  intros Hwf Hi. pose proof (wf_num a Hwf). destruct (wf_deref a Hwf) as (l & Hv & Hl); [lia|].
  unfold array_getguy. rewrite Hv. step_tests. cbn [deref mbind outcome_bind].
  destruct (getZ_total l i) as (c & -> & Hc); [lia|]. exists c. split; [done|].
  unfold contents. rewrite Hv. cbn. by rewrite lookup_take_lt by lia.
Qed.

Lemma array_setguy_spec a i p :
  wf a -> 0 <= i < num a ->
  exists a', array_setguy a i p = Done a' /\ wf a' /\ contents a' = <[Z.to_nat i := Some p]> (contents a).
Proof.
  intros Hwf Hi. pose proof (wf_num a Hwf). pose proof (wf_max a Hwf).
  destruct (wf_deref a Hwf) as (l & Hv & Hl); [lia|].
  unfold array_setguy. rewrite Hv. step_tests. cbn [deref mbind outcome_bind]. rewrite setZ_ok by lia. cbn.
  eexists. split; [done|]. split; [by split; cbn; rewrite ?length_insert|].
  unfold contents. rewrite Hv. cbn. by rewrite take_insert_lt by lia.
Qed.

(** [array_setsize] that does not grow the array. *)
Lemma array_setsize_shrink a n o :
  wf a -> 0 <= n <= num a ->
  exists a', array_setsize a n o = Done (0, a', o) /\ wf a' /\ num a' = n /\
    contents a' = take (Z.to_nat n) (contents a).
Proof.
  intros Hwf Hn. pose proof (wf_num a Hwf). destruct (decide (n = 0 /\ max a > 16)) as [[-> Hm]|Hm].
  - rewrite array_setsize_drop by done. eexists. split; [done|]. done.
  - rewrite array_setsize_within by (done || lia). eexists. split; [done|]. split; [|split; [done|]].
    + split; [cbn; lia|apply Hwf|apply Hwf].
    + unfold contents. cbn. by rewrite take_take, Nat.min_l by lia.
Qed.

(** ** Properties *)

(** The operations that change an array, and what each does to the list. *)
Inductive op := Add (p : ptr) | Remove (i : Z) | Setguy (i : Z) (p : ptr) | Shrink (n : Z) | Preallocate (n : Z).

Definition exec (x : op) (a : array) (o : oracle) : outcome (Z * array * oracle) :=
  match x with
  | Add p => array_add a p o
  | Remove i => a' ← array_remove a i; Done (0, a', o)
  | Setguy i p => a' ← array_setguy a i p; Done (0, a', o)
  | Shrink n => array_setsize a n o
  | Preallocate n => array_preallocate a n o
  end.

Definition in_range (x : op) (a : array) : Prop :=
  match x with
  | Add _ => num a + 1 < 536870912
  | Remove i | Setguy i _ => 0 <= i < num a
  | Shrink n => 0 <= n <= num a
  | Preallocate n => n < 536870912
  end.

Definition list_op (x : op) (l : list cell) : list cell :=
  match x with
  | Add p => l ++ [Some p]
  | Remove i => delete (Z.to_nat i) l
  | Setguy i p => <[Z.to_nat i := Some p]> l
  | Shrink n => take (Z.to_nat n) l
  | Preallocate _ => l
  end.

(** The array operations implement the operations on lists: each returns 0
    and changes the list as it should, or returns ENOMEM, because the allocator
    answered NULL, and leaves the array alone; no assertion fails and no access
    leaves the vector. *)
Theorem array_ops_refine (x : op) (a : array) (o : oracle) :
  wf a -> in_range x a ->
  exists r a' o', exec x a o = Done (r, a', o') /\ wf a' /\
    ((r = 0 /\ contents a' = list_op x (contents a)) \/
     (r = ENOMEM /\ a' = a /\ (kmalloc_ok o).1 = false)).
Proof.
  intros Hwf Hr. destruct x as [p|i|i p|n|n]; cbn in *.
  - destruct (array_add_spec a p o Hwf Hr) as (r & a' & o' & -> & ? & _ & H). naive_solver.
  - destruct (array_remove_spec a i Hwf Hr) as (a' & -> & ? & _ & _ & ?). naive_solver.
  - destruct (array_setguy_spec a i p Hwf Hr) as (a' & -> & ? & ?). naive_solver.
  - destruct (array_setsize_shrink a n o Hwf Hr) as (a' & -> & ? & _ & ?). naive_solver.
  - destruct (array_preallocate_spec a n o Hwf Hr) as (r & a' & o' & -> & _ & H).
    destruct ((kmalloc_ok o).1); naive_solver.
Qed.

(** The contract [thread_fork] relies on: once [array_preallocate] has
    returned 0 for [n] cells, additions that keep the array within [n] cells
    succeed whatever the allocator answers, and they ask it nothing. *)
Theorem array_preallocate_guarantee (a a1 : array) (n : Z) (o o1 : oracle) :
  wf a -> n < 536870912 -> array_preallocate a n o = Done (0, a1, o1) ->
  forall (ps : list ptr) (o2 : oracle), num a + Z.of_nat (length ps) <= n ->
  exists a2, add_all a1 ps o2 = Done (a2, o2) /\ wf a2 /\ contents a2 = contents a ++ (Some <$> ps).
Proof.
  intros Hwf Hn Hpre ps o2 Hps.
  destruct (array_preallocate_spec a n o Hwf Hn) as (r & a' & o' & Heq & _ & H).
  rewrite Heq in Hpre. injection Hpre as -> -> ->.
  destruct ((kmalloc_ok o).1); [|by destruct H].
  destruct H as (_ & Hwf1 & Hnum & Hmax & _ & Hc). rewrite <- Hc.
  rewrite <- Hnum in Hps. clear Hc Hnum Heq.
  revert a1 Hwf1 Hmax Hps. induction ps as [|p ps IH]; intros a1 Hwf1 Hmax Hps; cbn [add_all] in *.
  - exists a1. rewrite app_nil_r. auto.
  - destruct (array_add_room a1 p o2 Hwf1) as (a2 & -> & Hwf2 & Hm2 & Hn2 & Hc2); [cbn in *; lia|].
    step_tests.
    destruct (IH a2) as (a3 & -> & ? & Hc3); [done|lia|cbn in *; lia|].
    exists a3. split; [done|]. split; [done|]. by rewrite Hc3, Hc2, <- app_assoc.
Qed.

(** Emptying an array with [array_setsize] keeps that contract only for
    small arrays: when the capacity exceeds 16 the preallocated cells are
    freed, and the next [array_add] needs the allocator again. *)
Theorem array_setsize_0_drops_preallocation (a : array) (o : oracle) (p : ptr) :
  wf a -> max a > 16 ->
  array_setsize a 0 o = Done (0, mkArray 0 0 None, o) /\
  array_add (mkArray 0 0 None) p [] = Done (ENOMEM, mkArray 0 0 None, []).
Proof. intros Hwf Hm. split; [by apply array_setsize_drop|reflexivity]. Qed.

(** ** Witnesses *)

Definition ex_array : array := mkArray 2 2 (Some [Some 100; Some 200]).

Lemma ex_array_wf : wf ex_array.
Proof. split; vm_compute; intuition congruence. Qed.

Lemma array_ops_refine_witness :
  exists r a' o', exec (Add 300) ex_array [true] = Done (r, a', o') /\ wf a' /\
    ((r = 0 /\ contents a' = contents ex_array ++ [Some 300]) \/
     (r = ENOMEM /\ a' = ex_array /\ (kmalloc_ok [true]).1 = false)).
Proof. apply (array_ops_refine (Add 300) ex_array [true]); [apply ex_array_wf|cbn; lia]. Defined.

Lemma array_preallocate_guarantee_witness :
  exists a2, add_all (mkArray 2 6 (Some [Some 100; Some 200; None; None; None; None]))
    [7; 8; 9] [] = Done (a2, []) /\ wf a2 /\ contents a2 = contents ex_array ++ (Some <$> [7; 8; 9]).
Proof.
  apply (array_preallocate_guarantee ex_array _ 5 [true] []);
    [apply ex_array_wf|lia|reflexivity|cbn; lia].
Defined.

Lemma array_setsize_0_drops_preallocation_witness :
  let a := mkArray 0 20 (Some (replicate 20 None)) in
  array_setsize a 0 [] = Done (0, mkArray 0 0 None, []) /\
  array_add (mkArray 0 0 None) 1 [] = Done (ENOMEM, mkArray 0 0 None, []).
Proof.
  apply (array_setsize_0_drops_preallocation _ []); [|cbn; lia].
  split; vm_compute; intuition congruence.
Defined.

End KArray.
