(* ===== verification/KBitmap.v ===== *)
(** * Bitmaps: [kern/lib/bitmap.c]

    The bitmap that SFS uses as its free map: a vector of bytes, the scan for
    a clear bit, marking and unmarking.  The byte-level operations are proved
    to implement a finite set of bit numbers. *)

From S2P Require Import Prelude.

Module KBitmap.

Definition BITS_PER_WORD : Z := 8.
Definition WORD_ALLBITS : Z := 255.

(** [DIVROUNDUP] of [kern/include/lib.h] on [u_int32_t] operands. *)
Definition DIVROUNDUP (a b : Z) : Z := u32 (a + b - 1) / b.

Record bitmap := mkBitmap {
  nbits : Z;
  v : list Z                  (* WORD_TYPE is unsigned char *)
}.

(** [((WORD_TYPE)1) << offset] *)
Definition word_mask (offset : Z) : Z := u8 (Z.shiftl 1 offset).

(** [v[ix] |= mask] *)
Definition or_word (l : list Z) (ix mask : Z) : outcome (list Z) :=
  w ← getZ l ix;
  setZ l ix (u8 (Z.lor w mask)).

(** The loop [for (j=overbits; j<BITS_PER_WORD; j++)] of [bitmap_create]. *)
Fixpoint mark_over (n : nat) (j ix : Z) (l : list Z) : outcome (list Z) :=
  match n with
  | O => Done l
  | S n =>
      l ← or_word l ix (word_mask j);
      mark_over n (j + 1) ix l
  end.

Definition bitmap_create (nb : Z) (o : oracle) : outcome (option bitmap * oracle) :=
  let words := DIVROUNDUP nb BITS_PER_WORD in
  let '(ok, o) := kmalloc_ok o in
  if negb ok then Done (None, o) else
  let '(ok, o) := kmalloc_ok o in
  if negb ok then Done (None, o) else
  let l := replicate (Z.to_nat words) 0 in
  if bool_decide (nb / BITS_PER_WORD < words) then
    let ix := u32 (words - 1) in
    let overbits := u32 (nb - ix * BITS_PER_WORD) in
    assert! bool_decide (nb / BITS_PER_WORD = u32 (words - 1)) ;;
    assert! bool_decide (0 < overbits < BITS_PER_WORD) ;;
    l ← mark_over (Z.to_nat (BITS_PER_WORD - overbits)) overbits ix l;
    Done (Some (mkBitmap nb l), o)
  else Done (Some (mkBitmap nb l), o).

Definition bitmap_getdata (b : bitmap) : list Z := v b.

(** The inner loop of [bitmap_alloc] over the offsets of one word. *)
Fixpoint find_clear (n : nat) (w offset : Z) : option Z :=
  match n with
  | O => None
  | S n =>
      if bool_decide (Z.land w (word_mask offset) = 0) then Some offset
      else find_clear n w (offset + 1)
  end.

(** The outer loop of [bitmap_alloc], [n] words from [ix] on. *)
Fixpoint alloc_scan (n : nat) (ix : Z) (b : bitmap) : outcome (Z * option Z * bitmap) :=
  match n with
  | O => Done (ENOSPC, None, b)
  | S n =>
      w ← getZ (v b) ix;
      if bool_decide (w ≠ WORD_ALLBITS) then
        match find_clear 8 w 0 with
        | Some offset =>
            l ← or_word (v b) ix (word_mask offset);
            let index := u32 (u32 (ix * BITS_PER_WORD) + offset) in
            assert! bool_decide (index < nbits b) ;;
            Done (0, Some index, mkBitmap (nbits b) l)
        | None => Panic
        end
      else alloc_scan n (ix + 1) b
  end.

Definition bitmap_alloc (b : bitmap) : outcome (Z * option Z * bitmap) :=
  let maxix := DIVROUNDUP (nbits b) BITS_PER_WORD in
  alloc_scan (Z.to_nat maxix) 0 b.

Definition bitmap_translate (bitno : Z) : Z * Z :=
  (bitno / BITS_PER_WORD, word_mask (bitno mod BITS_PER_WORD)).

Definition bitmap_mark (b : bitmap) (index : Z) : outcome bitmap :=
  assert! bool_decide (index < nbits b) ;;
  let '(ix, mask) := bitmap_translate index in
  w ← getZ (v b) ix;
  assert! bool_decide (Z.land w mask = 0) ;;
  l ← or_word (v b) ix mask;
  Done (mkBitmap (nbits b) l).

Definition bitmap_unmark (b : bitmap) (index : Z) : outcome bitmap :=
  assert! bool_decide (index < nbits b) ;;
  let '(ix, mask) := bitmap_translate index in
  w ← getZ (v b) ix;
  assert! bool_decide (Z.land w mask ≠ 0) ;;
  l ← setZ (v b) ix (u8 (Z.land w (Z.lnot mask)));
  Done (mkBitmap (nbits b) l).

Definition bitmap_isset (b : bitmap) (index : Z) : outcome Z :=
  let '(ix, mask) := bitmap_translate index in
  w ← getZ (v b) ix;
  Done (Z.land w mask).

(** The objects [bitmap_destroy] hands to [kfree], in order. *)
Definition bitmap_destroy (b : bitmap) : list (bitmap + list Z) := [inr (v b); inl b].

(** ** The set of bit numbers a bitmap stands for *)

Definition bit (b : bitmap) (i : Z) : bool :=
  Z.testbit (nth (Z.to_nat (i / BITS_PER_WORD)) (v b) 0) (i mod BITS_PER_WORD).

Record wf (b : bitmap) : Prop := {
  wf_nbits : 0 <= nbits b < 4294967288;
  wf_len : Z.of_nat (length (v b)) = (nbits b + 7) / 8;
  wf_bytes : Forall (fun w => 0 <= w < 256) (v b);
  (* the bits past the end of the last word are marked *)
  wf_over : forall i, nbits b <= i < 8 * ((nbits b + 7) / 8) -> bit b i = true
}.

(** ** Bits of one word *)

Lemma testbit_word_mask k j :
  0 <= k < 8 -> 0 <= j < 8 -> Z.testbit (word_mask k) j = bool_decide (j = k).
Proof.
  intros Hk Hj. unfold word_mask, u8. change 256 with (2 ^ 8).
  rewrite Z.mod_pow2_bits_low by lia.
  rewrite Z.shiftl_1_l, Z.pow2_bits_eqb by lia.
  case_bool_decide; [subst; apply Z.eqb_refl|apply Z.eqb_neq; lia].
Qed.

Lemma word_mask_small k : 0 <= k < 8 -> word_mask k = 2 ^ k.
Proof.
  intros. unfold word_mask, u8. rewrite Z.shiftl_1_l. apply Z.mod_small.
  split; [apply Z.pow_nonneg; lia|]. change 256 with (2 ^ 8). apply Z.pow_lt_mono_r; lia.
Qed.

Lemma land_mask_0 w k : 0 <= k < 8 -> Z.land w (word_mask k) = 0 <-> Z.testbit w k = false.
Proof.
  intros Hk. rewrite word_mask_small by done. apply land_pow2_0. lia.
Qed.

Lemma testbit_u8 w j : 0 <= j < 8 -> Z.testbit (u8 w) j = Z.testbit w j.
Proof. intros. unfold u8. change 256 with (2 ^ 8). apply Z.mod_pow2_bits_low. lia. Qed.

Lemma testbit_or_word w k j :
  0 <= k < 8 -> 0 <= j < 8 ->
  Z.testbit (u8 (Z.lor w (word_mask k))) j = Z.testbit w j || bool_decide (j = k).
Proof.
  intros. by rewrite testbit_u8, Z.lor_spec, testbit_word_mask by lia.
Qed.

Lemma testbit_clear_word w k j :
  0 <= k < 8 -> 0 <= j < 8 ->
  Z.testbit (u8 (Z.land w (Z.lnot (word_mask k)))) j = Z.testbit w j && negb (bool_decide (j = k)).
Proof.
  intros. by rewrite testbit_u8, Z.land_spec, Z.lnot_spec, testbit_word_mask by lia.
Qed.

(** A byte whose eight bits are all set is [WORD_ALLBITS]. *)
Lemma byte_allbits w :
  0 <= w < 256 -> (forall j, 0 <= j < 8 -> Z.testbit w j = true) -> w = WORD_ALLBITS.
Proof.
  intros Hw Hb. unfold WORD_ALLBITS. change 255 with (Z.ones 8). apply Z.bits_inj'. intros n Hn.
  destruct (decide (n < 8)).
  - by rewrite Hb, Z.ones_spec_low by lia.
  - rewrite Z.ones_spec_high by lia. destruct (decide (w = 0)) as [->|]; [apply Z.bits_0|].
    apply Z.bits_above_log2; [lia|].
    assert (Z.log2 w < 8); [|lia]. apply Z.log2_lt_pow2; cbn; lia.
Qed.

Lemma allbits_testbit j : 0 <= j < 8 -> Z.testbit WORD_ALLBITS j = true.
Proof. intros. unfold WORD_ALLBITS. change 255 with (Z.ones 8). apply Z.ones_spec_low. lia. Qed.

Lemma find_clear_spec n w off :
  0 <= off -> off + Z.of_nat n = 8 ->
  match find_clear n w off with
  | Some k => off <= k < 8 /\ Z.testbit w k = false /\
              forall j, off <= j < k -> Z.testbit w j = true
  | None => forall j, off <= j < 8 -> Z.testbit w j = true
  end.
Proof.
  revert off. induction n as [|n IH]; intros off Ho Hn; cbn [find_clear]; [lia|].
  case_bool_decide as Hm.
  - rewrite land_mask_0 in Hm by lia. split; [lia|]. split; [done|]. lia.
  - rewrite land_mask_0 in Hm by lia. apply not_false_is_true in Hm.
    specialize (IH (off + 1)). destruct (find_clear n w (off + 1)) as [k|].
    + destruct IH as (? & ? & Hj); [lia..|]. split; [lia|]. split; [done|]. intros j Hj'.
      destruct (decide (j = off)) as [->|]; [done|]. apply Hj. lia.
    + intros j Hj'. destruct (decide (j = off)) as [->|]; [done|]. apply IH; lia.
Qed.

(** ** Bits of the vector *)

Lemma bit_insert nb l ix w i :
  0 <= ix < Z.of_nat (length l) -> 0 <= i ->
  bit (mkBitmap nb (<[Z.to_nat ix := w]> l)) i =
  if bool_decide (i / 8 = ix) then Z.testbit w (i mod 8) else bit (mkBitmap nb l) i.
Proof.
  intros Hix Hi. unfold bit, BITS_PER_WORD. cbn.
  pose proof (Z.div_pos i 8 Hi ltac:(lia)).
  rewrite !nth_lookup. case_bool_decide as E.
  - subst ix. by rewrite list_lookup_insert_eq by lia.
  - rewrite list_lookup_insert_ne by lia. done.
Qed.

Lemma getZ_byte b ix :
  wf b -> 0 <= ix < Z.of_nat (length (v b)) ->
  exists w, getZ (v b) ix = Done w /\ 0 <= w < 256 /\ v b !! Z.to_nat ix = Some w /\
    forall j, 0 <= j < 8 -> bit b (8 * ix + j) = Z.testbit w j.
Proof.
  intros Hwf Hix. destruct (getZ_total (v b) ix Hix) as (w & Hget & Hl).
  exists w. split; [done|]. split.
  - pose proof (wf_bytes b Hwf) as Hb. rewrite Forall_lookup in Hb. eauto.
  - split; [done|]. intros j Hj. unfold bit, BITS_PER_WORD.
    rewrite nth_lookup, Z.add_comm, Z.mul_comm, Z.div_add, Z.mod_add by lia.
    rewrite Z.div_small, Z.mod_small, Z.add_0_l, Hl by lia. done.
Qed.

(** Replacing one word by another that agrees on the bits past the end keeps
    the bitmap well-formed. *)
Lemma wf_insert b ix w :
  wf b -> 0 <= ix < Z.of_nat (length (v b)) -> 0 <= w < 256 ->
  (forall j, 0 <= j < 8 -> nbits b <= 8 * ix + j -> Z.testbit w j = true) ->
  wf (mkBitmap (nbits b) (<[Z.to_nat ix := w]> (v b))).
Proof.
  intros [Hn Hl Hb Ho] Hix Hw Hj. split; cbn.
  - done.
  - by rewrite length_insert.
  - by apply Forall_insert.
  - intros i Hi. rewrite bit_insert by lia. case_bool_decide as E.
    + subst ix. apply Hj; [apply Z.mod_pos_bound; lia|].
      rewrite <- Z.div_mod by lia. lia.
    + specialize (Ho i Hi). unfold bit in *. done.
Qed.

Lemma index_split i ix k :
  0 <= k < 8 -> (i / 8 = ix /\ i mod 8 = k) <-> i = 8 * ix + k.
Proof.
  intros. split; [intros [<- <-]; apply Z.div_mod; lia|].
  intros ->. rewrite Z.mul_comm, Z.add_comm, Z.div_add, Z.mod_add by lia.
  rewrite Z.div_small, Z.mod_small by lia. lia.
Qed.

(** Setting bit [k] of word [ix]. *)
Lemma or_word_spec b ix k :
  wf b -> 0 <= ix < Z.of_nat (length (v b)) -> 0 <= k < 8 ->
  exists l, or_word (v b) ix (word_mask k) = Done l /\ wf (mkBitmap (nbits b) l) /\
    forall i, 0 <= i -> bit (mkBitmap (nbits b) l) i = bit b i || bool_decide (i = 8 * ix + k).
Proof.
  intros Hwf Hix Hk. destruct (getZ_byte b ix Hwf Hix) as (w & Hget & Hw & Hl & Hbits).
  unfold or_word. rewrite Hget. cbn. rewrite setZ_ok by done. eexists. split; [done|]. split.
  - apply wf_insert; [done|done|apply u8_range|]. intros j Hj Hn.
    by rewrite testbit_or_word, <- Hbits, (wf_over b Hwf) by (pose proof (wf_len b Hwf); lia).
  - intros i Hi. rewrite bit_insert by done. pose proof (Z.mod_pos_bound i 8 ltac:(lia)).
    pose proof (index_split i ix k Hk) as Hs.
    case_bool_decide as E.
    + rewrite testbit_or_word, <- Hbits by lia.
      replace (8 * ix + i mod 8) with i by (subst ix; apply Z.div_mod; lia).
      f_equal. apply bool_decide_ext. tauto.
    + rewrite (bool_decide_eq_false_2 (i = _)) by tauto. by rewrite orb_false_r.
Qed.

(** Clearing bit [k] of word [ix]. *)
Lemma clear_word_spec b ix k :
  wf b -> 0 <= ix < Z.of_nat (length (v b)) -> 0 <= k < 8 -> 8 * ix + k < nbits b ->
  exists w l, getZ (v b) ix = Done w /\
    setZ (v b) ix (u8 (Z.land w (Z.lnot (word_mask k)))) = Done l /\
    wf (mkBitmap (nbits b) l) /\
    forall i, 0 <= i ->
      bit (mkBitmap (nbits b) l) i = bit b i && negb (bool_decide (i = 8 * ix + k)).
Proof.
  intros Hwf Hix Hk Hn. destruct (getZ_byte b ix Hwf Hix) as (w & Hget & Hw & Hl & Hbits).
  eexists _, _. rewrite setZ_ok by done. split; [done|]. split; [done|]. split.
  - apply wf_insert; [done|done|apply u8_range|]. intros j Hj Hn'.
    rewrite testbit_clear_word, <- Hbits, (wf_over b Hwf) by (pose proof (wf_len b Hwf); lia).
    cbn. by rewrite bool_decide_eq_false_2 by lia.
  - intros i Hi. rewrite bit_insert by done. pose proof (Z.mod_pos_bound i 8 ltac:(lia)).
    pose proof (index_split i ix k Hk) as Hs.
    case_bool_decide as E.
    + rewrite testbit_clear_word, <- Hbits by lia.
      replace (8 * ix + i mod 8) with i by (subst ix; apply Z.div_mod; lia).
      do 2 f_equal. apply bool_decide_ext. tauto.
    + rewrite (bool_decide_eq_false_2 (i = _)) by tauto. by rewrite andb_true_r.
Qed.

Lemma DIVROUNDUP_8 nb : 0 <= nb < 4294967288 -> DIVROUNDUP nb BITS_PER_WORD = (nb + 7) / 8.
Proof.
  intros. unfold DIVROUNDUP, BITS_PER_WORD. rewrite u32_small by lia. f_equal. lia.
Qed.

(** The word and bit of a valid index. *)
Lemma index_word b i :
  wf b -> 0 <= i < nbits b ->
  0 <= i / 8 < Z.of_nat (length (v b)) /\ 0 <= i mod 8 < 8 /\ 8 * (i / 8) + i mod 8 = i.
Proof.
  intros Hwf Hi. rewrite (wf_len b Hwf).
  pose proof (Z.div_mod i 8 ltac:(lia)). pose proof (Z.mod_pos_bound i 8 ltac:(lia)).
  pose proof (Z.div_mod (nbits b + 7) 8 ltac:(lia)).
  pose proof (Z.mod_pos_bound (nbits b + 7) 8 ltac:(lia)). lia.
Qed.

Lemma alloc_scan_spec n ix b :
  wf b -> 0 <= ix -> ix + Z.of_nat n = Z.of_nat (length (v b)) ->
  (forall i, 0 <= i < 8 * ix -> bit b i = true) ->
  (exists i b', alloc_scan n ix b = Done (0, Some i, b') /\ 0 <= i < nbits b /\ wf b' /\
     nbits b' = nbits b /\ bit b i = false /\
     (forall j, 0 <= j < i -> bit b j = true) /\
     (forall j, 0 <= j -> bit b' j = bit b j || bool_decide (j = i))) \/
  (alloc_scan n ix b = Done (ENOSPC, None, b) /\ forall i, 0 <= i < nbits b -> bit b i = true).
Proof.
  intros Hwf. revert ix. induction n as [|n IH]; intros ix Hix Hn Hpre; cbn [alloc_scan].
  - right. split; [done|]. intros i Hi. apply Hpre.
    pose proof (index_word b i Hwf Hi). pose proof (wf_len b Hwf). lia.
  - destruct (getZ_byte b ix Hwf) as (w & -> & Hw & _ & Hbits); [lia|]. cbn [mbind outcome_bind].
    case_bool_decide as Hall.
    + pose proof (find_clear_spec 8 w 0 ltac:(lia) ltac:(lia)) as Hf.
      destruct (find_clear 8 w 0) as [k|]; [|by destruct (Hall (byte_allbits w Hw Hf))].
      destruct Hf as (Hk & Hclr & Hlow).
      assert (8 * ix + k < nbits b) as Hlt.
      { destruct (decide (8 * ix + k < nbits b)); [done|]. rewrite <- Hbits in Hclr by lia.
        rewrite (wf_over b Hwf) in Hclr; [done|]. pose proof (wf_len b Hwf). lia. }
      destruct (or_word_spec b ix k Hwf) as (l & -> & Hwf' & Hb'); [lia..|].
      cbn [mbind outcome_bind]. pose proof (wf_nbits b Hwf). unfold BITS_PER_WORD.
      rewrite (u32_small (ix * 8)), u32_small by lia. step_tests.
      left. replace (ix * 8 + k) with (8 * ix + k) by lia. do 2 eexists. split; [done|].
      split; [lia|]. split; [done|]. split; [done|]. split; [by rewrite Hbits|]. split; [|done].
      intros j Hj. destruct (decide (j < 8 * ix)); [apply Hpre; lia|].
      replace j with (8 * ix + (j - 8 * ix)) by lia. rewrite Hbits by lia. apply Hlow. lia.
    + apply IH; [lia..|]. intros i Hi. subst w.
      destruct (decide (i < 8 * ix)); [apply Hpre; lia|].
      replace i with (8 * ix + (i - 8 * ix)) by lia. rewrite Hbits by lia.
      apply allbits_testbit. lia.
Qed.

(** The leftover loop of [bitmap_create] sets exactly the bits from [j] up. *)
Lemma mark_over_spec n j ix nb l :
  0 <= ix < Z.of_nat (length l) -> 0 <= j -> j + Z.of_nat n = 8 ->
  Forall (fun w => 0 <= w < 256) l ->
  exists l', mark_over n j ix l = Done l' /\ length l' = length l /\
    Forall (fun w => 0 <= w < 256) l' /\
    forall i, 0 <= i -> bit (mkBitmap nb l') i =
      bit (mkBitmap nb l) i || bool_decide (8 * ix + j <= i < 8 * ix + 8).
Proof.
  revert j l. induction n as [|n IH]; intros j l Hix Hj Hn Hl; cbn [mark_over].
  - exists l. do 3 (split; [done|]). intros. rewrite bool_decide_eq_false_2 by lia.
    by rewrite orb_false_r.
  - unfold or_word. destruct (getZ_total l ix Hix) as (w & -> & Hw). cbn [mbind outcome_bind].
    rewrite setZ_ok by done. cbn [mbind outcome_bind].
    destruct (IH (j + 1) (<[Z.to_nat ix := u8 (Z.lor w (word_mask j))]> l))
      as (l' & -> & Hlen & Hby & Hb); [by rewrite length_insert|lia|lia|..].
    { apply Forall_insert; [done|apply u8_range]. }
    exists l'. split; [done|]. split; [by rewrite Hlen, length_insert|]. split; [done|].
    intros i Hi. rewrite Hb, bit_insert by done. pose proof (Z.mod_pos_bound i 8 ltac:(lia)).
    pose proof (Z.div_mod i 8 ltac:(lia)).
    unfold bit at 1 2, BITS_PER_WORD. cbn. case_bool_decide as E.
    + rewrite testbit_or_word, nth_lookup, E, Hw by lia. cbn. rewrite <- orb_assoc. f_equal.
      repeat case_bool_decide; try done; lia.
    + f_equal. apply bool_decide_ext. lia.
Qed.

Lemma bit_zeros nb n i : bit (mkBitmap nb (replicate n 0)) i = false.
Proof.
  unfold bit. cbn. rewrite nth_lookup.
  destruct (replicate n 0 !! _) as [w|] eqn:E; cbn; [|apply Z.bits_0].
  apply lookup_replicate in E as [-> _]. apply Z.bits_0.
Qed.

(** ** Properties *)

(** [bitmap_create] never hits its assertions and, when memory is there,
    hands back a well-formed bitmap in which all of the requested bits are
    clear (the leftover bits of the last byte are marked in use). *)
Theorem bitmap_create_spec (nb : Z) (o : oracle) :
  0 <= nb < 4294967288 ->
  exists r o', bitmap_create nb o = Done (r, o') /\
    match r with
    | Some b => wf b /\ nbits b = nb /\ forall i, 0 <= i < nb -> bit b i = false
    | None => (kmalloc_ok o).1 = false \/ (kmalloc_ok (kmalloc_ok o).2).1 = false
    end.
Proof.
  intros Hnb. unfold bitmap_create. rewrite DIVROUNDUP_8 by done.
  destruct (kmalloc_ok o) as [[] o1]; cbn [negb fst snd]; [|do 2 eexists; split; [done|by left]].
  destruct (kmalloc_ok o1) as [[] o2]; cbn [negb fst snd];
    [|do 2 eexists; split; [done|by right]].
  pose proof (Z.div_mod nb 8 ltac:(lia)). pose proof (Z.mod_pos_bound nb 8 ltac:(lia)).
  pose proof (Z.div_mod (nb + 7) 8 ltac:(lia)).
  pose proof (Z.mod_pos_bound (nb + 7) 8 ltac:(lia)).
  unfold BITS_PER_WORD. case_bool_decide as Hlt.
  - rewrite !(u32_small ((nb + 7) / 8 - 1)), u32_small by lia. step_tests.
    edestruct (mark_over_spec (Z.to_nat (8 - (nb - ((nb + 7) / 8 - 1) * 8)))
      (nb - ((nb + 7) / 8 - 1) * 8) ((nb + 7) / 8 - 1) nb (replicate (Z.to_nat ((nb + 7) / 8)) 0))
      as (l & -> & Hlen & Hby & Hbit); [rewrite length_replicate; lia|lia|lia|..].
    { apply Forall_replicate. lia. }
    cbn. do 2 eexists. split; [done|]. rewrite length_replicate in Hlen.
    split; [split; cbn|split; [done|]]; [lia|lia|done|..].
    + intros i Hi. rewrite Hbit, bit_zeros, bool_decide_eq_true_2 by lia. done.
    + intros i Hi. rewrite Hbit, bit_zeros, bool_decide_eq_false_2 by lia. done.
  - do 2 eexists. split; [done|]. split; [split; cbn|split; [done|]].
    + lia.
    + rewrite length_replicate. lia.
    + apply Forall_replicate. lia.
    + intros i Hi. lia.
    + intros i Hi. apply bit_zeros.
Qed.

(** [bitmap_alloc] returns the lowest clear bit and marks exactly that bit;
    it returns ENOSPC, changing nothing, exactly when all bits are in use.
    Neither of its assertions can fail on a well-formed bitmap. *)
Lemma bitmap_alloc_spec (b : bitmap) :
  wf b ->
  (exists i b', bitmap_alloc b = Done (0, Some i, b') /\ 0 <= i < nbits b /\ wf b' /\
     nbits b' = nbits b /\ bit b i = false /\
     (forall j, 0 <= j < i -> bit b j = true) /\
     (forall j, 0 <= j -> bit b' j = bit b j || bool_decide (j = i))) \/
  (bitmap_alloc b = Done (ENOSPC, None, b) /\ forall i, 0 <= i < nbits b -> bit b i = true).
Proof.
  intros Hwf. unfold bitmap_alloc. rewrite DIVROUNDUP_8 by apply (wf_nbits b Hwf).
  pose proof (wf_len b Hwf). apply alloc_scan_spec; [done|lia|lia|lia].
Qed.

(** Marking a clear bit. *)
Lemma bitmap_mark_spec b i :
  wf b -> 0 <= i < nbits b -> bit b i = false ->
  exists b', bitmap_mark b i = Done b' /\ wf b' /\ nbits b' = nbits b /\
    forall j, 0 <= j -> bit b' j = bit b j || bool_decide (j = i).
Proof.
  intros Hwf Hi Hb. destruct (index_word b i Hwf Hi) as (Hix & Hk & Hs).
  unfold bitmap_mark, bitmap_translate, BITS_PER_WORD. step_tests.
  destruct (getZ_byte b (i / 8) Hwf Hix) as (w & -> & Hw & _ & Hbits). cbn [mbind outcome_bind].
  rewrite bool_decide_eq_true_2 by (apply land_mask_0; [done|]; by rewrite <- Hbits, Hs).
  cbn [kassert mbind outcome_bind].
  destruct (or_word_spec b (i / 8) (i mod 8) Hwf Hix Hk) as (l & -> & Hwf' & Hb').
  rewrite Hs in Hb'. cbn. eauto.
Qed.

(** Clearing a marked bit. *)
Lemma bitmap_unmark_spec b i :
  wf b -> 0 <= i < nbits b -> bit b i = true ->
  exists b', bitmap_unmark b i = Done b' /\ wf b' /\ nbits b' = nbits b /\
    forall j, 0 <= j -> bit b' j = bit b j && negb (bool_decide (j = i)).
Proof.
  intros Hwf Hi Hb. destruct (index_word b i Hwf Hi) as (Hix & Hk & Hs).
  unfold bitmap_unmark, bitmap_translate, BITS_PER_WORD. step_tests.
  destruct (getZ_byte b (i / 8) Hwf Hix) as (w & Hget & Hw & _ & Hbits). rewrite Hget.
  cbn [mbind outcome_bind].
  rewrite bool_decide_eq_true_2
    by (rewrite land_mask_0 by done; rewrite <- Hbits, Hs by done; congruence).
  cbn [kassert mbind outcome_bind].
  destruct (clear_word_spec b (i / 8) (i mod 8) Hwf Hix Hk) as (w' & l & Hget' & Hset & Hwf' & Hb');
    [lia|]. rewrite Hget in Hget'. injection Hget' as <-. rewrite Hset. rewrite Hs in Hb'.
  cbn. eauto.
Qed.

(** [bitmap_isset] tests the bit. *)
Lemma bitmap_isset_spec b i :
  wf b -> 0 <= i < nbits b ->
  exists r, bitmap_isset b i = Done r /\ bool_decide (r = 0) = negb (bit b i).
Proof.
  intros Hwf Hi. destruct (index_word b i Hwf Hi) as (Hix & Hk & Hs).
  unfold bitmap_isset, bitmap_translate, BITS_PER_WORD.
  destruct (getZ_byte b (i / 8) Hwf Hix) as (w & -> & Hw & _ & Hbits). cbn.
  eexists. split; [done|]. specialize (Hbits _ Hk). rewrite Hs in Hbits. rewrite Hbits.
  pose proof (land_mask_0 w (i mod 8) Hk) as Hm.
  destruct (Z.testbit w (i mod 8)); cbn; [apply bool_decide_eq_false_2|apply bool_decide_eq_true_2];
    rewrite Hm; congruence.
Qed.

(** Unmarking the bit [bitmap_alloc] has just returned succeeds and gives
    back the set of marked bits as it was before. *)
Theorem bitmap_alloc_unmark_roundtrip (b b' : bitmap) (i : Z) :
  wf b -> bitmap_alloc b = Done (0, Some i, b') ->
  exists b'', bitmap_unmark b' i = Done b'' /\ wf b'' /\
    forall j, 0 <= j -> bit b'' j = bit b j.
Proof.
  intros Hwf Ha.
  assert (0 <= i < nbits b /\ wf b' /\ nbits b' = nbits b /\ bit b i = false /\
    forall j, 0 <= j -> bit b' j = bit b j || bool_decide (j = i)) as (Hi & Hwf' & Hn & Hc & Hb').
  { destruct (bitmap_alloc_spec b Hwf) as [(i' & b1 & Heq & ? & ? & ? & ? & _ & ?)|[Heq _]];
      rewrite Ha in Heq; [injection Heq as -> ->; auto|discriminate]. }
  destruct (bitmap_unmark_spec b' i Hwf') as (b'' & -> & ? & _ & Hb''); [lia|..].
  { rewrite Hb', bool_decide_eq_true_2 by lia. apply orb_true_r. }
  exists b''. split; [done|]. split; [done|]. intros j Hj. rewrite Hb'', Hb' by done.
  case_bool_decide; subst; cbn; [by rewrite Hc|by rewrite orb_false_r, andb_true_r].
Qed.

(** ** Witnesses *)

Definition ex_bitmap : bitmap := mkBitmap 11 [255; 249].

Lemma ex_bitmap_wf : wf ex_bitmap.
Proof.
  split; [cbn; lia|reflexivity|repeat constructor; lia|].
  intros i Hi. change ((nbits ex_bitmap + 7) / 8) with 2 in Hi. cbn in Hi.
  assert (i = 11 \/ i = 12 \/ i = 13 \/ i = 14 \/ i = 15) by lia.
  destruct_or!; subst; reflexivity.
Qed.

Lemma bitmap_create_spec_witness :
  exists r o', bitmap_create 11 [true; true] = Done (r, o') /\
    match r with
    | Some b => wf b /\ nbits b = 11 /\ forall i, 0 <= i < 11 -> bit b i = false
    | None => (kmalloc_ok [true; true]).1 = false \/ (kmalloc_ok (kmalloc_ok [true; true]).2).1 = false
    end.
Proof. apply (bitmap_create_spec 11 [true; true]). lia. Defined.

Lemma bitmap_alloc_unmark_roundtrip_witness :
  exists b'', bitmap_unmark (mkBitmap 11 [255; 251]) 9 = Done b'' /\ wf b'' /\
    forall j, 0 <= j -> bit b'' j = bit ex_bitmap j.
Proof.
  apply (bitmap_alloc_unmark_roundtrip ex_bitmap); [apply ex_bitmap_wf|reflexivity].
Defined.

End KBitmap.
