(* ===== verification/KQueue.v ===== *)
(** * Ring-buffer queues: [kern/lib/queue.c]

    The queue behind the scheduler's run queue: a ring of [size] cells of which
    at most [size - 1] are in use, grown by reallocation when it is full.
    The operations are proved to implement a FIFO list. *)

From S2P Require Import Prelude.

Module KQueue.

Record queue := mkQueue {
  size : Z;
  nextwrite : Z;
  nextread : Z;
  data : list cell
}.

(** ** Operations *)

(** [while (nsize < targetsize) { nsize *= 2; assert(nsize > 0); }] *)
Fixpoint grow_size (fuel : nat) (targetsize nsize : Z) : outcome Z :=
  if bool_decide (nsize < targetsize) then
    match fuel with
    | O => Stuck
    | S fuel =>
        nsize ← int_op (nsize * 2);
        assert! bool_decide (nsize > 0) ;;
        grow_size fuel targetsize nsize
    end
  else Done nsize.

Section grow.
(** [q_addtail] as [q_grow] calls it. *)
Variable addtail : queue -> cell -> oracle -> outcome (Z * queue * oracle).

(** [for (i=onr; i!=onw; i = (i+1)%osize)], at most [osize] turns. *)
Fixpoint grow_copy (fuel : nat) (i onw osize : Z) (olddata : list cell) (q : queue) (o : oracle)
    : outcome (queue * oracle) :=
  if bool_decide (i = onw) then Done (q, o)
  else
    match fuel with
    | O => Stuck
    | S fuel =>
        x ← getZ olddata i;
        '(result, q, o) ← addtail q x o;
        assert! bool_decide (result = 0) ;;
        i1 ← int_op (i + 1);
        grow_copy fuel (Z.rem i1 osize) onw osize olddata q o
    end.

Definition q_grow_with (q : queue) (targetsize : Z) (o : oracle)
    : outcome (Z * queue * oracle) :=
  let olddata := data q in
  let onr := nextread q in
  let onw := nextwrite q in
  let osize := size q in
  nsize ← grow_size 32 targetsize (size q);
  let '(ok, o) := kmalloc_ok o in
  if ok then
    let ndata := replicate (Z.to_nat (u32 (nsize * SIZEOF_PTR) / SIZEOF_PTR)) None in
    '(q, o) ← grow_copy (Z.to_nat osize) onr onw osize olddata (mkQueue nsize 0 0 ndata) o;
    Done (0, q, o)
  else Done (ENOMEM, q, o).
End grow.

(** The end of [q_addtail], once there is room. *)
Definition q_store (q : queue) (x : cell) (nextnext : Z) (o : oracle)
    : outcome (Z * queue * oracle) :=
  l ← setZ (data q) (nextwrite q) x;
  Done (0, mkQueue (size q) nextnext (nextread q) l, o).

(** [q_addtail] and [q_grow] call each other; [depth] bounds the nesting. *)
Fixpoint q_addtail_at (depth : nat) (q : queue) (x : cell) (o : oracle)
    : outcome (Z * queue * oracle) :=
  assert! bool_decide (size q > 0) ;;
  w1 ← int_op (nextwrite q + 1);
  let nextnext := Z.rem w1 (size q) in
  if bool_decide (nextnext = nextread q) then
    match depth with
    | O => Stuck
    | S depth =>
        size1 ← int_op (size q + 1);
        '(result, q, o) ← q_grow_with (q_addtail_at depth) q size1 o;
        if bool_decide (result ≠ 0) then Done (result, q, o)
        else
          w1 ← int_op (nextwrite q + 1);
          q_store q x (Z.rem w1 (size q)) o
    end
  else q_store q x nextnext o.

(** One level of nesting is enough: the copies made by [q_grow] fit. *)
Definition q_grow : queue -> Z -> oracle -> outcome (Z * queue * oracle) :=
  q_grow_with (q_addtail_at 0).

Definition q_addtail (q : queue) (p : ptr) (o : oracle) : outcome (Z * queue * oracle) :=
  q_addtail_at 1 q (Some p) o.

Definition q_create (sz : Z) (o : oracle) : option queue * oracle :=
  let '(ok, o) := kmalloc_ok o in
  if negb ok then (None, o) else
  let '(ok, o) := kmalloc_ok o in
  if negb ok then (None, o) else
  (Some (mkQueue sz 0 0 (replicate (Z.to_nat (u32 (sz * SIZEOF_PTR) / SIZEOF_PTR)) None)), o).

Definition q_preallocate (q : queue) (sz : Z) (o : oracle) : outcome (Z * queue * oracle) :=
  assert! bool_decide (size q > 0) ;;
  if bool_decide (sz > size q) then q_grow q sz o
  else Done (0, q, o).

Definition q_empty (q : queue) : bool := bool_decide (nextwrite q = nextread q).

Definition q_remhead (q : queue) : outcome (cell * queue) :=
  assert! bool_decide (size q > 0) ;;
  assert! negb (q_empty q) ;;
  ret ← getZ (data q) (nextread q);
  r1 ← int_op (nextread q + 1);
  Done (ret, mkQueue (size q) (nextwrite q) (Z.rem r1 (size q)) (data q)).

(** The objects [q_destroy] hands to [kfree], in order. *)
Definition q_destroy (q : queue) : outcome (list (queue + list cell)) :=
  assert! q_empty q ;;
  Done [inr (data q); inl q].

Definition q_getstart (q : queue) : Z := nextread q.
Definition q_getend (q : queue) : Z := nextwrite q.
Definition q_getsize (q : queue) : Z := size q.

Definition q_getguy (q : queue) (index : Z) : outcome cell :=
  assert! bool_decide (0 <= index < size q) ;;
  getZ (data q) index.

(** ** Well-formedness and the list a queue stands for *)

Record wf (q : queue) : Prop := {
  wf_size : 0 < size q < 268435456;
  wf_nw : 0 <= nextwrite q < size q;
  wf_nr : 0 <= nextread q < size q;
  wf_data : Z.of_nat (length (data q)) = size q
}.

(** [n] cells of a ring from position [i] on. *)
Definition ring (l : list cell) (sz i n : Z) : list cell :=
  (fun k => nth (Z.to_nat ((i + k) mod sz)) l None) <$> seqZ 0 n.

Definition count (q : queue) : Z := (nextwrite q - nextread q) mod size q.
Definition contents (q : queue) : list cell := ring (data q) (size q) (nextread q) (count q).

(** ** Arithmetic of the ring *)

Lemma wrap_cases x s : 0 <= x < 2 * s -> x mod s = if decide (x < s) then x else x - s.
Proof.
  intros. case_decide; [apply Z.mod_small; lia|].
  symmetry. apply Z.mod_unique with 1; lia.
Qed.

Lemma count_cases q :
  wf q -> count q = if decide (nextread q <= nextwrite q) then nextwrite q - nextread q
                    else nextwrite q - nextread q + size q.
Proof.
  intros []. unfold count. case_decide; [apply Z.mod_small; lia|].
  symmetry. apply Z.mod_unique with (-1); lia.
Qed.

Lemma count_range q : wf q -> 0 <= count q < size q.
Proof. intros []. apply Z.mod_pos_bound. lia. Qed.

Lemma length_ring_contents q : wf q -> Z.of_nat (length (contents q)) = count q.
Proof.
  intros Hwf. unfold contents, ring. rewrite length_fmap, length_seqZ.
  pose proof (count_range q Hwf). lia.
Qed.

Lemma ring_0 l s i : ring l s i 0 = [].
Proof. reflexivity. Qed.

Lemma ring_snoc l s i n :
  0 <= n -> ring l s i (n + 1) = ring l s i n ++ [nth (Z.to_nat ((i + n) mod s)) l None].
Proof.
  intros. unfold ring. rewrite seqZ_app, fmap_app by lia. rewrite Z.add_0_l.
  rewrite (seqZ_cons n 1) by lia. cbn [fmap list_fmap]. by rewrite (seqZ_nil (Z.succ n)) by lia.
Qed.

Lemma ring_ext l l' s i n :
  (forall k, 0 <= k < n -> nth (Z.to_nat ((i + k) mod s)) l None
                      = nth (Z.to_nat ((i + k) mod s)) l' None) ->
  ring l s i n = ring l' s i n.
Proof.
  intros H. unfold ring. apply list_fmap_ext. intros j k Hk.
  apply lookup_seqZ in Hk. apply H. lia.
Qed.

Lemma ring_cons l s i n :
  0 < s -> 0 < n ->
  ring l s i n = nth (Z.to_nat (i mod s)) l None :: ring l s ((i + 1) mod s) (n - 1).
Proof.
  intros. unfold ring. rewrite seqZ_cons by lia. cbn [fmap list_fmap]. rewrite Z.add_0_r. f_equal.
  rewrite <- (Z.add_0_r (Z.succ 0)), <- (fmap_add_seqZ (Z.succ 0) 0), <- list_fmap_compose.
  change (Z.pred n) with (n - 1). apply list_fmap_ext. intros j k Hk. cbn. do 2 f_equal.
  rewrite Zplus_mod_idemp_l. f_equal. lia.
Qed.

(** ** The operations on a queue with room *)

Lemma room_spec depth q x o :
  wf q -> count q + 1 < size q ->
  exists q', q_addtail_at depth q x o = Done (0, q', o) /\ wf q' /\
    size q' = size q /\ count q' = count q + 1 /\ nextread q' = nextread q /\
    contents q' = contents q ++ [x].
Proof.
  intros Hwf Hroom. pose proof (count_cases q Hwf) as Hc. pose proof (count_range q Hwf).
  destruct Hwf as [Hs Hnw Hnr Hd].
  assert (Hrem : Z.rem (nextwrite q + 1) (size q) =
    if decide (nextwrite q + 1 < size q) then nextwrite q + 1 else 0).
  { rewrite Z.rem_mod_nonneg by lia. rewrite wrap_cases by lia. do 2 case_decide; lia. }
  set (nn := Z.rem (nextwrite q + 1) (size q)) in *.
  assert (Hne : nn ≠ nextread q) by (rewrite Hrem; do 2 case_decide; lia).
  set (q' := mkQueue (size q) nn (nextread q) (<[Z.to_nat (nextwrite q) := x]> (data q))).
  assert (Hwf' : wf q').
  { split; cbn; rewrite ?length_insert; try lia. rewrite Hrem. case_decide; lia. }
  assert (Hc' : count q' = count q + 1).
  { rewrite (count_cases q' Hwf'). cbn [nextread nextwrite size q']. rewrite Hrem, Hc.
    repeat case_decide; lia. }
  exists q'. split; [|split; [done|]; do 3 (split; [done|])].
  - destruct depth; cbn [q_addtail_at]; step_tests; fold nn; step_tests; unfold q_store;
      rewrite setZ_ok by lia; done.
  - unfold contents. rewrite Hc'. cbn [data size nextread q']. rewrite ring_snoc by lia. f_equal.
    + apply ring_ext. intros k Hk. rewrite !nth_lookup, list_lookup_insert_ne; [done|].
      rewrite wrap_cases by lia. rewrite Hc in Hk. repeat case_decide; lia.
    + rewrite wrap_cases, nth_lookup by lia.
      replace (if decide _ then _ else _) with (nextwrite q) by (rewrite Hc; repeat case_decide; lia).
      by rewrite list_lookup_insert_eq by lia.
Qed.

(** Copying the old ring into a fresh one keeps the order. *)
Lemma grow_copy_spec depth fuel i onw osize old q o :
  wf q -> 0 < osize < 268435456 -> 0 <= i < osize -> 0 <= onw < osize ->
  Z.of_nat (length old) = osize -> (onw - i) mod osize <= Z.of_nat fuel ->
  count q + (onw - i) mod osize < size q ->
  exists q', grow_copy (q_addtail_at depth) fuel i onw osize old q o = Done (q', o) /\ wf q' /\
    size q' = size q /\ contents q' = contents q ++ ring old osize i ((onw - i) mod osize).
Proof.
  intros Hwf Hos. revert i q Hwf. induction fuel as [|fuel IH]; intros i q Hwf Hi How Hlen Hf Hroom.
  all: pose proof (Z.mod_pos_bound (onw - i) osize ltac:(lia)); cbn [grow_copy].
  all: destruct (decide (i = onw)) as [->|Hne].
  1, 3: rewrite Z.sub_diag, Z.mod_0_l by lia; step_tests; exists q;
    rewrite ring_0, app_nil_r; done.
  all: assert (Hpos : 0 < (onw - i) mod osize)
    by (destruct (decide (i <= onw)); [rewrite Z.mod_small by lia; lia|];
        rewrite <- (Z.mod_add _ 1) by lia; rewrite Z.mod_small; lia).
  { lia. }
  step_tests. destruct (getZ_total old i) as (x & -> & Hx); [lia|]. cbn [mbind outcome_bind].
  destruct (room_spec depth q x o Hwf) as (q1 & -> & Hwf1 & Hs1 & Hc1 & _ & Hcont1); [lia|].
  step_tests. rewrite Z.rem_mod_nonneg by lia.
  assert (Hstep : (onw - (i + 1) mod osize) mod osize = (onw - i) mod osize - 1).
  { rewrite Zminus_mod_idemp_r. symmetry.
    rewrite <- (Z.mod_small ((onw - i) mod osize - 1) osize) by lia.
    rewrite Zminus_mod_idemp_l. f_equal. lia. }
  destruct (IH ((i + 1) mod osize) q1 Hwf1) as (q2 & -> & Hwf2 & Hs2 & Hcont2);
    [apply Z.mod_pos_bound; lia|done|done|rewrite Hstep; lia|rewrite Hstep; lia|].
  exists q2. split; [done|]. split; [done|]. split; [lia|].
  rewrite Hcont2, Hcont1, Hstep, <- app_assoc. f_equal.
  rewrite (ring_cons old osize i) by lia. cbn [app]. f_equal.
  by rewrite Z.mod_small, nth_lookup, Hx by lia.
Qed.

Lemma grow_size_spec fuel target n :
  0 < n -> target <= 268435456 -> n <= 536870912 -> target <= n * 2 ^ Z.of_nat fuel ->
  exists n', grow_size fuel target n = Done n' /\ target <= n' /\ n <= n' /\
    (n' = n \/ n' < 2 * target).
Proof.
  revert n. induction fuel as [|fuel IH]; intros n Hn Ht Hn2 Hf; cbn [grow_size].
  - step_tests. exists n. auto with lia.
  - case_bool_decide as Hlt; [|exists n; auto with lia].
    step_tests. destruct (IH (n * 2)) as (n' & -> & ? & ? & ?); [lia..| |].
    { rewrite Nat2Z.inj_succ, Z.pow_succ_r in Hf by lia. lia. }
    exists n'. intuition lia.
Qed.

(** [q_grow] keeps the contents and makes room, or fails without effect. *)
Lemma q_grow_spec q target o :
  wf q -> size q < target <= 134217728 ->
  exists r q' o', q_grow q target o = Done (r, q', o') /\ o' = (kmalloc_ok o).2 /\
    if (kmalloc_ok o).1
    then r = 0 /\ wf q' /\ target <= size q' /\ contents q' = contents q
    else r = ENOMEM /\ q' = q.
Proof.
  intros Hwf Ht. pose proof (count_range q Hwf). destruct Hwf as [Hs Hnw Hnr Hd].
  unfold q_grow, q_grow_with.
  destruct (grow_size_spec 32 target (size q)) as (n & -> & ? & ? & ?); [lia|lia|lia|cbn; lia|].
  cbn [mbind outcome_bind]. destruct (kmalloc_ok o) as [[] o1]; cbn [fst snd];
    [|do 3 eexists; split; [done|done]].
  unfold SIZEOF_PTR. rewrite u32_small, Z.div_mul by lia.
  set (q0 := mkQueue n 0 0 (replicate (Z.to_nat n) None)).
  assert (wf q0) as Hwf0 by (split; cbn; rewrite ?length_replicate; lia).
  assert (count q0 = 0) as Hc0 by (unfold count; cbn; apply Z.mod_0_l; lia).
  destruct (grow_copy_spec 0 (Z.to_nat (size q)) (nextread q) (nextwrite q) (size q) (data q) q0 o1)
    as (q' & -> & Hwf' & Hs' & Hc'); [done..|fold (count q); lia|fold (count q); cbn; lia|].
  cbn. do 3 eexists. split; [done|]. split; [done|]. split; [done|]. split; [done|].
  split; [rewrite Hs'; cbn; lia|]. rewrite Hc'. unfold contents at 1. by rewrite Hc0, ring_0.
Qed.

(** A full ring goes through [q_grow]. *)
Lemma full_step q x o :
  wf q -> size q <= count q + 1 ->
  q_addtail_at 1 q x o =
    ('(result, q, o) ← q_grow q (size q + 1) o;
     if bool_decide (result ≠ 0) then Done (result, q, o)
     else w1 ← int_op (nextwrite q + 1); q_store q x (Z.rem w1 (size q)) o).
Proof.
  intros Hwf Hfull. pose proof (count_range q Hwf). pose proof (count_cases q Hwf) as Hc.
  destruct Hwf as [Hs Hnw Hnr Hd].
  assert (Z.rem (nextwrite q + 1) (size q) = nextread q) as Hrem.
  { rewrite Z.rem_mod_nonneg, wrap_cases by lia. rewrite Hc in *. repeat case_decide; lia. }
  unfold q_grow. unfold q_addtail_at at 1. fold q_addtail_at.
  rewrite (int_op_ok (nextwrite q + 1)) by (unfold INT_MIN, INT_MAX; lia).
  rewrite (bool_decide_eq_true_2 (size q > 0)) by lia. cbn [kassert mbind outcome_bind].
  rewrite Hrem, (bool_decide_eq_true_2 (nextread q = _)) by done.
  by rewrite (int_op_ok (size q + 1)) by (unfold INT_MIN, INT_MAX; lia).
Qed.

(** [q_grow] never needs to grow again while it copies, so one level of nesting
    is enough. *)
Lemma q_addtail_spec q p o :
  wf q -> count q < 134217727 ->
  exists r q' o', q_addtail q p o = Done (r, q', o') /\ wf q' /\ size q <= size q' /\
    ((r = 0 /\ contents q' = contents q ++ [Some p]) \/
     (r = ENOMEM /\ q' = q /\ count q = size q - 1 /\ (kmalloc_ok o).1 = false)).
Proof.
  intros Hwf Hs. pose proof (count_range q Hwf) as Hcr.
  destruct (decide (count q + 1 < size q)) as [Hroom|Hfull].
  { destruct (room_spec 1 q (Some p) o Hwf Hroom) as (q' & Heq & ? & ? & _ & _ & ?).
    do 3 eexists. split; [apply Heq|]. auto with lia. }
  unfold q_addtail. rewrite full_step by (done || lia).
  destruct (q_grow_spec q (size q + 1) o Hwf) as (r & q1 & o1 & -> & _ & H1); [lia|].
  cbn [mbind outcome_bind].
  destruct ((kmalloc_ok o).1) eqn:Eo.
  - destruct H1 as (-> & Hwf1 & Hs1 & Hc1). step_tests.
    assert (count q1 = count q) as Hcnt.
    { by rewrite <- (length_ring_contents q1), <- (length_ring_contents q), Hc1. }
    destruct (room_spec 0 q1 (Some p) o1 Hwf1) as (q2 & Heq & Hwf2 & Hs2 & _ & _ & Hc2); [lia|].
    exists 0, q2, o1. rewrite <- Hc1. split; [|auto with lia].
    pose proof (wf_nw q1 Hwf1). pose proof (wf_size q1 Hwf1). pose proof (wf_nr q1 Hwf1).
    cbn [q_addtail_at] in Heq. revert Heq. step_tests.
    case_bool_decide; [done|]. done.
  - destruct H1 as [-> ->]. unfold ENOMEM. step_tests. do 3 eexists. split; [done|].
    split; [done|]. split; [lia|]. right. auto with lia.
Qed.

Lemma q_empty_spec q : wf q -> q_empty q = true <-> contents q = [].
Proof.
  intros Hwf. pose proof (count_cases q Hwf) as Hc. pose proof (length_ring_contents q Hwf) as Hlen.
  destruct Hwf as [Hs Hnw Hnr Hd]. unfold q_empty. rewrite bool_decide_eq_true, <- length_zero_iff_nil.
  case_decide; lia.
Qed.

Lemma q_remhead_spec q :
  wf q ->
  match contents q with
  | [] => q_remhead q = Panic
  | x :: rest => exists q', q_remhead q = Done (x, q') /\ wf q' /\ size q' = size q /\
                   contents q' = rest
  end.
Proof.
  intros Hwf. pose proof (count_range q Hwf). pose proof (count_cases q Hwf) as Hc.
  pose proof (length_ring_contents q Hwf) as Hlen. destruct Hwf as [Hs Hnw Hnr Hd].
  unfold contents in *. unfold q_remhead, q_empty. destruct (decide (count q = 0)) as [H0|H0].
  - rewrite H0, ring_0. step_tests.
    rewrite bool_decide_eq_true_2; [done|]. rewrite Hc in H0. case_decide; lia.
  - rewrite ring_cons by lia. rewrite Z.mod_small by lia. step_tests.
    rewrite (bool_decide_eq_false_2 (nextwrite q = _)) by (rewrite Hc in H0; case_decide; lia).
    destruct (getZ_total (data q) (nextread q)) as (x & -> & Hx); [lia|]. step_tests.
    rewrite nth_lookup, Hx. cbn [default from_option id]. eexists. split; [done|].
    rewrite Z.rem_mod_nonneg by lia.
    pose proof (Z.mod_pos_bound (nextread q + 1) (size q) ltac:(lia)).
    split; [by split; cbn|]. split; [done|]. cbn [data size nextread]. f_equal.
    unfold count. cbn [size nextread nextwrite]. rewrite Zminus_mod_idemp_r.
    rewrite <- (Z.mod_small ((nextwrite q - nextread q) mod size q - 1) (size q))
      by (unfold count in *; lia).
    rewrite Zminus_mod_idemp_l. f_equal. lia.
Qed.

Lemma q_preallocate_spec q n o :
  wf q -> n <= 134217728 ->
  exists r q' o', q_preallocate q n o = Done (r, q', o') /\ wf q' /\ size q <= size q' /\
    contents q' = contents q /\
    ((r = 0 /\ n <= size q') \/ (r = ENOMEM /\ q' = q /\ (kmalloc_ok o).1 = false)).
Proof.
  intros Hwf Hn. unfold q_preallocate. pose proof (wf_size q Hwf). step_tests.
  case_bool_decide; [|do 3 eexists; split; [done|]; auto with lia].
  destruct (q_grow_spec q n o Hwf) as (r & q1 & o1 & -> & _ & H1); [lia|].
  exists r, q1, o1. split; [done|]. destruct ((kmalloc_ok o).1); destruct_and? H1; subst;
    (split; [done|split; [lia|auto]]).
Qed.

(** ** Properties *)

(** The operations on a queue; [inr] is the element [q_remhead] returns. *)
Inductive op := Addtail (p : ptr) | Remhead | Preallocate (n : Z).

Definition exec (x : op) (q : queue) (o : oracle) : outcome ((Z + cell) * queue * oracle) :=
  match x with
  | Addtail p => '(r, q, o) ← q_addtail q p o; Done (inl r, q, o)
  | Remhead => '(c, q) ← q_remhead q; Done (inr c, q, o)
  | Preallocate n => '(r, q, o) ← q_preallocate q n o; Done (inl r, q, o)
  end.

Definition in_range (x : op) (q : queue) : Prop :=
  match x with
  | Addtail _ => count q < 134217727
  | Remhead => contents q ≠ []
  | Preallocate n => n <= 134217728
  end.

Definition fifo_op (x : op) (l : list cell) : (Z + cell) * list cell :=
  match x with
  | Addtail p => (inl 0, l ++ [Some p])
  | Remhead => (inr (default None (head l)), tail l)
  | Preallocate _ => (inl 0, l)
  end.

(** C36. The queue operations implement a first-in first-out list, also across
    the wrap-around of the ring and its growth: each returns what the list
    operation returns and leaves the list it leaves, or returns ENOMEM, because
    the allocator answered NULL, and leaves the queue alone. *)
Theorem queue_ops_refine (x : op) (q : queue) (o : oracle) :
  wf q -> in_range x q ->
  exists r q' o', exec x q o = Done (r, q', o') /\ wf q' /\
    ((r, contents q') = fifo_op x (contents q) \/
     (r = inl ENOMEM /\ q' = q /\ (kmalloc_ok o).1 = false)).
Proof.
  intros Hwf Hr. destruct x as [p| |n]; unfold exec, in_range, fifo_op in *.
  - destruct (q_addtail_spec q p o Hwf Hr) as (r & q' & o' & -> & ? & _ & H). cbn.
    do 3 eexists. split; [done|]. split; [done|]. destruct H as [[-> ->]|(-> & -> & _ & ?)]; auto.
  - pose proof (q_remhead_spec q Hwf) as H. destruct (contents q) as [|c rest]; [done|].
    destruct H as (q' & -> & ? & _ & Hc). cbn. do 3 eexists. split; [done|]. rewrite Hc. auto.
  - destruct (q_preallocate_spec q n o Hwf Hr) as (r & q' & o' & -> & ? & _ & Hc & H). cbn.
    do 3 eexists. split; [done|]. split; [done|]. rewrite Hc. destruct H as [[-> _]|(-> & -> & ?)]; auto.
Qed.

(** [q_preallocate] is off by one as a guarantee of room: it compares the
    request with the ring size, but a ring of size [n] holds [n - 1] elements.
    When it has returned 0 for [n], the [n]-th element can still need the
    allocator, and then [q_addtail] fails with ENOMEM. *)
Theorem q_preallocate_off_by_one (q : queue) (n : Z) (p : ptr) (o : oracle) :
  wf q -> size q = n -> count q = n - 1 -> n < 134217728 ->
  q_preallocate q n o = Done (0, q, o) /\ q_addtail q p [] = Done (ENOMEM, q, []).
Proof.
  intros Hwf Hn Hc Hb. pose proof (wf_size q Hwf). unfold q_preallocate. split; [by step_tests|].
  unfold q_addtail. rewrite full_step by (done || lia).
  destruct (q_grow_spec q (size q + 1) [] Hwf) as (r & q1 & o1 & -> & -> & [-> ->]); [lia|].
  cbn. unfold ENOMEM. by step_tests.
Qed.

(** ** Witnesses *)

Definition ex_queue : queue := mkQueue 4 1 2 [Some 30; None; Some 10; Some 20].

Lemma ex_queue_wf : wf ex_queue.
Proof. split; vm_compute; intuition congruence. Qed.

Lemma queue_ops_refine_witness :
  exists r q' o', exec (Addtail 40) ex_queue [true] = Done (r, q', o') /\ wf q' /\
    ((r, contents q') = fifo_op (Addtail 40) (contents ex_queue) \/
     (r = inl ENOMEM /\ q' = ex_queue /\ (kmalloc_ok [true]).1 = false)).
Proof. apply (queue_ops_refine (Addtail 40) ex_queue [true]); [apply ex_queue_wf|vm_compute; done]. Defined.

Lemma q_preallocate_off_by_one_witness :
  q_preallocate ex_queue 4 [] = Done (0, ex_queue, []) /\
  q_addtail ex_queue 40 [] = Done (ENOMEM, ex_queue, []).
Proof.
  apply (q_preallocate_off_by_one ex_queue 4 40 []);
    [apply ex_queue_wf|reflexivity|reflexivity|lia].
Defined.

End KQueue.
