(* ===== verification/UserMem.v ===== *)
(** * Copying between user and kernel memory: [kern/lib/copyinout.c]

    User memory is the map of the addresses the current address space can
    access, all of them below or above [USERTOP] as the caller pleases: the
    code has to keep away from the kernel by itself.  An access to an address
    that is not in the map is a fatal fault.  A fault resumes in [copyfail],
    which jumps back to the [setjmp] of the copying function, when
    [pcb_badfaultfunc] is set, and panics otherwise.  Mappings come in whole
    pages, so a byte-by-byte copy stops at the same place as [memcpy], whose
    word accesses stay inside one page. *)

From S2P Require Import Prelude.

Module UserMem.

(** [kern/arch/mips/include/vm.h] *)
Definition USERTOP : Z := 2147483648.

Record ustate := mkU {
  umem : gmap Z Z;
  badfaultfunc : bool          (* true: pcb_badfaultfunc = copyfail *)
}.

Definition set_badfault (b : bool) (s : ustate) : ustate := mkU (umem s) b.

(** One kernel-mode access to a user address; [None] is the jump to [copyfail]. *)
Definition uload (s : ustate) (a : Z) : outcome (option Z) :=
  match umem s !! a with
  | Some b => Done (Some b)
  | None => if badfaultfunc s then Done None else Panic
  end.

Definition ustore (s : ustate) (a b : Z) : outcome (option ustate) :=
  match umem s !! a with
  | Some _ => Done (Some (mkU (<[a := b]> (umem s)) (badfaultfunc s)))
  | None => if badfaultfunc s then Done None else Panic
  end.

(** Returns the error and [stoplen]. *)
Definition copycheck (userptr len : Z) : Z * Z :=
  let bot := userptr in
  let top := u32 (bot + len - 1) in
  if bool_decide (top < bot) then (EFAULT, len)
  else if bool_decide (bot >= USERTOP) then (EFAULT, len)
  else if bool_decide (top >= USERTOP) then (0, USERTOP - bot)
  else (0, len).

(** [memcpy] from user memory into the object [dest]; [true] is a fault. *)
Fixpoint memcpy_in (n : nat) (s : ustate) (src : Z) (dest : list Z) (off : Z)
    : outcome (bool * list Z) :=
  match n with
  | O => Done (false, dest)
  | S n =>
      r ← uload s src;
      match r with
      | None => Done (true, dest)
      | Some b =>
          dest ← setZ dest off b;
          memcpy_in n s (src + 1) dest (off + 1)
      end
  end.

(** [memcpy] from the object [src] into user memory. *)
Fixpoint memcpy_out (n : nat) (s : ustate) (src : list Z) (off : Z) (dest : Z)
    : outcome (bool * ustate) :=
  match n with
  | O => Done (false, s)
  | S n =>
      b ← getZ src off;
      r ← ustore s dest b;
      match r with
      | None => Done (true, s)
      | Some s => memcpy_out n s src (off + 1) (dest + 1)
      end
  end.

(** [copyin(usersrc, dest, len)], [dest] being offset [off] of an object. *)
Definition copyin (s : ustate) (usersrc : Z) (dest : list Z) (off len : Z)
    : outcome (Z * list Z * ustate) :=
  let '(result, stoplen) := copycheck usersrc len in
  if bool_decide (result ≠ 0) then Done (result, dest, s)
  else if bool_decide (stoplen ≠ len) then Done (EFAULT, dest, s)
  else
    let s := set_badfault true s in
    '(fault, dest) ← memcpy_in (Z.to_nat len) s usersrc dest off;
    let s := set_badfault false s in
    if (fault : bool) then Done (EFAULT, dest, s) else Done (0, dest, s).

(** [copyout(src, userdest, len)], [src] being offset [off] of an object. *)
Definition copyout (s : ustate) (src : list Z) (off userdest len : Z)
    : outcome (Z * ustate) :=
  let '(result, stoplen) := copycheck userdest len in
  if bool_decide (result ≠ 0) then Done (result, s)
  else if bool_decide (stoplen ≠ len) then Done (EFAULT, s)
  else
    let s := set_badfault true s in
    '(fault, s) ← memcpy_out (Z.to_nat len) s src off userdest;
    let s := set_badfault false s in
    if (fault : bool) then Done (EFAULT, s) else Done (0, s).

(** [copystr] over any source and destination.  The result is [None] after a
    fault, and otherwise the error and the value stored in [gotlen]. *)
Section copystr.
Context {T : Type}.
Variable load : T -> Z -> outcome (option Z).
Variable store : T -> Z -> Z -> outcome (option T).

Fixpoint copystr (n : nat) (i maxlen stoplen : Z) (t : T)
    : outcome (option (Z * option Z) * T) :=
  let stop := if bool_decide (stoplen < maxlen) then EFAULT else ENAMETOOLONG in
  match n with
  | O => Done (Some (stop, None), t)
  | S n =>
      if bool_decide (i < maxlen /\ i < stoplen) then
        c ← load t i;
        match c with
        | None => Done (None, t)
        | Some c =>
            r ← store t i c;
            match r with
            | None => Done (None, t)
            | Some t =>
                if bool_decide (c = 0) then Done (Some (0, Some (i + 1)), t)
                else copystr n (i + 1) maxlen stoplen t
            end
        end
      else Done (Some (stop, None), t)
  end.
End copystr.

(** [copyinstr(usersrc, dest, len, actual)], [dest] being offset [off] of an
    object; the second component is what is stored in [*actual]. *)
Definition copyinstr (s : ustate) (usersrc : Z) (dest : list Z) (off len : Z)
    : outcome (Z * option Z * list Z * ustate) :=
  let '(result, stoplen) := copycheck usersrc len in
  if bool_decide (result ≠ 0) then Done (result, None, dest, s)
  else
    let s := set_badfault true s in
    '(r, dest) ← copystr (fun _ i => uload s (usersrc + i))
                   (fun d i c => d ← setZ d (off + i) c; Done (Some d))
                   (Z.to_nat len) 0 len stoplen dest;
    let s := set_badfault false s in
    match r with
    | None => Done (EFAULT, None, dest, s)
    | Some (result, actual) => Done (result, actual, dest, s)
    end.

(** [copyoutstr(src, userdest, len, actual)] *)
Definition copyoutstr (s : ustate) (src : list Z) (off userdest len : Z)
    : outcome (Z * option Z * ustate) :=
  let '(result, stoplen) := copycheck userdest len in
  if bool_decide (result ≠ 0) then Done (result, None, s)
  else
    let s := set_badfault true s in
    '(r, s) ← copystr (fun _ i => c ← getZ src (off + i); Done (Some c))
                (fun s i c => ustore s (userdest + i) c)
                (Z.to_nat len) 0 len stoplen s;
    let s := set_badfault false s in
    match r with
    | None => Done (EFAULT, None, s)
    | Some (result, actual) => Done (result, actual, s)
    end.

(** ** Lemmas *)

Lemma copycheck_ok p len :
  0 <= p -> 0 < len < 4294967296 -> p + len <= 4294967296 -> p < USERTOP ->
  copycheck p len = (0, Z.min len (USERTOP - p)).
Proof.
  unfold copycheck, USERTOP. intros. rewrite u32_small by lia.
  repeat case_bool_decide; f_equal; lia.
Qed.

Lemma copycheck_bad p len :
  0 <= p < 4294967296 -> 0 < len < 4294967296 -> (p + len > 4294967296 \/ p >= USERTOP) ->
  copycheck p len = (EFAULT, len).
Proof.
  unfold copycheck, USERTOP. intros Hp Hl H.
  destruct (decide (p + len > 4294967296)).
  - assert (u32 (p + len - 1) = p + len - 1 - 4294967296) as ->.
    { unfold u32. symmetry. apply Z.mod_unique with 1; lia. }
    by rewrite bool_decide_eq_true_2 by lia.
  - rewrite u32_small by lia. repeat case_bool_decide; done || lia.
Qed.

(** The bytes of a user range, when all of them are mapped. *)
Fixpoint urange (m : gmap Z Z) (a : Z) (n : nat) : option (list Z) :=
  match n with
  | O => Some []
  | S n => b ← m !! a; l ← urange m (a + 1) n; Some (b :: l)
  end.

Lemma urange_length m a n l : urange m a n = Some l -> length l = n.
Proof.
  revert a l. induction n as [|n IH]; intros a l; cbn; [by intros [= <-]|].
  destruct (m !! a); cbn; [|done]. destruct (urange m (a + 1) n) eqn:E; cbn; [|done].
  intros [= <-]. cbn. by rewrite (IH _ _ E).
Qed.

Lemma splice_cons (l d : list Z) off b :
  0 <= off -> off + 1 + Z.of_nat (length d) <= Z.of_nat (length l) ->
  splice (<[Z.to_nat off := b]> l) (off + 1) d = splice l off (b :: d).
Proof.
  intros. unfold splice. replace (Z.to_nat (off + 1)) with (S (Z.to_nat off)) by lia.
  rewrite (take_S_r _ _ b) by (apply list_lookup_insert_eq; lia).
  rewrite take_insert_ge, drop_insert_lt, <- app_assoc by lia. cbn.
  by rewrite Nat.add_succ_r.
Qed.

Lemma splice_snoc (l d : list Z) off b :
  0 <= off -> off + Z.of_nat (length d) < Z.of_nat (length l) ->
  <[Z.to_nat (off + Z.of_nat (length d)) := b]> (splice l off d) = splice l off (d ++ [b]).
Proof.
  intros Ho Hl. unfold splice.
  rewrite insert_app_r_alt by (rewrite length_take; lia).
  rewrite insert_app_r_alt by (rewrite length_take; lia).
  rewrite length_take, length_app. cbn [length].
  replace (_ - _ - length d)%nat with 0%nat by lia.
  destruct (lookup_lt_is_Some_2 l (Z.to_nat off + length d)) as [x Hx]; [lia|].
  rewrite (drop_S l x) by done. cbn. rewrite <- app_assoc. cbn. do 4 f_equal. lia.
Qed.

Lemma memcpy_in_length n s src dest off b dest' :
  memcpy_in n s src dest off = Done (b, dest') -> length dest' = length dest.
Proof.
  revert src dest off. induction n as [|n IH]; intros src dest off; cbn; [by intros [= _ <-]|].
  destruct (uload s src) as [[c|]| |]; cbn; try done; [|by intros [= _ <-]].
  destruct (setZ dest off c) as [d| |] eqn:E; cbn; try done.
  apply setZ_Done in E as [_ ->]. intros Hm. apply IH in Hm. by rewrite Hm, length_insert.
Qed.

Lemma copyin_length s p dest off len r dest' s' :
  copyin s p dest off len = Done (r, dest', s') -> length dest' = length dest.
Proof.
  unfold copyin. destruct (copycheck p len) as [r0 stop]. do 2 (case_bool_decide; [congruence|]).
  destruct (memcpy_in _ _ _ _ _) as [[b d]| |] eqn:E; cbn; try done.
  apply memcpy_in_length in E. destruct b; congruence.
Qed.

(** [memcpy_in] fails exactly when some byte of the range is not mapped. *)
Lemma memcpy_in_spec n s src dest off :
  badfaultfunc s = true -> 0 <= off -> off + Z.of_nat n <= Z.of_nat (length dest) ->
  exists dest', length dest' = length dest /\
    match urange (umem s) src n with
    | Some l => memcpy_in n s src dest off = Done (false, dest') /\ dest' = splice dest off l
    | None => memcpy_in n s src dest off = Done (true, dest')
    end.
Proof.
  intros Hb. revert src dest off. induction n as [|n IH]; intros src dest off Ho Hl; cbn.
  - exists dest. by rewrite splice_nil.
  - unfold uload. destruct (umem s !! src) as [b|]; cbn; [|rewrite Hb; eauto].
    rewrite setZ_ok by lia. cbn.
    destruct (IH (src + 1) (<[Z.to_nat off := b]> dest) (off + 1)) as (d & Hd & H);
      [lia|rewrite length_insert; lia|]. rewrite length_insert in Hd. exists d. split; [done|].
    destruct (urange (umem s) (src + 1) n) as [l|] eqn:E; cbn; [|done].
    destruct H as [-> ->]. split; [done|]. apply splice_cons; [lia|].
    rewrite (urange_length _ _ _ _ E). lia.
Qed.

(** Storing a list of bytes from an address on. *)
Fixpoint uwrite (m : gmap Z Z) (a : Z) (l : list Z) : gmap Z Z :=
  match l with
  | [] => m
  | b :: l => uwrite (<[a := b]> m) (a + 1) l
  end.

Lemma uwrite_lookup m a l x :
  uwrite m a l !! x =
  if decide (a <= x < a + Z.of_nat (length l)) then l !! Z.to_nat (x - a) else m !! x.
Proof.
  revert m a. induction l as [|b l IH]; intros m a; cbn [uwrite length].
  - by rewrite decide_False by lia.
  - rewrite IH. destruct (decide (x = a)) as [->|].
    + rewrite decide_False, decide_True by lia. rewrite lookup_insert_eq.
      by replace (a - a) with 0 by lia.
    + rewrite lookup_insert_ne by done. do 2 case_decide; try lia; [|done].
      by replace (Z.to_nat (x - a)) with (S (Z.to_nat (x - (a + 1)))) by lia.
Qed.

Lemma uwrite_app m a l l' : uwrite m a (l ++ l') = uwrite (uwrite m a l) (a + Z.of_nat (length l)) l'.
Proof.
  revert m a. induction l as [|b l IH]; intros m a; cbn [uwrite app length]; [by rewrite Z.add_0_r|].
  rewrite IH. f_equal. lia.
Qed.

Lemma urange_is_Some m a n :
  is_Some (urange m a n) <-> forall x, a <= x < a + Z.of_nat n -> is_Some (m !! x).
Proof.
  revert a. induction n as [|n IH]; intros a; cbn [urange].
  - split; [lia|eauto].
  - specialize (IH (a + 1)). split.
    + intros H x Hx. destruct (m !! a) eqn:E; cbn in H; [|by apply is_Some_None in H].
      destruct (decide (x = a)) as [->|]; [by rewrite E|]. apply IH; [|lia].
      by destruct (urange m (a + 1) n).
    + intros H. destruct (H a) as [b ->]; [lia|]. cbn.
      destruct (proj2 IH) as [l ->]; [intros; apply H; lia|]. by eexists.
Qed.

Lemma urange_dom m m' a n :
  (forall x, is_Some (m !! x) <-> is_Some (m' !! x)) ->
  is_Some (urange m a n) <-> is_Some (urange m' a n).
Proof. intros H. rewrite !urange_is_Some. by setoid_rewrite H. Qed.

Lemma memcpy_out_spec n s src off dest :
  badfaultfunc s = true -> 0 <= off -> off + Z.of_nat n <= Z.of_nat (length src) ->
  exists m', (forall x, ¬ (dest <= x < dest + Z.of_nat n) -> m' !! x = umem s !! x) /\
    (forall x, is_Some (m' !! x) <-> is_Some (umem s !! x)) /\
    match urange (umem s) dest n with
    | Some _ => memcpy_out n s src off dest = Done (false, mkU m' true) /\
                m' = uwrite (umem s) dest (slice src off (Z.of_nat n))
    | None => memcpy_out n s src off dest = Done (true, mkU m' true)
    end.
Proof.
  revert s off dest. induction n as [|n IH]; intros [m bf] off dest Hb Ho Hl; cbn in Hb; subst bf; cbn.
  - exists m. unfold slice. rewrite take_0. by cbn.
  - destruct (getZ_total src off) as (b & -> & Hlook); [lia|]. cbn.
    unfold ustore. cbn. destruct (m !! dest) as [b0|] eqn:E; cbn; [|by exists m].
    destruct (IH (mkU (<[dest := b]> m) true) (off + 1) (dest + 1)) as (m' & Hout & Hdom & H);
      [done|lia|lia|]. cbn in *. exists m'.
    assert (Hdom' : forall x, is_Some (<[dest:=b]> m !! x) <-> is_Some (m !! x)).
    { intros x. destruct (decide (x = dest)) as [->|].
      - rewrite lookup_insert_eq, E. by split; eauto.
      - by rewrite lookup_insert_ne. }
    split.
    { intros x Hx. rewrite Hout by lia. rewrite lookup_insert_ne; [done|lia]. }
    split; [intros x; by rewrite Hdom|].
    pose proof (urange_dom (<[dest:=b]> m) m (dest + 1) n Hdom') as Hu.
    destruct (urange (<[dest:=b]> m) (dest + 1) n), (urange m (dest + 1) n); cbn;
      [|by destruct Hu as [[] _]; eauto|by destruct Hu as [_ []]; eauto|done].
    destruct H as [-> ->]. split; [done|]. unfold slice.
    replace (Z.to_nat (Z.of_nat (S n))) with (S n) by lia. rewrite Nat2Z.id.
    rewrite (drop_S src b (Z.to_nat off)) by done. cbn.
    by replace (Z.to_nat (off + 1)) with (S (Z.to_nat off)) by lia.
Qed.

Lemma copyin_inside m usersrc dest off len :
  0 <= usersrc -> 0 < len -> usersrc + len <= USERTOP -> 0 <= off ->
  off + len <= Z.of_nat (length dest) ->
  exists dest', length dest' = length dest /\
    match urange m usersrc (Z.to_nat len) with
    | Some l => copyin (mkU m false) usersrc dest off len = Done (0, dest', mkU m false) /\
                dest' = splice dest off l
    | None => copyin (mkU m false) usersrc dest off len = Done (EFAULT, dest', mkU m false)
    end.
Proof.
  intros Hp Hlen Hin Ho Hd. unfold copyin. unfold USERTOP in Hin.
  rewrite copycheck_ok by (unfold USERTOP; lia). step_tests.
  rewrite (bool_decide_eq_false_2 (Z.min _ _ ≠ _)) by (unfold USERTOP; lia).
  change (set_badfault true (mkU m false)) with (mkU m true).
  destruct (memcpy_in_spec (Z.to_nat len) (mkU m true) usersrc dest off) as (d & Hl & H);
    [done|lia|lia|]. cbn in *. exists d. split; [done|].
  destruct (urange m usersrc (Z.to_nat len)).
  - destruct H as [-> ->]. done.
  - by rewrite H.
Qed.

Lemma copyin_outside s usersrc dest off len :
  0 <= usersrc < 4294967296 -> 0 < len < 4294967296 -> usersrc + len > USERTOP ->
  copyin s usersrc dest off len = Done (EFAULT, dest, s).
Proof.
  intros Hp Hlen Hout. unfold copyin.
  destruct (decide (usersrc + len <= 4294967296 /\ usersrc < USERTOP)).
  - rewrite copycheck_ok by lia. step_tests. done.
  - rewrite copycheck_bad by lia. done.
Qed.

Lemma copyout_inside m src off userdest len :
  0 <= userdest -> 0 < len -> userdest + len <= USERTOP -> 0 <= off ->
  off + len <= Z.of_nat (length src) ->
  exists m', (forall x, ¬ (userdest <= x < userdest + len) -> m' !! x = m !! x) /\
    (forall x, is_Some (m' !! x) <-> is_Some (m !! x)) /\
    match urange m userdest (Z.to_nat len) with
    | Some _ => copyout (mkU m false) src off userdest len = Done (0, mkU m' false) /\
                m' = uwrite m userdest (slice src off len)
    | None => copyout (mkU m false) src off userdest len = Done (EFAULT, mkU m' false)
    end.
Proof.
  intros Hp Hlen Hin Ho Hd. unfold copyout. unfold USERTOP in Hin.
  rewrite copycheck_ok by (unfold USERTOP; lia). step_tests.
  rewrite (bool_decide_eq_false_2 (Z.min _ _ ≠ _)) by (unfold USERTOP; lia).
  change (set_badfault true (mkU m false)) with (mkU m true).
  destruct (memcpy_out_spec (Z.to_nat len) (mkU m true) src off userdest) as (m' & Hout & Hdom & H);
    [done|lia|lia|]. cbn in *. rewrite Z2Nat.id in * by lia.
  exists m'. split; [done|]. split; [done|].
  destruct (urange m userdest (Z.to_nat len)).
  - destruct H as [-> ->]. done.
  - by rewrite H.
Qed.

Lemma copyout_outside s src off userdest len :
  0 <= userdest < 4294967296 -> 0 < len < 4294967296 -> userdest + len > USERTOP ->
  copyout s src off userdest len = Done (EFAULT, s).
Proof.
  intros Hp Hlen Hout. unfold copyout.
  destruct (decide (userdest + len <= 4294967296 /\ userdest < USERTOP)).
  - rewrite copycheck_ok by lia. step_tests. done.
  - rewrite copycheck_bad by lia. done.
Qed.

(** The scan of [copystr] over a kernel destination. *)
Lemma copystr_in_spec n i s p dest off maxlen stoplen l :
  badfaultfunc s = true -> 0 <= off -> 0 <= i -> Forall (fun c => c ≠ 0) l ->
  i + Z.of_nat (length l) <= maxlen -> i + Z.of_nat (length l) <= stoplen ->
  urange (umem s) (p + i) (length l) = Some l -> (length l <= n)%nat ->
  off + i + Z.of_nat (length l) <= Z.of_nat (length dest) ->
  copystr (fun _ i => uload s (p + i)) (fun d i c => d ← setZ d (off + i) c; Done (Some d))
    n i maxlen stoplen dest =
  copystr (fun _ i => uload s (p + i)) (fun d i c => d ← setZ d (off + i) c; Done (Some d))
    (n - length l) (i + Z.of_nat (length l)) maxlen stoplen (splice dest (off + i) l).
Proof.
  intros Hb Ho. revert n i dest. induction l as [|c l IH]; intros n i dest Hi Hnz Hm Hs Hu Hn Hd.
  - cbn [length]. by rewrite splice_nil, Nat.sub_0_r, Z.add_0_r.
  - cbn [length] in *. destruct n as [|n]; [lia|]. inversion_clear Hnz as [|? ? Hc Hnz'].
    cbn [copystr]. rewrite bool_decide_eq_true_2 by lia. cbn [urange] in Hu.
    destruct (umem s !! (p + i)) as [c'|] eqn:Ec; cbn in Hu; [|done].
    destruct (urange (umem s) (p + i + 1) (length l)) as [l'|] eqn:El; cbn in Hu; [|done].
    injection Hu as -> ->.
    assert (uload s (p + i) = Done (Some c)) as -> by (unfold uload; by rewrite Ec).
    cbn [mbind outcome_bind]. rewrite setZ_ok by lia. cbn [mbind outcome_bind].
    rewrite bool_decide_eq_false_2 by done.
    rewrite IH; [|lia|done|lia|lia|by replace (p + (i + 1)) with (p + i + 1) by lia|lia
                 |rewrite length_insert; lia].
    replace (off + (i + 1)) with (off + i + 1) by lia.
    rewrite splice_cons by lia. f_equal; lia.
Qed.

(** ** Properties *)

(** [copyin] reads user memory only: it succeeds exactly when the whole
    range lies below [USERTOP] and is mapped, and then the kernel object holds
    the bytes of the range; otherwise it returns EFAULT.  It never panics, and
    [pcb_badfaultfunc] is cleared again in every case. *)
Theorem copyin_spec (m : gmap Z Z) (usersrc : Z) (dest : list Z) (off len : Z) :
  0 <= usersrc < 4294967296 -> 0 < len < 4294967296 ->
  0 <= off -> off + len <= Z.of_nat (length dest) ->
  exists r dest', copyin (mkU m false) usersrc dest off len = Done (r, dest', mkU m false) /\
    length dest' = length dest /\
    ((r = 0 /\ usersrc + len <= USERTOP /\
      exists l, urange m usersrc (Z.to_nat len) = Some l /\ dest' = splice dest off l) \/
     (r = EFAULT /\ (usersrc + len > USERTOP \/ urange m usersrc (Z.to_nat len) = None))).
Proof.
  intros Hp Hlen Ho Hd. destruct (decide (usersrc + len <= USERTOP)) as [Hin|Hout].
  - destruct (copyin_inside m usersrc dest off len) as (d & Hl & H); [lia..|].
    destruct (urange m usersrc (Z.to_nat len)).
    + destruct H as [-> Hd']. do 2 eexists. split; [done|]. eauto 10.
    + rewrite H. do 2 eexists. split; [done|]. auto.
  - rewrite copyin_outside by lia. do 2 eexists. split; [done|]. split; [done|]. right. auto with lia.
Qed.

(** [copyout] writes user memory only: no address outside the destination
    range, and none at or above [USERTOP], ever changes.  It returns 0 exactly
    when the range lies below [USERTOP] and is mapped, and then the range holds
    the source bytes. *)
Theorem copyout_spec (m : gmap Z Z) (src : list Z) (off userdest len : Z) :
  0 <= userdest < 4294967296 -> 0 < len < 4294967296 ->
  0 <= off -> off + len <= Z.of_nat (length src) ->
  exists r m', copyout (mkU m false) src off userdest len = Done (r, mkU m' false) /\
    (forall x, ¬ (userdest <= x < userdest + len) \/ USERTOP <= x -> m' !! x = m !! x) /\
    ((r = 0 /\ userdest + len <= USERTOP /\ is_Some (urange m userdest (Z.to_nat len)) /\
      m' = uwrite m userdest (slice src off len)) \/
     (r = EFAULT /\ (userdest + len > USERTOP \/ urange m userdest (Z.to_nat len) = None))).
Proof.
  intros Hp Hlen Ho Hd. destruct (decide (userdest + len <= USERTOP)) as [Hin|Hout].
  - destruct (copyout_inside m src off userdest len) as (m' & Hout & _ & H); [lia..|].
    destruct (urange m userdest (Z.to_nat len)).
    + destruct H as [-> Hm']. do 2 eexists. split; [done|]. split; [intros; apply Hout; lia|].
      left. eauto.
    + rewrite H. do 2 eexists. split; [done|]. split; [intros; apply Hout; lia|]. auto.
  - rewrite copyout_outside by lia. do 2 eexists. split; [done|]. split; [done|]. right. auto with lia.
Qed.

(** What [copyout] has stored, [copyin] reads back. *)
Theorem copyout_copyin_roundtrip (m : gmap Z Z) (s' : ustate) (src : list Z) (off up len : Z)
    (dest : list Z) (doff : Z) :
  0 <= up < 4294967296 -> 0 < len < 4294967296 ->
  0 <= off -> off + len <= Z.of_nat (length src) ->
  0 <= doff -> doff + len <= Z.of_nat (length dest) ->
  copyout (mkU m false) src off up len = Done (0, s') ->
  copyin s' up dest doff len = Done (0, splice dest doff (slice src off len), s').
Proof.
  intros Hp Hlen Ho Hs Hdo Hd Hout. destruct (decide (up + len <= USERTOP)) as [Hin|];
    [|by rewrite copyout_outside in Hout by lia].
  destruct (copyout_inside m src off up len) as (m' & _ & _ & H); [lia..|].
  destruct (urange m up (Z.to_nat len)) eqn:E; [|by rewrite H in Hout].
  destruct H as [Heq ->]. rewrite Hout in Heq. injection Heq as ->.
  destruct (copyin_inside (uwrite m up (slice src off len)) up dest doff len) as (d & _ & H); [lia..|].
  assert (urange (uwrite m up (slice src off len)) up (Z.to_nat len) = Some (slice src off len)) as Hu.
  { clear - Hlen Ho Hs. remember (slice src off len) as l eqn:El.
    assert (Z.to_nat len = length l) as ->
      by (pose proof (length_slice src off len); subst l; lia).
    clear El. revert m up. induction l as [|b l IH]; intros m up; [done|].
    cbn [uwrite length urange]. rewrite uwrite_lookup, decide_False by lia.
    rewrite lookup_insert_eq. cbn. by rewrite IH. }
  rewrite Hu in H. destruct H as [-> ->]. done.
Qed.

(** A copy of zero bytes is refused with EFAULT at every user address,
    since [bot+len-1] wraps below [bot] (or, at address 0, to the top of memory):
    [stoplen] is then not the length that can be copied. *)
Theorem copyin_zero_length (s : ustate) (usersrc : Z) (dest : list Z) (off : Z) :
  0 <= usersrc < 4294967296 -> copyin s usersrc dest off 0 = Done (EFAULT, dest, s).
Proof.
  intros Hp. unfold copyin, copycheck. rewrite Z.add_0_r.
  destruct (decide (usersrc = 0)) as [->|].
  - reflexivity.
  - rewrite u32_small by lia. by rewrite (bool_decide_eq_true_2 (_ < _)) by lia.
Qed.

(** [copyinstr] copies a string with its terminator when it ends within the
    given length and below [USERTOP], and reports that length; a string too
    long for the buffer gives ENAMETOOLONG, one that runs into the kernel
    EFAULT. *)
Theorem copyinstr_spec (m : gmap Z Z) (usersrc : Z) (l : list Z) (dest : list Z) (off len : Z) :
  0 <= usersrc < USERTOP -> 0 < len < 4294967296 -> usersrc + len <= 4294967296 ->
  0 <= off -> off + len <= Z.of_nat (length dest) -> Forall (fun c => c ≠ 0) l ->
  urange m usersrc (length l) = Some l ->
  let n := Z.of_nat (length l) in
  (n + 1 <= len -> usersrc + n + 1 <= USERTOP -> m !! (usersrc + n) = Some 0 ->
   copyinstr (mkU m false) usersrc dest off len =
     Done (0, Some (n + 1), splice dest off (l ++ [0]), mkU m false)) /\
  (n = len -> usersrc + len <= USERTOP ->
   copyinstr (mkU m false) usersrc dest off len =
     Done (ENAMETOOLONG, None, splice dest off l, mkU m false)) /\
  (usersrc + n = USERTOP -> n < len ->
   copyinstr (mkU m false) usersrc dest off len =
     Done (EFAULT, None, splice dest off l, mkU m false)).
Proof.
  intros Hp Hlen Hw Ho Hd Hnz Hu n. unfold USERTOP in Hp.
  unfold copyinstr. rewrite copycheck_ok by (unfold USERTOP; lia). step_tests.
  change (set_badfault true (mkU m false)) with (mkU m true).
  assert (n <= len -> n <= Z.min len (USERTOP - usersrc) ->
    copystr (fun _ i => uload (mkU m true) (usersrc + i))
      (fun d i c => d ← setZ d (off + i) c; Done (Some d)) (Z.to_nat len) 0 len
      (Z.min len (USERTOP - usersrc)) dest =
    copystr (fun _ i => uload (mkU m true) (usersrc + i))
      (fun d i c => d ← setZ d (off + i) c; Done (Some d)) (Z.to_nat (len - n)) n len
      (Z.min len (USERTOP - usersrc)) (splice dest off l)) as Hscan.
  { intros. rewrite (copystr_in_spec (Z.to_nat len) 0 (mkU m true) usersrc dest off len _ l);
      [|done|lia|lia|done|lia|lia|by rewrite Z.add_0_r|lia|lia].
    rewrite Z.add_0_r, Z.add_0_l. f_equal. lia. }
  assert (off + n <= Z.of_nat (length dest) -> length (splice dest off l) = length dest) as Hsl
    by (intros; apply length_splice; lia).
  split; [|split].
  - intros Hn Ht H0. rewrite Hscan by lia.
    destruct (Z.to_nat (len - n)) as [|k] eqn:Ek; [lia|]. cbn [copystr].
    rewrite bool_decide_eq_true_2 by lia. unfold uload. cbn [umem]. rewrite H0. cbn [mbind outcome_bind].
    rewrite setZ_ok by (rewrite Hsl; lia). cbn. unfold n. by rewrite splice_snoc by lia.
  - intros Hn Ht. rewrite Hscan by lia. replace (Z.to_nat (len - n)) with 0%nat by lia.
    cbn. by rewrite bool_decide_eq_false_2 by (unfold USERTOP in *; lia).
  - intros Ht Hn. rewrite Hscan by lia.
    destruct (Z.to_nat (len - n)) as [|k] eqn:Ek; [lia|]. cbn [copystr].
    rewrite bool_decide_eq_false_2 by lia. cbn. by rewrite bool_decide_eq_true_2 by lia.
Qed.

(** ** Witnesses *)

Definition ex_umem : gmap Z Z := list_to_map [(4096, 104); (4097, 105); (4098, 0)].

Lemma copyin_spec_witness :
  exists r dest', copyin (mkU ex_umem false) 4096 [9; 9; 9; 9] 1 2 = Done (r, dest', mkU ex_umem false) /\
    length dest' = length [9; 9; 9; 9] /\
    ((r = 0 /\ 4096 + 2 <= USERTOP /\
      exists l, urange ex_umem 4096 (Z.to_nat 2) = Some l /\ dest' = splice [9; 9; 9; 9] 1 l) \/
     (r = EFAULT /\ (4096 + 2 > USERTOP \/ urange ex_umem 4096 (Z.to_nat 2) = None))).
Proof. apply (copyin_spec ex_umem 4096 [9; 9; 9; 9] 1 2); cbn; lia. Defined.

Lemma copyout_spec_witness :
  exists r m', copyout (mkU ex_umem false) [7; 8] 0 4096 2 = Done (r, mkU m' false) /\
    (forall x, ¬ (4096 <= x < 4096 + 2) \/ USERTOP <= x -> m' !! x = ex_umem !! x) /\
    ((r = 0 /\ 4096 + 2 <= USERTOP /\ is_Some (urange ex_umem 4096 (Z.to_nat 2)) /\
      m' = uwrite ex_umem 4096 (slice [7; 8] 0 2)) \/
     (r = EFAULT /\ (4096 + 2 > USERTOP \/ urange ex_umem 4096 (Z.to_nat 2) = None))).
Proof. apply (copyout_spec ex_umem [7; 8] 0 4096 2); cbn; lia. Defined.

Lemma copyout_copyin_roundtrip_witness :
  copyin (mkU (uwrite ex_umem 4096 [7; 8]) false) 4096 [0; 0; 0] 1 2 =
  Done (0, splice [0; 0; 0] 1 (slice [7; 8] 0 2), mkU (uwrite ex_umem 4096 [7; 8]) false).
Proof.
  apply (copyout_copyin_roundtrip ex_umem _ [7; 8] 0 4096 2); cbn [length]; try lia.
  vm_compute. reflexivity.
Defined.

Lemma copyin_zero_length_witness :
  copyin (mkU ex_umem false) 4096 [1] 0 0 = Done (EFAULT, [1], mkU ex_umem false).
Proof. apply (copyin_zero_length (mkU ex_umem false) 4096 [1] 0). lia. Defined.

Lemma copyinstr_spec_witness :
  copyinstr (mkU ex_umem false) 4096 [1; 1; 1; 1] 0 4 =
  Done (0, Some 3, splice [1; 1; 1; 1] 0 [104; 105; 0], mkU ex_umem false).
Proof.
  apply (copyinstr_spec ex_umem 4096 [104; 105] [1; 1; 1; 1] 0 4); unfold USERTOP; cbn [length]; try lia.
  - repeat constructor; lia.
  - reflexivity.
  - reflexivity.
Defined.

End UserMem.
