(* ===== verification/Uio.v ===== *)
(** * Data transfers: [kern/userprog/uio.c] and [kern/include/uio.h]

    A [uio] describes one region of kernel or user memory with a position in
    the object it is transferred to or from.  For a kernel region the model
    keeps the kernel object the [iovec] points into ([uio_kdata]) and the
    pointer as an offset in it; a user region is reached through [copyin] and
    [copyout]. *)

From S2P Require Import Prelude UserMem.

Module Uio.
Import UserMem.

Inductive uio_rw_t := UIO_READ | UIO_WRITE.
Inductive uio_seg := UIO_USERSPACE | UIO_SYSSPACE | UIO_USERISPACE.

#[export] Instance uio_rw_eq_dec : EqDecision uio_rw_t.
Proof. solve_decision. Defined.
#[export] Instance uio_seg_eq_dec : EqDecision uio_seg.
Proof. solve_decision. Defined.

Record uio := mkUio {
  uio_kdata : list Z;          (* the object iov_kbase points into *)
  iov_base : Z;                (* iov_kbase as an offset, or iov_ubase *)
  iov_len : Z;
  uio_offset : Z;
  uio_resid : Z;
  uio_segflg : uio_seg;
  uio_rw : uio_rw_t;
  uio_space : Z                (* address space, NULL for the kernel *)
}.

(** What [uiomove] sees of the current thread. *)
Record ctx := mkCtx {
  ctx_u : ustate;
  t_vmspace : Z
}.

(** [mk_kuio(uio, kbuf, len, pos, rw)], [kbuf] being the start of an object. *)
Definition mk_kuio (kbuf : list Z) (len pos : Z) (rw : uio_rw_t) : uio :=
  mkUio kbuf 0 len pos len UIO_SYSSPACE rw NULL.

Definition set_kdata (u : uio) (d : list Z) : uio :=
  mkUio d (iov_base u) (iov_len u) (uio_offset u) (uio_resid u) (uio_segflg u) (uio_rw u) (uio_space u).
Definition set_pos (u : uio) (offset resid : Z) : uio :=
  mkUio (uio_kdata u) (iov_base u) (iov_len u) offset resid (uio_segflg u) (uio_rw u) (uio_space u).

(** The updates at the end of the loop body of [uiomove]. *)
Definition advance (u : uio) (size : Z) : uio :=
  mkUio (uio_kdata u) (iov_base u + size) (iov_len u - size) (s32 (uio_offset u + size))
        (u32 (uio_resid u - size)) (uio_segflg u) (uio_rw u) (uio_space u).

(** The [switch] of the loop body: the error, the kernel buffer at [ptr], the
    [uio] (whose object a read may change) and the thread. *)
Definition move_chunk (kb : list Z) (p size : Z) (u : uio) (c : ctx)
    : outcome (Z * list Z * uio * ctx) :=
  match uio_segflg u, uio_rw u with
  | UIO_SYSSPACE, UIO_READ =>
      d ← mem_read kb p size;
      k ← mem_write (uio_kdata u) (iov_base u) d;
      Done (0, kb, set_kdata u k, c)
  | UIO_SYSSPACE, UIO_WRITE =>
      d ← mem_read (uio_kdata u) (iov_base u) size;
      kb ← mem_write kb p d;
      Done (0, kb, u, c)
  | _, UIO_READ =>
      '(result, s) ← copyout (ctx_u c) kb p (iov_base u) size;
      Done (result, kb, u, mkCtx s (t_vmspace c))
  | _, UIO_WRITE =>
      '(result, kb, s) ← copyin (ctx_u c) (iov_base u) kb p size;
      Done (result, kb, u, mkCtx s (t_vmspace c))
  end.

(** [while (n > 0 && uio->uio_resid > 0)]: each turn moves at least one byte. *)
Fixpoint move_loop (fuel : nat) (kb : list Z) (p n : Z) (u : uio) (c : ctx)
    : outcome (Z * list Z * uio * ctx) :=
  if bool_decide (n > 0 /\ uio_resid u > 0) then
    match fuel with
    | O => Stuck
    | S fuel =>
        let size := if bool_decide (iov_len u > n) then n else iov_len u in
        if bool_decide (size = 0) then Panic
        else
          '(result, kb, u, c) ← move_chunk kb p size u c;
          if bool_decide (result ≠ 0) then Done (result, kb, u, c)
          else move_loop fuel kb (p + size) (n - size) (advance u size) c
    end
  else Done (0, kb, u, c).

Definition uiomove (kb : list Z) (p n : Z) (u : uio) (c : ctx)
    : outcome (Z * list Z * uio * ctx) :=
  assert! (if decide (uio_segflg u = UIO_SYSSPACE)
           then bool_decide (uio_space u = NULL)
           else bool_decide (uio_space u = t_vmspace c)) ;;
  move_loop (Z.to_nat n) kb p n u c.

(** [uiomovezeros]: chunks of at most 16 zero bytes. *)
Fixpoint zeros_loop (fuel : nat) (n : Z) (u : uio) (c : ctx) : outcome (Z * uio * ctx) :=
  if bool_decide (n > 0) then
    match fuel with
    | O => Stuck
    | S fuel =>
        let amt := if bool_decide (16 > n) then n else 16 in
        '(result, _, u, c) ← uiomove (zeros 16) 0 amt u c;
        if bool_decide (result ≠ 0) then Done (result, u, c)
        else zeros_loop fuel (n - amt) u c
    end
  else Done (0, u, c).

Definition uiomovezeros (n : Z) (u : uio) (c : ctx) : outcome (Z * uio * ctx) :=
  assert! bool_decide (uio_rw u = UIO_READ) ;;
  zeros_loop (Z.to_nat n) n u c.

(** ** Fields that no transfer changes *)

(** What every transfer keeps: the kind of [uio], the thread's address space,
    the length of the kernel buffer and, when reading, its contents. *)
Definition keeps (kb : list Z) (u : uio) (c : ctx) (kb' : list Z) (u' : uio) (c' : ctx) : Prop :=
  uio_rw u' = uio_rw u /\ uio_segflg u' = uio_segflg u /\ uio_space u' = uio_space u /\
  t_vmspace c' = t_vmspace c /\ length kb' = length kb /\ (uio_rw u = UIO_READ -> kb' = kb).

Lemma move_chunk_keeps kb p size u c r kb' u' c' :
  move_chunk kb p size u c = Done (r, kb', u', c') -> keeps kb u c kb' u' c'.
Proof.
  unfold move_chunk, keeps, mem_write. destruct (uio_segflg u) eqn:Es, (uio_rw u) eqn:Er; intros E; inv_done;
    repeat case_match; inv_done; simplify_eq/=; repeat split; eauto using copyin_length; try done.
  all: rewrite length_splice; lia.
Qed.

Lemma move_loop_keeps fuel kb p n u c r kb' u' c' :
  move_loop fuel kb p n u c = Done (r, kb', u', c') -> keeps kb u c kb' u' c'.
Proof.
  revert kb p n u c. induction fuel as [|fuel IH]; intros kb p n u c; cbn [move_loop];
    (case_bool_decide; [|by intros [= <- <- <- <-]]); [done|].
  set (size := if bool_decide (iov_len u > n) then n else iov_len u). clearbody size.
  case_bool_decide; [done|].
  destruct (move_chunk kb p size u c) as [[[[r1 kb1] u1] c1]| |] eqn:E; cbn; [|done|done].
  apply move_chunk_keeps in E as (? & ? & ? & ? & ? & Hkb1).
  case_bool_decide; [by intros [= <- <- <- <-]|].
  intros Hl. apply IH in Hl as (? & ? & ? & ? & ? & Hkb2). cbn in *.
  repeat split; try congruence. intros Hr. rewrite Hkb2; [by apply Hkb1|congruence].
Qed.

Lemma uiomove_keeps kb p n u c r kb' u' c' :
  uiomove kb p n u c = Done (r, kb', u', c') -> keeps kb u c kb' u' c'.
Proof. unfold uiomove. intros E. inv_done. by eapply move_loop_keeps. Qed.

(** ** Kernel transfers *)

(** A kernel [uio] whose remaining count stays within its buffer. *)
Record kwf (u : uio) : Prop := {
  kwf_seg : uio_segflg u = UIO_SYSSPACE;
  kwf_space : uio_space u = NULL;
  kwf_base : 0 <= iov_base u;
  kwf_buf : iov_base u + iov_len u <= Z.of_nat (length (uio_kdata u));
  kwf_resid : 0 <= uio_resid u <= iov_len u;
  kwf_len : iov_len u < 4294967296;
  kwf_off : 0 <= uio_offset u /\ uio_offset u + uio_resid u <= INT_MAX
}.

(** The [uio] after a transfer of [n] bytes. *)
Definition moved (u : uio) (n : Z) : uio :=
  mkUio (uio_kdata u) (iov_base u + n) (iov_len u - n) (uio_offset u + n)
        (uio_resid u - n) (uio_segflg u) (uio_rw u) (uio_space u).

Lemma advance_moved u n : kwf u -> 0 <= n <= uio_resid u -> advance u n = moved u n.
Proof.
  intros [] Hn. unfold advance, moved. rewrite s32_small by (unfold INT_MIN; lia).
  by rewrite u32_small by lia.
Qed.

Lemma kwf_moved u n : kwf u -> 0 <= n <= uio_resid u -> kwf (moved u n).
Proof. intros [] Hn. split; cbn; try done; lia. Qed.

Lemma kwf_set_kdata u d : kwf u -> length d = length (uio_kdata u) -> kwf (set_kdata u d).
Proof. intros [] Hn. split; cbn; try done; lia. Qed.

Lemma moved_0 u : moved (set_kdata u (uio_kdata u)) 0 = u.
Proof. destruct u. unfold moved. cbn. f_equal; lia. Qed.

Lemma move_loop_0 fuel kb p u c : move_loop fuel kb p 0 u c = Done (0, kb, u, c).
Proof. destruct fuel; cbn; by rewrite bool_decide_eq_false_2 by lia. Qed.

Lemma uiomove_kernel_0 kb p u c : kwf u -> uiomove kb p 0 u c = Done (0, kb, u, c).
Proof.
  intros [Hseg Hsp _ _ _ _ _]. unfold uiomove. rewrite decide_True by done.
  rewrite bool_decide_eq_true_2 by done. cbn [kassert mbind outcome_bind]. apply move_loop_0.
Qed.

Lemma uiomove_kernel_step kb p n u c :
  kwf u -> 0 < n <= uio_resid u ->
  uiomove kb p n u c =
    ('(result, kb, u, c) ← move_chunk kb p n u c;
     if bool_decide (result ≠ 0) then Done (result, kb, u, c)
     else Done (0, kb, advance u n, c)).
Proof.
  intros [Hseg Hsp Hb Hbuf Hr Hlen Hoff] Hn. unfold uiomove.
  rewrite decide_True by done. rewrite (bool_decide_eq_true_2 (uio_space u = _)) by done.
  cbn [kassert mbind outcome_bind].
  destruct (Z.to_nat n) as [|k] eqn:Ek; [lia|]. cbn [move_loop].
  rewrite (bool_decide_eq_true_2 (n > 0 /\ _)) by lia.
  replace (if bool_decide (iov_len u > n) then n else iov_len u) with n
    by (case_bool_decide; lia).
  rewrite (bool_decide_eq_false_2 (n = 0)) by lia.
  destruct (move_chunk kb p n u c) as [[[[r kb'] u'] c']| |]; cbn; [|done|done].
  case_bool_decide; [done|]. rewrite Z.sub_diag. apply move_loop_0.
Qed.

(** Kernel read: the bytes at [ptr] go to the region. *)
Lemma uiomove_kernel_read kb p n u c :
  kwf u -> uio_rw u = UIO_READ -> 0 <= n <= uio_resid u ->
  0 <= p -> p + n <= Z.of_nat (length kb) ->
  uiomove kb p n u c =
    Done (0, kb, moved (set_kdata u (splice (uio_kdata u) (iov_base u) (slice kb p n))) n, c).
Proof.
  intros Hwf Hrw Hn Hp Hkb. destruct (decide (n = 0)) as [->|].
  - rewrite uiomove_kernel_0 by done. unfold slice. cbn [Z.to_nat]. rewrite take_0.
    by rewrite splice_nil, moved_0.
  - rewrite uiomove_kernel_step by (done || lia). unfold move_chunk.
    rewrite (kwf_seg u Hwf), Hrw, mem_read_ok by lia. cbn [mbind outcome_bind].
    pose proof (length_slice kb p n Hp ltac:(lia) Hkb) as Hsl. destruct Hwf.
    rewrite mem_write_ok by lia. cbn [mbind outcome_bind]. step_tests.
    rewrite advance_moved; [done| |done].
    apply kwf_set_kdata; [by split|]. apply length_splice; lia.
Qed.

(** Asked for more than a region that is as long as the residue, [uiomove]
    fills the region. *)
Lemma uiomove_kernel_read_fill kb p n u c :
  kwf u -> uio_rw u = UIO_READ -> iov_len u = uio_resid u -> 0 < uio_resid u < n ->
  0 <= p -> p + n <= Z.of_nat (length kb) -> let k := uio_resid u in
  uiomove kb p n u c =
    Done (0, kb, moved (set_kdata u (splice (uio_kdata u) (iov_base u) (slice kb p k))) k, c).
Proof.
  intros Hwf Hrw Hlen Hn Hp Hkb k. pose proof Hwf as [Hseg Hsp Hb Hbuf Hr Hmax Hoff]. unfold uiomove.
  rewrite decide_True by done. rewrite (bool_decide_eq_true_2 (uio_space u = _)) by done.
  cbn [kassert mbind outcome_bind].
  destruct (Z.to_nat n) as [|m] eqn:Em; [lia|]. cbn [move_loop].
  rewrite (bool_decide_eq_true_2 (n > 0 /\ _)) by lia.
  rewrite (bool_decide_eq_false_2 (iov_len u > n)) by lia. rewrite Hlen.
  rewrite (bool_decide_eq_false_2 (uio_resid u = 0)) by lia. fold k.
  unfold move_chunk. rewrite Hseg, Hrw, mem_read_ok by lia. cbn [mbind outcome_bind].
  pose proof (length_slice kb p k Hp ltac:(lia) ltac:(lia)) as Hsl.
  rewrite mem_write_ok by lia. cbn [mbind outcome_bind]. step_tests.
  rewrite advance_moved; [|apply kwf_set_kdata; [done|apply length_splice; lia]|cbn; lia].
  destruct m as [|m]; cbn [move_loop]; cbn [uio_resid moved set_kdata]; by rewrite bool_decide_eq_false_2 by lia.
Qed.

(** Kernel write: the bytes of the region go to [ptr]. *)
Lemma uiomove_kernel_write kb p n u c :
  kwf u -> uio_rw u = UIO_WRITE -> 0 <= n <= uio_resid u ->
  0 <= p -> p + n <= Z.of_nat (length kb) ->
  uiomove kb p n u c =
    Done (0, splice kb p (slice (uio_kdata u) (iov_base u) n), moved u n, c).
Proof.
  intros Hwf Hrw Hn Hp Hkb. destruct (decide (n = 0)) as [->|].
  - rewrite uiomove_kernel_0 by done. unfold slice. cbn [Z.to_nat]. rewrite take_0, splice_nil.
    assert (moved u 0 = u) as -> by (rewrite <- (moved_0 u) at 2; by destruct u). done.
  - rewrite uiomove_kernel_step by (done || lia). unfold move_chunk.
    rewrite (kwf_seg u Hwf), Hrw. pose proof Hwf as [].
    rewrite mem_read_ok by lia. cbn [mbind outcome_bind].
    pose proof (length_slice (uio_kdata u) (iov_base u) n ltac:(lia) ltac:(lia) ltac:(lia)) as Hsl.
    rewrite mem_write_ok by lia. cbn [mbind outcome_bind]. step_tests.
    by rewrite advance_moved by (done || lia).
Qed.

Lemma moved_moved u a b : moved (moved u a) b = moved u (a + b).
Proof. unfold moved. cbn. f_equal; lia. Qed.

(** The [uio] after [bytes] were read into its region. *)
Definition filled (u : uio) (bytes : list Z) : uio :=
  moved (set_kdata u (splice (uio_kdata u) (iov_base u) bytes)) (Z.of_nat (length bytes)).

Lemma filled_nil u : filled u [] = u.
Proof. unfold filled. rewrite splice_nil. apply moved_0. Qed.

Lemma filled_props u bytes :
  kwf u -> Z.of_nat (length bytes) <= uio_resid u -> iov_len u = uio_resid u -> uio_rw u = UIO_READ ->
  kwf (filled u bytes) /\ iov_len (filled u bytes) = uio_resid (filled u bytes) /\ uio_rw (filled u bytes) = UIO_READ /\
  uio_resid (filled u bytes) = uio_resid u - Z.of_nat (length bytes).
Proof.
  intros Hwf Hb Hl Hrw. unfold filled. pose proof Hwf as []. split_and!; cbn; try done; [|lia].
  apply kwf_moved; [|cbn; lia]. apply kwf_set_kdata; [done|]. apply length_splice; lia.
Qed.

Lemma filled_app u b1 b2 :
  kwf u -> Z.of_nat (length b1 + length b2) <= uio_resid u -> filled (filled u b1) b2 = filled u (b1 ++ b2).
Proof.
  intros Hwf Hb. unfold filled, moved, set_kdata. cbn. destruct Hwf. rewrite splice_app by lia.
  rewrite length_app. f_equal; lia.
Qed.

Lemma zeros_app a b : 0 <= a -> 0 <= b -> zeros (a + b) = zeros a ++ zeros b.
Proof. intros. unfold zeros. rewrite Z2Nat.inj_add by lia. apply replicate_add. Qed.

Lemma slice_zeros n a : 0 <= a <= n -> slice (zeros n) 0 a = zeros a.
Proof.
  intros. unfold slice, zeros. rewrite drop_0, take_replicate. f_equal. lia.
Qed.

Lemma zeros_loop_spec fuel n u c :
  kwf u -> uio_rw u = UIO_READ -> 0 <= n <= uio_resid u -> n <= Z.of_nat fuel ->
  zeros_loop fuel n u c =
    Done (0, moved (set_kdata u (splice (uio_kdata u) (iov_base u) (zeros n))) n, c).
Proof.
  revert n u. induction fuel as [|fuel IH]; intros n u Hwf Hrw Hn Hf; cbn [zeros_loop].
  all: destruct (decide (n = 0)) as [->|Hne]; [|try lia].
  1, 2: step_tests; change (zeros 0) with (@nil Z); by rewrite splice_nil, moved_0.
  step_tests. set (amt := if bool_decide (16 > n) then n else 16).
  assert (0 < amt <= n /\ amt <= 16) as [Ha Ha'] by (unfold amt; case_bool_decide; lia).
  rewrite uiomove_kernel_read; [|done|done|lia|lia|rewrite length_zeros; lia].
  step_tests. rewrite slice_zeros by lia. pose proof Hwf as [].
  assert (Z.of_nat (length (zeros amt)) = amt) as Hz by (apply length_zeros; lia).
  rewrite IH; [| |done|cbn; lia|lia].
  - cbn [uio_kdata iov_base moved set_kdata]. do 3 f_equal.
    pose proof (splice_app (uio_kdata u) (iov_base u) (zeros amt) (zeros (n - amt))) as Hs.
    rewrite Hz, (length_zeros (n - amt)) in Hs by lia. rewrite Hs by lia.
    rewrite <- zeros_app by lia. replace (amt + (n - amt)) with n by lia.
    unfold moved, set_kdata. cbn. f_equal; lia.
  - apply kwf_moved; [|cbn; lia]. apply kwf_set_kdata; [done|]. apply length_splice; lia.
Qed.

(** ** Properties *)

(** For a kernel region, [uiomove] moves exactly [n] bytes in the direction
    of the [uio] when at most [uio_resid] are asked for: the target receives
    the source bytes and nothing else changes; offset and residue advance by
    [n]. *)
Theorem uiomove_kernel_transfers (kb : list Z) (p n : Z) (u : uio) (c : ctx) :
  kwf u -> 0 <= n <= uio_resid u -> 0 <= p -> p + n <= Z.of_nat (length kb) ->
  exists kb' u', uiomove kb p n u c = Done (0, kb', u', c) /\ kwf u' /\
    uio_offset u' = uio_offset u + n /\ uio_resid u' = uio_resid u - n /\
    uio_rw u' = uio_rw u /\
    match uio_rw u with
    | UIO_READ => kb' = kb /\
        uio_kdata u' = splice (uio_kdata u) (iov_base u) (slice kb p n)
    | UIO_WRITE => uio_kdata u' = uio_kdata u /\
        kb' = splice kb p (slice (uio_kdata u) (iov_base u) n)
    end.
Proof.
  intros Hwf Hn Hp Hkb. destruct (uio_rw u) eqn:Hrw.
  - rewrite uiomove_kernel_read by done. do 2 eexists. split; [done|]. split; [|done].
    apply kwf_moved; [|done]. apply kwf_set_kdata; [done|]. destruct Hwf.
    pose proof (length_slice kb p n Hp ltac:(lia) Hkb). apply length_splice; lia.
  - rewrite uiomove_kernel_write by done. do 2 eexists. split; [done|]. split; [|done].
    by apply kwf_moved.
Qed.

(** [uiomovezeros] fills the next [n] bytes of a kernel region with zeros,
    for any [n] up to the residue, through its 16-byte buffer. *)
Lemma uiomovezeros_spec (n : Z) (u : uio) (c : ctx) :
  kwf u -> uio_rw u = UIO_READ -> 0 <= n <= uio_resid u ->
  uiomovezeros n u c =
    Done (0, moved (set_kdata u (splice (uio_kdata u) (iov_base u) (zeros n))) n, c).
Proof.
  intros Hwf Hrw Hn. unfold uiomovezeros. rewrite bool_decide_eq_true_2 by done.
  cbn [kassert mbind outcome_bind]. apply zeros_loop_spec; [done|done|done|lia].
Qed.

(** [uiomove] bounds the chunk by [iov_len] and [n] but not by
    [uio_resid]: asked for more than the residue of a longer buffer it moves
    [n] bytes, and the unsigned residue wraps around. *)
Theorem uiomove_resid_wraps (kb : list Z) (n : Z) (u : uio) (c : ctx) :
  uio_segflg u = UIO_SYSSPACE -> uio_space u = NULL -> uio_rw u = UIO_READ ->
  0 <= iov_base u -> iov_base u + iov_len u <= Z.of_nat (length (uio_kdata u)) ->
  0 < uio_resid u -> uio_resid u < n <= iov_len u -> iov_len u < 4294967296 ->
  n <= Z.of_nat (length kb) ->
  exists u', uiomove kb 0 n u c = Done (0, kb, u', c) /\
    uio_kdata u' = splice (uio_kdata u) (iov_base u) (slice kb 0 n) /\
    uio_resid u' = 4294967296 - (n - uio_resid u).
Proof.
  intros Hseg Hsp Hrw Hb Hbuf Hr Hn Hl Hkb. unfold uiomove. rewrite decide_True by done.
  rewrite (bool_decide_eq_true_2 (uio_space u = _)) by done. cbn [kassert mbind outcome_bind].
  destruct (Z.to_nat n) as [|k] eqn:Ek; [lia|]. cbn [move_loop].
  rewrite (bool_decide_eq_true_2 (n > 0 /\ _)) by lia.
  replace (if bool_decide (iov_len u > n) then n else iov_len u) with n by (case_bool_decide; lia).
  rewrite (bool_decide_eq_false_2 (n = 0)) by lia. unfold move_chunk. rewrite Hseg, Hrw.
  rewrite mem_read_ok by lia. cbn [mbind outcome_bind].
  pose proof (length_slice kb 0 n ltac:(lia) ltac:(lia) ltac:(lia)).
  rewrite mem_write_ok by lia. cbn [mbind outcome_bind]. step_tests.
  rewrite Z.sub_diag, move_loop_0. eexists. split; [done|]. split; [done|]. cbn.
  unfold u32. symmetry. apply Z.mod_unique with (-1); lia.
Qed.

(** A user region is reached only through [copyout]/[copyin] in the current
    address space: a failed copy returns its error with offset and residue
    unchanged, a successful one advances them by [n]. *)
Theorem uiomove_user_read (kb : list Z) (p n : Z) (u : uio) (c : ctx) (r : Z) (s : ustate) :
  uio_segflg u ≠ UIO_SYSSPACE -> uio_space u = t_vmspace c -> uio_rw u = UIO_READ ->
  0 < n -> n <= iov_len u -> n <= uio_resid u < 4294967296 ->
  0 <= uio_offset u -> uio_offset u + n <= INT_MAX ->
  copyout (ctx_u c) kb p (iov_base u) n = Done (r, s) ->
  uiomove kb p n u c =
    Done (r, kb, if decide (r = 0) then moved u n else u, mkCtx s (t_vmspace c)).
Proof.
  intros Hseg Hsp Hrw Hn Hl Hr Ho Ho2 Hc. unfold uiomove. rewrite decide_False by done.
  rewrite (bool_decide_eq_true_2 (uio_space u = _)) by done. cbn [kassert mbind outcome_bind].
  destruct (Z.to_nat n) as [|k] eqn:Ek; [lia|]. cbn [move_loop].
  rewrite (bool_decide_eq_true_2 (n > 0 /\ _)) by lia.
  replace (if bool_decide (iov_len u > n) then n else iov_len u) with n by (case_bool_decide; lia).
  rewrite (bool_decide_eq_false_2 (n = 0)) by lia.
  assert (move_chunk kb p n u c = Done (r, kb, u, mkCtx s (t_vmspace c))) as ->.
  { unfold move_chunk. rewrite Hrw. destruct (uio_segflg u); [|done|]; by rewrite Hc. }
  cbn [mbind outcome_bind]. destruct (decide (r = 0)) as [->|]; step_tests; [|done].
  rewrite Z.sub_diag, move_loop_0. unfold advance, moved.
  rewrite s32_small by (unfold INT_MIN in *; lia). by rewrite u32_small by lia.
Qed.

(** ** Witnesses *)

Definition ex_ctx : ctx := mkCtx (mkU ex_umem false) 77.

Lemma mk_kuio_kwf kbuf len pos rw :
  0 <= len < 4294967296 -> len <= Z.of_nat (length kbuf) -> 0 <= pos -> pos + len <= INT_MAX ->
  kwf (mk_kuio kbuf len pos rw).
Proof. intros. split; cbn; try done; lia. Qed.

Lemma uiomove_kernel_transfers_witness :
  let u := mk_kuio [0; 0; 0; 0] 4 512 UIO_READ in
  exists kb' u', uiomove [1; 2; 3] 1 2 u ex_ctx = Done (0, kb', u', ex_ctx) /\ kwf u' /\
    uio_offset u' = uio_offset u + 2 /\ uio_resid u' = uio_resid u - 2 /\
    uio_rw u' = uio_rw u /\
    match uio_rw u with
    | UIO_READ => kb' = [1; 2; 3] /\
        uio_kdata u' = splice (uio_kdata u) (iov_base u) (slice [1; 2; 3] 1 2)
    | UIO_WRITE => uio_kdata u' = uio_kdata u /\
        kb' = splice [1; 2; 3] 1 (slice (uio_kdata u) (iov_base u) 2)
    end.
Proof.
  apply (uiomove_kernel_transfers [1; 2; 3] 1 2); cbn; try lia.
  apply mk_kuio_kwf; cbn; unfold INT_MAX; lia.
Defined.

Lemma uiomove_resid_wraps_witness :
  let u := set_pos (mk_kuio [0; 0; 0; 0] 4 0 UIO_READ) 0 1 in
  exists u', uiomove [5; 6; 7] 0 3 u ex_ctx = Done (0, [5; 6; 7], u', ex_ctx) /\
    uio_kdata u' = splice (uio_kdata u) (iov_base u) (slice [5; 6; 7] 0 3) /\
    uio_resid u' = 4294967296 - (3 - uio_resid u).
Proof. apply (uiomove_resid_wraps [5; 6; 7] 3); cbn; try done; lia. Defined.

Lemma uiomove_user_read_witness :
  let u := mkUio [] 4096 2 0 2 UIO_USERSPACE UIO_READ 77 in
  uiomove [7; 8] 0 2 u ex_ctx =
    Done (0, [7; 8], moved u 2, mkCtx (mkU (uwrite ex_umem 4096 [7; 8]) false) 77).
Proof.
  apply (uiomove_user_read [7; 8] 0 2 _ ex_ctx 0); cbn [uio_segflg uio_space t_vmspace ex_ctx uio_rw
    iov_len uio_resid uio_offset]; try done; unfold INT_MAX; lia.
Defined.

End Uio.
