(* ===== verification/BlockDev.v ===== *)
(** * Block devices: the interface of [kern/include/dev.h]

    [struct device] is a table of functions; SFS uses [d_io], [d_blocks] and
    [d_blocksize] of it.  [BlockDevice] has these operations together with the
    contents of the sectors, [BlockDeviceLaws] what a working device promises
    about a transfer of one sector.  [Lhd] discharges the laws for the LAMEbus
    disk driver; the theorems about SFS are proved from them. *)

From S2P Require Import Prelude UserMem Uio.
Import Uio.

Definition SECTSIZE : Z := 512.

Class BlockDevice (D : Type) := {
  d_io : D -> uio -> ctx -> outcome (Z * uio * ctx * D);
  d_blocks : D -> Z;
  d_blocksize : D -> Z;
  (* what sector [s] holds *)
  d_sector : D -> Z -> list Z;
  (* the device is idle and its medium has no faults *)
  d_ok : D -> Prop
}.

(** The request for one whole sector. *)
Definition sector_request (u : uio) (s : Z) : Prop :=
  uio_resid u = SECTSIZE /\ uio_offset u = s * SECTSIZE.

(** [d'] is [d] except for the contents of sector [s]. *)
Definition sector_update {D} `{BlockDevice D} (d d' : D) (s : Z) (data : list Z) : Prop :=
  d_blocks d' = d_blocks d /\ d_sector d' s = data /\
  forall s', 0 <= s' < d_blocks d -> s' ≠ s -> d_sector d' s' = d_sector d s'.

Class BlockDeviceLaws (D : Type) `{BlockDevice D} := {
  d_law_range d : d_ok d -> 0 <= d_blocks d < 4194304;
  d_law_sector d s : d_ok d -> 0 <= s < d_blocks d -> length (d_sector d s) = 512%nat;
  d_law_read d u s c r kb u' c' :
    d_ok d -> 0 <= s < d_blocks d -> sector_request u s -> uio_rw u = UIO_READ ->
    uiomove (d_sector d s) 0 SECTSIZE u c = Done (r, kb, u', c') ->
    exists d', d_io d u c = Done (r, u', c', d') /\ d_ok d' /\
      sector_update d d' s (d_sector d s);
  d_law_write d u s c :
    d_ok d -> 0 <= s < d_blocks d -> sector_request u s -> uio_rw u = UIO_WRITE ->
    exists buf : list Z, length buf = 512%nat /\
      forall r kb u' c', uiomove buf 0 SECTSIZE u c = Done (r, kb, u', c') ->
      exists d', d_io d u c = Done (r, u', c', d') /\ d_ok d' /\
        sector_update d d' s (if decide (r = 0) then kb else d_sector d s)
}.
