(* ===== verification/Lhd.v ===== *)
(** * The LAMEbus hard disk driver: [kern/dev/lamebus/lhd.c]

    The disk itself is not part of the sources: it is the parameter [DiskHW],
    an operation that is started through the status register and finishes with
    a new register value, and [DiskHWLaws] states its documented behaviour.
    The driver is translated function by function, with the interrupt handler
    run when the thread waits for completion, and is proved to be a block
    device in the sense of [BlockDev]. *)

From S2P Require Import Prelude UserMem Uio BlockDev.

Module Lhd.
Import UserMem Uio.

(** ** Constants of [lhd.c] and [lhd.h] *)

Definition LHD_SECTSIZE : Z := 512.
Definition LHD_IDLE : Z := 0.
Definition LHD_WORKING : Z := 1.
Definition LHD_OK : Z := 4.
Definition LHD_INVSECT : Z := 12.
Definition LHD_MEDIA : Z := 20.
Definition LHD_ISWRITE : Z := 2.
Definition LHD_STATEMASK : Z := 29.

(** ** The disk *)

Class DiskHW (H : Type) := {
  hw_nsect : H -> Z;                       (* LHD_REG_NSECT *)
  hw_sector : H -> Z -> list Z;            (* what the medium holds *)
  (* a started operation: write?, sector, on-card buffer; the final value of
     the status register, the buffer and the disk *)
  hw_run : H -> bool -> Z -> list Z -> Z * list Z * H;
  hw_healthy : H -> Prop
}.

Class DiskHWLaws (H : Type) `{DiskHW H} := {
  hw_law_size h : hw_healthy h -> 0 <= hw_nsect h < 4194304;
  hw_law_sector h s : hw_healthy h -> 0 <= s < hw_nsect h -> length (hw_sector h s) = 512%nat;
  (* a read of a valid sector of a healthy disk fills the buffer *)
  hw_law_read h s buf :
    hw_healthy h -> 0 <= s < hw_nsect h -> length buf = 512%nat ->
    exists st h', hw_run h false s buf = (st, hw_sector h s, h') /\
      Z.land st LHD_STATEMASK = LHD_OK /\ hw_healthy h' /\ hw_nsect h' = hw_nsect h /\
      forall s', hw_sector h' s' = hw_sector h s';
  (* a write of a valid sector of a healthy disk stores the buffer *)
  hw_law_write h s buf :
    hw_healthy h -> 0 <= s < hw_nsect h -> length buf = 512%nat ->
    exists st h', hw_run h true s buf = (st, buf, h') /\
      Z.land st LHD_STATEMASK = LHD_OK /\ hw_healthy h' /\ hw_nsect h' = hw_nsect h /\
      hw_sector h' s = buf /\ forall s', s' ≠ s -> hw_sector h' s' = hw_sector h s'
}.

Section driver.
Context {H : Type} `{DiskHW H}.

(** [struct lhd_softc], with the status register and the two semaphores. *)
Record lhd_softc := mkLhd {
  lh_hw : H;
  lh_stat : Z;
  lh_buf : list Z;
  lh_result : Z;
  lh_clear : Z;
  lh_done : Z;
  lh_blocks : Z                (* lh_dev.d_blocks *)
}.

Definition lhd_code_to_errno (code : Z) : Z :=
  let st := Z.land code LHD_STATEMASK in
  if bool_decide (st = LHD_OK) then 0
  else if bool_decide (st = LHD_INVSECT) then EINVAL
  else if bool_decide (st = LHD_MEDIA) then EIO
  else EAGAIN.

(** Save the result and [V(lh->lh_done)]. *)
Definition lhd_iodone (lh : lhd_softc) (err : Z) : lhd_softc :=
  mkLhd (lh_hw lh) (lh_stat lh) (lh_buf lh) err (lh_clear lh) (lh_done lh + 1) (lh_blocks lh).

Definition set_stat (lh : lhd_softc) (st : Z) : lhd_softc :=
  mkLhd (lh_hw lh) st (lh_buf lh) (lh_result lh) (lh_clear lh) (lh_done lh) (lh_blocks lh).

Definition lhd_irq (lh : lhd_softc) : lhd_softc :=
  let val := lh_stat lh in
  let st := Z.land val LHD_STATEMASK in
  if bool_decide (st = LHD_OK \/ st = LHD_INVSECT \/ st = LHD_MEDIA) then
    lhd_iodone (set_stat lh 0) (lhd_code_to_errno val)
  else lh.

Definition lhd_open : Z := 0.
Definition lhd_close : Z := 0.
Definition lhd_ioctl : Z := EIOCTL.

(** Writing the sector and status registers runs one operation. *)
Definition lhd_start (lh : lhd_softc) (sector statval : Z) : lhd_softc :=
  let iswrite := bool_decide (Z.land statval LHD_ISWRITE ≠ 0) in
  let '(st, buf, hw) := hw_run (lh_hw lh) iswrite sector (lh_buf lh) in
  mkLhd hw st buf (lh_result lh) (lh_clear lh) (lh_done lh) (lh_blocks lh).

(** [P]: a caller that finds 0 and that nobody wakes up never returns. *)
Definition P_clear (lh : lhd_softc) : outcome lhd_softc :=
  if bool_decide (lh_clear lh > 0)
  then Done (mkLhd (lh_hw lh) (lh_stat lh) (lh_buf lh) (lh_result lh) (lh_clear lh - 1) (lh_done lh) (lh_blocks lh))
  else Stuck.
Definition V_clear (lh : lhd_softc) : lhd_softc :=
  mkLhd (lh_hw lh) (lh_stat lh) (lh_buf lh) (lh_result lh) (lh_clear lh + 1) (lh_done lh) (lh_blocks lh).
(** While the thread waits, the completion interrupt arrives. *)
Definition P_done (lh : lhd_softc) : outcome lhd_softc :=
  let lh := lhd_irq lh in
  if bool_decide (lh_done lh > 0)
  then Done (mkLhd (lh_hw lh) (lh_stat lh) (lh_buf lh) (lh_result lh) (lh_clear lh) (lh_done lh - 1) (lh_blocks lh))
  else Stuck.
Definition set_buf (lh : lhd_softc) (b : list Z) : lhd_softc :=
  mkLhd (lh_hw lh) (lh_stat lh) b (lh_result lh) (lh_clear lh) (lh_done lh) (lh_blocks lh).

(** The loop over the sectors, [n] of them from [sector] on. *)
Fixpoint io_loop (n : nat) (sector statval : Z) (lh : lhd_softc) (u : uio) (c : ctx)
    : outcome (Z * uio * ctx * lhd_softc) :=
  match n with
  | O => Done (0, u, c, lh)
  | S n =>
      lh ← P_clear lh;
      '(result, u, c, lh) ←
        (if decide (uio_rw u = UIO_WRITE) then
           '(r, b, u, c) ← uiomove (lh_buf lh) 0 LHD_SECTSIZE u c;
           Done (r, u, c, set_buf lh b)
         else Done (0, u, c, lh));
      if bool_decide (result ≠ 0) then Done (result, u, c, V_clear lh)
      else
        let lh := lhd_start lh sector statval in
        lh ← P_done lh;
        let result := lh_result lh in
        '(result, u, c, lh) ←
          (if decide (result = 0 /\ uio_rw u = UIO_READ) then
             '(r, b, u, c) ← uiomove (lh_buf lh) 0 LHD_SECTSIZE u c;
             Done (r, u, c, set_buf lh b)
           else Done (result, u, c, lh));
        let lh := V_clear lh in
        if bool_decide (result ≠ 0) then Done (result, u, c, lh)
        else io_loop n (u32 (sector + 1)) statval lh u c
  end.

Definition lhd_io (lh : lhd_softc) (u : uio) (c : ctx) : outcome (Z * uio * ctx * lhd_softc) :=
  let sector := u32 (Z.quot (uio_offset u) LHD_SECTSIZE) in
  let sectoff := u32 (Z.rem (uio_offset u) LHD_SECTSIZE) in
  let len := uio_resid u / LHD_SECTSIZE in
  let lenoff := uio_resid u mod LHD_SECTSIZE in
  if bool_decide (sectoff ≠ 0 \/ lenoff ≠ 0) then Done (EINVAL, u, c, lh)
  else if bool_decide (u32 (sector + len) > lh_blocks lh) then Done (EINVAL, u, c, lh)
  else
    let statval :=
      if decide (uio_rw u = UIO_WRITE) then Z.lor LHD_WORKING LHD_ISWRITE else LHD_WORKING in
    io_loop (Z.to_nat len) sector statval lh u c.

(** [config_lhd]: the answers of [sem_create] come from the oracle, [adddev] is
    the result of registering the device with [vfs_adddev]. *)
Definition config_lhd (hw : H) (buf : list Z) (adddev : Z) (o : oracle)
    : Z * option lhd_softc * oracle :=
  let '(ok, o) := kmalloc_ok o in          (* sem_create("lhd-clear", 1) *)
  if negb ok then (ENOMEM, None, o) else
  let '(ok, o) := kmalloc_ok o in          (* sem_create("lhd-done", 0) *)
  if negb ok then (ENOMEM, None, o) else
  (adddev, Some (mkLhd hw LHD_IDLE buf 0 1 0 (hw_nsect hw)), o).

(** The driver is idle and the disk healthy. *)
Record ready (lh : lhd_softc) : Prop := {
  rd_hw : hw_healthy (lh_hw lh);
  rd_blocks : lh_blocks lh = hw_nsect (lh_hw lh);
  rd_buf : length (lh_buf lh) = 512%nat;
  rd_clear : lh_clear lh = 1;
  rd_done : lh_done lh = 0
}.

#[export] Instance lhd_device : BlockDevice lhd_softc := {|
  d_io := lhd_io;
  d_blocks := lh_blocks;
  d_blocksize := fun _ => LHD_SECTSIZE;
  d_sector := fun lh => hw_sector (lh_hw lh);
  d_ok := ready
|}.
(** ** The driver implements the block device interface *)

Context `{!DiskHWLaws H}.

Lemma code_ok st : Z.land st LHD_STATEMASK = LHD_OK -> lhd_code_to_errno st = 0.
Proof. intros E. unfold lhd_code_to_errno. by rewrite E. Qed.

Lemma P_done_ok lh :
  Z.land (lh_stat lh) LHD_STATEMASK = LHD_OK -> lh_done lh = 0 ->
  P_done lh = Done (mkLhd (lh_hw lh) 0 (lh_buf lh) 0 (lh_clear lh) 0 (lh_blocks lh)).
Proof.
  intros Hst Hd. unfold P_done, lhd_irq. rewrite Hst, (bool_decide_eq_true_2 (_ \/ _)) by auto.
  unfold lhd_iodone, set_stat. cbn. rewrite code_ok, Hd by done. reflexivity.
Qed.

Lemma request_checks lh u s :
  ready lh -> 0 <= s < lh_blocks lh -> sector_request u s ->
  lhd_io lh u = fun c => io_loop 1 s
    (if decide (uio_rw u = UIO_WRITE) then Z.lor LHD_WORKING LHD_ISWRITE else LHD_WORKING) lh u c.
Proof.
  intros Hrd Hs [Hr Ho]. pose proof (hw_law_size _ (rd_hw lh Hrd)) as Hsz.
  rewrite <- (rd_blocks lh Hrd) in Hsz.
  unfold lhd_io, LHD_SECTSIZE. unfold SECTSIZE in *. rewrite Hr, Ho.
  rewrite Z.quot_mul, Z.rem_mul by lia. change (512 / 512) with 1. change (512 mod 512) with 0.
  change (u32 0) with 0. rewrite (u32_small s), (u32_small (s + 1)) by lia.
  rewrite (bool_decide_eq_false_2 (0 ≠ 0 \/ _)) by lia.
  rewrite (bool_decide_eq_false_2 (s + 1 > _)) by lia. done.
Qed.

Lemma lhd_law_read lh u s c r kb u' c' :
  ready lh -> 0 <= s < lh_blocks lh -> sector_request u s -> uio_rw u = UIO_READ ->
  uiomove (hw_sector (lh_hw lh) s) 0 SECTSIZE u c = Done (r, kb, u', c') ->
  exists lh', lhd_io lh u c = Done (r, u', c', lh') /\
    ready lh' /\ sector_update lh lh' s (hw_sector (lh_hw lh) s).
Proof.
  intros Hrd Hs Hreq Hrw Hmove. rewrite (request_checks lh u s) by done.
  destruct Hrd as [Hhw Hbl Hbuf Hcl Hdn]. cbn [io_loop].
  unfold P_clear. rewrite Hcl. step_tests. rewrite !(decide_False (P := uio_rw u = UIO_WRITE)) by congruence.
  cbn [mbind outcome_bind]. step_tests. unfold lhd_start. cbn [lh_hw lh_buf].
  destruct (hw_law_read (lh_hw lh) s (lh_buf lh)) as (st & h' & Hrun & Hst & Hh' & Hn' & Hsec');
    [done|by rewrite <- Hbl|done|].
  change (bool_decide (Z.land LHD_WORKING LHD_ISWRITE ≠ 0)) with false. rewrite Hrun.
  rewrite P_done_ok by done. cbn [mbind outcome_bind lh_result lh_buf].
  rewrite (decide_True (P := 0 = 0 /\ _)) by done. unfold LHD_SECTSIZE. unfold SECTSIZE in Hmove. rewrite Hmove.
  cbn [mbind outcome_bind]. 
  set (lh' := V_clear _). exists lh'. split; [by case_bool_decide as E; [|subst r]|].
  apply uiomove_keeps in Hmove as (_ & _ & _ & _ & Hlen & _).
  split; [split; cbn; [done|congruence| |done|done]|split; [done|]; split; [by cbn|by cbn]].
  rewrite Hlen. apply hw_law_sector; [done|by rewrite <- Hbl].
Qed.

Lemma lhd_law_write lh u s c :
  ready lh -> 0 <= s < lh_blocks lh -> sector_request u s -> uio_rw u = UIO_WRITE ->
  forall r kb u' c', uiomove (lh_buf lh) 0 SECTSIZE u c = Done (r, kb, u', c') ->
  exists lh', lhd_io lh u c = Done (r, u', c', lh') /\ ready lh' /\
    sector_update lh lh' s (if decide (r = 0) then kb else hw_sector (lh_hw lh) s).
Proof.
  intros Hrd Hs Hreq Hrw r kb u' c' Hmove.
  pose proof (uiomove_keeps _ _ _ _ _ _ _ _ _ Hmove) as (Hrw' & _ & _ & _ & Hkb & _).
  rewrite (rd_buf lh Hrd) in Hkb. rewrite (request_checks lh u s) by done.
  destruct Hrd as [Hhw Hbl Hbuf Hcl Hdn]. cbn [io_loop].
  unfold P_clear. rewrite Hcl. step_tests. rewrite Hrw, !decide_True by done. cbn [lh_buf].
  unfold LHD_SECTSIZE. unfold SECTSIZE in Hmove. rewrite Hmove. cbn [mbind outcome_bind].
  destruct (decide (r = 0)) as [->|Hr].
  - step_tests. unfold lhd_start. cbn [lh_hw lh_buf set_buf].
    destruct (hw_law_write (lh_hw lh) s kb) as (st & h' & Hrun & Hst & Hh' & Hn' & Hsec & Hoth);
      [done|by rewrite <- Hbl|done|].
    change (bool_decide (Z.land (Z.lor LHD_WORKING LHD_ISWRITE) LHD_ISWRITE ≠ 0)) with true.
    rewrite Hrun, P_done_ok by done. cbn [mbind outcome_bind lh_result lh_buf].
    rewrite Hrw', Hrw. rewrite decide_False by (intros [_ ?]; done). cbn [mbind outcome_bind]. step_tests.
    eexists. split; [done|]. split; [split; cbn; (done || congruence)|].
    split; [done|]. split; [done|]. intros s' _ Hne. by apply Hoth.
  - step_tests. eexists. split; [done|]. split; [by split|]. by split.
Qed.

#[export] Instance lhd_device_laws : BlockDeviceLaws lhd_softc.
Proof.
  split; cbn.
  - intros lh Hrd. rewrite (rd_blocks lh Hrd). apply hw_law_size, rd_hw. done.
  - intros lh s Hrd Hs. apply hw_law_sector; [by apply rd_hw|]. by rewrite <- (rd_blocks lh Hrd).
  - intros. by eapply lhd_law_read.
  - intros lh u s c Hrd ? ? ?. exists (lh_buf lh). split; [by apply rd_buf|].
    intros. by eapply lhd_law_write.
Qed.

(** ** Requests the driver refuses *)

(** A transfer that is not whole sectors, or that ends past the last sector,
    is refused with EINVAL before anything is touched: neither the disk, nor
    the driver state, nor the [uio] change. *)
Theorem lhd_io_refuses (lh : lhd_softc) (u : uio) (c : ctx) :
  0 <= uio_offset u <= INT_MAX -> 0 <= uio_resid u < 4294967296 ->
  uio_offset u mod 512 ≠ 0 \/ uio_resid u mod 512 ≠ 0 \/
  uio_offset u / 512 + uio_resid u / 512 > lh_blocks lh ->
  lhd_io lh u c = Done (EINVAL, u, c, lh).
Proof.
  intros Ho Hr Hbad. unfold lhd_io, LHD_SECTSIZE, INT_MAX in *.
  rewrite Z.quot_div_nonneg, Z.rem_mod_nonneg by lia.
  pose proof (Z.mod_pos_bound (uio_offset u) 512 ltac:(lia)).
  assert (0 <= uio_offset u / 512 < 4194304)
    by (split; [apply Z.div_pos|apply Z.div_lt_upper_bound]; lia).
  assert (0 <= uio_resid u / 512 < 8388608)
    by (split; [apply Z.div_pos|apply Z.div_lt_upper_bound]; lia).
  rewrite (u32_small (uio_offset u / 512)), (u32_small (uio_offset u mod 512)), u32_small by lia.
  case_bool_decide; [done|]. rewrite bool_decide_eq_true_2 by lia. done.
Qed.
End driver.

Arguments lhd_softc H : clear implicits.

(** ** A simulated disk

    A list of sectors and, for the operations to come, whether the medium
    fails.  It shows that the laws of [DiskHWLaws] can hold. *)

Record simdisk := mkSim {
  sim_sectors : list (list Z);
  sim_faults : list bool
}.

Definition sim_sector (h : simdisk) (s : Z) : list Z :=
  if bool_decide (0 <= s) then nth (Z.to_nat s) (sim_sectors h) [] else [].

Definition sim_fault (h : simdisk) : bool := match sim_faults h with b :: _ => b | [] => false end.

Definition sim_run (h : simdisk) (w : bool) (s : Z) (buf : list Z) : Z * list Z * simdisk :=
  if decide (0 <= s < Z.of_nat (length (sim_sectors h))) then
    if sim_fault h then (LHD_MEDIA, buf, mkSim (sim_sectors h) (tail (sim_faults h)))
    else if w then (LHD_OK, buf, mkSim (<[Z.to_nat s := buf]> (sim_sectors h)) (tail (sim_faults h)))
    else (LHD_OK, nth (Z.to_nat s) (sim_sectors h) [], mkSim (sim_sectors h) (tail (sim_faults h)))
  else (LHD_INVSECT, buf, h).

#[export] Instance sim_hw : DiskHW simdisk := {|
  hw_nsect := fun h => Z.of_nat (length (sim_sectors h));
  hw_sector := sim_sector;
  hw_run := sim_run;
  hw_healthy := fun h => sim_faults h = [] /\ Forall (fun d => length d = 512%nat) (sim_sectors h) /\
    Z.of_nat (length (sim_sectors h)) < 4194304
|}.

Lemma sim_sector_nth h s : 0 <= s -> sim_sector h s = nth (Z.to_nat s) (sim_sectors h) [].
Proof. intros. unfold sim_sector. by rewrite bool_decide_eq_true_2. Qed.

Lemma sim_run_ok h w s buf :
  sim_faults h = [] -> 0 <= s < Z.of_nat (length (sim_sectors h)) ->
  sim_run h w s buf =
    if w then (LHD_OK, buf, mkSim (<[Z.to_nat s := buf]> (sim_sectors h)) [])
    else (LHD_OK, sim_sector h s, mkSim (sim_sectors h) []).
Proof.
  intros Hf Hs. unfold sim_run, sim_fault. rewrite Hf, decide_True by done.
  by rewrite sim_sector_nth by lia.
Qed.

#[export] Instance sim_hw_laws : DiskHWLaws simdisk.
Proof.
  split; cbn.
  - intros h (_ & _ & ?). lia.
  - intros h s (_ & Hl & _) Hs. rewrite sim_sector_nth, nth_lookup by lia.
    destruct (lookup_lt_is_Some_2 (sim_sectors h) (Z.to_nat s)) as [d Hd]; [lia|]. rewrite Hd.
    by eapply Forall_lookup_1 in Hl; eauto.
  - intros h s buf (Hf & Hl & Hn) Hs Hb. rewrite sim_run_ok by done. do 2 eexists. by split.
  - intros h s buf (Hf & Hl & Hn) Hs Hb. rewrite sim_run_ok by done. do 2 eexists. split; [done|].
    cbn. rewrite length_insert. repeat split; auto using Forall_insert.
    + rewrite sim_sector_nth, nth_lookup by lia. cbn. by rewrite list_lookup_insert_eq by lia.
    + intros s' Hne. unfold sim_sector. case_bool_decide; [|done]. cbn.
      by rewrite !nth_lookup, list_lookup_insert_ne by lia.
Qed.

(** ** Witnesses *)

Definition ex_disk : lhd_softc simdisk :=
  mkLhd (mkSim [zeros 512; zeros 512] []) LHD_IDLE (zeros 512) 0 1 0 2.

Lemma lhd_io_refuses_witness :
  lhd_io ex_disk (mk_kuio (zeros 512) 512 1024 UIO_READ) ex_ctx
  = Done (EINVAL, mk_kuio (zeros 512) 512 1024 UIO_READ, ex_ctx, ex_disk).
Proof.
  apply (lhd_io_refuses ex_disk); [cbn; unfold INT_MAX; lia|cbn; lia|].
  right. right. reflexivity.
Defined.

End Lhd.
