(* ===== verification/SfsFormat.v ===== *)
(** * The SFS on-disk format: [kern/include/kern/sfs.h]

    The superblock, inode and directory entry structures and their layout in
    a 512-byte block.  The machine is big-endian ([kern/arch/mips/include/types.h]) and
    the kernel reads and writes the structures in place, so the layout is the
    memory layout of the C structs. *)

From S2P Require Import Prelude.

Module SfsFormat.

Definition SFS_MAGIC : Z := 2880302081.        (* 0xabadf001 *)
Definition SFS_BLOCKSIZE : Z := 512.
Definition SFS_VOLNAME_SIZE : Z := 32.
Definition SFS_NDIRECT : Z := 15.
Definition SFS_DBPERIDB : Z := 128.
Definition SFS_NAMELEN : Z := 60.
Definition SFS_SB_LOCATION : Z := 0.
Definition SFS_ROOT_LOCATION : Z := 1.
Definition SFS_MAP_LOCATION : Z := 2.
Definition SFS_NOINO : Z := 0.
Definition SFS_BLOCKBITS : Z := SFS_BLOCKSIZE * 8.
Definition SFS_TYPE_INVAL : Z := 0.
Definition SFS_TYPE_FILE : Z := 1.
Definition SFS_TYPE_DIR : Z := 2.

(** [SFS_ROUNDUP], [SFS_BITMAPSIZE], [SFS_BITBLOCKS] on [u_int32_t] values. *)
Definition SFS_ROUNDUP (a b : Z) : Z := u32 (u32 (a + b - 1) / b * b).
Definition SFS_BITMAPSIZE (nblocks : Z) : Z := SFS_ROUNDUP nblocks SFS_BLOCKBITS.
Definition SFS_BITBLOCKS (nblocks : Z) : Z := SFS_BITMAPSIZE nblocks / SFS_BLOCKBITS.

(** ** Words in memory *)

Definition be32 (z : Z) : list Z :=
  [u8 (z / 16777216); u8 (z / 65536); u8 (z / 256); u8 z].

Definition ld32 (l : list Z) (off : nat) : Z :=
  u8 (nth off l 0) * 16777216 + u8 (nth (off + 1) l 0) * 65536
  + u8 (nth (off + 2) l 0) * 256 + u8 (nth (off + 3) l 0).

Fixpoint enc_words (ws : list Z) : list Z :=
  match ws with
  | [] => []
  | w :: ws => be32 w ++ enc_words ws
  end.

Definition dec_words (n : nat) (l : list Z) : list Z := (fun k => ld32 l (4 * k)) <$> seq 0 n.

Lemma ld32_range l off : 0 <= ld32 l off < 4294967296.
Proof.
  unfold ld32. pose proof (u8_range (nth off l 0)). pose proof (u8_range (nth (off + 1) l 0)).
  pose proof (u8_range (nth (off + 2) l 0)). pose proof (u8_range (nth (off + 3) l 0)). lia.
Qed.

Lemma u8_idem z : u8 (u8 z) = u8 z.
Proof. unfold u8. apply Z.mod_mod. lia. Qed.

Lemma be32_value z : 0 <= z < 4294967296 ->
  u8 (z / 16777216) * 16777216 + u8 (z / 65536) * 65536 + u8 (z / 256) * 256 + u8 z = z.
Proof.
  intros Hz. unfold u8.
  rewrite (Z.mod_small (z / 16777216)) by (split; [apply Z.div_pos|apply Z.div_lt_upper_bound]; lia).
  pose proof (Z.div_mod z 256 ltac:(lia)). pose proof (Z.div_mod (z / 256) 256 ltac:(lia)).
  pose proof (Z.div_mod (z / 65536) 256 ltac:(lia)).
  pose proof (Z.div_div z 256 256 ltac:(lia) ltac:(lia)).
  pose proof (Z.div_div z 65536 256 ltac:(lia) ltac:(lia)).
  change (256 * 256) with 65536 in *. change (65536 * 256) with 16777216 in *. lia.
Qed.

Lemma length_enc_words ws : length (enc_words ws) = (4 * length ws)%nat.
Proof.
  induction ws as [|w ws IH]; [done|]. cbn [enc_words]. rewrite length_app, IH. cbn. lia.
Qed.

Lemma ld32_app_l l l' off : (off + 4 <= length l)%nat -> ld32 (l ++ l') off = ld32 l off.
Proof. intros. unfold ld32. by rewrite !app_nth1 by lia. Qed.

Lemma ld32_app_r l l' off :
  (length l <= off)%nat -> ld32 (l ++ l') off = ld32 l' (off - length l).
Proof.
  intros. unfold ld32. rewrite !app_nth2 by lia.
  by replace (off + 1 - length l)%nat with (off - length l + 1)%nat by lia;
     replace (off + 2 - length l)%nat with (off - length l + 2)%nat by lia;
     replace (off + 3 - length l)%nat with (off - length l + 3)%nat by lia.
Qed.

Lemma ld32_be32 z l : 0 <= z < 4294967296 -> ld32 (be32 z ++ l) 0 = z.
Proof.
  intros. unfold ld32, be32. cbn [app nth Nat.add]. rewrite !u8_idem. by apply be32_value.
Qed.

Lemma dec_words_app n l l' :
  (4 * n <= length l)%nat -> dec_words n (l ++ l') = dec_words n l.
Proof.
  intros. unfold dec_words. apply list_fmap_ext. intros i k Hk.
  apply lookup_seq in Hk. apply ld32_app_l. lia.
Qed.

Lemma dec_enc_words ws l :
  Forall (fun w => 0 <= w < 4294967296) ws -> dec_words (length ws) (enc_words ws ++ l) = ws.
Proof.
  induction ws as [|w ws IH]; intros Hws; [done|]. inversion_clear Hws as [|? ? Hw Hws'].
  unfold dec_words in *. cbn [length seq fmap list_fmap enc_words]. f_equal.
  - cbn [Nat.mul]. rewrite <- app_assoc. by apply ld32_be32.
  - etransitivity; [|by apply IH]. rewrite <- fmap_S_seq, <- list_fmap_compose.
    apply list_fmap_ext. intros i k Hk. cbn [compose].
    rewrite <- app_assoc, ld32_app_r by (cbn; lia). f_equal. cbn. lia.
Qed.

Lemma nth_dec_words n l k : (k < n)%nat -> nth k (dec_words n l) 0 = ld32 l (4 * k).
Proof.
  intros. unfold dec_words. rewrite nth_lookup, list_lookup_fmap, lookup_seq_lt by lia. done.
Qed.

Lemma length_dec_words n l : length (dec_words n l) = n.
Proof. unfold dec_words. by rewrite length_fmap, length_seq. Qed.

Lemma dec_words_range n l : Forall (fun w => 0 <= w < 4294967296) (dec_words n l).
Proof. unfold dec_words. apply Forall_fmap, Forall_true. intros. apply ld32_range. Qed.

(** ** Superblock *)

Record sfs_super := mkSuper {
  sp_magic : Z;
  sp_nblocks : Z;
  sp_volname : list Z;        (* SFS_VOLNAME_SIZE bytes *)
  sp_reserved : list Z        (* 118 words *)
}.

Definition super_bytes (sp : sfs_super) : list Z :=
  be32 (sp_magic sp) ++ be32 (sp_nblocks sp) ++ sp_volname sp ++ enc_words (sp_reserved sp).

Definition super_of_bytes (b : list Z) : sfs_super :=
  mkSuper (ld32 b 0) (ld32 b 4) (slice b 8 32) (dec_words 118 (drop 40 b)).

(** ** Inode *)

Record sfs_inode := mkInode {
  sfi_size : Z;
  sfi_type : Z;
  sfi_linkcount : Z;
  sfi_direct : list Z;
  sfi_indirect : Z;
  sfi_waste : list Z          (* 128-3-SFS_NDIRECT words *)
}.

(** The two 16-bit fields share the second word. *)
Definition inode_bytes (i : sfs_inode) : list Z :=
  be32 (sfi_size i) ++ be32 (sfi_type i * 65536 + sfi_linkcount i) ++
  enc_words (sfi_direct i) ++ be32 (sfi_indirect i) ++ enc_words (sfi_waste i).

Definition inode_of_bytes (b : list Z) : sfs_inode :=
  mkInode (ld32 b 0) (ld32 b 4 / 65536) (ld32 b 4 mod 65536)
          (dec_words 15 (drop 8 b)) (ld32 b 68) (dec_words 110 (drop 72 b)).

Record inode_wf (i : sfs_inode) : Prop := {
  iwf_size : 0 <= sfi_size i < 4294967296;
  iwf_type : 0 <= sfi_type i < 65536;
  iwf_link : 0 <= sfi_linkcount i < 65536;
  iwf_ndirect : length (sfi_direct i) = 15%nat;
  iwf_direct : Forall (fun w => 0 <= w < 4294967296) (sfi_direct i);
  iwf_indirect : 0 <= sfi_indirect i < 4294967296;
  iwf_nwaste : length (sfi_waste i) = 110%nat;
  iwf_waste : Forall (fun w => 0 <= w < 4294967296) (sfi_waste i)
}.

(** ** Directory entry *)

Record sfs_dir := mkDir {
  sfd_ino : Z;
  sfd_name : list Z           (* SFS_NAMELEN bytes *)
}.

Definition SIZEOF_SFS_DIR : Z := 64.

Definition dir_bytes (d : sfs_dir) : list Z := be32 (sfd_ino d) ++ sfd_name d.

Definition dir_of_bytes (b : list Z) : sfs_dir := mkDir (ld32 b 0) (slice b 4 60).

(** ** Block sizes and round trips *)

Lemma length_inode_bytes i : inode_wf i -> length (inode_bytes i) = 512%nat.
Proof.
  intros []. unfold inode_bytes. rewrite !length_app, !length_enc_words. cbn [be32 length]. lia.
Qed.

Lemma length_dir_bytes d : length (sfd_name d) = 60%nat -> length (dir_bytes d) = 64%nat.
Proof. intros Hn. unfold dir_bytes. rewrite length_app, Hn. done. Qed.

Lemma inode_of_bytes_wf b : inode_wf (inode_of_bytes b).
Proof.
  pose proof (ld32_range b 4) as H4.
  unfold inode_of_bytes. split;
    cbn [sfi_size sfi_type sfi_linkcount sfi_direct sfi_indirect sfi_waste];
    auto using ld32_range, length_dec_words, dec_words_range.
  - split; [apply Z.div_pos; lia|apply Z.div_lt_upper_bound; lia].
  - apply Z.mod_pos_bound. lia.
Qed.

(** Reading back the block an inode was written to gives the same inode:
    no two fields overlap and none is cut off. *)
Lemma inode_roundtrip (i : sfs_inode) : inode_wf i -> inode_of_bytes (inode_bytes i) = i.
Proof.
  intros [Hs Ht Hl Hnd Hd Hi Hnw Hw]. unfold inode_of_bytes, inode_bytes.
  assert (Hw1 : 0 <= sfi_type i * 65536 + sfi_linkcount i < 4294967296) by lia.
  rewrite (ld32_app_r (be32 (sfi_size i)) _ 4) by (cbn; lia). cbn [length be32 Nat.sub].
  rewrite !ld32_be32 by done.
  rewrite Z.div_add_l, (Z.div_small (sfi_linkcount i)), Z.add_0_r by lia.
  rewrite Z.add_comm, Z.mod_add, Z.mod_small by lia.
  assert (Hdrop : forall A B C k, length A = 4%nat -> length B = 4%nat ->
    drop (8 + k) (A ++ B ++ C) = drop k C :> list Z).
  { intros A B C k HA HB. rewrite app_assoc, drop_app_ge by (rewrite length_app; lia).
    f_equal. rewrite length_app. lia. }
  rewrite (Hdrop _ _ _ 0%nat) by done. rewrite drop_0.
  change (@drop Z 72) with (@drop Z (8 + 64)). rewrite Hdrop by done.
  pose proof (fun l => dec_enc_words (sfi_direct i) l Hd) as Hdd. rewrite Hnd in Hdd.
  pose proof (dec_enc_words (sfi_waste i) [] Hw) as Hdw. rewrite Hnw, app_nil_r in Hdw.
  rewrite Hdd.
  rewrite drop_app_ge by (rewrite length_enc_words; lia).
  rewrite length_enc_words, Hnd. change (64 - 4 * 15)%nat with 4%nat.
  change (drop 4 (be32 (sfi_indirect i) ++ enc_words (sfi_waste i)))
    with (enc_words (sfi_waste i)).
  rewrite Hdw.
  replace (ld32 _ 68) with (sfi_indirect i); [by destruct i|].
  rewrite (app_assoc (be32 _)), (app_assoc (_ ++ _)).
  rewrite ld32_app_r by (rewrite !length_app, length_enc_words; cbn; lia).
  rewrite !length_app, length_enc_words, Hnd. cbn [length be32 Nat.add Nat.mul Nat.sub].
  by rewrite ld32_be32.
Qed.

(** A directory entry read back from its slot is the entry that was
    written. *)
Lemma dir_roundtrip (d : sfs_dir) :
  0 <= sfd_ino d < 4294967296 -> length (sfd_name d) = 60%nat ->
  dir_of_bytes (dir_bytes d) = d.
Proof.
  intros Hi Hn. unfold dir_of_bytes, dir_bytes. rewrite ld32_be32 by done. unfold slice.
  change (drop (Z.to_nat 4) (be32 (sfd_ino d) ++ sfd_name d)) with (sfd_name d).
  rewrite firstn_all2 by lia. by destruct d.
Qed.

End SfsFormat.
