(* ===== verification/Sfs.v ===== *)
(** * SFS: state and operations ([kern/fs/sfs/*.c], [kern/fs/vfs/vnode.c])

    The file system object with its loaded vnodes, and every function of
    [sfs_io.c], [sfs_vnode.c] and [sfs_fs.c], together with the reference
    counting of [vnode.c] for SFS vnodes.  The device is any [BlockDevice].
    An operation runs to completion before the next one starts, so the count
    locks of the vnodes are always free when they are acquired and are left
    out.  Theorems are in [SfsIo], [SfsDir],
    [SfsTruncate] and [SfsMount]. *)

From S2P Require Import Prelude KArray KBitmap UserMem Uio BlockDev SfsFormat.

Module Sfs.
Import UserMem Uio SfsFormat.

(** ** State *)

(** The function table of a vnode: [sfs_fileops] or [sfs_dirops]. *)
Inductive vnode_ops := sfs_fileops | sfs_dirops.

#[export] Instance vnode_ops_eq_dec : EqDecision vnode_ops.
Proof. solve_decision. Defined.

Record vnode := mkVnode {
  vn_refcount : Z;
  vn_opencount : Z;
  vn_ops : vnode_ops
}.

Record sfs_vnode := mkSv {
  sv_v : vnode;
  sv_i : sfs_inode;
  sv_ino : Z;
  sv_dirty : bool
}.

Definition set_i (sv : sfs_vnode) (i : sfs_inode) : sfs_vnode :=
  mkSv (sv_v sv) i (sv_ino sv) (sv_dirty sv).
Definition set_dirty (sv : sfs_vnode) (b : bool) : sfs_vnode :=
  mkSv (sv_v sv) (sv_i sv) (sv_ino sv) b.
Definition set_refcount (sv : sfs_vnode) (n : Z) : sfs_vnode :=
  mkSv (mkVnode n (vn_opencount (sv_v sv)) (vn_ops (sv_v sv))) (sv_i sv) (sv_ino sv) (sv_dirty sv).
Definition set_opencount (sv : sfs_vnode) (n : Z) : sfs_vnode :=
  mkSv (mkVnode (vn_refcount (sv_v sv)) n (vn_ops (sv_v sv))) (sv_i sv) (sv_ino sv) (sv_dirty sv).

Definition set_size (i : sfs_inode) (n : Z) : sfs_inode :=
  mkInode n (sfi_type i) (sfi_linkcount i) (sfi_direct i) (sfi_indirect i) (sfi_waste i).
Definition set_type (i : sfs_inode) (t : Z) : sfs_inode :=
  mkInode (sfi_size i) t (sfi_linkcount i) (sfi_direct i) (sfi_indirect i) (sfi_waste i).
Definition set_linkcount (i : sfs_inode) (n : Z) : sfs_inode :=
  mkInode (sfi_size i) (sfi_type i) n (sfi_direct i) (sfi_indirect i) (sfi_waste i).
Definition set_direct (i : sfs_inode) (l : list Z) : sfs_inode :=
  mkInode (sfi_size i) (sfi_type i) (sfi_linkcount i) l (sfi_indirect i) (sfi_waste i).
Definition set_indirect (i : sfs_inode) (b : Z) : sfs_inode :=
  mkInode (sfi_size i) (sfi_type i) (sfi_linkcount i) (sfi_direct i) b (sfi_waste i).

Section ops.
Context {D : Type} `{BlockDevice D}.

(** [struct sfs_fs], and the parts of the kernel its code reaches: the vnode
    objects by address, the current thread's memory, the allocator. *)
Record sfs_fs := mkSfs {
  sfs_super : SfsFormat.sfs_super;
  sfs_superdirty : bool;
  sfs_device : D;
  sfs_vnodes : KArray.array;
  sfs_freemap : KBitmap.bitmap;
  sfs_freemapdirty : bool;
  k_heap : gmap Z sfs_vnode;
  k_ctx : ctx;
  k_orc : oracle
}.

Definition set_super (s : sfs_fs) x := mkSfs x (sfs_superdirty s) (sfs_device s) (sfs_vnodes s)
  (sfs_freemap s) (sfs_freemapdirty s) (k_heap s) (k_ctx s) (k_orc s).
Definition set_superdirty (s : sfs_fs) x := mkSfs (sfs_super s) x (sfs_device s) (sfs_vnodes s)
  (sfs_freemap s) (sfs_freemapdirty s) (k_heap s) (k_ctx s) (k_orc s).
Definition set_device (s : sfs_fs) x c := mkSfs (sfs_super s) (sfs_superdirty s) x (sfs_vnodes s)
  (sfs_freemap s) (sfs_freemapdirty s) (k_heap s) c (k_orc s).
Definition set_vnodes (s : sfs_fs) x o := mkSfs (sfs_super s) (sfs_superdirty s) (sfs_device s) x
  (sfs_freemap s) (sfs_freemapdirty s) (k_heap s) (k_ctx s) o.
Definition set_freemap (s : sfs_fs) x := mkSfs (sfs_super s) (sfs_superdirty s) (sfs_device s)
  (sfs_vnodes s) x (sfs_freemapdirty s) (k_heap s) (k_ctx s) (k_orc s).
Definition set_freemapdirty (s : sfs_fs) x := mkSfs (sfs_super s) (sfs_superdirty s) (sfs_device s)
  (sfs_vnodes s) (sfs_freemap s) x (k_heap s) (k_ctx s) (k_orc s).
Definition set_heap (s : sfs_fs) x := mkSfs (sfs_super s) (sfs_superdirty s) (sfs_device s)
  (sfs_vnodes s) (sfs_freemap s) (sfs_freemapdirty s) x (k_ctx s) (k_orc s).
Definition set_ctx (s : sfs_fs) x := mkSfs (sfs_super s) (sfs_superdirty s) (sfs_device s)
  (sfs_vnodes s) (sfs_freemap s) (sfs_freemapdirty s) (k_heap s) x (k_orc s).
Definition set_orc (s : sfs_fs) x := mkSfs (sfs_super s) (sfs_superdirty s) (sfs_device s)
  (sfs_vnodes s) (sfs_freemap s) (sfs_freemapdirty s) (k_heap s) (k_ctx s) x.

(** Code without a [uio], and code that works on the caller's [uio]. *)
Abbreviation FS := (M sfs_fs).
Abbreviation IO := (M (sfs_fs * uio)).

(** A call, from code with a [uio], of code without one. *)
Definition on_fs {A} (m : FS A) : IO A := fun su =>
  match m (fst su) with
  | Done (r, s') => Done (r, (s', snd su))
  | Panic => Panic
  | Stuck => Stuck
  end.

(** A call on a [uio] of the caller's own; its final state is returned. *)
Definition with_uio (u : uio) (m : IO unit) : FS uio := fun s =>
  match m (s, u) with
  | Done (inr _, (s', u')) => Done (inr u', s')
  | Done (inl e, (s', _)) => Done (inl e, s')
  | Panic => Panic
  | Stuck => Stuck
  end.

Definition get_uio : IO uio := fun su => Done (inr (snd su), su).
Definition put_uio (u : uio) : IO unit := fun su => Done (inr tt, (fst su, u)).

(** The object at an address; there is none behind a stray pointer. *)
Definition deref (p : ptr) : FS sfs_vnode := fun s =>
  match k_heap s !! p with Some sv => Done (inr sv, s) | None => Stuck end.
Definition assign (p : ptr) (sv : sfs_vnode) : FS unit :=
  modify (fun s => set_heap s (<[p := sv]> (k_heap s))).

Definition kmalloc : FS bool := fun s =>
  let '(ok, o) := kmalloc_ok (k_orc s) in Done (inr ok, set_orc s o).

(** ** Block I/O: [sfs_io.c] *)

Definition dev_io : IO Z := fun '(s, u) =>
  '(r, u', c', d') ← d_io (sfs_device s) u (k_ctx s);
  Done (inr r, (set_device s d' c', u')).

(** The [retry] label: at most ten retries. *)
Fixpoint rwblock_retry (fuel : nat) : IO Z :=
  result ← dev_io;
  if bool_decide (result = EINVAL) then panic
  else if bool_decide (result = EIO) then
    match fuel with
    | O => mret result
    | S fuel => rwblock_retry fuel
    end
  else mret result.

Definition sfs_rwblock : IO unit := result ← rwblock_retry 10; check result.

(** [SFSUIO] *)
Definition SFSUIO (data : list Z) (block : Z) (rw : uio_rw_t) : outcome uio :=
  pos ← int_op (s32 block * SFS_BLOCKSIZE);
  Done (mk_kuio data SFS_BLOCKSIZE pos rw).

Definition sfs_rblock (data : list Z) (block : Z) : FS (list Z) :=
  ku ← lift (SFSUIO data block UIO_READ);
  ku ← with_uio ku sfs_rwblock;
  mret (uio_kdata ku).

Definition sfs_wblock (data : list Z) (block : Z) : FS unit :=
  ku ← lift (SFSUIO data block UIO_WRITE);
  _ ← with_uio ku sfs_rwblock;
  mret tt.

(** ** [sfs_vnode.c]: simple stuff *)

Definition sfs_clearblock (block : Z) : FS unit := sfs_wblock (zeros SFS_BLOCKSIZE) block.

Definition sfs_sync_inode (p : ptr) : FS unit :=
  sv ← deref p;
  if sv_dirty sv then
    _ ← sfs_wblock (inode_bytes (sv_i sv)) (sv_ino sv);
    assign p (set_dirty sv false)
  else mret tt.

(** ** Space allocation *)

Definition sfs_balloc : FS Z :=
  s ← get;
  '(result, idx, fm) ← lift (KBitmap.bitmap_alloc (sfs_freemap s));
  _ ← modify (fun s => set_freemap s fm);
  match idx with
  | None => fail result
  | Some diskblock =>
      _ ← modify (fun s => set_freemapdirty s true);
      s ← get;
      if bool_decide (diskblock >= sp_nblocks (sfs_super s)) then panic
      else
        _ ← sfs_clearblock diskblock;
        mret diskblock
  end.

Definition sfs_bfree (diskblock : Z) : FS unit :=
  s ← get;
  fm ← lift (KBitmap.bitmap_unmark (sfs_freemap s) diskblock);
  modify (fun s => set_freemapdirty (set_freemap s fm) true).

Definition sfs_bused (diskblock : Z) : FS bool :=
  s ← get;
  if bool_decide (diskblock >= sp_nblocks (sfs_super s)) then panic
  else
    r ← lift (KBitmap.bitmap_isset (sfs_freemap s) diskblock);
    mret (negb (bool_decide (r = 0))).

(** ** Block mapping *)

(** [if (block != 0 && !sfs_bused(sfs, block)) panic(...)], and hand it back. *)
Definition hand_back (block : Z) : FS Z :=
  if bool_decide (block = 0) then mret block
  else
    used ← sfs_bused block;
    if used : bool then mret block else panic.

(** The end of [sfs_bmap]: the entry of the indirect block in [idbuf]. *)
Definition bmap_entry (idblock : Z) (idbuf : list Z) (idoff : Z) (doalloc : bool) : FS Z :=
  block ← lift (getZ idbuf idoff);
  block ← (if bool_decide (block = 0) && doalloc then
             block ← sfs_balloc;
             idbuf ← lift (setZ idbuf idoff block);
             _ ← sfs_wblock (enc_words idbuf) idblock;
             mret block
           else mret block);
  hand_back block.

Definition sfs_bmap (p : ptr) (fileblock : Z) (doalloc : bool) : FS Z :=
  sv ← deref p;
  if bool_decide (fileblock < SFS_NDIRECT) then
    block ← lift (getZ (sfi_direct (sv_i sv)) fileblock);
    block ← (if bool_decide (block = 0) && doalloc then
               block ← sfs_balloc;
               direct ← lift (setZ (sfi_direct (sv_i sv)) fileblock block);
               _ ← assign p (set_dirty (set_i sv (set_direct (sv_i sv) direct)) true);
               mret block
             else mret block);
    hand_back block
  else
    let fileblock := u32 (fileblock - SFS_NDIRECT) in
    let idnum := fileblock / SFS_DBPERIDB in
    let idoff := fileblock mod SFS_DBPERIDB in
    if bool_decide (idnum > 0) then fail EINVAL
    else
      let idblock := sfi_indirect (sv_i sv) in
      if bool_decide (idblock = 0) && negb doalloc then mret 0
      else
        '(idblock, idbuf) ←
          (if bool_decide (idblock = 0) then
             idblock ← sfs_balloc;
             _ ← assign p (set_dirty (set_i sv (set_indirect (sv_i sv) idblock)) true);
             mret (idblock, replicate 128 0)
           else
             b ← sfs_rblock (zeros SFS_BLOCKSIZE) idblock;
             mret (idblock, dec_words 128 b));
        bmap_entry idblock idbuf idoff doalloc.

(** ** File-level I/O *)

Definition io_uiomove (kb : list Z) (off n : Z) : IO (list Z) := fun '(s, u) =>
  '(r, kb', u', c') ← uiomove kb off n u (k_ctx s);
  (_ ← check r; mret kb') (set_ctx s c', u').

Definition io_uiomovezeros (n : Z) : IO unit := fun '(s, u) =>
  '(r, u', c') ← uiomovezeros n u (k_ctx s);
  check r (set_ctx s c', u').

Definition sfs_partialio (p : ptr) (skipstart len : Z) : IO unit :=
  u ← get_uio;
  let doalloc := bool_decide (uio_rw u = UIO_WRITE) in
  _ ← massert (bool_decide (u32 (skipstart + len) <= SFS_BLOCKSIZE));
  let fileblock := u32 (Z.quot (uio_offset u) SFS_BLOCKSIZE) in
  diskblock ← on_fs (sfs_bmap p fileblock doalloc);
  iobuf ← (if bool_decide (diskblock = 0) then
             _ ← massert (bool_decide (uio_rw u = UIO_READ));
             mret (zeros SFS_BLOCKSIZE)
           else on_fs (sfs_rblock (zeros SFS_BLOCKSIZE) diskblock));
  iobuf ← io_uiomove iobuf skipstart len;
  if bool_decide (uio_rw u = UIO_WRITE) then on_fs (sfs_wblock iobuf diskblock)
  else mret tt.

Definition sfs_blockio (p : ptr) : IO unit :=
  u ← get_uio;
  let doalloc := bool_decide (uio_rw u = UIO_WRITE) in
  let fileblock := u32 (Z.quot (uio_offset u) SFS_BLOCKSIZE) in
  diskblock ← on_fs (sfs_bmap p fileblock doalloc);
  if bool_decide (diskblock = 0) then
    _ ← massert (bool_decide (uio_rw u = UIO_READ));
    io_uiomovezeros SFS_BLOCKSIZE
  else
    let saveoff := uio_offset u in
    let diskoff := s32 (u32 (diskblock * SFS_BLOCKSIZE)) in
    _ ← massert (bool_decide (uio_resid u >= SFS_BLOCKSIZE));
    let saveres := s32 (uio_resid u) in
    let diskres := SFS_BLOCKSIZE in
    _ ← put_uio (set_pos u diskoff diskres);
    result ← try sfs_rwblock;
    u ← get_uio;
    delta ← lift (int_op (uio_offset u - diskoff));
    off ← lift (int_op (delta + saveoff));
    _ ← put_uio (set_pos u off (u32 (uio_resid u - diskres + saveres)));
    match result with
    | inl e => fail e
    | inr _ => mret tt
    end.

(** [for (i=0; i<nblocks; i++)] *)
Fixpoint blocks_loop (n : nat) (p : ptr) : IO unit :=
  match n with
  | O => mret tt
  | S n => _ ← sfs_blockio p; blocks_loop n p
  end.

(** From the test for the end of the transfer down to the label [out]. *)
Definition io_blocks (p : ptr) : IO unit :=
  u ← get_uio;
  if bool_decide (uio_resid u = 0) then mret tt
  else
    _ ← massert (bool_decide (Z.rem (uio_offset u) SFS_BLOCKSIZE = 0));
    let nblocks := uio_resid u / SFS_BLOCKSIZE in
    _ ← blocks_loop (Z.to_nat nblocks) p;
    u ← get_uio;
    _ ← massert (bool_decide (uio_resid u < SFS_BLOCKSIZE));
    if bool_decide (uio_resid u > 0) then sfs_partialio p 0 (uio_resid u) else mret tt.

(** The leading partial block, then the rest. *)
Definition io_body (p : ptr) : IO unit :=
  u ← get_uio;
  let blkoff := u32 (Z.rem (uio_offset u) SFS_BLOCKSIZE) in
  _ ← (if bool_decide (blkoff ≠ 0) then
         let len := u32 (SFS_BLOCKSIZE - blkoff) in
         let len := if bool_decide (len > uio_resid u) then uio_resid u else len in
         sfs_partialio p blkoff len
       else mret tt);
  io_blocks p.

(** From the label [out] on. *)
Definition io_out (p : ptr) (extraresid : Z) : IO unit :=
  u ← get_uio;
  sv ← on_fs (deref p);
  _ ← (if bool_decide (uio_rw u = UIO_WRITE) && bool_decide (uio_offset u > s32 (sfi_size (sv_i sv)))
       then on_fs (assign p (set_dirty (set_i sv (set_size (sv_i sv) (u32 (uio_offset u)))) true))
       else mret tt);
  put_uio (set_pos u (uio_offset u) (u32 (uio_resid u + extraresid))).

Definition io_run (p : ptr) (extraresid : Z) : IO unit :=
  result ← try (io_body p);
  _ ← io_out p extraresid;
  match result with
  | inl e => fail e
  | inr _ => mret tt
  end.

Definition sfs_io (p : ptr) : IO unit :=
  u ← get_uio;
  if bool_decide (uio_rw u = UIO_READ) then
    sv ← on_fs (deref p);
    let size := s32 (sfi_size (sv_i sv)) in
    let endpos := s32 (u32 (uio_offset u + uio_resid u)) in
    if bool_decide (uio_offset u >= size) then mret tt
    else if bool_decide (endpos > size) then
      extra ← lift (int_op (endpos - size));
      let extraresid := u32 extra in
      _ ← massert (bool_decide (uio_resid u > extraresid));
      _ ← put_uio (set_pos u (uio_offset u) (uio_resid u - extraresid));
      io_run p extraresid
    else io_run p 0
  else io_run p 0.

(** ** Directory I/O *)

Definition sfs_readdir (p : ptr) (slot : Z) : FS sfs_dir :=
  let actualpos := s32 (u32 (slot * SIZEOF_SFS_DIR)) in
  ku ← with_uio (mk_kuio (zeros SIZEOF_SFS_DIR) SIZEOF_SFS_DIR actualpos UIO_READ) (sfs_io p);
  if bool_decide (uio_resid ku > 0) then panic
  else mret (dir_of_bytes (uio_kdata ku)).

Definition sfs_writedir (p : ptr) (sd : sfs_dir) (slot : Z) : FS unit :=
  _ ← massert (bool_decide (slot >= 0));
  let actualpos := s32 (u32 (slot * SIZEOF_SFS_DIR)) in
  ku ← with_uio (mk_kuio (dir_bytes sd) SIZEOF_SFS_DIR actualpos UIO_WRITE) (sfs_io p);
  if bool_decide (uio_resid ku > 0) then panic else mret tt.

Definition sfs_dir_nentries (p : ptr) : FS Z :=
  sv ← deref p;
  _ ← massert (bool_decide (sfi_type (sv_i sv) = SFS_TYPE_DIR));
  let size := u32 (s32 (sfi_size (sv_i sv))) in
  if bool_decide (size mod SIZEOF_SFS_DIR ≠ 0) then panic
  else mret (s32 (size / SIZEOF_SFS_DIR)).

(** The C string at the start of a byte array. *)
Fixpoint cstr (l : list Z) : list Z :=
  match l with
  | [] => []
  | b :: l => if bool_decide (b = 0) then [] else b :: cstr l
  end.

(** [tsd.sfd_name[sizeof(tsd.sfd_name)-1] = 0], and the name as a string. *)
Definition entry_name (sd : sfs_dir) : list Z := cstr (<[59%nat := 0]> (sfd_name sd)).

(** What [sfs_dir_findname] reports: the entry if there is one, and the last
    empty slot it saw. *)
Record find_result := mkFind {
  fr_found : option (Z * Z);       (* inode number, slot *)
  fr_empty : option Z
}.

Fixpoint findname_loop (n : nat) (i : Z) (p : ptr) (name : list Z) (fr : find_result) : FS find_result :=
  match n with
  | O => mret fr
  | S n =>
      tsd ← sfs_readdir p i;
      if bool_decide (sfd_ino tsd = SFS_NOINO) then
        findname_loop n (i + 1) p name (mkFind (fr_found fr) (Some i))
      else if bool_decide (entry_name tsd = name) then
        _ ← massert (bool_decide (fr_found fr = None));
        findname_loop n (i + 1) p name (mkFind (Some (sfd_ino tsd, i)) (fr_empty fr))
      else findname_loop n (i + 1) p name fr
  end.

(** The result code, 0 or ENOENT, with what was stored through the pointers; an
    error of [sfs_readdir] is an error of the function. *)
Definition sfs_dir_findname (p : ptr) (name : list Z) : FS (Z * find_result) :=
  nentries ← sfs_dir_nentries p;
  fr ← findname_loop (Z.to_nat nentries) 0 p name (mkFind None None);
  mret (match fr_found fr with Some _ => 0 | None => ENOENT end, fr).

(** [strcpy] of a name into the zeroed name field. *)
Definition name_field (name : list Z) : list Z := splice (zeros SFS_NAMELEN) 0 (name ++ [0]).

Definition sfs_dir_link (p : ptr) (name : list Z) (ino : Z) : FS Z :=
  '(result, fr) ← sfs_dir_findname p name;
  if bool_decide (result ≠ 0) && bool_decide (result ≠ ENOENT) then fail result
  else if bool_decide (result = 0) then fail EEXIST
  else if bool_decide (Z.of_nat (length name) + 1 > SFS_NAMELEN) then fail ENAMETOOLONG
  else
    emptyslot ← match fr_empty fr with
                | Some i => mret i
                | None => sfs_dir_nentries p
                end;
    _ ← sfs_writedir p (mkDir ino (name_field name)) emptyslot;
    mret emptyslot.

Definition sfs_dir_unlink (p : ptr) (slot : Z) : FS unit :=
  sfs_writedir p (mkDir SFS_NOINO (zeros SFS_NAMELEN)) slot.

(** ** Reference counts: [vnode.c] *)

(** [lock_create]: the lock and its name. *)
Definition lock_create_ok : FS bool :=
  ok ← kmalloc;
  if ok : bool then kmalloc else mret false.

(** [VOP_INIT] on the object at [p], whose other fields are in [sv]. *)
Definition vnode_init (p : ptr) (sv : sfs_vnode) (ops : vnode_ops) : FS unit :=
  _ ← massert (bool_decide (p ≠ NULL));
  ok ← lock_create_ok;
  if ok : bool then assign p (mkSv (mkVnode 1 0 ops) (sv_i sv) (sv_ino sv) (sv_dirty sv))
  else fail ENOMEM.

(** [VOP_KILL] followed by [kfree(sv)]. *)
Definition vnode_kill (p : ptr) : FS unit :=
  sv ← deref p;
  _ ← massert (bool_decide (vn_refcount (sv_v sv) = 1));
  _ ← massert (bool_decide (vn_opencount (sv_v sv) = 0));
  modify (fun s => set_heap s (delete p (k_heap s))).

Definition vnode_incref (p : ptr) : FS unit :=
  _ ← massert (bool_decide (p ≠ NULL));
  sv ← deref p;
  n ← lift (int_op (vn_refcount (sv_v sv) + 1));
  assign p (set_refcount sv n).

Definition vnode_incopen (p : ptr) : FS unit :=
  _ ← massert (bool_decide (p ≠ NULL));
  sv ← deref p;
  n ← lift (int_op (vn_opencount (sv_v sv) + 1));
  assign p (set_opencount sv n).

Definition vnode_check (p : ptr) (isreclaim : bool) : FS unit :=
  if bool_decide (p = NULL) then panic
  else
    sv ← deref p;
    if bool_decide (vn_refcount (sv_v sv) < 0) then panic
    else if bool_decide (vn_refcount (sv_v sv) = 0) && negb isreclaim then panic
    else if bool_decide (vn_opencount (sv_v sv) < 0) then panic
    else mret tt.

(** ** Truncation *)

(** [for (i=0; i<SFS_NDIRECT; i++)] of [sfs_truncate]. *)
Fixpoint truncate_direct (n : nat) (i : Z) (p : ptr) (blocklen : Z) : FS unit :=
  match n with
  | O => mret tt
  | S n =>
      sv ← deref p;
      block ← lift (getZ (sfi_direct (sv_i sv)) i);
      _ ← (if bool_decide (i >= blocklen) && bool_decide (block ≠ 0) then
             _ ← sfs_bfree block;
             direct ← lift (setZ (sfi_direct (sv_i sv)) i 0);
             assign p (set_dirty (set_i sv (set_direct (sv_i sv) direct)) true)
           else mret tt);
      truncate_direct n (i + 1) p blocklen
  end.

(** [for (j=0; j<SFS_DBPERIDB; j++)]: the buffer, [hasnonzero], [iddirty]. *)
Fixpoint truncate_indirect (n : nat) (j blocklen : Z) (idbuf : list Z) (hasnonzero iddirty : bool)
    : FS (list Z * bool * bool) :=
  match n with
  | O => mret (idbuf, hasnonzero, iddirty)
  | S n =>
      b ← lift (getZ idbuf j);
      '(idbuf, iddirty) ←
        (if bool_decide (blocklen < SFS_NDIRECT + j) && bool_decide (b ≠ 0) then
           _ ← sfs_bfree b;
           idbuf ← lift (setZ idbuf j 0);
           mret (idbuf, true)
         else mret (idbuf, iddirty));
      b ← lift (getZ idbuf j);
      truncate_indirect n (j + 1) blocklen idbuf (hasnonzero || bool_decide (b ≠ 0)) iddirty
  end.

(** The part of [sfs_truncate] that deals with the indirect block. *)
Definition truncate_idblock (p : ptr) (blocklen : Z) : FS unit :=
  sv ← deref p;
  let idblock := sfi_indirect (sv_i sv) in
  let highblock := SFS_NDIRECT + SFS_DBPERIDB - 1 in
  if bool_decide (blocklen < highblock) && bool_decide (idblock ≠ 0) then
    b ← sfs_rblock (zeros SFS_BLOCKSIZE) idblock;
    '(idbuf, hasnonzero, iddirty) ← truncate_indirect 128 0 blocklen (dec_words 128 b) false false;
    if negb hasnonzero then
      _ ← sfs_bfree idblock;
      assign p (set_dirty (set_i sv (set_indirect (sv_i sv) 0)) true)
    else if iddirty : bool then sfs_wblock (enc_words idbuf) idblock
    else mret tt
  else mret tt.

Definition sfs_truncate (p : ptr) (len : Z) : FS unit :=
  l1 ← lift (int_op (len + SFS_BLOCKSIZE));
  let blocklen := u32 (Z.quot (l1 - 1) SFS_BLOCKSIZE) in
  _ ← truncate_direct 15 0 p blocklen;
  _ ← truncate_idblock p blocklen;
  sv ← deref p;
  assign p (set_dirty (set_i sv (set_size (sv_i sv) (u32 len))) true).

(** ** Loading and reclaiming vnodes *)

(** A cell of the vnode table as a pointer. *)
Definition vnode_at (i : Z) : FS ptr :=
  s ← get;
  c ← lift (KArray.array_getguy (sfs_vnodes s) i);
  lift (match c with Some q => Done q | None => Stuck end).

(** The search loop of [sfs_loadvnode]. *)
Fixpoint load_search (n : nat) (i : Z) (ino forcetype : Z) : FS (option ptr) :=
  match n with
  | O => mret None
  | S n =>
      q ← vnode_at i;
      sv ← deref q;
      used ← sfs_bused (sv_ino sv);
      if negb used then panic
      else if bool_decide (sv_ino sv = ino) then
        _ ← massert (bool_decide (forcetype = SFS_TYPE_INVAL));
        _ ← vnode_incref q;
        mret (Some q)
      else load_search n (i + 1) ino forcetype
  end.

(** An address [kmalloc] may hand out: not NULL and not in use. *)
Definition fresh_ptr (s : sfs_fs) : ptr := fresh (dom (k_heap s) ∪ {[NULL]}).

Definition sfs_loadvnode (ino forcetype : Z) : FS ptr :=
  s ← get;
  r ← load_search (Z.to_nat (KArray.array_getnum (sfs_vnodes s))) 0 ino forcetype;
  match r with
  | Some q => mret q
  | None =>
      ok ← kmalloc;
      if negb ok then fail ENOMEM
      else
        used ← sfs_bused ino;
        if negb used then panic
        else
          b ← sfs_rblock (zeros SFS_BLOCKSIZE) ino;
          let i := inode_of_bytes b in
          '(i, dirty) ←
            (if bool_decide (forcetype ≠ SFS_TYPE_INVAL) then
               _ ← massert (bool_decide (sfi_type i = SFS_TYPE_INVAL));
               mret (set_type i (u16 forcetype), true)
             else mret (i, false));
          ops ← (if bool_decide (sfi_type i = SFS_TYPE_FILE) then mret sfs_fileops
                 else if bool_decide (sfi_type i = SFS_TYPE_DIR) then mret sfs_dirops
                 else panic);
          s ← get;
          let q := fresh_ptr s in
          _ ← vnode_init q (mkSv (mkVnode 0 0 ops) i ino dirty) ops;
          s ← get;
          '(result, a, o) ← lift (KArray.array_add (sfs_vnodes s) q (k_orc s));
          _ ← modify (fun s => set_vnodes s a o);
          if bool_decide (result ≠ 0) then
            _ ← vnode_kill q;
            fail result
          else mret q
  end.

(** The search loop of [sfs_reclaim]. *)
Fixpoint reclaim_search (n : nat) (i : Z) (p : ptr) : FS Z :=
  match n with
  | O => panic
  | S n =>
      q ← vnode_at i;
      if bool_decide (q = p) then mret i else reclaim_search n (i + 1) p
  end.

(** [VOP_TRUNCATE] *)
Definition VOP_TRUNCATE (p : ptr) (len : Z) : FS unit :=
  _ ← vnode_check p false;
  sv ← deref p;
  match vn_ops (sv_v sv) with
  | sfs_fileops => sfs_truncate p len
  | sfs_dirops => fail EISDIR
  end.

Definition sfs_reclaim (p : ptr) : FS unit :=
  sv ← deref p;
  if bool_decide (vn_refcount (sv_v sv) ≠ 1) then
    _ ← massert (bool_decide (vn_refcount (sv_v sv) > 1));
    _ ← assign p (set_refcount sv (vn_refcount (sv_v sv) - 1));
    fail EBUSY
  else
    _ ← (if bool_decide (sfi_linkcount (sv_i sv) = 0) then VOP_TRUNCATE p 0 else mret tt);
    _ ← sfs_sync_inode p;
    sv ← deref p;
    _ ← (if bool_decide (sfi_linkcount (sv_i sv) = 0) then sfs_bfree (sv_ino sv) else mret tt);
    s ← get;
    ix ← reclaim_search (Z.to_nat (KArray.array_getnum (sfs_vnodes s))) 0 p;
    s ← get;
    a ← lift (KArray.array_remove (sfs_vnodes s) ix);
    _ ← modify (fun s => set_vnodes s a (k_orc s));
    vnode_kill p.

Definition VOP_RECLAIM (p : ptr) : FS unit :=
  _ ← vnode_check p true;
  sfs_reclaim p.

(** The error of the reclaim, if any, is only printed. *)
Definition vnode_decref (p : ptr) : FS unit :=
  _ ← massert (bool_decide (p ≠ NULL));
  sv ← deref p;
  _ ← massert (bool_decide (vn_refcount (sv_v sv) > 0));
  if bool_decide (vn_refcount (sv_v sv) > 1) then
    assign p (set_refcount sv (vn_refcount (sv_v sv) - 1))
  else
    _ ← try (VOP_RECLAIM p);
    mret tt.

(** ** Directory operations on vnodes *)

(** The vnode and the slot of the entry. *)
Definition sfs_lookonce (p : ptr) (name : list Z) : FS (ptr * Z) :=
  '(result, fr) ← sfs_dir_findname p name;
  _ ← check result;
  match fr_found fr with
  | None => lift Stuck
  | Some (ino, slot) =>
      q ← sfs_loadvnode ino SFS_TYPE_INVAL;
      sv ← deref q;
      if bool_decide (sfi_linkcount (sv_i sv) = 0) then panic else mret (q, slot)
  end.

Definition sfs_makeobj (type : Z) : FS ptr :=
  ino ← sfs_balloc;
  sfs_loadvnode ino type.

(** ** Vnode operations *)

Definition O_ACCMODE : Z := 3.
Definition O_APPEND : Z := 32.

Definition sfs_open (openflags : Z) : FS unit :=
  if bool_decide (Z.land openflags O_APPEND ≠ 0) then fail EUNIMP else mret tt.

Definition sfs_opendir (openflags : Z) : FS unit :=
  if bool_decide (Z.land openflags O_ACCMODE ≠ 0) then fail EISDIR
  else if bool_decide (Z.land openflags O_APPEND ≠ 0) then fail EISDIR
  else mret tt.

Definition sfs_fsync (p : ptr) : FS unit := sfs_sync_inode p.

Definition VOP_FSYNC (p : ptr) : FS unit :=
  _ ← vnode_check p false;
  sfs_fsync p.

Definition sfs_close (p : ptr) : FS unit := VOP_FSYNC p.

Definition sfs_read (p : ptr) : IO unit :=
  u ← get_uio;
  _ ← massert (bool_decide (uio_rw u = UIO_READ));
  sfs_io p.

Definition sfs_write (p : ptr) : IO unit :=
  u ← get_uio;
  _ ← massert (bool_decide (uio_rw u = UIO_WRITE));
  sfs_io p.

Definition sfs_ioctl : FS unit := fail EINVAL.

Definition S_IFREG : Z := 4096.
Definition S_IFDIR : Z := 8192.

Definition sfs_gettype (p : ptr) : FS Z :=
  sv ← deref p;
  if bool_decide (sfi_type (sv_i sv) = SFS_TYPE_FILE) then mret S_IFREG
  else if bool_decide (sfi_type (sv_i sv) = SFS_TYPE_DIR) then mret S_IFDIR
  else panic.

Record stat := mkStat { st_mode : Z; st_nlink : Z; st_size : Z; st_blocks : Z }.

Definition sfs_stat (p : ptr) : FS stat :=
  _ ← vnode_check p false;
  mode ← sfs_gettype p;
  sv ← deref p;
  mret (mkStat mode 0 (s32 (sfi_size (sv_i sv))) 0).

Definition sfs_tryseek (pos : Z) : FS unit := if bool_decide (pos < 0) then fail EINVAL else mret tt.

Definition sfs_mmap : FS unit := fail EUNIMP.

Definition sfs_namefile (p : ptr) : FS unit :=
  sv ← deref p;
  massert (bool_decide (sv_ino sv = SFS_ROOT_LOCATION)).

(** [f->sv_i.sfi_linkcount++] and [--] on the [u_int16_t], with the dirty bit. *)
Definition add_links (p : ptr) (k : Z) : FS unit :=
  sv ← deref p;
  assign p (set_dirty (set_i sv (set_linkcount (sv_i sv) (u16 (sfi_linkcount (sv_i sv) + k)))) true).

Definition sfs_creat (p : ptr) (name : list Z) (excl : bool) : FS ptr :=
  '(result, fr) ← sfs_dir_findname p name;
  if bool_decide (result ≠ 0) && bool_decide (result ≠ ENOENT) then fail result
  else if bool_decide (result = 0) && excl then fail EEXIST
  else if bool_decide (result = 0) then
    match fr_found fr with
    | Some (ino, _) => sfs_loadvnode ino SFS_TYPE_INVAL
    | None => lift Stuck
    end
  else
    q ← sfs_makeobj SFS_TYPE_FILE;
    sv ← deref q;
    r ← try (sfs_dir_link p name (sv_ino sv));
    match r with
    | inl result => _ ← vnode_decref q; fail result
    | inr _ => _ ← add_links q 1; mret q
    end.

Definition sfs_link (dir : ptr) (name : list Z) (file : ptr) : FS unit :=
  f ← deref file;
  _ ← sfs_dir_link dir name (sv_ino f);
  add_links file 1.

Definition sfs_remove (dir : ptr) (name : list Z) : FS unit :=
  '(victim, slot) ← sfs_lookonce dir name;
  r ← try (sfs_dir_unlink dir slot);
  _ ← match r with
      | inr _ =>
          sv ← deref victim;
          _ ← massert (bool_decide (sfi_linkcount (sv_i sv) > 0));
          add_links victim (-1)
      | inl _ => mret tt
      end;
  _ ← vnode_decref victim;
  match r with
  | inl e => fail e
  | inr _ => mret tt
  end.

(** The labels [puke_harder] and [puke]. *)
Definition rename_puke (g1 : ptr) (result : Z) : FS unit :=
  _ ← vnode_decref g1;
  fail result.

Definition rename_puke_harder (d g1 : ptr) (slot2 result : Z) : FS unit :=
  r2 ← try (sfs_dir_unlink d slot2);
  match r2 with
  | inl _ => panic
  | inr _ =>
      sv ← deref g1;
      _ ← assign g1 (set_i sv (set_linkcount (sv_i sv) (u16 (sfi_linkcount (sv_i sv) - 1))));
      rename_puke g1 result
  end.

Definition sfs_rename (d1 : ptr) (n1 : list Z) (d2 : ptr) (n2 : list Z) : FS unit :=
  _ ← massert (bool_decide (d1 = d2));
  sv ← deref d1;
  _ ← massert (bool_decide (sv_ino sv = SFS_ROOT_LOCATION));
  '(g1, slot1) ← sfs_lookonce d1 n1;
  g ← deref g1;
  _ ← massert (bool_decide (sfi_type (sv_i g) = SFS_TYPE_FILE));
  r ← try (sfs_dir_link d1 n2 (sv_ino g));
  match r with
  | inl result => rename_puke g1 result
  | inr slot2 =>
      _ ← add_links g1 1;
      r ← try (sfs_dir_unlink d1 slot1);
      match r with
      | inl result => rename_puke_harder d1 g1 slot2 result
      | inr _ =>
          g ← deref g1;
          _ ← massert (bool_decide (sfi_linkcount (sv_i g) > 0));
          _ ← add_links g1 (-1);
          vnode_decref g1
      end
  end.

(** The last component goes to [buf], of [buflen] bytes. *)
Definition sfs_lookparent (p : ptr) (path : list Z) (buflen : Z) : FS (ptr * list Z) :=
  sv ← deref p;
  if bool_decide (sfi_type (sv_i sv) ≠ SFS_TYPE_DIR) then fail ENOTDIR
  else if bool_decide (Z.of_nat (length path) + 1 > buflen) then fail ENAMETOOLONG
  else
    _ ← vnode_incref p;
    mret (p, path).

Definition sfs_lookup (p : ptr) (path : list Z) : FS ptr :=
  sv ← deref p;
  if bool_decide (sfi_type (sv_i sv) ≠ SFS_TYPE_DIR) then fail ENOTDIR
  else
    '(final, _) ← sfs_lookonce p path;
    mret final.

(** [VOP_CLOSE] on the last close; its error is only printed. *)
Definition vnode_decopen (p : ptr) : FS unit :=
  _ ← massert (bool_decide (p ≠ NULL));
  sv ← deref p;
  _ ← massert (bool_decide (vn_opencount (sv_v sv) > 0));
  _ ← assign p (set_opencount sv (vn_opencount (sv_v sv) - 1));
  if bool_decide (vn_opencount (sv_v sv) - 1 > 0) then mret tt
  else
    _ ← vnode_check p false;
    _ ← try (sfs_close p);
    mret tt.

(** ** The function tables *)

(** The operations a [vnode_ops] table has an entry for. *)
Inductive vop :=
  | vop_open | vop_close | vop_reclaim | vop_read | vop_readlink | vop_getdirentry | vop_write
  | vop_ioctl | vop_stat | vop_gettype | vop_tryseek | vop_fsync | vop_mmap | vop_truncate
  | vop_namefile | vop_creat | vop_symlink | vop_mkdir | vop_link | vop_remove | vop_rmdir
  | vop_rename | vop_lookup | vop_lookparent.

(** An entry: a function of this file, or one of [sfs_notdir], [sfs_isdir] and
    [sfs_unimp] by the error it returns. *)
Definition vop_entry (ops : vnode_ops) (op : vop) : option Z :=
  match ops, op with
  | sfs_fileops, (vop_readlink | vop_getdirentry | vop_namefile | vop_creat | vop_symlink
      | vop_mkdir | vop_link | vop_remove | vop_rmdir | vop_rename | vop_lookup
      | vop_lookparent) => Some ENOTDIR
  | sfs_dirops, (vop_read | vop_readlink | vop_write | vop_mmap | vop_truncate) => Some EISDIR
  | sfs_dirops, (vop_getdirentry | vop_tryseek | vop_symlink | vop_mkdir | vop_rmdir) => Some EUNIMP
  | _, _ => None
  end.

(** ** [sfs_fs.c] *)

(** The loop of [sfs_mapio]. *)
Fixpoint mapio_loop (n : nat) (j : Z) (rw : uio_rw_t) : FS unit :=
  match n with
  | O => mret tt
  | S n =>
      s ← get;
      d ← lift (mem_read (KBitmap.v (sfs_freemap s)) (j * SFS_BLOCKSIZE) SFS_BLOCKSIZE);
      _ ← (if decide (rw = UIO_READ) then
             d ← sfs_rblock d (SFS_MAP_LOCATION + j);
             s ← get;
             l ← lift (mem_write (KBitmap.v (sfs_freemap s)) (j * SFS_BLOCKSIZE) d);
             modify (fun s => set_freemap s (KBitmap.mkBitmap (KBitmap.nbits (sfs_freemap s)) l))
           else sfs_wblock d (SFS_MAP_LOCATION + j));
      mapio_loop n (j + 1) rw
  end.

Definition sfs_mapio (rw : uio_rw_t) : FS unit :=
  s ← get;
  mapio_loop (Z.to_nat (SFS_BITBLOCKS (sp_nblocks (sfs_super s)))) 0 rw.

(** The loop over the loaded vnodes; the result of each [VOP_FSYNC] is ignored. *)
Fixpoint sync_loop (n : nat) (i : Z) : FS unit :=
  match n with
  | O => mret tt
  | S n =>
      q ← vnode_at i;
      _ ← try (VOP_FSYNC q);
      sync_loop n (i + 1)
  end.

Definition sfs_sync : FS unit :=
  s ← get;
  _ ← sync_loop (Z.to_nat (KArray.array_getnum (sfs_vnodes s))) 0;
  s ← get;
  _ ← (if sfs_freemapdirty s then
         _ ← sfs_mapio UIO_WRITE;
         modify (fun s => set_freemapdirty s false)
       else mret tt);
  s ← get;
  if sfs_superdirty s then
    _ ← sfs_wblock (super_bytes (sfs_super s)) SFS_SB_LOCATION;
    modify (fun s => set_superdirty s false)
  else mret tt.

Definition sfs_getvolname (s : sfs_fs) : list Z := cstr (sp_volname (sfs_super s)).

(** The arrays and the object itself are freed on success. *)
Definition sfs_unmount : FS unit :=
  s ← get;
  if bool_decide (KArray.array_getnum (sfs_vnodes s) > 0) then fail EBUSY
  else
    _ ← massert (negb (sfs_superdirty s));
    massert (negb (sfs_freemapdirty s)).

(** [sfs_domount] on the object the first [kmalloc] returns: device, memory and
    allocator are the caller's, the other fields are not yet set.  On an error
    the object is freed again. *)
Definition sfs_domount : FS unit :=
  s ← get;
  if bool_decide (d_blocksize (sfs_device s) ≠ SFS_BLOCKSIZE) then fail ENXIO
  else
    ok ← kmalloc;
    if negb ok then fail ENOMEM
    else
      s ← get;
      let '(a, o) := KArray.array_create (k_orc s) in
      match a with
      | None => _ ← modify (fun s => set_orc s o); fail ENOMEM
      | Some a =>
          _ ← modify (fun s => set_vnodes s a o);
          b ← sfs_rblock (zeros SFS_BLOCKSIZE) SFS_SB_LOCATION;
          let sp := super_of_bytes b in
          if bool_decide (sp_magic sp ≠ SFS_MAGIC) then fail EINVAL
          else
            let volname := <[31%nat := 0]> (sp_volname sp) in
            _ ← modify (fun s => set_super s (mkSuper (sp_magic sp) (sp_nblocks sp) volname (sp_reserved sp)));
            s ← get;
            '(fm, o) ← lift (KBitmap.bitmap_create (SFS_BITMAPSIZE (sp_nblocks sp)) (k_orc s));
            _ ← modify (fun s => set_orc s o);
            match fm with
            | None => fail ENOMEM
            | Some fm =>
                _ ← modify (fun s => set_freemap s fm);
                _ ← sfs_mapio UIO_READ;
                modify (fun s => set_freemapdirty (set_superdirty s false) false)
            end
      end.

Definition sfs_getroot : FS ptr :=
  r ← try (sfs_loadvnode SFS_ROOT_LOCATION SFS_TYPE_INVAL);
  match r with
  | inl _ => panic
  | inr sv => mret sv
  end.
End ops.

Arguments sfs_fs D : clear implicits.

End Sfs.
