(* ===== verification/SfsBlocks.v ===== *)
(** * SFS: blocks on the device and the free map

    The device and the free map as the file code sees them, on a device that
    obeys its laws: reading and writing a block, allocating, freeing and
    testing one.  The rules for the two monads of [Sfs] are here too. *)

From S2P Require Import Prelude KArray KBitmap UserMem Uio BlockDev SfsFormat Sfs.

Module SfsBlocks.
Import UserMem Uio SfsFormat Sfs.

(** ** Program logic rules *)

Section rules.
Context {D : Type} `{BlockDevice D}.
Implicit Types (s : sfs_fs D) (u : uio).

Lemma wp_deref p sv (Q : sfs_vnode -> sfs_fs D -> Prop) E s :
  k_heap s !! p = Some sv -> Q sv s -> wp (deref p) Q E s.
Proof. unfold wp, deref. by intros ->. Qed.

Lemma wp_assign p sv (Q : unit -> sfs_fs D -> Prop) E s :
  Q tt (set_heap s (<[p := sv]> (k_heap s))) -> wp (assign p sv) Q E s.
Proof. done. Qed.

Lemma wp_on_fs {A} (m : M (sfs_fs D) A) Q E s u :
  wp m (fun a s' => Q a (s', u)) (fun e s' => E e (s', u)) s -> wp (on_fs m) Q E (s, u).
Proof. unfold wp, on_fs. cbn. by destruct (m s) as [[[e|a] s']| |]. Qed.

Lemma wp_with_uio u (m : M (sfs_fs D * uio) unit) Q E s :
  wp m (fun _ su => Q (snd su) (fst su)) (fun e su => E e (fst su)) (s, u) ->
  wp (with_uio u m) Q E s.
Proof. unfold wp, with_uio. by destruct (m (s, u)) as [[[e|a] [s' u']]| |]. Qed.

Lemma wp_get_uio (Q : uio -> sfs_fs D * uio -> Prop) E s u : Q u (s, u) -> wp get_uio Q E (s, u).
Proof. done. Qed.

Lemma wp_put_uio u' (Q : unit -> sfs_fs D * uio -> Prop) E s u :
  Q tt (s, u') -> wp (put_uio u') Q E (s, u).
Proof. done. Qed.
End rules.

(** One step of a proof about a computation in the monads of [Sfs]. *)
Ltac wp_step :=
  lazymatch goal with
  | |- wp (assign _ _) _ _ _ => apply wp_assign
  | |- wp get_uio _ _ _ => apply wp_get_uio
  | |- wp (put_uio _) _ _ _ => apply wp_put_uio
  | |- wp (on_fs _) _ _ _ => apply wp_on_fs
  | |- wp (with_uio _ _) _ _ _ => apply wp_with_uio
  | _ => wp_base
  end.
Ltac wp_steps := cbn beta match; repeat (wp_step; cbn beta match).

(** ** The state the file code relies on *)

Section state.
Context {D : Type} `{BlockDevice D}.
Implicit Types s : sfs_fs D.

Definition nb s : Z := sp_nblocks (sfs_super s).
Definition sect s (b : Z) : list Z := d_sector (sfs_device s) b.
Definition used s (b : Z) : bool := KBitmap.bit (sfs_freemap s) b.

(** The device works; the free map covers it; the superblock and the bits past
    the end of the volume are marked in use. *)
Record good s : Prop := {
  g_dev : d_ok (sfs_device s);
  g_nb : 0 < nb s <= d_blocks (sfs_device s);
  g_map : KBitmap.wf (sfs_freemap s);
  g_bits : nb s <= KBitmap.nbits (sfs_freemap s);
  g_over : forall b, nb s <= b < KBitmap.nbits (sfs_freemap s) -> used s b = true;
  g_zero : used s 0 = true
}.

(** [s'] is [s] with block [b] holding [data]. *)
Definition dev_upd s s' (b : Z) (data : list Z) : Prop :=
  exists d', s' = set_device s d' (k_ctx s) /\ d_ok d' /\ sector_update (sfs_device s) d' b data.

Context `{!BlockDeviceLaws D}.

Lemma sect_len s b : good s -> 0 <= b < nb s -> length (sect s b) = 512%nat.
Proof. intros [] Hb. apply d_law_sector; [done|lia]. Qed.

Lemma dev_upd_good s s' b data : good s -> dev_upd s s' b data -> good s'.
Proof.
  intros [] (d' & -> & Hok & Hb & _). split; cbn; try done. unfold nb in *. cbn. lia.
Qed.

Lemma dev_upd_sect s s' b data c :
  good s -> dev_upd s s' b data -> 0 <= c < nb s ->
  sect s' c = if decide (c = b) then data else sect s c.
Proof.
  intros [] (d' & -> & Hok & _ & Hs & Ho) Hc. unfold sect. cbn. case_decide; [by subst|].
  apply Ho; [lia|done].
Qed.

(** ** Block I/O *)

(** The device works and has block [b]. *)
Definition has_block s (b : Z) : Prop := d_ok (sfs_device s) /\ 0 <= b < d_blocks (sfs_device s).

Lemma good_block s b : good s -> 0 <= b < nb s -> has_block s b.
Proof. intros [] Hb. split; [done|lia]. Qed.

Lemma dev_io_read s u b :
  has_block s b -> kwf u -> sector_request u b -> uio_rw u = UIO_READ ->
  exists s', dev_io (s, u) =
    Done (inr 0, (s', moved (set_kdata u (splice (uio_kdata u) (iov_base u) (sect s b))) 512)) /\
    dev_upd s s' b (sect s b).
Proof.
  intros [Hd Hb] Hwf Hreq Hrw. pose proof (d_law_sector _ _ Hd Hb : length (sect s b) = 512%nat) as Hl.
  pose proof (uiomove_kernel_read (sect s b) 0 512 u (k_ctx s) Hwf Hrw) as Hm.
  destruct Hreq as [Hr Ho]. unfold SECTSIZE in *.
  rewrite slice_all in Hm by lia. specialize (Hm ltac:(lia) ltac:(lia) ltac:(lia)).
  destruct (d_law_read (sfs_device s) u b (k_ctx s) _ _ _ _ Hd ltac:(lia)
    ltac:(split; done) Hrw Hm) as (d' & Hio & Hok & Hupd).
  exists (set_device s d' (k_ctx s)). split; [|exists d'; auto].
  unfold dev_io. rewrite Hio. done.
Qed.

Lemma dev_io_write s u b :
  has_block s b -> kwf u -> sector_request u b -> uio_rw u = UIO_WRITE ->
  exists s', dev_io (s, u) = Done (inr 0, (s', moved u 512)) /\
    dev_upd s s' b (slice (uio_kdata u) (iov_base u) 512).
Proof.
  intros [Hd Hb] Hwf Hreq Hrw.
  destruct (d_law_write (sfs_device s) u b (k_ctx s) Hd ltac:(lia) Hreq Hrw)
    as (buf & Hbuf & Hlaw). destruct Hreq as [Hr Ho]. unfold SECTSIZE in *.
  pose proof Hwf as [].
  pose proof (uiomove_kernel_write buf 0 512 u (k_ctx s) Hwf Hrw ltac:(lia) ltac:(lia) ltac:(lia)) as Hm.
  destruct (Hlaw _ _ _ _ Hm) as (d' & Hio & Hok & Hupd).
  exists (set_device s d' (k_ctx s)). split; [unfold dev_io; by rewrite Hio|].
  exists d'. split; [done|]. split; [done|].
  rewrite decide_True in Hupd by done. rewrite splice_all in Hupd; [done|].
  pose proof (length_slice (uio_kdata u) (iov_base u) 512). lia.
Qed.

Lemma rwblock_done su su' : dev_io su = Done (inr 0, su') -> sfs_rwblock su = Done (inr tt, su') :> outcome _.
Proof.
  intros Hio. unfold sfs_rwblock, mbind, M_bind. cbn [rwblock_retry mbind M_bind].
  unfold mbind, M_bind. rewrite Hio. reflexivity.
Qed.

Lemma wp_rwblock_read s u b (Q : unit -> sfs_fs D * uio -> Prop) E :
  has_block s b -> kwf u -> sector_request u b -> uio_rw u = UIO_READ ->
  (forall s', dev_upd s s' b (sect s b) ->
     Q tt (s', moved (set_kdata u (splice (uio_kdata u) (iov_base u) (sect s b))) 512)) ->
  wp sfs_rwblock Q E (s, u).
Proof.
  intros Hb Hwf Hreq Hrw HQ. destruct (dev_io_read s u b) as (s' & Hio & Hd); [done..|].
  unfold wp. rewrite (rwblock_done _ _ Hio). auto.
Qed.

Lemma wp_rwblock_write s u b (Q : unit -> sfs_fs D * uio -> Prop) E :
  has_block s b -> kwf u -> sector_request u b -> uio_rw u = UIO_WRITE ->
  (forall s', dev_upd s s' b (slice (uio_kdata u) (iov_base u) 512) -> Q tt (s', moved u 512)) ->
  wp sfs_rwblock Q E (s, u).
Proof.
  intros Hb Hwf Hreq Hrw HQ. destruct (dev_io_write s u b) as (s' & Hio & Hd); [done..|].
  unfold wp. rewrite (rwblock_done _ _ Hio). auto.
Qed.

Lemma has_block_range s b : has_block s b -> 0 <= b < 4194303.
Proof. intros [Hd Hb]. pose proof (d_law_range _ Hd). lia. Qed.

Lemma good_nb s : good s -> nb s < 4194304.
Proof. intros []. pose proof (d_law_range _ g_dev0). lia. Qed.

Lemma SFSUIO_ok data b rw :
  0 <= b < 4194304 -> SFSUIO data b rw = Done (mk_kuio data 512 (b * 512) rw).
Proof.
  intros Hb. unfold SFSUIO, SFS_BLOCKSIZE. rewrite s32_small by (unfold INT_MIN, INT_MAX; lia).
  by rewrite int_op_ok by (unfold INT_MIN, INT_MAX; lia).
Qed.

(** Reading a block returns what it holds and changes nothing. *)
Lemma wp_rblock_dev s data b (Q : list Z -> sfs_fs D -> Prop) E :
  has_block s b -> length data = 512%nat ->
  (forall s', dev_upd s s' b (sect s b) -> Q (sect s b) s') ->
  wp (sfs_rblock data b) Q E s.
Proof.
  intros Hb Hd HQ. pose proof (has_block_range s b Hb). unfold sfs_rblock. wp_step.
  eapply wp_lift; [apply SFSUIO_ok; lia|]. wp_steps.
  eapply wp_rwblock_read; [done|apply mk_kuio_kwf; unfold INT_MAX; lia|done|done|].
  intros s' Hs'. wp_steps. cbn [snd fst moved set_kdata uio_kdata mk_kuio iov_base].
  rewrite splice_all by (destruct Hb; unfold sect; rewrite d_law_sector; done). auto.
Qed.

Lemma wp_rblock s data b (Q : list Z -> sfs_fs D -> Prop) E :
  good s -> 0 <= b < nb s -> length data = 512%nat ->
  (forall s', dev_upd s s' b (sect s b) -> Q (sect s b) s') ->
  wp (sfs_rblock data b) Q E s.
Proof. intros. apply wp_rblock_dev; [by apply good_block|done|done]. Qed.

(** Writing a block replaces its contents and nothing else. *)
Lemma wp_wblock_dev s data b (Q : unit -> sfs_fs D -> Prop) E :
  has_block s b -> length data = 512%nat ->
  (forall s', dev_upd s s' b data -> Q tt s') ->
  wp (sfs_wblock data b) Q E s.
Proof.
  intros Hb Hd HQ. pose proof (has_block_range s b Hb). unfold sfs_wblock. wp_step.
  eapply wp_lift; [apply SFSUIO_ok; lia|]. wp_steps.
  eapply wp_rwblock_write; [done|apply mk_kuio_kwf; unfold INT_MAX; lia|done|done|].
  intros s' Hs'. wp_steps. cbn [snd fst mk_kuio uio_kdata iov_base] in *.
  rewrite slice_all in Hs' by lia. auto.
Qed.

Lemma wp_wblock s data b (Q : unit -> sfs_fs D -> Prop) E :
  good s -> 0 <= b < nb s -> length data = 512%nat ->
  (forall s', dev_upd s s' b data -> Q tt s') ->
  wp (sfs_wblock data b) Q E s.
Proof. intros. apply wp_wblock_dev; [by apply good_block|done|done]. Qed.

(** ** Allocation *)

(** [s'] is [s] after the allocation of [b]: it was free, is now marked and
    holds zeros. *)
Definition allocated s s' (b : Z) : Prop :=
  exists fm d', s' = set_device (set_freemapdirty (set_freemap s fm) true) d' (k_ctx s) /\
    0 < b < nb s /\ used s b = false /\ good s' /\
    sector_update (sfs_device s) d' b (zeros 512) /\
    (forall c, 0 <= c -> used s' c = used s c || bool_decide (c = b)) /\
    KBitmap.nbits fm = KBitmap.nbits (sfs_freemap s).

Lemma wp_balloc s (Q : Z -> sfs_fs D -> Prop) (E : Z -> sfs_fs D -> Prop) :
  good s ->
  (forall b s', allocated s s' b -> Q b s') ->
  ((forall b, 0 <= b < nb s -> used s b = true) -> E ENOSPC s) ->
  wp sfs_balloc Q E s.
Proof.
  intros Hg HQ HE. pose proof Hg as []. unfold sfs_balloc. wp_steps.
  destruct (KBitmap.bitmap_alloc_spec (sfs_freemap s) g_map0)
    as [(b & fm & Ha & Hb & Hwf & Hn & Hc & _ & Hbits)|[Ha Hall]].
  - eapply wp_lift; [exact Ha|]. wp_steps. cbn [set_freemapdirty set_freemap sfs_super].
    assert (0 < b < nb s) as Hb'.
    { destruct (decide (b = 0)) as [->|]; [by unfold used in g_zero0; congruence|].
      destruct (decide (nb s <= b)); [|lia].
      specialize (g_over0 b ltac:(lia)). unfold used in g_over0. congruence. }
    unfold nb in Hb'. rewrite bool_decide_eq_false_2 by lia. wp_steps.
    assert (good (set_freemapdirty (set_freemap s fm) true)) as Hg'.
    { split; unfold nb, used in *; cbn; [done|done|done|lia| |].
      - intros c Hcc. rewrite Hbits, g_over0 by lia. done.
      - rewrite Hbits, g_zero0 by lia. done. }
    unfold sfs_clearblock. eapply wp_wblock; [done|unfold nb; cbn; lia|done|].
    intros s' Hs'. wp_steps. apply HQ. pose proof (dev_upd_good _ _ _ _ Hg' Hs') as Hg''.
    destruct Hs' as (d' & -> & _ & Hupd). exists fm, d'.
    split; [done|]. split; [done|]. split; [exact Hc|]. split; [done|]. split; [exact Hupd|]. split; [exact Hbits|done].
  - eapply wp_lift; [exact Ha|]. wp_steps.
    replace (set_freemap s (sfs_freemap s)) with s by (by destruct s). apply HE.
    intros b Hb. apply Hall. lia.
Qed.

Lemma wp_bused s b (Q : bool -> sfs_fs D -> Prop) E :
  good s -> 0 <= b < nb s -> Q (used s b) s -> wp (sfs_bused b) Q E s.
Proof.
  intros Hg Hb HQ. destruct Hg. unfold sfs_bused. wp_steps. unfold nb in Hb.
  rewrite bool_decide_eq_false_2 by lia.
  destruct (KBitmap.bitmap_isset_spec (sfs_freemap s) b g_map0) as (r & Hr & Hz); [unfold nb in *; lia|].
  wp_steps. eapply wp_lift; [exact Hr|]. wp_steps. rewrite Hz, negb_involutive. exact HQ.
Qed.

Lemma wp_hand_back s b (Q : Z -> sfs_fs D -> Prop) E :
  good s -> (b ≠ 0 -> 0 < b < nb s /\ used s b = true) -> Q b s -> wp (hand_back b) Q E s.
Proof.
  intros Hg Hb HQ. unfold hand_back. case_bool_decide; [by wp_steps|].
  destruct Hb as [Hb Hu]; [done|]. wp_steps. apply wp_bused; [done|lia|]. rewrite Hu. by wp_steps.
Qed.

(** [s'] is [s] with block [b] marked free. *)
Definition freed s s' (b : Z) : Prop :=
  exists fm, s' = set_freemapdirty (set_freemap s fm) true /\ good s' /\
    (forall c, 0 <= c -> used s' c = used s c && negb (bool_decide (c = b))) /\
    KBitmap.nbits fm = KBitmap.nbits (sfs_freemap s).

Lemma wp_bfree s b (Q : unit -> sfs_fs D -> Prop) E :
  good s -> 0 < b < nb s -> used s b = true ->
  (forall s', freed s s' b -> Q tt s') -> wp (sfs_bfree b) Q E s.
Proof.
  intros Hg Hb Hu HQ. pose proof Hg as []. unfold sfs_bfree. wp_steps.
  destruct (KBitmap.bitmap_unmark_spec (sfs_freemap s) b g_map0) as (fm & Hf & Hwf & Hn & Hbits);
    [lia|done|].
  eapply wp_lift; [exact Hf|]. wp_steps. apply HQ. exists fm. split; [done|].
  split; [|split; [exact Hbits|done]]. unfold nb, used in *.
  split; unfold nb, used in *; cbn; [done|done|done|lia| |].
  - intros c Hc. rewrite Hbits, g_over0, bool_decide_eq_false_2 by lia. done.
  - rewrite Hbits, g_zero0, bool_decide_eq_false_2 by lia. done.
Qed.
End state.

End SfsBlocks.
