(* ===== verification/SfsFile.v ===== *)
(** * SFS: files as byte sequences

    The blocks of a file (the fifteen direct ones, the indirect block and the
    128 blocks it lists), the bytes they hold, and the proof that [sfs_bmap]
    finds and allocates them without sharing, losing or overwriting a block in
    use.  The transfers on top of it are in [SfsIo]. *)

From S2P Require Import Prelude KArray KBitmap UserMem Uio BlockDev SfsFormat Sfs SfsBlocks.

Module SfsFile.
Import UserMem Uio SfsFormat Sfs SfsBlocks.

(** Blocks and bytes a file can have. *)
Definition MAXBLOCKS : Z := 143.
Definition MAXFILE : Z := 73216.

Section file.
Context {D : Type} `{BlockDevice D}.
Implicit Types (s : sfs_fs D) (i : sfs_inode) (sv : sfs_vnode).

(** ** The blocks of a file *)

Definition idwords s (b : Z) : list Z :=
  if decide (b = 0) then replicate 128 0 else dec_words 128 (sect s b).

(** The direct blocks, the indirect block, the blocks listed there; 0 is a
    hole. *)
Definition slots s i : list Z := sfi_direct i ++ sfi_indirect i :: idwords s (sfi_indirect i).

Definition slot_ix (k : Z) : nat := Z.to_nat (if decide (k < 15) then k else k + 1).

(** The disk block of block [k] of the file. *)
Definition blk s i (k : Z) : Z := nth (slot_ix k) (slots s i) 0.

(** Byte [x] of the file; holes read as zeros. *)
Definition fbyte s i (x : Z) : Z :=
  if decide (blk s i (x / 512) = 0) then 0
  else nth (Z.to_nat (x mod 512)) (sect s (blk s i (x / 512))) 0.

Record file_ok s i : Prop := {
  f_inode : inode_wf i;
  f_inj : forall j k b, slots s i !! j = Some b -> slots s i !! k = Some b -> b ≠ 0 -> j = k;
  f_used : forall b, b ∈ slots s i -> b ≠ 0 -> 0 < b < nb s /\ used s b = true;
  f_size : sfi_size i <= MAXFILE
}.

(** Vnode [p] is [sv], a sound file in a sound state. *)
Record fok s (p : ptr) sv : Prop := {
  fok_heap : k_heap s !! p = Some sv;
  fok_good : good s;
  fok_file : file_ok s (sv_i sv)
}.

(** ** What file I/O on vnode [p] may change *)

(** Besides the blocks: only this vnode, its size and block list, and the dirty
    marks, which are set whenever what they stand for has changed. *)
Record hdr s s' (p : ptr) sv sv' : Prop := {
  h_heap : k_heap s' = <[p := sv']> (k_heap s);
  h_super : sfs_super s' = sfs_super s;
  h_superdirty : sfs_superdirty s' = sfs_superdirty s;
  h_vnodes : sfs_vnodes s' = sfs_vnodes s;
  h_ctx : k_ctx s' = k_ctx s;
  h_orc : k_orc s' = k_orc s;
  h_v : sv_v sv' = sv_v sv;
  h_ino : sv_ino sv' = sv_ino sv;
  h_type : sfi_type (sv_i sv') = sfi_type (sv_i sv);
  h_link : sfi_linkcount (sv_i sv') = sfi_linkcount (sv_i sv);
  h_mapdirty : sfs_freemapdirty s' = true \/
    (sfs_freemap s' = sfs_freemap s /\ sfs_freemapdirty s' = sfs_freemapdirty s);
  h_dirty : sv_dirty sv' = true \/ (sv_i sv' = sv_i sv /\ sv_dirty sv' = sv_dirty sv);
  h_nbits : KBitmap.nbits (sfs_freemap s') = KBitmap.nbits (sfs_freemap s)
}.

(** The file keeps its blocks and may get new ones, which were free before;
    exactly those are newly marked; every other block in use keeps its
    contents. *)
Record ext s s' (p : ptr) sv sv' : Prop := {
  e_hdr : hdr s s' p sv sv';
  e_grow : forall k b, slots s (sv_i sv) !! k = Some b -> b ≠ 0 -> slots s' (sv_i sv') !! k = Some b;
  e_used : forall b, 0 <= b ->
    used s' b = used s b || bool_decide (b ≠ 0 /\ b ∈ slots s' (sv_i sv'));
  e_new : forall b, b ∈ slots s' (sv_i sv') -> b ≠ 0 -> b ∈ slots s (sv_i sv) \/ used s b = false;
  e_frame : forall b, 0 <= b < nb s -> used s b = true -> (b ∈ slots s (sv_i sv) -> b = 0) ->
    sect s' b = sect s b
}.

(** From [off] on the file holds [data], elsewhere what it held before. *)
Definition wrote s s' i i' (off : Z) (data : list Z) : Prop :=
  forall x, 0 <= x < MAXFILE ->
    fbyte s' i' x =
    if decide (off <= x < off + Z.of_nat (length data)) then nth (Z.to_nat (x - off)) data 0
    else fbyte s i x.

(** ** Lemmas on slots *)

Lemma length_idwords s b : length (idwords s b) = 128%nat.
Proof. unfold idwords. case_decide; [by rewrite length_replicate|apply length_dec_words]. Qed.

Lemma length_slots s i : inode_wf i -> length (slots s i) = 144%nat.
Proof.
  intros Hi. unfold slots. rewrite length_app. cbn [length].
  rewrite length_idwords, (iwf_ndirect i Hi). done.
Qed.

Lemma slot_ix_inj j k : 0 <= j -> 0 <= k -> slot_ix j = slot_ix k -> j = k.
Proof. unfold slot_ix. repeat case_decide; lia. Qed.

Lemma slot_ix_not_15 k : 0 <= k -> slot_ix k ≠ 15%nat.
Proof. unfold slot_ix. case_decide; lia. Qed.

Lemma slot_ix_lt k : 0 <= k < MAXBLOCKS -> (slot_ix k < 144)%nat.
Proof. unfold slot_ix, MAXBLOCKS. case_decide; lia. Qed.

Lemma blk_lookup s i k :
  inode_wf i -> 0 <= k < MAXBLOCKS -> slots s i !! slot_ix k = Some (blk s i k).
Proof.
  intros Hi Hk. unfold blk. rewrite nth_lookup.
  destruct (lookup_lt_is_Some_2 (slots s i) (slot_ix k)) as [b ->]; [|done].
  rewrite length_slots by done. by apply slot_ix_lt.
Qed.

Lemma slots_15 s i : inode_wf i -> slots s i !! 15%nat = Some (sfi_indirect i).
Proof.
  intros Hi. unfold slots. rewrite lookup_app_r by (rewrite (iwf_ndirect i Hi); lia).
  by rewrite (iwf_ndirect i Hi).
Qed.

(** The indirect block is not a data block. *)
Lemma blk_not_indirect s i k :
  file_ok s i -> 0 <= k < MAXBLOCKS -> blk s i k ≠ 0 -> blk s i k ≠ sfi_indirect i.
Proof.
  intros Hf Hk Hb Heq. apply (slot_ix_not_15 k); [lia|].
  eapply (f_inj s i Hf); [by apply blk_lookup; [apply Hf|]| |exact Hb].
  rewrite Heq. apply slots_15, Hf.
Qed.

Lemma blk_used s i k :
  file_ok s i -> 0 <= k < MAXBLOCKS -> blk s i k ≠ 0 -> 0 < blk s i k < nb s /\ used s (blk s i k) = true.
Proof.
  intros Hf Hk Hb. apply (f_used s i Hf); [|done].
  eapply list_elem_of_lookup_2, blk_lookup; [apply Hf|done].
Qed.

(** The words of a changed indirect block. *)
Lemma idwords_zeros s b : sect s b = zeros 512 -> idwords s b = replicate 128 0.
Proof. intros Hz. unfold idwords. rewrite Hz. by case_decide. Qed.

Lemma idwords_enc s b ws :
  b ≠ 0 -> sect s b = enc_words ws -> length ws = 128%nat ->
  Forall (fun w => 0 <= w < 4294967296) ws -> idwords s b = ws.
Proof.
  intros Hb Hs Hl Hw. unfold idwords. rewrite decide_False by done. rewrite Hs.
  rewrite <- (app_nil_r (enc_words ws)), <- Hl. by apply dec_enc_words.
Qed.

Lemma slots_set_direct s s' i k b :
  inode_wf i -> (k < 15)%nat -> idwords s' (sfi_indirect i) = idwords s (sfi_indirect i) ->
  slots s' (set_direct i (<[k := b]> (sfi_direct i))) = <[k := b]> (slots s i).
Proof.
  intros Hi Hk Hw. unfold slots. cbn. rewrite Hw.
  by rewrite insert_app_l by (rewrite (iwf_ndirect i Hi); lia).
Qed.

Lemma slots_set_indirect s s' i b :
  inode_wf i -> sfi_indirect i = 0 -> idwords s' b = replicate 128 0 ->
  slots s' (set_indirect i b) = <[15%nat := b]> (slots s i).
Proof.
  intros Hi H0 Hw. unfold slots. cbn. rewrite Hw, H0.
  rewrite insert_app_r_alt by (rewrite (iwf_ndirect i Hi); lia).
  by rewrite (iwf_ndirect i Hi).
Qed.

Lemma slots_set_idword s s' i o b :
  inode_wf i -> (o < 128)%nat ->
  idwords s' (sfi_indirect i) = <[o := b]> (idwords s (sfi_indirect i)) ->
  slots s' i = <[(16 + o)%nat := b]> (slots s i).
Proof.
  intros Hi Ho Hw. unfold slots. rewrite Hw.
  rewrite insert_app_r_alt by (rewrite (iwf_ndirect i Hi); lia).
  by rewrite (iwf_ndirect i Hi).
Qed.

Lemma slots_same s s' i :
  idwords s' (sfi_indirect i) = idwords s (sfi_indirect i) -> slots s' i = slots s i.
Proof. intros Hw. unfold slots. by rewrite Hw. Qed.
(** ** The relations compose *)

Lemma hdr_refl s p sv : k_heap s !! p = Some sv -> hdr s s p sv sv.
Proof. intros Hp. split; try done; [by rewrite insert_id|by right|by right]. Qed.

Lemma hdr_trans s s1 s2 p sv sv1 sv2 :
  hdr s s1 p sv sv1 -> hdr s1 s2 p sv1 sv2 -> hdr s s2 p sv sv2.
Proof.
  intros [] []. split; try congruence.
  - by rewrite h_heap1, h_heap0, insert_insert_eq.
  - destruct h_mapdirty0 as [?|[? ?]], h_mapdirty1 as [?|[? ?]];
      first [by left; congruence|right; split; congruence].
  - destruct h_dirty0 as [?|[? ?]], h_dirty1 as [?|[? ?]];
      first [by left; congruence|right; split; congruence].
Qed.

Lemma hdr_nb s s' p sv sv' : hdr s s' p sv sv' -> nb s' = nb s.
Proof. intros []. unfold nb. congruence. Qed.

Lemma used_absorb (a : bool) (P : Prop) `{!Decision P} : (P -> a = true) -> a = a || bool_decide P.
Proof. intros Hp. case_bool_decide; [by rewrite Hp|by destruct a]. Qed.

(** The blocks and the free map unchanged. *)
Lemma ext_keep s s' p sv sv' :
  fok s p sv -> hdr s s' p sv sv' -> slots s' (sv_i sv') = slots s (sv_i sv) ->
  (forall b, used s' b = used s b) ->
  (forall b, 0 <= b < nb s -> used s b = true -> (b ∈ slots s (sv_i sv) -> b = 0) -> sect s' b = sect s b) ->
  ext s s' p sv sv'.
Proof.
  intros [Hp Hg Hf] Hh Hs Hu Hfr. split; [done| | | |done].
  - intros k b. by rewrite Hs.
  - intros b Hb. rewrite Hu, Hs. apply used_absorb. intros [? ?]. by apply (f_used _ _ Hf).
  - intros b. rewrite Hs. auto.
Qed.

Lemma ext_refl s p sv : fok s p sv -> ext s s p sv sv.
Proof. intros Hf. apply ext_keep; try done. apply hdr_refl, Hf. Qed.

Lemma ext_trans s s1 s2 p sv sv1 sv2 :
  fok s2 p sv2 -> ext s s1 p sv sv1 -> ext s1 s2 p sv1 sv2 -> ext s s2 p sv sv2.
Proof.
  intros Hf2 [Hh1 Hg1 Hu1 Hn1 Hf1] [Hh2 Hg2 Hu2 Hn2 Hfr2].
  assert (Hsub : forall b, b ∈ slots s1 (sv_i sv1) -> b ≠ 0 -> b ∈ slots s2 (sv_i sv2)).
  { intros b [k Hk]%list_elem_of_lookup_1 Hb. eapply list_elem_of_lookup_2, Hg2; eauto. }
  split.
  - eapply hdr_trans; eauto.
  - eauto.
  - intros b Hb. rewrite Hu2, Hu1, <- orb_assoc by done. f_equal.
    repeat case_bool_decide; cbn; naive_solver.
  - intros b Hb Hb0. destruct (Hn2 b Hb Hb0) as [?|Hfree]; [by apply Hn1|]. right.
    assert (0 < b) by (by apply (f_used _ _ (fok_file _ _ _ Hf2))).
    rewrite Hu1 in Hfree by lia. by destruct (used s b).
  - intros b Hb Hu Hnot. rewrite Hfr2; [by apply Hf1| | |].
    + by rewrite (hdr_nb _ _ _ _ _ Hh1).
    + by rewrite Hu1, Hu by lia.
    + intros Hin. destruct (decide (b = 0)) as [|Hb0]; [done|].
      destruct (Hn1 b Hin Hb0) as [?|?]; [by apply Hnot|congruence].
Qed.

Lemma wrote_refl s s' i i' off : (forall x, 0 <= x < MAXFILE -> fbyte s' i' x = fbyte s i x) ->
  wrote s s' i i' off [].
Proof. intros Hb x Hx. rewrite decide_False by (cbn; lia). auto. Qed.

Lemma wrote_nil_trans s s1 s2 i i1 i2 off off' data :
  wrote s s1 i i1 off' [] -> wrote s1 s2 i1 i2 off data -> wrote s s2 i i2 off data.
Proof.
  intros H1 H2 x Hx. rewrite H2 by done. case_decide; [done|]. rewrite H1 by done.
  by rewrite decide_False by (cbn; lia).
Qed.

Lemma wrote_app s s1 s2 i i1 i2 off d1 d2 :
  wrote s s1 i i1 off d1 -> wrote s1 s2 i1 i2 (off + Z.of_nat (length d1)) d2 ->
  wrote s s2 i i2 off (d1 ++ d2).
Proof.
  intros H1 H2 x Hx. rewrite H2, H1 by done. rewrite length_app.
  repeat case_decide; try lia; try done.
  - rewrite app_nth2 by lia. f_equal. lia.
  - by rewrite app_nth1 by lia.
Qed.

(** ** Giving the file a new block *)

Lemma file_block x : 0 <= x < MAXFILE -> 0 <= x / 512 < MAXBLOCKS.
Proof.
  unfold MAXFILE, MAXBLOCKS. intros. split; [apply Z.div_pos; lia|apply Z.div_lt_upper_bound; lia].
Qed.

Lemma unused_not_slot s i b : file_ok s i -> used s b = false -> b ≠ 0 -> b ∉ slots s i.
Proof. intros Hf Hu Hb Hin. destruct (f_used s i Hf b Hin Hb). congruence. Qed.

Section grow.
Context s s' (p : ptr) sv sv' (k : nat) (b : Z).
Context (Hf : fok s p sv) (Hg' : good s') (Hh : hdr s s' p sv sv').
Context (Hi' : inode_wf (sv_i sv')) (Hsz : sfi_size (sv_i sv') = sfi_size (sv_i sv)).
Context (Hs : slots s' (sv_i sv') = <[k := b]> (slots s (sv_i sv))).
Context (Hk : slots s (sv_i sv) !! k = Some 0).
Context (Hb : 0 < b < nb s) (Hfree : used s b = false) (Hz : sect s' b = zeros 512).
Context (Hu : forall c, 0 <= c -> used s' c = used s c || bool_decide (c = b)).
Context (Hsec : forall c, 0 <= c < nb s -> used s c = true ->
  (c = sfi_indirect (sv_i sv) -> c = 0) -> sect s' c = sect s c).

#[local] Abbreviation i := (sv_i sv).
Let Hfile : file_ok s i := fok_file _ _ _ Hf.

Lemma grow_lookup j c : slots s' (sv_i sv') !! j = Some c -> j = k /\ c = b \/ j ≠ k /\ slots s i !! j = Some c.
Proof using Hs Hk.
  rewrite Hs. intros Hj. destruct (decide (j = k)) as [->|].
  - rewrite list_lookup_insert_eq in Hj by (by apply lookup_lt_Some in Hk). left. split; congruence.
  - rewrite list_lookup_insert_ne in Hj by done. auto.
Qed.

Lemma grow_elem c : c ∈ slots s' (sv_i sv') -> c = b \/ c ∈ slots s i.
Proof using Hs Hk.
  intros [j Hj]%list_elem_of_lookup_1. apply grow_lookup in Hj as [[_ ?]|[_ ?]]; [auto|].
  right. by eapply list_elem_of_lookup_2.
Qed.

Lemma grow_new_elem : b ∈ slots s' (sv_i sv').
Proof using Hs Hk.
  rewrite Hs. eapply list_elem_of_lookup_2, list_lookup_insert_eq. by apply lookup_lt_Some in Hk.
Qed.

Lemma grow_file_ok : file_ok s' (sv_i sv').
Proof using All.
  pose proof (unused_not_slot s i b Hfile Hfree ltac:(lia)) as Hnb.
  split; [done| | |by rewrite Hsz; apply Hfile].
  - intros j1 j2 c H1 H2 Hc.
    apply grow_lookup in H1 as [[-> ->]|[? H1]]; apply grow_lookup in H2 as [[-> ?]|[? H2]]; try done.
    + by apply list_elem_of_lookup_2 in H2.
    + subst. by apply list_elem_of_lookup_2 in H1.
    + by eapply (f_inj s i Hfile).
  - intros c Hin Hc. rewrite (hdr_nb _ _ _ _ _ Hh). apply grow_elem in Hin as [->|Hin].
    + rewrite Hu, (bool_decide_eq_true_2 (b = b)), orb_true_r by lia. done.
    + destruct (f_used s i Hfile c Hin Hc) as [? Huc]. by rewrite Hu, Huc by lia.
Qed.

Lemma grow_ext : ext s s' p sv sv'.
Proof using All.
  pose proof grow_file_ok as Hf'. split; [done| | | |].
  - intros j c Hj Hc. rewrite Hs. rewrite list_lookup_insert_ne; [done|]. intros ->. congruence.
  - intros c Hc. rewrite Hu by done. destruct (decide (c = b)) as [->|Hcb].
    + rewrite !bool_decide_eq_true_2; [done| |done]. split; [lia|apply grow_new_elem].
    + rewrite (bool_decide_eq_false_2 (c = b)), orb_false_r by done. apply used_absorb.
      intros [Hc0 Hin]. apply grow_elem in Hin as [->|Hin]; [done|]. by apply (f_used s i Hfile).
  - intros c Hin Hc. apply grow_elem in Hin as [->|Hin]; auto.
  - intros c Hc Huc Hn. apply Hsec; [done|done|]. intros ->. apply Hn.
    eapply list_elem_of_lookup_2, slots_15, Hfile.
Qed.

Lemma grow_content : wrote s s' i (sv_i sv') 0 [].
Proof using All.
  apply wrote_refl. intros x Hx. apply file_block in Hx. unfold fbyte.
  pose proof (blk_lookup s' (sv_i sv') (x / 512) Hi' Hx) as Hl.
  pose proof (blk_lookup s i (x / 512) (f_inode _ _ Hfile) Hx) as Hl0.
  apply grow_lookup in Hl as [[Heq ->]|[Hne Hl]].
  - rewrite <- Heq, Hl0 in Hk. injection Hk as ->.
    rewrite decide_False, decide_True by lia. rewrite Hz. apply nth_zeros.
  - rewrite Hl0 in Hl. injection Hl as <-. case_decide as H0; [done|].
    destruct (blk_used s i (x / 512) Hfile Hx H0).
    rewrite Hsec; [done|lia|done|]. intros Heq. by destruct (blk_not_indirect s i (x / 512) Hfile Hx H0).
Qed.

Lemma grow_fok : fok s' p sv'.
Proof using All.
  split; [|done|apply grow_file_ok]. rewrite (h_heap _ _ _ _ _ Hh). apply lookup_insert_eq.
Qed.
End grow.

(** ** Reads leave everything as it is *)

Definition quiet s s' : Prop :=
  exists d', s' = set_device s d' (k_ctx s) /\ d_ok d' /\ d_blocks d' = d_blocks (sfs_device s) /\
    forall b, 0 <= b < d_blocks (sfs_device s) -> d_sector d' b = d_sector (sfs_device s) b.

Lemma quiet_refl s : good s -> quiet s s.
Proof. intros []. exists (sfs_device s). by destruct s. Qed.

Lemma quiet_upd s s' b : dev_upd s s' b (sect s b) -> quiet s s'.
Proof.
  intros (d' & -> & Hok & Hn & Hb & Ho). exists d'. split; [done|]. split; [done|]. split; [done|].
  intros c Hc. destruct (decide (c = b)) as [->|]; [done|auto].
Qed.

Lemma quiet_trans s s1 s2 : quiet s s1 -> quiet s1 s2 -> quiet s s2.
Proof.
  intros (d1 & -> & _ & Hn1 & H1) (d2 & -> & Hok & Hn2 & H2). cbn in *. exists d2.
  split; [done|]. split; [done|]. split; [congruence|]. intros b Hb. rewrite H2, H1; congruence.
Qed.

Lemma quiet_good s s' : good s -> quiet s s' -> good s'.
Proof. intros [] (d' & -> & Hok & Hn & _). split; unfold nb in *; cbn in *; try done; lia. Qed.

Lemma quiet_sect s s' b : good s -> quiet s s' -> 0 <= b < nb s -> sect s' b = sect s b.
Proof. intros [] (d' & -> & _ & _ & Hs) Hb. apply Hs. lia. Qed.

Lemma quiet_slots s s' i : good s -> file_ok s i -> quiet s s' -> slots s' i = slots s i.
Proof.
  intros Hg Hf Hq. apply slots_same. unfold idwords. case_decide as Hi; [done|].
  f_equal. apply quiet_sect; [done|done|].
  destruct (f_used s i Hf (sfi_indirect i)); [|done|lia].
  eapply list_elem_of_lookup_2, slots_15, Hf.
Qed.

Lemma quiet_fok s s' p sv : fok s p sv -> quiet s s' -> fok s' p sv.
Proof.
  intros [Hp Hg Hf] Hq. pose proof (quiet_slots s s' _ Hg Hf Hq) as Hs.
  split; [by destruct Hq as (d' & -> & _)|by eapply quiet_good|].
  destruct Hf. split; [done|by rewrite Hs|rewrite Hs|done].
  by destruct Hq as (d' & -> & _).
Qed.

Lemma quiet_fbyte s s' p sv x :
  fok s p sv -> quiet s s' -> 0 <= x < MAXFILE -> fbyte s' (sv_i sv) x = fbyte s (sv_i sv) x.
Proof.
  intros [Hp Hg Hf] Hq Hx%file_block. unfold fbyte, blk. rewrite (quiet_slots s s') by done.
  fold (blk s (sv_i sv) (x / 512)). case_decide; [done|].
  destruct (blk_used s (sv_i sv) (x / 512) Hf Hx); [done|]. by rewrite (quiet_sect s s') by (done || lia).
Qed.

Lemma quiet_hdr s s' p sv : k_heap s !! p = Some sv -> quiet s s' -> hdr s s' p sv sv.
Proof.
  intros Hp (d' & -> & _). split; try done; [by cbn; rewrite insert_id|by right|by right].
Qed.

(** ** Growth that keeps the contents *)

Record still s s' (p : ptr) sv sv' : Prop := {
  st_fok : fok s' p sv';
  st_ext : ext s s' p sv sv';
  st_content : wrote s s' (sv_i sv) (sv_i sv') 0 [];
  st_fsize : sfi_size (sv_i sv') = sfi_size (sv_i sv)
}.

Lemma still_quiet s s' p sv : fok s p sv -> quiet s s' -> still s s' p sv sv.
Proof.
  intros Hf Hq. pose proof Hf as [Hp Hg Hfo]. split; [by eapply quiet_fok| | |done].
  - apply ext_keep; [done|by apply quiet_hdr|by apply quiet_slots| |].
    + by destruct Hq as (d' & -> & _).
    + intros b Hb _ _. by apply quiet_sect.
  - apply wrote_refl. intros x Hx. by eapply quiet_fbyte.
Qed.

Lemma still_trans s s1 s2 p sv sv1 sv2 :
  still s s1 p sv sv1 -> still s1 s2 p sv1 sv2 -> still s s2 p sv sv2.
Proof.
  intros [? ? ? ?] [? ? ? ?]. split; [done|by eapply ext_trans|by eapply wrote_nil_trans|congruence].
Qed.

Lemma good_set_heap s h : good s -> good (set_heap s h).
Proof. by intros []. Qed.

Lemma slots_set_heap s h i : slots (set_heap s h) i = slots s i.
Proof. done. Qed.

(** The vnode [sv'] records the block just allocated. *)
Lemma still_alloc s s1 p sv sv' k b :
  fok s p sv -> allocated s s1 b ->
  sv_v sv' = sv_v sv -> sv_ino sv' = sv_ino sv -> sv_dirty sv' = true ->
  sfi_type (sv_i sv') = sfi_type (sv_i sv) -> sfi_linkcount (sv_i sv') = sfi_linkcount (sv_i sv) ->
  inode_wf (sv_i sv') -> sfi_size (sv_i sv') = sfi_size (sv_i sv) ->
  slots s1 (sv_i sv') = <[k := b]> (slots s (sv_i sv)) -> slots s (sv_i sv) !! k = Some 0 ->
  still s (set_heap s1 (<[p := sv']> (k_heap s1))) p sv sv'.
Proof.
  intros Hf (fm & d' & -> & Hb & Hfree & Hg' & (Hn & Hz & Ho) & Hu & Hnb) Hv Hino Hd Ht Hl Hi' Hsz Hs Hk.
  set (s1 := set_device _ _ _) in *.
  assert (hdr s (set_heap s1 (<[p := sv']> (k_heap s1))) p sv sv') as Hh by (split; auto).
  apply (good_set_heap _ (<[p := sv']> (k_heap s1))) in Hg'.
  assert (forall c, 0 <= c < nb s -> used s c = true -> (c = sfi_indirect (sv_i sv) -> c = 0) ->
    sect s1 c = sect s c) as Hsec.
  { intros c Hc Huc _. apply Ho; [|congruence]. destruct (fok_good _ _ _ Hf). lia. }
  split; [eapply (grow_fok s _ p sv sv' k b)|eapply (grow_ext s _ p sv sv' k b)
    |eapply (grow_content s _ p sv sv' k b)|done]; done.
Qed.

(** ** [sfs_bmap] *)

Context `{!BlockDeviceLaws D}.

Lemma inode_wf_set_direct i k b :
  inode_wf i -> 0 <= b < 4294967296 -> inode_wf (set_direct i (<[k := b]> (sfi_direct i))).
Proof.
  intros [] Hb. split; cbn; try done; [by rewrite length_insert|by apply Forall_insert].
Qed.

Lemma inode_wf_set_indirect i b : inode_wf i -> 0 <= b < 4294967296 -> inode_wf (set_indirect i b).
Proof. intros [] Hb. by split. Qed.

Lemma allocated_bound s s' b : good s -> allocated s s' b -> 0 < b < nb s /\ b < 4194304.
Proof. intros Hg (fm & d' & _ & Hb & _). pose proof (good_nb s Hg). lia. Qed.

(** A direct entry, and a word of the indirect block, as slots. *)
Lemma direct_slot s i k :
  inode_wf i -> 0 <= k < 15 -> getZ (sfi_direct i) k = Done (blk s i k) /\ slot_ix k = Z.to_nat k.
Proof.
  intros Hi Hk. unfold slot_ix. rewrite decide_True by lia. split; [|done].
  pose proof (blk_lookup s i k Hi ltac:(unfold MAXBLOCKS; lia)) as Hl.
  unfold slot_ix in Hl. rewrite decide_True in Hl by lia. unfold slots in Hl.
  rewrite lookup_app_l in Hl by (rewrite (iwf_ndirect i Hi); lia). apply getZ_ok; [lia|done].
Qed.

Lemma indirect_slot s i k :
  inode_wf i -> 15 <= k < MAXBLOCKS ->
  getZ (idwords s (sfi_indirect i)) (k - 15) = Done (blk s i k) /\ slot_ix k = (16 + Z.to_nat (k - 15))%nat.
Proof.
  intros Hi Hk. assert (slot_ix k = (16 + Z.to_nat (k - 15))%nat) as Hix
    by (unfold slot_ix; rewrite decide_False by lia; lia).
  split; [|done]. pose proof (blk_lookup s i k Hi ltac:(lia)) as Hl. rewrite Hix in Hl.
  unfold slots in Hl. rewrite lookup_app_r in Hl by (rewrite (iwf_ndirect i Hi); lia).
  rewrite (iwf_ndirect i Hi) in Hl. apply getZ_ok; [lia|]. exact Hl.
Qed.

Lemma indirect_used s p sv :
  fok s p sv -> sfi_indirect (sv_i sv) ≠ 0 ->
  0 < sfi_indirect (sv_i sv) < nb s /\ used s (sfi_indirect (sv_i sv)) = true.
Proof.
  intros Hf Hi. apply (f_used _ _ (fok_file _ _ _ Hf)); [|done].
  eapply list_elem_of_lookup_2, slots_15, Hf.
Qed.

Lemma bmap_range k :
  15 <= k < MAXBLOCKS ->
  u32 (k - SFS_NDIRECT) / SFS_DBPERIDB = 0 /\ u32 (k - SFS_NDIRECT) mod SFS_DBPERIDB = k - 15.
Proof.
  unfold MAXBLOCKS, SFS_NDIRECT, SFS_DBPERIDB. intros Hk. rewrite u32_small by lia.
  rewrite Z.div_small, Z.mod_small by lia. done.
Qed.

(** Past the last block the file can have. *)
Lemma wp_bmap_range s p sv k doalloc (Q : Z -> sfs_fs D -> Prop) (E : Z -> sfs_fs D -> Prop) :
  k_heap s !! p = Some sv -> MAXBLOCKS <= k < 4294967296 -> E EINVAL s -> wp (sfs_bmap p k doalloc) Q E s.
Proof.
  intros Hp Hk HE. unfold MAXBLOCKS in Hk. unfold sfs_bmap. wp_step. eapply wp_deref; [done|].
  unfold SFS_NDIRECT, SFS_DBPERIDB. cbn zeta. rewrite (u32_small (k - 15)) by lia.
  rewrite (bool_decide_eq_false_2 (k < 15)) by lia.
  rewrite (bool_decide_eq_true_2 (_ > 0)); [by wp_steps|].
  assert (1 <= (k - 15) / 128) by (apply Z.div_le_lower_bound; lia). lia.
Qed.

Lemma wp_bmap_read s p sv k (Q : Z -> sfs_fs D -> Prop) E :
  fok s p sv -> 0 <= k < MAXBLOCKS ->
  (forall s', quiet s s' -> Q (blk s (sv_i sv) k) s') -> wp (sfs_bmap p k false) Q E s.
Proof.
  intros Hf Hk HQ. pose proof Hf as [Hp Hg Hfo]. pose proof (f_inode _ _ Hfo) as Hi.
  unfold sfs_bmap. wp_step. eapply wp_deref; [done|]. cbn zeta.
  destruct (decide (k < 15)).
  - destruct (direct_slot s (sv_i sv) k) as [Hget _]; [done|lia|].
    rewrite (bool_decide_eq_true_2 (k < SFS_NDIRECT)) by (unfold SFS_NDIRECT; lia).
    wp_step. eapply wp_lift; [exact Hget|]. rewrite andb_false_r. wp_steps.
    apply wp_hand_back; [done|by apply blk_used|]. apply HQ, quiet_refl, Hg.
  - rewrite (bool_decide_eq_false_2 (k < SFS_NDIRECT)) by (unfold SFS_NDIRECT; lia).
    destruct (bmap_range k) as [-> ->]; [lia|]. rewrite (bool_decide_eq_false_2 (0 > 0)) by lia.
    destruct (indirect_slot s (sv_i sv) k) as [Hget _]; [done|lia|]. rewrite andb_true_r.
    case_bool_decide as H0; wp_steps.
    + replace 0 with (blk s (sv_i sv) k); [by apply HQ, quiet_refl|].
      apply getZ_Done in Hget as [_ Hget]. unfold idwords in Hget. rewrite decide_True in Hget by done.
      by apply lookup_replicate in Hget as [-> _].
    + destruct (indirect_used s p sv Hf H0). eapply wp_rblock; [done|lia|done|].
      intros s' Hs'. apply quiet_upd in Hs'. wp_steps. unfold bmap_entry. wp_steps.
      unfold idwords in Hget. rewrite decide_False in Hget by done.
      eapply wp_lift; [exact Hget|]. rewrite andb_false_r. wp_steps.
      apply wp_hand_back; [by eapply quiet_good| |by apply HQ].
      intros Hb. destruct (blk_used s (sv_i sv) k) as [? ?]; [done|done|done|].
      by destruct Hs' as (d' & -> & _).
Qed.

Lemma blk_alloc s s' i i' k b :
  inode_wf i -> inode_wf i' -> 0 <= k < MAXBLOCKS ->
  slots s' i' = <[slot_ix k := b]> (slots s i) -> blk s' i' k = b.
Proof.
  intros Hi Hi' Hk Hs. pose proof (blk_lookup s' i' k Hi' Hk) as Hl. rewrite Hs in Hl.
  rewrite list_lookup_insert_eq in Hl by (rewrite length_slots by done; by apply slot_ix_lt).
  congruence.
Qed.

(** Filling entry [k] of the indirect block. *)
Lemma still_entry s s1 s2 p sv k b :
  fok s p sv -> 15 <= k < MAXBLOCKS -> blk s (sv_i sv) k = 0 -> sfi_indirect (sv_i sv) ≠ 0 ->
  allocated s s1 b ->
  dev_upd s1 s2 (sfi_indirect (sv_i sv))
    (enc_words (<[Z.to_nat (k - 15) := b]> (idwords s (sfi_indirect (sv_i sv))))) ->
  still s s2 p sv sv /\ blk s2 (sv_i sv) k = b.
Proof.
  intros Hf Hk H0 Hi0 Ha Hupd. pose proof Hf as [Hp Hg Hfo]. pose proof (f_inode _ _ Hfo) as Hi.
  destruct (indirect_used s p sv Hf Hi0) as [Hir Hiu].
  destruct (allocated_bound s s1 b Hg Ha) as [Hb Hb'].
  destruct Ha as (fm & d' & -> & _ & Hfree & Hg1 & (Hn & Hz & Ho) & Hu & Hnb).
  set (s1 := set_device _ _ _) in *. pose proof (dev_upd_good _ _ _ _ Hg1 Hupd) as Hg2.
  assert (forall c, 0 <= c < nb s -> sect s2 c =
    if decide (c = sfi_indirect (sv_i sv)) then enc_words (<[Z.to_nat (k - 15) := b]> (idwords s (sfi_indirect (sv_i sv))))
    else if decide (c = b) then zeros 512 else sect s c) as Hsec.
  { intros c Hc. rewrite (dev_upd_sect s1 s2 _ _ c Hg1 Hupd) by done. case_decide; [done|].
    case_decide; [by subst|]. apply Ho; [|done]. destruct Hg. lia. }
  assert (sfi_indirect (sv_i sv) ≠ b) by congruence.
  destruct (indirect_slot s (sv_i sv) k Hi Hk) as [_ Hix].
  assert (slots s2 (sv_i sv) = <[slot_ix k := b]> (slots s (sv_i sv))) as Hs.
  { rewrite Hix. unfold MAXBLOCKS in Hk. apply slots_set_idword; [done|lia|]. apply idwords_enc; [done| |by rewrite length_insert, length_idwords|].
    - rewrite Hsec by lia. by rewrite decide_True.
    - apply Forall_insert; [|lia]. unfold idwords. rewrite decide_False by done. apply dec_words_range. }
  assert (hdr s s2 p sv sv) as Hh.
  { destruct Hupd as (d2 & -> & _). split; try done; [by cbn; rewrite insert_id|by left|by right]. }
  assert (slots s (sv_i sv) !! slot_ix k = Some 0) as Hk0 by (rewrite <- H0; apply blk_lookup; [done|lia]).
  assert (sect s2 b = zeros 512) as Hz2.
  { rewrite Hsec by lia. by rewrite decide_False, decide_True. }
  assert (forall c, 0 <= c -> used s2 c = used s c || bool_decide (c = b)) as Hu2
    by (destruct Hupd as (d2 & -> & _); exact Hu).
  assert (forall c, 0 <= c < nb s -> used s c = true -> (c = sfi_indirect (sv_i sv) -> c = 0) ->
    sect s2 c = sect s c) as Hsec2.
  { intros c Hc Huc Hci. rewrite Hsec by done. rewrite !decide_False; [done|congruence|lia]. }
  split; [|by eapply blk_alloc; [..|exact Hs]; [done|done|lia]].
  split; [eapply (grow_fok s _ p sv sv)|eapply (grow_ext s _ p sv sv)
    |eapply (grow_content s _ p sv sv)|done]; done.
Qed.

(** What [sfs_bmap] guarantees when it may allocate: the block is there, and
    the contents of the file are as before. *)
Definition mapped s (p : ptr) sv (k b : Z) s' : Prop :=
  exists sv', still s s' p sv sv' /\ blk s' (sv_i sv') k = b /\ b ≠ 0.

(** No block is free. *)
Definition full s : Prop := forall b, 0 <= b < nb s -> used s b = true.

Definition nospace s (p : ptr) sv (e : Z) s' : Prop :=
  e = ENOSPC /\ full s' /\ exists sv', still s s' p sv sv'.

Lemma mapped_hand_back s p sv k b s' :
  0 <= k < MAXBLOCKS -> mapped s p sv k b s' -> wp (hand_back b) (mapped s p sv k) (nospace s p sv) s'.
Proof.
  intros Hk Hm. pose proof Hm as (sv' & [Hf' _ _ _] & Hb & Hb0). destruct Hf' as [_ Hg' Hfo'].
  apply wp_hand_back; [done| |done]. intros _. subst b. by apply blk_used.
Qed.

Lemma wp_bmap_entry s s0 p sv sv0 k :
  still s0 s p sv0 sv -> 15 <= k < MAXBLOCKS -> sfi_indirect (sv_i sv) ≠ 0 ->
  wp (bmap_entry (sfi_indirect (sv_i sv)) (idwords s (sfi_indirect (sv_i sv))) (k - 15) true)
    (mapped s0 p sv0 k) (nospace s0 p sv0) s.
Proof.
  intros Hst Hk Hi0. pose proof (st_fok _ _ _ _ _ Hst) as Hf. pose proof Hf as [Hp Hg Hfo].
  pose proof (f_inode _ _ Hfo) as Hi. destruct (indirect_slot s (sv_i sv) k Hi Hk) as [Hget _].
  unfold bmap_entry. wp_step. eapply wp_lift; [exact Hget|]. rewrite andb_true_r.
  case_bool_decide as Hb; wp_steps.
  - apply wp_balloc; [done| |by intros Hfull; split; [done|eauto]]. intros b s1 Ha. wp_steps.
    eapply wp_lift; [apply setZ_ok; rewrite length_idwords; unfold MAXBLOCKS in Hk; lia|].
    destruct (indirect_used s p sv Hf Hi0). destruct (allocated_bound s s1 b Hg Ha) as [Hbr _].
    assert (good s1 /\ nb s1 = nb s) as [Hg1 Hn1]
      by (destruct Ha as (? & ? & -> & _ & _ & ? & _); done).
    wp_steps. eapply wp_wblock; [done|lia|by rewrite length_enc_words, length_insert, length_idwords|].
    intros s2 Hupd. destruct (still_entry s s1 s2 p sv k b) as [Hst2 Hblk]; [done..|].
    wp_steps. apply mapped_hand_back; [lia|]. exists sv.
    split; [by eapply still_trans|split; [done|lia]].
  - apply mapped_hand_back; [lia|]. by exists sv.
Qed.

Lemma direct_alloc s s1 p sv k b :
  fok s p sv -> 0 <= k < 15 -> blk s (sv_i sv) k = 0 -> allocated s s1 b ->
  mapped s p sv k b (set_heap s1 (<[p := set_dirty (set_i sv (set_direct (sv_i sv)
    (<[Z.to_nat k := b]> (sfi_direct (sv_i sv))))) true]> (k_heap s1))).
Proof.
  intros Hf Hk H0 Ha. pose proof Hf as [Hp Hg Hfo]. pose proof (f_inode _ _ Hfo) as Hi.
  destruct (allocated_bound s s1 b Hg Ha) as [Hb Hb'].
  destruct (direct_slot s (sv_i sv) k Hi Hk) as [_ Hix].
  assert (0 <= k < MAXBLOCKS) as Hk' by (unfold MAXBLOCKS; lia).
  pose proof (inode_wf_set_direct (sv_i sv) (Z.to_nat k) b Hi ltac:(lia)) as Hi'.
  assert (slots s1 (set_direct (sv_i sv) (<[Z.to_nat k := b]> (sfi_direct (sv_i sv))))
    = <[slot_ix k := b]> (slots s (sv_i sv))) as Hs.
  { rewrite Hix. apply slots_set_direct; [done|lia|]. unfold idwords. case_decide as Hind; [done|].
    destruct (indirect_used s p sv Hf Hind) as [Hir Hiu].
    destruct Ha as (fm & d' & -> & _ & Hfree & _ & (_ & _ & Ho) & _). f_equal.
    apply Ho; [destruct Hg; lia|congruence]. }
  eexists. split; [eapply (still_alloc s s1 p sv _ (slot_ix k) b); try done|].
  - by rewrite <- H0; apply blk_lookup.
  - split; [|lia]. by eapply blk_alloc; [exact Hi|..].
Qed.

Lemma indirect_alloc s s1 p sv b :
  fok s p sv -> sfi_indirect (sv_i sv) = 0 -> allocated s s1 b ->
  let sv' := set_dirty (set_i sv (set_indirect (sv_i sv) b)) true in
  still s (set_heap s1 (<[p := sv']> (k_heap s1))) p sv sv' /\ idwords s1 b = replicate 128 0.
Proof.
  intros Hf H0 Ha sv'. pose proof Hf as [Hp Hg Hfo]. pose proof (f_inode _ _ Hfo) as Hi.
  destruct (allocated_bound s s1 b Hg Ha) as [Hb Hb'].
  assert (idwords s1 b = replicate 128 0) as Hw.
  { apply idwords_zeros. destruct Ha as (fm & d' & -> & _ & _ & _ & (_ & Hz & _) & _). done. }
  split; [|done]. eapply (still_alloc s s1 p sv _ 15 b); try done.
  - apply inode_wf_set_indirect; [done|lia].
  - by apply slots_set_indirect.
  - rewrite slots_15 by done. by f_equal.
Qed.

Lemma wp_bmap_alloc s p sv k :
  fok s p sv -> 0 <= k < MAXBLOCKS -> wp (sfs_bmap p k true) (mapped s p sv k) (nospace s p sv) s.
Proof.
  intros Hf Hk. pose proof Hf as [Hp Hg Hfo]. pose proof (f_inode _ _ Hfo) as Hi.
  assert (still s s p sv sv) as Hst by (apply still_quiet; [done|by apply quiet_refl]).
  unfold sfs_bmap. wp_step. eapply wp_deref; [done|]. cbn zeta.
  destruct (decide (k < 15)).
  - destruct (direct_slot s (sv_i sv) k) as [Hget _]; [done|lia|].
    rewrite (bool_decide_eq_true_2 (k < SFS_NDIRECT)) by (unfold SFS_NDIRECT; lia).
    wp_step. eapply wp_lift; [exact Hget|]. rewrite andb_true_r. case_bool_decide as H0; wp_steps.
    + apply wp_balloc; [done| |by intros Hfull; split; [done|eauto]]. intros b s1 Ha. wp_steps.
      eapply wp_lift; [apply setZ_ok; rewrite (iwf_ndirect _ Hi); lia|]. wp_steps.
      apply mapped_hand_back; [done|]. apply direct_alloc; [done|lia|done|done].
    + apply mapped_hand_back; [done|]. by exists sv.
  - rewrite (bool_decide_eq_false_2 (k < SFS_NDIRECT)) by (unfold SFS_NDIRECT; lia).
    destruct (bmap_range k) as [-> ->]; [lia|]. rewrite (bool_decide_eq_false_2 (0 > 0)) by lia.
    rewrite andb_false_r. case_bool_decide as H0; wp_steps.
    + apply wp_balloc; [done| |by intros Hfull; split; [done|eauto]]. intros b s1 Ha. wp_steps.
      destruct (indirect_alloc s s1 p sv b Hf H0 Ha) as [Hst1 Hw].
      destruct (allocated_bound s s1 b Hg Ha) as [Hb _].
      rewrite <- Hw. apply (wp_bmap_entry _ s p _ sv k Hst1); [lia|cbn; lia].
    + destruct (indirect_used s p sv Hf H0). eapply wp_rblock; [done|lia|done|].
      intros s' Hs'. apply quiet_upd in Hs'. wp_steps.
      pose proof (wp_bmap_entry s' s p sv sv k (still_quiet s s' p sv Hf Hs') ltac:(lia) H0) as Hw.
      unfold idwords in Hw. rewrite decide_False in Hw by done.
      rewrite (quiet_sect s s') in Hw by (done || lia). exact Hw.
Qed.
End file.

End SfsFile.
