(* ===== verification/SfsExample.v ===== *)
(** * A small SFS volume

    Sixteen blocks on a simulated LAMEbus disk: superblock, root directory with
    two entries, free map, a file of 700 bytes, and a file with a hole whose
    blocks are in its indirect block, with the three vnodes loaded.
    The theorems about SFS are applied to this state to show that their
    hypotheses can be met. *)

From S2P Require Import Prelude KArray KBitmap UserMem Uio BlockDev Lhd SfsFormat Sfs SfsBlocks SfsFile.

Module SfsExample.
Import UserMem Uio SfsFormat Sfs SfsBlocks SfsFile Lhd.

Definition ex_super : SfsFormat.sfs_super := mkSuper SFS_MAGIC 16 (zeros 32) (replicate 118 0).
Definition ex_root_inode : sfs_inode := mkInode 128 SFS_TYPE_DIR 1 (4 :: replicate 14 0) 0 (replicate 110 0).
Definition ex_file_inode : sfs_inode :=
  mkInode 700 SFS_TYPE_FILE 1 (5 :: replicate 14 0) 0 (replicate 110 0).
Definition ex_big_inode : sfs_inode :=
  mkInode 8200 SFS_TYPE_FILE 1 (replicate 15 0) 7 (replicate 110 0).
Definition ex_ids : list Z := 8 :: 9 :: replicate 126 0.
(** The names "hi" and "big". *)
Definition ex_name : list Z := [104; 105].
Definition ex_bigname : list Z := [98; 105; 103].
Definition ex_entry : sfs_dir := mkDir 3 (name_field ex_name).
Definition ex_bigentry : sfs_dir := mkDir 6 (name_field ex_bigname).
Definition ex_map : list Z := 255 :: 3 :: replicate 510 255.

Definition ex_sectors : list (list Z) :=
  [super_bytes ex_super; inode_bytes ex_root_inode; ex_map; inode_bytes ex_file_inode;
   dir_bytes ex_entry ++ dir_bytes ex_bigentry ++ zeros 384; replicate 512 7;
   inode_bytes ex_big_inode; enc_words ex_ids; replicate 512 8; replicate 512 9]
  ++ replicate 6 (zeros 512).

Definition ex_dev (faults : list bool) : lhd_softc simdisk :=
  mkLhd (mkSim ex_sectors faults) LHD_IDLE (zeros 512) 0 1 0 16.

Definition ex_root : ptr := 1000.
Definition ex_file : ptr := 1001.
Definition ex_big : ptr := 1002.
Definition ex_root_sv : sfs_vnode := mkSv (mkVnode 1 0 sfs_dirops) ex_root_inode 1 false.
Definition ex_file_sv : sfs_vnode := mkSv (mkVnode 1 0 sfs_fileops) ex_file_inode 3 false.
Definition ex_big_sv : sfs_vnode := mkSv (mkVnode 1 0 sfs_fileops) ex_big_inode 6 false.

Definition ex_fs_on (d : lhd_softc simdisk) : sfs_fs (lhd_softc simdisk) :=
  mkSfs ex_super false d
    (KArray.mkArray 3 4 (Some [Some ex_root; Some ex_file; Some ex_big; None])) (KBitmap.mkBitmap 4096 ex_map) false
    (<[ex_root := ex_root_sv]> (<[ex_file := ex_file_sv]> (<[ex_big := ex_big_sv]> ∅))) ex_ctx [].
Definition ex_fs : sfs_fs (lhd_softc simdisk) := ex_fs_on (ex_dev []).

Lemma ex_map_bit b : 16 <= b < 4096 -> KBitmap.bit (KBitmap.mkBitmap 4096 ex_map) b = true.
Proof.
  intros Hb. unfold KBitmap.bit, KBitmap.BITS_PER_WORD. cbn [KBitmap.v].
  assert (2 <= b / 8 < 512) by (split; [apply Z.div_le_lower_bound|apply Z.div_lt_upper_bound]; lia).
  replace (Z.to_nat (b / 8)) with (S (S (Z.to_nat (b / 8 - 2)))) by lia.
  unfold ex_map. cbn [nth]. rewrite nth_lookup, lookup_replicate_2 by lia. cbn [default].
  apply KBitmap.allbits_testbit, Z.mod_pos_bound. lia.
Qed.

Lemma ex_map_wf : KBitmap.wf (KBitmap.mkBitmap 4096 ex_map).
Proof.
  split; cbn [KBitmap.nbits KBitmap.v]; [lia|done| |intros i Hi; change ((4096 + 7) / 8) with 512 in Hi; lia].
  unfold ex_map. constructor; [lia|]. constructor; [lia|]. apply Forall_replicate. lia.
Qed.

Lemma ex_sectors_len : Forall (fun d => length d = 512%nat) ex_sectors.
Proof. unfold ex_sectors. apply Forall_app_2; [by repeat constructor|by apply Forall_replicate]. Qed.

Lemma ex_dev_ready : ready (ex_dev []).
Proof. split; try done. split; [done|]. split; [apply ex_sectors_len|done]. Qed.

Lemma ex_good : good ex_fs.
Proof.
  split; [apply ex_dev_ready|done|apply ex_map_wf|done| |done].
  intros b Hb. by apply ex_map_bit.
Qed.

(** A file with one block. *)
Lemma one_block_inode sz ty b :
  0 <= sz < 4294967296 -> 0 <= ty < 65536 -> 0 <= b < 4294967296 ->
  inode_wf (mkInode sz ty 1 (b :: replicate 14 0) 0 (replicate 110 0)).
Proof.
  intros. split; cbn [sfi_size sfi_type sfi_linkcount sfi_direct sfi_indirect sfi_waste]; try done; try lia.
  - constructor; [done|]. apply Forall_replicate. lia.
  - apply Forall_replicate. lia.
Qed.

Lemma one_block_slots {D} `{BlockDevice D} (s : sfs_fs D) sz ty b :
  slots s (mkInode sz ty 1 (b :: replicate 14 0) 0 (replicate 110 0)) = b :: replicate 143 0.
Proof. reflexivity. Qed.

Lemma one_block_ok sz ty b :
  0 <= sz <= MAXFILE -> 0 <= ty < 65536 -> 0 < b < 6 ->
  file_ok ex_fs (mkInode sz ty 1 (b :: replicate 14 0) 0 (replicate 110 0)).
Proof.
  intros Hsz Hty Hb. unfold MAXFILE in *. split; [apply one_block_inode; lia| | |cbn; unfold MAXFILE; lia].
  - intros j k c. rewrite one_block_slots. destruct j as [|j], k as [|k]; [done|..]; cbn [lookup list_lookup].
    + intros _ Hk%lookup_replicate_1 Hc. by destruct Hk.
    + intros Hj%lookup_replicate_1 _ Hc. by destruct Hj.
    + intros Hj%lookup_replicate_1 _ Hc. by destruct Hj.
  - intros c. rewrite one_block_slots. intros Hin Hc. apply elem_of_cons in Hin as [->|Hin].
    + split; [unfold nb; cbn; lia|].
      assert (b = 1 \/ b = 2 \/ b = 3 \/ b = 4 \/ b = 5) as Hcases by lia. by destruct_or! Hcases; subst.
    + by apply elem_of_replicate in Hin as [-> _].
Qed.

Lemma ex_file_fok : fok ex_fs ex_file ex_file_sv.
Proof. split; [done|apply ex_good|apply one_block_ok; unfold MAXFILE, SFS_TYPE_FILE; lia]. Qed.

Lemma ex_root_fok : fok ex_fs ex_root ex_root_sv.
Proof. split; [done|apply ex_good|apply one_block_ok; unfold MAXFILE, SFS_TYPE_DIR; lia]. Qed.

Lemma ex_big_slots : slots ex_fs ex_big_inode = replicate 15 0 ++ 7 :: 8 :: 9 :: replicate 126 0.
Proof. vm_compute. reflexivity. Qed.

Lemma ex_big_slot j b :
  slots ex_fs ex_big_inode !! j = Some b -> b ≠ 0 -> 7 <= b <= 9 /\ j = Z.to_nat (b + 8).
Proof.
  rewrite ex_big_slots. intros Hj Hb. apply lookup_app_Some in Hj as [Hj|[Hl Hj]].
  { by apply lookup_replicate in Hj as [-> _]. }
  rewrite length_replicate in *. destruct (j - 15)%nat as [|[|[|m]]] eqn:Hm; cbn [lookup list_lookup] in Hj;
    [injection Hj as <-; lia..|]. by apply lookup_replicate in Hj as [-> _].
Qed.

Lemma ex_big_ok : file_ok ex_fs ex_big_inode.
Proof.
  split; [|intros j k b Hj Hk Hb| |cbn; unfold MAXFILE; lia].
  - split; cbn [sfi_size sfi_type sfi_linkcount sfi_direct sfi_indirect sfi_waste ex_big_inode]; try done;
      apply Forall_replicate; lia.
  - destruct (ex_big_slot j b Hj Hb), (ex_big_slot k b Hk Hb). lia.
  - intros b [j Hj]%list_elem_of_lookup_1 Hb. destruct (ex_big_slot j b Hj Hb) as [Hr _].
    split; [unfold nb; cbn; lia|].
    assert (b = 7 \/ b = 8 \/ b = 9) as Hcases by lia. by destruct_or! Hcases; subst.
Qed.

Lemma ex_big_fok : fok ex_fs ex_big ex_big_sv.
Proof. split; [done|apply ex_good|apply ex_big_ok]. Qed.

End SfsExample.
