(* ===== verification/SfsIo.v ===== *)
(** * SFS: [sfs_io] reads and writes the file's bytes

    The proofs about [sfs_partialio], [sfs_blockio] and [sfs_io] on kernel
    transfers: a read returns the bytes of the file up to its end and changes
    nothing, a write replaces exactly the bytes asked for, or the first part of
    them when the volume or the block list is full. *)

From S2P Require Import Prelude KArray KBitmap UserMem Uio BlockDev Lhd.
From S2P Require Import SfsFormat Sfs SfsBlocks SfsFile SfsExample.

Module SfsIo.
Import UserMem Uio Lhd SfsFormat Sfs SfsBlocks SfsFile SfsExample.

Section io.
Context {D : Type} `{BlockDevice D} `{!BlockDeviceLaws D}.
Implicit Types (s : sfs_fs D) (i : sfs_inode) (sv : sfs_vnode) (u : uio).

(** The state after [data] went to offset [off] of the file. *)
Record io_done s s' (p : ptr) sv sv' (off : Z) (data : list Z) : Prop := {
  id_fok : fok s' p sv';
  id_ext : ext s s' p sv sv';
  id_wrote : wrote s s' (sv_i sv) (sv_i sv') off data;
  id_size : sfi_size (sv_i sv') = sfi_size (sv_i sv);
  id_range : (0 < length data)%nat -> off + Z.of_nat (length data) <= MAXFILE
}.

(** Bytes [off], ..., [off + n - 1] of the file. *)
Definition fbytes s i (off n : Z) : list Z := (fun j => fbyte s i (off + j)) <$> seqZ 0 n.

Lemma length_fbytes s i off n : 0 <= n -> Z.of_nat (length (fbytes s i off n)) = n.
Proof. intros. unfold fbytes. rewrite length_fmap, length_seqZ. lia. Qed.

Lemma nth_fbytes s i off n j :
  0 <= j < n -> nth (Z.to_nat j) (fbytes s i off n) 0 = fbyte s i (off + j).
Proof.
  intros Hj. unfold fbytes. rewrite nth_lookup, list_lookup_fmap, lookup_seqZ_lt by lia. cbn.
  f_equal. lia.
Qed.

Lemma fbytes_app s i off a b :
  0 <= a -> 0 <= b -> fbytes s i off (a + b) = fbytes s i off a ++ fbytes s i (off + a) b.
Proof.
  intros. unfold fbytes. rewrite seqZ_app, fmap_app by lia. f_equal.
  rewrite <- (Z.add_0_r (0 + a)), <- fmap_add_seqZ, <- list_fmap_compose.
  apply list_fmap_ext. intros j x _. cbn. f_equal. lia.
Qed.

Lemma fbytes_ext s s' i off n :
  0 <= off -> (forall x, off <= x < off + n -> fbyte s' i x = fbyte s i x) ->
  fbytes s' i off n = fbytes s i off n.
Proof.
  intros Ho Hx. unfold fbytes. apply list_fmap_ext. intros j x Hj.
  apply lookup_seqZ in Hj as [-> ?]. apply Hx. lia.
Qed.

(** Part of a block of the file. *)
Lemma slice_block s i k skip len :
  good s -> file_ok s i -> 0 <= k < MAXBLOCKS -> 0 <= skip -> 0 <= len -> skip + len <= 512 ->
  slice (if decide (blk s i k = 0) then zeros 512 else sect s (blk s i k)) skip len
  = fbytes s i (k * 512 + skip) len.
Proof.
  intros Hg Hf Hk Hs Hl Hsl. set (kb := if decide _ then _ else _).
  assert (length kb = 512%nat) as Hkb.
  { subst kb. case_decide as H0; [done|]. destruct (blk_used s i k Hf Hk H0). apply sect_len; [done|lia]. }
  pose proof (length_slice kb skip len). pose proof (length_fbytes s i (k * 512 + skip) len Hl).
  apply (list_nth_eq _ _ 0); [lia|]. intros j Hj. rewrite nth_slice, nth_fbytes by lia.
  unfold fbyte. rewrite <- Z.add_assoc, (Z.add_comm (k * 512)), Z.div_add, Z.mod_add by lia.
  rewrite Z.div_small, Z.mod_small, Z.add_0_l by lia. subst kb.
  case_decide; [apply nth_zeros|done].
Qed.

(** ** Overwriting a block of the file *)

Lemma write_block s s' p sv k data :
  fok s p sv -> 0 <= k < MAXBLOCKS -> blk s (sv_i sv) k ≠ 0 ->
  dev_upd s s' (blk s (sv_i sv) k) data ->
  fok s' p sv /\ ext s s' p sv sv /\
  forall x, 0 <= x < MAXFILE -> fbyte s' (sv_i sv) x =
    if decide (x / 512 = k) then nth (Z.to_nat (x mod 512)) data 0 else fbyte s (sv_i sv) x.
Proof.
  intros Hf Hk Hb Hupd. pose proof Hf as [Hp Hg Hfo]. pose proof (f_inode _ _ Hfo) as Hi.
  pose proof (dev_upd_good _ _ _ _ Hg Hupd) as Hg'.
  pose proof (fun c => dev_upd_sect s s' _ _ c Hg Hupd) as Hsec.
  assert (slots s' (sv_i sv) = slots s (sv_i sv)) as Hs.
  { apply slots_same. unfold idwords. case_decide as Hi0; [done|].
    destruct (indirect_used s p sv Hf Hi0). rewrite Hsec by lia.
    rewrite decide_False; [done|]. intros Heq. by destruct (blk_not_indirect s (sv_i sv) k Hfo Hk). }
  assert (forall c, used s' c = used s c) as Hu by (by destruct Hupd as (? & -> & _)).
  assert (hdr s s' p sv sv) as Hh.
  { destruct Hupd as (? & -> & _). split; try done; [by cbn; rewrite insert_id|by right|by right]. }
  split; [|split].
  - split; [by rewrite (h_heap _ _ _ _ _ Hh), lookup_insert_eq|done|].
    destruct Hfo. split; [done|by rewrite Hs| |done]. intros c. rewrite Hs, Hu.
    rewrite (hdr_nb _ _ _ _ _ Hh). auto.
  - apply ext_keep; [done|done|done|done|]. intros c Hc _ Hn. rewrite Hsec by done.
    rewrite decide_False; [done|]. intros ->. apply Hb, Hn.
    by eapply list_elem_of_lookup_2, blk_lookup.
  - intros x Hx%file_block. unfold fbyte, blk. rewrite Hs. fold (blk s (sv_i sv) (x / 512)).
    destruct (decide (x / 512 = k)) as [<-|Hk'].
    + rewrite decide_False by done. destruct (blk_used s (sv_i sv) (x / 512)); [done..|].
      rewrite Hsec by lia. by rewrite decide_True.
    + case_decide as H0; [done|]. destruct (blk_used s (sv_i sv) (x / 512)); [done..|].
      rewrite Hsec by lia. rewrite decide_False; [done|]. intros Heq. apply Hk'.
      apply slot_ix_inj; [lia|lia|]. eapply (f_inj _ _ Hfo); [by apply blk_lookup| |exact H0].
      rewrite Heq. by apply blk_lookup.
Qed.

(** Part of a block replaced, the block having been [kb]. *)
Lemma write_part s s1 s2 p sv sv1 k skip d kb :
  still s s1 p sv sv1 -> 0 <= k < MAXBLOCKS -> blk s1 (sv_i sv1) k ≠ 0 ->
  0 <= skip -> skip + Z.of_nat (length d) <= 512 ->
  kb = sect s1 (blk s1 (sv_i sv1) k) ->
  dev_upd s1 s2 (blk s1 (sv_i sv1) k) (splice kb skip d) ->
  io_done s s2 p sv sv1 (k * 512 + skip) d.
Proof.
  intros Hst Hk Hb Hs Hd Hkb Hupd. pose proof Hst as [Hf1 He1 Hc1 Hz1].
  destruct (write_block s1 s2 p sv1 k _ Hf1 Hk Hb Hupd) as (Hf2 & He2 & Hw).
  split; [done|by eapply ext_trans| |done|unfold MAXFILE, MAXBLOCKS in *; lia].
  eapply wrote_nil_trans; [exact Hc1|]. intros x Hx. rewrite Hw by done.
  destruct (blk_used s1 (sv_i sv1) k) as [Hr _]; [by apply Hf1|done|done|].
  assert (length kb = 512%nat) as Hl by (subst kb; apply sect_len; [apply Hf1|lia]).
  pose proof (Z.div_mod x 512 ltac:(lia)). pose proof (Z.mod_pos_bound x 512 ltac:(lia)).
  case_decide as Hxk; [|by rewrite decide_False by lia].
  rewrite nth_splice by lia. case_decide.
  - rewrite decide_True by lia. f_equal. lia.
  - rewrite decide_False by lia. unfold fbyte. subst k. rewrite decide_False by done. by subst kb.
Qed.

(** ** Sequences of transfers *)

Definition wpost s (p : ptr) sv u (n : Z) (_ : unit) (su : sfs_fs D * uio) : Prop :=
  exists sv', io_done s (fst su) p sv sv' (uio_offset u) (slice (uio_kdata u) (iov_base u) n) /\
    snd su = moved u n.

(** A write that stopped after [m] of [n] bytes. *)
Definition wfail s (p : ptr) sv u (n : Z) (e : Z) (su : sfs_fs D * uio) : Prop :=
  exists sv' m, 0 <= m < n /\
    io_done s (fst su) p sv sv' (uio_offset u) (slice (uio_kdata u) (iov_base u) m) /\
    snd su = moved u m /\ (m = 0 \/ (uio_offset u + m) mod 512 = 0) /\
    (e = ENOSPC /\ uio_offset u + m < MAXFILE /\ full (fst su) \/
     e = EINVAL /\ MAXFILE <= uio_offset u + m).

Definition rpost s i u (n : Z) (_ : unit) (su : sfs_fs D * uio) : Prop :=
  quiet s (fst su) /\
  snd su = moved (set_kdata u (splice (uio_kdata u) (iov_base u) (fbytes s i (uio_offset u) n))) n.

Lemma still_done s s' p sv sv' off u :
  still s s' p sv sv' -> io_done s s' p sv sv' off (slice (uio_kdata u) (iov_base u) 0).
Proof.
  intros [? ? Hc ?]. unfold slice. cbn [Z.to_nat]. rewrite take_0.
  split; [done|done| |done|cbn; lia]. intros x Hx. rewrite Hc by done. cbn. by rewrite !decide_False by lia.
Qed.

Lemma io_done_app s s1 s2 p sv sv1 sv2 off d1 d2 :
  io_done s s1 p sv sv1 off d1 -> io_done s1 s2 p sv1 sv2 (off + Z.of_nat (length d1)) d2 ->
  io_done s s2 p sv sv2 off (d1 ++ d2).
Proof.
  intros [] []. split; [done|by eapply ext_trans|by eapply wrote_app|congruence|].
  rewrite length_app. lia.
Qed.

Lemma io_done_seq s s1 s2 p sv sv1 sv2 u n1 n2 :
  kwf u -> 0 <= n1 -> 0 <= n2 -> n1 + n2 <= uio_resid u ->
  io_done s s1 p sv sv1 (uio_offset u) (slice (uio_kdata u) (iov_base u) n1) ->
  io_done s1 s2 p sv1 sv2 (uio_offset (moved u n1)) (slice (uio_kdata u) (iov_base u + n1) n2) ->
  io_done s s2 p sv sv2 (uio_offset u) (slice (uio_kdata u) (iov_base u) (n1 + n2)).
Proof.
  intros [] H1 H2 Hn Hd1 Hd2. rewrite <- slice_app by lia. eapply io_done_app; [done|].
  by rewrite length_slice by lia.
Qed.

Lemma wpost_seq s s1 p sv sv1 u n1 n2 r su :
  kwf u -> 0 <= n1 -> 0 <= n2 -> n1 + n2 <= uio_resid u ->
  io_done s s1 p sv sv1 (uio_offset u) (slice (uio_kdata u) (iov_base u) n1) ->
  wpost s1 p sv1 (moved u n1) n2 r su -> wpost s p sv u (n1 + n2) r su.
Proof.
  intros Hwf H1 H2 Hn Hd1 (sv2 & Hd2 & Hu). exists sv2. split; [by eapply io_done_seq|].
  by rewrite Hu, moved_moved.
Qed.

Lemma wfail_seq s s1 p sv sv1 u n1 n2 e su :
  kwf u -> 0 <= n1 -> 0 <= n2 -> n1 + n2 <= uio_resid u ->
  (0 < n2 -> (uio_offset u + n1) mod 512 = 0) ->
  io_done s s1 p sv sv1 (uio_offset u) (slice (uio_kdata u) (iov_base u) n1) ->
  wfail s1 p sv1 (moved u n1) n2 e su -> wfail s p sv u (n1 + n2) e su.
Proof.
  intros Hwf H1 H2 Hn Hal Hd1 (sv2 & m & Hm & Hd2 & Hu & Hb & He). exists sv2, (n1 + m).
  split; [lia|]. split; [eapply io_done_seq; eauto; lia|]. split; [by rewrite Hu, moved_moved|].
  split.
  { right. rewrite Z.add_assoc. destruct Hb as [->|Hb]; [rewrite Z.add_0_r; apply Hal; lia|done]. }
  cbn in He. destruct He as [(? & ? & ?)|[? ?]]; [left|right]; repeat split; (done || lia).
Qed.

Lemma wfail_more s p sv u n n' e su : n <= n' -> wfail s p sv u n e su -> wfail s p sv u n' e su.
Proof. intros Hn (sv' & m & Hm & Hrest). exists sv', m. split; [lia|done]. Qed.

Lemma rpost_seq s s1 p sv u n1 n2 r su :
  fok s p sv -> kwf u -> 0 <= n1 -> 0 <= n2 -> n1 + n2 <= uio_resid u ->
  uio_offset u + n1 + n2 <= MAXFILE -> quiet s s1 ->
  rpost s1 (sv_i sv)
    (moved (set_kdata u (splice (uio_kdata u) (iov_base u) (fbytes s (sv_i sv) (uio_offset u) n1))) n1)
    n2 r su ->
  rpost s (sv_i sv) u (n1 + n2) r su.
Proof.
  intros Hf Hwf H1 H2 Hn Hmax Hq [Hq2 Hu]. split; [by eapply quiet_trans|]. rewrite Hu.
  cbn [uio_kdata iov_base uio_offset moved set_kdata].
  rewrite (fbytes_ext s s1); [|destruct Hwf; lia|intros x Hx; destruct Hwf; eapply quiet_fbyte; eauto; lia].
  pose proof (length_fbytes s (sv_i sv) (uio_offset u) n1 H1) as Hl.
  pose proof (length_fbytes s (sv_i sv) (uio_offset u + n1) n2 H2) as Hl2.
  pose proof (splice_app (uio_kdata u) (iov_base u) (fbytes s (sv_i sv) (uio_offset u) n1)
    (fbytes s (sv_i sv) (uio_offset u + n1) n2)) as Hsp.
  rewrite Hl, Hl2 in Hsp. destruct Hwf. rewrite Hsp by lia.
  rewrite <- fbytes_app by lia. unfold moved, set_kdata. cbn. f_equal; lia.
Qed.

(** ** One partial block *)

Lemma set_ctx_id s : set_ctx s (k_ctx s) = s.
Proof. by destruct s. Qed.

Lemma wp_uiomove_read s u kb off n (Q : list Z -> sfs_fs D * uio -> Prop) E :
  kwf u -> uio_rw u = UIO_READ -> 0 <= n <= uio_resid u -> 0 <= off -> off + n <= Z.of_nat (length kb) ->
  Q kb (s, moved (set_kdata u (splice (uio_kdata u) (iov_base u) (slice kb off n))) n) ->
  wp (io_uiomove kb off n) Q E (s, u).
Proof.
  intros Hwf Hrw Hn Ho Hkb HQ. unfold wp, io_uiomove. rewrite uiomove_kernel_read by done.
  cbn. by rewrite set_ctx_id.
Qed.

Lemma wp_uiomove_write s u kb off n (Q : list Z -> sfs_fs D * uio -> Prop) E :
  kwf u -> uio_rw u = UIO_WRITE -> 0 <= n <= uio_resid u -> 0 <= off -> off + n <= Z.of_nat (length kb) ->
  Q (splice kb off (slice (uio_kdata u) (iov_base u) n)) (s, moved u n) ->
  wp (io_uiomove kb off n) Q E (s, u).
Proof.
  intros Hwf Hrw Hn Ho Hkb HQ. unfold wp, io_uiomove. rewrite uiomove_kernel_write by done.
  cbn. by rewrite set_ctx_id.
Qed.

Lemma fileblock_ok off :
  0 <= off <= INT_MAX ->
  u32 (Z.quot off SFS_BLOCKSIZE) = off / 512 /\ 0 <= off / 512 < 4294967296 /\
  off = off / 512 * 512 + off mod 512 /\ 0 <= off mod 512 < 512.
Proof.
  unfold INT_MAX, SFS_BLOCKSIZE. intros Ho. rewrite Z.quot_div_nonneg by lia.
  pose proof (Z.div_mod off 512 ltac:(lia)). pose proof (Z.mod_pos_bound off 512 ltac:(lia)).
  rewrite u32_small; [|split; [apply Z.div_pos; lia|apply Z.div_lt_upper_bound; lia]].
  split; [done|]. split; [|lia]. split; [apply Z.div_pos; lia|apply Z.div_lt_upper_bound; lia].
Qed.

Lemma kwf_offset u : kwf u -> 0 <= uio_offset u <= INT_MAX.
Proof. intros []. lia. Qed.

(** The error postcondition of a write whose block could not be mapped. *)
Lemma nospace_wfail s p sv u n e s' :
  0 < n -> uio_offset u < MAXFILE -> nospace s p sv e s' -> wfail s p sv u n e (s', u).
Proof.
  intros Hn Ho (-> & Hfull & sv' & Hst). exists sv', 0. split; [lia|]. split; [by apply still_done|].
  split; [|split; [by left|left; split; [done|]; split; [lia|done]]]. cbn. rewrite <- (moved_0 u) at 1. by destruct u.
Qed.

Lemma range_wfail s p sv u n :
  fok s p sv -> 0 < n -> MAXFILE <= uio_offset u -> wfail s p sv u n EINVAL (s, u).
Proof.
  intros Hf Hn Ho. exists sv, 0. split; [lia|].
  split; [apply still_done, still_quiet; [done|apply quiet_refl, Hf]|].
  split; [|split; [by left|right; split; [done|lia]]]. cbn. rewrite <- (moved_0 u) at 1. by destruct u.
Qed.

Lemma wp_bmap_write s p sv u n :
  fok s p sv -> kwf u -> 0 < n ->
  wp (on_fs (sfs_bmap p (u32 (Z.quot (uio_offset u) SFS_BLOCKSIZE)) true))
    (fun b su => snd su = u /\ 0 <= uio_offset u / 512 < MAXBLOCKS /\
       mapped s p sv (uio_offset u / 512) b (fst su))
    (wfail s p sv u n) (s, u).
Proof.
  intros Hf Hwf Hn. destruct (fileblock_ok (uio_offset u) (kwf_offset u Hwf)) as (-> & Hr & Ho & Hm).
  apply wp_on_fs. destruct (decide (uio_offset u / 512 < MAXBLOCKS)).
  - eapply wp_mono; [apply wp_bmap_alloc; [done|lia]| |].
    + intros b s' Hs'. split; [done|]. split; [lia|done].
    + intros e s' He. apply nospace_wfail; [done| |done]. unfold MAXFILE, MAXBLOCKS in *. lia.
  - eapply wp_bmap_range; [apply Hf|lia|]. apply range_wfail; [done|done|].
    unfold MAXFILE, MAXBLOCKS in *. lia.
Qed.

Lemma wp_partialio_write s p sv u skip len :
  fok s p sv -> kwf u -> uio_rw u = UIO_WRITE -> skip = uio_offset u mod 512 ->
  0 < len <= uio_resid u -> skip + len <= 512 ->
  wp (sfs_partialio p skip len) (wpost s p sv u len) (wfail s p sv u len) (s, u).
Proof.
  intros Hf Hwf Hrw Hskip Hlen Hsl.
  destruct (fileblock_ok (uio_offset u) (kwf_offset u Hwf)) as (_ & _ & Ho & Hm).
  unfold sfs_partialio. wp_step. wp_step. rewrite (bool_decide_eq_true_2 (uio_rw u = UIO_WRITE)) by done. cbn zeta.
  wp_step. apply wp_massert.
  { apply bool_decide_eq_true_2. unfold SFS_BLOCKSIZE. rewrite u32_small by lia. lia. }
  wp_step. eapply wp_mono; [by apply (wp_bmap_write s p sv u len); [..|lia]| |done].
  intros b [s1 u1] (Hu1 & Hk & sv1 & Hst & Hb & Hb0). cbn [fst snd] in *. subst u1.
  rewrite (bool_decide_eq_false_2 (b = 0)) by done. pose proof (st_fok _ _ _ _ _ Hst) as Hf1.
  destruct (blk_used s1 (sv_i sv1) (uio_offset u / 512)) as [Hbr _]; [apply Hf1|done|congruence|].
  rewrite Hb in Hbr. wp_steps. eapply wp_rblock; [apply Hf1|lia|done|]. intros s2 Hq%quiet_upd.
  pose proof (quiet_fok _ _ _ _ Hf1 Hq) as Hf2.
  assert (nb s2 = nb s1) as Hn2 by (by destruct Hq as (? & -> & _)).
  pose proof (sect_len s1 b (fok_good _ _ _ Hf1) ltac:(lia)) as Hl.
  wp_steps. apply wp_uiomove_write; [done|done|lia|lia|lia|]. wp_steps.
  pose proof (length_slice (uio_kdata u) (iov_base u) len) as Hsll. pose proof Hwf as [].
  eapply wp_wblock; [apply Hf2|lia|rewrite length_splice; [done|lia..]|].
  intros s3 Hupd. exists sv1. split; [|done]. cbn [fst].
  rewrite Ho, <- Hskip.
  assert (blk s2 (sv_i sv1) (uio_offset u / 512) = b) as Hb2.
  { rewrite <- Hb. unfold blk. by rewrite (quiet_slots s1 s2) by (done || apply Hf1). }
  eapply (write_part s s2 s3 p sv sv1 _ skip _ (sect s1 b)); [|done|congruence|lia|lia| |by rewrite Hb2].
  - eapply still_trans; [done|by apply still_quiet].
  - rewrite Hb2. symmetry. apply quiet_sect; [apply Hf1|done|lia].
Qed.

Lemma wp_partialio_read s p sv u skip len E :
  fok s p sv -> kwf u -> uio_rw u = UIO_READ -> skip = uio_offset u mod 512 ->
  0 < len <= uio_resid u -> skip + len <= 512 -> uio_offset u + len <= MAXFILE ->
  wp (sfs_partialio p skip len) (rpost s (sv_i sv) u len) E (s, u).
Proof.
  intros Hf Hwf Hrw Hskip Hlen Hsl Hmax. pose proof Hf as [_ Hg Hfo].
  destruct (fileblock_ok (uio_offset u) (kwf_offset u Hwf)) as (Hq & _ & Ho & Hm).
  assert (0 <= uio_offset u / 512 < MAXBLOCKS) as Hk by (pose proof (kwf_offset u Hwf); apply file_block; lia).
  unfold sfs_partialio. wp_step. wp_step. rewrite (bool_decide_eq_false_2 (uio_rw u = UIO_WRITE)) by congruence.
  cbn zeta. rewrite Hq. wp_step. apply wp_massert.
  { apply bool_decide_eq_true_2. unfold SFS_BLOCKSIZE. rewrite u32_small by lia. lia. }
  wp_steps. eapply wp_bmap_read; [done|done|]. intros s1 Hq1.
  assert (nb s1 = nb s) as Hn1 by (by destruct Hq1 as (? & -> & _)).
  pose proof (slice_block s (sv_i sv) (uio_offset u / 512) skip len Hg Hfo Hk ltac:(lia) ltac:(lia) Hsl) as Hsb.
  rewrite Hskip, <- Ho, <- Hskip in Hsb.
  case_bool_decide as H0; wp_steps.
  - apply wp_massert; [by apply bool_decide_eq_true_2|]. wp_steps.
    apply wp_uiomove_read; [done|done|lia|lia|change (length (zeros SFS_BLOCKSIZE)) with 512%nat; lia|]. wp_steps.
    rewrite decide_True in Hsb by done. change SFS_BLOCKSIZE with 512. rewrite Hsb. by split.
  - rewrite decide_False in Hsb by done. destruct (blk_used s (sv_i sv) (uio_offset u / 512)) as [Hb _]; [done..|].
    eapply wp_rblock; [by eapply quiet_good|lia|done|]. intros s2 Hq2%quiet_upd.
    rewrite (quiet_sect s s1) by (done || lia).
    pose proof (sect_len s _ Hg ltac:(by split; [|exact (proj2 Hb)]; lia)) as Hl.
    wp_steps. apply wp_uiomove_read; [done|done|lia|lia|lia|]. wp_steps.
    rewrite Hsb. split; [by eapply quiet_trans|done].
Qed.

(** ** One whole block *)

Lemma wp_uiomovezeros s u n (Q : unit -> sfs_fs D * uio -> Prop) E :
  kwf u -> uio_rw u = UIO_READ -> 0 <= n <= uio_resid u ->
  Q tt (s, moved (set_kdata u (splice (uio_kdata u) (iov_base u) (zeros n))) n) ->
  wp (io_uiomovezeros n) Q E (s, u).
Proof.
  intros Hwf Hrw Hn HQ. unfold wp, io_uiomovezeros. rewrite uiomovezeros_spec by done.
  cbn. by rewrite set_ctx_id.
Qed.

(** The request [sfs_blockio] makes to the device. *)
Lemma kwf_block u b :
  kwf u -> 512 <= uio_resid u -> 0 <= b < 4194303 -> kwf (set_pos u (b * 512) 512).
Proof. intros [] Hr Hb. split; cbn; try done; unfold INT_MAX; lia. Qed.

Lemma diskoff_ok b : 0 <= b < 4194303 -> s32 (u32 (b * SFS_BLOCKSIZE)) = b * 512.
Proof.
  unfold SFS_BLOCKSIZE. intros. rewrite u32_small by lia. apply s32_small. unfold INT_MIN, INT_MAX. lia.
Qed.

(** Restoring the offset and the residue around the device transfer. *)
Lemma restore_ok u u' b :
  kwf u -> 512 <= uio_resid u -> 0 <= b < 4194303 ->
  uio_offset u' = uio_offset (moved (set_pos u (b * 512) 512) 512) ->
  uio_resid u' = uio_resid (moved (set_pos u (b * 512) 512) 512) ->
  int_op (uio_offset u' - b * 512) = Done 512 /\
  int_op (512 + uio_offset u) = Done (uio_offset u + 512) /\
  u32 (uio_resid u' - SFS_BLOCKSIZE + s32 (uio_resid u)) = uio_resid u - 512.
Proof.
  intros [] Hr Hb Ho Hres. cbn in Ho, Hres. rewrite Ho, Hres. unfold SFS_BLOCKSIZE.
  replace (b * 512 + 512 - b * 512) with 512 by lia.
  rewrite (Z.add_comm 512), !int_op_ok by (unfold INT_MIN, INT_MAX in *; lia).
  rewrite (s32_small (uio_resid u)) by (unfold INT_MIN; lia).
  split; [done|]. split; [done|]. rewrite u32_small; lia.
Qed.

(** The part of [sfs_blockio] that runs when there is a disk block. *)
Lemma wp_block_transfer s u b (R : sfs_fs D -> Prop) (k : list Z) Q E :
  kwf u -> 512 <= uio_resid u -> 0 <= b < 4194303 ->
  wp sfs_rwblock (fun _ su => R (fst su) /\ snd su = moved (set_kdata (set_pos u (b * 512) 512) k) 512) E
    (s, set_pos u (b * 512) 512) ->
  (forall e su, ~ E e su) ->
  (forall s', R s' -> Q tt (s', moved (set_kdata u k) 512)) ->
  wp (let saveoff := uio_offset u in
      let diskoff := s32 (u32 (b * SFS_BLOCKSIZE)) in
      _ ← massert (bool_decide (uio_resid u >= SFS_BLOCKSIZE));
      let saveres := s32 (uio_resid u) in
      let diskres := SFS_BLOCKSIZE in
      _ ← put_uio (set_pos u diskoff diskres);
      result ← try sfs_rwblock;
      u ← get_uio;
      delta ← lift (int_op (uio_offset u - diskoff));
      off ← lift (int_op (delta + saveoff));
      _ ← put_uio (set_pos u off (u32 (uio_resid u - diskres + saveres)));
      match result with
      | inl e => fail e
      | inr _ => mret tt
      end) Q E (s, u).
Proof.
  intros Hwf Hr Hb Hrw HE HQ. cbn zeta. rewrite diskoff_ok by done. wp_step. apply wp_massert.
  { apply bool_decide_eq_true_2. unfold SFS_BLOCKSIZE. lia. }
  wp_steps. eapply wp_mono; [exact Hrw| |by intros e su He; destruct (HE e su)].
  intros _ [s' u'] [HR Hu']. cbn [fst snd] in *. subst u'. wp_steps.
  destruct (restore_ok u (moved (set_kdata (set_pos u (b * 512) 512) k) 512) b Hwf Hr Hb eq_refl eq_refl)
    as (H1 & H2 & H3).
  eapply wp_lift; [exact H1|]. wp_steps. eapply wp_lift; [exact H2|]. wp_steps. rewrite H3.
  apply HQ in HR. unfold moved, set_kdata, set_pos in *. cbn in *. exact HR.
Qed.

Lemma wp_blockio_write s p sv u :
  fok s p sv -> kwf u -> uio_rw u = UIO_WRITE -> uio_offset u mod 512 = 0 -> 512 <= uio_resid u ->
  wp (sfs_blockio p) (wpost s p sv u 512) (wfail s p sv u 512) (s, u).
Proof.
  intros Hf Hwf Hrw Hal Hr.
  destruct (fileblock_ok (uio_offset u) (kwf_offset u Hwf)) as (_ & _ & Ho & Hm).
  unfold sfs_blockio. wp_step. wp_step. rewrite (bool_decide_eq_true_2 (uio_rw u = UIO_WRITE)) by done. cbn zeta.
  wp_step. eapply wp_mono; [by apply (wp_bmap_write s p sv u 512); [..|lia]| |done].
  intros b [s1 u1] (Hu1 & Hk & sv1 & Hst & Hb & Hb0). cbn [fst snd] in *. subst u1.
  rewrite (bool_decide_eq_false_2 (b = 0)) by done. pose proof (st_fok _ _ _ _ _ Hst) as Hf1.
  destruct (blk_used s1 (sv_i sv1) (uio_offset u / 512)) as [Hbr _]; [apply Hf1|done|congruence|].
  rewrite Hb in Hbr. pose proof (good_nb s1 (fok_good _ _ _ Hf1)).
  eapply wp_mono with (E := fun _ _ => False); [|done|done].
  eapply (wp_block_transfer s1 u b (fun s2 => dev_upd s1 s2 b (slice (uio_kdata u) (iov_base u) 512))
    (uio_kdata u)); [done|done|lia| |by intros ? ? []|].
  - apply (wp_rwblock_write s1 _ b); [apply good_block; [apply Hf1|lia]|by apply kwf_block; [..|lia]|done|done|].
    intros s2 Hupd. done.
  - intros s2 Hupd. exists sv1. split; [|by destruct u]. cbn [fst].
    assert (Z.of_nat (length (slice (uio_kdata u) (iov_base u) 512)) = 512) as Hl
      by (destruct Hwf; apply length_slice; lia).
    rewrite Ho, Hal. eapply (write_part s s1 s2 p sv sv1 _ 0); [done|done|congruence|lia|lia|done|].
    rewrite Hb, splice_all; [done|]. rewrite sect_len; [lia|apply Hf1|lia].
Qed.

Lemma wp_blockio_read s p sv u (E : Z -> sfs_fs D * uio -> Prop) :
  fok s p sv -> kwf u -> uio_rw u = UIO_READ -> uio_offset u mod 512 = 0 -> 512 <= uio_resid u ->
  uio_offset u + 512 <= MAXFILE ->
  wp (sfs_blockio p) (rpost s (sv_i sv) u 512) E (s, u).
Proof.
  intros Hf Hwf Hrw Hal Hr Hmax. pose proof Hf as [_ Hg Hfo].
  destruct (fileblock_ok (uio_offset u) (kwf_offset u Hwf)) as (Hq & _ & Ho & Hm).
  assert (0 <= uio_offset u / 512 < MAXBLOCKS) as Hk
    by (pose proof (kwf_offset u Hwf); apply file_block; lia).
  pose proof (slice_block s (sv_i sv) (uio_offset u / 512) 0 512 Hg Hfo Hk ltac:(lia) ltac:(lia) ltac:(lia)) as Hsb.
  replace (uio_offset u / 512 * 512 + 0) with (uio_offset u) in Hsb by lia.
  unfold sfs_blockio. wp_step. wp_step. rewrite (bool_decide_eq_false_2 (uio_rw u = UIO_WRITE)) by congruence.
  cbn zeta. rewrite Hq. wp_steps. eapply wp_bmap_read; [done|done|]. intros s1 Hq1.
  case_bool_decide as H0.
  - wp_step. apply wp_massert; [by apply bool_decide_eq_true_2|].
    apply wp_uiomovezeros; [done|done|unfold SFS_BLOCKSIZE; lia|]. split; [done|].
    rewrite decide_True in Hsb by done. rewrite <- Hsb. done.
  - rewrite decide_False in Hsb by done. pose proof (quiet_fok _ _ _ _ Hf Hq1) as Hf1.
    destruct (blk_used s (sv_i sv) (uio_offset u / 512)) as [Hb _]; [done..|].
    assert (nb s1 = nb s) as Hn1 by (by destruct Hq1 as (? & -> & _)).
    pose proof (good_nb s Hg). set (b := blk s (sv_i sv) (uio_offset u / 512)) in *.
    rewrite <- (quiet_sect s s1) in Hsb by (done || lia).
    pose proof (sect_len s1 b (fok_good _ _ _ Hf1) ltac:(lia)) as Hl.
    rewrite slice_all in Hsb by lia.
    eapply wp_mono with (E := fun _ _ => False); [|done|done].
    eapply (wp_block_transfer s1 u b (fun s2 => quiet s1 s2)
      (splice (uio_kdata u) (iov_base u) (fbytes s (sv_i sv) (uio_offset u) 512)));
      [done|done|lia| |by intros ? ? []|].
    + apply (wp_rwblock_read s1 _ b);
        [apply good_block; [apply Hf1|lia]|by apply kwf_block; [..|lia]|done|done|].
      intros s2 Hq2%quiet_upd. split; [done|]. cbn [snd]. by rewrite Hsb.
    + intros s2 Hq2. split; [by eapply quiet_trans|done].
Qed.

(** ** Sequencing *)

Lemma wpost_0 s p sv u : fok s p sv -> wpost s p sv u 0 tt (s, u).
Proof.
  intros Hf. exists sv. split; [apply still_done, still_quiet; [done|apply quiet_refl, Hf]|].
  cbn. rewrite <- (moved_0 u) at 1. by destruct u.
Qed.

Lemma rpost_0 s i u : good s -> rpost s i u 0 tt (s, u).
Proof.
  intros Hg. split; [by apply quiet_refl|]. cbn. change (fbytes s i (uio_offset u) 0) with (@nil Z).
  by rewrite splice_nil, moved_0.
Qed.

Lemma wp_write_seq s p sv u n1 n2 n (m1 m2 : M (sfs_fs D * uio) unit) :
  kwf u -> 0 <= n1 -> 0 <= n2 -> n1 + n2 <= uio_resid u -> n = n1 + n2 ->
  (0 < n2 -> (uio_offset u + n1) mod 512 = 0) ->
  wp m1 (wpost s p sv u n1) (wfail s p sv u n1) (s, u) ->
  (forall s1 sv1, fok s1 p sv1 ->
     wp m2 (wpost s1 p sv1 (moved u n1) n2) (wfail s1 p sv1 (moved u n1) n2) (s1, moved u n1)) ->
  wp (_ ← m1; m2) (wpost s p sv u n) (wfail s p sv u n) (s, u).
Proof.
  intros Hwf H1 H2 Hn -> Hal Hm1 Hm2. wp_step. eapply wp_mono; [exact Hm1| |].
  - intros _ [s1 u1] (sv1 & Hd & Hu). cbn [fst snd] in *. subst u1.
    eapply wp_mono; [apply Hm2, Hd| |].
    + intros r su. by eapply wpost_seq.
    + intros e su. by eapply wfail_seq.
  - intros e su. apply wfail_more. lia.
Qed.

Lemma rpost_kwf s i u n :
  kwf u -> 0 <= n <= uio_resid u ->
  kwf (moved (set_kdata u (splice (uio_kdata u) (iov_base u) (fbytes s i (uio_offset u) n))) n).
Proof.
  intros Hwf Hn. apply kwf_moved; [|done]. apply kwf_set_kdata; [done|]. destruct Hwf.
  pose proof (length_fbytes s i (uio_offset u) n). apply length_splice; lia.
Qed.

Lemma wp_read_seq s p sv u n1 n2 n (m1 m2 : M (sfs_fs D * uio) unit) E :
  fok s p sv -> kwf u -> uio_rw u = UIO_READ -> 0 <= n1 -> 0 <= n2 -> n1 + n2 <= uio_resid u ->
  n = n1 + n2 -> uio_offset u + n <= MAXFILE ->
  wp m1 (rpost s (sv_i sv) u n1) E (s, u) ->
  (forall s1 u1, fok s1 p sv -> kwf u1 -> uio_rw u1 = UIO_READ -> uio_resid u1 = uio_resid u - n1 ->
     uio_offset u1 = uio_offset u + n1 -> wp m2 (rpost s1 (sv_i sv) u1 n2) E (s1, u1)) ->
  wp (_ ← m1; m2) (rpost s (sv_i sv) u n) E (s, u).
Proof.
  intros Hf Hwf Hrw H1 H2 Hn -> Hmax Hm1 Hm2. wp_step. eapply wp_mono; [exact Hm1| |done].
  intros _ [s1 u1] [Hq Hu]. cbn [fst snd] in *. subst u1.
  eapply wp_mono; [apply Hm2| |done]; [by eapply quiet_fok|apply rpost_kwf; [done|lia]|done|done|done|].
  intros r su. eapply rpost_seq; (done || lia).
Qed.

Lemma aligned_next a b : a mod 512 = 0 -> (a + 512 * b) mod 512 = 0.
Proof. intros Ha. by rewrite Z.mul_comm, Z.mod_add by lia. Qed.

Lemma wp_blocks_loop_write n s p sv u :
  fok s p sv -> kwf u -> uio_rw u = UIO_WRITE -> uio_offset u mod 512 = 0 ->
  512 * Z.of_nat n <= uio_resid u ->
  wp (blocks_loop n p) (wpost s p sv u (512 * Z.of_nat n)) (wfail s p sv u (512 * Z.of_nat n)) (s, u).
Proof.
  revert s sv u. induction n as [|n IH]; intros s sv u Hf Hwf Hrw Hal Hr; cbn [blocks_loop].
  - wp_step. by apply wpost_0.
  - eapply (wp_write_seq s p sv u 512 (512 * Z.of_nat n)); [done|lia|lia|lia|lia|by intros _; apply (aligned_next _ 1)| |].
    + apply wp_blockio_write; (done || lia).
    + intros s1 sv1 Hf1. apply IH; [done|apply kwf_moved; [done|lia]|done| |cbn; lia].
      apply (aligned_next _ 1 Hal).
Qed.

Lemma wp_blocks_loop_read n s p sv u E :
  fok s p sv -> kwf u -> uio_rw u = UIO_READ -> uio_offset u mod 512 = 0 ->
  512 * Z.of_nat n <= uio_resid u -> uio_offset u + 512 * Z.of_nat n <= MAXFILE ->
  wp (blocks_loop n p) (rpost s (sv_i sv) u (512 * Z.of_nat n)) E (s, u).
Proof.
  revert s u. induction n as [|n IH]; intros s u Hf Hwf Hrw Hal Hr Hmax; cbn [blocks_loop].
  - wp_step. apply rpost_0, Hf.
  - eapply (wp_read_seq s p sv u 512 (512 * Z.of_nat n)); try done; try lia.
    + apply wp_blockio_read; (done || lia).
    + intros s1 u1 Hf1 Hwf1 Hrw1 Hr1 Ho1. apply IH; [done|done|done| |lia|lia].
      rewrite Ho1. apply (aligned_next _ 1 Hal).
Qed.

(** The split of a block-aligned transfer. *)
Lemma resid_split n : 0 <= n ->
  0 <= n / 512 /\ n = 512 * (n / 512) + n mod 512 /\ 0 <= n mod 512 < 512.
Proof.
  intros. pose proof (Z.div_mod n 512 ltac:(lia)). pose proof (Z.mod_pos_bound n 512 ltac:(lia)).
  pose proof (Z.div_pos n 512). lia.
Qed.

Lemma rem_offset off : 0 <= off -> Z.rem off SFS_BLOCKSIZE = off mod 512.
Proof. intros. unfold SFS_BLOCKSIZE. apply Z.rem_mod_nonneg; lia. Qed.

Lemma wp_io_blocks_write s p sv u :
  fok s p sv -> kwf u -> uio_rw u = UIO_WRITE -> (0 < uio_resid u -> uio_offset u mod 512 = 0) ->
  wp (io_blocks p) (wpost s p sv u (uio_resid u)) (wfail s p sv u (uio_resid u)) (s, u).
Proof.
  intros Hf Hwf Hrw Hal. pose proof Hwf as []. unfold io_blocks. wp_step. wp_step.
  case_bool_decide as H0; [wp_step; rewrite H0; by apply wpost_0|].
  specialize (Hal ltac:(lia)). destruct (resid_split (uio_resid u)) as (Hd & Hsp & Hm); [lia|].
  wp_step. apply wp_massert; [apply bool_decide_eq_true_2; rewrite rem_offset; lia|]. cbn zeta.
  eapply (wp_write_seq s p sv u (512 * (uio_resid u / 512)) (uio_resid u mod 512));
    [done|lia|lia|lia|lia|by intros _; apply aligned_next| |].
  - pose proof (wp_blocks_loop_write (Z.to_nat (uio_resid u / 512)) s p sv u Hf Hwf Hrw Hal) as Hl.
    rewrite Z2Nat.id in Hl by lia. apply Hl. lia.
  - intros s1 sv1 Hf1. wp_steps. cbn [uio_resid moved].
    replace (uio_resid u - 512 * (uio_resid u / 512)) with (uio_resid u mod 512) by lia.
    apply wp_massert; [apply bool_decide_eq_true_2; unfold SFS_BLOCKSIZE; lia|].
    case_bool_decide.
    + apply wp_partialio_write; [done|apply kwf_moved; [done|lia]|done| |cbn; lia|lia].
      cbn. by rewrite (aligned_next _ (uio_resid u / 512) Hal).
    + replace (uio_resid u mod 512) with 0 by lia. wp_step. by apply wpost_0.
Qed.

Lemma wp_io_blocks_read s p sv u E :
  fok s p sv -> kwf u -> uio_rw u = UIO_READ -> (0 < uio_resid u -> uio_offset u mod 512 = 0) ->
  uio_offset u + uio_resid u <= MAXFILE ->
  wp (io_blocks p) (rpost s (sv_i sv) u (uio_resid u)) E (s, u).
Proof.
  intros Hf Hwf Hrw Hal Hmax. pose proof Hwf as []. unfold io_blocks. wp_step. wp_step.
  case_bool_decide as H0; [wp_step; rewrite H0; apply rpost_0, Hf|].
  specialize (Hal ltac:(lia)). destruct (resid_split (uio_resid u)) as (Hd & Hsp & Hm); [lia|].
  wp_step. apply wp_massert; [apply bool_decide_eq_true_2; rewrite rem_offset; lia|]. cbn zeta.
  eapply (wp_read_seq s p sv u (512 * (uio_resid u / 512)) (uio_resid u mod 512)); try done; try lia.
  - pose proof (wp_blocks_loop_read (Z.to_nat (uio_resid u / 512)) s p sv u E Hf Hwf Hrw Hal) as Hl.
    rewrite Z2Nat.id in Hl by lia. apply Hl; lia.
  - intros s1 u1 Hf1 Hwf1 Hrw1 Hr1 Ho1. wp_steps.
    assert (uio_resid u1 = uio_resid u mod 512) as Hr1' by lia.
    apply wp_massert; [apply bool_decide_eq_true_2; unfold SFS_BLOCKSIZE; lia|].
    rewrite <- Hr1'. case_bool_decide.
    + apply wp_partialio_read; [done|done|done| |lia|lia|lia].
      rewrite Ho1. by rewrite (aligned_next _ (uio_resid u / 512) Hal).
    + replace (uio_resid u1) with 0 by lia. wp_step. apply rpost_0, Hf1.
Qed.

(** ** The whole transfer *)

(** The leading partial block ends the transfer or leaves it block-aligned. *)
Lemma lead_split off resid :
  0 <= off -> 0 < resid -> off mod 512 ≠ 0 ->
  let len := u32 (SFS_BLOCKSIZE - off mod 512) in
  let len := if bool_decide (len > resid) then resid else len in
  0 < len <= resid /\ off mod 512 + len <= 512 /\ (0 < resid - len -> (off + len) mod 512 = 0).
Proof.
  intros Ho Hr H0. unfold SFS_BLOCKSIZE. pose proof (Z.mod_pos_bound off 512 ltac:(lia)).
  rewrite u32_small by lia. cbn zeta. case_bool_decide; (split; [lia|]); (split; [lia|]); intros; [lia|].
  replace (off + (512 - off mod 512)) with ((off / 512 + 1) * 512)
    by (pose proof (Z.div_mod off 512 ltac:(lia)); lia).
  by apply Z.mod_mul.
Qed.

Lemma blkoff_ok off : 0 <= off -> u32 (Z.rem off SFS_BLOCKSIZE) = off mod 512.
Proof.
  intros. rewrite rem_offset by done. pose proof (Z.mod_pos_bound off 512 ltac:(lia)).
  apply u32_small. lia.
Qed.

Lemma wp_io_body_write s p sv u :
  fok s p sv -> kwf u -> uio_rw u = UIO_WRITE -> 0 < uio_resid u ->
  wp (io_body p) (wpost s p sv u (uio_resid u)) (wfail s p sv u (uio_resid u)) (s, u).
Proof.
  intros Hf Hwf Hrw Hr. pose proof (kwf_offset u Hwf) as Hoff. unfold io_body. wp_step. wp_step.
  rewrite blkoff_ok by lia. cbn zeta. case_bool_decide as H0.
  - destruct (lead_split (uio_offset u) (uio_resid u)) as (Hl & Hsl & Hal); [lia|lia|done|].
    set (len := if bool_decide _ then _ else _) in *.
    apply (wp_write_seq s p sv u len (uio_resid u - len)); [done|lia|lia|lia|lia|done| |].
    + by apply wp_partialio_write.
    + intros s1 sv1 Hf1. apply wp_io_blocks_write; [done|apply kwf_moved; [done|lia]|done|done].
  - wp_steps. by apply wp_io_blocks_write.
Qed.

Lemma wp_io_body_read s p sv u E :
  fok s p sv -> kwf u -> uio_rw u = UIO_READ -> 0 < uio_resid u ->
  uio_offset u + uio_resid u <= MAXFILE ->
  wp (io_body p) (rpost s (sv_i sv) u (uio_resid u)) E (s, u).
Proof.
  intros Hf Hwf Hrw Hr Hmax. pose proof (kwf_offset u Hwf) as Hoff. unfold io_body. wp_step. wp_step.
  rewrite blkoff_ok by lia. cbn zeta. case_bool_decide as H0.
  - destruct (lead_split (uio_offset u) (uio_resid u)) as (Hl & Hsl & Hal); [lia|lia|done|].
    set (len := if bool_decide _ then _ else _) in *.
    apply (wp_read_seq s p sv u len (uio_resid u - len)); try done; try lia.
    + apply wp_partialio_read; (done || lia).
    + intros s1 u1 Hf1 Hwf1 Hrw1 Hr1 Ho1. rewrite <- Hr1.
      apply wp_io_blocks_read; [done|done|done| |lia]. by rewrite Hr1, Ho1.
  - wp_steps. by apply wp_io_blocks_read.
Qed.

(** ** The end of the file *)

Definition with_size sv (n : Z) : sfs_vnode := set_dirty (set_i sv (set_size (sv_i sv) n)) true.

Lemma wp_io_out_write s p sv u (Q : unit -> sfs_fs D * uio -> Prop) E :
  fok s p sv -> uio_rw u = UIO_WRITE -> 0 <= uio_offset u <= INT_MAX -> 0 <= uio_resid u < 4294967296 ->
  Q tt (if decide (uio_offset u > sfi_size (sv_i sv))
        then set_heap s (<[p := with_size sv (uio_offset u)]> (k_heap s)) else s, u) ->
  wp (io_out p 0) Q E (s, u).
Proof.
  intros Hf Hrw Ho Hr HQ. pose proof Hf as [Hp _ [Hi _ _ Hsz]]. unfold io_out. wp_steps.
  eapply wp_deref; [done|]. rewrite (bool_decide_eq_true_2 (uio_rw u = UIO_WRITE)) by done. cbn [andb].
  destruct Hi. unfold MAXFILE, INT_MAX in *. rewrite s32_small by (unfold INT_MIN, INT_MAX; lia).
  rewrite Z.add_0_r, !u32_small by lia.
  replace (set_pos u (uio_offset u) (uio_resid u)) with u by (by destruct u).
  wp_step. case_decide; step_tests; wp_steps; done.
Qed.

(** Setting the size keeps the file sound and its blocks as they are. *)
Lemma with_size_ext s p sv n :
  fok s p sv -> 0 <= n <= MAXFILE ->
  let s' := set_heap s (<[p := with_size sv n]> (k_heap s)) in
  fok s' p (with_size sv n) /\ ext s s' p sv (with_size sv n) /\
  wrote s s' (sv_i sv) (sv_i (with_size sv n)) 0 [].
Proof.
  intros Hf Hn s'. pose proof Hf as [Hp Hg [Hi Hinj Hu Hsz]].
  split; [|split].
  - split; [apply lookup_insert_eq|by apply good_set_heap|]. split; [|done|done|cbn; lia].
    destruct Hi. unfold MAXFILE in Hn. split; cbn; (done || lia).
  - apply ext_keep; try done. split; try done; [by right|by left].
  - by apply wrote_refl.
Qed.

(** The file after [m] bytes of [u] went to it, and what became of [u]. *)
Definition written s s' (p : ptr) sv u (m : Z) u' : Prop :=
  exists sv', fok s' p sv' /\ ext s s' p sv sv' /\
    wrote s s' (sv_i sv) (sv_i sv') (uio_offset u) (slice (uio_kdata u) (iov_base u) m) /\
    sfi_size (sv_i sv') = Z.max (sfi_size (sv_i sv)) (uio_offset u + m) /\ u' = moved u m.

Lemma wp_io_out_written s s1 p sv sv1 u m (Q : unit -> sfs_fs D * uio -> Prop) E :
  kwf u -> uio_rw u = UIO_WRITE -> 0 <= m <= uio_resid u -> uio_offset u <= MAXFILE ->
  io_done s s1 p sv sv1 (uio_offset u) (slice (uio_kdata u) (iov_base u) m) ->
  (forall s', written s s' p sv u m (moved u m) -> (full s1 -> full s') -> Q tt (s', moved u m)) ->
  wp (io_out p 0) Q E (s1, moved u m).
Proof.
  intros Hwf Hrw Hm Ho [Hf1 He1 Hw1 Hsz1 Hr1] HQ. pose proof Hwf as [].
  assert (uio_offset u + m <= MAXFILE) as Hmax.
  { pose proof (length_slice (uio_kdata u) (iov_base u) m ltac:(lia) ltac:(lia) ltac:(lia)). lia. }
  eapply wp_io_out_write; [done|done|cbn; unfold INT_MAX in *; lia|cbn; lia|].
  apply HQ; [|by case_decide].
  cbn [uio_offset moved]. case_decide as Hgt.
  - destruct (with_size_ext s1 p sv1 (uio_offset u + m) Hf1) as (Hf2 & He2 & Hw2); [lia|].
    exists (with_size sv1 (uio_offset u + m)). split; [done|].
    split; [by eapply ext_trans|]. split; [|split; [cbn; lia|done]].
    intros x Hx. rewrite Hw2 by done. rewrite decide_False by (cbn; lia). by apply Hw1.
  - exists sv1. split; [done|]. split; [done|]. split; [done|]. split; [lia|done].
Qed.

(** ** [sfs_io] *)

(** How a write that stored [m] of [n] bytes ends. *)
Definition write_result s' (off n m : Z) (r : Z + unit) : Prop :=
  (r = inr tt /\ m = n) \/
  (r = inl ENOSPC /\ m < n /\ off + m < MAXFILE /\ full s' /\ (m = 0 \/ (off + m) mod 512 = 0)) \/
  (r = inl EINVAL /\ m < n /\ off + m = MAXFILE).

Lemma wp_sfs_io_write s p sv u :
  fok s p sv -> kwf u -> uio_rw u = UIO_WRITE -> 0 < uio_resid u -> uio_offset u <= MAXFILE ->
  wp (try (sfs_io p))
    (fun r su => exists m, 0 <= m <= uio_resid u /\ written s (fst su) p sv u m (snd su) /\
       write_result (fst su) (uio_offset u) (uio_resid u) m r)
    (fun _ _ => False) (s, u).
Proof.
  intros Hf Hwf Hrw Hr Ho. apply wp_try. unfold sfs_io. wp_step. wp_step.
  rewrite bool_decide_eq_false_2 by congruence. unfold io_run. wp_steps.
  eapply wp_mono; [by apply wp_io_body_write| |].
  - intros _ [s1 u1] (sv1 & Hd & Hu). cbn [fst snd] in *. subst u1. wp_step.
    eapply wp_io_out_written; [done|done| |done|exact Hd|]; [lia|].
    intros s' Hw. wp_steps. exists (uio_resid u). split; [lia|]. split; [done|]. by left.
  - intros e [s1 u1] (sv1 & m & Hm & Hd & Hu & Hbd & He). cbn [fst snd] in *. subst u1. wp_step.
    pose proof (id_range _ _ _ _ _ _ _ Hd) as Hrg.
    assert (uio_offset u + m <= MAXFILE) as Hmax.
    { destruct Hwf. pose proof (length_slice (uio_kdata u) (iov_base u) m ltac:(lia) ltac:(lia) ltac:(lia)). lia. }
    eapply wp_io_out_written; [done|done| |done|exact Hd|]; [lia|].
    intros s' Hw Hfull. wp_steps. exists m. split; [lia|]. split; [done|]. right.
    destruct He as [(-> & ? & ?)|[-> ?]]; [left|right]; repeat split; auto; lia.
Qed.

(** Bytes a read at [off] gets. *)
Definition readable i (off n : Z) : Z := Z.min n (Z.max 0 (sfi_size i - off)).

Lemma wp_io_run_read s p sv u extra (Q : unit -> sfs_fs D * uio -> Prop) E :
  fok s p sv -> kwf u -> uio_rw u = UIO_READ -> 0 < uio_resid u ->
  uio_offset u + uio_resid u <= MAXFILE -> 0 <= extra -> uio_resid u + extra < 4294967296 ->
  (forall s', quiet s s' -> Q tt (s', set_pos
     (moved (set_kdata u (splice (uio_kdata u) (iov_base u)
        (fbytes s (sv_i sv) (uio_offset u) (uio_resid u)))) (uio_resid u))
     (uio_offset u + uio_resid u) extra)) ->
  wp (io_run p extra) Q E (s, u).
Proof.
  intros Hf Hwf Hrw Hr Hmax Hx Hx2 HQ. unfold io_run. wp_steps.
  eapply wp_mono; [by apply (wp_io_body_read s p sv u (fun _ _ => False))| |done].
  intros _ [s1 u1] [Hq Hu]. cbn [fst snd] in *. subst u1. unfold io_out. wp_steps.
  eapply wp_deref; [by apply (quiet_fok s s1)|]. cbn [uio_rw moved set_kdata]. rewrite Hrw.
  rewrite (bool_decide_eq_false_2 (UIO_READ = UIO_WRITE)) by done. cbn [andb]. wp_steps.
  cbn [uio_resid uio_offset moved set_kdata]. replace (uio_resid u - uio_resid u + extra) with extra by lia.
  rewrite u32_small by lia. by apply HQ.
Qed.

Lemma wp_sfs_io_read s p sv u (Q : unit -> sfs_fs D * uio -> Prop) E :
  fok s p sv -> kwf u -> uio_rw u = UIO_READ -> 0 < uio_resid u ->
  (forall su, rpost s (sv_i sv) u (readable (sv_i sv) (uio_offset u) (uio_resid u)) tt su -> Q tt su) ->
  wp (sfs_io p) Q E (s, u).
Proof.
  intros Hf Hwf Hrw Hr HQ. pose proof Hf as [Hp Hg [Hi _ _ Hsz]]. pose proof Hwf as [].
  pose proof (iwf_size _ Hi). unfold sfs_io. wp_step. wp_step.
  rewrite (bool_decide_eq_true_2 (uio_rw u = UIO_READ)) by done. wp_steps.
  eapply wp_deref; [done|]. cbn zeta. unfold MAXFILE, INT_MAX in *.
  rewrite (u32_small (_ + _)), !s32_small by (unfold INT_MIN, INT_MAX; lia).
  unfold readable in HQ. case_bool_decide.
  - wp_step. apply HQ. rewrite Z.max_l, Z.min_r by lia. by apply rpost_0.
  - case_bool_decide; [|rewrite Z.max_r, Z.min_l in HQ by lia].
    + rewrite Z.max_r, Z.min_r in HQ by lia. wp_step.
      eapply wp_lift; [apply int_op_ok; unfold INT_MIN, INT_MAX; lia|]. rewrite u32_small by lia.
      wp_step. apply wp_massert; [apply bool_decide_eq_true_2; lia|]. wp_steps.
      apply (wp_io_run_read s p sv); cbn; try done; try (unfold MAXFILE; lia).
      * split; cbn; try done; unfold INT_MAX; lia.
      * intros s' Hq. apply HQ. split; [done|]. cbn [snd].
        replace (uio_resid u - (uio_offset u + uio_resid u - sfi_size (sv_i sv)))
          with (sfi_size (sv_i sv) - uio_offset u) by lia.
        unfold moved, set_pos, set_kdata. cbn. f_equal; lia.
    + apply (wp_io_run_read s p sv); try done; try (unfold MAXFILE; lia).
      intros s' Hq. apply HQ. split; [done|]. cbn [snd]. unfold moved, set_pos, set_kdata. cbn. f_equal; lia.
Qed.

(** ** Other files *)

Definition disjoint s i j : Prop := forall b, b ∈ slots s i -> b ≠ 0 -> b ∉ slots s j.

(** What an operation on vnode [p] does to the rest: the file gets only free
    blocks, and the other blocks in use stay in use and keep their contents. *)
Record touched s s' (p : ptr) sv sv' : Prop := {
  to_fok : fok s' p sv';
  to_hdr : hdr s s' p sv sv';
  to_new b : b ∈ slots s' (sv_i sv') -> b ≠ 0 -> b ∈ slots s (sv_i sv) \/ used s b = false;
  to_used b : 0 <= b -> used s b = true -> (b ∈ slots s (sv_i sv) -> b = 0) -> used s' b = true;
  to_frame b : 0 <= b < nb s -> used s b = true -> (b ∈ slots s (sv_i sv) -> b = 0) -> sect s' b = sect s b
}.

Lemma ext_touched s s' p sv sv' : fok s' p sv' -> ext s s' p sv sv' -> touched s s' p sv sv'.
Proof. intros Hf []. split; try done. intros b Hb Hu _. by rewrite e_used0, Hu. Qed.

(** An operation on one file leaves the vnode, the blocks and the bytes of every
    other file alone, and the two files still share no block. *)
Lemma touched_other s s' p sv sv' q svq :
  touched s s' p sv sv' -> p ≠ q -> fok s q svq -> disjoint s (sv_i svq) (sv_i sv) ->
  fok s' q svq /\ slots s' (sv_i svq) = slots s (sv_i svq) /\ disjoint s' (sv_i svq) (sv_i sv') /\
  forall x, 0 <= x < MAXFILE -> fbyte s' (sv_i svq) x = fbyte s (sv_i svq) x.
Proof.
  intros [Hf' Hh Hnew Hu Hfr] Hpq [Hq Hg Hfq] Hdis. pose proof (f_inode _ _ Hfq) as Hi.
  assert (forall b, b ∈ slots s (sv_i svq) -> b ≠ 0 -> b ∈ slots s (sv_i sv) -> b = 0) as Hno
    by (intros b Hin Hb Hin'; by destruct (Hdis b Hin Hb)).
  assert (forall b, b ∈ slots s (sv_i svq) -> b ≠ 0 -> sect s' b = sect s b) as Hsec.
  { intros b Hin Hb. destruct (f_used _ _ Hfq b Hin Hb). apply Hfr; [lia|done|by apply Hno]. }
  assert (slots s' (sv_i svq) = slots s (sv_i svq)) as Hs.
  { apply slots_same. unfold idwords. case_decide; [done|]. f_equal. apply Hsec; [|done].
    by eapply list_elem_of_lookup_2, slots_15. }
  split; [|split; [done|split]].
  - split; [by rewrite (h_heap _ _ _ _ _ Hh), lookup_insert_ne|apply Hf'|].
    destruct Hfq. split; [done|by rewrite Hs| |done]. intros b. rewrite Hs, (hdr_nb _ _ _ _ _ Hh).
    intros Hin Hb. destruct (f_used0 b Hin Hb) as [? Hub]. split; [done|]. apply Hu; [lia|done|by apply Hno].
  - intros b. rewrite Hs. intros Hin Hb Hin'.
    destruct (Hnew b Hin' Hb) as [?|Hfree]; [by destruct (Hdis b Hin Hb)|].
    destruct (f_used _ _ Hfq b Hin Hb). congruence.
  - intros x Hx%file_block. unfold fbyte, blk. rewrite Hs. fold (blk s (sv_i svq) (x / 512)).
    case_decide; [done|]. rewrite Hsec; [done| |done].
    by eapply list_elem_of_lookup_2, blk_lookup.
Qed.

(** ** Properties *)

(** C13. Reading a file through [sfs_io] into kernel memory always succeeds on a
    working device: the buffer receives the bytes of the file from the offset
    on, up to the end of the file or of the buffer, holes reading as zeros; the
    offset and the residue account for exactly those bytes; no block, no inode
    and no allocation changes. *)
Theorem sfs_io_read_refines (s : sfs_fs D) (p : ptr) (sv : sfs_vnode) (u : uio) :
  fok s p sv -> kwf u -> uio_rw u = UIO_READ -> 0 < uio_resid u ->
  let n := readable (sv_i sv) (uio_offset u) (uio_resid u) in
  exists s' u', sfs_io p (s, u) = Done (inr tt, (s', u')) /\ quiet s s' /\
    uio_kdata u' = splice (uio_kdata u) (iov_base u) (fbytes s (sv_i sv) (uio_offset u) n) /\
    uio_offset u' = uio_offset u + n /\ uio_resid u' = uio_resid u - n.
Proof.
  intros Hf Hwf Hrw Hr n.
  pose proof (wp_sfs_io_read s p sv u (fun _ su => rpost s (sv_i sv) u n tt su) (fun _ _ => False)
    Hf Hwf Hrw Hr (fun su Hsu => Hsu)) as Hw.
  apply wp_done in Hw as ([e|[]] & [s' u'] & Hio & Hpost); [done|]. destruct Hpost as [Hq Hu].
  cbn [fst snd] in *. subst u'. do 2 eexists. by split.
Qed.

(** C1. Writing to a file through [sfs_io] from kernel memory: some number [m] of
    bytes is stored at the offset, every other byte of the file is as before,
    the size is raised to the end of the transfer if it was smaller, the new
    blocks of the file were free and are exactly the newly marked ones, and no
    block used by anything else is written.  [m] is the whole request, except
    when no block is free (ENOSPC) or the file has reached the largest size its
    block list can describe (EINVAL). *)
Theorem sfs_io_write_refines (s : sfs_fs D) (p : ptr) (sv : sfs_vnode) (u : uio) :
  fok s p sv -> kwf u -> uio_rw u = UIO_WRITE -> 0 < uio_resid u -> uio_offset u <= MAXFILE ->
  exists r s' u' m, sfs_io p (s, u) = Done (r, (s', u')) /\ 0 <= m <= uio_resid u /\
    written s s' p sv u m u' /\ write_result s' (uio_offset u) (uio_resid u) m r.
Proof.
  intros Hf Hwf Hrw Hr Ho. pose proof (wp_sfs_io_write s p sv u Hf Hwf Hrw Hr Ho) as Hw.
  unfold wp, try in Hw. destruct (sfs_io p (s, u)) as [[r [s' u']]| |]; [|done|done].
  destruct Hw as (m & Hm & Hwr & Hres). by exists r, s', u', m.
Qed.

(** What a successful write stored is what a read of the same range
    returns. *)
Theorem sfs_io_write_read_roundtrip (s s' : sfs_fs D) (p : ptr) (sv : sfs_vnode) (u u' rd : uio) :
  fok s p sv -> kwf u -> uio_rw u = UIO_WRITE -> 0 < uio_resid u -> uio_offset u <= MAXFILE ->
  sfs_io p (s, u) = Done (inr tt, (s', u')) ->
  kwf rd -> uio_rw rd = UIO_READ -> uio_offset rd = uio_offset u -> uio_resid rd = uio_resid u ->
  exists s'' rd', sfs_io p (s', rd) = Done (inr tt, (s'', rd')) /\ uio_resid rd' = 0 /\
    uio_kdata rd' =
      splice (uio_kdata rd) (iov_base rd) (slice (uio_kdata u) (iov_base u) (uio_resid u)).
Proof.
  intros Hf Hwf Hrw Hr Ho Hio Hwf2 Hrw2 Ho2 Hr2.
  pose proof (wp_sfs_io_write s p sv u Hf Hwf Hrw Hr Ho) as Hw. unfold wp, try in Hw. rewrite Hio in Hw.
  destruct Hw as (m & Hm & (sv' & Hf' & _ & Hwr & Hsz & _) & [[_ ->]|[[? _]|[? _]]]); [|done|done].
  cbn [fst] in *. pose proof (f_size _ _ (fok_file _ _ _ Hf')) as Hmax.
  assert (readable (sv_i sv') (uio_offset rd) (uio_resid rd) = uio_resid u) as Hn
    by (unfold readable; lia).
  pose proof (wp_sfs_io_read s' p sv' rd (fun _ su => rpost s' (sv_i sv') rd (uio_resid u) tt su)
    (fun _ _ => False) Hf' Hwf2 Hrw2 ltac:(lia)) as Hrd. rewrite Hn in Hrd. specialize (Hrd (fun su H => H)).
  apply wp_done in Hrd as ([e|[]] & [s'' rd'] & Hio2 & Hpost); [done|]. destruct Hpost as [_ Hu].
  cbn [fst snd] in *. subst rd'. do 2 eexists. split; [done|]. split; [cbn; lia|].
  cbn [uio_kdata moved set_kdata]. f_equal. rewrite Ho2. destruct Hwf.
  pose proof (length_fbytes s' (sv_i sv') (uio_offset u) (uio_resid u) ltac:(lia)) as Hl1.
  pose proof (length_slice (uio_kdata u) (iov_base u) (uio_resid u) ltac:(lia) ltac:(lia) ltac:(lia)) as Hl2.
  apply (list_nth_eq _ _ 0); [lia|]. intros j Hj. rewrite nth_fbytes by lia.
  rewrite Hwr by lia. rewrite decide_True by lia. f_equal. lia.
Qed.

(** A write to one file, whether it succeeds or fails part-way, leaves every
    other file whole: its vnode, its blocks and all its bytes are unchanged and
    the two files still share no block. *)
Theorem sfs_io_write_isolated (s s' : sfs_fs D) (p q : ptr) (sv svq : sfs_vnode) (u u' : uio) (r : Z + unit) :
  fok s p sv -> kwf u -> uio_rw u = UIO_WRITE -> 0 < uio_resid u -> uio_offset u <= MAXFILE ->
  sfs_io p (s, u) = Done (r, (s', u')) ->
  p ≠ q -> fok s q svq -> disjoint s (sv_i svq) (sv_i sv) ->
  fok s' q svq /\ (forall x, 0 <= x < MAXFILE -> fbyte s' (sv_i svq) x = fbyte s (sv_i svq) x) /\
  exists sv', k_heap s' !! p = Some sv' /\ disjoint s' (sv_i svq) (sv_i sv').
Proof.
  intros Hf Hwf Hrw Hr Ho Hio Hpq Hfq Hdis.
  pose proof (wp_sfs_io_write s p sv u Hf Hwf Hrw Hr Ho) as Hw. unfold wp, try in Hw. rewrite Hio in Hw.
  destruct Hw as (m & _ & (sv' & Hf' & He & _) & _). cbn [fst] in *.
  destruct (touched_other s s' p sv sv' q svq (ext_touched _ _ _ _ _ Hf' He) Hpq Hfq Hdis) as (? & _ & ? & ?).
  split; [done|]. split; [done|]. exists sv'. split; [apply Hf'|done].
Qed.

(** A write that starts past the largest size a file can have fails with
    EINVAL and stores nothing, but still raises the recorded size of the file
    to the offset, beyond what the block list can describe. *)
Theorem sfs_io_write_past_max (s : sfs_fs D) (p : ptr) (sv : sfs_vnode) (u : uio) :
  fok s p sv -> kwf u -> uio_rw u = UIO_WRITE -> 0 < uio_resid u -> MAXFILE < uio_offset u ->
  exists s' sv', sfs_io p (s, u) = Done (inl EINVAL, (s', u)) /\
    k_heap s' !! p = Some sv' /\ sfi_size (sv_i sv') = uio_offset u.
Proof.
  intros Hf Hwf Hrw Hr Ho. pose proof Hwf as [].
  assert (wp (sfs_io p) (fun _ _ => False) (fun e su => e = EINVAL /\ snd su = u /\
    exists sv', k_heap (fst su) !! p = Some sv' /\ sfi_size (sv_i sv') = uio_offset u) (s, u)) as Hw.
  { unfold sfs_io. wp_step. wp_step. rewrite bool_decide_eq_false_2 by congruence. unfold io_run. wp_steps.
    assert (forall m, moved u m = moved u 0 -> moved u m = u) as Hm0
      by (intros m ->; rewrite <- (moved_0 u) at 2; by destruct u).
    eapply wp_mono; [by apply wp_io_body_write| |].
    - intros _ [s1 u1] (sv1 & Hd & _). pose proof (id_range _ _ _ _ _ _ _ Hd) as Hrg.
      pose proof (length_slice (uio_kdata u) (iov_base u) (uio_resid u) ltac:(lia) ltac:(lia) ltac:(lia)). lia.
    - intros e [s1 u1] (sv1 & m & Hm & Hd & Hu & Hbd & He). cbn [fst snd] in *.
      pose proof (id_range _ _ _ _ _ _ _ Hd) as Hrg.
      pose proof (length_slice (uio_kdata u) (iov_base u) m ltac:(lia) ltac:(lia) ltac:(lia)) as Hls.
      assert (m = 0) as -> by lia. rewrite (Hm0 0 eq_refl) in Hu. subst u1. wp_step.
      pose proof (id_fok _ _ _ _ _ _ _ Hd) as Hf1.
      pose proof (f_size _ _ (fok_file _ _ _ Hf1)) as Hsz1.
      eapply wp_io_out_write; [done|done|unfold INT_MAX in *; lia|lia|]. rewrite decide_True by lia.
      wp_steps. destruct He as [(_ & ? & _)|[-> _]]; [lia|]. split; [done|]. split; [done|].
      exists (with_size sv1 (uio_offset u)). split; [apply lookup_insert_eq|done]. }
  apply wp_done in Hw as ([e|[]] & [s' u'] & Hio & Hpost); [|done].
  destruct Hpost as (-> & Hu & sv' & Hp & Hs). cbn [fst snd] in *. subst u'. by exists s', sv'.
Qed.
End io.

(** ** A media error while writing *)

Section fault.
Context {H : Type} `{Lhd.DiskHW H}.

(** The first attempt fails, with the whole sector taken out of the [uio]. *)
Lemma lhd_write_fault (lh : lhd_softc H) u b c buf hw' :
  lh_clear lh = 1 -> lh_done lh = 0 -> length (lh_buf lh) = 512%nat ->
  lh_blocks lh < 4194304 -> 0 <= b < lh_blocks lh ->
  kwf u -> uio_rw u = UIO_WRITE -> uio_offset u = b * 512 -> uio_resid u = 512 ->
  hw_run (lh_hw lh) true b (slice (uio_kdata u) (iov_base u) 512) = (LHD_MEDIA, buf, hw') ->
  exists lh1, lhd_io lh u c = Done (EIO, moved u 512, c, lh1) /\
    lh_hw lh1 = hw' /\ lh_blocks lh1 = lh_blocks lh.
Proof.
  intros Hcl Hdn Hbuf Hbl Hb Hwf Hrw Ho Hr Hrun. unfold lhd_io, LHD_SECTSIZE. rewrite Ho, Hr.
  rewrite Z.quot_mul, Z.rem_mul, (u32_small b), (u32_small 0) by lia.
  change (512 mod 512) with 0. change (512 / 512) with 1. rewrite (u32_small (b + 1)) by lia.
  step_tests. change (Z.to_nat 1) with 1%nat. cbn [io_loop]. unfold P_clear. rewrite Hcl. step_tests.
  rewrite Hrw, !decide_True by done. cbn [lh_buf]. unfold LHD_SECTSIZE. pose proof Hwf as [].
  rewrite uiomove_kernel_write by (done || lia). cbn [mbind outcome_bind]. step_tests.
  rewrite splice_all by (pose proof (length_slice (uio_kdata u) (iov_base u) 512); lia).
  unfold lhd_start. cbn [lh_hw lh_buf set_buf].
  change (bool_decide (Z.land (Z.lor LHD_WORKING LHD_ISWRITE) LHD_ISWRITE ≠ 0)) with true.
  rewrite Hrun. unfold P_done, lhd_irq. cbn [lh_stat].
  change (bool_decide (Z.land LHD_MEDIA LHD_STATEMASK = LHD_OK \/
    Z.land LHD_MEDIA LHD_STATEMASK = LHD_INVSECT \/ Z.land LHD_MEDIA LHD_STATEMASK = LHD_MEDIA)) with true.
  cbn [lhd_iodone set_stat lh_done]. rewrite Hdn. eexists. split; [reflexivity|done].
Qed.

(** The retry after an I/O error. *)
Lemma rwblock_eio {D} `{BlockDevice D} (su su1 su2 : sfs_fs D * uio) :
  dev_io su = Done (inr EIO, su1) -> dev_io su1 = Done (inr 0, su2) ->
  sfs_rwblock su = Done (inr tt, su2).
Proof.
  intros Hio1 Hio2. unfold sfs_rwblock, mbind, M_bind. cbn [rwblock_retry]. unfold mbind, M_bind.
  rewrite Hio1. cbn [bool_decide]. change (bool_decide (EIO = EINVAL)) with false.
  change (bool_decide (EIO = EIO)) with true. cbn beta match. rewrite Hio2. reflexivity.
Qed.

(** A request for no sectors succeeds at once. *)
Lemma lhd_empty_request (lh : lhd_softc H) u b c :
  lh_blocks lh < 4194304 -> 0 <= b <= lh_blocks lh -> uio_offset u = b * 512 -> uio_resid u = 0 ->
  lhd_io lh u c = Done (0, u, c, lh).
Proof.
  intros Hbl Hb Ho Hr. unfold lhd_io, LHD_SECTSIZE. rewrite Ho, Hr, Z.quot_mul, Z.rem_mul by lia.
  change (0 mod 512) with 0. change (0 / 512) with 0. rewrite (u32_small b), Z.add_0_r, !u32_small by lia.
  by step_tests.
Qed.

(** C40. When the disk reports a media error for a write, [sfs_rwblock] retries
    with the [uio] that [lhd_io] has already used up: the retry transfers
    nothing and succeeds, so [sfs_wblock] reports success although the only
    operation started on the disk was the failed one. *)
Theorem sfs_wblock_media_error_lost (s : sfs_fs (Lhd.lhd_softc H)) (data : list Z) (b : Z)
    (buf : list Z) (hw' : H) :
  let lh := sfs_device s in
  Lhd.lh_clear lh = 1 -> Lhd.lh_done lh = 0 -> length (Lhd.lh_buf lh) = 512%nat ->
  Lhd.lh_blocks lh < 4194304 -> 0 <= b < Lhd.lh_blocks lh -> length data = 512%nat ->
  Lhd.hw_run (Lhd.lh_hw lh) true b data = (Lhd.LHD_MEDIA, buf, hw') ->
  exists s', sfs_wblock data b s = Done (inr tt, s') /\ Lhd.lh_hw (sfs_device s') = hw'.
Proof.
  intros lh Hcl Hdn Hbuf Hbl Hb Hdata Hrun. subst lh.
  set (u := mk_kuio data 512 (b * 512) UIO_WRITE).
  assert (kwf u) as Hwf by (apply mk_kuio_kwf; unfold INT_MAX; lia).
  destruct (lhd_write_fault (sfs_device s) u b (k_ctx s) buf hw') as (lh1 & Hio & Hhw & Hbl1);
    try done; [by cbn; rewrite slice_all by lia|].
  pose proof (lhd_empty_request lh1 (moved u 512) (b + 1) (k_ctx s) ltac:(lia) ltac:(lia)
    ltac:(cbn; lia) ltac:(cbn; lia)) as Hio2.
  exists (set_device s lh1 (k_ctx s)). split; [|done].
  assert (sfs_rwblock (s, u) = Done (inr tt, (set_device s lh1 (k_ctx s), moved u 512))) as Hrw.
  { eapply rwblock_eio; unfold dev_io; cbn [d_io lhd_device]; [by rewrite Hio|]. cbn [set_device sfs_device k_ctx].
    by rewrite Hio2. }
  unfold sfs_wblock, mbind, M_bind, lift. rewrite SFSUIO_ok by lia. fold u.
  cbn [mbind outcome_bind]. unfold with_uio. by rewrite Hrw.
Qed.
End fault.

(** ** Witnesses *)

Definition ex_wr : uio := mk_kuio (replicate 600 9) 600 500 UIO_WRITE.
Definition ex_rd : uio := mk_kuio (zeros 600) 600 500 UIO_READ.

Lemma ex_wr_kwf : kwf ex_wr.
Proof. by apply mk_kuio_kwf; vm_compute. Qed.
Lemma ex_rd_kwf : kwf ex_rd.
Proof. by apply mk_kuio_kwf; vm_compute. Qed.

Lemma sfs_io_read_refines_witness :
  let n := readable ex_file_inode 500 600 in
  exists s' u', sfs_io ex_file (ex_fs, ex_rd) = Done (inr tt, (s', u')) /\ quiet ex_fs s' /\
    uio_kdata u' = splice (zeros 600) 0 (fbytes ex_fs ex_file_inode 500 n) /\
    uio_offset u' = 500 + n /\ uio_resid u' = 600 - n.
Proof.
  apply (sfs_io_read_refines ex_fs ex_file ex_file_sv ex_rd);
    [apply ex_file_fok|apply ex_rd_kwf|done|cbn; lia].
Defined.

Lemma sfs_io_write_refines_witness :
  exists r s' u' m, sfs_io ex_file (ex_fs, ex_wr) = Done (r, (s', u')) /\ 0 <= m <= 600 /\
    written ex_fs s' ex_file ex_file_sv ex_wr m u' /\ write_result s' 500 600 m r.
Proof.
  apply (sfs_io_write_refines ex_fs ex_file ex_file_sv ex_wr);
    [apply ex_file_fok|apply ex_wr_kwf|done|cbn; lia|cbn; unfold MAXFILE; lia].
Defined.

(** The state after the write. *)
Definition ex_after : sfs_fs (Lhd.lhd_softc Lhd.simdisk) * uio :=
  match sfs_io ex_file (ex_fs, ex_wr) with Done (_, su) => su | _ => (ex_fs, ex_wr) end.

Lemma ex_after_eq : sfs_io ex_file (ex_fs, ex_wr) = Done (inr tt, (fst ex_after, snd ex_after)).
Proof. vm_compute. reflexivity. Qed.

Lemma sfs_io_write_read_roundtrip_witness :
  exists s'' rd', sfs_io ex_file (fst ex_after, ex_rd) = Done (inr tt, (s'', rd')) /\
    uio_resid rd' = 0 /\ uio_kdata rd' = splice (zeros 600) 0 (slice (replicate 600 9) 0 600).
Proof.
  apply (sfs_io_write_read_roundtrip ex_fs (fst ex_after) ex_file ex_file_sv ex_wr (snd ex_after) ex_rd);
    [apply ex_file_fok|apply ex_wr_kwf|done|cbn; lia|cbn; unfold MAXFILE; lia|apply ex_after_eq
    |apply ex_rd_kwf|done|done|done].
Defined.

Lemma ex_disjoint : disjoint ex_fs ex_root_inode ex_file_inode.
Proof.
  intros b. unfold ex_root_inode, ex_file_inode. rewrite !one_block_slots. intros Hin Hb Hin'.
  apply elem_of_cons in Hin as [->|Hin]; [|by apply elem_of_replicate in Hin as [-> _]].
  apply elem_of_cons in Hin' as [?|Hin]; [done|by apply elem_of_replicate in Hin as [? _]].
Qed.

Lemma sfs_io_write_isolated_witness :
  fok (fst ex_after) ex_root ex_root_sv /\
  (forall x, 0 <= x < MAXFILE -> fbyte (fst ex_after) ex_root_inode x = fbyte ex_fs ex_root_inode x) /\
  exists sv', k_heap (fst ex_after) !! ex_file = Some sv' /\
    disjoint (fst ex_after) ex_root_inode (sv_i sv').
Proof.
  apply (sfs_io_write_isolated ex_fs (fst ex_after) ex_file ex_root ex_file_sv ex_root_sv ex_wr
    (snd ex_after) (inr tt));
    [apply ex_file_fok|apply ex_wr_kwf|done|cbn; lia|cbn; unfold MAXFILE; lia|apply ex_after_eq
    |done|apply ex_root_fok|apply ex_disjoint].
Defined.

Definition ex_far : uio := mk_kuio [1; 2] 2 100000 UIO_WRITE.

Lemma sfs_io_write_past_max_witness :
  exists s' sv', sfs_io ex_file (ex_fs, ex_far) = Done (inl EINVAL, (s', ex_far)) /\
    k_heap s' !! ex_file = Some sv' /\ sfi_size (sv_i sv') = 100000.
Proof.
  apply (sfs_io_write_past_max ex_fs ex_file ex_file_sv ex_far);
    [apply ex_file_fok|by apply mk_kuio_kwf; vm_compute|done|cbn; lia|cbn; unfold MAXFILE; lia].
Defined.

Lemma sfs_wblock_media_error_lost_witness :
  exists s', sfs_wblock (replicate 512 1) 7 (ex_fs_on (ex_dev [true])) = Done (inr tt, s') /\
    Lhd.lh_hw (sfs_device s') = Lhd.mkSim ex_sectors [].
Proof.
  apply (sfs_wblock_media_error_lost (ex_fs_on (ex_dev [true])) (replicate 512 1) 7 (replicate 512 1));
    try done.
Defined.

End SfsIo.
