(* ===== verification/SfsDir.v ===== *)
(** * SFS: directories as finite maps

    A directory file is a sequence of 64-byte slots; the slots in use give a
    finite map from names to inode numbers.  [sfs_dir_findname] looks a name up
    in that map, [sfs_dir_link] inserts and [sfs_dir_unlink] deletes. *)

From S2P Require Import Prelude KArray KBitmap UserMem Uio BlockDev Lhd.
From S2P Require Import SfsFormat Sfs SfsBlocks SfsFile SfsExample SfsIo.

Module SfsDir.
Import UserMem Uio Lhd SfsFormat Sfs SfsBlocks SfsFile SfsExample SfsIo.

(** ** The map a list of slots stands for *)

Definition live (es : list sfs_dir) : list sfs_dir := filter (fun e => sfd_ino e ≠ SFS_NOINO) es.

Definition dir_names (es : list sfs_dir) : list (list Z) := entry_name <$> live es.

Definition dir_map (es : list sfs_dir) : gmap (list Z) Z :=
  list_to_map ((fun e => (entry_name e, sfd_ino e)) <$> live es).

Definition free_entry : sfs_dir := mkDir SFS_NOINO (zeros SFS_NAMELEN).

Lemma dir_pairs_fst es :
  ((fun e => (entry_name e, sfd_ino e)) <$> live es).*1 = dir_names es.
Proof. unfold dir_names. by rewrite <- list_fmap_compose. Qed.

Lemma live_app es es' : live (es ++ es') = live es ++ live es'.
Proof. apply filter_app. Qed.

Lemma live_free : live [free_entry] = [].
Proof. reflexivity. Qed.

Lemma live_one e : sfd_ino e ≠ SFS_NOINO -> live [e] = [e].
Proof. intros. unfold live. by rewrite filter_cons_True. Qed.

Lemma live_zero e : sfd_ino e = SFS_NOINO -> live [e] = [].
Proof. intros He. unfold live. rewrite filter_cons_False; [done|]. by intros ?. Qed.

Lemma dir_map_lookup es k e :
  NoDup (dir_names es) -> es !! k = Some e -> sfd_ino e ≠ SFS_NOINO ->
  dir_map es !! entry_name e = Some (sfd_ino e).
Proof.
  intros Hnd Hk He. apply elem_of_list_to_map; [by rewrite dir_pairs_fst|].
  apply list_elem_of_fmap. exists e. split; [done|]. apply list_elem_of_filter.
  split; [done|]. by eapply list_elem_of_lookup_2.
Qed.

Lemma dir_map_none es name :
  (forall k e, es !! k = Some e -> sfd_ino e ≠ SFS_NOINO -> entry_name e ≠ name) ->
  dir_map es !! name = None /\ name ∉ dir_names es.
Proof.
  intros Hn. assert (name ∉ dir_names es) as Hin.
  { intros (e & -> & [Hi He]%list_elem_of_filter)%list_elem_of_fmap.
    apply list_elem_of_lookup in He as [k Hk]. by eapply Hn. }
  split; [|done]. apply not_elem_of_list_to_map_1. by rewrite dir_pairs_fst.
Qed.

Lemma split_at (es : list sfs_dir) k e :
  es !! k = Some e -> es = take k es ++ [e] ++ drop (S k) es /\
  forall e', <[k := e']> es = take k es ++ [e'] ++ drop (S k) es.
Proof.
  intros Hk. split; [symmetry; by apply take_drop_middle|]. intros e'.
  apply insert_take_drop. by apply lookup_lt_Some in Hk.
Qed.

(** A new entry in a free slot or at the end. *)
Lemma dir_map_add a b e :
  sfd_ino e ≠ SFS_NOINO -> NoDup (dir_names (a ++ b)) -> entry_name e ∉ dir_names (a ++ b) ->
  NoDup (dir_names (a ++ [e] ++ b)) /\
  dir_map (a ++ [e] ++ b) = <[entry_name e := sfd_ino e]> (dir_map (a ++ b)).
Proof.
  intros He Hnd Hnew.
  assert (live (a ++ [e] ++ b) ≡ₚ e :: live (a ++ b)) as Hperm.
  { rewrite !live_app, live_one by done. by rewrite Permutation_middle. }
  assert (NoDup (dir_names (a ++ [e] ++ b))) as Hnd'.
  { unfold dir_names. rewrite Hperm. by apply NoDup_cons_2. }
  split; [done|]. unfold dir_map.
  etransitivity; [apply list_to_map_proper; [by rewrite dir_pairs_fst|by rewrite Hperm]|done].
Qed.

(** An entry taken out. *)
Lemma dir_map_drop a b e :
  sfd_ino e ≠ SFS_NOINO -> NoDup (dir_names (a ++ [e] ++ b)) ->
  NoDup (dir_names (a ++ b)) /\ dir_map (a ++ b) = delete (entry_name e) (dir_map (a ++ [e] ++ b)).
Proof.
  intros He Hnd.
  assert (live (a ++ [e] ++ b) ≡ₚ e :: live (a ++ b)) as Hperm.
  { rewrite !live_app, live_one by done. by rewrite Permutation_middle. }
  assert (NoDup (entry_name e :: dir_names (a ++ b))) as Hnd2.
  { unfold dir_names in *. by rewrite Hperm in Hnd. }
  apply NoDup_cons in Hnd2 as [Hnew Hnd2]. split; [done|].
  destruct (dir_map_add a b e He Hnd2 Hnew) as [_ ->]. rewrite delete_insert_eq. symmetry.
  apply delete_id, not_elem_of_list_to_map_1. by rewrite dir_pairs_fst.
Qed.

Lemma names_free a b e : sfd_ino e = SFS_NOINO ->
  dir_names (a ++ [e] ++ b) = dir_names (a ++ b) /\ dir_map (a ++ [e] ++ b) = dir_map (a ++ b).
Proof. intros He. unfold dir_names, dir_map. rewrite !live_app, (live_zero e) by done. done. Qed.

(** ** Names *)

(** A name as the kernel hands it to the file system: a C string. *)
Definition name_ok (name : list Z) : Prop := Forall (fun b => b ≠ 0) name.

Lemma cstr_app name l : name_ok name -> cstr (name ++ 0 :: l) = name.
Proof.
  induction 1 as [|b name Hb Hn IH]; cbn [cstr app].
  - by rewrite bool_decide_eq_true_2.
  - rewrite bool_decide_eq_false_2 by done. by rewrite IH.
Qed.

Lemma length_name_field name :
  Z.of_nat (length name) + 1 <= SFS_NAMELEN -> length (name_field name) = 60%nat.
Proof.
  intros Hl. unfold name_field. rewrite length_splice; [done|lia|].
  rewrite length_app, length_zeros; unfold SFS_NAMELEN in *; cbn [length]; lia.
Qed.

Lemma entry_name_field ino name :
  name_ok name -> Z.of_nat (length name) + 1 <= SFS_NAMELEN ->
  entry_name (mkDir ino (name_field name)) = name.
Proof.
  intros Hn Hl. unfold entry_name, name_field, splice, SFS_NAMELEN in *. cbn [sfd_name].
  change (Z.to_nat 0) with 0%nat. rewrite <- app_assoc, take_0. cbn [app].
  destruct (decide (length name = 59%nat)) as [Heq|Hne].
  - rewrite insert_app_r_alt by lia. rewrite Heq. cbn [Nat.sub insert list_insert]. by apply cstr_app.
  - rewrite insert_app_r_alt by lia. replace (59 - length name)%nat with (S (58 - length name)) by lia.
    cbn [insert list_insert]. by apply cstr_app.
Qed.

(** ** The slots of a directory file *)

Section dir.
Context {D : Type} `{BlockDevice D} `{!BlockDeviceLaws D}.
Implicit Types (s : sfs_fs D) (i : sfs_inode) (sv : sfs_vnode).

Definition nents i : Z := sfi_size i / 64.

Definition dirents s i : list sfs_dir :=
  (fun k => dir_of_bytes (fbytes s i (64 * k) 64)) <$> seqZ 0 (nents i).

(** A sound directory: whole slots, no name twice. *)
Record dok s (p : ptr) sv : Prop := {
  dk_fok : fok s p sv;
  dk_type : sfi_type (sv_i sv) = SFS_TYPE_DIR;
  dk_size : sfi_size (sv_i sv) mod 64 = 0;
  dk_names : NoDup (dir_names (dirents s (sv_i sv)))
}.

Lemma nents_range s p sv :
  fok s p sv -> sfi_size (sv_i sv) mod 64 = 0 ->
  sfi_size (sv_i sv) = 64 * nents (sv_i sv) /\ 0 <= nents (sv_i sv) <= 1144.
Proof.
  intros [_ _ [Hi _ _ Hsz]] Hm. pose proof (iwf_size _ Hi). unfold nents, MAXFILE in *.
  pose proof (Z.div_mod (sfi_size (sv_i sv)) 64 ltac:(lia)). split; [lia|].
  split; [apply Z.div_pos; lia|lia].
Qed.

Lemma length_dirents s i : 0 <= nents i -> Z.of_nat (length (dirents s i)) = nents i.
Proof. intros. unfold dirents. rewrite length_fmap, length_seqZ. lia. Qed.

Lemma dirents_lookup s i k :
  0 <= k < nents i -> dirents s i !! Z.to_nat k = Some (dir_of_bytes (fbytes s i (64 * k) 64)).
Proof.
  intros Hk. unfold dirents. rewrite list_lookup_fmap, lookup_seqZ_lt by lia. cbn. do 4 f_equal. lia.
Qed.

Lemma quiet_dirents s s' p sv :
  fok s p sv -> sfi_size (sv_i sv) mod 64 = 0 -> quiet s s' -> dirents s' (sv_i sv) = dirents s (sv_i sv).
Proof.
  intros Hf Hm Hq. destruct (nents_range s p sv Hf Hm) as [Hs Hn].
  unfold dirents. apply list_fmap_ext. intros j k Hk. apply lookup_seqZ in Hk as [-> Hk].
  f_equal. apply fbytes_ext; [lia|]. intros x Hx. eapply quiet_fbyte; [done|done|].
  unfold MAXFILE. lia.
Qed.

Lemma quiet_dok s s' p sv : dok s p sv -> quiet s s' -> dok s' p sv.
Proof.
  intros [] Hq. split; [by eapply quiet_fok|done|done|]. by rewrite (quiet_dirents s s' p).
Qed.

Lemma slot_pos k : 0 <= k <= 1144 -> s32 (u32 (k * SIZEOF_SFS_DIR)) = 64 * k.
Proof.
  intros. unfold SIZEOF_SFS_DIR. rewrite u32_small, s32_small by (unfold INT_MIN, INT_MAX; lia). lia.
Qed.

(** ** Reading and writing a slot *)

Lemma wp_readdir s p sv k (Q : sfs_dir -> sfs_fs D -> Prop) E :
  fok s p sv -> sfi_size (sv_i sv) mod 64 = 0 -> 0 <= k < nents (sv_i sv) ->
  (forall s' e, quiet s s' -> dirents s (sv_i sv) !! Z.to_nat k = Some e -> Q e s') ->
  wp (sfs_readdir p k) Q E s.
Proof.
  intros Hf Hm Hk HQ. destruct (nents_range s p sv Hf Hm) as [Hs Hn].
  unfold sfs_readdir. cbn zeta. rewrite slot_pos by lia. wp_steps.
  eapply wp_sfs_io_read; [done|apply mk_kuio_kwf; unfold SIZEOF_SFS_DIR, INT_MAX; try lia; done|done|done|].
  intros [s' u'] [Hq Hu]. cbn [fst snd] in *. subst u'. cbn [uio_offset uio_resid mk_kuio] in *.
  assert (readable (sv_i sv) (64 * k) SIZEOF_SFS_DIR = 64) as Hr
    by (unfold readable, SIZEOF_SFS_DIR; lia).
  rewrite Hr. cbn [uio_resid moved mk_kuio set_kdata]. step_tests.
  wp_steps. apply HQ; [done|]. rewrite dirents_lookup by done.
  cbn [uio_kdata moved mk_kuio set_kdata iov_base]. rewrite splice_all; [done|].
  pose proof (length_fbytes s (sv_i sv) (64 * k) 64 ltac:(lia)).
  change (length (zeros SIZEOF_SFS_DIR)) with 64%nat. lia.
Qed.

Lemma fbytes_wrote_at s s' i i' off data :
  wrote s s' i i' off data -> 0 <= off -> off + Z.of_nat (length data) <= MAXFILE ->
  fbytes s' i' off (Z.of_nat (length data)) = data.
Proof.
  intros Hw Ho Hm. pose proof (length_fbytes s' i' off (Z.of_nat (length data)) ltac:(lia)).
  apply (list_nth_eq _ _ 0); [lia|]. intros j Hj. rewrite nth_fbytes, Hw by lia.
  rewrite decide_True by lia. f_equal. lia.
Qed.

Lemma fbytes_wrote_away s s' i i' off data a n :
  wrote s s' i i' off data -> 0 <= a -> a + n <= MAXFILE ->
  a + n <= off \/ off + Z.of_nat (length data) <= a ->
  fbytes s' i' a n = fbytes s i a n.
Proof.
  intros Hw Ha Hn Haway. unfold fbytes. apply list_fmap_ext. intros j x Hj.
  apply lookup_seqZ in Hj as [-> Hj]. rewrite Hw by lia. by rewrite decide_False by lia.
Qed.

(** Entry [sd] in slot [k], which is in use, free, or just past the end. *)
Definition dir_put (es : list sfs_dir) (k : Z) (sd : sfs_dir) : list sfs_dir :=
  take (Z.to_nat k) es ++ [sd] ++ drop (S (Z.to_nat k)) es.

Lemma dir_put_lookup es k sd j :
  0 <= k <= Z.of_nat (length es) ->
  dir_put es k sd !! j = if decide (j = Z.to_nat k) then Some sd else es !! j.
Proof.
  intros Hk. unfold dir_put. assert (length (take (Z.to_nat k) es) = Z.to_nat k) as Hl
    by (rewrite length_take; lia).
  case_decide as Hj; [subst j; by apply list_lookup_middle|].
  destruct (decide (j < Z.to_nat k)%nat).
  - rewrite lookup_app_l by lia. by rewrite lookup_take_lt by lia.
  - rewrite lookup_app_r by lia. rewrite Hl. cbn [app].
    replace (j - Z.to_nat k)%nat with (S (j - S (Z.to_nat k))) by lia.
    rewrite lookup_cons, lookup_drop. f_equal. lia.
Qed.

Lemma dirents_written s s' p sv sv' k sd :
  fok s p sv -> fok s' p sv' -> sfi_size (sv_i sv) mod 64 = 0 -> 0 <= k <= nents (sv_i sv) ->
  0 <= sfd_ino sd < 4294967296 -> length (sfd_name sd) = 60%nat ->
  wrote s s' (sv_i sv) (sv_i sv') (64 * k) (dir_bytes sd) ->
  sfi_size (sv_i sv') = Z.max (sfi_size (sv_i sv)) (64 * k + 64) ->
  sfi_size (sv_i sv') mod 64 = 0 /\ dirents s' (sv_i sv') = dir_put (dirents s (sv_i sv)) k sd.
Proof.
  intros Hf Hf' Hm Hk Hino Hname Hw Hsz. destruct (nents_range s p sv Hf Hm) as [Hs Hn].
  assert (sfi_size (sv_i sv') = 64 * Z.max (nents (sv_i sv)) (k + 1)) as Hsz' by lia.
  assert (sfi_size (sv_i sv') mod 64 = 0) as Hm' by (rewrite Hsz', Z.mul_comm; by apply Z.mod_mul).
  split; [done|]. destruct (nents_range s' p sv' Hf' Hm') as [Hs' Hn'].
  assert (nents (sv_i sv') = Z.max (nents (sv_i sv)) (k + 1)) as Hnn by lia.
  pose proof (length_dirents s (sv_i sv) ltac:(lia)) as Hl.
  pose proof (length_dirents s' (sv_i sv') ltac:(lia)) as Hl'.
  pose proof (length_dir_bytes sd Hname) as Hlb.
  apply list_eq. intros j. rewrite dir_put_lookup by lia. rewrite <- (Nat2Z.id j).
  destruct (decide (Z.of_nat j < nents (sv_i sv'))) as [Hj|Hj].
  - rewrite dirents_lookup by lia. case_decide as Hjk.
    + assert (Z.of_nat j = k) as -> by lia. f_equal.
      pose proof (fbytes_wrote_at _ _ _ _ _ _ Hw) as Hfb. rewrite Hlb in Hfb.
      change (Z.of_nat 64) with 64 in Hfb. rewrite Hfb by (unfold MAXFILE; lia). by apply dir_roundtrip.
    + rewrite dirents_lookup by lia. do 2 f_equal.
      eapply fbytes_wrote_away; [exact Hw|lia|unfold MAXFILE; lia|rewrite Hlb; lia].
  - rewrite decide_False by lia. rewrite !lookup_ge_None_2 by lia. done.
Qed.

(** The directory after [sd] went to slot [k]. *)
Definition put_done s (p : ptr) sv (k : Z) (sd : sfs_dir) (s' : sfs_fs D) : Prop :=
  exists sv', fok s' p sv' /\ ext s s' p sv sv' /\ sfi_size (sv_i sv') mod 64 = 0 /\
    dirents s' (sv_i sv') = dir_put (dirents s (sv_i sv)) k sd.

(** The directory as before, the volume or the directory being full. *)
Definition put_failed s (p : ptr) sv (e : Z) (s' : sfs_fs D) : Prop :=
  (e = ENOSPC /\ full s' \/ e = EINVAL /\ sfi_size (sv_i sv) = MAXFILE) /\
  exists sv', fok s' p sv' /\ ext s s' p sv sv' /\ sfi_size (sv_i sv') = sfi_size (sv_i sv) /\
    dirents s' (sv_i sv') = dirents s (sv_i sv).

(** An entry does not cross a block boundary, so it is written as a whole. *)
Lemma entry_boundary k m : 0 <= m < 64 -> (64 * k + m) mod 512 = 0 -> m = 0.
Proof.
  intros Hm Hz. pose proof (Z.div_mod (64 * k + m) 512 ltac:(lia)). lia.
Qed.

Lemma wp_writedir s p sv k sd :
  fok s p sv -> sfi_size (sv_i sv) mod 64 = 0 -> 0 <= k <= nents (sv_i sv) ->
  0 <= sfd_ino sd < 4294967296 -> length (sfd_name sd) = 60%nat ->
  wp (sfs_writedir p sd k) (fun _ => put_done s p sv k sd) (put_failed s p sv) s.
Proof.
  intros Hf Hm Hk Hino Hname. destruct (nents_range s p sv Hf Hm) as [Hs Hn].
  pose proof (length_dir_bytes sd Hname) as Hlb.
  set (u := mk_kuio (dir_bytes sd) SIZEOF_SFS_DIR (64 * k) UIO_WRITE).
  unfold sfs_writedir. wp_step. apply wp_massert; [apply bool_decide_eq_true_2; lia|].
  cbn zeta. rewrite slot_pos by lia. wp_steps.
  eapply wp_mono; [eapply wp_untry, (wp_sfs_io_write s p sv u); [done| |done|done|]| |].
  - apply mk_kuio_kwf; unfold SIZEOF_SFS_DIR, INT_MAX; lia.
  - cbn. unfold MAXFILE. lia.
  - intros [] [s' u'] (m & _ & (sv' & Hf' & He & Hw & Hsz & Hu) & Hres). cbn [fst snd] in *. subst u'.
    destruct Hres as [[_ ->]|[[? _]|[? _]]]; [|done|done].
    cbn [uio_resid moved mk_kuio u]. rewrite Z.sub_diag. step_tests. wp_steps.
    exists sv'. split; [done|]. split; [done|].
    cbn [uio_kdata iov_base uio_offset uio_resid mk_kuio u] in Hw, Hsz. unfold SIZEOF_SFS_DIR in *.
    rewrite slice_all in Hw by lia. by eapply dirents_written.
  - intros e [s' u'] (m & Hmr & (sv' & Hf' & He & Hw & Hsz & Hu) & Hres). cbn [fst snd] in *.
    cbn [uio_kdata iov_base uio_offset uio_resid mk_kuio u] in *. unfold SIZEOF_SFS_DIR in *.
    assert (m = 0 /\ (e = ENOSPC /\ full s' \/ e = EINVAL /\ 64 * k = MAXFILE)) as [Hm0 Hcase].
    { destruct Hres as [[? _]|[(Heq & ? & _ & Hfull & Hb)|(Heq & ? & Hb)]]; [done|..].
      - injection Heq as ->. destruct Hb as [->|Hb]; [auto|]. apply entry_boundary in Hb; [auto|lia].
      - injection Heq as ->. unfold MAXFILE in *. lia. }
    clear Hres. subst m. split; [destruct Hcase as [?|[? ?]]; [by left|right; split; [done|unfold MAXFILE in *; lia]]|].
    exists sv'. split; [done|]. split; [done|]. split; [lia|]. unfold dirents, nents.
    replace (sfi_size (sv_i sv')) with (sfi_size (sv_i sv)) by lia.
    apply list_fmap_ext. intros j x Hx. apply lookup_seqZ in Hx as [-> Hx]. fold (nents (sv_i sv)) in Hx.
    f_equal. eapply fbytes_wrote_away; [exact Hw|lia|unfold MAXFILE; lia|].
    unfold slice. cbn [Z.to_nat]. rewrite take_0. cbn [length]. lia.
Qed.

(** ** Searching *)

(** What the first [n] slots say about [name]. *)
Record find_ok (es : list sfs_dir) (n : Z) (name : list Z) (fr : find_result) : Prop := {
  fo_found : match fr_found fr with
    | Some (ino, k) => 0 <= k < n /\ exists e, es !! Z.to_nat k = Some e /\ sfd_ino e = ino /\
        ino ≠ SFS_NOINO /\ entry_name e = name
    | None => forall k e, 0 <= k < n -> es !! Z.to_nat k = Some e -> sfd_ino e ≠ SFS_NOINO ->
        entry_name e ≠ name
    end;
  fo_empty : match fr_empty fr with
    | Some k => 0 <= k < n /\ (exists e, es !! Z.to_nat k = Some e /\ sfd_ino e = SFS_NOINO) /\
        forall j e, k < j < n -> es !! Z.to_nat j = Some e -> sfd_ino e ≠ SFS_NOINO
    | None => forall k e, 0 <= k < n -> es !! Z.to_nat k = Some e -> sfd_ino e ≠ SFS_NOINO
    end
}.

(** The result code of the search. *)
Definition find_code (fr : find_result) : Z := match fr_found fr with Some _ => 0 | None => ENOENT end.

(** Two slots in use have different names. *)
Lemma names_inj es j k a b :
  NoDup (dir_names es) -> es !! j = Some a -> es !! k = Some b ->
  sfd_ino a ≠ SFS_NOINO -> sfd_ino b ≠ SFS_NOINO -> entry_name a = entry_name b -> j = k.
Proof.
  revert j k. induction es as [|e es IH]; intros j k Hnd Hj Hk Ha Hb Hab; [done|].
  assert (forall x, x ∈ es -> sfd_ino x ≠ SFS_NOINO -> entry_name x ∈ dir_names es) as Hin.
  { intros x Hx Hx0. apply list_elem_of_fmap. exists x. split; [done|]. by apply list_elem_of_filter. }
  assert (NoDup (dir_names es) /\ (sfd_ino e ≠ SFS_NOINO -> entry_name e ∉ dir_names es)) as [Hnd' He].
  { unfold dir_names, live in *. destruct (decide (sfd_ino e = SFS_NOINO)) as [E|E].
    - rewrite filter_cons_False in Hnd by (by intros ?). done.
    - rewrite filter_cons_True in Hnd by done. apply NoDup_cons in Hnd as [? ?]. done. }
  destruct j as [|j], k as [|k]; cbn in Hj, Hk.
  - done.
  - injection Hj as ->. destruct (He Ha). rewrite Hab. apply Hin; [by eapply list_elem_of_lookup_2|done].
  - injection Hk as ->. destruct (He Hb). rewrite <- Hab. apply Hin; [by eapply list_elem_of_lookup_2|done].
  - f_equal. by eapply IH.
Qed.

Lemma wp_dir_nentries s p sv (Q : Z -> sfs_fs D -> Prop) E :
  dok s p sv -> Q (nents (sv_i sv)) s -> wp (sfs_dir_nentries p) Q E s.
Proof.
  intros [Hf Ht Hm _] HQ. destruct (nents_range s p sv Hf Hm) as [Hs Hn].
  unfold sfs_dir_nentries. wp_step. eapply wp_deref; [apply Hf|]. wp_step.
  apply wp_massert; [by apply bool_decide_eq_true_2|]. cbn zeta.
  rewrite s32_small, u32_small by (unfold INT_MIN, INT_MAX; lia). unfold SIZEOF_SFS_DIR. rewrite Hm.
  step_tests. wp_steps. fold (nents (sv_i sv)). rewrite s32_small by (unfold INT_MIN, INT_MAX; lia). done.
Qed.

Lemma find_ok_step es k name fr e :
  NoDup (dir_names es) -> 0 <= k -> es !! Z.to_nat k = Some e -> find_ok es k name fr ->
  (sfd_ino e = SFS_NOINO -> find_ok es (k + 1) name (mkFind (fr_found fr) (Some k))) /\
  (sfd_ino e ≠ SFS_NOINO -> entry_name e = name ->
     fr_found fr = None /\ find_ok es (k + 1) name (mkFind (Some (sfd_ino e, k)) (fr_empty fr))) /\
  (sfd_ino e ≠ SFS_NOINO -> entry_name e ≠ name -> find_ok es (k + 1) name fr).
Proof.
  intros Hnd Hk He [Hfound Hempty].
  assert (forall j x, 0 <= j < k + 1 -> es !! Z.to_nat j = Some x -> (0 <= j < k) \/ x = e) as Hlast.
  { intros j x Hj Hx. destruct (decide (j = k)) as [->|]; [right; congruence|left; lia]. }
  assert (fr_empty fr = None -> sfd_ino e ≠ SFS_NOINO ->
    forall j x, 0 <= j < k + 1 -> es !! Z.to_nat j = Some x -> sfd_ino x ≠ SFS_NOINO) as Hem.
  { intros Hn Hi j x Hj Hx. rewrite Hn in Hempty.
    destruct (Hlast j x Hj Hx) as [?| ->]; [by eapply Hempty|done]. }
  assert (forall i : Z, sfd_ino e ≠ SFS_NOINO -> 0 <= i ->
    (forall j x, i < j < k -> es !! Z.to_nat j = Some x -> sfd_ino x ≠ SFS_NOINO) ->
    forall j x, i < j < k + 1 -> es !! Z.to_nat j = Some x -> sfd_ino x ≠ SFS_NOINO) as Hafter.
  { intros i Hi Hi0 Hno j x Hj Hx. destruct (Hlast j x ltac:(lia) Hx) as [?| ->]; [eapply Hno; [|done]; lia|done]. }
  assert (fr_found fr = None -> (sfd_ino e ≠ SFS_NOINO -> entry_name e ≠ name) ->
    forall j x, 0 <= j < k + 1 -> es !! Z.to_nat j = Some x -> sfd_ino x ≠ SFS_NOINO -> entry_name x ≠ name) as Hfo.
  { intros Hn Hi j x Hj Hx Hx0. rewrite Hn in Hfound.
    destruct (Hlast j x Hj Hx) as [?| ->]; [by eapply Hfound|auto]. }
  split; [|split].
  - intros Hi. split; cbn [fr_found fr_empty]; [|split; [lia|split; [by eauto|intros; lia]]].
    destruct (fr_found fr) as [[ino j]|]; [destruct Hfound; split; [lia|done]|by apply Hfo].
  - intros Hi Hn. destruct (fr_found fr) as [[ino j]|] eqn:Ef.
    { destruct Hfound as (Hj & x & Hx & <- & Hx0 & Hxn). exfalso.
      assert (Z.to_nat j = Z.to_nat k) by (eapply names_inj; eauto; congruence). lia. }
    split; [done|]. split; cbn [fr_found fr_empty]; [split; [lia|eauto 6]|].
    destruct (fr_empty fr) as [j|]; [destruct Hempty as (? & ? & ?); split; [lia|split; [done|apply Hafter; [done|lia|done]]]|by apply Hem].
  - intros Hi Hn. split.
    + destruct (fr_found fr) as [[ino j]|]; [destruct Hfound; split; [lia|done]|by apply Hfo].
    + destruct (fr_empty fr) as [j|]; [destruct Hempty as (? & ? & ?); split; [lia|split; [done|apply Hafter; [done|lia|done]]]|by apply Hem].
Qed.

Lemma wp_findname_loop n k s p sv name fr (Q : find_result -> sfs_fs D -> Prop) E :
  dok s p sv -> 0 <= k -> k + Z.of_nat n = nents (sv_i sv) -> find_ok (dirents s (sv_i sv)) k name fr ->
  (forall s' fr', quiet s s' -> find_ok (dirents s (sv_i sv)) (nents (sv_i sv)) name fr' -> Q fr' s') ->
  wp (findname_loop n k p name fr) Q E s.
Proof.
  revert k s fr. induction n as [|n IH]; intros k s fr Hd Hk Hn Hfo HQ; cbn [findname_loop].
  - wp_steps. apply HQ; [apply quiet_refl, Hd|]. by replace (nents (sv_i sv)) with k by lia.
  - pose proof Hd as [Hf Ht Hm Hnd]. wp_step. eapply wp_readdir; [done|done|lia|].
    intros s1 e Hq He. pose proof (quiet_dok s s1 p sv Hd Hq) as Hd1.
    pose proof (quiet_dirents s s1 p sv Hf Hm Hq) as Hes.
    destruct (find_ok_step _ k name fr e Hnd Hk He Hfo) as (H1 & H2 & H3).
    assert (forall fr', find_ok (dirents s (sv_i sv)) (k + 1) name fr' ->
      wp (findname_loop n (k + 1) p name fr') Q E s1) as Hgo.
    { intros fr' Hfr'. apply IH; [done|lia|lia|by rewrite Hes|]. intros s2 fr2 Hq2. rewrite Hes.
      apply HQ. by eapply quiet_trans. }
    case_bool_decide; [by apply Hgo, H1|]. case_bool_decide; [|by apply Hgo, H3].
    destruct H2 as [H2 H2']; [done..|]. wp_step. apply wp_massert; [by apply bool_decide_eq_true_2|].
    by apply Hgo.
Qed.

Lemma wp_dir_findname s p sv name (Q : Z * find_result -> sfs_fs D -> Prop) E :
  dok s p sv ->
  (forall s' fr, quiet s s' -> find_ok (dirents s (sv_i sv)) (nents (sv_i sv)) name fr -> Q (find_code fr, fr) s') ->
  wp (sfs_dir_findname p name) Q E s.
Proof.
  intros Hd HQ. pose proof Hd as [Hf Ht Hm Hnd]. destruct (nents_range s p sv Hf Hm) as [Hs Hn].
  unfold sfs_dir_findname. wp_step. apply (wp_dir_nentries s p sv); [done|].
  wp_step. apply (wp_findname_loop _ 0 s p sv); [done|lia|lia| |].
  - split; cbn; intros k e ?; lia.
  - intros s' fr Hq Hfo. wp_steps. by apply HQ.
Qed.

(** The search as a lookup in the map. *)
Lemma find_ok_map s p sv name fr :
  dok s p sv -> find_ok (dirents s (sv_i sv)) (nents (sv_i sv)) name fr ->
  dir_map (dirents s (sv_i sv)) !! name = fst <$> fr_found fr /\
  (fr_found fr = None -> name ∉ dir_names (dirents s (sv_i sv))).
Proof.
  intros Hd [Hfound _]. pose proof Hd as [Hf Ht Hm Hnd]. destruct (nents_range s p sv Hf Hm) as [Hs Hn].
  pose proof (length_dirents s (sv_i sv) ltac:(lia)) as Hl.
  destruct (fr_found fr) as [[ino k]|]; cbn.
  - destruct Hfound as (Hk & e & He & <- & Hi & <-). split; [|done]. by eapply dir_map_lookup.
  - assert (forall k e, dirents s (sv_i sv) !! k = Some e -> sfd_ino e ≠ SFS_NOINO -> entry_name e ≠ name) as Hno.
    { intros k e Hk. eapply (Hfound (Z.of_nat k)); [apply lookup_lt_Some in Hk; lia|by rewrite Nat2Z.id]. }
    destruct (dir_map_none _ _ Hno). done.
Qed.

(** ** Linking and unlinking *)

Lemma dir_put_split es k :
  0 <= k <= Z.of_nat (length es) ->
  (k = Z.of_nat (length es) \/ exists e, es !! Z.to_nat k = Some e /\ sfd_ino e = SFS_NOINO) ->
  dir_names (take (Z.to_nat k) es ++ drop (S (Z.to_nat k)) es) = dir_names es /\
  dir_map (take (Z.to_nat k) es ++ drop (S (Z.to_nat k)) es) = dir_map es.
Proof.
  intros Hk [->|(e & He & Hi)].
  - rewrite Nat2Z.id, firstn_all, drop_ge by lia. by rewrite app_nil_r.
  - destruct (split_at es _ e He) as [Hes _]. rewrite Hes at 3 6.
    destruct (names_free (take (Z.to_nat k) es) (drop (S (Z.to_nat k)) es) e Hi). done.
Qed.

Lemma dir_put_new es k sd :
  0 <= k <= Z.of_nat (length es) ->
  (k = Z.of_nat (length es) \/ exists e, es !! Z.to_nat k = Some e /\ sfd_ino e = SFS_NOINO) ->
  sfd_ino sd ≠ SFS_NOINO -> NoDup (dir_names es) -> entry_name sd ∉ dir_names es ->
  NoDup (dir_names (dir_put es k sd)) /\
  dir_map (dir_put es k sd) = <[entry_name sd := sfd_ino sd]> (dir_map es).
Proof.
  intros Hk Hfree Hi Hnd Hnew. destruct (dir_put_split es k Hk Hfree) as [Hn Hm].
  rewrite <- Hm. apply dir_map_add; [done|by rewrite Hn|by rewrite Hn].
Qed.

Lemma dir_put_free es k e :
  0 <= k -> es !! Z.to_nat k = Some e -> sfd_ino e ≠ SFS_NOINO -> NoDup (dir_names es) ->
  NoDup (dir_names (dir_put es k free_entry)) /\
  dir_map (dir_put es k free_entry) = delete (entry_name e) (dir_map es).
Proof.
  intros Hk He Hi Hnd. destruct (split_at es _ e He) as [Hes _].
  destruct (names_free (take (Z.to_nat k) es) (drop (S (Z.to_nat k)) es) free_entry eq_refl) as [Hn Hm].
  unfold dir_put. rewrite Hn, Hm. rewrite Hes in Hnd. destruct (dir_map_drop _ _ _ Hi Hnd) as [? Heq].
  split; [done|]. rewrite Heq. by rewrite <- Hes.
Qed.

(** The entry went into the map. *)
Definition linked s (p : ptr) sv (name : list Z) (ino k : Z) (s' : sfs_fs D) : Prop :=
  dir_map (dirents s (sv_i sv)) !! name = None /\
  exists sv', dok s' p sv' /\ ext s s' p sv sv' /\
    dir_map (dirents s' (sv_i sv')) = <[name := ino]> (dir_map (dirents s (sv_i sv))) /\
    dirents s' (sv_i sv') = dir_put (dirents s (sv_i sv)) k (mkDir ino (name_field name)) /\
    0 <= k <= nents (sv_i sv).

(** The reasons for which a link is refused; the map is as before. *)
Definition link_error s (p : ptr) sv (name : list Z) (e : Z) (s' : sfs_fs D) : Prop :=
  (e = EEXIST /\ is_Some (dir_map (dirents s (sv_i sv)) !! name)) \/
  (e = ENAMETOOLONG /\ Z.of_nat (length name) >= SFS_NAMELEN) \/
  (e = ENOSPC /\ full s') \/
  (e = EINVAL /\ sfi_size (sv_i sv) = MAXFILE).

Definition link_failed s (p : ptr) sv (name : list Z) (e : Z) (s' : sfs_fs D) : Prop :=
  link_error s p sv name e s' /\
  exists sv', dok s' p sv' /\ ext s s' p sv sv' /\
    dirents s' (sv_i sv') = dirents s (sv_i sv).

Lemma quiet_ext s s' p sv : fok s p sv -> quiet s s' -> ext s s' p sv sv.
Proof. intros Hf Hq. apply (still_quiet s s' p sv Hf Hq). Qed.

Lemma put_failed_dok s p sv e s' :
  dok s p sv -> put_failed s p sv e s' ->
  exists sv', dok s' p sv' /\ ext s s' p sv sv' /\ dirents s' (sv_i sv') = dirents s (sv_i sv).
Proof.
  intros [Hf Ht Hm Hnd] (_ & sv' & Hf' & He & Hsz & Hes). exists sv'. split; [|done].
  split; [done| |congruence|by rewrite Hes].
  by rewrite (h_type _ _ _ _ _ (e_hdr _ _ _ _ _ He)).
Qed.

Lemma quiet_full s s' : quiet s s' -> full s' -> full s.
Proof. intros (d' & -> & _) Hf. exact Hf. Qed.

Lemma wp_dir_link s p sv name ino :
  dok s p sv -> name_ok name -> 0 < ino < 4294967296 ->
  wp (sfs_dir_link p name ino) (linked s p sv name ino) (link_failed s p sv name) s.
Proof.
  intros Hd Hname Hino. pose proof Hd as [Hf Ht Hm Hnd]. destruct (nents_range s p sv Hf Hm) as [Hs Hn].
  pose proof (length_dirents s (sv_i sv) ltac:(lia)) as Hl.
  unfold sfs_dir_link. wp_step. apply (wp_dir_findname s p sv); [done|]. intros s1 fr Hq Hfo.
  pose proof (quiet_dok s s1 p sv Hd Hq) as Hd1. pose proof (quiet_dirents s s1 p sv Hf Hm Hq) as Hes.
  destruct (find_ok_map s p sv name fr Hd Hfo) as [Hmap Hnew].
  unfold find_code. destruct (fr_found fr) as [[i k]|]; cbn in Hmap.
  { change (bool_decide (0 ≠ 0)) with false. rewrite (bool_decide_eq_true_2 (0 = 0)) by done. cbn [andb].
    wp_steps. split; [left; split; [done|eauto]|]. exists sv. split; [done|].
    split; [by apply quiet_ext|done]. }
  specialize (Hnew eq_refl). change (bool_decide (ENOENT ≠ ENOENT)) with false. rewrite andb_false_r.
  rewrite (bool_decide_eq_false_2 (ENOENT = 0)) by done. case_bool_decide as Hlen.
  { wp_steps. split; [right; left; split; [done|lia]|]. exists sv. split; [done|].
    split; [by apply quiet_ext|done]. }
  assert (wp (match fr_empty fr with Some i => mret i | None => sfs_dir_nentries p end)
    (fun k s2 => s2 = s1 /\ 0 <= k <= nents (sv_i sv) /\
       (k = Z.of_nat (length (dirents s (sv_i sv))) \/
        exists e, dirents s (sv_i sv) !! Z.to_nat k = Some e /\ sfd_ino e = SFS_NOINO))
    (link_failed s p sv name) s1) as Hslot.
  { destruct Hfo as [_ Hempty]. destruct (fr_empty fr) as [k|].
    - wp_steps. destruct Hempty as (? & ? & _). split; [done|]. split; [lia|auto].
    - apply (wp_dir_nentries s1 p sv); [done|]. split; [done|]. split; [lia|left; lia]. }
  wp_step. eapply wp_mono; [exact Hslot| |done]. intros k s2 (-> & Hk & Hfree).
  pose proof (entry_name_field ino name Hname ltac:(lia)) as Hen.
  wp_step. eapply wp_mono; [apply (wp_writedir s1 p sv k); [apply Hd1|done|done|cbn; lia|]| |].
  - cbn. apply length_name_field. lia.
  - intros [] s3 (sv' & Hf' & He & Hm' & Hes'). wp_steps.
    destruct (dir_put_new (dirents s (sv_i sv)) k (mkDir ino (name_field name))) as [Hnd' Hmap'];
      [lia|done|cbn; unfold SFS_NOINO; lia|done|by rewrite Hen|].
    split; [done|]. exists sv'. rewrite Hes in Hes'. split; [split; [done| |done|by rewrite Hes']|].
    { by rewrite (h_type _ _ _ _ _ (e_hdr _ _ _ _ _ He)). }
    split; [eapply ext_trans; [done|by apply quiet_ext|done]|]. split; [|done].
    by rewrite Hes', Hmap', Hen.
  - intros e s3 Hfail. destruct (put_failed_dok s1 p sv e s3 Hd1 Hfail) as (sv' & Hd' & He & Hes').
    split; [destruct Hfail as [[[? ?]|[? ?]] _]; unfold link_error; auto|].
    exists sv'. split; [done|]. split; [|congruence].
    eapply ext_trans; [apply Hd'|by apply quiet_ext|done].
Qed.

(** The entry of slot [k] went out of the map. *)
Definition unlinked s (p : ptr) sv (name : list Z) (s' : sfs_fs D) : Prop :=
  exists sv', dok s' p sv' /\ ext s s' p sv sv' /\
    dir_map (dirents s' (sv_i sv')) = delete name (dir_map (dirents s (sv_i sv))).

Lemma wp_dir_unlink s p sv k e :
  dok s p sv -> 0 <= k -> dirents s (sv_i sv) !! Z.to_nat k = Some e -> sfd_ino e ≠ SFS_NOINO ->
  wp (sfs_dir_unlink p k) (fun _ => unlinked s p sv (entry_name e)) (put_failed s p sv) s.
Proof.
  intros Hd Hk He Hi. pose proof Hd as [Hf Ht Hm Hnd]. destruct (nents_range s p sv Hf Hm) as [Hs Hn].
  pose proof (length_dirents s (sv_i sv) ltac:(lia)) as Hl. apply lookup_lt_Some in He as Hlt.
  unfold sfs_dir_unlink. eapply wp_mono; [apply (wp_writedir s p sv k); [done|done|lia|cbn; unfold SFS_NOINO; lia|done]| |done].
  intros [] s' (sv' & Hf' & Hext & Hm' & Hes'). fold free_entry in Hes'.
  destruct (dir_put_free _ k e Hk He Hi Hnd) as [Hnd' Hmap'].
  exists sv'. split; [split; [done| |done|by rewrite Hes']|split; [done|by rewrite Hes']].
  by rewrite (h_type _ _ _ _ _ (e_hdr _ _ _ _ _ Hext)).
Qed.

(** ** Properties *)

(** C16. [sfs_dir_findname] is lookup in the map of the directory and changes
    nothing.  It returns 0 exactly when the map has the name, with the inode
    number it is mapped to and the slot of the one entry in use with that name,
    and ENOENT otherwise; its assertion that a name occurs once cannot fail.
    The empty slot it hands back is the last one of the directory; it hands none
    back exactly when every slot is in use. *)
Theorem sfs_dir_findname_refines (s : sfs_fs D) (p : ptr) (sv : sfs_vnode) (name : list Z) :
  dok s p sv ->
  let es := dirents s (sv_i sv) in
  exists code fr s', sfs_dir_findname p name s = Done (inr (code, fr), s') /\ quiet s s' /\
    match dir_map es !! name with
    | Some ino => code = 0 /\ exists k e, fr_found fr = Some (ino, k) /\ 0 <= k /\ es !! Z.to_nat k = Some e /\
        entry_name e = name /\ sfd_ino e = ino /\ ino ≠ SFS_NOINO
    | None => code = ENOENT /\ fr_found fr = None
    end /\
    match fr_empty fr with
    | Some k => 0 <= k /\ (exists e, es !! Z.to_nat k = Some e /\ sfd_ino e = SFS_NOINO) /\
        Forall (fun e => sfd_ino e ≠ SFS_NOINO) (drop (S (Z.to_nat k)) es)
    | None => Forall (fun e => sfd_ino e ≠ SFS_NOINO) es
    end.
Proof.
  intros Hd es. pose proof Hd as [Hf _ Hm _]. destruct (nents_range s p sv Hf Hm) as [Hs Hn].
  pose proof (length_dirents s (sv_i sv) ltac:(lia)) as Hl. fold es in Hl.
  pose proof (wp_dir_findname s p sv name (fun r s' => quiet s s' /\ r.1 = find_code r.2 /\
    find_ok es (nents (sv_i sv)) name r.2) (fun _ _ => False) Hd) as Hw.
  apply wp_done in Hw as ([e|[code fr]] & s' & Hrun & Hpost); [done| |auto]. destruct Hpost as (Hq & Hcode & Hfo). cbn [fst snd] in *.
  exists code, fr, s'. split; [done|]. split; [done|].
  destruct (find_ok_map s p sv name fr Hd Hfo) as [Hmap _]. fold es in Hmap. rewrite Hmap. destruct Hfo as [Hfound Hempty]. split.
  - unfold find_code in Hcode. destruct (fr_found fr) as [[ino k]|]; cbn; [|done].
    destruct Hfound as (Hk & e & He & Hi & H0 & Hen). split; [done|]. exists k, e. split_and!; [done|lia|done..].
  - destruct (fr_empty fr) as [k|].
    + destruct Hempty as (Hk & He & Hno). split; [lia|]. split; [done|]. apply Forall_lookup. intros i e Hi.
      rewrite lookup_drop in Hi. apply (Hno (Z.of_nat (S (Z.to_nat k) + i))); [|by rewrite Nat2Z.id].
      apply lookup_lt_Some in Hi. lia.
    + apply Forall_lookup. intros i e Hi. apply (Hempty (Z.of_nat i)); [|by rewrite Nat2Z.id]. apply lookup_lt_Some in Hi. lia.
Qed.

(** C15. [sfs_dir_link] inserts the name into the map of the directory if it is
    not there; it refuses with EEXIST when the name is taken, ENAMETOOLONG when
    it does not fit its field, ENOSPC on a full volume and EINVAL when the
    directory file cannot grow, and then the map is unchanged.  In all cases
    the directory stays sound and no block of another file is touched. *)
Theorem sfs_dir_link_refines (s : sfs_fs D) (p : ptr) (sv : sfs_vnode) (name : list Z) (ino : Z) :
  dok s p sv -> name_ok name -> 0 < ino < 4294967296 ->
  exists r s' sv', sfs_dir_link p name ino s = Done (r, s') /\ dok s' p sv' /\ ext s s' p sv sv' /\
    match r with
    | inr _ => dir_map (dirents s (sv_i sv)) !! name = None /\
        dir_map (dirents s' (sv_i sv')) = <[name := ino]> (dir_map (dirents s (sv_i sv)))
    | inl e => link_error s p sv name e s' /\
        dir_map (dirents s' (sv_i sv')) = dir_map (dirents s (sv_i sv))
    end.
Proof.
  intros Hd Hn Hi. pose proof (wp_dir_link s p sv name ino Hd Hn Hi) as Hw.
  apply wp_done in Hw as ([e|k] & s' & Hrun & Hpost).
  - destruct Hpost as (Herr & sv' & Hd' & He & Hes). exists (inl e), s', sv'.
    split; [done|]. split; [done|]. split; [done|]. split; [done|by rewrite Hes].
  - destruct Hpost as (Hno & sv' & Hd' & He & Hmap & _). exists (inr k), s', sv'. done.
Qed.

(** [sfs_dir_unlink] on the slot of an entry deletes its name from the map
    of the directory and nothing else. *)
Theorem sfs_dir_unlink_refines (s : sfs_fs D) (p : ptr) (sv : sfs_vnode) (k : Z) (e : sfs_dir) :
  dok s p sv -> 0 <= k -> dirents s (sv_i sv) !! Z.to_nat k = Some e -> sfd_ino e ≠ SFS_NOINO ->
  exists r s' sv', sfs_dir_unlink p k s = Done (r, s') /\ dok s' p sv' /\ ext s s' p sv sv' /\
    dir_map (dirents s' (sv_i sv')) =
      match r with
      | inr _ => delete (entry_name e) (dir_map (dirents s (sv_i sv)))
      | inl _ => dir_map (dirents s (sv_i sv))
      end.
Proof.
  intros Hd Hk He Hi. pose proof (wp_dir_unlink s p sv k e Hd Hk He Hi) as Hw.
  apply wp_done in Hw as ([c|[]] & s' & Hrun & Hpost).
  - destruct (put_failed_dok s p sv c s' Hd Hpost) as (sv' & Hd' & Hext & Hes).
    exists (inl c), s', sv'. split; [done|]. split; [done|]. split; [done|by rewrite Hes].
  - destruct Hpost as (sv' & Hd' & Hext & Hmap). by exists (inr tt), s', sv'.
Qed.
End dir.

(** ** Witnesses *)

Lemma ex_dirents : dirents ex_fs ex_root_inode = [ex_entry; ex_bigentry].
Proof. vm_compute. reflexivity. Qed.

Lemma ex_root_dok : dok ex_fs ex_root ex_root_sv.
Proof.
  split; [apply ex_root_fok|done|done|]. cbn [sv_i ex_root_sv]. rewrite ex_dirents.
  change (dir_names _) with [ex_name; ex_bigname]. by apply (bool_decide_unpack _).
Qed.

(** Both slots of the directory are in use. *)
Lemma sfs_dir_findname_refines_witness :
  exists fr s', sfs_dir_findname ex_root ex_name ex_fs = Done (inr (0, fr), s') /\ quiet ex_fs s' /\
    fr_found fr = Some (sfd_ino ex_entry, 0) /\ fr_empty fr = None.
Proof.
  destruct (sfs_dir_findname_refines ex_fs ex_root ex_root_sv ex_name ex_root_dok) as (code & fr & s' & Hrun & Hq & Hf & He).
  cbn [sv_i ex_root_sv] in *. rewrite ex_dirents in *.
  replace (dir_map [ex_entry; ex_bigentry] !! ex_name) with (Some (sfd_ino ex_entry)) in Hf by (vm_compute; reflexivity).
  destruct Hf as (-> & k & e & Hf & Hk & Hlk & Hn & _). exists fr, s'. split; [exact Hrun|]. split; [exact Hq|].
  assert (k = 0) as ->.
  { destruct (Z.to_nat k) as [|[|[|i]]] eqn:E; cbn in Hlk; [lia|exfalso; injection Hlk as <-; vm_compute in Hn; discriminate|discriminate|discriminate]. }
  split; [exact Hf|]. destruct (fr_empty fr) as [j|]; [|reflexivity]. exfalso. destruct He as (_ & (x & Hx & Hx0) & _).
  destruct (Z.to_nat j) as [|[|[|i]]]; cbn in Hx; [injection Hx as <-; vm_compute in Hx0; discriminate..|discriminate|discriminate].
Defined.

(** The name "new". *)
Definition ex_newname : list Z := [110; 101; 119].

Lemma sfs_dir_link_refines_witness :
  exists r s' sv', sfs_dir_link ex_root ex_newname 6 ex_fs = Done (r, s') /\ dok s' ex_root sv' /\
    ext ex_fs s' ex_root ex_root_sv sv' /\
    match r with
    | inr _ => dir_map (dirents ex_fs ex_root_inode) !! ex_newname = None /\
        dir_map (dirents s' (sv_i sv')) = <[ex_newname := 6]> (dir_map (dirents ex_fs ex_root_inode))
    | inl e => link_error ex_fs ex_root ex_root_sv ex_newname e s' /\
        dir_map (dirents s' (sv_i sv')) = dir_map (dirents ex_fs ex_root_inode)
    end.
Proof.
  apply (sfs_dir_link_refines ex_fs ex_root ex_root_sv ex_newname 6);
    [apply ex_root_dok|repeat constructor; done|lia].
Defined.

Lemma sfs_dir_unlink_refines_witness :
  exists r s' sv', sfs_dir_unlink ex_root 0 ex_fs = Done (r, s') /\ dok s' ex_root sv' /\
    ext ex_fs s' ex_root ex_root_sv sv' /\
    dir_map (dirents s' (sv_i sv')) =
      match r with
      | inr _ => delete (entry_name ex_entry) (dir_map (dirents ex_fs ex_root_inode))
      | inl _ => dir_map (dirents ex_fs ex_root_inode)
      end.
Proof.
  apply (sfs_dir_unlink_refines ex_fs ex_root ex_root_sv 0 ex_entry);
    [apply ex_root_dok|lia|by vm_compute|done].
Defined.

End SfsDir.
