(* ===== verification/SfsTruncate.v ===== *)
(** * SFS: [sfs_truncate]

    Which blocks a truncation keeps and which it gives back to the free map. *)

From S2P Require Import Prelude KArray KBitmap UserMem Uio BlockDev Lhd.
From S2P Require Import SfsFormat Sfs SfsBlocks SfsFile SfsExample SfsIo.

Module SfsTruncate.
Import UserMem Uio Lhd SfsFormat Sfs SfsBlocks SfsFile SfsExample SfsIo.

Section truncate.
Context {D : Type} `{BlockDevice D} `{!BlockDeviceLaws D}.
Implicit Types (s : sfs_fs D) (i : sfs_inode) (sv : sfs_vnode).

(** ** Freeing some blocks *)

(** [s'] is [s] with the blocks of [F] freed and vnode [p] updated. *)
Record tstep s s' (p : ptr) sv sv' (F : list Z) : Prop := {
  ts_hdr : hdr s s' p sv sv';
  ts_dev : sfs_device s' = sfs_device s;
  ts_good : good s';
  ts_used : forall c, 0 <= c -> used s' c = used s c && bool_decide (c ∉ F)
}.

Lemma tstep_refl s p sv : good s -> k_heap s !! p = Some sv -> tstep s s p sv sv [].
Proof.
  intros Hg Hp. split; [by apply hdr_refl|done|done|]. intros c _.
  rewrite bool_decide_eq_true_2 by apply not_elem_of_nil. by rewrite andb_true_r.
Qed.

Lemma tstep_trans s s1 s2 p sv sv1 sv2 F1 F2 :
  tstep s s1 p sv sv1 F1 -> tstep s1 s2 p sv1 sv2 F2 -> tstep s s2 p sv sv2 (F1 ++ F2).
Proof.
  intros [Hh1 Hd1 _ Hu1] [Hh2 Hd2 Hg2 Hu2].
  split; [by eapply hdr_trans|congruence|done|]. intros c Hc. rewrite Hu2, Hu1, <- andb_assoc by done.
  f_equal. repeat case_bool_decide; rewrite ?elem_of_app in *; naive_solver.
Qed.

Lemma tstep_sect s s' p sv sv' F b : tstep s s' p sv sv' F -> sect s' b = sect s b.
Proof. intros []. unfold sect. congruence. Qed.

Lemma tstep_nb s s' p sv sv' F : tstep s s' p sv sv' F -> nb s' = nb s.
Proof. intros []. by eapply hdr_nb. Qed.

(** One block freed and then perhaps the vnode updated. *)
Lemma freed_tstep s s1 p sv sv' b :
  k_heap s !! p = Some sv -> freed s s1 b ->
  sv_v sv' = sv_v sv -> sv_ino sv' = sv_ino sv -> sfi_type (sv_i sv') = sfi_type (sv_i sv) ->
  sfi_linkcount (sv_i sv') = sfi_linkcount (sv_i sv) ->
  sv_dirty sv' = true \/ (sv_i sv' = sv_i sv /\ sv_dirty sv' = sv_dirty sv) ->
  tstep s (set_heap s1 (<[p := sv']> (k_heap s1))) p sv sv' [b].
Proof.
  intros Hp (fm & -> & Hg & Hu & Hnb) Hv Hino Ht Hl Hd. split; [split; auto|done|by apply good_set_heap|].
  intros c Hc. etransitivity; [apply Hu; done|]. f_equal.
  repeat case_bool_decide; cbn; set_solver.
Qed.

(** The blocks a pass over [l] from index [a] on frees. *)
Definition cut (l : list Z) (a : nat) (drops : nat -> bool) : list Z :=
  imap (fun j b => if bool_decide (a <= j)%nat && drops j then 0 else b) l.

Lemma cut_lookup l a drops j :
  cut l a drops !! j = (fun b => if bool_decide (a <= j)%nat && drops j then 0 else b) <$> l !! j.
Proof. unfold cut. by rewrite list_lookup_imap. Qed.

Lemma length_cut l a drops : length (cut l a drops) = length l.
Proof. apply length_imap. Qed.

(** The entries from [a] on are distinct blocks in use. *)
Definition tail_ok s (l : list Z) (a : nat) : Prop :=
  (forall j b, (a <= j)%nat -> l !! j = Some b -> b ≠ 0 -> 0 < b < nb s /\ used s b = true) /\
  (forall j k b, (a <= j)%nat -> (a <= k)%nat -> l !! j = Some b -> l !! k = Some b -> b ≠ 0 -> j = k).

Definition freed_of (l : list Z) (a : nat) (drops : nat -> bool) (b : Z) : Prop :=
  exists j, (a <= j)%nat /\ drops j = true /\ l !! j = Some b /\ b ≠ 0.

(** A step of either loop at index [a]: what is left is still in use. *)
Lemma tail_ok_step s s1 p sv sv1 l a F :
  tail_ok s l a -> tstep s s1 p sv sv1 F ->
  (forall j b, (S a <= j)%nat -> l !! j = Some b -> b ≠ 0 -> b ∉ F) ->
  tail_ok s1 l (S a).
Proof.
  intros [Hu Hi] Ht HF. split.
  - intros j b Hj Hb Hb0. destruct (Hu j b) as [Hr Hub]; [lia|done|done|].
    rewrite (tstep_nb _ _ _ _ _ _ Ht), (ts_used _ _ _ _ _ _ Ht), Hub by lia. split; [done|].
    by rewrite bool_decide_eq_true_2 by eauto.
  - intros j k b Hj Hk. apply Hi; lia.
Qed.

Lemma cut_zero l a drops :
  cut (<[a := 0]> l) (S a) drops = cut (<[a := 0]> l) a drops.
Proof.
  apply list_eq. intros j. rewrite !cut_lookup. destruct (decide (j = a)) as [->|].
  - destruct (decide (a < length l)%nat).
    + rewrite list_lookup_insert_eq by done. cbn. by repeat case_match.
    + by rewrite lookup_ge_None_2 by (rewrite length_insert; lia).
  - replace (bool_decide (S a <= j)%nat) with (bool_decide (a <= j)%nat); [done|].
    apply bool_decide_ext. lia.
Qed.

Lemma cut_insert_zero l a drops : drops a = true -> cut (<[a := 0]> l) a drops = cut l a drops.
Proof.
  intros Hd. apply list_eq. intros j. rewrite !cut_lookup. destruct (decide (j = a)) as [->|].
  - destruct (decide (a < length l)%nat).
    + rewrite list_lookup_insert_eq by done. rewrite bool_decide_eq_true_2, Hd by lia.
      destruct (lookup_lt_is_Some_2 l a) as [b ->]; [done|]. done.
    + rewrite !lookup_ge_None_2 by (rewrite ?length_insert; lia). done.
  - by rewrite list_lookup_insert_ne.
Qed.

Lemma cut_keep l a drops b :
  l !! a = Some b -> drops a = false \/ b = 0 -> cut l (S a) drops = cut l a drops.
Proof.
  intros Hb Hd. apply list_eq. intros j. rewrite !cut_lookup. destruct (decide (j = a)) as [->|].
  - rewrite Hb. cbn. rewrite (bool_decide_eq_false_2 (S a <= a)%nat) by lia.
    rewrite (bool_decide_eq_true_2 (a <= a)%nat) by lia. destruct Hd as [-> | ->]; [done|].
    by destruct (drops a).
  - replace (bool_decide (S a <= j)%nat) with (bool_decide (a <= j)%nat); [done|].
    apply bool_decide_ext. lia.
Qed.

Lemma freed_of_insert l a drops b :
  freed_of (<[a := 0]> l) (S a) drops b <-> freed_of l (S a) drops b.
Proof.
  unfold freed_of. split; intros (j & Hj & Hd & Hb & Hb0); exists j; split_and!; try done.
  - by rewrite list_lookup_insert_ne in Hb by lia.
  - by rewrite list_lookup_insert_ne by lia.
Qed.

Lemma cut_end l a drops : (length l <= a)%nat -> cut l a drops = l.
Proof.
  intros Ha. apply list_eq. intros j. rewrite cut_lookup. destruct (l !! j) as [b|] eqn:Hj; [|done].
  apply lookup_lt_Some in Hj. cbn. by rewrite bool_decide_eq_false_2 by lia.
Qed.

Lemma set_direct_id i : set_direct i (sfi_direct i) = i.
Proof. by destruct i. Qed.

(** Combining the block freed at index [a] with the rest. *)
Lemma freed_of_cons l a drops F b0 :
  l !! a = Some b0 -> drops a = true -> b0 ≠ 0 -> (forall b, b ∈ F <-> freed_of (<[a := 0]> l) (S a) drops b) ->
  forall b, b ∈ b0 :: F <-> freed_of l a drops b.
Proof.
  intros Hb0 Hd Hne HF b. rewrite elem_of_cons, HF, freed_of_insert. unfold freed_of. split.
  - intros [->|(j & ? & ? & ? & ?)]; [exists a; done|exists j; split_and!; (done || lia)].
  - intros (j & Hj & Hdj & Hb & Hbn). destruct (decide (j = a)) as [->|]; [left; congruence|].
    right. exists j. split_and!; (done || lia).
Qed.

Lemma freed_of_skip l a drops b0 b :
  l !! a = Some b0 -> drops a = false \/ b0 = 0 -> freed_of l (S a) drops b <-> freed_of l a drops b.
Proof.
  intros Hb0 Hd. unfold freed_of. split; intros (j & Hj & Hdj & Hb & Hbn).
  - exists j. split_and!; (done || lia).
  - destruct (decide (j = a)) as [->|]; [|exists j; split_and!; (done || lia)].
    exfalso. destruct Hd; congruence.
Qed.

Lemma tail_ok_insert s l a : tail_ok s l (S a) -> tail_ok s (<[a := 0]> l) (S a).
Proof.
  intros [Hu Hi]. split.
  - intros j b Hj. rewrite list_lookup_insert_ne by lia. by apply Hu.
  - intros j k b Hj Hk. rewrite !list_lookup_insert_ne by lia. by apply Hi.
Qed.

Lemma tail_ok_S s l a : tail_ok s l a -> tail_ok s l (S a).
Proof.
  intros [Hu Hi]. split; [intros j b Hj; apply Hu; lia|intros j k b Hj Hk; apply Hi; lia].
Qed.

Lemma tail_distinct (l : list Z) (a : nat) (b0 : Z) :
  (forall j k b, (a <= j)%nat -> (a <= k)%nat -> l !! j = Some b -> l !! k = Some b -> b ≠ 0 -> j = k) ->
  l !! a = Some b0 ->
  forall j b, (S a <= j)%nat -> l !! j = Some b -> b ≠ 0 -> b ∉ [b0].
Proof.
  intros Hi Hb0 j b Hj Hb Hb1 ->%list_elem_of_singleton.
  assert (j = a) by (by eapply Hi; [lia|lia|..]). lia.
Qed.

Lemma skip_cases (d : bool) (b : Z) : d && bool_decide (b ≠ 0) = false -> d = false \/ b = 0.
Proof. destruct d; [|by left]. cbn. intros Hb%bool_decide_eq_false_1. right. lia. Qed.

Lemma set_heap_id s p sv : k_heap s !! p = Some sv -> set_heap s (<[p := sv]> (k_heap s)) = s.
Proof. intros Hp. rewrite insert_id by done. by destruct s. Qed.

Definition drops_direct (blocklen : Z) (j : nat) : bool := bool_decide (blocklen <= Z.of_nat j).
Definition drops_indirect (blocklen : Z) (j : nat) : bool := bool_decide (blocklen < 15 + Z.of_nat j).

Lemma wp_truncate_direct n a s p sv blocklen (Q : unit -> sfs_fs D -> Prop) E :
  let l := sfi_direct (sv_i sv) in
  good s -> k_heap s !! p = Some sv -> length l = 15%nat -> (a + n = 15)%nat -> tail_ok s l a ->
  (forall s' sv' F, tstep s s' p sv sv' F ->
     sv_i sv' = set_direct (sv_i sv) (cut l a (drops_direct blocklen)) ->
     (forall b, b ∈ F <-> freed_of l a (drops_direct blocklen) b) -> Q tt s') ->
  wp (truncate_direct n (Z.of_nat a) p blocklen) Q E s.
Proof.
  revert a s sv. induction n as [|n IH]; intros a s sv l Hg Hp Hl Ha Ht HQ; cbn [truncate_direct].
  - wp_steps. apply (HQ s sv []); [by apply tstep_refl| |].
    + by rewrite cut_end, set_direct_id by lia.
    + intros b. split; [by intros ?%not_elem_of_nil|]. intros (j & Hj & _ & Hb & _).
      apply lookup_lt_Some in Hb. lia.
  - wp_step. eapply wp_deref; [done|]. fold l.
    destruct (lookup_lt_is_Some_2 l a) as [b0 Hb0]; [lia|].
    wp_step. eapply wp_lift; [apply getZ_ok; [lia|by rewrite Nat2Z.id]|].
    replace (bool_decide (Z.of_nat a >= blocklen)) with (drops_direct blocklen a)
      by (apply bool_decide_ext; lia).
    replace (Z.of_nat a + 1) with (Z.of_nat (S a)) by lia.
    destruct (drops_direct blocklen a && bool_decide (b0 ≠ 0)) eqn:Hd; wp_steps.
    + apply andb_true_iff in Hd as [Hd Hz%bool_decide_eq_true_1]. destruct Ht as [Hu Hi].
      destruct (Hu a b0) as [Hr Hub]; [lia|done|done|].
      apply wp_bfree; [done|done|done|]. intros s1 Hfr. wp_step.
      eapply wp_lift; [apply setZ_ok; lia|]. rewrite Nat2Z.id. wp_steps.
      set (sv1 := set_dirty _ _). set (s2 := set_heap _ _).
      assert (tstep s s2 p sv sv1 [b0]) as Hts by (apply freed_tstep; auto).
      apply (IH (S a) s2 sv1); [apply Hts|apply lookup_insert_eq|by cbn; rewrite length_insert|lia| |];
        cbn [sv_i sv1 set_dirty set_i set_direct sfi_direct].
      * apply tail_ok_insert, (tail_ok_step s s2 p sv sv1 l a [b0]); [done|done|].
        by eapply tail_distinct.
      * intros s' sv' F Hts2 Hi' HF.
        apply (HQ s' sv' (b0 :: F)); [by apply (tstep_trans s s2 s' p sv sv1 sv' [b0] F)| |].
        -- rewrite Hi', cut_zero, cut_insert_zero by done. done.
        -- by apply freed_of_cons.
    + apply skip_cases in Hd. apply (IH (S a) s sv); [done|done|done|lia|by apply tail_ok_S|].
      intros s' sv' F Hts Hi' HF. fold l in Hi', HF. apply (HQ s' sv' F); [done| |].
      * rewrite Hi'. f_equal. by apply (cut_keep l a _ b0).
      * intros b. rewrite HF. by apply (freed_of_skip l a _ b0).
Qed.

(** The buffer, [hasnonzero] and [iddirty] after the loop from index [a]. *)
Record cut_done (l : list Z) (a : nat) (drops : nat -> bool) (has dirty : bool)
    (l' : list Z) (has' dirty' : bool) : Prop := {
  cd_buf : l' = cut l a drops;
  cd_has : has' = true <-> has = true \/ exists j b, (a <= j)%nat /\ l' !! j = Some b /\ b ≠ 0;
  cd_dirty : dirty' = true \/ (l' = l /\ dirty' = dirty)
}.

Lemma wp_truncate_indirect n a s p sv l blocklen has dirty (Q : list Z * bool * bool -> sfs_fs D -> Prop) E :
  good s -> k_heap s !! p = Some sv -> length l = 128%nat -> (a + n = 128)%nat -> tail_ok s l a ->
  (forall s' F r, tstep s s' p sv sv F -> (forall b, b ∈ F <-> freed_of l a (drops_indirect blocklen) b) ->
     cut_done l a (drops_indirect blocklen) has dirty r.1.1 r.1.2 r.2 -> Q r s') ->
  wp (truncate_indirect n (Z.of_nat a) blocklen l has dirty) Q E s.
Proof.
  revert a s l has dirty. induction n as [|n IH]; intros a s l has dirty Hg Hp Hl Ha Ht HQ;
    cbn [truncate_indirect].
  - wp_steps. apply (HQ s []); [by apply tstep_refl| |].
    + intros b. split; [by intros ?%not_elem_of_nil|]. intros (j & Hj & _ & Hb & _).
      apply lookup_lt_Some in Hb. lia.
    + split; cbn; [by rewrite cut_end by lia| |by right]. split; [auto|].
      intros [?|(j & b & Hj & Hb & _)]; [done|]. apply lookup_lt_Some in Hb. lia.
  - destruct (lookup_lt_is_Some_2 l a) as [b0 Hb0]; [lia|].
    wp_step. eapply wp_lift; [apply getZ_ok; [lia|by rewrite Nat2Z.id]|].
    change (bool_decide (blocklen < SFS_NDIRECT + Z.of_nat a)) with (drops_indirect blocklen a).
    replace (Z.of_nat a + 1) with (Z.of_nat (S a)) by lia.
    destruct (drops_indirect blocklen a && bool_decide (b0 ≠ 0)) eqn:Hd; wp_steps.
    + apply andb_true_iff in Hd as [Hd Hz%bool_decide_eq_true_1]. destruct Ht as [Hu Hi].
      destruct (Hu a b0) as [Hr Hub]; [lia|done|done|].
      apply wp_bfree; [done|done|done|]. intros s1 Hfr. wp_step.
      eapply wp_lift; [apply setZ_ok; lia|]. rewrite Nat2Z.id. wp_steps.
      eapply wp_lift; [apply getZ_ok; [lia|]; rewrite Nat2Z.id; apply list_lookup_insert_eq; lia|].
      rewrite (bool_decide_eq_false_2 (0 ≠ 0)), orb_false_r by auto.
      assert (tstep s s1 p sv sv [b0]) as Hts.
      { rewrite <- (set_heap_id s1 p sv) by (destruct Hfr as (? & -> & _); done). apply freed_tstep; auto. }
      apply (IH (S a) s1 (<[a := 0]> l)); [apply Hts|by destruct Hfr as (? & -> & _)|by rewrite length_insert|lia| |].
      * apply tail_ok_insert, (tail_ok_step s s1 p sv sv l a [b0]); [done|done|]. by eapply tail_distinct.
      * intros s' F r Hts2 HF [Hbuf Hhas Hdirty].
        apply (HQ s' (b0 :: F)); [by apply (tstep_trans s s1 s' p sv sv sv [b0] F)|by apply freed_of_cons|].
        rewrite cut_zero, cut_insert_zero in Hbuf by done. split; [done| |naive_solver].
        rewrite Hhas. split; intros [?|(j & b & Hj & Hb & Hb1)]; auto.
        -- right. exists j, b. split_and!; (done || lia).
        -- right. exists j, b. split_and!; try done. destruct (decide (j = a)) as [->|]; [exfalso|lia].
           rewrite Hbuf, cut_lookup, Hb0 in Hb. cbn in Hb.
           rewrite bool_decide_eq_true_2, Hd in Hb by lia. cbn in Hb. congruence.
    + apply skip_cases in Hd. eapply wp_lift; [apply getZ_ok; [lia|by rewrite Nat2Z.id]|].
      apply (IH (S a) s l); [done|done|done|lia|by apply tail_ok_S|].
      intros s' F r Hts HF [Hbuf Hhas Hdirty]. rewrite (cut_keep l a _ b0) in Hbuf by done.
      apply (HQ s' F); [done|intros b; rewrite HF; by apply (freed_of_skip l a _ b0)|].
      assert (r.1.1 !! a = Some b0) as Hra.
      { rewrite Hbuf, cut_lookup, Hb0. cbn. destruct Hd as [-> | ->]; [by rewrite andb_false_r|].
        by destruct (_ && _). }
      split; [done| |done]. rewrite Hhas, orb_true_iff. split.
      * intros [[?|Hz%bool_decide_eq_true_1]|(j & b & Hj & Hb & Hb1)]; [auto|right; eauto 6|].
        right. exists j, b. split_and!; (done || lia).
      * intros [?|(j & b & Hj & Hb & Hb1)]; [auto|]. destruct (decide (j = a)) as [->|].
        -- left. right. apply bool_decide_eq_true_2. congruence.
        -- right. exists j, b. split_and!; (done || lia).
Qed.

(** ** The file after a truncation *)

(** The file keeps some of its blocks; exactly the others are free again. *)
Record shrunk s s' (p : ptr) sv sv' : Prop := {
  sh_fok : fok s' p sv';
  sh_hdr : hdr s s' p sv sv';
  sh_sub : forall j b, slots s' (sv_i sv') !! j = Some b -> b ≠ 0 -> slots s (sv_i sv) !! j = Some b;
  sh_used : forall b, 0 <= b -> used s' b = used s b &&
    negb (bool_decide (b ≠ 0 /\ b ∈ slots s (sv_i sv) /\ b ∉ slots s' (sv_i sv')));
  sh_frame : forall b, 0 <= b < nb s -> (b = sfi_indirect (sv_i sv) -> b = 0) -> sect s' b = sect s b
}.

Definition zslots i (blocklen ind' : Z) (ids : list Z) : list Z :=
  cut (sfi_direct i) 0 (drops_direct blocklen) ++ ind' :: cut ids 0 (drops_indirect blocklen).

(** What the three parts of the code freed. *)
Record freed_parts s i (blocklen ind' : Z) (F : list Z) : Prop := {
  fp_freed : forall b, b ∈ F <-> freed_of (sfi_direct i) 0 (drops_direct blocklen) b \/
    freed_of (idwords s (sfi_indirect i)) 0 (drops_indirect blocklen) b \/
    (ind' ≠ sfi_indirect i /\ b = sfi_indirect i);
  fp_ind : ind' = sfi_indirect i \/ ind' = 0 /\ sfi_indirect i ≠ 0
}.

Lemma zslots_lookup s i blocklen ind' j :
  inode_wf i ->
  zslots i blocklen ind' (idwords s (sfi_indirect i)) !! j =
  if decide (j = 15%nat) then Some ind'
  else (fun b => if (if decide (j < 15)%nat then drops_direct blocklen j
                     else drops_indirect blocklen (j - 16)) then 0 else b) <$> slots s i !! j.
Proof.
  intros Hi. pose proof (iwf_ndirect i Hi) as Hl. unfold zslots, slots.
  destruct (decide (j < 15)%nat).
  - rewrite decide_False by lia. rewrite !lookup_app_l by (rewrite ?length_cut; lia).
    rewrite cut_lookup. by rewrite bool_decide_eq_true_2 by lia.
  - rewrite !lookup_app_r by (rewrite ?length_cut; lia). rewrite length_cut, Hl.
    case_decide as Hj; [by subst j|]. replace (j - 15)%nat with (S (j - 16)) by lia.
    rewrite !lookup_cons, cut_lookup. by rewrite bool_decide_eq_true_2 by lia.
Qed.

Lemma zslots_sub s i blocklen ind' F j b :
  inode_wf i -> freed_parts s i blocklen ind' F ->
  zslots i blocklen ind' (idwords s (sfi_indirect i)) !! j = Some b -> b ≠ 0 -> slots s i !! j = Some b.
Proof.
  intros Hi [_ Hind] Hj Hb. rewrite zslots_lookup in Hj by done. case_decide as Hj15.
  - subst j. injection Hj as <-. destruct Hind as [->|[-> _]]; [by apply slots_15|done].
  - destruct (slots s i !! j) as [c|]; [|done]. cbn in Hj. repeat case_match; congruence.
Qed.

(** Exactly the dropped blocks were freed. *)
Lemma freed_parts_slots s i blocklen ind' F b :
  file_ok s i -> freed_parts s i blocklen ind' F ->
  b ∈ F <-> b ≠ 0 /\ b ∈ slots s i /\ b ∉ zslots i blocklen ind' (idwords s (sfi_indirect i)).
Proof.
  intros Hf Hfp. pose proof (f_inode _ _ Hf) as Hi. pose proof (iwf_ndirect i Hi) as Hl.
  pose proof Hfp as [HF Hind]. rewrite HF.
  assert (forall j, slots s i !! j = Some b -> b ≠ 0 ->
    zslots i blocklen ind' (idwords s (sfi_indirect i)) !! j ≠ Some b ->
    b ∉ zslots i blocklen ind' (idwords s (sfi_indirect i))) as Hgone.
  { intros j Hj Hb Hne [j' Hj']%list_elem_of_lookup_1.
    assert (j' = j) as -> by (eapply (f_inj _ _ Hf); [by eapply zslots_sub|done|done]). done. }
  split.
  - intros [(j & _ & Hd & Hj & Hb)|[(j & _ & Hd & Hj & Hb)|[Hne ->]]].
    + assert (slots s i !! j = Some b) as Hs by (unfold slots; by rewrite lookup_app_l_Some with (x := b)).
      split_and!; [done|by eapply list_elem_of_lookup_2|]. eapply Hgone; [done|done|].
      apply lookup_lt_Some in Hj. rewrite zslots_lookup, Hs by done. rewrite decide_False, decide_True by lia.
      cbn. rewrite Hd. congruence.
    + assert (slots s i !! (16 + j)%nat = Some b) as Hs.
      { unfold slots. rewrite lookup_app_r by lia. by replace (16 + j - length (sfi_direct i))%nat with (S j) by lia. }
      split_and!; [done|by eapply list_elem_of_lookup_2|]. eapply Hgone; [done|done|].
      rewrite zslots_lookup, Hs by done. rewrite !decide_False by lia.
      replace (16 + j - 16)%nat with j by lia. cbn. rewrite Hd. congruence.
    + destruct Hind as [?|[-> Hi0]]; [done|]. pose proof (slots_15 s i Hi) as Hs.
      split_and!; [done|by eapply list_elem_of_lookup_2|]. eapply Hgone; [done|done|].
      rewrite zslots_lookup by done. rewrite decide_True by done. congruence.
  - intros (Hb & [j Hj]%list_elem_of_lookup_1 & Hnot).
    assert (zslots i blocklen ind' (idwords s (sfi_indirect i)) !! j ≠ Some b) as Hne
      by (intros ?; by apply Hnot; eapply list_elem_of_lookup_2).
    rewrite zslots_lookup, Hj in Hne by done. case_decide as Hj15.
    { subst j. rewrite slots_15 in Hj by done. right. right. split; congruence. }
    cbn in Hne. unfold slots in Hj. case_decide as Hlt.
    + left. exists j. rewrite lookup_app_l in Hj by lia.
      split_and!; [lia| |done|done]. by destruct (drops_direct blocklen j).
    + right. left. exists (j - 16)%nat. rewrite lookup_app_r in Hj by lia.
      replace (j - length (sfi_direct i))%nat with (S (j - 16)) in Hj by lia. rewrite lookup_cons in Hj.
      split_and!; [lia| |done|done]. by destruct (drops_indirect blocklen (j - 16)).
Qed.

Lemma shrunk_intro s s' p sv sv' blocklen ind' F :
  fok s p sv -> hdr s s' p sv sv' -> good s' -> inode_wf (sv_i sv') -> sfi_size (sv_i sv') <= MAXFILE ->
  slots s' (sv_i sv') = zslots (sv_i sv) blocklen ind' (idwords s (sfi_indirect (sv_i sv))) ->
  freed_parts s (sv_i sv) blocklen ind' F ->
  (forall b, 0 <= b -> used s' b = used s b && bool_decide (b ∉ F)) ->
  (forall b, 0 <= b < nb s -> (b = sfi_indirect (sv_i sv) -> b = 0) -> sect s' b = sect s b) ->
  shrunk s s' p sv sv'.
Proof.
  intros Hf Hh Hg' Hi' Hsz Hs Hfp Hu Hsec. pose proof (fok_file _ _ _ Hf) as Hfo.
  pose proof (f_inode _ _ Hfo) as Hi.
  assert (forall j b, slots s' (sv_i sv') !! j = Some b -> b ≠ 0 -> slots s (sv_i sv) !! j = Some b) as Hsub
    by (intros j b; rewrite Hs; by eapply zslots_sub).
  assert (forall b, b ∈ F <-> b ≠ 0 /\ b ∈ slots s (sv_i sv) /\ b ∉ slots s' (sv_i sv')) as HF
    by (intros b; rewrite Hs; by apply freed_parts_slots).
  split; [|done|done| |done].
  - split; [by rewrite (h_heap _ _ _ _ _ Hh), lookup_insert_eq|done|]. split; [done| | |done].
    + intros j k b Hj Hk Hb. eapply (f_inj _ _ Hfo); [by apply Hsub|by apply Hsub|done].
    + intros b [j Hj]%list_elem_of_lookup_1 Hb.
      destruct (f_used _ _ Hfo b) as [Hr Hub]; [by eapply list_elem_of_lookup_2, Hsub|done|].
      rewrite (hdr_nb _ _ _ _ _ Hh), Hu, Hub by lia. split; [done|]. apply bool_decide_eq_true_2.
      rewrite HF. intros (_ & _ & Hnot). apply Hnot. by eapply list_elem_of_lookup_2.
  - intros b Hb. rewrite Hu by done. f_equal. rewrite <- bool_decide_not. apply bool_decide_ext.
    by rewrite HF.
Qed.

(** Blocks a file of [len] bytes needs. *)
Definition blocks_of (len : Z) : Z := (len + 511) / 512.

Lemma blocks_of_covers len : len <= blocks_of len * 512.
Proof. unfold blocks_of. pose proof (Z.mod_pos_bound (len + 511) 512). pose proof (Z.div_mod (len + 511) 512). lia. Qed.

Lemma blocklen_ok len :
  0 <= len <= MAXFILE ->
  int_op (len + SFS_BLOCKSIZE) = Done (len + 512) /\
  u32 (Z.quot (len + 512 - 1) SFS_BLOCKSIZE) = blocks_of len /\ 0 <= blocks_of len <= MAXBLOCKS.
Proof.
  unfold MAXFILE, SFS_BLOCKSIZE, blocks_of, MAXBLOCKS. intros Hl.
  rewrite int_op_ok by (unfold INT_MIN, INT_MAX; lia). split; [done|].
  rewrite Z.quot_div_nonneg by lia. replace (len + 512 - 1) with (len + 511) by lia.
  assert (0 <= (len + 511) / 512 < 144) by (split; [apply Z.div_pos|apply Z.div_lt_upper_bound]; lia).
  rewrite u32_small by lia. split; [done|lia].
Qed.

(** The entries of a sound file as the loops need them. *)
Lemma slots_tail_ok s i (f : nat -> nat) l :
  file_ok s i -> (forall j, slots s i !! f j = l !! j) -> (forall j k, f j = f k -> j = k) ->
  tail_ok s l 0.
Proof.
  intros Hf Hl Hinj. split.
  - intros j b _ Hb. apply (f_used _ _ Hf). rewrite <- Hl in Hb. by eapply list_elem_of_lookup_2.
  - intros j k b _ _ Hj Hk Hb. apply Hinj. rewrite <- Hl in Hj, Hk. by eapply (f_inj _ _ Hf).
Qed.

Lemma direct_tail_ok s i : file_ok s i -> tail_ok s (sfi_direct i) 0.
Proof.
  intros Hf. pose proof (iwf_ndirect _ (f_inode _ _ Hf)) as Hl. split.
  - intros j b _ Hb. apply (f_used _ _ Hf). eapply (list_elem_of_lookup_2 _ j). unfold slots.
    by apply lookup_app_l_Some.
  - intros j k b _ _ Hj Hk Hb. eapply (f_inj _ _ Hf); [..|exact Hb]; unfold slots; by apply lookup_app_l_Some.
Qed.

Lemma indirect_tail_ok s i : file_ok s i -> tail_ok s (idwords s (sfi_indirect i)) 0.
Proof.
  intros Hf. pose proof (iwf_ndirect _ (f_inode _ _ Hf)) as Hl.
  apply (slots_tail_ok s i (fun j => (16 + j)%nat)); [done| |lia].
  intros j. unfold slots. rewrite lookup_app_r by lia.
  by replace (16 + j - length (sfi_direct i))%nat with (S j) by lia.
Qed.

(** The free map after the direct pass still marks the indirect blocks. *)
Lemma tail_ok_tstep s s1 p sv sv1 F l :
  tail_ok s l 0 -> tstep s s1 p sv sv1 F -> (forall j b, l !! j = Some b -> b ≠ 0 -> b ∉ F) -> tail_ok s1 l 0.
Proof.
  intros [Hu Hi] Ht HF. split; [|done]. intros j b Hj Hb Hb0. destruct (Hu j b) as [Hr Hub]; [lia|done|done|].
  rewrite (tstep_nb _ _ _ _ _ _ Ht), (ts_used _ _ _ _ _ _ Ht), Hub by lia. split; [done|].
  by apply bool_decide_eq_true_2, (HF j).
Qed.

Lemma cut_none l drops :
  (forall j b, l !! j = Some b -> drops j = false \/ b = 0) -> cut l 0 drops = l.
Proof.
  intros Hn. apply list_eq. intros j. rewrite cut_lookup. destruct (l !! j) as [b|] eqn:Hj; [|done].
  cbn. destruct (Hn j b Hj) as [-> | ->]; [done|by destruct (drops j)].
Qed.

Lemma inode_wf_cut i blocklen ind' :
  inode_wf i -> ind' = sfi_indirect i \/ ind' = 0 ->
  inode_wf (set_indirect (set_direct i (cut (sfi_direct i) 0 (drops_direct blocklen))) ind').
Proof.
  intros [] Hind. split; cbn; try done; [by rewrite length_cut| |by destruct Hind; subst].
  apply Forall_lookup. intros j b Hj. rewrite cut_lookup in Hj.
  destruct (sfi_direct i !! j) as [c|] eqn:Hc; [|done]. cbn in Hj. injection Hj as <-.
  case_match; [lia|]. by eapply Forall_lookup_1 in iwf_direct0; [|done].
Qed.

(** The state before the size is set. *)
Record tmid s s' (p : ptr) sv sv' (blocklen ind' : Z) (F : list Z) : Prop := {
  tm_hdr : hdr s s' p sv sv';
  tm_good : good s';
  tm_i : sv_i sv' = set_indirect (set_direct (sv_i sv) (cut (sfi_direct (sv_i sv)) 0 (drops_direct blocklen))) ind';
  tm_ids : idwords s' ind' = cut (idwords s (sfi_indirect (sv_i sv))) 0 (drops_indirect blocklen);
  tm_parts : freed_parts s (sv_i sv) blocklen ind' F;
  tm_used : forall b, 0 <= b -> used s' b = used s b && bool_decide (b ∉ F);
  tm_sect : forall b, 0 <= b < nb s -> (b = sfi_indirect (sv_i sv) -> b = 0) -> sect s' b = sect s b
}.

Lemma tmid_shrunk s s1 p sv sv1 blocklen ind' F len :
  fok s p sv -> 0 <= len <= MAXFILE -> tmid s s1 p sv sv1 blocklen ind' F ->
  let sv' := with_size sv1 len in
  shrunk s (set_heap s1 (<[p := sv']> (k_heap s1))) p sv sv'.
Proof.
  intros Hf Hlen [Hh Hg Hi Hids Hfp Hu Hs] sv'. pose proof (f_inode _ _ (fok_file _ _ _ Hf)) as Hwf.
  eapply (shrunk_intro _ _ _ _ _ blocklen ind' F); try done.
  - eapply hdr_trans; [exact Hh|]. by split; try done; [right|left].
  - by apply good_set_heap.
  - cbn. rewrite Hi. assert (inode_wf (set_indirect (set_direct (sv_i sv)
      (cut (sfi_direct (sv_i sv)) 0 (drops_direct blocklen))) ind')) as Hw
      by (apply inode_wf_cut; [done|]; destruct (fp_ind _ _ _ _ _ Hfp) as [?|[? _]]; auto).
    destruct Hw. unfold MAXFILE in Hlen. split; cbn in *; (done || lia).
  - cbn. lia.
  - cbn. rewrite Hi. unfold slots, zslots. cbn. rewrite <- Hids. done.
Qed.

(** The direct pass alone, when nothing in the indirect block is past the new
    end. *)
Lemma tmid_direct s s1 p sv sv1 F blocklen :
  fok s p sv -> tstep s s1 p sv sv1 F ->
  sv_i sv1 = set_direct (sv_i sv) (cut (sfi_direct (sv_i sv)) 0 (drops_direct blocklen)) ->
  (forall b, b ∈ F <-> freed_of (sfi_direct (sv_i sv)) 0 (drops_direct blocklen) b) ->
  (forall j b, idwords s (sfi_indirect (sv_i sv)) !! j = Some b -> drops_indirect blocklen j = false \/ b = 0) ->
  tmid s s1 p sv sv1 blocklen (sfi_indirect (sv_i sv)) F.
Proof.
  intros Hf Hts Hi HF Hn. split; [apply Hts|apply Hts|rewrite Hi; by destruct (sv_i sv)| | |apply Hts|].
  - rewrite cut_none by done. unfold idwords. by rewrite (tstep_sect _ _ _ _ _ _ _ Hts).
  - split; [|by left]. intros b. rewrite HF. split; [auto|]. intros [?|[(j & _ & Hd & Hj & Hb)|[? _]]]; [done| |done].
    destruct (Hn j b Hj); congruence.
  - intros b _ _. by rewrite (tstep_sect _ _ _ _ _ _ _ Hts).
Qed.

(** A block freed by the direct pass is no other block of the file. *)
Lemma freed_direct_apart s i blocklen b j :
  file_ok s i -> freed_of (sfi_direct i) 0 (drops_direct blocklen) b -> slots s i !! j = Some b -> (j < 15)%nat.
Proof.
  intros Hf (k & _ & _ & Hk & Hb) Hj. pose proof (iwf_ndirect _ (f_inode _ _ Hf)) as Hl.
  apply lookup_lt_Some in Hk as Hlt. assert (k = j) as <-; [|lia].
  eapply (f_inj _ _ Hf); [|exact Hj|exact Hb]. unfold slots. by apply lookup_app_l_Some.
Qed.

Lemma idwords_slot s i j b :
  inode_wf i -> idwords s (sfi_indirect i) !! j = Some b -> slots s i !! (16 + j)%nat = Some b.
Proof.
  intros Hi Hj. pose proof (iwf_ndirect _ Hi) as Hl. unfold slots. rewrite lookup_app_r by lia.
  by replace (16 + j - length (sfi_direct i))%nat with (S j) by lia.
Qed.

Lemma idwords_apart s i j : file_ok s i -> sfi_indirect i ≠ 0 ->
  idwords s (sfi_indirect i) !! j = Some (sfi_indirect i) -> False.
Proof.
  intros Hf Hi0 Hj. apply (idwords_slot s i j) in Hj; [|apply Hf].
  assert (16 + j = 15)%nat; [|lia]. eapply (f_inj _ _ Hf); [exact Hj|apply slots_15, Hf|done].
Qed.

Lemma cut_range l drops :
  Forall (fun w => 0 <= w < 4294967296) l -> Forall (fun w => 0 <= w < 4294967296) (cut l 0 drops).
Proof.
  intros Hl. apply Forall_lookup. intros j b Hj. rewrite cut_lookup in Hj.
  destruct (l !! j) as [c|] eqn:Hc; [|done]. cbn in Hj. injection Hj as <-. case_match; [lia|].
  by eapply Forall_lookup_1 in Hl; [|done].
Qed.

Lemma idwords_range s i : good s -> file_ok s i ->
  Forall (fun w => 0 <= w < 4294967296) (idwords s (sfi_indirect i)).
Proof.
  intros Hg Hf. apply Forall_lookup. intros j b Hj. pose proof (good_nb s Hg).
  apply idwords_slot, list_elem_of_lookup_2 in Hj; [|apply Hf].
  destruct (decide (b = 0)); [lia|]. destruct (f_used _ _ Hf b Hj); [done|lia].
Qed.

(** The state after both passes, with the indirect block's entries in
    [buf]; the block itself is still as it was. *)
Record passed s s3 (p : ptr) sv sv1 (blocklen : Z) (F buf : list Z) (has dirty : bool) : Prop := {
  pa_hdr : hdr s s3 p sv sv1;
  pa_good : good s3;
  pa_i : sv_i sv1 = set_direct (sv_i sv) (cut (sfi_direct (sv_i sv)) 0 (drops_direct blocklen));
  pa_F : forall b, b ∈ F <-> freed_of (sfi_direct (sv_i sv)) 0 (drops_direct blocklen) b \/
    freed_of (idwords s (sfi_indirect (sv_i sv))) 0 (drops_indirect blocklen) b;
  pa_used : forall b, 0 <= b -> used s3 b = used s b && bool_decide (b ∉ F);
  pa_sect : forall b, 0 <= b < nb s -> sect s3 b = sect s b;
  pa_buf : cut_done (idwords s (sfi_indirect (sv_i sv))) 0 (drops_indirect blocklen) false false buf has dirty
}.

Lemma passed_indirect s s3 p sv sv1 blocklen F buf has dirty :
  fok s p sv -> passed s s3 p sv sv1 blocklen F buf has dirty -> sfi_indirect (sv_i sv) ≠ 0 ->
  sfi_indirect (sv_i sv) ∉ F.
Proof.
  intros Hf Hpa Hi0 Hin%(pa_F _ _ _ _ _ _ _ _ _ _ Hpa). pose proof (fok_file _ _ _ Hf) as Hfo.
  destruct Hin as [Hin|(j & _ & _ & Hj & _)].
  - pose proof (slots_15 s (sv_i sv) (f_inode _ _ Hfo)) as Hs.
    apply (freed_direct_apart s _ blocklen (sfi_indirect (sv_i sv))) in Hs; [lia|done|done].
  - by eapply (idwords_apart s (sv_i sv)).
Qed.

(** Every entry of the indirect block went: the block goes as well. *)
Lemma passed_freed s s3 s4 p sv sv1 blocklen F buf dirty :
  fok s p sv -> passed s s3 p sv sv1 blocklen F buf false dirty -> sfi_indirect (sv_i sv) ≠ 0 ->
  freed s3 s4 (sfi_indirect (sv_i sv)) ->
  let sv' := set_dirty (set_i sv1 (set_indirect (sv_i sv1) 0)) true in
  tmid s (set_heap s4 (<[p := sv']> (k_heap s4))) p sv sv' blocklen 0 (F ++ [sfi_indirect (sv_i sv)]).
Proof.
  intros Hf [Hh Hg Hi HF Hu Hs [Hbuf Hhas _]] Hi0 Hfr sv'.
  assert (k_heap s3 !! p = Some sv1) as Hp by (by rewrite (h_heap _ _ _ _ _ Hh), lookup_insert_eq).
  assert (tstep s3 (set_heap s4 (<[p := sv']> (k_heap s4))) p sv1 sv' [sfi_indirect (sv_i sv)]) as Hts
    by (apply freed_tstep; auto).
  split; [by eapply hdr_trans; [|apply Hts]|apply Hts|by cbn; rewrite Hi; destruct (sv_i sv)| | | |].
  - apply list_eq. intros j. rewrite <- Hbuf.
    assert (length buf = 128%nat) as Hl by (by rewrite Hbuf, length_cut, length_idwords).
    destruct (buf !! j) as [b|] eqn:Hb; cbn.
    + assert (b = 0) as ->. { destruct (decide (b = 0)); [done|]. destruct Hhas as [_ Hhas].
        discriminate Hhas. right. exists j, b. repeat split; [lia|done|done]. }
      apply lookup_lt_Some in Hb. apply lookup_replicate_2. lia.
    + apply lookup_ge_None in Hb. apply lookup_ge_None. change (idwords _ 0) with (replicate 128 0).
      rewrite length_replicate. lia.
  - split; [|by right]. intros b. rewrite elem_of_app, HF, list_elem_of_singleton. naive_solver.
  - intros b Hb. rewrite (ts_used _ _ _ _ _ _ Hts), Hu, <- andb_assoc by done. f_equal.
    repeat case_bool_decide; rewrite ?elem_of_app in *; naive_solver.
  - intros b Hb _. rewrite (tstep_sect _ _ _ _ _ _ _ Hts). auto.
Qed.

(** Some entry stays: the block stays, with the entries that are left. *)
Lemma passed_kept s s3 s4 p sv sv1 blocklen F buf has dirty :
  fok s p sv -> passed s s3 p sv sv1 blocklen F buf has dirty -> sfi_indirect (sv_i sv) ≠ 0 ->
  dev_upd s3 s4 (sfi_indirect (sv_i sv)) (enc_words buf) \/ s4 = s3 /\ buf = idwords s (sfi_indirect (sv_i sv)) ->
  tmid s s4 p sv sv1 blocklen (sfi_indirect (sv_i sv)) F.
Proof.
  intros Hf [Hh Hg Hi HF Hu Hs [Hbuf _ _]] Hi0 Hw. pose proof (fok_file _ _ _ Hf) as Hfo.
  pose proof (fok_good _ _ _ Hf). destruct (indirect_used s p sv Hf Hi0) as [Hir _]. pose proof (hdr_nb _ _ _ _ _ Hh) as Hnb.
  assert (hdr s3 s4 p sv1 sv1 /\ good s4 /\ (forall b, used s4 b = used s3 b) /\
    idwords s4 (sfi_indirect (sv_i sv)) = buf /\
    forall b, 0 <= b < nb s -> b ≠ sfi_indirect (sv_i sv) -> sect s4 b = sect s3 b) as (Hh4 & Hg4 & Hu4 & Hw4 & Hs4).
  { destruct Hw as [Hd|[-> ->]].
    - assert (Forall (fun w => 0 <= w < 4294967296) buf) as Hw
        by (rewrite Hbuf; by apply cut_range, idwords_range).
      split_and!.
      + destruct Hd as (d & -> & _). split; cbn; auto. by rewrite (h_heap _ _ _ _ _ Hh), insert_insert_eq.
      + by apply (dev_upd_good s3 s4 _ _ Hg Hd).
      + by destruct Hd as (d & -> & _).
      + apply idwords_enc; [done| | |done].
        * rewrite (dev_upd_sect s3 s4 _ _ _ Hg Hd) by lia. by rewrite decide_True.
        * rewrite Hbuf, length_cut. apply length_idwords.
      + intros b Hb Hne. rewrite (dev_upd_sect s3 s4 _ _ _ Hg Hd) by lia. by rewrite decide_False.
    - split_and!; [|done|done|by unfold idwords; rewrite Hs by lia|done].
      apply hdr_refl. by rewrite (h_heap _ _ _ _ _ Hh), lookup_insert_eq. }
  split; [by eapply hdr_trans|done|by rewrite Hi; destruct (sv_i sv)|by rewrite Hw4| | |].
  - split; [|by left]. intros b. rewrite HF. naive_solver.
  - intros b Hb. rewrite Hu4. auto.
  - intros b Hb Hbi. rewrite Hs4; [by apply Hs|done|]. intros ->. by apply Hi0, Hbi.
Qed.

Lemma wp_truncate_idblock s s1 p sv sv1 F1 blocklen :
  fok s p sv -> 0 <= blocklen -> tstep s s1 p sv sv1 F1 ->
  sv_i sv1 = set_direct (sv_i sv) (cut (sfi_direct (sv_i sv)) 0 (drops_direct blocklen)) ->
  (forall b, b ∈ F1 <-> freed_of (sfi_direct (sv_i sv)) 0 (drops_direct blocklen) b) ->
  wp (truncate_idblock p blocklen)
    (fun _ s' => exists sv' ind' F, tmid s s' p sv sv' blocklen ind' F /\
       (blocklen < 142 -> ind' ≠ 0 -> exists j b, idwords s' ind' !! j = Some b /\ b ≠ 0)) (fun _ _ => False) s1.
Proof.
  intros Hf Hbl Hts1 Hi1 HF1. pose proof Hf as [Hp Hg Hfo]. pose proof (f_inode _ _ Hfo) as Hi.
  pose proof (ts_hdr _ _ _ _ _ _ Hts1) as Hh1. pose proof (tstep_nb _ _ _ _ _ _ Hts1) as Hnb1.
  assert (k_heap s1 !! p = Some sv1) as Hp1 by (by rewrite (h_heap _ _ _ _ _ Hh1), lookup_insert_eq).
  unfold truncate_idblock. wp_step. eapply wp_deref; [done|]. cbn zeta.
  set (ind := sfi_indirect (sv_i sv)) in *. set (ids := idwords s ind).
  replace (sfi_indirect (sv_i sv1)) with ind by (by rewrite Hi1).
  unfold SFS_NDIRECT, SFS_DBPERIDB. change (15 + 128 - 1) with 142.
  destruct (bool_decide (blocklen < 142) && bool_decide (ind ≠ 0)) eqn:Hcond.
  2:{ wp_steps. exists sv1, ind, F1. split.
      2: { intros ? ?. by rewrite !bool_decide_eq_true_2 in Hcond by done. }
      apply tmid_direct; try done. fold ind. intros j b Hj.
      apply andb_false_iff in Hcond as [Hc%bool_decide_eq_false_1|Hc%bool_decide_eq_false_1].
      - left. apply bool_decide_eq_false_2. apply lookup_lt_Some in Hj. rewrite length_idwords in Hj. lia.
      - right. assert (ind = 0) as Hz by lia. rewrite Hz in Hj. by apply lookup_replicate in Hj as [-> _]. }
  apply andb_true_iff in Hcond as [_ Hi0%bool_decide_eq_true_1].
  destruct (indirect_used s p sv Hf Hi0) as [Hir Hiu]. fold ind in Hir, Hiu.
  wp_step. eapply wp_rblock; [apply Hts1|lia|done|]. intros s2 Hq%quiet_upd.
  assert (dec_words 128 (sect s1 ind) = ids) as ->.
  { unfold ids, idwords. rewrite decide_False by done. by rewrite (tstep_sect _ _ _ _ _ _ _ Hts1). }
  assert (forall j b, ids !! j = Some b -> b ≠ 0 -> b ∉ F1) as Hapart.
  { intros j b Hj Hb Hin%HF1. apply idwords_slot in Hj; [|done].
    apply (freed_direct_apart s _ blocklen b) in Hj; [lia|done|done]. }
  assert (ind ∉ F1) as Hind1.
  { intros Hin%HF1. pose proof (slots_15 s (sv_i sv) Hi) as Hs.
    apply (freed_direct_apart s _ blocklen ind) in Hs; [lia|done|done]. }
  assert (tail_ok s2 ids 0) as Ht2.
  { assert (tail_ok s1 ids 0) as Ht1 by (eapply tail_ok_tstep; [by apply indirect_tail_ok|done|done]).
    by destruct Hq as (d & -> & _). }
  pose proof (ts_good _ _ _ _ _ _ Hts1) as Hg1.
  assert (hdr s s2 p sv sv1) as Hh2 by (eapply hdr_trans; [done|by apply quiet_hdr]).
  assert (forall b, 0 <= b -> used s2 b = used s b && bool_decide (b ∉ F1)) as Hu2
    by (destruct Hq as (d & -> & _); apply Hts1).
  assert (forall b, 0 <= b < nb s -> sect s2 b = sect s b) as Hs2.
  { intros b Hb. rewrite (quiet_sect s1 s2) by (done || lia). by eapply tstep_sect. }
  wp_step. change 0 with (Z.of_nat 0) at 1.
  apply (wp_truncate_indirect 128 0 s2 p sv1); [by eapply quiet_good|by destruct Hq as (d & -> & _)
    |apply length_idwords|done|done|].
  intros s3 F2 [[buf has] dirty] Hts3 HF2 [Hbuf Hhas Hdirty]. cbn [fst snd] in *.
  assert (hdr s s3 p sv sv1) as Hh3 by (eapply hdr_trans; [done|apply Hts3]).
  assert (forall b, 0 <= b -> used s3 b = used s b && bool_decide (b ∉ F1 ++ F2)) as Hu3.
  { intros b Hb. rewrite (ts_used _ _ _ _ _ _ Hts3), Hu2, <- andb_assoc by done. f_equal.
    repeat case_bool_decide; rewrite ?elem_of_app in *; naive_solver. }
  assert (forall b, 0 <= b < nb s -> sect s3 b = sect s b) as Hs3.
  { intros b Hb. rewrite (tstep_sect _ _ _ _ _ _ _ Hts3). auto. }
  assert (passed s s3 p sv sv1 blocklen (F1 ++ F2) buf has dirty) as Hpa.
  { split; try done; [apply Hts3|]. intros b. by rewrite elem_of_app, HF1, HF2. }
  assert (0 < ind < nb s3) as Hir3 by (rewrite (hdr_nb _ _ _ _ _ Hh3); lia).
  assert (used s3 ind = true) as Hiu3.
  { rewrite Hu3, Hiu, bool_decide_eq_true_2 by (lia || by eapply passed_indirect). done. }
  assert (has = true -> forall s4, tmid s s4 p sv sv1 blocklen ind (F1 ++ F2) ->
    exists j b, idwords s4 ind !! j = Some b /\ b ≠ 0) as Hleft.
  { intros Hh s4 Hm. destruct (proj1 Hhas Hh) as [?|(j & b & _ & Hj & Hb)]; [done|]. exists j, b.
    rewrite (tm_ids _ _ _ _ _ _ _ _ Hm). fold ind ids. by rewrite <- Hbuf. }
  destruct has; cbn [negb]; [destruct dirty|].
  - eapply wp_wblock; [apply Hpa|lia| |].
    + rewrite length_enc_words, Hbuf, length_cut. unfold ids. by rewrite length_idwords.
    + intros s4 Hd. exists sv1, ind, (F1 ++ F2).
      assert (tmid s s4 p sv sv1 blocklen ind (F1 ++ F2)) by (eapply passed_kept; eauto). split; [done|by auto].
  - wp_steps. exists sv1, ind, (F1 ++ F2).
    assert (tmid s s3 p sv sv1 blocklen ind (F1 ++ F2))
      by (eapply passed_kept; eauto; right; by destruct Hdirty as [|[? _]]). split; [done|by auto].
  - wp_step. eapply wp_bfree; [apply Hpa|done|done|]. intros s4 Hfr. apply wp_assign.
    eexists _, 0, _. split; [by eapply passed_freed|done].
Qed.
(** The blocks a file keeps when it is cut to [blocklen] blocks. *)
Definition keeps (blocklen k : Z) : bool :=
  if decide (k < 15) then bool_decide (k < blocklen) else bool_decide (k <= blocklen).

Lemma blk_cut s s' i blocklen ind' k :
  inode_wf i -> 0 <= k < MAXBLOCKS ->
  idwords s' ind' = cut (idwords s (sfi_indirect i)) 0 (drops_indirect blocklen) ->
  forall i', sfi_direct i' = cut (sfi_direct i) 0 (drops_direct blocklen) -> sfi_indirect i' = ind' ->
  blk s' i' k = if keeps blocklen k then blk s i k else 0.
Proof.
  unfold MAXBLOCKS. intros Hi Hk Hids i' Hd Hi'. unfold blk.
  assert (slots s' i' = zslots i blocklen ind' (idwords s (sfi_indirect i))) as ->
    by (unfold slots, zslots; by rewrite Hd, Hi', Hids).
  rewrite !nth_lookup, zslots_lookup by done. unfold slot_ix, keeps.
  destruct (decide (k < 15)) as [Hlt|Hge].
  - rewrite decide_False, decide_True by lia. unfold drops_direct.
    destruct (slots s i !! Z.to_nat k) as [b|]; cbn; repeat case_bool_decide; (done || lia).
  - rewrite decide_False, decide_False by lia. unfold drops_indirect.
    destruct (slots s i !! Z.to_nat (k + 1)) as [b|]; cbn; repeat case_bool_decide; (done || lia).
Qed.

Lemma keeps_below len x : x < blocks_of len * 512 -> keeps (blocks_of len) (x / 512) = true.
Proof.
  intros Hx. assert (x / 512 < blocks_of len) by (apply Z.div_lt_upper_bound; lia).
  unfold keeps. case_decide; apply bool_decide_eq_true_2; lia.
Qed.

Record truncated s s' (p : ptr) sv sv' (len : Z) : Prop := {
  tr_shrunk : shrunk s s' p sv sv';
  tr_size : sfi_size (sv_i sv') = len;
  tr_dirty : sv_dirty sv' = true;
  tr_blk : forall k, 0 <= k < MAXBLOCKS ->
    blk s' (sv_i sv') k = if keeps (blocks_of len) k then blk s (sv_i sv) k else 0;
  tr_ind : blocks_of len < 142 -> sfi_indirect (sv_i sv') ≠ 0 ->
    exists k, 15 <= k < MAXBLOCKS /\ blk s' (sv_i sv') k ≠ 0
}.

Lemma idwords_blk s i j b : inode_wf i -> idwords s (sfi_indirect i) !! j = Some b -> blk s i (15 + Z.of_nat j) = b.
Proof.
  intros Hi Hj. unfold blk, slot_ix. rewrite decide_False by lia.
  replace (Z.to_nat (15 + Z.of_nat j + 1)) with (16 + j)%nat by lia. rewrite nth_lookup.
  by rewrite (idwords_slot s i j b Hi Hj).
Qed.

Lemma wp_sfs_truncate s p sv len (Q : unit -> sfs_fs D -> Prop) E :
  fok s p sv -> 0 <= len <= MAXFILE ->
  (forall s' sv', truncated s s' p sv sv' len -> Q tt s') ->
  wp (sfs_truncate p len) Q E s.
Proof.
  intros Hf Hlen HQ. pose proof Hf as [Hp Hg Hfo]. pose proof (f_inode _ _ Hfo) as Hi.
  destruct (blocklen_ok len Hlen) as (Hio & Hbl & Hr). unfold sfs_truncate.
  wp_step. eapply wp_lift; [exact Hio|]. rewrite Hbl.
  wp_step. change 0 with (Z.of_nat 0) at 1.
  apply (wp_truncate_direct 15 0 s p sv); [done|done|apply Hi|done|by apply direct_tail_ok|].
  intros s1 sv1 F1 Hts Hi1 HF1. wp_step.
  eapply wp_mono; [by eapply wp_truncate_idblock; [| |exact Hts| |]; [|lia| |]| |done].
  intros [] s2 (sv2 & ind' & F & Htm & Hind). pose proof Htm as [Hh _ Htmi Hids _ _ _].
  assert (k_heap s2 !! p = Some sv2) as Hp2 by (by rewrite (h_heap _ _ _ _ _ Hh), lookup_insert_eq).
  wp_step. eapply wp_deref; [done|]. apply wp_assign.
  rewrite u32_small by (unfold MAXFILE in Hlen; lia).
  pose proof (tmid_shrunk _ _ _ _ _ _ _ _ len Hf Hlen Htm) as Hsh.
  apply (HQ _ (with_size sv2 len)). split; [done|done|done| |].
  - intros k Hk. eapply blk_cut; [done|done|exact Hids| |]; cbn; by rewrite Htmi.
  - intros Hb Hne. assert (sfi_indirect (sv_i sv2) = ind') as Hi2 by (by rewrite Htmi).
    cbn in Hne. rewrite Hi2 in Hne. destruct (Hind Hb Hne) as (j & b & Hj & Hbn). exists (15 + Z.of_nat j).
    apply lookup_lt_Some in Hj as Hlt. rewrite length_idwords in Hlt. unfold MAXBLOCKS. split; [lia|].
    rewrite (idwords_blk _ _ j b); [done|apply Hsh|]. cbn. rewrite Hi2. exact Hj.
Qed.

Lemma sfs_truncate_run s p sv len :
  fok s p sv -> 0 <= len <= MAXFILE ->
  exists s' sv', sfs_truncate p len s = Done (inr tt, s') /\ truncated s s' p sv sv' len.
Proof.
  intros Hf Hlen.
  assert (wp (sfs_truncate p len) (fun _ s' => exists sv', truncated s s' p sv sv' len) (fun _ _ => False) s) as Hw
    by (apply (wp_sfs_truncate s p sv len); eauto).
  apply wp_done in Hw as ([e|[]] & s' & Hrun & Hpost); [done|]. destruct Hpost as [sv' Htr]. by exists s', sv'.
Qed.

(** A block that is kept keeps its contents. *)
Lemma truncated_fbyte s s' p sv sv' len x :
  fok s p sv -> truncated s s' p sv sv' len -> 0 <= x < MAXFILE ->
  keeps (blocks_of len) (x / 512) = true -> fbyte s' (sv_i sv') x = fbyte s (sv_i sv) x.
Proof.
  intros Hf [[Hf' _ _ _ Hs] _ _ Hb _] Hx Hk. unfold MAXFILE in Hx.
  assert (0 <= x / 512 < MAXBLOCKS)
    by (unfold MAXBLOCKS; split; [apply Z.div_pos|apply Z.div_lt_upper_bound]; lia).
  unfold fbyte. rewrite Hb, Hk by done. case_decide as Hz; [done|]. f_equal. apply Hs.
  - destruct (blk_used s (sv_i sv) (x / 512)); [apply Hf|done|done|lia].
  - intros Heq. by apply (blk_not_indirect s (sv_i sv) (x / 512)) in Heq; [|apply Hf|..].
Qed.

(** C17. [sfs_truncate] cuts a file to any length a file can have.  It always
    succeeds, sets the size and keeps every byte below it.  Block by block: a
    block below the new end is kept; every other direct block is dropped; of the
    blocks the indirect block lists, the one right after the new end is kept and
    all others past it are dropped.  The indirect block itself goes when it
    lists nothing any more, unless the new end is at its last entry or beyond.
    Exactly the blocks the file lost become free, and no other vnode and no
    block outside the file changes. *)
Theorem sfs_truncate_refines s (p : ptr) sv (len : Z) :
  fok s p sv -> 0 <= len <= MAXFILE ->
  exists s' sv', sfs_truncate p len s = Done (inr tt, s') /\ shrunk s s' p sv sv' /\
    sfi_size (sv_i sv') = len /\ sv_dirty sv' = true /\
    (forall x, 0 <= x < len -> fbyte s' (sv_i sv') x = fbyte s (sv_i sv) x) /\
    (forall k, 0 <= k < MAXBLOCKS -> blk s' (sv_i sv') k =
       if decide (k < blocks_of len \/ (15 <= k /\ k = blocks_of len)) then blk s (sv_i sv) k else 0) /\
    (blocks_of len < 142 -> (forall k, 15 <= k < MAXBLOCKS -> blk s' (sv_i sv') k = 0) -> sfi_indirect (sv_i sv') = 0).
Proof.
  intros Hf Hlen. destruct (sfs_truncate_run s p sv len Hf Hlen) as (s' & sv' & Hrun & Htr).
  exists s', sv'. split; [done|]. split; [apply Htr|]. split; [apply Htr|]. split; [apply Htr|]. split; [|split].
  - intros x Hx. apply (truncated_fbyte s s' p sv sv' len); [done|done|lia|].
    apply keeps_below. pose proof (blocks_of_covers len). lia.
  - intros k Hk. rewrite (tr_blk _ _ _ _ _ _ Htr) by lia. unfold keeps.
    repeat case_decide; case_bool_decide; (done || lia).
  - intros Hb Hz. destruct (decide (sfi_indirect (sv_i sv') = 0)) as [|Hne]; [done|].
    destruct (tr_ind _ _ _ _ _ _ Htr Hb Hne) as (k & Hk & Hn). by rewrite Hz in Hn.
Qed.

(** For a new end at or past block 15 the block right after it is kept: the
    test on the indirect entries is one off from the one on the direct blocks,
    so a block wholly past the end of the file stays allocated to it. *)
Theorem sfs_truncate_keeps_block s (p : ptr) sv (len : Z) :
  fok s p sv -> 0 <= len <= MAXFILE -> 15 <= blocks_of len < MAXBLOCKS ->
  blk s (sv_i sv) (blocks_of len) ≠ 0 ->
  exists s' sv', sfs_truncate p len s = Done (inr tt, s') /\ k_heap s' !! p = Some sv' /\
    sfi_size (sv_i sv') = len /\ len <= blocks_of len * 512 /\
    blk s' (sv_i sv') (blocks_of len) = blk s (sv_i sv) (blocks_of len) /\
    used s' (blk s (sv_i sv) (blocks_of len)) = true.
Proof.
  intros Hf Hlen Hbl Hnz. destruct (sfs_truncate_run s p sv len Hf Hlen) as (s' & sv' & Hrun & Htr).
  pose proof (tr_blk _ _ _ _ _ _ Htr (blocks_of len) ltac:(lia)) as Hb. unfold keeps in Hb.
  rewrite decide_False, bool_decide_eq_true_2 in Hb by lia.
  pose proof (sh_fok _ _ _ _ _ (tr_shrunk _ _ _ _ _ _ Htr)) as Hf'.
  exists s', sv'. split; [done|]. split; [apply Hf'|]. split; [apply Htr|]. split; [apply blocks_of_covers|].
  split; [done|]. rewrite <- Hb in Hnz |- *.
  apply blk_used; [apply Hf'|lia|done].
Qed.

(** Shrinking a file and growing it again inside its last block brings the
    discarded bytes back: [sfs_truncate] clears neither the rest of the block
    when it shrinks nor the new part when it grows. *)
Theorem sfs_truncate_stale_tail s (p : ptr) sv (len len' x : Z) :
  fok s p sv -> 0 <= len <= x -> x < len' <= blocks_of len * 512 -> len' <= MAXFILE ->
  exists s1 s2 sv2, sfs_truncate p len s = Done (inr tt, s1) /\ sfs_truncate p len' s1 = Done (inr tt, s2) /\
    k_heap s2 !! p = Some sv2 /\ sfi_size (sv_i sv2) = len' /\
    fbyte s2 (sv_i sv2) x = fbyte s (sv_i sv) x.
Proof.
  intros Hf Hx Hl' Hmax. destruct (sfs_truncate_run s p sv len) as (s1 & sv1 & Hrun & Htr1); [done|lia|].
  pose proof (sh_fok _ _ _ _ _ (tr_shrunk _ _ _ _ _ _ Htr1)) as Hf1.
  destruct (sfs_truncate_run s1 p sv1 len') as (s2 & sv2 & Hrun2 & Htr2); [done|lia|].
  pose proof (sh_fok _ _ _ _ _ (tr_shrunk _ _ _ _ _ _ Htr2)) as Hf2.
  exists s1, s2, sv2. split; [done|]. split; [done|]. split; [apply Hf2|]. split; [apply Htr2|].
  pose proof (blocks_of_covers len'). rewrite (truncated_fbyte s1 s2 p sv1 sv2 len') by (done || lia || by apply keeps_below; lia).
  apply (truncated_fbyte s s1 p sv sv1 len); [done|done|lia|]. apply keeps_below. lia.
Qed.
End truncate.

(** ** Witnesses *)

(** The file has blocks at 15 and 16 only: both go, and the indirect block too. *)
Lemma sfs_truncate_refines_witness :
  exists s' sv', sfs_truncate ex_big 600 ex_fs = Done (inr tt, s') /\ shrunk ex_fs s' ex_big ex_big_sv sv' /\
    sfi_size (sv_i sv') = 600 /\ (forall k, 15 <= k < MAXBLOCKS -> blk s' (sv_i sv') k = 0) /\ sfi_indirect (sv_i sv') = 0.
Proof.
  destruct (sfs_truncate_refines ex_fs ex_big ex_big_sv 600) as (s' & sv' & H1 & H2 & H3 & _ & _ & H5 & H6);
    [apply ex_big_fok|unfold MAXFILE; lia|].
  assert (Hz : forall k, 15 <= k < MAXBLOCKS -> blk s' (sv_i sv') k = 0).
  { intros k Hk. rewrite H5 by lia. apply decide_False. change (blocks_of 600) with 2. lia. }
  exists s', sv'. split; [exact H1|]. split; [exact H2|]. split; [exact H3|]. split; [exact Hz|]. apply H6; [reflexivity|exact Hz].
Defined.

Lemma sfs_truncate_keeps_block_witness :
  exists s' sv', sfs_truncate ex_big 7680 ex_fs = Done (inr tt, s') /\ k_heap s' !! ex_big = Some sv' /\
    sfi_size (sv_i sv') = 7680 /\ 7680 <= blocks_of 7680 * 512 /\
    blk s' (sv_i sv') (blocks_of 7680) = blk ex_fs ex_big_inode (blocks_of 7680) /\
    used s' (blk ex_fs ex_big_inode (blocks_of 7680)) = true.
Proof.
  apply (sfs_truncate_keeps_block ex_fs ex_big ex_big_sv 7680);
    [apply ex_big_fok|unfold MAXFILE; lia|done|by vm_compute].
Defined.

Lemma sfs_truncate_stale_tail_witness :
  exists s1 s2 sv2, sfs_truncate ex_file 100 ex_fs = Done (inr tt, s1) /\
    sfs_truncate ex_file 512 s1 = Done (inr tt, s2) /\
    k_heap s2 !! ex_file = Some sv2 /\ sfi_size (sv_i sv2) = 512 /\
    fbyte s2 (sv_i sv2) 300 = fbyte ex_fs ex_file_inode 300.
Proof.
  apply (sfs_truncate_stale_tail ex_fs ex_file ex_file_sv 100 512 300);
    [apply ex_file_fok|lia|vm_compute; by split|unfold MAXFILE; lia].
Defined.

End SfsTruncate.
