(* ===== verification/SfsMount.v ===== *)
(** * SFS: mounting and sync

    What [sfs_domount] finds on a volume and what [sfs_sync] leaves there.
    [vol_ok] is the state of a mounted volume: the tables, the loaded vnodes
    and their blocks fit together, and whatever is not marked dirty is on the
    disk.  It holds after mounting and loading vnodes, writes keep it, and
    after a sync a new mount finds the same volume. *)

From S2P Require Import Prelude KArray KBitmap UserMem Uio BlockDev SfsFormat Sfs SfsBlocks SfsFile SfsIo SfsDir SfsTruncate.

Module SfsMount.
Import UserMem Uio SfsFormat Sfs SfsBlocks SfsFile SfsIo SfsDir SfsTruncate.

(** ** The superblock *)

Record super_wf (sp : SfsFormat.sfs_super) : Prop := {
  swf_magic : 0 <= sp_magic sp < 4294967296;
  swf_nblocks : 0 <= sp_nblocks sp < 4294967296;
  swf_volname : length (sp_volname sp) = 32%nat;
  swf_nreserved : length (sp_reserved sp) = 118%nat;
  swf_reserved : Forall (fun w => 0 <= w < 4294967296) (sp_reserved sp)
}.

Lemma length_super_bytes sp : super_wf sp -> length (super_bytes sp) = 512%nat.
Proof.
  intros []. unfold super_bytes. rewrite !length_app, length_enc_words, swf_volname0, swf_nreserved0. done.
Qed.

Lemma super_roundtrip sp : super_wf sp -> super_of_bytes (super_bytes sp) = sp.
Proof.
  intros [Hm Hn Hv Hr Hw]. unfold super_of_bytes, super_bytes.
  rewrite (ld32_app_r (be32 (sp_magic sp)) _ 4) by (cbn; lia). cbn [length be32 Nat.sub].
  rewrite !ld32_be32 by done. unfold slice. change (Z.to_nat 8) with 8%nat. change (Z.to_nat 32) with 32%nat.
  change (drop 8 (be32 (sp_magic sp) ++ be32 (sp_nblocks sp) ++ sp_volname sp ++ enc_words (sp_reserved sp)))
    with (sp_volname sp ++ enc_words (sp_reserved sp)).
  change (drop 40 (be32 (sp_magic sp) ++ be32 (sp_nblocks sp) ++ sp_volname sp ++ enc_words (sp_reserved sp)))
    with (drop 32 (sp_volname sp ++ enc_words (sp_reserved sp))).
  rewrite take_app_length', drop_app_length' by done.
  pose proof (dec_enc_words (sp_reserved sp) [] Hw) as Hd. rewrite Hr, app_nil_r in Hd. rewrite Hd. by destruct sp.
Qed.

Lemma super_of_bytes_wf b : length b = 512%nat -> super_wf (super_of_bytes b).
Proof.
  intros Hb. split; cbn [super_of_bytes sp_magic sp_nblocks sp_volname sp_reserved];
    [apply ld32_range|apply ld32_range| |apply length_dec_words|apply dec_words_range].
  unfold slice. rewrite length_take, length_drop, Hb. done.
Qed.

(** The size of the free map, in bits and in blocks. *)
Lemma bitblocks_spec n :
  0 < n < 4194304 ->
  SFS_BITMAPSIZE n = 4096 * SFS_BITBLOCKS n /\ 0 < SFS_BITBLOCKS n /\ n <= 4096 * SFS_BITBLOCKS n < n + 4096.
Proof.
  intros Hn. unfold SFS_BITBLOCKS, SFS_BITMAPSIZE, SFS_ROUNDUP, SFS_BLOCKBITS, SFS_BLOCKSIZE.
  change (512 * 8) with 4096. rewrite (u32_small (n + 4096 - 1)) by lia.
  pose proof (Z.div_mod (n + 4096 - 1) 4096 ltac:(lia)). pose proof (Z.mod_pos_bound (n + 4096 - 1) 4096 ltac:(lia)).
  rewrite u32_small by lia. rewrite Z.div_mul by lia. lia.
Qed.

Section mount.
Context {D : Type} `{BlockDevice D, !BlockDeviceLaws D}.
Implicit Types (s : sfs_fs D) (sv : sfs_vnode) (i : sfs_inode).

(** ** The free map on the disk *)

(** The bytes of the [n] blocks of the map from block [j] of it on. *)
Definition map_bytes s (j n : Z) : list Z := concat ((fun k => sect s (SFS_MAP_LOCATION + k)) <$> seqZ j n).

(** The device works and has the map blocks from [j] on. *)
Definition has_map s (j n : Z) : Prop :=
  d_ok (sfs_device s) /\ 0 <= j /\ (0 < n -> SFS_MAP_LOCATION + j + n <= d_blocks (sfs_device s)).

Lemma map_bytes_cons s j n : 0 < n -> map_bytes s j n = sect s (SFS_MAP_LOCATION + j) ++ map_bytes s (j + 1) (n - 1).
Proof. intros. unfold map_bytes. rewrite seqZ_cons by lia. cbn. by rewrite Z.add_1_r, Z.sub_1_r. Qed.

Lemma length_map_bytes s j n : has_map s j n -> 0 <= n -> Z.of_nat (length (map_bytes s j n)) = 512 * n.
Proof.
  intros (Hd & Hj & Hm) Hn. revert j Hj Hm. pattern n. apply natlike_ind; [|clear n Hn; intros n Hn IH|done].
  - intros j Hj _. done.
  - intros j Hj Hm. rewrite map_bytes_cons, length_app by lia. replace (Z.succ n - 1) with n by lia.
    unfold SFS_MAP_LOCATION in *. unfold sect. rewrite d_law_sector by (done || lia). rewrite Nat2Z.inj_add, IH by lia. lia.
Qed.

Lemma map_bytes_quiet s s' j n : has_map s j n -> quiet s s' -> map_bytes s' j n = map_bytes s j n.
Proof.
  intros (Hd & Hj & Hm) (d' & -> & _ & _ & Hs). unfold map_bytes. f_equal. apply list_fmap_ext. intros k x Hk.
  apply lookup_seqZ in Hk as [-> Hk]. unfold sect. cbn. apply Hs. unfold SFS_MAP_LOCATION in *. lia.
Qed.

Lemma wp_mapio_read (n : nat) j s (Q : unit -> sfs_fs D -> Prop) E :
  has_map s j (Z.of_nat n) -> (j + Z.of_nat n) * 512 <= Z.of_nat (length (KBitmap.v (sfs_freemap s))) ->
  (forall s', quiet s s' -> Q tt (set_freemap s' (KBitmap.mkBitmap (KBitmap.nbits (sfs_freemap s))
     (splice (KBitmap.v (sfs_freemap s)) (j * 512) (map_bytes s j (Z.of_nat n)))))) ->
  wp (mapio_loop n j UIO_READ) Q E s.
Proof.
  revert j s Q. induction n as [|n IH]; intros j s Q (Hd & Hj & Hm) Hl HQ; cbn [mapio_loop].
  - apply wp_ret. specialize (HQ (set_device s (sfs_device s) (k_ctx s))).
    change (map_bytes s j (Z.of_nat 0)) with (@nil Z) in HQ. rewrite splice_nil in HQ.
    replace (KBitmap.mkBitmap _ _) with (sfs_freemap s) in HQ by (by destruct (sfs_freemap s)).
    destruct s. apply HQ. eexists. done.
  - wp_steps. change SFS_BLOCKSIZE with 512. eapply wp_lift; [apply mem_read_ok; lia|].
    rewrite decide_True by done. wp_steps. pose proof (length_slice (KBitmap.v (sfs_freemap s)) (j * 512) 512 ltac:(lia) ltac:(lia) ltac:(lia)).
    assert (Hb : has_block s (SFS_MAP_LOCATION + j)) by (split; [done|unfold SFS_MAP_LOCATION in *; lia]).
    assert (Hs : length (sect s (SFS_MAP_LOCATION + j)) = 512%nat) by (apply d_law_sector; [done|apply Hb]).
    apply wp_rblock_dev; [done|lia|]. intros s1 Hq%quiet_upd. wp_steps.
    assert (sfs_freemap s1 = sfs_freemap s) as Ef by (by destruct Hq as (d' & -> & _)). rewrite Ef.
    eapply wp_lift; [apply mem_write_ok; lia|]. wp_steps. set (s2 := set_freemap _ _).
    pose proof Hq as (d1 & E1 & Hok1 & Hn1 & Hs1).
    assert (Hmap : map_bytes s2 (j + 1) (Z.of_nat n) = map_bytes s (j + 1) (Z.of_nat n)).
    { change (map_bytes s2 (j + 1) (Z.of_nat n)) with (map_bytes s1 (j + 1) (Z.of_nat n)).
      apply map_bytes_quiet; [|done]. split; [done|]. split; lia. }
    apply IH.
    + subst s2 s1. split; [done|]. cbn. split; [lia|]. intros. rewrite Hn1. lia.
    + cbn. rewrite length_splice by lia. lia.
    + intros s' Hq'. rewrite Hmap. cbn [sfs_freemap set_freemap KBitmap.v KBitmap.nbits s2]. rewrite Ef.
      replace ((j + 1) * 512) with (j * 512 + Z.of_nat (length (sect s (SFS_MAP_LOCATION + j)))) by lia.
      rewrite splice_app.
      2: lia.
      2: { rewrite length_map_bytes; [lia|split; [done|split; lia]|lia]. }
      pose proof (HQ (set_device s (sfs_device s') (k_ctx s))) as HQ'.
      rewrite map_bytes_cons in HQ' by lia. replace (Z.of_nat (S n) - 1) with (Z.of_nat n) in HQ' by lia.
      destruct Hq' as (d2 & -> & Hok2 & Hn2 & Hs2). subst s2 s1. cbn in *. apply HQ'.
      exists d2. split; [done|]. split; [done|]. split; [congruence|]. intros b Hb'. rewrite Hs2, Hs1 by congruence. done.
Qed.

Lemma wp_mapio_write (n : nat) j s (Q : unit -> sfs_fs D -> Prop) E :
  has_map s j (Z.of_nat n) -> (j + Z.of_nat n) * 512 <= Z.of_nat (length (KBitmap.v (sfs_freemap s))) ->
  (forall d', d_ok d' -> d_blocks d' = d_blocks (sfs_device s) ->
     (forall b, 0 <= b < d_blocks d' -> d_sector d' b =
        if decide (SFS_MAP_LOCATION + j <= b < SFS_MAP_LOCATION + j + Z.of_nat n)
        then slice (KBitmap.v (sfs_freemap s)) ((b - SFS_MAP_LOCATION) * 512) 512 else sect s b) ->
     Q tt (set_device s d' (k_ctx s))) ->
  wp (mapio_loop n j UIO_WRITE) Q E s.
Proof.
  revert j s Q. induction n as [|n IH]; intros j s Q (Hd & Hj & Hm) Hl HQ; cbn [mapio_loop].
  - apply wp_ret. specialize (HQ (sfs_device s) Hd eq_refl). destruct s. apply HQ. intros b Hb.
    rewrite decide_False by lia. done.
  - wp_steps. change SFS_BLOCKSIZE with 512. eapply wp_lift; [apply mem_read_ok; lia|].
    rewrite decide_False by done. wp_steps. pose proof (length_slice (KBitmap.v (sfs_freemap s)) (j * 512) 512 ltac:(lia) ltac:(lia) ltac:(lia)).
    apply wp_wblock_dev; [split; [done|unfold SFS_MAP_LOCATION in *; lia]|lia|].
    intros s1 (d1 & -> & Hok1 & Hn1 & Hb1 & Ho1). wp_steps. apply IH.
    + split; [done|]. cbn. rewrite Hn1. split; lia.
    + cbn. lia.
    + cbn. intros d' Hok' Hn' Hs'. apply HQ; [done|congruence|]. intros b Hb. rewrite Hs' by done. unfold sect. cbn.
      destruct (decide (b = SFS_MAP_LOCATION + j)) as [->|Hne].
      * rewrite decide_False, decide_True, Hb1 by lia. do 2 f_equal. lia.
      * rewrite Ho1 by (done || congruence). case_decide; case_decide; (done || lia).
Qed.

(** ** Mounting *)

(** The disk holds a volume with superblock [sp] and the free map [bytes]. *)
Record volume s (sp : SfsFormat.sfs_super) (bytes : list Z) : Prop := {
  v_super : super_of_bytes (sect s SFS_SB_LOCATION) = sp;
  v_magic : sp_magic sp = SFS_MAGIC;
  v_size : 0 < sp_nblocks sp <= d_blocks (sfs_device s);
  v_room : SFS_MAP_LOCATION + SFS_BITBLOCKS (sp_nblocks sp) <= d_blocks (sfs_device s);
  v_map : map_bytes s 0 (SFS_BITBLOCKS (sp_nblocks sp)) = bytes;
  v_bytes : Forall (fun w => 0 <= w < 256) bytes;
  v_over : forall b, sp_nblocks sp <= b < SFS_BITMAPSIZE (sp_nblocks sp) ->
    KBitmap.bit (KBitmap.mkBitmap (SFS_BITMAPSIZE (sp_nblocks sp)) bytes) b = true;
  v_zero : KBitmap.bit (KBitmap.mkBitmap (SFS_BITMAPSIZE (sp_nblocks sp)) bytes) 0 = true
}.

(** What [sfs_domount] makes of the name. *)
Definition ends_name (sp : SfsFormat.sfs_super) : SfsFormat.sfs_super :=
  mkSuper (sp_magic sp) (sp_nblocks sp) (<[31%nat := 0]> (sp_volname sp)) (sp_reserved sp).

(** The state after mounting. *)
Definition mounted s sp bytes s' : Prop :=
  exists d' o, s' = mkSfs (ends_name sp) false d' (KArray.mkArray 0 0 None)
      (KBitmap.mkBitmap (SFS_BITMAPSIZE (sp_nblocks sp)) bytes) false (k_heap s) (k_ctx s) o /\
    d_ok d' /\ d_blocks d' = d_blocks (sfs_device s) /\
    forall b, 0 <= b < d_blocks (sfs_device s) -> d_sector d' b = sect s b.

Lemma bitmap_create_blocks n o :
  0 < n < 4194304 ->
  exists o', KBitmap.bitmap_create (SFS_BITMAPSIZE n) o =
      Done (Some (KBitmap.mkBitmap (SFS_BITMAPSIZE n) (zeros (512 * SFS_BITBLOCKS n))), o') \/
    KBitmap.bitmap_create (SFS_BITMAPSIZE n) o = Done (None, o').
Proof.
  intros Hn. destruct (bitblocks_spec n Hn) as (E & Hp & Hb). unfold KBitmap.bitmap_create.
  destruct (kmalloc_ok o) as [[] o1]; [|by exists o1; right]. cbn [negb].
  destruct (kmalloc_ok o1) as [[] o2]; [|by exists o2; right]. cbn [negb].
  exists o2. left. rewrite E, KBitmap.DIVROUNDUP_8 by lia. unfold KBitmap.BITS_PER_WORD.
  replace ((4096 * SFS_BITBLOCKS n + 7) / 8) with (512 * SFS_BITBLOCKS n).
  2: { replace (4096 * SFS_BITBLOCKS n + 7) with (7 + 512 * SFS_BITBLOCKS n * 8) by lia. rewrite Z.div_add by lia. done. }
  replace (4096 * SFS_BITBLOCKS n / 8) with (512 * SFS_BITBLOCKS n).
  2: { replace (4096 * SFS_BITBLOCKS n) with (512 * SFS_BITBLOCKS n * 8) by lia. by rewrite Z.div_mul. }
  by rewrite bool_decide_eq_false_2 by lia.
Qed.

Lemma wp_domount s sp bytes :
  d_ok (sfs_device s) -> d_blocksize (sfs_device s) = SFS_BLOCKSIZE -> volume s sp bytes ->
  wp sfs_domount (fun _ s' => mounted s sp bytes s') (fun e _ => e = ENOMEM) s.
Proof.
  intros Hd Hbs []. pose proof (d_law_range _ Hd) as Hrange.
  destruct (bitblocks_spec (sp_nblocks sp) ltac:(lia)) as (Hbits & Hpos & Hbound).
  unfold sfs_domount. wp_steps. rewrite bool_decide_eq_false_2 by (by intros []).
  wp_steps. unfold kmalloc at 1, wp at 1. destruct (kmalloc_ok (k_orc s)) as [[] o1]; cbn [negb]; [|by wp_steps].
  wp_steps. destruct (KArray.array_create _) as [[a|] o2] eqn:Ea; [|by wp_steps]. wp_steps.
  assert (a = KArray.mkArray 0 0 None) as ->.
  { unfold KArray.array_create in Ea. cbn in Ea. destruct (kmalloc_ok _) as [[] ?]; congruence. }
  apply wp_rblock_dev; [split; [done|unfold SFS_SB_LOCATION; cbn; lia]|done|].
  intros s1 Hq%quiet_upd. pose proof Hq as (d1 & -> & Hok1 & Hn1 & Hs1).
  change (sect (set_vnodes (set_orc s o1) (KArray.mkArray 0 0 None) o2) SFS_SB_LOCATION) with (sect s SFS_SB_LOCATION).
  rewrite v_super0. rewrite bool_decide_eq_false_2 by (by intros []). wp_steps. cbn in Hn1, Hs1.
  destruct (bitmap_create_blocks (sp_nblocks sp) o2) as (o3 & [E|E]); [lia|..]; (eapply wp_lift; [exact E|]); wp_steps; [|done].
  unfold sfs_mapio. wp_steps. cbn [sfs_super set_super set_orc set_freemap set_device sp_nblocks].
  assert (Hz : Z.of_nat (length (zeros (512 * SFS_BITBLOCKS (sp_nblocks sp)))) = 512 * SFS_BITBLOCKS (sp_nblocks sp)) by (apply length_zeros; lia).
  assert (Hl : Z.of_nat (length bytes) = 512 * SFS_BITBLOCKS (sp_nblocks sp)).
  { rewrite <- v_map0. apply length_map_bytes; [|lia]. split; [done|]. split; lia. }
  set (s2 := set_freemap _ _).
  assert (Hm2 : map_bytes s2 0 (SFS_BITBLOCKS (sp_nblocks sp)) = bytes).
  { rewrite <- v_map0. apply (map_bytes_quiet s (set_device s d1 (k_ctx s))); [split; [done|split; lia]|]. by exists d1. }
  apply wp_mapio_read; rewrite Z2Nat.id by lia.
  - split; [done|]. cbn. rewrite Hn1. split; lia.
  - cbn. lia.
  - rewrite Hm2. cbn [sfs_freemap set_freemap s2 KBitmap.v KBitmap.nbits]. intros s3 (d3 & -> & Hok3 & Hn3 & Hs3). wp_steps.
    cbn in Hn3, Hs3. exists d3, o3. split; [|split; [done|]].
    + unfold ends_name. cbn. rewrite splice_all by (apply Nat2Z.inj; lia). done.
    + split; [congruence|]. intros b Hb. rewrite Hs3, Hs1 by congruence. done.
Qed.

Lemma volume_wf s sp bytes :
  d_ok (sfs_device s) -> volume s sp bytes -> KBitmap.wf (KBitmap.mkBitmap (SFS_BITMAPSIZE (sp_nblocks sp)) bytes).
Proof.
  intros Hd []. pose proof (d_law_range _ Hd) as Hrange.
  destruct (bitblocks_spec (sp_nblocks sp) ltac:(lia)) as (Hbits & Hpos & Hbound).
  assert (Hl : Z.of_nat (length bytes) = 512 * SFS_BITBLOCKS (sp_nblocks sp)).
  { rewrite <- v_map0. apply length_map_bytes; [|lia]. split; [done|]. split; lia. }
  assert (Hdiv : (SFS_BITMAPSIZE (sp_nblocks sp) + 7) / 8 = 512 * SFS_BITBLOCKS (sp_nblocks sp)).
  { rewrite Hbits. replace (4096 * _ + 7) with (7 + 512 * SFS_BITBLOCKS (sp_nblocks sp) * 8) by lia. by rewrite Z.div_add. }
  split; cbn [KBitmap.nbits KBitmap.v]; rewrite ?Hdiv; [lia|done|done|lia].
Qed.

Lemma mounted_good s sp bytes s' : d_ok (sfs_device s) -> volume s sp bytes -> mounted s sp bytes s' -> good s'.
Proof.
  intros Hd Hv (d' & o & -> & Hok & Hn & _). pose proof (volume_wf s sp bytes Hd Hv). destruct Hv.
  pose proof (d_law_range _ Hd) as Hrange. destruct (bitblocks_spec (sp_nblocks sp) ltac:(lia)) as (Hbits & Hpos & Hbound).
  split; unfold nb, used; cbn [sfs_device sfs_super sfs_freemap ends_name sp_nblocks KBitmap.nbits]; [done|lia|done|lia|done|done].
Qed.

(** ** A mounted volume *)

Definition bb s : Z := SFS_BITBLOCKS (nb s).

(** Blocks below are the superblock, the root inode and the free map. *)
Definition first_block s : Z := SFS_MAP_LOCATION + bb s.

(** A loaded vnode: in use, a sound file, its inode in a block of its own. *)
Record vnode_ok s (p : ptr) sv : Prop := {
  vk_ptr : p ≠ NULL;
  vk_file : file_ok s (sv_i sv);
  vk_ref : 0 < vn_refcount (sv_v sv);
  vk_open : 0 <= vn_opencount (sv_v sv);
  vk_ino : sv_ino sv = SFS_ROOT_LOCATION \/ first_block s <= sv_ino sv;
  vk_range : 0 < sv_ino sv < nb s;
  vk_used : used s (sv_ino sv) = true
}.

Record vol_struct s : Prop := {
  vs_good : good s;
  vs_super : super_wf (sfs_super s);
  vs_magic : sp_magic (sfs_super s) = SFS_MAGIC;
  vs_name : sp_volname (sfs_super s) !! 31%nat = Some 0;
  vs_nbits : KBitmap.nbits (sfs_freemap s) = SFS_BITMAPSIZE (nb s);
  vs_room : first_block s <= nb s;
  vs_reserved b : 0 <= b < first_block s -> used s b = true;
  vs_table : KArray.wf (sfs_vnodes s);
  vs_loaded c : c ∈ KArray.contents (sfs_vnodes s) <-> exists p, c = Some p /\ is_Some (k_heap s !! p);
  vs_vnode p sv : k_heap s !! p = Some sv -> vnode_ok s p sv;
  vs_ino p q sv sw : k_heap s !! p = Some sv -> k_heap s !! q = Some sw -> sv_ino sv = sv_ino sw -> p = q;
  vs_slots p sv b : k_heap s !! p = Some sv -> b ∈ slots s (sv_i sv) -> b ≠ 0 -> first_block s <= b;
  vs_slot_ino p q sv sw b :
    k_heap s !! p = Some sv -> k_heap s !! q = Some sw -> b ∈ slots s (sv_i sv) -> b ≠ 0 -> sv_ino sw ≠ b;
  vs_disjoint p q sv sw :
    k_heap s !! p = Some sv -> k_heap s !! q = Some sw -> p ≠ q -> disjoint s (sv_i sv) (sv_i sw)
}.

(** What is not marked dirty is on the disk. *)
Record vol_clean s : Prop := {
  vc_super : sfs_superdirty s = false -> super_of_bytes (sect s SFS_SB_LOCATION) = sfs_super s;
  vc_map : sfs_freemapdirty s = false -> map_bytes s 0 (bb s) = KBitmap.v (sfs_freemap s);
  vc_inode p sv : k_heap s !! p = Some sv -> sv_dirty sv = false -> inode_of_bytes (sect s (sv_ino sv)) = sv_i sv
}.

Definition vol_ok s : Prop := vol_struct s /\ vol_clean s.

Lemma vol_nb s : good s -> 0 < nb s < 4194304.
Proof. intros Hg. pose proof (good_nb s Hg). destruct Hg. lia. Qed.

Lemma vol_map s : vol_struct s -> has_map s 0 (bb s) /\ 0 < bb s /\ Z.of_nat (length (KBitmap.v (sfs_freemap s))) = 512 * bb s.
Proof.
  intros []. destruct (bitblocks_spec (nb s) (vol_nb s vs_good0)) as (Hb & Hp & _). fold (bb s) in Hb, Hp.
  unfold first_block in *. pose proof vs_good0 as []. split; [split; [done|lia]|]. split; [done|].
  rewrite (KBitmap.wf_len _ g_map0), vs_nbits0, Hb.
  replace (4096 * bb s + 7) with (7 + 512 * bb s * 8) by lia. by rewrite Z.div_add by lia.
Qed.

Lemma vol_fok s p sv : vol_struct s -> k_heap s !! p = Some sv -> fok s p sv.
Proof. intros [] Hp. split; [done|done|]. eapply vk_file, vs_vnode0, Hp. Qed.

(** ** An operation on one vnode keeps the volume *)

Section touched.
Context (s s' : sfs_fs D) (p : ptr) (sv sv' : sfs_vnode) (Hs : vol_struct s) (Hp : k_heap s !! p = Some sv) (Ht : touched s s' p sv sv').

Let Hh : hdr s s' p sv sv' := to_hdr _ _ _ _ _ Ht.

(** Neither the first blocks nor inodes belong to a file. *)
Lemma meta_not_slot b :
  b < first_block s \/ (exists q sw, k_heap s !! q = Some sw /\ sv_ino sw = b) -> b ∈ slots s (sv_i sv) -> b = 0.
Proof.
  intros Hm Hin. destruct (decide (b = 0)) as [->|Hb0]; [done|]. exfalso.
  destruct Hm as [?|(q & sw & Hq & E)]; [pose proof (vs_slots _ Hs p sv b Hp Hin Hb0); lia|].
  by apply (vs_slot_ino _ Hs p q sv sw b).
Qed.

Lemma meta_used b :
  0 <= b -> b < first_block s \/ (exists q sw, k_heap s !! q = Some sw /\ sv_ino sw = b) -> used s b = true.
Proof.
  intros Hb [?|(q & sw & Hq & <-)]; [apply (vs_reserved _ Hs); lia|]. eapply vk_used, (vs_vnode _ Hs q sw Hq).
Qed.

Lemma touched_meta b :
  0 <= b < nb s -> b < first_block s \/ (exists q sw, k_heap s !! q = Some sw /\ sv_ino sw = b) ->
  sect s' b = sect s b /\ used s' b = true.
Proof.
  intros Hb Hm. pose proof (meta_used b ltac:(lia) Hm) as Hu. split.
  - apply (to_frame _ _ _ _ _ Ht); [done|done|by apply meta_not_slot].
  - apply (to_used _ _ _ _ _ Ht); [lia|done|by apply meta_not_slot].
Qed.

(** The vnodes afterwards: each has the inode number of before. *)
Lemma touched_heap q sw : k_heap s' !! q = Some sw -> q = p /\ sw = sv' \/ q ≠ p /\ k_heap s !! q = Some sw.
Proof. rewrite (h_heap _ _ _ _ _ Hh), lookup_insert_Some. intros [[-> ->]|[? ?]]; auto. Qed.

Lemma touched_vnode q sw :
  k_heap s' !! q = Some sw -> exists sw0, k_heap s !! q = Some sw0 /\ sv_ino sw0 = sv_ino sw /\ sv_v sw0 = sv_v sw.
Proof.
  intros [[-> ->]|[Hne Hq]]%touched_heap; [|by exists sw]. exists sv. destruct Hh. done.
Qed.

(** A block of a file belonged to it before, or was free. *)
Lemma touched_slot q sw b :
  k_heap s' !! q = Some sw -> b ∈ slots s' (sv_i sw) -> b ≠ 0 ->
  (exists sw0, k_heap s !! q = Some sw0 /\ b ∈ slots s (sv_i sw0)) \/ (q = p /\ used s b = false /\ 0 < b).
Proof.
  intros Hq Hin Hb. destruct (touched_heap _ _ Hq) as [[-> ->]|[Hne Hq0]].
  - destruct (to_new _ _ _ _ _ Ht b Hin Hb); [by left; exists sv|]. right. split; [done|]. split; [done|].
    destruct (f_used _ _ (fok_file _ _ _ (to_fok _ _ _ _ _ Ht)) b Hin Hb). lia.
  - left. exists sw. split; [done|].
    destruct (touched_other s s' p sv sv' q sw Ht) as (_ & <- & _); [done|by apply vol_fok|by apply (vs_disjoint _ Hs q p)|done].
Qed.

Lemma touched_free b :
  used s b = false -> 0 < b -> first_block s <= b /\ forall q sw, k_heap s' !! q = Some sw -> sv_ino sw ≠ b.
Proof.
  intros Hb H0. split.
  - destruct (decide (b < first_block s)); [|lia]. rewrite (vs_reserved _ Hs) in Hb; [done|lia].
  - intros q sw (sw0 & Hq & <- & _)%touched_vnode <-. by rewrite (vk_used _ _ _ (vs_vnode _ Hs _ _ Hq)) in Hb.
Qed.

Lemma touched_first : nb s' = nb s /\ first_block s' = first_block s.
Proof. pose proof (hdr_nb _ _ _ _ _ Hh) as Hnb. split; [done|]. unfold first_block, bb. by rewrite Hnb. Qed.

Lemma touched_vnode_ok q sw : k_heap s' !! q = Some sw -> vnode_ok s' q sw.
Proof.
  intros Hq. destruct touched_first as [Hnb Hfb]. destruct (touched_vnode _ _ Hq) as (sw0 & Hq0 & Ei & Ev).
  pose proof (vs_vnode _ Hs q sw0 Hq0) as [].
  split; [done| |by rewrite <- Ev|by rewrite <- Ev|by rewrite Hfb, <- Ei|by rewrite Hnb, <- Ei|].
  - destruct (touched_heap _ _ Hq) as [[-> ->]|[Hne Hq']]; [apply Ht|].
    eapply (touched_other s s' p sv sv' q sw); [done|done|by apply vol_fok|]. by apply (vs_disjoint _ Hs q p).
  - rewrite <- Ei. apply touched_meta; [lia|]. right. by exists q, sw0.
Qed.

Lemma touched_disjoint q r sw sx :
  k_heap s' !! q = Some sw -> k_heap s' !! r = Some sx -> q ≠ r -> disjoint s' (sv_i sw) (sv_i sx).
Proof.
  intros Hq Hr Hne b Hin Hb Hin'.
  destruct (touched_slot q sw b) as [(sw0 & Hq0 & Hin0)|(-> & Hub & Hpos)];
    destruct (touched_slot r sx b) as [(sx0 & Hr0 & Hin0')|(-> & Hub' & Hpos')]; try done.
  - by apply (vs_disjoint _ Hs q r sw0 sx0 Hq0 Hr0 Hne b).
  - destruct (f_used _ _ (fok_file _ _ _ (vol_fok _ _ _ Hs Hq0)) b Hin0 Hb). congruence.
  - destruct (f_used _ _ (fok_file _ _ _ (vol_fok _ _ _ Hs Hr0)) b Hin0' Hb). congruence.
Qed.

Lemma touched_struct : vol_struct s'.
Proof.
  destruct touched_first as [Hnb Hfb]. pose proof (vs_room _ Hs) as Hroom. split.
  - apply Ht.
  - rewrite (h_super _ _ _ _ _ Hh). apply Hs.
  - rewrite (h_super _ _ _ _ _ Hh). apply Hs.
  - rewrite (h_super _ _ _ _ _ Hh). apply Hs.
  - rewrite (h_nbits _ _ _ _ _ Hh), Hnb. apply Hs.
  - by rewrite Hfb, Hnb.
  - intros b. rewrite Hfb. intros Hb. apply touched_meta; [lia|]. left. lia.
  - rewrite (h_vnodes _ _ _ _ _ Hh). apply Hs.
  - intros c. rewrite (h_vnodes _ _ _ _ _ Hh), (h_heap _ _ _ _ _ Hh), (vs_loaded _ Hs).
    split; intros (q & -> & Hq); exists q; (split; [done|]); [|apply lookup_insert_is_Some in Hq as [<-|[_ Hq]]; [by exists sv|done]].
    apply lookup_insert_is_Some. destruct (decide (p = q)); auto.
  - apply touched_vnode_ok.
  - intros q r sw sx Hq Hr E. destruct (touched_vnode _ _ Hq) as (sw0 & Hq0 & Ei & _).
    destruct (touched_vnode _ _ Hr) as (sx0 & Hr0 & Ej & _). eapply (vs_ino _ Hs); [done|done|congruence].
  - intros q sw b Hq Hin Hb. rewrite Hfb. destruct (touched_slot q sw b) as [(sw0 & Hq0 & Hin0)|(_ & ? & ?)]; [done..| |by apply touched_free].
    by apply (vs_slots _ Hs q sw0).
  - intros q r sw sx b Hq Hr Hin Hb. destruct (touched_slot q sw b) as [(sw0 & Hq0 & Hin0)|(_ & Hub & Hpos)]; [done..| |by eapply touched_free].
    destruct (touched_vnode _ _ Hr) as (sx0 & Hr0 & <- & _). by apply (vs_slot_ino _ Hs q r sw0 sx0).
  - apply touched_disjoint.
Qed.

Lemma touched_clean : vol_clean s -> vol_clean s'.
Proof.
  intros [Hsup Hmap Hino]. pose proof (vs_good _ Hs) as Hg. pose proof (vol_nb s Hg) as Hnb. pose proof (vs_room _ Hs) as Hroom.
  destruct (vol_map s Hs) as (_ & Hbb & _).
  assert (Hbb' : bb s' = bb s) by (unfold bb; by rewrite (hdr_nb _ _ _ _ _ Hh)).
  assert (Hinos : forall q sw, k_heap s !! q = Some sw -> sect s' (sv_ino sw) = sect s (sv_ino sw)).
  { intros q sw Hq. apply touched_meta; [|right; by exists q, sw]. pose proof (vk_range _ _ _ (vs_vnode _ Hs _ _ Hq)). lia. }
  split.
  - rewrite (h_superdirty _ _ _ _ _ Hh), (h_super _ _ _ _ _ Hh). intros Hc.
    destruct (touched_meta SFS_SB_LOCATION) as [-> _]; [unfold SFS_SB_LOCATION; lia| |auto].
    left. unfold first_block, SFS_SB_LOCATION, SFS_MAP_LOCATION. lia.
  - rewrite Hbb'. destruct (h_mapdirty _ _ _ _ _ Hh) as [->|[-> ->]]; [done|]. intros Hc. rewrite <- Hmap by done.
    unfold map_bytes. f_equal. apply list_fmap_ext. intros k x [-> Hk]%lookup_seqZ. unfold first_block, SFS_MAP_LOCATION in Hroom.
    apply touched_meta; unfold first_block, SFS_MAP_LOCATION; [lia|left; lia].
  - intros q sw Hq Hc. destruct (touched_heap _ _ Hq) as [[-> ->]|[Hne Hq0]].
    + destruct (h_dirty _ _ _ _ _ Hh) as [?|[-> Hd']]; [congruence|]. rewrite (h_ino _ _ _ _ _ Hh), (Hinos p sv Hp). apply (Hino p); congruence.
    + rewrite (Hinos q sw Hq0). by apply (Hino q).
Qed.
End touched.

Lemma touched_vol_ok s s' p sv sv' : vol_ok s -> k_heap s !! p = Some sv -> touched s s' p sv sv' -> vol_ok s'.
Proof. intros [Hs Hc] Hp Ht. split; [by eapply touched_struct|by eapply touched_clean]. Qed.

(** ** Sync *)

(** [s'] is [s] after some of it was written back: in memory only the dirty
    marks differ, and on the disk only the superblock, the map and the
    inodes. *)
Record flushed s s' : Prop := {
  fl_dev : d_ok (sfs_device s') /\ d_blocks (sfs_device s') = d_blocks (sfs_device s);
  fl_super : sfs_super s' = sfs_super s;
  fl_map : sfs_freemap s' = sfs_freemap s;
  fl_table : sfs_vnodes s' = sfs_vnodes s;
  fl_heap p sw : k_heap s' !! p = Some sw ->
    exists sv, k_heap s !! p = Some sv /\ sv_v sw = sv_v sv /\ sv_i sw = sv_i sv /\ sv_ino sw = sv_ino sv /\
      (sv_dirty sv = false -> sv_dirty sw = false);
  fl_dom p : is_Some (k_heap s !! p) -> is_Some (k_heap s' !! p);
  fl_sect b : first_block s <= b < nb s -> (forall p sv, k_heap s !! p = Some sv -> sv_ino sv ≠ b) -> sect s' b = sect s b
}.

Lemma flushed_refl s : good s -> flushed s s.
Proof. intros []. split; try done. intros p sw Hp. by exists sw. Qed.

Lemma flushed_first s s' : flushed s s' -> nb s' = nb s /\ first_block s' = first_block s.
Proof. intros []. unfold first_block, bb, nb. by rewrite fl_super0. Qed.

Lemma flushed_trans s s1 s2 : flushed s s1 -> flushed s1 s2 -> flushed s s2.
Proof.
  intros H1 H2. destruct (flushed_first s s1 H1) as [Hn Hf]. destruct H1, H2. split; [|congruence|congruence|congruence| |auto|].
  - destruct fl_dev0, fl_dev1. split; [done|congruence].
  - intros p sw Hp. destruct (fl_heap1 p sw Hp) as (sw1 & Hp1 & ? & ? & ? & ?).
    destruct (fl_heap0 p sw1 Hp1) as (sv & Hpv & ? & ? & ? & ?). exists sv. split; [done|]. split_and!; [congruence..|auto].
  - intros b Hb Hi. rewrite fl_sect1; [by apply fl_sect0|by rewrite Hn, Hf|]. intros p sw Hp.
    destruct (fl_heap0 p sw Hp) as (sv & Hpv & _ & _ & -> & _). by apply (Hi p).
Qed.

(** The blocks of files are not among those written. *)
Lemma flushed_slots s s' p sv b :
  vol_struct s -> flushed s s' -> k_heap s !! p = Some sv -> b ∈ slots s (sv_i sv) -> b ≠ 0 -> sect s' b = sect s b.
Proof.
  intros Hs Hfl Hp Hin Hb. destruct (f_used _ _ (fok_file _ _ _ (vol_fok _ _ _ Hs Hp)) b Hin Hb).
  apply (fl_sect _ _ Hfl); [|intros q sw Hq; by apply (vs_slot_ino _ Hs p q sv sw)].
  pose proof (vs_slots _ Hs p sv b Hp Hin Hb). lia.
Qed.

Lemma flushed_same s s' p sv :
  vol_struct s -> flushed s s' -> k_heap s !! p = Some sv ->
  slots s' (sv_i sv) = slots s (sv_i sv) /\ forall x, 0 <= x < MAXFILE -> fbyte s' (sv_i sv) x = fbyte s (sv_i sv) x.
Proof.
  intros Hs Hfl Hp. pose proof (fok_file _ _ _ (vol_fok _ _ _ Hs Hp)) as Hf.
  assert (Hsl : slots s' (sv_i sv) = slots s (sv_i sv)).
  { apply slots_same. unfold idwords. case_decide as Hz; [done|]. f_equal. eapply flushed_slots; [done..| |done].
    eapply list_elem_of_lookup_2, slots_15, Hf. }
  split; [done|]. intros x Hx%file_block. unfold fbyte, blk. rewrite Hsl. fold (blk s (sv_i sv) (x / 512)).
  case_decide; [done|]. rewrite (flushed_slots s s' p sv); [done..| |done].
  eapply list_elem_of_lookup_2, blk_lookup; [apply Hf|done].
Qed.

Lemma flushed_struct s s' : vol_struct s -> flushed s s' -> vol_struct s'.
Proof.
  intros Hs Hfl. destruct (flushed_first s s' Hfl) as [Hn Hf]. pose proof Hfl as [[Hok Hbl] Hsu Hmp Htb Hhp Hdm Hsc].
  assert (Hu : forall b, used s' b = used s b) by (intros b; unfold used; by rewrite Hmp).
  assert (Hback : forall p sw, k_heap s' !! p = Some sw -> exists sv, k_heap s !! p = Some sv /\ sv_v sw = sv_v sv /\ sv_i sw = sv_i sv /\ sv_ino sw = sv_ino sv /\
     slots s' (sv_i sw) = slots s (sv_i sv)).
  { intros p sw Hp. destruct (Hhp p sw Hp) as (sv & Hp0 & ? & Hi & ? & _). exists sv. split_and!; try done. rewrite Hi. by apply (flushed_same s s' p sv). }
  split.
  - destruct (vs_good _ Hs). split; unfold used; rewrite ?Hn, ?Hmp, ?Hbl; done.
  - rewrite Hsu. apply Hs.
  - rewrite Hsu. apply Hs.
  - rewrite Hsu. apply Hs.
  - rewrite Hmp, Hn. apply Hs.
  - rewrite Hf, Hn. apply Hs.
  - intros b. rewrite Hf, Hu. apply (vs_reserved _ Hs).
  - rewrite Htb. apply Hs.
  - intros c. rewrite Htb, (vs_loaded _ Hs). split; intros (p & -> & Hp); exists p; (split; [done|]); [by apply Hdm|].
    destruct Hp as [sw (sv & Hp & _)%Hback]. by exists sv.
  - intros p sw Hp. destruct (Hback p sw Hp) as (sv & Hp0 & Ev & Ei & Eo & Es). destruct (vs_vnode _ Hs p sv Hp0) as [? [] ? ? ? ? ?].
    split; [done| |by rewrite Ev|by rewrite Ev|by rewrite Eo, Hf|by rewrite Eo, Hn|by rewrite Eo, Hu].
    split; [by rewrite Ei|by rewrite Es| |by rewrite Ei]. intros b. rewrite Es, Hu, Hn. apply f_used0.
  - intros p q sw sx Hp Hq E. destruct (Hback p sw Hp) as (sv & Hp0 & _ & _ & Eo & _). destruct (Hback q sx Hq) as (sy & Hq0 & _ & _ & Eo' & _).
    eapply (vs_ino _ Hs); [done|done|congruence].
  - intros p sw b Hp. destruct (Hback p sw Hp) as (sv & Hp0 & _ & _ & _ & ->). rewrite Hf. by apply (vs_slots _ Hs p sv).
  - intros p q sw sx b Hp Hq. destruct (Hback p sw Hp) as (sv & Hp0 & _ & _ & _ & ->). destruct (Hback q sx Hq) as (sy & Hq0 & _ & _ & -> & _).
    by apply (vs_slot_ino _ Hs p q sv sy).
  - intros p q sw sx Hp Hq Hne b. destruct (Hback p sw Hp) as (sv & Hp0 & _ & _ & _ & ->). destruct (Hback q sx Hq) as (sy & Hq0 & _ & _ & _ & ->).
    by apply (vs_disjoint _ Hs p q sv sy).
Qed.

(** The other flags are as before. *)
Definition same_flags s s' : Prop :=
  sfs_superdirty s' = sfs_superdirty s /\ sfs_freemapdirty s' = sfs_freemapdirty s.

Definition clean_vnode s (p : ptr) : Prop := exists sv, k_heap s !! p = Some sv /\ sv_dirty sv = false.

Lemma flushed_clean s s' p : flushed s s' -> clean_vnode s p -> clean_vnode s' p.
Proof.
  intros Hf (sv & Hp & Hd). destruct (fl_dom _ _ Hf p) as [sw Hw]; [by exists sv|].
  exists sw. split; [done|]. destruct (fl_heap _ _ Hf p sw Hw) as (sv' & Hp' & _ & _ & _ & Hc). apply Hc. congruence.
Qed.

(** Writing back one inode. *)
Lemma sync_inode_flushed s s1 p sv :
  vol_ok s -> k_heap s !! p = Some sv -> dev_upd s s1 (sv_ino sv) (inode_bytes (sv_i sv)) ->
  let s' := set_heap s1 (<[p := set_dirty sv false]> (k_heap s1)) in flushed s s' /\ vol_ok s' /\ same_flags s s' /\ clean_vnode s' p.
Proof.
  intros [Hs [Hsup Hmap Hino]] Hp (d1 & -> & Hok & Hn & Hb & Ho) s'. pose proof (vs_vnode _ Hs p sv Hp) as Hv.
  pose proof (vs_good _ Hs) as [Hgd Hgn _ _ _ _]. pose proof (vk_range _ _ _ Hv) as Hr. pose proof (vk_ino _ _ _ Hv) as Hi.
  destruct (vol_map s Hs) as (_ & Hbb & _). pose proof (vs_room _ Hs) as Hroom.
  assert (Hoth : forall b, 0 <= b < nb s -> b ≠ sv_ino sv -> sect s' b = sect s b) by (intros b Hb' Hne; apply Ho; [lia|done]).
  assert (Hlow : forall b, 0 <= b < first_block s -> b ≠ SFS_ROOT_LOCATION -> sect s' b = sect s b) by (intros b Hb' Hne; apply Hoth; lia).
  assert (Hfl : flushed s s').
  { split; try done.
    - intros q sw. subst s'. cbn. rewrite lookup_insert_Some. intros [[<- <-]|[_ Hq]]; [by exists sv|by exists sw].
    - intros q Hq. cbn. apply lookup_insert_is_Some. destruct (decide (p = q)); auto.
    - intros b Hb' Hne. apply Hoth; [|by apply not_eq_sym, (Hne p)]. unfold first_block, SFS_MAP_LOCATION in *. lia. }
  split; [done|]. split; [|split; [done|]].
  2: { exists (set_dirty sv false). split; [|done]. cbn. by rewrite lookup_insert_eq. }
  split; [by eapply flushed_struct|]. unfold first_block, SFS_MAP_LOCATION, SFS_ROOT_LOCATION in *. split.
  - cbn. intros Hc. rewrite Hlow; [by apply Hsup|unfold SFS_SB_LOCATION; lia|done].
  - cbn. intros Hc. rewrite <- Hmap by done. unfold map_bytes. f_equal. apply list_fmap_ext. intros k x [-> Hk]%lookup_seqZ.
    change (bb s') with (bb s) in Hk. apply Hlow; unfold SFS_MAP_LOCATION; lia.
  - intros q sw. cbn. rewrite lookup_insert_Some. intros [[<- <-]|[Hne Hq]] Hc; cbn.
    + unfold sect. cbn. rewrite Hb. apply inode_roundtrip, (vk_file _ _ _ Hv).
    + rewrite <- (Hino q sw Hq Hc). f_equal. apply Hoth; [pose proof (vk_range _ _ _ (vs_vnode _ Hs q sw Hq)); lia|].
      intros E. by apply Hne, (vs_ino _ Hs p q sv sw).
Qed.

Lemma wp_fsync s p sv :
  vol_ok s -> k_heap s !! p = Some sv ->
  wp (VOP_FSYNC p) (fun _ s' => flushed s s' /\ vol_ok s' /\ same_flags s s' /\ clean_vnode s' p) (fun _ _ => False) s.
Proof.
  intros Hv Hp. pose proof Hv as [Hs _]. destruct (vs_vnode _ Hs p sv Hp) as [Hnz Hf Href Hop _ Hr _].
  unfold VOP_FSYNC, vnode_check. rewrite bool_decide_eq_false_2 by done. wp_steps.
  apply (wp_deref p sv); [done|]. rewrite !bool_decide_eq_false_2 by lia. cbn [andb]. wp_steps.
  unfold sfs_fsync, sfs_sync_inode. wp_steps. apply (wp_deref p sv); [done|]. destruct (sv_dirty sv) eqn:Hd; wp_steps.
  - apply wp_wblock; [apply Hs|lia|apply length_inode_bytes, Hf|]. intros s1 Hu. wp_steps. by apply (sync_inode_flushed s s1 p sv).
  - split; [by apply flushed_refl, Hs|]. split; [done|]. split; [done|]. by exists sv.
Qed.

Lemma wp_vnode_at s j (Q : ptr -> sfs_fs D -> Prop) E :
  vol_struct s -> 0 <= j < KArray.num (sfs_vnodes s) ->
  (forall p sv, KArray.contents (sfs_vnodes s) !! Z.to_nat j = Some (Some p) -> k_heap s !! p = Some sv -> Q p s) ->
  wp (vnode_at j) Q E s.
Proof.
  intros Hs Hj HQ. destruct (KArray.array_getguy_spec (sfs_vnodes s) j (vs_table _ Hs) Hj) as (c & Hg & Hc).
  pose proof (list_elem_of_lookup_2 _ _ _ Hc) as Hin. apply (vs_loaded _ Hs) in Hin as (p & -> & [sv Hp]).
  unfold vnode_at. wp_steps. eapply wp_lift; [exact Hg|]. wp_steps. eapply wp_lift; [done|]. eauto.
Qed.

Lemma wp_sync_loop (n : nat) j s :
  vol_ok s -> 0 <= j -> j + Z.of_nat n = KArray.num (sfs_vnodes s) ->
  wp (sync_loop n j) (fun _ s' => flushed s s' /\ vol_ok s' /\ same_flags s s' /\
    forall k p, j <= Z.of_nat k -> KArray.contents (sfs_vnodes s) !! k = Some (Some p) -> clean_vnode s' p) (fun _ _ => False) s.
Proof.
  revert j s. induction n as [|n IH]; intros j s Hv Hj Hn; cbn [sync_loop]; wp_steps.
  - split; [by apply flushed_refl, Hv|]. split; [done|]. split; [done|]. intros k p Hk Hc%lookup_lt_Some.
    destruct Hv as [Hs _]. pose proof (KArray.wf_num _ (vs_table _ Hs)). unfold KArray.contents in Hc. rewrite length_take in Hc. lia.
  - apply wp_vnode_at; [apply Hv|lia|]. intros p sv Hc Hp. wp_steps. eapply wp_mono; [by apply (wp_fsync s p sv)| |done].
    intros _ s1 (Hf1 & Hv1 & Hfl1 & Hc1). cbn beta.
    eapply wp_mono; [apply (IH (j + 1) s1); [done|lia|rewrite (fl_table _ _ Hf1); lia]| |done].
    intros _ s2 (Hf2 & Hv2 & Hfl2 & Hc2). split; [by eapply flushed_trans|]. split; [done|].
    split; [destruct Hfl1, Hfl2; split; congruence|]. intros k q Hk Hq. rewrite (fl_table _ _ Hf1) in Hc2.
    destruct (decide (Z.of_nat k = j)) as [Ek|Hne]; [|apply (Hc2 k); [lia|done]].
    eapply flushed_clean; [done|]. replace k with (Z.to_nat j) in Hq by lia. rewrite Hc in Hq. by injection Hq as <-.
Qed.

(** The blocks of the map put together. *)
Lemma map_bytes_slice s l j n :
  0 <= j -> 0 <= n -> (forall k, j <= k < j + n -> sect s (SFS_MAP_LOCATION + k) = slice l (k * 512) 512) ->
  map_bytes s j n = slice l (j * 512) (n * 512).
Proof.
  intros Hj Hn. revert j Hj. pattern n. apply natlike_ind; [|clear n Hn; intros n Hn IH|done].
  - intros j Hj _. done.
  - intros j Hj Hs. rewrite map_bytes_cons, Hs by lia. replace (Z.succ n - 1) with n by lia.
    rewrite IH by (intros; try apply Hs; lia). replace ((j + 1) * 512) with (j * 512 + 512) by lia.
    rewrite slice_app by lia. f_equal. lia.
Qed.

Lemma map_flushed s d' :
  vol_ok s -> d_ok d' -> d_blocks d' = d_blocks (sfs_device s) ->
  (forall b, 0 <= b < d_blocks d' -> d_sector d' b =
     if decide (SFS_MAP_LOCATION + 0 <= b < SFS_MAP_LOCATION + 0 + bb s)
     then slice (KBitmap.v (sfs_freemap s)) ((b - SFS_MAP_LOCATION) * 512) 512 else sect s b) ->
  let s' := set_freemapdirty (set_device s d' (k_ctx s)) false in flushed s s' /\ vol_ok s'.
Proof.
  intros [Hs [Hsup Hmap Hino]] Hok Hn Hd' s'. pose proof (vs_good _ Hs) as [Hgd Hgn _ _ _ _].
  destruct (vol_map s Hs) as (_ & Hbb & Hlen). pose proof (vs_room _ Hs) as Hroom. unfold first_block, SFS_MAP_LOCATION in Hroom.
  assert (Hoth : forall b, 0 <= b < nb s -> b < 2 \/ 2 + bb s <= b -> sect s' b = sect s b).
  { intros b Hb Hout. unfold sect at 1. cbn. rewrite Hd' by lia. rewrite decide_False by (unfold SFS_MAP_LOCATION; lia). done. }
  assert (Hfl : flushed s s').
  { split; try done.
    - intros p sw Hp. by exists sw.
    - intros b Hb _. unfold first_block, SFS_MAP_LOCATION in *. apply Hoth; lia. }
  split; [done|]. split; [by eapply flushed_struct|]. split.
  - cbn. intros Hc. rewrite Hoth; [by apply Hsup|unfold SFS_SB_LOCATION; lia..].
  - cbn. intros _. change (bb s') with (bb s). rewrite (map_bytes_slice s' (KBitmap.v (sfs_freemap s))); [|lia|lia|].
    + apply slice_all. lia.
    + intros k Hk. unfold sect. cbn. rewrite Hd' by (unfold SFS_MAP_LOCATION; lia). rewrite decide_True by (unfold SFS_MAP_LOCATION; lia). do 2 f_equal. lia.
  - cbn. intros p sv Hp Hc. rewrite <- (Hino p sv Hp Hc). f_equal. destruct (vs_vnode _ Hs p sv Hp) as [_ _ _ _ Hi Hr _].
    unfold first_block, SFS_MAP_LOCATION, SFS_ROOT_LOCATION in Hi. apply Hoth; lia.
Qed.

Lemma super_flushed s s1 :
  vol_ok s -> dev_upd s s1 SFS_SB_LOCATION (super_bytes (sfs_super s)) ->
  let s' := set_superdirty s1 false in flushed s s' /\ vol_ok s'.
Proof.
  intros [Hs [Hsup Hmap Hino]] (d1 & -> & Hok & Hn & Hb & Ho) s'. pose proof (vs_good _ Hs) as [Hgd Hgn _ _ _ _].
  destruct (vol_map s Hs) as (_ & Hbb & Hlen). pose proof (vs_room _ Hs) as Hroom. unfold first_block, SFS_MAP_LOCATION in Hroom.
  assert (Hoth : forall b, 0 < b < nb s -> sect s' b = sect s b) by (intros b Hb'; apply Ho; unfold SFS_SB_LOCATION; lia).
  assert (Hfl : flushed s s').
  { split; try done.
    - intros p sw Hp. by exists sw.
    - intros b Hb' _. unfold first_block, SFS_MAP_LOCATION in *. apply Hoth. lia. }
  split; [done|]. split; [by eapply flushed_struct|]. split.
  - cbn. intros _. unfold sect. cbn. rewrite Hb. apply super_roundtrip, Hs.
  - cbn. intros Hc. rewrite <- Hmap by done. unfold map_bytes. f_equal. apply list_fmap_ext. intros k x [-> Hk]%lookup_seqZ.
    change (bb s') with (bb s) in Hk. apply Hoth. unfold SFS_MAP_LOCATION. lia.
  - cbn. intros p sv Hp Hc. rewrite <- (Hino p sv Hp Hc). f_equal. apply Hoth. by eapply vk_range, (vs_vnode _ Hs).
Qed.

(** Everything is on the disk. *)
Definition all_clean s : Prop :=
  sfs_superdirty s = false /\ sfs_freemapdirty s = false /\ forall p sv, k_heap s !! p = Some sv -> sv_dirty sv = false.

Lemma wp_sfs_sync s :
  vol_ok s -> wp sfs_sync (fun _ s' => flushed s s' /\ vol_ok s' /\ all_clean s') (fun _ _ => False) s.
Proof.
  intros Hv. pose proof Hv as [Hs _]. pose proof (KArray.wf_num _ (vs_table _ Hs)) as Hnum. unfold sfs_sync. wp_steps. unfold KArray.array_getnum.
  eapply wp_mono; [apply (wp_sync_loop _ 0 s Hv); lia| |done]. intros _ s1 (Hf1 & Hv1 & _ & Hc1). wp_steps.
  assert (Hclean : forall p, is_Some (k_heap s !! p) -> clean_vnode s1 p).
  { intros p Hp. assert (Some p ∈ KArray.contents (sfs_vnodes s)) as [k Hk]%list_elem_of_lookup_1 by (apply (vs_loaded _ Hs); eauto).
    by apply (Hc1 k p); [lia|]. }
  assert (Hw : wp (if sfs_freemapdirty s1 then _ ← sfs_mapio UIO_WRITE; modify (fun s => set_freemapdirty s false) else mret tt)
    (fun _ s2 => flushed s1 s2 /\ vol_ok s2 /\ sfs_freemapdirty s2 = false) (fun _ _ => False) s1).
  { pose proof Hv1 as [Hs1 _]. destruct (vol_map s1 Hs1) as (Hm & Hbb & Hlen). destruct (sfs_freemapdirty s1) eqn:Ed; wp_steps.
    - unfold sfs_mapio. wp_steps. change (SFS_BITBLOCKS (sp_nblocks (sfs_super s1))) with (bb s1).
      apply wp_mapio_write; rewrite Z2Nat.id by lia; [done|lia|]. intros d' Hok Hn Hd'. wp_steps.
      destruct (map_flushed s1 d' Hv1 Hok Hn Hd'). done.
    - split; [by apply flushed_refl, Hs1|]. done. }
  eapply wp_mono; [exact Hw| |done]. intros _ s2 (Hf2 & Hv2 & Hd2). wp_steps.
  assert (Hw3 : wp (if sfs_superdirty s2 then _ ← sfs_wblock (super_bytes (sfs_super s2)) SFS_SB_LOCATION; modify (fun s => set_superdirty s false) else mret tt)
    (fun _ s3 => flushed s2 s3 /\ vol_ok s3 /\ sfs_superdirty s3 = false /\ sfs_freemapdirty s3 = false) (fun _ _ => False) s2).
  { pose proof Hv2 as [Hs2 _]. pose proof (vs_good _ Hs2) as Hg2. destruct (sfs_superdirty s2) eqn:Ed; wp_steps.
    - apply wp_wblock; [done|pose proof (vol_nb s2 Hg2); unfold SFS_SB_LOCATION; lia|by apply length_super_bytes, Hs2|].
      intros s3 Hu. wp_steps. destruct (super_flushed s2 s3 Hv2 Hu). destruct Hu as (d3 & -> & _). done.
    - split; [by apply flushed_refl|]. done. }
  eapply wp_mono; [exact Hw3| |done]. intros _ s3 (Hf3 & Hv3 & Hd3 & Hd3'). pose proof (flushed_trans _ _ _ Hf1 (flushed_trans _ _ _ Hf2 Hf3)) as Hf.
  split; [done|]. split; [done|]. split; [done|]. split; [done|]. intros p sv Hp.
  destruct (fl_heap _ _ Hf p sv Hp) as (sv0 & Hp0 & _).
  destruct (flushed_clean _ _ p Hf3 (flushed_clean _ _ p Hf2 (Hclean p ltac:(eauto)))) as (sv' & Hp' & Hd). congruence.
Qed.

(** ** Loading a vnode *)

Lemma wp_load_search (n : nat) j s ino forcetype (Q : option ptr -> sfs_fs D -> Prop) E :
  vol_struct s -> 0 <= j -> j + Z.of_nat n = KArray.num (sfs_vnodes s) ->
  (forall p sv, k_heap s !! p = Some sv -> sv_ino sv ≠ ino) -> Q None s ->
  wp (load_search n j ino forcetype) Q E s.
Proof.
  intros Hs Hj Hn Hno HQ. revert j Hj Hn. induction n as [|n IH]; intros j Hj Hn; cbn [load_search]; wp_steps; [done|].
  apply wp_vnode_at; [done|lia|]. intros p sv _ Hp. wp_steps. apply (wp_deref p sv); [done|]. wp_steps.
  pose proof (vs_vnode _ Hs p sv Hp) as [_ _ _ _ _ Hr Hu]. apply wp_bused; [apply Hs|lia|]. rewrite Hu. cbn [negb].
  rewrite bool_decide_eq_false_2 by (by apply (Hno p)). apply IH; lia.
Qed.

(** An inode on the disk that no loaded vnode shares anything with. *)
Record loadable s (ino : Z) i : Prop := {
  lo_new p sv : k_heap s !! p = Some sv -> sv_ino sv ≠ ino;
  lo_ino : ino = SFS_ROOT_LOCATION \/ first_block s <= ino;
  lo_range : 0 < ino < nb s;
  lo_used : used s ino = true;
  lo_disk : inode_of_bytes (sect s ino) = i;
  lo_file : file_ok s i;
  lo_slots b : b ∈ slots s i -> b ≠ 0 ->
    first_block s <= b /\ b ≠ ino /\ forall p sv, k_heap s !! p = Some sv -> sv_ino sv ≠ b /\ b ∉ slots s (sv_i sv);
  lo_owner b p sv : k_heap s !! p = Some sv -> b ∈ slots s (sv_i sv) -> b ≠ 0 -> b ≠ ino
}.

(** The state with the vnode: the device may have been read. *)
Definition with_vnode s (p : ptr) sv s' : Prop :=
  k_heap s !! p = None /\ p ≠ NULL /\
  exists s1 a o, quiet s s1 /\ s' = set_heap (set_vnodes s1 a o) (<[p := sv]> (k_heap s)) /\
    KArray.wf a /\ KArray.contents a = KArray.contents (sfs_vnodes s) ++ [Some p].

Lemma quiet_struct s s1 : vol_struct s -> quiet s s1 -> flushed s s1.
Proof.
  intros Hs (d1 & -> & Hok & Hn & Hsec). split; try done.
  - intros p sw Hp. by exists sw.
  - intros b Hb _. pose proof (vs_good _ Hs) as [_ Hgn _ _ _ _]. destruct (vol_map s Hs) as (_ & Hbb & _).
    apply Hsec. unfold first_block, SFS_MAP_LOCATION in Hb. lia.
Qed.

Lemma with_vnode_ok s p sv s' :
  vol_ok s -> loadable s (sv_ino sv) (sv_i sv) -> 0 < vn_refcount (sv_v sv) -> 0 <= vn_opencount (sv_v sv) ->
  with_vnode s p sv s' -> vol_ok s'.
Proof.
  intros [Hs [Hsup Hmap Hino]] [Ln Li Lr Lu Ld Lf Lsl Lo] Href Hop (Hnone & Hnn & s1 & a & o & Hq & -> & Ha & Hca).
  pose proof (vs_good _ Hs) as Hg. destruct (vol_map s Hs) as ((Hdev & _ & Hm) & Hbb & _). pose proof (vs_room _ Hs) as Hroom.
  assert (Hsl : forall i, file_ok s i -> slots s1 i = slots s i) by (intros i Hi; by apply quiet_slots).
  pose proof Hq as (d1 & E1 & Hok1 & Hn1 & Hsec1). set (s' := set_heap _ _).
  assert (Hsect : forall b, 0 <= b < nb s -> sect s' b = sect s b) by (intros b Hb; subst s' s1; apply Hsec1; destruct Hg; lia).
  assert (Hfiles : forall q sw, k_heap s' !! q = Some sw -> slots s' (sv_i sw) = slots s (sv_i sw)).
  { intros q sw. cbn. rewrite lookup_insert_Some. intros [[<- <-]|[_ Hq']]; [by apply Hsl|]. by apply Hsl, (vk_file _ _ _ (vs_vnode _ Hs q sw Hq')). }
  assert (Hold : forall q sw, k_heap s' !! q = Some sw -> q = p /\ sw = sv \/ q ≠ p /\ k_heap s !! q = Some sw).
  { intros q sw. cbn. rewrite lookup_insert_Some. intros [[<- <-]|[? ?]]; auto. }
  assert (Hnb : nb s' = nb s) by (by subst s' s1). assert (Hfb : first_block s' = first_block s) by (by subst s' s1).
  assert (Hu : forall b, used s' b = used s b) by (by subst s' s1).
  assert (Hfok : forall i, file_ok s i -> file_ok s' i).
  { intros i Hi. pose proof (Hsl i Hi) as E. change (slots s1 i) with (slots s' i) in E. destruct Hi. split; [done|by rewrite E| |done].
    intros b. rewrite E, Hu, Hnb. apply f_used0. }
  split.
  - split; [|subst s' s1; apply Hs..|by rewrite Hfb, Hnb| |done| | | | | |].
    + subst s' s1. destruct Hg. split; unfold nb, used in *; cbn in *; try done. lia.
    + intros b. rewrite Hfb, Hu. apply (vs_reserved _ Hs).
    + intros c. cbn. rewrite Hca, elem_of_app, list_elem_of_singleton, (vs_loaded _ Hs). split.
      * intros [(q & -> & Hq')| ->]; [exists q|exists p]; (split; [done|]); apply lookup_insert_is_Some; [|by left].
        destruct (decide (p = q)); auto.
      * intros (q & -> & [<-|[_ Hq']]%lookup_insert_is_Some); [by right|left; eauto].
    + intros q sw [[-> ->]|[Hne Hq']]%Hold.
      * split; rewrite ?Hfb, ?Hnb, ?Hu; auto.
      * destruct (vs_vnode _ Hs q sw Hq'). split; rewrite ?Hfb, ?Hnb, ?Hu; auto.
    + intros q r sw sx [[-> ->]|[Hne Hq']]%Hold [[-> ->]|[Hne' Hr']]%Hold E; [done| | |by eapply (vs_ino _ Hs)].
      * by destruct (Ln r sx Hr').
      * by destruct (Ln q sw Hq').
    + intros q sw b Hq'. rewrite (Hfiles q sw Hq'), Hfb. destruct (Hold q sw Hq') as [[-> ->]|[Hne Hq0]]; [apply Lsl|by apply (vs_slots _ Hs q sw)].
    + intros q r sw sx b Hq' Hr'. rewrite (Hfiles q sw Hq'). intros Hin Hb.
      destruct (Hold q sw Hq') as [[-> ->]|[Hne Hq0]], (Hold r sx Hr') as [[-> ->]|[Hne' Hr0]].
      * intros E. by destruct (Lsl b Hin Hb) as (_ & ? & _).
      * apply (proj2 (proj2 (Lsl b Hin Hb)) r sx Hr0).
      * intros E. by destruct (Lo b q sw Hq0 Hin Hb).
      * by apply (vs_slot_ino _ Hs q r sw sx).
    + intros q r sw sx Hq' Hr' Hne b. rewrite (Hfiles q sw Hq'), (Hfiles r sx Hr'). intros Hin Hb Hin'.
      destruct (Hold q sw Hq') as [[-> ->]|[Hne1 Hq0]], (Hold r sx Hr') as [[-> ->]|[Hne' Hr0]]; [done|..].
      * by destruct (proj2 (proj2 (Lsl b Hin Hb)) r sx Hr0).
      * by destruct (proj2 (proj2 (Lsl b Hin' Hb)) q sw Hq0).
      * by apply (vs_disjoint _ Hs q r sw sx Hq0 Hr0 Hne b).
  - unfold first_block, SFS_MAP_LOCATION in Hroom. split.
    + intros Hc. rewrite Hsect by (unfold SFS_SB_LOCATION; lia). subst s' s1. by apply Hsup.
    + intros Hc. change (bb s') with (bb s1). subst s1. change (bb (set_device s d1 (k_ctx s))) with (bb s). cbn. rewrite <- Hmap by done.
      unfold map_bytes. f_equal. apply list_fmap_ext. intros k x [-> Hk]%lookup_seqZ. apply Hsect. unfold SFS_MAP_LOCATION. lia.
    + intros q sw [[-> ->]|[Hne Hq']]%Hold Hc; [by rewrite Hsect by lia|]. rewrite Hsect; [by apply (Hino q)|].
      pose proof (vk_range _ _ _ (vs_vnode _ Hs q sw Hq')). lia.
Qed.

Definition ops_of i : vnode_ops := if decide (sfi_type i = SFS_TYPE_FILE) then sfs_fileops else sfs_dirops.

(** Only the allocator's answers differ, and the device may have been read. *)
Definition asked s s' : Prop := exists s1 o, quiet s s1 /\ s' = set_orc s1 o.

Lemma wp_sfs_kmalloc s (Q : bool -> sfs_fs D -> Prop) E : (forall ok o, Q ok (set_orc s o)) -> wp kmalloc Q E s.
Proof. intros HQ. unfold wp, kmalloc. destruct (kmalloc_ok (k_orc s)). apply HQ. Qed.

Lemma quiet_orc s s1 o : quiet (set_orc s o) s1 -> exists s0, quiet s s0 /\ s1 = set_orc s0 o.
Proof. intros (d1 & -> & Hq). exists (set_device s d1 (k_ctx s)). split; [by exists d1|done]. Qed.

Lemma fresh_ptr_new s : k_heap s !! fresh_ptr s = None /\ fresh_ptr s ≠ NULL.
Proof.
  pose proof (is_fresh (dom (k_heap s) ∪ {[NULL]})) as Hf. unfold fresh_ptr. rewrite not_elem_of_union in Hf. destruct Hf as [H1 H2].
  split; [by apply not_elem_of_dom|]. intros E. apply H2. rewrite E. by apply elem_of_singleton.
Qed.

Lemma wp_loadvnode s ino i :
  vol_ok s -> KArray.num (sfs_vnodes s) + 1 < 536870912 -> loadable s ino i ->
  sfi_type i = SFS_TYPE_FILE \/ sfi_type i = SFS_TYPE_DIR ->
  wp (sfs_loadvnode ino SFS_TYPE_INVAL)
     (fun p s' => with_vnode s p (mkSv (mkVnode 1 0 (ops_of i)) i ino false) s')
     (fun e s' => e = ENOMEM /\ asked s s') s.
Proof.
  intros [Hs _] Hnum Hlo Hty. pose proof Hlo as [Ln Li Lr Lu Ld Lf _ _]. pose proof (vs_good _ Hs) as Hg. unfold sfs_loadvnode. wp_steps.
  pose proof (KArray.wf_num _ (vs_table _ Hs)). unfold KArray.array_getnum. apply wp_load_search; [done|lia|lia|done|]. wp_steps.
  apply wp_sfs_kmalloc. intros ok o. destruct ok; cbn [negb]; wp_steps; [|split; [done|]; exists s, o; split; [by apply quiet_refl|done]].
  assert (Hg1 : good (set_orc s o)) by (by destruct Hg). apply wp_bused; [done|exact (conj (Z.lt_le_incl _ _ (proj1 Lr)) (proj2 Lr))|].
  change (used (set_orc s o) ino) with (used s ino). rewrite Lu. cbn [negb]. wp_steps. apply wp_rblock; [done|unfold nb in *; cbn; lia|done|].
  intros s2 (s1 & Hq & ->)%quiet_upd%quiet_orc. change (sect (set_orc s o) ino) with (sect s ino). rewrite Ld.
  rewrite bool_decide_eq_false_2 by (by intros []). wp_steps.
  assert (Hops : forall (K : vnode_ops -> sfs_fs D -> Prop) s3, K (ops_of i) s3 ->
    wp (if bool_decide (sfi_type i = SFS_TYPE_FILE) then mret sfs_fileops
        else if bool_decide (sfi_type i = SFS_TYPE_DIR) then mret sfs_dirops else panic) K (fun e s' => e = ENOMEM /\ asked s s') s3).
  { intros K s3 HK. unfold ops_of in HK. case_decide as Ht; [by rewrite bool_decide_eq_true_2|]. rewrite bool_decide_eq_false_2 by done.
    rewrite bool_decide_eq_true_2 by (by destruct Hty). done. }
  apply Hops. wp_steps. set (q := fresh_ptr _). destruct (fresh_ptr_new (set_orc s1 o)) as [Hnone Hnn]. fold q in Hnone, Hnn.
  assert (Hh1 : k_heap s1 = k_heap s) by (by destruct Hq as (d1 & -> & _)). cbn [set_orc k_heap] in Hnone. rewrite Hh1 in Hnone.
  assert (Hv1 : sfs_vnodes s1 = sfs_vnodes s) by (by destruct Hq as (d1 & -> & _)).
  assert (Hask : forall o', asked s (set_orc s1 o')) by (intros o'; by exists s1, o').
  unfold vnode_init. wp_steps. apply wp_massert; [by apply bool_decide_eq_true_2|]. wp_steps.
  unfold lock_create_ok. wp_steps. apply wp_sfs_kmalloc. intros ok2 o2. cbn beta. destruct ok2; wp_steps; [|split; [done|apply Hask]].
  apply wp_sfs_kmalloc. intros ok3 o3. cbn beta. destruct ok3; wp_steps; [|split; [done|apply Hask]].
  cbn [sv_i sv_ino sv_dirty sv_v set_heap set_orc sfs_vnodes k_orc k_heap]. rewrite Hv1, Hh1.
  destruct (KArray.array_add_spec (sfs_vnodes s) q o3 (vs_table _ Hs) Hnum) as (r & a & o4 & Ea & Hwf & _ & Hr).
  eapply wp_lift; [exact Ea|]. wp_steps. destruct Hr as [[-> Hca]|(-> & -> & _)].
  - rewrite bool_decide_eq_false_2 by (by intros []). wp_steps. split; [done|]. split; [done|]. exists s1, a, o4. by split_and!.
  - rewrite bool_decide_eq_true_2 by done. unfold vnode_kill. wp_steps.
    eapply wp_deref; [cbn; apply lookup_insert_eq|]. wp_steps. apply wp_massert; [done|]. wp_steps. apply wp_massert; [done|]. wp_steps.
    split; [done|]. exists s1, o4. split; [done|]. cbn. rewrite delete_insert_id by done. rewrite <- Hh1, <- Hv1. by destruct s1.
Qed.


(** ** Sequences of operations *)

Lemma shrunk_touched s s' p sv sv' : fok s p sv -> shrunk s s' p sv sv' -> touched s s' p sv sv'.
Proof.
  intros Hf []. split; try done.
  - intros b [j Hj]%list_elem_of_lookup_1 Hb. left. eapply list_elem_of_lookup_2; eauto.
  - intros b Hb Hu Hno. rewrite sh_used0, Hu by done. rewrite bool_decide_eq_false_2; [done|]. intros (H0 & Hin & _). by apply H0, Hno.
  - intros b Hb _ Hno. apply sh_frame0; [done|]. intros ->. apply Hno. eapply list_elem_of_lookup_2, slots_15, Hf.
Qed.

Lemma quiet_touched s s' p sv : fok s p sv -> quiet s s' -> touched s s' p sv sv.
Proof.
  intros Hf Hq. pose proof (quiet_slots s s' _ (fok_good _ _ _ Hf) (fok_file _ _ _ Hf) Hq) as Hs.
  split; [by eapply quiet_fok|by apply quiet_hdr; [apply Hf|]|rewrite Hs; auto| |].
  - intros b _ Hu _. by destruct Hq as (d1 & -> & _).
  - intros b Hb _ _. by apply quiet_sect; [apply Hf|..].
Qed.

(** One operation, successful or not: a transfer between a kernel buffer and a
    file that is loaded, a write starting at most at the largest file size; a
    truncation to at most that size; a directory operation with a name that
    fits, a link to a nonzero inode, an unlink of a slot in use; a sync.  The device has no faults.
    A write that starts past the largest size is left out: it fails, but it
    leaves a size larger than that behind ([sfs_io_write_past_max]). *)
Inductive vstep : sfs_fs D -> sfs_fs D -> Prop :=
  | step_write s s' p sv u u' r :
      k_heap s !! p = Some sv -> kwf u -> uio_rw u = UIO_WRITE -> 0 < uio_resid u -> uio_offset u <= MAXFILE ->
      sfs_io p (s, u) = Done (r, (s', u')) -> vstep s s'
  | step_read s s' p sv u u' r :
      k_heap s !! p = Some sv -> kwf u -> uio_rw u = UIO_READ -> 0 < uio_resid u ->
      sfs_io p (s, u) = Done (r, (s', u')) -> vstep s s'
  | step_truncate s s' p sv len r :
      k_heap s !! p = Some sv -> 0 <= len <= MAXFILE -> sfs_truncate p len s = Done (r, s') -> vstep s s'
  | step_link s s' p sv name ino r :
      dok s p sv -> name_ok name -> 0 < ino < 4294967296 -> sfs_dir_link p name ino s = Done (r, s') -> vstep s s'
  | step_unlink s s' p sv k e r :
      dok s p sv -> 0 <= k -> dirents s (sv_i sv) !! Z.to_nat k = Some e -> sfd_ino e ≠ SFS_NOINO ->
      sfs_dir_unlink p k s = Done (r, s') -> vstep s s'
  | step_fsync s s' p sv r : k_heap s !! p = Some sv -> VOP_FSYNC p s = Done (r, s') -> vstep s s'
  | step_sync s s' r : sfs_sync s = Done (r, s') -> vstep s s'.

Lemma vstep_ok s s' : vol_ok s -> vstep s s' -> vol_ok s'.
Proof.
  intros Hv Hst. pose proof Hv as [Hs _]. destruct Hst as [s s' p sv u u' r Hp Hk Hw Hr Ho E|s s' p sv u u' r Hp Hk Hw Hr E
    |s s' p sv len r Hp Hl E|s s' p sv name ino r Hd Hn Hi E|s s' p sv k e r Hd Hk He Hi E|s s' p sv r Hp E|s s' r E].
  - pose proof (vol_fok s p sv Hs Hp) as Hf. pose proof (wp_untry _ _ _ _ (wp_sfs_io_write s p sv u Hf Hk Hw Hr Ho)) as Hwp.
    apply (wp_elim _ _ _ _ _ _ Hwp) in E. assert (exists sv', touched s s' p sv sv') as [sv' Ht]; [|by eapply touched_vol_ok].
    destruct r as [e|[]]; destruct E as (m & _ & (sv' & Hf' & He & _) & _); exists sv'; by apply ext_touched.
  - pose proof (vol_fok s p sv Hs Hp) as Hf. pose proof (wp_sfs_io_read s p sv u (fun _ su => quiet s (fst su)) (fun _ _ => False) Hf Hk Hw Hr (fun su Hq => proj1 Hq)) as Hwp.
    apply (wp_elim _ _ _ _ _ _ Hwp) in E. destruct r; [done|]. cbn in E. by eapply touched_vol_ok, quiet_touched.
  - pose proof (vol_fok s p sv Hs Hp) as Hf.
    assert (wp (sfs_truncate p len) (fun _ s' => exists sv', shrunk s s' p sv sv') (fun _ _ => False) s) as Hwp.
    { apply (wp_sfs_truncate s p sv len); [done|done|]. intros s1 sv1 Htr. exists sv1. apply Htr. }
    apply (wp_elim _ _ _ _ _ _ Hwp) in E. destruct r; [done|]. destruct E as [sv' Hsh]. eapply touched_vol_ok; [done|done|by apply shrunk_touched].
  - pose proof (wp_elim _ _ _ _ _ _ (wp_dir_link s p sv name ino Hd Hn Hi) E) as Hpost.
    assert (exists sv', dok s' p sv' /\ ext s s' p sv sv') as (sv' & Hd' & He).
    { destruct r; [destruct Hpost as (_ & sv' & ? & ? & _)|destruct Hpost as (_ & sv' & ? & ? & _)]; by exists sv'. }
    eapply touched_vol_ok; [done|apply Hd|]. by apply ext_touched; [apply Hd'|].
  - pose proof (wp_elim _ _ _ _ _ _ (wp_dir_unlink s p sv k e Hd Hk He Hi) E) as Hpost.
    assert (exists sv', fok s' p sv' /\ ext s s' p sv sv') as (sv' & Hf' & Hx).
    { destruct r; [destruct Hpost as (_ & sv' & ? & ? & _); by exists sv'|destruct Hpost as (sv' & Hd' & ? & _); exists sv'; split; [apply Hd'|done]]. }
    eapply touched_vol_ok; [done|apply Hd|]. by apply ext_touched.
  - pose proof (wp_elim _ _ _ _ _ _ (wp_fsync s p sv Hv Hp) E) as Hpost. destruct r; [done|]. apply Hpost.
  - pose proof (wp_elim _ _ _ _ _ _ (wp_sfs_sync s Hv) E) as Hpost. destruct r; [done|]. apply Hpost.
Qed.

(** C8. On a device without faults, over any sequence of reads and writes of kernel
    buffers, the writes starting at most at the largest file size, truncations
    to at most that size, directory changes and syncs, those included that fail
    because the volume or the file is full, the loaded files stay sound and
    apart from each other, from the inodes and from the free map; the blocks
    they use stay marked; and whatever is not marked dirty is on the disk. *)
Theorem volume_invariant (s0 s : sfs_fs D) : vol_ok s0 -> rtc vstep s0 s -> vol_ok s.
Proof. intros Hv Hst. induction Hst as [|s s1 s2 H1 _ IH]; [done|]. by apply IH, (vstep_ok s). Qed.

(** The volume a clean state has on its disk. *)
Lemma vol_volume s :
  vol_ok s -> all_clean s -> volume s (sfs_super s) (KBitmap.v (sfs_freemap s)) /\ ends_name (sfs_super s) = sfs_super s.
Proof.
  intros [Hs [Hsup Hmap _]] (Hc1 & Hc2 & _). pose proof (vs_good _ Hs) as []. pose proof (vs_room _ Hs) as Hroom. unfold first_block, bb in Hroom.
  pose proof (vs_nbits _ Hs) as Hnb. unfold nb in *. split.
  - split; [auto|apply Hs|lia|unfold SFS_MAP_LOCATION in *; lia|by apply Hmap|apply g_map0| |]; unfold used in *; rewrite <- Hnb; [|by destruct (sfs_freemap s)].
    intros b Hb. by destruct (sfs_freemap s); apply g_over0.
  - unfold ends_name. rewrite list_insert_id by apply Hs. by destruct (sfs_super s).
Qed.

(** C3. After [sfs_sync] the volume can be mounted again, on this machine or another,
    and is the same: the superblock and the free map, and the inode of every
    file that was loaded with all the bytes of the file. *)
Theorem sync_remount (s : sfs_fs D) :
  vol_ok s ->
  exists s1, sfs_sync s = Done (inr tt, s1) /\ vol_ok s1 /\
    forall s2, sfs_device s2 = sfs_device s1 -> d_blocksize (sfs_device s2) = SFS_BLOCKSIZE ->
    wp sfs_domount (fun _ s3 => good s3 /\ sfs_super s3 = sfs_super s /\ sfs_freemap s3 = sfs_freemap s /\
        forall p sv, k_heap s !! p = Some sv -> inode_of_bytes (sect s3 (sv_ino sv)) = sv_i sv /\
          forall x, 0 <= x < MAXFILE -> fbyte s3 (sv_i sv) x = fbyte s (sv_i sv) x)
      (fun e _ => e = ENOMEM) s2.
Proof.
  intros Hv. pose proof Hv as [Hs _].
  destruct (wp_done _ _ _ _ (wp_sfs_sync s Hv)) as ([e|[]] & s1 & E & Hpost); [done|]. destruct Hpost as (Hfl & Hv1 & Hc1).
  exists s1. split; [done|]. split; [done|]. intros s2 Hdev Hbs. destruct (vol_volume s1 Hv1 Hc1) as [Hvol Hname].
  pose proof Hv1 as [Hs1 [_ _ Hino1]]. pose proof (vs_good _ Hs1) as Hg1.
  assert (Hvol2 : volume s2 (sfs_super s1) (KBitmap.v (sfs_freemap s1))).
  { destruct Hvol. split; unfold map_bytes, sect in *; rewrite ?Hdev; done. }
  assert (Hok2 : d_ok (sfs_device s2)) by (rewrite Hdev; apply Hg1).
  eapply wp_mono; [exact (wp_domount s2 _ _ Hok2 Hbs Hvol2)| |done]. cbn beta. intros [] s3 Hm. split; [exact (mounted_good _ _ _ _ Hok2 Hvol2 Hm)|].
  destruct Hm as (d' & o & -> & Hok' & Hn & Hsec). rewrite Hdev in Hn, Hsec.
  split; [cbn; rewrite Hname; apply Hfl|]. split.
  { cbn. rewrite <- (fl_map _ _ Hfl). pose proof (vs_nbits _ Hs1) as Hb. unfold nb in Hb. rewrite <- Hb. by destruct (sfs_freemap s1). }
  set (s3 := mkSfs _ _ _ _ _ _ _ _ _).
  assert (Hsect : forall b, 0 <= b < nb s1 -> sect s3 b = sect s1 b).
  { intros b Hb. unfold sect at 1. cbn. rewrite Hsec by (destruct Hg1; lia). unfold sect. by rewrite Hdev. }
  intros p sv Hp. destruct (fl_dom _ _ Hfl p) as [sw Hw]; [by exists sv|].
  destruct (fl_heap _ _ Hfl p sw Hw) as (sv' & Hp' & _ & Ei & Eo & _). assert (sv' = sv) as -> by congruence.
  destruct (flushed_same s s1 p sv Hs Hfl Hp) as [_ Hbytes]. split.
  - rewrite Hsect by (pose proof (vk_range _ _ _ (vs_vnode _ Hs1 p sw Hw)); lia). rewrite <- Eo, <- Ei. apply (Hino1 p); [done|]. by eapply Hc1.
  - intros x Hx. rewrite <- Hbytes by done. rewrite <- Ei.
    pose proof (quiet_fbyte s1 (set_device s1 d' (k_ctx s1)) p sw x (vol_fok _ _ _ Hs1 Hw)) as Hq. apply Hq; [|done].
    exists d'. split; [done|]. split; [done|]. split; [done|]. intros b Hb. rewrite Hsec by done. unfold sect. by rewrite Hdev.
Qed.
End mount.

End SfsMount.
