(* ===== verification/Thread.v ===== *)
(** * Threads and the scheduler: [kern/thread/thread.c], [kern/thread/scheduler.c]

    The thread structures, the lists of sleeping and dead threads, the run queue
    and the operations on them, up to and after the context switch itself.  The
    switch, which passes control to another thread's saved context, is in
    [Concurrency]. *)

From S2P Require Import Prelude KArray KQueue.

Module Thread.

(** ** State *)

Inductive threadstate := S_RUN | S_READY | S_SLEEP | S_ZOMB.

#[export] Instance threadstate_eq_dec : EqDecision threadstate.
Proof. solve_decision. Defined.

(** A [struct thread].  Of the pcb only [pcb_ininterrupt] matters to the
    machine-independent code; of the stack, the four bytes at its low end. *)
Record thread := mkThread {
  pcb_ininterrupt : Z;
  t_name : list Z;
  t_sleepaddr : ptr;
  t_stack : option (list Z);
  t_vmspace : ptr;
  t_cwd : ptr
}.

Definition set_ininterrupt (t : thread) x := mkThread x (t_name t) (t_sleepaddr t) (t_stack t) (t_vmspace t) (t_cwd t).
Definition set_sleepaddr (t : thread) x := mkThread (pcb_ininterrupt t) (t_name t) x (t_stack t) (t_vmspace t) (t_cwd t).
Definition set_stack (t : thread) x := mkThread (pcb_ininterrupt t) (t_name t) (t_sleepaddr t) x (t_vmspace t) (t_cwd t).
Definition set_vmspace (t : thread) x := mkThread (pcb_ininterrupt t) (t_name t) (t_sleepaddr t) (t_stack t) x (t_cwd t).
Definition set_cwd (t : thread) x := mkThread (pcb_ininterrupt t) (t_name t) (t_sleepaddr t) (t_stack t) (t_vmspace t) x.

(** Calls into the file system and the VM system, in order. *)
Inductive call :=
  | VOP_INCREF (vn : ptr)
  | VOP_DECREF (vn : ptr)
  | as_activate (vmspace : ptr)
  | as_destroy (vmspace : ptr).

(** The globals of the thread system and of [hardclock.c], the thread structures
    by address, the interrupt state of the processor, the answers of [kmalloc], and the calls
    made to other parts. *)
Record sys := mkSys {
  threads : gmap ptr thread;
  curthread : ptr;
  sleepers : option KArray.array;
  zombies : option KArray.array;
  numthreads : Z;
  runqueue : option KQueue.queue;
  curspl : Z;
  in_interrupt : Z;
  lbolt_counter : Z;
  orc : oracle;
  calls : list call
}.

Definition set_threads (s : sys) x :=
  mkSys x (curthread s) (sleepers s) (zombies s) (numthreads s) (runqueue s) (curspl s) (in_interrupt s) (lbolt_counter s) (orc s) (calls s).
Definition set_curthread (s : sys) x :=
  mkSys (threads s) x (sleepers s) (zombies s) (numthreads s) (runqueue s) (curspl s) (in_interrupt s) (lbolt_counter s) (orc s) (calls s).
Definition set_sleepers (s : sys) x o :=
  mkSys (threads s) (curthread s) x (zombies s) (numthreads s) (runqueue s) (curspl s) (in_interrupt s) (lbolt_counter s) o (calls s).
Definition set_zombies (s : sys) x o :=
  mkSys (threads s) (curthread s) (sleepers s) x (numthreads s) (runqueue s) (curspl s) (in_interrupt s) (lbolt_counter s) o (calls s).
Definition set_numthreads (s : sys) x :=
  mkSys (threads s) (curthread s) (sleepers s) (zombies s) x (runqueue s) (curspl s) (in_interrupt s) (lbolt_counter s) (orc s) (calls s).
Definition set_runqueue (s : sys) x o :=
  mkSys (threads s) (curthread s) (sleepers s) (zombies s) (numthreads s) x (curspl s) (in_interrupt s) (lbolt_counter s) o (calls s).
Definition set_curspl (s : sys) x :=
  mkSys (threads s) (curthread s) (sleepers s) (zombies s) (numthreads s) (runqueue s) x (in_interrupt s) (lbolt_counter s) (orc s) (calls s).
Definition set_in_interrupt (s : sys) x :=
  mkSys (threads s) (curthread s) (sleepers s) (zombies s) (numthreads s) (runqueue s) (curspl s) x (lbolt_counter s) (orc s) (calls s).
Definition set_lbolt_counter (s : sys) x :=
  mkSys (threads s) (curthread s) (sleepers s) (zombies s) (numthreads s) (runqueue s) (curspl s) (in_interrupt s) x (orc s) (calls s).
Definition set_orc (s : sys) x :=
  mkSys (threads s) (curthread s) (sleepers s) (zombies s) (numthreads s) (runqueue s) (curspl s) (in_interrupt s) (lbolt_counter s) x (calls s).
Definition set_calls (s : sys) x :=
  mkSys (threads s) (curthread s) (sleepers s) (zombies s) (numthreads s) (runqueue s) (curspl s) (in_interrupt s) (lbolt_counter s) (orc s) x.
Definition add_call (s : sys) x := set_calls s (calls s ++ [x]).

Abbreviation T := (M sys) (only parsing).

Definition SPL_HIGH : Z := 15.
Definition STACK_MAGIC : list Z := [174; 17; 218; 51].    (* 0xae 0x11 0xda 0x33 *)

(** ** Access to the globals and to thread structures *)

Definition global {A} (x : option A) : T A := lift (match x with Some a => Done a | None => Stuck end).
Definition tread (p : ptr) : T thread :=
  s ← get; global (threads s !! p).
Definition twrite (p : ptr) (t : thread) : T unit :=
  modify (fun s => set_threads s (<[p := t]> (threads s))).
Definition kmalloc : T bool :=
  s ← get;
  let '(ok, o) := kmalloc_ok (orc s) in
  _ ← put (set_orc s o); mret ok.
Definition external (c : call) : T unit := modify (fun s => add_call s c).

(** ** Interrupt priority: [splx] and [splhigh] of [arch/mips/mips/spl.c] *)

Definition splx (newspl : Z) : T Z :=
  s ← get; _ ← put (set_curspl s newspl); mret (curspl s).
Definition splhigh : T Z := splx SPL_HIGH.
Definition spl0 : T Z := splx 0.

(** [assert(curspl>0)] *)
Definition assert_spl : T unit := s ← get; massert (bool_decide (curspl s > 0)).

(** ** Creation and destruction *)

(** [kmalloc] hands out an address that is not NULL and not in use. *)
Definition thread_create (name : list Z) : T ptr :=
  ok ← kmalloc;
  if negb ok then mret NULL else
  ok ← kmalloc;
  if negb ok then mret NULL else
  s ← get;
  let p := fresh (dom (threads s) ∪ {[NULL]}) in
  _ ← twrite p (mkThread 0 name NULL None NULL NULL);
  mret p.

Definition thread_destroy (p : ptr) : T unit :=
  s ← get;
  _ ← massert (bool_decide (p ≠ curthread s));
  t ← tread p;
  _ ← massert (bool_decide (t_vmspace t = NULL));
  _ ← massert (bool_decide (t_cwd t = NULL));
  modify (fun s => set_threads s (delete p (threads s))).

Fixpoint exorcise_loop (n : nat) (i : Z) : T unit :=
  match n with
  | O => mret tt
  | S n =>
      s ← get;
      a ← global (zombies s);
      c ← lift (KArray.array_getguy a i);
      z ← global c;
      _ ← massert (bool_decide (z ≠ curthread s));
      _ ← thread_destroy z;
      exorcise_loop n (i + 1)
  end.

Definition exorcise : T unit :=
  _ ← assert_spl;
  s ← get;
  a ← global (zombies s);
  _ ← exorcise_loop (Z.to_nat (KArray.array_getnum a)) 0;
  s ← get;
  a ← global (zombies s);
  '(result, a, o) ← lift (KArray.array_setsize a 0 (orc s));
  _ ← put (set_zombies s (Some a) o);
  massert (bool_decide (result = 0)).

(** The body of the loop only prints. *)
Definition thread_killall : T unit :=
  _ ← assert_spl;
  s ← get;
  a ← global (sleepers s);
  '(result, a, o) ← lift (KArray.array_setsize a 0 (orc s));
  _ ← put (set_sleepers s (Some a) o);
  massert (bool_decide (result = 0)).

(** ** The scheduler *)

Definition scheduler_bootstrap : T unit :=
  s ← get;
  let '(q, o) := KQueue.q_create 32 (orc s) in
  _ ← put (set_runqueue s q o);
  match q with None => panic | Some _ => mret tt end.

Definition scheduler_preallocate (nthreads : Z) : T Z :=
  _ ← assert_spl;
  s ← get;
  q ← global (runqueue s);
  '(result, q, o) ← lift (KQueue.q_preallocate q nthreads (orc s));
  _ ← put (set_runqueue s (Some q) o);
  mret result.

(** [while (!q_empty(runqueue)) q_remhead(runqueue)]: one turn for each element. *)
Fixpoint killall_loop (n : nat) (q : KQueue.queue) : outcome KQueue.queue :=
  if KQueue.q_empty q then Done q
  else
    match n with
    | O => Stuck
    | S n => '(_, q) ← KQueue.q_remhead q; killall_loop n q
    end.

Definition scheduler_killall : T unit :=
  _ ← assert_spl;
  s ← get;
  q ← global (runqueue s);
  q ← lift (killall_loop (Z.to_nat (KQueue.size q)) q);
  put (set_runqueue s (Some q) (orc s)).

Definition scheduler_shutdown : T unit :=
  _ ← scheduler_killall;
  _ ← assert_spl;
  s ← get;
  q ← global (runqueue s);
  _ ← lift (KQueue.q_destroy q);
  put (set_runqueue s None (orc s)).

(** [scheduler] once the run queue is not empty. *)
Definition scheduler_next : T ptr :=
  _ ← assert_spl;
  s ← get;
  q ← global (runqueue s);
  '(c, q) ← lift (KQueue.q_remhead q);
  _ ← put (set_runqueue s (Some q) (orc s));
  global c.

Definition make_runnable (p : ptr) : T Z :=
  _ ← assert_spl;
  s ← get;
  q ← global (runqueue s);
  '(result, q, o) ← lift (KQueue.q_addtail q p (orc s));
  _ ← put (set_runqueue s (Some q) o);
  mret result.

(** ** Start and end of the thread system *)

Definition thread_panic : T unit :=
  _ ← assert_spl;
  _ ← thread_killall;
  scheduler_killall.

Definition one_thread_only : T bool :=
  s1 ← splhigh;
  s ← get;
  let n := numthreads s in
  _ ← splx s1;
  mret (bool_decide (n = 1)).

(** The name "<boot/menu>". *)
Definition boot_name : list Z := [60; 98; 111; 111; 116; 47; 109; 101; 110; 117; 62].

Definition thread_bootstrap : T ptr :=
  s ← get;
  let '(a, o) := KArray.array_create (orc s) in
  _ ← put (set_sleepers s a o);
  match a with
  | None => panic
  | Some _ =>
      s ← get;
      let '(z, o) := KArray.array_create (orc s) in
      _ ← put (set_zombies s z o);
      match z with
      | None => panic
      | Some _ =>
          me ← thread_create boot_name;
          if bool_decide (me = NULL) then panic else
          _ ← modify (fun s => set_curthread s me);
          _ ← modify (fun s => set_numthreads s 1);
          mret me
      end
  end.

Definition thread_shutdown : T unit :=
  s ← get;
  _ ← global (sleepers s);
  _ ← global (zombies s);
  _ ← put (set_sleepers s None (orc s));
  modify (fun s => set_zombies s None (orc s)).

(** The kernel's globals at power-on, and what [boot] of [kern/main/main.c] does
    to those of the thread system; [dev_bootstrap] ends by enabling interrupts. *)
Definition power_on (o : oracle) : sys := mkSys ∅ NULL None None 0 None SPL_HIGH 0 0 o [].

Definition boot_threads : T unit :=
  _ ← scheduler_bootstrap;
  _ ← thread_bootstrap;
  _ ← spl0;
  mret tt.

(** ** [thread_fork] *)

(** How many 4096-byte stacks a 32-bit address space can hold. *)
Definition MAX_STACKS : Z := 1048576.

(** [kmalloc(STACK_SIZE)] *)
Definition kmalloc_stack : T bool :=
  ok ← kmalloc;
  s ← get;
  mret (ok && bool_decide (Z.of_nat (size (threads s)) <= MAX_STACKS)).

(** [kfree] of the thread structure, its name and its stack. *)
Definition thread_free (p : ptr) : T unit :=
  modify (fun s => set_threads s (delete p (threads s))).

(** The preallocations and [make_runnable], up to the first failure. *)
Definition fork_atomic (newguy : ptr) : T Z :=
  s ← get;
  a ← global (sleepers s);
  n1 ← lift (int_op (numthreads s + 1));
  '(result, a, o) ← lift (KArray.array_preallocate a n1 (orc s));
  _ ← put (set_sleepers s (Some a) o);
  if bool_decide (result ≠ 0) then mret result else
  s ← get;
  z ← global (zombies s);
  '(result, z, o) ← lift (KArray.array_preallocate z n1 (orc s));
  _ ← put (set_zombies s (Some z) o);
  if bool_decide (result ≠ 0) then mret result else
  result ← scheduler_preallocate n1;
  if bool_decide (result ≠ 0) then mret result else
  make_runnable newguy.

Definition thread_fork (name : list Z) : T ptr :=
  newguy ← thread_create name;
  if bool_decide (newguy = NULL) then fail ENOMEM else
  ok ← kmalloc_stack;
  if negb ok then _ ← thread_free newguy; fail ENOMEM else
  t ← tread newguy;
  _ ← twrite newguy (set_stack t (Some STACK_MAGIC));
  s ← get;
  cur ← tread (curthread s);
  _ ← (if bool_decide (t_cwd cur ≠ NULL) then
         _ ← external (VOP_INCREF (t_cwd cur));
         t ← tread newguy;
         twrite newguy (set_cwd t (t_cwd cur))
       else mret tt);
  spl ← splhigh;
  result ← fork_atomic newguy;
  if bool_decide (result = 0) then
    s ← get;
    n1 ← lift (int_op (numthreads s + 1));
    _ ← put (set_numthreads s n1);
    _ ← splx spl;
    mret newguy
  else
    _ ← splx spl;
    t ← tread newguy;
    _ ← (if bool_decide (t_cwd t ≠ NULL) then external (VOP_DECREF (t_cwd t)) else mret tt);
    _ ← thread_free newguy;
    fail result.

(** ** The context switch, on either side of [md_switch] *)

Definition check_stack (t : thread) : T unit :=
  match t_stack t with
  | None => mret tt
  | Some magic => massert (bool_decide (magic = STACK_MAGIC))
  end.

(** [mi_switch] up to the call of [scheduler]; the result tells whether there
    is a thread to switch away from. *)
Definition mi_switch_out (nextstate : threadstate) : T bool :=
  _ ← assert_spl;
  s ← get;
  if bool_decide (curthread s = NULL) then mret false else
  let cur := curthread s in
  t ← tread cur;
  _ ← check_stack t;
  _ ← modify (fun s => set_curthread s NULL);
  result ← match nextstate with
           | S_READY => make_runnable cur
           | S_SLEEP =>
               s ← get;
               a ← global (sleepers s);
               '(result, a, o) ← lift (KArray.array_add a cur (orc s));
               _ ← put (set_sleepers s (Some a) o);
               mret result
           | _ =>
               _ ← massert (bool_decide (nextstate = S_ZOMB));
               s ← get;
               z ← global (zombies s);
               '(result, z, o) ← lift (KArray.array_add z cur (orc s));
               _ ← put (set_zombies s (Some z) o);
               mret result
           end;
  _ ← massert (bool_decide (result = 0));
  mret true.

(** [curthread = next] and what [md_switch] of [arch/mips/mips/pcb.c] does to
    the globals that belong to a thread. *)
Definition md_switch_in (cur next : ptr) : T unit :=
  _ ← modify (fun s => set_curthread s next);
  if bool_decide (cur = next) then mret tt else
  s ← get;
  t ← tread cur;
  _ ← twrite cur (set_ininterrupt t (in_interrupt s));
  t ← tread next;
  modify (fun s => set_in_interrupt s (pcb_ininterrupt t)).

(** [mi_switch] after [md_switch] has come back to this thread. *)
Definition mi_switch_in : T unit :=
  _ ← exorcise;
  s ← get;
  t ← tread (curthread s);
  if bool_decide (t_vmspace t ≠ NULL) then external (as_activate (t_vmspace t)) else mret tt.

(** [thread_exit] up to [mi_switch(S_ZOMB)].  The line it prints first is in
    [sys__exit] of Syscall.v.  [as_destroy] and [VOP_DECREF] are entries of the
    record of calls to other parts of the kernel, taken to return without
    sleeping; what [as_destroy] does is [exit_space] of DumbVm.v. *)
Definition thread_exit_begin : T unit :=
  s ← get;
  let cur := curthread s in
  t ← tread cur;
  _ ← check_stack t;
  _ ← splhigh;
  _ ← (if bool_decide (t_vmspace t ≠ NULL) then
         _ ← twrite cur (set_vmspace t NULL);
         external (as_destroy (t_vmspace t))
       else mret tt);
  t ← tread cur;
  _ ← (if bool_decide (t_cwd t ≠ NULL) then
         _ ← external (VOP_DECREF (t_cwd t));
         twrite cur (set_cwd t NULL)
       else mret tt);
  s ← get;
  _ ← massert (bool_decide (numthreads s > 0));
  modify (fun s => set_numthreads s (numthreads s - 1)).

(** [thread_sleep] before and after [mi_switch(S_SLEEP)]. *)
Definition thread_sleep_begin (addr : ptr) : T unit :=
  s ← get;
  _ ← massert (bool_decide (in_interrupt s = 0));
  t ← tread (curthread s);
  twrite (curthread s) (set_sleepaddr t addr).

Definition thread_sleep_end : T unit :=
  s ← get;
  t ← tread (curthread s);
  twrite (curthread s) (set_sleepaddr t NULL).

(** [thread_yield] before [mi_switch(S_READY)]. *)
Definition thread_yield_begin : T Z :=
  spl ← splhigh;
  s ← get;
  _ ← massert (bool_decide (sleepers s ≠ None));
  mret spl.

(** ** Waking up *)

(** Take the thread at index [i] off [sleepers] and make it runnable. *)
Definition wake_at (a : KArray.array) (i : Z) (p : ptr) : T unit :=
  a ← lift (KArray.array_remove a i);
  _ ← modify (fun s => set_sleepers s (Some a) (orc s));
  result ← make_runnable p;
  massert (bool_decide (result = 0)).

(** The loops over [sleepers]; [n] bounds the turns by the number of sleepers
    at the start. *)
Fixpoint wakeup_loop (n : nat) (i : Z) (addr : ptr) : T unit :=
  s ← get;
  a ← global (sleepers s);
  if bool_decide (i < KArray.array_getnum a) then
    match n with
    | O => lift Stuck
    | S n =>
        c ← lift (KArray.array_getguy a i);
        p ← global c;
        t ← tread p;
        if bool_decide (t_sleepaddr t = addr) then
          _ ← wake_at a i p;
          wakeup_loop n i addr
        else wakeup_loop n (i + 1) addr
    end
  else mret tt.

Definition thread_wakeup (addr : ptr) : T unit :=
  _ ← assert_spl;
  s ← get;
  a ← global (sleepers s);
  wakeup_loop (Z.to_nat (KArray.array_getnum a)) 0 addr.

Fixpoint wakeup_one_loop (n : nat) (i : Z) (addr : ptr) : T unit :=
  s ← get;
  a ← global (sleepers s);
  if bool_decide (i < KArray.array_getnum a) then
    match n with
    | O => lift Stuck
    | S n =>
        c ← lift (KArray.array_getguy a i);
        p ← global c;
        t ← tread p;
        if bool_decide (t_sleepaddr t = addr) then
          wake_at a i p
        else wakeup_one_loop n (i + 1) addr
    end
  else mret tt.

Definition thread_wakeup_one (addr : ptr) : T unit :=
  _ ← assert_spl;
  s ← get;
  a ← global (sleepers s);
  wakeup_one_loop (Z.to_nat (KArray.array_getnum a)) 0 addr.

Fixpoint hassleepers_loop (n : nat) (i : Z) (addr : ptr) : T bool :=
  s ← get;
  a ← global (sleepers s);
  if bool_decide (i < KArray.array_getnum a) then
    match n with
    | O => lift Stuck
    | S n =>
        c ← lift (KArray.array_getguy a i);
        p ← global c;
        t ← tread p;
        if bool_decide (t_sleepaddr t = addr) then mret true
        else hassleepers_loop n (i + 1) addr
    end
  else mret false.

Definition thread_hassleepers (addr : ptr) : T bool :=
  _ ← assert_spl;
  s ← get;
  a ← global (sleepers s);
  hassleepers_loop (Z.to_nat (KArray.array_getnum a)) 0 addr.

End Thread.
