(* ===== verification/ThreadSpec.v ===== *)
(** * The thread system: lists, invariant, and what the operations do

    The run queue, the sleepers and the zombies as lists of threads; the
    invariant that every thread structure is in exactly one place; and the
    specification of each operation of [Thread] in those terms. *)

From S2P Require Import Prelude KArray KQueue Thread.

Module ThreadSpec.
Import Thread.
Implicit Types (s : sys) (p : ptr) (t : thread) (run sl zo : list ptr).

(** ** Rules for the accesses *)

Section rules.
Context (X : Prop).

Lemma wpp_global {A} (x : option A) a (Q : A -> sys -> Prop) E s :
  x = Some a -> Q a s -> wpp X (global x) Q E s.
Proof. by intros ->. Qed.

Lemma wpp_tread p t (Q : thread -> sys -> Prop) E s :
  threads s !! p = Some t -> Q t s -> wpp X (tread p) Q E s.
Proof. intros Hp HQ. unfold tread. wpp_steps. by eapply wpp_global. Qed.

Lemma wpp_twrite p t (Q : unit -> sys -> Prop) E s :
  Q tt (set_threads s (<[p := t]> (threads s))) -> wpp X (twrite p t) Q E s.
Proof. done. Qed.

Lemma wpp_splx n (Q : Z -> sys -> Prop) E s : Q (curspl s) (set_curspl s n) -> wpp X (splx n) Q E s.
Proof. done. Qed.

Lemma wpp_external c (Q : unit -> sys -> Prop) E s : Q tt (add_call s c) -> wpp X (external c) Q E s.
Proof. done. Qed.

Lemma wpp_assert_spl (Q : unit -> sys -> Prop) E s : curspl s > 0 -> Q tt s -> wpp X assert_spl Q E s.
Proof. intros Hs HQ. unfold assert_spl. wpp_steps. apply wpp_massert; [done|]. by rewrite bool_decide_eq_true_2. Qed.

Lemma wpp_assert {b : bool} (Q : unit -> sys -> Prop) E s : b = true -> Q tt s -> wpp X (massert b) Q E s.
Proof. intros -> HQ. by apply wpp_massert. Qed.

Lemma wpp_kmalloc (Q : bool -> sys -> Prop) E s :
  (forall b o, Q b (set_orc s o)) -> wpp X kmalloc Q E s.
Proof.
  intros HQ. unfold kmalloc. wpp_steps. destruct (kmalloc_ok (orc s)) as [ok o]. wpp_steps. apply HQ.
Qed.
End rules.

(** ** The lists *)

Record lists s run sl zo : Prop := {
  l_run : exists q, runqueue s = Some q /\ KQueue.wf q /\ KQueue.contents q = Some <$> run;
  l_sl : exists a, sleepers s = Some a /\ KArray.wf a /\ KArray.contents a = Some <$> sl;
  l_zo : exists a, zombies s = Some a /\ KArray.wf a /\ KArray.contents a = Some <$> zo
}.

(** Capacity of the run queue and of the list of sleepers. *)
Definition qcap s : Z := match runqueue s with Some q => KQueue.size q | None => 0 end.
Definition scap s : Z := match sleepers s with Some a => KArray.max a | None => 0 end.

(** The size of the lists is bounded by the memory for stacks. *)
Definition MAX_THREADS : Z := MAX_STACKS + 2.

Lemma contents_num a l : KArray.wf a -> KArray.contents a = Some <$> l -> KArray.num a = Z.of_nat (length l).
Proof. intros Hwf Hc. by rewrite <- (KArray.length_contents a Hwf), Hc, length_fmap. Qed.

Lemma contents_count q l : KQueue.wf q -> KQueue.contents q = Some <$> l -> KQueue.count q = Z.of_nat (length l).
Proof. intros Hwf Hc. by rewrite <- (KQueue.length_ring_contents q Hwf), Hc, length_fmap. Qed.

Definition sleepaddr s p : ptr := from_option t_sleepaddr NULL (threads s !! p).
Abbreviation waits s addr := (fun p => sleepaddr s p = addr).
Abbreviation elsewhere s addr := (fun p => sleepaddr s p ≠ addr).

Section specs.
Context (X : Prop).

Lemma wpp_make_runnable p s run sl zo (Q : Z -> sys -> Prop) E :
  lists s run sl zo -> curspl s > 0 -> Z.of_nat (length run) < MAX_THREADS ->
  (forall q o, let s' := set_runqueue s (Some q) o in
     lists s' (run ++ [p]) sl zo -> qcap s <= qcap s' -> Q 0 s') ->
  (forall o, let s' := set_runqueue s (runqueue s) o in
     lists s' run sl zo -> qcap s <= Z.of_nat (length run) + 1 -> Q ENOMEM s') ->
  wpp X (make_runnable p) Q E s.
Proof.
  intros [(q & Hq & Hwf & Hc) Hsl Hzo] Hspl Hlen HQ HE. unfold make_runnable. wpp_steps.
  apply wpp_assert_spl; [done|]. wpp_steps. eapply wpp_global; [done|]. wpp_steps.
  pose proof (contents_count q run Hwf Hc) as Hcnt. unfold MAX_THREADS, MAX_STACKS in *.
  destruct (KQueue.q_addtail_spec q p (orc s) Hwf) as (r & q' & o' & Hadd & Hwf' & Hsz & Hr); [lia|].
  eapply wpp_lift; [exact Hadd|]. wpp_steps. destruct Hr as [[-> Hc']|(-> & -> & Hfull & _)].
  - apply HQ; [|by unfold qcap; cbn; rewrite Hq]. split; [|done|done]. exists q'. split; [done|]. split; [done|].
    by rewrite Hc', Hc, fmap_app.
  - rewrite <- Hq. apply HE; [by split; [exists q|..]|]. unfold qcap. rewrite Hq. lia.
Qed.

Lemma wpp_scheduler_next p s run sl zo (Q : ptr -> sys -> Prop) E :
  lists s (p :: run) sl zo -> curspl s > 0 ->
  (forall q, let s' := set_runqueue s (Some q) (orc s) in
     lists s' run sl zo -> qcap s' = qcap s -> Q p s') ->
  wpp X scheduler_next Q E s.
Proof.
  intros [(q & Hq & Hwf & Hc) Hsl Hzo] Hspl HQ. unfold scheduler_next. wpp_steps.
  apply wpp_assert_spl; [done|]. wpp_steps. eapply wpp_global; [done|]. wpp_steps.
  pose proof (KQueue.q_remhead_spec q Hwf) as Hr. rewrite Hc in Hr. cbn in Hr.
  destruct Hr as (q' & Hrem & Hwf' & Hsz & Hc'). eapply wpp_lift; [exact Hrem|]. wpp_steps.
  apply wpp_global with p; [done|]. apply HQ; [|unfold qcap; cbn; by rewrite Hq].
  split; [|done|done]. by exists q'.
Qed.

Lemma scheduler_empty s run sl zo :
  lists s run sl zo -> exists q, runqueue s = Some q /\ KQueue.q_empty q = bool_decide (run = []).
Proof.
  intros [(q & Hq & Hwf & Hc) _ _]. exists q. split; [done|]. unfold KQueue.q_empty.
  pose proof (KQueue.count_cases q Hwf) as Hcc. rewrite (contents_count q run Hwf Hc) in Hcc.
  pose proof (KQueue.wf_nw q Hwf). pose proof (KQueue.wf_nr q Hwf). apply bool_decide_ext.
  destruct run; cbn in Hcc; case_decide; split; (done || lia).
Qed.
(** ** Waking up *)

(** The state with other lists. *)
Definition relisted s s' : Prop :=
  exists a q o, s' = set_runqueue (set_sleepers s (Some a) o) (Some q) o /\
    KArray.max a = scap s /\ qcap s <= KQueue.size q.

Lemma relisted_refl s run sl zo : lists s run sl zo -> relisted s s.
Proof.
  intros [(q & Hq & _) (a & Ha & _) _]. exists a, q, (orc s). unfold scap, qcap. rewrite Hq, Ha.
  split; [|done]. destruct s; cbn in *. by subst.
Qed.

Lemma relisted_trans s s1 s2 : relisted s s1 -> relisted s1 s2 -> relisted s s2.
Proof.
  intros (a & q & o & -> & Ha & Hq) (a' & q' & o' & -> & Ha' & Hq'). exists a', q', o'.
  split; [done|]. cbn in *. lia.
Qed.

Lemma relisted_sleepaddr s s' p : relisted s s' -> sleepaddr s' p = sleepaddr s p.
Proof. by intros (? & ? & ? & -> & _). Qed.

(** Taking the sleeper at [i] off the list and making it runnable. *)
Lemma wpp_wake i p s run sl zo a (Q : unit -> sys -> Prop) E :
  lists s run sl zo -> curspl s > 0 -> Z.of_nat (length run) < MAX_THREADS ->
  sl !! Z.to_nat i = Some p -> 0 <= i -> sleepers s = Some a ->
  (qcap s <= Z.of_nat (length run) + 1 -> X) ->
  (forall s', lists s' (run ++ [p]) (delete (Z.to_nat i) sl) zo -> relisted s s' -> Q tt s') ->
  wpp X (wake_at a i p) Q E s.
Proof.
  intros [Hrun (a0 & Ha0 & Hwf & Hc) Hzo] Hspl Hlen Hi Hi0 Ha HX HQ.
  rewrite Ha in Ha0. injection Ha0 as <-. unfold wake_at.
  pose proof (contents_num a sl Hwf Hc) as Hnum. apply lookup_lt_Some in Hi as Hlt.
  destruct (KArray.array_remove_spec a i Hwf) as (a' & Hrem & Hwf' & Hmax & _ & Hc'); [lia|].
  wpp_steps. eapply wpp_lift; [exact Hrem|]. wpp_steps.
  eapply (wpp_make_runnable p _ run (delete (Z.to_nat i) sl) zo); [|done|done| |].
  - split; [done| |done]. exists a'. split; [done|]. split; [done|]. by rewrite Hc', Hc, list_fmap_delete.
  - intros q o s' Hl Hcap. apply wpp_assert; [done|]. apply HQ; [done|].
    exists a', q, o. split; [done|]. split; [by unfold scap; rewrite Ha|done].
  - intros o s' _ Hfull. apply wpp_massert; [done|]. intros _. by apply HX.
Qed.

Lemma delete_middle {A} (l l' : list A) x : delete (length l) (l ++ x :: l') = l ++ l'.
Proof. induction l as [|y l IH]; [done|]. cbn. by f_equal. Qed.

(** Reading the sleeper the loops look at. *)
Lemma wpp_sleeper_at s run l1 p l2 zo a (f : ptr -> T unit) (Q : unit -> sys -> Prop) E :
  lists s run (l1 ++ p :: l2) zo -> sleepers s = Some a -> wpp X (f p) Q E s ->
  wpp X (c ← lift (KArray.array_getguy a (Z.of_nat (length l1))); p ← global c; f p) Q E s.
Proof.
  intros [_ (a0 & Ha0 & Hwf & Hc) _] Ha HQ. rewrite Ha in Ha0. injection Ha0 as <-.
  pose proof (contents_num a _ Hwf Hc) as Hnum. rewrite length_app in Hnum. cbn [length] in Hnum.
  destruct (KArray.array_getguy_spec a (Z.of_nat (length l1)) Hwf) as (c & Hget & Hci); [lia|].
  rewrite Nat2Z.id, Hc, list_lookup_fmap, list_lookup_middle in Hci by done. cbn in Hci. injection Hci as <-.
  wpp_steps. eapply wpp_lift; [exact Hget|]. wpp_steps. by apply wpp_global with p.
Qed.

Lemma wpp_wakeup_loop n addr l1 l2 s run zo (Q : unit -> sys -> Prop) E :
  lists s run (l1 ++ l2) zo -> curspl s > 0 -> Z.of_nat (length run + length l2) <= MAX_THREADS ->
  (forall p, p ∈ l2 -> is_Some (threads s !! p)) -> (length l2 <= n)%nat ->
  (qcap s <= Z.of_nat (length run + length (filter (waits s addr) l2)) -> X) ->
  (forall s', lists s' (run ++ filter (waits s addr) l2) (l1 ++ filter (elsewhere s addr) l2) zo ->
     relisted s s' -> Q tt s') ->
  wpp X (wakeup_loop n (Z.of_nat (length l1)) addr) Q E s.
Proof.
  revert n s run l1. induction l2 as [|p l2 IH]; intros n s run l1 Hl Hspl Hlen Hsl Hn HX HQ;
    pose proof Hl as [_ (a & Ha & Hwf & Hc) _]; pose proof (contents_num a _ Hwf Hc) as Hnum;
    rewrite length_app in Hnum; cbn [length] in *.
  - rewrite app_nil_r in Hl. destruct n; cbn [wakeup_loop]; wpp_steps; (eapply wpp_global; [done|]);
      unfold KArray.array_getnum; rewrite bool_decide_eq_false_2 by lia; wpp_steps;
      (apply HQ; [by rewrite !app_nil_r|by eapply relisted_refl]).
  - destruct n as [|n]; [lia|]. cbn [wakeup_loop]. wpp_steps. eapply wpp_global; [done|].
    unfold KArray.array_getnum. rewrite bool_decide_eq_true_2 by lia.
    eapply wpp_sleeper_at; [done|done|]. wpp_steps.
    destruct (Hsl p) as [t Ht]; [apply elem_of_cons; by left|].
    eapply wpp_tread; [done|].
    assert (sleepaddr s p = t_sleepaddr t) as Hsp by (unfold sleepaddr; by rewrite Ht).
    rewrite filter_cons in HX. rewrite (filter_cons (waits s addr)), (filter_cons (elsewhere s addr)) in HQ.
    case_bool_decide as Heq.
    + rewrite decide_True in HX, HQ by congruence. rewrite decide_False in HQ by (intros Hne; apply Hne; congruence).
      cbn [length] in HX. wpp_steps.
      eapply wpp_wake; [done|done|lia|rewrite Nat2Z.id; by apply list_lookup_middle|lia|done|intros; apply HX; lia|].
      rewrite Nat2Z.id, delete_middle. intros s1 Hl1 Hr1. cbn beta.
      assert (curspl s1 = curspl s /\ threads s1 = threads s /\ qcap s <= qcap s1) as (Hspl1 & Ht1 & Hq1)
        by (by destruct Hr1 as (?&?&?&->&_&?)).
      assert (forall q, sleepaddr s1 q = sleepaddr s q) as Hsa by (intros q; by apply relisted_sleepaddr).
      eapply IH; [exact Hl1|by rewrite Hspl1|rewrite length_app; cbn; lia| |lia| |].
      * intros q Hq. rewrite Ht1. apply Hsl, elem_of_cons. by right.
      * rewrite length_app. cbn [length]. rewrite (list_filter_iff (waits s1 addr) (waits s addr)) by (intros; by rewrite Hsa).
        intros. apply HX. lia.
      * intros s2. rewrite (list_filter_iff (waits s1 addr) (waits s addr)), (list_filter_iff (elsewhere s1 addr) (elsewhere s addr)) by (intros; by rewrite Hsa).
        rewrite <- app_assoc. intros Hl2 Hr2. apply HQ; [done|by eapply relisted_trans].
    + rewrite decide_False in HX, HQ by congruence. rewrite decide_True in HQ by congruence.
      replace (Z.of_nat (length l1) + 1) with (Z.of_nat (length (l1 ++ [p]))) by (rewrite length_app; cbn; lia).
      eapply IH; [by rewrite <- app_assoc|done|lia| |lia|done|].
      * intros q Hq. apply Hsl, elem_of_cons. by right.
      * intros s2. rewrite <- app_assoc. apply HQ.
Qed.

Lemma wpp_thread_wakeup addr s run sl zo (Q : unit -> sys -> Prop) E :
  lists s run sl zo -> curspl s > 0 -> Z.of_nat (length run + length sl) <= MAX_THREADS ->
  (forall p, p ∈ sl -> is_Some (threads s !! p)) ->
  (qcap s <= Z.of_nat (length run + length (filter (waits s addr) sl)) -> X) ->
  (forall s', lists s' (run ++ filter (waits s addr) sl) (filter (elsewhere s addr) sl) zo -> relisted s s' -> Q tt s') ->
  wpp X (thread_wakeup addr) Q E s.
Proof.
  intros Hl Hspl Hlen Hsl HX HQ. unfold thread_wakeup. wpp_steps. apply wpp_assert_spl; [done|]. wpp_steps.
  pose proof Hl as [_ (a & Ha & Hwf & Hc) _]. eapply wpp_global; [done|]. unfold KArray.array_getnum.
  rewrite (contents_num a sl Hwf Hc), Nat2Z.id.
  by apply (wpp_wakeup_loop (length sl) addr [] sl s run zo).
Qed.

Lemma wpp_wakeup_one_loop n addr l1 l2 s run zo (Q : unit -> sys -> Prop) E :
  lists s run (l1 ++ l2) zo -> curspl s > 0 -> Z.of_nat (length run + length l2) <= MAX_THREADS ->
  (forall p, p ∈ l2 -> is_Some (threads s !! p)) -> (length l2 <= n)%nat ->
  (list_find (waits s addr) l2 ≠ None -> qcap s <= Z.of_nat (length run) + 1 -> X) ->
  (list_find (waits s addr) l2 = None -> Q tt s) ->
  (forall k p s', list_find (waits s addr) l2 = Some (k, p) ->
     lists s' (run ++ [p]) (l1 ++ delete k l2) zo -> relisted s s' -> Q tt s') ->
  wpp X (wakeup_one_loop n (Z.of_nat (length l1)) addr) Q E s.
Proof.
  revert n l1. induction l2 as [|p l2 IH]; intros n l1 Hl Hspl Hlen Hsl Hn HX HN HQ;
    pose proof Hl as [_ (a & Ha & Hwf & Hc) _]; pose proof (contents_num a _ Hwf Hc) as Hnum;
    rewrite length_app in Hnum; cbn [length] in *.
  - destruct n; cbn [wakeup_one_loop]; wpp_steps; (eapply wpp_global; [done|]);
      unfold KArray.array_getnum; rewrite bool_decide_eq_false_2 by lia; wpp_steps; by apply HN.
  - destruct n as [|n]; [lia|]. cbn [wakeup_one_loop]. wpp_steps. eapply wpp_global; [done|].
    unfold KArray.array_getnum. rewrite bool_decide_eq_true_2 by lia.
    eapply wpp_sleeper_at; [done|done|]. wpp_steps.
    destruct (Hsl p) as [t Ht]; [apply elem_of_cons; by left|]. eapply wpp_tread; [done|].
    assert (sleepaddr s p = t_sleepaddr t) as Hsp by (unfold sleepaddr; by rewrite Ht).
    cbn [list_find] in HX, HN, HQ. case_bool_decide as Heq.
    + rewrite decide_True in HX, HN, HQ by congruence.
      eapply wpp_wake; [done|done|lia|rewrite Nat2Z.id; by apply list_lookup_middle|lia|done|by apply HX|].
      rewrite Nat2Z.id, delete_middle. intros s1 Hl1 Hr1. by apply (HQ 0%nat p).
    + rewrite decide_False in HX, HN, HQ by congruence.
      replace (Z.of_nat (length l1) + 1) with (Z.of_nat (length (l1 ++ [p]))) by (rewrite length_app; cbn; lia).
      eapply IH; [by rewrite <- app_assoc|done|lia| |lia| | |].
      * intros q Hq. apply Hsl, elem_of_cons. by right.
      * intros Hf. apply HX. by destruct (list_find _ l2).
      * intros Hf. apply HN. by rewrite Hf.
      * intros k q s2 Hf. rewrite <- app_assoc. apply (HQ (S k) q). by rewrite Hf.
Qed.

Lemma wpp_thread_wakeup_one addr s run sl zo (Q : unit -> sys -> Prop) E :
  lists s run sl zo -> curspl s > 0 -> Z.of_nat (length run + length sl) <= MAX_THREADS ->
  (forall p, p ∈ sl -> is_Some (threads s !! p)) ->
  (list_find (waits s addr) sl ≠ None -> qcap s <= Z.of_nat (length run) + 1 -> X) ->
  (list_find (waits s addr) sl = None -> Q tt s) ->
  (forall k p s', list_find (waits s addr) sl = Some (k, p) ->
     lists s' (run ++ [p]) (delete k sl) zo -> relisted s s' -> Q tt s') ->
  wpp X (thread_wakeup_one addr) Q E s.
Proof.
  intros Hl Hspl Hlen Hsl HX HN HQ. unfold thread_wakeup_one. wpp_steps. apply wpp_assert_spl; [done|]. wpp_steps.
  pose proof Hl as [_ (a & Ha & Hwf & Hc) _]. eapply wpp_global; [done|]. unfold KArray.array_getnum.
  rewrite (contents_num a sl Hwf Hc), Nat2Z.id.
  by apply (wpp_wakeup_one_loop (length sl) addr [] sl s run zo).
Qed.

Lemma wpp_thread_hassleepers addr s run sl zo (Q : bool -> sys -> Prop) E :
  lists s run sl zo -> curspl s > 0 -> (forall p, p ∈ sl -> is_Some (threads s !! p)) ->
  Q (bool_decide (filter (waits s addr) sl ≠ [])) s ->
  wpp X (thread_hassleepers addr) Q E s.
Proof.
  intros Hl Hspl Hsl HQ. unfold thread_hassleepers. wpp_steps. apply wpp_assert_spl; [done|]. wpp_steps.
  pose proof Hl as [_ (a & Ha & Hwf & Hc) _]. eapply wpp_global; [done|]. unfold KArray.array_getnum.
  rewrite (contents_num a sl Hwf Hc), Nat2Z.id.
  enough (forall l2 l1, sl = l1 ++ l2 -> filter (waits s addr) l1 = [] ->
    wpp X (hassleepers_loop (length l2) (Z.of_nat (length l1)) addr) Q E s) as H by (by apply (H sl [])).
  induction l2 as [|p l2 IH]; intros l1 -> Hno; pose proof (contents_num a _ Hwf Hc) as Hnum;
    rewrite length_app in Hnum; cbn [length hassleepers_loop] in *; wpp_steps; (eapply wpp_global; [done|]);
    unfold KArray.array_getnum.
  - rewrite bool_decide_eq_false_2 by lia. wpp_steps. rewrite app_nil_r, Hno in HQ. done.
  - rewrite bool_decide_eq_true_2 by lia.
    destruct (KArray.array_getguy_spec a (Z.of_nat (length l1)) Hwf) as (c & Hget & Hci); [lia|].
    rewrite Nat2Z.id, Hc, list_lookup_fmap, list_lookup_middle in Hci by done. injection Hci as <-.
    wpp_steps. eapply wpp_lift; [exact Hget|]. wpp_steps. apply wpp_global with p; [done|]. wpp_steps.
    destruct (Hsl p) as [t Ht]; [apply elem_of_app; right; apply elem_of_cons; by left|]. eapply wpp_tread; [done|].
    assert (sleepaddr s p = t_sleepaddr t) as Hsp by (unfold sleepaddr; by rewrite Ht).
    destruct (decide (t_sleepaddr t = addr)) as [Heq|Heq].
    + rewrite (bool_decide_eq_true_2 (t_sleepaddr t = addr)) by done. wpp_steps.
      rewrite bool_decide_eq_true_2 in HQ; [done|].
      rewrite filter_app, filter_cons, decide_True by congruence. by destruct (filter _ l1).
    + rewrite (bool_decide_eq_false_2 (t_sleepaddr t = addr)) by done. replace (Z.of_nat (length l1) + 1) with (Z.of_nat (length (l1 ++ [p]))) by (rewrite length_app; cbn; lia).
      apply IH; [by rewrite <- app_assoc|]. rewrite filter_app, Hno, filter_cons, decide_False by congruence. done.
Qed.

(** ** Leaving the processor *)

(** The lists with [c] put where [mi_switch(ns)] puts it. *)
Definition placed (ns : threadstate) (c : ptr) (l : list ptr * list ptr * list ptr) : list ptr * list ptr * list ptr :=
  let '(run, sl, zo) := l in
  match ns with
  | S_READY => (run ++ [c], sl, zo)
  | S_SLEEP => (run, sl ++ [c], zo)
  | _ => (run, sl, zo ++ [c])
  end.

(** Everything but the lists and [curthread] is as before. *)
Definition switched_out s s' : Prop :=
  exists a z q o, s' = mkSys (threads s) NULL a z (numthreads s) q (curspl s) (in_interrupt s) (lbolt_counter s) o (calls s) /\
    qcap s <= qcap s' /\ scap s <= scap s'.

Definition stack_ok t : Prop := t_stack t = None \/ t_stack t = Some STACK_MAGIC.

Lemma wpp_check_stack t (Q : unit -> sys -> Prop) E s : stack_ok t -> Q tt s -> wpp X (check_stack t) Q E s.
Proof.
  unfold check_stack. intros [->| ->] HQ; [by wpp_steps|]. by apply wpp_assert.
Qed.

Lemma wpp_mi_switch_out ns c t s run sl zo (Q : bool -> sys -> Prop) E :
  lists s run sl zo -> curspl s > 0 -> curthread s = c -> c ≠ NULL -> threads s !! c = Some t -> stack_ok t ->
  ns ≠ S_RUN ->
  Z.of_nat (length run + length sl + length zo) < MAX_THREADS ->
  (match ns with
   | S_READY => qcap s <= Z.of_nat (length run) + 1
   | S_SLEEP => scap s <= Z.of_nat (length sl)
   | _ => True
   end -> X) ->
  (forall s', let l := placed ns c (run, sl, zo) in
     lists s' l.1.1 l.1.2 l.2 -> switched_out s s' -> Q true s') ->
  wpp X (mi_switch_out ns) Q E s.
Proof.
  intros Hl Hspl Hc Hnn Ht Hst Hns Hlen HX HQ. unfold mi_switch_out. wpp_steps. apply wpp_assert_spl; [done|].
  wpp_steps. rewrite bool_decide_eq_false_2, Hc by congruence. wpp_steps. eapply wpp_tread; [done|].
  wpp_steps. apply wpp_check_stack; [done|]. wpp_steps. pose proof Hl as [Hrun (a & Ha & Hwfa & Hca) (z & Hz & Hwfz & Hcz)].
  unfold MAX_THREADS, MAX_STACKS in *.
  destruct ns; [done| | |]; cbn zeta in HQ; cbn [placed fst snd] in HQ.
  - apply (wpp_make_runnable c _ run sl zo); [by destruct Hl|done|unfold MAX_THREADS, MAX_STACKS; lia| |].
    + intros q o s' Hl' Hcap. wpp_steps. apply wpp_assert; [done|]. wpp_steps. apply HQ; [done|].
      by exists (sleepers s), (zombies s), (Some q), o.
    + intros o s' _ Hfull. wpp_steps. apply wpp_massert; [done|]. intros _. by apply HX.
  - wpp_steps. eapply wpp_global; [done|]. wpp_steps. pose proof (contents_num a sl Hwfa Hca).
    destruct (KArray.array_add_spec a c (orc s) Hwfa) as (r & a' & o' & Hadd & Hwf' & Hmax & Hr); [lia|].
    eapply wpp_lift; [exact Hadd|]. wpp_steps. destruct Hr as [[-> Hc']|(-> & -> & Hfull & _)].
    + apply wpp_assert; [done|]. wpp_steps. apply HQ.
      * split; [done| |by exists z]. exists a'. split; [done|]. split; [done|]. by rewrite Hc', Hca, fmap_app.
      * exists (Some a'), (zombies s), (runqueue s), o'. split; [done|]. unfold qcap, scap. cbn. rewrite Ha. lia.
    + apply wpp_massert; [done|]. intros _. apply HX. unfold scap. rewrite Ha. lia.
  - wpp_steps. apply wpp_assert; [done|]. wpp_steps. eapply wpp_global; [done|]. wpp_steps.
    pose proof (contents_num z zo Hwfz Hcz).
    destruct (KArray.array_add_spec z c (orc s) Hwfz) as (r & z' & o' & Hadd & Hwf' & Hmax & Hr); [lia|].
    eapply wpp_lift; [exact Hadd|]. wpp_steps. destruct Hr as [[-> Hc']|(-> & -> & Hfull & _)].
    + apply wpp_assert; [done|]. wpp_steps. apply HQ.
      * split; [done|by exists a|]. exists z'. split; [done|]. split; [done|]. by rewrite Hc', Hcz, fmap_app.
      * exists (sleepers s), (Some z'), (runqueue s), o'. split; [done|]. by unfold qcap, scap.
    + apply wpp_massert; [done|]. intros _. by apply HX.
Qed.

(** ** Burying the dead *)

Definition dead t : Prop := t_vmspace t = NULL /\ t_cwd t = NULL.

Definition exorcised s s' (zo : list ptr) : Prop :=
  exists m z o, s' = set_zombies (set_threads s m) (Some z) o /\
    forall p, m !! p = if decide (p ∈ zo) then None else threads s !! p.

Lemma wpp_exorcise_loop l1 l2 s a (Q : unit -> sys -> Prop) E :
  zombies s = Some a -> KArray.wf a -> KArray.contents a = Some <$> (l1 ++ l2) -> NoDup l2 ->
  curthread s ∉ l2 -> (forall p, p ∈ l2 -> exists t, threads s !! p = Some t /\ dead t) ->
  (forall m, (forall p, m !! p = if decide (p ∈ l2) then None else threads s !! p) -> Q tt (set_threads s m)) ->
  wpp X (exorcise_loop (length l2) (Z.of_nat (length l1))) Q E s.
Proof.
  revert l1 s. induction l2 as [|p l2 IH]; intros l1 s Ha Hwf Hc Hnd Hcur Hdead HQ; cbn [length exorcise_loop]; wpp_steps.
  { specialize (HQ (threads s)). destruct s; apply HQ. intros p. by rewrite decide_False by apply not_elem_of_nil. }
  pose proof (contents_num a _ Hwf Hc) as Hnum. rewrite length_app in Hnum. cbn [length] in Hnum.
  eapply wpp_global; [done|]. wpp_steps.
  destruct (KArray.array_getguy_spec a (Z.of_nat (length l1)) Hwf) as (c & Hget & Hci); [lia|].
  rewrite Nat2Z.id, Hc, list_lookup_fmap, list_lookup_middle in Hci by done. injection Hci as <-.
  eapply wpp_lift; [exact Hget|]. wpp_steps. apply wpp_global with p; [done|]. wpp_steps.
  apply NoDup_cons in Hnd as [Hp Hnd]. apply not_elem_of_cons in Hcur as [Hcp Hcur].
  apply wpp_assert; [by rewrite bool_decide_eq_true_2|]. wpp_steps. unfold thread_destroy. wpp_steps.
  apply wpp_assert; [by rewrite bool_decide_eq_true_2|]. wpp_steps.
  destruct (Hdead p) as (t & Ht & Hv & Hcw); [apply elem_of_cons; by left|]. eapply wpp_tread; [done|]. wpp_steps.
  apply wpp_assert; [by rewrite bool_decide_eq_true_2|]. wpp_steps.
  apply wpp_assert; [by rewrite bool_decide_eq_true_2|]. wpp_steps.
  replace (Z.of_nat (length l1) + 1) with (Z.of_nat (length (l1 ++ [p]))) by (rewrite length_app; cbn; lia).
  apply IH; [done|done|by rewrite <- app_assoc|done|done| |].
  - intros q Hq. destruct (Hdead q) as (t' & Ht' & Hd); [apply elem_of_cons; by right|].
    exists t'. split; [|done]. cbn. by rewrite lookup_delete_ne by (by intros ->).
  - intros m Hm. apply (HQ m). intros q. rewrite Hm. cbn. destruct (decide (q = p)) as [->|Hne].
    + rewrite (decide_True (P := p ∈ p :: l2)) by (apply elem_of_cons; by left). rewrite lookup_delete_eq.
      by case_decide.
    + rewrite lookup_delete_ne by done. destruct (decide (q ∈ l2)).
      * by rewrite decide_True by (apply elem_of_cons; by right).
      * by rewrite decide_False by (apply not_elem_of_cons; by split).
Qed.

Lemma wpp_exorcise s run sl zo (Q : unit -> sys -> Prop) E :
  lists s run sl zo -> curspl s > 0 -> NoDup zo -> curthread s ∉ zo ->
  (forall p, p ∈ zo -> exists t, threads s !! p = Some t /\ dead t) ->
  (forall s', lists s' run sl [] -> exorcised s s' zo -> Q tt s') ->
  wpp X exorcise Q E s.
Proof.
  intros [Hrun Hsl (z & Hz & Hwf & Hc)] Hspl Hnd Hcur Hdead HQ. unfold exorcise. wpp_steps.
  apply wpp_assert_spl; [done|]. wpp_steps. eapply wpp_global; [done|]. wpp_steps. unfold KArray.array_getnum.
  rewrite (contents_num z zo Hwf Hc), Nat2Z.id.
  apply (wpp_exorcise_loop [] zo s z); [done..|]. intros m Hm. wpp_steps. apply wpp_global with z; [done|]. wpp_steps.
  pose proof (contents_num z zo Hwf Hc) as Hnum.
  destruct (KArray.array_setsize_shrink z 0 (orc s) Hwf) as (z' & Hset & Hwf' & _ & Hc'); [lia|].
  eapply wpp_lift; [exact Hset|]. wpp_steps. apply wpp_assert; [done|]. apply HQ.
  - split; [done|done|]. exists z'. split; [done|]. by split.
  - by exists m, z', (orc s).
Qed.

(** ** The invariant *)

Definition cur_list s : list ptr := if decide (curthread s = NULL) then [] else [curthread s].

(** Every thread structure is the current thread or on one of the lists, and
    only once. *)
Record part s run sl zo : Prop := {
  pt_nodup : NoDup (cur_list s ++ run ++ sl ++ zo);
  pt_dom : forall p, is_Some (threads s !! p) <-> p ∈ cur_list s ++ run ++ sl ++ zo;
  pt_null : threads s !! NULL = None;
  pt_dead : forall p t, p ∈ zo -> threads s !! p = Some t -> dead t;
  pt_stack : forall p t, threads s !! p = Some t -> stack_ok t;
  pt_size : Z.of_nat (size (threads s)) <= MAX_STACKS + 1
}.

(** [numthreads] counts the threads that are not zombies.  The ring of the run
    queue has at least as many cells as there are threads, one of which a ring
    keeps empty, so it holds all threads but one; when there is more than one
    thread, the array of sleepers has a place for each.  Nothing is said of
    places for zombies, whose array [exorcise] frees. *)
Record counted s run sl : Prop := {
  ct_num : numthreads s = Z.of_nat (length (cur_list s ++ run ++ sl));
  ct_run : numthreads s <= qcap s;
  ct_sl : numthreads s <= 1 \/ numthreads s <= scap s
}.

Record inv s run sl zo : Prop := {
  i_lists : lists s run sl zo;
  i_part : part s run sl zo;
  i_count : counted s run sl
}.

Lemma part_length s run sl zo :
  part s run sl zo -> Z.of_nat (length (cur_list s ++ run ++ sl ++ zo)) <= MAX_STACKS + 1.
Proof.
  intros Hp. pose proof (pt_size _ _ _ _ Hp). etransitivity; [|done]. apply inj_le.
  rewrite <- size_dom. rewrite <- (size_list_to_set (C := gset ptr)) by apply Hp.
  apply subseteq_size. intros p Hp'. apply elem_of_list_to_set, (pt_dom _ _ _ _ Hp) in Hp'. by apply elem_of_dom.
Qed.

Lemma part_lengths s run sl zo :
  part s run sl zo -> Z.of_nat (length run + length sl + length zo) < MAX_THREADS.
Proof.
  intros Hp. pose proof (part_length _ _ _ _ Hp) as H. rewrite !length_app in H. unfold MAX_THREADS. lia.
Qed.

Lemma part_sl s run sl zo p : part s run sl zo -> p ∈ sl -> is_Some (threads s !! p).
Proof. intros Hp Hin. apply (pt_dom _ _ _ _ Hp). rewrite !elem_of_app. auto. Qed.

(** ** [thread_fork] *)

Definition relisted3 s s' : Prop :=
  exists a z q o, s' = mkSys (threads s) (curthread s) a z (numthreads s) q (curspl s) (in_interrupt s) (lbolt_counter s) o (calls s).

Lemma wpp_fork_atomic p s run sl zo (Q : Z -> sys -> Prop) E :
  lists s run sl zo -> curspl s > 0 -> 0 <= numthreads s < MAX_THREADS ->
  Z.of_nat (length run) < MAX_THREADS ->
  (forall s', relisted3 s s' -> lists s' (run ++ [p]) sl zo ->
     numthreads s + 1 <= qcap s' -> numthreads s + 1 <= scap s' -> Q 0 s') ->
  (forall s', relisted3 s s' -> lists s' run sl zo -> qcap s <= qcap s' -> scap s <= scap s' -> Q ENOMEM s') ->
  wpp X (fork_atomic p) Q E s.
Proof.
  intros [(q & Hq & Hwfq & Hcq) (a & Ha & Hwfa & Hca) (z & Hz & Hwfz & Hcz)] Hspl Hnum Hlen HQ HE.
  unfold fork_atomic, MAX_THREADS, MAX_STACKS in *.
  wpp_steps. eapply wpp_global; [done|]. wpp_steps.
  eapply wpp_lift; [apply int_op_ok; unfold INT_MIN, INT_MAX; lia|]. wpp_steps.
  destruct (KArray.array_preallocate_spec a (numthreads s + 1) (orc s) Hwfa) as (r & a' & o1 & Hpre & _ & Hr); [lia|].
  eapply wpp_lift; [exact Hpre|]. wpp_steps. destruct ((kmalloc_ok (orc s)).1).
  2:{ destruct Hr as [-> ->]. wpp_steps. apply HE; [by eexists _, _, _, _| |done|unfold scap; cbn; by rewrite Ha].
      split; [by exists q|by exists a|by exists z]. }
  destruct Hr as (-> & Hwfa' & Hna & Hma & Hmm & Hca'). rewrite Hca in Hca'. change (bool_decide (0 ≠ 0)) with false. wpp_steps.
  eapply wpp_global; [done|]. wpp_steps.
  destruct (KArray.array_preallocate_spec z (numthreads s + 1) o1 Hwfz) as (r & z' & o2 & Hpre2 & _ & Hr); [lia|].
  eapply wpp_lift; [exact Hpre2|]. wpp_steps.
  destruct ((kmalloc_ok o1).1).
  2:{ destruct Hr as [-> ->]. wpp_steps. apply HE; [by eexists _, _, _, _| |done|unfold scap; cbn; by rewrite Ha].
      split; [by exists q|by exists a'|by exists z]. }
  destruct Hr as (-> & Hwfz' & Hnz & Hmz & _ & Hcz'). rewrite Hcz in Hcz'. change (bool_decide (0 ≠ 0)) with false. wpp_steps.
  unfold scheduler_preallocate. wpp_steps. apply wpp_assert_spl; [done|]. wpp_steps. eapply wpp_global; [done|].
  destruct (KQueue.q_preallocate_spec q (numthreads s + 1) o2 Hwfq) as (r & q' & o3 & Hpre3 & Hwfq' & Hsz & Hcq' & Hr); [lia|].
  wpp_steps. eapply wpp_lift; [exact Hpre3|]. wpp_steps. rewrite Hcq in Hcq'.
  assert (lists (mkSys (threads s) (curthread s) (Some a') (Some z') (numthreads s) (Some q') (curspl s)
    (in_interrupt s) (lbolt_counter s) o3 (calls s)) run sl zo) as Hl3 by (split; [by exists q'|by exists a'|by exists z']).
  destruct Hr as [[-> Hr]|(-> & -> & _)].
  2:{ wpp_steps. apply HE; [by eexists _, _, _, _|done|unfold qcap; cbn; by rewrite Hq|unfold scap; cbn; by rewrite Ha]. }
  change (bool_decide (0 ≠ 0)) with false. wpp_steps. eapply wpp_make_runnable; [exact Hl3|done|unfold MAX_THREADS, MAX_STACKS; lia| |].
  - intros q4 o4 s' Hl4 Hcap. apply HQ; [by eexists _, _, _, _|done| |done]. cbn in Hcap. cbn. lia.
  - intros o4 s' Hl4 _. apply HE; [by eexists _, _, _, _|done|unfold qcap; cbn; by rewrite Hq|unfold scap; cbn; by rewrite Ha].
Qed.

(** The new thread, made by the current thread [tc]. *)
Definition newborn (name : list Z) (tc : thread) : thread := mkThread 0 name NULL (Some STACK_MAGIC) NULL (t_cwd tc).

(** The call made for the inherited directory. *)
Definition inherits (c : ptr -> call) (tc : thread) : list call :=
  if decide (t_cwd tc = NULL) then [] else [c (t_cwd tc)].

Record forked name tc s s' (p : ptr) : Prop := {
  fk_fresh : threads s !! p = None;
  fk_null : p ≠ NULL;
  fk_threads : threads s' = <[p := newborn name tc]> (threads s);
  fk_cur : curthread s' = curthread s;
  fk_num : numthreads s' = numthreads s + 1;
  fk_spl : curspl s' = curspl s;
  fk_intr : in_interrupt s' = in_interrupt s;
  fk_clock : lbolt_counter s' = lbolt_counter s;
  fk_calls : calls s' = calls s ++ inherits VOP_INCREF tc
}.

Record unforked tc s s' : Prop := {
  uf_threads : threads s' = threads s;
  uf_cur : curthread s' = curthread s;
  uf_num : numthreads s' = numthreads s;
  uf_spl : curspl s' = curspl s;
  uf_intr : in_interrupt s' = in_interrupt s;
  uf_clock : lbolt_counter s' = lbolt_counter s;
  uf_calls : calls s' = calls s \/ calls s' = calls s ++ inherits VOP_INCREF tc ++ inherits VOP_DECREF tc
}.

Lemma lists_frame s s' run sl zo :
  lists s run sl zo -> runqueue s' = runqueue s -> sleepers s' = sleepers s -> zombies s' = zombies s ->
  lists s' run sl zo.
Proof. intros [Hr Hs Hz] Hr' Hs' Hz'. split; [by rewrite Hr'|by rewrite Hs'|by rewrite Hz']. Qed.

Lemma part_frame s s' run sl zo :
  part s run sl zo -> threads s' = threads s -> curthread s' = curthread s -> part s' run sl zo.
Proof.
  intros [] Ht Hc. assert (cur_list s' = cur_list s) as Hcl by (unfold cur_list; by rewrite Hc).
  split; rewrite ?Ht, ?Hcl; done.
Qed.

Lemma counted_frame s s' run sl :
  counted s run sl -> curthread s' = curthread s -> numthreads s' = numthreads s ->
  qcap s <= qcap s' -> scap s <= scap s' -> counted s' run sl.
Proof.
  intros [] Hc Hn Hq Hs. assert (cur_list s' = cur_list s) as Hcl by (unfold cur_list; by rewrite Hc).
  split; rewrite ?Hcl; lia.
Qed.

(** A new thread at the end of the run queue. *)
Lemma part_fork s s' p t run sl zo :
  part s run sl zo -> threads s !! p = None -> p ≠ NULL -> stack_ok t ->
  threads s' = <[p := t]> (threads s) -> curthread s' = curthread s ->
  Z.of_nat (size (threads s)) <= MAX_STACKS -> part s' (run ++ [p]) sl zo.
Proof.
  intros [] Hfresh Hnn Hst Ht Hc Hsz. assert (cur_list s' = cur_list s) as Hcl by (unfold cur_list; by rewrite Hc).
  assert (cur_list s ++ (run ++ [p]) ++ sl ++ zo ≡ₚ p :: cur_list s ++ run ++ sl ++ zo) as Hperm by solve_Permutation.
  split; rewrite ?Ht, ?Hcl.
  - rewrite Hperm. apply NoDup_cons. split; [|done]. intros Hin%pt_dom0. by destruct Hin; congruence.
  - intros q. rewrite Hperm, elem_of_cons, <- pt_dom0. destruct (decide (q = p)) as [->|Hne].
    + rewrite lookup_insert_eq. naive_solver.
    + rewrite lookup_insert_ne by done. naive_solver.
  - by rewrite lookup_insert_ne.
  - intros q t' Hq. destruct (decide (q = p)) as [->|Hne].
    + exfalso. destruct (proj2 (pt_dom0 p)) as [t0 H0]; [rewrite !elem_of_app; auto|congruence].
    + rewrite lookup_insert_ne by done. by apply pt_dead0.
  - intros q t'. destruct (decide (q = p)) as [->|Hne]; [rewrite lookup_insert_eq; by intros [= <-]|].
    rewrite lookup_insert_ne by done. apply pt_stack0.
  - rewrite map_size_insert_None by done. lia.
Qed.

Lemma wpp_thread_create name s (Q : ptr -> sys -> Prop) E :
  (forall o, Q NULL (set_orc s o)) ->
  (forall p o, threads s !! p = None -> p ≠ NULL ->
     Q p (set_threads (set_orc s o) (<[p := mkThread 0 name NULL None NULL NULL]> (threads s)))) ->
  wpp X (thread_create name) Q E s.
Proof.
  intros HN HQ. unfold thread_create. wpp_steps. apply wpp_kmalloc. intros b1 o1.
  destruct b1; cbn [negb]; wpp_steps; [|apply HN].
  apply wpp_kmalloc. intros b2 o2. destruct b2; cbn [negb]; wpp_steps; [|apply HN].
  apply wpp_twrite. wpp_steps. cbn [threads set_orc].
  pose proof (is_fresh (dom (threads s) ∪ {[NULL]})) as Hf. set (p := fresh _) in *.
  apply not_elem_of_union in Hf as [Hf%not_elem_of_dom Hn%not_elem_of_singleton]. by apply HQ.
Qed.

Lemma wpp_kmalloc_stack s (Q : bool -> sys -> Prop) E :
  (forall o, Q false (set_orc s o)) ->
  (forall o, Z.of_nat (size (threads s)) <= MAX_STACKS -> Q true (set_orc s o)) ->
  wpp X kmalloc_stack Q E s.
Proof.
  intros HN HQ. unfold kmalloc_stack. wpp_steps. apply wpp_kmalloc. intros b o. wpp_steps.
  destruct b; cbn [andb]; [|apply HN]. case_bool_decide; [by apply HQ|apply HN].
Qed.

(** What the failing paths put back. *)
Lemma unfork_inv s s' tc run sl zo :
  inv s run sl zo -> lists s' run sl zo -> unforked tc s s' -> qcap s <= qcap s' -> scap s <= scap s' ->
  inv s' run sl zo.
Proof.
  intros [Hl Hp Hct] Hl' [] Hq Hs. split; [done|by eapply part_frame|by eapply counted_frame].
Qed.

Lemma delete_insert_fresh (m : gmap ptr thread) p t : m !! p = None -> delete p (<[p := t]> m) = m.
Proof. intros Hp. rewrite delete_insert_id; done. Qed.

(** From the point where the new thread's structure is complete. *)
Lemma wpp_fork_end name s s1 p run sl zo tc (Q : ptr -> sys -> Prop) E :
  inv s run sl zo -> threads s !! p = None -> p ≠ NULL -> Z.of_nat (size (threads s)) <= MAX_STACKS ->
  (exists o, s1 = mkSys (<[p := newborn name tc]> (threads s)) (curthread s) (sleepers s) (zombies s) (numthreads s)
     (runqueue s) (curspl s) (in_interrupt s) (lbolt_counter s) o (calls s ++ inherits VOP_INCREF tc)) ->
  (forall p s', inv s' (run ++ [p]) sl zo -> forked name tc s s' p -> Q p s') ->
  (forall s', inv s' run sl zo -> unforked tc s s' -> E ENOMEM s') ->
  wpp X (spl ← splhigh;
    result ← fork_atomic p;
    if bool_decide (result = 0) then
      s ← get; n1 ← lift (int_op (numthreads s + 1)); _ ← put (set_numthreads s n1); _ ← splx spl; mret p
    else
      _ ← splx spl; t ← tread p;
      _ ← (if bool_decide (t_cwd t ≠ NULL) then external (VOP_DECREF (t_cwd t)) else mret tt);
      _ ← thread_free p; fail result) Q E s1.
Proof.
  intros Hinv Hfresh Hnn Hsz [o ->] HQ HE. pose proof Hinv as [Hl Hp Hct].
  pose proof (part_length _ _ _ _ Hp) as Hlen. rewrite !length_app in Hlen.
  pose proof (ct_num _ _ _ Hct) as Hnum. rewrite !length_app in Hnum.
  wpp_steps. apply wpp_splx. wpp_steps.
  eapply wpp_fork_atomic; [by eapply lists_frame|done|cbn; unfold MAX_THREADS; lia|unfold MAX_THREADS; lia| |].
  - intros s2 (a & z & q & o2 & ->) Hl2 Hq Hs. cbn in Hq, Hs.
    change (bool_decide (0 = 0)) with true. wpp_steps. cbn [numthreads set_curspl].
    eapply wpp_lift; [apply int_op_ok; unfold INT_MIN, INT_MAX, MAX_STACKS in *; lia|]. wpp_steps.
    apply wpp_splx. wpp_steps. apply HQ; [|by split].
    split; [by eapply lists_frame|eapply part_fork; try done; by right|].
    split; [|unfold qcap in *; cbn in *; lia|right; unfold scap in *; cbn in *; lia].
    change (cur_list _) with (cur_list s). rewrite !length_app. cbn [length numthreads set_numthreads set_curspl]. lia.
  - intros s2 (a & z & q & o2 & ->) Hl2 Hq Hs.
    change (bool_decide (ENOMEM = 0)) with false. wpp_steps. apply wpp_splx. wpp_steps.
    eapply wpp_tread; [apply lookup_insert_eq|]. wpp_steps. cbn [t_cwd newborn].
    assert (forall s', threads s' = threads s -> curthread s' = curthread s -> numthreads s' = numthreads s ->
      curspl s' = curspl s -> in_interrupt s' = in_interrupt s -> lbolt_counter s' = lbolt_counter s ->
      lists s' run sl zo -> qcap s <= qcap s' -> scap s <= scap s' ->
      calls s' = (calls s ++ inherits VOP_INCREF tc) ++ inherits VOP_DECREF tc -> E ENOMEM s') as Hend.
    { intros s' ???????? Hss Hcs. assert (unforked tc s s') by (split; try done; right; by rewrite Hcs, <- app_assoc).
      apply HE; [|done]. by eapply unfork_inv. }
    case_bool_decide as Hcwd.
    + assert (inherits VOP_DECREF tc = [VOP_DECREF (t_cwd tc)]) as Hin by (unfold inherits; by rewrite decide_False).
      apply wpp_external. wpp_steps. unfold thread_free. wpp_steps.
      by apply Hend; try done; [by apply delete_insert_fresh|by eapply lists_frame|rewrite Hin].
    + assert (inherits VOP_DECREF tc = []) as Hin by (unfold inherits; by destruct (decide (t_cwd tc = NULL))).
      wpp_steps. unfold thread_free. wpp_steps.
      by apply Hend; try done; [by apply delete_insert_fresh|by eapply lists_frame|rewrite Hin, app_nil_r].
Qed.

Lemma wpp_thread_fork name s run sl zo tc (Q : ptr -> sys -> Prop) E :
  inv s run sl zo -> curthread s ≠ NULL -> threads s !! curthread s = Some tc ->
  (forall p s', inv s' (run ++ [p]) sl zo -> forked name tc s s' p -> Q p s') ->
  (forall s', inv s' run sl zo -> unforked tc s s' -> E ENOMEM s') ->
  wpp X (thread_fork name) Q E s.
Proof.
  intros Hinv Hcur Htc HQ HE. pose proof Hinv as [Hl Hp Hct]. unfold thread_fork.
  assert (forall s', threads s' = threads s -> curthread s' = curthread s -> numthreads s' = numthreads s ->
    curspl s' = curspl s -> in_interrupt s' = in_interrupt s -> lbolt_counter s' = lbolt_counter s -> calls s' = calls s ->
    lists s' run sl zo -> qcap s <= qcap s' -> scap s <= scap s' -> E ENOMEM s') as Hend.
  { intros s' ?????? ? ???. assert (unforked tc s s') by (split; try done; by left).
    apply HE; [|done]. by eapply unfork_inv. }
  wpp_steps. apply wpp_thread_create; [intros o; by apply Hend; try done; eapply lists_frame|]. intros p o Hfresh Hnn.
  rewrite (bool_decide_eq_false_2 (p = NULL)) by done. wpp_steps.
  assert (curthread s ≠ p) as Hpc by congruence.
  apply wpp_kmalloc_stack; cbn [threads set_threads set_orc].
  { intros o2. wpp_steps. unfold thread_free. wpp_steps. by apply Hend; try done; [by apply delete_insert_fresh|by eapply lists_frame]. }
  intros o2. rewrite map_size_insert_None by done. intros Hsz. cbn [negb]. wpp_steps.
  eapply wpp_tread; [apply lookup_insert_eq|]. wpp_steps. apply wpp_twrite. wpp_steps.
  eapply wpp_tread; [cbn; rewrite !lookup_insert_ne by done; exact Htc|]. wpp_steps.
  case_bool_decide as Hcwd; wpp_steps.
  - apply wpp_external. wpp_steps. eapply wpp_tread; [apply lookup_insert_eq|]. wpp_steps. apply wpp_twrite.
    eapply (wpp_fork_end name s _ p run sl zo tc); [done|done|done|lia| |done|done].
    eexists. unfold inherits. rewrite decide_False by done. cbn. by rewrite !insert_insert_eq.
  - eapply (wpp_fork_end name s _ p run sl zo tc); [done|done|done|lia| |done|done].
    assert (t_cwd tc = NULL) as Hc0 by (by destruct (decide (t_cwd tc = NULL))).
    eexists. unfold inherits. rewrite decide_True by done. cbn. rewrite !insert_insert_eq, app_nil_r.
    unfold newborn. rewrite Hc0. reflexivity.
Qed.
End specs.

(** ** The invariant under the operations *)

Lemma part_perm s s' run sl zo run' sl' zo' :
  part s run sl zo -> threads s' = threads s ->
  cur_list s' ++ run' ++ sl' ++ zo' ≡ₚ cur_list s ++ run ++ sl ++ zo ->
  (forall p t, p ∈ zo' -> p ∉ zo -> threads s !! p = Some t -> dead t) -> part s' run' sl' zo'.
Proof.
  intros [] Ht Hperm Hdead. split; rewrite ?Ht; [by rewrite Hperm| |done| |done|done].
  - intros p. by rewrite Hperm.
  - intros p t Hin Hp. destruct (decide (p ∈ zo)); eauto.
Qed.

Lemma inv_relisted s s' run sl zo run' sl' :
  inv s run sl zo -> relisted s s' -> lists s' run' sl' zo -> run' ++ sl' ≡ₚ run ++ sl -> inv s' run' sl' zo.
Proof.
  intros [Hl Hp [Hn Hq Hs]] (a & q & o & -> & Ha & Hsz) Hl' Hperm.
  split; [done| |].
  - eapply part_perm; [done|done| |by intros]. change (cur_list _) with (cur_list s).
    by rewrite !(app_assoc run'), !(app_assoc run), Hperm.
  - split; [|unfold qcap at 1; cbn; lia|unfold scap at 1; cbn; lia].
    change (cur_list _) with (cur_list s). cbn. rewrite Hn, !length_app, <- !length_app, Hperm. lia.
Qed.

Lemma filter_split (Q : ptr -> Prop) `{!forall x, Decision (Q x)} (l : list ptr) :
  filter Q l ++ filter (fun x => ~ Q x) l ≡ₚ l.
Proof.
  induction l as [|x l IH]; [done|]. rewrite !filter_cons. destruct (decide (Q x)) as [Hx|Hx].
  - rewrite decide_False by auto. cbn. by rewrite IH.
  - rewrite decide_True by done. by rewrite <- Permutation_middle, IH.
Qed.

Lemma inv_bounds s run sl zo : inv s run sl zo -> Z.of_nat (length run + length sl) <= MAX_THREADS.
Proof. intros Hi. pose proof (part_lengths _ _ _ _ (i_part _ _ _ _ Hi)). lia. Qed.

Lemma wpp_wakeup_inv X addr s run sl zo (Q : unit -> sys -> Prop) E :
  inv s run sl zo -> curspl s > 0 -> (curthread s = NULL -> X) ->
  (forall s', inv s' (run ++ filter (waits s addr) sl) (filter (elsewhere s addr) sl) zo -> relisted s s' -> Q tt s') ->
  wpp X (thread_wakeup addr) Q E s.
Proof.
  intros Hi Hspl HX HQ. pose proof Hi as [Hl Hp [Hn Hq _]].
  eapply wpp_thread_wakeup; [done|done|by eapply inv_bounds|by intros; eapply part_sl| |].
  - intros Hcap. apply HX. destruct (decide (curthread s = NULL)) as [|Hc]; [done|]. exfalso.
    unfold cur_list in Hn. rewrite decide_False in Hn by done. cbn [app length] in Hn. rewrite length_app in Hn.
    assert (length (filter (waits s addr) sl) <= length sl)%nat by apply length_filter. lia.
  - intros s' Hl' Hr. apply HQ; [|done]. eapply inv_relisted; [done|done|done|].
    by rewrite <- app_assoc, filter_split.
Qed.

Lemma list_find_delete (Q : ptr -> Prop) `{!forall x, Decision (Q x)} (l : list ptr) i p :
  list_find Q l = Some (i, p) -> [p] ++ delete i l ≡ₚ l.
Proof. intros (Hi & _ & _)%list_find_Some. cbn. symmetry. by apply delete_Permutation. Qed.

Lemma wpp_wakeup_one_inv X addr s run sl zo (Q : unit -> sys -> Prop) E :
  inv s run sl zo -> curspl s > 0 -> (curthread s = NULL -> X) ->
  (forall s' run' sl', inv s' run' sl' zo -> relisted s s' -> (forall p, p ∈ sl' -> p ∈ sl) -> Q tt s') ->
  wpp X (thread_wakeup_one addr) Q E s.
Proof.
  intros Hi Hspl HX HQ. pose proof Hi as [Hl Hp [Hn Hq _]].
  eapply wpp_thread_wakeup_one; [done|done|by eapply inv_bounds|by intros; eapply part_sl| | |].
  - intros Hf Hcap. apply HX. destruct (decide (curthread s = NULL)) as [|Hc]; [done|]. exfalso.
    destruct (list_find (waits s addr) sl) as [[i p]|] eqn:Hfi; [|done].
    apply list_find_Some in Hfi as (Hi' & _ & _). apply lookup_lt_Some in Hi'.
    unfold cur_list in Hn. rewrite decide_False in Hn by done. cbn [app length] in Hn. rewrite length_app in Hn. lia.
  - intros _. by eapply HQ; [|by eapply relisted_refl|].
  - intros i p s' Hf Hl' Hr. eapply HQ; [|done|]; [eapply inv_relisted; [done|done|done|]|].
    + by rewrite <- app_assoc, (list_find_delete (waits s addr)).
    + intros q Hq'. rewrite <- (list_find_delete (waits s addr) sl i p Hf). apply elem_of_app. by right.
Qed.

(** Changes outside the lists. *)
Lemma inv_frame s s' run sl zo :
  inv s run sl zo -> threads s' = threads s -> curthread s' = curthread s -> sleepers s' = sleepers s ->
  zombies s' = zombies s -> numthreads s' = numthreads s -> runqueue s' = runqueue s -> inv s' run sl zo.
Proof.
  intros [Hl Hp Hc] ? ? Hs ? ? Hr. split; [by eapply lists_frame|by eapply part_frame|].
  eapply counted_frame; [done|done|done|unfold qcap; by rewrite Hr|unfold scap; by rewrite Hs].
Qed.

(** A thread's structure changes. *)
Lemma part_twrite s run sl zo p t t' :
  part s run sl zo -> threads s !! p = Some t -> stack_ok t' -> (p ∈ zo -> dead t') ->
  part (set_threads s (<[p := t']> (threads s))) run sl zo.
Proof.
  intros [] Ht Hst Hdead.
  assert (p ≠ NULL) as Hnn by congruence.
  split; cbn; [done| |by rewrite lookup_insert_ne| | |by rewrite map_size_insert_Some].
  - intros q. change (cur_list _) with (cur_list s). rewrite <- pt_dom0.
    destruct (decide (q = p)) as [->|]; [rewrite lookup_insert_eq, Ht; split; eauto|].
    by rewrite lookup_insert_ne.
  - intros q t0 Hin. destruct (decide (q = p)) as [->|]; [rewrite lookup_insert_eq; intros [= <-]; auto|].
    rewrite lookup_insert_ne by done. by apply pt_dead0.
  - intros q t0. destruct (decide (q = p)) as [->|]; [rewrite lookup_insert_eq; by intros [= <-]|].
    rewrite lookup_insert_ne by done. apply pt_stack0.
Qed.

Lemma inv_twrite s run sl zo p t t' :
  inv s run sl zo -> threads s !! p = Some t -> stack_ok t' -> (p ∈ zo -> dead t') ->
  inv (set_threads s (<[p := t']> (threads s))) run sl zo.
Proof.
  intros [Hl Hp Hct] Ht Hst Hd. split; [by eapply lists_frame|by eapply part_twrite|by eapply counted_frame].
Qed.

(** The running thread is on none of the lists. *)
Lemma part_cur s run sl zo :
  part s run sl zo -> curthread s ≠ NULL ->
  (curthread s ∉ run) /\ (curthread s ∉ sl) /\ (curthread s ∉ zo) /\ is_Some (threads s !! curthread s).
Proof.
  intros [] Hc. assert (cur_list s = [curthread s]) as Hcl by (unfold cur_list; by rewrite decide_False).
  rewrite Hcl in pt_nodup0, pt_dom0. apply NoDup_cons in pt_nodup0 as [Hn _]. rewrite !not_elem_of_app in Hn.
  destruct Hn as (? & ? & ?). split; [done|]. split; [done|]. split; [done|]. apply pt_dom0, elem_of_cons. by left.
Qed.

(** [mi_switch] to the run queue or to sleep keeps the invariant. *)
Lemma inv_switched_out s s' run sl zo ns :
  inv s run sl zo -> curthread s ≠ NULL -> ns = S_READY \/ ns = S_SLEEP -> switched_out s s' ->
  let l := placed ns (curthread s) (run, sl, zo) in lists s' l.1.1 l.1.2 l.2 ->
  inv s' l.1.1 l.1.2 l.2.
Proof.
  intros [Hl Hp [Hn Hq Hs]] Hc Hns (a & z & q & o & -> & Hq' & Hs') l Hl'.
  assert (cur_list s = [curthread s]) as Hcl by (unfold cur_list; by rewrite decide_False).
  split; [done| |split; cbn [numthreads]; [|lia|lia]].
  - eapply part_perm; [done|done| |by intros; destruct Hns; subst ns].
    change (cur_list (mkSys _ NULL _ _ _ _ _ _ _ _ _)) with (@nil ptr). rewrite Hcl. unfold l.
    destruct Hns; subst ns; cbn; solve_Permutation.
  - change (cur_list (mkSys _ NULL _ _ _ _ _ _ _ _ _)) with (@nil ptr). rewrite Hn, Hcl. unfold l.
    destruct Hns; subst ns; cbn; rewrite !length_app; cbn; lia.
Qed.

(** The state of a thread that is about to become a zombie. *)
Record leaving s run sl zo : Prop := {
  lv_lists : lists s run sl zo;
  lv_part : part s run sl zo;
  lv_num : numthreads s = Z.of_nat (length (run ++ sl));
  lv_run : numthreads s <= qcap s;
  lv_sl : numthreads s <= 1 \/ numthreads s <= scap s;
  lv_dead : forall t, threads s !! curthread s = Some t -> dead t
}.

Lemma inv_zombie s s' run sl zo :
  leaving s run sl zo -> curthread s ≠ NULL -> switched_out s s' ->
  lists s' run sl (zo ++ [curthread s]) -> inv s' run sl (zo ++ [curthread s]).
Proof.
  intros [Hl Hp Hn Hq Hs Hd] Hc (a & z & q & o & -> & Hq' & Hs') Hl'.
  assert (cur_list s = [curthread s]) as Hcl by (unfold cur_list; by rewrite decide_False).
  split; [done| |split; cbn [numthreads]; [done|lia|lia]].
  eapply part_perm; [done|done| |].
  - change (cur_list (mkSys _ NULL _ _ _ _ _ _ _ _ _)) with (@nil ptr). rewrite Hcl. cbn. solve_Permutation.
  - intros p t [Hin|Hin]%elem_of_app Hz Ht; [done|]. apply list_elem_of_singleton in Hin as ->. eauto.
Qed.

Lemma inv_exorcised s s' run sl zo :
  inv s run sl zo -> exorcised s s' zo -> lists s' run sl [] -> inv s' run sl [].
Proof.
  intros [Hl Hp Hct] (m & z & o & -> & Hm) Hl'. split; [done| |by eapply counted_frame].
  assert (forall p, p ∈ cur_list s ++ run ++ sl ++ [] <-> p ∈ cur_list s ++ run ++ sl ++ zo /\ p ∉ zo) as Hin.
  { destruct Hp as [Hnd _ _ _ _ _]. intros p. rewrite !app_assoc, app_nil_r, <- !app_assoc in *.
    rewrite (app_assoc run), (app_assoc (cur_list s)) in Hnd. apply NoDup_app in Hnd as (_ & Hd & _).
    rewrite !elem_of_app in *. specialize (Hd p). rewrite !elem_of_app in Hd. naive_solver. }
  destruct Hp. split.
  - change (cur_list _) with (cur_list s). rewrite app_nil_r.
    rewrite (app_assoc run), (app_assoc (cur_list s)) in pt_nodup0. by apply NoDup_app in pt_nodup0 as (? & _ & _).
  - intros p. change (cur_list _) with (cur_list s). rewrite Hin, <- pt_dom0. cbn. rewrite Hm.
    case_decide; split; [by intros []|naive_solver|auto|naive_solver].
  - cbn. rewrite Hm. by case_decide.
  - intros p t Hz. by apply not_elem_of_nil in Hz.
  - intros p t. cbn. rewrite Hm. case_decide; [done|]. apply pt_stack0.
  - cbn. etransitivity; [|exact pt_size0]. apply inj_le, map_subseteq_size.
    apply map_subseteq_spec. intros p t. rewrite Hm. by case_decide.
Qed.

(** The scheduler picks [p]. *)
Lemma inv_next s s' p run sl zo q o :
  inv s (p :: run) sl zo -> curthread s = NULL -> qcap (set_runqueue s (Some q) o) = qcap s ->
  s' = set_curthread (set_runqueue s (Some q) o) p -> lists s' run sl zo -> inv s' run sl zo.
Proof.
  intros [Hl Hp [Hn Hq Hs]] Hc Hcap -> Hl'.
  assert (p ≠ NULL) as Hnn.
  { intros ->. destruct (proj2 (pt_dom _ _ _ _ Hp NULL)) as [t Ht].
    - rewrite !elem_of_app. right. left. apply elem_of_cons. by left.
    - by rewrite (pt_null _ _ _ _ Hp) in Ht. }
  assert (cur_list s = []) as Hcl by (unfold cur_list; by rewrite decide_True).
  assert (cur_list (set_curthread (set_runqueue s (Some q) o) p) = [p]) as Hcl'
    by (unfold cur_list; cbn; by rewrite decide_False).
  split; [done| |].
  - eapply part_perm; [done|done| |by intros]. by rewrite Hcl, Hcl'.
  - split; [rewrite Hcl'; cbn; rewrite Hn, Hcl; done|rewrite <- Hcap in Hq; done|done].
Qed.

(** ** Booting *)

Lemma wpp_scheduler_bootstrap s (Q : unit -> sys -> Prop) E :
  (forall q o, KQueue.wf q -> KQueue.contents q = [] -> KQueue.size q = 32 -> Q tt (set_runqueue s (Some q) o)) ->
  wpp True scheduler_bootstrap Q E s.
Proof.
  intros HQ. unfold scheduler_bootstrap, KQueue.q_create. wpp_steps.
  destruct (kmalloc_ok (orc s)) as [[] o]; cbn [negb]; wpp_steps; [|done].
  destruct (kmalloc_ok o) as [[] o']; cbn [negb]; wpp_steps; [|done]. by apply HQ.
Qed.

(** Booting either panics for want of memory or leaves one thread, running with
    interrupts enabled, and the invariant of the thread system. *)
Lemma wpp_boot o (Q : unit -> sys -> Prop) E :
  (forall s, inv s [] [] [] -> curthread s ≠ NULL -> curspl s = 0 -> lbolt_counter s = 0 -> Q tt s) ->
  wpp True boot_threads Q E (power_on o).
Proof.
  intros HQ. unfold boot_threads. wpp_steps. apply wpp_scheduler_bootstrap. intros q o1 Hq Hqc Hqs.
  unfold thread_bootstrap, KArray.array_create. wpp_steps.
  destruct (kmalloc_ok _) as [[] o2]; wpp_steps; [|done].
  destruct (kmalloc_ok _) as [[] o3]; wpp_steps; [|done].
  apply wpp_thread_create.
  { intros o4. rewrite bool_decide_eq_true_2 by done. by wpp_steps. }
  intros p o4 _ Hp. rewrite bool_decide_eq_false_2 by done. unfold spl0. wpp_steps. apply wpp_splx. wpp_steps.
  apply HQ; [|done..].
  assert (forall c : ptr, c = p -> (if decide (c = NULL) then [] else [c]) = [p]) as Hcur
    by (intros ? ->; by rewrite decide_False).
  split; split.
  - by exists q.
  - by eexists.
  - by eexists.
  - unfold cur_list. cbn. rewrite Hcur by done. apply NoDup_singleton.
  - intros x. unfold cur_list. cbn. rewrite Hcur by done. cbn. rewrite list_elem_of_singleton.
    destruct (decide (x = p)) as [->|]; [by rewrite lookup_insert_eq|].
    rewrite lookup_insert_ne by done. rewrite lookup_empty. split; [by intros []|done].
  - cbn. by rewrite lookup_insert_ne.
  - intros x t Hx. by apply not_elem_of_nil in Hx.
  - intros x t. cbn. rewrite lookup_insert_Some, lookup_empty. intros [[_ <-]|[_ ?]]; [by left|done].
  - cbn. rewrite map_size_insert_None, map_size_empty by done. unfold MAX_STACKS. lia.
  - unfold cur_list. cbn. by rewrite Hcur.
  - unfold qcap. cbn. by rewrite Hqs.
  - by left.
Qed.
End ThreadSpec.
