(* ===== verification/ThreadTheorems.v ===== *)
(** * What the thread system promises

    [thread_fork] all or nothing, [thread_wakeup] exact and unable to fail, and
    two reservations made by [thread_fork] that do not hold. *)

From S2P Require Import Prelude KArray KQueue Thread ThreadSpec.

Module ThreadTheorems.
Import Thread ThreadSpec.

Implicit Types (s : sys) (run sl zo : list ptr).

(** C32. [thread_fork] never panics and never touches memory that is not there:
    it returns the address of a new thread structure that is at the end of the
    run queue and has an armed stack guard and its parent's directory, whose
    reference count it raised; or it returns [ENOMEM] with the thread structures,
    the lists and the count of threads as they were and every reference it took
    given back. *)
Theorem thread_fork_spec name s run sl zo tc :
  inv s run sl zo -> curthread s ≠ NULL -> threads s !! curthread s = Some tc ->
  wp (thread_fork name)
    (fun p s' => inv s' (run ++ [p]) sl zo /\ forked name tc s s' p)
    (fun e s' => e = ENOMEM /\ inv s' run sl zo /\ unforked tc s s') s.
Proof.
  intros Hi Hc Htc. apply (wpp_wp False); [tauto|]. by eapply wpp_thread_fork; [exact Hi|done|exact Htc|..].
Qed.

(** While a thread is running, [thread_wakeup] moves exactly the threads that
    sleep on the address to the end of the run queue, in the order in which they
    went to sleep, leaves the others asleep, and cannot fail, whatever [kmalloc]
    would answer. *)
Theorem thread_wakeup_spec addr s run sl zo :
  inv s run sl zo -> curspl s > 0 -> curthread s ≠ NULL ->
  wp (thread_wakeup addr)
    (fun _ s' => inv s' (run ++ filter (waits s addr) sl) (filter (elsewhere s addr) sl) zo /\
       threads s' = threads s /\ curthread s' = curthread s)
    (fun _ _ => False) s.
Proof.
  intros Hi Hs Hc. apply (wpp_wp False); [tauto|]. eapply wpp_wakeup_inv; [done|done|done|].
  intros s' Hi' (a & q & o & -> & _). done.
Qed.

(** Thread 1 runs, 2 is ready, 3 and 4 sleep on different addresses. *)
Definition ex_thread (addr : ptr) : thread := mkThread 0 [] addr (Some STACK_MAGIC) NULL 77.
Definition ex_sys : sys :=
  mkSys {[1 := ex_thread NULL; 2 := ex_thread NULL; 3 := ex_thread 100; 4 := ex_thread 200]} 1
    (Some (KArray.mkArray 2 6 (Some [Some 3; Some 4; None; None; None; None])))
    (Some (KArray.mkArray 0 6 (Some (replicate 6 None)))) 4
    (Some (KQueue.mkQueue 32 1 0 (Some 2 :: replicate 31 None))) SPL_HIGH 0 0 [true; false] [].

Lemma ex_inv : inv ex_sys [2] [3; 4] [].
Proof.
  assert (dom (threads ex_sys) = {[1; 2; 3; 4]}) as Hd by (vm_compute; reflexivity).
  assert (forall x t, threads ex_sys !! x = Some t -> exists a, t = ex_thread a) as Ht.
  { intros x t. unfold ex_sys. cbn [threads]. rewrite !lookup_insert_Some, lookup_singleton_Some. naive_solver. }
  split; split; try (eexists; split; [reflexivity|split; [split; vm_compute; intuition discriminate|reflexivity]]);
    try (vm_compute; discriminate); try reflexivity.
  - apply (bool_decide_unpack _). vm_compute. exact I.
  - intros x. rewrite <- elem_of_dom, Hd. cbn. set_solver.
  - intros x t Hx. by apply not_elem_of_nil in Hx.
  - intros x t (a & ->)%Ht. by right.
  - right. vm_compute. discriminate.
Qed.

Lemma thread_fork_spec_witness :
  wp (thread_fork [104; 105])
    (fun p s' => inv s' [2; p] [3; 4] [] /\ forked [104; 105] (ex_thread NULL) ex_sys s' p)
    (fun e s' => e = ENOMEM /\ inv s' [2] [3; 4] [] /\ unforked (ex_thread NULL) ex_sys s') ex_sys.
Proof. apply (thread_fork_spec [104; 105] ex_sys [2] [3; 4] []); [exact ex_inv|discriminate|reflexivity]. Defined.

Lemma thread_wakeup_spec_witness :
  wp (thread_wakeup 200) (fun _ s' => inv s' [2; 4] [3] [] /\ threads s' = threads ex_sys /\ curthread s' = 1)
    (fun _ _ => False) ex_sys.
Proof. apply (thread_wakeup_spec 200 ex_sys [2] [3; 4] []); [exact ex_inv|reflexivity|discriminate]. Defined.

(** ** Reservations *)

Fixpoint fork_many (n : nat) : T unit :=
  match n with
  | O => mret tt
  | S n => _ ← thread_fork []; fork_many n
  end.

(** Boot with enough memory, fork [n] threads, and then run out of memory. *)
Definition crowd (n : nat) : outcome sys :=
  '(_, s) ← (_ ← boot_threads; fork_many n) (power_on (replicate 1000 true));
  Done (set_curspl (set_orc s []) SPL_HIGH).

Definition state_of (r : outcome sys) : sys := match r with Done s => s | _ => power_on [] end.

(** [thread_fork] preallocates the run queue so that a thread can always be
    made runnable, but a queue of 32 cells holds 31 threads: when the 32nd thread
    exists and the other 31 are ready, [mi_switch(S_READY)] in [thread_yield]
    needs memory and panics when there is none. *)
Theorem yield_reservation_short :
  exists s, crowd 31 = Done s /\ numthreads s = 32 /\ qcap s = 32 /\ mi_switch_out S_READY s = Panic.
Proof.
  exists (state_of (crowd 31)). split_and!; vm_compute; reflexivity.
Qed.

(** [thread_fork] preallocates the list of zombies so that a thread can
    always exit, but the next context switch empties that list with
    [array_setsize], which gives the cells back when there are more than 16:
    then a thread that exits when there is no memory panics. *)
Theorem exit_reservation_dropped :
  exists s s', crowd 15 = Done s /\ exorcise s = Done (inr tt, s') /\ numthreads s' = 16 /\
    (exists s1, mi_switch_out S_ZOMB s = Done (inr true, s1)) /\ mi_switch_out S_ZOMB s' = Panic.
Proof.
  set (s := state_of (crowd 15)). exists s, (state_of ('(_, s') ← exorcise s; Done s')).
  split_and!; [vm_compute; reflexivity..| |vm_compute; reflexivity].
  exists (state_of ('(_, s') ← mi_switch_out S_ZOMB s; Done s')). vm_compute; reflexivity.
Qed.
End ThreadTheorems.
