(* ===== verification/Concurrency.v ===== *)
(** * Threads at run time

    Kernel code that can lose the processor in the middle, the contexts of the
    threads that are not running, and the steps of the machine: the current
    thread runs, gives up the processor in [mi_switch], an interrupt arrives
    while interrupts are on or while the scheduler idles, the scheduler picks
    the next thread.

    [com] keeps the control structure of the C code; a [Do] is code that runs
    without giving up the processor, as a computation of the state monad. *)

From S2P Require Import Prelude KArray KQueue Thread.

Module Concurrency.
Import Thread.

Section com.
(** Kernel memory outside the thread system. *)
Context {X : Type}.
Abbreviation state := (sys * X)%type.

Inductive com : Type :=
  | Skip
  | Do (m : M state unit)
  | Let {A : Type} (m : M state A) (f : A -> com)
  | Seq (c1 c2 : com)
  | While (b : M state bool) (c : com)
  | Switch (ns : threadstate)                                (* mi_switch *)
  | Fork (name : list Z) (child : com) (f : Z + ptr -> com). (* thread_fork *)

(** Code of the thread system on the whole state. *)
Definition on_sys {A} (m : T A) : M state A := fun st =>
  match m st.1 with
  | Done (r, s) => Done (r, (s, st.2))
  | Panic => Panic
  | Stuck => Stuck
  end.

(** ** Blocking operations of [thread.c] *)

Definition thread_yield : com :=
  Let (on_sys thread_yield_begin) (fun spl =>
  Seq (Switch S_READY)
      (Do (on_sys (_ ← splx spl; mret tt)))).

Definition thread_sleep (addr : ptr) : com :=
  Seq (Do (on_sys (thread_sleep_begin addr)))
  (Seq (Switch S_SLEEP)
       (Do (on_sys thread_sleep_end))).

(** [thread_exit] after the line it prints, with
    [panic("Thread came back from the dead!")] at the end.  As far as other
    threads are concerned, printing takes and releases the console's lock,
    which the program in front of this command may do. *)
Definition thread_exit : com :=
  Seq (Do (on_sys thread_exit_begin))
  (Seq (Switch S_ZOMB)
       (Do panic)).

Fixpoint repeat_com (n : nat) (c : com) : com :=
  match n with O => Skip | S n => Seq c (repeat_com n c) end.

Definition activate_cur : T unit :=
  s ← get;
  t ← tread (curthread s);
  if bool_decide (t_vmspace t ≠ NULL) then external (as_activate (t_vmspace t)) else mret tt.

(** [mi_threadstart] with a start function [func]; [n] is the number of times
    the thread yields first, which is 0 without [OPT_SYNCHPROBS] and otherwise
    [random()%161 + random()%161]. *)
Definition mi_threadstart (n : nat) (func : com) : com :=
  Seq (Do (on_sys activate_cur))
  (Seq (Do (on_sys (_ ← spl0; mret tt)))
  (Seq (repeat_com n thread_yield)
  (Seq func thread_exit))).

Definition MAX_START_YIELDS : nat := 320.

(** ** The clock: [thread/hardclock.c] *)

Definition HZ : Z := 100.
Definition lbolt : ptr := 4.

(** [hardclock] before it yields. *)
Definition hardclock_tick : T unit :=
  s ← get;
  n ← lift (int_op (lbolt_counter s + 1));
  _ ← put (set_lbolt_counter s n);
  if bool_decide (n >= HZ) then
    _ ← modify (fun s => set_lbolt_counter s 0);
    thread_wakeup lbolt
  else mret tt.

Definition hardclock : com := Seq (Do (on_sys hardclock_tick)) thread_yield.

Fixpoint clocksleep_loop (n : nat) : com :=
  match n with
  | O => Skip
  | S n => Seq (thread_sleep lbolt) (clocksleep_loop n)
  end.

(** [while (num_secs > 0) { thread_sleep(&lbolt); num_secs--; }] *)
Definition clocksleep (num_secs : Z) : com :=
  Let (on_sys splhigh) (fun s =>
  Seq (clocksleep_loop (Z.to_nat num_secs))
      (Do (on_sys (_ ← splx s; mret tt)))).

(** ** Interrupts: the path of [mips_trap] for [EX_IRQ], and [mips_interrupt] *)

Definition irq_enter : T (Z * Z) :=
  s ← get;
  let savespl := curspl s in
  let old_in := in_interrupt s in
  _ ← put (set_in_interrupt (set_curspl s SPL_HIGH) 1);
  _ ← assert_spl;
  mret (savespl, old_in).

Definition irq_leave (saved : Z * Z) : T unit :=
  _ ← modify (fun s => set_in_interrupt s (snd saved));
  _ ← splhigh;
  modify (fun s => set_curspl s (fst saved)).

(** What an interrupt puts in front of the interrupted code; the processor has
    turned interrupts off and [irq_enter] has run. *)
Definition irq (handler : com) (saved : Z * Z) (k : list com) : list com :=
  handler :: Do (on_sys (irq_leave saved)) :: k.

(** The clock interrupt taken inside [cpu_idle]: [curthread] is NULL, and
    [mi_switch] returns at once. *)
Definition idle_clock : T unit :=
  saved ← irq_enter;
  _ ← hardclock_tick;
  spl ← thread_yield_begin;
  _ ← mi_switch_out S_READY;
  _ ← splx spl;
  irq_leave saved.

(** An interrupt of another device taken there. *)
Definition idle_irq (handler : M state unit) : M state unit :=
  saved ← on_sys irq_enter;
  _ ← handler;
  on_sys (irq_leave saved).

(** ** The machine *)

(** [c_run] is what the current thread has still to do, [c_saved] the contexts
    of the others; while the scheduler runs, no thread is current and [c_from]
    is the thread that called it. *)
Record config := mkConfig {
  c_state : state;
  c_run : list com;
  c_saved : gmap ptr (list com);
  c_from : ptr
}.

(** [scheduler] has found the run queue empty. *)
Definition idling (st : state) : Prop :=
  curthread st.1 = NULL /\ exists q, runqueue st.1 = Some q /\ KQueue.q_empty q = true.

(** Interrupt handlers of other devices; they do not block. *)
Context (handler : M state unit -> Prop).

Inductive step : config -> config -> Prop :=
  | step_skip st k sv fr :
      curthread st.1 ≠ NULL -> step (mkConfig st (Skip :: k) sv fr) (mkConfig st k sv fr)
  | step_do m st st' k sv fr :
      curthread st.1 ≠ NULL -> m st = Done (inr tt, st') ->
      step (mkConfig st (Do m :: k) sv fr) (mkConfig st' k sv fr)
  | step_let {A} (m : M state A) f a st st' k sv fr :
      curthread st.1 ≠ NULL -> m st = Done (inr a, st') ->
      step (mkConfig st (Let m f :: k) sv fr) (mkConfig st' (f a :: k) sv fr)
  | step_seq c1 c2 st k sv fr :
      curthread st.1 ≠ NULL ->
      step (mkConfig st (Seq c1 c2 :: k) sv fr) (mkConfig st (c1 :: c2 :: k) sv fr)
  | step_while b c r st st' k sv fr :
      curthread st.1 ≠ NULL -> b st = Done (inr r, st') ->
      step (mkConfig st (While b c :: k) sv fr)
           (mkConfig st' (if r : bool then c :: While b c :: k else k) sv fr)
  | step_fork name child f r st st' k sv fr n :
      curthread st.1 ≠ NULL -> on_sys (try (thread_fork name)) st = Done (inr r, st') ->
      (n <= MAX_START_YIELDS)%nat ->
      step (mkConfig st (Fork name child f :: k) sv fr)
           (mkConfig st' (f r :: k)
              (match r with inr p => <[p := [mi_threadstart n child]]> sv | inl _ => sv end) fr)
  | step_switch ns st st' k sv fr :
      curthread st.1 ≠ NULL -> on_sys (mi_switch_out ns) st = Done (inr true, st') ->
      step (mkConfig st (Switch ns :: k) sv fr)
           (mkConfig st' [] (<[curthread st.1 := Do (on_sys mi_switch_in) :: k]> sv) (curthread st.1))
  | step_schedule next st st' st'' k sv fr :
      curthread st.1 = NULL -> on_sys scheduler_next st = Done (inr next, st') ->
      on_sys (md_switch_in fr next) st' = Done (inr tt, st'') -> sv !! next = Some k ->
      step (mkConfig st [] sv fr) (mkConfig st'' k (delete next sv) fr)
  | step_clock saved st st' k sv fr :
      curthread st.1 ≠ NULL -> curspl st.1 = 0 -> on_sys irq_enter st = Done (inr saved, st') ->
      step (mkConfig st k sv fr) (mkConfig st' (irq hardclock saved k) sv fr)
  | step_irq h saved st st' k sv fr :
      curthread st.1 ≠ NULL -> curspl st.1 = 0 -> handler h -> on_sys irq_enter st = Done (inr saved, st') ->
      step (mkConfig st k sv fr) (mkConfig st' (irq (Do h) saved k) sv fr)
  | step_idle_clock st st' sv fr :
      idling st -> on_sys idle_clock st = Done (inr tt, st') ->
      step (mkConfig st [] sv fr) (mkConfig st' [] sv fr)
  | step_idle_irq h st st' sv fr :
      idling st -> handler h -> idle_irq h st = Done (inr tt, st') ->
      step (mkConfig st [] sv fr) (mkConfig st' [] sv fr).

(** ** What the machine does next when no interrupt comes

    The current thread's next action, or the scheduler's; an idle scheduler
    waits for the clock.  The result is [Stuck] when that action is undefined,
    when it returns an error that nobody takes, when the current thread has
    nothing left to do, and when the thread chosen has no saved context.  A new
    thread starts without the delays of [mi_threadstart]. *)
Definition then_do {A} (r : outcome ((Z + A) * state)) (k : A -> state -> outcome config) : outcome config :=
  match r with
  | Done (inr a, st) => k a st
  | Done (inl _, _) => Stuck
  | Panic => Panic
  | Stuck => Stuck
  end.

Definition advance (c : config) : outcome config :=
  let '(mkConfig st k sv fr) := c in
  if decide (curthread st.1 = NULL) then
    match k, runqueue st.1 with
    | [], Some q =>
        if KQueue.q_empty q then then_do (on_sys idle_clock st) (fun _ st => Done (mkConfig st [] sv fr))
        else
          then_do (on_sys scheduler_next st) (fun next st =>
          then_do (on_sys (md_switch_in fr next) st) (fun _ st =>
          match sv !! next with
          | Some k => Done (mkConfig st k (delete next sv) fr)
          | None => Stuck
          end))
    | _, _ => Stuck
    end
  else
    match k with
    | [] => Stuck
    | Skip :: k => Done (mkConfig st k sv fr)
    | Do m :: k => then_do (m st) (fun _ st => Done (mkConfig st k sv fr))
    | Let m f :: k => then_do (m st) (fun a st => Done (mkConfig st (f a :: k) sv fr))
    | Seq c1 c2 :: k => Done (mkConfig st (c1 :: c2 :: k) sv fr)
    | While b c :: k =>
        then_do (b st) (fun r st => Done (mkConfig st (if r : bool then c :: While b c :: k else k) sv fr))
    | Fork name child f :: k =>
        then_do (on_sys (try (thread_fork name)) st) (fun r st =>
          Done (mkConfig st (f r :: k)
            (match r with inr p => <[p := [mi_threadstart 0 child]]> sv | inl _ => sv end) fr))
    | Switch ns :: k =>
        then_do (on_sys (mi_switch_out ns) st) (fun r st' =>
          if r : bool then
            Done (mkConfig st' [] (<[curthread st.1 := Do (on_sys mi_switch_in) :: k]> sv) (curthread st.1))
          else Stuck)
    end.

Lemma then_do_Done {A} (r : outcome ((Z + A) * state)) k c :
  then_do r k = Done c -> exists a st, r = Done (inr a, st) /\ k a st = Done c.
Proof. destruct r as [[[e|a] st]| |]; cbn; [done|by eauto|done|done]. Qed.

Lemma advance_step c c' : advance c = Done c' -> step c c'.
Proof.
  destruct c as [st k sv fr]. cbn [advance]. case_decide as Hc.
  - destruct k; [|done]. destruct (runqueue st.1) as [q|] eqn:Eq; [|done]. destruct (KQueue.q_empty q) eqn:Ee.
    + intros ([] & st' & Hm & [= <-])%then_do_Done. apply step_idle_clock; [|done]. split; [done|]. by exists q.
    + intros (next & st' & Hn & ([] & st'' & Hs & H)%then_do_Done)%then_do_Done.
      destruct (sv !! next) eqn:Ek; [|done]. injection H as <-. by eapply step_schedule.
  - destruct k as [|[| m|A m f|c1 c2|b c|ns|name child f] k]; [done|..].
    + intros [= <-]. by apply step_skip.
    + intros ([] & st' & Hm & [= <-])%then_do_Done. by apply step_do.
    + intros (a & st' & Hm & [= <-])%then_do_Done. by apply step_let.
    + intros [= <-]. by apply step_seq.
    + intros (a & st' & Hm & [= <-])%then_do_Done. by apply step_while.
    + intros ([] & st' & Hm & H)%then_do_Done; [|done]. injection H as <-. by apply step_switch.
    + intros (a & st' & Hm & [= <-])%then_do_Done. eapply (step_fork _ _ _ _ _ _ _ _ _ O); [done|done|lia].
Qed.

Inductive reach : config -> config -> Prop :=
  | reach_refl c : reach c c
  | reach_step c c1 c2 : reach c c1 -> step c1 c2 -> reach c c2.
End com.

Arguments com : clear implicits.
Arguments config : clear implicits.
End Concurrency.
