(* ===== verification/Synch.v ===== *)
(** * Synchronization primitives: [kern/thread/synch.c]

    Semaphores, locks and condition variables in kernel memory, and every
    function of the file.  A function that cannot block is a computation; one
    that can is a [com]. *)

From S2P Require Import Prelude KArray KQueue Thread Concurrency.

Module Synch.
Import Thread Concurrency.

(** ** Objects *)

Record semaphore := mkSem { sem_name : list Z; count : Z }.
Record lock := mkLock { lock_name : list Z; locked : Z; owner : ptr }.
Record cv := mkCv { cv_name : list Z }.

(** What is at an address. *)
Inductive obj :=
  | OSem (x : semaphore)
  | OLock (x : lock)
  | OCv (x : cv).

Section synch.
(** Other kernel memory. *)
Context {U : Type}.
Abbreviation mem := (gmap ptr obj * U)%type.
Abbreviation K := (M (sys * mem)) (only parsing).

Definition get_obj (p : ptr) : K obj :=
  st ← get; lift (match st.2.1 !! p with Some o => Done o | None => Stuck end).
Definition set_obj (p : ptr) (o : obj) : K unit :=
  modify (fun st => (st.1, (<[p := o]> st.2.1, st.2.2))).

Definition get_sem (p : ptr) : K semaphore :=
  o ← get_obj p; lift (match o with OSem x => Done x | _ => Stuck end).
Definition get_lock (p : ptr) : K lock :=
  o ← get_obj p; lift (match o with OLock x => Done x | _ => Stuck end).
Definition get_cv (p : ptr) : K cv :=
  o ← get_obj p; lift (match o with OCv x => Done x | _ => Stuck end).

Definition cur : K ptr := st ← get; mret (curthread st.1).

(** [kmalloc] of an object and [kstrdup] of its name. *)
Definition new_obj (o : obj) : K ptr :=
  ok ← on_sys kmalloc;
  if negb ok then mret NULL else
  ok ← on_sys kmalloc;
  if negb ok then mret NULL else
  st ← get;
  let p := fresh (dom st.2.1 ∪ {[NULL; lbolt]}) in
  _ ← set_obj p o;
  mret p.

Definition free_obj (p : ptr) : K unit :=
  modify (fun st => (st.1, (delete p st.2.1, st.2.2))).

Definition assert_ptr (p : ptr) : K unit := massert (bool_decide (p ≠ NULL)).
Definition assert_not_irq : K unit := st ← get; massert (bool_decide (in_interrupt st.1 = 0)).
Definition restore (spl : Z) : K unit := _ ← on_sys (splx spl); mret tt.

(** ** Semaphores *)

Definition sem_create (name : list Z) (initial_count : Z) : K ptr :=
  _ ← massert (bool_decide (initial_count >= 0));
  new_obj (OSem (mkSem name initial_count)).

Definition sem_destroy (sem : ptr) : K unit :=
  _ ← assert_ptr sem;
  spl ← on_sys splhigh;
  b ← on_sys (thread_hassleepers sem);
  _ ← massert (negb b);
  _ ← restore spl;
  _ ← get_sem sem;
  free_obj sem.

Definition P_enter (sem : ptr) : K Z :=
  _ ← assert_ptr sem;
  _ ← assert_not_irq;
  on_sys splhigh.

Definition P_take (sem : ptr) (spl : Z) : K unit :=
  x ← get_sem sem;
  _ ← massert (bool_decide (count x > 0));
  _ ← set_obj sem (OSem (mkSem (sem_name x) (count x - 1)));
  restore spl.

Definition P (sem : ptr) : com mem :=
  Let (P_enter sem) (fun spl =>
  Seq (While (x ← get_sem sem; mret (bool_decide (count x = 0))) (thread_sleep sem))
      (Do (P_take sem spl))).

(** [count] is volatile: the sum is stored, with the wrap-around of the machine
    addition, and the assertion reads it back. *)
Definition V (sem : ptr) : K unit :=
  _ ← assert_ptr sem;
  spl ← on_sys splhigh;
  x ← get_sem sem;
  let n := s32 (count x + 1) in
  _ ← set_obj sem (OSem (mkSem (sem_name x) n));
  _ ← massert (bool_decide (n > 0));
  _ ← on_sys (thread_wakeup sem);
  restore spl.

(** ** Locks *)

Definition lock_create (name : list Z) : K ptr := new_obj (OLock (mkLock name 0 NULL)).

Definition lock_destroy (lk : ptr) : K unit :=
  _ ← assert_ptr lk;
  spl ← on_sys splhigh;
  x ← get_lock lk;
  _ ← massert (bool_decide (locked x = 0));
  _ ← massert (bool_decide (owner x = NULL));
  b ← on_sys (thread_hassleepers lk);
  _ ← massert (negb b);
  _ ← free_obj lk;
  restore spl.

Definition acquire_enter (lk : ptr) : K Z :=
  _ ← assert_ptr lk;
  _ ← assert_not_irq;
  on_sys splhigh.

Definition acquire_take (lk : ptr) (spl : Z) : K unit :=
  x ← get_lock lk;
  _ ← massert (bool_decide (locked x = 0));
  _ ← massert (bool_decide (owner x = NULL));
  me ← cur;
  _ ← set_obj lk (OLock (mkLock (lock_name x) 1 me));
  restore spl.

Definition lock_acquire (lk : ptr) : com mem :=
  Let (acquire_enter lk) (fun spl =>
  Seq (While (x ← get_lock lk; mret (bool_decide (locked x = 1))) (thread_sleep lk))
      (Do (acquire_take lk spl))).

(** [assert(lock->locked == 1); assert(lock->owner == curthread);] *)
Definition assert_held (lk : ptr) : K lock :=
  x ← get_lock lk;
  me ← cur;
  _ ← massert (bool_decide (locked x = 1));
  _ ← massert (bool_decide (owner x = me));
  mret x.

Definition lock_release (lk : ptr) : K unit :=
  _ ← assert_ptr lk;
  spl ← on_sys splhigh;
  x ← assert_held lk;
  _ ← set_obj lk (OLock (mkLock (lock_name x) 0 NULL));
  _ ← on_sys (thread_wakeup lk);
  restore spl.

Definition lock_do_i_hold (lk : ptr) : K bool :=
  _ ← assert_ptr lk;
  spl ← on_sys splhigh;
  x ← get_lock lk;
  me ← cur;
  _ ← restore spl;
  mret (bool_decide (locked x ≠ 0) && bool_decide (owner x = me)).

(** ** Condition variables *)

Definition cv_create (name : list Z) : K ptr := new_obj (OCv (mkCv name)).

Definition cv_destroy (c : ptr) : K unit :=
  _ ← assert_ptr c;
  spl ← on_sys splhigh;
  b ← on_sys (thread_hassleepers c);
  _ ← massert (negb b);
  _ ← get_cv c;
  _ ← free_obj c;
  restore spl.

Definition cv_wait_enter (c lk : ptr) : K Z :=
  _ ← assert_ptr c;
  _ ← assert_ptr lk;
  _ ← assert_not_irq;
  spl ← on_sys splhigh;
  _ ← assert_held lk;
  _ ← lock_release lk;
  mret spl.

Definition cv_wait (c lk : ptr) : com mem :=
  Let (cv_wait_enter c lk) (fun spl =>
  Seq (thread_sleep c)
  (Seq (lock_acquire lk)
       (Do (restore spl)))).

Definition cv_signal (c lk : ptr) : K unit :=
  _ ← assert_ptr c;
  _ ← assert_ptr lk;
  spl ← on_sys splhigh;
  _ ← assert_held lk;
  _ ← on_sys (thread_wakeup_one c);
  restore spl.

Definition cv_broadcast (c lk : ptr) : K unit :=
  _ ← assert_ptr c;
  _ ← assert_ptr lk;
  spl ← on_sys splhigh;
  _ ← assert_held lk;
  _ ← on_sys (thread_wakeup c);
  restore spl.
End synch.
End Synch.
