(* ===== verification/SynchInv.v ===== *)
(** * A logic for threads that share the kernel

    The invariant that holds whenever another thread or an interrupt handler
    can run, and proof rules for [com]s: code with interrupts off is sequential
    code, and may break the invariant as long as it holds again when the
    processor is given up or interrupts are turned on. *)

From S2P Require Import Prelude KArray KQueue Thread ThreadSpec Concurrency Synch.

Module SynchInv.
Import Thread ThreadSpec Concurrency Synch.

(** ** The invariant *)

Inductive kind := KSem | KLock | KCv.
Definition kind_of (o : obj) : kind :=
  match o with OSem _ => KSem | OLock _ => KLock | OCv _ => KCv end.

Definition asleep (s : sys) (sl : list ptr) (a : ptr) : Prop := exists p, p ∈ sl /\ sleepaddr s p = a.

(** Threads sleep on a semaphore only while its count is 0, and on a lock only
    while it is held; a lock has an owner exactly when it is held. *)
Definition obj_ok (s : sys) (sl : list ptr) (a : ptr) (o : obj) : Prop :=
  match o with
  | OSem x => 0 <= count x /\ (asleep s sl a -> count x = 0)
  | OLock x => (locked x = 0 /\ owner x = NULL /\ ~ asleep s sl a) \/ (locked x = 1 /\ owner x ≠ NULL)
  | OCv _ => True
  end.

Section logic.
Context {U : Type}.
Abbreviation mem := (gmap ptr obj * U)%type.
Abbreviation state := (sys * mem)%type.
Implicit Types (st : state) (t : ptr) (k : list (com mem)).

(** The objects there are, and the handlers of device interrupts. *)
Context (kinds : gmap ptr kind) (handler : M state unit -> Prop).

Record kinv_on st run sl zo : Prop := {
  k_inv : inv st.1 run sl zo;
  k_kinds : kind_of <$> st.2.1 = kinds;
  k_objs : forall a o, st.2.1 !! a = Some o -> obj_ok st.1 sl a o;
  k_null : st.2.1 !! NULL = None;
  k_lbolt : st.2.1 !! lbolt = None;
  k_clock : 0 <= lbolt_counter st.1 < HZ
}.
Definition kinv st : Prop := exists run sl zo, kinv_on st run sl zo.

(** The invariant, with thread [t] running, at a given or some high priority. *)
Definition at_spl t (spl : Z) st : Prop := kinv st /\ curthread st.1 = t /\ curspl st.1 = spl.
Definition off t st : Prop := kinv st /\ curthread st.1 = t /\ curspl st.1 > 0.

(** What code of thread [t] may do to the others: it takes no lock away from
    them, makes no thread and does not change which one is running. *)
Record guar t st st' : Prop := {
  g_cur : curthread st'.1 = curthread st.1;
  g_dom : dom (threads st'.1) ⊆ dom (threads st.1);
  g_owner : forall a x, st.2.1 !! a = Some (OLock x) -> owner x ≠ NULL -> owner x ≠ t ->
    exists x', st'.2.1 !! a = Some (OLock x') /\ owner x' = owner x
}.

(** What holds after [t] has given up the processor. *)
Record gone st st' : Prop := {
  n_kinv : kinv st';
  n_cur : curthread st'.1 = NULL;
  n_spl : curspl st'.1 > 0;
  n_threads : threads st'.1 = threads st.1;
  n_mem : st'.2 = st.2
}.

(** ** Safety for [n] steps

    Code runs without undefined accesses, keeps [guar], and the invariant holds
    when it is interrupted or gives up the processor.  A panic ends the run. *)
Section act.
Context (safe : ptr -> list (com mem) -> state -> Prop).

(** The next action of thread [t], and what follows it. *)
Definition act t k st : Prop :=
  match k with
  | [] => False
  | Skip :: k => safe t k st
  | Do m :: k => wpp True m (fun _ st' => guar t st st' /\ safe t k st') (fun _ _ => False) st
  | Let m f :: k => wpp True m (fun a st' => guar t st st' /\ safe t (f a :: k) st') (fun _ _ => False) st
  | Seq c1 c2 :: k => safe t (c1 :: c2 :: k) st
  | While b c :: k =>
      wpp True b (fun r st' => guar t st st' /\ safe t (if r : bool then c :: While b c :: k else k) st')
        (fun _ _ => False) st
  | Switch ns :: k =>
      wpp True (on_sys (mi_switch_out ns)) (fun r st' => r = true /\ gone st st' /\
        forall st'', off t st'' -> safe t (Do (on_sys mi_switch_in) :: k) st'') (fun _ _ => False) st
  | Fork name child f :: k =>
      wpp True (on_sys (try (thread_fork name))) (fun r st' =>
        match r with
        | inl _ => threads st'.1 = threads st.1
        | inr p => dom (threads st'.1) ⊆ {[p]} ∪ dom (threads st.1) /\ p ≠ t /\ p ≠ NULL /\
            forall y st'', off p st'' -> safe p [mi_threadstart y child] st''
        end /\ curthread st'.1 = curthread st.1 /\ st'.2 = st.2 /\ safe t (f r :: k) st') (fun _ _ => False) st
  end.

(** An interrupt before it. *)
Definition interrupted t k st : Prop :=
  wpp True (on_sys irq_enter) (fun saved st' =>
    guar t st st' /\ safe t (irq hardclock saved k) st' /\
    forall h, handler h -> safe t (irq (Do h) saved k) st') (fun _ _ => False) st.
End act.

Fixpoint safe (n : nat) t k st : Prop :=
  match n with
  | O => True
  | S n =>
      curthread st.1 = t /\
      (curspl st.1 = 0 -> kinv st /\ interrupted (safe n) t k st) /\
      act (safe n) t k st
  end.

Definition tri t (Pre : state -> Prop) (c : com mem) (Post : state -> Prop) : Prop :=
  forall n k st, Pre st -> (forall m st', (m <= n)%nat -> Post st' -> safe m t k st') -> safe n t (c :: k) st.

(** Interrupts are harmless: the interrupted code goes on from a state of which
    the invariant is all that is known. *)
Definition irq_tri t : Prop :=
  forall n k st, at_spl t 0 st -> (forall m st', (m <= n)%nat -> at_spl t 0 st' -> safe m t k st') ->
    interrupted (safe n) t k st.

(** Assertions that interrupts do not disturb. *)
Definition calm t (Pre : state -> Prop) : Prop :=
  forall st, Pre st -> curthread st.1 = t /\
    (curspl st.1 = 0 -> at_spl t 0 st /\ (forall st', at_spl t 0 st' -> Pre st') /\ irq_tri t).

Lemma safe_step t Pre n k st :
  calm t Pre -> Pre st -> (forall m st', (m <= n)%nat -> Pre st' -> safe m t k st') ->
  act (safe n) t k st -> safe (S n) t k st.
Proof.
  intros Hcalm Hpre IH Hact. destruct (Hcalm st Hpre) as [Hcur H0]. cbn [safe]. split; [done|]. split; [|done].
  intros Hspl. destruct (H0 Hspl) as (Hat & Hst & Hirq). split; [apply Hat|]. apply Hirq; auto.
Qed.

(** A triple follows from its first action. *)
Lemma tri_act t Pre c Post :
  calm t Pre ->
  (forall n k st, Pre st -> (forall m st', (m <= n)%nat -> Post st' -> safe m t k st') ->
     (forall m st', (m <= n)%nat -> Pre st' -> safe m t (c :: k) st') -> act (safe n) t (c :: k) st) ->
  tri t Pre c Post.
Proof.
  intros Hcalm Hact n k. induction n as [n IH] using lt_wf_ind. intros st Hpre Hk.
  destruct n as [|n]; [done|]. apply (safe_step t Pre); [done|done| |].
  - intros m st' Hm Hpre'. apply IH; [lia|done|]. intros m' st'' Hm'. apply Hk. lia.
  - apply Hact; [done| |].
    + intros m st' Hm. apply Hk. lia.
    + intros m st' Hm Hpre'. apply IH; [lia|done|]. intros m' st'' Hm'. apply Hk. lia.
Qed.

(** ** Rules *)

Lemma tri_skip t Pre : calm t Pre -> tri t Pre Skip Pre.
Proof. intros Hc. apply tri_act; [done|]. intros n k st Hpre Hk _. cbn. by apply Hk. Qed.

Lemma tri_do t Pre m Post :
  calm t Pre ->
  (forall st, Pre st -> wpp True m (fun _ st' => guar t st st' /\ Post st') (fun _ _ => False) st) ->
  tri t Pre (Do m) Post.
Proof.
  intros Hc Hm. apply tri_act; [done|]. intros n k st Hpre Hk _. cbn.
  eapply wpp_mono; [by apply Hm|done| |done]. intros _ st' [Hg HP]. split; [done|]. by apply Hk.
Qed.

Lemma tri_let t Pre {A} (m : M state A) f Mid Post :
  calm t Pre ->
  (forall st, Pre st -> wpp True m (fun a st' => guar t st st' /\ Mid a st') (fun _ _ => False) st) ->
  (forall a, tri t (Mid a) (f a) Post) ->
  tri t Pre (Let m f) Post.
Proof.
  intros Hc Hm Hf. apply tri_act; [done|]. intros n k st Hpre Hk _. cbn.
  eapply wpp_mono; [by apply Hm|done| |done]. intros a st' [Hg HP]. split; [done|]. by apply Hf.
Qed.

Lemma tri_seq t Pre c1 c2 Mid Post :
  calm t Pre -> tri t Pre c1 Mid -> tri t Mid c2 Post -> tri t Pre (Seq c1 c2) Post.
Proof.
  intros Hc H1 H2. apply tri_act; [done|]. intros n k st Hpre Hk _. cbn.
  apply H1; [done|]. intros m st' Hm HM. apply H2; [done|]. intros m' st'' Hm'. apply Hk. lia.
Qed.

Lemma tri_while t Inv b c Body Post :
  calm t Inv ->
  (forall st, Inv st -> wpp True b (fun r st' => guar t st st' /\ if r : bool then Body st' else Post st')
     (fun _ _ => False) st) ->
  tri t Body c Inv -> tri t Inv (While b c) Post.
Proof.
  intros Hc Hb Hbody. apply tri_act; [done|]. intros n k st Hpre Hk IH. cbn.
  eapply wpp_mono; [by apply Hb|done| |done]. intros [] st' [Hg HP]; (split; [done|]).
  - apply Hbody; [done|]. intros m st'' Hm HI. by apply IH.
  - by apply Hk.
Qed.

Lemma tri_mono t (Pre Pre' Post Post' : state -> Prop) c :
  tri t Pre' c Post' -> (forall st, Pre st -> Pre' st) -> (forall st, Post' st -> Post st) -> tri t Pre c Post.
Proof. intros H HP HQ n k st Hpre Hk. apply H; auto. Qed.

Lemma tri_switch t Pre ns Post :
  calm t Pre ->
  (forall st, Pre st -> wpp True (on_sys (mi_switch_out ns)) (fun r st' => r = true /\ gone st st') (fun _ _ => False) st) ->
  tri t (off t) (Do (on_sys mi_switch_in)) Post ->
  tri t Pre (Switch ns) Post.
Proof.
  intros Hc Hm Hin. apply tri_act; [done|]. intros n k st Hpre Hk _. cbn.
  eapply wpp_mono; [by apply Hm|done| |done]. intros r st' [-> Hg]. split; [done|]. split; [done|].
  intros st'' Hoff. by apply Hin.
Qed.

(** ** Frames *)

Lemma wpp_on_sys Y {A} (m : T A) (Q : A -> state -> Prop) E st :
  wpp Y m (fun a s => Q a (s, st.2)) (fun e s => E e (s, st.2)) st.1 -> wpp Y (on_sys m) Q E st.
Proof. unfold wpp, on_sys. by destruct (m st.1) as [[[e|a] s]| |]. Qed.

Lemma wpp_of_sys Y {A} (m : T A) (Q : A -> state -> Prop) E st :
  wpp Y (on_sys m) Q E st -> wpp Y m (fun a s => Q a (s, st.2)) (fun e s => E e (s, st.2)) st.1.
Proof. unfold wpp, on_sys. by destruct (m st.1) as [[[e|a] s]| |]. Qed.

Lemma guar_refl t st : guar t st st.
Proof. split; [done|done|eauto]. Qed.

Lemma guar_trans t st st1 st2 : guar t st st1 -> guar t st1 st2 -> guar t st st2.
Proof.
  intros [Hc1 Hd1 Ho1] [Hc2 Hd2 Ho2]. split; [congruence|set_solver|].
  intros a x Hx Hn Ht. destruct (Ho1 a x Hx Hn Ht) as (x1 & Hx1 & Heq1).
  destruct (Ho2 a x1 Hx1) as (x2 & Hx2 & Heq2); [congruence..|]. exists x2. split; [done|congruence].
Qed.

(** Code that leaves the objects alone. *)
Lemma guar_sys t st s' :
  curthread s' = curthread st.1 -> dom (threads s') ⊆ dom (threads st.1) -> guar t st (s', st.2).
Proof. intros Hc Hd. split; [done|done|eauto]. Qed.

Lemma kinv_cur st run sl zo :
  kinv_on st run sl zo -> curthread st.1 ≠ NULL -> exists ts, threads st.1 !! curthread st.1 = Some ts /\ stack_ok ts.
Proof.
  intros Hk Hc. pose proof (i_part _ _ _ _ (k_inv _ _ _ _ Hk)) as Hp.
  destruct (part_cur _ _ _ _ Hp Hc) as (_ & _ & _ & [ts Ht]). exists ts. split; [done|]. by eapply pt_stack.
Qed.

Lemma obj_ok_sub s s' sl sl' a o :
  obj_ok s sl a o -> (asleep s' sl' a -> asleep s sl a) -> obj_ok s' sl' a o.
Proof. destruct o; cbn; naive_solver. Qed.

(** Fewer sleepers, or the same ones. *)
Lemma kinv_sub st s' run sl zo run' sl' zo' :
  kinv_on st run sl zo -> inv s' run' sl' zo' -> 0 <= lbolt_counter s' < HZ ->
  (forall p, p ∈ sl' -> p ∈ sl /\ sleepaddr s' p = sleepaddr st.1 p) -> kinv_on (s', st.2) run' sl' zo'.
Proof.
  intros [] Hi Hck Hsub. split; cbn; try done. intros a o Ho. eapply obj_ok_sub; [by eauto|].
  intros (p & Hp & Ha). destruct (Hsub p Hp) as [Hp' Hs]. exists p. split; [done|congruence].
Qed.

(** Changes that keep the threads and the lists. *)
Lemma kinv_frame st s' run sl zo :
  kinv_on st run sl zo -> threads s' = threads st.1 -> curthread s' = curthread st.1 ->
  sleepers s' = sleepers st.1 -> zombies s' = zombies st.1 -> numthreads s' = numthreads st.1 ->
  runqueue s' = runqueue st.1 -> 0 <= lbolt_counter s' < HZ -> kinv_on (s', st.2) run sl zo.
Proof.
  intros Hk Ht. intros. eapply kinv_sub; [done|by eapply inv_frame; [apply Hk|..]|done|].
  intros p Hp. split; [done|]. unfold sleepaddr. by rewrite Ht.
Qed.

(** ** Switching *)

Lemma switched_out_gone st s' run sl zo :
  switched_out st.1 s' -> curspl st.1 > 0 -> kinv_on (s', st.2) run sl zo -> gone st (s', st.2).
Proof.
  intros (a & z & q & o & -> & _) Hspl Hk. split; try done. by exists run, sl, zo.
Qed.

Lemma off_nonnull t st : t ≠ NULL -> off t st -> curthread st.1 ≠ NULL.
Proof. intros Ht (_ & Hc & _). congruence. Qed.

(** Thread [t] may go to sleep on [a]. *)
Definition may_sleep (a : ptr) st : Prop :=
  match st.2.1 !! a with
  | Some (OSem x) => count x = 0
  | Some (OLock x) => locked x = 1
  | _ => True
  end.

Section thread.
Context (t : ptr) (Ht : t ≠ NULL).

Lemma off_calm_sub (Pre : state -> Prop) : (forall st, Pre st -> off t st) -> calm t Pre.
Proof. intros Hsub st Hpre. destruct (Hsub st Hpre) as (_ & Hc & Hs). split; [done|]. lia. Qed.

Lemma off_calm : calm t (off t).
Proof. by apply off_calm_sub. Qed.

Lemma switch_ready st :
  off t st ->
  wpp True (on_sys (mi_switch_out S_READY)) (fun r st' => r = true /\ gone st st') (fun _ _ => False) st.
Proof.
  intros Hoff. pose proof (off_nonnull t st Ht Hoff) as Hnn. destruct Hoff as ((run & sl & zo & Hk) & Hc & Hs).
  destruct (kinv_cur st run sl zo Hk Hnn) as (ts & Hts & Hst). pose proof (k_inv _ _ _ _ Hk) as Hi.
  apply wpp_on_sys. rewrite Hc in Hts. eapply (wpp_mi_switch_out True S_READY t ts); [apply Hi|done|done|done|done|done|done|exact (part_lengths _ _ _ _ (i_part _ _ _ _ Hi))|done|].
  rewrite <- Hc. intros s' l Hl Hout. split; [done|]. pose proof (inv_switched_out _ _ _ _ _ S_READY Hi Hnn ltac:(auto) Hout Hl) as Hi'.
  eapply switched_out_gone; [done|done|]. destruct Hout as (?&?&?&?&->&_).
  by eapply kinv_sub; [done|exact Hi'|apply Hk|].
Qed.

Lemma switch_sleep a st :
  off t st -> sleepaddr st.1 t = a -> may_sleep a st ->
  wpp True (on_sys (mi_switch_out S_SLEEP)) (fun r st' => r = true /\ gone st st') (fun _ _ => False) st.
Proof.
  intros Hoff Ha Hms. pose proof (off_nonnull t st Ht Hoff) as Hnn. destruct Hoff as ((run & sl & zo & Hk) & Hc & Hs).
  destruct (kinv_cur st run sl zo Hk Hnn) as (ts & Hts & Hst). pose proof (k_inv _ _ _ _ Hk) as Hi.
  apply wpp_on_sys. rewrite Hc in Hts. eapply (wpp_mi_switch_out True S_SLEEP t ts); [apply Hi|done|done|done|done|done|done|exact (part_lengths _ _ _ _ (i_part _ _ _ _ Hi))|done|].
  rewrite <- Hc. intros s' l Hl Hout. split; [done|]. pose proof (inv_switched_out _ _ _ _ _ S_SLEEP Hi Hnn ltac:(auto) Hout Hl) as Hi'.
  eapply switched_out_gone; [done|done|]. cbn in l. subst l. cbn [fst snd] in *.
  destruct Hout as (x1&x2&x3&x4&->&_). split; cbn; [exact Hi'|apply Hk| |apply Hk|apply Hk|apply Hk].
  intros b o Hb. destruct (decide (b = a)) as [->|Hne].
  - pose proof (k_objs _ _ _ _ Hk a o Hb) as Hok. unfold may_sleep in Hms. rewrite Hb in Hms.
    destruct o; cbn in *; naive_solver lia.
  - eapply obj_ok_sub; [by apply (k_objs _ _ _ _ Hk)|]. intros (p & Hp & Hpb). exists p. split; [|done].
    apply elem_of_app in Hp as [Hp|Hp]; [done|]. apply list_elem_of_singleton in Hp as ->. 
    exfalso. apply Hne. unfold sleepaddr in *. cbn in Hpb. congruence.
Qed.

Lemma tri_resume : tri t (off t) (Do (on_sys mi_switch_in)) (off t).
Proof.
  apply tri_do; [apply off_calm|]. intros st Hoff. pose proof (off_nonnull t st Ht Hoff) as Hnn.
  destruct Hoff as ((run & sl & zo & Hk) & Hc & Hs). pose proof (k_inv _ _ _ _ Hk) as Hi. pose proof (i_part _ _ _ _ Hi) as Hp.
  destruct (part_cur _ _ _ _ Hp Hnn) as (_ & Hnsl & Hnz & _).
  apply wpp_on_sys. unfold mi_switch_in. apply wpp_bind.
  eapply wpp_exorcise; [apply Hi|done| |done| |].
  - pose proof (pt_nodup _ _ _ _ Hp) as Hnd. rewrite !app_assoc in Hnd. by apply NoDup_app in Hnd as (_ & _ & ?).
  - intros p Hin. destruct (proj2 (pt_dom _ _ _ _ Hp p)) as [tp Htp]; [rewrite !elem_of_app; auto|].
    exists tp. split; [done|]. by eapply pt_dead.
  - intros s' Hl' Hex. pose proof (inv_exorcised _ _ _ _ _ Hi Hex Hl') as Hi'.
    assert (kinv_on (s', st.2) run sl []) as Hk'.
    { destruct Hex as (m & z & o & -> & Hm). eapply kinv_sub; [done|done|apply Hk|]. intros p Hin. split; [done|].
      unfold sleepaddr. cbn. rewrite Hm, decide_False; [done|]. intros Hz.
      pose proof (pt_nodup _ _ _ _ Hp) as Hnd. rewrite !(app_assoc _ _ (sl ++ zo)) in Hnd.
      apply NoDup_app in Hnd as (_ & _ & Hnd). apply NoDup_app in Hnd as (_ & Hd & _). by apply (Hd p). }
    assert (curthread s' = t /\ curspl s' > 0 /\ dom (threads s') ⊆ dom (threads st.1)) as (Hc' & Hs' & Hd').
    { destruct Hex as (m & z & o & -> & Hm). cbn. split; [done|]. split; [done|].
      intros p. rewrite !elem_of_dom, Hm. case_decide; [by intros []|done]. }
    destruct (kinv_cur _ _ _ _ Hk') as (ts & Hts & _); [cbn; congruence|].
    wpp_steps. eapply wpp_tread; [exact Hts|]. case_bool_decide; wpp_steps; [apply wpp_external|].
    + split; [apply guar_sys; [cbn; congruence|done]|]. split; [|done]. exists run, sl, []. by eapply (kinv_frame (s', st.2)); try done; apply Hk'.
    + split; [apply guar_sys; [cbn; congruence|done]|]. split; [|done]. by exists run, sl, [].
Qed.

(** ** Yielding and sleeping *)

Lemma at_calm spl : (spl = 0 -> irq_tri t) -> calm t (at_spl t spl).
Proof.
  intros Hirq st (Hk & Hc & Hs). split; [done|]. intros H0. rewrite H0 in Hs. subst spl.
  split; [by split|]. split; [done|auto].
Qed.

Lemma kinv_spl st n : kinv st -> kinv (set_curspl st.1 n, st.2).
Proof. intros (run & sl & zo & Hk). exists run, sl, zo. eapply kinv_frame; try done. apply Hk. Qed.

(** [splx(spl)] at the end of code with interrupts off. *)
Lemma tri_splx spl : tri t (off t) (Do (on_sys (_ ← splx spl; mret tt))) (at_spl t spl).
Proof.
  apply tri_do; [apply off_calm|]. intros st (Hk & Hc & Hs). apply wpp_on_sys. wpp_steps. apply wpp_splx. wpp_steps.
  split; [by apply guar_sys|]. split; [by apply kinv_spl|done].
Qed.

(** [splhigh()] at the start. *)
Lemma splhigh_off spl (Q : Z -> state -> Prop) E st :
  at_spl t spl st -> (forall st', guar t st st' -> off t st' -> st'.2 = st.2 -> Q spl st') ->
  wpp True (on_sys splhigh) Q E st.
Proof.
  intros (Hk & Hc & Hs) HQ. apply wpp_on_sys. apply wpp_splx. rewrite Hs. apply HQ; [by apply guar_sys| |done].
  split; [by apply kinv_spl|done].
Qed.

Lemma tri_switch_ready : tri t (off t) (Switch S_READY) (off t).
Proof. apply tri_switch; [apply off_calm|apply switch_ready|apply tri_resume]. Qed.

Lemma tri_thread_yield spl : (spl = 0 -> irq_tri t) -> tri t (at_spl t spl) thread_yield (at_spl t spl).
Proof.
  intros Hirq. apply tri_let with (Mid := fun a st => a = spl /\ off t st); [by apply at_calm| |].
  - intros st Hat. pose proof Hat as (Hk & Hc & Hs). apply wpp_on_sys. unfold thread_yield_begin, splhigh. wpp_steps.
    apply wpp_splx. wpp_steps. apply wpp_massert; [|done]. intros _. wpp_steps. cbn.
    split; [by apply guar_sys|]. split; [done|]. split; [by apply kinv_spl|done].
  - intros a. destruct (decide (a = spl)) as [->|Hne].
    2:{ intros n k st [Heq _]. done. }
    eapply tri_mono; [|by intros st [_ H]|done].
    eapply tri_seq; [apply off_calm|apply tri_switch_ready|apply tri_splx].
Qed.

(** The running thread writes its own structure. *)
Lemma kinv_twrite st run sl zo ts :
  kinv_on st run sl zo -> curthread st.1 = t -> stack_ok ts ->
  kinv_on (set_threads st.1 (<[t := ts]> (threads st.1)), st.2) run sl zo.
Proof.
  intros Hk Hc Hst. pose proof (k_inv _ _ _ _ Hk) as Hi. pose proof (i_part _ _ _ _ Hi) as Hp.
  assert (curthread st.1 ≠ NULL) as Hnn by congruence.
  destruct (part_cur _ _ _ _ Hp Hnn) as (_ & Hsl & Hzo & [t0 Ht0]). rewrite Hc in *.
  eapply kinv_sub; [done|by eapply inv_twrite|apply Hk|]. intros p Hin. split; [done|].
  unfold sleepaddr. cbn. by rewrite lookup_insert_ne by (by intros ->).
Qed.

Lemma tri_thread_sleep a :
  tri t (fun st => off t st /\ may_sleep a st) (thread_sleep a) (off t).
Proof.
  eapply tri_seq with (Mid := fun st => off t st /\ sleepaddr st.1 t = a /\ may_sleep a st).
  - apply off_calm_sub. by intros st [H _].
  - apply tri_do; [apply off_calm_sub; by intros st [H _]|]. intros st [((run & sl & zo & Hk) & Hc & Hs) Hms].
    apply wpp_on_sys. unfold thread_sleep_begin. wpp_steps. apply wpp_massert; [|done]. intros _. wpp_steps.
    destruct (kinv_cur _ _ _ _ Hk) as (ts & Hts & Hst); [congruence|]. eapply wpp_tread; [done|]. rewrite Hc in *.
    apply wpp_twrite. split; [|split; [|split]].
    + apply guar_sys; [done|]. cbn. rewrite dom_insert_lookup; [done|by exists ts].
    + split; [|done]. exists run, sl, zo. by apply kinv_twrite.
    + unfold sleepaddr. cbn. by rewrite lookup_insert_eq.
    + done.
  - eapply tri_seq; [apply off_calm_sub; by intros st [H _]| |].
    + apply tri_switch; [apply off_calm_sub; by intros st [H _]| |apply tri_resume].
      intros st (Hoff & Hsa & Hms). by eapply switch_sleep.
    + apply tri_do; [apply off_calm|]. intros st ((run & sl & zo & Hk) & Hc & Hs). apply wpp_on_sys.
      unfold thread_sleep_end. wpp_steps. destruct (kinv_cur _ _ _ _ Hk) as (ts & Hts & Hst); [congruence|].
      eapply wpp_tread; [done|]. rewrite Hc in *. apply wpp_twrite. split.
      * apply guar_sys; [done|]. cbn. rewrite dom_insert_lookup; [done|by exists ts].
      * split; [|done]. exists run, sl, zo. by apply kinv_twrite.
Qed.

(** ** The clock and other interrupts *)

Lemma wakeup_kinv a st (Q : unit -> state -> Prop) E :
  kinv st -> curspl st.1 > 0 ->
  (forall s', kinv (s', st.2) -> relisted st.1 s' -> Q tt (s', st.2)) ->
  wpp True (on_sys (thread_wakeup a)) Q E st.
Proof.
  intros (run & sl & zo & Hk) Hs HQ. apply wpp_on_sys. eapply wpp_wakeup_inv; [apply Hk|done|done|].
  intros s' Hi Hr. apply HQ; [|done]. eexists _, _, _. eapply kinv_sub; [done|done| |].
  - destruct Hr as (?&?&?&->&_). apply Hk.
  - intros p Hin. apply list_elem_of_filter in Hin as [_ Hin]. split; [done|]. by apply relisted_sleepaddr.
Qed.

Lemma relisted_guar st s' : relisted st.1 s' -> guar t st (s', st.2).
Proof. intros (?&?&?&->&_). by apply guar_sys. Qed.

Lemma tick_kinv st :
  kinv st -> curspl st.1 > 0 ->
  wpp True (on_sys hardclock_tick) (fun _ st' => guar t st st' /\ kinv st' /\ curspl st'.1 = curspl st.1 /\
    threads st'.1 = threads st.1) (fun _ _ => False) st.
Proof.
  intros (run & sl & zo & Hk) Hs. pose proof (k_clock _ _ _ _ Hk) as Hck. apply wpp_on_sys.
  unfold hardclock_tick, HZ in *. wpp_steps.
  eapply wpp_lift; [apply int_op_ok; unfold INT_MIN, INT_MAX; lia|]. wpp_steps. case_bool_decide as Hz.
  - wpp_steps. eapply wpp_wakeup_inv; [eapply inv_frame; [apply Hk|done..]|done|done|].
    intros s' Hi Hr. destruct Hr as (a & q & o & -> & Hr).
    split; [by apply guar_sys|]. split; [|done]. eexists _, _, _. eapply kinv_sub; [done|done|done|].
    intros p Hin. apply list_elem_of_filter in Hin as [_ Hin]. done.
  - wpp_steps. split; [by apply guar_sys|]. split; [|done]. exists run, sl, zo. eapply kinv_frame; try done.
    cbn. unfold HZ. lia.
Qed.

Lemma tri_hardclock spl : spl > 0 -> tri t (at_spl t spl) hardclock (at_spl t spl).
Proof.
  intros Hspl. eapply tri_seq; [apply at_calm; lia| |apply tri_thread_yield; lia].
  apply tri_do; [apply at_calm; lia|]. intros st (Hk & Hc & Hs).
  eapply wpp_mono; [apply tick_kinv; [done|lia]|done| |done]. intros _ st' (Hg & Hk' & Hs' & _).
  split; [done|]. pose proof (g_cur _ _ _ Hg). split; [done|]. split; congruence.
Qed.
End thread.

(** Device interrupt handlers keep the invariant, take no lock away and make or
    destroy no thread. *)
Definition handler_ok : Prop :=
  forall h, handler h -> forall st, kinv st -> curspl st.1 > 0 ->
    wpp True h (fun _ st' => kinv st' /\ curspl st'.1 = curspl st.1 /\ guar NULL st st' /\
      threads st'.1 = threads st.1) (fun _ _ => False) st.

Lemma guar_null t st st' : guar NULL st st' -> guar t st st'.
Proof. intros [Hc Hd Ho]. split; [done|done|]. intros a x Hx Hn _. eauto. Qed.

Lemma irq_tri_all t : t ≠ NULL -> handler_ok -> irq_tri t.
Proof.
  intros Ht Hh n k st (Hk & Hc & Hs) Hcont. unfold interrupted. apply wpp_on_sys.
  unfold irq_enter. wpp_steps. apply wpp_assert_spl; [done|]. wpp_steps. set (st' := (_, st.2)).
  assert (at_spl t SPL_HIGH st') as Hat.
  { split; [|done]. destruct Hk as (run & sl & zo & Hk). exists run, sl, zo. eapply kinv_frame; try done. apply Hk. }
  assert (forall m st'', (m <= n)%nat -> at_spl t SPL_HIGH st'' ->
    safe m t (Do (on_sys (irq_leave (curspl st.1, in_interrupt st.1))) :: k) st'') as Hleave.
  { intros m st'' Hm Hat''. eapply (tri_do t (at_spl t SPL_HIGH) _ (at_spl t 0)); [by apply at_calm| |exact Hat''|].
    - intros st1 (Hk1 & Hc1 & Hs1). apply wpp_on_sys. unfold irq_leave, splhigh. wpp_steps. apply wpp_splx. wpp_steps.
      split; [by apply guar_sys|]. split; [|by cbn].
      destruct Hk1 as (run & sl & zo & Hk1). exists run, sl, zo. eapply kinv_frame; try done. apply Hk1.
    - intros m' st1 Hm'. apply Hcont. lia. }
  split; [by apply guar_sys|]. split.
  - apply (tri_hardclock t Ht SPL_HIGH); [done|done|done].
  - intros h Hhh. eapply (tri_do t (at_spl t SPL_HIGH) _ (at_spl t SPL_HIGH)); [by apply at_calm| |exact Hat|done].
    intros st1 (Hk1 & Hc1 & Hs1). eapply wpp_mono; [apply Hh; [done|done|by rewrite Hs1]|done| |done].
    intros _ st2 (Hk2 & Hs2 & Hg2 & _). split; [by apply guar_null|]. split; [done|]. pose proof (g_cur _ _ _ Hg2).
    split; congruence.
Qed.
End logic.
End SynchInv.
