(* ===== verification/SynchTriples.v ===== *)
(** * The synchronization primitives keep the invariant

    One triple for each function of [synch.c], for [clocksleep], [thread_fork]
    and [thread_exit]: called with the invariant in force, at any interrupt
    priority, it returns with the invariant in force at that priority. *)

From S2P Require Import Prelude KArray KQueue Thread ThreadSpec Concurrency Synch SynchInv.

Module SynchTriples.
Import Thread ThreadSpec Concurrency Synch SynchInv.

Section triples.
Context {U : Type}.
Abbreviation mem := (gmap ptr obj * U)%type.
Abbreviation state := (sys * mem)%type.
Implicit Types (st : state) (t : ptr).
Context (kinds : gmap ptr kind) (handler : M state unit -> Prop).
Abbreviation kinv := (kinv (U := U) kinds).
Abbreviation kinv_on := (kinv_on (U := U) kinds).
Abbreviation off := (off (U := U) kinds).
Abbreviation at_spl := (at_spl (U := U) kinds).
Abbreviation tri := (tri (U := U) kinds handler).
Abbreviation irq_tri := (irq_tri (U := U) kinds handler).

(** ** Objects *)

Lemma kind_lookup st run sl zo a kd :
  kinv_on st run sl zo -> kinds !! a = Some kd -> exists o, st.2.1 !! a = Some o /\ kind_of o = kd.
Proof.
  intros Hk Ha. rewrite <- (k_kinds _ _ _ _ _ Hk), lookup_fmap in Ha.
  destruct (st.2.1 !! a) as [o|]; [|done]. cbn in Ha. exists o. naive_solver.
Qed.

Lemma wpp_get_obj Y a o (Q : obj -> state -> Prop) E st :
  st.2.1 !! a = Some o -> Q o st -> wpp Y (get_obj a) Q E st.
Proof. intros Ho HQ. unfold get_obj. wpp_steps. rewrite Ho. by eapply wpp_lift. Qed.

Lemma wpp_get_sem Y a x (Q : semaphore -> state -> Prop) E st :
  st.2.1 !! a = Some (OSem x) -> Q x st -> wpp Y (get_sem a) Q E st.
Proof. intros Ho HQ. unfold get_sem. wpp_steps. eapply wpp_get_obj; [done|]. by eapply wpp_lift. Qed.

Lemma wpp_get_lock Y a x (Q : lock -> state -> Prop) E st :
  st.2.1 !! a = Some (OLock x) -> Q x st -> wpp Y (get_lock a) Q E st.
Proof. intros Ho HQ. unfold get_lock. wpp_steps. eapply wpp_get_obj; [done|]. by eapply wpp_lift. Qed.

Definition put_obj st a o : state := (st.1, (<[a := o]> st.2.1, st.2.2)).

Lemma wpp_set_obj Y a o (Q : unit -> state -> Prop) E st : Q tt (put_obj st a o) -> wpp Y (set_obj a o) Q E st.
Proof. done. Qed.

Lemma wpp_cur Y (Q : ptr -> state -> Prop) E st : Q (curthread st.1) st -> wpp Y cur Q E st.
Proof. done. Qed.

Lemma wpp_assert_ptr p (Q : unit -> state -> Prop) E st : Q tt st -> wpp True (assert_ptr p) Q E st.
Proof. intros HQ. by apply wpp_massert. Qed.

Lemma wpp_assert_not_irq (Q : unit -> state -> Prop) E st : Q tt st -> wpp True assert_not_irq Q E st.
Proof. intros HQ. unfold assert_not_irq. wpp_steps. by apply wpp_massert. Qed.

Lemma kinv_put st run sl zo a o o' :
  kinv_on st run sl zo -> st.2.1 !! a = Some o -> kind_of o' = kind_of o -> obj_ok st.1 sl a o' ->
  kinv_on (put_obj st a o') run sl zo.
Proof.
  intros [] Ho Hkd Hok. split; cbn; try done.
  - rewrite <- k_kinds0, fmap_insert, Hkd. apply insert_id. by rewrite lookup_fmap, Ho.
  - intros b ob. destruct (decide (b = a)) as [->|]; [rewrite lookup_insert_eq; by intros [= <-]|].
    rewrite lookup_insert_ne by done. apply k_objs0.
  - rewrite lookup_insert_ne; [done|]. intros ->. congruence.
  - rewrite lookup_insert_ne; [done|]. intros ->. congruence.
Qed.

Lemma guar_put t st a o o' :
  st.2.1 !! a = Some o -> (forall x, o = OLock x -> owner x = NULL \/ owner x = t) -> guar t st (put_obj st a o').
Proof.
  intros Ho Hown. split; [done|done|]. intros b x Hb Hn Ht. cbn.
  destruct (decide (b = a)) as [->|]; [|rewrite lookup_insert_ne by done; eauto].
  exfalso. destruct (Hown x); congruence.
Qed.

(** Replacing the object at [a] and waking everyone who sleeps there. *)
Lemma wakeup_put st a o o' run sl zo (Q : unit -> state -> Prop) E :
  kinv_on st run sl zo -> curspl st.1 > 0 -> st.2.1 !! a = Some o -> kind_of o' = kind_of o ->
  (forall s' sl', ~ asleep s' sl' a -> obj_ok s' sl' a o') ->
  (forall s', kinv (s', (put_obj st a o').2) -> relisted st.1 s' -> Q tt (s', (put_obj st a o').2)) ->
  wpp True (on_sys (thread_wakeup a)) Q E (put_obj st a o').
Proof.
  intros Hk Hs Ho Hkd Hok HQ. apply wpp_on_sys. cbn [fst put_obj]. eapply wpp_wakeup_inv; [apply Hk|done|done|].
  intros s' Hi Hr. apply HQ; [|done]. eexists _, _, _.
  assert (forall p, sleepaddr s' p = sleepaddr st.1 p) as Hsa by (intros p; by apply relisted_sleepaddr).
  assert (0 <= lbolt_counter s' < HZ) as Hck by (destruct Hr as (?&?&?&->&_); apply Hk).
  assert (kinv_on (s', st.2) (run ++ filter (waits st.1 a) sl) (filter (elsewhere st.1 a) sl) zo) as Hk'.
  { eapply kinv_sub; [done|done|done|]. intros p [_ Hin]%list_elem_of_filter. done. }
  apply (kinv_put (s', st.2) _ _ _ a o); [done|done|done|]. apply Hok.
  intros (p & Hin & Hp). apply list_elem_of_filter in Hin as [Hne _]. cbn in Hp. rewrite Hsa in Hp. done.
Qed.

Section thread.
Context (t : ptr) (Ht : t ≠ NULL).

(** [splhigh] in code that runs with the invariant in force. *)
Lemma splhigh_kinv st (Q : Z -> state -> Prop) E :
  kinv st -> (forall st', kinv st' -> curspl st'.1 > 0 -> guar t st st' ->
    st' = (set_curspl st.1 SPL_HIGH, st.2) -> Q (curspl st.1) st') ->
  wpp True (on_sys splhigh) Q E st.
Proof.
  intros Hk HQ. apply wpp_on_sys, wpp_splx. apply HQ; [by apply kinv_spl|done|by apply guar_sys|done].
Qed.

Lemma wpp_restore spl st (Q : unit -> state -> Prop) E :
  kinv st -> (kinv (set_curspl st.1 spl, st.2) -> guar t st (set_curspl st.1 spl, st.2) ->
    Q tt (set_curspl st.1 spl, st.2)) -> wpp True (restore spl) Q E st.
Proof.
  intros Hk HQ. unfold restore. wpp_steps. apply wpp_on_sys, wpp_splx. wpp_steps.
  apply HQ; [by apply kinv_spl|by apply guar_sys].
Qed.
End thread.

(** ** [V] *)

Lemma V_kinv a st :
  kinds !! a = Some KSem -> kinv st ->
  wpp True (V a) (fun _ st' => kinv st' /\ curspl st'.1 = curspl st.1 /\ guar NULL st st' /\
    threads st'.1 = threads st.1) (fun _ _ => False) st.
Proof.
  intros Ha Hk. unfold V. wpp_steps. apply wpp_assert_ptr. wpp_steps. apply (splhigh_kinv NULL); [done|].
  intros st1 (run & sl & zo & Hk1) Hs1 Hg1 Heq. wpp_steps.
  destruct (kind_lookup _ _ _ _ _ _ Hk1 Ha) as ([x|x|x] & Hx & Hkd); try done.
  eapply wpp_get_sem; [done|]. wpp_steps. apply wpp_set_obj. wpp_steps. apply wpp_massert; [|done].
  intros Hpos%bool_decide_eq_true_1. wpp_steps. eapply wakeup_put; [done|done|done|done| |].
  { intros s' sl' Hno. split; [cbn; lia|by intros ?%Hno]. }
  intros s2 Hk2 Hr2. wpp_steps.
  assert (guar NULL st1 (put_obj st1 a (OSem (mkSem (sem_name x) (s32 (count x + 1)))))) as Hg2
    by (eapply guar_put; [done|by intros]).
  apply (wpp_restore NULL); [done|]. intros Hk3 Hg3. split; [done|]. split; [done|].
  destruct Hr2 as (?&?&?&->&_). split; [|by subst st1].
  eapply guar_trans; [exact Hg1|]. eapply guar_trans; [exact Hg2|]. eapply guar_trans; [|exact Hg3]. by apply guar_sys.
Qed.

Section blocking.
Context (t : ptr) (Ht : t ≠ NULL).

Lemma at_intro spl st st' : at_spl t spl st -> kinv st' -> curspl st'.1 = curspl st.1 -> guar t st st' -> at_spl t spl st'.
Proof. intros (_ & Hc & Hs) Hk Hs' Hg. pose proof (g_cur _ _ _ Hg). split; [done|]. split; congruence. Qed.

Lemma tri_V a spl :
  kinds !! a = Some KSem -> (spl = 0 -> irq_tri t) -> tri t (at_spl t spl) (Do (V a)) (at_spl t spl).
Proof.
  intros Ha Hirq. apply tri_do; [by apply at_calm|]. intros st Hat. pose proof Hat as (Hk & _ & _).
  eapply wpp_mono; [by apply V_kinv|done| |done]. intros _ st' (Hk' & Hs' & Hg & _).
  apply (guar_null t) in Hg. split; [done|by eapply at_intro].
Qed.

(** Code with interrupts off may call code written for any priority. *)
Lemma tri_off c : (forall spl, spl > 0 -> tri t (at_spl t spl) c (at_spl t spl)) -> tri t (off t) c (off t).
Proof.
  intros Htri n k st (Hk & Hc & Hs) Hcont. apply (Htri (curspl st.1)); [done|done|].
  intros m st' Hm (Hk' & Hc' & Hs'). apply Hcont; [done|]. split; [done|]. split; [done|]. lia.
Qed.

(** [spl = splhigh()] in the function [m] that also checks its arguments. *)
Lemma enter_off spl (m : M state Z) :
  (forall Q E st, (forall st', wpp True (on_sys splhigh) Q E st' -> st' = st -> wpp True m Q E st)) ->
  forall st, at_spl t spl st ->
  wpp True m (fun a st' => guar t st st' /\ a = spl /\ off t st') (fun _ _ => False) st.
Proof.
  intros Hm st Hat. eapply Hm; [|done]. eapply splhigh_off; [done|]. intros st' Hg Hoff _. done.
Qed.

Lemma tri_value (spl : Z) (c : Z -> com mem) (Mid Post : state -> Prop) a :
  tri t Mid (c spl) Post -> tri t (fun st => a = spl /\ Mid st) (c a) Post.
Proof. intros Htri n k st [-> Hm]. by apply Htri. Qed.

(** ** [P] *)

Lemma tri_P a spl :
  kinds !! a = Some KSem -> (spl = 0 -> irq_tri t) -> tri t (at_spl t spl) (P a) (at_spl t spl).
Proof.
  intros Ha Hirq. apply tri_let with (Mid := fun r st => r = spl /\ off t st); [by apply at_calm| |].
  { apply enter_off. intros Q E st st' Hw ->. unfold P_enter. wpp_steps. apply wpp_assert_ptr. wpp_steps.
    apply wpp_assert_not_irq. done. }
  intros r. apply (tri_value spl (fun r => Seq _ (Do (P_take a r)))).
  apply tri_seq with (Mid := off t); [apply off_calm| |].
  - apply tri_while with (Body := fun st => off t st /\ may_sleep a st); [apply off_calm| |by apply tri_thread_sleep].
    intros st Hoff. pose proof Hoff as ((run & sl & zo & Hk) & _).
    destruct (kind_lookup _ _ _ _ _ _ Hk Ha) as ([x|x|x] & Hx & Hkd); try done. wpp_steps.
    eapply wpp_get_sem; [done|]. wpp_steps. split; [apply guar_refl|]. case_bool_decide as Hz; [|done].
    split; [done|]. unfold may_sleep. by rewrite Hx.
  - apply tri_do; [apply off_calm|]. intros st ((run & sl & zo & Hk) & Hc & Hs).
    destruct (kind_lookup _ _ _ _ _ _ Hk Ha) as ([x|x|x] & Hx & Hkd); try done. unfold P_take. wpp_steps.
    eapply wpp_get_sem; [done|]. wpp_steps. apply wpp_massert; [|done]. intros Hpos%bool_decide_eq_true_1. wpp_steps.
    apply wpp_set_obj. wpp_steps. assert (kinv (put_obj st a (OSem (mkSem (sem_name x) (count x - 1))))) as Hk'.
    { exists run, sl, zo. eapply kinv_put; [done|done|done|]. pose proof (k_objs _ _ _ _ _ Hk a _ Hx) as [H0 Hsl].
      split; [cbn; lia|]. intros Has%Hsl. lia. }
    apply (wpp_restore t); [done|]. intros Hk2 Hg2. split; [|by split].
    eapply guar_trans; [|exact Hg2]. eapply guar_put; [done|by intros].
Qed.

(** ** Locks *)

Lemma tri_lock_acquire a spl :
  kinds !! a = Some KLock -> (spl = 0 -> irq_tri t) -> tri t (at_spl t spl) (lock_acquire a) (at_spl t spl).
Proof.
  intros Ha Hirq. apply tri_let with (Mid := fun r st => r = spl /\ off t st); [by apply at_calm| |].
  { apply enter_off. intros Q E st st' Hw ->. unfold acquire_enter. wpp_steps. apply wpp_assert_ptr. wpp_steps.
    apply wpp_assert_not_irq. done. }
  intros r. apply (tri_value spl (fun r => Seq _ (Do (acquire_take a r)))).
  apply tri_seq with (Mid := off t); [apply off_calm| |].
  - apply tri_while with (Body := fun st => off t st /\ may_sleep a st); [apply off_calm| |by apply tri_thread_sleep].
    intros st Hoff. pose proof Hoff as ((run & sl & zo & Hk) & _).
    destruct (kind_lookup _ _ _ _ _ _ Hk Ha) as ([x|x|x] & Hx & Hkd); try done. wpp_steps.
    eapply wpp_get_lock; [done|]. wpp_steps. split; [apply guar_refl|]. case_bool_decide as Hz; [|done].
    split; [done|]. unfold may_sleep. by rewrite Hx.
  - apply tri_do; [apply off_calm|]. intros st ((run & sl & zo & Hk) & Hc & Hs).
    destruct (kind_lookup _ _ _ _ _ _ Hk Ha) as ([x|x|x] & Hx & Hkd); try done. unfold acquire_take. wpp_steps.
    eapply wpp_get_lock; [done|]. wpp_steps. apply wpp_massert; [|done]. intros Hl%bool_decide_eq_true_1. wpp_steps.
    apply wpp_massert; [|done]. intros Hown%bool_decide_eq_true_1. wpp_steps. apply wpp_cur. wpp_steps.
    apply wpp_set_obj. wpp_steps. rewrite Hc.
    assert (kinv (put_obj st a (OLock (mkLock (lock_name x) 1 t)))) as Hk'.
    { exists run, sl, zo. eapply kinv_put; [done|done|done|]. by right. }
    apply (wpp_restore t); [done|]. intros Hk2 Hg2. split; [|by split].
    eapply guar_trans; [|exact Hg2]. eapply guar_put; [done|]. intros y [= <-]. by left.
Qed.

Lemma wpp_assert_held a st run sl zo (Q : lock -> state -> Prop) E :
  kinds !! a = Some KLock -> kinv_on st run sl zo -> curthread st.1 = t ->
  (forall x, st.2.1 !! a = Some (OLock x) -> locked x = 1 -> owner x = t -> Q x st) ->
  wpp True (assert_held a) Q E st.
Proof.
  intros Ha Hk Hc HQ. destruct (kind_lookup _ _ _ _ _ _ Hk Ha) as ([x|x|x] & Hx & Hkd); try done.
  unfold assert_held. wpp_steps. eapply wpp_get_lock; [done|]. wpp_steps. apply wpp_cur. wpp_steps.
  apply wpp_massert; [|done]. intros Hl%bool_decide_eq_true_1. wpp_steps.
  apply wpp_massert; [|done]. intros Hown%bool_decide_eq_true_1. wpp_steps. apply HQ; [done|done|congruence].
Qed.

Lemma release_kinv a st :
  kinds !! a = Some KLock -> kinv st -> curthread st.1 = t ->
  wpp True (lock_release a) (fun _ st' => kinv st' /\ curspl st'.1 = curspl st.1 /\ guar t st st') (fun _ _ => False) st.
Proof.
  intros Ha Hk Hc. unfold lock_release. wpp_steps. apply wpp_assert_ptr. wpp_steps. apply (splhigh_kinv t); [done|].
  intros st1 (run & sl & zo & Hk1) Hs1 Hg1 Heq. wpp_steps. pose proof (g_cur _ _ _ Hg1) as Hc1.
  eapply wpp_assert_held; [done|done|congruence|]. intros x Hx Hl Hown. wpp_steps. apply wpp_set_obj. wpp_steps.
  eapply wakeup_put; [done|done|done|done| |].
  { intros s' sl' Hno. by left. }
  intros s2 Hk2 Hr2. wpp_steps.
  assert (guar t st1 (put_obj st1 a (OLock (mkLock (lock_name x) 0 NULL)))) as Hg2
    by (eapply guar_put; [done|intros y [= <-]; by right]).
  apply (wpp_restore t); [done|]. intros Hk3 Hg3. split; [done|]. split; [done|].
  eapply guar_trans; [exact Hg1|]. eapply guar_trans; [exact Hg2|]. eapply guar_trans; [|exact Hg3].
  destruct Hr2 as (?&?&?&->&_). by apply guar_sys.
Qed.

Lemma tri_lock_release a spl :
  kinds !! a = Some KLock -> (spl = 0 -> irq_tri t) -> tri t (at_spl t spl) (Do (lock_release a)) (at_spl t spl).
Proof.
  intros Ha Hirq. apply tri_do; [by apply at_calm|]. intros st Hat. pose proof Hat as (Hk & Hc & _).
  eapply wpp_mono; [by apply release_kinv|done| |done]. intros _ st' (Hk' & Hs' & Hg).
  split; [done|by eapply at_intro].
Qed.

(** ** Condition variables *)

Lemma tri_cv_wait c a spl :
  kinds !! c = Some KCv -> kinds !! a = Some KLock -> (spl = 0 -> irq_tri t) ->
  tri t (at_spl t spl) (cv_wait c a) (at_spl t spl).
Proof.
  intros Hcv Ha Hirq.
  apply tri_let with (Mid := fun r st => r = spl /\ off t st); [by apply at_calm| |].
  { intros st (Hk & Hc & Hs). unfold cv_wait_enter. wpp_steps. apply wpp_assert_ptr. wpp_steps. apply wpp_assert_ptr.
    wpp_steps. apply wpp_assert_not_irq. wpp_steps. apply (splhigh_kinv t); [done|].
    intros st1 Hk1 Hs1 Hg1 _. wpp_steps. pose proof (g_cur _ _ _ Hg1) as Hc1. pose proof Hk1 as (run & sl & zo & Hk1').
    eapply wpp_assert_held; [done|done|congruence|]. intros x _ _ _. wpp_steps.
    eapply wpp_mono; [apply (release_kinv a st1); [done|done|congruence]|done| |done].
    intros _ st2 (Hk2 & Hs2 & Hg2). wpp_steps. pose proof (g_cur _ _ _ Hg2) as Hc2.
    split; [by eapply guar_trans|]. split; [done|]. split; [done|]. split; [congruence|lia]. }
  intros r. apply (tri_value spl (fun r => Seq _ (Seq _ (Do (restore r))))).
  eapply tri_seq; [apply off_calm|eapply tri_mono; [by apply (tri_thread_sleep _ _ t Ht c)| |done]|].
  - intros st Hoff. split; [done|]. pose proof Hoff as ((run & sl & zo & Hk) & _).
    destruct (kind_lookup _ _ _ _ _ _ Hk Hcv) as ([x|x|x] & Hx & Hkd); try done. unfold may_sleep. by rewrite Hx.
  - eapply tri_seq; [apply off_calm|apply tri_off; intros spl' Hpos; by apply tri_lock_acquire; [|lia]|].
    apply tri_do; [apply off_calm|]. intros st (Hk & Hc & Hs). apply (wpp_restore t); [done|].
    intros Hk' Hg. split; [done|by split].
Qed.

Lemma tri_cv_broadcast c a spl :
  kinds !! a = Some KLock -> (spl = 0 -> irq_tri t) -> tri t (at_spl t spl) (Do (cv_broadcast c a)) (at_spl t spl).
Proof.
  intros Ha Hirq. apply tri_do; [by apply at_calm|]. intros st (Hk & Hc & Hs). unfold cv_broadcast. wpp_steps.
  apply wpp_assert_ptr. wpp_steps. apply wpp_assert_ptr. wpp_steps. apply (splhigh_kinv t); [done|].
  intros st1 Hk1 Hs1 Hg1 _. wpp_steps. pose proof (g_cur _ _ _ Hg1) as Hc1. pose proof Hk1 as (run & sl & zo & Hk1').
  eapply wpp_assert_held; [done|done|congruence|]. intros x _ _ _. wpp_steps.
  apply (wakeup_kinv kinds); [done|done|]. intros s2 Hk2 Hr2. wpp_steps. apply (wpp_restore t); [done|].
  intros Hk3 Hg3. assert (guar t st1 (s2, st1.2)) as Hg2 by (destruct Hr2 as (?&?&?&->&_); by apply guar_sys).
  pose proof (g_cur _ _ _ Hg2) as Hc2. cbn [fst] in Hc2.
  split; [eapply guar_trans; [exact Hg1|]; by eapply guar_trans|]. split; [done|]. split; [cbn; congruence|by cbn].
Qed.

Lemma tri_cv_signal c a spl :
  kinds !! a = Some KLock -> (spl = 0 -> irq_tri t) -> tri t (at_spl t spl) (Do (cv_signal c a)) (at_spl t spl).
Proof.
  intros Ha Hirq. apply tri_do; [by apply at_calm|]. intros st (Hk & Hc & Hs). unfold cv_signal. wpp_steps.
  apply wpp_assert_ptr. wpp_steps. apply wpp_assert_ptr. wpp_steps. apply (splhigh_kinv t); [done|].
  intros st1 Hk1 Hs1 Hg1 _. wpp_steps. pose proof (g_cur _ _ _ Hg1) as Hc1. pose proof Hk1 as (run & sl & zo & Hk1').
  eapply wpp_assert_held; [done|done|congruence|]. intros x _ _ _. wpp_steps.
  apply wpp_on_sys. eapply wpp_wakeup_one_inv; [apply Hk1'|done|done|]. intros s2 run' sl' Hi2 Hr2 Hsub. wpp_steps.
  assert (kinv (s2, st1.2)) as Hk2.
  { exists run', sl', zo. eapply kinv_sub; [done|done| |].
    - destruct Hr2 as (?&?&?&->&_). apply Hk1'.
    - intros p Hp. split; [auto|by apply relisted_sleepaddr]. }
  apply (wpp_restore t); [done|].
  intros Hk3 Hg3. assert (guar t st1 (s2, st1.2)) as Hg2 by (destruct Hr2 as (?&?&?&->&_); by apply guar_sys).
  pose proof (g_cur _ _ _ Hg2) as Hc2. cbn [fst] in Hc2.
  split; [eapply guar_trans; [exact Hg1|]; by eapply guar_trans|]. split; [done|]. split; [cbn; congruence|by cbn].
Qed.

(** ** [clocksleep] *)

Lemma tri_clocksleep num spl : (spl = 0 -> irq_tri t) -> tri t (at_spl t spl) (clocksleep num) (at_spl t spl).
Proof.
  intros Hirq. apply tri_let with (Mid := fun r st => r = spl /\ off t st); [by apply at_calm| |].
  { apply enter_off. by intros Q E st st' Hw ->. }
  intros r. apply (tri_value spl (fun r => Seq _ (Do (on_sys (_ ← splx r; mret tt))))).
  eapply tri_seq; [apply off_calm| |apply tri_splx]. induction (Z.to_nat num) as [|m IH]; cbn [clocksleep_loop].
  - apply tri_skip, off_calm.
  - eapply tri_seq; [apply off_calm| |apply IH]. eapply tri_mono; [by apply (tri_thread_sleep _ _ t Ht lbolt)| |done].
    intros st Hoff. split; [done|]. pose proof Hoff as ((run & sl & zo & Hk) & _). unfold may_sleep.
    by rewrite (k_lbolt _ _ _ _ _ Hk).
Qed.

(** ** [thread_exit] *)

(** The thread is about to become a zombie; the invariant held in [st0]. *)
Definition exiting st : Prop :=
  curthread st.1 = t /\ curspl st.1 > 0 /\ exists st0 run sl zo, kinv_on st0 run sl zo /\ st0.2 = st.2 /\
    leaving st.1 run sl zo /\ lbolt_counter st.1 = lbolt_counter st0.1 /\
    forall p, p ∈ sl -> sleepaddr st.1 p = sleepaddr st0.1 p.

(** The parts of [thread_exit] that dispose of the address space and of the
    current directory. *)
Lemma exit_vmspace ts (Q : unit -> sys -> Prop) E s :
  curthread s = t -> threads s !! t = Some ts ->
  (forall ts' cs, t_vmspace ts' = NULL -> t_stack ts' = t_stack ts ->
     Q tt (set_calls (set_threads s (<[t := ts']> (threads s))) cs)) ->
  wpp True (if bool_decide (t_vmspace ts ≠ NULL) then
     _ ← twrite t (set_vmspace ts NULL); external (as_destroy (t_vmspace ts)) else mret tt) Q E s.
Proof.
  intros Hc Hts HQ. case_bool_decide as Hv; wpp_steps.
  - apply wpp_twrite. apply wpp_external. by apply HQ.
  - specialize (HQ ts (calls s)). rewrite insert_id in HQ by done. destruct s. apply HQ; [|done].
    by destruct (decide (t_vmspace ts = NULL)).
Qed.

Lemma exit_cwd ts (Q : unit -> sys -> Prop) E s :
  curthread s = t -> threads s !! t = Some ts ->
  (forall ts' cs, t_cwd ts' = NULL -> t_vmspace ts' = t_vmspace ts -> t_stack ts' = t_stack ts ->
     Q tt (set_calls (set_threads s (<[t := ts']> (threads s))) cs)) ->
  wpp True (if bool_decide (t_cwd ts ≠ NULL) then
     _ ← external (VOP_DECREF (t_cwd ts)); twrite t (set_cwd ts NULL) else mret tt) Q E s.
Proof.
  intros Hc Hts HQ. case_bool_decide as Hv; wpp_steps.
  - apply wpp_external. wpp_steps. apply wpp_twrite. by apply (HQ (set_cwd ts NULL)).
  - specialize (HQ ts (calls s)). rewrite insert_id in HQ by done. destruct s. apply HQ; [|done|done].
    by destruct (decide (t_cwd ts = NULL)).
Qed.

Lemma exit_begin spl st :
  at_spl t spl st ->
  wpp True (on_sys thread_exit_begin) (fun _ st' => guar t st st' /\ exiting st') (fun _ _ => False) st.
Proof.
  intros ((run & sl & zo & Hk) & Hc & Hs). pose proof (k_inv _ _ _ _ _ Hk) as Hi.
  destruct (kinv_cur _ _ _ _ _ Hk) as (ts & Hts & Hst); [congruence|]. rewrite Hc in Hts.
  apply wpp_on_sys. unfold thread_exit_begin. wpp_steps. rewrite Hc. eapply wpp_tread; [exact Hts|]. wpp_steps.
  apply wpp_check_stack; [done|]. wpp_steps. apply wpp_splx. wpp_steps.
  apply (exit_vmspace ts); [done|done|]. intros t1 c1 Hv1 Hst1. wpp_steps.
  eapply wpp_tread; [cbn; apply lookup_insert_eq|]. wpp_steps.
  apply (exit_cwd t1); [done|cbn; apply lookup_insert_eq|]. intros t2 c2 Hc2 Hv2 Hst2. wpp_steps.
  apply wpp_massert; [|done]. intros Hpos%bool_decide_eq_true_1. wpp_steps. cbn in *. rewrite insert_insert_eq.
  assert (stack_ok t2) as Hst' by (unfold stack_ok in *; congruence).
  assert (dead t2) as Hd by (split; congruence).
  assert (curthread st.1 ≠ NULL) as Hnn by congruence. pose proof (i_part _ _ _ _ Hi) as Hp.
  destruct (part_cur _ _ _ _ Hp Hnn) as (_ & Hsl & _). rewrite Hc in Hsl.
  pose proof (part_twrite _ _ _ _ t ts t2 Hp Hts Hst' (fun _ => Hd)) as Hp2.
  pose proof (i_count _ _ _ _ Hi) as [Hn Hq Hsc].
  split; [apply guar_sys; [done|]; cbn; rewrite dom_insert_lookup; [done|by exists ts]|].
  split; [done|]. split; [done|]. exists st, run, sl, zo. split; [done|]. split; [done|]. split; [|split; [done|]].
  - split; [eapply lists_frame; [apply Hi|done..]|by eapply part_frame| | | |].
    + cbn. rewrite Hn. unfold cur_list. rewrite decide_False by done. cbn. lia.
    + unfold qcap in *. cbn in *. lia.
    + unfold scap in *. cbn in *. lia.
    + cbn. rewrite Hc, lookup_insert_eq. by intros t' [= <-].
  - intros p Hin. unfold sleepaddr. cbn. by rewrite lookup_insert_ne by (by intros ->).
Qed.

Lemma tri_thread_exit spl Post : (spl = 0 -> irq_tri t) -> tri t (at_spl t spl) thread_exit Post.
Proof.
  intros Hirq. apply tri_seq with (Mid := exiting); [by apply at_calm|apply tri_do; [by apply at_calm|]|].
  { apply exit_begin. }
  assert (calm kinds handler t exiting) as Hcalm.
  { intros st (Hc & Hs & _). split; [done|]. lia. }
  apply tri_seq with (Mid := off t); [done| |apply tri_do; [apply off_calm|done]].
  apply tri_switch; [done| |by apply tri_resume].
  intros st (Hc & Hs & st0 & run & sl & zo & Hk & Hm & Hlv & Hck & Hsa).
  assert (curthread st.1 ≠ NULL) as Hnn by congruence. pose proof (lv_part _ _ _ _ Hlv) as Hp.
  destruct (part_cur _ _ _ _ Hp Hnn) as (_ & _ & _ & [ts Hts]). rewrite Hc in Hts.
  apply wpp_on_sys. eapply (wpp_mi_switch_out True S_ZOMB t ts); [apply Hlv|done|done|done|done| |done| |done|].
  - by eapply (pt_stack _ _ _ _ Hp).
  - exact (part_lengths _ _ _ _ Hp).
  - cbn [placed fst snd]. intros s' Hl Hout. split; [done|]. rewrite <- Hc in Hl.
    pose proof (inv_zombie _ _ _ _ _ Hlv Hnn Hout Hl) as Hi'. rewrite <- Hm.
    assert (kinv_on (s', st0.2) run sl (zo ++ [curthread st.1])) as Hk'.
    { destruct Hout as (?&?&?&?&->&_). eapply kinv_sub; [done|done|cbn; rewrite Hck; apply Hk|].
      intros p Hin. split; [done|]. by apply Hsa. }
    destruct Hout as (?&?&?&?&->&_). split; try done. by eexists _, _, _.
Qed.
End blocking.

(** ** Starting threads *)

Lemma tri_repeat t n c spl :
  t ≠ NULL -> (spl = 0 -> irq_tri t) -> tri t (at_spl t spl) c (at_spl t spl) ->
  tri t (at_spl t spl) (repeat_com n c) (at_spl t spl).
Proof.
  intros Ht Hirq Hc. induction n as [|n IH]; cbn [repeat_com]; [apply tri_skip; by apply at_calm|].
  eapply tri_seq; [by apply at_calm|done|done].
Qed.

Lemma tri_threadstart t n func :
  t ≠ NULL -> irq_tri t -> tri t (at_spl t 0) func (at_spl t 0) ->
  tri t (off t) (mi_threadstart n func) (fun _ => False).
Proof.
  intros Ht Hirq Hf. unfold mi_threadstart. eapply tri_seq with (Mid := off t); [apply off_calm| |].
  - apply tri_do; [apply off_calm|]. intros st ((run & sl & zo & Hk) & Hc & Hs). apply wpp_on_sys. unfold activate_cur.
    wpp_steps. destruct (kinv_cur _ _ _ _ _ Hk) as (ts & Hts & _); [congruence|]. eapply wpp_tread; [done|].
    case_bool_decide; wpp_steps; [apply wpp_external|].
    + split; [by apply guar_sys|]. split; [|done]. exists run, sl, zo. eapply kinv_frame; try done. apply Hk.
    + split; [by apply guar_sys|]. split; [|done]. exists run, sl, zo. by destruct st.
  - eapply tri_seq; [apply off_calm|apply tri_splx|]. eapply tri_seq; [by apply at_calm| |].
    + apply tri_repeat; [done|done|]. by apply tri_thread_yield.
    + eapply tri_seq; [by apply at_calm|done|]. by apply tri_thread_exit.
Qed.

Lemma kinv_forked name tc st s' run sl zo p :
  kinv_on st run sl zo -> inv s' (run ++ [p]) sl zo -> forked name tc st.1 s' p ->
  kinv_on (s', st.2) (run ++ [p]) sl zo.
Proof.
  intros Hk Hi [Hfresh Hnn Hth Hcur Hnum Hspl Hint Hck Hcalls].
  eapply kinv_sub; [done|done|rewrite Hck; apply Hk|]. intros q Hq. split; [done|]. unfold sleepaddr. rewrite Hth.
  rewrite lookup_insert_ne; [done|]. intros <-.
  destruct (part_sl _ _ _ _ p (i_part _ _ _ _ (k_inv _ _ _ _ _ Hk)) Hq). congruence.
Qed.

Lemma tri_fork t name child f spl Post :
  t ≠ NULL -> (spl = 0 -> irq_tri t) ->
  (forall p, p ≠ NULL -> irq_tri p) -> (forall p, p ≠ NULL -> tri p (at_spl p 0) child (at_spl p 0)) ->
  (forall r, tri t (at_spl t spl) (f r) Post) ->
  tri t (at_spl t spl) (Fork name child f) Post.
Proof.
  intros Ht Hirq Hall Hchild Hf. apply tri_act; [by apply at_calm|]. intros n k st Hat Hk _. cbn.
  pose proof Hat as ((run & sl & zo & Hkv) & Hc & Hs).
  destruct (kinv_cur _ _ _ _ _ Hkv) as (ts & Hts & _); [congruence|].
  apply wpp_on_sys, wpp_try. eapply wpp_thread_fork; [apply Hkv|congruence|done| |].
  - intros p s' Hi Hfk. pose proof (kinv_forked _ _ _ _ _ _ _ _ Hkv Hi Hfk) as Hk'.
    destruct Hfk as [Hfresh Hnn Hth Hcur Hnum Hspl Hint Hck Hcalls].
    split; [|split; [done|split; [done|]]].
    + cbn. split; [by rewrite Hth, dom_insert_L|]. split; [intros ->; congruence|]. split; [done|].
      intros y st'' Hoff. apply (tri_threadstart p y child); auto. by intros.
    + apply Hf; [|done]. split; [by eexists _, _, _|]. split; cbn; congruence.
  - intros s' Hi [Hth Hcur Hnum Hspl Hint Hck Hcalls]. split; [done|]. split; [done|]. split; [done|].
    apply Hf; [|done]. split; [|split; cbn; congruence]. exists run, sl, zo.
    eapply kinv_sub; [done|done|rewrite Hck; apply Hkv|]. intros p Hp. split; [done|]. unfold sleepaddr. by rewrite Hth.
Qed.
End triples.
End SynchTriples.
