(* ===== verification/SynchSafety.v ===== *)
(** * Kernel threads that synchronize

    Any number of threads running any code built from the synchronization
    primitives, [thread_fork], [thread_yield], [clocksleep], [thread_exit] and
    computations on memory of their own, interrupted by the clock and by device
    handlers that do [V]: in every reachable state the thread system and the
    synchronization objects are consistent, and no thread loses a lock it
    holds. *)

From S2P Require Import Prelude KArray KQueue Thread ThreadSpec Concurrency Synch SynchInv SynchTriples.

Module SynchSafety.
Import Thread ThreadSpec Concurrency Synch SynchInv SynchTriples.

Section clients.
Context {U : Type} (kinds : gmap ptr kind).
Abbreviation mem := (gmap ptr obj * U)%type.
Abbreviation state := (sys * mem)%type.
Implicit Types (st : state) (t : ptr).

(** ** Client code *)

Definition on_user {A} (m : M U A) : M state A := fun st =>
  match m st.2.2 with
  | Done (r, u) => Done (r, (st.1, (st.2.1, u)))
  | Panic => Panic
  | Stuck => Stuck
  end.

(** A computation on the client's own memory with nothing undefined in it. *)
Definition tame {A} (m : M U A) : Prop := forall u, wpp True m (fun _ _ => True) (fun _ _ => False) u.

Inductive client : com mem -> Prop :=
  | cl_skip : client Skip
  | cl_do m : tame m -> client (Do (on_user m))
  | cl_let {A} (m : M U A) f : tame m -> (forall a, client (f a)) -> client (Let (on_user m) f)
  | cl_seq c1 c2 : client c1 -> client c2 -> client (Seq c1 c2)
  | cl_while b c : tame b -> client c -> client (While (on_user b) c)
  | cl_P a : kinds !! a = Some KSem -> client (P a)
  | cl_V a : kinds !! a = Some KSem -> client (Do (V a))
  | cl_lock_acquire a : kinds !! a = Some KLock -> client (lock_acquire a)
  | cl_lock_release a : kinds !! a = Some KLock -> client (Do (lock_release a))
  | cl_lock_do_i_hold a f :
      kinds !! a = Some KLock -> (forall b, client (f b)) -> client (Let (lock_do_i_hold a) f)
  | cl_cv_wait c a : kinds !! c = Some KCv -> kinds !! a = Some KLock -> client (cv_wait c a)
  | cl_cv_signal c a : kinds !! c = Some KCv -> kinds !! a = Some KLock -> client (Do (cv_signal c a))
  | cl_cv_broadcast c a : kinds !! c = Some KCv -> kinds !! a = Some KLock -> client (Do (cv_broadcast c a))
  | cl_thread_yield : client thread_yield
  | cl_clocksleep n : client (clocksleep n)
  | cl_thread_exit : client thread_exit
  | cl_fork name child f : client child -> (forall r, client (f r)) -> client (Fork name child f).

(** Device interrupts that end in a [V]. *)
Definition device (h : M state unit) : Prop := exists a, kinds !! a = Some KSem /\ h = V a.

Abbreviation kinv := (kinv (U := U) kinds).
Abbreviation off := (off (U := U) kinds).
Abbreviation at_spl := (at_spl (U := U) kinds).
Abbreviation tri := (tri (U := U) kinds device).
Abbreviation safe := (safe (U := U) kinds device).

Lemma device_ok : handler_ok (U := U) kinds device.
Proof. intros h (a & Ha & ->) st Hk _. by apply V_kinv. Qed.

Lemma irq_ok t : t ≠ NULL -> irq_tri (U := U) kinds device t.
Proof. intros Ht. apply irq_tri_all; [done|apply device_ok]. Qed.

Lemma wpp_on_user {A} (m : M U A) st (Q : A -> state -> Prop) :
  tame m -> (forall a u, Q a (st.1, (st.2.1, u))) -> wpp True (on_user m) Q (fun _ _ => False) st.
Proof. intros Hm HQ. unfold wpp, on_user. specialize (Hm st.2.2). unfold wpp in Hm. by destruct (m st.2.2) as [[[e|a] u]| |]. Qed.

Lemma user_guar t st u : guar t st (st.1, (st.2.1, u)).
Proof. split; [done|done|eauto]. Qed.

Lemma user_at t spl st u : at_spl t spl st -> at_spl t spl (st.1, (st.2.1, u)).
Proof. intros ((run & sl & zo & []) & Hc & Hs). split; [|done]. by exists run, sl, zo. Qed.

Lemma tri_do_i_hold t a f :
  t ≠ NULL -> kinds !! a = Some KLock -> (forall b, tri t (at_spl t 0) (f b) (at_spl t 0)) ->
  tri t (at_spl t 0) (Let (lock_do_i_hold a) f) (at_spl t 0).
Proof.
  intros Ht Ha Hf. apply tri_let with (Mid := fun _ => at_spl t 0); [by apply at_calm; intros; apply irq_ok| |done].
  intros st (Hk & Hc & Hs). unfold lock_do_i_hold. wpp_steps. apply wpp_assert_ptr. wpp_steps.
  apply (splhigh_kinv kinds t); [done|]. intros st1 Hk1 Hs1 Hg1 Heq. wpp_steps. pose proof Hk1 as (run & sl & zo & Hk1').
  destruct (kind_lookup _ _ _ _ _ _ _ Hk1' Ha) as ([x|x|x] & Hx & Hkd); try done.
  eapply wpp_get_lock; [done|]. wpp_steps. apply wpp_cur. wpp_steps. apply (wpp_restore kinds t); [done|].
  intros Hk2 Hg2. wpp_steps. pose proof (g_cur _ _ _ Hg1). split; [by eapply guar_trans|].
  split; [done|]. split; cbn; congruence.
Qed.

Lemma client_tri c : client c -> forall t, t ≠ NULL -> tri t (at_spl t 0) c (at_spl t 0).
Proof.
  assert (forall t, t ≠ NULL -> calm kinds device t (at_spl t 0)) as Hcalm
    by (intros t Ht; apply at_calm; intros _; by apply irq_ok).
  assert (forall t, t ≠ NULL -> 0 = 0 -> irq_tri kinds device t) as Hirq by (intros t Ht _; by apply irq_ok).
  induction 1; intros t Ht.
  - apply tri_skip; auto.
  - apply tri_do; [auto|]. intros st Hat. apply wpp_on_user; [done|]. intros a u.
    split; [apply user_guar|by apply user_at].
  - apply tri_let with (Mid := fun _ => at_spl t 0); [auto| |auto]. intros st Hat. apply wpp_on_user; [done|].
    intros a u. split; [apply user_guar|by apply user_at].
  - eapply tri_seq; eauto.
  - apply tri_while with (Body := at_spl t 0); [auto| |auto]. intros st Hat. apply wpp_on_user; [done|].
    intros [] u; (split; [apply user_guar|by apply user_at]).
  - by apply tri_P; auto.
  - by apply tri_V; auto.
  - by apply tri_lock_acquire; auto.
  - by apply tri_lock_release; auto.
  - by apply tri_do_i_hold; auto.
  - by apply tri_cv_wait; auto.
  - by apply tri_cv_signal; auto.
  - by apply tri_cv_broadcast; auto.
  - by apply tri_thread_yield; auto.
  - by apply tri_clocksleep; auto.
  - by apply tri_thread_exit; auto.
  - apply tri_fork; auto using irq_ok.
Qed.

(** ** The machine *)

Implicit Type c : config mem.
Abbreviation step := (step (X := mem) device).
Abbreviation reach := (reach (X := mem) device).

(** Every saved context is safe to resume. *)
Definition saved_ok (sv : gmap ptr (list (com mem))) : Prop :=
  forall p k, sv !! p = Some k -> p ≠ NULL /\ forall n st, off p st -> safe n p k st.

Definition running c : Prop :=
  curthread (c_state c).1 ≠ NULL /\
  (forall n, safe n (curthread (c_state c).1) (c_run c) (c_state c)) /\
  dom (threads (c_state c).1) ⊆ {[curthread (c_state c).1]} ∪ dom (c_saved c).

Definition idle c : Prop :=
  curthread (c_state c).1 = NULL /\ c_run c = [] /\ kinv (c_state c) /\ curspl (c_state c).1 > 0 /\
  dom (threads (c_state c).1) ⊆ dom (c_saved c) /\ is_Some (threads (c_state c).1 !! c_from c).

Definition pool c : Prop := saved_ok (c_saved c) /\ (running c \/ idle c).

(** The result of a computation with a specification. *)
Lemma wpp_run {A} (m : M state A) (Q : A -> state -> Prop) E st r st' :
  wpp True m Q E st -> m st = Done (inr r, st') -> Q r st'.
Proof. unfold wpp. intros H Heq. by rewrite Heq in H. Qed.

Lemma running_step st st' k k' sv fr :
  running (mkConfig st k sv fr) -> guar (curthread st.1) st st' ->
  (forall n, safe n (curthread st.1) k' st') -> running (mkConfig st' k' sv fr).
Proof.
  intros (Hn & _ & Hd) Hg Hs. unfold running. cbn in *. pose proof (g_cur _ _ _ Hg) as Hc. rewrite Hc.
  split; [done|]. split; [done|]. pose proof (g_dom _ _ _ Hg). set_solver.
Qed.

Lemma assert_spl_eq (s : sys) : assert_spl s = if bool_decide (curspl s > 0) then Done (inr tt, s) else Panic.
Proof. unfold assert_spl, mbind, M_bind, get, massert, lift. by destruct (bool_decide _). Qed.

Lemma switch_out_cur ns (s s' : sys) :
  mi_switch_out ns s = Done (inr true, s') -> is_Some (threads s !! curthread s).
Proof.
  unfold mi_switch_out. unfold mbind at 1, M_bind at 1. rewrite assert_spl_eq. case_bool_decide; [|done].
  unfold mbind at 1, M_bind at 1, get. case_bool_decide; [done|].
  unfold mbind at 1, M_bind at 1, tread. unfold mbind at 1, M_bind at 1, get.
  destruct (threads s !! curthread s); [by eexists|done].
Qed.

Lemma scheduler_next_empty st sl zo r :
  lists st.1 [] sl zo -> on_sys scheduler_next st ≠ Done r.
Proof.
  intros [(q & Hq & Hwf & Hcq) _ _]. pose proof (KQueue.q_remhead_spec q Hwf) as Hr. rewrite Hcq in Hr. cbn in Hr.
  unfold on_sys, scheduler_next. unfold mbind at 1, M_bind at 1. rewrite assert_spl_eq. case_bool_decide; [|done].
  unfold mbind, M_bind, get, global, lift. rewrite Hq. cbn. by rewrite Hr.
Qed.

(** Scheduling a thread puts it in a state where its context is safe. *)
Definition schedule (fr : ptr) : M state ptr :=
  next ← on_sys scheduler_next;
  _ ← on_sys (md_switch_in fr next);
  mret next.

Lemma schedule_next Y st fr p run sl zo :
  kinv_on kinds st (p :: run) sl zo -> curthread st.1 = NULL -> curspl st.1 > 0 -> is_Some (threads st.1 !! fr) ->
  wpp Y (schedule fr) (fun r st' => r = p /\ off p st' /\ dom (threads st'.1) = dom (threads st.1) /\ st'.2 = st.2)
    (fun _ _ => False) st.
Proof.
  intros Hk Hc Hs [tf Htf]. pose proof (k_inv _ _ _ _ _ Hk) as Hi. unfold schedule. apply wpp_bind, wpp_on_sys.
  eapply wpp_scheduler_next; [apply Hi|done|]. intros q s' Hl Hcap.
  set (s1 := set_curthread s' p). 
  assert (inv s1 run sl zo) as Hi1 by (by eapply inv_next; [exact Hi|done|exact Hcap|done|eapply lists_frame]).
  assert (kinv_on kinds (s1, st.2) run sl zo) as Hk1.
  { eapply kinv_sub; [done|done|apply Hk|]. by intros p' Hp'. }
  apply wpp_bind, wpp_on_sys. unfold md_switch_in. wpp_steps. fold s1. case_bool_decide as Heq; wpp_steps.
  { split; [done|]. split; [|done]. split; [by exists run, sl, zo|done]. }
  eapply wpp_tread; [exact Htf|]. wpp_steps. apply wpp_twrite. wpp_steps.
  destruct (proj2 (pt_dom _ _ _ _ (i_part _ _ _ _ Hi) p)) as [tp Htp].
  { rewrite !elem_of_app. right. left. apply elem_of_cons. by left. }
  eapply wpp_tread; [cbn; rewrite lookup_insert_ne by done; exact Htp|]. wpp_steps.
  split; [done|]. split; [|split; [|done]].
  - split; [|done]. exists run, sl, zo. eapply (kinv_sub _ (s1, st.2)); [done| |apply Hk1|].
    + apply (inv_frame (set_threads s1 (<[fr := set_ininterrupt tf (in_interrupt s1)]> (threads s1)))); [|done..].
      eapply (inv_twrite s1); [done|exact Htf| |].
      * pose proof (pt_stack _ _ _ _ (i_part _ _ _ _ Hi) fr tf Htf) as Hst. by destruct Hst; [left|right].
      * intros Hz. pose proof (pt_dead _ _ _ _ (i_part _ _ _ _ Hi) fr tf Hz Htf) as [? ?]. by split.
    + intros p' Hp'. split; [done|]. unfold sleepaddr. cbn.
      destruct (decide (p' = fr)) as [->|]; [|by rewrite lookup_insert_ne].
      rewrite lookup_insert_eq, Htf. done.
  - cbn. rewrite dom_insert_lookup_L; [done|by exists tf].
Qed.

Lemma schedule_off st st' st'' fr next :
  kinv st -> curthread st.1 = NULL -> curspl st.1 > 0 -> is_Some (threads st.1 !! fr) ->
  on_sys scheduler_next st = Done (inr next, st') -> on_sys (md_switch_in fr next) st' = Done (inr tt, st'') ->
  off next st'' /\ dom (threads st''.1) = dom (threads st.1) /\ st''.2 = st.2.
Proof.
  intros (run & sl & zo & Hk) Hc Hs Hfr Hnext Hsw.
  destruct run as [|p run].
  { exfalso. by apply (scheduler_next_empty st sl zo _ (i_lists _ _ _ _ (k_inv _ _ _ _ _ Hk))) in Hnext. }
  pose proof (schedule_next True st fr p run sl zo Hk Hc Hs Hfr) as Hw.
  assert (schedule fr st = Done (inr next, st'')) as Hm
    by (unfold schedule, mbind, M_bind; rewrite Hnext; by rewrite Hsw).
  by destruct (wpp_run _ _ _ _ _ _ Hw Hm) as (-> & ?).
Qed.

(** The clock interrupt while the scheduler idles. *)
Lemma idle_clock_kinv st :
  kinv st -> curthread st.1 = NULL -> curspl st.1 > 0 ->
  wpp True (on_sys idle_clock) (fun _ st' => kinv st' /\ curspl st'.1 > 0 /\ guar NULL st st' /\
    threads st'.1 = threads st.1) (fun _ _ => False) st.
Proof.
  intros Hk Hc Hs. unfold idle_clock. apply wpp_on_sys. unfold irq_enter. wpp_steps. apply wpp_assert_spl; [done|].
  wpp_steps. set (s1 := set_in_interrupt _ 1).
  assert (kinv (s1, st.2)) as Hk1.
  { destruct Hk as (run & sl & zo & Hk). exists run, sl, zo. eapply kinv_frame; try done. apply Hk. }
  eapply wpp_mono; [eapply (wpp_of_sys True hardclock_tick _ _ (s1, st.2)), (tick_kinv kinds NULL); done|done| |done].
  intros _ s2 (Hg2 & Hk2 & Hs2 & Ht2). cbn [fst snd] in *. pose proof (g_cur _ _ _ Hg2) as Hc2.
  assert (curthread s2 = NULL) as Hn2 by (rewrite <- Hc; exact Hc2). clear Hc2.
  unfold thread_yield_begin, splhigh. wpp_steps. apply wpp_splx. wpp_steps. apply wpp_massert; [|done]. intros _. wpp_steps.
  unfold mi_switch_out. wpp_steps. apply wpp_assert_spl; [done|]. wpp_steps.
  rewrite bool_decide_eq_true_2 by (cbn; congruence). wpp_steps. apply wpp_splx. wpp_steps.
  unfold irq_leave, splhigh. wpp_steps. apply wpp_splx. wpp_steps. split; [|split; [done|]].
  - destruct Hk2 as (run & sl & zo & Hk2). exists run, sl, zo. eapply (kinv_frame _ (s2, st.2)); try done. apply Hk2.
  - split; [|done]. destruct Hg2 as [? Hd2 _]. apply guar_sys; [cbn; congruence|done].
Qed.

(** Another device's interrupt there. *)
Lemma idle_irq_kinv h st :
  device h -> kinv st -> curthread st.1 = NULL -> curspl st.1 > 0 ->
  wpp True (idle_irq h) (fun _ st' => kinv st' /\ curspl st'.1 > 0 /\ guar NULL st st' /\
    threads st'.1 = threads st.1) (fun _ _ => False) st.
Proof.
  intros Hh Hk Hc Hs. unfold idle_irq, irq_enter, irq_leave, splhigh. apply wpp_bind, wpp_on_sys. wpp_steps.
  apply wpp_assert_spl; [done|]. wpp_steps. set (st1 := (_, st.2)).
  assert (kinv st1) as Hk1.
  { destruct Hk as (run & sl & zo & Hk). exists run, sl, zo. eapply kinv_frame; try done. apply Hk. }
  eapply wpp_mono; [by apply device_ok|done| |done]. intros _ st2 (Hk2 & Hs2 & Hg2 & Ht2). cbn beta.
  apply wpp_on_sys. wpp_steps. apply wpp_splx. wpp_steps. split; [|split; [done|split; [|done]]].
  - destruct Hk2 as (run & sl & zo & Hk2). exists run, sl, zo. eapply kinv_frame; try done. apply Hk2.
  - eapply guar_trans; [|eapply guar_trans; [exact Hg2|]]; by apply guar_sys.
Qed.

(** What a step of the running thread needs from its safety. *)
Lemma safe_act t k st : (forall n, safe n t k st) -> forall n, act kinds (safe n) t k st.
Proof. intros H n. apply (H (S n)). Qed.

Lemma safe_interrupted t k st :
  (forall n, safe n t k st) -> curspl st.1 = 0 -> forall n, interrupted device (safe n) t k st.
Proof. intros H Hs n. by apply (H (S n)). Qed.

Lemma running_action {A} (m : M state A) (next : A -> list (com mem)) a st st' k sv fr :
  running (mkConfig st k sv fr) ->
  (forall n, wpp True m (fun a st' => guar (curthread st.1) st st' /\ safe n (curthread st.1) (next a) st')
    (fun _ _ => False) st) ->
  m st = Done (inr a, st') -> running (mkConfig st' (next a) sv fr).
Proof.
  intros Hr Hw Hm. eapply running_step; [exact Hr|apply (wpp_run _ _ _ _ _ _ (Hw O) Hm)|].
  intros n. apply (wpp_run _ _ _ _ _ _ (Hw n) Hm).
Qed.

Lemma idle_step (m : M state unit) st st' sv fr :
  saved_ok sv -> idle (mkConfig st [] sv fr) ->
  (kinv st -> curthread st.1 = NULL -> curspl st.1 > 0 ->
   wpp True m (fun _ st' => kinv st' /\ curspl st'.1 > 0 /\ guar NULL st st' /\ threads st'.1 = threads st.1)
    (fun _ _ => False) st) ->
  m st = Done (inr tt, st') -> pool (mkConfig st' [] sv fr).
Proof.
  intros Hsv (Hc & Hr & Hk & Hs & Hd & Hf) Hw Hm. split; [done|]. right. unfold idle. cbn in *.
  destruct (wpp_run _ _ _ _ _ _ (Hw Hk Hc Hs) Hm) as (Hk' & Hs' & Hg & Ht). rewrite Ht.
  pose proof (g_cur _ _ _ Hg). split_and!; try done. congruence.
Qed.

Lemma step_pool c c' : pool c -> step c c' -> pool c'.
Proof.
  intros Hp Hs. revert Hp. destruct Hs; intros [Hsv Hp]; cbn [c_saved] in Hsv;
    (destruct Hp as [Hp|Hp]; [try (by destruct Hp as (? & _))|try (by destruct Hp as (? & _))]).
  all: try (pose proof (safe_act _ _ _ (proj1 (proj2 Hp))) as Hact; cbn [c_state c_run] in Hact).
  - split; [done|]. left. eapply running_step; [exact Hp|apply guar_refl|exact Hact].
  - split; [done|]. left. eapply (running_action m (fun _ => k)); [exact Hp| |done]. exact Hact.
  - split; [done|]. left. eapply (running_action m (fun a => f a :: k)); [exact Hp| |done]. exact Hact.
  - split; [done|]. left. eapply running_step; [exact Hp|apply guar_refl|exact Hact].
  - split; [done|]. left. eapply (running_action b (fun r => if r : bool then c :: While b c :: k else k)); [exact Hp| |done]. exact Hact.
  - pose proof (fun i => wpp_run _ _ _ _ _ _ (Hact i) H0) as Hf. clear Hact. destruct r as [e|p].
    + split; [done|]. left. destruct (Hf O) as (Hth & Hcur & _). destruct Hp as (Hn & _ & Hd). unfold running. cbn in *.
      rewrite Hcur, Hth. split; [done|]. split; [|done]. intros i. apply (Hf i).
    + destruct (Hf O) as ((Hth & _ & Hpn & _) & Hcur & _). split.
      * intros p' k'. cbn [c_saved]. rewrite lookup_insert_Some. intros [[<- <-]|[_ ?]]; [|by eapply Hsv].
        split; [done|]. intros i st'' Hoff. by apply (Hf i).
      * left. destruct Hp as (Hn & _ & Hd). unfold running. cbn in *.
        rewrite Hcur. split; [done|]. split; [intros i; apply (Hf i)|]. clear -Hth Hd. set_solver.
  - pose proof (fun n => wpp_run _ _ _ _ _ _ (Hact n) H0) as Hf. clear Hact. destruct (Hf O) as (_ & Hg & _). split.
    + intros p' k'. cbn [c_saved]. rewrite lookup_insert_Some. intros [[<- <-]|[_ ?]]; [|by eapply Hsv].
      split; [done|]. intros n' st'' Hoff. by apply (Hf n').
    + right. destruct Hp as (Hn & _ & Hd). destruct Hg as [Hk Hc Hs Hth Hm]. unfold idle. cbn in *. rewrite Hth.
      split_and!; try done; [set_solver|].
      unfold on_sys in H0. destruct (mi_switch_out ns st.1) as [[[|[]] s']| |] eqn:Hsw; try done. by eapply switch_out_cur.
  - destruct Hp as (_ & _ & Hk & Hs & Hd & Hfr). cbn in *.
    destruct (schedule_off _ _ _ _ _ Hk H Hs Hfr H0 H1) as (Hoff & Hdom & Hm). destruct (Hsv _ _ H2) as [Hn Hsafe]. split.
    + intros p' k'. cbn [c_saved]. rewrite lookup_delete_Some. intros [_ ?]. by eapply Hsv.
    + left. unfold running. cbn. destruct Hoff as (Hk2 & Hc2 & Hs2). rewrite Hc2, Hdom. split; [done|]. split.
      * intros i. apply Hsafe. done.
      * rewrite dom_delete_L. intros x Hx. destruct (decide (x = next)); set_solver.
  - split; [done|]. left. pose proof (safe_interrupted _ _ _ (proj1 (proj2 Hp)) H0) as Hi. cbn [c_state c_run] in Hi.
    eapply (running_action (on_sys irq_enter) (fun r => irq hardclock r k)); [exact Hp| |done].
    intros i. eapply wpp_mono; [apply (Hi i)|done| |done]. intros r st1 (? & ? & Hh). by auto.
  - split; [done|]. left. pose proof (safe_interrupted _ _ _ (proj1 (proj2 Hp)) H0) as Hi. cbn [c_state c_run] in Hi.
    eapply (running_action (on_sys irq_enter) (fun r => irq (Do h) r k)); [exact Hp| |done].
    intros i. eapply wpp_mono; [apply (Hi i)|done| |done]. intros r st1 (? & ? & Hh). by auto.
  - by destruct H as [? _], Hp as [? _].
  - eapply (idle_step (on_sys idle_clock)); [done|exact Hp| |done]. intros. by apply idle_clock_kinv.
  - by destruct H as [? _], Hp as [? _].
  - eapply (idle_step (idle_irq h)); [done|exact Hp| |done]. intros. by apply idle_irq_kinv.
Qed.

(** ** A kernel that has just booted *)

(** Objects as [sem_create], [lock_create] and [cv_create] leave them. *)
Definition fresh_obj (o : obj) : Prop :=
  match o with
  | OSem x => 0 <= count x
  | OLock x => locked x = 0 /\ owner x = NULL
  | OCv _ => True
  end.

(** The boot thread is about to run [main]; should it come back, it exits. *)
Definition start (s : sys) (objs : gmap ptr obj) (u : U) (main : com mem) : config mem :=
  mkConfig (s, (objs, u)) [main; thread_exit] ∅ NULL.

Definition booted (o : oracle) (objs : gmap ptr obj) (u : U) (main : com mem) c : Prop :=
  exists s, boot_threads (power_on o) = Done (inr tt, s) /\ c = start s objs u main.

Lemma start_pool o objs u main c :
  kind_of <$> objs = kinds -> map_Forall (fun _ => fresh_obj) objs -> objs !! NULL = None -> objs !! lbolt = None ->
  client main -> booted o objs u main c -> pool c.
Proof.
  intros Hkinds Hfresh Hnull Hlb Hmain (s & Hboot & ->).
  assert (inv s [] [] [] /\ curthread s ≠ NULL /\ curspl s = 0 /\ lbolt_counter s = 0) as (Hi & Hc & Hs & Hl).
  { assert (wpp True boot_threads (fun _ s => inv s [] [] [] /\ curthread s ≠ NULL /\ curspl s = 0 /\ lbolt_counter s = 0)
      (fun _ _ => False) (power_on o)) as Hw by (apply wpp_boot; auto).
    unfold wpp in Hw. by rewrite Hboot in Hw. }
  assert (at_spl (curthread s) 0 (s, (objs, u))) as Hat.
  { split; [|done]. exists [], [], []. split; try done; cbn.
    - intros a ob Ha. specialize (Hfresh a ob Ha). destruct ob as [x|x|x]; cbn in *; [|left|done].
      + split; [done|]. intros (p & Hp & _). by apply not_elem_of_nil in Hp.
      + split_and!; [naive_solver..|]. intros (p & Hp & _). by apply not_elem_of_nil in Hp.
    - unfold HZ. lia. }
  split; [intros p k H; by cbn in H; rewrite lookup_empty in H|]. left. unfold running, start. cbn. split; [done|]. split.
  - intros n. apply (client_tri main Hmain _ Hc); [done|]. intros m st' _ Hat'.
    by eapply (tri_thread_exit kinds device _ Hc 0 (fun _ => False)); [intros _; by apply irq_ok|exact Hat'|].
  - intros p Hp%elem_of_dom. apply (pt_dom _ _ _ _ (i_part _ _ _ _ Hi)) in Hp. unfold cur_list in Hp.
    rewrite decide_False in Hp by done. cbn in Hp. set_solver.
Qed.

Lemma reach_pool c c' : pool c -> reach c c' -> pool c'.
Proof. intros Hp Hr. induction Hr; eauto using step_pool. Qed.

(** ** Locks stay with their owners *)

Definition held_by (st : state) (a t : ptr) : Prop := exists x, st.2.1 !! a = Some (OLock x) /\ owner x = t.

Lemma guar_held st st' a t : guar (curthread st.1) st st' -> t ≠ NULL -> t ≠ curthread st.1 -> held_by st a t -> held_by st' a t.
Proof. intros Hg Ht Hc (x & Hx & <-). destruct (g_owner _ _ _ Hg a x Hx Ht Hc) as (x' & ? & ?). by exists x'. Qed.

Lemma mem_held st st' a t : st'.2 = st.2 -> held_by st a t -> held_by st' a t.
Proof. intros Hm (x & Hx & Ho). exists x. by rewrite Hm. Qed.

Lemma step_held c c' a t :
  pool c -> step c c' -> t ≠ NULL -> t ≠ curthread (c_state c).1 -> held_by (c_state c) a t -> held_by (c_state c') a t.
Proof.
  intros Hp Hs Ht. revert Hp. destruct Hs; intros [Hsv Hp] Hne Hh; cbn [c_state] in Hne, Hh |- *;
    (destruct Hp as [Hp|Hp]; [try (by destruct Hp as (? & _))|try (by destruct Hp as (? & _))]).
  all: try (pose proof (safe_act _ _ _ (proj1 (proj2 Hp)) O) as Hact; cbn [c_state c_run act] in Hact).
  - eapply guar_held; [apply (wpp_run _ _ _ _ _ _ Hact H0)|done..].
  - eapply guar_held; [apply (wpp_run _ _ _ _ _ _ Hact H0)|done..].
  - eapply guar_held; [apply (wpp_run _ _ _ _ _ _ Hact H0)|done..].
  - destruct (wpp_run _ _ _ _ _ _ Hact H0) as (_ & _ & Hm & _). by eapply mem_held.
  - destruct (wpp_run _ _ _ _ _ _ Hact H0) as (_ & [] & _). by eapply mem_held.
  - destruct Hp as (_ & _ & Hk & Hsp & Hd & Hfr). cbn in *.
    destruct (schedule_off _ _ _ _ _ Hk H Hsp Hfr H0 H1) as (_ & _ & Hm). by eapply mem_held.
  - pose proof (safe_interrupted _ _ _ (proj1 (proj2 Hp)) H0 O) as Hi.
    eapply guar_held; [apply (wpp_run _ _ _ _ _ _ Hi ltac:(eassumption))|done..].
  - pose proof (safe_interrupted _ _ _ (proj1 (proj2 Hp)) H0 O) as Hi.
    eapply guar_held; [apply (wpp_run _ _ _ _ _ _ Hi ltac:(eassumption))|done..].
  - by destruct H as [? _], Hp as [? _].
  - destruct Hp as (Hc & _ & Hk & Hsp & _). cbn in *.
    destruct (wpp_run _ _ _ _ _ _ (idle_clock_kinv _ Hk Hc Hsp) H0) as (_ & _ & Hg & _).
    eapply guar_held; [rewrite Hc; exact Hg|done..].
  - by destruct H as [? _], Hp as [? _].
  - destruct Hp as (Hc & _ & Hk & Hsp & _). cbn in *.
    destruct (wpp_run _ _ _ _ _ _ (idle_irq_kinv _ _ H0 Hk Hc Hsp) H1) as (_ & _ & Hg & _).
    eapply guar_held; [rewrite Hc; exact Hg|done..].
Qed.

(** ** Progress *)

(** A call that panics or returns without an error, and is not undefined. *)
Definition defined {A B} (r : outcome ((Z + A) * B)) : Prop :=
  match r with Done (inr _, _) | Panic => True | _ => False end.

(** Interrupts that can come now: one is taken by the running thread when
    interrupts are on, which puts its handler in front of what the thread has
    to do; while the scheduler idles, it is served on the spot. *)
Definition interrupts_defined c : Prop :=
  let st := c_state c in
  (curthread st.1 ≠ NULL -> curspl st.1 = 0 -> defined (on_sys irq_enter st)) /\
  (idling st -> defined (on_sys idle_clock st) /\ forall h, device h -> defined (idle_irq h st)).

Lemma wpp_defined {A} (m : M state A) Q st : wpp True m Q (fun _ _ => False) st -> defined (m st).
Proof. unfold wpp, defined. by destruct (m st) as [[[e|a] st']| |]. Qed.

Lemma wpp_cases {A} (m : M state A) Q st :
  wpp True m Q (fun _ _ => False) st -> m st = Panic \/ exists a st', m st = Done (inr a, st') /\ Q a st'.
Proof. unfold wpp. destruct (m st) as [[[e|a] st']| |]; [done|eauto..|done]. Qed.

Lemma running_progress c : running c -> advance c ≠ Stuck.
Proof.
  destruct c as [st k sv fr]. intros (Hn & Hs & _). pose proof (safe_act _ _ _ Hs O) as Ha. cbn in Hn, Ha. cbn [advance].
  rewrite decide_False by done. destruct k as [|[| m|A m f|c1 c2|b c|ns|name child f] k]; cbn [c_run c_state act] in *; [done|..]; try done.
  all: apply wpp_cases in Ha as [->|(r & st' & -> & H)]; [done|cbn [then_do]]; try done.
  by destruct H as [-> _].
Qed.

Lemma schedule_inv fr st p st'' :
  schedule fr st = Done (inr p, st'') ->
  exists st', on_sys scheduler_next st = Done (inr p, st') /\ on_sys (md_switch_in fr p) st' = Done (inr tt, st'').
Proof.
  unfold schedule, mbind, M_bind. destruct (on_sys scheduler_next st) as [[[|q] st']| |]; try done.
  destruct (on_sys (md_switch_in fr q) st') as [[[|[]] st1]| |] eqn:Hm; try done. intros [= <- <-]. eauto.
Qed.

Lemma idle_progress c : idle c -> advance c ≠ Stuck.
Proof.
  destruct c as [st k sv fr]. unfold idle. cbn. intros (Hc & -> & Hkv & Hs & Hd & Hfr). rewrite decide_True by done.
  pose proof Hkv as (run & sl & zo & Hk). pose proof (k_inv _ _ _ _ _ Hk) as Hi.
  destruct (l_run _ _ _ _ (i_lists _ _ _ _ Hi)) as (q & -> & Hwf & Hcq). destruct run as [|p run].
  - rewrite (proj2 (KQueue.q_empty_spec q Hwf)) by (by rewrite Hcq).
    by destruct (wpp_cases _ _ _ (idle_clock_kinv st Hkv Hc Hs)) as [->|([] & st' & -> & _)].
  - destruct (KQueue.q_empty q) eqn:Ee; [apply KQueue.q_empty_spec in Ee; [by rewrite Hcq in Ee|done]|].
    pose proof (schedule_next False st fr p run sl zo Hk Hc Hs Hfr) as Hw. unfold wpp in Hw.
    destruct (schedule fr st) as [[[|r] st'']| |] eqn:Hm; try done. destruct Hw as (-> & _).
    destruct (schedule_inv _ _ _ _ Hm) as (st' & -> & Hsw). cbn [then_do]. rewrite Hsw. cbn [then_do].
    assert (is_Some (sv !! p)) as [kp ->]; [|done].
    apply elem_of_dom, Hd, elem_of_dom, (pt_dom _ _ _ _ (i_part _ _ _ _ Hi)). rewrite !elem_of_app.
    right. left. apply elem_of_cons. by left.
Qed.

Lemma pool_interrupts c : pool c -> interrupts_defined c.
Proof.
  intros [_ [(Hn & Hs & _)|(Hc & _ & Hk & Hsp & _)]]; split.
  - intros _ H0. eapply wpp_defined, (safe_interrupted _ _ _ Hs H0 O).
  - intros [? _]. done.
  - intros ?. done.
  - intros _. split; [by eapply wpp_defined, idle_clock_kinv|]. intros h Hh. by eapply wpp_defined, idle_irq_kinv.
Qed.

(** ** Every reachable state

    [kinds] says which objects there are. *)

Section theorems.
Context (o : oracle) (objs : gmap ptr obj) (u : U) (main : com mem).
Context (Hkinds : kind_of <$> objs = kinds) (Hfresh : map_Forall (fun _ => fresh_obj) objs).
Context (Hnull : objs !! NULL = None) (Hlbolt : objs !! lbolt = None) (Hmain : client main).

Lemma booted_pool c0 c : booted o objs u main c0 -> reach c0 c -> pool c.
Proof. intros Hb. by apply reach_pool, (start_pool o objs u main). Qed.

(** C2. Whatever client threads do and however they are interleaved and
    interrupted, in every state reachable from boot in which interrupts are on
    or the scheduler is idle: every thread is the current one or on exactly one
    of the lists; [numthreads] is the number of threads that are not zombies;
    the ring of the run queue has at least that many cells, one of which stays
    empty, and the array of sleepers that many places if there is more than one
    thread; threads sleep on a semaphore only while its count is 0 and on a lock
    only while it is held, and a lock has an owner exactly when it is held. *)
Theorem synch_invariant c0 c :
  booted o objs u main c0 -> reach c0 c -> curspl (c_state c).1 = 0 \/ curthread (c_state c).1 = NULL -> kinv (c_state c).
Proof.
  intros Hb Hr Hc. destruct (booted_pool c0 c Hb Hr) as [_ [(Hn & Hs & _)|(_ & _ & Hk & _)]]; [|done].
  destruct Hc as [Hc|?]; [|done]. apply (Hs 1%nat). exact Hc.
Qed.

(** C5. Mutual exclusion: as long as a thread other than the running one owns a
    lock, no step of the machine, by any thread or interrupt handler, takes it
    away. *)
Theorem lock_owner_stable c0 c c' a t :
  booted o objs u main c0 -> reach c0 c -> step c c' -> t ≠ NULL -> t ≠ curthread (c_state c).1 ->
  held_by (c_state c) a t -> held_by (c_state c') a t.
Proof. intros Hb Hr. apply step_held. by eapply booted_pool. Qed.

(** C14. Nothing the kernel does is undefined: in every reachable state the next
    action of the running thread or of the scheduler takes a step of the machine
    or panics at an assertion, and so does every interrupt that can come then.
    No thread ever uses an object that is not there, a context that was not
    saved or an [int] that overflowed, or returns from its last function. *)
Theorem machine_progress c0 c :
  booted o objs u main c0 -> reach c0 c ->
  match advance c with
  | Done c' => step c c'
  | Panic => True
  | Stuck => False
  end /\ interrupts_defined c.
Proof.
  intros Hb Hr. pose proof (booted_pool c0 c Hb Hr) as Hp. split; [|by apply pool_interrupts].
  assert (advance c ≠ Stuck) by (destruct Hp as [_ [Hp|Hp]]; [by apply running_progress|by apply idle_progress]).
  destruct (advance c) eqn:E; [|done|done]. by apply advance_step.
Qed.
End theorems.
End clients.
End SynchSafety.
