(* ===== verification/SynchExample.v ===== *)
(** * A run of the machine

    Runs of the machine without interrupts, by [advance], and the theorems of
    [SynchSafety] applied to a program in which one thread holds a lock while
    another waits for it. *)

From S2P Require Import Prelude KArray KQueue Thread ThreadSpec Concurrency Synch SynchInv SynchTriples SynchSafety.

Module SynchExample.
Import Thread ThreadSpec Concurrency Synch SynchInv SynchTriples SynchSafety.

(** ** Running without interrupts *)

Section run.
Context {X : Type} (handler : M (sys * X) unit -> Prop).

Fixpoint run (n : nat) (c : config X) : config X :=
  match n with
  | O => c
  | S n => match advance c with Done c' => run n c' | _ => c end
  end.

Lemma run_reach n c : reach handler c (run n c).
Proof.
  assert (forall c0, reach handler c0 c -> reach handler c0 (run n c)) as H; [|apply H, reach_refl].
  revert c. induction n as [|n IH]; intros c c0 H; cbn; [done|].
  destruct (advance c) as [c'| |] eqn:E; [|done..]. apply IH. eapply reach_step; [done|]. by apply advance_step.
Qed.

Lemma run_S n c : run (S n) c = match advance (run n c) with Done c' => c' | _ => run n c end.
Proof.
  revert c. induction n as [|n IH]; intros c; [done|]. cbn [run] in *. destruct (advance c) as [c'| |] eqn:E; [apply IH|by rewrite E..].
Qed.

Lemma run_next n c : match advance (run n c) with Done _ => true | _ => false end = true -> step handler (run n c) (run (S n) c).
Proof. rewrite run_S. destruct (advance (run n c)) eqn:E; [|done..]. intros _. by apply advance_step. Qed.
End run.

(** ** The program *)

(** The boot thread takes the lock at 100, starts a thread that wants the lock,
    lets it run, and does [V] on the semaphore at 200. *)
Definition ex_objs : gmap ptr obj := {[100 := OLock (mkLock [] 0 NULL); 200 := OSem (mkSem [] 0)]}.
Definition ex_child : com (gmap ptr obj * Z) :=
  Seq (lock_acquire 100) (Seq (Do (lock_release 100)) (P 200)).
Definition ex_main : com (gmap ptr obj * Z) :=
  Seq (lock_acquire 100)
  (Fork [104; 105] ex_child (fun _ => Seq thread_yield (Seq (Do (lock_release 100)) (Do (V 200))))).

Definition ex_orc : oracle := replicate 40 true.
Definition ex_boot : sys :=
  match boot_threads (power_on ex_orc) with Done (_, s) => s | _ => power_on [] end.
Definition ex_start : config (gmap ptr obj * Z) := start ex_boot ex_objs 0 ex_main.
Definition ex_kinds : gmap ptr kind := kind_of <$> ex_objs.

Lemma ex_client : client (U := Z) ex_kinds ex_main.
Proof. repeat first [reflexivity|constructor]. Qed.

Lemma ex_booted : booted ex_orc ex_objs 0 ex_main ex_start.
Proof. exists ex_boot. split; [vm_compute; reflexivity|reflexivity]. Qed.

Lemma ex_fresh : map_Forall (fun _ => fresh_obj) ex_objs.
Proof. apply map_Forall_insert_2; [done|]. by apply map_Forall_singleton. Qed.

(** After 26 steps the second thread sleeps on the lock and the scheduler is
    about to run the first one again. *)
Lemma synch_invariant_witness : kinv ex_kinds (c_state (run 26 ex_start)).
Proof.
  apply (synch_invariant ex_kinds ex_orc ex_objs 0 ex_main eq_refl ex_fresh eq_refl eq_refl ex_client ex_start).
  - exact ex_booted.
  - apply run_reach.
  - right. vm_compute. reflexivity.
Defined.

(** The step in which the second thread goes to sleep leaves the lock with the
    first. *)
Lemma lock_owner_stable_witness : held_by (c_state (run 26 ex_start)) 100 1.
Proof.
  apply (lock_owner_stable ex_kinds ex_orc ex_objs 0 ex_main eq_refl ex_fresh eq_refl eq_refl ex_client ex_start (run 25 ex_start)).
  - exact ex_booted.
  - apply run_reach.
  - apply run_next. vm_compute. reflexivity.
  - done.
  - vm_compute. discriminate.
  - exists (mkLock [] 1 1). vm_compute. split; reflexivity.
Defined.

(** Both threads have exited or sleep for good; the clock still ticks. *)
Lemma machine_progress_witness :
  match advance (run 60 ex_start) with
  | Done c' => step (device ex_kinds) (run 60 ex_start) c'
  | Panic => True
  | Stuck => False
  end /\ interrupts_defined ex_kinds (run 60 ex_start).
Proof.
  apply (machine_progress ex_kinds ex_orc ex_objs 0 ex_main eq_refl ex_fresh eq_refl eq_refl ex_client ex_start).
  - exact ex_booted.
  - apply run_reach.
Defined.
End SynchExample.
