(* ===== verification/Ram.v ===== *)
(** * Physical memory: [kern/arch/mips/mips/ram.c] and the page allocator of
      [kern/arch/mips/mips/dumbvm.c]

    The boundaries of the memory not yet handed out, and the functions that
    hand it out.  With dumbvm no page ever comes back. *)

From S2P Require Import Prelude.

Module Ram.

(** ** Constants of [machine/vm.h] *)

Definition PAGE_SIZE : Z := 4096.
Definition PAGE_FRAME : Z := 4294963200.       (* 0xfffff000 *)
Definition MIPS_KSEG0 : Z := 2147483648.       (* 0x80000000 *)
Definition PADDR_TO_KVADDR (paddr : Z) : Z := u32 (paddr + MIPS_KSEG0).

(** ** State *)

(** The interrupt priority and the globals of [ram.c]. *)
Record machine := mkMachine {
  curspl : Z;
  firstpaddr : Z;
  lastpaddr : Z
}.

Definition SPL_HIGH : Z := 15.

(** [splx] of [arch/mips/mips/spl.c] *)
Definition splx (newspl : Z) : M machine Z :=
  m ← get;
  _ ← put (mkMachine newspl (firstpaddr m) (lastpaddr m));
  mret (curspl m).
Definition splhigh : M machine Z := splx SPL_HIGH.

(** ** Operations *)

(** [mips_ramsize()] and the variable [firstfree] set by [start.S] are
    arguments. *)
Definition ram_bootstrap (mips_ramsize firstfree : Z) : M machine unit :=
  let ramsize := if bool_decide (mips_ramsize > 508 * 1024 * 1024) then 508 * 1024 * 1024 else mips_ramsize in
  modify (fun m => mkMachine (curspl m) (u32 (firstfree - MIPS_KSEG0)) ramsize).

Definition ram_stealmem (npages : Z) : M machine Z :=
  m ← get;
  let size := u32 (npages * PAGE_SIZE) in
  if bool_decide (u32 (firstpaddr m + size) > lastpaddr m) then mret 0 else
  let paddr := firstpaddr m in
  _ ← put (mkMachine (curspl m) (u32 (firstpaddr m + size)) (lastpaddr m));
  mret paddr.

Definition ram_getsize : M machine (Z * Z) :=
  m ← get;
  _ ← put (mkMachine (curspl m) 0 0);
  mret (firstpaddr m, lastpaddr m).

Definition ram_getavail : M machine Z :=
  m ← get; mret (u32 (lastpaddr m - firstpaddr m)).

Definition getppages (npages : Z) : M machine Z :=
  spl ← splhigh;
  addr ← ram_stealmem npages;
  _ ← splx spl;
  mret addr.

Definition alloc_kpages (npages : Z) : M machine Z :=
  pa ← getppages npages;
  if bool_decide (pa = 0) then mret 0 else
  mret (PADDR_TO_KVADDR pa).

Definition free_kpages (addr : Z) : M machine unit := mret tt.

(** ** Page arithmetic *)

Lemma frame_spec x : 0 <= x < 4294967296 -> Z.land x PAGE_FRAME = x - x mod PAGE_SIZE.
Proof.
  intros Hx. change PAGE_FRAME with (Z.ldiff (Z.ones 32) (Z.ones 12)).
  assert (Z.land x (Z.ldiff (Z.ones 32) (Z.ones 12)) = Z.ldiff (Z.land x (Z.ones 32)) (Z.ones 12)) as ->.
  { apply Z.bits_inj'. intros n _. rewrite Z.land_spec, !Z.ldiff_spec, Z.land_spec. by rewrite andb_assoc. }
  rewrite Z.land_ones, Z.ldiff_ones_r, Z.shiftr_div_pow2, Z.shiftl_mul_pow2 by lia.
  change (2 ^ 32) with 4294967296. change (2 ^ 12) with PAGE_SIZE. rewrite Z.mod_small by done.
  pose proof (Z.div_mod x PAGE_SIZE ltac:(done)). lia.
Qed.

(** The low bits: [x & ~PAGE_FRAME]. *)
Lemma low_spec x : Z.land x 4095 = x mod PAGE_SIZE.
Proof. change 4095 with (Z.ones 12). by rewrite Z.land_ones. Qed.

Lemma frame_aligned x : 0 <= x < 4294967296 -> x mod PAGE_SIZE = 0 -> Z.land x PAGE_FRAME = x.
Proof. intros Hx Hm. rewrite frame_spec by done. lia. Qed.

Lemma lor_low pa b : pa mod PAGE_SIZE = 0 -> 0 <= b < PAGE_SIZE -> Z.lor pa b = pa + b.
Proof.
  intros Ha Hb. assert (Z.land pa b = 0) as Hl.
  { apply Z.bits_inj'. intros n Hn. rewrite Z.land_spec, Z.bits_0. destruct (Z.lt_ge_cases n 12) as [Hlt|Hge].
    - rewrite (Z.div_mod pa PAGE_SIZE), Ha, Z.add_0_r, Z.mul_comm by done. change PAGE_SIZE with (2 ^ 12).
      by rewrite Z.mul_pow2_bits_low.
    - rewrite <- (Z.mod_small b PAGE_SIZE) by done. change PAGE_SIZE with (2 ^ 12).
      rewrite Z.mod_pow2_bits_high by lia. by rewrite andb_false_r. }
  rewrite Z.add_nocarry_lxor by done. by rewrite Z.lxor_lor.
Qed.

(** The bits below the frame: [x & m] for a mask of low bits. *)
Lemma land_low x m : Z.land 4095 m = m -> Z.land x m = Z.land (x mod PAGE_SIZE) m.
Proof. intros Hm. rewrite <- low_spec, <- Z.land_assoc. by rewrite Hm. Qed.

(** Two runs of memory, each an address and a length, have no byte in common. *)
Definition apart (x y : Z * Z) : Prop := x.1 + x.2 <= y.1 \/ y.1 + y.2 <= x.1.

(** ** Free memory *)

(** The boundaries after [ram_bootstrap]: page-aligned, above the exception
    handlers, within the 508 megabytes that kseg0 can reach. *)
Record ram_ok (m : machine) : Prop := {
  r_first : 0 < firstpaddr m <= lastpaddr m;
  r_last : lastpaddr m <= 508 * 1024 * 1024;
  r_align : firstpaddr m mod PAGE_SIZE = 0
}.

Lemma wp_splx spl m (Q : Z -> machine -> Prop) E :
  Q (curspl m) (mkMachine spl (firstpaddr m) (lastpaddr m)) -> wp (splx spl) Q E m.
Proof. done. Qed.

(** Requests that do not overflow get the next [npages] pages or nothing. *)
Lemma wp_getppages npages m (Q : Z -> machine -> Prop) E :
  ram_ok m -> 0 <= npages < 786432 ->
  (firstpaddr m + npages * PAGE_SIZE > lastpaddr m -> Q 0 m) ->
  (firstpaddr m + npages * PAGE_SIZE <= lastpaddr m ->
   forall m', m' = mkMachine (curspl m) (firstpaddr m + npages * PAGE_SIZE) (lastpaddr m) -> ram_ok m' ->
   Q (firstpaddr m) m') ->
  wp (getppages npages) Q E m.
Proof.
  intros [Hf Hl Ha] Hn HN HQ. unfold getppages, ram_stealmem, splhigh, PAGE_SIZE in *.
  repeat wp_base. apply wp_splx. cbn beta. repeat wp_base. cbn [firstpaddr lastpaddr curspl].
  rewrite (u32_small (npages * 4096)), u32_small by lia.
  case_bool_decide.
  - repeat wp_base. apply wp_splx. wp_base. destruct m. by apply HN.
  - repeat wp_base. apply wp_splx. wp_base. apply HQ; [lia|done|]. split; cbn; [lia|done|].
    unfold PAGE_SIZE. by rewrite Z.mod_add.
Qed.

Lemma wp_alloc_kpages npages m (Q : Z -> machine -> Prop) E :
  ram_ok m -> 0 <= npages < 786432 ->
  (firstpaddr m + npages * PAGE_SIZE > lastpaddr m -> Q 0 m) ->
  (firstpaddr m + npages * PAGE_SIZE <= lastpaddr m ->
   forall m', m' = mkMachine (curspl m) (firstpaddr m + npages * PAGE_SIZE) (lastpaddr m) -> ram_ok m' ->
   Q (firstpaddr m + MIPS_KSEG0) m') ->
  wp (alloc_kpages npages) Q E m.
Proof.
  intros Hm Hn HN HQ. unfold alloc_kpages. wp_base. apply wp_getppages; [done|done|..].
  - intros. cbn beta. by apply HN.
  - intros Hle m' -> Hok. pose proof (r_first _ Hm). pose proof (r_last _ Hm). cbn beta.
    rewrite bool_decide_eq_false_2 by lia. wp_base. unfold PADDR_TO_KVADDR, MIPS_KSEG0.
    rewrite u32_small by lia. by apply HQ.
Qed.
End Ram.
