(* ===== verification/KHeap.v ===== *)
(** * The kernel heap: [kern/lib/kheap.c]

    [kmalloc] and [kfree]: blocks below half a page come from pages cut into
    blocks of one size, with a free list threaded through the free blocks;
    larger requests get whole pages. *)

From S2P Require Import Prelude Ram.

Module KHeap.
Import Ram.

(** ** State *)

Definition sizes : list Z := [16; 32; 64; 128; 256; 512; 1024; 2048].
Definition LARGEST_SUBPAGE_SIZE : Z := 2048.
Definition INVALID_OFFSET : Z := 65535.

(** A [struct pageref]; pagerefs point to each other by their index in
    [pagerefs]. *)
Record pageref := mkPr {
  next_samesize : option Z;
  next_all : option Z;
  pageaddr_and_blocktype : Z;
  freelist_offset : Z;
  nfree : Z
}.

Definition set_next_samesize (pr : pageref) x := mkPr x (next_all pr) (pageaddr_and_blocktype pr) (freelist_offset pr) (nfree pr).
Definition set_next_all (pr : pageref) x := mkPr (next_samesize pr) x (pageaddr_and_blocktype pr) (freelist_offset pr) (nfree pr).
Definition set_pab (pr : pageref) x := mkPr (next_samesize pr) (next_all pr) x (freelist_offset pr) (nfree pr).
Definition set_offset (pr : pageref) x := mkPr (next_samesize pr) (next_all pr) (pageaddr_and_blocktype pr) x (nfree pr).
Definition set_nfree (pr : pageref) x := mkPr (next_samesize pr) (next_all pr) (pageaddr_and_blocktype pr) (freelist_offset pr) x.

Definition PR_PAGEADDR (pr : pageref) : Z := Z.land (pageaddr_and_blocktype pr) PAGE_FRAME.
Definition PR_BLOCKTYPE (pr : pageref) : Z := Z.land (pageaddr_and_blocktype pr) 4095.
Definition MKPAB (pa blk : Z) : Z := Z.lor (Z.land pa PAGE_FRAME) (Z.land blk 4095).

Definition NPAGEREFS : Z := 256.
Definition INUSE_WORDS : Z := 8.

(** The globals, and the words of kernel memory by address: a word that was
    never written has no value. *)
Record kheap := mkHeap {
  mach : machine;
  pagerefs : list pageref;
  pagerefs_inuse : list Z;
  sizebases : list (option Z);
  allbase : option Z;
  mem : gmap Z Z
}.

Definition set_mach (h : kheap) x := mkHeap x (pagerefs h) (pagerefs_inuse h) (sizebases h) (allbase h) (mem h).
Definition set_pagerefs (h : kheap) x := mkHeap (mach h) x (pagerefs_inuse h) (sizebases h) (allbase h) (mem h).
Definition set_inuse (h : kheap) x := mkHeap (mach h) (pagerefs h) x (sizebases h) (allbase h) (mem h).
Definition set_sizebases (h : kheap) x := mkHeap (mach h) (pagerefs h) (pagerefs_inuse h) x (allbase h) (mem h).
Definition set_allbase (h : kheap) x := mkHeap (mach h) (pagerefs h) (pagerefs_inuse h) (sizebases h) x (mem h).
Definition set_mem (h : kheap) x := mkHeap (mach h) (pagerefs h) (pagerefs_inuse h) (sizebases h) (allbase h) x.

Abbreviation H := (M kheap) (only parsing).

Definition on_mach {A} (m : M machine A) : H A := fun h =>
  match m (mach h) with
  | Done (r, x) => Done (r, set_mach h x)
  | Panic => Panic
  | Stuck => Stuck
  end.

Definition load (a : Z) : H Z := h ← get; lift (match mem h !! a with Some w => Done w | None => Stuck end).
Definition store (a w : Z) : H unit := modify (fun h => set_mem h (<[a := w]> (mem h))).
Definition get_pr (p : Z) : H pageref := h ← get; lift (getZ (pagerefs h) p).
Definition put_pr (p : Z) (pr : pageref) : H unit :=
  h ← get; l ← lift (setZ (pagerefs h) p pr); put (set_pagerefs h l).
Definition size_of (blktype : Z) : H Z := lift (getZ sizes blktype).

Fixpoint fill_words (n : nat) (a : Z) : H unit :=
  match n with
  | O => mret tt
  | S n => _ ← store a 3735928559; fill_words n (a + 4)       (* 0xdeadbeef *)
  end.
Definition fill_deadbeef (vptr len : Z) : H unit := fill_words (Z.to_nat (len / 4)) vptr.

(** ** Pagerefs *)

(** [for (k=1,j=0; k!=0; k<<=1,j++)]: 32 turns, and [k] is 0. *)
Fixpoint bit_scan (n : nat) (w k j : Z) : option (Z * Z) :=
  match n with
  | O => None
  | S n => if bool_decide (Z.land w k = 0) then Some (j, k) else bit_scan n w (u32 (Z.shiftl k 1)) (j + 1)
  end.

Fixpoint word_scan (n : nat) (i : Z) : H (option Z) :=
  match n with
  | O => mret None
  | S n =>
      h ← get;
      w ← lift (getZ (pagerefs_inuse h) i);
      if bool_decide (w = 4294967295) then word_scan n (i + 1) else
      match bit_scan 32 w 1 0 with
      | Some (j, k) =>
          l ← lift (setZ (pagerefs_inuse h) i (Z.lor w k));
          _ ← put (set_inuse h l);
          mret (Some (i * 32 + j))
      | None => panic
      end
  end.

Definition allocpageref : H (option Z) := word_scan (Z.to_nat INUSE_WORDS) 0.

Definition freepageref (p : Z) : H unit :=
  _ ← massert (bool_decide (0 <= p < NPAGEREFS));
  let i := p / 32 in
  let k := Z.shiftl 1 (p mod 32) in
  h ← get;
  w ← lift (getZ (pagerefs_inuse h) i);
  _ ← massert (bool_decide (Z.land w k ≠ 0));
  l ← lift (setZ (pagerefs_inuse h) i (Z.ldiff w k));
  put (set_inuse h l).

(** A [struct pageref **] that walks a list: the list head or the link of a
    pageref. *)
Definition get_link_all (guy : option Z) : H (option Z) :=
  match guy with
  | None => h ← get; mret (allbase h)
  | Some p => pr ← get_pr p; mret (next_all pr)
  end.
Definition put_link_all (guy : option Z) (x : option Z) : H unit :=
  match guy with
  | None => modify (fun h => set_allbase h x)
  | Some p => pr ← get_pr p; put_pr p (set_next_all pr x)
  end.
Definition get_link_same (blktype : Z) (guy : option Z) : H (option Z) :=
  match guy with
  | None => h ← get; lift (getZ (sizebases h) blktype)
  | Some p => pr ← get_pr p; mret (next_samesize pr)
  end.
Definition put_link_same (blktype : Z) (guy : option Z) (x : option Z) : H unit :=
  match guy with
  | None => h ← get; l ← lift (setZ (sizebases h) blktype x); put (set_sizebases h l)
  | Some p => pr ← get_pr p; put_pr p (set_next_samesize pr x)
  end.

(** A list has at most [NPAGEREFS] elements; more turns would mean a cycle. *)
Definition LIST_FUEL : nat := 257.

Fixpoint remove_loop (n : nat) (getl : option Z -> H (option Z)) (putl : option Z -> option Z -> H unit)
    (pr : Z) (guy : option Z) : H unit :=
  match n with
  | O => lift Stuck
  | S n =>
      cur ← getl guy;
      match cur with
      | None => mret tt
      | Some c =>
          if bool_decide (c = pr) then
            x ← getl (Some pr);
            putl guy x
          else remove_loop n getl putl pr (Some c)
      end
  end.

Definition remove_lists (pr blktype : Z) : H unit :=
  _ ← massert (bool_decide (0 <= blktype < 8));
  _ ← remove_loop LIST_FUEL (get_link_same blktype) (put_link_same blktype) pr None;
  remove_loop LIST_FUEL get_link_all put_link_all pr None.

(** ** Allocation *)

Fixpoint blocktype_from (l : list Z) (i sz : Z) : H Z :=
  match l with
  | [] => panic
  | x :: l => if bool_decide (sz <= x) then mret i else blocktype_from l (i + 1) sz
  end.
Definition blocktype (sz : Z) : H Z := blocktype_from sizes 0 sz.

(** The first page of the size that has a free block. *)
Fixpoint find_page (n : nat) (pr : option Z) (blktype : Z) : H (option Z) :=
  match pr with
  | None => mret None
  | Some p =>
      match n with
      | O => lift Stuck
      | S n =>
          x ← get_pr p;
          _ ← massert (bool_decide (PR_BLOCKTYPE x = blktype));
          if bool_decide (nfree x > 0) then mret (Some p)
          else find_page n (next_samesize x) blktype
      end
  end.

(** The code at [doalloc]. *)
Definition doalloc (p : Z) : H Z :=
  pr ← get_pr p;
  _ ← massert (bool_decide (freelist_offset pr < PAGE_SIZE));
  let prpage := PR_PAGEADDR pr in
  let retptr := u32 (prpage + freelist_offset pr) in
  fl ← load retptr;
  let n := u16 (nfree pr - 1) in
  _ ← (if bool_decide (fl ≠ NULL) then
         _ ← massert (bool_decide (n > 0));
         _ ← massert (bool_decide (u32 (fl - prpage) < PAGE_SIZE));
         put_pr p (set_offset (set_nfree pr n) (u16 (fl - prpage)))
       else
         _ ← massert (bool_decide (n = 0));
         put_pr p (set_offset (set_nfree pr n) INVALID_OFFSET));
  mret retptr.

(** [for (i=1; i<pr->nfree; i++)]: thread the blocks of a fresh page. *)
Fixpoint thread_blocks (n : nat) (i fla sz : Z) : H Z :=
  match n with
  | O => mret (u32 (fla + (i - 1) * sz))
  | S n =>
      let fl := u32 (fla + i * sz) in
      let next := u32 (fla + (i - 1) * sz) in
      _ ← store fl next;
      _ ← massert (bool_decide (fl ≠ next));
      thread_blocks n (i + 1) fla sz
  end.

(** A fresh page [prpage] for the pageref [p]. *)
Definition new_page (p prpage blktype sz : Z) : H unit :=
  let n := u16 (PAGE_SIZE / sz) in
  pr ← get_pr p;
  _ ← put_pr p (set_nfree (set_pab pr (MKPAB prpage blktype)) n);
  _ ← store prpage NULL;
  fl ← thread_blocks (Z.to_nat (n - 1)) 1 prpage sz;
  let offset := u16 (fl - prpage) in
  _ ← massert (bool_decide (offset = (n - 1) * sz));
  h ← get;
  base ← lift (getZ (sizebases h) blktype);
  pr ← get_pr p;
  _ ← put_pr p (set_next_all (set_next_samesize (set_offset pr offset) base) (allbase h));
  l ← lift (setZ (sizebases h) blktype (Some p));
  _ ← modify (fun h => set_sizebases h l);
  modify (fun h => set_allbase h (Some p)).

(** No page of the right size has a free block: make a new one. *)
Definition fresh_block (blktype sz spl : Z) : H Z :=
  pr ← allocpageref;
  match pr with
  | None => _ ← on_mach (splx spl); mret NULL
  | Some p =>
      prpage ← on_mach (alloc_kpages 1);
      if bool_decide (prpage = 0) then
        _ ← freepageref p;
        _ ← on_mach (splx spl);
        mret NULL
      else
        _ ← new_page p prpage blktype sz;
        retptr ← doalloc p;
        _ ← on_mach (splx spl);
        mret retptr
  end.

Definition subpage_kmalloc (sz : Z) : H Z :=
  blktype ← blocktype sz;
  sz ← size_of blktype;
  spl ← on_mach splhigh;
  h ← get;
  base ← lift (getZ (sizebases h) blktype);
  found ← find_page LIST_FUEL base blktype;
  match found with
  | Some p =>
      retptr ← doalloc p;
      _ ← on_mach (splx spl);
      mret retptr
  | None => fresh_block blktype sz spl
  end.

(** ** Release *)

(** The pageref whose page holds the address. *)
Fixpoint find_owner (n : nat) (pr : option Z) (ptraddr : Z) : H (option Z) :=
  match pr with
  | None => mret None
  | Some p =>
      match n with
      | O => lift Stuck
      | S n =>
          x ← get_pr p;
          let prpage := PR_PAGEADDR x in
          _ ← massert (bool_decide (0 <= PR_BLOCKTYPE x < 8));
          if bool_decide (ptraddr >= prpage) && bool_decide (ptraddr < u32 (prpage + PAGE_SIZE)) then mret (Some p)
          else find_owner n (next_all x) ptraddr
      end
  end.

(** Put the block at [ptr] on the free list of its page, and give the page back
    when all of it is free. *)
Definition free_block (p ptr : Z) : H unit :=
  pr ← get_pr p;
  let prpage := PR_PAGEADDR pr in
  let blktype := PR_BLOCKTYPE pr in
  let offset := u32 (ptr - prpage) in
  sz ← size_of blktype;
  if bool_decide (offset >= PAGE_SIZE) || bool_decide (offset mod sz ≠ 0) then panic else
  _ ← fill_deadbeef ptr sz;
  let fla := u32 (prpage + offset) in
  _ ← store fla (if bool_decide (freelist_offset pr = INVALID_OFFSET) then NULL
                 else u32 (prpage + freelist_offset pr));
  let n := u16 (nfree pr + 1) in
  _ ← put_pr p (set_nfree (set_offset pr (u16 offset)) n);
  _ ← massert (bool_decide (n <= PAGE_SIZE / sz));
  if bool_decide (n = PAGE_SIZE / sz) then
    _ ← remove_lists p blktype;
    _ ← on_mach (free_kpages prpage);
    freepageref p
  else mret tt.

Definition subpage_kfree (ptr : Z) : H Z :=
  spl ← on_mach splhigh;
  h ← get;
  found ← find_owner LIST_FUEL (allbase h) ptr;
  match found with
  | None => _ ← on_mach (splx spl); mret (-1)
  | Some p =>
      _ ← free_block p ptr;
      _ ← on_mach (splx spl);
      mret 0
  end.

Definition kmalloc (sz : Z) : H Z :=
  if bool_decide (sz >= LARGEST_SUBPAGE_SIZE) then
    let npages := u32 (sz + PAGE_SIZE - 1) / PAGE_SIZE in
    on_mach (alloc_kpages npages)
  else subpage_kmalloc sz.

Definition kfree (ptr : Z) : H unit :=
  if bool_decide (ptr = NULL) then mret tt else
  r ← subpage_kfree ptr;
  if bool_decide (r ≠ 0) then
    _ ← massert (bool_decide (ptr mod PAGE_SIZE = 0));
    on_mach (free_kpages ptr)
  else mret tt.
End KHeap.
