(* ===== verification/KHeapSpec.v ===== *)
(** * The kernel heap hands out disjoint blocks

    The invariant of [KHeap], the live blocks it stands for, and the proof that
    [kmalloc] adds a fresh block and [kfree] removes one, without disturbing
    the contents of the others. *)

From S2P Require Import Prelude Ram KHeap.

Module KHeapSpec.
Import Ram KHeap.

Lemma NoDup_fmap_elem {A B} (f : A -> B) l x y : NoDup (f <$> l) -> x ∈ l -> y ∈ l -> f x = f y -> x = y.
Proof.
  intros Hnd [i Hi]%list_elem_of_lookup [j Hj]%list_elem_of_lookup Hf.
  assert (i = j) as <-; [|congruence]. eapply NoDup_lookup; [exact Hnd| |];
    rewrite list_lookup_fmap; [rewrite Hi|rewrite Hj]; cbn; [done|by rewrite Hf].
Qed.

(** ** Pages cut into blocks *)

Definition bsize (b : Z) : Z := nth (Z.to_nat b) sizes 0.
Definition nblk (b : Z) : Z := PAGE_SIZE / bsize b.

(** A page: its pageref, its address, its block type and the offsets of its free
    blocks, in the order of the free list. *)
Record page := mkPage { pg_pr : Z; pg_addr : Z; pg_type : Z; pg_free : list Z }.

Definition offsets (b : Z) : list Z := (fun k => k * bsize b) <$> seqZ 0 (nblk b).
Definition live_offs (g : page) : list Z := filter (fun o => o ∉ pg_free g) (offsets (pg_type g)).
Definition page_live (g : page) : list (Z * Z) := (fun o => (pg_addr g + o, bsize (pg_type g))) <$> live_offs g.

Definition live (ps : list page) (big : list (Z * Z)) : list (Z * Z) := (ps ≫= page_live) ++ big.

(** ** Lists of pagerefs *)

Fixpoint linked (nxt : Z -> option (option Z)) (hd : option Z) (l : list Z) : Prop :=
  match l with
  | [] => hd = None
  | p :: l => hd = Some p /\ exists n, nxt p = Some n /\ linked nxt n l
  end.

Definition pr_at (h : kheap) (p : Z) : option pageref := if decide (0 <= p) then pagerefs h !! Z.to_nat p else None.
Definition core_at (h : kheap) (p : Z) : option (Z * Z * Z) :=
  (fun pr => (pageaddr_and_blocktype pr, freelist_offset pr, nfree pr)) <$> pr_at h p.
Definition nxt_all (h : kheap) (p : Z) : option (option Z) := next_all <$> pr_at h p.
Definition nxt_same (h : kheap) (p : Z) : option (option Z) := next_samesize <$> pr_at h p.

(** The free list of a page, threaded through memory. *)
Fixpoint free_chain (m : gmap Z Z) (a : Z) (l : list Z) : Prop :=
  match l with
  | [] => True
  | o :: l => m !! (a + o) = Some (match l with [] => NULL | o' :: _ => a + o' end) /\ free_chain m a l
  end.

Definition used (h : kheap) (p : Z) : Prop :=
  exists w, pagerefs_inuse h !! Z.to_nat (p / 32) = Some w /\ Z.testbit w (p mod 32) = true.

(** ** The invariant *)

Record page_ok (h : kheap) (g : page) : Prop := {
  p_core : core_at h (pg_pr g) =
    Some (pg_addr g + pg_type g, match pg_free g with [] => INVALID_OFFSET | o :: _ => o end, Z.of_nat (length (pg_free g)));
  p_type : 0 <= pg_type g < 8;
  p_addr : MIPS_KSEG0 < pg_addr g /\ pg_addr g + PAGE_SIZE <= MIPS_KSEG0 + firstpaddr (mach h);
  p_align : pg_addr g mod PAGE_SIZE = 0;
  p_nodup : NoDup (pg_free g);
  p_offs : forall o, o ∈ pg_free g -> o ∈ offsets (pg_type g);
  p_chain : free_chain (mem h) (pg_addr g) (pg_free g)
}.

Definition of_type (b : Z) (sh : list (Z * Z)) : list (Z * Z) := filter (fun x => x.2 = b) sh.

(** The lists of pagerefs; [sh] pairs each with its block type. *)
Record lists_ok (h : kheap) (sh : list (Z * Z)) : Prop := {
  l_refs : length (pagerefs h) = 256%nat;
  l_words : length (pagerefs_inuse h) = 8%nat;
  l_word : forall w, w ∈ pagerefs_inuse h -> 0 <= w < 4294967296;
  l_bases : length (sizebases h) = 8%nat;
  l_idx : forall p, p ∈ sh.*1 -> 0 <= p < 256;
  l_nodup : NoDup sh.*1;
  l_all : linked (nxt_all h) (allbase h) sh.*1;
  l_same : forall b, 0 <= b < 8 -> exists hd, sizebases h !! Z.to_nat b = Some hd /\
    linked (nxt_same h) hd (of_type b sh).*1;
  l_used : forall p, 0 <= p < 256 -> used h p <-> p ∈ sh.*1
}.

Definition disjoint (l : list (Z * Z)) : Prop := NoDup l /\ forall x y, x ∈ l -> y ∈ l -> x ≠ y -> apart x y.

(** Whole pages: those of [ps] and the large blocks. *)
Definition spans (ps : list page) (big : list (Z * Z)) : list (Z * Z) := ((fun g => (pg_addr g, PAGE_SIZE)) <$> ps) ++ big.

Record space_ok (h : kheap) (ps : list page) (big : list (Z * Z)) : Prop := {
  s_ram : ram_ok (mach h);
  s_big : forall x, x ∈ big -> MIPS_KSEG0 < x.1 /\ 0 < x.2 /\ x.1 + x.2 <= MIPS_KSEG0 + firstpaddr (mach h) /\ x.1 mod PAGE_SIZE = 0;
  s_disj : disjoint (spans ps big)
}.

Definition shape (ps : list page) : list (Z * Z) := (fun g => (pg_pr g, pg_type g)) <$> ps.

Record heap_on (h : kheap) (ps : list page) (big : list (Z * Z)) : Prop := {
  h_lists : lists_ok h (shape ps);
  h_pages : forall g, g ∈ ps -> page_ok h g;
  h_space : space_ok h ps big
}.

(** Between operations no page is entirely free. *)
Definition partial (ps : list page) : Prop := forall g, g ∈ ps -> Z.of_nat (length (pg_free g)) < nblk (pg_type g).

(** The heap [h] with the live blocks [L], each an address and a length. *)
Definition heap (h : kheap) (L : list (Z * Z)) : Prop := exists ps big, heap_on h ps big /\ partial ps /\ L ≡ₚ live ps big.

(** ** Sizes and offsets *)

Lemma type_cases b : 0 <= b < 8 -> b = 0 \/ b = 1 \/ b = 2 \/ b = 3 \/ b = 4 \/ b = 5 \/ b = 6 \/ b = 7.
Proof. lia. Qed.

Lemma bsize_range b : 0 <= b < 8 -> 16 <= bsize b <= 2048 /\ 2 <= nblk b <= 256 /\ nblk b * bsize b = PAGE_SIZE /\ bsize b mod 4 = 0.
Proof. intros Hb. destruct (type_cases b Hb) as [->|[->|[->|[->|[->|[->|[->| ->]]]]]]]; vm_compute; intuition discriminate. Qed.

Lemma getZ_bsize b : 0 <= b < 8 -> getZ sizes b = Done (bsize b).
Proof. intros Hb. destruct (type_cases b Hb) as [->|[->|[->|[->|[->|[->|[->| ->]]]]]]]; reflexivity. Qed.

Lemma elem_of_offsets o b : o ∈ offsets b <-> exists k, o = k * bsize b /\ 0 <= k < nblk b.
Proof. unfold offsets. rewrite list_elem_of_fmap. setoid_rewrite elem_of_seqZ. naive_solver lia. Qed.

Lemma offsets_bounds o b : 0 <= b < 8 -> o ∈ offsets b -> 0 <= o /\ o + bsize b <= PAGE_SIZE /\ o mod bsize b = 0 /\ o mod 4 = 0.
Proof.
  intros Hb (k & -> & Hk)%elem_of_offsets. destruct (bsize_range b Hb) as (Hs & _ & Hn & H4).
  split; [nia|]. split; [nia|]. split; [apply Z.mod_mul; lia|].
  rewrite Z.mul_mod, H4, Z.mul_0_r by lia. done.
Qed.

Lemma offsets_nodup b : 0 <= b < 8 -> NoDup (offsets b).
Proof. intros Hb. apply NoDup_fmap_2_strong; [|apply NoDup_seqZ]. intros x y _ _ Hxy. pose proof (bsize_range b Hb). apply (Z.mul_reg_r _ _ (bsize b)); [lia|done]. Qed.

Lemma offsets_apart o o' b : 0 <= b < 8 -> o ∈ offsets b -> o' ∈ offsets b -> o ≠ o' -> o + bsize b <= o' \/ o' + bsize b <= o.
Proof.
  intros Hb (k & -> & Hk)%elem_of_offsets (k' & -> & Hk')%elem_of_offsets Hne.
  destruct (bsize_range b Hb) as (Hs & _). destruct (Z.lt_trichotomy k k') as [?|[->|?]]; [left|done|right]; nia.
Qed.

Lemma length_offsets b : 0 <= b < 8 -> Z.of_nat (length (offsets b)) = nblk b.
Proof. intros Hb. unfold offsets. rewrite length_fmap, length_seqZ. pose proof (bsize_range b Hb). lia. Qed.

(** ** Live blocks are disjoint *)

#[export] Instance disjoint_Permutation : Proper ((≡ₚ) ==> iff) disjoint.
Proof. intros l l' Hl. unfold disjoint. rewrite Hl. by setoid_rewrite Hl. Qed.

Lemma elem_of_page_live g x :
  x ∈ page_live g <-> exists o, x = (pg_addr g + o, bsize (pg_type g)) /\ o ∈ offsets (pg_type g) /\ o ∉ pg_free g.
Proof. unfold page_live, live_offs. rewrite list_elem_of_fmap. setoid_rewrite list_elem_of_filter. naive_solver. Qed.

Lemma elem_of_spans x ps big : x ∈ spans ps big <-> (exists g, g ∈ ps /\ x = (pg_addr g, PAGE_SIZE)) \/ x ∈ big.
Proof. unfold spans. rewrite elem_of_app, list_elem_of_fmap. naive_solver. Qed.

Lemma elem_of_live x ps big : x ∈ live ps big <-> (exists g, g ∈ ps /\ x ∈ page_live g) \/ x ∈ big.
Proof. unfold live. rewrite elem_of_app, list_elem_of_bind. naive_solver. Qed.

(** A live block lies in one of the spans. *)
Lemma live_in_span h ps big x :
  heap_on h ps big -> x ∈ live ps big ->
  exists y, y ∈ spans ps big /\ y.1 <= x.1 /\ 0 < x.2 /\ x.1 + x.2 <= y.1 + y.2.
Proof.
  intros Hh [(g & Hg & (o & -> & Ho & _)%elem_of_page_live)|Hx]%elem_of_live.
  - pose proof (p_type _ _ (h_pages _ _ _ Hh g Hg)) as Ht. destruct (offsets_bounds _ _ Ht Ho) as (? & ? & _).
    pose proof (bsize_range _ Ht). exists (pg_addr g, PAGE_SIZE). split; [apply elem_of_spans; eauto|]. cbn [fst snd]. lia.
  - destruct (s_big _ _ _ (h_space _ _ _ Hh) x Hx) as (_ & ? & _). exists x. split; [apply elem_of_spans; auto|]. lia.
Qed.

Lemma spans_pages h ps big g g' :
  heap_on h ps big -> g ∈ ps -> g' ∈ ps -> pg_addr g = pg_addr g' -> g = g'.
Proof.
  intros Hh Hg Hg' Ha. destruct (s_disj _ _ _ (h_space _ _ _ Hh)) as [Hnd _].
  apply NoDup_app in Hnd as (Hnd & _ & _). eapply NoDup_fmap_elem; [exact Hnd|done|done|]. cbn beta. by rewrite Ha.
Qed.

Lemma page_not_big h ps big g x : heap_on h ps big -> g ∈ ps -> x ∈ big -> apart (pg_addr g, PAGE_SIZE) x.
Proof.
  intros Hh Hg Hx. destruct (s_disj _ _ _ (h_space _ _ _ Hh)) as [Hnd Hd]. apply Hd.
  - apply elem_of_spans. eauto.
  - apply elem_of_spans. auto.
  - intros Heq. apply NoDup_app in Hnd as (_ & Hnd & _). apply (Hnd (pg_addr g, PAGE_SIZE)); [|by rewrite Heq].
    apply list_elem_of_fmap. eauto.
Qed.

Lemma pages_apart h ps big g g' : heap_on h ps big -> g ∈ ps -> g' ∈ ps -> g ≠ g' -> apart (pg_addr g, PAGE_SIZE) (pg_addr g', PAGE_SIZE).
Proof.
  intros Hh Hg Hg' Hne. destruct (s_disj _ _ _ (h_space _ _ _ Hh)) as [_ Hd]. apply Hd; [apply elem_of_spans; eauto..|].
  intros [= Ha]. by eapply Hne, spans_pages.
Qed.

Lemma page_live_disjoint h g : page_ok h g -> disjoint (page_live g).
Proof.
  intros Hg. pose proof (p_type _ _ Hg) as Ht. split.
  - apply NoDup_fmap_2; [intros x y [= ?]; lia|]. apply NoDup_filter, offsets_nodup, Ht.
  - intros x y (o & -> & Ho & _)%elem_of_page_live (o' & -> & Ho' & _)%elem_of_page_live Hne.
    unfold apart. cbn [fst snd]. destruct (offsets_apart o o' _ Ht Ho Ho'); [congruence|lia..].
Qed.

Lemma live_disjoint h ps big : heap_on h ps big -> disjoint (live ps big).
Proof.
  intros Hh.
  assert (forall g o, g ∈ ps -> o ∈ offsets (pg_type g) -> 0 <= o /\ 0 < bsize (pg_type g) /\ o + bsize (pg_type g) <= PAGE_SIZE) as Hin.
  { intros g o Hg Ho. pose proof (p_type _ _ (h_pages _ _ _ Hh g Hg)) as Ht. destruct (offsets_bounds _ _ Ht Ho) as (?&?&_).
    pose proof (bsize_range _ Ht). lia. }
  assert (forall g g' x y, g ∈ ps -> g' ∈ ps -> g ≠ g' -> x ∈ page_live g -> y ∈ page_live g' -> apart x y) as Hpp.
  { intros g g' x y Hg Hg' Hne (o & -> & Ho & _)%elem_of_page_live (o' & -> & Ho' & _)%elem_of_page_live.
    pose proof (pages_apart _ _ _ _ _ Hh Hg Hg' Hne) as Ha. unfold apart in *. cbn [fst snd] in *.
    pose proof (Hin g o Hg Ho). pose proof (Hin g' o' Hg' Ho'). lia. }
  assert (forall g x y, g ∈ ps -> x ∈ page_live g -> y ∈ big -> apart x y) as Hpb.
  { intros g x y Hg (o & -> & Ho & _)%elem_of_page_live Hy. pose proof (page_not_big _ _ _ _ _ Hh Hg Hy) as Ha.
    unfold apart in *. cbn [fst snd] in *. pose proof (Hin g o Hg Ho). lia. }
  assert (forall x y, apart x y -> apart y x) as Hsym by (unfold apart; intros; lia).
  assert (forall g x, g ∈ ps -> x ∈ page_live g -> ~ apart x x) as Hirr.
  { intros g x Hg (o & -> & Ho & _)%elem_of_page_live. unfold apart. cbn [fst snd]. pose proof (Hin g o Hg Ho). lia. }
  destruct (s_disj _ _ _ (h_space _ _ _ Hh)) as [Hnd Hd]. apply NoDup_app in Hnd as (Hndp & _ & Hndb).
  split.
  - apply NoDup_app. split; [|split; [|done]].
    + apply NoDup_bind.
      * intros g g' x Hg Hg' Hx Hx'. destruct (decide (pg_addr g = pg_addr g')) as [Ha|Ha]; [by eapply spans_pages|].
        exfalso. eapply (Hirr g x Hg Hx), (Hpp g g'); [done|done|congruence|done|done].
      * intros g Hg. by eapply page_live_disjoint, h_pages.
      * by eapply NoDup_fmap_1.
    + intros x (g & Hx & Hg)%list_elem_of_bind Hb. by eapply (Hirr g x Hg Hx), Hpb.
  - intros x y [(g & Hg & Hx)|Hx]%elem_of_live [(g' & Hg' & Hy)|Hy]%elem_of_live Hne.
    + destruct (decide (pg_addr g = pg_addr g')) as [Ha|Ha].
      * assert (g = g') as <- by (by eapply spans_pages). by eapply page_live_disjoint; [eapply h_pages|..].
      * eapply (Hpp g g'); [done|done|congruence|done|done].
    + by eapply Hpb.
    + by eapply Hsym, Hpb.
    + apply Hd; [apply elem_of_spans; auto..|done].
Qed.

(** ** Page addresses with a block type in the low bits *)

Section pab.
Context (pa b : Z) (Hpa : 0 <= pa < 4294963200) (Ha : pa mod PAGE_SIZE = 0) (Hb : 0 <= b < 8).

Lemma pab_mod : (pa + b) mod PAGE_SIZE = b.
Proof.
  rewrite Z.add_mod, Ha, Z.add_0_l, Z.mod_mod by done. apply Z.mod_small. unfold PAGE_SIZE. lia.
Qed.

Lemma MKPAB_eq : MKPAB pa b = pa + b.
Proof.
  unfold MKPAB. rewrite frame_aligned by (unfold PAGE_SIZE in *; lia). rewrite low_spec, Z.mod_small by (unfold PAGE_SIZE; lia).
  apply lor_low; [done|unfold PAGE_SIZE; lia].
Qed.

Lemma PR_PAGEADDR_eq pr : pageaddr_and_blocktype pr = pa + b -> PR_PAGEADDR pr = pa.
Proof. unfold PR_PAGEADDR. intros ->. rewrite frame_spec, pab_mod by lia. lia. Qed.

Lemma PR_BLOCKTYPE_eq pr : pageaddr_and_blocktype pr = pa + b -> PR_BLOCKTYPE pr = b.
Proof. unfold PR_BLOCKTYPE. intros ->. by rewrite low_spec, pab_mod. Qed.
End pab.

(** ** Access to pagerefs and memory *)

Definition with_pr (h : kheap) (p : Z) (pr : pageref) : kheap := set_pagerefs h (<[Z.to_nat p := pr]> (pagerefs h)).

Lemma pr_at_range h p pr : pr_at h p = Some pr -> 0 <= p < Z.of_nat (length (pagerefs h)).
Proof. unfold pr_at. case_decide; [|done]. intros ?%lookup_lt_Some. lia. Qed.

Lemma pr_at_some h p : 0 <= p < Z.of_nat (length (pagerefs h)) -> exists pr, pr_at h p = Some pr.
Proof.
  intros Hp. unfold pr_at. rewrite decide_True by lia.
  destruct (pagerefs h !! Z.to_nat p) eqn:E; [eauto|]. apply lookup_ge_None in E. lia.
Qed.

Lemma pr_at_with h p q pr old : pr_at h p = Some old -> pr_at (with_pr h p pr) q = if decide (q = p) then Some pr else pr_at h q.
Proof.
  intros Hp. pose proof (pr_at_range _ _ _ Hp). unfold pr_at, with_pr. cbn [pagerefs set_pagerefs].
  destruct (decide (q = p)) as [->|Hne].
  - rewrite decide_True by lia. apply list_lookup_insert_eq. lia.
  - case_decide; [|done]. apply list_lookup_insert_ne. lia.
Qed.

Lemma wp_get_pr p pr h (Q : pageref -> kheap -> Prop) E : pr_at h p = Some pr -> Q pr h -> wp (get_pr p) Q E h.
Proof.
  intros Hp HQ. pose proof (pr_at_range _ _ _ Hp). unfold get_pr. repeat wp_base.
  eapply wp_lift; [|exact HQ]. apply getZ_ok; [lia|]. unfold pr_at in Hp. by rewrite decide_True in Hp by lia.
Qed.

Lemma wp_put_pr p pr old h (Q : unit -> kheap -> Prop) E :
  pr_at h p = Some old -> Q tt (with_pr h p pr) -> wp (put_pr p pr) Q E h.
Proof.
  intros Hp HQ. pose proof (pr_at_range _ _ _ Hp). unfold put_pr. repeat wp_base.
  eapply wp_lift; [by apply setZ_ok|]. by wp_base.
Qed.

Lemma wp_load a w h (Q : Z -> kheap -> Prop) E : mem h !! a = Some w -> Q w h -> wp (load a) Q E h.
Proof. intros Ha HQ. unfold load. repeat wp_base. eapply wp_lift; [|exact HQ]. by rewrite Ha. Qed.

Lemma wp_on_mach {A} (m : M machine A) h (Q : A -> kheap -> Prop) E :
  wp m (fun a x => Q a (set_mach h x)) (fun e x => E e (set_mach h x)) (mach h) -> wp (on_mach m) Q E h.
Proof. unfold wp, on_mach. by destruct (m (mach h)) as [[[e|a] x]| |]. Qed.

Lemma core_at_Some h p c : core_at h p = Some c ->
  exists pr, pr_at h p = Some pr /\ c = (pageaddr_and_blocktype pr, freelist_offset pr, nfree pr).
Proof. unfold core_at. destruct (pr_at h p) as [pr|]; [|done]. intros [= <-]. eauto. Qed.

Lemma core_at_with h p q pr old :
  pr_at h p = Some old ->
  core_at (with_pr h p pr) q =
    if decide (q = p) then Some (pageaddr_and_blocktype pr, freelist_offset pr, nfree pr) else core_at h q.
Proof. intros Hp. unfold core_at. rewrite (pr_at_with _ _ _ _ old) by done. by case_decide. Qed.

Lemma linked_ext nxt nxt' hd l : (forall p, p ∈ l -> nxt' p = nxt p) -> linked nxt hd l -> linked nxt' hd l.
Proof.
  revert hd. induction l as [|p l IH]; intros hd Hx; [done|]. intros (-> & n & Hn & Hl). split; [done|]. exists n.
  split; [rewrite Hx; [done|apply elem_of_cons; auto]|]. apply IH; [|done]. intros q Hq. apply Hx, elem_of_cons. auto.
Qed.

Lemma free_chain_ext m m' a l : (forall o, o ∈ l -> m' !! (a + o) = m !! (a + o)) -> free_chain m a l -> free_chain m' a l.
Proof.
  induction l as [|o l IH]; [done|]. intros Hx [Ho Hl]. split; [rewrite Hx; [done|apply elem_of_cons; auto]|].
  apply IH; [|done]. intros q Hq. apply Hx, elem_of_cons. auto.
Qed.

Lemma page_addr_range h ps big g : heap_on h ps big -> g ∈ ps -> 0 <= pg_addr g < 3221225472.
Proof.
  intros Hh Hg. destruct (p_addr _ _ (h_pages _ _ _ Hh g Hg)). destruct (s_ram _ _ _ (h_space _ _ _ Hh)) as [? ? _].
  unfold MIPS_KSEG0, PAGE_SIZE in *. lia.
Qed.

(** ** Taking a block *)

Definition in_range (g : page) : Prop := 0 <= pg_addr g < 3221225472.

(** What a page's pageref holds, decoded. *)
Lemma page_pr h g :
  page_ok h g -> in_range g ->
  exists pr, pr_at h (pg_pr g) = Some pr /\ PR_PAGEADDR pr = pg_addr g /\ PR_BLOCKTYPE pr = pg_type g /\
    freelist_offset pr = match pg_free g with [] => INVALID_OFFSET | o :: _ => o end /\ nfree pr = Z.of_nat (length (pg_free g)).
Proof.
  intros Hg Hr. destruct (core_at_Some _ _ _ (p_core _ _ Hg)) as (pr & Hpr & [= Hpab Hoff Hn]). exists pr.
  pose proof (p_type _ _ Hg). pose proof (p_align _ _ Hg). unfold in_range in Hr. split_and!; try done.
  - eapply PR_PAGEADDR_eq; [| | |done]; [lia|done|done].
  - eapply PR_BLOCKTYPE_eq; [| |done]; done.
Qed.

Lemma wp_find_page gs n hd b h (Q : option Z -> kheap -> Prop) E :
  linked (nxt_same h) hd (pg_pr <$> gs) -> (length gs <= n)%nat ->
  (forall g, g ∈ gs -> page_ok h g /\ in_range g /\ pg_type g = b) ->
  ((forall g, g ∈ gs -> pg_free g = []) -> Q None h) -> (forall g, g ∈ gs -> pg_free g ≠ [] -> Q (Some (pg_pr g)) h) ->
  wp (find_page n hd b) Q E h.
Proof.
  revert n hd. induction gs as [|g gs IH]; intros n hd Hl Hn Hok HN HS.
  { cbn in Hl. subst hd. destruct n; cbn [find_page]; wp_base; apply HN; intros g Hg; by apply not_elem_of_nil in Hg. }
  destruct Hl as (-> & nx & Hnx & Hl). destruct n as [|n]; [cbn in Hn; lia|]. cbn [find_page].
  destruct (Hok g) as (Hg & Hr & Hb); [apply elem_of_cons; auto|].
  destruct (page_pr h g Hg Hr) as (pr & Hpr & _ & Hbt & _ & Hnf).
  wp_base. eapply wp_get_pr; [done|]. wp_base. apply wp_massert; [apply bool_decide_eq_true_2; congruence|].
  case_bool_decide as Hfree.
  - wp_base. apply HS; [apply elem_of_cons; auto|]. intros He. rewrite He in Hnf. cbn in Hnf. lia.
  - unfold nxt_same in Hnx. rewrite Hpr in Hnx. injection Hnx as <-. apply IH; [done|cbn in Hn; lia| | |].
    + intros g' Hg'. apply Hok, elem_of_cons. auto.
    + intros Hall. apply HN. intros g' [->|Hg']%elem_of_cons; [|auto].
      destruct (pg_free g); [done|]. cbn in Hnf. lia.
    + intros g' Hg'. apply HS, elem_of_cons. auto.
Qed.

(** The pageref after its first free block has been taken. *)
Definition taken (pr : pageref) (fl : list Z) : pageref :=
  set_offset (set_nfree pr (Z.of_nat (length fl))) (match fl with [] => INVALID_OFFSET | o :: _ => o end).

Lemma free_bounds h g o : page_ok h g -> o ∈ pg_free g -> 0 <= o <= 4080.
Proof.
  intros Hg Ho. pose proof (p_type _ _ Hg) as Ht. apply (p_offs _ _ Hg) in Ho. pose proof (bsize_range _ Ht).
  destruct (offsets_bounds _ _ Ht Ho) as (? & ? & _). unfold PAGE_SIZE in *. lia.
Qed.

Lemma free_length h g : page_ok h g -> Z.of_nat (length (pg_free g)) <= nblk (pg_type g).
Proof.
  intros Hg. rewrite <- (length_offsets _ (p_type _ _ Hg)). apply inj_le, submseteq_length, NoDup_submseteq; [apply Hg|].
  apply (p_offs _ _ Hg).
Qed.

Lemma wp_doalloc g o fl h (Q : Z -> kheap -> Prop) E :
  page_ok h g -> in_range g -> pg_free g = o :: fl ->
  (forall pr, pr_at h (pg_pr g) = Some pr -> Q (pg_addr g + o) (with_pr h (pg_pr g) (taken pr fl))) ->
  wp (doalloc (pg_pr g)) Q E h.
Proof.
  intros Hg Hr Hfree HQ. destruct (page_pr h g Hg Hr) as (pr & Hpr & Hpa & _ & Hoff & Hnf).
  pose proof (free_length _ _ Hg) as Hlen. pose proof (bsize_range _ (p_type _ _ Hg)) as Hbs.
  assert (forall o', o' ∈ o :: fl -> 0 <= o' <= 4080) as Hbd by (intros o'; rewrite <- Hfree; by apply (free_bounds h)).
  pose proof (p_chain _ _ Hg) as Hch. rewrite Hfree in *. cbn [length] in *. destruct Hch as [Hld _].
  pose proof (Hbd o ltac:(apply elem_of_cons; auto)) as Ho. unfold in_range in Hr.
  unfold doalloc. wp_base. eapply wp_get_pr; [done|]. wp_base. rewrite Hpa, Hoff, Hnf.
  apply wp_massert; [apply bool_decide_eq_true_2; unfold PAGE_SIZE; lia|]. wp_base.
  rewrite (u32_small (pg_addr g + o)) by lia. eapply wp_load; [exact Hld|]. wp_base.
  replace (u16 (Z.of_nat (S (length fl)) - 1)) with (Z.of_nat (length fl)) by (unfold u16; rewrite Z.mod_small; lia).
  specialize (HQ pr Hpr). unfold taken in HQ. destruct fl as [|o' fl].
  - cbn [length]. change (bool_decide (NULL ≠ NULL)) with false. cbn match. wp_base.
    apply wp_massert; [done|]. eapply wp_put_pr; [done|]. by wp_base.
  - pose proof (Hbd o' ltac:(rewrite !elem_of_cons; auto)). rewrite bool_decide_eq_true_2.
    2: { destruct (p_addr _ _ Hg). unfold NULL, MIPS_KSEG0 in *. lia. }
    cbn match. wp_base. apply wp_massert; [apply bool_decide_eq_true_2; cbn [length]; lia|].
    replace (pg_addr g + o' - pg_addr g) with o' by lia. rewrite (u32_small o') by lia.
    wp_base. apply wp_massert; [apply bool_decide_eq_true_2; unfold PAGE_SIZE; lia|].
    eapply wp_put_pr; [done|]. wp_base. replace (u16 o') with o' by (unfold u16; rewrite Z.mod_small; lia). exact HQ.
Qed.

(** ** The map of pagerefs in use *)

Lemma bit_scan_spec n w j :
  0 <= j -> j + Z.of_nat n = 32 ->
  match bit_scan n w (2 ^ j) j with
  | Some (i, k) => j <= i < 32 /\ k = 2 ^ i /\ Z.testbit w i = false
  | None => forall i, j <= i < 32 -> Z.testbit w i = true
  end.
Proof.
  revert j. induction n as [|n IH]; intros j Hj Hn; cbn [bit_scan]; [intros; lia|].
  case_bool_decide as Hb; rewrite land_pow2_0 in Hb by done; [split; [lia|done]|]. apply not_false_is_true in Hb.
  destruct n as [|n]; [cbn [bit_scan]; intros i Hi; by replace i with j by lia|].
  replace (u32 (Z.shiftl (2 ^ j) 1)) with (2 ^ (j + 1)).
  2: { rewrite Z.shiftl_mul_pow2, <- Z.pow_add_r by lia. unfold u32. rewrite Z.mod_small; [done|].
       split; [apply Z.pow_nonneg; lia|]. change 4294967296 with (2 ^ 32). apply Z.pow_lt_mono_r; lia. }
  specialize (IH (j + 1) ltac:(lia) ltac:(lia)). destruct (bit_scan _ _ _ _) as [[i k]|].
  - destruct IH as (? & ? & ?). split; [lia|done].
  - intros i Hi. destruct (decide (i = j)) as [->|]; [done|]. apply IH. lia.
Qed.

Lemma ones_word w : 0 <= w < 4294967296 -> (forall i, 0 <= i < 32 -> Z.testbit w i = true) -> w = 4294967295.
Proof.
  intros Hw Hb. change 4294967295 with (Z.ones 32). rewrite <- (Z.mod_small w (2 ^ 32)) by done.
  apply Z.bits_inj'. intros n Hn. rewrite Z.testbit_mod_pow2, Z.testbit_ones_nonneg by lia.
  destruct (Z.ltb_spec n 32); [|done]. cbn. apply Hb. lia.
Qed.

(** Marking and clearing pageref [p]. *)
Definition marked (b : bool) (h h' : kheap) (p : Z) : Prop :=
  (exists l, h' = set_inuse h l /\ length l = 8%nat /\ forall w, w ∈ l -> 0 <= w < 4294967296) /\
  forall q, 0 <= q < 256 -> used h' q <-> if b then used h q \/ q = p else used h q /\ q ≠ p.

Lemma used_insert h i w w' q :
  pagerefs_inuse h !! Z.to_nat i = Some w -> 0 <= i -> 0 <= q ->
  used (set_inuse h (<[Z.to_nat i := w']> (pagerefs_inuse h))) q <->
    if decide (q / 32 = i) then Z.testbit w' (q mod 32) = true else used h q.
Proof.
  intros Hw Hi Hq. unfold used. cbn [pagerefs_inuse set_inuse]. pose proof (lookup_lt_Some _ _ _ Hw).
  destruct (decide (q / 32 = i)) as [<-|Hne].
  - rewrite list_lookup_insert_eq by done. naive_solver.
  - pose proof (Z.div_pos q 32 Hq ltac:(lia)). rewrite list_lookup_insert_ne by lia. done.
Qed.

Lemma elem_of_insert_word (l : list Z) i w w' :
  (forall x, x ∈ l -> 0 <= x < 4294967296) -> 0 <= w' < 4294967296 -> w ∈ <[i := w']> l -> 0 <= w < 4294967296.
Proof.
  intros Hl Hw' (j & Hj)%list_elem_of_lookup. apply list_lookup_insert_Some in Hj as [(-> & <- & _)|[_ Hj]]; [done|].
  apply Hl, list_elem_of_lookup. eauto.
Qed.

Lemma bits_word w f : (forall n, 0 <= n -> Z.testbit w n = (n <? 32) && f n) -> 0 <= w -> 0 <= w < 4294967296.
Proof.
  intros Hb Hw. split; [done|]. replace w with (w mod 2 ^ 32); [apply Z.mod_pos_bound; lia|].
  apply Z.bits_inj'. intros n Hn. rewrite Z.testbit_mod_pow2 by lia. rewrite Hb by done. by destruct (n <? 32).
Qed.

Lemma word_bits w n : 0 <= w < 4294967296 -> 0 <= n -> Z.testbit w n = (n <? 32) && Z.testbit w n.
Proof. intros Hw Hn. rewrite <- (Z.mod_small w (2 ^ 32)) at 1 by done. by rewrite Z.testbit_mod_pow2 by lia. Qed.

Lemma set_bit_word w j : 0 <= w < 4294967296 -> 0 <= j < 32 -> 0 <= Z.lor w (2 ^ j) < 4294967296.
Proof.
  intros Hw Hj. apply (bits_word _ (Z.testbit (Z.lor w (2 ^ j)))); [|apply Z.lor_nonneg; split; [lia|apply Z.pow_nonneg; lia]].
  intros n Hn. rewrite Z.lor_spec, Z.pow2_bits_eqb, (word_bits w n) by lia.
  destruct (Z.ltb_spec n 32); cbn; [done|]. destruct (Z.eqb_spec j n); [lia|done].
Qed.

Lemma clear_bit_word w j : 0 <= w < 4294967296 -> 0 <= Z.ldiff w (2 ^ j) < 4294967296.
Proof.
  intros Hw. apply (bits_word _ (Z.testbit (Z.ldiff w (2 ^ j)))); [|apply Z.ldiff_nonneg; lia].
  intros n Hn. rewrite Z.ldiff_spec, (word_bits w n) by lia. by destruct (n <? 32).
Qed.

Lemma wp_word_scan n i h sh (Q : option Z -> kheap -> Prop) E :
  lists_ok h sh -> 0 <= i -> i + Z.of_nat n = 8 -> Q None h ->
  (forall p h', 0 <= p < 256 -> ~ used h p -> marked true h h' p -> Q (Some p) h') ->
  wp (word_scan n i) Q E h.
Proof.
  intros Hl. revert i. induction n as [|n IH]; intros i Hi Hn HN HS; cbn [word_scan]; [by wp_base|]. do 2 wp_base.
  destruct (lookup_lt_is_Some_2 (pagerefs_inuse h) (Z.to_nat i)) as [w Hw]; [rewrite (l_words _ _ Hl); lia|].
  wp_base. eapply wp_lift; [by apply getZ_ok|]. pose proof (l_word _ _ Hl w ltac:(by eapply list_elem_of_lookup_2)) as Hwr.
  case_bool_decide as Hfull; [apply IH; try done; lia|].
  pose proof (bit_scan_spec 32 w 0 ltac:(lia) ltac:(lia)) as Hscan. change (2 ^ 0) with 1 in Hscan.
  destruct (bit_scan 32 w 1 0) as [[j k]|].
  2: { exfalso. apply Hfull, ones_word; [done|]. exact Hscan. }
  destruct Hscan as (Hj & -> & Hbit).
  assert ((i * 32 + j) / 32 = i /\ (i * 32 + j) mod 32 = j) as [Hd Hm].
  { split; [rewrite Z.div_add_l, Z.div_small by lia; lia|]. rewrite Z.add_comm, Z.mod_add, Z.mod_small by lia. done. }
  wp_base. eapply wp_lift; [apply setZ_ok; rewrite (l_words _ _ Hl); lia|]. do 2 wp_base. wp_base.
  apply HS; [lia| |split].
  - intros (w' & Hw' & Hb'). rewrite Hd, Hw in Hw'. injection Hw' as <-. rewrite Hm in Hb'. congruence.
  - eexists. split; [done|]. split; [rewrite length_insert; apply Hl|]. intros x.
    apply elem_of_insert_word; [apply Hl|by apply set_bit_word].
  - intros q Hq. rewrite (used_insert _ _ w) by (done || lia). case_decide as Hqd.
    + rewrite Z.lor_spec, Z.pow2_bits_eqb by lia. unfold used. rewrite Hqd, Hw, orb_true_iff, Z.eqb_eq.
      pose proof (Z.div_mod q 32 ltac:(lia)). split; [intros [?|?]; [left; eauto|right; lia]|].
      intros [(w' & [= <-] & ?)|?]; [by left|right; lia].
    + split; [auto|]. intros [?| ->]; [done|congruence].
Qed.

Lemma wp_allocpageref h sh (Q : option Z -> kheap -> Prop) E :
  lists_ok h sh -> Q None h -> (forall p h', 0 <= p < 256 -> ~ used h p -> marked true h h' p -> Q (Some p) h') ->
  wp allocpageref Q E h.
Proof. intros Hl. by apply (wp_word_scan 8 0 h sh). Qed.

Lemma wp_freepageref p h (Q : unit -> kheap -> Prop) E :
  length (pagerefs_inuse h) = 8%nat -> (forall w, w ∈ pagerefs_inuse h -> 0 <= w < 4294967296) ->
  0 <= p < 256 -> used h p -> (forall h', marked false h h' p -> Q tt h') ->
  wp (freepageref p) Q E h.
Proof.
  intros Hlen Hwords Hp (w & Hw & Hbit) HQ. unfold freepageref, NPAGEREFS. wp_base.
  apply wp_massert; [by apply bool_decide_eq_true_2|]. do 3 wp_base.
  pose proof (Z.div_mod p 32 ltac:(lia)). pose proof (Z.mod_pos_bound p 32 ltac:(lia)) as Hmod.
  assert (0 <= p / 32 < 8) as Hi by lia. eapply wp_lift; [apply getZ_ok; [lia|done]|].
  rewrite Z.shiftl_1_l. wp_base. apply wp_massert.
  { apply bool_decide_eq_true_2. rewrite land_pow2_0 by lia. congruence. }
  wp_base. eapply wp_lift; [apply setZ_ok; rewrite Hlen; lia|]. wp_base. apply HQ. split.
  - eexists. split; [done|]. split; [by rewrite length_insert|]. intros x. apply elem_of_insert_word; [done|].
    apply clear_bit_word. by eapply Hwords, list_elem_of_lookup_2.
  - intros q Hq. rewrite (used_insert _ _ w) by (done || lia). case_decide as Hqd.
    + rewrite Z.ldiff_spec, Z.pow2_bits_eqb by lia. unfold used. rewrite Hqd, Hw, andb_true_iff, negb_true_iff, Z.eqb_neq.
      pose proof (Z.div_mod q 32 ltac:(lia)). split.
      * intros [? ?]. split; [eauto|]. intros ->. done.
      * intros [(w' & [= <-] & ?) ?]. split; [done|]. intros ?. lia.
    + split; [intros ?; split; [done|congruence]|by intros [? _]].
Qed.

(** ** Changes to one page *)

Lemma shape_fst ps : (shape ps).*1 = pg_pr <$> ps.
Proof. unfold shape. rewrite <- list_fmap_compose. done. Qed.

Lemma shape_filter ps b : (of_type b (shape ps)).*1 = pg_pr <$> filter (fun g => pg_type g = b) ps.
Proof.
  unfold shape, of_type. induction ps as [|g ps IH]; [done|]. cbn [fmap list_fmap].
  rewrite (filter_cons (fun x => x.2 = b)), (filter_cons (fun g => pg_type g = b)). cbn [snd].
  case_decide; cbn; by rewrite IH.
Qed.

Lemma page_ok_frame h h' g :
  page_ok h g -> core_at h' (pg_pr g) = core_at h (pg_pr g) -> firstpaddr (mach h) <= firstpaddr (mach h') ->
  (forall o, o ∈ pg_free g -> mem h' !! (pg_addr g + o) = mem h !! (pg_addr g + o)) -> page_ok h' g.
Proof. intros [] Hc Hf Hm. split; try done; [by rewrite Hc|lia|by eapply free_chain_ext]. Qed.

Lemma lists_ok_frame h h' sh :
  lists_ok h sh -> length (pagerefs h') = length (pagerefs h) -> pagerefs_inuse h' = pagerefs_inuse h ->
  sizebases h' = sizebases h -> allbase h' = allbase h ->
  (forall p, nxt_all h' p = nxt_all h p) -> (forall p, nxt_same h' p = nxt_same h p) -> lists_ok h' sh.
Proof.
  intros [] Hlen Hu Hsb Hab Hn1 Hn2. split; rewrite ?Hlen, ?Hu, ?Hsb, ?Hab; try done.
  - eapply linked_ext; [|done]. auto.
  - intros b Hb. destruct (l_same0 b Hb) as (hd & Hhd & Hl). exists hd. split; [done|]. eapply linked_ext; [|done]. auto.
  - intros p Hp. unfold used. rewrite Hu. by apply l_used0.
Qed.

Lemma with_pr_links h p pr old :
  pr_at h p = Some old -> next_all pr = next_all old -> next_samesize pr = next_samesize old ->
  (forall q, nxt_all (with_pr h p pr) q = nxt_all h q) /\ (forall q, nxt_same (with_pr h p pr) q = nxt_same h q).
Proof.
  intros Hp H1 H2. unfold nxt_all, nxt_same. split; intros q; rewrite (pr_at_with _ _ _ _ old) by done;
    destruct (decide (q = p)) as [->|]; try done; rewrite Hp; cbn; congruence.
Qed.

(** The other pages have other pagerefs and other addresses. *)
Lemma other_pr h l1 g l2 big g' : heap_on h (l1 ++ g :: l2) big -> g' ∈ l1 ++ l2 -> pg_pr g' ≠ pg_pr g /\ g' ≠ g.
Proof.
  intros Hh Hg'. pose proof (l_nodup _ _ (h_lists _ _ _ Hh)) as Hnd. rewrite shape_fst, fmap_app, fmap_cons in Hnd.
  assert (pg_pr g' ≠ pg_pr g); [|split; [done|congruence]]. intros Heq.
  apply NoDup_app in Hnd as (_ & H1 & H2). apply NoDup_cons in H2 as [H2 _].
  apply elem_of_app in Hg' as [Hg'|Hg']; [apply (H1 (pg_pr g'))|apply H2].
  - apply list_elem_of_fmap. eauto.
  - rewrite Heq. apply elem_of_cons. auto.
  - rewrite <- Heq. apply list_elem_of_fmap. eauto.
Qed.

Lemma elem_of_middle {A} (x y : A) l1 l2 : x ∈ l1 ++ y :: l2 <-> x = y \/ x ∈ l1 ++ l2.
Proof. rewrite !elem_of_app, elem_of_cons. tauto. Qed.

(** Replacing the free list of a page, in its pageref and in memory. *)
Lemma heap_on_page h h' l1 g fl l2 big :
  heap_on h (l1 ++ g :: l2) big ->
  lists_ok h' (shape (l1 ++ g :: l2)) -> mach h' = mach h ->
  (forall q, q ≠ pg_pr g -> core_at h' q = core_at h q) ->
  (forall a, mem h' !! a = mem h !! a \/ pg_addr g <= a < pg_addr g + PAGE_SIZE) ->
  page_ok h' (mkPage (pg_pr g) (pg_addr g) (pg_type g) fl) ->
  heap_on h' (l1 ++ mkPage (pg_pr g) (pg_addr g) (pg_type g) fl :: l2) big.
Proof.
  intros Hh Hl Hm Hcore Hmem Hg. set (g' := mkPage _ _ _ _) in *.
  assert (g ∈ l1 ++ g :: l2) as Hin by (apply elem_of_middle; auto). split.
  - unfold shape in *. by rewrite fmap_app, fmap_cons in *.
  - intros x [->|Hx]%elem_of_middle; [done|]. destruct (other_pr _ _ _ _ _ _ Hh Hx) as [Hne Hne'].
    assert (x ∈ l1 ++ g :: l2) as Hin' by (apply elem_of_middle; auto).
    pose proof (h_pages _ _ _ Hh x Hin') as Hok. apply (page_ok_frame h); [done|by apply Hcore|by rewrite Hm|].
    intros o Ho. destruct (Hmem (pg_addr x + o)) as [?|Ha]; [done|]. exfalso.
    pose proof (pages_apart _ _ _ _ _ Hh Hin' Hin Hne') as Hap. unfold apart in Hap. cbn [fst snd] in Hap.
    pose proof (free_bounds _ _ _ Hok Ho). unfold PAGE_SIZE in *. lia.
  - destruct (h_space _ _ _ Hh) as [Hr Hb Hd]. split; [by rewrite Hm|by rewrite Hm|].
    unfold spans in *. by rewrite fmap_app, fmap_cons in *.
Qed.

Lemma live_offs_take g o fl :
  0 <= pg_type g < 8 -> pg_free g = o :: fl -> NoDup (pg_free g) -> o ∈ offsets (pg_type g) ->
  live_offs (mkPage (pg_pr g) (pg_addr g) (pg_type g) fl) ≡ₚ o :: live_offs g.
Proof.
  intros Ht Hf Hnd Ho. rewrite Hf in Hnd. apply NoDup_cons in Hnd as [Hnd _]. unfold live_offs. cbn [pg_free pg_type]. rewrite Hf.
  apply NoDup_Permutation.
  - apply NoDup_filter, offsets_nodup, Ht.
  - apply NoDup_cons. split; [|apply NoDup_filter, offsets_nodup, Ht]. rewrite list_elem_of_filter, elem_of_cons. tauto.
  - intros x. rewrite elem_of_cons, !list_elem_of_filter, elem_of_cons. destruct (decide (x = o)) as [->|]; tauto.
Qed.

Lemma live_middle l1 g l2 big : live (l1 ++ g :: l2) big ≡ₚ page_live g ++ live (l1 ++ l2) big.
Proof. unfold live. rewrite !bind_app, bind_cons. solve_Permutation. Qed.

(** [doalloc] turns the first free block of a page into a live one. *)
Lemma wp_take_block h l1 g l2 big o fl (Q : Z -> kheap -> Prop) E :
  heap_on h (l1 ++ g :: l2) big -> pg_free g = o :: fl ->
  (forall h', heap_on h' (l1 ++ mkPage (pg_pr g) (pg_addr g) (pg_type g) fl :: l2) big -> mem h' = mem h -> mach h' = mach h ->
    Q (pg_addr g + o) h') ->
  wp (doalloc (pg_pr g)) Q E h.
Proof.
  intros Hh Hf HQ. assert (g ∈ l1 ++ g :: l2) as Hin by (apply elem_of_middle; auto).
  pose proof (h_pages _ _ _ Hh g Hin) as Hg. eapply wp_doalloc; [done|by eapply page_addr_range|done|].
  intros pr Hpr. apply HQ; [|done|done].
  destruct (with_pr_links h _ (taken pr fl) pr Hpr) as [Hn1 Hn2]; [done|done|].
  eapply heap_on_page; [done| |done| |by left|].
  - eapply lists_ok_frame; [apply Hh| |done..|done|done]. unfold with_pr. cbn. by rewrite length_insert.
  - intros q Hq. rewrite (core_at_with _ _ _ _ pr) by done. by rewrite decide_False.
  - destruct Hg as [Hc Ht Ha Hal Hnd Ho Hch]. rewrite Hf in *. split; cbn [pg_pr pg_addr pg_type pg_free]; try done.
    + rewrite (core_at_with _ _ _ _ pr), decide_True by done.
      destruct (core_at_Some _ _ _ Hc) as (pr' & Hpr' & [= Hp _ _]). assert (pr' = pr) as -> by congruence.
      by rewrite Hp.
    + by apply NoDup_cons in Hnd as [_ ?].
    + intros x Hx. apply Ho, elem_of_cons. auto.
    + apply Hch.
Qed.

(** ** A fresh page *)

Lemma wp_thread_blocks n i fla sz h (Q : Z -> kheap -> Prop) E :
  1 <= i -> 0 < sz -> 0 <= fla -> fla + (i + Z.of_nat n) * sz <= 4294967296 ->
  (forall m', (forall k, i <= k < i + Z.of_nat n -> m' !! (fla + k * sz) = Some (fla + (k - 1) * sz)) ->
     (forall a, (forall k, i <= k < i + Z.of_nat n -> a ≠ fla + k * sz) -> m' !! a = mem h !! a) ->
     Q (fla + (i + Z.of_nat n - 1) * sz) (set_mem h m')) ->
  wp (thread_blocks n i fla sz) Q E h.
Proof.
  intros Hi Hsz Hfla. revert i h Hi. induction n as [|n IH]; intros i h Hi Hle HQ; cbn [thread_blocks].
  - wp_base. rewrite u32_small by nia. replace (i - 1) with (i + Z.of_nat 0 - 1) by lia.
    destruct h as [? ? ? ? ? m]. apply (HQ m); [intros; lia|done].
  - rewrite !u32_small by nia. wp_base. unfold store. wp_base. wp_base. apply wp_massert; [apply bool_decide_eq_true_2; nia|].
    apply IH; [lia|nia|]. cbn [mem set_mem]. intros m' Hin Hout.
    replace (i + 1 + Z.of_nat n - 1) with (i + Z.of_nat (S n) - 1) by lia. apply HQ.
    + intros k Hk. destruct (decide (k = i)) as [->|]; [|apply Hin; lia].
      rewrite Hout by (intros k' Hk'; nia). apply lookup_insert_eq.
    + intros x Hx. rewrite Hout by (intros k Hk; apply Hx; lia). apply lookup_insert_ne. intros <-. apply (Hx i); [lia|done].
Qed.

(** The free list of a fresh page, last block first. *)
Fixpoint down (sz : Z) (n : nat) : list Z :=
  match n with O => [] | S n => Z.of_nat n * sz :: down sz n end.

Lemma elem_of_down sz n o : o ∈ down sz n <-> exists k, o = k * sz /\ 0 <= k < Z.of_nat n.
Proof.
  induction n as [|n IH]; cbn [down].
  - split; [by intros ?%not_elem_of_nil|intros (k & _ & ?); lia].
  - rewrite elem_of_cons, IH. split.
    + intros [->|(k & -> & ?)]; [exists (Z.of_nat n)|exists k]; (split; [done|lia]).
    + intros (k & -> & ?). destruct (decide (k = Z.of_nat n)) as [->|]; [by left|right]. exists k. split; [done|lia].
Qed.

Lemma down_nodup sz n : 0 < sz -> NoDup (down sz n).
Proof.
  intros Hsz. induction n as [|n IH]; cbn [down]; constructor; [|done].
  intros (k & Hk & ?)%elem_of_down. assert (Z.of_nat n = k) by (apply (Z.mul_reg_r _ _ sz); lia). lia.
Qed.

Lemma length_down sz n : length (down sz n) = n.
Proof. induction n; cbn; congruence. Qed.

Lemma down_chain m a sz n :
  (forall k, 0 <= k < Z.of_nat n -> m !! (a + k * sz) = Some (if decide (k = 0) then NULL else a + (k - 1) * sz)) ->
  free_chain m a (down sz n).
Proof.
  induction n as [|n IH]; intros Hm; cbn [down free_chain]; [done|]. split; [|apply IH; intros; apply Hm; lia].
  rewrite Hm by lia. destruct n as [|n]; [done|]. rewrite decide_False by lia. cbn [down]. do 2 f_equal. lia.
Qed.

Definition fresh_free (b : Z) : list Z := down (bsize b) (Z.to_nat (nblk b)).

Lemma fresh_free_offs b o : 0 <= b < 8 -> o ∈ fresh_free b <-> o ∈ offsets b.
Proof. intros Hb. pose proof (bsize_range b Hb). unfold fresh_free. rewrite elem_of_down, elem_of_offsets, Z2Nat.id by lia. done. Qed.

Lemma fresh_free_cons b : 0 <= b < 8 -> fresh_free b = (nblk b - 1) * bsize b :: down (bsize b) (Z.to_nat (nblk b - 1)).
Proof.
  intros Hb. pose proof (bsize_range b Hb). unfold fresh_free.
  replace (Z.to_nat (nblk b)) with (S (Z.to_nat (nblk b - 1))) by lia. cbn [down]. rewrite Z2Nat.id by lia. done.
Qed.

Lemma wp_new_page p pa b h base pr (Q : unit -> kheap -> Prop) E :
  0 <= b < 8 -> pr_at h p = Some pr -> MIPS_KSEG0 < pa < 3221225472 -> pa mod PAGE_SIZE = 0 ->
  length (sizebases h) = 8%nat -> sizebases h !! Z.to_nat b = Some base ->
  (forall m', free_chain m' pa (fresh_free b) -> (forall a, m' !! a = mem h !! a \/ pa <= a < pa + PAGE_SIZE) ->
     Q tt (mkHeap (mach h) (<[Z.to_nat p := mkPr base (allbase h) (pa + b) ((nblk b - 1) * bsize b) (nblk b)]> (pagerefs h))
       (pagerefs_inuse h) (<[Z.to_nat b := Some p]> (sizebases h)) (Some p) m')) ->
  wp (new_page p pa b (bsize b)) Q E h.
Proof.
  intros Hb Hpr Hpa Hal Hlen Hbase HQ. destruct (bsize_range b Hb) as (Hbs & Hnb & Hmul & _).
  unfold new_page. fold (nblk b). unfold MIPS_KSEG0, PAGE_SIZE in *.
  assert (u16 (nblk b) = nblk b) as -> by (unfold u16; rewrite Z.mod_small; [done|lia]).
  wp_base. eapply wp_get_pr; [done|]. wp_base. eapply wp_put_pr; [done|]. wp_base. unfold store at 1. wp_base. wp_base.
  apply wp_thread_blocks; [lia|lia|lia| |]; rewrite Z2Nat.id by lia; replace (1 + (nblk b - 1)) with (nblk b) by lia; [lia|].
  cbn [mem set_mem with_pr set_pagerefs]. intros m' Hin Hout. wp_base.
  replace (pa + (nblk b - 1) * bsize b - pa) with ((nblk b - 1) * bsize b) by lia.
  replace (u16 ((nblk b - 1) * bsize b)) with ((nblk b - 1) * bsize b) by (unfold u16; rewrite Z.mod_small; [done|nia]).
  apply wp_massert; [by apply bool_decide_eq_true_2|]. do 3 wp_base.
  eapply wp_lift; [apply getZ_ok; [lia|exact Hbase]|]. wp_base.
  pose proof (pr_at_range _ _ _ Hpr) as Hp.
  eapply wp_get_pr.
  { unfold pr_at. rewrite decide_True by lia. cbn. apply list_lookup_insert_eq. lia. }
  wp_base. eapply wp_put_pr.
  { unfold pr_at. rewrite decide_True by lia. cbn. apply list_lookup_insert_eq. lia. }
  wp_base. eapply wp_lift; [apply setZ_ok; cbn; rewrite Hlen; lia|]. wp_base. wp_base. wp_base.
  unfold with_pr. cbn. rewrite list_insert_insert_eq, MKPAB_eq by (done || (unfold PAGE_SIZE; lia)). apply HQ.
  - apply down_chain. intros k Hk. case_decide as Hk0.
    + subst k. rewrite Hout by (intros k' Hk'; nia). replace (pa + 0 * bsize b) with pa by lia. apply lookup_insert_eq.
    + apply Hin. lia.
  - intros a. destruct (decide (pa <= a < pa + 4096)) as [|Ha]; [by right|left].
    rewrite Hout by (intros k' Hk'; nia). apply lookup_insert_ne. lia.
Qed.

Section fresh.
Context (h h' : kheap) (ps : list page) (big : list (Z * Z)) (b p : Z) (base : option Z) (Hh : heap_on h ps big).
Context (Hb : 0 <= b < 8) (Hp : 0 <= p < 256) (Hnew : ~ used h p) (Hbase : sizebases h !! Z.to_nat b = Some base).
Let pa := firstpaddr (mach h) + MIPS_KSEG0.
Let g0 := mkPage p pa b (fresh_free b).
Let pr := mkPr base (allbase h) (pa + b) ((nblk b - 1) * bsize b) (nblk b).
Context (Hram : ram_ok (mach h')) (Hfirst : firstpaddr (mach h') = firstpaddr (mach h) + PAGE_SIZE).
Context (Hprs : pagerefs h' = <[Z.to_nat p := pr]> (pagerefs h)) (Hall : allbase h' = Some p).
Context (Hsb : sizebases h' = <[Z.to_nat b := Some p]> (sizebases h)).
Context (Hlen : length (pagerefs_inuse h') = 8%nat) (Hwords : forall w, w ∈ pagerefs_inuse h' -> 0 <= w < 4294967296).
Context (Hused : forall q, 0 <= q < 256 -> used h' q <-> used h q \/ q = p).
Context (Hchain : free_chain (mem h') pa (fresh_free b)) (Hmem : forall a, mem h' !! a = mem h !! a \/ pa <= a < pa + PAGE_SIZE).

Lemma fresh_pr_at q : pr_at h' q = if decide (q = p) then Some pr else pr_at h q.
Proof.
  unfold pr_at. rewrite Hprs. pose proof (l_refs _ _ (h_lists _ _ _ Hh)). destruct (decide (q = p)) as [->|].
  - rewrite decide_True by lia. apply list_lookup_insert_eq. lia.
  - case_decide; [|done]. apply list_lookup_insert_ne. lia.
Qed.

Lemma fresh_not_in : p ∉ (shape ps).*1.
Proof. intros ?. by apply Hnew, (l_used _ _ (h_lists _ _ _ Hh)). Qed.

Lemma fresh_lists : lists_ok h' (shape (g0 :: ps)).
Proof.
  pose proof (h_lists _ _ _ Hh) as []. pose proof fresh_not_in as Hni.
  assert (forall q, q ∈ (shape ps).*1 -> nxt_all h' q = nxt_all h q /\ nxt_same h' q = nxt_same h q) as Hnx.
  { intros q Hq. unfold nxt_all, nxt_same. rewrite fresh_pr_at, decide_False; [done|congruence]. }
  split; cbn [shape fmap list_fmap pg_pr pg_type fst]; try done.
  - rewrite Hprs. by rewrite length_insert.
  - rewrite Hsb. by rewrite length_insert.
  - intros q [->|Hq]%elem_of_cons; auto.
  - by apply NoDup_cons.
  - split; [done|]. exists (allbase h). split; [unfold nxt_all; by rewrite fresh_pr_at, decide_True|].
    eapply linked_ext; [|exact l_all0]. intros q Hq. by apply Hnx.
  - intros b' Hb'. destruct (l_same0 b' Hb') as (hd & Hhd & Hl). unfold of_type in *. rewrite filter_cons. cbn [snd pg_type].
    assert (linked (nxt_same h') hd (filter (fun x => x.2 = b') (shape ps)).*1) as Hl'.
    { eapply linked_ext; [|exact Hl]. intros q (x & -> & Hx)%list_elem_of_fmap. apply list_elem_of_filter in Hx as [_ Hx].
      apply Hnx, list_elem_of_fmap. eauto. }
    destruct (decide (pg_type g0 = b')) as [Heq|Hne]; cbn [pg_type g0] in *; [subst b'|].
    + exists (Some p). rewrite Hsb, list_lookup_insert_eq by lia. split; [done|]. split; [done|].
      exists base. split; [unfold nxt_same; by rewrite fresh_pr_at, decide_True|].
      assert (hd = base) as -> by congruence. exact Hl'.
    + exists hd. rewrite Hsb, list_lookup_insert_ne by lia. done.
  - intros q Hq. rewrite Hused, elem_of_cons, l_used0 by done. tauto.
Qed.

Lemma fresh_heap : heap_on h' (g0 :: ps) big.
Proof.
  pose proof (h_space _ _ _ Hh) as [[Hf Hl Hal] Hbig [Hnd Hd]].
  assert (forall x, x ∈ spans ps big -> x.1 + x.2 <= pa) as Hbelow.
  { intros x [(g & Hg & ->)|Hx]%elem_of_spans.
    - destruct (p_addr _ _ (h_pages _ _ _ Hh g Hg)). cbn. unfold pa. lia.
    - destruct (Hbig x Hx) as (_ & _ & ? & _). unfold pa. lia. }
  split; [apply fresh_lists| |split; [done| |]].
  - intros g [->|Hg]%elem_of_cons.
    + split; cbn [pg_pr pg_addr pg_type pg_free g0]; try done.
      * unfold core_at. rewrite fresh_pr_at, decide_True by done. cbn. rewrite (fresh_free_cons b Hb).
        cbn [length]. rewrite length_down. pose proof (bsize_range b Hb).
        by replace (Z.of_nat (S (Z.to_nat (nblk b - 1)))) with (nblk b) by lia.
      * unfold pa. rewrite Hfirst. lia.
      * unfold pa. rewrite Z.add_mod, Hal by done. done.
      * apply down_nodup. pose proof (bsize_range b Hb). lia.
      * intros o. by apply fresh_free_offs.
    + pose proof (h_pages _ _ _ Hh g Hg) as Hok. apply (page_ok_frame h); [done| |rewrite Hfirst; unfold PAGE_SIZE; lia|].
      * unfold core_at. rewrite fresh_pr_at, decide_False; [done|]. intros Heq. apply fresh_not_in.
        rewrite shape_fst, <- Heq. apply list_elem_of_fmap. eauto.
      * intros o Ho. destruct (Hmem (pg_addr g + o)) as [?|Ha]; [done|]. exfalso.
        pose proof (free_bounds _ _ _ Hok Ho). pose proof (Hbelow (pg_addr g, PAGE_SIZE) ltac:(apply elem_of_spans; eauto)).
        cbn in *. unfold PAGE_SIZE in *. lia.
  - intros x Hx. destruct (Hbig x Hx) as (? & ? & ? & ?). rewrite Hfirst. unfold PAGE_SIZE in *. lia.
  - split.
    + apply NoDup_cons. split; [|done]. intros Hx%Hbelow. cbn in Hx. unfold PAGE_SIZE in Hx. lia.
    + intros x y Hx Hy Hne. change (spans (g0 :: ps) big) with ((pa, PAGE_SIZE) :: spans ps big) in Hx, Hy.
      apply elem_of_cons in Hx as [->|Hx]; apply elem_of_cons in Hy as [->|Hy]; [done| | |by apply Hd].
      * right. by apply Hbelow.
      * left. by apply Hbelow.
Qed.
End fresh.

(** ** [kmalloc] *)

Lemma heap_on_spl h ps big spl :
  heap_on h ps big -> heap_on (set_mach h (mkMachine spl (firstpaddr (mach h)) (lastpaddr (mach h)))) ps big.
Proof.
  intros [Hl Hp [[] Hb Hd]]. split.
  - by eapply lists_ok_frame.
  - intros g Hg. by eapply page_ok_frame; [apply Hp| |cbn; lia|].
  - by split.
Qed.

Lemma wp_blocktype sz h (Q : Z -> kheap -> Prop) E :
  sz <= 2048 -> (forall b, 0 <= b < 8 -> sz <= bsize b -> Q b h) -> wp (blocktype sz) Q E h.
Proof.
  intros Hsz HQ. unfold blocktype, sizes. cbn [blocktype_from].
  repeat (case_bool_decide; [wp_base; apply HQ; [lia|done]|]). exfalso. lia.
Qed.

(** The contents of the blocks in [L] are the same. *)
Definition keeps (L : list (Z * Z)) (h h' : kheap) : Prop :=
  forall x a, x ∈ L -> x.1 <= a < x.1 + x.2 -> mem h' !! a = mem h !! a.

Lemma page_live_take g o fl :
  0 <= pg_type g < 8 -> pg_free g = o :: fl -> NoDup (pg_free g) -> o ∈ offsets (pg_type g) ->
  page_live (mkPage (pg_pr g) (pg_addr g) (pg_type g) fl) ≡ₚ (pg_addr g + o, bsize (pg_type g)) :: page_live g.
Proof. intros. unfold page_live. cbn [pg_addr pg_type]. by rewrite (live_offs_take g o fl). Qed.

Lemma fresh_live p pa b : 0 <= b < 8 -> page_live (mkPage p pa b (fresh_free b)) = [].
Proof.
  intros Hb. apply elem_of_nil_inv. intros x (o & _ & Ho & Hf)%elem_of_page_live. by apply Hf, fresh_free_offs.
Qed.

Definition allocated (b : Z) (ps : list page) big (h : kheap) (p : Z) (h' : kheap) : Prop :=
  exists ps', heap_on h' ps' big /\ partial ps' /\ live ps' big ≡ₚ (p, bsize b) :: live ps big /\
    keeps (live ps big) h h' /\ curspl (mach h') = curspl (mach h) /\ p ≠ NULL.

Lemma wp_take_live h l1 g l2 big o fl (Q : Z -> kheap -> Prop) E :
  heap_on h (l1 ++ g :: l2) big -> (forall g', g' ∈ l1 ++ l2 -> Z.of_nat (length (pg_free g')) < nblk (pg_type g')) ->
  pg_free g = o :: fl ->
  (forall p h' ps', heap_on h' ps' big -> partial ps' -> live ps' big ≡ₚ (p, bsize (pg_type g)) :: live (l1 ++ g :: l2) big ->
    mem h' = mem h -> mach h' = mach h -> p ≠ NULL -> Q p h') ->
  wp (doalloc (pg_pr g)) Q E h.
Proof.
  intros Hh Hpart Hf HQ. assert (g ∈ l1 ++ g :: l2) as Hin by (apply elem_of_middle; auto).
  pose proof (h_pages _ _ _ Hh g Hin) as Hg. pose proof (free_length _ _ Hg) as Hlen. rewrite Hf in Hlen. cbn [length] in Hlen.
  assert (o ∈ pg_free g) as Ho by (rewrite Hf; apply elem_of_cons; auto).
  eapply wp_take_block; [done|done|]. intros h' Hh' Hm Hma. eapply HQ; [done| | |done|done|].
  - intros g' [->|Hg']%elem_of_middle; [cbn; lia|auto].
  - rewrite !live_middle, (page_live_take g o fl); [done|apply Hg|done|apply Hg|by apply (p_offs _ _ Hg)].
  - destruct (p_addr _ _ Hg). pose proof (free_bounds _ _ _ Hg Ho). unfold NULL, MIPS_KSEG0 in *. lia.
Qed.

Lemma live_below h ps big x : heap_on h ps big -> x ∈ live ps big -> x.1 + x.2 <= MIPS_KSEG0 + firstpaddr (mach h).
Proof.
  intros Hh Hx. destruct (live_in_span _ _ _ _ Hh Hx) as (y & Hy & _ & _ & ?).
  apply elem_of_spans in Hy as [(g & Hg & ->)|Hy].
  - destruct (p_addr _ _ (h_pages _ _ _ Hh g Hg)). cbn in *. lia.
  - destruct (s_big _ _ _ (h_space _ _ _ Hh) y Hy). lia.
Qed.

Lemma heap_on_inuse h ps big l :
  heap_on h ps big -> length l = 8%nat -> (forall w, w ∈ l -> 0 <= w < 4294967296) ->
  (forall q, 0 <= q < 256 -> used (set_inuse h l) q <-> used h q) -> heap_on (set_inuse h l) ps big.
Proof.
  intros [[] Hp Hs] Hlen Hw Hu. split; [split; try done|intros g Hg; by eapply page_ok_frame; [apply Hp|..]|by destruct Hs].
  intros q Hq. rewrite Hu by done. auto.
Qed.

Lemma length_pages h ps big : heap_on h ps big -> (length ps <= 256)%nat.
Proof.
  intros Hh. pose proof (h_lists _ _ _ Hh) as Hl. replace (length ps) with (length (shape ps).*1) by (by rewrite shape_fst, length_fmap).
  transitivity (length (seqZ 0 256)); [|done]. apply submseteq_length, NoDup_submseteq; [apply Hl|].
  intros p Hp. apply elem_of_seqZ. pose proof (l_idx _ _ Hl p Hp). lia.
Qed.

Lemma wp_fresh_block b spl h1 ps big (Q : Z -> kheap -> Prop) E :
  heap_on h1 ps big -> partial ps -> 0 <= b < 8 ->
  (forall h', heap_on h' ps big -> mem h' = mem h1 -> curspl (mach h') = spl -> Q NULL h') ->
  (forall p h' ps', heap_on h' ps' big -> partial ps' -> live ps' big ≡ₚ (p, bsize b) :: live ps big ->
     keeps (live ps big) h1 h' -> curspl (mach h') = spl -> p ≠ NULL -> Q p h') ->
  wp (fresh_block b (bsize b) spl) Q E h1.
Proof.
  intros Hh1 Hpart Hb HN HQ. unfold fresh_block.
  destruct (l_same _ _ (h_lists _ _ _ Hh1) b Hb) as (base & Hbase & Hlink).
  eapply wp_bind, wp_allocpageref; [apply Hh1|..]; cbn beta match.
  { wp_base. apply wp_on_mach, wp_splx. cbn beta. wp_base. apply HN; [|done..]. by apply (heap_on_spl h1). }
  intros p h2 Hp Hnew [(l & -> & Hlen & Hwords) Hused]. wp_base. apply wp_on_mach.
  apply wp_alloc_kpages; [apply (h_space _ _ _ Hh1)|lia|..]; cbn beta.
  { intros _. change (bool_decide (0 = 0)) with true. cbn match. wp_base.
    apply wp_freepageref; [done|done|done|by apply Hused; auto|]. intros h3 [(l' & -> & Hlen' & Hwords') Hused'].
    wp_base. apply wp_on_mach, wp_splx. cbn beta. wp_base. apply HN; [|done..].
    apply (heap_on_spl (set_inuse h1 l')), heap_on_inuse; [done|done|done|]. intros q Hq.
    change (used (set_inuse h1 l') q) with (used (set_inuse (set_mach (set_inuse h1 l) (mach (set_inuse h1 l))) l') q).
    rewrite Hused' by done. change (used (set_mach ?x ?y) q) with (used x q). rewrite Hused by done.
    split; [tauto|]. intros Hu. split; [by left|]. by intros ->. }
  intros Hroom m' -> Hram. rewrite bool_decide_eq_false_2.
  2: { destruct (s_ram _ _ _ (h_space _ _ _ Hh1)). unfold MIPS_KSEG0 in *. cbn [mach set_inuse] in *. lia. }
  cbn match. wp_base. destruct (pr_at_some h1 p) as [pr Hpr]; [rewrite (l_refs _ _ (h_lists _ _ _ Hh1)); lia|].
  destruct (s_ram _ _ _ (h_space _ _ _ Hh1)) as [Hf1 Hl1 Ha1].
  eapply (wp_new_page p _ b); [done|exact Hpr| | |apply Hh1|exact Hbase|].
  { cbn [mach set_inuse]. unfold MIPS_KSEG0. lia. }
  { cbn [mach set_inuse]. rewrite Z.add_mod, Ha1 by done. done. }
  cbn [mach set_inuse set_mach pagerefs pagerefs_inuse sizebases allbase mem]. intros m' Hchain Hmem. set (h4 := mkHeap _ _ _ _ _ m').
  assert (heap_on h4 (mkPage p (firstpaddr (mach h1) + MIPS_KSEG0) b (fresh_free b) :: ps) big) as Hh4
    by (by eapply (fresh_heap h1 h4); try done; cbn; lia).
  wp_base. set (g0 := mkPage _ _ _ _) in *. change p with (pg_pr g0) at 1.
  eapply (wp_take_live h4 [] g0 ps); [done|exact Hpart|by apply fresh_free_cons|].
  intros q h5 ps' Hh5 Hpart' Hlive Hm5 Hma5 Hnn. wp_base. apply wp_on_mach, wp_splx. cbn beta. wp_base.
  apply (HQ q _ ps'); try done.
  + by apply (heap_on_spl h5).
  + rewrite Hlive, (live_middle [] g0 ps). unfold g0. by rewrite fresh_live.
  + intros x a Hx Ha. cbn [mem set_mach]. rewrite Hm5. destruct (Hmem a) as [Heq|Hin]; [exact Heq|].
    pose proof (live_below _ _ _ _ Hh1 Hx). lia.
Qed.

Lemma wp_subpage_kmalloc sz h ps big (Q : Z -> kheap -> Prop) E :
  heap_on h ps big -> partial ps -> sz <= 2048 ->
  (forall h', heap_on h' ps big -> mem h' = mem h -> curspl (mach h') = curspl (mach h) -> Q NULL h') ->
  (forall b p h', 0 <= b < 8 -> sz <= bsize b -> allocated b ps big h p h' -> Q p h') ->
  wp (subpage_kmalloc sz) Q E h.
Proof.
  intros Hh Hpart Hsz HN HQ. unfold subpage_kmalloc. wp_base. apply wp_blocktype; [done|]. intros b Hb Hszb. wp_base.
  unfold size_of. eapply wp_lift; [by apply getZ_bsize|]. wp_base. apply wp_on_mach, wp_splx.
  set (h1 := set_mach h _). assert (heap_on h1 ps big) as Hh1 by (by apply heap_on_spl). cbn beta. do 3 wp_base.
  destruct (l_same _ _ (h_lists _ _ _ Hh1) b Hb) as (base & Hbase & Hlink). rewrite shape_filter in Hlink.
  eapply wp_lift; [apply getZ_ok; [lia|exact Hbase]|]. wp_base.
  assert (forall g, g ∈ filter (fun g => pg_type g = b) ps -> pg_type g = b /\ g ∈ ps) as Hfil
    by (intros g Hg; by apply list_elem_of_filter in Hg).
  eapply wp_find_page; [exact Hlink| | | |].
  { etransitivity; [apply length_filter|]. pose proof (length_pages _ _ _ Hh1). unfold LIST_FUEL. lia. }
  { intros g [Ht Hg]%Hfil. split; [by apply (h_pages _ _ _ Hh1)|]. split; [by eapply page_addr_range|done]. }
  - intros _. apply (wp_fresh_block b _ h1 ps big); [done|done|done| |].
    + intros h' Hh' Hm Hs. by apply HN.
    + intros p h' ps' Hh' Hpart' Hlive Hkeep Hs Hnn. apply (HQ b); [done|done|]. by exists ps'.
  - intros g [Ht Hg]%Hfil Hne. wp_base.
    apply list_elem_of_split in Hg as (l1 & l2 & ->). destruct (pg_free g) as [|o fl] eqn:Hf; [done|].
    eapply wp_take_live; [done| |done|].
    { intros g' Hg'. apply Hpart, elem_of_middle. auto. }
    intros p h' ps' Hh' Hpart' Hlive Hm Hma Hnn. wp_base. apply wp_on_mach, wp_splx. cbn beta. wp_base.
    apply (HQ b); [done|done|]. exists ps'. rewrite Ht in Hlive. split_and!; try done.
    + apply (heap_on_spl h'), Hh'.
    + intros x a _ _. cbn. by rewrite Hm.
Qed.
End KHeapSpec.
