(* ===== verification/KHeapFree.v ===== *)
(** * Freeing a block, and what [kmalloc] and [kfree] promise

    Unlinking a page that has become free, and what [kfree] does to the live
    blocks; the theorems are in [KHeapTheorems]. *)

From S2P Require Import Prelude Ram KHeap KHeapSpec.

Module KHeapFree.
Import Ram KHeap KHeapSpec.

(** ** Unlinking a pageref *)

Fixpoint pred (guy : option Z) (l : list Z) : option Z :=
  match l with [] => guy | q :: l => pred (Some q) l end.

Lemma pred_elem guy q l : pred guy (q :: l) ∈ Some <$> (q :: l).
Proof.
  revert guy q. induction l as [|q' l IH]; intros guy q; [apply elem_of_cons; by left|].
  cbn [pred]. apply elem_of_cons. right. apply (IH (Some q) q').
Qed.

Section unlink.
Context (getl : option Z -> H (option Z)) (putl : option Z -> option Z -> H unit).
Context (link : kheap -> option Z -> option (option Z)) (upd : kheap -> option Z -> option Z -> kheap).
Context (Hget : forall guy v h (Q : option Z -> kheap -> Prop) E, link h guy = Some v -> Q v h -> wp (getl guy) Q E h).
Context (Hput : forall guy x v h (Q : unit -> kheap -> Prop) E,
  link h guy = Some v -> Q tt (upd h guy x) -> wp (putl guy x) Q E h).

Lemma wp_remove_loop n l1 p l2 guy hd h (Q : unit -> kheap -> Prop) E :
  link h guy = Some hd -> linked (fun q => link h (Some q)) hd (l1 ++ p :: l2) -> p ∉ l1 -> (length l1 < n)%nat ->
  (forall x, link h (Some p) = Some x -> Q tt (upd h (pred guy l1) x)) -> wp (remove_loop n getl putl p guy) Q E h.
Proof.
  intros Hg Hl Hp Hn HQ. revert n guy hd Hg Hl Hp Hn HQ. induction l1 as [|q l1 IH]; intros n guy hd Hg Hl Hp Hn HQ;
    (destruct n as [|n]; [cbn in Hn; lia|]); cbn [remove_loop]; wp_base; (eapply Hget; [exact Hg|]).
  - destruct Hl as (-> & x & Hx & Hl). rewrite bool_decide_eq_true_2 by done. cbn match. wp_base.
    eapply Hget; [exact Hx|]. eapply Hput; [exact Hg|]. by apply HQ.
  - destruct Hl as (-> & x & Hx & Hl). apply not_elem_of_cons in Hp as [Hne Hp]. rewrite bool_decide_eq_false_2 by congruence.
    cbn match. eapply IH; [exact Hx|exact Hl|done|cbn in Hn; lia|exact HQ].
Qed.
End unlink.

Lemma linked_remove (lk lk' : option Z -> option (option Z)) guy l1 p l2 hd x :
  lk guy = Some hd -> linked (fun q => lk (Some q)) hd (l1 ++ p :: l2) -> NoDup (l1 ++ p :: l2) ->
  guy ∉ Some <$> (l1 ++ p :: l2) -> lk (Some p) = Some x ->
  (forall g, lk' g = if decide (g = pred guy l1) then Some x else lk g) ->
  exists hd', lk' guy = Some hd' /\ linked (fun q => lk' (Some q)) hd' (l1 ++ l2).
Proof.
  revert guy hd. induction l1 as [|q l1 IH]; intros guy hd Hg Hl Hnd Hni Hp Hlk'.
  - destruct Hl as (-> & n & Hn & Hl). assert (n = x) as -> by congruence. exists x. rewrite Hlk', decide_True by done.
    split; [done|]. eapply linked_ext; [|exact Hl]. intros q Hq. cbn [pred] in Hlk'. rewrite Hlk', decide_False; [done|].
    intros <-. apply Hni, list_elem_of_fmap. exists q. split; [done|]. apply elem_of_cons. auto.
  - destruct Hl as (-> & n & Hn & Hl). cbn [app] in *. apply NoDup_cons in Hnd as [Hq Hnd].
    destruct (IH (Some q) n) as (hd' & Hhd' & Hl'); [done|done|done| |done|exact Hlk'|].
    { intros (z & [= ->] & Hz)%list_elem_of_fmap. done. }
    exists (Some q). rewrite Hlk', decide_False; [|].
    + split; [done|]. split; [done|]. exists hd'. done.
    + intros Heq. apply Hni. pose proof (pred_elem guy q l1) as Hpe. rewrite <- Heq in Hpe.
      rewrite fmap_cons in *. rewrite fmap_app. rewrite elem_of_cons, elem_of_app in *. tauto.
Qed.

Definition link_all (h : kheap) (guy : option Z) : option (option Z) :=
  match guy with None => Some (allbase h) | Some p => nxt_all h p end.
Definition link_same (b : Z) (h : kheap) (guy : option Z) : option (option Z) :=
  match guy with None => sizebases h !! Z.to_nat b | Some p => nxt_same h p end.

Definition upd_pr (h : kheap) (p : Z) (f : pageref -> pageref) : kheap :=
  match pr_at h p with Some pr => with_pr h p (f pr) | None => h end.
Definition upd_all (h : kheap) (guy x : option Z) : kheap :=
  match guy with None => set_allbase h x | Some p => upd_pr h p (fun pr => set_next_all pr x) end.
Definition upd_same (b : Z) (h : kheap) (guy x : option Z) : kheap :=
  match guy with
  | None => set_sizebases h (<[Z.to_nat b := x]> (sizebases h))
  | Some p => upd_pr h p (fun pr => set_next_samesize pr x)
  end.

Lemma wp_get_link_all guy v h (Q : option Z -> kheap -> Prop) E : link_all h guy = Some v -> Q v h -> wp (get_link_all guy) Q E h.
Proof.
  destruct guy as [p|]; cbn [link_all get_link_all upd_all put_link_all]; [|intros [= <-] ?; by repeat wp_base]. unfold nxt_all. intros Hv HQ. wp_base.
  destruct (pr_at h p) as [pr|] eqn:Hp; [|done]. injection Hv as <-. eapply wp_get_pr; [done|]. by wp_base.
Qed.

Lemma wp_put_link_all guy x v h (Q : unit -> kheap -> Prop) E :
  link_all h guy = Some v -> Q tt (upd_all h guy x) -> wp (put_link_all guy x) Q E h.
Proof.
  destruct guy as [p|]; cbn [link_all get_link_all upd_all put_link_all]; [|intros _ ?; by wp_base]. unfold nxt_all, upd_pr. intros Hv HQ. wp_base.
  destruct (pr_at h p) as [pr|] eqn:Hp; [|done]. eapply wp_get_pr; [done|]. by eapply wp_put_pr.
Qed.

Lemma wp_get_link_same b guy v h (Q : option Z -> kheap -> Prop) E :
  0 <= b -> link_same b h guy = Some v -> Q v h -> wp (get_link_same b guy) Q E h.
Proof.
  intros Hb. destruct guy as [p|]; cbn [link_same get_link_same upd_same put_link_same].
  - unfold nxt_same. intros Hv HQ. wp_base. destruct (pr_at h p) as [pr|] eqn:Hp; [|done]. injection Hv as <-.
    eapply wp_get_pr; [done|]. by wp_base.
  - intros Hv HQ. repeat wp_base. by eapply wp_lift; [apply getZ_ok|].
Qed.

Lemma wp_put_link_same b guy x v h (Q : unit -> kheap -> Prop) E :
  0 <= b -> link_same b h guy = Some v -> Q tt (upd_same b h guy x) -> wp (put_link_same b guy x) Q E h.
Proof.
  intros Hb. destruct guy as [p|]; cbn [link_same get_link_same upd_same put_link_same].
  - unfold nxt_same, upd_pr. intros Hv HQ. wp_base. destruct (pr_at h p) as [pr|] eqn:Hp; [|done].
    eapply wp_get_pr; [done|]. by eapply wp_put_pr.
  - intros Hv HQ. repeat wp_base. apply lookup_lt_Some in Hv. eapply wp_lift; [apply setZ_ok; lia|]. by wp_base.
Qed.

(** Changes of links leave the rest alone. *)
Record relinked (h h' : kheap) : Prop := {
  k_mach : mach h' = mach h;
  k_mem : mem h' = mem h;
  k_inuse : pagerefs_inuse h' = pagerefs_inuse h;
  k_refs : length (pagerefs h') = length (pagerefs h);
  k_bases : length (sizebases h') = length (sizebases h);
  k_core : forall q, core_at h' q = core_at h q
}.

Lemma pr_at_upd h p f q : pr_at (upd_pr h p f) q = if decide (q = p) then f <$> pr_at h p else pr_at h q.
Proof.
  unfold upd_pr. destruct (pr_at h p) as [pr|] eqn:Hp; [by rewrite (pr_at_with _ _ _ _ pr)|].
  by case_decide as Hq; [rewrite Hq|].
Qed.

Lemma relinked_upd_pr h p f :
  (forall pr, pageaddr_and_blocktype (f pr) = pageaddr_and_blocktype pr /\ freelist_offset (f pr) = freelist_offset pr /\ nfree (f pr) = nfree pr) ->
  relinked h (upd_pr h p f).
Proof.
  intros Hf. split; try (unfold upd_pr; by destruct (pr_at h p)).
  - unfold upd_pr. destruct (pr_at h p); [|done]. unfold with_pr. cbn. apply length_insert.
  - intros q. unfold core_at. rewrite pr_at_upd. case_decide as Hq; [subst q|done].
    destruct (pr_at h p) as [pr|]; [|done]. cbn. destruct (Hf pr) as (-> & -> & ->). done.
Qed.

Lemma relinked_all h guy x : relinked h (upd_all h guy x).
Proof. destruct guy; cbn; [by apply relinked_upd_pr|done]. Qed.

Lemma relinked_same b h guy x : relinked h (upd_same b h guy x).
Proof. destruct guy; cbn; [by apply relinked_upd_pr|]. split; try done. cbn. apply length_insert. Qed.

Lemma link_upd_all h g x v g' :
  link_all h g = Some v -> link_all (upd_all h g x) g' = if decide (g' = g) then Some x else link_all h g'.
Proof.
  destruct g as [p|], g' as [q|]; cbn [link_all upd_all]; unfold nxt_all; rewrite ?pr_at_upd; intros Hv.
  - destruct (decide (q = p)) as [->|Hne].
    + rewrite decide_True by done. by destruct (pr_at h p).
    + rewrite decide_False by congruence. done.
  - rewrite decide_False by done. unfold upd_pr. by destruct (pr_at h p).
  - rewrite decide_False by done. done.
  - by rewrite decide_True.
Qed.

Lemma link_upd_same b h g x v g' :
  link_same b h g = Some v -> link_same b (upd_same b h g x) g' = if decide (g' = g) then Some x else link_same b h g'.
Proof.
  destruct g as [p|], g' as [q|]; cbn [link_same upd_same]; unfold nxt_same; rewrite ?pr_at_upd; intros Hv.
  - destruct (decide (q = p)) as [->|Hne].
    + rewrite decide_True by done. by destruct (pr_at h p).
    + rewrite decide_False by congruence. done.
  - rewrite decide_False by done. unfold upd_pr. by destruct (pr_at h p).
  - rewrite decide_False by done. done.
  - rewrite decide_True by done. cbn. apply list_lookup_insert_eq. by eapply lookup_lt_Some.
Qed.

Lemma upd_all_same h g x : sizebases (upd_all h g x) = sizebases h /\ forall q, nxt_same (upd_all h g x) q = nxt_same h q.
Proof.
  destruct g as [p|]; cbn [upd_all]; [|done]. unfold nxt_same. split; [unfold upd_pr; by destruct (pr_at h p)|].
  intros q. rewrite pr_at_upd. case_decide as Hq; [subst q|done]. by destruct (pr_at h p).
Qed.

Lemma upd_same_all b h g x g' : link_all (upd_same b h g x) g' = link_all h g'.
Proof.
  destruct g as [p|], g' as [q|]; cbn [upd_same link_all]; try done; [|unfold upd_pr; by destruct (pr_at h p)].
  unfold nxt_all. rewrite pr_at_upd. case_decide as Hq; [subst q|done]. by destruct (pr_at h p).
Qed.

(** Lists of other types are not affected. *)
Lemma upd_same_other b b' h g x :
  0 <= b -> 0 <= b' -> b ≠ b' ->
  (g ≠ None -> sizebases (upd_same b h g x) = sizebases h) /\ sizebases (upd_same b h g x) !! Z.to_nat b' = sizebases h !! Z.to_nat b' /\
  forall q, Some q ≠ g -> nxt_same (upd_same b h g x) q = nxt_same h q.
Proof.
  intros Hb Hb' Hne. destruct g as [p|]; cbn [upd_same].
  - assert (sizebases (upd_pr h p (fun pr => set_next_samesize pr x)) = sizebases h) as -> by (unfold upd_pr; by destruct (pr_at h p)).
    split_and!; [done|done|]. intros q Hq. unfold nxt_same. rewrite pr_at_upd, decide_False; [done|congruence].
  - split_and!; [done| |done]. cbn. apply list_lookup_insert_ne. lia.
Qed.

Lemma linked_pred (lk : option Z -> option (option Z)) guy l1 p l2 hd :
  lk guy = Some hd -> linked (fun q => lk (Some q)) hd (l1 ++ p :: l2) -> lk (pred guy l1) = Some (Some p).
Proof.
  revert guy hd. induction l1 as [|q l1 IH]; intros guy hd Hg Hl; cbn [app linked pred] in *.
  - destruct Hl as (-> & _). done.
  - destruct Hl as (-> & n & Hn & Hl). eauto.
Qed.

Lemma linked_index nxt hd l1 p l2 : linked nxt hd (l1 ++ p :: l2) -> exists x, nxt p = Some x.
Proof.
  revert hd. induction l1 as [|q l1 IH]; intros hd Hl; cbn [app linked] in *; destruct Hl as (_ & n & Hn & Hl); eauto.
Qed.

Section remove.
Context (h : kheap) (s1 s2 : list (Z * Z)) (p b : Z) (Hl : lists_ok h (s1 ++ (p, b) :: s2)) (Hb : 0 <= b < 8).
Context (Hlen : (length s1 < 256)%nat).

Lemma remove_nodup : NoDup (s1.*1 ++ p :: s2.*1).
Proof. pose proof (l_nodup _ _ Hl) as Hnd. by rewrite fmap_app, fmap_cons in Hnd. Qed.

Lemma of_type_split : of_type b (s1 ++ (p, b) :: s2) = of_type b s1 ++ (p, b) :: of_type b s2.
Proof. unfold of_type. by rewrite filter_app, filter_cons_True. Qed.

Lemma of_type_nodup : NoDup ((of_type b s1).*1 ++ p :: (of_type b s2).*1).
Proof.
  change p with (p, b).1. rewrite <- fmap_cons, <- fmap_app, <- of_type_split. pose proof (l_nodup _ _ Hl) as Hnd.
  apply NoDup_fmap_2_strong; [|by eapply NoDup_filter, NoDup_fmap_1].
  intros x y [_ Hx]%list_elem_of_filter [_ Hy]%list_elem_of_filter. by eapply NoDup_fmap_elem.
Qed.

(** A pageref has one type. *)
Lemma of_type_other b' q : b' ≠ b -> q ∈ (of_type b' (s1 ++ (p, b) :: s2)).*1 -> q ∉ (of_type b (s1 ++ (p, b) :: s2)).*1.
Proof.
  intros Hne (x & -> & [Hx Hin]%list_elem_of_filter)%list_elem_of_fmap (y & Heq & [Hy Hin']%list_elem_of_filter)%list_elem_of_fmap.
  assert (x = y) as <-; [|congruence]. eapply NoDup_fmap_elem; [apply (l_nodup _ _ Hl)|done..].
Qed.

Lemma wp_unlink_same (Q : unit -> kheap -> Prop) E :
  (forall h1, relinked h h1 -> (forall g, link_all h1 g = link_all h g) ->
     (forall b', 0 <= b' < 8 -> exists hd, sizebases h1 !! Z.to_nat b' = Some hd /\
        linked (nxt_same h1) hd (of_type b' (s1 ++ s2)).*1) -> Q tt h1) ->
  wp (remove_loop LIST_FUEL (get_link_same b) (put_link_same b) p None) Q E h.
Proof.
  intros HQ. destruct (l_same _ _ Hl b Hb) as (hd & Hhd & Hsame). rewrite of_type_split, fmap_app, fmap_cons in Hsame.
  eapply (wp_remove_loop _ _ (link_same b) (upd_same b)) with (hd := hd).
  { intros. by eapply wp_get_link_same; [lia|..]. }
  { intros. by eapply wp_put_link_same; [lia|..]. }
  { exact Hhd. }
  { exact Hsame. }
  { pose proof of_type_nodup as Hnd. apply NoDup_app in Hnd as (_ & Hd & _). intros Hp. apply (Hd p Hp), elem_of_cons. by left. }
  { rewrite length_fmap. pose proof (length_filter (fun x : Z * Z => x.2 = b) s1). unfold of_type, LIST_FUEL. lia. }
  intros x Hx. apply HQ; [apply relinked_same|apply upd_same_all|].
  pose proof (linked_pred (link_same b h) None _ _ _ _ Hhd Hsame) as Hpred.
  intros b' Hb'. destruct (decide (b' = b)) as [->|Hne].
  - destruct (linked_remove (link_same b h) (link_same b (upd_same b h (pred None (of_type b s1).*1) x))
      None (of_type b s1).*1 p (of_type b s2).*1 hd x) as (hd' & Hhd' & Hl'); try done.
    + apply of_type_nodup.
    + by intros (? & ? & _)%list_elem_of_fmap.
    + intros g. by eapply link_upd_same.
    + exists hd'. split; [done|]. unfold of_type. by rewrite filter_app, fmap_app.
  - destruct (upd_same_other b b' h (pred None (of_type b s1).*1) x) as (_ & Hsb & Hnx); [lia|lia|done|].
    destruct (l_same _ _ Hl b' Hb') as (hd' & Hhd' & Hl'). exists hd'. rewrite Hsb. split; [done|].
    assert (of_type b' (s1 ++ (p, b) :: s2) = of_type b' (s1 ++ s2)) as Ht
      by (unfold of_type; rewrite !filter_app, filter_cons_False; [done|cbn; congruence]).
    rewrite <- Ht. eapply linked_ext; [|exact Hl']. intros q Hq. apply Hnx. intros Heq.
    eapply (of_type_other b' q Hne Hq). rewrite of_type_split, fmap_app, fmap_cons.
    destruct (of_type b s1).*1 as [|z l]; [done|]. apply elem_of_app. left.
    pose proof (pred_elem None z l) as Hpe. rewrite <- Heq in Hpe. by apply list_elem_of_fmap in Hpe as (? & [= <-] & ?).
Qed.

Lemma wp_remove_lists (Q : unit -> kheap -> Prop) E :
  (forall h', relinked h h' -> linked (nxt_all h') (allbase h') (s1 ++ s2).*1 ->
     (forall b', 0 <= b' < 8 -> exists hd, sizebases h' !! Z.to_nat b' = Some hd /\
        linked (nxt_same h') hd (of_type b' (s1 ++ s2)).*1) -> Q tt h') ->
  wp (remove_lists p b) Q E h.
Proof.
  intros HQ. unfold remove_lists. wp_base. apply wp_massert; [by apply bool_decide_eq_true_2|]. wp_base.
  apply wp_unlink_same. intros h1 Hr1 Hall1 Hsame1. pose proof (l_all _ _ Hl) as Hall. rewrite fmap_app, fmap_cons in Hall.
  assert (linked (fun q => link_all h1 (Some q)) (allbase h) (s1.*1 ++ p :: s2.*1)) as Hlink
    by (eapply linked_ext; [|exact Hall]; intros q _; apply Hall1).
  eapply (wp_remove_loop _ _ link_all upd_all) with (hd := allbase h).
  { intros. by eapply wp_get_link_all. }
  { intros. by eapply wp_put_link_all. }
  { by rewrite Hall1. }
  { exact Hlink. }
  { pose proof remove_nodup as Hnd. apply NoDup_app in Hnd as (_ & Hd & _). intros Hp. apply (Hd p Hp), elem_of_cons. by left. }
  { rewrite length_fmap. unfold LIST_FUEL. lia. }
  intros x Hx. pose proof (linked_pred (link_all h1) None s1.*1 p s2.*1 (allbase h) (Hall1 None) Hlink) as Hpred.
  destruct (linked_remove (link_all h1) (link_all (upd_all h1 (pred None s1.*1) x)) None s1.*1 p s2.*1 (allbase h) x)
    as (hd' & Hhd' & Hl'); try done.
  { apply remove_nodup. }
  { by intros (? & ? & _)%list_elem_of_fmap. }
  { intros g. by eapply link_upd_all. }
  destruct (upd_all_same h1 (pred None s1.*1) x) as [Hsb Hnx]. apply HQ.
  - pose proof (relinked_all h1 (pred None s1.*1) x) as []. destruct Hr1. split; congruence.
  - cbn in Hhd'. injection Hhd' as ->. by rewrite fmap_app.
  - intros b' Hb'. destruct (Hsame1 b' Hb') as (hd & Hhd & Hlb). exists hd. rewrite Hsb. split; [done|].
    eapply linked_ext; [|exact Hlb]. auto.
Qed.
End remove.

(** ** Giving back a whole page *)

Lemma wp_release_page h l1 g l2 big (Q : unit -> kheap -> Prop) E :
  heap_on h (l1 ++ g :: l2) big ->
  (forall h', heap_on h' (l1 ++ l2) big -> mem h' = mem h -> mach h' = mach h -> Q tt h') ->
  wp (_ ← remove_lists (pg_pr g) (pg_type g); _ ← on_mach (free_kpages (pg_addr g)); freepageref (pg_pr g)) Q E h.
Proof.
  intros Hh HQ. pose proof (h_lists _ _ _ Hh) as Hl. assert (g ∈ l1 ++ g :: l2) as Hin by (apply elem_of_middle; auto).
  pose proof (h_pages _ _ _ Hh g Hin) as Hg. assert (shape (l1 ++ g :: l2) = shape l1 ++ (pg_pr g, pg_type g) :: shape l2) as Hsh
    by (unfold shape; by rewrite fmap_app, fmap_cons).
  assert (shape (l1 ++ l2) = shape l1 ++ shape l2) as Hsh' by (unfold shape; by rewrite fmap_app).
  pose proof (l_idx _ _ Hl (pg_pr g)) as Hidx. rewrite Hsh in Hl, Hidx. pose proof (remove_nodup _ _ _ _ _ Hl) as Hnd.
  rewrite fmap_app, fmap_cons in Hidx. cbn [fst] in Hidx.
  wp_base. apply (wp_remove_lists _ _ _ _ _ Hl); [apply Hg| |].
  { unfold shape. rewrite length_fmap. pose proof (length_pages _ _ _ Hh) as Hlen. rewrite length_app in Hlen. cbn in Hlen. lia. }
  intros h1 [Hma Hme Hiu Hlr Hlb Hco] Hall Hsame. wp_base. apply wp_on_mach. unfold free_kpages. wp_base.
  assert (used h1 (pg_pr g)) as Hug.
  { assert (used h (pg_pr g)) as Hu; [|unfold used in *; by rewrite Hiu].
    apply (l_used _ _ Hl); [apply Hidx; rewrite elem_of_app, elem_of_cons; auto|].
    rewrite fmap_app, fmap_cons, elem_of_app, elem_of_cons. auto. }
  apply wp_freepageref.
  { cbn. rewrite Hiu. apply Hl. }
  { cbn. rewrite Hiu. apply Hl. }
  { apply Hidx. rewrite elem_of_app, elem_of_cons. auto. }
  { exact Hug. }
  intros h2 [(l & -> & Hlen & Hwords) Hused]. apply HQ; [|cbn; by rewrite Hme|cbn; by rewrite Hma].
  split.
  - rewrite Hsh'. destruct Hl as [Hr1 Hr2 Hr3 Hr4 Hr5 Hr6 _ _ Hr9]. split; cbn; try done; try congruence.
    + intros q Hq. apply Hr5. rewrite !fmap_app, fmap_cons, !elem_of_app, elem_of_cons in *. tauto.
    + rewrite fmap_app. rewrite fmap_app, fmap_cons in Hr6. apply NoDup_app in Hr6 as (? & Hd & [_ ?]%NoDup_cons).
      apply NoDup_app. split_and!; try done. intros x Hx Hx'. apply (Hd x Hx), elem_of_cons. auto.
    + intros q Hq. rewrite Hused by done. assert (used (set_mach h1 (mach h1)) q <-> used h q) as -> by (unfold used; cbn; by rewrite Hiu).
      rewrite Hr9 by done. rewrite !fmap_app, fmap_cons, !elem_of_app, elem_of_cons. cbn [fst].
      apply NoDup_app in Hnd as (_ & Hd & [Hn2 _]%NoDup_cons). split; [tauto|]. intros Hq'. split; [tauto|].
      intros ->. destruct Hq' as [Hq'|Hq']; [|done]. apply (Hd _ Hq'), elem_of_cons. by left.
  - intros x Hx. apply (page_ok_frame h); [apply (h_pages _ _ _ Hh), elem_of_middle; auto| |cbn; rewrite Hma; lia|].
    + apply Hco.
    + intros o _. cbn. by rewrite Hme.
  - destruct (h_space _ _ _ Hh) as [Hr Hb [Hnds Hd]]. split; cbn; rewrite ?Hma; [done|done|].
    assert (spans (l1 ++ g :: l2) big ≡ₚ (pg_addr g, PAGE_SIZE) :: spans (l1 ++ l2) big) as Hsp
      by (unfold spans; rewrite !fmap_app, fmap_cons; solve_Permutation).
    rewrite Hsp in Hnds. apply NoDup_cons in Hnds as [_ Hnds]. split; [done|].
    intros x y Hx Hy. apply Hd; rewrite Hsp; apply elem_of_cons; auto.
Qed.

(** ** [kfree] *)

Definition in_page (g : page) (ptr : Z) : Prop := pg_addr g <= ptr < pg_addr g + PAGE_SIZE.

Lemma wp_find_owner gs n hd ptr h (Q : option Z -> kheap -> Prop) E :
  linked (nxt_all h) hd (pg_pr <$> gs) -> (length gs <= n)%nat -> (forall g, g ∈ gs -> page_ok h g /\ in_range g) ->
  ((forall g, g ∈ gs -> ~ in_page g ptr) -> Q None h) -> (forall g, g ∈ gs -> in_page g ptr -> Q (Some (pg_pr g)) h) ->
  wp (find_owner n hd ptr) Q E h.
Proof.
  revert n hd. induction gs as [|g gs IH]; intros n hd Hl Hn Hok HN HS.
  { cbn in Hl. subst hd. destruct n; cbn [find_owner]; wp_base; apply HN; intros g Hg; by apply not_elem_of_nil in Hg. }
  destruct Hl as (-> & nx & Hnx & Hl). destruct n as [|n]; [cbn in Hn; lia|]. cbn [find_owner].
  destruct (Hok g) as (Hg & Hr); [apply elem_of_cons; auto|].
  destruct (page_pr h g Hg Hr) as (pr & Hpr & Hpa & Hbt & _).
  wp_base. eapply wp_get_pr; [done|]. wp_base. rewrite Hbt, Hpa. apply wp_massert; [apply bool_decide_eq_true_2, Hg|].
  unfold in_range in Hr. rewrite u32_small by (unfold PAGE_SIZE; lia).
  destruct (decide (in_page g ptr)) as [Hin|Hout].
  - rewrite !bool_decide_eq_true_2 by (unfold in_page in Hin; lia). cbn [andb]. wp_base. apply HS; [apply elem_of_cons; auto|done].
  - assert (bool_decide (ptr >= pg_addr g) && bool_decide (ptr < pg_addr g + PAGE_SIZE) = false) as ->
      by (rewrite andb_false_iff, !bool_decide_eq_false; unfold in_page in Hout; lia).
    unfold nxt_all in Hnx. rewrite Hpr in Hnx. injection Hnx as <-. apply IH; [done|cbn in Hn; lia| | |].
    + intros g' Hg'. apply Hok, elem_of_cons. auto.
    + intros Hall. apply HN. intros g' [->|Hg']%elem_of_cons; auto.
    + intros g' Hg'. apply HS, elem_of_cons. auto.
Qed.

Lemma wp_fill_words n a h (Q : unit -> kheap -> Prop) E :
  (forall m, (forall x, m !! x = mem h !! x \/ a <= x < a + 4 * Z.of_nat n) -> Q tt (set_mem h m)) -> wp (fill_words n a) Q E h.
Proof.
  revert a h. induction n as [|n IH]; intros a h HQ; cbn [fill_words].
  - wp_base. destruct h as [? ? ? ? ? m]. apply (HQ m). auto.
  - wp_base. unfold store. wp_base. apply IH. cbn [mem set_mem]. intros m Hm. apply (HQ m). intros x.
    destruct (Hm x) as [->|?]; [|right; lia]. destruct (decide (x = a)) as [->|]; [right; lia|]. left. by apply lookup_insert_ne.
Qed.

Lemma free_chain_cons m a o fl : m !! (a + o) = Some (match fl with [] => NULL | o' :: _ => a + o' end) -> free_chain m a fl -> free_chain m a (o :: fl).
Proof. by split. Qed.

(** The page with one more free block, before it is known whether it is the last. *)
Lemma free_block_ok h l1 g l2 big o m :
  heap_on h (l1 ++ g :: l2) big -> o ∈ offsets (pg_type g) -> o ∉ pg_free g ->
  (forall x, m !! x = mem h !! x \/ pg_addr g + o <= x < pg_addr g + o + bsize (pg_type g)) ->
  m !! (pg_addr g + o) = Some (match pg_free g with [] => NULL | o' :: _ => pg_addr g + o' end) ->
  forall pr, pr_at h (pg_pr g) = Some pr ->
  heap_on (with_pr (set_mem h m) (pg_pr g) (set_nfree (set_offset pr o) (Z.of_nat (S (length (pg_free g))))))
    (l1 ++ mkPage (pg_pr g) (pg_addr g) (pg_type g) (o :: pg_free g) :: l2) big.
Proof.
  intros Hh Ho Hno Hm Hmo pr Hpr. assert (g ∈ l1 ++ g :: l2) as Hin by (apply elem_of_middle; auto).
  pose proof (h_pages _ _ _ Hh g Hin) as Hg. pose proof (p_type _ _ Hg) as Ht. destruct (offsets_bounds _ _ Ht Ho) as (Ho1 & Ho2 & _).
  set (pr' := set_nfree _ _). assert (pr_at (set_mem h m) (pg_pr g) = Some pr) as Hpr' by exact Hpr.
  destruct (with_pr_links (set_mem h m) _ pr' pr Hpr') as [Hn1 Hn2]; [done|done|].
  eapply heap_on_page; [exact Hh| |done| | |].
  - eapply lists_ok_frame; [apply Hh| |done..|exact Hn1|exact Hn2]. unfold with_pr. cbn. by rewrite length_insert.
  - intros q Hq. rewrite (core_at_with _ _ _ _ pr) by done. by rewrite decide_False.
  - intros a. cbn. destruct (Hm a) as [?|?]; [by left|right; lia].
  - destruct Hg as [Hc _ Ha Hal Hnd Hoffs Hch]. split; cbn [pg_pr pg_addr pg_type pg_free]; try done.
    + rewrite (core_at_with _ _ _ _ pr), decide_True by done.
      destruct (core_at_Some _ _ _ Hc) as (pr0 & Hpr0 & [= Hp _ _]). assert (pr0 = pr) as -> by congruence.
      cbn. by rewrite Hp.
    + by apply NoDup_cons.
    + intros x [->|Hx]%elem_of_cons; auto.
    + apply free_chain_cons; [done|]. eapply free_chain_ext; [|exact Hch]. intros o' Ho'. cbn.
      destruct (Hm (pg_addr g + o')) as [?|Hr]; [done|]. exfalso. pose proof (bsize_range _ Ht).
      assert (o ≠ o') by congruence. destruct (offsets_apart o o' _ Ht Ho (Hoffs _ Ho')); lia || done.
Qed.

Lemma all_free_live g : 0 <= pg_type g < 8 -> NoDup (pg_free g) -> (forall o, o ∈ pg_free g -> o ∈ offsets (pg_type g)) ->
  Z.of_nat (length (pg_free g)) = nblk (pg_type g) -> page_live g = [].
Proof.
  intros Ht Hnd Hoffs Hlen. apply elem_of_nil_inv. intros x (o & _ & Ho & Hno)%elem_of_page_live.
  assert (pg_free g ⊆+ offsets (pg_type g)) as Hsub by (by apply NoDup_submseteq).
  apply Hno. apply submseteq_length_Permutation in Hsub; [by rewrite Hsub|].
  pose proof (length_offsets _ Ht). lia.
Qed.

Definition freed (ps : list page) big (h : kheap) (x : Z * Z) (h' : kheap) : Prop :=
  exists ps', heap_on h' ps' big /\ partial ps' /\ x :: live ps' big ≡ₚ live ps big /\
    keeps (live ps' big) h h' /\ curspl (mach h') = curspl (mach h).

(** The tail of [subpage_kfree], once the block is on the free list. *)
Lemma wp_kfree_tail h1 l1 g l2 big p (Q : unit -> kheap -> Prop) E :
  heap_on h1 (l1 ++ g :: l2) big -> (forall g', g' ∈ l1 ++ l2 -> Z.of_nat (length (pg_free g')) < nblk (pg_type g')) ->
  p = pg_pr g ->
  (forall h' ps', heap_on h' ps' big -> partial ps' -> live ps' big ≡ₚ live (l1 ++ g :: l2) big -> mem h' = mem h1 -> mach h' = mach h1 -> Q tt h') ->
  wp (if bool_decide (Z.of_nat (length (pg_free g)) = PAGE_SIZE / bsize (pg_type g)) then
        _ ← remove_lists p (pg_type g); _ ← on_mach (free_kpages (pg_addr g)); freepageref p
      else mret tt) Q E h1.
Proof.
  intros Hh Hpart -> HQ. assert (g ∈ l1 ++ g :: l2) as Hin by (apply elem_of_middle; auto).
  pose proof (h_pages _ _ _ Hh g Hin) as Hg. pose proof (free_length _ _ Hg) as Hlen. fold (nblk (pg_type g)).
  case_bool_decide as Hfull.
  - apply (wp_release_page _ _ _ _ _ _ _ Hh). intros h' Hh' Hm Hma. apply (HQ _ (l1 ++ l2)); try done.
    rewrite live_middle, all_free_live; [done|apply Hg..|done].
  - wp_base. apply (HQ _ (l1 ++ g :: l2)); try done. intros g' [->|Hg']%elem_of_middle; [lia|auto].
Qed.

Lemma page_live_free g o :
  0 <= pg_type g < 8 -> NoDup (pg_free g) -> o ∈ offsets (pg_type g) -> o ∉ pg_free g ->
  page_live g ≡ₚ (pg_addr g + o, bsize (pg_type g)) :: page_live (mkPage (pg_pr g) (pg_addr g) (pg_type g) (o :: pg_free g)).
Proof.
  intros Ht Hnd Ho Hno. rewrite <- (page_live_take (mkPage (pg_pr g) (pg_addr g) (pg_type g) (o :: pg_free g)) o (pg_free g)); try done.
  cbn. by apply NoDup_cons.
Qed.

(** Memory outside a freed block is the memory of the other live blocks. *)
Lemma freed_keeps h ps big x L (m : gmap Z Z) :
  heap_on h ps big -> x :: L ≡ₚ live ps big -> (forall a, m !! a = mem h !! a \/ x.1 <= a < x.1 + x.2) ->
  forall h', mem h' = m -> keeps L h h'.
Proof.
  intros Hh HL Hm h' Hm' y a Hy Ha. rewrite Hm'. destruct (Hm a) as [?|Hx]; [done|]. exfalso.
  pose proof (live_disjoint _ _ _ Hh) as [Hnd Hd]. rewrite <- HL in Hnd. apply NoDup_cons in Hnd as [Hnx _].
  assert (apart x y) as Hap; [|unfold apart in Hap; lia].
  apply Hd; [rewrite <- HL; apply elem_of_cons; auto..|]. congruence.
Qed.

Lemma wp_free_block h l1 g l2 big o (Q : unit -> kheap -> Prop) E :
  heap_on h (l1 ++ g :: l2) big -> partial (l1 ++ g :: l2) -> o ∈ offsets (pg_type g) -> o ∉ pg_free g ->
  (forall h', freed (l1 ++ g :: l2) big h (pg_addr g + o, bsize (pg_type g)) h' -> Q tt h') ->
  wp (free_block (pg_pr g) (pg_addr g + o)) Q E h.
Proof.
  intros Hh Hpart Ho Hno HQ. assert (g ∈ l1 ++ g :: l2) as Hgp by (apply elem_of_middle; auto).
  pose proof (h_pages _ _ _ Hh g Hgp) as Hg. pose proof (p_type _ _ Hg) as Ht. destruct (bsize_range _ Ht) as (Hbs & Hnb & Hmul & H4).
  destruct (offsets_bounds _ _ Ht Ho) as (Ho1 & Ho2 & Hom & _). pose proof (page_addr_range _ _ _ _ Hh Hgp) as Hr.
  destruct (page_pr h g Hg Hr) as (pr & Hpr & Hpa & Hbt & Hoff & Hnf). unfold free_block.
  wp_base. eapply wp_get_pr; [exact Hpr|]. wp_base. unfold size_of. rewrite Hbt, Hpa. eapply wp_lift; [by apply getZ_bsize|].
  replace (pg_addr g + o - pg_addr g) with o by lia. rewrite (u32_small o) by (unfold PAGE_SIZE in *; lia).
  rewrite (bool_decide_eq_false_2 (o >= PAGE_SIZE)), (bool_decide_eq_false_2 (o mod _ ≠ 0)) by (lia || congruence). cbn [orb].
  wp_base. unfold fill_deadbeef. apply wp_fill_words. intros m Hm. wp_base. unfold store. wp_base. wp_base.
  rewrite (u32_small (pg_addr g + o)) by (unfold PAGE_SIZE in *; lia). rewrite Hoff, Hnf. pose proof (Hpart g Hgp) as Hlt.
  replace (u16 (Z.of_nat (length (pg_free g)) + 1)) with (Z.of_nat (S (length (pg_free g)))) by (unfold u16; rewrite Z.mod_small; lia).
  replace (u16 o) with o by (unfold u16; rewrite Z.mod_small; unfold PAGE_SIZE in *; lia).
  eapply wp_put_pr; [exact Hpr|]. cbn [mem set_mem].
  wp_base. apply wp_massert; [apply bool_decide_eq_true_2; fold (nblk (pg_type g)); lia|].
  set (v := if bool_decide _ then NULL else _). set (m2 := <[pg_addr g + o := v]> m).
  assert (v = match pg_free g with [] => NULL | o' :: _ => pg_addr g + o' end) as Hv.
  { unfold v. destruct (pg_free g) as [|o' fl] eqn:Hf; [done|]. pose proof (free_bounds _ _ o' Hg) as Hfb. rewrite Hf in Hfb.
    specialize (Hfb ltac:(apply elem_of_cons; auto)). rewrite bool_decide_eq_false_2 by (unfold INVALID_OFFSET; lia).
    apply u32_small. lia. }
  assert (forall a, m2 !! a = mem h !! a \/ pg_addr g + o <= a < pg_addr g + o + bsize (pg_type g)) as Hm2.
  { intros a. unfold m2. destruct (decide (a = pg_addr g + o)) as [->|]; [right; lia|]. rewrite lookup_insert_ne by done.
    destruct (Hm a) as [?|?]; [by left|right]. pose proof (Z.div_mod (bsize (pg_type g)) 4). lia. }
  pose proof (free_block_ok h l1 g l2 big o m2 Hh Ho Hno Hm2 ltac:(unfold m2; by rewrite lookup_insert_eq, Hv) pr Hpr) as Hh2.
  apply (wp_kfree_tail _ l1 (mkPage (pg_pr g) (pg_addr g) (pg_type g) (o :: pg_free g)) l2 big); [exact Hh2| |done|].
  { intros g' Hg''. apply Hpart, elem_of_middle. auto. }
  intros h' ps' Hh' Hpart' Hlive Hm' Hma'. apply HQ.
  assert ((pg_addr g + o, bsize (pg_type g)) :: live ps' big ≡ₚ live (l1 ++ g :: l2) big) as HL
    by (rewrite Hlive, !live_middle, (page_live_free g o); [done|done|apply Hg|done|done]).
  exists ps'. split_and!; [done|done|done| |by rewrite Hma']. by eapply (freed_keeps h).
Qed.

Lemma wp_subpage_kfree h ps big x (Q : Z -> kheap -> Prop) E :
  heap_on h ps big -> partial ps -> (exists g, g ∈ ps /\ x ∈ page_live g) ->
  (forall h', freed ps big h x h' -> Q 0 h') -> wp (subpage_kfree x.1) Q E h.
Proof.
  intros Hh Hpart (g & Hgp & (o & -> & Ho & Hno)%elem_of_page_live) HQ. cbn [fst].
  unfold subpage_kfree. wp_base. apply wp_on_mach, wp_splx. set (h1 := set_mach h _).
  assert (heap_on h1 ps big) as Hh1 by (by apply heap_on_spl). cbn beta. do 3 wp_base.
  destruct (offsets_bounds _ _ (p_type _ _ (h_pages _ _ _ Hh1 g Hgp)) Ho) as (Ho1 & Ho2 & _).
  pose proof (bsize_range _ (p_type _ _ (h_pages _ _ _ Hh1 g Hgp))).
  eapply wp_find_owner; [rewrite <- shape_fst; apply Hh1| | | |].
  { pose proof (length_pages _ _ _ Hh1). unfold LIST_FUEL. lia. }
  { intros g' Hg'. split; [by apply (h_pages _ _ _ Hh1)|by eapply page_addr_range]. }
  { intros Hall. destruct (Hall g Hgp). unfold in_page. lia. }
  intros g' Hg' Hin'. assert (g' = g) as ->.
  { destruct (decide (pg_addr g' = pg_addr g)) as [Ha|Ha]; [by eapply spans_pages|]. exfalso.
    assert (g' ≠ g) as Hne by congruence. pose proof (pages_apart _ _ _ _ _ Hh1 Hg' Hgp Hne) as Hap.
    unfold apart, in_page in *. cbn [fst snd] in Hap. lia. }
  apply list_elem_of_split in Hgp as (l1 & l2 & ->). wp_base. apply (wp_free_block _ l1 g l2 big); [done|done|done|done|].
  intros h' (ps' & Hh' & Hpart' & HL & Hk & Hs). wp_base. apply wp_on_mach, wp_splx. cbn beta. wp_base. apply HQ.
  exists ps'. split_and!; [by apply (heap_on_spl h')|done|done|done|done].
Qed.
End KHeapFree.
