(* ===== verification/KHeapTheorems.v ===== *)
(** * [kmalloc] and [kfree] as an allocator

    The whole of [kern/lib/kheap.c] against an abstract allocator: what a client
    that calls [kmalloc] and [kfree] and writes to its own blocks can rely on. *)

From S2P Require Import Prelude Ram KHeap KHeapSpec KHeapFree.

Module KHeapTheorems.
Import Ram KHeap KHeapSpec KHeapFree.

(** ** The abstract allocator *)

(** What a client does.  A write is of a word, at an offset of a block it
    holds. *)
Inductive client_op :=
  | Kmalloc (sz : Z)
  | Kfree (i : nat)
  | Write (i : nat) (off w : Z).

Definition op_ok (op : client_op) : Prop :=
  match op with
  | Kmalloc sz => 0 <= sz <= 3221221376
  | _ => True
  end.

Definition fits (off sz : Z) : bool := bool_decide (0 <= off) && bool_decide (off + 4 <= sz) && bool_decide (off mod 4 = 0).

(** The client's blocks, each a pointer with the size it asked for, and the
    words of memory. *)
Definition astate : Type := list (Z * Z) * gmap Z Z.

Definition same_on (c : list (Z * Z)) (m m' : gmap Z Z) : Prop :=
  forall x a, x ∈ c -> x.1 <= a < x.1 + x.2 -> m' !! a = m !! a.

Inductive spec_step : client_op -> astate -> astate -> Prop :=
  | spec_none sz c m m' : same_on c m m' -> spec_step (Kmalloc sz) (c, m) (c, m')
  | spec_kmalloc sz c m m' p : same_on c m m' -> p ≠ NULL -> (forall x, x ∈ c -> apart (p, sz) x) ->
      spec_step (Kmalloc sz) (c, m) ((p, sz) :: c, m')
  | spec_kfree i c m m' : same_on (delete i c) m m' -> spec_step (Kfree i) (c, m) (delete i c, m')
  | spec_write i off w c m x : c !! i = Some x -> fits off x.2 = true ->
      spec_step (Write i off w) (c, m) (c, <[x.1 + off := w]> m)
  | spec_skip i off w c m : (forall x, c !! i = Some x -> fits off x.2 = false) -> spec_step (Write i off w) (c, m) (c, m).

Inductive spec_run : list client_op -> astate -> astate -> Prop :=
  | spec_nil a : spec_run [] a a
  | spec_cons op ops a b c : spec_step op a b -> spec_run ops b c -> spec_run (op :: ops) a c.

(** ** The client on the kernel's heap *)

Definition client_step (op : client_op) (c : list (Z * Z)) : H (list (Z * Z)) :=
  match op with
  | Kmalloc sz => p ← kmalloc sz; mret (if bool_decide (p = NULL) then c else (p, sz) :: c)
  | Kfree i =>
      match c !! i with
      | Some x => _ ← kfree x.1; mret (delete i c)
      | None => mret c
      end
  | Write i off w =>
      match c !! i with
      | Some x => if fits off x.2 then _ ← store (x.1 + off) w; mret c else mret c
      | None => mret c
      end
  end.

Fixpoint client_run (ops : list client_op) (c : list (Z * Z)) : H (list (Z * Z)) :=
  match ops with
  | [] => mret c
  | op :: ops => c' ← client_step op c; client_run ops c'
  end.

(** The heap as the kernel image has it, with [ram_bootstrap]'s boundaries. *)
Definition no_pr : pageref := mkPr None None 0 0 0.
Definition boot_heap (first last : Z) : kheap :=
  mkHeap (mkMachine 0 first last) (replicate 256 no_pr) (replicate 8 0) (replicate 8 None) None ∅.

(** ** [kmalloc] *)

Lemma heap_on_big h ps big n :
  heap_on h ps big -> 0 < n -> firstpaddr (mach h) + n * PAGE_SIZE <= lastpaddr (mach h) ->
  heap_on (set_mach h (mkMachine (curspl (mach h)) (firstpaddr (mach h) + n * PAGE_SIZE) (lastpaddr (mach h)))) ps
    ((firstpaddr (mach h) + MIPS_KSEG0, n * PAGE_SIZE) :: big).
Proof.
  intros [Hl Hp [[Hf Hla Hal] Hb [Hnd Hd]]] Hn Hle. set (m' := mkMachine _ _ _). set (x0 := (firstpaddr (mach h) + MIPS_KSEG0, n * PAGE_SIZE)).
  assert (forall x, x ∈ spans ps big -> x.1 + x.2 <= x0.1) as Hbelow.
  { intros x [(g & Hg & ->)|Hx]%elem_of_spans; cbn [fst snd x0].
    - destruct (p_addr _ _ (Hp g Hg)). lia.
    - destruct (Hb x Hx) as (_ & _ & ? & _). lia. }
  assert (forall x, x ∈ spans ps (x0 :: big) <-> x = x0 \/ x ∈ spans ps big) as Hin
    by (intros x; rewrite !elem_of_spans, elem_of_cons; tauto).
  unfold PAGE_SIZE in *. split; [by eapply lists_ok_frame| |split].
  - intros g Hg. eapply page_ok_frame; [by apply Hp|done|cbn [mach set_mach firstpaddr m']; lia|done].
  - split; cbn [mach set_mach firstpaddr lastpaddr m']; [lia|done|unfold PAGE_SIZE in *; by rewrite Z.mod_add].
  - intros x [->|Hx]%elem_of_cons; cbn [firstpaddr mach set_mach m' x0 fst snd].
    + split_and!; [unfold MIPS_KSEG0; lia|lia|lia|]. unfold PAGE_SIZE. by rewrite Z.add_mod, Hal.
    + destruct (Hb x Hx) as (? & ? & ? & ?). split_and!; [done|done|lia|done].
  - split.
    + apply (NoDup_Permutation_proper (x0 :: spans ps big)); [apply Permutation_middle|]. apply NoDup_cons. split; [|done].
      intros Hx%Hbelow. cbn [fst snd x0] in Hx. lia.
    + intros x y [->|Hx]%Hin [->|Hy]%Hin Hne; [done|right; by apply Hbelow|left; by apply Hbelow|by apply Hd].
Qed.

Lemma keeps_refl L h h' : mem h' = mem h -> keeps L h h'.
Proof. intros Hm x a _ _. by rewrite Hm. Qed.

Lemma wp_kmalloc sz h L (Q : Z -> kheap -> Prop) E :
  heap h L -> 0 <= sz <= 3221221376 ->
  (forall h', heap h' L -> mem h' = mem h -> curspl (mach h') = curspl (mach h) -> Q NULL h') ->
  (forall p len h', sz <= len -> p ≠ NULL -> heap h' ((p, len) :: L) -> keeps L h h' -> curspl (mach h') = curspl (mach h) -> Q p h') ->
  wp (kmalloc sz) Q E h.
Proof.
  intros (ps & big & Hh & Hpart & HL) Hsz HN HQ. unfold kmalloc, LARGEST_SUBPAGE_SIZE. case_bool_decide as Hbig.
  - apply wp_on_mach. rewrite u32_small by (unfold PAGE_SIZE; lia). set (n := (sz + PAGE_SIZE - 1) / PAGE_SIZE).
    assert (sz <= n * PAGE_SIZE < 786432 * PAGE_SIZE) as Hn.
    { unfold n. pose proof (Z.div_mod (sz + PAGE_SIZE - 1) PAGE_SIZE ltac:(done)).
      pose proof (Z.mod_pos_bound (sz + PAGE_SIZE - 1) PAGE_SIZE ltac:(done)). unfold PAGE_SIZE in *. lia. }
    unfold PAGE_SIZE in Hn. pose proof (s_ram _ _ _ (h_space _ _ _ Hh)) as Hram.
    apply wp_alloc_kpages; [done|lia|..].
    + intros _. apply HN; [exists ps, big|..]; try done; by destruct h.
    + intros Hle m' -> _. destruct (r_first _ Hram). apply (HQ _ (n * PAGE_SIZE)); [unfold PAGE_SIZE; lia|unfold MIPS_KSEG0, NULL; lia| |by apply keeps_refl|done].
      exists ps. eexists. split; [apply heap_on_big; [done|lia|done]|]. split; [done|].
      unfold live in *. rewrite HL. apply Permutation_middle.
  - apply (wp_subpage_kmalloc _ _ ps big); [done|done|lia|..].
    + intros h' Hh' Hm Hs. apply HN; [by exists ps, big|done|done].
    + intros b p h' Hb Hle (ps' & Hh' & Hpart' & HL' & Hk & Hs & Hp). apply (HQ p (bsize b)); [done|done| | |done].
      * exists ps', big. by rewrite HL', HL.
      * intros x a Hx. apply Hk. by rewrite <- HL.
Qed.

(** ** [kfree] *)

Lemma wp_free_big h ps big x (Q : Z -> kheap -> Prop) E :
  heap_on h ps big -> x ∈ big -> Q (-1) h -> wp (subpage_kfree x.1) Q E h.
Proof.
  intros Hh Hx HQ. unfold subpage_kfree. wp_base. apply wp_on_mach, wp_splx. set (h1 := set_mach h _).
  assert (heap_on h1 ps big) as Hh1 by (by apply heap_on_spl). cbn beta. do 3 wp_base.
  destruct (s_big _ _ _ (h_space _ _ _ Hh1) x Hx) as (_ & Hpos & _).
  eapply wp_find_owner; [rewrite <- shape_fst; apply Hh1| | | |].
  { pose proof (length_pages _ _ _ Hh1). unfold LIST_FUEL. lia. }
  { intros g' Hg'. split; [by apply (h_pages _ _ _ Hh1)|by eapply page_addr_range]. }
  { intros _. cbn beta. wp_base. apply wp_on_mach, wp_splx. wp_base. by destruct h as [[] ? ? ? ? ?]. }
  intros g Hg Hin. exfalso. destruct (s_disj _ _ _ (h_space _ _ _ Hh1)) as [Hnd Hd].
  assert ((pg_addr g, PAGE_SIZE) ≠ x) as Hne.
  { apply NoDup_app in Hnd as (_ & Hdis & _). intros <-. eapply Hdis; [|exact Hx]. apply list_elem_of_fmap. eauto. }
  pose proof (Hd (pg_addr g, PAGE_SIZE) x ltac:(apply elem_of_spans; eauto) ltac:(apply elem_of_spans; eauto) Hne) as Hap.
  unfold apart, in_page in *. cbn [fst snd] in Hap. lia.
Qed.

Lemma heap_on_sub h ps b1 x b2 : heap_on h ps (b1 ++ x :: b2) -> heap_on h ps (b1 ++ b2).
Proof.
  intros [Hl Hp [Hr Hb [Hnd Hd]]]. split; [done|done|]. split; [done|intros y Hy; apply Hb; set_solver|].
  assert (forall y, y ∈ spans ps (b1 ++ b2) -> y ∈ spans ps (b1 ++ x :: b2)) as Hsub
    by (intros y; rewrite !elem_of_spans, !elem_of_app, elem_of_cons; tauto).
  split; [|intros; apply Hd; auto]. assert (spans ps (b1 ++ x :: b2) ≡ₚ x :: spans ps (b1 ++ b2)) as Heq
    by (unfold spans; rewrite !app_assoc; symmetry; apply Permutation_middle).
  rewrite Heq in Hnd. by apply NoDup_cons in Hnd as [_ ?].
Qed.

Lemma wp_kfree p len h L (Q : unit -> kheap -> Prop) E :
  heap h ((p, len) :: L) ->
  (forall h', heap h' L -> keeps L h h' -> curspl (mach h') = curspl (mach h) -> Q tt h') ->
  wp (kfree p) Q E h.
Proof.
  intros (ps & big & Hh & Hpart & HL) HQ. assert ((p, len) ∈ live ps big) as Hx by (rewrite <- HL; apply elem_of_cons; auto).
  destruct (live_in_span _ _ _ _ Hh Hx) as (y & Hy & Hlo & _). unfold kfree. rewrite bool_decide_eq_false_2.
  2: { apply elem_of_spans in Hy as [(g & Hg & ->)|Hy]; cbn [fst snd] in Hlo.
    - destruct (p_addr _ _ (h_pages _ _ _ Hh g Hg)) as [? _]. unfold MIPS_KSEG0, NULL in *. lia.
    - destruct (s_big _ _ _ (h_space _ _ _ Hh) y Hy) as [? _]. unfold MIPS_KSEG0, NULL in *. lia. }
  wp_base. apply elem_of_live in Hx as [Hx|Hx].
  - apply (wp_subpage_kfree h ps big (p, len)); [done|done|done|].
    intros h' (ps' & Hh' & Hpart' & HL' & Hk & Hs). rewrite bool_decide_eq_false_2 by tauto. wp_base.
    assert (L ≡ₚ live ps' big) as HLL by (apply (Permutation_cons_inv (a := (p, len))); by rewrite HL').
    apply HQ; [by exists ps', big| |done]. intros x a Hx'. apply Hk. by rewrite <- HLL.
  - apply (wp_free_big h ps big (p, len)); [done|done|]. rewrite bool_decide_eq_true_2 by done. wp_base.
    destruct (s_big _ _ _ (h_space _ _ _ Hh) _ Hx) as (_ & _ & _ & Hal). apply wp_massert; [by apply bool_decide_eq_true_2|].
    apply wp_on_mach. apply list_elem_of_split in Hx as (b1 & b2 & ->). unfold free_kpages. wp_base.
    replace (set_mach h (mach h)) with h by (by destruct h). apply HQ; [|by apply keeps_refl|done].
    exists ps, (b1 ++ b2). split; [by eapply heap_on_sub|]. split; [done|].
    apply (Permutation_cons_inv (a := (p, len))). rewrite HL. unfold live. rewrite !app_assoc. symmetry. apply Permutation_middle.
Qed.

(** ** A client's writes *)

Lemma free_outside h ps big x g o :
  heap_on h ps big -> x ∈ live ps big -> g ∈ ps -> o ∈ pg_free g -> ~ x.1 <= pg_addr g + o < x.1 + x.2.
Proof.
  intros Hh Hx Hg Ho. pose proof (h_pages _ _ _ Hh g Hg) as Hok. pose proof (free_bounds _ _ _ Hok Ho) as Hb.
  apply elem_of_live in Hx as [(g' & Hg' & (o' & -> & Ho' & Hno)%elem_of_page_live)|Hx]; cbn [fst snd].
  - destruct (decide (pg_addr g = pg_addr g')) as [Ha|Ha].
    + assert (g = g') as <- by (by eapply spans_pages). pose proof (p_offs _ _ Hok o Ho) as Hoo.
      pose proof (bsize_range _ (p_type _ _ Hok)).
      destruct (offsets_apart o o' _ (p_type _ _ Hok) Hoo Ho'); [congruence|lia..].
    + assert (g ≠ g') as Hne by congruence. pose proof (pages_apart _ _ _ _ _ Hh Hg Hg' Hne) as Hap.
      destruct (offsets_bounds _ _ (p_type _ _ (h_pages _ _ _ Hh g' Hg')) Ho') as (? & ? & _).
      unfold apart, PAGE_SIZE in *. cbn [fst snd] in Hap. lia.
  - pose proof (page_not_big _ _ _ _ _ Hh Hg Hx) as Hap. unfold apart, PAGE_SIZE in *. cbn [fst snd] in Hap. lia.
Qed.

Lemma heap_store h L x a w :
  heap h L -> x ∈ L -> x.1 <= a < x.1 + x.2 -> heap (set_mem h (<[a := w]> (mem h))) L.
Proof.
  intros (ps & big & Hh & Hpart & HL) Hx Ha. exists ps, big. split; [|done]. rewrite HL in Hx. destruct (id Hh) as [Hl Hp []].
  split; [by eapply lists_ok_frame| |by split]. intros g Hg. eapply page_ok_frame; [by apply Hp|done|cbn; lia|].
  intros o Ho. cbn. apply lookup_insert_ne. intros ->. by eapply free_outside.
Qed.

(** ** The refinement *)

(** The client's blocks are blocks of the heap, of at least the size asked for. *)
Definition client_inv (h : kheap) (c : list (Z * Z)) : Prop :=
  exists L, heap h L /\ Forall2 (fun x y => x.1 = y.1 /\ x.2 <= y.2) c L.

Lemma keeps_same c L h h' : Forall2 (fun x y => x.1 = y.1 /\ x.2 <= y.2) c L -> keeps L h h' -> same_on c (mem h) (mem h').
Proof.
  intros Hc Hk x a Hx Ha. apply list_elem_of_lookup in Hx as [i Hi]. destruct (Forall2_lookup_l _ _ _ _ _ Hc Hi) as (y & Hy & He & Hle).
  apply (Hk y); [by eapply list_elem_of_lookup_2|lia].
Qed.

Lemma wp_client_step op c h E :
  client_inv h c -> op_ok op ->
  wp (client_step op c) (fun c' h' => client_inv h' c' /\ spec_step op (c, mem h) (c', mem h')) E h.
Proof.
  intros (L & HL & Hc) Hop. destruct op as [sz|i|i off w]; cbn [client_step op_ok] in *.
  - wp_base. apply (wp_kmalloc _ _ L); [done|done|..].
    + intros h' HL' Hm _. wp_base. split; [by exists L|]. constructor. intros x a _ _. by rewrite Hm.
    + intros p len h' Hle Hp HL' Hk _. wp_base. rewrite bool_decide_eq_false_2 by done.
      split; [exists ((p, len) :: L); split; [done|by constructor]|].
      constructor; [by eapply keeps_same|done|]. intros x Hx. apply list_elem_of_lookup in Hx as [i Hi].
      destruct (Forall2_lookup_l _ _ _ _ _ Hc Hi) as (y & Hy & He & Hle'). destruct HL' as (ps & big & Hh & _ & HLL).
      pose proof (live_disjoint _ _ _ Hh) as Hdis. rewrite <- HLL in Hdis. destruct Hdis as [Hnd Hd].
      apply list_elem_of_lookup_2 in Hy. assert (apart (p, len) y) as Hap.
      { apply Hd; [apply elem_of_cons; auto..|]. intros <-. by apply NoDup_cons in Hnd as [? _]. }
      unfold apart in *. cbn [fst snd] in *. lia.
  - destruct (c !! i) as [x|] eqn:Hi; wp_base.
    + destruct (Forall2_lookup_l _ _ _ _ _ Hc Hi) as ([p len] & Hy & He & Hle). cbn [fst snd] in *. rewrite He.
      assert (heap h ((p, len) :: delete i L)) as HL'.
      { destruct HL as (ps & big & ? & ? & HLL). exists ps, big. split_and!; [done|done|]. rewrite <- HLL. symmetry. by apply delete_Permutation. }
      apply (wp_kfree p len _ _ _ _ HL'). intros h' HL2 Hk _. wp_base.
      assert (Forall2 (fun x y => x.1 = y.1 /\ x.2 <= y.2) (delete i c) (delete i L)) as Hc' by (by apply Forall2_delete).
      split; [by exists (delete i L)|]. constructor. by eapply keeps_same.
    + split; [by exists L|]. assert (delete i c = c) as Hdel by (apply lookup_ge_None in Hi; rewrite delete_take_drop, take_ge, drop_ge, app_nil_r by lia; done).
      rewrite <- Hdel at 2. by constructor.
  - destruct (c !! i) as [x|] eqn:Hi; [destruct (fits off x.2) eqn:Hf|]; repeat wp_base.
    + unfold fits in Hf. destruct (Forall2_lookup_l _ _ _ _ _ Hc Hi) as (y & Hy & He & Hle). split; [|by econstructor].
      exists L. split; [|done]. apply (heap_store _ _ y); [done|by eapply list_elem_of_lookup_2|].
      rewrite !andb_true_iff, !bool_decide_eq_true in Hf. lia.
    + split; [by exists L|]. constructor. intros x' Hx'. congruence.
    + split; [by exists L|]. constructor. intros x' Hx'. congruence.
Qed.

Lemma wp_client_run ops : forall c h E,
  client_inv h c -> Forall op_ok ops ->
  wp (client_run ops c) (fun c' h' => client_inv h' c' /\ spec_run ops (c, mem h) (c', mem h')) E h.
Proof.
  induction ops as [|op ops IH]; intros c h E Hc Hops; cbn [client_run]; [wp_base; split; [done|constructor]|].
  apply Forall_cons in Hops as [Hop Hops]. wp_base. eapply wp_mono; [by apply wp_client_step| |done].
  cbn beta. intros c1 h1 [Hc1 Hs]. eapply wp_mono; [by apply IH| |done]. cbn beta. intros c2 h2 [Hc2 Hr].
  split; [done|by econstructor].
Qed.

Lemma boot_heap_ok first last :
  0 < first <= last -> last <= 508 * 1024 * 1024 -> first mod PAGE_SIZE = 0 -> client_inv (boot_heap first last) [].
Proof.
  intros Hf Hl Ha. exists []. split; [|constructor]. exists [], []. split_and!; [|by intros g Hg%not_elem_of_nil|done].
  split; [split|by intros g Hg%not_elem_of_nil|split]; cbn; try done.
  - intros w Hw. apply list_elem_of_In in Hw. repeat (destruct Hw as [<-|Hw]; [done|]). done.
  - intros p Hp. by apply not_elem_of_nil in Hp.
  - constructor.
  - intros b Hb. exists None. split; [|done]. destruct (type_cases b Hb) as [->|[->|[->|[->|[->|[->|[->| ->]]]]]]]; done.
  - intros p Hp. split; [|by intros ?%not_elem_of_nil]. intros (w & Hw & Ht). exfalso.
    cbn [boot_heap pagerefs_inuse] in Hw. apply lookup_replicate in Hw as [-> _]. by rewrite Z.bits_0 in Ht.
  - intros x Hx. by apply not_elem_of_nil in Hx.
  - split; [constructor|]. intros x y Hx. by apply not_elem_of_nil in Hx.
Qed.

Section theorems.
Context (first last : Z) (Hfirst : 0 < first <= last) (Hlast : last <= 508 * 1024 * 1024) (Halign : first mod PAGE_SIZE = 0).

(** C6. The kernel heap refines the abstract allocator.  From boot, with any
    amount of memory, any sequence of [kmalloc]s (of up to three gigabytes),
    [kfree]s of blocks held and writes inside blocks held runs to the end, with
    no failed assertion; each [kmalloc] gives NULL or a block apart from every
    block held; and the blocks held keep what was written to them. *)
Theorem kheap_refines_allocator ops :
  Forall op_ok ops ->
  exists c h, client_run ops [] (boot_heap first last) = Done (inr c, h) /\ spec_run ops ([], ∅) (c, mem h).
Proof.
  intros Hops. pose proof (wp_client_run ops [] (boot_heap first last) (fun _ _ => False) (boot_heap_ok _ _ Hfirst Hlast Halign) Hops) as Hwp.
  unfold wp in Hwp. destruct (client_run ops [] (boot_heap first last)) as [[[e|c] h]| |]; try done.
  exists c, h. split; [done|]. apply Hwp.
Qed.
End theorems.

Definition ex_ops : list client_op :=
  [Kmalloc 100; Write 0 8 7; Kmalloc 5000; Kmalloc 128; Write 0 124 9; Kfree 2; Kmalloc 100; Kfree 1; Kfree 0; Kfree 0].

Lemma kheap_refines_allocator_witness :
  exists c h, client_run ex_ops [] (boot_heap 262144 1048576) = Done (inr c, h) /\ spec_run ex_ops ([], ∅) (c, mem h).
Proof.
  apply (kheap_refines_allocator 262144 1048576); [done|done|done|].
  repeat (constructor; [cbn; lia|]). constructor.
Defined.

Lemma alloc_kpages_room n m :
  ram_ok m -> 0 <= n < 786432 -> firstpaddr m + n * PAGE_SIZE <= lastpaddr m ->
  alloc_kpages n m = Done (inr (firstpaddr m + MIPS_KSEG0), mkMachine (curspl m) (firstpaddr m + n * PAGE_SIZE) (lastpaddr m)).
Proof.
  intros Hm Hn Hle. assert (wp (alloc_kpages n) (fun p m' => p = firstpaddr m + MIPS_KSEG0 /\
    m' = mkMachine (curspl m) (firstpaddr m + n * PAGE_SIZE) (lastpaddr m)) (fun _ _ => False) m) as Hwp
    by (apply wp_alloc_kpages; [done|done|lia|by intros _ m' ->]).
  unfold wp in Hwp. destruct (alloc_kpages n m) as [[[e|p] m']| |]; try done. by destruct Hwp as [-> ->].
Qed.

(** C39. [kmalloc] computes the number of pages with a 32-bit sum, so a request
    of more than 2^32 - 4096 bytes asks for no pages: instead of failing it
    returns the address of the first free page and reserves nothing, and the
    next request for whole pages is given the same address. *)
Theorem kmalloc_wraps sz sz' h L :
  heap h L -> 4294963201 <= sz < 4294967296 -> 2048 <= sz' <= 3221221376 ->
  firstpaddr (mach h) + (sz' + 4095) / 4096 * 4096 <= lastpaddr (mach h) ->
  exists p h', kmalloc sz h = Done (inr p, h) /\ p ≠ NULL /\ kmalloc sz' h = Done (inr p, h').
Proof.
  intros (ps & big & Hh & _) Hsz Hsz' Hroom. destruct (s_ram _ _ _ (h_space _ _ _ Hh)) as [Hf Hl Ha].
  unfold kmalloc, LARGEST_SUBPAGE_SIZE. rewrite !bool_decide_eq_true_2 by lia.
  assert (u32 (sz + PAGE_SIZE - 1) / PAGE_SIZE = 0) as ->.
  { unfold u32, PAGE_SIZE. replace (sz + 4096 - 1) with (sz - 4294963201 + 1 * 4294967296) by lia.
    rewrite Z.mod_add, Z.mod_small, Z.div_small; lia. }
  rewrite u32_small by (unfold PAGE_SIZE; lia). replace (sz' + PAGE_SIZE - 1) with (sz' + 4095) by (unfold PAGE_SIZE; lia).
  exists (firstpaddr (mach h) + MIPS_KSEG0). eexists.
  assert ((sz' + 4095) / 4096 * 4096 <= sz' + 4095) as Hd by (pose proof (Z.div_mod (sz' + 4095) 4096); pose proof (Z.mod_pos_bound (sz' + 4095) 4096); lia).
  assert (0 <= (sz' + 4095) / 4096) by (apply Z.div_pos; lia).
  unfold on_mach. unfold PAGE_SIZE in *. rewrite !alloc_kpages_room by (done || lia || (unfold PAGE_SIZE; lia)).
  split_and!; [destruct h as [[] ? ? ? ? ?]; cbn; by rewrite Z.add_0_r|unfold MIPS_KSEG0, NULL; lia|done].
Qed.

Lemma kmalloc_wraps_witness : exists p h', let h := boot_heap 262144 1048576 in
  kmalloc 4294967295 h = Done (inr p, h) /\ p ≠ NULL /\ kmalloc 4096 h = Done (inr p, h').
Proof.
  apply (kmalloc_wraps 4294967295 4096 (boot_heap 262144 1048576) []); [|lia|lia|done].
  destruct (boot_heap_ok 262144 1048576) as (L & HL & HF); [done|done|done|]. by inversion HF; subst.
Defined.
End KHeapTheorems.
