(* ===== verification/DumbVm.v ===== *)
(** * Virtual memory: [kern/arch/mips/mips/dumbvm.c], with the TLB and the fault
      path of [kern/arch/mips/mips/trap.c]

    Address spaces of two regions and a stack, each a run of physical pages;
    the TLB, filled by [vm_fault] and emptied by [as_activate]; and an access to
    a user address as the processor and [mips_trap] carry it out. *)

From S2P Require Import Prelude Ram.

Module DumbVm.
Import Ram.

(** ** Constants *)

Definition USERSTACK : Z := MIPS_KSEG0.
Definition DUMBVM_STACKPAGES : Z := 12.

(** [machine/tlb.h] *)
Definition TLBHI_VPAGE : Z := PAGE_FRAME.
Definition TLBLO_PPAGE : Z := PAGE_FRAME.
Definition TLBLO_DIRTY : Z := 1024.
Definition TLBLO_VALID : Z := 512.
Definition TLBHI_INVALID (entryno : Z) : Z := Z.shiftl (524288 + entryno) 12.
Definition TLBLO_INVALID : Z := 0.
Definition NUM_TLB : Z := 64.

(** [kern/include/vm.h] *)
Definition VM_FAULT_READ : Z := 0.
Definition VM_FAULT_WRITE : Z := 1.
Definition VM_FAULT_READONLY : Z := 2.

(** [machine/trapframe.h] *)
Definition EX_IRQ : Z := 0.
Definition EX_MOD : Z := 1.
Definition EX_TLBL : Z := 2.
Definition EX_TLBS : Z := 3.
Definition EX_ADEL : Z := 4.
Definition EX_ADES : Z := 5.
Definition EX_IBE : Z := 6.
Definition EX_DBE : Z := 7.
Definition EX_SYS : Z := 8.
Definition NTRAPCODES : Z := 13.

(** ** State *)

Record addrspace := mkAs {
  as_vbase1 : Z;
  as_pbase1 : Z;
  as_npages1 : Z;
  as_vbase2 : Z;
  as_pbase2 : Z;
  as_npages2 : Z;
  as_stackpbase : Z
}.

(** Physical memory by byte; the [addrspace] structures by address; the
    [t_vmspace] of the current thread; and the addresses [kmalloc] will come
    up with.  [kmalloc] returns NULL or a block apart from those in use, as
    [KHeap] proves: an address that is in use counts as NULL here. *)
Record vm := mkVm {
  mach : machine;
  tlb : list (Z * Z);
  phys : Z -> Z;
  spaces : gmap Z addrspace;
  vmspace : Z;
  allocs : list Z
}.

Definition set_mach (s : vm) x := mkVm x (tlb s) (phys s) (spaces s) (vmspace s) (allocs s).
Definition set_tlb (s : vm) x := mkVm (mach s) x (phys s) (spaces s) (vmspace s) (allocs s).
Definition set_phys (s : vm) x := mkVm (mach s) (tlb s) x (spaces s) (vmspace s) (allocs s).
Definition set_spaces (s : vm) x := mkVm (mach s) (tlb s) (phys s) x (vmspace s) (allocs s).
Definition set_vmspace (s : vm) x := mkVm (mach s) (tlb s) (phys s) (spaces s) x (allocs s).
Definition set_allocs (s : vm) x := mkVm (mach s) (tlb s) (phys s) (spaces s) (vmspace s) x.

Abbreviation VM := (M vm) (only parsing).

Definition on_mach {A} (m : M machine A) : VM A := fun s =>
  match m (mach s) with
  | Done (r, x) => Done (r, set_mach s x)
  | Panic => Panic
  | Stuck => Stuck
  end.

Definition get_as (p : Z) : VM addrspace :=
  s ← get; lift (match spaces s !! p with Some a => Done a | None => Stuck end).
Definition put_as (p : Z) (a : addrspace) : VM unit := modify (fun s => set_spaces s (<[p := a]> (spaces s))).

(** ** The TLB *)

Definition TLB_Read (index : Z) : VM (Z * Z) := s ← get; lift (getZ (tlb s) index).
Definition TLB_Write (entryhi entrylo index : Z) : VM unit :=
  s ← get; l ← lift (setZ (tlb s) index (entryhi, entrylo)); put (set_tlb s l).

(** ** [vm_fault] *)

(** [for (i=0; i<NUM_TLB; i++)]: the first entry that is not valid is used. *)
Fixpoint tlb_fill (n : nat) (i faultaddress paddr : Z) : VM bool :=
  match n with
  | O => mret false
  | S n =>
      '(ehi, elo) ← TLB_Read i;
      if bool_decide (Z.land elo TLBLO_VALID ≠ 0) then tlb_fill n (i + 1) faultaddress paddr
      else
        _ ← TLB_Write faultaddress (Z.lor (Z.lor paddr TLBLO_DIRTY) TLBLO_VALID) i;
        mret true
  end.

Definition framed (x : Z) : bool := bool_decide (Z.land x PAGE_FRAME = x).

Definition vm_fault (faulttype faultaddress : Z) : VM unit :=
  spl ← on_mach splhigh;
  let faultaddress := Z.land faultaddress PAGE_FRAME in
  if bool_decide (faulttype = VM_FAULT_READONLY) then panic else
  if negb (bool_decide (faulttype = VM_FAULT_READ) || bool_decide (faulttype = VM_FAULT_WRITE)) then
    _ ← on_mach (splx spl); fail EINVAL else
  s ← get;
  if bool_decide (vmspace s = NULL) then fail EFAULT else
  a ← get_as (vmspace s);
  _ ← massert (bool_decide (as_vbase1 a ≠ 0));
  _ ← massert (bool_decide (as_pbase1 a ≠ 0));
  _ ← massert (bool_decide (as_npages1 a ≠ 0));
  _ ← massert (bool_decide (as_vbase2 a ≠ 0));
  _ ← massert (bool_decide (as_pbase2 a ≠ 0));
  _ ← massert (bool_decide (as_npages2 a ≠ 0));
  _ ← massert (bool_decide (as_stackpbase a ≠ 0));
  _ ← massert (framed (as_vbase1 a));
  _ ← massert (framed (as_pbase1 a));
  _ ← massert (framed (as_vbase2 a));
  _ ← massert (framed (as_pbase2 a));
  _ ← massert (framed (as_stackpbase a));
  let vbase1 := as_vbase1 a in
  let vtop1 := u32 (vbase1 + u32 (as_npages1 a * PAGE_SIZE)) in
  let vbase2 := as_vbase2 a in
  let vtop2 := u32 (vbase2 + u32 (as_npages2 a * PAGE_SIZE)) in
  let stackbase := USERSTACK - DUMBVM_STACKPAGES * PAGE_SIZE in
  let stacktop := USERSTACK in
  let found :=
    if bool_decide (vbase1 <= faultaddress < vtop1) then Some (u32 (faultaddress - vbase1 + as_pbase1 a))
    else if bool_decide (vbase2 <= faultaddress < vtop2) then Some (u32 (faultaddress - vbase2 + as_pbase2 a))
    else if bool_decide (stackbase <= faultaddress < stacktop) then Some (u32 (faultaddress - stackbase + as_stackpbase a))
    else None in
  match found with
  | None => _ ← on_mach (splx spl); fail EFAULT
  | Some paddr =>
      _ ← massert (framed paddr);
      done ← tlb_fill (Z.to_nat NUM_TLB) 0 faultaddress paddr;
      _ ← on_mach (splx spl);
      if (done : bool) then mret tt else fail EFAULT
  end.

(** ** Address spaces *)

(** [kmalloc(sizeof(struct addrspace))] *)
Definition kmalloc : VM Z :=
  s ← get;
  match allocs s with
  | [] => mret NULL
  | p :: l =>
      _ ← put (set_allocs s l);
      if bool_decide (is_Some (spaces s !! p)) then mret NULL else mret p
  end.

Definition as_create : VM Z :=
  p ← kmalloc;
  if bool_decide (p = NULL) then mret NULL else
  _ ← put_as p (mkAs 0 0 0 0 0 0 0);
  mret p.

Definition as_destroy (p : Z) : VM unit := modify (fun s => set_spaces s (delete p (spaces s))).

Fixpoint tlb_clear (n : nat) (i : Z) : VM unit :=
  match n with
  | O => mret tt
  | S n => _ ← TLB_Write (TLBHI_INVALID i) TLBLO_INVALID i; tlb_clear n (i + 1)
  end.

Definition as_activate (p : Z) : VM unit :=
  spl ← on_mach splhigh;
  _ ← tlb_clear (Z.to_nat NUM_TLB) 0;
  _ ← on_mach (splx spl);
  mret tt.

(** The page-aligned region that covers [sz] bytes at [vaddr]. *)
Definition as_define_region (p vaddr sz readable writeable executable : Z) : VM unit :=
  let sz := u32 (sz + Z.land vaddr 4095) in
  let vaddr := Z.land vaddr PAGE_FRAME in
  let sz := Z.land (u32 (sz + PAGE_SIZE - 1)) PAGE_FRAME in
  let npages := sz / PAGE_SIZE in
  a ← get_as p;
  if bool_decide (as_vbase1 a = 0) then
    put_as p (mkAs vaddr (as_pbase1 a) npages (as_vbase2 a) (as_pbase2 a) (as_npages2 a) (as_stackpbase a))
  else if bool_decide (as_vbase2 a = 0) then
    put_as p (mkAs (as_vbase1 a) (as_pbase1 a) (as_npages1 a) vaddr (as_pbase2 a) npages (as_stackpbase a))
  else fail EUNIMP.

Definition set_pbase1 (a : addrspace) x := mkAs (as_vbase1 a) x (as_npages1 a) (as_vbase2 a) (as_pbase2 a) (as_npages2 a) (as_stackpbase a).
Definition set_pbase2 (a : addrspace) x := mkAs (as_vbase1 a) (as_pbase1 a) (as_npages1 a) (as_vbase2 a) x (as_npages2 a) (as_stackpbase a).
Definition set_stackpbase (a : addrspace) x := mkAs (as_vbase1 a) (as_pbase1 a) (as_npages1 a) (as_vbase2 a) (as_pbase2 a) (as_npages2 a) x.

Definition as_prepare_load (p : Z) : VM unit :=
  a ← get_as p;
  _ ← massert (bool_decide (as_pbase1 a = 0));
  _ ← massert (bool_decide (as_pbase2 a = 0));
  _ ← massert (bool_decide (as_stackpbase a = 0));
  pa1 ← on_mach (getppages (as_npages1 a));
  let a := set_pbase1 a pa1 in
  _ ← put_as p a;
  if bool_decide (as_pbase1 a = 0) then fail ENOMEM else
  pa2 ← on_mach (getppages (as_npages2 a));
  let a := set_pbase2 a pa2 in
  _ ← put_as p a;
  if bool_decide (as_pbase2 a = 0) then fail ENOMEM else
  pa3 ← on_mach (getppages DUMBVM_STACKPAGES);
  let a := set_stackpbase a pa3 in
  _ ← put_as p a;
  if bool_decide (as_stackpbase a = 0) then fail ENOMEM else
  mret tt.

Definition as_complete_load (p : Z) : VM unit := mret tt.

Definition as_define_stack (p : Z) : VM Z :=
  a ← get_as p;
  _ ← massert (bool_decide (as_stackpbase a ≠ 0));
  mret USERSTACK.

(** [memmove] between two runs of physical memory, both reached through kseg0. *)
Definition memmove (dst src len : Z) : VM unit :=
  modify (fun s => set_phys s (fun x => if bool_decide (dst <= x < dst + len) then phys s (src + (x - dst)) else phys s x)).

(** Returns the new address space. *)
Definition as_copy (old : Z) : VM Z :=
  new ← as_create;
  if bool_decide (new = NULL) then fail ENOMEM else
  o ← get_as old;
  n ← get_as new;
  _ ← put_as new (mkAs (as_vbase1 o) (as_pbase1 n) (as_npages1 o) (as_vbase2 o) (as_pbase2 n) (as_npages2 o) (as_stackpbase n));
  r ← try (as_prepare_load new);
  match r with
  | inl _ => _ ← as_destroy new; fail ENOMEM
  | inr _ =>
      n ← get_as new;
      _ ← massert (bool_decide (as_pbase1 n ≠ 0));
      _ ← massert (bool_decide (as_pbase2 n ≠ 0));
      _ ← massert (bool_decide (as_stackpbase n ≠ 0));
      _ ← memmove (as_pbase1 n) (as_pbase1 o) (u32 (as_npages1 o * PAGE_SIZE));
      _ ← memmove (as_pbase2 n) (as_pbase2 o) (u32 (as_npages2 o * PAGE_SIZE));
      _ ← memmove (as_stackpbase n) (as_stackpbase o) (DUMBVM_STACKPAGES * PAGE_SIZE);
      mret new
  end.

(** The end of [mi_switch] and of [mi_threadstart] in [kern/thread/thread.c],
    in a thread whose [t_vmspace] is [p]. *)
Definition switch_in (p : Z) : VM unit :=
  _ ← modify (fun s => set_vmspace s p);
  if bool_decide (p ≠ NULL) then as_activate p else mret tt.

(** What [thread_exit] does with the address space. *)
Definition exit_space : VM unit :=
  s ← get;
  if bool_decide (vmspace s = NULL) then mret tt else
  _ ← modify (fun s => set_vmspace s NULL);
  as_destroy (vmspace s).

(** ** Accesses *)

Inductive access := Load | Store.
#[export] Instance access_eq_dec : EqDecision access.
Proof. solve_decision. Defined.

(** The processor's translation of a mapped address: a physical address or an
    exception code.  This is the rule of user mode, which cannot address the
    kernel's segments; an access of the kernel to these is [kload] of
    Syscall.v. *)
Definition mmu (s : vm) (k : access) (va : Z) : Z + Z :=
  if bool_decide (va >= MIPS_KSEG0) then inl (match k with Load => EX_ADEL | Store => EX_ADES end) else
  match list_find (fun e => Z.land e.1 TLBHI_VPAGE = Z.land va TLBHI_VPAGE) (tlb s) with
  | Some (_, (_, elo)) =>
      if bool_decide (Z.land elo TLBLO_VALID = 0) then inl (match k with Load => EX_TLBL | Store => EX_TLBS end)
      else if bool_decide (k = Store) && bool_decide (Z.land elo TLBLO_DIRTY = 0) then inl EX_MOD
      else inr (Z.lor (Z.land elo TLBLO_PPAGE) (Z.land va 4095))
  | None => inl (match k with Load => EX_TLBL | Store => EX_TLBS end)
  end.

(** [mips_trap] for an exception that is neither an interrupt nor a system
    call: [true] resumes the instruction, [false] resumes in [copyfail].
    [kill_curthread] panics.  The assertions on where the trap frame lies (inside
    the stack of the thread on entry, on [curkstack] at the end) are about
    addresses of stacks, which the model does not have, and are left out. *)
Definition mips_trap (code va : Z) (iskern badfaultfunc : bool) : VM bool :=
  savespl ← on_mach (splx SPL_HIGH);
  _ ← massert (bool_decide (code < NTRAPCODES));
  _ ← on_mach (splx savespl);
  handled ←
    (if bool_decide (code = EX_MOD) then r ← try (vm_fault VM_FAULT_READONLY va); mret (match r with inr _ => true | inl _ => false end)
     else if bool_decide (code = EX_TLBL) then r ← try (vm_fault VM_FAULT_READ va); mret (match r with inr _ => true | inl _ => false end)
     else if bool_decide (code = EX_TLBS) then r ← try (vm_fault VM_FAULT_WRITE va); mret (match r with inr _ => true | inl _ => false end)
     else if bool_decide (code = EX_IBE) || bool_decide (code = EX_DBE) then panic
     else mret false);
  if negb handled && negb iskern then panic else
  if negb handled && negb badfaultfunc then panic else
  _ ← on_mach splhigh;
  _ ← on_mach (splx savespl);
  mret handled.

(** The instruction is tried again after a fault that was handled. *)
Fixpoint access_at (n : nat) (iskern badfaultfunc : bool) (k : access) (va : Z) : VM (option Z) :=
  s ← get;
  match mmu s k va with
  | inr pa => mret (Some pa)
  | inl code =>
      match n with
      | O => lift Stuck
      | S n =>
          resume ← mips_trap code va iskern badfaultfunc;
          if (resume : bool) then access_at n iskern badfaultfunc k va else mret None
      end
  end.

Definition ACCESS_FUEL : nat := 1.

Definition load (iskern badfaultfunc : bool) (va : Z) : VM (option Z) :=
  r ← access_at ACCESS_FUEL iskern badfaultfunc Load va;
  s ← get;
  mret (phys s <$> r).

Definition store (iskern badfaultfunc : bool) (va b : Z) : VM (option unit) :=
  r ← access_at ACCESS_FUEL iskern badfaultfunc Store va;
  match r with
  | Some pa => _ ← modify (fun s => set_phys s (fun x => if bool_decide (x = pa) then b else phys s x)); mret (Some tt)
  | None => mret None
  end.
End DumbVm.
