(* ===== verification/DumbVmSpec.v ===== *)
(** * The memory of processes under dumbvm

    What an address space makes of physical memory, the invariant of the
    virtual memory system, and the specification of [vm_fault] and of an
    access. *)

From S2P Require Import Prelude Ram DumbVm.

Module DumbVmSpec.
Import Ram DumbVm.

(** ** Regions *)

Inductive region := R1 | R2 | RS.
#[export] Instance region_eq_dec : EqDecision region.
Proof. solve_decision. Defined.

Definition vlo (a : addrspace) (r : region) : Z :=
  match r with R1 => as_vbase1 a | R2 => as_vbase2 a | RS => USERSTACK - DUMBVM_STACKPAGES * PAGE_SIZE end.
Definition npg (a : addrspace) (r : region) : Z :=
  match r with R1 => as_npages1 a | R2 => as_npages2 a | RS => DUMBVM_STACKPAGES end.
Definition plo (a : addrspace) (r : region) : Z :=
  match r with R1 => as_pbase1 a | R2 => as_pbase2 a | RS => as_stackpbase a end.

(** The physical memory of a region. *)
Definition frame (a : addrspace) (r : region) : Z * Z := (plo a r, npg a r * PAGE_SIZE).

Definition in_region (a : addrspace) (r : region) (va : Z) : Prop := vlo a r <= va < vlo a r + npg a r * PAGE_SIZE.
#[export] Instance in_region_dec a r va : Decision (in_region a r va) := _.

Definition region_of (a : addrspace) (va : Z) : option region :=
  if decide (in_region a R1 va) then Some R1
  else if decide (in_region a R2 va) then Some R2
  else if decide (in_region a RS va) then Some RS
  else None.

Definition translate (a : addrspace) (va : Z) : option Z :=
  r ← region_of a va; Some (va - vlo a r + plo a r).

(** What a process sees: the bytes at the addresses it can access. *)
Definition vas (a : addrspace) : list Z := [R1; R2; RS] ≫= fun r => seqZ (vlo a r) (npg a r * PAGE_SIZE).
Definition view (ph : Z -> Z) (a : addrspace) : gmap Z Z :=
  list_to_map (omap (fun va => pa ← translate a va; Some (va, ph pa)) (vas a)).

(** ** The invariant *)

Record layout_ok (a : addrspace) : Prop := {
  lo_pos : forall r, 0 < vlo a r;
  lo_align : forall r, vlo a r mod PAGE_SIZE = 0;
  lo_pages : forall r, 0 < npg a r;
  lo_top : forall r, vlo a r + npg a r * PAGE_SIZE <= MIPS_KSEG0
}.

(** As many pages as the TLB has entries. *)
Definition fits_tlb (a : addrspace) : Prop := npg a R1 + npg a R2 + npg a RS <= NUM_TLB.

Record loaded (first : Z) (a : addrspace) : Prop := {
  ld_layout : layout_ok a;
  ld_pos : forall r, 0 < plo a r;
  ld_align : forall r, plo a r mod PAGE_SIZE = 0;
  ld_below : forall r, plo a r + npg a r * PAGE_SIZE <= first;
  ld_apart : forall r r', r ≠ r' -> apart (frame a r) (frame a r')
}.

Definition is_loaded (a : addrspace) : Prop := as_stackpbase a ≠ 0.

Definition valid (e : Z * Z) : Prop := Z.land e.2 TLBLO_VALID ≠ 0.

(** A TLB that [TLB_Reset] or [as_activate] initialised and [vm_fault] filled:
    no two entries match the same page, and those that are not valid match no
    user page. *)
Record tlb_ok (l : list (Z * Z)) : Prop := {
  t_len : Z.of_nat (length l) = NUM_TLB;
  t_nodup : NoDup l.*1;
  t_page : forall e, e ∈ l -> e.1 mod PAGE_SIZE = 0 /\ 0 <= e.1 < 4294967296;
  t_user : forall e, e ∈ l -> ~ valid e -> MIPS_KSEG0 <= e.1;
  t_slot : forall i e, l !! i = Some e -> MIPS_KSEG0 <= e.1 < TLBHI_INVALID NUM_TLB -> e.1 = TLBHI_INVALID (Z.of_nat i)
}.

(** The valid entries are translations of [a]. *)
Definition coherent (l : list (Z * Z)) (a : addrspace) : Prop :=
  forall e, e ∈ l -> valid e -> is_loaded a /\ exists pa, translate a e.1 = Some pa /\ e.2 = pa + TLBLO_DIRTY + TLBLO_VALID.

Record vm_inv (s : vm) : Prop := {
  i_ram : ram_ok (mach s);
  i_null : spaces s !! NULL = None;
  i_cur : vmspace s = NULL \/ is_Some (spaces s !! vmspace s);
  i_loaded : forall p a, spaces s !! p = Some a -> is_loaded a -> loaded (firstpaddr (mach s)) a;
  i_apart : forall p a r q b r', spaces s !! p = Some a -> spaces s !! q = Some b -> is_loaded a -> is_loaded b -> p ≠ q ->
    apart (frame a r) (frame b r');
  i_tlb : tlb_ok (tlb s);
  i_coherent : forall a, spaces s !! vmspace s = Some a -> coherent (tlb s) a
}.

(** ** Translation *)

Lemma region_of_in a va r : region_of a va = Some r -> in_region a r va.
Proof. unfold region_of. intros. repeat case_decide; naive_solver. Qed.

Lemma region_of_is_Some a va r : in_region a r va -> is_Some (region_of a va).
Proof. unfold region_of. destruct r; intros; repeat case_decide; naive_solver. Qed.

Lemma region_of_page a va va' :
  layout_ok a -> Z.land va PAGE_FRAME = Z.land va' PAGE_FRAME -> 0 <= va < 4294967296 -> 0 <= va' < 4294967296 ->
  region_of a va = region_of a va'.
Proof.
  intros [_ Hal _ _] Heq Hva Hva'. rewrite !frame_spec in Heq by done.
  assert (forall r, in_region a r va <-> in_region a r va') as Hin.
  { intros r. specialize (Hal r). unfold in_region, PAGE_SIZE in *.
    pose proof (Z.div_mod (vlo a r) 4096 ltac:(lia)). pose proof (Z.mod_pos_bound va 4096 ltac:(lia)).
    pose proof (Z.mod_pos_bound va' 4096 ltac:(lia)).
    pose proof (Z.div_mod va 4096 ltac:(lia)). pose proof (Z.div_mod va' 4096 ltac:(lia)).
    split; intros; lia. }
  unfold region_of. by rewrite !(decide_ext _ _ _ _ (Hin _)).
Qed.

Lemma translate_page a va :
  layout_ok a -> 0 <= va < 4294967296 -> translate a va = (fun pa => pa + va mod PAGE_SIZE) <$> translate a (Z.land va PAGE_FRAME).
Proof.
  intros Hl Hva. unfold translate. pose proof (Z.mod_pos_bound va PAGE_SIZE ltac:(done)).
  pose proof (Z.mod_le va PAGE_SIZE ltac:(lia) ltac:(done)).
  rewrite (region_of_page a va (Z.land va PAGE_FRAME)); [|done| |done|].
  - rewrite (frame_spec va) by done. destruct (region_of _ _); cbn; [f_equal; lia|done].
  - by rewrite <- Z.land_assoc.
  - rewrite frame_spec by done. lia.
Qed.

Lemma translate_inj first a va va' pa : loaded first a -> translate a va = Some pa -> translate a va' = Some pa -> va = va'.
Proof.
  intros Hl H1 H2. unfold translate in *. destruct (region_of a va) as [r|] eqn:Hr; [|done].
  destruct (region_of a va') as [r'|] eqn:Hr'; [|done]. cbn in *. simplify_eq.
  apply region_of_in in Hr, Hr'. unfold in_region in *. destruct (decide (r = r')) as [->|Hne]; [lia|].
  pose proof (ld_apart _ _ Hl r r' Hne) as Hap. unfold apart, frame in Hap. cbn [fst snd] in Hap. lia.
Qed.

Lemma translate_frame a va pa : translate a va = Some pa -> exists r, in_region a r va /\ (frame a r).1 <= pa < (frame a r).1 + (frame a r).2.
Proof.
  unfold translate. destruct (region_of a va) as [r|] eqn:Hr; [|done]. cbn. intros [= <-]. apply region_of_in in Hr.
  exists r. unfold frame, in_region in *. cbn [fst snd]. lia.
Qed.

Lemma elem_of_vas a va : va ∈ vas a <-> exists r, in_region a r va.
Proof.
  unfold vas. rewrite list_elem_of_bind. split.
  - intros (r & Hva & _). apply elem_of_seqZ in Hva. exists r. unfold in_region. lia.
  - intros (r & Hr). exists r. split; [apply elem_of_seqZ; unfold in_region in Hr; lia|]. destruct r; set_solver.
Qed.

Lemma view_lookup ph a va : view ph a !! va = ph <$> translate a va.
Proof.
  unfold view. destruct (translate a va) as [pa|] eqn:Ht; cbn.
  - apply elem_of_list_to_map_1'.
    + intros y (va' & _ & Hy)%list_elem_of_omap. destruct (translate a va') as [pa'|] eqn:Ht'; cbn in Hy; [|done].
      by simplify_eq.
    + apply list_elem_of_omap. exists va. rewrite Ht. split; [|done]. apply elem_of_vas.
      destruct (translate_frame _ _ _ Ht) as (r & Hr & _). eauto.
  - apply not_elem_of_list_to_map_1. intros (y & Hy1 & (va' & _ & Hy)%list_elem_of_omap)%list_elem_of_fmap.
    destruct (translate a va') eqn:Ht'; cbn in Hy; [|done]. simplify_eq. cbn in *. congruence.
Qed.

(** ** TLB entries *)

Definition entry_lo (pa : Z) : Z := Z.lor (Z.lor pa TLBLO_DIRTY) TLBLO_VALID.

Section entry.
Context (pa : Z) (Hpa : 0 <= pa < 4294963200) (Hal : pa mod PAGE_SIZE = 0).

Lemma entry_lo_eq : entry_lo pa = pa + TLBLO_DIRTY + TLBLO_VALID.
Proof. unfold entry_lo. rewrite <- Z.lor_assoc, lor_low by done. unfold TLBLO_DIRTY, TLBLO_VALID. change (Z.lor 1024 512) with 1536. lia. Qed.

Lemma entry_lo_mod : entry_lo pa mod PAGE_SIZE = 1536.
Proof.
  rewrite entry_lo_eq. unfold TLBLO_DIRTY, TLBLO_VALID, PAGE_SIZE in *.
  replace (pa + 1024 + 512) with (1536 + pa / 4096 * 4096) by (pose proof (Z.div_mod pa 4096 ltac:(lia)); lia).
  by rewrite Z.mod_add.
Qed.

Lemma entry_lo_bits : Z.land (entry_lo pa) TLBLO_VALID = 512 /\ Z.land (entry_lo pa) TLBLO_DIRTY = 1024 /\ Z.land (entry_lo pa) TLBLO_PPAGE = pa.
Proof.
  split_and!.
  - by rewrite land_low, entry_lo_mod.
  - by rewrite land_low, entry_lo_mod.
  - unfold TLBLO_PPAGE. rewrite frame_spec, entry_lo_mod, entry_lo_eq; unfold TLBLO_DIRTY, TLBLO_VALID in *; [lia|].
    rewrite entry_lo_eq. unfold TLBLO_DIRTY, TLBLO_VALID. lia.
Qed.

Lemma valid_entry va : valid (va, entry_lo pa).
Proof. unfold valid. cbn. destruct entry_lo_bits as (-> & _). done. Qed.
End entry.

Lemma translate_range first a va pa :
  loaded first a -> first <= 508 * 1024 * 1024 -> translate a va = Some pa -> 0 <= pa < 4294963200 /\ 0 <= va < MIPS_KSEG0.
Proof.
  intros Hl Hf Ht. destruct (translate_frame _ _ _ Ht) as (r & Hin & Hfr). unfold frame, in_region in *. cbn [fst snd] in Hfr.
  pose proof (ld_pos _ _ Hl r). pose proof (ld_below _ _ Hl r). pose proof (lo_pos _ (ld_layout _ _ Hl) r).
  pose proof (lo_top _ (ld_layout _ _ Hl) r). lia.
Qed.

Lemma translate_align first a va pa : loaded first a -> va mod PAGE_SIZE = 0 -> translate a va = Some pa -> pa mod PAGE_SIZE = 0.
Proof.
  intros Hl Hva Ht. unfold translate in Ht. destruct (region_of a va) as [r|]; [|done]. cbn in Ht. simplify_eq.
  pose proof (ld_align _ _ Hl r) as Hp. pose proof (lo_align _ (ld_layout _ _ Hl) r) as Hv.
  by rewrite Z.add_mod, Hp, Z.add_0_r, Z.mod_mod, Zminus_mod, Hva, Hv by done.
Qed.

Lemma land_frame va : 0 <= va < 4294967296 -> Z.land va PAGE_FRAME mod PAGE_SIZE = 0 /\ Z.land va PAGE_FRAME <= va.
Proof.
  intros Hva. rewrite frame_spec by done. pose proof (Z.mod_pos_bound va PAGE_SIZE ltac:(done)).
  pose proof (Z.div_mod va PAGE_SIZE ltac:(done)). split; [|lia].
  replace (va - va mod PAGE_SIZE) with (va / PAGE_SIZE * PAGE_SIZE) by lia. by apply Z.mod_mul.
Qed.

(** Which entry matches: at most one. *)
Lemma tlb_find l va i e :
  tlb_ok l -> 0 <= va < 4294967296 -> l !! i = Some e -> e.1 = Z.land va PAGE_FRAME ->
  list_find (fun e => Z.land e.1 TLBHI_VPAGE = Z.land va TLBHI_VPAGE) l = Some (i, e).
Proof.
  intros Hl Hva He Heq. assert (forall e', e' ∈ l -> Z.land e'.1 TLBHI_VPAGE = e'.1) as Hid.
  { intros e' He'. destruct (t_page _ Hl e' He'). by apply frame_aligned. }
  apply list_find_Some. split_and!; [done| |].
  - rewrite Hid by (by eapply list_elem_of_lookup_2). done.
  - intros j e' He' Hj Hm. rewrite Hid in Hm by (by eapply list_elem_of_lookup_2).
    assert (i = j); [|lia]. eapply (NoDup_lookup l.*1); [apply Hl|rewrite list_lookup_fmap, He; done|].
    rewrite list_lookup_fmap, He'. cbn. by rewrite Hm, Heq.
Qed.

Lemma tlb_find_None l va :
  tlb_ok l -> list_find (fun e => Z.land e.1 TLBHI_VPAGE = Z.land va TLBHI_VPAGE) l = None ->
  forall e, e ∈ l -> e.1 ≠ Z.land va PAGE_FRAME.
Proof.
  intros Hl Hf e He Heq. apply list_find_None in Hf. eapply Forall_forall in Hf; [|exact He]. apply Hf.
  destruct (t_page _ Hl e He). unfold TLBHI_VPAGE. by rewrite frame_aligned.
Qed.

(** ** The TLB has room *)

Definition pages (a : addrspace) : list Z := [R1; R2; RS] ≫= fun r => (fun k => vlo a r + k * PAGE_SIZE) <$> seqZ 0 (npg a r).

Lemma length_proc_pages a : layout_ok a -> Z.of_nat (length (pages a)) = npg a R1 + npg a R2 + npg a RS.
Proof.
  intros Hl. unfold pages. cbn [mbind list_bind]. rewrite !length_app, !length_fmap, !length_seqZ. cbn [length].
  pose proof (lo_pages _ Hl R1). pose proof (lo_pages _ Hl R2). pose proof (lo_pages _ Hl RS). lia.
Qed.

Lemma elem_of_pages a va : layout_ok a -> is_Some (region_of a va) -> va mod PAGE_SIZE = 0 -> va ∈ pages a.
Proof.
  intros Hl [r Hr] Hm. apply region_of_in in Hr. apply list_elem_of_bind. exists r. split; [|destruct r; set_solver].
  apply list_elem_of_fmap. pose proof (lo_align _ Hl r) as Ha. unfold in_region, PAGE_SIZE in *.
  pose proof (Z.div_mod va 4096 ltac:(lia)). pose proof (Z.div_mod (vlo a r) 4096 ltac:(lia)).
  exists (va / 4096 - vlo a r / 4096). split; [lia|]. apply elem_of_seqZ. lia.
Qed.

Lemma tlb_room l a va :
  tlb_ok l -> layout_ok a -> fits_tlb a -> coherent l a -> is_Some (region_of a va) -> va mod PAGE_SIZE = 0 ->
  (forall e, e ∈ l -> e.1 ≠ va) -> exists i e, l !! i = Some e /\ ~ valid e.
Proof.
  intros Ht Hl Hfit Hc Hva Hm Hno. destruct (decide (Forall (fun e => Z.land e.2 TLBLO_VALID ≠ 0) l)) as [Hall|Hex].
  - exfalso. assert (va :: l.*1 ⊆+ pages a) as Hsub.
    { apply NoDup_submseteq.
      - apply NoDup_cons. split; [|apply Ht]. intros (e & -> & He)%list_elem_of_fmap. by apply (Hno e).
      - intros x [->|(e & -> & He)%list_elem_of_fmap]%elem_of_cons; [by apply elem_of_pages|].
        apply elem_of_pages; [done| |by apply Ht]. pose proof (proj1 (Forall_forall _ _) Hall e He) as Hv.
        destruct (Hc e He Hv) as (_ & pa & Htr & _). unfold translate in Htr. destruct (region_of a e.1); [eauto|done]. }
    apply submseteq_length in Hsub. pose proof (length_proc_pages a Hl). pose proof (t_len _ Ht). unfold fits_tlb in Hfit.
    cbn [length] in Hsub. rewrite length_fmap in Hsub. lia.
  - apply not_Forall_Exists in Hex; [|apply _]. apply Exists_exists in Hex as (e & He & Hv).
    apply list_elem_of_lookup in He as [i Hi]. eauto.
Qed.

(** ** [vm_fault] *)

Lemma wp_vm_mach {A} (m : M machine A) s (Q : A -> vm -> Prop) E :
  wp m (fun a x => Q a (set_mach s x)) (fun e x => E e (set_mach s x)) (mach s) -> wp (on_mach m) Q E s.
Proof. unfold wp, on_mach. by destruct (m (mach s)) as [[[e|a] x]| |]. Qed.

Lemma wp_get_as p a s (Q : addrspace -> vm -> Prop) E : spaces s !! p = Some a -> Q a s -> wp (get_as p) Q E s.
Proof. intros Ha HQ. unfold get_as. wp_base. wp_base. eapply wp_lift; [by rewrite Ha|done]. Qed.

Lemma wp_tlb_fill n i fa pa s (Q : bool -> vm -> Prop) E :
  0 <= i -> i + Z.of_nat n = Z.of_nat (length (tlb s)) ->
  (forall j e, tlb s !! j = Some e -> ~ valid e -> Q true (set_tlb s (<[j := (fa, entry_lo pa)]> (tlb s)))) ->
  ((forall j e, i <= Z.of_nat j -> tlb s !! j = Some e -> valid e) -> Q false s) ->
  wp (tlb_fill n i fa pa) Q E s.
Proof.
  revert i. induction n as [|n IH]; intros i Hi Hn HT HF; cbn [tlb_fill].
  { wp_base. apply HF. intros j e Hj He. apply lookup_lt_Some in He. lia. }
  wp_base. unfold TLB_Read. wp_base. wp_base. destruct (getZ_total (tlb s) i) as ([ehi elo] & Hg & He); [lia|].
  eapply wp_lift; [exact Hg|]. cbn match beta. case_bool_decide as Hv.
  - apply IH; [lia|lia|done|]. intros Hall. apply HF. intros j e Hj Hje. destruct (decide (Z.of_nat j = i)) as [<-|].
    + rewrite Nat2Z.id in He. by simplify_eq.
    + apply (Hall j); [lia|done].
  - wp_base. unfold TLB_Write. repeat wp_base. eapply wp_lift; [apply setZ_ok; lia|]. repeat wp_base.
    apply (HT _ (ehi, elo)); [done|]. unfold valid. cbn [snd]. tauto.
Qed.

Lemma framed_true x : 0 <= x < 4294967296 -> x mod PAGE_SIZE = 0 -> framed x = true.
Proof. intros. unfold framed. apply bool_decide_eq_true_2. by apply frame_aligned. Qed.

(** The search of [vm_fault], without the wrap-around that a loaded space
    excludes. *)
Lemma fault_lookup first a fa :
  loaded first a -> first <= 508 * 1024 * 1024 -> 0 <= fa < MIPS_KSEG0 ->
  (if bool_decide (as_vbase1 a <= fa < u32 (as_vbase1 a + u32 (as_npages1 a * PAGE_SIZE))) then Some (u32 (fa - as_vbase1 a + as_pbase1 a))
   else if bool_decide (as_vbase2 a <= fa < u32 (as_vbase2 a + u32 (as_npages2 a * PAGE_SIZE))) then Some (u32 (fa - as_vbase2 a + as_pbase2 a))
   else if bool_decide (USERSTACK - DUMBVM_STACKPAGES * PAGE_SIZE <= fa < USERSTACK) then Some (u32 (fa - (USERSTACK - DUMBVM_STACKPAGES * PAGE_SIZE) + as_stackpbase a))
   else None) = translate a fa.
Proof.
  intros Hl Hf Hfa. assert (forall r, 0 < vlo a r /\ 0 < npg a r * PAGE_SIZE /\ vlo a r + npg a r * PAGE_SIZE <= MIPS_KSEG0 /\
    0 < plo a r /\ plo a r + npg a r * PAGE_SIZE <= first) as Hr.
  { intros r. destruct Hl as [[] ? ? ? ?]. specialize (lo_pages0 r). unfold PAGE_SIZE in *. split_and!; auto. lia. }
  pose proof (Hr R1) as H1. pose proof (Hr R2) as H2. pose proof (Hr RS) as H3. cbn [vlo npg plo] in H1, H2, H3.
  unfold translate, region_of, in_region, MIPS_KSEG0, USERSTACK in *. cbn [vlo npg plo].
  rewrite (u32_small (as_npages1 a * PAGE_SIZE)), (u32_small (as_npages2 a * PAGE_SIZE)), !(u32_small (_ + _ * PAGE_SIZE)) by lia.
  unfold DUMBVM_STACKPAGES, PAGE_SIZE, MIPS_KSEG0 in *.
  repeat case_bool_decide; repeat case_decide; try lia; cbn; try done; f_equal; apply (u32_small (_ + _)); lia.
Qed.

Lemma wp_vm_fault t va s a (Q : unit -> vm -> Prop) E :
  vm_inv s -> spaces s !! vmspace s = Some a -> is_loaded a -> fits_tlb a ->
  t = VM_FAULT_READ \/ t = VM_FAULT_WRITE -> 0 <= va < MIPS_KSEG0 ->
  (forall e, e ∈ tlb s -> e.1 ≠ Z.land va PAGE_FRAME) ->
  (translate a va = None -> E EFAULT s) ->
  (forall j e pa, tlb s !! j = Some e -> ~ valid e -> translate a (Z.land va PAGE_FRAME) = Some pa ->
    Q tt (set_tlb s (<[j := (Z.land va PAGE_FRAME, entry_lo pa)]> (tlb s)))) ->
  wp (vm_fault t va) Q E s.
Proof.
  intros Hi Ha Hld Hfit Ht Hva Hmiss HE HQ. pose proof (i_loaded _ Hi _ _ Ha Hld) as Hl. pose proof (i_ram _ Hi) as [Hr1 Hr2 _].
  assert (vmspace s ≠ NULL) as Hnn by (intros Heq; pose proof (i_null _ Hi); congruence).
  assert (forall r, 0 < vlo a r < 4294967296 /\ vlo a r mod PAGE_SIZE = 0 /\ 0 < plo a r < 4294967296 /\ plo a r mod PAGE_SIZE = 0 /\ 0 < npg a r) as Hr.
  { intros r. destruct Hl as [[] ? ? ? ?]. specialize (lo_pages0 r). specialize (lo_top0 r). specialize (ld_below0 r).
    specialize (ld_pos0 r). specialize (lo_pos0 r). unfold PAGE_SIZE, MIPS_KSEG0 in *. split_and!; auto; lia. }
  pose proof (Hr R1) as H1. pose proof (Hr R2) as H2. pose proof (Hr RS) as H3. cbn [vlo npg plo] in H1, H2, H3. clear Hr.
  unfold vm_fault. wp_base. apply wp_vm_mach, wp_splx. set (s1 := set_mach s _). cbn beta.
  rewrite (bool_decide_eq_false_2 (t = VM_FAULT_READONLY)) by (destruct Ht as [->| ->]; done).
  replace (bool_decide (t = VM_FAULT_READ) || bool_decide (t = VM_FAULT_WRITE)) with true by (destruct Ht as [->| ->]; done).
  cbn [negb]. do 2 wp_base. change (vmspace s1) with (vmspace s). rewrite bool_decide_eq_false_2 by done. wp_base.
  apply (wp_get_as _ a); [done|].
  do 7 (wp_base; apply wp_massert; [apply bool_decide_eq_true_2; lia|]).
  do 5 (wp_base; apply wp_massert; [apply framed_true; tauto || lia|]).
  destruct (land_frame va) as [Hfm Hfl]; [unfold MIPS_KSEG0 in Hva; lia|].
  assert (0 <= Z.land va PAGE_FRAME) as Hf0 by (apply Z.land_nonneg; lia).
  rewrite (fault_lookup (firstpaddr (mach s))) by (done || lia). assert (set_mach s1 (mach s) = s) as Hback by (by destruct s).
  destruct (translate a (Z.land va PAGE_FRAME)) as [pa|] eqn:Htr.
  - destruct (translate_range _ _ _ _ Hl ltac:(lia) Htr) as [Hpa _].
    wp_base. apply wp_massert; [apply framed_true; [lia|by eapply translate_align]|]. wp_base.
    apply wp_tlb_fill; [done|change (tlb s1) with (tlb s); rewrite (t_len _ (i_tlb _ Hi)); done| |].
    + intros j e Hj Hv. wp_base. apply wp_vm_mach, wp_splx. wp_base.
      replace (set_mach _ _) with (set_tlb s (<[j := (Z.land va PAGE_FRAME, entry_lo pa)]> (tlb s))) by (by destruct s as [[]]).
      by apply (HQ j e).
    + intros Hall. exfalso. destruct (tlb_room (tlb s) a (Z.land va PAGE_FRAME)) as (i & e & Hie & Hne); try done.
      * apply Hi.
      * apply Hl.
      * by apply (i_coherent _ Hi).
      * unfold translate in Htr. destruct (region_of a _); [eauto|done].
      * apply Hne, (Hall i); [lia|done].
  - wp_base. apply wp_vm_mach, wp_splx. wp_base. replace (set_mach _ _) with s by (by destruct s as [[]]).
    apply HE. rewrite translate_page, Htr; [done|apply Hl|unfold MIPS_KSEG0 in Hva; lia].
Qed.

Lemma tlb_ok_insert l j e va pa :
  tlb_ok l -> l !! j = Some e -> 0 <= va < MIPS_KSEG0 -> va mod PAGE_SIZE = 0 -> 0 <= pa < 4294963200 -> pa mod PAGE_SIZE = 0 ->
  (forall e', e' ∈ l -> e'.1 ≠ va) -> tlb_ok (<[j := (va, entry_lo pa)]> l).
Proof.
  intros [Hlen Hnd Hpg Hus Hsl] Hj Hva Hal Hpa Hpal Hno. apply lookup_lt_Some in Hj as Hlt.
  assert (forall e', e' ∈ <[j := (va, entry_lo pa)]> l -> e' = (va, entry_lo pa) \/ e' ∈ l) as Hin.
  { intros e' [i Hi]%list_elem_of_lookup. apply list_lookup_insert_Some in Hi as [(_ & <- & _)|(_ & Hi)]; [auto|].
    right. by eapply list_elem_of_lookup_2. }
  split.
  - by rewrite length_insert.
  - rewrite list_fmap_insert. cbn. apply NoDup_alt. intros i i' x Hi Hi'.
    apply list_lookup_insert_Some in Hi as [(<- & <- & _)|(Hn & Hi)]; apply list_lookup_insert_Some in Hi' as [(<- & Hx & _)|(Hn' & Hi')].
    + done.
    + rewrite list_lookup_fmap in Hi'. destruct (l !! i') as [e'|] eqn:He'; [|done]. cbn in Hi'. simplify_eq.
      exfalso. by apply (Hno e'); [eapply list_elem_of_lookup_2|].
    + rewrite list_lookup_fmap in Hi. destruct (l !! i) as [e'|] eqn:He'; [|done]. cbn in Hi. simplify_eq.
      exfalso. by apply (Hno e'); [eapply list_elem_of_lookup_2|].
    + by eapply NoDup_lookup.
  - intros e' [->|He']%Hin; [|by apply Hpg]. cbn [fst]. unfold MIPS_KSEG0 in Hva. split; [done|lia].
  - intros e' [->|He']%Hin Hv; [|by apply Hus]. exfalso. by apply Hv, valid_entry.
  - intros i e' Hi He'. apply list_lookup_insert_Some in Hi as [(<- & <- & _)|(_ & Hi)]; [cbn [fst] in He'; lia|by apply Hsl].
Qed.

Lemma vm_inv_tlb s l : vm_inv s -> tlb_ok l -> (forall a, spaces s !! vmspace s = Some a -> coherent l a) -> vm_inv (set_tlb s l).
Proof. intros [] Hl Hc. by split. Qed.

(** The state after a fault that was handled. *)
Lemma filled s a va j e pa :
  vm_inv s -> spaces s !! vmspace s = Some a -> is_loaded a -> 0 <= va < MIPS_KSEG0 ->
  (forall e', e' ∈ tlb s -> e'.1 ≠ Z.land va PAGE_FRAME) -> tlb s !! j = Some e -> translate a (Z.land va PAGE_FRAME) = Some pa ->
  let s' := set_tlb s (<[j := (Z.land va PAGE_FRAME, entry_lo pa)]> (tlb s)) in
  vm_inv s' /\ exists i e', tlb s' !! i = Some e' /\ valid e' /\ e'.1 = Z.land va PAGE_FRAME.
Proof.
  intros Hi Ha Hld Hva Hno Hj Htr s'. pose proof (i_loaded _ Hi _ _ Ha Hld) as Hl. pose proof (i_ram _ Hi) as [Hr1 Hr2 _].
  destruct (translate_range _ _ _ _ Hl ltac:(lia) Htr) as [Hpa Hva']. destruct (land_frame va) as [Hfm Hfl]; [unfold MIPS_KSEG0 in Hva; lia|].
  pose proof (translate_align _ _ _ _ Hl Hfm Htr) as Hpal. apply lookup_lt_Some in Hj as Hlt. split.
  - apply vm_inv_tlb; [done|by eapply tlb_ok_insert; [apply Hi|..]|]. intros a' Ha'. simplify_eq. intros e' He' Hv'.
    apply list_elem_of_lookup in He' as [i Hi']. apply list_lookup_insert_Some in Hi' as [(_ & <- & _)|(_ & Hi')].
    + split; [done|]. exists pa. split; [done|]. by apply entry_lo_eq.
    + apply (i_coherent _ Hi a Ha); [by eapply list_elem_of_lookup_2|done].
  - exists j, (Z.land va PAGE_FRAME, entry_lo pa). split; [by apply list_lookup_insert_eq|]. split; [by apply valid_entry|done].
Qed.

(** ** Accesses *)

Lemma mmu_hit s a k va i e :
  vm_inv s -> spaces s !! vmspace s = Some a -> 0 <= va < MIPS_KSEG0 -> tlb s !! i = Some e -> valid e -> e.1 = Z.land va PAGE_FRAME ->
  exists pa, mmu s k va = inr pa /\ translate a va = Some pa.
Proof.
  intros Hi Ha Hva He Hv Heq. assert (0 <= va < 4294967296) as Hva' by (unfold MIPS_KSEG0 in Hva; lia).
  destruct (i_coherent _ Hi a Ha e) as (Hld & pa & Htr & Hlo); [by eapply list_elem_of_lookup_2|done|].
  pose proof (i_loaded _ Hi _ _ Ha Hld) as Hl. pose proof (i_ram _ Hi) as [_ Hr2 _]. rewrite Heq in Htr.
  destruct (land_frame va Hva') as [Hfm _]. destruct (r_first _ (i_ram _ Hi)).
  destruct (translate_range _ _ _ _ Hl ltac:(lia) Htr) as [Hpa _]. pose proof (translate_align _ _ _ _ Hl Hfm Htr) as Hpal.
  exists (pa + va mod PAGE_SIZE). rewrite <- entry_lo_eq in Hlo by done. split.
  - unfold mmu. rewrite bool_decide_eq_false_2 by lia. rewrite (tlb_find _ _ i e) by (done || apply Hi). destruct e as [hi lo].
    cbn [snd] in *. subst lo. destruct (entry_lo_bits pa Hpa Hpal) as (-> & -> & ->). rewrite (bool_decide_eq_false_2 (512 = 0)) by done.
    rewrite (bool_decide_eq_false_2 (1024 = 0)), andb_false_r by done. rewrite low_spec, lor_low; [done|done|].
    by apply Z.mod_pos_bound.
  - rewrite translate_page, Htr; [done|apply Hl|done].
Qed.

Lemma mmu_miss s k va :
  tlb_ok (tlb s) -> 0 <= va < MIPS_KSEG0 -> (forall i e, tlb s !! i = Some e -> valid e -> e.1 ≠ Z.land va PAGE_FRAME) ->
  mmu s k va = inl (match k with Load => EX_TLBL | Store => EX_TLBS end) /\ (forall e, e ∈ tlb s -> e.1 ≠ Z.land va PAGE_FRAME).
Proof.
  intros Hi Hva Hno. assert (forall e, e ∈ tlb s -> e.1 ≠ Z.land va PAGE_FRAME) as Hall.
  { intros e [i He]%list_elem_of_lookup Heq. destruct (decide (Z.land e.2 TLBLO_VALID ≠ 0)) as [Hv|Hv]; [by eapply Hno|].
    pose proof (t_user _ Hi e ltac:(by eapply list_elem_of_lookup_2) Hv).
    destruct (land_frame va); unfold MIPS_KSEG0 in *; lia. }
  split; [|done]. unfold mmu. rewrite bool_decide_eq_false_2 by lia.
  destruct (list_find _ (tlb s)) as [[i e]|] eqn:Hf; [|done]. apply list_find_Some in Hf as (He & Hm & _).
  exfalso. apply (Hall e); [by eapply list_elem_of_lookup_2|]. destruct (t_page _ Hi e); [by eapply list_elem_of_lookup_2|].
  unfold TLBHI_VPAGE in Hm. by rewrite frame_aligned in Hm.
Qed.

(** [mips_trap] on a TLB miss, by what [vm_fault] answers. *)
Lemma mips_trap_run k va iskern bad s r s1 :
  vm_fault (match k with Load => VM_FAULT_READ | Store => VM_FAULT_WRITE end) va s = Done (r, s1) -> mach s1 = mach s ->
  mips_trap (match k with Load => EX_TLBL | Store => EX_TLBS end) va iskern bad s =
    match r with
    | inr _ => Done (inr true, s1)
    | inl _ => if iskern && bad then Done (inr false, s1) else Panic
    end.
Proof.
  intros Hf Hm. unfold mips_trap, massert, lift, kassert, try, mret, M_ret, mbind, M_bind, outcome_bind. destruct s as [[spl fp lp] t ph sp v al].
  destruct k; lazy -[vm_fault VM_FAULT_READ VM_FAULT_WRITE]; rewrite Hf; destruct s1 as [m1 ? ? ? ? ?]; cbn in Hm; subst m1;
    destruct r, iskern, bad; done.
Qed.

Lemma access_at_hit n iskern bad k va s pa : mmu s k va = inr pa -> access_at n iskern bad k va s = Done (inr (Some pa), s).
Proof. intros Hm. destruct n; unfold access_at, get, mbind, M_bind; by rewrite Hm. Qed.

Lemma access_at_miss n iskern bad k va s code b s' :
  mmu s k va = inl code -> mips_trap code va iskern bad s = Done (inr b, s') ->
  access_at (S n) iskern bad k va s = if b then access_at n iskern bad k va s' else Done (inr None, s').
Proof.
  intros Hm Ht. cbn [access_at]. unfold get at 1. unfold mbind at 1, M_bind at 1. rewrite Hm. unfold mbind, M_bind. rewrite Ht. by destruct b.
Qed.

Lemma access_at_panic n iskern bad k va s code :
  mmu s k va = inl code -> mips_trap code va iskern bad s = Panic -> access_at (S n) iskern bad k va s = Panic.
Proof. intros Hm Ht. cbn [access_at]. unfold get at 1. unfold mbind at 1, M_bind at 1. rewrite Hm. unfold mbind, M_bind. by rewrite Ht. Qed.

(** The states that differ in the TLB only. *)
Definition same_memory (s s' : vm) : Prop :=
  mach s' = mach s /\ phys s' = phys s /\ spaces s' = spaces s /\ vmspace s' = vmspace s /\ allocs s' = allocs s.

Lemma access_run s a iskern bad k va :
  vm_inv s -> spaces s !! vmspace s = Some a -> is_loaded a -> fits_tlb a -> 0 <= va < MIPS_KSEG0 ->
  match translate a va with
  | Some pa => exists s', access_at ACCESS_FUEL iskern bad k va s = Done (inr (Some pa), s') /\ vm_inv s' /\ same_memory s s'
  | None => access_at ACCESS_FUEL iskern bad k va s = if iskern && bad then Done (inr None, s) else Panic
  end.
Proof.
  intros Hi Ha Hld Hfit Hva.
  destruct (decide (Exists (fun e => Z.land e.2 TLBLO_VALID ≠ 0 /\ e.1 = Z.land va PAGE_FRAME) (tlb s))) as [Hex|Hno].
  - apply Exists_exists in Hex as (e & He & Hv & Heq). apply list_elem_of_lookup in He as [i He].
    destruct (mmu_hit s a k va i e) as (pa & Hm & ->); try done. exists s. split; [by apply access_at_hit|done].
  - destruct (mmu_miss s k va (i_tlb _ Hi) Hva) as [Hm Hall].
    { intros i e He Hv Heq. apply Hno, Exists_exists. exists e. split; [by eapply list_elem_of_lookup_2|done]. }
    set (t := match k with Load => VM_FAULT_READ | Store => VM_FAULT_WRITE end).
    assert (wp (vm_fault t va) (fun _ s' => is_Some (translate a va) /\ vm_inv s' /\ same_memory s s' /\ exists pa, mmu s' k va = inr pa /\ translate a va = Some pa)
      (fun _ s' => translate a va = None /\ s' = s) s) as Hwp.
    { apply (wp_vm_fault _ _ _ a); try done; [by destruct k; auto|]. intros j e pa Hj Hv Htr.
      destruct (filled s a va j e pa) as (Hi' & i & e' & He' & Hv' & Heq'); try done.
      destruct (mmu_hit _ a k va i e' Hi') as (pa' & Hm' & Htr'); try done. split_and!; [by rewrite Htr'|done|done|eauto]. }
    unfold wp in Hwp. unfold ACCESS_FUEL. destruct (vm_fault t va s) as [[r s1]| |] eqn:Hf; [|done..].
    pose proof (mips_trap_run k va iskern bad s r s1 Hf) as Htrap. destruct r as [e|u].
    + destruct Hwp as [-> ->]. specialize (Htrap eq_refl). destruct (iskern && bad).
      * by rewrite (access_at_miss _ _ _ _ _ _ _ _ _ Hm Htrap).
      * by rewrite (access_at_panic _ _ _ _ _ _ _ Hm Htrap).
    + destruct Hwp as (_ & Hi' & Hs & pa & Hm' & ->). exists s1. specialize (Htrap (proj1 Hs)).
      rewrite (access_at_miss _ _ _ _ _ _ _ _ _ Hm Htrap). split; [by apply access_at_hit|done].
Qed.
End DumbVmSpec.
