(* ===== verification/DumbVmOps.v ===== *)
(** * Operations on address spaces keep the invariant

    Creation, definition of regions, loading, copying, destruction and
    activation of address spaces, and what each does to the memory that
    processes see. *)

From S2P Require Import Prelude Ram DumbVm DumbVmSpec.

Module DumbVmOps.
Import Ram DumbVm DumbVmSpec.

(** ** The memory of every process *)

Definition procs (s : vm) : gmap Z (gmap Z Z) :=
  omap (fun a => if decide (is_loaded a) then Some (view (phys s) a) else None) (spaces s).

Lemma procs_lookup s p a : spaces s !! p = Some a -> is_loaded a -> procs s !! p = Some (view (phys s) a).
Proof. intros Ha Hl. unfold procs. rewrite lookup_omap, Ha. cbn. by rewrite decide_True. Qed.

Lemma procs_Some s p m : procs s !! p = Some m -> exists a, spaces s !! p = Some a /\ is_loaded a /\ m = view (phys s) a.
Proof.
  unfold procs. rewrite lookup_omap. destruct (spaces s !! p) as [a|]; [|done]. cbn [mbind option_bind]. case_decide as Hl; [|done].
  intros Hm. exists a. split_and!; [done|done|congruence].
Qed.

Lemma view_ext ph ph' a : (forall va pa, translate a va = Some pa -> ph' pa = ph pa) -> view ph' a = view ph a.
Proof. intros He. apply map_eq. intros va. rewrite !view_lookup. destruct (translate a va) eqn:Ht; cbn; [f_equal; eauto|done]. Qed.

Lemma same_procs s s' : phys s' = phys s -> spaces s' = spaces s -> procs s' = procs s.
Proof. intros Hp Hs. unfold procs. by rewrite Hp, Hs. Qed.

(** A space that is not loaded contributes nothing. *)
Lemma procs_unloaded s p a : spaces s !! p = None \/ (exists b, spaces s !! p = Some b /\ ~ is_loaded b) -> ~ is_loaded a ->
  procs (set_spaces s (<[p := a]> (spaces s))) = procs s.
Proof.
  intros Hp Ha. apply map_eq. intros q. unfold procs. cbn [spaces phys set_spaces]. rewrite !lookup_omap.
  destruct (decide (p = q)) as [<-|Hne]; [rewrite lookup_insert_eq|by rewrite lookup_insert_ne].
  cbn. rewrite decide_False by done. destruct Hp as [->|(b & -> & Hb)]; cbn; [done|by rewrite decide_False].
Qed.

(** ** The invariant after an update of one space *)

Lemma loaded_mono f f' a : f <= f' -> loaded f a -> loaded f' a.
Proof. intros Hf []. split; try done. intros r. specialize (ld_below0 r). lia. Qed.

Lemma vm_inv_update s p a m' al :
  vm_inv s -> p ≠ NULL -> firstpaddr (mach s) <= firstpaddr m' -> ram_ok m' ->
  (is_loaded a -> loaded (firstpaddr m') a /\
    forall q b r r', p ≠ q -> spaces s !! q = Some b -> is_loaded b -> apart (frame a r) (frame b r')) ->
  (vmspace s = p -> coherent (tlb s) a) ->
  vm_inv (mkVm m' (tlb s) (phys s) (<[p := a]> (spaces s)) (vmspace s) al).
Proof.
  intros [Hr Hn Hcur Hl Ha Ht Hc] Hp Hf Hr' Hla Hco. split; cbn [mach tlb phys spaces vmspace]; try done.
  - by rewrite lookup_insert_ne.
  - destruct Hcur; [by left|right]. rewrite lookup_insert_is_Some'. auto.
  - intros q b Hq Hb. apply lookup_insert_Some in Hq as [[<- <-]|[_ Hq]]; [by apply Hla|].
    eapply loaded_mono; [exact Hf|eauto].
  - intros q b r q' b' r' Hq Hq' Hb Hb' Hne.
    apply lookup_insert_Some in Hq as [[<- <-]|[Hq1 Hq]]; apply lookup_insert_Some in Hq' as [[<- <-]|[Hq1' Hq']]; [done| | |by eapply Ha].
    + by apply (Hla Hb) with q'.
    + destruct (Hla Hb') as [_ Hap]. specialize (Hap q b r' r (not_eq_sym Hne) Hq Hb). unfold apart in *. lia.
  - intros b Hb. apply lookup_insert_Some in Hb as [[Heq <-]|[_ Hb]]; auto.
Qed.

Lemma coherent_empty l a : (forall e, e ∈ l -> ~ valid e) -> coherent l a.
Proof. intros Hl e He Hv. by destruct (Hl e He). Qed.

Lemma no_valid s a : vm_inv s -> spaces s !! vmspace s = Some a -> ~ is_loaded a -> forall e, e ∈ tlb s -> ~ valid e.
Proof. intros Hi Ha Hn e He Hv. by destruct (i_coherent _ Hi a Ha e He Hv). Qed.

(** ** [as_activate] *)

Lemma tlb_invalid_eq i : TLBHI_INVALID i = MIPS_KSEG0 + i * PAGE_SIZE.
Proof. unfold TLBHI_INVALID. rewrite Z.shiftl_mul_pow2 by lia. unfold MIPS_KSEG0, PAGE_SIZE. lia. Qed.

Lemma tlb_ok_clear l i : tlb_ok l -> 0 <= i < NUM_TLB -> tlb_ok (<[Z.to_nat i := (TLBHI_INVALID i, TLBLO_INVALID)]> l).
Proof.
  intros [Hlen Hnd Hpg Hus Hsl] Hi. set (l1 := <[Z.to_nat i := _]> l).
  assert (forall j e, l1 !! j = Some e -> (j = Z.to_nat i /\ e = (TLBHI_INVALID i, TLBLO_INVALID)) \/ (j ≠ Z.to_nat i /\ l !! j = Some e)) as Hl1.
  { intros j e He. apply list_lookup_insert_Some in He as [(<- & <- & _)|(? & ?)]; auto. }
  assert (MIPS_KSEG0 <= TLBHI_INVALID i < TLBHI_INVALID NUM_TLB /\ TLBHI_INVALID i mod PAGE_SIZE = 0) as [Hti Htm].
  { rewrite !tlb_invalid_eq. unfold MIPS_KSEG0, NUM_TLB, PAGE_SIZE in *. split; [lia|]. by rewrite Z.mod_add. }
  assert (forall j e, l !! j = Some e -> e.1 = TLBHI_INVALID i -> j = Z.to_nat i) as Hslot.
  { intros j e He Hx. pose proof (Hsl _ _ He ltac:(rewrite Hx; done)) as Heq. rewrite Hx, !tlb_invalid_eq in Heq. unfold PAGE_SIZE in Heq. lia. }
  split.
  - unfold l1. by rewrite length_insert.
  - apply NoDup_alt. intros j j' x Hj Hj'. rewrite list_lookup_fmap in Hj, Hj'.
    destruct (l1 !! j) as [e|] eqn:He; [|done]. destruct (l1 !! j') as [e'|] eqn:He'; [|done]. cbn in Hj, Hj'.
    injection Hj as <-. injection Hj' as Hx. apply Hl1 in He as [[-> ->]|[Hne He]]; apply Hl1 in He' as [[-> ->]|[Hne' He']]; [done| | |].
    + by destruct Hne'; eapply Hslot.
    + by destruct Hne; eapply Hslot.
    + eapply (NoDup_lookup l.*1); [done|rewrite list_lookup_fmap, He; done|rewrite list_lookup_fmap, He'; cbn; by rewrite Hx].
  - intros e [j He]%list_elem_of_lookup. apply Hl1 in He as [[-> ->]|[_ He]]; [|eapply Hpg, list_elem_of_lookup_2; eauto].
    cbn [fst]. split; [done|]. rewrite tlb_invalid_eq in *. unfold MIPS_KSEG0, PAGE_SIZE, NUM_TLB in *. lia.
  - intros e [j He]%list_elem_of_lookup Hv. apply Hl1 in He as [[-> ->]|[_ He]]; [cbn; lia|apply Hus; [by eapply list_elem_of_lookup_2|done]].
  - intros j e He Hr. apply Hl1 in He as [[-> ->]|[_ He]]; [cbn [fst]; by rewrite Z2Nat.id by lia|by apply Hsl].
Qed.

(** [as_activate] from the entry [i] on. *)
Lemma wp_tlb_clear n i s (Q : unit -> vm -> Prop) E :
  0 <= i -> i + Z.of_nat n = NUM_TLB -> tlb_ok (tlb s) ->
  (forall l, tlb_ok l -> (forall j, i <= Z.of_nat j -> forall e, l !! j = Some e -> ~ valid e) ->
    (forall j, Z.of_nat j < i -> l !! j = tlb s !! j) -> Q tt (set_tlb s l)) ->
  wp (tlb_clear n i) Q E s.
Proof.
  revert i s. induction n as [|n IH]; intros i s Hi Hn Ht HQ; cbn [tlb_clear]; pose proof (t_len _ Ht) as Hlen.
  { wp_base. replace s with (set_tlb s (tlb s)) by (by destruct s). apply HQ; [done| |done].
    intros j Hj e He. apply lookup_lt_Some in He. lia. }
  wp_base. unfold TLB_Write. repeat wp_base. eapply wp_lift; [apply setZ_ok; lia|]. wp_base.
  apply IH; [lia|lia|apply tlb_ok_clear; [done|lia]|]. cbn [tlb set_tlb]. intros l Hl Hinv Hkeep. apply HQ; [done| |].
  - intros j Hj e He. destruct (decide (Z.of_nat j = i)) as [<-|]; [|by eapply Hinv; [|done]; lia].
    rewrite Hkeep in He by lia. rewrite Nat2Z.id, list_lookup_insert_eq in He by lia. simplify_eq. intros Hv. by apply Hv.
  - intros j Hj. rewrite Hkeep by lia. apply list_lookup_insert_ne. lia.
Qed.

Lemma wp_as_activate p s (Q : unit -> vm -> Prop) E :
  tlb_ok (tlb s) -> (forall l, tlb_ok l -> (forall e, e ∈ l -> ~ valid e) -> Q tt (set_tlb s l)) -> wp (as_activate p) Q E s.
Proof.
  intros Ht HQ. unfold as_activate. wp_base. apply wp_vm_mach, wp_splx. cbn beta. wp_base.
  apply wp_tlb_clear; [done|done|done|]. intros l Hl Hinv _. wp_base. apply wp_vm_mach, wp_splx. wp_base.
  replace (set_mach _ _) with (set_tlb s l) by (by destruct s as [[]]). apply HQ; [done|].
  intros e [j He]%list_elem_of_lookup. by apply (Hinv j); [lia|].
Qed.

Lemma activated_inv s p l :
  vm_inv s -> p = NULL \/ is_Some (spaces s !! p) -> tlb_ok l -> (forall e, e ∈ l -> ~ valid e) -> vm_inv (set_tlb (set_vmspace s p) l).
Proof. intros [] Hp Hl Hv. split; try done. intros a _. by apply coherent_empty. Qed.

(** Entering a thread: the TLB has no entry of another process. *)
Lemma wp_switch_in p s (Q : unit -> vm -> Prop) E :
  vm_inv s -> p = NULL \/ is_Some (spaces s !! p) ->
  (forall s', vm_inv s' -> vmspace s' = p -> procs s' = procs s -> mach s' = mach s -> spaces s' = spaces s -> allocs s' = allocs s -> Q tt s') ->
  wp (switch_in p) Q E s.
Proof.
  intros Hi Hp' HQ. destruct (id Hi). unfold switch_in. repeat wp_base. case_bool_decide as Hp.
  - apply wp_as_activate; [done|]. intros l Hl Hinv. apply HQ; try done. by apply activated_inv.
  - assert (p = NULL) as -> by (destruct (decide (p = NULL)); tauto). wp_base. apply HQ; try done. split; try done.
    intros a Ha. cbn [spaces vmspace set_vmspace] in Ha. congruence.
Qed.

(** ** Regions *)

Definition base (v : Z) : Z := v - v mod PAGE_SIZE.
Definition npages (v sz : Z) : Z := (v mod PAGE_SIZE + sz + PAGE_SIZE - 1) / PAGE_SIZE.

(** A region of a program that lies in user memory. *)
Record segment_ok (v sz : Z) : Prop := {
  sg_base : PAGE_SIZE <= v;
  sg_size : 0 < sz;
  sg_top : v + sz <= MIPS_KSEG0
}.

Lemma segment_pages v sz : segment_ok v sz ->
  0 < base v <= v /\ base v mod PAGE_SIZE = 0 /\ 0 < npages v sz /\ v + sz <= base v + npages v sz * PAGE_SIZE <= MIPS_KSEG0.
Proof.
  intros [Hv Hs Ht]. unfold base, npages, PAGE_SIZE, MIPS_KSEG0 in *.
  pose proof (Z.div_mod v 4096 ltac:(lia)). pose proof (Z.mod_pos_bound v 4096 ltac:(lia)).
  set (x := v mod 4096 + sz + 4096 - 1). pose proof (Z.div_mod x 4096 ltac:(lia)). pose proof (Z.mod_pos_bound x 4096 ltac:(lia)).
  split_and!; try lia. replace (v - v mod 4096) with (v / 4096 * 4096) by lia. by rewrite Z.mod_mul.
Qed.

Lemma wp_as_define_region p v sz rd wr ex s a (Q : unit -> vm -> Prop) E :
  spaces s !! p = Some a -> segment_ok v sz ->
  (as_vbase1 a = 0 -> Q tt (set_spaces s (<[p := mkAs (base v) (as_pbase1 a) (npages v sz) (as_vbase2 a) (as_pbase2 a) (as_npages2 a) (as_stackpbase a)]> (spaces s)))) ->
  (as_vbase1 a ≠ 0 -> as_vbase2 a = 0 ->
    Q tt (set_spaces s (<[p := mkAs (as_vbase1 a) (as_pbase1 a) (as_npages1 a) (base v) (as_pbase2 a) (npages v sz) (as_stackpbase a)]> (spaces s)))) ->
  (as_vbase1 a ≠ 0 -> as_vbase2 a ≠ 0 -> E EUNIMP s) ->
  wp (as_define_region p v sz rd wr ex) Q E s.
Proof.
  intros Ha Hs H1 H2 H3. destruct (segment_pages v sz Hs) as (Hb & Hbm & Hn & Hc & Ht). destruct Hs as [Hv Hsz Htop].
  unfold as_define_region. rewrite low_spec. pose proof (Z.mod_pos_bound v PAGE_SIZE ltac:(done)).
  unfold PAGE_SIZE, MIPS_KSEG0 in *. rewrite (u32_small (sz + v mod 4096)), (u32_small (sz + v mod 4096 + 4096 - 1)) by lia.
  rewrite !frame_spec by lia. change (v - v mod PAGE_SIZE) with (base v).
  assert ((sz + v mod 4096 + 4096 - 1 - (sz + v mod 4096 + 4096 - 1) mod PAGE_SIZE) / 4096 = npages v sz) as ->.
  { unfold npages, PAGE_SIZE. replace (v mod 4096 + sz + 4096 - 1) with (sz + v mod 4096 + 4096 - 1) by lia.
    set (x := sz + v mod 4096 + 4096 - 1). pose proof (Z.div_mod x 4096 ltac:(lia)).
    replace (x - x mod 4096) with (x / 4096 * 4096) by lia. by rewrite Z.div_mul. }
  wp_base. apply (wp_get_as _ a); [done|]. case_bool_decide; [unfold put_as; wp_base; auto|].
  case_bool_decide; [unfold put_as; wp_base; auto|]. wp_base. auto.
Qed.

(** ** [as_prepare_load] *)

(** The space [a] with its three runs of pages from [f] on. *)
Definition placed (f : Z) (a : addrspace) : addrspace :=
  mkAs (as_vbase1 a) f (as_npages1 a) (as_vbase2 a) (f + as_npages1 a * PAGE_SIZE) (as_npages2 a)
    (f + as_npages1 a * PAGE_SIZE + as_npages2 a * PAGE_SIZE).

Definition total (a : addrspace) : Z := (as_npages1 a + as_npages2 a + DUMBVM_STACKPAGES) * PAGE_SIZE.

Lemma placed_loaded f a : layout_ok a -> 0 < f -> f mod PAGE_SIZE = 0 -> loaded (f + total a) (placed f a).
Proof.
  intros Hl Hf Hm. assert (forall r, vlo (placed f a) r = vlo a r /\ npg (placed f a) r = npg a r) as Heq by (by intros []).
  pose proof (lo_pages _ Hl R1) as H1. pose proof (lo_pages _ Hl R2) as H2. pose proof (lo_pages _ Hl RS) as H3. cbn [npg] in H1, H2, H3.
  split.
  - destruct Hl. split; intros r; destruct (Heq r) as [E1 E2]; rewrite ?E1, ?E2; auto.
  - intros []; cbn; unfold PAGE_SIZE; lia.
  - intros []; cbn; rewrite ?Z.mod_add by done; done.
  - intros []; cbn [plo npg placed as_pbase1 as_pbase2 as_stackpbase as_npages1 as_npages2]; unfold total, PAGE_SIZE; lia.
  - intros [] [] Hne; try done; unfold apart, frame; cbn [fst snd plo npg placed as_pbase1 as_pbase2 as_stackpbase as_npages1 as_npages2];
      unfold PAGE_SIZE; lia.
Qed.

Lemma frame_placed f a r : layout_ok a -> f <= (frame (placed f a) r).1.
Proof.
  intros Hl. pose proof (lo_pages _ Hl R1) as H1. pose proof (lo_pages _ Hl R2) as H2. cbn [npg] in H1, H2.
  unfold PAGE_SIZE in *. destruct r; cbn; unfold PAGE_SIZE; lia.
Qed.

(** What an operation on the space [p] leaves alone. *)
Record touched (p : Z) (a' : addrspace) (s s' : vm) : Prop := {
  tc_spaces : spaces s' = <[p := a']> (spaces s);
  tc_phys : phys s' = phys s;
  tc_vmspace : vmspace s' = vmspace s;
  tc_tlb : tlb s' = tlb s;
  tc_allocs : allocs s' = allocs s;
  tc_spl : curspl (mach s') = curspl (mach s)
}.

Lemma touched_inv s s' p a a' :
  vm_inv s -> spaces s !! p = Some a -> ~ is_loaded a -> touched p a' s s' -> ram_ok (mach s') -> firstpaddr (mach s) <= firstpaddr (mach s') ->
  (is_loaded a' -> loaded (firstpaddr (mach s')) a' /\
    forall q b r r', p ≠ q -> spaces s !! q = Some b -> is_loaded b -> apart (frame a' r) (frame b r')) ->
  vm_inv s'.
Proof.
  intros Hi Ha Hn [Hs Hp Hv Ht Hal _] Hr Hf Hla. assert (p ≠ NULL) as Hpn by (intros ->; pose proof (i_null _ Hi); congruence).
  destruct s' as [m' t' ph' sp' v' al']. cbn in *. subst. apply vm_inv_update; try done.
  intros Heq. apply coherent_empty. rewrite <- Heq in Ha. by eapply no_valid.
Qed.

Lemma wp_as_prepare_load p a s (Q : unit -> vm -> Prop) E :
  vm_inv s -> spaces s !! p = Some a -> layout_ok a -> as_pbase1 a = 0 -> as_pbase2 a = 0 -> as_stackpbase a = 0 ->
  (forall s', touched p (placed (firstpaddr (mach s)) a) s s' -> vm_inv s' ->
    firstpaddr (mach s') = firstpaddr (mach s) + total a -> Q tt s') ->
  (forall s' a', firstpaddr (mach s) + total a > lastpaddr (mach s) -> touched p a' s s' -> ~ is_loaded a' -> vm_inv s' -> E ENOMEM s') ->
  wp (as_prepare_load p) Q E s.
Proof.
  intros Hi Ha Hl H1 H2 H3 HQ HE. pose proof (i_ram _ Hi) as Hr. pose proof (r_first _ Hr) as Hf0.
  assert (~ is_loaded a) as Hna by (unfold is_loaded; lia).
  pose proof (lo_pages _ Hl R1) as L1. pose proof (lo_top _ Hl R1) as T1. pose proof (lo_pos _ Hl R1) as P1. cbn [npg vlo] in L1, T1, P1.
  pose proof (lo_pages _ Hl R2) as L2. pose proof (lo_top _ Hl R2) as T2. pose proof (lo_pos _ Hl R2) as P2. cbn [npg vlo] in L2, T2, P2.
  unfold PAGE_SIZE, MIPS_KSEG0 in *. unfold as_prepare_load, put_as. wp_base. apply (wp_get_as _ a); [done|].
  do 3 (wp_base; apply wp_massert; [by apply bool_decide_eq_true_2|]).
  wp_base. apply wp_vm_mach, wp_getppages; [done|lia|..].
  { intros Hshort. repeat wp_base. cbn [as_pbase1 set_pbase1]. rewrite bool_decide_eq_true_2 by done. wp_base.
    assert (touched p (set_pbase1 a 0) s (set_spaces (set_mach s (mach s)) (<[p := set_pbase1 a 0]> (spaces (set_mach s (mach s)))))) as Ht by (by split).
    eapply HE; [unfold total, DUMBVM_STACKPAGES, PAGE_SIZE in *; lia|exact Ht|done|]. eapply touched_inv; [done..|by destruct s| |done]. cbn. lia. }
  intros Hle1 m1 -> Hr1. repeat wp_base. cbn [as_pbase1 set_pbase1]. rewrite bool_decide_eq_false_2 by lia. wp_base.
  apply wp_vm_mach, wp_getppages; [done|cbn; lia|..]; cbn [as_npages2 set_pbase1 mach set_mach set_spaces firstpaddr lastpaddr].
  { intros Hshort. repeat wp_base. cbn [as_pbase2 set_pbase2]. rewrite bool_decide_eq_true_2 by done. wp_base.
    match goal with |- E _ ?s' => assert (touched p (set_pbase2 (set_pbase1 a (firstpaddr (mach s))) 0) s s') as Ht end.
    { split; cbn; try done. by rewrite insert_insert_eq. }
    eapply HE; [unfold total, DUMBVM_STACKPAGES, PAGE_SIZE in *; lia|exact Ht|done|]. eapply touched_inv; [done..|cbn; unfold PAGE_SIZE; lia|done]. }
  intros Hle2 m2 -> Hr2. repeat wp_base. cbn [as_pbase2 set_pbase2]. unfold PAGE_SIZE in *. rewrite bool_decide_eq_false_2 by lia. wp_base.
  apply wp_vm_mach, wp_getppages; [done|done|..]; cbn [as_npages2 set_pbase1 mach set_mach set_spaces firstpaddr lastpaddr].
  { intros Hshort. repeat wp_base. cbn [as_stackpbase set_stackpbase]. rewrite bool_decide_eq_true_2 by done. wp_base.
    match goal with |- E _ ?s' => assert (touched p (set_stackpbase (set_pbase2 (set_pbase1 a (firstpaddr (mach s))) (firstpaddr (mach s) + as_npages1 a * 4096)) 0) s s') as Ht end.
    { split; cbn; try done. by rewrite !insert_insert_eq. }
    eapply HE; [unfold total, DUMBVM_STACKPAGES, PAGE_SIZE in *; lia|exact Ht|unfold is_loaded; cbn; tauto|]. eapply touched_inv; [done..|cbn; lia|unfold is_loaded; cbn; tauto]. }
  intros Hle3 m3 -> Hr3. repeat wp_base. cbn [as_stackpbase set_stackpbase]. rewrite bool_decide_eq_false_2 by lia. wp_base.
  match goal with |- Q _ ?s' => assert (touched p (placed (firstpaddr (mach s)) a) s s') as Ht end.
  { split; cbn; try done. by rewrite !insert_insert_eq. }
  assert (firstpaddr (mach s) + total a = firstpaddr (mach s) + as_npages1 a * 4096 + as_npages2 a * 4096 + DUMBVM_STACKPAGES * PAGE_SIZE) as Htot
    by (unfold total, PAGE_SIZE, DUMBVM_STACKPAGES; lia).
  apply HQ; [exact Ht| |cbn; unfold PAGE_SIZE in *; lia]. eapply touched_inv; [done..|cbn [mach set_mach set_spaces firstpaddr]; unfold DUMBVM_STACKPAGES, PAGE_SIZE; lia|].
  intros _. split.
  - eapply loaded_mono; [|apply placed_loaded; [done|lia|apply Hr]]. cbn. unfold PAGE_SIZE in *. lia.
  - intros q b r r' Hq Hb Hbl. right. pose proof (ld_below _ _ (i_loaded _ Hi _ _ Hb Hbl) r'). pose proof (frame_placed (firstpaddr (mach s)) a r Hl).
    unfold frame in *. cbn [fst snd] in *. lia.
Qed.

(** ** [as_create] and [as_destroy] *)

Definition empty_as : addrspace := mkAs 0 0 0 0 0 0 0.

Lemma vm_inv_allocs s al : vm_inv s -> vm_inv (set_allocs s al).
Proof. by intros []. Qed.

Lemma fresh_inv s p a : vm_inv s -> p ≠ NULL -> spaces s !! p = None -> ~ is_loaded a -> vm_inv (set_spaces s (<[p := a]> (spaces s))).
Proof.
  intros Hi Hp Hn Ha. pose proof (i_ram _ Hi). apply vm_inv_update; try done.
  intros Heq. exfalso. destruct (i_cur _ Hi) as [Hc|Hc]; [congruence|]. rewrite Heq, Hn in Hc. by destruct Hc.
Qed.

Lemma wp_as_create s (Q : Z -> vm -> Prop) E :
  vm_inv s ->
  (forall al, vm_inv (set_allocs s al) -> Q NULL (set_allocs s al)) ->
  (forall p al, p ≠ NULL -> spaces s !! p = None -> touched p empty_as (set_allocs s al) (set_spaces (set_allocs s al) (<[p := empty_as]> (spaces s))) ->
    vm_inv (set_spaces (set_allocs s al) (<[p := empty_as]> (spaces s))) ->
    Q p (set_spaces (set_allocs s al) (<[p := empty_as]> (spaces s)))) ->
  wp as_create Q E s.
Proof.
  intros Hi HN HQ. unfold as_create, kmalloc, put_as. repeat wp_base. destruct (allocs s) as [|p al] eqn:Hal.
  { wp_base. rewrite bool_decide_eq_true_2 by done. wp_base. replace s with (set_allocs s []) by (by destruct s; cbn in *; subst).
    apply HN. by apply vm_inv_allocs. }
  repeat wp_base. case_bool_decide as Hin.
  { wp_base. rewrite bool_decide_eq_true_2 by done. wp_base. apply HN. by apply vm_inv_allocs. }
  wp_base. case_bool_decide as Hp; [subst p; wp_base; apply HN; by apply vm_inv_allocs|]. repeat wp_base.
  apply eq_None_not_Some in Hin. apply HQ; [done|done|done|]. apply (fresh_inv (set_allocs s al)); [by apply vm_inv_allocs|done|done|].
  unfold is_loaded. cbn. tauto.
Qed.

Lemma destroy_inv s p : vm_inv s -> vmspace s ≠ p -> vm_inv (set_spaces s (delete p (spaces s))).
Proof.
  intros [Hr Hn Hcur Hl Ha Ht Hc] Hp. split; cbn [mach tlb phys spaces vmspace set_spaces]; try done.
  - rewrite lookup_delete_None. auto.
  - destruct Hcur as [?|?]; [by left|right]. by rewrite lookup_delete_ne.
  - intros q a Hq. apply lookup_delete_Some in Hq as [_ Hq]. eauto.
  - intros q a r q' b r' Hq Hq'. apply lookup_delete_Some in Hq as [_ Hq]. apply lookup_delete_Some in Hq' as [_ Hq']. eauto.
  - intros a Hq. apply lookup_delete_Some in Hq as [_ Hq]. eauto.
Qed.

Lemma destroy_procs s p : procs (set_spaces s (delete p (spaces s))) = delete p (procs s).
Proof. unfold procs. cbn [spaces set_spaces phys]. by rewrite omap_delete. Qed.

(** ** [as_copy] *)

Lemma vm_inv_phys s ph : vm_inv s -> vm_inv (set_phys s ph).
Proof. by intros []. Qed.

Definition copied (dst src len : Z) (ph : Z -> Z) : Z -> Z :=
  fun x => if bool_decide (dst <= x < dst + len) then ph (src + (x - dst)) else ph x.

(** The three [memmove]s, into pages that start at [f], above those of [o]. *)
Definition duplicated (f : Z) (o : addrspace) (ph : Z -> Z) : Z -> Z :=
  copied (as_stackpbase (placed f o)) (as_stackpbase o) (DUMBVM_STACKPAGES * PAGE_SIZE)
    (copied (as_pbase2 (placed f o)) (as_pbase2 o) (as_npages2 o * PAGE_SIZE)
      (copied f (as_pbase1 o) (as_npages1 o * PAGE_SIZE) ph)).

Lemma duplicated_below f o ph x : layout_ok o -> x < f -> duplicated f o ph x = ph x.
Proof.
  intros Hl Hx. pose proof (frame_placed f o R2 Hl) as H2. pose proof (frame_placed f o RS Hl) as H3.
  cbn [frame plo fst] in H2, H3. unfold duplicated, copied. rewrite !bool_decide_eq_false_2 by lia. done.
Qed.

Lemma duplicated_view f o ph : loaded f o -> view (duplicated f o ph) (placed f o) = view ph o.
Proof.
  intros Hld. pose proof (ld_layout _ _ Hld) as Hl.
  pose proof (lo_pages _ Hl R1) as L1. pose proof (lo_pages _ Hl R2) as L2. cbn [npg] in L1, L2.
  pose proof (ld_below _ _ Hld R1) as B1. pose proof (ld_below _ _ Hld R2) as B2. pose proof (ld_below _ _ Hld RS) as B3.
  cbn [plo npg] in B1, B2, B3. apply map_eq. intros va. rewrite !view_lookup. unfold translate.
  change (region_of (placed f o) va) with (region_of o va). destruct (region_of o va) as [r|] eqn:Hr; [|done].
  apply region_of_in in Hr. unfold in_region in Hr. cbn [mbind option_bind fmap option_fmap option_map]. f_equal.
  unfold duplicated, copied, PAGE_SIZE, DUMBVM_STACKPAGES in *. cbn [placed as_pbase2 as_stackpbase].
  destruct r; cbn [vlo plo npg placed as_vbase1 as_vbase2 as_pbase1 as_pbase2 as_stackpbase] in *; unfold PAGE_SIZE, DUMBVM_STACKPAGES in *;
    repeat (case_bool_decide; [try (exfalso; lia)|try (exfalso; lia)]); f_equal; lia.
Qed.

Lemma duplicated_procs s old o new s' :
  vm_inv s -> spaces s !! old = Some o -> is_loaded o -> spaces s !! new = None ->
  spaces s' = <[new := placed (firstpaddr (mach s)) o]> (spaces s) -> phys s' = duplicated (firstpaddr (mach s)) o (phys s) ->
  procs s' = <[new := view (phys s) o]> (procs s).
Proof.
  intros Hi Ho Hlo Hnew Hs Hp. pose proof (i_loaded _ Hi _ _ Ho Hlo) as Hld. pose proof (r_first _ (i_ram _ Hi)).
  apply map_eq. intros q. unfold procs at 1. rewrite lookup_omap, Hs, Hp.
  destruct (decide (new = q)) as [<-|Hne]; [rewrite !lookup_insert_eq|rewrite !lookup_insert_ne by done].
  - cbn [mbind option_bind]. pose proof (placed_loaded (firstpaddr (mach s)) o (ld_layout _ _ Hld)) as Hpl.
    rewrite decide_True, duplicated_view; [done|done|]. pose proof (ld_pos _ _ (Hpl ltac:(lia) ltac:(apply (i_ram _ Hi))) RS) as Hpos.
    unfold is_loaded. cbn [plo] in Hpos. lia.
  - unfold procs. rewrite lookup_omap. destruct (spaces s !! q) as [b|] eqn:Hb; [|done]. cbn [mbind option_bind].
    case_decide as Hlb; [|done]. f_equal. apply view_ext. intros va pa Htr. apply duplicated_below; [apply Hld|].
    destruct (translate_frame _ _ _ Htr) as (r & _ & Hfr). pose proof (ld_below _ _ (i_loaded _ Hi _ _ Hb Hlb) r).
    unfold frame in Hfr. cbn [fst snd] in Hfr. lia.
Qed.

Lemma wp_as_copy old o s (Q : Z -> vm -> Prop) E :
  vm_inv s -> spaces s !! old = Some o -> is_loaded o ->
  (forall s', vm_inv s' -> procs s' = procs s -> spaces s' = spaces s -> vmspace s' = vmspace s -> E ENOMEM s') ->
  (forall new s', vm_inv s' -> new ≠ NULL -> spaces s !! new = None -> spaces s' = <[new := placed (firstpaddr (mach s)) o]> (spaces s) ->
    procs s' = <[new := view (phys s) o]> (procs s) -> vmspace s' = vmspace s -> Q new s') ->
  wp (as_copy old) Q E s.
Proof.
  intros Hi Ho Hlo HE HQ. pose proof (i_loaded _ Hi _ _ Ho Hlo) as Hld. pose proof (ld_layout _ _ Hld) as Hl.
  unfold as_copy. wp_base. apply wp_as_create; [done|..].
  { intros al Hi1. rewrite bool_decide_eq_true_2 by done. wp_base. by apply HE. }
  intros p al Hp Hnew _ _. rewrite bool_decide_eq_false_2 by done.
  wp_base. apply (wp_get_as _ o); [cbn; rewrite lookup_insert_ne; [done|congruence]|].
  wp_base. apply (wp_get_as _ empty_as); [apply lookup_insert_eq|]. wp_base. unfold put_as. wp_base.
  set (n := mkAs _ _ _ _ _ _ _). cbn [spaces set_spaces]. rewrite insert_insert_eq.
  set (s2 := set_spaces _ _). assert (vm_inv s2) as Hi2.
  { apply (fresh_inv (set_allocs s al)); [by apply vm_inv_allocs|done|done|]. unfold is_loaded. cbn. tauto. }
  do 2 wp_base. apply (wp_as_prepare_load p n); [done|apply lookup_insert_eq| |done..| |].
  { destruct Hl as [L1 L2 L3 L4]. split; intros r; [specialize (L1 r)|specialize (L2 r)|specialize (L3 r)|specialize (L4 r)]; by destruct r. }
  - intros s3 Ht Hi3 _. destruct Ht as [Hs3 Hp3 Hv3 _ _ _]. change (placed (firstpaddr (mach s2)) n) with (placed (firstpaddr (mach s)) o) in Hs3.
    cbn [spaces s2 set_spaces set_allocs] in Hs3. rewrite insert_insert_eq in Hs3.
    wp_base. apply (wp_get_as _ (placed (firstpaddr (mach s)) o)); [rewrite Hs3; apply lookup_insert_eq|].
    pose proof (placed_loaded (firstpaddr (mach s)) o Hl ltac:(apply (i_ram _ Hi)) ltac:(apply (i_ram _ Hi))) as Hpl.
    pose proof (ld_pos _ _ Hpl R1) as P1. pose proof (ld_pos _ _ Hpl R2) as P2. pose proof (ld_pos _ _ Hpl RS) as P3. cbn [plo] in P1, P2, P3.
    do 3 (wp_base; apply wp_massert; [apply bool_decide_eq_true_2; lia|]). unfold memmove. repeat wp_base.
    pose proof (lo_top _ Hl R1) as T1. pose proof (lo_top _ Hl R2) as T2. pose proof (lo_pos _ Hl R1). pose proof (lo_pos _ Hl R2).
    pose proof (lo_pages _ Hl R1). pose proof (lo_pages _ Hl R2). cbn [vlo npg] in *. unfold PAGE_SIZE, MIPS_KSEG0 in *.
    rewrite !u32_small by lia. apply HQ; [by do 3 apply vm_inv_phys|done|done|exact Hs3| |exact Hv3].
    apply (duplicated_procs s old); [done..|exact Hs3|]. cbn [phys set_phys]. by rewrite Hp3.
  - intros s3 a' _ Ht Hna Hi3. destruct Ht as [Hs3 Hp3 Hv3 _ _ _]. unfold as_destroy. wp_base. wp_base. wp_base.
    assert (delete p (spaces s3) = spaces s) as Hdel.
    { rewrite Hs3. cbn [spaces s2 set_spaces]. rewrite insert_insert_eq. by apply delete_insert_id. }
    rewrite Hdel. apply HE; [|by apply same_procs|done|exact Hv3]. rewrite <- Hdel. apply destroy_inv; [done|].
    rewrite Hv3. cbn. intros Heq. destruct (i_cur _ Hi) as [Hc|Hc]; [congruence|]. rewrite Heq, Hnew in Hc. by destruct Hc.
Qed.

(** ** Programs *)

Lemma view_dom ph a va : is_Some (view ph a !! va) <-> exists r, in_region a r va.
Proof.
  rewrite view_lookup, fmap_is_Some. unfold translate. split.
  - intros [pa Hpa]. destruct (region_of a va) as [r|] eqn:Hr; [|done]. apply region_of_in in Hr. eauto.
  - intros [r Hr]. destruct (region_of_is_Some _ _ _ Hr) as [r' ->]. cbn. eauto.
Qed.

Lemma procs_insert s s' p a :
  spaces s' = <[p := a]> (spaces s) -> phys s' = phys s -> is_loaded a -> procs s' = <[p := view (phys s) a]> (procs s).
Proof.
  intros Hs Hp Ha. unfold procs. rewrite Hs, Hp. apply omap_insert_Some. by rewrite decide_True.
Qed.

Lemma procs_delete s s' p a :
  spaces s' = <[p := a]> (spaces s) -> phys s' = phys s -> spaces s !! p = None -> delete p (procs s') = procs s.
Proof.
  intros Hs Hp Hn. unfold procs. rewrite <- omap_delete, Hs, Hp. by rewrite delete_insert_id.
Qed.

(** A space with the two segments of a program. *)
Definition program_as (v1 sz1 v2 sz2 : Z) : addrspace := mkAs (base v1) 0 (npages v1 sz1) (base v2) 0 (npages v2 sz2) 0.

Lemma program_layout v1 sz1 v2 sz2 : segment_ok v1 sz1 -> segment_ok v2 sz2 -> layout_ok (program_as v1 sz1 v2 sz2).
Proof.
  intros H1 H2. destruct (segment_pages _ _ H1) as (A1 & A2 & A3 & A4 & A5). destruct (segment_pages _ _ H2) as (B1 & B2 & B3 & B4 & B5).
  split; intros []; cbn [vlo npg program_as as_vbase1 as_vbase2 as_npages1 as_npages2]; try lia; done.
Qed.

(** The current space, still empty, gets the two segments. *)
Lemma wp_define_two p s v1 sz1 v2 sz2 r1 w1 x1 r2 w2 x2 (Q : unit -> vm -> Prop) E :
  vm_inv s -> spaces s !! p = Some empty_as -> segment_ok v1 sz1 -> segment_ok v2 sz2 ->
  (forall s', vm_inv s' -> touched p (program_as v1 sz1 v2 sz2) s s' -> mach s' = mach s -> Q tt s') ->
  wp (as_define_region p v1 sz1 r1 w1 x1) (fun _ s1 => wp (as_define_region p v2 sz2 r2 w2 x2) Q E s1) E s.
Proof.
  intros Hi Hp H1 H2 HQ. destruct (segment_pages _ _ H1) as (A1 & _).
  apply (wp_as_define_region _ _ _ _ _ _ _ empty_as); [done|done| |done|done]. intros _.
  eapply wp_as_define_region; [apply lookup_insert_eq|done| | |]; cbn [as_vbase1 as_vbase2 empty_as]; [lia| |lia].
  intros _ _. set (s2 := set_spaces _ _). assert (touched p (program_as v1 sz1 v2 sz2) s s2) as Ht by (split; [apply insert_insert_eq|done..]).
  apply HQ; [|done|done]. pose proof (i_ram _ Hi). eapply (touched_inv s s2 p empty_as); [done|done|unfold is_loaded; cbn; tauto|done|done|done|].
  unfold is_loaded. cbn. tauto.
Qed.
End DumbVmOps.
