(* ===== verification/DumbVmTheorems.v ===== *)
(** * Processes have memory of their own

    The virtual memory system against its two contracts: an access through the
    TLB, [mips_trap] and [vm_fault] is an access to the map of user memory that
    [UserMem] is about; and any sequence of program starts, forks, context
    switches, exits and accesses behaves as on separate memories. *)

From S2P Require Import Prelude UserMem Ram DumbVm DumbVmSpec DumbVmOps.

Module DumbVmTheorems.
Import Ram DumbVm DumbVmSpec DumbVmOps.

(** ** Stores *)

Definition upd (pa b : Z) (ph : Z -> Z) : Z -> Z := fun x => if bool_decide (x = pa) then b else ph x.

Lemma view_upd first a va pa b ph : loaded first a -> translate a va = Some pa -> view (upd pa b ph) a = <[va := b]> (view ph a).
Proof.
  intros Hl Ht. apply map_eq. intros va'. rewrite view_lookup. destruct (decide (va = va')) as [<-|Hne].
  - rewrite lookup_insert_eq, Ht. cbn. unfold upd. by rewrite bool_decide_eq_true_2.
  - rewrite lookup_insert_ne, view_lookup by done. destruct (translate a va') as [pa'|] eqn:Ht'; [|done]. cbn. unfold upd.
    rewrite bool_decide_eq_false_2; [done|]. intros ->. by eapply Hne, translate_inj.
Qed.

Lemma view_upd_other s p a q b va pa x :
  vm_inv s -> spaces s !! p = Some a -> spaces s !! q = Some b -> is_loaded a -> is_loaded b -> p ≠ q -> translate a va = Some pa ->
  view (upd pa x (phys s)) b = view (phys s) b.
Proof.
  intros Hi Ha Hb Hla Hlb Hne Ht. apply view_ext. intros va' pa' Ht'. unfold upd. rewrite bool_decide_eq_false_2; [done|].
  intros ->. destruct (translate_frame _ _ _ Ht) as (r & _ & Hf). destruct (translate_frame _ _ _ Ht') as (r' & _ & Hf').
  pose proof (i_apart _ Hi p a r q b r' Ha Hb Hla Hlb Hne) as Hap. unfold apart in Hap. lia.
Qed.

Lemma procs_upd s p a va pa b :
  vm_inv s -> spaces s !! p = Some a -> is_loaded a -> translate a va = Some pa ->
  procs (set_phys s (upd pa b (phys s))) = <[p := <[va := b]> (view (phys s) a)]> (procs s).
Proof.
  intros Hi Ha Hla Ht. apply map_eq. intros q. unfold procs at 1. rewrite lookup_omap. cbn [spaces phys set_phys].
  destruct (decide (p = q)) as [<-|Hne]; [rewrite lookup_insert_eq|rewrite lookup_insert_ne by done; unfold procs; rewrite lookup_omap].
  - rewrite Ha. cbn [mbind option_bind]. rewrite decide_True by done. f_equal. eapply view_upd; [by eapply i_loaded|done].
  - destruct (spaces s !! q) as [c|] eqn:Hc; [|done]. cbn [mbind option_bind]. case_decide; [|done]. f_equal.
    by eapply (view_upd_other s p a q c).
Qed.

Lemma load_run s a iskern bad va :
  vm_inv s -> spaces s !! vmspace s = Some a -> is_loaded a -> fits_tlb a -> 0 <= va < MIPS_KSEG0 ->
  match view (phys s) a !! va with
  | Some b => exists s', load iskern bad va s = Done (inr (Some b), s') /\ vm_inv s' /\ same_memory s s'
  | None => load iskern bad va s = if iskern && bad then Done (inr None, s) else Panic
  end.
Proof.
  intros Hi Ha Hl Hf Hva. pose proof (access_run s a iskern bad Load va Hi Ha Hl Hf Hva) as Hr. rewrite view_lookup.
  unfold load, mbind, M_bind. destruct (translate a va) as [pa|]; cbn [fmap option_fmap option_map].
  - destruct Hr as (s' & -> & Hi' & Hs). exists s'. split; [|done]. cbn. by rewrite (proj1 (proj2 Hs)).
  - rewrite Hr. by destruct (iskern && bad).
Qed.

Lemma store_run s a iskern bad va b :
  vm_inv s -> spaces s !! vmspace s = Some a -> is_loaded a -> fits_tlb a -> 0 <= va < MIPS_KSEG0 ->
  match view (phys s) a !! va with
  | Some _ => exists s' pa, store iskern bad va b s = Done (inr (Some tt), set_phys s' (upd pa b (phys s'))) /\ vm_inv s' /\
      same_memory s s' /\ translate a va = Some pa
  | None => store iskern bad va b s = if iskern && bad then Done (inr None, s) else Panic
  end.
Proof.
  intros Hi Ha Hl Hf Hva. pose proof (access_run s a iskern bad Store va Hi Ha Hl Hf Hva) as Hr. rewrite view_lookup.
  unfold store, mbind, M_bind. destruct (translate a va) as [pa|]; cbn [fmap option_fmap option_map].
  - destruct Hr as (s' & -> & Hi' & Hs). exists s', pa. done.
  - rewrite Hr. by destruct (iskern && bad).
Qed.

(** ** The abstract machine *)

Inductive vm_op :=
  | Run (v1 sz1 v2 sz2 : Z)        (* a new thread runs a program with two segments *)
  | Fork                           (* [as_copy] of the current space *)
  | Switch (p : Z)
  | Exit
  | Read (va : Z)
  | Write (va b : Z).

Definition op_ok (op : vm_op) : Prop :=
  match op with
  | Run v1 sz1 v2 sz2 => segment_ok v1 sz1 /\ segment_ok v2 sz2 /\ npages v1 sz1 + npages v2 sz2 + DUMBVM_STACKPAGES <= NUM_TLB
  | Read va => 0 <= va < MIPS_KSEG0
  | Write va b => 0 <= va < MIPS_KSEG0
  | _ => True
  end.

(** The memory of each process, and the current one; NULL is a kernel thread. *)
Definition pstate : Type := gmap Z (gmap Z Z) * Z.

Definition program_memory (v1 sz1 v2 sz2 : Z) (va : Z) : Prop :=
  base v1 <= va < base v1 + npages v1 sz1 * PAGE_SIZE \/ base v2 <= va < base v2 + npages v2 sz2 * PAGE_SIZE \/
  USERSTACK - DUMBVM_STACKPAGES * PAGE_SIZE <= va < USERSTACK.

Inductive pstep : vm_op -> pstate -> option Z -> pstate -> Prop :=
  | ps_run v1 sz1 v2 sz2 P c p m : P !! p = None -> p ≠ NULL -> (forall va, is_Some (m !! va) <-> program_memory v1 sz1 v2 sz2 va) ->
      pstep (Run v1 sz1 v2 sz2) (P, c) (Some p) (<[p := m]> P, p)
  | ps_norun v1 sz1 v2 sz2 P c : pstep (Run v1 sz1 v2 sz2) (P, c) None (P, NULL)
  | ps_fork P c p m : P !! c = Some m -> P !! p = None -> p ≠ NULL -> pstep Fork (P, c) (Some p) (<[p := m]> P, c)
  | ps_nofork P c : pstep Fork (P, c) None (P, c)
  | ps_switch P c p : p = NULL \/ is_Some (P !! p) -> pstep (Switch p) (P, c) None (P, p)
  | ps_noswitch P c p : P !! p = None -> pstep (Switch p) (P, c) None (P, c)
  | ps_exit P c : pstep Exit (P, c) None (delete c P, NULL)
  | ps_read va P c : pstep (Read va) (P, c) (P !! c ≫= fun m => m !! va) (P, c)
  | ps_write va b P c m : P !! c = Some m -> is_Some (m !! va) -> pstep (Write va b) (P, c) (Some 0) (<[c := <[va := b]> m]> P, c)
  | ps_nowrite va b P c : (P !! c ≫= fun m => m !! va) = None -> pstep (Write va b) (P, c) None (P, c).

Inductive prun : list vm_op -> pstate -> list (option Z) -> pstate -> Prop :=
  | pr_nil x : prun [] x [] x
  | pr_cons op ops x o y os z : pstep op x o y -> prun ops y os z -> prun (op :: ops) x (o :: os) z.

(** ** The kernel's machine *)

(** [runprogram] with the regions [load_elf] defines. *)
Definition start_program (v1 sz1 v2 sz2 : Z) : VM Z :=
  s ← get;
  _ ← massert (bool_decide (vmspace s = NULL));
  p ← as_create;
  _ ← modify (fun s => set_vmspace s p);
  if bool_decide (p = NULL) then fail ENOMEM else
  _ ← as_activate p;
  _ ← as_define_region p v1 sz1 1 1 1;
  _ ← as_define_region p v2 sz2 1 1 1;
  _ ← as_prepare_load p;
  _ ← as_complete_load p;
  _ ← as_define_stack p;
  mret p.

Definition vm_step (op : vm_op) : VM (option Z) :=
  s ← get;
  match op with
  | Run v1 sz1 v2 sz2 =>
      _ ← switch_in NULL;
      r ← try (start_program v1 sz1 v2 sz2);
      match r with
      | inr p => mret (Some p)
      | inl _ => _ ← exit_space; mret None
      end
  | Fork =>
      if bool_decide (vmspace s = NULL) then mret None else
      r ← try (as_copy (vmspace s));
      mret (match r with inr p => Some p | inl _ => None end)
  | Switch p =>
      if bool_decide (p = NULL) || bool_decide (is_Some (spaces s !! p)) then _ ← switch_in p; mret None else mret None
  | Exit => _ ← exit_space; mret None
  | Read va => if bool_decide (vmspace s = NULL) then mret None else load true true va
  | Write va b =>
      if bool_decide (vmspace s = NULL) then mret None else
      r ← store true true va b;
      mret ((fun _ => 0) <$> r)
  end.

Fixpoint vm_run (ops : list vm_op) : VM (list (option Z)) :=
  match ops with
  | [] => mret []
  | op :: ops => o ← vm_step op; os ← vm_run ops; mret (o :: os)
  end.

(** Between operations every space is loaded and has no more pages than the TLB
    has entries. *)
Definition all_loaded (s : vm) : Prop := forall p a, spaces s !! p = Some a -> is_loaded a /\ fits_tlb a.
Definition settled (s : vm) : Prop := vm_inv s /\ all_loaded s.

Lemma settled_procs s p : settled s -> is_Some (procs s !! p) <-> is_Some (spaces s !! p).
Proof.
  intros [_ Ha]. split.
  - intros [m Hm]. apply procs_Some in Hm as (a & -> & _). eauto.
  - intros [a Hp]. destruct (Ha _ _ Hp) as [Hl _]. rewrite (procs_lookup _ _ a); eauto.
Qed.

Lemma settled_cur s : settled s -> vmspace s ≠ NULL -> exists a, spaces s !! vmspace s = Some a /\ is_loaded a /\ fits_tlb a.
Proof. intros [Hi Ha] Hn. destruct (i_cur _ Hi) as [?|[a Hp]]; [done|]. destruct (Ha _ _ Hp). eauto. Qed.

Lemma procs_NULL s : vm_inv s -> procs s !! NULL = None.
Proof. intros Hi. unfold procs. by rewrite lookup_omap, (i_null _ Hi). Qed.

Lemma wp_switch s p E : settled s ->
  wp (vm_step (Switch p)) (fun o s' => settled s' /\ pstep (Switch p) (procs s, vmspace s) o (procs s', vmspace s')) E s.
Proof.
  intros Hs. unfold vm_step. repeat wp_base. cbn match. destruct (bool_decide (p = NULL) || bool_decide (is_Some (spaces s !! p))) eqn:Hb.
  - wp_base. assert (p = NULL \/ is_Some (spaces s !! p)) as Hp by (apply orb_true_iff in Hb as [Hb|Hb]; apply bool_decide_eq_true in Hb; auto).
    apply wp_switch_in; [apply Hs|done|]. intros s' Hi' Hv Hpr Hm Hsp _. wp_base. split.
    + split; [done|]. intros q a. rewrite Hsp. apply Hs.
    + rewrite Hpr, Hv. constructor. destruct Hp; [by left|right]. by apply settled_procs.
  - wp_base. split; [done|]. apply orb_false_iff in Hb as [_ Hb]. apply bool_decide_eq_false in Hb. constructor.
    apply eq_None_not_Some. by rewrite settled_procs.
Qed.

Lemma wp_exit_space s (Q : unit -> vm -> Prop) E : vm_inv s ->
  (forall s', vm_inv s' -> vmspace s' = NULL -> spaces s' = delete (vmspace s) (spaces s) -> procs s' = delete (vmspace s) (procs s) -> Q tt s') ->
  wp exit_space Q E s.
Proof.
  intros Hi HQ. unfold exit_space. repeat wp_base. case_bool_decide as Hn.
  - wp_base. rewrite Hn in HQ. apply HQ; [done|done| |].
    + by rewrite delete_id by apply Hi.
    + by rewrite delete_id by (by apply procs_NULL).
  - unfold as_destroy. repeat wp_base. apply HQ; [|done|done|].
    + apply (destroy_inv (set_vmspace s NULL)); [|done]. destruct Hi. split; try done; [by left|].
      intros a Ha. cbn [spaces vmspace set_vmspace] in Ha. congruence.
    + apply (destroy_procs (set_vmspace s NULL)).
Qed.

Lemma wp_exit s E : settled s -> wp (vm_step Exit) (fun o s' => settled s' /\ pstep Exit (procs s, vmspace s) o (procs s', vmspace s')) E s.
Proof.
  intros Hs. unfold vm_step. repeat wp_base. cbn match. apply wp_exit_space; [apply Hs|]. intros s' Hi' Hv Hsp Hpr. wp_base. split.
  - split; [done|]. intros q a. rewrite Hsp. intros Hq. apply lookup_delete_Some in Hq as [_ Hq]. by apply Hs in Hq.
  - rewrite Hpr, Hv. constructor.
Qed.

Lemma wp_fork s E : settled s -> wp (vm_step Fork) (fun o s' => settled s' /\ pstep Fork (procs s, vmspace s) o (procs s', vmspace s')) E s.
Proof.
  intros Hs. unfold vm_step. repeat wp_base. cbn match. case_bool_decide as Hn; [wp_base; split; [done|constructor]|].
  destruct (settled_cur _ Hs Hn) as (a & Ha & Hl & Hf). do 2 wp_base. destruct (id Hs) as [Hi Hall].
  apply (wp_as_copy _ a); [done|done|done|..].
  - intros s' Hi' Hpr Hsp Hv. wp_base. split; [split; [done|by unfold all_loaded; rewrite Hsp]|]. rewrite Hpr, Hv. constructor.
  - intros new s' Hi' Hnew Hfresh Hsp Hpr Hv. wp_base. split.
    + split; [done|]. intros q b Hq. rewrite Hsp in Hq. apply lookup_insert_Some in Hq as [[<- <-]|[_ Hq]]; [|by apply (Hall q)].
      split; [|exact Hf]. pose proof (ld_layout _ _ (i_loaded _ Hi _ _ Ha Hl)) as Hlay. pose proof (r_first _ (i_ram _ Hi)).
      pose proof (frame_placed (firstpaddr (mach s)) a RS Hlay) as Hfp. unfold frame in Hfp. cbn [fst plo] in Hfp. unfold is_loaded. lia.
    + rewrite Hpr, Hv. constructor; [by apply procs_lookup| |done]. apply eq_None_not_Some. rewrite settled_procs, Hfresh by done; apply is_Some_None.
Qed.

Lemma wp_read s va E : settled s -> 0 <= va < MIPS_KSEG0 ->
  wp (vm_step (Read va)) (fun o s' => settled s' /\ pstep (Read va) (procs s, vmspace s) o (procs s', vmspace s')) E s.
Proof.
  intros Hs Hva. unfold vm_step. repeat wp_base. cbn match. destruct (id Hs) as [Hi Hall]. case_bool_decide as Hn.
  - wp_base. split; [done|]. rewrite Hn. pose proof (ps_read va (procs s) NULL) as Hp. by rewrite (procs_NULL _ Hi) in Hp.
  - destruct (settled_cur _ Hs Hn) as (a & Ha & Hl & Hf). pose proof (ps_read va (procs s) (vmspace s)) as Hp.
    rewrite (procs_lookup _ _ a) in Hp by done. cbn [mbind option_bind] in Hp.
    pose proof (load_run s a true true va Hi Ha Hl Hf Hva) as Hr. unfold wp. destruct (view (phys s) a !! va) as [b|].
    + destruct Hr as (s' & -> & Hi' & Hm). destruct Hm as (_ & Hph & Hsp & Hv & _).
      split; [split; [done|by unfold all_loaded; rewrite Hsp]|]. by rewrite (same_procs s s'), Hv.
    + rewrite Hr. done.
Qed.

Lemma wp_write s va b E : settled s -> 0 <= va < MIPS_KSEG0 ->
  wp (vm_step (Write va b)) (fun o s' => settled s' /\ pstep (Write va b) (procs s, vmspace s) o (procs s', vmspace s')) E s.
Proof.
  intros Hs Hva. unfold vm_step. repeat wp_base. cbn match. destruct (id Hs) as [Hi Hall]. case_bool_decide as Hn.
  - wp_base. split; [done|]. rewrite Hn. apply ps_nowrite. by rewrite (procs_NULL _ Hi).
  - destruct (settled_cur _ Hs Hn) as (a & Ha & Hl & Hf). pose proof (procs_lookup _ _ _ Ha Hl) as Hp.
    pose proof (store_run s a true true va b Hi Ha Hl Hf Hva) as Hr. wp_base. unfold wp at 1.
    destruct (view (phys s) a !! va) as [x|] eqn:Hx.
    + destruct Hr as (s' & pa & -> & Hi' & Hm & Ht). destruct Hm as (_ & Hph & Hsp & Hv & _). wp_base. split.
      * split; [by apply vm_inv_phys|]. unfold all_loaded. cbn [spaces set_phys]. by rewrite Hsp.
      * rewrite (procs_upd s' (vmspace s) a va pa b); [|done|by rewrite Hsp|done|done].
        rewrite Hph, (same_procs s s') by done. cbn [vmspace set_phys]. rewrite Hv. constructor; [done|by rewrite Hx].
    + rewrite Hr. cbn [andb]. wp_base. split; [done|]. apply ps_nowrite. by rewrite Hp.
Qed.

(** The part of [start_program] after [as_create] gave [p]: the memory of the
    other processes is as it was, and the new one is current. *)
Lemma wp_start_tail p s v1 sz1 v2 sz2 (Q : Z -> vm -> Prop) (E : Z -> vm -> Prop) :
  vm_inv s -> spaces s !! p = Some empty_as -> p ≠ NULL -> vmspace s = NULL -> segment_ok v1 sz1 -> segment_ok v2 sz2 ->
  (forall s', vm_inv s' -> vmspace s' = p -> spaces s' = <[p := placed (firstpaddr (mach s)) (program_as v1 sz1 v2 sz2)]> (spaces s) ->
    phys s' = phys s -> Q p s') ->
  (forall s' a, vm_inv s' -> vmspace s' = p -> spaces s' = <[p := a]> (spaces s) -> phys s' = phys s -> E ENOMEM s') ->
  wp (_ ← modify (fun s => set_vmspace s p);
      if bool_decide (p = NULL) then fail ENOMEM else
      _ ← as_activate p;
      _ ← as_define_region p v1 sz1 1 1 1;
      _ ← as_define_region p v2 sz2 1 1 1;
      _ ← as_prepare_load p;
      _ ← as_complete_load p;
      _ ← as_define_stack p;
      mret p) Q E s.
Proof.
  intros Hi Hp Hn Hv H1 H2 HQ HE. destruct (segment_pages _ _ H1) as (A1 & _). do 2 wp_base. rewrite bool_decide_eq_false_2 by done.
  wp_base. apply wp_as_activate; [apply Hi|]. intros l Hl Hno. set (s1 := set_tlb _ l).
  assert (vm_inv s1) as Hi1 by (apply activated_inv; [done|right; by rewrite Hp|done|done]).
  wp_base. eapply wp_mono; [apply (wp_define_two p s1 v1 sz1 v2 sz2 1 1 1 1 1 1 (fun _ s2 => vm_inv s2 /\ touched p (program_as v1 sz1 v2 sz2) s1 s2 /\ mach s2 = mach s)); auto| |done].
  cbn beta. intros _ s1' Hd. wp_base. eapply wp_mono; [exact Hd| |done]. cbn beta. intros _ s2 (Hi2 & Ht2 & Hm2).
  assert (spaces s2 = <[p := program_as v1 sz1 v2 sz2]> (spaces s)) as Hsp2 by (apply Ht2).
  assert (phys s2 = phys s /\ vmspace s2 = p) as [Hph2 Hvs2] by (by destruct Ht2).
  wp_base. apply (wp_as_prepare_load p (program_as v1 sz1 v2 sz2)); [done|rewrite Hsp2; apply lookup_insert_eq|by apply program_layout|done..| |].
  - intros s3 [Hsp Hph Hvs _ _ _] Hi3 _. rewrite Hsp2, insert_insert_eq, Hm2 in Hsp. unfold as_complete_load, as_define_stack. repeat wp_base.
    eapply wp_get_as; [rewrite Hsp; apply lookup_insert_eq|]. wp_base. apply wp_massert.
    + apply bool_decide_eq_true_2. pose proof (frame_placed (firstpaddr (mach s)) _ RS (program_layout _ _ _ _ H1 H2)) as Hfp.
      pose proof (r_first _ (i_ram _ Hi)). unfold frame in Hfp. cbn [fst plo] in Hfp. lia.
    + repeat wp_base. apply HQ; [done|congruence|done|congruence].
  - intros s3 a' _ [Hsp Hph Hvs _ _ _] _ Hi3. rewrite Hsp2, insert_insert_eq in Hsp. eapply HE; [done|congruence|done|congruence].
Qed.

Lemma wp_run s v1 sz1 v2 sz2 E : settled s -> op_ok (Run v1 sz1 v2 sz2) ->
  wp (vm_step (Run v1 sz1 v2 sz2)) (fun o s' => settled s' /\ pstep (Run v1 sz1 v2 sz2) (procs s, vmspace s) o (procs s', vmspace s')) E s.
Proof.
  intros [Hi Hall] (H1 & H2 & H3). unfold vm_step. do 2 wp_base. cbn match. wp_base. apply wp_switch_in; [done|by left|].
  intros s1 Hi1 Hv1 Hpr1 Hm1 Hsp1 _. do 2 wp_base. unfold start_program. do 3 wp_base. apply wp_massert; [by apply bool_decide_eq_true_2|].
  wp_base. apply wp_as_create; [done|..].
  { intros al Hi2. do 2 wp_base. rewrite bool_decide_eq_true_2 by done. wp_base. wp_base. unfold exit_space. do 2 wp_base.
    rewrite bool_decide_eq_true_2 by done. repeat wp_base. split.
    - split; [|by unfold all_loaded; cbn; rewrite Hsp1]. replace (set_vmspace _ _) with (set_allocs s1 al); [done|].
      destruct s1; cbn in *; by subst.
    - rewrite (same_procs s1 (set_vmspace (set_allocs s1 al) NULL)) by done. rewrite Hpr1. constructor. }
  intros p al Hp Hfresh _ Hi2. set (s2 := set_spaces _ _) in *. rewrite Hsp1 in Hfresh.
  assert (forall s', phys s' = phys s2 -> forall a, spaces s' = <[p := a]> (spaces s2) -> spaces s' = <[p := a]> (spaces s1) /\ phys s' = phys s1) as Hback.
  { intros s' Hph a Ha. split; [|done]. rewrite Ha. apply insert_insert_eq. }
  apply wp_start_tail; [done|apply lookup_insert_eq|done|done|done|done|..].
  - intros s3 Hi3 Hv3 Hsp3 Hph3. destruct (Hback _ Hph3 _ Hsp3) as [Hsp Hph]. cbn match. wp_base.
    pose proof (program_layout v1 sz1 v2 sz2 H1 H2) as Hlay.
    change (firstpaddr (mach s2)) with (firstpaddr (mach s1)) in *. set (a := placed _ _) in *.
    assert (is_loaded a) as Hla.
    { pose proof (frame_placed (firstpaddr (mach s1)) _ RS Hlay) as Hfp. pose proof (r_first _ (i_ram _ Hi1)).
      unfold frame in Hfp. cbn [fst plo] in Hfp. unfold is_loaded, a. lia. }
    split.
    + split; [done|]. intros q b. rewrite Hsp, Hsp1. intros [[<- <-]|[_ Hq]]%lookup_insert_Some; [|by apply (Hall q)]. split; [done|exact H3].
    + rewrite (procs_insert s1 s3 p a Hsp Hph Hla), Hv3, Hpr1. constructor; [|done|].
      * apply eq_None_not_Some. rewrite (settled_procs s) by done. rewrite Hfresh. apply is_Some_None.
      * intros va. rewrite view_dom. unfold program_memory, in_region. split.
        -- intros [[] Hr]; cbn in Hr; unfold USERSTACK, MIPS_KSEG0, DUMBVM_STACKPAGES, PAGE_SIZE in *; lia.
        -- intros [Hr|[Hr|Hr]]; [by exists R1|by exists R2|exists RS]. cbn. unfold USERSTACK, MIPS_KSEG0, DUMBVM_STACKPAGES, PAGE_SIZE in *. lia.
  - intros s3 a Hi3 Hv3 Hsp3 Hph3. destruct (Hback _ Hph3 _ Hsp3) as [Hsp Hph]. cbn match. wp_base.
    apply wp_exit_space; [done|]. intros s4 Hi4 Hv4 Hsp4 Hpr4. wp_base. rewrite Hv3 in *. split.
    + split; [done|]. rewrite Hsp, Hsp1, delete_insert_id in Hsp4 by done. by unfold all_loaded; rewrite Hsp4.
    + rewrite Hpr4, Hv4. rewrite (procs_delete s1 s3 p a) by (done || by rewrite Hsp1). rewrite Hpr1. constructor.
Qed.

(** ** Runs *)

Lemma wp_vm_step s op E : settled s -> op_ok op ->
  wp (vm_step op) (fun o s' => settled s' /\ pstep op (procs s, vmspace s) o (procs s', vmspace s')) E s.
Proof.
  intros Hs Hop. destruct op as [v1 sz1 v2 sz2| |p| |va|va b]; cbn [op_ok] in Hop.
  - by apply wp_run.
  - by apply wp_fork.
  - by apply wp_switch.
  - by apply wp_exit.
  - by apply wp_read.
  - by apply wp_write.
Qed.

Lemma wp_vm_run ops : forall s E, settled s -> Forall op_ok ops ->
  wp (vm_run ops) (fun os s' => settled s' /\ prun ops (procs s, vmspace s) os (procs s', vmspace s')) E s.
Proof.
  induction ops as [|op ops IH]; intros s E Hs Hops; cbn [vm_run]; [wp_base; split; [done|constructor]|].
  apply Forall_cons in Hops as [Hop Hops]. wp_base. eapply wp_mono; [by apply wp_vm_step| |done]. cbn beta. intros o s1 [Hs1 Hp].
  wp_base. eapply wp_mono; [by apply IH| |done]. cbn beta. intros os s2 [Hs2 Hr]. wp_base. split; [done|by econstructor].
Qed.

(** The TLB after [TLB_Reset], and an empty system.  [TLB_Reset] skips addresses
    the TLB happens to hold already; here it held none of them. *)
Definition reset_tlb : list (Z * Z) := (fun i => (2164260864 + i * PAGE_SIZE, 0)) <$> seqZ 0 64.
Definition boot_vm (first last : Z) (ph : Z -> Z) (al : list Z) : vm := mkVm (mkMachine 0 first last) reset_tlb ph ∅ NULL al.

Lemma reset_tlb_ok : tlb_ok reset_tlb.
Proof.
  assert (forall e, e ∈ reset_tlb -> exists i, 0 <= i < 64 /\ e = (2164260864 + i * PAGE_SIZE, 0)) as Hin.
  { intros e (i & -> & Hi%elem_of_seqZ)%list_elem_of_fmap. exists i. split; [lia|done]. }
  split.
  - done.
  - unfold reset_tlb. rewrite <- list_fmap_compose. apply NoDup_fmap_2_strong; [|apply NoDup_seqZ].
    intros x y _ _ Hxy. cbn in Hxy. unfold PAGE_SIZE in Hxy. lia.
  - intros e (i & Hi & ->)%Hin. cbn [fst]. split; [|unfold PAGE_SIZE; lia]. by rewrite Z.mod_add.
  - intros e (i & Hi & ->)%Hin _. cbn [fst]. unfold MIPS_KSEG0, PAGE_SIZE. lia.
  - intros i e He Hr. exfalso. apply list_elem_of_lookup_2 in He. apply Hin in He as (j & Hj & ->). cbn [fst] in Hr.
    rewrite tlb_invalid_eq in Hr. unfold MIPS_KSEG0, NUM_TLB, PAGE_SIZE in *. lia.
Qed.

Lemma boot_settled first last ph al :
  0 < first <= last -> last <= 508 * 1024 * 1024 -> first mod PAGE_SIZE = 0 -> settled (boot_vm first last ph al).
Proof.
  intros Hf Hl Ha. split; [|by intros p a]. split; try done; [by left|apply reset_tlb_ok].
Qed.

Section theorems.
Context (first last : Z) (Hfirst : 0 < first <= last) (Hlast : last <= 508 * 1024 * 1024) (Halign : first mod PAGE_SIZE = 0).

(** C7. Processes have separate memories.  From boot, with any physical memory,
    any sequence of program starts, forks, context switches, exits and accesses
    (with programs of at most 64 pages) runs without a panic, and every access
    through the TLB and [vm_fault] reads or writes the current process's own
    memory: a write is seen by that process alone, a fork copies the memory,
    and an access outside the process's regions is refused. *)
Theorem vm_refines_processes ops ph al :
  Forall op_ok ops ->
  exists os s, vm_run ops (boot_vm first last ph al) = Done (inr os, s) /\ prun ops (∅, NULL) os (procs s, vmspace s).
Proof.
  intros Hops. pose proof (wp_vm_run ops (boot_vm first last ph al) (fun _ _ => False) (boot_settled _ _ _ _ Hfirst Hlast Halign) Hops) as Hwp.
  unfold wp in Hwp. destruct (vm_run ops (boot_vm first last ph al)) as [[[e|os] s]| |]; try done.
  exists os, s. split; [done|]. apply Hwp.
Qed.

(** C18. In every state that such a sequence reaches, no two TLB entries match the
    same page, an entry that is not valid matches no user page, and every valid
    entry is a translation of the current process. *)
Theorem tlb_invariant ops ph al os s :
  Forall op_ok ops -> vm_run ops (boot_vm first last ph al) = Done (inr os, s) ->
  tlb_ok (tlb s) /\ (forall a, spaces s !! vmspace s = Some a -> coherent (tlb s) a).
Proof.
  intros Hops Hrun. pose proof (wp_vm_run ops (boot_vm first last ph al) (fun _ _ => False) (boot_settled _ _ _ _ Hfirst Hlast Halign) Hops) as Hwp.
  unfold wp in Hwp. rewrite Hrun in Hwp. destruct Hwp as [[Hi _] _]. split; apply Hi.
Qed.
End theorems.

(** C22. An access by the kernel to a user address, through the TLB, [mips_trap] and
    [vm_fault], is an access to the map of the addresses of the current process
    as [copyin] and [copyout] see it: it gives the byte, or jumps to [copyfail]
    when [pcb_badfaultfunc] is set, or panics. *)
Theorem vm_refines_umem s a bad va b :
  settled s -> spaces s !! vmspace s = Some a -> 0 <= va < MIPS_KSEG0 ->
  let u := UserMem.mkU (view (phys s) a) bad in
  match UserMem.uload u va with
  | Done r => exists s', load true bad va s = Done (inr r, s') /\ settled s' /\ procs s' = procs s
  | Panic => load true bad va s = Panic
  | Stuck => False
  end /\
  match UserMem.ustore u va b with
  | Done (Some u') => exists s', store true bad va b s = Done (inr (Some tt), s') /\ settled s' /\ view (phys s') a = UserMem.umem u'
  | Done None => store true bad va b s = Done (inr None, s)
  | Panic => store true bad va b s = Panic
  | Stuck => False
  end.
Proof.
  intros [Hi Hall] Ha Hva. destruct (Hall _ _ Ha) as [Hl Hf]. cbn zeta. unfold UserMem.uload, UserMem.ustore. cbn [UserMem.umem UserMem.badfaultfunc].
  pose proof (load_run s a true bad va Hi Ha Hl Hf Hva) as Hld. pose proof (store_run s a true bad va b Hi Ha Hl Hf Hva) as Hst.
  destruct (view (phys s) a !! va) as [x|].
  - split.
    + destruct Hld as (s' & Hs' & Hi' & Hm). exists s'. split; [done|]. destruct Hm as (_ & Hph & Hsp & _).
      split; [split; [done|by unfold all_loaded; rewrite Hsp]|by apply same_procs].
    + destruct Hst as (s' & pa & Hs' & Hi' & Hm & Ht). eexists. split; [exact Hs'|]. destruct Hm as (Hma & Hph & Hsp & Hv & _). cbn [phys set_phys].
      split; [split; [by apply vm_inv_phys|unfold all_loaded; cbn [spaces set_phys]; by rewrite Hsp]|].
      rewrite Hph. eapply view_upd; [by eapply (i_loaded _ Hi)|done].
  - destruct bad; cbn [andb] in *; split; try done. exists s. by split_and!.
Qed.

Lemma bind_run {A B} (m : VM A) (f : A -> VM B) s a s' : m s = Done (inr a, s') -> (m ≫= f) s = f a s'.
Proof. intros Hm. unfold mbind, M_bind. by rewrite Hm. Qed.

(** [vm_fault] in a space whose second region was never defined. *)
Lemma vm_fault_unset t va s a :
  vmspace s ≠ NULL -> spaces s !! vmspace s = Some a -> t = VM_FAULT_READ \/ t = VM_FAULT_WRITE -> as_vbase2 a = 0 -> vm_fault t va s = Panic.
Proof.
  intros Hn Ha Ht H2. unfold vm_fault. erewrite bind_run by reflexivity. set (s1 := set_mach s _).
  rewrite (bool_decide_eq_false_2 (t = VM_FAULT_READONLY)) by (destruct Ht as [->| ->]; done).
  replace (bool_decide (t = VM_FAULT_READ) || bool_decide (t = VM_FAULT_WRITE)) with true by (destruct Ht as [->| ->]; done).
  cbn [negb]. erewrite bind_run by reflexivity. change (vmspace s1) with (vmspace s). rewrite bool_decide_eq_false_2 by done.
  rewrite (bind_run _ _ _ a s1) by (unfold get_as; erewrite bind_run by reflexivity; change (spaces s1) with (spaces s); by rewrite Ha).
  destruct (bool_decide (as_vbase1 a ≠ 0)); [erewrite bind_run by reflexivity|done].
  destruct (bool_decide (as_pbase1 a ≠ 0)); [erewrite bind_run by reflexivity|done].
  destruct (bool_decide (as_npages1 a ≠ 0)); [erewrite bind_run by reflexivity|done].
  by rewrite (bool_decide_eq_false_2 (as_vbase2 a ≠ 0)) by tauto.
Qed.

Lemma access_panics iskern bad k va s a :
  tlb_ok (tlb s) -> vmspace s ≠ NULL -> spaces s !! vmspace s = Some a -> (forall e, e ∈ tlb s -> ~ valid e) -> as_vbase2 a = 0 -> 0 <= va < MIPS_KSEG0 ->
  access_at ACCESS_FUEL iskern bad k va s = Panic.
Proof.
  intros Hi Hn Ha Hno H2 Hva. destruct (mmu_miss s k va Hi Hva) as [Hm _].
  { intros i e He Hv. exfalso. by eapply Hno; [eapply list_elem_of_lookup_2|]. }
  eapply access_at_panic; [exact Hm|]. pose proof (fun t Ht => vm_fault_unset t va s a Hn Ha Ht H2) as Hf.
  unfold mips_trap, massert, lift, kassert, try, mret, M_ret, mbind, M_bind, outcome_bind. destruct s as [[spl fp lp] t ph sp v al].
  destruct k; lazy -[vm_fault VM_FAULT_READ VM_FAULT_WRITE]; rewrite Hf by auto; done.
Qed.

(** An executable with a single segment crashes the kernel: the region is
    defined and the load is prepared without an error, and then the first access
    to user memory panics, because [vm_fault] asserts that the second region is
    there. *)
Theorem one_segment_panics v sz s iskern bad k va :
  vm_inv s -> spaces s !! vmspace s = Some empty_as -> (forall e, e ∈ tlb s -> ~ valid e) -> segment_ok v sz -> 0 <= va < MIPS_KSEG0 ->
  firstpaddr (mach s) + (npages v sz + DUMBVM_STACKPAGES) * PAGE_SIZE <= lastpaddr (mach s) ->
  exists s', (_ ← as_define_region (vmspace s) v sz 1 1 1; as_prepare_load (vmspace s)) s = Done (inr tt, s') /\
    access_at ACCESS_FUEL iskern bad k va s' = Panic.
Proof.
  intros Hi Hp Hno Hs Hva Hroom. assert (vmspace s ≠ NULL) as Hn by (intros Heq; pose proof (i_null _ Hi); congruence).
  set (p := vmspace s) in *. destruct (segment_pages _ _ Hs) as (A1 & _ & A3 & _ & A5). pose proof (r_first _ (i_ram _ Hi)).
  assert (wp (_ ← as_define_region p v sz 1 1 1; as_prepare_load p)
    (fun _ s' => access_at ACCESS_FUEL iskern bad k va s' = Panic) (fun _ _ => False) s) as Hwp.
  { wp_base. apply (wp_as_define_region _ _ _ _ _ _ _ empty_as); [done|done| |done|done]. intros _.
    cbn [as_pbase1 as_pbase2 as_npages2 as_vbase2 as_stackpbase empty_as]. set (a := mkAs _ _ _ _ _ _ _). unfold as_prepare_load, put_as.
    wp_base. apply (wp_get_as _ a); [apply lookup_insert_eq|]. do 3 (wp_base; apply wp_massert; [done|]).
    unfold PAGE_SIZE, MIPS_KSEG0, DUMBVM_STACKPAGES in *. pose proof (i_ram _ Hi) as Hr.
    wp_base. apply wp_vm_mach, wp_getppages; [done|cbn; lia|cbn [as_npages1 a mach set_spaces set_mach]; unfold PAGE_SIZE; lia|].
    intros _ m1 -> Hr1. repeat wp_base. cbn [as_pbase1 set_pbase1]. rewrite bool_decide_eq_false_2 by (cbn; lia). wp_base.
    apply wp_vm_mach, wp_getppages; [done|done| |]; cbn [as_npages1 as_npages2 a set_pbase1 mach set_mach set_spaces firstpaddr lastpaddr].
    { unfold PAGE_SIZE. lia. }
    intros _ m2 -> Hr2. repeat wp_base. cbn [as_pbase2 set_pbase2]. rewrite bool_decide_eq_false_2 by (unfold PAGE_SIZE; lia). wp_base.
    apply wp_vm_mach, wp_getppages; [done|done| |]; cbn [as_npages1 as_npages2 a set_pbase1 mach set_mach set_spaces firstpaddr lastpaddr].
    { unfold PAGE_SIZE, DUMBVM_STACKPAGES. lia. }
    intros _ m3 -> Hr3. repeat wp_base. cbn [as_stackpbase set_stackpbase]. rewrite bool_decide_eq_false_2 by (unfold PAGE_SIZE; lia). wp_base.
    eapply access_panics; [apply Hi|done|apply lookup_insert_eq|done|done|done]. }
  unfold wp in Hwp. destruct ((_ ← as_define_region p v sz 1 1 1; as_prepare_load p) s) as [[[e|[]] s']| |]; try done. by exists s'.
Qed.

(** ** Instances *)

Definition ex_boot : vm := boot_vm 262144 1048576 (fun _ => 0) [2147745792; 2147745856; 2147745920].
Definition ex_ops : list vm_op :=
  [Run 4194304 100 268435456 5000; Write 4194310 7; Fork; Write 4194310 8; Switch 2147745856; Read 4194310; Read 0; Exit; Switch 2147745792; Read 4194310].

Lemma ex_ops_ok : Forall op_ok ex_ops.
Proof. repeat (constructor; [cbn; unfold MIPS_KSEG0; try lia; try done; split_and!; try done; split; done|]). constructor. Qed.

Lemma vm_refines_processes_witness :
  exists os s, vm_run ex_ops ex_boot = Done (inr os, s) /\ prun ex_ops (∅, NULL) os (procs s, vmspace s).
Proof. apply (vm_refines_processes 262144 1048576); [done|done|done|apply ex_ops_ok]. Defined.

Definition observed (o : outcome ((Z + list (option Z)) * vm)) : option (list (option Z)) :=
  match o with Done (inr os, _) => Some os | _ => None end.

(** The child sees the value written before the fork, the parent its own. *)
Lemma ex_observed : observed (vm_run ex_ops ex_boot) =
  Some [Some 2147745792; Some 0; Some 2147745856; Some 0; None; Some 7; None; None; None; Some 8].
Proof. vm_compute. reflexivity. Qed.

Lemma tlb_invariant_witness : exists os s, vm_run ex_ops ex_boot = Done (inr os, s) /\
  tlb_ok (tlb s) /\ (forall a, spaces s !! vmspace s = Some a -> coherent (tlb s) a).
Proof.
  pose proof ex_observed as Hobs. destruct (vm_run ex_ops ex_boot) as [[[e|os] s]| |] eqn:Hrun; try discriminate Hobs.
  exists os, s. split; [exact eq_refl|].
  apply (tlb_invariant 262144 1048576 ltac:(lia) ltac:(lia) eq_refl ex_ops (fun _ => 0) [2147745792; 2147745856; 2147745920] os s); [apply ex_ops_ok|exact Hrun].
Defined.

Definition current (o : outcome ((Z + list (option Z)) * vm)) : option Z :=
  match o with Done (inr _, s) => Some (vmspace s) | _ => None end.

Definition ex_load : list vm_op := [Run 4194304 100 268435456 5000].

Lemma ex_current : current (vm_run ex_load ex_boot) = Some 2147745792.
Proof. vm_compute. reflexivity. Qed.

Lemma ex_settled : exists s a, settled s /\ spaces s !! vmspace s = Some a.
Proof.
  assert (settled ex_boot /\ Forall op_ok ex_load) as [H1 H2].
  { split; [by apply boot_settled|]. constructor; [|constructor]. split_and!; [split; done..|done]. }
  pose proof (wp_vm_run ex_load ex_boot (fun _ _ => False) H1 H2) as Hwp. pose proof ex_current as Hcur. unfold wp in Hwp. destruct (vm_run ex_load ex_boot) as [[[e|os] s]| |]; [destruct Hwp| |destruct Hwp..].
  destruct Hwp as [Hs _]. injection Hcur as Hv. destruct (settled_cur s Hs) as (a & Ha & _); [rewrite Hv; unfold NULL; lia|].
  exists s, a. split; assumption.
Qed.

Lemma vm_refines_umem_witness : exists s a, settled s /\ spaces s !! vmspace s = Some a /\
  let u := UserMem.mkU (view (phys s) a) true in
  match UserMem.uload u 4194310 with
  | Done r => exists s', load true true 4194310 s = Done (inr r, s') /\ settled s' /\ procs s' = procs s
  | Panic => load true true 4194310 s = Panic
  | Stuck => False
  end /\
  match UserMem.ustore u 4194310 5 with
  | Done (Some u') => exists s', store true true 4194310 5 s = Done (inr (Some tt), s') /\ settled s' /\ view (phys s') a = UserMem.umem u'
  | Done None => store true true 4194310 5 s = Done (inr None, s)
  | Panic => store true true 4194310 5 s = Panic
  | Stuck => False
  end.
Proof.
  destruct ex_settled as (s & a & Hs & Ha). exists s, a. split; [exact Hs|]. split; [exact Ha|].
  apply (vm_refines_umem s a true 4194310 5 Hs Ha). unfold MIPS_KSEG0. lia.
Defined.

Definition ex_one : vm := set_tlb (set_vmspace (set_spaces ex_boot {[ 2147745792 := empty_as ]}) 2147745792) reset_tlb.

Lemma ex_one_inv : vm_inv ex_one /\ (forall e, e ∈ tlb ex_one -> ~ valid e).
Proof.
  assert (forall e, e ∈ reset_tlb -> ~ valid e) as Hno.
  { intros e (i & -> & _)%list_elem_of_fmap Hv. by apply Hv. }
  split; [|exact Hno]. apply activated_inv; [|right; by eexists|apply reset_tlb_ok|exact Hno].
  change ({[2147745792 := empty_as]} : gmap Z addrspace) with (<[2147745792 := empty_as]> (spaces ex_boot)).
  apply fresh_inv; [by apply boot_settled|done|done|]. unfold is_loaded. cbn. tauto.
Qed.

Lemma one_segment_panics_witness :
  exists s', (_ ← as_define_region (vmspace ex_one) 4194304 100 1 1 1; as_prepare_load (vmspace ex_one)) ex_one = Done (inr tt, s') /\
    access_at ACCESS_FUEL true true Load 4194304 s' = Panic.
Proof.
  apply (one_segment_panics 4194304 100 ex_one true true Load 4194304); try apply ex_one_inv; try done.
Defined.
End DumbVmTheorems.
