(* ===== verification/VmCopy.v ===== *)
(** * [copyin] and [copyout] on top of the virtual memory system

    The copying functions of [kern/lib/copyinout.c] again, with every access to
    user memory going through the TLB and [vm_fault] of [DumbVm]; they do what
    the functions of [UserMem] do on the map of the current process. *)

From S2P Require Import Prelude UserMem Ram DumbVm DumbVmSpec DumbVmOps DumbVmTheorems.

Module VmCopy.
Import Ram DumbVm DumbVmSpec DumbVmOps DumbVmTheorems.

(** [memcpy] with [pcb_badfaultfunc] set; [true] is a fault. *)
Fixpoint memcpy_in (n : nat) (src : Z) (dest : list Z) (off : Z) : VM (bool * list Z) :=
  match n with
  | O => mret (false, dest)
  | S n =>
      r ← load true true src;
      match r with
      | None => mret (true, dest)
      | Some b => dest ← lift (setZ dest off b); memcpy_in n (src + 1) dest (off + 1)
      end
  end.

Fixpoint memcpy_out (n : nat) (src : list Z) (off dest : Z) : VM bool :=
  match n with
  | O => mret false
  | S n =>
      b ← lift (getZ src off);
      r ← store true true dest b;
      match r with
      | None => mret true
      | Some _ => memcpy_out n src (off + 1) (dest + 1)
      end
  end.

Definition copyin (usersrc : Z) (dest : list Z) (off len : Z) : VM (Z * list Z) :=
  let '(result, stoplen) := UserMem.copycheck usersrc len in
  if bool_decide (result ≠ 0) then mret (result, dest)
  else if bool_decide (stoplen ≠ len) then mret (EFAULT, dest)
  else
    '(fault, dest) ← memcpy_in (Z.to_nat len) usersrc dest off;
    mret (if (fault : bool) then EFAULT else 0, dest).

Definition copyout (src : list Z) (off userdest len : Z) : VM Z :=
  let '(result, stoplen) := UserMem.copycheck userdest len in
  if bool_decide (result ≠ 0) then mret result
  else if bool_decide (stoplen ≠ len) then mret EFAULT
  else
    fault ← memcpy_out (Z.to_nat len) src off userdest;
    mret (if (fault : bool) then EFAULT else 0).

(** ** Simulation *)

(** From [s] to [s'] the memory of the current process became [m] and nothing
    else that processes see has changed. *)
Record user_write (s s' : vm) (a : addrspace) (m : gmap Z Z) : Prop := {
  uw_settled : settled s';
  uw_spaces : spaces s' = spaces s;
  uw_cur : vmspace s' = vmspace s;
  uw_mach : mach s' = mach s;
  uw_view : view (phys s') a = m;
  uw_procs : procs s' = <[vmspace s := m]> (procs s)
}.

Lemma user_write_refl s a : settled s -> spaces s !! vmspace s = Some a -> user_write s s a (view (phys s) a).
Proof. intros Hs Ha. destruct (proj2 Hs _ _ Ha) as [Hl _]. split; try done. symmetry. apply insert_id. by apply procs_lookup. Qed.

Lemma user_write_tlb s s' a :
  settled s -> spaces s !! vmspace s = Some a -> vm_inv s' -> same_memory s s' -> user_write s s' a (view (phys s) a).
Proof.
  intros Hs Ha Hi (Hm & Hph & Hsp & Hv & _). destruct (user_write_refl s a Hs Ha) as [_ _ _ _ _ Hpr].
  split; try done; [split; [done|unfold all_loaded; by rewrite Hsp; apply Hs]|by rewrite Hph|by rewrite (same_procs s s')].
Qed.

Lemma user_write_trans s1 s2 s3 a m m' : user_write s1 s2 a m -> user_write s2 s3 a m' -> user_write s1 s3 a m'.
Proof.
  intros [] []. split; try done; [congruence..|]. rewrite uw_procs1, uw_procs0, uw_cur0. apply insert_insert_eq.
Qed.

Lemma store_sim s a va b :
  settled s -> spaces s !! vmspace s = Some a -> 0 <= va < MIPS_KSEG0 ->
  match view (phys s) a !! va with
  | Some _ => exists s', store true true va b s = Done (inr (Some tt), s') /\ user_write s s' a (<[va := b]> (view (phys s) a))
  | None => store true true va b s = Done (inr None, s)
  end.
Proof.
  intros Hs Ha Hva. destruct (id Hs) as [Hi Hall]. destruct (Hall _ _ Ha) as [Hl Hf].
  pose proof (store_run s a true true va b Hi Ha Hl Hf Hva) as Hr. destruct (view (phys s) a !! va) as [x|]; [|done].
  destruct Hr as (s' & pa & Hst & Hi' & Hm & Ht). eexists. split; [exact Hst|]. destruct (id Hm) as (Hma & Hph & Hsp & Hv & _).
  assert (spaces s' !! vmspace s = Some a) as Ha' by (by rewrite Hsp). split; try done; cbn [phys set_phys].
  - split; [by apply vm_inv_phys|]. unfold all_loaded. cbn [spaces set_phys]. by rewrite Hsp.
  - rewrite Hph. eapply view_upd; [by eapply (i_loaded _ Hi)|done].
  - rewrite (procs_upd s' (vmspace s) a va pa b) by done. by rewrite Hph, (same_procs s s').
Qed.

Lemma load_sim s a va :
  settled s -> spaces s !! vmspace s = Some a -> 0 <= va < MIPS_KSEG0 ->
  exists s', load true true va s = Done (inr (view (phys s) a !! va), s') /\ user_write s s' a (view (phys s) a).
Proof.
  intros Hs Ha Hva. destruct (id Hs) as [Hi Hall]. destruct (Hall _ _ Ha) as [Hl Hf].
  pose proof (load_run s a true true va Hi Ha Hl Hf Hva) as Hr. destruct (view (phys s) a !! va) as [x|].
  - destruct Hr as (s' & Hld & Hi' & Hm). exists s'. split; [done|by apply user_write_tlb].
  - exists s. split; [done|by apply user_write_refl].
Qed.

Lemma memcpy_out_sim n : forall s a src off dest,
  settled s -> spaces s !! vmspace s = Some a -> 0 <= dest -> dest + Z.of_nat n <= MIPS_KSEG0 ->
  match UserMem.memcpy_out n (UserMem.mkU (view (phys s) a) true) src off dest with
  | Done (f, u) => exists s', memcpy_out n src off dest s = Done (inr f, s') /\ user_write s s' a (UserMem.umem u)
  | Panic => False
  | Stuck => memcpy_out n src off dest s = Stuck
  end.
Proof.
  induction n as [|n IH]; intros s a src off dest Hs Ha Hd Hn; cbn [UserMem.memcpy_out memcpy_out].
  { exists s. split; [done|by apply user_write_refl]. }
  unfold lift, mbind, M_bind, outcome_bind. destruct (getZ src off) as [b| |] eqn:Hg; [| |done].
  2: { unfold getZ in Hg. case_bool_decide; [destruct (src !! _)|]; done. }
  unfold UserMem.ustore. cbn [UserMem.umem UserMem.badfaultfunc].
  pose proof (store_sim s a dest b Hs Ha ltac:(lia)) as Hst. destruct (view (phys s) a !! dest) as [x|].
  - destruct Hst as (s1 & -> & Hw). pose proof (IH s1 a src (off + 1) (dest + 1) (uw_settled _ _ _ _ Hw)) as H1.
    rewrite (uw_spaces _ _ _ _ Hw), (uw_cur _ _ _ _ Hw), (uw_view _ _ _ _ Hw) in H1. specialize (H1 Ha ltac:(lia) ltac:(lia)).
    destruct (UserMem.memcpy_out n _ src (off + 1) (dest + 1)) as [[f u]| |]; [|done|done].
    destruct H1 as (s2 & -> & Hw2). exists s2. split; [done|by eapply user_write_trans].
  - rewrite Hst. exists s. split; [done|by apply user_write_refl].
Qed.

Lemma memcpy_in_sim n : forall s a src dest off,
  settled s -> spaces s !! vmspace s = Some a -> 0 <= src -> src + Z.of_nat n <= MIPS_KSEG0 ->
  match UserMem.memcpy_in n (UserMem.mkU (view (phys s) a) true) src dest off with
  | Done r => exists s', memcpy_in n src dest off s = Done (inr r, s') /\ user_write s s' a (view (phys s) a)
  | Panic => False
  | Stuck => memcpy_in n src dest off s = Stuck
  end.
Proof.
  induction n as [|n IH]; intros s a src dest off Hs Ha Hd Hn; cbn [UserMem.memcpy_in memcpy_in].
  { exists s. split; [done|by apply user_write_refl]. }
  unfold UserMem.uload. cbn [UserMem.umem UserMem.badfaultfunc]. destruct (load_sim s a src Hs Ha ltac:(lia)) as (s1 & Hld & Hw).
  unfold mbind, M_bind, outcome_bind. rewrite Hld. destruct (view (phys s) a !! src) as [b|]; [|by exists s1].
  unfold lift, mbind, outcome_bind. destruct (setZ dest off b) as [dest'| |] eqn:Hg; [| |done].
  2: { unfold setZ in Hg. by case_bool_decide. }
  pose proof (IH s1 a (src + 1) dest' (off + 1) (uw_settled _ _ _ _ Hw)) as H1.
  rewrite (uw_spaces _ _ _ _ Hw), (uw_cur _ _ _ _ Hw), (uw_view _ _ _ _ Hw) in H1. specialize (H1 Ha ltac:(lia) ltac:(lia)).
  destruct (UserMem.memcpy_in n _ (src + 1) dest' (off + 1)) as [r| |]; [|done|done].
  destruct H1 as (s2 & -> & Hw2). exists s2. split; [done|by eapply user_write_trans].
Qed.

(** A range that [copycheck] lets through whole lies in user memory. *)
Lemma copycheck_inside p len : 0 <= p -> 0 <= len < 4294967296 -> UserMem.copycheck p len = (0, len) -> p + len <= MIPS_KSEG0.
Proof.
  intros Hp Hl. unfold UserMem.copycheck, UserMem.USERTOP, MIPS_KSEG0. case_bool_decide as H1; [done|]. case_bool_decide as H2; [done|].
  case_bool_decide as H3; [intros [= Heq]; lia|intros _]. destruct (decide (p + len - 1 < 4294967296)).
  - destruct (decide (0 < len)); [rewrite u32_small in H3 by lia; lia|lia].
  - assert (u32 (p + len - 1) < p) as Hu; [|lia]. unfold u32.
    replace (p + len - 1) with (p + len - 1 - 4294967296 + 1 * 4294967296) by lia. rewrite Z.mod_add, Z.mod_small by lia. lia.
Qed.

Lemma copyout_sim s a src off dest len :
  settled s -> spaces s !! vmspace s = Some a -> 0 <= dest -> 0 <= len < 4294967296 ->
  match UserMem.copyout (UserMem.mkU (view (phys s) a) false) src off dest len with
  | Done (r, u) => exists s', copyout src off dest len s = Done (inr r, s') /\ user_write s s' a (UserMem.umem u)
  | Panic => False
  | Stuck => copyout src off dest len s = Stuck
  end.
Proof.
  intros Hs Ha Hd Hl. unfold UserMem.copyout, copyout. destruct (UserMem.copycheck dest len) as [r stop] eqn:Hc.
  case_bool_decide as Hr; [exists s; split; [done|by apply user_write_refl]|].
  case_bool_decide as Hst; [exists s; split; [done|by apply user_write_refl]|].
  assert (r = 0 /\ stop = len) as [-> ->] by (split; [destruct (decide (r = 0))|destruct (decide (stop = len))]; tauto).
  pose proof (copycheck_inside _ _ Hd Hl Hc). change (UserMem.set_badfault true (UserMem.mkU (view (phys s) a) false)) with (UserMem.mkU (view (phys s) a) true).
  pose proof (memcpy_out_sim (Z.to_nat len) s a src off dest Hs Ha Hd ltac:(lia)) as Hm. unfold mbind, M_bind, outcome_bind.
  destruct (UserMem.memcpy_out _ _ src off dest) as [[f u]| |]; [|done|by rewrite Hm].
  destruct Hm as (s' & -> & Hw). destruct f; by exists s'.
Qed.

Lemma copyin_sim s a src dest off len :
  settled s -> spaces s !! vmspace s = Some a -> 0 <= src -> 0 <= len < 4294967296 ->
  match UserMem.copyin (UserMem.mkU (view (phys s) a) false) src dest off len with
  | Done (r, d, u) => exists s', copyin src dest off len s = Done (inr (r, d), s') /\ user_write s s' a (view (phys s) a)
  | Panic => False
  | Stuck => copyin src dest off len s = Stuck
  end.
Proof.
  intros Hs Ha Hd Hl. unfold UserMem.copyin, copyin. destruct (UserMem.copycheck src len) as [r stop] eqn:Hc.
  case_bool_decide as Hr; [exists s; split; [done|by apply user_write_refl]|].
  case_bool_decide as Hst; [exists s; split; [done|by apply user_write_refl]|].
  assert (r = 0 /\ stop = len) as [-> ->] by (split; [destruct (decide (r = 0))|destruct (decide (stop = len))]; tauto).
  pose proof (copycheck_inside _ _ Hd Hl Hc). change (UserMem.set_badfault true (UserMem.mkU (view (phys s) a) false)) with (UserMem.mkU (view (phys s) a) true).
  pose proof (memcpy_in_sim (Z.to_nat len) s a src dest off Hs Ha Hd ltac:(lia)) as Hm. unfold mbind, M_bind, outcome_bind.
  destruct (UserMem.memcpy_in _ _ src dest off) as [[f d]| |]; [|done|by rewrite Hm].
  destruct Hm as (s' & -> & Hw). destruct f; by exists s'.
Qed.
End VmCopy.
