(* ===== verification/LoadElf.v ===== *)
(** * Loading programs: [kern/userprog/loadelf.c] and [kern/userprog/runprogram.c]

    The ELF headers, the loading of segments into the current address space
    and the start of a program.  The executable is any file that can be read at
    an offset. *)

From S2P Require Import Prelude UserMem Uio SfsFormat Ram DumbVm VmCopy.

Module LoadElf.
Import Uio SfsFormat Ram DumbVm VmCopy.

(** ** The file *)

(** [VOP_READ] at an offset: the result, and the bytes that were transferred,
    at most as many as asked for. *)
Class file := {
  read_at : Z -> Z -> Z * list Z;
  read_at_length : forall off n, 0 <= n -> Z.of_nat (length (read_at off n).2) <= n
}.

(** ** ELF headers: [kern/include/elf.h] *)

Definition ld16 (l : list Z) (off : nat) : Z := u8 (nth off l 0) * 256 + u8 (nth (off + 1) l 0).

Record ehdr := mkEhdr {
  e_ident : list Z;
  e_type : Z;
  e_machine : Z;
  e_version : Z;
  e_entry : Z;
  e_phoff : Z;
  e_phentsize : Z;
  e_phnum : Z
}.
Definition SIZEOF_EHDR : Z := 52.

Definition ehdr_of (d : list Z) : ehdr :=
  mkEhdr (take 16 d) (ld16 d 16) (ld16 d 18) (ld32 d 20) (ld32 d 24) (ld32 d 28) (ld16 d 42) (ld16 d 44).

Record phdr := mkPhdr {
  p_type : Z;
  p_offset : Z;
  p_vaddr : Z;
  p_filesz : Z;
  p_memsz : Z;
  p_flags : Z
}.
Definition SIZEOF_PHDR : Z := 32.

Definition phdr_of (d : list Z) : phdr := mkPhdr (ld32 d 0) (ld32 d 4) (ld32 d 8) (ld32 d 16) (ld32 d 20) (ld32 d 24).

Definition PT_NULL : Z := 0.
Definition PT_LOAD : Z := 1.
Definition PT_PHDR : Z := 6.
Definition PT_MIPS_REGINFO : Z := 1879048192.

(** Magic number, 32 bits, big-endian, version 1, executable, MIPS. *)
Definition ehdr_ok (eh : ehdr) : bool :=
  bool_decide (take 7 (e_ident eh) = [127; 69; 76; 70; 1; 2; 1]) && bool_decide (e_version eh = 1) &&
  bool_decide (e_type eh = 2) && bool_decide (e_machine eh = 8).

Section loadelf.
Context `{file}.

(** [mk_kuio], [VOP_READ] and the check for a short read. *)
Definition read_struct (offset n : Z) : VM (list Z) :=
  let '(result, d) := read_at offset n in
  if bool_decide (result ≠ 0) then fail result else
  if bool_decide (n - Z.of_nat (length d) ≠ 0) then fail ENOEXEC else
  mret d.

(** ** Segments *)

(** [uiomove] of kernel memory to a user region. *)
Fixpoint out_loop (fuel : nat) (kb : list Z) (p n : Z) (u : uio) : VM (Z * uio) :=
  if bool_decide (n > 0 /\ uio_resid u > 0) then
    match fuel with
    | O => lift Stuck
    | S fuel =>
        let size := if bool_decide (iov_len u > n) then n else iov_len u in
        if bool_decide (size = 0) then panic else
        result ← copyout kb p (iov_base u) size;
        if bool_decide (result ≠ 0) then mret (result, u)
        else out_loop fuel kb (p + size) (n - size) (advance u size)
    end
  else mret (0, u).

Definition uiomove_out (kb : list Z) (n : Z) (u : uio) : VM (Z * uio) :=
  s ← get;
  _ ← massert (bool_decide (uio_space u = vmspace s));
  out_loop (Z.to_nat n) kb 0 n u.

Fixpoint zeros_out_loop (fuel : nat) (n : Z) (u : uio) : VM (Z * uio) :=
  if bool_decide (n > 0) then
    match fuel with
    | O => lift Stuck
    | S fuel =>
        let amt := if bool_decide (16 > n) then n else 16 in
        '(result, u) ← uiomove_out (zeros 16) amt u;
        if bool_decide (result ≠ 0) then mret (result, u)
        else zeros_out_loop fuel (n - amt) u
    end
  else mret (0, u).

Definition uiomovezeros_out (n : Z) (u : uio) : VM (Z * uio) :=
  _ ← massert (bool_decide (uio_rw u = UIO_READ));
  zeros_out_loop (Z.to_nat n) n u.

(** [VOP_READ(v, &u)]: what the file delivers goes through [uiomove]. *)
Definition vop_read (u : uio) : VM (Z * uio) :=
  let '(result, d) := read_at (uio_offset u) (uio_resid u) in
  '(r, u) ← uiomove_out d (Z.of_nat (length d)) u;
  mret (if bool_decide (r ≠ 0) then r else result, u).

Definition load_segment (offset vaddr memsize filesize is_executable : Z) : VM unit :=
  let filesize := if bool_decide (filesize > memsize) then memsize else filesize in
  s ← get;
  let u := mkUio [] vaddr memsize offset filesize
    (if bool_decide (is_executable ≠ 0) then UIO_USERISPACE else UIO_USERSPACE) UIO_READ (vmspace s) in
  '(result, u) ← vop_read u;
  _ ← check result;
  if bool_decide (uio_resid u ≠ 0) then fail ENOEXEC else
  let fillamt := memsize - filesize in
  if bool_decide (fillamt > 0) then
    '(result, _) ← uiomovezeros_out fillamt (set_pos u (uio_offset u) (u32 (uio_resid u + fillamt)));
    check result
  else mret tt.

(** ** [load_elf] *)

(** [for (i=0; i<eh.e_phnum; i++)] with the body that loadable segments get. *)
Fixpoint phdr_loop (n : nat) (i : Z) (eh : ehdr) (body : phdr -> VM unit) : VM unit :=
  match n with
  | O => mret tt
  | S n =>
      x ← lift (int_op (i * e_phentsize eh));
      let offset := s32 (u32 (e_phoff eh + x)) in
      d ← read_struct offset SIZEOF_PHDR;
      let ph := phdr_of d in
      if bool_decide (p_type ph = PT_NULL) || bool_decide (p_type ph = PT_PHDR) || bool_decide (p_type ph = PT_MIPS_REGINFO)
      then phdr_loop n (i + 1) eh body
      else if bool_decide (p_type ph = PT_LOAD) then
        _ ← body ph;
        phdr_loop n (i + 1) eh body
      else fail ENOEXEC
  end.

Definition define_segment (ph : phdr) : VM unit :=
  s ← get;
  as_define_region (vmspace s) (p_vaddr ph) (p_memsz ph) (Z.land (p_flags ph) 4) (Z.land (p_flags ph) 2) (Z.land (p_flags ph) 1).

Definition load_phdr (ph : phdr) : VM unit :=
  load_segment (s32 (p_offset ph)) (p_vaddr ph) (p_memsz ph) (p_filesz ph) (Z.land (p_flags ph) 1).

(** Returns the entry point. *)
Definition load_elf : VM Z :=
  d ← read_struct 0 SIZEOF_EHDR;
  let eh := ehdr_of d in
  if negb (ehdr_ok eh) then fail ENOEXEC else
  _ ← phdr_loop (Z.to_nat (e_phnum eh)) 0 eh define_segment;
  s ← get;
  _ ← as_prepare_load (vmspace s);
  _ ← phdr_loop (Z.to_nat (e_phnum eh)) 0 eh load_phdr;
  s ← get;
  _ ← as_complete_load (vmspace s);
  mret (e_entry eh).

(** ** [runprogram] *)

(** The second part of the state counts the calls of [vfs_close(v)]. *)
Definition on_vm {A} (m : VM A) : M (vm * nat) A := fun '(s, closed) =>
  '(r, s) ← m s; Done (r, (s, closed)).
Definition vfs_close : M (vm * nat) unit := modify (fun '(s, closed) => (s, S closed)).

(** [open_result] is what [vfs_open] returned.  The result is the stack pointer
    and the entry point [md_usermode] is called with. *)
Definition runprogram (open_result : Z) : M (vm * nat) (Z * Z) :=
  _ ← check open_result;
  _ ← on_vm (s ← get; massert (bool_decide (vmspace s = NULL)));
  p ← on_vm (p ← as_create; _ ← modify (fun s => set_vmspace s p); mret p);
  if bool_decide (p = NULL) then
    _ ← vfs_close;
    fail ENOMEM
  else
    _ ← on_vm (as_activate p);
    r ← try (on_vm load_elf);
    match r with
    | inl result =>
        _ ← vfs_close;
        fail result
    | inr entrypoint =>
        _ ← vfs_close;
        stackptr ← on_vm (as_define_stack p);
        mret (stackptr, entrypoint)
    end.
End loadelf.
End LoadElf.
