(* ===== verification/LoadElfSpec.v ===== *)
(** * What loading a program establishes

    The transfers of [load_elf] into the current address space, and the memory
    of a process after its program is loaded. *)

From S2P Require Import Prelude UserMem Uio SfsFormat Ram DumbVm DumbVmSpec DumbVmOps DumbVmTheorems VmCopy LoadElf.

Module LoadElfSpec.
Import Uio Ram DumbVm DumbVmSpec DumbVmOps DumbVmTheorems VmCopy LoadElf.

Definition mapped (m : gmap Z Z) (a n : Z) : Prop := forall x, a <= x < a + n -> is_Some (m !! x).

Lemma mapped_uwrite m a n b l : mapped m a n -> mapped (UserMem.uwrite m b l) a n.
Proof.
  intros Hm x Hx. rewrite UserMem.uwrite_lookup. case_decide as Hin; [|by apply Hm].
  apply lookup_lt_is_Some_2. lia.
Qed.

(** A process that is running, with its memory. *)
Definition process (s : vm) (a : addrspace) (m : gmap Z Z) : Prop :=
  settled s /\ spaces s !! vmspace s = Some a /\ view (phys s) a = m.

Lemma process_write s s' a m m' : process s a m -> user_write s s' a m' -> process s' a m'.
Proof. intros (Hs & Ha & Hm) []. split_and!; [done|by rewrite uw_spaces0, uw_cur0|done]. Qed.

Lemma wp_copyout s a m src off dest len (Q : Z -> vm -> Prop) E :
  process s a m -> 0 <= dest -> 0 < len -> dest + len <= MIPS_KSEG0 -> 0 <= off -> off + len <= Z.of_nat (length src) -> mapped m dest len ->
  (forall s', user_write s s' a (UserMem.uwrite m dest (slice src off len)) -> Q 0 s') -> wp (copyout src off dest len) Q E s.
Proof.
  intros (Hs & Ha & <-) Hd Hl Ht Ho Hsrc Hmap HQ. unfold MIPS_KSEG0 in Ht.
  pose proof (copyout_sim s a src off dest len Hs Ha Hd ltac:(lia)) as Hc.
  destruct (UserMem.copyout_inside (view (phys s) a) src off dest len) as (m' & _ & _ & Hin); [done|done|unfold UserMem.USERTOP; lia|done|done|].
  destruct (proj2 (UserMem.urange_is_Some (view (phys s) a) dest (Z.to_nat len))) as [l Hr]; [intros x Hx; apply Hmap; lia|].
  rewrite Hr in Hin. destruct Hin as [Hout ->]. rewrite Hout in Hc. destruct Hc as (s' & Hrun & Hw). unfold wp. rewrite Hrun. by apply HQ.
Qed.

(** ** Transfers to a user region *)

(** The region of [u] can take [n] more bytes. *)
Record room (s : vm) (m : gmap Z Z) (u : uio) (n : Z) : Prop := {
  rm_base : 0 <= iov_base u;
  rm_n : 0 <= n <= iov_len u;
  rm_resid : n <= uio_resid u < 4294967296;
  rm_top : iov_base u + n <= MIPS_KSEG0;
  rm_space : uio_space u = vmspace s;
  rm_mapped : mapped m (iov_base u) n
}.

Lemma wp_uiomove_out s a m kb n u (Q : Z * uio -> vm -> Prop) E :
  process s a m -> room s m u n -> n <= Z.of_nat (length kb) ->
  (forall s', user_write s s' a (UserMem.uwrite m (iov_base u) (slice kb 0 n)) -> Q (0, if bool_decide (n > 0) then advance u n else u) s') ->
  wp (uiomove_out kb n u) Q E s.
Proof.
  intros Hp [] Hkb HQ. unfold uiomove_out. do 3 wp_base. apply wp_massert; [by apply bool_decide_eq_true_2|].
  destruct (decide (n = 0)) as [->|Hn].
  { cbn. destruct Hp as (Hs & Ha & <-). apply HQ. by apply user_write_refl. }
  destruct (Z.to_nat n) as [|k] eqn:Hk; [lia|]. cbn [out_loop]. rewrite bool_decide_eq_true_2 by lia.
  assert ((if bool_decide (iov_len u > n) then n else iov_len u) = n) as -> by (destruct (bool_decide_reflect (iov_len u > n)); lia).
  rewrite (bool_decide_eq_false_2 (n = 0)) by done. wp_base. apply (wp_copyout s a m); [done|done|lia|done|done|lia|done|].
  intros s' Hw. rewrite (bool_decide_eq_false_2 (0 ≠ 0)) by tauto. replace (n - n) with 0 by lia.
  specialize (HQ s' Hw). rewrite bool_decide_eq_true_2 in HQ by lia. destruct k; cbn [out_loop]; rewrite bool_decide_eq_false_2 by lia; by wp_base.
Qed.

Lemma room_advance s s' m a u n k l :
  room s m u n -> user_write s s' a l -> 0 < k <= n -> forall d, room s' (UserMem.uwrite m (iov_base u) d) (advance u k) (n - k).
Proof.
  intros [] [] Hk d. split; unfold advance; cbn [iov_base iov_len uio_resid uio_space]; try lia; [rewrite u32_small; lia|].
  apply mapped_uwrite. intros x Hx. apply rm_mapped0. lia.
Qed.

Lemma wp_zeros_out fuel : forall s a m n u (Q : Z * uio -> vm -> Prop) E,
  process s a m -> room s m u n -> n <= Z.of_nat fuel ->
  (forall s' u', user_write s s' a (UserMem.uwrite m (iov_base u) (zeros n)) -> Q (0, u') s') -> wp (zeros_out_loop fuel n u) Q E s.
Proof.
  induction fuel as [|fuel IH]; intros s a m n u Q E Hp Hr Hf HQ; pose proof (rm_n _ _ _ _ Hr) as Hn.
  { assert (n = 0) as -> by lia. cbn. apply HQ. destruct Hp as (Hs & Ha & <-). by apply user_write_refl. }
  cbn [zeros_out_loop]. destruct (decide (n = 0)) as [->|Hn0].
  { rewrite bool_decide_eq_false_2 by lia. wp_base. apply HQ. destruct Hp as (Hs & Ha & <-). by apply user_write_refl. }
  rewrite bool_decide_eq_true_2 by lia. set (amt := if bool_decide (16 > n) then n else 16).
  assert (0 < amt <= n /\ amt <= 16) as Hamt by (unfold amt; case_bool_decide; lia).
  assert (room s m u amt) as Hra.
  { destruct Hr. split; try done; try lia. intros x Hx. apply rm_mapped0. lia. }
  wp_base. apply (wp_uiomove_out s a m); [done|done|rewrite length_zeros; lia|]. rewrite slice_zeros by lia.
  intros s' Hw. cbn match. rewrite (bool_decide_eq_false_2 (0 ≠ 0)), (bool_decide_eq_true_2 (amt > 0)) by lia.
  apply (IH s' a (UserMem.uwrite m (iov_base u) (zeros amt))); [by eapply process_write|eapply room_advance; [done|done|lia]|lia|].
  intros s2 u' Hw2. apply HQ. eapply user_write_trans; [exact Hw|]. cbn [advance iov_base] in Hw2.
  replace (zeros n) with (zeros amt ++ zeros (n - amt)); [|rewrite <- zeros_app by lia; f_equal; lia].
  by rewrite UserMem.uwrite_app, length_zeros by lia.
Qed.

(** ** Segments *)

Section loadelf.
Context `{file}.

(** What the file holds for a segment: the bytes to load, then zeros. *)
Definition file_size (ph : phdr) : Z := if bool_decide (p_filesz ph > p_memsz ph) then p_memsz ph else p_filesz ph.
Definition contents (ph : phdr) : list Z := (read_at (s32 (p_offset ph)) (file_size ph)).2 ++ zeros (p_memsz ph - file_size ph).

Record segment_in_file (ph : phdr) : Prop := {
  sf_seg : segment_ok (p_vaddr ph) (p_memsz ph);
  sf_size : 0 <= p_filesz ph;
  sf_read : (read_at (s32 (p_offset ph)) (file_size ph)).1 = 0;
  sf_full : Z.of_nat (length (read_at (s32 (p_offset ph)) (file_size ph)).2) = file_size ph
}.

Lemma file_size_range ph : segment_in_file ph -> 0 <= file_size ph <= p_memsz ph.
Proof. intros [[_ Hs _] Hf _ _]. unfold file_size. case_bool_decide; lia. Qed.

Lemma length_segment ph : segment_in_file ph -> Z.of_nat (length (contents ph)) = p_memsz ph.
Proof.
  intros Hs. pose proof (file_size_range ph Hs). unfold contents. rewrite length_app, Nat2Z.inj_add, (sf_full _ Hs), length_zeros; lia.
Qed.

Lemma wp_load_phdr s a m ph (Q : unit -> vm -> Prop) E :
  process s a m -> segment_in_file ph -> mapped m (p_vaddr ph) (p_memsz ph) ->
  (forall s', user_write s s' a (UserMem.uwrite m (p_vaddr ph) (contents ph)) -> Q tt s') -> wp (load_phdr ph) Q E s.
Proof.
  intros Hp Hs Hmap HQ. pose proof (file_size_range ph Hs) as Hfs. destruct (id Hs) as [[Hv Hm Ht] Hf Hr Hfull]. unfold PAGE_SIZE, MIPS_KSEG0 in *.
  unfold load_phdr, load_segment. fold (file_size ph). do 2 wp_base. cbn zeta. set (u := mkUio _ _ _ _ _ _ _ _).
  unfold contents in HQ. wp_base. unfold vop_read. change (uio_offset u) with (s32 (p_offset ph)). change (uio_resid u) with (file_size ph).
  destruct (read_at (s32 (p_offset ph)) (file_size ph)) as [r d]. cbn [fst snd] in *. subst r. rewrite Hfull. wp_base.
  apply (wp_uiomove_out s a m); [done| |lia|].
  { split; cbn [u iov_base iov_len uio_resid uio_space]; try done; try (unfold MIPS_KSEG0; lia). intros x Hx. apply Hmap. lia. }
  rewrite slice_all by done. change (iov_base u) with (p_vaddr ph). intros s' Hw. cbn match. wp_base. cbn match. rewrite (bool_decide_eq_false_2 (0 ≠ 0)) by tauto.
  wp_base. apply wp_check; [intros _|done]. set (u1 := if bool_decide (file_size ph > 0) then _ else _).
  assert (uio_resid u1 = 0 /\ iov_base u1 = p_vaddr ph + file_size ph /\ iov_len u1 = p_memsz ph - file_size ph /\
    uio_space u1 = vmspace s /\ uio_rw u1 = UIO_READ) as (Hu1 & Hu2 & Hu3 & Hu4 & Hu5).
  { unfold u1. case_bool_decide; cbn; [rewrite Z.sub_diag; done|]. split_and!; try done; lia. }
  rewrite Hu1. rewrite (bool_decide_eq_false_2 (0 ≠ 0)) by tauto. rewrite UserMem.uwrite_app, Hfull in HQ. case_bool_decide as Hfill.
  - wp_base. unfold uiomovezeros_out. wp_base. apply wp_massert; [by apply bool_decide_eq_true_2|].
    apply (wp_zeros_out _ s' a (UserMem.uwrite m (p_vaddr ph) d)); [by eapply process_write| |lia|].
    + split; cbn [set_pos iov_base iov_len uio_resid uio_space]; rewrite ?Hu2, ?Hu3, ?Hu4, ?Z.add_0_l; try rewrite u32_small; try (unfold MIPS_KSEG0; lia).
      * symmetry. apply Hw.
      * apply mapped_uwrite. intros x Hx. apply Hmap. lia.
    + intros s2 u' Hw2. cbn match. apply wp_check; [intros _|done]. apply HQ. cbn [set_pos iov_base] in Hw2. rewrite Hu2 in Hw2.
      by eapply user_write_trans.
  - wp_base. replace (p_memsz ph - file_size ph) with 0 in HQ by lia. by apply HQ.
Qed.

(** ** The loop over the program headers *)

Fixpoint each (body : phdr -> VM unit) (l : list phdr) : VM unit :=
  match l with
  | [] => mret tt
  | ph :: l => _ ← body ph; each body l
  end.

Definition known (ph : phdr) : Prop :=
  p_type ph = PT_NULL \/ p_type ph = PT_PHDR \/ p_type ph = PT_MIPS_REGINFO \/ p_type ph = PT_LOAD.
Definition loadable (l : list phdr) : list phdr := filter (fun ph => p_type ph = PT_LOAD) l.

(** The header table as the file has it. *)
Definition phdr_at (eh : ehdr) (i : Z) (ph : phdr) : Prop :=
  exists d, read_at (s32 (u32 (e_phoff eh + i * e_phentsize eh))) SIZEOF_PHDR = (0, d) /\ Z.of_nat (length d) = SIZEOF_PHDR /\ phdr_of d = ph.

Lemma wp_read_struct off n d s (Q : list Z -> vm -> Prop) E : read_at off n = (0, d) -> Z.of_nat (length d) = n -> Q d s -> wp (read_struct off n) Q E s.
Proof.
  intros Hr Hl HQ. unfold read_struct. rewrite Hr, Hl. rewrite (bool_decide_eq_false_2 (0 ≠ 0)), (bool_decide_eq_false_2 (n - n ≠ 0)) by lia. by wp_base.
Qed.

Lemma wp_phdr_loop eh body l : forall i s (Q : unit -> vm -> Prop) E,
  (forall k ph, l !! k = Some ph -> phdr_at eh (i + Z.of_nat k) ph) -> Forall known l -> 0 <= i -> 0 <= e_phentsize eh ->
  (i + Z.of_nat (length l)) * e_phentsize eh <= INT_MAX ->
  wp (each body (loadable l)) Q E s -> wp (phdr_loop (length l) i eh body) Q E s.
Proof.
  induction l as [|ph l IH]; intros i s Q E Hat Hk Hi He Hmax Hwp; [done|]. cbn [length] in Hmax. cbn [length phdr_loop].
  apply Forall_cons in Hk as [Hk Hkl]. destruct (Hat 0%nat ph eq_refl) as (d & Hr & Hl & Hph). rewrite Z.add_0_r in Hr.
  wp_base. eapply wp_lift; [apply int_op_ok; unfold INT_MIN; nia|]. wp_base. eapply wp_read_struct; [exact Hr|exact Hl|]. rewrite Hph.
  assert (forall k ph, l !! k = Some ph -> phdr_at eh (i + 1 + Z.of_nat k) ph) as Hat'.
  { intros k ph' Hk'. replace (i + 1 + Z.of_nat k) with (i + Z.of_nat (S k)) by lia. by apply Hat. }
  unfold loadable in Hwp. destruct (decide (p_type ph = PT_LOAD)) as [Hload|Hno].
  - rewrite filter_cons_True in Hwp by done. cbn [each] in Hwp. rewrite Hload. cbn [orb].
    rewrite !(bool_decide_eq_false_2 (PT_LOAD = _)) by done. cbn [orb]. rewrite (bool_decide_eq_true_2 (PT_LOAD = PT_LOAD)) by done.
    wp_base. unfold wp in Hwp at 1. unfold mbind, M_bind in Hwp. unfold wp at 1. destruct (body ph s) as [[[e|[]] s']| |]; try done.
    apply IH; [done|done|lia|done|lia|]. exact Hwp.
  - rewrite filter_cons_False in Hwp by done.
    assert (bool_decide (p_type ph = PT_NULL) || bool_decide (p_type ph = PT_PHDR) || bool_decide (p_type ph = PT_MIPS_REGINFO) = true) as ->.
    { destruct Hk as [->|[->|[->|Hl']]]; [done..|]. by destruct Hno. }
    apply IH; [done|done|lia|done|lia|done].
Qed.

(** ** Executables *)

(** An executable with two loadable segments in user memory, of as many pages
    as dumbvm can map. *)
Record executable (eh : ehdr) (phs : list phdr) (ph1 ph2 : phdr) : Prop := {
  ex_ehdr : exists d, read_at 0 SIZEOF_EHDR = (0, d) /\ Z.of_nat (length d) = SIZEOF_EHDR /\ ehdr_of d = eh;
  ex_ok : ehdr_ok eh = true;
  ex_num : Z.of_nat (length phs) = e_phnum eh;
  ex_size : 0 <= e_phentsize eh /\ e_phnum eh * e_phentsize eh <= INT_MAX;
  ex_phs : forall k ph, phs !! k = Some ph -> phdr_at eh (Z.of_nat k) ph;
  ex_known : Forall known phs;
  ex_load : loadable phs = [ph1; ph2];
  ex_seg1 : segment_in_file ph1;
  ex_seg2 : segment_in_file ph2;
  ex_apart : apart (p_vaddr ph1, p_memsz ph1) (p_vaddr ph2, p_memsz ph2);
  ex_fits : npages (p_vaddr ph1) (p_memsz ph1) + npages (p_vaddr ph2) (p_memsz ph2) + DUMBVM_STACKPAGES <= NUM_TLB
}.

(** The memory [m] holds the segment [ph]. *)
Definition holds (m : gmap Z Z) (ph : phdr) : Prop :=
  forall k b, contents ph !! k = Some b -> m !! (p_vaddr ph + Z.of_nat k) = Some b.

Lemma uwrite_holds m ph l v : segment_in_file ph ->
  apart (p_vaddr ph, p_memsz ph) (v, Z.of_nat (length l)) -> holds (UserMem.uwrite (UserMem.uwrite m (p_vaddr ph) (contents ph)) v l) ph.
Proof.
  intros Hs Hap k b Hk. apply lookup_lt_Some in Hk as Hlt. pose proof (length_segment ph Hs). unfold apart in Hap. cbn [fst snd] in Hap.
  rewrite !UserMem.uwrite_lookup. rewrite decide_False, decide_True by lia.
  by replace (Z.to_nat (p_vaddr ph + Z.of_nat k - p_vaddr ph)) with k by lia.
Qed.

Lemma uwrite_holds_last m ph : holds (UserMem.uwrite m (p_vaddr ph) (contents ph)) ph.
Proof.
  intros k b Hk. apply lookup_lt_Some in Hk as Hlt. rewrite UserMem.uwrite_lookup, decide_True by lia.
  by replace (Z.to_nat (p_vaddr ph + Z.of_nat k - p_vaddr ph)) with k by lia.
Qed.

(** The segments of a program lie in its regions. *)
Lemma program_mapped ph f v1 sz1 v2 sz2 v sz : segment_ok v sz -> (v = v1 /\ sz = sz1) \/ (v = v2 /\ sz = sz2) ->
  mapped (view ph (placed f (program_as v1 sz1 v2 sz2))) v sz.
Proof.
  intros Hs Hor x Hx. destruct (segment_pages v sz Hs) as (B & _ & _ & T & _). apply view_dom.
  destruct Hor as [[-> ->]|[-> ->]]; [exists R1|exists R2]; unfold in_region; cbn [vlo npg placed program_as as_vbase1 as_npages1 as_vbase2 as_npages2]; lia.
Qed.

Context (eh : ehdr) (phs : list phdr) (ph1 ph2 : phdr) (Hex : executable eh phs ph1 ph2).

Definition needed : Z := (npages (p_vaddr ph1) (p_memsz ph1) + npages (p_vaddr ph2) (p_memsz ph2) + DUMBVM_STACKPAGES) * PAGE_SIZE.
Definition the_program : addrspace := program_as (p_vaddr ph1) (p_memsz ph1) (p_vaddr ph2) (p_memsz ph2).

Lemma wp_loop body s (Q : unit -> vm -> Prop) E :
  wp (each body [ph1; ph2]) Q E s -> wp (phdr_loop (Z.to_nat (e_phnum eh)) 0 eh body) Q E s.
Proof.
  intros Hwp. destruct Hex. rewrite <- ex_num0, Nat2Z.id. apply wp_phdr_loop; [|done|done|tauto| |by rewrite ex_load0].
  - intros k ph Hk. by apply ex_phs0.
  - rewrite Z.add_0_l, ex_num0. tauto.
Qed.

Lemma wp_define_segments s (Q : unit -> vm -> Prop) E :
  vm_inv s -> spaces s !! vmspace s = Some empty_as ->
  (forall s', vm_inv s' -> touched (vmspace s) the_program s s' -> mach s' = mach s -> Q tt s') ->
  wp (each define_segment [ph1; ph2]) Q E s.
Proof.
  intros Hi Hp HQ. cbn [each]. unfold define_segment. do 3 wp_base.
  pose proof (wp_define_two (vmspace s) s (p_vaddr ph1) (p_memsz ph1) (p_vaddr ph2) (p_memsz ph2)
    (Z.land (p_flags ph1) 4) (Z.land (p_flags ph1) 2) (Z.land (p_flags ph1) 1) (Z.land (p_flags ph2) 4) (Z.land (p_flags ph2) 2) (Z.land (p_flags ph2) 1)
    (fun _ s2 => vm_inv s2 /\ touched (vmspace s) the_program s s2 /\ mach s2 = mach s) E Hi Hp (sf_seg _ (ex_seg1 _ _ _ _ Hex)) (sf_seg _ (ex_seg2 _ _ _ _ Hex))) as Hd.
  specialize (Hd ltac:(cbn beta; by intros)).
  assert (wp (as_define_region (vmspace s) (p_vaddr ph1) (p_memsz ph1) (Z.land (p_flags ph1) 4) (Z.land (p_flags ph1) 2) (Z.land (p_flags ph1) 1))
    (fun _ s1 => vmspace s1 = vmspace s) (fun _ _ => True) s) as Hv.
  { apply (wp_as_define_region _ _ _ _ _ _ _ empty_as); try done. apply (ex_seg1 _ _ _ _ Hex). }
  unfold wp in Hd at 1, Hv. unfold wp at 1. destruct (as_define_region _ _ _ _ _ _ s) as [[[e|[]] s1]| |]; [exact Hd| |done..].
  do 3 wp_base. rewrite Hv. eapply wp_mono; [exact Hd| |done]. cbn beta. intros [] s2 (Hi2 & Ht & Hm). wp_base. by apply HQ.
Qed.

(** Everything but the current space, which is empty, is settled. *)
Definition starting (s : vm) : Prop :=
  vm_inv s /\ spaces s !! vmspace s = Some empty_as /\ forall q b, q ≠ vmspace s -> spaces s !! q = Some b -> is_loaded b /\ fits_tlb b.

Lemma wp_load_elf s (Q : Z -> vm -> Prop) (E : Z -> vm -> Prop) :
  starting s ->
  (forall s' m, settled s' -> vmspace s' = vmspace s -> procs s' = <[vmspace s := m]> (procs s) -> holds m ph1 -> holds m ph2 -> Q (e_entry eh) s') ->
  (forall s', firstpaddr (mach s) + needed > lastpaddr (mach s) -> vmspace s' = vmspace s -> (forall q, q ≠ vmspace s -> procs s' !! q = procs s !! q) -> E ENOMEM s') ->
  wp load_elf Q E s.
Proof.
  intros (Hi & Hp & Hall) HQ HE. destruct (ex_ehdr _ _ _ _ Hex) as (d & Hr & Hl & Hd). unfold load_elf. wp_base.
  eapply wp_read_struct; [exact Hr|exact Hl|]. rewrite Hd, (ex_ok _ _ _ _ Hex). cbn [negb]. wp_base. apply wp_loop, wp_define_segments; [done|done|].
  intros s1 Hi1 Ht1 Hm1. do 2 wp_base. rewrite (tc_vmspace _ _ _ _ Ht1). wp_base.
  pose proof (sf_seg _ (ex_seg1 _ _ _ _ Hex)) as Sg1. pose proof (sf_seg _ (ex_seg2 _ _ _ _ Hex)) as Sg2.
  pose proof (program_layout _ _ _ _ Sg1 Sg2) as Hlay. fold the_program in Hlay.
  apply (wp_as_prepare_load _ the_program); [done|rewrite (tc_spaces _ _ _ _ Ht1); apply lookup_insert_eq|done|done..| |].
  2: { intros s2 a' Hshort [Hsp Hph Hvs _ _ _] _ _. destruct Ht1 as [Hsp1 Hph1 Hvs1 _ _ _]. rewrite Hm1 in Hshort. apply HE; [exact Hshort|congruence|].
    intros q Hq. unfold procs. rewrite !lookup_omap, Hsp, Hsp1, !lookup_insert_ne by done. by rewrite Hph, Hph1. }
  intros s2 Ht2 Hi2 _. set (a := placed _ _) in *. destruct Ht1 as [Hsp1 Hph1 Hvs1 _ _ _]. destruct Ht2 as [Hsp2 Hph2 Hvs2 _ _ _].
  rewrite Hsp1, insert_insert_eq in Hsp2. rewrite Hph1 in Hph2. rewrite Hvs1 in Hvs2.
  assert (is_loaded a) as Hla.
  { pose proof (frame_placed (firstpaddr (mach s1)) _ RS Hlay) as Hfp. pose proof (r_first _ (i_ram _ Hi1)). unfold frame in Hfp. cbn [fst plo] in Hfp. unfold is_loaded, a. lia. }
  assert (process s2 a (view (phys s) a)) as Hpr.
  { split_and!; [|by rewrite Hvs2, Hsp2, lookup_insert_eq|by rewrite Hph2]. split; [done|]. intros q b. rewrite Hsp2.
    intros [[<- <-]|[Hne Hq]]%lookup_insert_Some; [|by apply (Hall q)]. split; [done|]. exact (ex_fits _ _ _ _ Hex). }
  assert (procs s2 = <[vmspace s := view (phys s) a]> (procs s)) as Hprocs by (by apply procs_insert).
  wp_base. apply wp_loop. cbn [each]. wp_base. apply (wp_load_phdr s2 a (view (phys s) a)); [done|apply (ex_seg1 _ _ _ _ Hex)|by apply program_mapped; [|auto]|].
  intros s3 Hw3. wp_base. apply (wp_load_phdr s3 a (UserMem.uwrite (view (phys s) a) (p_vaddr ph1) (contents ph1))); [by eapply process_write|apply (ex_seg2 _ _ _ _ Hex)| |].
  { apply mapped_uwrite, program_mapped; [done|auto]. }
  intros s4 Hw4. pose proof (user_write_trans _ _ _ _ _ _ Hw3 Hw4) as Hw. unfold as_complete_load. repeat wp_base.
  eapply HQ; [apply Hw|rewrite (uw_cur _ _ _ _ Hw); done| | |].
  - rewrite (uw_procs _ _ _ _ Hw), Hprocs, Hvs2. apply insert_insert_eq.
  - apply uwrite_holds; [apply (ex_seg1 _ _ _ _ Hex)|]. rewrite (length_segment ph2) by apply (ex_seg2 _ _ _ _ Hex). apply (ex_apart _ _ _ _ Hex).
  - apply uwrite_holds_last.
Qed.
End loadelf.
End LoadElfSpec.
