(* ===== verification/LoadElfTheorems.v ===== *)
(** * Running a program

    [runprogram] on any executable with two segments, and a concrete one. *)

From S2P Require Import Prelude UserMem Uio SfsFormat Ram DumbVm DumbVmSpec DumbVmOps DumbVmTheorems VmCopy LoadElf LoadElfSpec.

Module LoadElfTheorems.
Import Uio Ram DumbVm DumbVmSpec DumbVmOps DumbVmTheorems VmCopy LoadElf LoadElfSpec.

Section theorems.
Context `{file} (eh : ehdr) (phs : list phdr) (ph1 ph2 : phdr).

Lemma wp_on_vm {A} (m : VM A) n s (Q : A -> vm * nat -> Prop) E :
  wp m (fun a s' => Q a (s', n)) (fun e s' => E e (s', n)) s -> wp (on_vm m) Q E (s, n).
Proof. unfold wp, on_vm. by destruct (m s) as [[[e|a] s']| |]. Qed.

Lemma wp_runprogram s (Q : Z * Z -> vm -> Prop) (E : Z -> vm -> Prop) :
  executable eh phs ph1 ph2 -> settled s -> vmspace s = NULL ->
  (forall s' m, settled s' -> procs s !! vmspace s' = None -> procs s' = <[vmspace s' := m]> (procs s) -> holds m ph1 -> holds m ph2 -> Q (USERSTACK, e_entry eh) s') ->
  (forall s', vmspace s' = NULL -> procs s' = procs s -> E ENOMEM s') ->
  (forall s', firstpaddr (mach s) + needed ph1 ph2 > lastpaddr (mach s) -> procs s !! vmspace s' = None ->
    (forall q, q ≠ vmspace s' -> procs s' !! q = procs s !! q) -> E ENOMEM s') ->
  wp (runprogram 0) (fun r sn => snd sn = 1%nat /\ Q r (fst sn)) (fun e sn => snd sn = 1%nat /\ E e (fst sn)) (s, 0%nat).
Proof.
  intros Hex Hs Hv HQ HE1 HE2. destruct (id Hs) as [Hi Hall]. unfold runprogram, vfs_close. wp_base. apply wp_check; [intros _|done].
  wp_base. apply wp_on_vm. wp_base. wp_base.
  apply wp_massert; [by apply bool_decide_eq_true_2|]. wp_base. apply wp_on_vm. wp_base. apply wp_as_create; [done|..].
  { intros al _. do 3 wp_base. rewrite bool_decide_eq_true_2 by done. do 3 wp_base. split; [done|]. apply HE1; [done|by apply same_procs]. }
  intros p al Hp Hfresh _ Hi1. do 3 wp_base. rewrite bool_decide_eq_false_2 by done. wp_base. apply wp_on_vm, wp_as_activate; [apply Hi1|].
  intros l Hl Hno. set (s1 := set_spaces _ _) in *. set (s2 := set_tlb _ _).
  assert (starting s2) as Hst.
  { split_and!; [apply activated_inv; [done|right; exists empty_as; apply lookup_insert_eq|done|done]|apply lookup_insert_eq|].
    intros q b Hq Hb. change (spaces s2) with (<[p := empty_as]> (spaces s)) in Hb. apply lookup_insert_Some in Hb as [[<- _]|[_ Hb]]; [done|by apply (Hall q)]. }
  assert (procs s2 = procs s) as Hpr2.
  { transitivity (procs s1); [by apply same_procs|]. apply (procs_unloaded (set_allocs s al)); [by left|]. unfold is_loaded. cbn. tauto. }
  assert (procs s !! p = None) as Hnp by (unfold procs; by rewrite lookup_omap, Hfresh).
  wp_base. apply wp_try, wp_on_vm, (wp_load_elf eh phs ph1 ph2 Hex); [done|..].
  - intros s3 m Hs3 Hv3 Hpr3 Hh1 Hh2. change (vmspace s2) with p in *. rewrite Hpr2 in Hpr3. do 3 wp_base.
    apply wp_on_vm. unfold as_define_stack. wp_base.
    destruct (settled_cur s3 Hs3) as (a & Ha & Hla & _); [congruence|]. rewrite Hv3 in Ha. eapply wp_get_as; [exact Ha|].
    wp_base. apply wp_massert; [by apply bool_decide_eq_true_2|]. repeat wp_base. rewrite <- Hv3 in Hpr3, Hnp. split; [done|]. by apply (HQ s3 m).
  - intros s3 Hshort Hv3 Hpr3. do 3 wp_base. split; [done|]. change (E ENOMEM s3). apply HE2; [exact Hshort|by rewrite Hv3|]. rewrite Hv3. intros q Hq. by rewrite Hpr3, Hpr2.
Qed.

(** C11. [runprogram] on an executable with two segments either starts the program
    or fails with ENOMEM.  When it starts, the processor enters user mode at the
    entry point with the stack at the top of user memory, the new process's
    memory holds the bytes of both segments followed by zeros up to their size
    in memory, and no other process's memory has changed.  In both cases the
    file is closed once. *)
Theorem runprogram_loads s :
  executable eh phs ph1 ph2 -> settled s -> vmspace s = NULL ->
  exists r s', runprogram 0 (s, 0%nat) = Done (r, (s', 1%nat)) /\ procs s !! vmspace s' = None /\ (forall q, q ≠ vmspace s' -> procs s' !! q = procs s !! q) /\
    match r with
    | inr (stackptr, entrypoint) => stackptr = USERSTACK /\ entrypoint = e_entry eh /\
        exists m, procs s' !! vmspace s' = Some m /\ holds m ph1 /\ holds m ph2
    | inl e => e = ENOMEM /\ (vmspace s' = NULL \/ firstpaddr (mach s) + needed ph1 ph2 > lastpaddr (mach s))
    end.
Proof.
  intros Hex Hs Hv. set (P := fun s' => procs s !! vmspace s' = None /\ forall q, q ≠ vmspace s' -> procs s' !! q = procs s !! q).
  pose (Q := fun (r : Z * Z) s' => P s' /\ r.1 = USERSTACK /\ r.2 = e_entry eh /\ exists m, procs s' !! vmspace s' = Some m /\ holds m ph1 /\ holds m ph2).
  pose (E := fun e s' => P s' /\ e = ENOMEM /\ (vmspace s' = NULL \/ firstpaddr (mach s) + needed ph1 ph2 > lastpaddr (mach s))).
  assert (wp (runprogram 0) (fun r sn => snd sn = 1%nat /\ Q r (fst sn)) (fun e sn => snd sn = 1%nat /\ E e (fst sn)) (s, 0%nat)) as Hwp.
  { apply wp_runprogram; [done|done|done|..]; unfold Q, E.
    - intros s' m Hs' Hn Hpr Hh1 Hh2. split; [split; [done|]|].
      + intros q Hq. rewrite Hpr. by apply lookup_insert_ne.
      + split; [done|]. split; [done|]. exists m. by rewrite Hpr, lookup_insert_eq.
    - intros s' Hv' Hpr. split; [split; [by rewrite Hv'; apply procs_NULL, Hs|by rewrite Hpr]|auto].
    - intros s' Hshort Hn Hq. split; [by split|auto]. }
  apply wp_done in Hwp as (r & [s' n] & Hrun & Hr). destruct r as [e|[sp en]]; destruct Hr as [Hn Hr]; cbn [fst snd] in Hn, Hr; subst n;
    [exists (inl e), s'|exists (inr (sp, en)), s']; (split; [done|]); destruct Hr as [[] ?]; auto.
Qed.

(** A file that is shorter than an ELF header, or whose header is not that of a
    big-endian 32-bit MIPS executable, is refused with ENOEXEC and nothing is
    changed. *)
Theorem load_elf_rejects s d :
  read_at 0 SIZEOF_EHDR = (0, d) -> Z.of_nat (length d) ≠ SIZEOF_EHDR \/ ehdr_ok (ehdr_of d) = false ->
  load_elf s = Done (inl ENOEXEC, s).
Proof.
  intros Hr Hbad. unfold load_elf, read_struct, mbind, M_bind. rewrite Hr. rewrite (bool_decide_eq_false_2 (0 ≠ 0)) by tauto.
  destruct (decide (Z.of_nat (length d) = SIZEOF_EHDR)) as [Hl|Hl].
  - rewrite Hl, (bool_decide_eq_false_2 (SIZEOF_EHDR - SIZEOF_EHDR ≠ 0)) by lia. destruct Hbad as [?|Hbad]; [done|].
    unfold mret, M_ret. by rewrite Hbad.
  - by rewrite bool_decide_eq_true_2 by lia.
Qed.
End theorems.

(** ** A program *)

(** A file with the bytes [content]. *)
#[local] Program Instance bytes_file (content : list Z) : file := {
  read_at off n := (0, if bool_decide (0 <= off) then slice content off n else [])
}.
Next Obligation.
  intros content off n Hn. cbn [snd]. case_bool_decide; [|cbn; lia]. unfold slice. rewrite length_take. lia.
Qed.

Definition ex_image : list Z :=
  [127; 69; 76; 70; 1; 2; 1; 0; 0; 0; 0; 0; 0; 0; 0; 0;  0; 2;  0; 8;  0; 0; 0; 1;  0; 64; 0; 0;  0; 0; 0; 52;
   0; 0; 0; 0;  0; 0; 0; 0;  0; 52;  0; 32;  0; 2;  0; 0;  0; 0;  0; 0] ++
  [0; 0; 0; 1;  0; 0; 0; 116;  0; 64; 0; 0;  0; 0; 0; 0;  0; 0; 0; 4;  0; 0; 0; 4;  0; 0; 0; 5;  0; 0; 0; 0] ++
  [0; 0; 0; 1;  0; 0; 0; 120;  16; 0; 0; 0;  0; 0; 0; 0;  0; 0; 0; 2;  0; 0; 0; 10;  0; 0; 0; 6;  0; 0; 0; 0] ++
  [1; 2; 3; 4; 5; 6].

Definition ex_eh : ehdr := ehdr_of (slice ex_image 0 52).
Definition ex_ph1 : phdr := phdr_of (slice ex_image 52 32).
Definition ex_ph2 : phdr := phdr_of (slice ex_image 84 32).

Lemma ex_executable : executable (H := bytes_file ex_image) ex_eh [ex_ph1; ex_ph2] ex_ph1 ex_ph2.
Proof.
  split; try done.
  - by exists (slice ex_image 0 52).
  - intros [|[|k]] ph Hk; cbn in Hk; try done; injection Hk as <-; [by exists (slice ex_image 52 32)|by exists (slice ex_image 84 32)].
  - repeat constructor; right; right; right; done.
  - left. done.
Qed.

Lemma runprogram_loads_witness : let s := boot_vm 262144 1048576 (fun _ => 0) [2147745792] in
  exists r s', runprogram (H := bytes_file ex_image) 0 (s, 0%nat) = Done (r, (s', 1%nat)) /\ procs s !! vmspace s' = None /\
    (forall q, q ≠ vmspace s' -> procs s' !! q = procs s !! q) /\
    match r with
    | inr (stackptr, entrypoint) => stackptr = USERSTACK /\ entrypoint = 4194304 /\
        exists m, procs s' !! vmspace s' = Some m /\ holds (H := bytes_file ex_image) m ex_ph1 /\ holds (H := bytes_file ex_image) m ex_ph2
    | inl e => e = ENOMEM /\ (vmspace s' = NULL \/ firstpaddr (mach s) + needed ex_ph1 ex_ph2 > lastpaddr (mach s))
    end.
Proof.
  apply (runprogram_loads (H := bytes_file ex_image) ex_eh [ex_ph1; ex_ph2] ex_ph1 ex_ph2); [apply ex_executable|by apply boot_settled|done].
Defined.

Lemma load_elf_rejects_witness : let s := boot_vm 262144 1048576 (fun _ => 0) [] in
  load_elf (H := bytes_file [127; 69; 76]) s = Done (inl ENOEXEC, s).
Proof. apply (load_elf_rejects (H := bytes_file [127; 69; 76]) _ [127; 69; 76]); [done|left; done]. Defined.
End LoadElfTheorems.
