(* ===== verification/Vfs.v ===== *)
(** * The VFS layer: [kern/fs/vfs/vfslist.c], [vfslookup.c], [vfspath.c], [vfscwd.c]

    The VFS layer owns the table of named devices, the boot file system's root
    and the current directory, and turns pathnames into calls on vnodes.  What
    is behind a vnode is an interface, as in [kern/include/vnode.h] and
    [fs.h]: the class [vnode_layer] has the [VOP_]- and [FSOP_]-operations the
    layer calls, on a state [T] of their own.  [VnodeLaws] states what the
    operations promise about reference counts; the theorems about the VFS
    layer are proved from these laws.

    Vnodes, file systems and devices are addresses; a pathname is the bytes of
    the string before its terminating NUL.  The two locks are flags: acquiring
    a lock the thread already holds would block for ever and panics here. *)

From S2P Require Import Prelude Uio.
Import Uio.

Module Vfs.

(** ** The interface to vnodes and file systems *)

Class vnode_layer (T : Type) := {
  VOP_INCREF : ptr -> M T unit;
  VOP_DECREF : ptr -> M T unit;
  VOP_INCOPEN : ptr -> M T unit;
  VOP_DECOPEN : ptr -> M T unit;
  VOP_OPEN : ptr -> Z -> M T unit;
  VOP_GETTYPE : ptr -> M T Z;
  VOP_TRUNCATE : ptr -> Z -> M T unit;
  VOP_READLINK : ptr -> M T unit;
  VOP_NAMEFILE : ptr -> M T unit;
  VOP_CREAT : ptr -> list Z -> bool -> M T ptr;
  VOP_SYMLINK : ptr -> list Z -> list Z -> M T unit;
  VOP_MKDIR : ptr -> list Z -> M T unit;
  VOP_LINK : ptr -> list Z -> ptr -> M T unit;
  VOP_REMOVE : ptr -> list Z -> M T unit;
  VOP_RMDIR : ptr -> list Z -> M T unit;
  VOP_RENAME : ptr -> list Z -> ptr -> list Z -> M T unit;
  VOP_LOOKUP : ptr -> list Z -> M T ptr;
  (* the parent, and the last component in a buffer of the given length *)
  VOP_LOOKPARENT : ptr -> list Z -> Z -> M T (ptr * list Z);
  FSOP_SYNC : ptr -> M T unit;
  FSOP_GETVOLNAME : ptr -> T -> option (list Z);
  FSOP_GETROOT : ptr -> M T ptr;
  FSOP_UNMOUNT : ptr -> M T unit;
  vn_fs : ptr -> T -> ptr;
  (* [dev_create_vnode] of [device.c], and [kfree] of the vnode it made *)
  dev_create_vnode : ptr -> M T ptr;
  kfree_vnode : ptr -> M T unit;
  (* [uiomove] of kernel bytes to the caller's [uio] *)
  uiomove_out : list Z -> M T unit
}.

(** ** State *)

Record knowndev := mkKd {
  kd_name : list Z;
  kd_rawname : option (list Z);
  kd_device : ptr;
  kd_vnode : ptr;
  kd_fs : ptr
}.

Definition set_fs (kd : knowndev) (fs : ptr) : knowndev :=
  mkKd (kd_name kd) (kd_rawname kd) (kd_device kd) (kd_vnode kd) fs.

(** Constants of [kern/unistd.h], [kern/limits.h], [kern/stat.h]. *)
Definition O_RDONLY : Z := 0.
Definition O_WRONLY : Z := 1.
Definition O_RDWR : Z := 2.
Definition O_CREAT : Z := 4.
Definition O_EXCL : Z := 8.
Definition O_TRUNC : Z := 16.
Definition O_APPEND : Z := 32.
Definition O_ACCMODE : Z := 3.
Definition NAME_MAX : Z := 255.
Definition S_IFMT : Z := 28672.
Definition S_IFDIR : Z := 8192.
Definition S_ISDIR (mode : Z) : bool := bool_decide (Z.land mode S_IFMT = S_IFDIR).

Definition COLON : Z := 58.
Definition SLASH : Z := 47.
(** "raw" and "null" *)
Definition str_raw : list Z := [114; 97; 119].
Definition str_null : list Z := [110; 117; 108; 108].

Section vfs.
Context {T : Type} `{vnode_layer T}.

Record vfs := mkVfs {
  knowndevs : list knowndev;
  knowndevs_lock : bool;
  bootfs_vnode : ptr;
  bootfs_lock : bool;
  t_cwd : ptr;
  low : T;
  orc : oracle
}.

Definition set_knowndevs (s : vfs) x :=
  mkVfs x (knowndevs_lock s) (bootfs_vnode s) (bootfs_lock s) (t_cwd s) (low s) (orc s).
Definition set_klock (s : vfs) x :=
  mkVfs (knowndevs s) x (bootfs_vnode s) (bootfs_lock s) (t_cwd s) (low s) (orc s).
Definition set_bootfs (s : vfs) x :=
  mkVfs (knowndevs s) (knowndevs_lock s) x (bootfs_lock s) (t_cwd s) (low s) (orc s).
Definition set_block (s : vfs) x :=
  mkVfs (knowndevs s) (knowndevs_lock s) (bootfs_vnode s) x (t_cwd s) (low s) (orc s).
Definition set_cwd (s : vfs) x :=
  mkVfs (knowndevs s) (knowndevs_lock s) (bootfs_vnode s) (bootfs_lock s) x (low s) (orc s).
Definition set_low (s : vfs) x :=
  mkVfs (knowndevs s) (knowndevs_lock s) (bootfs_vnode s) (bootfs_lock s) (t_cwd s) x (orc s).
Definition set_orc (s : vfs) x :=
  mkVfs (knowndevs s) (knowndevs_lock s) (bootfs_vnode s) (bootfs_lock s) (t_cwd s) (low s) x.

Abbreviation VFS := (M vfs).

(** A call of an operation of the layer below. *)
Definition vop {A} (m : M T A) : VFS A := fun s =>
  match m (low s) with
  | Done (r, t) => Done (r, set_low s t)
  | Panic => Panic
  | Stuck => Stuck
  end.

(** [return result;] after the clean-up that follows a call. *)
Definition give {A} (r : Z + A) : VFS A :=
  match r with inl e => fail e | inr a => mret a end.

Definition kmalloc : VFS bool := fun s =>
  let '(ok, o) := kmalloc_ok (orc s) in Done (inr ok, set_orc s o).

Definition vfs_lock_create : VFS bool :=
  ok ← kmalloc;
  if ok : bool then kmalloc else mret false.

Definition acquire_knowndevs : VFS unit :=
  s ← get; _ ← massert (negb (knowndevs_lock s)); modify (fun s => set_klock s true).
Definition release_knowndevs : VFS unit :=
  s ← get; _ ← massert (knowndevs_lock s); modify (fun s => set_klock s false).
Definition acquire_bootfs : VFS unit :=
  s ← get; _ ← massert (negb (bootfs_lock s)); modify (fun s => set_block s true).
Definition release_bootfs : VFS unit :=
  s ← get; _ ← massert (bootfs_lock s); modify (fun s => set_block s false).

(** ** The table of devices: [vfslist.c] *)

Fixpoint vfs_sync_loop (kds : list knowndev) : VFS unit :=
  match kds with
  | [] => mret tt
  | dev :: rest =>
      _ ← (if bool_decide (kd_fs dev ≠ NULL) then _ ← try (vop (FSOP_SYNC (kd_fs dev))); mret tt
           else mret tt);
      vfs_sync_loop rest
  end.

Definition vfs_sync : VFS unit :=
  _ ← acquire_knowndevs;
  s ← get;
  _ ← vfs_sync_loop (knowndevs s);
  release_knowndevs.

(** The loop of [vfs_getroot] with its four tests. *)
Fixpoint getroot_loop (devname : list Z) (kds : list knowndev) : VFS ptr :=
  match kds with
  | [] => fail ENODEV
  | kd :: rest =>
      s ← get;
      let named := bool_decide (kd_name kd = devname) in
      if bool_decide (kd_fs kd ≠ NULL) &&
         (named || bool_decide (FSOP_GETVOLNAME (kd_fs kd) (low s) = Some devname)) then
        vop (FSOP_GETROOT (kd_fs kd))
      else if bool_decide (kd_fs kd = NULL) && bool_decide (kd_rawname kd ≠ None) && named then
        fail ENXIO
      else if named then
        _ ← massert (bool_decide (kd_fs kd = NULL));
        _ ← massert (bool_decide (kd_rawname kd = None));
        _ ← massert (bool_decide (kd_device kd ≠ NULL));
        _ ← vop (VOP_INCREF (kd_vnode kd));
        mret (kd_vnode kd)
      else if bool_decide (kd_rawname kd = Some devname) then
        _ ← massert (bool_decide (kd_device kd ≠ NULL));
        _ ← vop (VOP_INCREF (kd_vnode kd));
        mret (kd_vnode kd)
      else getroot_loop devname rest
  end.

Definition vfs_getroot (devname : list Z) : VFS ptr :=
  _ ← acquire_knowndevs;
  s ← get;
  r ← try (getroot_loop devname (knowndevs s));
  _ ← release_knowndevs;
  give r.

Fixpoint getdevname_loop (fs : ptr) (kds : list knowndev) : option (list Z) :=
  match kds with
  | [] => None
  | kd :: rest => if bool_decide (kd_fs kd = fs) then Some (kd_name kd) else getdevname_loop fs rest
  end.

Definition vfs_getdevname (fs : ptr) : VFS (option (list Z)) :=
  _ ← massert (bool_decide (fs ≠ NULL));
  _ ← acquire_knowndevs;
  s ← get;
  let name := getdevname_loop fs (knowndevs s) in
  _ ← release_knowndevs;
  mret name.

Definition mkrawname (name : list Z) : VFS (option (list Z)) :=
  ok ← kmalloc;
  mret (if ok : bool then Some (name ++ str_raw) else None).

Definition samestring (a b : option (list Z)) : bool :=
  match a, b with
  | Some a, Some b => bool_decide (a = b)
  | _, _ => false
  end.

Definition samestring3 (a b c d : option (list Z)) : bool :=
  samestring a b || samestring a c || samestring a d.

Fixpoint badnames_loop (t : T) (n1 n2 n3 : option (list Z)) (kds : list knowndev) : bool :=
  match kds with
  | [] => false
  | kd :: rest =>
      if bool_decide (kd_fs kd ≠ NULL) && samestring3 (FSOP_GETVOLNAME (kd_fs kd) t) n1 n2 n3 then true
      else if samestring3 (kd_rawname kd) n1 n2 n3 || samestring3 (Some (kd_name kd)) n1 n2 n3 then true
      else badnames_loop t n1 n2 n3 rest
  end.

Definition badnames (n1 n2 n3 : option (list Z)) : VFS bool :=
  s ← get;
  _ ← massert (knowndevs_lock s);
  mret (badnames_loop (low s) n1 n2 n3 (knowndevs s)).

(** [array_add] on the table: it fails when the array has to grow and there is
    no memory. *)
Definition knowndevs_add (kd : knowndev) : VFS unit :=
  ok ← kmalloc;
  if ok : bool then modify (fun s => set_knowndevs s (knowndevs s ++ [kd])) else fail ENOMEM.

Definition vfs_doadd (dname : list Z) (mountable : bool) (dev fs : ptr) : VFS unit :=
  ok ← kmalloc;
  if negb ok then fail ENOMEM
  else
    rawname ← (if mountable then mkrawname dname else mret None);
    if mountable && bool_decide (rawname = None) then fail ENOMEM
    else
      vnode ← vop (dev_create_vnode dev);
      if bool_decide (vnode = NULL) then fail ENOMEM
      else
        ok ← kmalloc;
        if negb ok then
          _ ← vop (kfree_vnode vnode);
          fail ENOMEM
        else
          s ← get;
          let volname := if bool_decide (fs ≠ NULL) then FSOP_GETVOLNAME fs (low s) else None in
          _ ← acquire_knowndevs;
          bad ← badnames (Some dname) rawname volname;
          r ← (if bad : bool then mret (inl EEXIST)
               else try (knowndevs_add (mkKd dname rawname dev vnode fs)));
          _ ← release_knowndevs;
          give r.

Definition vfs_adddev (devname : list Z) (dev : ptr) (mountable : bool) : VFS unit :=
  vfs_doadd devname mountable dev NULL.

Definition vfs_addfs (devname : list Z) (fs : ptr) : VFS unit := vfs_doadd devname false NULL fs.

(** The index of the device in the table stands for the pointer to it. *)
Fixpoint findmount_loop (devname : list Z) (i : Z) (kds : list knowndev) : option Z :=
  match kds with
  | [] => None
  | dev :: rest =>
      if bool_decide (kd_rawname dev = None) then findmount_loop devname (i + 1) rest
      else if bool_decide (devname = kd_name dev) then Some i
      else findmount_loop devname (i + 1) rest
  end.

Definition findmount (devname : list Z) : VFS Z :=
  s ← get;
  _ ← massert (knowndevs_lock s);
  match findmount_loop devname 0 (knowndevs s) with
  | Some i => mret i
  | None => fail ENODEV
  end.

(** [kd->kd_fs = fs] *)
Definition assign_fs (i : Z) (fs : ptr) : VFS unit :=
  s ← get;
  kd ← lift (getZ (knowndevs s) i);
  l ← lift (setZ (knowndevs s) i (set_fs kd fs));
  put (set_knowndevs s l).

Definition mount_locked (devname : list Z) (mountfunc : ptr -> M T ptr) : VFS unit :=
  i ← findmount devname;
  s ← get;
  kd ← lift (getZ (knowndevs s) i);
  if bool_decide (kd_fs kd ≠ NULL) then fail EBUSY
  else
    _ ← massert (bool_decide (kd_rawname kd ≠ None));
    _ ← massert (bool_decide (kd_device kd ≠ NULL));
    fs ← vop (mountfunc (kd_device kd));
    _ ← massert (bool_decide (fs ≠ NULL));
    assign_fs i fs.

Definition vfs_mount (devname : list Z) (mountfunc : ptr -> M T ptr) : VFS unit :=
  _ ← acquire_knowndevs;
  r ← try (mount_locked devname mountfunc);
  _ ← release_knowndevs;
  give r.

Definition unmount_locked (devname : list Z) : VFS unit :=
  i ← findmount devname;
  s ← get;
  kd ← lift (getZ (knowndevs s) i);
  if bool_decide (kd_fs kd = NULL) then fail EINVAL
  else
    _ ← massert (bool_decide (kd_rawname kd ≠ None));
    _ ← massert (bool_decide (kd_device kd ≠ NULL));
    _ ← vop (FSOP_SYNC (kd_fs kd));
    _ ← vop (FSOP_UNMOUNT (kd_fs kd));
    assign_fs i NULL.

Definition vfs_unmount (devname : list Z) : VFS unit :=
  _ ← acquire_knowndevs;
  r ← try (unmount_locked devname);
  _ ← release_knowndevs;
  give r.

(** The body of the loop of [vfs_unmountall]: a second [FSOP_SYNC] when the
    first fails, and the file system is dropped only when [FSOP_UNMOUNT]
    succeeds. *)
Definition unmount_one (i : Z) : VFS unit :=
  s ← get;
  dev ← lift (getZ (knowndevs s) i);
  if bool_decide (kd_rawname dev = None) then mret tt
  else if bool_decide (kd_fs dev = NULL) then mret tt
  else
    r ← try (vop (FSOP_SYNC (kd_fs dev)));
    r ← (match r with inl _ => try (vop (FSOP_SYNC (kd_fs dev))) | inr _ => mret r end);
    match r with
    | inl _ => mret tt
    | inr _ =>
        r ← try (vop (FSOP_UNMOUNT (kd_fs dev)));
        match r with
        | inl _ => mret tt
        | inr _ => assign_fs i NULL
        end
    end.

Fixpoint unmountall_loop (n : nat) (i : Z) : VFS unit :=
  match n with
  | O => mret tt
  | S n => _ ← unmount_one i; unmountall_loop n (i + 1)
  end.

Definition vfs_unmountall : VFS unit :=
  _ ← acquire_knowndevs;
  s ← get;
  _ ← unmountall_loop (length (knowndevs s)) 0;
  release_knowndevs.

(** ** The current directory: [vfscwd.c] *)

Definition vfs_getcurdir : VFS ptr :=
  s ← get;
  if bool_decide (t_cwd s ≠ NULL) then
    _ ← vop (VOP_INCREF (t_cwd s));
    mret (t_cwd s)
  else fail ENOENT.

Definition vfs_setcurdir (dir : ptr) : VFS unit :=
  vtype ← vop (VOP_GETTYPE dir);
  if negb (S_ISDIR vtype) then fail ENOTDIR
  else
    _ ← vop (VOP_INCREF dir);
    s ← get;
    _ ← modify (fun s => set_cwd s dir);
    if bool_decide (t_cwd s ≠ NULL) then vop (VOP_DECREF (t_cwd s)) else mret tt.

Definition vfs_clearcurdir : VFS unit :=
  s ← get;
  _ ← modify (fun s => set_cwd s NULL);
  if bool_decide (t_cwd s ≠ NULL) then vop (VOP_DECREF (t_cwd s)) else mret tt.

(** ** Pathname translation: [vfslookup.c] *)

Definition change_bootfs (newguy : ptr) : VFS unit :=
  _ ← acquire_bootfs;
  s ← get;
  _ ← modify (fun s => set_bootfs s newguy);
  _ ← release_bootfs;
  if bool_decide (bootfs_vnode s ≠ NULL) then vop (VOP_DECREF (bootfs_vnode s)) else mret tt.

Definition vfs_clearbootfs : VFS unit := change_bootfs NULL.

(** The loop that locates the first colon or slash; the result is
    [(slash, colon)], -1 for one that was not found. *)
Fixpoint find_sep (i : Z) (path : list Z) : Z * Z :=
  match path with
  | [] => (-1, -1)
  | c :: rest =>
      if bool_decide (c = COLON) then (-1, i)
      else if bool_decide (c = SLASH) then (i, -1)
      else find_sep (i + 1) rest
  end.

(** [while ( *p == '/') p++;] *)
Fixpoint skip_slashes (path : list Z) : list Z :=
  match path with
  | [] => []
  | c :: rest => if bool_decide (c = SLASH) then skip_slashes rest else path
  end.

(** [/path]: the root of the boot file system. *)
Definition boot_start : VFS ptr :=
  _ ← acquire_bootfs;
  s ← get;
  if bool_decide (bootfs_vnode s = NULL) then
    _ ← release_bootfs;
    fail ENOENT
  else
    _ ← vop (VOP_INCREF (bootfs_vnode s));
    _ ← release_bootfs;
    mret (bootfs_vnode s).

(** [:path]: the root of the current file system. *)
Definition current_start : VFS ptr :=
  vn ← vfs_getcurdir;
  s ← get;
  _ ← massert (bool_decide (vn_fs vn (low s) ≠ NULL));
  startvn ← vop (FSOP_GETROOT (vn_fs vn (low s)));
  _ ← vop (VOP_DECREF vn);
  mret startvn.

(** The result is the subpath and the vnode to start from. *)
Definition getdevice (path : list Z) : VFS (list Z * ptr) :=
  let '(slash, colon) := find_sep 0 path in
  if bool_decide (colon < 0) && bool_decide (slash ≠ 0) then
    startvn ← vfs_getcurdir;
    mret (path, startvn)
  else if bool_decide (colon > 0) then
    startvn ← vfs_getroot (take (Z.to_nat colon) path);
    mret (skip_slashes (drop (Z.to_nat (colon + 1)) path), startvn)
  else
    _ ← massert (bool_decide (colon = 0) || bool_decide (slash = 0));
    c ← lift (getZ path 0);
    startvn ← (if bool_decide (c = SLASH) then boot_start
               else _ ← massert (bool_decide (c = COLON)); current_start);
    mret (skip_slashes (drop 1 path), startvn).

Definition vfs_lookparent (path : list Z) (buflen : Z) : VFS (ptr * list Z) :=
  '(path, startvn) ← getdevice path;
  r ← (if bool_decide (length path = 0%nat) then mret (inl EINVAL)
       else try (vop (VOP_LOOKPARENT startvn path buflen)));
  _ ← vop (VOP_DECREF startvn);
  give r.

Definition vfs_lookup (path : list Z) : VFS ptr :=
  '(path, startvn) ← getdevice path;
  if bool_decide (length path = 0%nat) then mret startvn
  else
    r ← try (vop (VOP_LOOKUP startvn path));
    _ ← vop (VOP_DECREF startvn);
    give r.

Definition vfs_chdir (path : list Z) : VFS unit :=
  vn ← vfs_lookup path;
  r ← try (vfs_setcurdir vn);
  _ ← vop (VOP_DECREF vn);
  give r.

(** [snprintf] keeps what fits in [sizeof(tmp)-1] bytes with the NUL. *)
Definition vfs_setbootfs (fsname : list Z) : VFS unit :=
  let tmp := take (Z.to_nat (NAME_MAX - 1)) fsname in
  tmp ← (match list_find (fun c => c = COLON) tmp with
         | Some (i, _) =>
             let s := drop i tmp in
             if bool_decide (Z.of_nat (length s) > 0) then fail EINVAL else mret tmp
         | None => mret (tmp ++ [COLON])
         end);
  _ ← vfs_chdir tmp;
  newguy ← vfs_getcurdir;
  change_bootfs newguy.

(** [uio_rw] of the caller's [uio] is an argument. *)
Definition vfs_getcwd (rw : uio_rw_t) : VFS unit :=
  _ ← massert (bool_decide (rw = UIO_READ));
  cwd ← vfs_getcurdir;
  s ← get;
  _ ← massert (bool_decide (vn_fs cwd (low s) ≠ NULL));
  name ← (match FSOP_GETVOLNAME (vn_fs cwd (low s)) (low s) with
          | Some name => mret (Some name)
          | None => vfs_getdevname (vn_fs cwd (low s))
          end);
  match name with
  | None => panic
  | Some name =>
      r ← try (_ ← vop (uiomove_out name);
               _ ← vop (uiomove_out [COLON]);
               vop (VOP_NAMEFILE cwd));
      _ ← vop (VOP_DECREF cwd);
      give r
  end.

(** ** Operations on pathnames: [vfspath.c] *)

(** The file to open, created when [O_CREAT] asks for it. *)
Definition open_find (path : list Z) (openflags : Z) : VFS ptr :=
  if bool_decide (Z.land openflags O_CREAT ≠ 0) then
    let excl := bool_decide (Z.land openflags O_EXCL ≠ 0) in
    '(dir, name) ← vfs_lookparent path (NAME_MAX + 1);
    r ← try (vop (VOP_CREAT dir name excl));
    _ ← vop (VOP_DECREF dir);
    give r
  else vfs_lookup path.

Definition vfs_open (path : list Z) (openflags : Z) : VFS ptr :=
  let how := Z.land openflags O_ACCMODE in
  canwrite ← (if bool_decide (how = O_RDONLY) then mret false
              else if bool_decide (how = O_WRONLY) || bool_decide (how = O_RDWR) then mret true
              else fail EINVAL);
  vn ← open_find path openflags;
  _ ← massert (bool_decide (vn ≠ NULL));
  r ← try (vop (VOP_OPEN vn openflags));
  match r with
  | inl result =>
      _ ← vop (VOP_DECREF vn);
      fail result
  | inr _ =>
      _ ← vop (VOP_INCOPEN vn);
      if bool_decide (Z.land openflags O_TRUNC ≠ 0) then
        r ← (if negb canwrite then mret (inl EINVAL) else try (vop (VOP_TRUNCATE vn 0)));
        match r with
        | inl result =>
            _ ← vop (VOP_DECOPEN vn);
            _ ← vop (VOP_DECREF vn);
            fail result
        | inr _ => mret vn
        end
      else mret vn
  end.

Definition vfs_close (vn : ptr) : VFS unit :=
  _ ← vop (VOP_DECOPEN vn);
  vop (VOP_DECREF vn).

Definition vfs_remove (path : list Z) : VFS unit :=
  '(dir, name) ← vfs_lookparent path (NAME_MAX + 1);
  r ← try (vop (VOP_REMOVE dir name));
  _ ← vop (VOP_DECREF dir);
  give r.

(** The two vnodes are on the same file system. *)
Definition same_fs (a b : ptr) (t : T) : bool :=
  negb (bool_decide (vn_fs a t = NULL) || bool_decide (vn_fs b t = NULL)
        || bool_decide (vn_fs a t ≠ vn_fs b t)).

Definition vfs_rename (oldpath newpath : list Z) : VFS unit :=
  '(olddir, oldname) ← vfs_lookparent oldpath (NAME_MAX + 1);
  r ← try (vfs_lookparent newpath (NAME_MAX + 1));
  match r with
  | inl result => _ ← vop (VOP_DECREF olddir); fail result
  | inr (newdir, newname) =>
      s ← get;
      if negb (same_fs olddir newdir (low s)) then
        _ ← vop (VOP_DECREF newdir);
        _ ← vop (VOP_DECREF olddir);
        fail EXDEV
      else
        r ← try (vop (VOP_RENAME olddir oldname newdir newname));
        _ ← vop (VOP_DECREF newdir);
        _ ← vop (VOP_DECREF olddir);
        give r
  end.

Definition vfs_link (oldpath newpath : list Z) : VFS unit :=
  oldfile ← vfs_lookup oldpath;
  r ← try (vfs_lookparent newpath (NAME_MAX + 1));
  match r with
  | inl result => _ ← vop (VOP_DECREF oldfile); fail result
  | inr (newdir, newname) =>
      s ← get;
      if negb (same_fs oldfile newdir (low s)) then
        _ ← vop (VOP_DECREF newdir);
        _ ← vop (VOP_DECREF oldfile);
        fail EXDEV
      else
        r ← try (vop (VOP_LINK newdir newname oldfile));
        _ ← vop (VOP_DECREF newdir);
        _ ← vop (VOP_DECREF oldfile);
        give r
  end.

Definition vfs_symlink (contents path : list Z) : VFS unit :=
  '(newdir, newname) ← vfs_lookparent path (NAME_MAX + 1);
  r ← try (vop (VOP_SYMLINK newdir newname contents));
  _ ← vop (VOP_DECREF newdir);
  give r.

Definition vfs_readlink (path : list Z) : VFS unit :=
  vn ← vfs_lookup path;
  r ← try (vop (VOP_READLINK vn));
  _ ← vop (VOP_DECREF vn);
  give r.

Definition vfs_mkdir (path : list Z) : VFS unit :=
  '(parent, name) ← vfs_lookparent path (NAME_MAX + 1);
  r ← try (vop (VOP_MKDIR parent name));
  _ ← vop (VOP_DECREF parent);
  give r.

Definition vfs_rmdir (path : list Z) : VFS unit :=
  '(parent, name) ← vfs_lookparent path (NAME_MAX + 1);
  r ← try (vop (VOP_RMDIR parent name));
  _ ← vop (VOP_DECREF parent);
  give r.

(** ** Start-up *)

Definition vfs_initbootfs : VFS unit :=
  ok ← vfs_lock_create;
  if ok : bool then modify (fun s => set_block s false) else panic.

(** [devnull_create] of [devnull.c]; [dev] is the address of the device object. *)
Definition devnull_create (dev : ptr) : VFS unit :=
  ok ← kmalloc;
  if negb ok then panic
  else
    r ← try (vfs_adddev str_null dev false);
    match r with
    | inl _ => panic
    | inr _ => mret tt
    end.

Definition vfs_bootstrap (nulldev : ptr) : VFS unit :=
  ok ← kmalloc;
  if negb ok then panic
  else
    _ ← modify (fun s => set_knowndevs s []);
    ok ← vfs_lock_create;
    if negb ok then panic
    else
      _ ← modify (fun s => set_klock s false);
      _ ← vfs_initbootfs;
      devnull_create nulldev.
End vfs.

Arguments vfs T : clear implicits.

End Vfs.
