(* ===== verification/VfsSpec.v ===== *)
(** * Reference accounting in the VFS layer

    [VnodeLaws] is the contract of the vnode layer: how each operation changes
    the reference and open counts of vnodes.  [inv] is the invariant of the
    VFS layer on top of it: every reference the layer owns (through the device
    table, the boot file system and the current directory) and every reference
    its callers hold is counted, and no others are beyond those held elsewhere.
    The lemmas show what each operation of the layer does to the references.

    [EmuLayerTheorems] proves the contract of the code of [device.c], [vnode.c] and
    [emu.c]. *)

From S2P Require Import Prelude Uio Vfs.
Import Uio Vfs.

Module VfsSpec.

(** ** The contract of the layer below *)

Class vnode_obs (T : Type) := {
  refcount : T -> ptr -> Z;
  opencount : T -> ptr -> Z;
  (* the layer's own invariant *)
  vl_ok : T -> Prop;
  (* file systems that are ready for use *)
  mounted : T -> ptr -> Prop
}.

Section relations.
Context {T : Type} `{vnode_layer T} `{vnode_obs T}.

Definition one (v x : ptr) : Z := if bool_decide (x = v) then 1 else 0.

(** A vnode in use stays on its file system. *)
Definition keeps_fs (t t' : T) : Prop :=
  forall x, 0 < refcount t x -> 0 < refcount t' x -> vn_fs x t' = vn_fs x t.

Record frame (t t' : T) : Prop := {
  f_ok : vl_ok t';
  f_fs : keeps_fs t t';
  f_mounted f : mounted t f -> mounted t' f
}.

Definition counts (t t' : T) (dr do : ptr -> Z) : Prop :=
  forall x, refcount t' x = refcount t x + dr x /\ opencount t' x = opencount t x + do x.

(** The reference counts change by [dr].  An operation may load a vnode for
    itself and then fail to give it up, if [F] says that this can happen; the
    vnode stays in memory with one reference. *)
Definition settled (F : Prop) (t t' : T) (dr : ptr -> Z) : Prop :=
  forall x, opencount t' x = opencount t x /\
    (refcount t' x = refcount t x + dr x \/ F /\ refcount t x = 0 /\ refcount t' x = dr x + 1).

Definition same (F : Prop) (t t' : T) : Prop := frame t t' /\ settled F t t' (fun _ => 0).
Definition gains (F : Prop) (v : ptr) (t t' : T) : Prop := frame t t' /\ settled F t t' (one v).

(** One reference less.  The vnode may stay when the last one goes. *)
Definition drops (F : Prop) (v : ptr) (t t' : T) : Prop :=
  frame t t' /\ forall x, opencount t' x = opencount t x /\
    (refcount t' x = refcount t x - one v x \/ F /\ x = v /\ refcount t v = 1 /\ refcount t' v = 1).

(** No count is about to overflow an [int]; a file system may have a reference
    of its own. *)
Definition room (t : T) : Prop := forall x, refcount t x + 1 < INT_MAX /\ opencount t x < INT_MAX.

(** A vnode [r] found from [v] is on the same file system; a device finds only
    itself. *)
Definition found (F : Prop) (v r : ptr) (t t' : T) : Prop :=
  r ≠ NULL /\ vn_fs r t' = vn_fs v t /\ (vn_fs v t = NULL -> r = v) /\ gains F r t t'.

Lemma counts_ext t t' dr dr' do do' :
  counts t t' dr do -> (forall y, dr y = dr' y) -> (forall y, do y = do' y) -> counts t t' dr' do'.
Proof. intros Hc H1 H2 x. rewrite <- H1, <- H2. apply Hc. Qed.

Lemma counts_settled F t t' dr : counts t t' dr (fun _ => 0) -> settled F t t' dr.
Proof. intros Hc x. destruct (Hc x) as [-> ->]. split; [lia|by left]. Qed.

Lemma settled_mono F t t' dr : settled False t t' dr -> settled F t t' dr.
Proof. intros Hs x. destruct (Hs x) as [Ho [Hr|[[] _]]]. split; [done|by left]. Qed.

Lemma same_mono F t t' : same False t t' -> same F t t'.
Proof. intros [Hf Hs]. split; [done|by apply settled_mono]. Qed.

Lemma gains_mono F v t t' : gains False v t t' -> gains F v t t'.
Proof. intros [Hf Hs]. split; [done|by apply settled_mono]. Qed.

Lemma settled_live F t t' dr x : settled F t t' dr -> 0 < refcount t x -> refcount t' x = refcount t x + dr x.
Proof. intros Hs Hx. destruct (Hs x) as [_ [?|(_ & ? & _)]]; [done|lia]. Qed.
End relations.

(** The layer panics at most when [X] holds, and fails to give up a vnode at
    most when [F] holds. *)
Class VnodeLaws (T : Type) `{vnode_layer T} `{vnode_obs T} (X F : Prop) := {
  law_nonneg t x : vl_ok t -> 0 <= refcount t x;
  law_live_fs t x : vl_ok t -> 0 < refcount t x -> vn_fs x t = NULL \/ mounted t (vn_fs x t);
  law_incref t v : vl_ok t -> room t -> 0 < refcount t v ->
    wpp X (VOP_INCREF v) (fun _ => gains False v t) (fun _ _ => False) t;
  (* devices are permanent *)
  law_decref t v : vl_ok t -> 0 < refcount t v -> (refcount t v = 1 -> opencount t v = 0) ->
    (vn_fs v t = NULL -> 1 < refcount t v) ->
    wpp X (VOP_DECREF v) (fun _ => drops F v t) (fun _ _ => False) t;
  law_incopen t v : vl_ok t -> room t -> 0 < refcount t v ->
    wpp X (VOP_INCOPEN v) (fun _ t' => frame t t' /\ counts t t' (fun _ => 0) (one v)) (fun _ _ => False) t;
  law_decopen t v : vl_ok t -> 0 < refcount t v -> 0 < opencount t v ->
    wpp X (VOP_DECOPEN v) (fun _ t' => frame t t' /\ counts t t' (fun _ => 0) (fun x => - one v x))
      (fun _ _ => False) t;
  law_open t v fl : vl_ok t -> 0 < refcount t v ->
    wpp X (VOP_OPEN v fl) (fun _ => same F t) (fun _ => same F t) t;
  (* a directory is on a file system *)
  law_gettype t v : vl_ok t -> 0 < refcount t v ->
    wpp X (VOP_GETTYPE v) (fun ty t' => same F t t' /\ (S_ISDIR ty = true -> vn_fs v t' ≠ NULL))
      (fun _ => same F t) t;
  law_truncate t v len : vl_ok t -> 0 < refcount t v ->
    wpp X (VOP_TRUNCATE v len) (fun _ => same F t) (fun _ => same F t) t;
  law_readlink t v : vl_ok t -> 0 < refcount t v ->
    wpp X (VOP_READLINK v) (fun _ => same F t) (fun _ => same F t) t;
  law_namefile t v : vl_ok t -> 0 < refcount t v ->
    wpp X (VOP_NAMEFILE v) (fun _ => same F t) (fun _ => same F t) t;
  law_symlink t v n c : vl_ok t -> 0 < refcount t v ->
    wpp X (VOP_SYMLINK v n c) (fun _ => same F t) (fun _ => same F t) t;
  law_mkdir t v n : vl_ok t -> 0 < refcount t v ->
    wpp X (VOP_MKDIR v n) (fun _ => same F t) (fun _ => same F t) t;
  law_remove t v n : vl_ok t -> room t -> 0 < refcount t v ->
    wpp X (VOP_REMOVE v n) (fun _ => same F t) (fun _ => same F t) t;
  law_rmdir t v n : vl_ok t -> room t -> 0 < refcount t v ->
    wpp X (VOP_RMDIR v n) (fun _ => same F t) (fun _ => same F t) t;
  law_link t v n w : vl_ok t -> room t -> 0 < refcount t v -> 0 < refcount t w -> same_fs w v t = true ->
    wpp X (VOP_LINK v n w) (fun _ => same F t) (fun _ => same F t) t;
  law_rename t v n w n' : vl_ok t -> room t -> 0 < refcount t v -> 0 < refcount t w -> same_fs v w t = true ->
    wpp X (VOP_RENAME v n w n') (fun _ => same F t) (fun _ => same F t) t;
  law_creat t v n ex : vl_ok t -> room t -> 0 < refcount t v ->
    wpp X (VOP_CREAT v n ex) (fun r => found F v r t)
      (fun _ => same F t) t;
  law_lookup t v p : vl_ok t -> room t -> 0 < refcount t v ->
    wpp X (VOP_LOOKUP v p) (fun r => found F v r t)
      (fun _ => same F t) t;
  law_lookparent t v p len : vl_ok t -> room t -> 0 < refcount t v ->
    wpp X (VOP_LOOKPARENT v p len)
      (fun '(r, _) => found F v r t) (fun _ => same F t) t;
  law_sync t f : vl_ok t -> mounted t f -> wpp X (FSOP_SYNC f) (fun _ => same F t) (fun _ => same F t) t;
  law_getroot t f : vl_ok t -> room t -> mounted t f ->
    wpp X (FSOP_GETROOT f) (fun r t' => r ≠ NULL /\ vn_fs r t' = f /\ gains F r t t') (fun _ _ => False) t;
  (* no vnode of the file system is in use after a successful unmount, by [law_live_fs] *)
  law_unmount t f : vl_ok t -> mounted t f ->
    wpp X (FSOP_UNMOUNT f)
      (fun _ t' => vl_ok t' /\ keeps_fs t t' /\ counts t t' (fun _ => 0) (fun _ => 0) /\
                   forall g, mounted t' g <-> mounted t g /\ g ≠ f)
      (fun _ => same F t) t;
  law_create t dev : vl_ok t -> room t ->
    wpp X (dev_create_vnode dev)
      (fun v t' => v = NULL /\ same F t t' \/
                   v ≠ NULL /\ refcount t v = 0 /\ vn_fs v t' = NULL /\ gains False v t t')
      (fun _ _ => False) t;
  law_kfree t v : vl_ok t -> refcount t v = 1 -> opencount t v = 0 -> vn_fs v t = NULL ->
    wpp X (kfree_vnode v)
      (fun _ t' => frame t t' /\ counts t t' (fun x => - one v x) (fun _ => 0)) (fun _ _ => False) t;
  law_uiomove t d : vl_ok t -> wpp X (uiomove_out d) (fun _ => same F t) (fun _ => same F t) t
}.

(** What [vfs_mount] relies on in the function it is given. *)
Definition mounts {T} `{vnode_layer T} `{vnode_obs T} (X F : Prop) (mountfunc : ptr -> M T ptr) : Prop :=
  forall dev t, vl_ok t ->
  wpp X (mountfunc dev)
    (fun f t' => same F t t' /\ f ≠ NULL /\ ~ mounted t f /\ mounted t' f) (fun _ => same F t) t.

(** ** Counting *)

Fixpoint occ (x : ptr) (l : list ptr) : Z :=
  match l with [] => 0 | y :: l => one y x + occ x l end.

Lemma one_range v x : 0 <= one v x <= 1.
Proof. unfold one. case_bool_decide; lia. Qed.

Lemma one_same v : one v v = 1.
Proof. unfold one. by rewrite bool_decide_eq_true_2. Qed.

Lemma one_other v x : x ≠ v -> one v x = 0.
Proof. unfold one. intros. by rewrite bool_decide_eq_false_2. Qed.

Lemma occ_range x l : 0 <= occ x l <= Z.of_nat (length l).
Proof. induction l as [|y l IH]; cbn [occ length]; [lia|]. pose proof (one_range y x). lia. Qed.

Lemma occ_app x l k : occ x (l ++ k) = occ x l + occ x k.
Proof. induction l as [|y l IH]; cbn [occ app]; lia. Qed.

Lemma occ_elem x l : x ∈ l -> 1 <= occ x l.
Proof.
  induction l as [|y l IH]; intros Hx; [by apply not_elem_of_nil in Hx|]. cbn [occ].
  pose proof (one_range y x). pose proof (occ_range x l).
  apply elem_of_cons in Hx as [->|Hx]; [rewrite one_same; lia|]. specialize (IH Hx). lia.
Qed.

Lemma occ_absent x l : x ∉ l -> occ x l = 0.
Proof.
  induction l as [|y l IH]; [done|]. cbn [occ]. intros [Hy Hl]%not_elem_of_cons. by rewrite one_other, IH.
Qed.

Lemma occ_perm x l k : l ≡ₚ k -> occ x l = occ x k.
Proof. induction 1; cbn [occ]; lia. Qed.

(** Each open file of [os] has a reference of its own in [cs]. *)
Definition sub (os cs : list ptr) : Prop := forall x, occ x os <= occ x cs.

Lemma sub_cons v os cs : sub os cs -> sub os (v :: cs).
Proof. intros Hs x. cbn [occ]. pose proof (one_range v x). specialize (Hs x). lia. Qed.

Lemma sub_both v os cs : sub os cs -> sub (v :: os) (v :: cs).
Proof. intros Hs x. cbn [occ]. specialize (Hs x). lia. Qed.
#[export] Hint Resolve sub_cons sub_both : os.

(** The most references the layer and its callers hold at a time. *)
Definition MAXREFS : Z := 1073741823.

(** ** What the layer holds *)

Section holds.
Context {T : Type}.

Definition nn (v : ptr) : list ptr := if bool_decide (v = NULL) then [] else [v].

Definition own (s : vfs T) : list ptr :=
  (kd_vnode <$> knowndevs s) ++ nn (bootfs_vnode s) ++ nn (t_cwd s).

Definition fss_of (kds : list knowndev) : list ptr := filter (fun f => f ≠ NULL) (kd_fs <$> kds).
Definition fss (s : vfs T) : list ptr := fss_of (knowndevs s).

Record kd_ok (kd : knowndev) : Prop := {
  kd_vnode_set : kd_vnode kd ≠ NULL;
  kd_reachable : kd_fs kd = NULL -> kd_device kd ≠ NULL;
  kd_mountable : kd_rawname kd ≠ None -> kd_device kd ≠ NULL
}.

Lemma elem_of_fss (s : vfs T) f : f ∈ fss s <-> f ≠ NULL /\ exists kd, kd ∈ knowndevs s /\ kd_fs kd = f.
Proof.
  unfold fss, fss_of. rewrite list_elem_of_filter, list_elem_of_fmap. naive_solver.
Qed.

Lemma in_fss (s : vfs T) kd : kd ∈ knowndevs s -> kd_fs kd ≠ NULL -> kd_fs kd ∈ fss s.
Proof. intros. apply elem_of_fss. eauto. Qed.

Lemma cwd_own (s : vfs T) : t_cwd s ≠ NULL -> t_cwd s ∈ own s.
Proof.
  intros Hc. unfold own. rewrite !elem_of_app. right; right. unfold nn.
  rewrite bool_decide_eq_false_2 by done. by apply list_elem_of_singleton.
Qed.

Lemma bootfs_own (s : vfs T) : bootfs_vnode s ≠ NULL -> bootfs_vnode s ∈ own s.
Proof.
  intros Hc. unfold own. rewrite !elem_of_app. right; left. unfold nn.
  rewrite bool_decide_eq_false_2 by done. by apply list_elem_of_singleton.
Qed.

Lemma kd_own (s : vfs T) kd : kd ∈ knowndevs s -> kd_vnode kd ∈ own s.
Proof. intros Hk. unfold own. apply elem_of_app. left. apply list_elem_of_fmap. eauto. Qed.

End holds.

Section spec.
Context {T : Type} `{vnode_layer T} `{vnode_obs T} {X F : Prop} `{!VnodeLaws T X F}.

(** References held outside the layer, by vnode. *)
Context (ext : ptr -> Z) (ext_range : forall x, 0 <= ext x <= MAXREFS).

(** The counts are those of the references [hs] and [ext]; a vnode that could
    not be given up has one more. *)
Record acct (fss hs os : list ptr) (t : T) : Prop := {
  a_ok : vl_ok t;
  a_cnt x : refcount t x = ext x + occ x hs \/ F /\ ext x = 0 /\ refcount t x = 1 + occ x hs;
  a_open x : opencount t x = occ x os;
  a_fs x : x ∈ hs -> vn_fs x t = NULL \/ vn_fs x t ∈ fss
}.

Lemma a_lo fss hs os t : acct fss hs os t -> forall x, ext x + occ x hs <= refcount t x.
Proof. intros Ha x. destruct (a_cnt _ _ _ _ Ha x) as [?|(_ & ? & ?)]; lia. Qed.

Lemma a_hi fss hs os t : acct fss hs os t -> forall x, refcount t x <= Z.max (ext x) 1 + occ x hs.
Proof. intros Ha x. destruct (a_cnt _ _ _ _ Ha x) as [?|(_ & ? & ?)]; lia. Qed.

Lemma acct_perm fss hs hs' os t : hs ≡ₚ hs' -> acct fss hs os t -> acct fss hs' os t.
Proof.
  intros Hp [Hok Hcnt Hop Hfs]. split; [done|intros x; rewrite <- (occ_perm x _ _ Hp); auto|done|].
  intros x Hx. apply Hfs. by rewrite Hp.
Qed.

Lemma acct_live fss hs os t x : acct fss hs os t -> x ∈ hs -> 0 < refcount t x.
Proof.
  intros Ha Hx. pose proof (a_lo _ _ _ _ Ha x). pose proof (occ_elem _ _ Hx). specialize (ext_range x). lia.
Qed.

(** The file systems of held vnodes survive a step that keeps them alive. *)
Lemma acct_fs fss hs hs' os t t' :
  acct fss hs os t -> keeps_fs t t' -> (forall x, x ∈ hs' -> x ∈ hs) ->
  (forall x, ext x + occ x hs' <= refcount t' x) ->
  forall x, x ∈ hs' -> vn_fs x t' = NULL \/ vn_fs x t' ∈ fss.
Proof.
  intros Ha Hk Hsub Hlo x Hx. rewrite (Hk x).
  - apply (a_fs _ _ _ _ Ha). auto.
  - apply (acct_live _ _ _ _ _ Ha). auto.
  - pose proof (occ_elem _ _ Hx). specialize (Hlo x). specialize (ext_range x). lia.
Qed.

(** A step that changes the counts by those of the references it returns. *)
Lemma acct_settled fss hs rs os t t' :
  acct fss hs os t -> frame t t' -> settled F t t' (fun x => occ x rs) ->
  (forall x, x ∈ rs -> vn_fs x t' = NULL \/ vn_fs x t' ∈ fss) -> acct fss (rs ++ hs) os t'.
Proof.
  intros Ha [Hok Hfs Hm] Hc Hr.
  assert (Hcnt : forall x, refcount t' x = ext x + occ x (rs ++ hs) \/
                           F /\ ext x = 0 /\ refcount t' x = 1 + occ x (rs ++ hs)).
  { intros x. rewrite occ_app. pose proof (occ_range x hs). pose proof (occ_range x rs). specialize (ext_range x).
    destruct (a_cnt _ _ _ _ Ha x) as [Hx|(HF & He & Hx)], (Hc x) as [_ [Hc'|(HF' & Hz & Hc')]];
      [left; lia|right; split_and!; [done|lia|lia]|right; split_and!; [done|lia|lia]|lia]. }
  split; [done|done|intros x; rewrite <- (a_open _ _ _ _ Ha x); apply Hc|].
  intros x [Hx|Hx]%elem_of_app; [auto|]. apply (acct_fs _ hs hs _ _ _ Ha Hfs); [done| |done].
  intros y. pose proof (occ_range y rs). specialize (Hcnt y). rewrite occ_app in Hcnt. lia.
Qed.

Lemma acct_same fss hs os t t' : acct fss hs os t -> same F t t' -> acct fss hs os t'.
Proof.
  intros Ha [Hf Hc]. apply (acct_settled _ _ [] _ _ _ Ha); [done|done|]. by intros x ?%not_elem_of_nil.
Qed.

Lemma acct_gain fss hs os t t' r :
  acct fss hs os t -> gains F r t t' -> vn_fs r t' = NULL \/ vn_fs r t' ∈ fss -> acct fss (r :: hs) os t'.
Proof.
  intros Ha [Hf Hc] Hr. apply (acct_settled _ _ [r] _ _ _ Ha); [done| |].
  - intros x. cbn [occ]. rewrite Z.add_0_r. apply Hc.
  - intros x ->%list_elem_of_singleton. done.
Qed.

Lemma acct_drop fss v hs os t t' :
  acct fss (v :: hs) os t -> drops F v t t' -> acct fss hs os t'.
Proof.
  intros Ha ([Hok Hfs Hm] & Hc).
  assert (Hcnt : forall x, refcount t' x = ext x + occ x hs \/ F /\ ext x = 0 /\ refcount t' x = 1 + occ x hs).
  { intros x. pose proof (a_cnt _ _ _ _ Ha x) as Hx. cbn [occ] in Hx. pose proof (occ_range x hs). specialize (ext_range x).
    destruct (Hc x) as [_ [Hr|(HF & -> & Hr & Hr')]].
    - destruct Hx as [?|(? & ? & ?)]; [left; lia|right; split_and!; [done|lia|lia]].
    - rewrite one_same in Hx. right. destruct Hx as [?|(? & ? & ?)]; split_and!; (done || lia). }
  split; [done|done|intros x; rewrite <- (a_open _ _ _ _ Ha x); apply Hc|].
  apply (acct_fs _ (v :: hs) _ _ _ _ Ha Hfs); [intros x Hx; by apply elem_of_cons; right|].
  intros x. specialize (Hcnt x). lia.
Qed.

(** The last reference to a vnode is never one to an open file. *)
Lemma acct_closed fss v hs os t :
  acct fss (v :: hs) os t -> sub os hs -> refcount t v = 1 -> opencount t v = 0.
Proof.
  intros Ha Hs H1. rewrite (a_open _ _ _ _ Ha). pose proof (a_lo _ _ _ _ Ha v) as Hv.
  cbn [occ] in Hv. rewrite one_same in Hv. specialize (Hs v). specialize (ext_range v).
  pose proof (occ_range v os). lia.
Qed.

(** ** The invariant *)

(** [cs] are the references the callers hold, [os] those of open files; [n]
    more references may be taken.  A device in use is in the table. *)
Record inv (n : nat) (s : vfs T) (cs os : list ptr) : Prop := {
  i_acct : acct (fss s) (own s ++ cs) os (low s);
  i_kds : Forall kd_ok (knowndevs s);
  i_nodup : NoDup (fss s);
  i_mounted f : f ∈ fss s -> mounted (low s) f;
  i_cwd : t_cwd s ≠ NULL -> vn_fs (t_cwd s) (low s) ≠ NULL;
  i_dev x : x ∈ own s ++ cs -> vn_fs x (low s) = NULL -> x ∈ kd_vnode <$> knowndevs s;
  i_sub : sub os (own s ++ cs);
  i_room : Z.of_nat (length (own s ++ cs)) + Z.of_nat n <= MAXREFS
}.

Definition unlocked (s : vfs T) : Prop := knowndevs_lock s = false /\ bootfs_lock s = false.

Lemma inv_room n s cs os : inv (S n) s cs os -> room (low s).
Proof.
  intros Hi x. pose proof (a_hi _ _ _ _ (i_acct _ _ _ _ Hi) x). rewrite (a_open _ _ _ _ (i_acct _ _ _ _ Hi)).
  pose proof (occ_range x (own s ++ cs)). pose proof (i_room _ _ _ _ Hi). specialize (ext_range x).
  pose proof (i_sub _ _ _ _ Hi x). unfold MAXREFS, INT_MAX in *. lia.
Qed.

Lemma inv_live n s cs os x : inv n s cs os -> x ∈ own s ++ cs -> 0 < refcount (low s) x.
Proof. intros Hi. apply (acct_live _ _ _ _ _ (i_acct _ _ _ _ Hi)). Qed.

(** A step of the layer below. *)
Lemma inv_low n n' s cs cs' os os' t :
  inv n s cs os -> acct (fss s) (own s ++ cs') os' t -> keeps_fs (low s) t ->
  (forall f, mounted (low s) f -> mounted t f) -> sub os' (own s ++ cs') ->
  (forall x, x ∈ cs' -> x ∈ cs \/ (vn_fs x t = NULL -> x ∈ kd_vnode <$> knowndevs s)) ->
  Z.of_nat (length cs') + Z.of_nat n' = Z.of_nat (length cs) + Z.of_nat n -> inv n' (set_low s t) cs' os'.
Proof.
  intros Hi Ha Hk Hm Hs Hd Hn. destruct Hi as [Ha0 Hkd Hnd Hmt Hcwd Hdev Hsub Hroom].
  assert (Hfs : forall x, x ∈ own s ++ cs -> x ∈ own s ++ cs' -> vn_fs x t = vn_fs x (low s)).
  { intros x H1 H2. apply Hk; [by apply (acct_live _ _ _ _ _ Ha0)|by apply (acct_live _ _ _ _ _ Ha)]. }
  split; [done|done|done| | | |done|].
  - intros f Hf. apply Hm, Hmt, Hf.
  - cbn [t_cwd set_low low]. intros Hc. pose proof (cwd_own _ Hc) as Hown. rewrite Hfs; [auto|..]; apply elem_of_app; auto.
  - cbn [low set_low knowndevs]. intros x Hx Hn0. change (own (set_low s t)) with (own s) in Hx.
    pose proof Hx as [Ho|Hc]%elem_of_app; [|destruct (Hd x Hc) as [Hc'|]; [|auto]];
      (apply Hdev; [|rewrite <- Hfs by (done || apply elem_of_app; auto); done]); apply elem_of_app; auto.
  - change (own (set_low s t)) with (own s). rewrite length_app in *. lia.
Qed.

Lemma inv_same n s cs os t : inv n s cs os -> same F (low s) t -> inv n (set_low s t) cs os.
Proof.
  intros Hi Hs. pose proof Hs as [[? Hk Hm] _]. apply (inv_low n n s cs cs os os); [done| |done|done| |auto|done].
  - by apply (acct_same _ _ _ _ _ (i_acct _ _ _ _ Hi)).
  - apply (i_sub _ _ _ _ Hi).
Qed.

Lemma own_cons (s : vfs T) (r : ptr) cs : own s ++ r :: cs ≡ₚ r :: own s ++ cs.
Proof. by rewrite Permutation_middle. Qed.

Lemma inv_gain n s cs os t r :
  inv (S n) s cs os -> gains F r (low s) t ->
  (vn_fs r t = NULL /\ r ∈ kd_vnode <$> knowndevs s \/ vn_fs r t ∈ fss s) -> inv n (set_low s t) (r :: cs) os.
Proof.
  intros Hi Hg Hr. pose proof Hg as [[? Hk Hm] _].
  apply (inv_low (S n) n s cs (r :: cs) os os); [done| |done|done| | |cbn [length]; lia].
  - eapply acct_perm; [symmetry; apply own_cons|]. eapply acct_gain; [apply (i_acct _ _ _ _ Hi)|done|tauto].
  - intros x. rewrite (occ_perm x _ _ (own_cons s r cs)). apply (sub_cons r), (i_sub _ _ _ _ Hi).
  - intros x [->|Hx]%elem_of_cons; [right|by left]. intros Hn. destruct Hr as [[_ ?]|Hf]; [done|].
    rewrite Hn in Hf. by apply elem_of_fss in Hf as [[] _].
Qed.

Lemma inv_drop n s v cs os t :
  inv n s (v :: cs) os -> sub os (own s ++ cs) -> drops F v (low s) t -> inv (S n) (set_low s t) cs os.
Proof.
  intros Hi Hs Hd. pose proof Hd as ([? Hk Hm] & _).
  apply (inv_low n (S n) s (v :: cs) cs os os); [done| |done|done|done| |cbn [length]; lia].
  - eapply acct_drop; [|exact Hd]. eapply acct_perm; [apply own_cons|]. apply (i_acct _ _ _ _ Hi).
  - intros x Hx. left. by apply elem_of_cons; right.
Qed.

Lemma sub_own (s : vfs T) os cs : sub os cs -> sub os (own s ++ cs).
Proof. intros Hs x. rewrite occ_app. pose proof (occ_range x (own s)). specialize (Hs x). lia. Qed.

Lemma inv_perm n s cs cs' os : cs ≡ₚ cs' -> inv n s cs os -> inv n s cs' os.
Proof.
  intros Hp [Ha Hkd Hnd Hm Hcwd Hdev Hsub Hroom]. assert (Hp' : own s ++ cs ≡ₚ own s ++ cs') by by rewrite Hp.
  split; [by eapply acct_perm|done..| | |by rewrite <- Hp'].
  - intros x. rewrite <- Hp'. apply Hdev.
  - intros x. rewrite <- (occ_perm x _ _ Hp'). apply Hsub.
Qed.

Lemma inv_weaken n s cs os : inv (S n) s cs os -> inv n s cs os.
Proof. intros [? ? ? ? ? ? ? ?]. split; [done..|lia]. Qed.

(** References move between the layer and its callers. *)
Lemma inv_rehold n s s' cs cs' os :
  inv n s cs os -> low s' = low s -> knowndevs s' = knowndevs s -> own s' ++ cs' ≡ₚ own s ++ cs ->
  (t_cwd s' ≠ NULL -> vn_fs (t_cwd s') (low s') ≠ NULL) -> inv n s' cs' os.
Proof.
  intros [Ha Hkd Hnd Hm Hcwd Hdev Hsub Hroom] Hl Hk Hp Hc.
  split; [|by rewrite Hk|unfold fss; by rewrite Hk|unfold fss; rewrite Hk, Hl; done|done|..].
  - unfold fss. rewrite Hl, Hk. by eapply acct_perm.
  - intros x. rewrite Hp, Hl, Hk. apply Hdev.
  - intros x. rewrite (occ_perm x _ _ Hp). apply Hsub.
  - by rewrite Hp.
Qed.

(** The file systems in the table change. *)
Lemma inv_table n s s' cs os :
  inv n s cs os -> own s' = own s -> kd_vnode <$> knowndevs s' = kd_vnode <$> knowndevs s -> t_cwd s' = t_cwd s ->
  vl_ok (low s') -> keeps_fs (low s) (low s') -> settled F (low s) (low s') (fun _ => 0) ->
  Forall kd_ok (knowndevs s') -> NoDup (fss s') -> (forall f, f ∈ fss s' -> mounted (low s') f) ->
  (forall f, f ∈ fss s -> mounted (low s') f -> f ∈ fss s') -> inv n s' cs os.
Proof.
  intros [Ha Hkd Hnd Hm Hcwd Hdev Hsub Hroom] Hown Hvs Hc Hok Hk Hcnt Hkd' Hnd' Hm' Hfss.
  assert (Hlive : forall x, x ∈ own s ++ cs -> 0 < refcount (low s) x /\ 0 < refcount (low s') x).
  { intros x Hx. pose proof (acct_live _ _ _ _ _ Ha Hx). pose proof (settled_live _ _ _ _ x Hcnt). lia. }
  split; [|done..| | |by rewrite Hown|by rewrite Hown].
  - rewrite Hown. split; [done|intros x..|].
    + pose proof (occ_range x (own s ++ cs)). specialize (ext_range x).
      destruct (a_cnt _ _ _ _ Ha x) as [?|(? & ? & ?)], (Hcnt x) as [_ [?|(? & ? & ?)]];
        [left; lia|right; split_and!; (done || lia)..].
    + pose proof (a_open _ _ _ _ Ha x). destruct (Hcnt x) as [-> _]. lia.
    + intros x Hx. destruct (Hlive x Hx). rewrite (Hk x) by done.
      destruct (a_fs _ _ _ _ Ha x Hx) as [?|Hf]; [by left|]. right. apply Hfss; [done|].
      destruct (law_live_fs (low s') x) as [Hn|Hmx]; [done|done| |].
      * rewrite (Hk x) in Hn by done. apply elem_of_fss in Hf as [[]]. done.
      * by rewrite (Hk x) in Hmx.
  - rewrite Hc. intros Hn. destruct (Hlive (t_cwd s)) as [? ?]; [|rewrite Hk by done; auto].
    apply elem_of_app. left. by apply cwd_own.
  - rewrite Hown, Hvs. intros x Hx. destruct (Hlive x Hx). rewrite Hk by done. by apply Hdev.
Qed.

(** ** Rules for the operations of the layer below *)

Lemma wpp_vop {A} (m : M T A) s (Q : A -> vfs T -> Prop) E :
  wpp X m (fun a t => Q a (set_low s t)) (fun e t => E e (set_low s t)) (low s) -> wpp X (vop m) Q E s.
Proof. unfold wpp, vop. by destruct (m (low s)) as [[[e|a] t]| |]. Qed.

Lemma wpp_massert_ok b (Q : unit -> vfs T -> Prop) E s : b = true -> Q tt s -> wpp X (massert b) Q E s.
Proof. intros -> HQ. by apply wpp_massert. Qed.

Section rules.
Context (n : nat) (s : vfs T) (cs os : list ptr).

(** An operation that leaves the counts alone. *)
Lemma wpp_quiet {A} (m : M T A) (Q : A -> vfs T -> Prop) E :
  inv n s cs os -> wpp X m (fun _ => same F (low s)) (fun _ => same F (low s)) (low s) ->
  (forall a t, inv n (set_low s t) cs os -> Q a (set_low s t)) ->
  (forall e t, inv n (set_low s t) cs os -> E e (set_low s t)) -> wpp X (vop m) Q E s.
Proof.
  intros Hi Hm HQ HE. apply wpp_vop. eapply wpp_mono; [exact Hm|done|..].
  - intros a t Hs. apply HQ. by apply inv_same.
  - intros e t Hs. apply HE. by apply inv_same.
Qed.

Lemma wpp_incref v (Q : unit -> vfs T -> Prop) E :
  inv (S n) s cs os -> v ∈ own s ++ cs ->
  (forall t, inv n (set_low s t) (v :: cs) os -> Q tt (set_low s t)) -> wpp X (vop (VOP_INCREF v)) Q E s.
Proof.
  intros Hi Hv HQ. apply wpp_vop. pose proof (inv_live _ _ _ _ _ Hi Hv) as Hlive.
  eapply wpp_mono; [apply law_incref|done|..].
  - apply (i_acct _ _ _ _ Hi).
  - by eapply inv_room.
  - done.
  - intros [] t Hg. apply HQ. apply inv_gain; [done|by apply gains_mono|]. pose proof Hg as [[_ Hk _] Hc].
    assert (Hfs : vn_fs v t = vn_fs v (low s)).
    { apply Hk; [done|]. rewrite (settled_live _ _ _ _ _ Hc) by done. rewrite one_same. lia. }
    rewrite Hfs. destruct (a_fs _ _ _ _ (i_acct _ _ _ _ Hi) v Hv) as [Hn|?]; [left|by right].
    split; [done|by apply (i_dev _ _ _ _ Hi)].
  - done.
Qed.

Lemma wpp_decref v (Q : unit -> vfs T -> Prop) E :
  inv n s (v :: cs) os -> sub os (own s ++ cs) ->
  (forall t, inv (S n) (set_low s t) cs os -> Q tt (set_low s t)) -> wpp X (vop (VOP_DECREF v)) Q E s.
Proof.
  intros Hi Hs HQ. apply wpp_vop.
  assert (Ha : acct (fss s) (v :: own s ++ cs) os (low s)).
  { eapply acct_perm; [apply own_cons|apply (i_acct _ _ _ _ Hi)]. }
  eapply wpp_mono; [apply law_decref|done|..].
  - apply Ha.
  - apply (acct_live _ _ _ _ _ Ha). by apply elem_of_cons; left.
  - by apply (acct_closed _ _ _ _ _ Ha).
  - intros Hn. assert (Hd : v ∈ kd_vnode <$> knowndevs s).
    { apply (i_dev _ _ _ _ Hi); [|done]. apply elem_of_app. right. by apply elem_of_cons; left. }
    pose proof (a_lo _ _ _ _ Ha v) as Hv. cbn [occ] in Hv. unfold own in Hv. rewrite !occ_app, one_same in Hv.
    apply occ_elem in Hd. pose proof (occ_range v (nn (bootfs_vnode s))). pose proof (occ_range v (nn (t_cwd s))).
    pose proof (occ_range v cs). specialize (ext_range v). lia.
  - intros [] t Hd. apply HQ. by apply (inv_drop n s v).
  - done.
Qed.

(** An operation that hands back a vnode found from [v]. *)
Lemma wpp_gives {A} (f : A -> ptr) (m : M T A) v (Q : A -> vfs T -> Prop) E :
  inv (S n) s cs os -> v ∈ own s ++ cs ->
  wpp X m (fun r => found F v (f r) (low s)) (fun _ => same F (low s)) (low s) ->
  (forall r t, f r ≠ NULL -> inv n (set_low s t) (f r :: cs) os -> Q r (set_low s t)) ->
  (forall e t, inv (S n) (set_low s t) cs os -> E e (set_low s t)) -> wpp X (vop m) Q E s.
Proof.
  intros Hi Hv Hm HQ HE. apply wpp_vop. eapply wpp_mono; [exact Hm|done|..].
  - intros r t (Hr & Hfs & Hd & Hg). apply HQ; [done|]. apply inv_gain; [done..|]. rewrite Hfs.
    destruct (a_fs _ _ _ _ (i_acct _ _ _ _ Hi) v Hv) as [Hn|?]; [left|by right].
    split; [done|]. rewrite Hd by done. by apply (i_dev _ _ _ _ Hi).
  - intros e t Hs. apply HE. by apply inv_same.
Qed.

Lemma wpp_getroot f (Q : ptr -> vfs T -> Prop) E :
  inv (S n) s cs os -> f ∈ fss s ->
  (forall r t, r ≠ NULL -> inv n (set_low s t) (r :: cs) os -> Q r (set_low s t)) ->
  wpp X (vop (FSOP_GETROOT f)) Q E s.
Proof.
  intros Hi Hf HQ. apply wpp_vop. eapply wpp_mono; [apply law_getroot|done|..].
  - apply (i_acct _ _ _ _ Hi).
  - by eapply inv_room.
  - by apply (i_mounted _ _ _ _ Hi).
  - intros r t (Hr & Hfs & Hg). apply HQ; [done|]. apply inv_gain; [done..|]. rewrite Hfs. by right.
  - done.
Qed.

Lemma wpp_incopen v (Q : unit -> vfs T -> Prop) E :
  inv (S n) s (v :: cs) os -> sub os cs ->
  (forall t, inv (S n) (set_low s t) (v :: cs) (v :: os) -> Q tt (set_low s t)) ->
  wpp X (vop (VOP_INCOPEN v)) Q E s.
Proof.
  intros Hi Hs HQ. apply wpp_vop. assert (Hv : v ∈ own s ++ v :: cs).
  { apply elem_of_app. right. by apply elem_of_cons; left. }
  eapply wpp_mono; [apply law_incopen|done|..].
  - apply (i_acct _ _ _ _ Hi).
  - by eapply inv_room.
  - by apply (inv_live _ _ _ _ _ Hi).
  - intros [] t [Hf Hc]. pose proof (i_acct _ _ _ _ Hi) as Ha. apply HQ.
    apply (inv_low (S n) (S n) s (v :: cs) (v :: cs) os (v :: os)); [done| |apply Hf|apply Hf| |auto|done].
    + split; [apply Hf|intros x; pose proof (Hc x) as [Hr Ho]..| ].
      * pose proof (a_cnt _ _ _ _ Ha x) as Hx. by replace (refcount t x) with (refcount (low s) x) by lia.
      * pose proof (a_open _ _ _ _ Ha x). cbn [occ]. lia.
      * apply (acct_fs _ _ _ _ _ _ Ha); [apply Hf|done|]. intros x. pose proof (a_lo _ _ _ _ Ha x).
        pose proof (Hc x) as [Hr _]. lia.
    + apply sub_own, sub_both, Hs.
  - done.
Qed.

Lemma wpp_decopen v (Q : unit -> vfs T -> Prop) E :
  inv n s (v :: cs) (v :: os) ->
  (forall t, inv n (set_low s t) (v :: cs) os -> Q tt (set_low s t)) -> wpp X (vop (VOP_DECOPEN v)) Q E s.
Proof.
  intros Hi HQ. apply wpp_vop. assert (Hv : v ∈ own s ++ v :: cs).
  { apply elem_of_app. right. by apply elem_of_cons; left. }
  pose proof (i_acct _ _ _ _ Hi) as Ha. eapply wpp_mono; [apply law_decopen|done|..].
  - apply Ha.
  - by apply (inv_live _ _ _ _ _ Hi).
  - rewrite (a_open _ _ _ _ Ha). cbn [occ]. rewrite one_same. pose proof (occ_range v os). lia.
  - intros [] t [Hf Hc]. apply HQ.
    apply (inv_low n n s (v :: cs) (v :: cs) (v :: os) os); [done| |apply Hf|apply Hf| |auto|done].
    + split; [apply Hf|intros x; pose proof (Hc x) as [Hr Ho]..| ].
      * pose proof (a_cnt _ _ _ _ Ha x) as Hx. by replace (refcount t x) with (refcount (low s) x) by lia.
      * pose proof (a_open _ _ _ _ Ha x) as Hx. cbn [occ] in Hx. lia.
      * apply (acct_fs _ _ _ _ _ _ Ha); [apply Hf|done|]. intros x. pose proof (a_lo _ _ _ _ Ha x).
        pose proof (Hc x) as [Hr _]. lia.
    + intros x. pose proof (i_sub _ _ _ _ Hi x) as Hx. cbn [occ] in Hx. pose proof (one_range v x). lia.
  - done.
Qed.
End rules.
End spec.

Arguments acct {T _ _} F ext fss hs os t.
Arguments inv {T _ _} F ext n s cs os.

End VfsSpec.
