(* ===== verification/VfsOps.v ===== *)
(** * What the operations of the VFS layer do to references

    For each function of the layer: from a state with the invariant it returns
    (or the layer below panicked) in a state with the invariant, holding the
    references it hands back and no others. *)

From S2P Require Import Prelude Uio Vfs VfsSpec.
Import Uio Vfs VfsSpec.

Module VfsOps.

(** ** The shape of a pathname *)

Definition is_sep (c : Z) : bool := bool_decide (c = COLON) || bool_decide (c = SLASH).
Definition no_sep (l : list Z) : Prop := Forall (fun c => is_sep c = false) l.

(** [find_sep] finds the first colon or slash. *)
Lemma find_sep_spec path : forall i slash colon, find_sep i path = (slash, colon) ->
  (no_sep path /\ slash = -1 /\ colon = -1) \/
  exists pre post, no_sep pre /\
    (path = pre ++ COLON :: post /\ slash = -1 /\ colon = i + Z.of_nat (length pre) \/
     path = pre ++ SLASH :: post /\ colon = -1 /\ slash = i + Z.of_nat (length pre)).
Proof.
  induction path as [|c path IH]; intros i slash colon; cbn [find_sep]; [intros [= <- <-]; left; by split; [constructor|]|].
  case_bool_decide as Hc; [intros [= <- <-]; right; exists [], path; subst; split; [constructor|left; cbn; repeat split; lia]|].
  case_bool_decide as Hl; [intros [= <- <-]; right; exists [], path; subst; split; [constructor|right; cbn; repeat split; lia]|].
  assert (Hcs : is_sep c = false) by (unfold is_sep; by rewrite !bool_decide_eq_false_2).
  intros [(Hn & -> & ->)|(pre & post & Hn & Hp)]%IH; [left; by split; [constructor|]|].
  right. exists (c :: pre), post. split; [by constructor|]. cbn [length app].
  destruct Hp as [(-> & -> & ->)|(-> & -> & ->)]; [left|right]; repeat split; lia.
Qed.

Section ops.
Context {T : Type} `{vnode_layer T} `{vnode_obs T} {X F : Prop} `{!VnodeLaws T X F}.
Context (ext : ptr -> Z) (ext_range : forall x, 0 <= ext x <= MAXREFS).

Abbreviation inv := (VfsSpec.inv F ext).

(** Only the layer below has changed, and the callers hold [cs]. *)
Definition back (n : nat) (s : vfs T) (cs os : list ptr) (s' : vfs T) : Prop :=
  s' = set_low s (low s') /\ inv n s' cs os.

(** The same, with a reference to [v] more. *)
Definition got (n : nat) (s : vfs T) (cs os : list ptr) (v : ptr) (s' : vfs T) : Prop :=
  v ≠ NULL /\ back n s (v :: cs) os s'.

Lemma back_low n s cs os t : inv n (set_low s t) cs os -> back n s cs os (set_low s t).
Proof. by split. Qed.

Lemma back_refl n s cs os : inv n s cs os -> back n s cs os s.
Proof. split; [by destruct s|done]. Qed.

Lemma back_trans n s t cs os s' : back n (set_low s t) cs os s' -> back n s cs os s'.
Proof. intros [-> Hi]. by split. Qed.

Lemma got_low n s cs os v t : v ≠ NULL -> inv n (set_low s t) (v :: cs) os -> got n s cs os v (set_low s t).
Proof. intros Hv Hi. split; [done|by split]. Qed.

Lemma inv_klock n s cs os b : inv n s cs os -> inv n (set_klock s b) cs os.
Proof. by intros [? ? ? ? ? ? ? ?]; split. Qed.
Lemma inv_block n s cs os b : inv n s cs os -> inv n (set_block s b) cs os.
Proof. by intros [? ? ? ? ? ? ? ?]; split. Qed.
Lemma inv_orc n s cs os o : inv n s cs os -> inv n (set_orc s o) cs os.
Proof. by intros [? ? ? ? ? ? ? ?]; split. Qed.

Lemma set_low_low (s : vfs T) t t' : set_low (set_low s t) t' = set_low s t'.
Proof. done. Qed.

#[local] Hint Resolve back_low back_refl got_low inv_klock inv_block : core.

(** Sections under [knowndevs_lock]. *)
Lemma wpp_acquire s (Q : unit -> vfs T -> Prop) E :
  unlocked s -> Q tt (set_klock s true) -> wpp X acquire_knowndevs Q E s.
Proof. intros [Hk _] HQ. unfold acquire_knowndevs. wpp_steps. by rewrite Hk. Qed.

Lemma wpp_release s (Q : unit -> vfs T -> Prop) E :
  knowndevs_lock s = true -> Q tt (set_klock s false) -> wpp X release_knowndevs Q E s.
Proof. intros Hk HQ. unfold release_knowndevs. wpp_steps. by rewrite Hk. Qed.

Lemma relock (s : vfs T) : unlocked s -> set_klock (set_klock s true) false = s.
Proof. intros [Hk _]. destruct s; cbn in *. by rewrite Hk. Qed.

Lemma relock_low (s : vfs T) t : unlocked s -> set_klock (set_low (set_klock s true) t) false = set_low s t.
Proof. intros [Hk _]. destruct s; cbn in *. by rewrite Hk. Qed.

Lemma relock_boot (s : vfs T) t : unlocked s -> set_block (set_low (set_block s true) t) false = set_low s t.
Proof. intros [_ Hb]. destruct s; cbn in *. by rewrite Hb. Qed.

Lemma unlocked_low (s : vfs T) t : unlocked s -> unlocked (set_low s t).
Proof. done. Qed.
#[local] Hint Resolve unlocked_low : core.

Lemma wpp_give {A} (r : Z + A) (Q : A -> vfs T -> Prop) E s :
  match r with inr a => Q a s | inl e => E e s end -> wpp X (give r) Q E s.
Proof. by destruct r. Qed.

(** ** Starting points of a lookup *)

Lemma wpp_getcurdir n s cs os :
  inv (S n) s cs os ->
  wpp X vfs_getcurdir (fun v s' => got n s cs os v s' /\ v = t_cwd s) (fun _ => back (S n) s cs os) s.
Proof.
  intros Hi. unfold vfs_getcurdir. wpp_steps. destruct (bool_decide_reflect (t_cwd s ≠ NULL)) as [Hc|Hc].
  - wpp_steps. eapply (wpp_incref ext ext_range); [done| |].
    + apply elem_of_app. left. by apply cwd_own.
    + intros t Ht. wpp_steps. auto.
  - wpp_steps. auto.
Qed.

Lemma wpp_getroot_loop n s cs os devname kds :
  inv (S n) s cs os -> (forall kd, kd ∈ kds -> kd ∈ knowndevs s) ->
  wpp X (getroot_loop devname kds) (fun v s' => got n s cs os v s') (fun _ => back (S n) s cs os) s.
Proof.
  intros Hi. induction kds as [|kd kds IH]; intros Hkds; cbn [getroot_loop]; [wpp_steps; auto|].
  assert (Hkd : kd ∈ knowndevs s) by (apply Hkds; by apply elem_of_cons; left).
  assert (Hok : kd_ok kd) by (by eapply (proj1 (Forall_forall _ _) (i_kds _ _ _ _ _ Hi))).
  assert (Hrest : wpp X (getroot_loop devname kds) (fun v s' => got n s cs os v s') (fun _ => back (S n) s cs os) s).
  { apply IH. intros k Hk. apply Hkds. by apply elem_of_cons; right. }
  assert (Href : kd_device kd ≠ NULL ->
    wpp X (_ ← massert (bool_decide (kd_device kd ≠ NULL)); _ ← vop (VOP_INCREF (kd_vnode kd)); mret (kd_vnode kd))
      (fun v s' => got n s cs os v s') (fun _ => back (S n) s cs os) s).
  { intros Hdev. wpp_base. apply wpp_massert_ok; [by apply bool_decide_eq_true_2|].
    wpp_base. eapply (wpp_incref ext ext_range); [done| |].
    - apply elem_of_app. left. by apply kd_own.
    - intros t Ht. wpp_steps. apply got_low; [apply Hok|done]. }
  assert (Hraw : wpp X (if bool_decide (kd_rawname kd = Some devname) then
      _ ← massert (bool_decide (kd_device kd ≠ NULL)); _ ← vop (VOP_INCREF (kd_vnode kd)); mret (kd_vnode kd)
      else getroot_loop devname kds) (fun v s' => got n s cs os v s') (fun _ => back (S n) s cs os) s).
  { destruct (bool_decide_reflect (kd_rawname kd = Some devname)) as [Hraw|]; [|done].
    apply Href, (kd_mountable _ Hok). by rewrite Hraw. }
  wpp_steps. destruct (bool_decide_reflect (kd_fs kd = NULL)) as [Hfs|Hfs].
  - rewrite bool_decide_eq_false_2 by tauto. cbn [andb].
    destruct (bool_decide_reflect (kd_name kd = devname)) as [Hn|Hn]; [|by rewrite andb_false_r].
    destruct (bool_decide_reflect (kd_rawname kd ≠ None)) as [Hr|Hr]; cbn [andb]; [wpp_steps; auto|].
    wpp_base. apply wpp_massert_ok; [done|]. wpp_base. apply wpp_massert_ok.
    + apply bool_decide_eq_true_2. by destruct (kd_rawname kd); [destruct Hr|].
    + by apply Href, (kd_reachable _ Hok).
  - rewrite bool_decide_eq_true_2 by done. cbn [andb].
    destruct (bool_decide_reflect (kd_name kd = devname)) as [Hn|Hn]; cbn [orb].
    + eapply (wpp_getroot ext ext_range); [done| |auto]. by apply in_fss.
    + destruct (bool_decide_reflect (FSOP_GETVOLNAME (kd_fs kd) (low s) = Some devname)); [|done].
      eapply (wpp_getroot ext ext_range); [done| |auto]. by apply in_fss.
Qed.

Lemma wpp_vfs_getroot n s cs os devname :
  inv (S n) s cs os -> unlocked s ->
  wpp X (vfs_getroot devname) (fun v s' => got n s cs os v s') (fun _ => back (S n) s cs os) s.
Proof.
  intros Hi Hu. unfold vfs_getroot. wpp_base. apply wpp_acquire; [done|]. wpp_steps.
  eapply wpp_mono; [apply (wpp_getroot_loop n (set_klock s true) cs os); [by apply inv_klock|done]|done|..].
  - intros v s' (Hv & -> & Hi'). wpp_steps. apply wpp_release; [done|]. cbn [low set_low].
    rewrite relock_low by done. wpp_steps. apply wpp_give. apply got_low; [done|]. apply (inv_klock _ _ _ _ false) in Hi'.
    by rewrite relock_low in Hi'.
  - intros e s' (-> & Hi'). wpp_steps. apply wpp_release; [done|]. cbn [low set_low].
    rewrite relock_low by done. wpp_steps. apply wpp_give. apply back_low. apply (inv_klock _ _ _ _ false) in Hi'.
    by rewrite relock_low in Hi'.
Qed.

Ltac vsteps := repeat setoid_rewrite set_low_low; rewrite ?set_low_low in *; wpp_steps.

(** ** A call followed by the release of a reference *)

Lemma wpp_quiet_drop {A} n s cs os v (m : M T A) :
  inv n s (v :: cs) os -> sub os cs -> wpp X m (fun _ => same F (low s)) (fun _ => same F (low s)) (low s) ->
  wpp X (r ← try (vop m); _ ← vop (VOP_DECREF v); give r)
    (fun _ => back (S n) s cs os) (fun _ => back (S n) s cs os) s.
Proof.
  intros Hi Hs Hm. vsteps. eapply (wpp_quiet ext ext_range); [exact Hi|done|..]; intros ? t Ht; vsteps.
  all: eapply (wpp_decref ext ext_range); [exact Ht|by apply sub_own|].
  all: intros t' Ht'; vsteps; apply wpp_give; auto.
Qed.

Lemma wpp_gives_drop {A} (f : A -> ptr) n s cs os v (m : M T A) :
  inv (S n) s (v :: cs) os -> sub os cs ->
  wpp X m (fun r => found F v (f r) (low s)) (fun _ => same F (low s)) (low s) ->
  wpp X (r ← try (vop m); _ ← vop (VOP_DECREF v); give r)
    (fun r => got (S n) s cs os (f r)) (fun _ => back (S (S n)) s cs os) s.
Proof.
  intros Hi Hs Hm. vsteps. eapply (wpp_gives ext ext_range) with (f := f); [exact Hi| |exact Hm|..].
  - apply elem_of_app. right. by apply elem_of_cons; left.
  - intros r t Hr Ht. vsteps. eapply (wpp_decref ext ext_range n _ (f r :: cs)); [ |by apply sub_own, sub_cons|].
    + eapply inv_perm; [|exact Ht]. by apply Permutation_swap.
    + intros t' Ht'. vsteps. apply wpp_give. auto.
  - intros e t Ht. vsteps. eapply (wpp_decref ext ext_range); [exact Ht|by apply sub_own|].
    intros t' Ht'. vsteps. apply wpp_give. auto.
Qed.

(** ** Pathname translation *)

Lemma wpp_getdevice n s cs os path :
  inv (S (S n)) s cs os -> sub os cs -> unlocked s ->
  wpp X (getdevice path) (fun r => got (S n) s cs os (snd r)) (fun _ => back (S (S n)) s cs os) s.
Proof.
  intros Hi Hs Hu. unfold getdevice. destruct (find_sep 0 path) as [slash colon] eqn:Hsep.
  destruct (bool_decide (colon < 0) && bool_decide (slash ≠ 0)) eqn:Hrel.
  { wpp_base. eapply wpp_mono; [by apply wpp_getcurdir|done| |done]. intros v s' [Hg _]. by vsteps. }
  destruct (bool_decide_reflect (colon > 0)) as [Hdev|Hdev].
  { wpp_base. eapply wpp_mono; [by apply wpp_vfs_getroot|done| |done]. intros v s' Hg. by vsteps. }
  assert (Hc : exists c post, path = c :: post /\ (c = COLON \/ c = SLASH) /\ (colon = 0 \/ slash = 0)).
  { apply find_sep_spec in Hsep as [(_ & -> & ->)|([|p pre] & post & _ & [(-> & -> & ->)|(-> & -> & ->)])];
      cbn [app length] in *; eauto 10; exfalso.
    - by revert Hrel; step_tests.
    - lia.
    - by revert Hrel; step_tests. }
  destruct Hc as (c & post & -> & Hc & Hz). wpp_base. apply wpp_massert_ok.
  { destruct Hz as [-> | ->]; [done|apply orb_true_r]. }
  wpp_base. eapply wpp_lift; [done|]. wpp_base. destruct (bool_decide_reflect (c = SLASH)) as [->|Hns].
  - unfold boot_start, acquire_bootfs. vsteps. apply wpp_massert_ok; [by destruct Hu as [_ ->]|]. vsteps.
    destruct (bool_decide_reflect (bootfs_vnode (set_block s true) = NULL)) as [Hb|Hb].
    + unfold release_bootfs. vsteps. apply wpp_massert_ok; [done|]. vsteps.
      replace (set_block _ false) with s by (destruct Hu as [_ Hu]; destruct s; cbn in *; by rewrite Hu). auto.
    + wpp_base. eapply (wpp_incref ext ext_range (S n) _ cs os); [by apply inv_block| |].
      { apply elem_of_app. left. by apply bootfs_own. }
      intros t Ht. unfold release_bootfs. vsteps. apply wpp_massert_ok; [done|]. vsteps.
      apply (inv_block _ _ _ _ false) in Ht. rewrite relock_boot in * by done. auto.
  - wpp_base. apply wpp_massert_ok; [apply bool_decide_eq_true_2; tauto|]. unfold current_start. wpp_base.
    eapply wpp_mono; [by apply wpp_getcurdir|done| |done]. intros v s' [(Hv & Heq & Hi') ->].
    set (t := low s') in *. clearbody t. subst s'. cbn [low set_low].
    vsteps. assert (Hfs : vn_fs (t_cwd s) t ≠ NULL) by exact (i_cwd _ _ _ _ _ Hi' Hv).
    apply wpp_massert_ok; [by apply bool_decide_eq_true_2|]. wpp_base.
    eapply (wpp_getroot ext ext_range); [exact Hi'| |].
    { destruct (a_fs _ _ _ _ _ (i_acct _ _ _ _ _ Hi') (t_cwd s)) as [|]; [|done..].
      apply elem_of_app. right. by apply elem_of_cons; left. }
    intros r t' Hr Ht'. wpp_base. eapply (wpp_decref ext ext_range n _ (r :: cs)); [ |by apply sub_own, sub_cons|].
    { eapply inv_perm; [|exact Ht']. by apply Permutation_swap. }
    intros t'' Ht''. vsteps. auto.
Qed.

Lemma wpp_vfs_lookup n s cs os path :
  inv (S (S n)) s cs os -> sub os cs -> unlocked s ->
  wpp X (vfs_lookup path) (fun r => got (S n) s cs os r) (fun _ => back (S (S n)) s cs os) s.
Proof.
  intros Hi Hs Hu. unfold vfs_lookup. wpp_base. eapply wpp_mono; [by apply wpp_getdevice|done| |done].
  intros [p v] s' (Hv & Heq & Hi'). cbn [snd] in *. case_bool_decide; [by vsteps|].
  eapply wpp_mono; [apply (wpp_gives_drop (fun r => r) n s' cs os v); [done|done|]|done|..].
  - apply law_lookup; [apply (i_acct _ _ _ _ _ Hi')|by eapply inv_room|].
    eapply inv_live; [done|exact Hi'|]. apply elem_of_app. right. by apply elem_of_cons; left.
  - intros r s'' (Hr & Heq' & Hi''). split; [done|]. split; [|done]. by rewrite Heq', Heq.
  - intros r s'' (Heq' & Hi''). split; [|done]. by rewrite Heq', Heq.
Qed.

Lemma wpp_vfs_lookparent n s cs os path len :
  inv (S (S n)) s cs os -> sub os cs -> unlocked s ->
  wpp X (vfs_lookparent path len) (fun r => got (S n) s cs os (fst r)) (fun _ => back (S (S n)) s cs os) s.
Proof.
  intros Hi Hs Hu. unfold vfs_lookparent. wpp_base. eapply wpp_mono; [by apply wpp_getdevice|done| |done].
  intros [p v] s' (Hv & Heq & Hi'). cbn [snd] in *. case_bool_decide.
  - vsteps. eapply (wpp_decref ext ext_range); [exact Hi'|by apply sub_own|]. intros t Ht. vsteps. apply wpp_give.
    split; [by rewrite Heq|done].
  - eapply wpp_mono; [apply (wpp_gives_drop fst n s' cs os v); [done|done|]|done|..].
    + eapply wpp_mono; [apply law_lookparent; [apply (i_acct _ _ _ _ _ Hi')|by eapply inv_room|]|done|..].
      * eapply inv_live; [done|exact Hi'|]. apply elem_of_app. right. by apply elem_of_cons; left.
      * by intros [].
      * done.
    + intros r s'' (Hr & Heq' & Hi''). split; [done|]. split; [|done]. by rewrite Heq', Heq.
    + intros r s'' (Heq' & Hi''). split; [|done]. by rewrite Heq', Heq.
Qed.

(** ** The current directory and the boot file system *)

Definition stays (n : nat) (cs os : list ptr) (s' : vfs T) : Prop := inv n s' cs os /\ unlocked s'.

Lemma back_stays n s cs os s' : unlocked s -> back n s cs os s' -> stays n cs os s'.
Proof. intros Hu [-> Hi]. by split. Qed.

Lemma stays_weaken n cs os s' : stays (S n) cs os s' -> stays n cs os s'.
Proof. intros [Hi Hu]. split; [by apply inv_weaken|done]. Qed.

Lemma wpp_decref_nn n s cs os v :
  inv n s (nn v ++ cs) os -> sub os cs ->
  wpp X (if bool_decide (v ≠ NULL) then vop (VOP_DECREF v) else mret tt)
    (fun _ => back n s cs os) (fun _ _ => False) s.
Proof.
  unfold nn. intros Hi Hs. destruct (bool_decide_reflect (v = NULL)) as [Hv|Hv].
  - rewrite bool_decide_eq_false_2 by tauto. vsteps. auto.
  - rewrite bool_decide_eq_true_2 by done. eapply (wpp_decref ext ext_range); [exact Hi|by apply sub_own|].
    intros t Ht. apply back_low. by apply inv_weaken.
Qed.

Lemma own_cwd (s : vfs T) d : own (set_cwd s d) ++ nn (t_cwd s) ≡ₚ own s ++ nn d.
Proof. unfold own. cbn. rewrite <- !app_assoc. do 2 f_equiv. apply Permutation_app_comm. Qed.

Lemma own_bootfs (s : vfs T) d : own (set_bootfs s d) ++ nn (bootfs_vnode s) ≡ₚ own s ++ nn d.
Proof.
  unfold own. cbn. rewrite <- !app_assoc. f_equiv.
  rewrite (Permutation_app_comm (nn (t_cwd s)) (nn (bootfs_vnode s))), (Permutation_app_comm (nn (t_cwd s)) (nn d)), !app_assoc.
  by rewrite (Permutation_app_comm (nn d)).
Qed.

Lemma inv_cwd n s cs os d :
  inv n s (nn d ++ cs) os -> (d ≠ NULL -> vn_fs d (low s) ≠ NULL) -> inv n (set_cwd s d) (nn (t_cwd s) ++ cs) os.
Proof.
  intros Hi Hd. eapply inv_rehold; [exact Hi|done|done| |done]. rewrite !app_assoc. by rewrite own_cwd.
Qed.

Lemma inv_bootfs n s cs os d :
  inv n s (nn d ++ cs) os -> inv n (set_bootfs s d) (nn (bootfs_vnode s) ++ cs) os.
Proof.
  intros Hi. eapply inv_rehold; [exact Hi|done|done| |apply (i_cwd _ _ _ _ _ Hi)]. rewrite !app_assoc. by rewrite own_bootfs.
Qed.

Lemma nn_cons v : v ≠ NULL -> nn v = [v].
Proof. intros Hv. unfold nn. by rewrite bool_decide_eq_false_2. Qed.

Lemma wpp_setcurdir n s cs os dir :
  inv (S n) s cs os -> sub os cs -> unlocked s -> dir ≠ NULL -> dir ∈ own s ++ cs ->
  wpp X (vfs_setcurdir dir) (fun _ => stays n cs os) (fun _ => stays (S n) cs os) s.
Proof.
  intros Hi Hs Hu Hnn Hd. unfold vfs_setcurdir. wpp_base. apply wpp_vop.
  eapply wpp_mono; [apply law_gettype; [apply (i_acct _ _ _ _ _ Hi)|by eapply inv_live]|done|..].
  2: { intros e t Ht. split; [by apply inv_same|done]. }
  intros ty t [Ht Hdir]. pose proof (inv_same ext ext_range _ _ _ _ _ Hi Ht) as Hi'.
  destruct (S_ISDIR ty); cbn [negb]; [|vsteps; by split]. specialize (Hdir eq_refl).
  wpp_base. apply (wpp_vop (X := X)). eapply wpp_mono; [apply law_incref|done|..].
  - apply (i_acct _ _ _ _ _ Hi').
  - by eapply inv_room.
  - by eapply (inv_live ext ext_range _ _ _ _ _ Hi').
  - intros [] t' Hg. vsteps.
    assert (Hfs : vn_fs dir t' = vn_fs dir t).
    { pose proof (inv_live ext ext_range _ _ _ _ _ Hi' Hd) as Hlive. destruct Hg as [[_ Hk _] Hc]. apply Hk; [done|].
      rewrite (settled_live _ _ _ _ _ Hc) by done. rewrite one_same. cbn in *. lia. }
    assert (Hi'' : inv n (set_low s t') (nn dir ++ cs) os).
    { rewrite (nn_cons dir) by done. apply (inv_gain ext ext_range _ (set_low s t)); [done|by apply gains_mono|].
      rewrite Hfs. destruct (a_fs _ _ _ _ _ (i_acct _ _ _ _ _ Hi') dir Hd); [done|by right]. }
    apply inv_cwd in Hi''; [|intros; cbn; by rewrite Hfs].
    eapply wpp_mono; [by apply wpp_decref_nn|done| |done]. intros [] s'. by apply back_stays.
  - done.
Qed.

Lemma wpp_clearcurdir n s cs os :
  inv n s cs os -> sub os cs -> unlocked s ->
  wpp X vfs_clearcurdir (fun _ => stays n cs os) (fun _ _ => False) s.
Proof.
  intros Hi Hs Hu. unfold vfs_clearcurdir. vsteps. eapply wpp_mono; [apply (wpp_decref_nn n _ cs os); [|done]|done| |done].
  - by apply (inv_cwd n s cs os NULL).
  - intros [] s'. by apply back_stays.
Qed.

Lemma wpp_change_bootfs n s cs os newguy :
  inv n s (nn newguy ++ cs) os -> sub os cs -> unlocked s ->
  wpp X (change_bootfs newguy) (fun _ => stays n cs os) (fun _ _ => False) s.
Proof.
  intros Hi Hs Hu. unfold change_bootfs, acquire_bootfs, release_bootfs. vsteps.
  apply wpp_massert_ok; [by destruct Hu as [_ ->]|]. vsteps. apply wpp_massert_ok; [done|]. vsteps.
  eapply wpp_mono; [apply (wpp_decref_nn n _ cs os); [|done]|done| |done].
  - apply inv_block, (inv_bootfs n (set_block s true) cs os newguy). by apply inv_block.
  - intros [] s'. apply back_stays. destruct Hu. by split.
Qed.

Lemma wpp_chdir n s cs os path :
  inv (S (S n)) s cs os -> sub os cs -> unlocked s ->
  wpp X (vfs_chdir path) (fun _ => stays (S n) cs os) (fun _ => stays (S (S n)) cs os) s.
Proof.
  intros Hi Hs Hu. unfold vfs_chdir. wpp_base. eapply wpp_mono; [by apply wpp_vfs_lookup|done|..].
  2: { intros e s'. by apply back_stays. }
  intros vn s' (Hv & Heq & Hi'). wpp_base. apply wpp_try.
  eapply wpp_mono; [apply (wpp_setcurdir n s' (vn :: cs) os)|done|..].
  - done.
  - by apply sub_cons.
  - by rewrite Heq.
  - done.
  - apply elem_of_app. right. by apply elem_of_cons; left.
  - intros [] s'' [Hi'' Hu'']. vsteps. eapply (wpp_decref ext ext_range); [exact Hi''|by apply sub_own|].
    intros t Ht. vsteps. apply wpp_give. by split.
  - intros e s'' [Hi'' Hu'']. vsteps. eapply (wpp_decref ext ext_range); [exact Hi''|by apply sub_own|].
    intros t Ht. vsteps. apply wpp_give. by split.
Qed.

Lemma wpp_setbootfs n s cs os fsname :
  inv (S (S n)) s cs os -> sub os cs -> unlocked s ->
  wpp X (vfs_setbootfs fsname) (fun _ => stays n cs os) (fun _ => stays n cs os) s.
Proof.
  intros Hi Hs Hu. unfold vfs_setbootfs. set (tmp := take _ _). wpp_base.
  assert (Hstay : stays n cs os s) by (do 2 apply stays_weaken; by split).
  assert (Hgo : forall tmp, wpp X (_ ← vfs_chdir tmp; newguy ← vfs_getcurdir; change_bootfs newguy)
    (fun _ => stays n cs os) (fun _ => stays n cs os) s).
  { intros path. wpp_base. eapply wpp_mono; [by apply (wpp_chdir n)|done|..].
    2: { intros e s' Hs'. by do 2 apply stays_weaken. }
    intros [] s' [Hi' Hu']. wpp_base. eapply wpp_mono; [by apply wpp_getcurdir|done|..].
    2: { intros e s'' Hs'. apply stays_weaken. by apply (back_stays _ s'). }
    intros v s'' [(Hv & Heq & Hi'') _]. eapply wpp_mono; [apply (wpp_change_bootfs n s'' cs os v)|done|done|done].
    - by rewrite nn_cons.
    - done.
    - by rewrite Heq. }
  destruct (list_find (fun c => c = COLON) tmp) as [[i c]|].
  - case_bool_decide; [by apply wp_wpp, wp_fail|]. apply wp_wpp, wp_ret, Hgo.
  - apply wp_wpp, wp_ret, Hgo.
Qed.

Lemma getdevname_some fs kds : fs ∈ kd_fs <$> kds -> exists name, getdevname_loop fs kds = Some name.
Proof.
  induction kds as [|kd kds IH]; [by intros ?%not_elem_of_nil|].
  cbn [getdevname_loop fmap list_fmap]. case_bool_decide; [eauto|]. intros [->|?]%elem_of_cons; [done|auto].
Qed.

Lemma wpp_getdevname n s cs os fs :
  inv n s cs os -> unlocked s -> fs ∈ VfsSpec.fss s ->
  wpp X (vfs_getdevname fs) (fun name s' => s' = s /\ exists l, name = Some l) (fun _ _ => False) s.
Proof.
  intros Hi Hu Hf. apply elem_of_fss in Hf as (Hnn & kd & Hkd & Hfs). unfold vfs_getdevname.
  wpp_base. apply wpp_massert_ok; [by apply bool_decide_eq_true_2|]. wpp_base. apply wpp_acquire; [done|]. vsteps.
  apply wpp_release; [done|]. vsteps. split; [by apply relock|]. apply getdevname_some. apply list_elem_of_fmap. eauto.
Qed.

Lemma wpp_getcwd n s cs os :
  inv (S n) s cs os -> sub os cs -> unlocked s ->
  wpp X (vfs_getcwd UIO_READ) (fun _ => back (S n) s cs os) (fun _ => back (S n) s cs os) s.
Proof.
  intros Hi Hs Hu. unfold vfs_getcwd. wpp_base. apply wpp_massert_ok; [done|]. wpp_base.
  eapply wpp_mono; [by apply wpp_getcurdir|done| |done]. intros v s' [(Hv & Heq & Hi') ->].
  set (t := low s') in *. clearbody t. subst s'. wpp_steps. cbn [low set_low].
  assert (Hfs : vn_fs (t_cwd s) t ≠ NULL) by exact (i_cwd _ _ _ _ _ Hi' Hv).
  apply wpp_massert_ok; [by apply bool_decide_eq_true_2|]. wpp_base.
  assert (Hin : t_cwd s ∈ own (set_low s t) ++ t_cwd s :: cs).
  { apply elem_of_app. right. by apply elem_of_cons; left. }
  eapply (wpp_mono X X _ (fun name s' => s' = set_low s t /\ exists l, name = Some l) _ (fun _ _ => False)); [|done| |done].
  { destruct (FSOP_GETVOLNAME _ _) as [name|]; [by wpp_steps; eauto|]. eapply wpp_getdevname; [exact Hi'|done|].
    by destruct (a_fs _ _ _ _ _ (i_acct _ _ _ _ _ Hi') (t_cwd s) Hin). }
  intros name s' [-> [l ->]]. wpp_base. apply wpp_try.
  assert (Hend : forall (r : Z + unit) t', inv n (set_low s t') (t_cwd s :: cs) os ->
    wpp X (_ ← vop (VOP_DECREF (t_cwd s)); give r)
      (fun _ => back (S n) s cs os) (fun _ => back (S n) s cs os) (set_low s t')).
  { intros r t' Ht'. wpp_base. eapply (wpp_decref ext ext_range); [exact Ht'|by apply sub_own|]. intros t'' Ht''. vsteps.
    apply wpp_give. destruct r; auto. }
  wpp_base. eapply (wpp_quiet ext ext_range); [exact Hi'|apply law_uiomove, (i_acct _ _ _ _ _ Hi')|..];
    intros ? t1 Ht1; rewrite ?set_low_low in *; [wpp_base|by apply Hend].
  eapply (wpp_quiet ext ext_range); [exact Ht1|apply law_uiomove, (i_acct _ _ _ _ _ Ht1)|..];
    intros ? t2 Ht2; rewrite ?set_low_low in *; [|by apply Hend].
  eapply (wpp_quiet ext ext_range); [exact Ht2|apply law_namefile; [apply (i_acct _ _ _ _ _ Ht2)|]|..].
  { apply (inv_live ext ext_range _ _ _ _ _ Ht2). exact Hin. }
  all: intros ? t3 Ht3; rewrite ?set_low_low in *; by apply Hend.
Qed.

(** ** Operations on pathnames *)

Lemma in_held (s : vfs T) (v : ptr) cs : v ∈ own s ++ v :: cs.
Proof. apply elem_of_app. right. by apply elem_of_cons; left. Qed.

Lemma in_held2 (s : vfs T) (v w : ptr) cs : v ∈ own s ++ w :: v :: cs.
Proof. apply elem_of_app. right. apply elem_of_cons; right. by apply elem_of_cons; left. Qed.

(** The operations that find a directory, call it and release it. *)
Lemma wpp_at_parent n s cs os path (m : ptr -> list Z -> M T unit) :
  inv (S (S n)) s cs os -> sub os cs -> unlocked s ->
  (forall v name t, vl_ok t -> room t -> 0 < refcount t v -> wpp X (m v name) (fun _ => same F t) (fun _ => same F t) t) ->
  wpp X ('(dir, name) ← vfs_lookparent path (NAME_MAX + 1);
         r ← try (vop (m dir name)); _ ← vop (VOP_DECREF dir); give r)
    (fun _ => back (S (S n)) s cs os) (fun _ => back (S (S n)) s cs os) s.
Proof.
  intros Hi Hs Hu Hm. wpp_base. eapply wpp_mono; [by apply wpp_vfs_lookparent|done| |done].
  intros [v name] s' (Hv & Heq & Hi'). cbn [fst] in *.
  eapply wpp_mono; [apply (wpp_quiet_drop (S n) s' cs os v); [done|done|]|done|..].
  - apply Hm; [apply (i_acct _ _ _ _ _ Hi')|by eapply inv_room|].
    apply (inv_live ext ext_range _ _ _ _ _ Hi'), in_held.
  - intros _ s'' [Heq' Hi'']. split; [by rewrite Heq', Heq|done].
  - intros _ s'' [Heq' Hi'']. split; [by rewrite Heq', Heq|done].
Qed.

Lemma wpp_readlink n s cs os path :
  inv (S (S n)) s cs os -> sub os cs -> unlocked s ->
  wpp X (vfs_readlink path) (fun _ => back (S (S n)) s cs os) (fun _ => back (S (S n)) s cs os) s.
Proof.
  intros Hi Hs Hu. unfold vfs_readlink. wpp_base. eapply wpp_mono; [by apply wpp_vfs_lookup|done| |done].
  intros v s' (Hv & Heq & Hi').
  eapply wpp_mono; [apply (wpp_quiet_drop (S n) s' cs os v); [done|done|]|done|..].
  - apply law_readlink; [apply (i_acct _ _ _ _ _ Hi')|]. apply (inv_live ext ext_range _ _ _ _ _ Hi'), in_held.
  - intros _ s'' [Heq' Hi'']. split; [by rewrite Heq', Heq|done].
  - intros _ s'' [Heq' Hi'']. split; [by rewrite Heq', Heq|done].
Qed.

(** Both references of [vfs_rename] and [vfs_link] are released. *)
Lemma wpp_drop_two {A} n s cs os a b (r : Z + A) :
  inv n s (b :: a :: cs) os -> sub os cs ->
  wpp X (_ ← vop (VOP_DECREF b); _ ← vop (VOP_DECREF a); give r)
    (fun _ => back (S (S n)) s cs os) (fun _ => back (S (S n)) s cs os) s.
Proof.
  intros Hi Hs. wpp_base. eapply (wpp_decref ext ext_range); [exact Hi|by apply sub_own, sub_cons|]. intros t Ht.
  wpp_base. eapply (wpp_decref ext ext_range); [exact Ht|by apply sub_own|]. intros t' Ht'. vsteps. apply wpp_give.
  destruct r; auto.
Qed.

(** The common part of [vfs_rename] and [vfs_link], from the first lookup on. *)
Lemma wpp_two_parents n s cs os a newpath (m : ptr -> list Z -> M T unit) :
  inv (S (S n)) s (a :: cs) os -> sub os cs -> unlocked s ->
  (forall b name t, vl_ok t -> room t -> 0 < refcount t a -> 0 < refcount t b -> same_fs a b t = true ->
     wpp X (m b name) (fun _ => same F t) (fun _ => same F t) t) ->
  wpp X (r ← try (vfs_lookparent newpath (NAME_MAX + 1));
         match r with
         | inl result => _ ← vop (VOP_DECREF a); fail result
         | inr (b, name) =>
             s ← get;
             if negb (same_fs a b (low s)) then
               _ ← vop (VOP_DECREF b); _ ← vop (VOP_DECREF a); fail EXDEV
             else
               r ← try (vop (m b name)); _ ← vop (VOP_DECREF b); _ ← vop (VOP_DECREF a); give r
         end)
    (fun _ => back (S (S (S n))) s cs os) (fun _ => back (S (S (S n))) s cs os) s.
Proof.
  intros Hi Hs Hu Hm. wpp_base. apply wpp_try. eapply wpp_mono; [apply wpp_vfs_lookparent; [exact Hi|by apply sub_cons|done]|done|..].
  2: { intros e s' [Heq Hi']. wpp_base. eapply (wpp_decref ext ext_range); [exact Hi'|by apply sub_own|].
       intros t Ht. wpp_steps. split; [by rewrite Heq|done]. }
  intros [b name] s' (Hb & Heq & Hi'). cbn [fst] in *. wpp_steps.
  assert (Hback : forall s2, back (S (S (S n))) s' cs os s2 -> back (S (S (S n))) s cs os s2).
  { intros s2 [Heq' Hi2]. split; [by rewrite Heq', Heq|done]. }
  destruct (same_fs a b (low s')) eqn:Hfs; cbn [negb].
  - wpp_base. apply wpp_try. eapply (wpp_quiet ext ext_range); [exact Hi'|apply Hm|..].
    + apply (i_acct _ _ _ _ _ Hi').
    + by eapply inv_room.
    + apply (inv_live ext ext_range _ _ _ _ _ Hi'), in_held2.
    + apply (inv_live ext ext_range _ _ _ _ _ Hi'), in_held.
    + done.
    + intros u t Ht. eapply wpp_mono; [apply (wpp_drop_two (S n) _ cs os a b (inr u)); [exact Ht|done]|done|..];
        intros ? s2 Hb2; apply Hback; by apply (back_trans _ _ t).
    + intros e t Ht. eapply wpp_mono; [apply (wpp_drop_two (S n) _ cs os a b (inl e)); [exact Ht|done]|done|..];
        intros ? s2 Hb2; apply Hback; by apply (back_trans _ _ t).
  - eapply wpp_mono; [apply (wpp_drop_two (S n) s' cs os a b (inl EXDEV : Z + unit)); [exact Hi'|done]|done|..];
      intros ? s2 Hb2; by apply Hback.
Qed.

Lemma wpp_rename n s cs os oldpath newpath :
  inv (S (S (S n))) s cs os -> sub os cs -> unlocked s ->
  wpp X (vfs_rename oldpath newpath) (fun _ => back (S (S (S n))) s cs os) (fun _ => back (S (S (S n))) s cs os) s.
Proof.
  intros Hi Hs Hu. unfold vfs_rename. wpp_base. eapply wpp_mono; [by apply wpp_vfs_lookparent|done| |done].
  intros [a oldname] s' (Ha & Heq & Hi'). cbn [fst] in *.
  eapply wpp_mono; [apply (wpp_two_parents n s' cs os a newpath (fun b name => VOP_RENAME a oldname b name));
    [done|done|by rewrite Heq|]|done|..].
  - intros b name t ? ? ? ? ?. by apply law_rename.
  - intros _ s'' [Heq' Hi'']. split; [by rewrite Heq', Heq|done].
  - intros _ s'' [Heq' Hi'']. split; [by rewrite Heq', Heq|done].
Qed.

Lemma wpp_link n s cs os oldpath newpath :
  inv (S (S (S n))) s cs os -> sub os cs -> unlocked s ->
  wpp X (vfs_link oldpath newpath) (fun _ => back (S (S (S n))) s cs os) (fun _ => back (S (S (S n))) s cs os) s.
Proof.
  intros Hi Hs Hu. unfold vfs_link. wpp_base. eapply wpp_mono; [by apply wpp_vfs_lookup|done| |done].
  intros a s' (Ha & Heq & Hi').
  eapply wpp_mono; [apply (wpp_two_parents n s' cs os a newpath (fun b name => VOP_LINK b name a));
    [done|done|by rewrite Heq|]|done|..].
  - intros b name t ? ? ? ? ?. by apply law_link.
  - intros _ s'' [Heq' Hi'']. split; [by rewrite Heq', Heq|done].
  - intros _ s'' [Heq' Hi'']. split; [by rewrite Heq', Heq|done].
Qed.
End ops.

Arguments back {T _ _} F ext n s cs os s'.
Arguments got {T _ _} F ext n s cs os v s'.
Arguments stays {T _ _} F ext n cs os s'.

End VfsOps.
