(* ===== verification/VfsCalls.v ===== *)
(** * Opening, closing and mounting

    The remaining operations of the VFS layer: those that change the open
    files, and those that change the table of devices. *)

From S2P Require Import Prelude Uio Vfs VfsSpec VfsOps.
Import Uio Vfs VfsSpec VfsOps.

Module VfsCalls.

(** ** The file systems in the table *)

Lemma fss_split l1 kd l2 : fss_of (l1 ++ kd :: l2) ≡ₚ nn (kd_fs kd) ++ fss_of (l1 ++ l2).
Proof.
  unfold fss_of, nn. rewrite !fmap_app, fmap_cons, !filter_app, filter_cons.
  destruct (bool_decide_reflect (kd_fs kd = NULL)) as [Hn|Hn].
  - by rewrite decide_False by tauto.
  - rewrite decide_True by done. cbn [app]. by rewrite <- Permutation_middle.
Qed.

Lemma fss_insert kds i kd f :
  kds !! i = Some kd -> exists rest,
  fss_of kds ≡ₚ nn (kd_fs kd) ++ rest /\ fss_of (<[i := set_fs kd f]> kds) ≡ₚ nn f ++ rest.
Proof.
  intros Hk. exists (fss_of (take i kds ++ drop (S i) kds)). split.
  - rewrite <- (take_drop_middle kds i kd) at 1 by done. apply fss_split.
  - apply lookup_lt_Some in Hk. rewrite insert_take_drop by done. by rewrite fss_split.
Qed.

Lemma findmount_loop_spec devname kds : forall i j,
  findmount_loop devname i kds = Some j ->
  i <= j /\ exists kd, kds !! Z.to_nat (j - i) = Some kd /\ kd_rawname kd ≠ None /\ kd_name kd = devname.
Proof.
  induction kds as [|kd kds IH]; intros i j; cbn [findmount_loop]; [done|].
  case_bool_decide as Hr; [|case_bool_decide as Hn].
  - intros (? & kd' & Hl & Hk)%IH. split; [lia|]. exists kd'. split; [|done].
    by replace (Z.to_nat (j - i)) with (S (Z.to_nat (j - (i + 1)))) by lia.
  - intros [= <-]. split; [lia|]. exists kd. by rewrite Z.sub_diag.
  - intros (? & kd' & Hl & Hk)%IH. split; [lia|]. exists kd'. split; [|done].
    by replace (Z.to_nat (j - i)) with (S (Z.to_nat (j - (i + 1)))) by lia.
Qed.

Section calls.
Context {T : Type} `{vnode_layer T} `{vnode_obs T} {X F : Prop} `{!VnodeLaws T X F}.
Context (ext : ptr -> Z) (ext_range : forall x, 0 <= ext x <= MAXREFS).

Abbreviation inv := (VfsSpec.inv F ext).
Abbreviation back := (VfsOps.back F ext).
Abbreviation got := (VfsOps.got F ext).
Abbreviation stays := (VfsOps.stays F ext).

Ltac vsteps := repeat setoid_rewrite set_low_low; rewrite ?set_low_low in *; wpp_steps.

#[local] Hint Resolve back_low back_refl got_low inv_klock inv_block inv_orc unlocked_low : core.

(** ** Open and close *)

Lemma wpp_open_find n s cs os path fl :
  inv (S (S n)) s cs os -> sub os cs -> unlocked s ->
  wpp X (open_find path fl) (fun v => got (S n) s cs os v) (fun _ => back (S (S n)) s cs os) s.
Proof.
  intros Hi Hs Hu. unfold open_find. destruct (bool_decide (Z.land fl O_CREAT ≠ 0)); [|by apply wpp_vfs_lookup].
  wpp_base. eapply wpp_mono; [by apply wpp_vfs_lookparent|done| |done].
  intros [v name] s' (Hv & Heq & Hi'). cbn [fst] in *.
  eapply wpp_mono; [apply (wpp_gives_drop ext ext_range (fun r => r) n s' cs os v); [done|done|]|done|..].
  - apply law_creat; [apply (i_acct _ _ _ _ _ Hi')|by eapply inv_room|].
    apply (inv_live ext ext_range _ _ _ _ _ Hi'), in_held.
  - intros r s'' (Hr & Heq' & Hi''). split; [done|]. split; [|done]. by rewrite Heq', Heq.
  - intros r s'' (Heq' & Hi''). split; [|done]. by rewrite Heq', Heq.
Qed.

(** A reference and an open file more on success, nothing on failure. *)
Definition opened (n : nat) (s : vfs T) (cs os : list ptr) (v : ptr) (s' : vfs T) : Prop :=
  s' = set_low s (low s') /\ inv n s' (v :: cs) (v :: os).

Lemma wpp_close n s cs os v :
  inv n s (v :: cs) (v :: os) -> sub os cs ->
  wpp X (vfs_close v) (fun _ => back (S n) s cs os) (fun _ _ => False) s.
Proof.
  intros Hi Hs. unfold vfs_close. wpp_base. eapply (wpp_decopen ext ext_range); [exact Hi|]. intros t Ht.
  eapply (wpp_decref ext ext_range); [exact Ht|by apply sub_own|]. intros t' Ht'. rewrite set_low_low in *. auto.
Qed.

Lemma wpp_open n s cs os path fl :
  inv (S (S n)) s cs os -> sub os cs -> unlocked s ->
  wpp X (vfs_open path fl) (fun v => opened (S n) s cs os v) (fun _ => back (S (S n)) s cs os) s.
Proof.
  intros Hi Hs Hu. unfold vfs_open. wpp_base.
  apply (wpp_mono X X _ (fun _ s' => s' = s) _ (fun _ s' => s' = s));
    [by repeat case_match|done| |intros ? ? ->; auto].
  intros canwrite ? ->. wpp_base. eapply wpp_mono; [by apply wpp_open_find|done| |done].
  intros v s' (Hv & Heq & Hi'). set (t := low s') in *. clearbody t. subst s'.
  wpp_base. apply wpp_massert_ok; [by apply bool_decide_eq_true_2|]. wpp_base. apply wpp_try.
  assert (Hlive : forall t, inv (S n) (set_low s t) (v :: cs) os -> 0 < refcount t v).
  { intros t1 Ht1. apply (inv_live ext ext_range _ _ _ _ _ Ht1), in_held. }
  eapply (wpp_quiet ext ext_range); [exact Hi'|apply law_open; [apply (i_acct _ _ _ _ _ Hi')|by apply Hlive]|..].
  2: { intros e t1 Ht1. rewrite set_low_low in *. wpp_base.
       eapply (wpp_decref ext ext_range); [exact Ht1|by apply sub_own|]. intros t2 Ht2. vsteps. auto. }
  intros [] t1 Ht1. rewrite set_low_low in *. wpp_base.
  eapply (wpp_incopen ext ext_range n _ cs os v); [exact Ht1|done|]. intros t2 Ht2. rewrite set_low_low in *.
  assert (Hok : opened (S n) s cs os v (set_low s t2)) by by split.
  destruct (bool_decide (Z.land fl O_TRUNC ≠ 0)); [|by wpp_steps].
  assert (Hundo : forall result t3, inv (S n) (set_low s t3) (v :: cs) (v :: os) ->
    wpp X (_ ← vop (VOP_DECOPEN v); _ ← vop (VOP_DECREF v); fail result)
      (fun v => opened (S n) s cs os v) (fun _ => back (S (S n)) s cs os) (set_low s t3)).
  { intros result t3 Ht3. wpp_base. eapply (wpp_decopen ext ext_range); [exact Ht3|]. intros t4 Ht4. wpp_base.
    eapply (wpp_decref ext ext_range); [exact Ht4|by apply sub_own|]. intros t5 Ht5. vsteps. auto. }
  wpp_base. destruct canwrite; cbn [negb]; [|by apply wp_wpp, wp_ret, Hundo].
  apply wpp_try. eapply (wpp_quiet ext ext_range); [exact Ht2|apply law_truncate|..].
  - apply (i_acct _ _ _ _ _ Ht2).
  - apply (inv_live ext ext_range _ _ _ _ _ Ht2), in_held.
  - intros [] t3 Ht3. rewrite set_low_low in *. wpp_steps. by split.
  - intros e t3 Ht3. rewrite set_low_low in *. by apply Hundo.
Qed.

(** ** The table of devices *)

Lemma wpp_vfs_sync_loop n s cs os kds :
  inv n s cs os -> (forall kd, kd ∈ kds -> kd ∈ knowndevs s) ->
  wpp X (vfs_sync_loop kds) (fun _ => back n s cs os) (fun _ _ => False) s.
Proof.
  revert s. induction kds as [|kd kds IH]; intros s Hi Hk; cbn [vfs_sync_loop]; [wpp_steps; auto|].
  assert (Hrest : forall t, inv n (set_low s t) cs os ->
    wpp X (vfs_sync_loop kds) (fun _ => back n s cs os) (fun _ _ => False) (set_low s t)).
  { intros t Ht. eapply wpp_mono; [apply IH; [exact Ht|]|done| |done].
    - intros k Hin. apply Hk. by apply elem_of_cons; right.
    - intros ? s'. apply back_trans. }
  wpp_base. destruct (bool_decide_reflect (kd_fs kd ≠ NULL)) as [Hf|Hf].
  - wpp_base. apply wpp_try. eapply (wpp_quiet ext ext_range); [exact Hi|apply law_sync|..].
    + apply (i_acct _ _ _ _ _ Hi).
    + apply (i_mounted _ _ _ _ _ Hi). apply in_fss; [|done]. apply Hk. by apply elem_of_cons; left.
    + intros ? t Ht. wpp_base. by apply Hrest.
    + intros ? t Ht. wpp_base. by apply Hrest.
  - wpp_base. replace s with (set_low s (low s)) by by destruct s. apply Hrest. by destruct s.
Qed.

Lemma wpp_vfs_sync n s cs os :
  inv n s cs os -> unlocked s -> wpp X vfs_sync (fun _ => back n s cs os) (fun _ _ => False) s.
Proof.
  intros Hi Hu. unfold vfs_sync. wpp_base. apply wpp_acquire; [done|]. wpp_steps.
  eapply wpp_mono; [apply (wpp_vfs_sync_loop n (set_klock s true) cs os); [by apply inv_klock|done]|done| |done].
  intros [] s' (-> & Hi'). apply wpp_release; [done|]. cbn [low set_low].
  apply (inv_klock _ _ _ _ _ false) in Hi'. rewrite relock_low in * by done. auto.
Qed.

(** [kd_fs] of one device set to [f]: the table and the layer below change. *)
Definition refit (s s' : vfs T) : Prop :=
  own s' = own s /\ t_cwd s' = t_cwd s /\ knowndevs_lock s' = knowndevs_lock s /\ bootfs_lock s' = bootfs_lock s
  /\ kd_vnode <$> knowndevs s' = kd_vnode <$> knowndevs s.

Lemma wpp_assign_fs s i kd f (Q : unit -> vfs T -> Prop) E :
  0 <= i -> knowndevs s !! Z.to_nat i = Some kd ->
  Q tt (set_knowndevs s (<[Z.to_nat i := set_fs kd f]> (knowndevs s))) -> wpp X (assign_fs i f) Q E s.
Proof.
  intros Hi Hk HQ. unfold assign_fs. wpp_steps. eapply wpp_lift; [by apply getZ_ok|]. wpp_base.
  apply lookup_lt_Some in Hk as Hlt. eapply wpp_lift; [apply setZ_ok; lia|]. by wpp_steps.
Qed.

Lemma refit_insert (s : vfs T) i kd f :
  knowndevs s !! i = Some kd -> refit s (set_knowndevs s (<[i := set_fs kd f]> (knowndevs s))).
Proof.
  intros Hk. assert (Hvs : kd_vnode <$> <[i := set_fs kd f]> (knowndevs s) = kd_vnode <$> knowndevs s).
  { rewrite list_fmap_insert. apply list_insert_id. rewrite list_lookup_fmap, Hk. done. }
  repeat split; [|done]. unfold own. cbn. by rewrite Hvs.
Qed.

Lemma kd_ok_insert (s : vfs T) i kd f :
  Forall kd_ok (knowndevs s) -> knowndevs s !! i = Some kd -> kd_rawname kd ≠ None ->
  Forall kd_ok (<[i := set_fs kd f]> (knowndevs s)).
Proof.
  intros Hf Hk Hr. apply Forall_insert; [done|]. pose proof (Forall_lookup_1 _ _ _ _ Hf Hk) as [? ? Hm].
  split; cbn; auto.
Qed.

(** A file system comes into the table, or leaves it. *)
Lemma inv_mount n s cs os t i kd f :
  inv n s cs os -> knowndevs s !! i = Some kd -> kd_rawname kd ≠ None -> kd_fs kd = NULL ->
  same F (low s) t -> f ≠ NULL -> ~ mounted (low s) f -> mounted t f ->
  inv n (set_knowndevs (set_low s t) (<[i := set_fs kd f]> (knowndevs s))) cs os.
Proof.
  intros Hi Hk Hr Hn [[Hok Hkf Hm] Hc] Hf Hnm Hm'. destruct (fss_insert _ _ _ f Hk) as (rest & H1 & H2).
  rewrite Hn in H1. unfold nn in H1. rewrite bool_decide_eq_true_2 in H1 by done. cbn [app] in H1.
  unfold nn in H2. rewrite bool_decide_eq_false_2 in H2 by done. cbn [app] in H2.
  pose proof (refit_insert (set_low s t) i kd f Hk) as (Hown & _ & _ & _ & Hvs).
  eapply (inv_table ext ext_range n s); [exact Hi|done|done|done|done|done|done|..].
  - apply (kd_ok_insert s); [apply (i_kds _ _ _ _ _ Hi)|done|done].
  - unfold fss. cbn. rewrite H2. apply NoDup_cons. rewrite <- H1. split; [|apply (i_nodup _ _ _ _ _ Hi)].
    intros Hin. by apply Hnm, (i_mounted _ _ _ _ _ Hi).
  - intros g. unfold fss. cbn. rewrite H2. intros [->|Hg]%elem_of_cons; [done|]. apply Hm, (i_mounted _ _ _ _ _ Hi).
    unfold fss. by rewrite H1.
  - intros g Hg _. unfold fss in *. cbn. rewrite H2. apply elem_of_cons. right. by rewrite <- H1.
Qed.

Lemma inv_unmount n s cs os t i kd :
  inv n s cs os -> knowndevs s !! i = Some kd -> kd_rawname kd ≠ None -> kd_fs kd ≠ NULL ->
  vl_ok t -> keeps_fs (low s) t -> counts (low s) t (fun _ => 0) (fun _ => 0) ->
  (forall g, mounted t g <-> mounted (low s) g /\ g ≠ kd_fs kd) ->
  inv n (set_knowndevs (set_low s t) (<[i := set_fs kd NULL]> (knowndevs s))) cs os.
Proof.
  intros Hi Hk Hr Hn Hok Hkf Hc Hm. destruct (fss_insert _ _ _ NULL Hk) as (rest & H1 & H2).
  unfold nn in H1. rewrite bool_decide_eq_false_2 in H1 by done. cbn in H1, H2.
  pose proof (i_nodup _ _ _ _ _ Hi) as Hnd. unfold fss in Hnd. rewrite H1 in Hnd. apply NoDup_cons in Hnd as [Hni Hnd].
  pose proof (refit_insert (set_low s t) i kd NULL Hk) as (Hown & _ & _ & _ & Hvs).
  eapply (inv_table ext ext_range n s); [exact Hi|done|done|done|done|done|by apply counts_settled|..].
  - apply (kd_ok_insert s); [apply (i_kds _ _ _ _ _ Hi)|done|done].
  - unfold fss. cbn. by rewrite H2.
  - intros g. unfold fss. cbn. rewrite H2. intros Hg. apply Hm. split; [|by intros ->].
    apply (i_mounted _ _ _ _ _ Hi). unfold fss. rewrite H1. by apply elem_of_cons; right.
  - intros g Hg [_ Hne]%Hm. unfold fss in *. cbn. rewrite H2. rewrite H1 in Hg.
    by apply elem_of_cons in Hg as [->|].
Qed.

(** The body of a call under [knowndevs_lock], with what is left to do after it. *)
Lemma wpp_locked {A} n s cs os (m : M (vfs T) A) :
  inv n s cs os -> unlocked s ->
  wpp X m (fun _ s' => inv n s' cs os /\ refit (set_klock s true) s')
    (fun _ s' => inv n s' cs os /\ refit (set_klock s true) s') (set_klock s true) ->
  wpp X (_ ← acquire_knowndevs; r ← try m; _ ← release_knowndevs; give r)
    (fun _ => stays n cs os) (fun _ => stays n cs os) s.
Proof.
  intros Hi Hu Hm. wpp_base. apply wpp_acquire; [done|]. wpp_base. apply wpp_try.
  assert (Hend : forall (r : Z + A) s', inv n s' cs os /\ refit (set_klock s true) s' ->
    wpp X (_ ← release_knowndevs; give r) (fun _ => stays n cs os) (fun _ => stays n cs os) s').
  { intros r s' [Hi' (_ & _ & Hl & Hb & _)]. wpp_base. apply wpp_release; [done|]. apply wpp_give.
    assert (stays n cs os (set_klock s' false)).
    { split; [by apply inv_klock|]. split; [done|]. cbn. rewrite Hb. apply Hu. }
    by destruct r. }
  eapply wpp_mono; [exact Hm|done|..]; intros ? s' Hs'; by apply Hend.
Qed.

Lemma refit_refl (s : vfs T) : refit s s.
Proof. done. Qed.

Lemma refit_trans (s s' s'' : vfs T) : refit s s' -> refit s' s'' -> refit s s''.
Proof. intros (? & ? & ? & ? & ?) (? & ? & ? & ? & ?). repeat split; congruence. Qed.

Lemma wpp_findmount s devname (Q : Z -> vfs T -> Prop) (E : Z -> vfs T -> Prop) :
  knowndevs_lock s = true ->
  (forall i kd, 0 <= i -> knowndevs s !! Z.to_nat i = Some kd -> kd_rawname kd ≠ None ->
     kd_name kd = devname -> Q i s) ->
  E ENODEV s -> wpp X (findmount devname) Q E s.
Proof.
  intros Hl HQ HE. unfold findmount. wpp_steps. apply wpp_massert_ok; [done|].
  destruct (findmount_loop devname 0 (knowndevs s)) as [i|] eqn:Hf; wpp_steps; [|done].
  apply findmount_loop_spec in Hf as (Hi & kd & Hk & Hr & Hn). rewrite Z.sub_0_r in Hk. eauto.
Qed.

Lemma wpp_mount n s cs os devname mountfunc :
  inv n s cs os -> unlocked s -> mounts X F mountfunc ->
  wpp X (vfs_mount devname mountfunc) (fun _ => stays n cs os) (fun _ => stays n cs os) s.
Proof.
  intros Hi Hu Hmf. apply wpp_locked; [done|done|]. set (s1 := set_klock s true).
  assert (Hi1 : inv n s1 cs os) by by apply inv_klock. unfold mount_locked. wpp_base.
  apply wpp_findmount; [done| |done]. intros i kd Hge Hk Hr Hn. wpp_steps. eapply wpp_lift; [by apply getZ_ok|].
  destruct (bool_decide_reflect (kd_fs kd ≠ NULL)) as [Hf|Hf]; [by wpp_steps|].
  assert (Hok : kd_ok kd) by (eapply Forall_lookup_1; [apply (i_kds _ _ _ _ _ Hi1)|done]).
  wpp_base. apply wpp_massert_ok; [by apply bool_decide_eq_true_2|]. wpp_base.
  apply wpp_massert_ok; [by apply bool_decide_eq_true_2, (kd_mountable _ Hok)|]. wpp_base. apply wpp_vop.
  eapply wpp_mono; [apply Hmf, (i_acct _ _ _ _ _ Hi1)|done|..].
  - intros f t (Hs & Hfn & Hnm & Hm). wpp_base. apply wpp_massert_ok; [by apply bool_decide_eq_true_2|].
    eapply wpp_assign_fs; [done|exact Hk|]. split.
    + apply (inv_mount n s1 cs os t); [done|done|done| |done..]. by destruct (decide (kd_fs kd = NULL)).
    + apply (refit_insert (set_low s1 t)). exact Hk.
  - intros e t Hs. split; [by apply inv_same|done].
Qed.

(** [FSOP_UNMOUNT] and [kd->kd_fs = NULL] *)
Lemma wpp_unmount_fs {A} n s cs os i kd (k : Z + unit -> M (vfs T) A) (Q : A -> vfs T -> Prop) E :
  inv n s cs os -> 0 <= i -> knowndevs s !! Z.to_nat i = Some kd -> kd_rawname kd ≠ None -> kd_fs kd ≠ NULL ->
  (forall e t, inv n (set_low s t) cs os -> wpp X (k (inl e)) Q E (set_low s t)) ->
  (forall t, inv n (set_knowndevs (set_low s t) (<[Z.to_nat i := set_fs kd NULL]> (knowndevs s))) cs os ->
     wpp X (k (inr tt)) Q E (set_low s t)) ->
  wpp X (r ← try (vop (FSOP_UNMOUNT (kd_fs kd))); k r) Q E s.
Proof.
  intros Hi Hge Hk Hr Hf HE HQ. wpp_base. apply wpp_try, wpp_vop.
  eapply wpp_mono; [apply law_unmount; [apply (i_acct _ _ _ _ _ Hi)|]|done|..].
  - apply (i_mounted _ _ _ _ _ Hi), in_fss; [|done]. by eapply list_elem_of_lookup_2.
  - intros [] t (Hok & Hkf & Hc & Hm). apply HQ. by apply inv_unmount.
  - intros e t Hs. apply HE. by apply inv_same.
Qed.

Lemma wpp_sync_fs n s cs os kd (Q : unit -> vfs T -> Prop) E :
  inv n s cs os -> kd ∈ knowndevs s -> kd_fs kd ≠ NULL ->
  (forall t, inv n (set_low s t) cs os -> Q tt (set_low s t)) ->
  (forall e t, inv n (set_low s t) cs os -> E e (set_low s t)) ->
  wpp X (vop (FSOP_SYNC (kd_fs kd))) Q E s.
Proof.
  intros Hi Hk Hf HQ HE. eapply (wpp_quiet ext ext_range); [exact Hi|apply law_sync|..].
  - apply (i_acct _ _ _ _ _ Hi).
  - by apply (i_mounted _ _ _ _ _ Hi), in_fss.
  - intros []. apply HQ.
  - apply HE.
Qed.

Lemma wpp_unmount n s cs os devname :
  inv n s cs os -> unlocked s ->
  wpp X (vfs_unmount devname) (fun _ => stays n cs os) (fun _ => stays n cs os) s.
Proof.
  intros Hi Hu. apply wpp_locked; [done|done|]. set (s1 := set_klock s true).
  assert (Hi1 : inv n s1 cs os) by by apply inv_klock. unfold unmount_locked. wpp_base.
  apply wpp_findmount; [done| |done]. intros i kd Hge Hk Hr Hn. wpp_steps. eapply wpp_lift; [by apply getZ_ok|].
  destruct (bool_decide_reflect (kd_fs kd = NULL)) as [Hf|Hf]; [by wpp_steps|].
  assert (Hok : kd_ok kd) by (eapply Forall_lookup_1; [apply (i_kds _ _ _ _ _ Hi1)|done]).
  wpp_base. apply wpp_massert_ok; [by apply bool_decide_eq_true_2|]. wpp_base.
  apply wpp_massert_ok; [by apply bool_decide_eq_true_2, (kd_mountable _ Hok)|]. wpp_base.
  eapply wpp_sync_fs; [exact Hi1|by eapply list_elem_of_lookup_2|done| |by split].
  intros t Ht. wpp_base. apply wpp_vop. eapply wpp_mono; [apply law_unmount; [apply (i_acct _ _ _ _ _ Ht)|]|done|..].
  - apply (i_mounted _ _ _ _ _ Ht), in_fss; [|done]. by eapply list_elem_of_lookup_2.
  - intros [] t' (Hok' & Hkf & Hc & Hm). eapply wpp_assign_fs; [done|exact Hk|]. split.
    + by apply (inv_unmount n (set_low s1 t)).
    + apply (refit_insert (set_low s1 t')). exact Hk.
  - intros e t' Hs. split; [by apply (inv_same ext ext_range _ (set_low s1 t))|done].
Qed.

Lemma wpp_unmount_one n s cs os i :
  inv n s cs os -> 0 <= i < Z.of_nat (length (knowndevs s)) ->
  wpp X (unmount_one i) (fun _ s' => inv n s' cs os /\ refit s s') (fun _ _ => False) s.
Proof.
  intros Hi Hr. unfold unmount_one. destruct (lookup_lt_is_Some_2 (knowndevs s) (Z.to_nat i)) as [kd Hk]; [lia|].
  wpp_steps. eapply wpp_lift; [apply getZ_ok; [lia|exact Hk]|].
  destruct (bool_decide_reflect (kd_rawname kd = None)) as [Hraw|Hraw]; [by wpp_steps|].
  destruct (bool_decide_reflect (kd_fs kd = NULL)) as [Hf|Hf]; [by wpp_steps|].
  assert (Hin : kd ∈ knowndevs s) by by eapply list_elem_of_lookup_2.
  assert (Hlast : forall t, inv n (set_low s t) cs os ->
    wpp X (r ← try (vop (FSOP_UNMOUNT (kd_fs kd)));
           match r with inl _ => mret tt | inr _ => assign_fs i NULL end)
      (fun _ s' => inv n s' cs os /\ refit s s') (fun _ _ => False) (set_low s t)).
  { intros t Ht. eapply wpp_unmount_fs; [exact Ht| |exact Hk|done|done|..]; [lia|..].
    - intros e t' Ht'. by wpp_steps.
    - intros t' Ht'. eapply wpp_assign_fs; [lia|exact Hk|]. split; [done|].
      apply (refit_insert (set_low s t')). exact Hk. }
  wpp_base. apply wpp_try. eapply wpp_sync_fs; [exact Hi|done|done|..].
  - intros t Ht. wpp_base. wpp_base. by apply Hlast.
  - intros e t Ht. wpp_base. apply wpp_try. eapply wpp_sync_fs; [exact Ht|done|done|..].
    + intros t' Ht'. by apply Hlast.
    + intros e' t' Ht'. by wpp_steps.
Qed.

Lemma wpp_unmountall_loop k : forall n s cs os i,
  inv n s cs os -> 0 <= i -> i + Z.of_nat k <= Z.of_nat (length (knowndevs s)) ->
  wpp X (unmountall_loop k i) (fun _ s' => inv n s' cs os /\ refit s s') (fun _ _ => False) s.
Proof.
  induction k as [|k IH]; intros n s cs os i Hi Hge Hle; cbn [unmountall_loop]; [by wpp_steps|].
  wpp_base. eapply wpp_mono; [apply wpp_unmount_one; [exact Hi|lia]|done| |done]. intros _ s' [Hi' Hr].
  pose proof Hr as (_ & _ & _ & _ & Hlen). apply (f_equal length) in Hlen. rewrite !length_fmap in Hlen.
  eapply wpp_mono; [apply IH; [exact Hi'|lia|lia]|done| |done].
  intros _ s'' [Hi'' Hr']. split; [done|by eapply refit_trans].
Qed.

Lemma wpp_unmountall n s cs os :
  inv n s cs os -> unlocked s -> wpp X vfs_unmountall (fun _ => stays n cs os) (fun _ _ => False) s.
Proof.
  intros Hi Hu. unfold vfs_unmountall. wpp_base. apply wpp_acquire; [done|]. wpp_steps.
  eapply wpp_mono; [apply (wpp_unmountall_loop _ n (set_klock s true) cs os); [by apply inv_klock|done|cbn; lia]|done| |done].
  intros _ s' [Hi' (_ & _ & Hl & Hb & _)]. apply wpp_release; [done|]. split; [by apply inv_klock|].
  split; [done|]. cbn. rewrite Hb. apply Hu.
Qed.
End calls.

Arguments opened {T _ _} F ext n s cs os v s'.

End VfsCalls.
