(* ===== verification/VfsTheorems.v ===== *)
(** * The VFS layer: sequences of calls

    [calls_balanced]: over any sequence of calls of the layer, the reference
    and open counts of all vnodes stay in step with the references held, on
    every vnode layer that keeps the contract; what failing calls of
    [vfs_adddev] lose is counted.  [EmuLayerTheorems] applies it to the kernel's own
    vnode layer. *)

From S2P Require Import Prelude Uio Vfs VfsSpec VfsOps VfsCalls.
Import Uio Vfs VfsSpec VfsOps VfsCalls.

Module VfsTheorems.

(** [L] counted among the references held elsewhere. *)
Definition plus (ext : ptr -> Z) (L : list ptr) (x : ptr) : Z := ext x + occ x L.

Section adding.
Context {T : Type} `{vnode_layer T} `{vnode_obs T} {X F : Prop} `{!VnodeLaws T X F}.
Context (ext : ptr -> Z) (ext_range : forall x, 0 <= ext x <= MAXREFS).

Abbreviation inv := (VfsSpec.inv F).
Abbreviation stays := (VfsOps.stays F).

Lemma wpp_vfs_kmalloc s (Q : bool -> vfs T -> Prop) E :
  (forall ok o, Q ok (set_orc s o)) -> wpp X kmalloc Q E s.
Proof. intros HQ. unfold wpp, kmalloc. destruct (kmalloc_ok (orc s)) as [ok o]. apply HQ. Qed.

(** What a device table entry may be made of. *)
Definition addable (s : vfs T) (mountable : bool) (dev fs : ptr) : Prop :=
  fs = NULL /\ dev ≠ NULL \/ mountable = false /\ fs ≠ NULL /\ mounted (low s) fs /\ fs ∉ fss s.

Lemma inv_ext (e e' : ptr -> Z) n s cs os : (forall x, e x = e' x) -> inv e n s cs os -> inv e' n s cs os.
Proof.
  intros He [[Hok Hcnt Ho Hfs] ? ? ? ? ? ? ?]. split; [|done..]. split; [done| |done|done].
  intros x. rewrite <- He. apply Hcnt.
Qed.

Lemma plus_nil e n s cs os : inv e n s cs os -> inv (plus e []) n s cs os.
Proof. apply inv_ext. intros x. unfold plus. cbn. lia. Qed.

(** The references held elsewhere change, and the counts with them. *)
Lemma inv_elsewhere (e e' : ptr -> Z) n s cs os t :
  (forall x, 0 <= e x) -> (forall x, 0 <= e' x) -> inv e n s cs os -> frame (low s) t ->
  (forall x, opencount t x = opencount (low s) x) ->
  (forall x, e' x = e x /\ refcount t x = refcount (low s) x \/
             refcount (low s) x = e x + occ x (own s ++ cs) /\ refcount t x = e' x + occ x (own s ++ cs)) ->
  inv e' n (set_low s t) cs os.
Proof.
  intros He He' [Ha Hkd Hnd Hm Hcwd Hdev Hsub Hroom] [Hok Hk Hmt] Ho Hr.
  assert (Hfs : forall x, x ∈ own s ++ cs -> vn_fs x t = vn_fs x (low s)).
  { intros x Hx. pose proof (occ_elem _ _ Hx). pose proof (a_cnt _ _ _ _ _ Ha x). specialize (He x). specialize (He' x).
    apply Hk; destruct (Hr x) as [[_ ?]|[? ?]]; lia. }
  split; [|done|done| | | |done|done].
  - change (acct F e' (VfsSpec.fss s) (own s ++ cs) os t). split; [done| | |].
    + intros x. pose proof (a_cnt _ _ _ _ _ Ha x) as Hx. destruct (Hr x) as [[-> ->]|[_ ->]]; [done|by left].
    + intros x. rewrite Ho. apply (a_open _ _ _ _ _ Ha).
    + intros x Hx. rewrite Hfs by done. by apply (a_fs _ _ _ _ _ Ha).
  - intros f Hf. by apply Hmt, Hm.
  - cbn. intros Hc. rewrite Hfs; [auto|]. apply elem_of_app. left. by apply cwd_own.
  - cbn. intros x Hx. rewrite Hfs by done. by apply Hdev.
Qed.

(** A new vnode, which nobody holds yet. *)
Lemma inv_new n s cs os v t :
  inv ext n s cs os -> gains False v (low s) t -> refcount (low s) v = 0 ->
  ext v = 0 /\ refcount t v = 1 /\ occ v (own s ++ cs) = 0 /\ inv (plus ext [v]) n (set_low s t) cs os.
Proof.
  intros Hi [Hf Hc] Hv. pose proof (a_lo _ _ _ _ _ (i_acct _ _ _ _ _ Hi) v) as Hlo.
  pose proof (occ_range v (own s ++ cs)). pose proof (ext_range v).
  assert (Hr : forall x, refcount t x = refcount (low s) x + one v x) by (intros x; destruct (Hc x) as [_ [?|[[] _]]]; done).
  split_and!; [lia|rewrite Hr, one_same; lia|lia|].
  eapply (inv_elsewhere ext); [apply ext_range| |exact Hi|done|apply Hc|].
  - intros x. unfold plus. cbn [occ]. pose proof (one_range v x). specialize (ext_range x). lia.
  - intros x. rewrite Hr. unfold plus. cbn [occ]. destruct (decide (x = v)) as [->|Hne].
    + right. rewrite one_same. lia.
    + left. rewrite one_other by done. lia.
Qed.

(** It is freed again. *)
Lemma inv_kfree n s cs os v t :
  ext v = 0 -> occ v (own s ++ cs) = 0 -> refcount (low s) v = 1 -> inv (plus ext [v]) n s cs os ->
  frame (low s) t /\ counts (low s) t (fun x => - one v x) (fun _ => 0) -> inv ext n (set_low s t) cs os.
Proof.
  intros Hv Hocc H1 Hi [Hf Hc]. eapply (inv_elsewhere (plus ext [v])); [| |exact Hi|done| |].
  - intros x. unfold plus. cbn [occ]. pose proof (one_range v x). specialize (ext_range x). lia.
  - intros x. apply ext_range.
  - intros x. destruct (Hc x) as [_ ->]. lia.
  - intros x. destruct (Hc x) as [-> _]. unfold plus. cbn [occ]. destruct (decide (x = v)) as [->|Hne].
    + right. rewrite one_same. lia.
    + left. rewrite one_other by done. lia.
Qed.

(** Its device comes into the table. *)
Lemma inv_add n s cs os name raw dev v fs :
  inv (plus ext [v]) (S n) s cs os -> vn_fs v (low s) = NULL -> v ≠ NULL -> addable s (bool_decide (raw ≠ None)) dev fs ->
  inv ext n (set_knowndevs s (knowndevs s ++ [mkKd name raw dev v fs])) cs os.
Proof.
  intros Hi Hvfs Hv Ha. set (s' := set_knowndevs _ _).
  assert (Hfss : VfsSpec.fss s' ≡ₚ nn fs ++ VfsSpec.fss s).
  { unfold fss, s'. cbn [knowndevs set_knowndevs]. rewrite fss_split. by rewrite app_nil_r. }
  assert (Hown : own s' ++ cs ≡ₚ v :: own s ++ cs).
  { unfold own, s'. cbn [knowndevs set_knowndevs bootfs_vnode t_cwd]. rewrite fmap_app, <- !app_assoc.
    cbn [fmap list_fmap app kd_vnode]. by rewrite <- Permutation_middle. }
  destruct Hi as [[Hok Hcnt Ho Hf] Hkd Hnd Hm Hcwd Hdev Hsub Hroom].
  assert (Hfs : fs ≠ NULL -> mounted (low s) fs /\ fs ∉ VfsSpec.fss s) by (destruct Ha as [[? ?]|(? & ? & ? & ?)]; done).
  split; [|..|done| | |].
  - split; [done| |done|].
    + intros x. change (low s') with (low s). rewrite (occ_perm x _ _ Hown). cbn [occ]. specialize (Hcnt x). unfold plus in Hcnt. cbn [occ] in Hcnt.
      pose proof (one_range v x). specialize (ext_range x).
      destruct Hcnt as [?|(? & ? & ?)]; [left; lia|right; split_and!; [done|lia|lia]].
    + intros x. rewrite Hown. intros [->|Hx]%elem_of_cons; [by left|]. destruct (Hf x Hx); [by left|right].
      rewrite Hfss. apply elem_of_app. by right.
  - unfold s'. cbn. apply Forall_app. split; [done|]. apply Forall_singleton. split; cbn; [done|..].
    + destruct Ha as [[_ Hd]|(_ & Hn & _)]; [done|by intros ->].
    + destruct Ha as [[_ Hd]|(Hn & _)]; [done|]. intros Hr. by rewrite bool_decide_eq_true_2 in Hn.
  - rewrite Hfss. unfold nn. destruct (bool_decide_reflect (fs = NULL)) as [|Hn]; [done|].
    apply NoDup_cons. split; [by apply Hfs|done].
  - intros f. rewrite Hfss. unfold nn. destruct (bool_decide_reflect (fs = NULL)) as [|Hn]; [apply Hm|].
    intros [->|Hf']%elem_of_cons; [by apply Hfs|by apply Hm].
  - intros x. rewrite Hown. cbn [s' knowndevs set_knowndevs low]. rewrite fmap_app.
    intros [->|Hx]%elem_of_cons Hn; apply elem_of_app; [right; by apply list_elem_of_singleton|left; auto].
  - intros x. rewrite (occ_perm x _ _ Hown). apply sub_cons, Hsub.
  - rewrite Hown. cbn [length]. lia.
Qed.

(** At most [k] vnodes are lost: nobody holds them, and nobody did before. *)
Definition lost (k : nat) (e : ptr -> Z) (L : list ptr) : Prop :=
  NoDup L /\ (length L <= k)%nat /\ forall x, x ∈ L -> e x = 0.

Definition stays_but (k : nat) (e : ptr -> Z) (n : nat) (cs os : list ptr) (s' : vfs T) : Prop :=
  exists L, lost k e L /\ stays (plus e L) n cs os s'.

Lemma stays_all k e n cs os s' : stays e n cs os s' -> stays_but k e n cs os s'.
Proof.
  intros [Hi Hu]. exists []. split; [|split; [by apply plus_nil|done]].
  split; [constructor|]. split; [cbn; lia|]. by intros x ?%not_elem_of_nil.
Qed.

Lemma wpp_doadd n s cs os name mountable dev fs :
  inv ext (S n) s cs os -> sub os cs -> unlocked s -> addable s mountable dev fs ->
  wpp X (vfs_doadd name mountable dev fs) (fun _ => stays ext n cs os) (fun _ => stays_but 1 ext n cs os) s.
Proof.
  intros Hi Hs Hu Ha. unfold vfs_doadd.
  assert (Hstay : forall o, stays_but 1 ext n cs os (set_orc s o)).
  { intros o. apply stays_all. split; [by apply inv_weaken, inv_orc|done]. }
  wpp_base. apply wpp_vfs_kmalloc. intros ok o1. destruct ok; cbn [negb]; [|by wpp_steps].
  wpp_base. apply (wpp_mono X X _ (fun raw s' => exists o, s' = set_orc s o /\ (mountable = false -> raw = None))
    _ (fun _ _ => False)); [|done| |done].
  { destruct mountable; [|wpp_steps; by exists o1]. unfold mkrawname. wpp_base. apply wpp_vfs_kmalloc. intros ok o2.
    wpp_steps. by exists o2. }
  intros raw ? (o2 & -> & Hraw). destruct (mountable && bool_decide (raw = None)) eqn:Hb; [by wpp_steps|].
  assert (Ha' : addable s (bool_decide (raw ≠ None)) dev fs).
  { destruct Ha as [?|(-> & ?)]; [by left|right]. split; [|done]. rewrite Hraw by done. done. }
  wpp_base. apply wpp_vop. eapply wpp_mono; [apply law_create; [apply (i_acct _ _ _ _ _ Hi)|exact (inv_room ext ext_range _ _ _ _ Hi)]|done| |done].
  intros v t [[-> Hsame]|(Hv & Hr0 & Hvfs & Hg)].
  { cbn. wpp_steps. apply stays_all. split; [|done].
    by apply inv_weaken, (inv_same ext ext_range _ (set_orc s o2)), Hsame; apply inv_orc. }
  rewrite bool_decide_eq_false_2 by done.
  destruct (inv_new _ _ _ _ _ _ Hi Hg Hr0) as (Hev & Hr1 & Hocc & Hi0).
  assert (Hi' : forall o, inv (plus ext [v]) (S n) (set_orc (set_low s t) o) cs os) by (intros o; by apply inv_orc).
  wpp_base. apply wpp_vfs_kmalloc. intros ok o3. destruct ok; cbn [negb].
  2: { wpp_base. apply wpp_vop. eapply wpp_mono; [apply law_kfree; [apply (i_acct _ _ _ _ _ (Hi' o3))|done| |done]|done| |done].
       - cbn. rewrite (a_open _ _ _ _ _ (i_acct _ _ _ _ _ Hi0)). pose proof (occ_range v os).
         pose proof (i_sub _ _ _ _ _ Hi v). lia.
       - intros [] t' Ht'. wpp_steps. apply stays_all. split; [|done]. apply inv_weaken.
         by apply (inv_kfree (S n) (set_orc (set_low s t) o3) cs os v). }
  wpp_steps. apply wpp_acquire; [done|]. wpp_base. unfold badnames. wpp_steps. apply wpp_massert_ok; [done|]. wpp_base.
  set (s1 := set_klock _ true). assert (Hi1 : inv (plus ext [v]) (S n) s1 cs os) by apply inv_klock, Hi'.
  assert (Hleak : forall e o, wpp X (_ ← release_knowndevs; give (inl e : Z + unit))
     (fun _ => stays ext n cs os) (fun _ => stays_but 1 ext n cs os) (set_orc s1 o)).
  { intros e o. wpp_base. apply wpp_release; [done|]. apply wpp_give. exists [v]. split.
    - split; [apply NoDup_singleton|]. split; [done|]. by intros x ->%list_elem_of_singleton.
    - apply stays_weaken. split; [|by split; [|apply Hu]]. by apply inv_klock, inv_orc. }
  destruct (badnames_loop _ _ _ _ _); [wpp_base; apply (Hleak EEXIST (orc s1))|].
  wpp_base. apply wpp_try. unfold knowndevs_add. wpp_base. apply wpp_vfs_kmalloc. intros ok o4.
  destruct ok; [|by apply Hleak]. wpp_base. wpp_base. apply wpp_release; [done|]. apply wpp_give.
  split; [|by split; [|apply Hu]]. apply inv_klock, (inv_add n (set_orc s1 o4) cs os); [by apply inv_orc|done|done|].
  destruct Ha' as [?|(? & ? & Hm & ?)]; [by left|]. right. split_and!; [done|done| |done]. cbn. by apply Hg.
Qed.
End adding.

Arguments stays_but {T _ _} F k e n cs os s'.

(** ** Sequences of calls *)

Section sequences.
Context {T : Type} `{vnode_layer T} `{vnode_obs T}.

(** The calls of the rest of the kernel.  [CClose i] closes the [i]-th open
    file; [CAddfs] adds the file system that [mk] sets up. *)
Inductive vfs_call :=
  | COpen (path : list Z) (fl : Z)
  | CClose (i : nat)
  | CRemove (path : list Z)
  | CRename (oldpath newpath : list Z)
  | CLink (oldpath newpath : list Z)
  | CSymlink (contents path : list Z)
  | CReadlink (path : list Z)
  | CMkdir (path : list Z)
  | CRmdir (path : list Z)
  | CChdir (path : list Z)
  | CClearcurdir
  | CGetcwd
  | CSetbootfs (fsname : list Z)
  | CClearbootfs
  | CSync
  | CMount (devname : list Z) (mountfunc : ptr -> M T ptr)
  | CUnmount (devname : list Z)
  | CUnmountall
  | CAdddev (devname : list Z) (dev : ptr) (mountable : bool)
  | CAddfs (devname : list Z) (mk : ptr -> M T ptr).

(** A call with [files] open; the result is the list of open files after it. *)
Definition do_call (c : vfs_call) (files : list ptr) : M (vfs T) (list ptr) :=
  match c with
  | COpen path fl => v ← vfs_open path fl; mret (v :: files)
  | CClose i =>
      match files !! i with
      | Some v => _ ← vfs_close v; mret (delete i files)
      | None => fail EBADF
      end
  | CRemove path => _ ← vfs_remove path; mret files
  | CRename oldpath newpath => _ ← vfs_rename oldpath newpath; mret files
  | CLink oldpath newpath => _ ← vfs_link oldpath newpath; mret files
  | CSymlink contents path => _ ← vfs_symlink contents path; mret files
  | CReadlink path => _ ← vfs_readlink path; mret files
  | CMkdir path => _ ← vfs_mkdir path; mret files
  | CRmdir path => _ ← vfs_rmdir path; mret files
  | CChdir path => _ ← vfs_chdir path; mret files
  | CClearcurdir => _ ← vfs_clearcurdir; mret files
  | CGetcwd => _ ← vfs_getcwd UIO_READ; mret files
  | CSetbootfs fsname => _ ← vfs_setbootfs fsname; mret files
  | CClearbootfs => _ ← vfs_clearbootfs; mret files
  | CSync => _ ← vfs_sync; mret files
  | CMount devname mountfunc => _ ← vfs_mount devname mountfunc; mret files
  | CUnmount devname => _ ← vfs_unmount devname; mret files
  | CUnmountall => _ ← vfs_unmountall; mret files
  | CAdddev devname dev mountable => _ ← vfs_adddev devname dev mountable; mret files
  | CAddfs devname mk => fs ← vop (mk NULL); _ ← vfs_addfs devname fs; mret files
  end.

(** The calls one after the other; a call that fails is followed by the next.
    The result is the list of open files and that of the calls that failed. *)
Fixpoint run_calls (calls : list vfs_call) (files : list ptr) : M (vfs T) (list ptr * list vfs_call) :=
  match calls with
  | [] => mret (files, [])
  | c :: calls =>
      r ← try (do_call c files);
      '(files', failed) ← run_calls calls (match r with inr files' => files' | inl _ => files end);
      mret (files', match r with inr _ => failed | inl _ => c :: failed end)
  end.

Definition is_add (c : vfs_call) : bool :=
  match c with CAdddev _ _ _ | CAddfs _ _ => true | _ => false end.
Definition adds (calls : list vfs_call) : nat := length (List.filter is_add calls).

Definition call_ok (X F : Prop) (c : vfs_call) : Prop :=
  match c with
  | CMount _ mountfunc => mounts X F mountfunc
  | CAdddev _ dev _ => dev ≠ NULL
  | CAddfs _ mk => mounts X F mk
  | _ => True
  end.

(** References to [x] beyond those of the layer and the open files. *)
Definition extra (s : vfs T) (files : list ptr) (x : ptr) : Z := refcount (low s) x - occ x (own s ++ files).

(** A state of the running system with [files] open, in which [n] more
    references can be taken: the locks are free, the table is well-formed,
    every reference held is counted, and the open counts are exact. *)
Definition good (F : Prop) (n : nat) (s : vfs T) (files : list ptr) : Prop :=
  unlocked s /\ VfsSpec.inv F (extra s files) n s files files /\
  forall x, 0 <= extra s files x <= MAXREFS.

Context {X F : Prop} `{!VnodeLaws T X F}.

Section step.
Context (ext : ptr -> Z) (ext_range : forall x, 0 <= ext x <= MAXREFS).
Abbreviation inv := (VfsSpec.inv F ext).
Abbreviation stays := (VfsOps.stays F ext).

(** The frame of a call that leaves the open files alone. *)
Lemma wpp_keep {A} s files (m : M (vfs T) A) (P : list ptr -> vfs T -> Prop) E :
  wpp X m (fun _ => P files) E s -> wpp X (_ ← m; mret files) P E s.
Proof. intros Hm. wpp_base. eapply wpp_mono; [exact Hm|done| |done]. intros ? s' Hs. by wpp_steps. Qed.

Lemma stays_3 n cs os s : stays (S (S (S n))) cs os s -> stays (S n) cs os s.
Proof. intros Hs. by do 2 apply stays_weaken. Qed.

Lemma stays_but_weaken k n cs os s : stays_but F k ext (S n) cs os s -> stays_but F k ext n cs os s.
Proof. intros (L & HL & Hs). exists L. split; [done|by apply stays_weaken]. Qed.

Lemma wpp_back_stays {A} n s cs os (m : M (vfs T) A) :
  unlocked s -> wpp X m (fun _ => VfsOps.back F ext (S (S (S n))) s cs os) (fun _ => VfsOps.back F ext (S (S (S n))) s cs os) s ->
  wpp X m (fun _ => stays (S n) cs os) (fun _ => stays (S n) cs os) s.
Proof. intros Hu Hm. eapply wpp_mono; [exact Hm|done|..]; intros ? s' Hs; by eapply stays_3, back_stays. Qed.

Lemma wpp_total {A} n s cs os (m : M (vfs T) A) :
  wpp X m (fun _ => stays (S (S (S n))) cs os) (fun _ _ => False) s ->
  wpp X m (fun _ => stays (S n) cs os) (fun _ => stays (S n) cs os) s.
Proof. intros Hm. eapply wpp_mono; [exact Hm|done| |done]. intros ? s' Hs. by apply stays_3. Qed.

Lemma wpp_addfs_call n s files devname mk :
  inv (S (S (S n))) s files files -> unlocked s -> mounts X F mk ->
  wpp X (do_call (CAddfs devname mk) files) (fun files' => stays (S n) files' files')
    (fun _ => stays_but F 1 ext (S n) files files) s.
Proof.
  intros Hi Hu Hmk. cbn [do_call]. wpp_base. apply wpp_vop.
  eapply wpp_mono; [apply Hmk, (i_acct _ _ _ _ _ Hi)|done|..].
  - intros f t (Hs & Hf & Hnm & Hm). apply wpp_keep.
    eapply wpp_mono; [apply (wpp_doadd ext ext_range (S (S n)) (set_low s t) files files); [by apply inv_same|by intros x|done|]|done|..].
    + right. split_and!; [done|done|done|]. intros Hin. by apply Hnm, (i_mounted _ _ _ _ _ Hi).
    + intros ? s' Hs'. by apply stays_weaken.
    + intros ? s' Hs'. by apply stays_but_weaken.
  - intros e t Hs. apply stays_all, stays_3. split; [by apply inv_same|done].
Qed.

Lemma wpp_open_call n s files path fl :
  inv (S (S (S n))) s files files -> unlocked s ->
  wpp X (do_call (COpen path fl) files) (fun files' => stays (S n) files' files') (fun _ => stays (S n) files files) s.
Proof.
  intros Hi Hu. cbn [do_call]. wpp_base. eapply wpp_mono; [apply (wpp_open ext ext_range (S n) s files files); [done|by intros x|done]|done|..].
  - intros v s' [Heq Hi']. wpp_steps. apply stays_weaken. split; [done|]. by rewrite Heq.
  - intros e s' Hb. by eapply stays_3, back_stays.
Qed.

Lemma wpp_close_call n s files i :
  inv (S (S (S n))) s files files -> unlocked s ->
  wpp X (do_call (CClose i) files) (fun files' => stays (S n) files' files') (fun _ => stays (S n) files files) s.
Proof.
  intros Hi Hu. cbn [do_call]. destruct (files !! i) as [v|] eqn:Hv; [|wpp_steps; apply stays_3; by split].
  pose proof (delete_Permutation files i v Hv) as Hp.
  assert (Hi' : inv (S (S (S n))) s (v :: delete i files) (v :: delete i files)).
  { apply (inv_perm ext _ _ _ _ _ Hp) in Hi. destruct Hi as [Ha Hkd Hnd Hm Hcwd Hdev Hsub Hroom].
    split; [|done|done|done|done|done| |done].
    - destruct Ha as [Hok Hcnt Ho Hfs]. split; [done..| |done]. intros x. by rewrite Ho, (occ_perm x _ _ Hp).
    - intros x. rewrite <- (occ_perm x _ _ Hp). apply Hsub. }
  wpp_base. eapply wpp_mono; [apply (wpp_close ext ext_range _ s _ _ v Hi'); by intros x|done| |done].
  intros [] s' Hb. wpp_steps. apply stays_weaken, stays_3. by eapply back_stays.
Qed.

(** The calls that add nothing lose nothing. *)
Lemma wpp_call_stays n s files c :
  inv (S (S (S n))) s files files -> unlocked s -> call_ok X F c -> is_add c = false ->
  wpp X (do_call c files) (fun files' => stays (S n) files' files') (fun _ => stays (S n) files files) s.
Proof.
  intros Hi Hu Hc Hadd. assert (Hs : sub files files) by by intros x.
  destruct c; cbn [call_ok] in Hc; try done;
    [by apply wpp_open_call|by apply wpp_close_call|cbn [do_call]; apply wpp_keep..].
  - eapply wpp_back_stays, wpp_at_parent; [done..|]. intros. by apply law_remove.
  - by eapply wpp_back_stays, wpp_rename.
  - by eapply wpp_back_stays, wpp_link.
  - eapply wpp_back_stays, (wpp_at_parent ext ext_range _ _ _ _ _ (fun d n => VOP_SYMLINK d n contents)); [done..|].
    intros. by apply law_symlink.
  - by eapply wpp_back_stays, wpp_readlink.
  - eapply wpp_back_stays, wpp_at_parent; [done..|]. intros. by apply law_mkdir.
  - eapply wpp_back_stays, wpp_at_parent; [done..|]. intros. by apply law_rmdir.
  - eapply wpp_mono; [by apply (wpp_chdir ext ext_range (S n) s files files)|done|..]; intros ? s' Hb.
    + by apply stays_weaken.
    + by apply stays_3.
  - by apply wpp_total, wpp_clearcurdir.
  - by eapply wpp_back_stays, wpp_getcwd.
  - eapply wpp_mono; [by apply (wpp_setbootfs ext ext_range (S n) s files files)|done|done|done].
  - by apply wpp_total, (wpp_change_bootfs ext ext_range _ s files files NULL).
  - eapply wpp_mono; [by apply (wpp_vfs_sync ext ext_range _ s files files Hi)|done| |done].
    intros ? s' Hb. by eapply stays_3, back_stays.
  - eapply wpp_mono; [by apply (wpp_mount ext ext_range _ s files files devname mountfunc Hi)|done|..];
      intros ? s' Hb; by apply stays_3.
  - eapply wpp_mono; [by apply (wpp_unmount ext ext_range _ s files files devname Hi)|done|..];
      intros ? s' Hb; by apply stays_3.
  - by apply wpp_total, wpp_unmountall.
Qed.

Lemma wpp_call n s files c :
  inv (S (S (S n))) s files files -> unlocked s -> call_ok X F c ->
  wpp X (do_call c files) (fun files' => stays (S n) files' files')
    (fun _ => stays_but F (adds [c]) ext (S n) files files) s.
Proof.
  intros Hi Hu Hc. destruct (is_add c) eqn:Hadd.
  - unfold adds. cbn [List.filter]. rewrite Hadd. cbn [length]. destruct c; try done; [|by apply wpp_addfs_call].
    cbn [do_call]. apply wpp_keep.
    eapply wpp_mono; [apply (wpp_doadd ext ext_range (S (S n)) s files files); [done|by intros x|done|by left]|done|..]; intros ? s' Hb.
    + by apply stays_weaken.
    + by apply stays_but_weaken.
  - eapply wpp_mono; [by apply wpp_call_stays|done|done|]. intros e s'. apply stays_all.
Qed.
End step.

Lemma lost_app k k' ext L L' :
  (forall x, 0 <= ext x) -> lost k ext L -> lost k' (plus ext L) L' -> lost (k + k') ext (L ++ L').
Proof.
  intros He (H1 & H2 & H3) (H1' & H2' & H3'). unfold plus in H3'.
  assert (Hx : forall x, x ∈ L' -> ext x = 0 /\ x ∉ L).
  { intros x Hx. specialize (H3' x Hx). specialize (He x). pose proof (occ_range x L). split; [lia|].
    intros Hin%occ_elem. lia. }
  split; [|split; [rewrite length_app; lia|intros x [Hx'|Hx']%elem_of_app; [auto|by apply Hx]]].
  apply NoDup_app. split_and!; [done| |done]. intros x Hin Hin'. by apply Hx in Hin' as [_ []].
Qed.

Lemma plus_range k ext L : (forall x, 0 <= ext x <= MAXREFS) -> lost k ext L -> forall x, 0 <= plus ext L x <= MAXREFS.
Proof.
  intros He (Hnd & _ & Hz) x. unfold plus. pose proof (He x). pose proof (occ_range x L).
  destruct (decide (x ∈ L)) as [Hin|Hin].
  - rewrite (Hz x Hin). destruct (list_elem_of_split _ _ Hin) as (l1 & l2 & ->).
    apply NoDup_app in Hnd as (_ & Hd & [Hni _]%NoDup_cons). rewrite occ_app. cbn [occ]. rewrite one_same.
    rewrite !occ_absent; [unfold MAXREFS; lia|done|]. intros Hx. apply (Hd x Hx). by apply elem_of_cons; left.
  - rewrite occ_absent by done. lia.
Qed.

Lemma wpp_run_calls calls : forall ext s files,
  (forall x, 0 <= ext x <= MAXREFS) ->
  VfsSpec.inv F ext (3 + 2 * length calls) s files files -> unlocked s -> Forall (call_ok X F) calls ->
  wpp X (run_calls calls files) (fun r => stays_but F (adds (snd r)) ext 3 (fst r) (fst r)) (fun _ _ => False) s.
Proof.
  induction calls as [|c calls IH]; intros ext s files He Hi Hu Hc; cbn [run_calls].
  { wpp_steps. by apply stays_all. }
  apply Forall_cons in Hc as [Hc Hcs]. wpp_base. apply wpp_try.
  replace (3 + 2 * length (c :: calls))%nat with (S (S (S (2 + 2 * length calls))))%nat in Hi by (cbn [length]; lia).
  eapply wpp_mono; [by apply (wpp_call ext He)|done|..].
  - intros files' s' [Hi' Hu']. wpp_base. eapply wpp_mono; [by apply (IH ext)|done| |done].
    intros [files2 failed] s2 Hs2. by wpp_steps.
  - intros e s' (L & HL & Hi' & Hu'). wpp_base.
    eapply wpp_mono; [apply (IH (plus ext L)); [by eapply plus_range|done|done|done]|done| |done].
    intros [files2 failed] s2 (L' & HL' & Hi2 & Hu2). wpp_steps. exists (L ++ L'). cbn [fst snd] in *. split.
    + replace (adds (c :: failed)) with (adds [c] + adds failed)%nat
        by (unfold adds; cbn [List.filter]; by destruct (is_add c)).
      apply lost_app; [apply He|done|done].
    + split; [|done]. eapply inv_ext; [|exact Hi2]. intros x. unfold plus. rewrite occ_app. lia.
Qed.

Lemma inv_extra ext n s files :
  VfsSpec.inv F ext n s files files -> VfsSpec.inv F (extra s files) n s files files.
Proof.
  intros [[Hok Hcnt Ho Hfs] ? ? ? ? ? ? ?]. split; [|done..].
  split; [done| |done|done]. intros x. left. unfold extra. lia.
Qed.

(** What a sequence of calls leaves: a good state in which the references
    beyond those of the layer and the open files are those of before and those
    of the vnodes [L], at most one for each [vfs_adddev] or [vfs_addfs] that
    failed; and, if [F] allows it, one for a vnode that was not given up. *)
Definition balanced (s : vfs T) (files : list ptr) (r : list ptr * list vfs_call) (s' : vfs T) : Prop :=
  good F 3 s' (fst r) /\
  exists L, lost (adds (snd r)) (extra s files) L /\ forall x,
    extra s' (fst r) x = extra s files x + occ x L \/
    F /\ extra s files x + occ x L = 0 /\ extra s' (fst r) x = 1.

Lemma calls_balanced calls s files :
  good F (3 + 2 * length calls) s files -> Forall (call_ok X F) calls ->
  wpp X (run_calls calls files) (balanced s files) (fun _ _ => False) s.
Proof.
  intros (Hu & Hi & Hr) Hc. eapply wpp_mono; [by apply (wpp_run_calls calls (extra s files))|done| |done].
  intros [files' failed] s' (L & HL & Hi' & Hu'). cbn [fst snd] in *.
  assert (Hx : forall x, extra s' files' x = extra s files x + occ x L \/
            F /\ extra s files x + occ x L = 0 /\ extra s' files' x = 1).
  { intros x. change (extra s files x + occ x L) with (plus (extra s files) L x).
    change (extra s' files' x) with (refcount (low s') x - occ x (own s' ++ files')).
    destruct (a_cnt _ _ _ _ _ (i_acct _ _ _ _ _ Hi') x) as [?|(? & ? & ?)]; [left; lia|right; split_and!; [done|lia|lia]]. }
  split; [|by exists L]. split; [done|]. split; [by eapply inv_extra|].
  intros x. cbn [fst]. pose proof (plus_range _ _ _ Hr HL x) as Hp. unfold plus in Hp. unfold MAXREFS in *. destruct (Hx x) as [?|(_ & ? & ?)]; lia.
Qed.
End sequences.

Arguments vfs_call T : clear implicits.
Arguments balanced {T _ _} F s files r s'.

End VfsTheorems.
