(* ===== verification/VfsNames.v ===== *)
(** * Names in the VFS layer: pathname syntax and device names

    [pathname] is the grammar of pathnames; [getdevice_parses] shows that
    [getdevice] decides it.  [answers] says which names of a device table
    entry lead where, from the comment at the top of [vfslist.c]; the theorems
    show that [vfs_getroot] resolves names this way as long as names are
    distinct, and which operations keep them distinct. *)

From S2P Require Import Prelude Uio Vfs VfsSpec VfsOps VfsCalls.
Import Uio Vfs VfsSpec VfsOps.

Module VfsNames.

(** ** Pathnames *)

(** A path relative to the current directory, [device:path], [/path] and
    [:path]; [k] extra slashes may come before the rest of the path. *)
Inductive pathname :=
  | Relative (path : list Z)
  | OnDevice (name : list Z) (k : nat) (sub : list Z)
  | OnBootfs (k : nat) (sub : list Z)
  | OnCurrent (k : nat) (sub : list Z).

Definition print_path (p : pathname) : list Z :=
  match p with
  | Relative path => path
  | OnDevice name k sub => name ++ COLON :: replicate k SLASH ++ sub
  | OnBootfs k sub => SLASH :: replicate k SLASH ++ sub
  | OnCurrent k sub => COLON :: replicate k SLASH ++ sub
  end.

Definition no_slash_first (l : list Z) : Prop := head l ≠ Some SLASH.

(** The first separator of a relative path, if any, is a slash that is not leading. *)
Definition path_wf (p : pathname) : Prop :=
  match p with
  | Relative path =>
      no_sep path \/ exists pre post, path = pre ++ SLASH :: post /\ pre ≠ [] /\ no_sep pre
  | OnDevice name _ sub => name ≠ [] /\ no_sep name /\ no_slash_first sub
  | OnBootfs _ sub => no_slash_first sub
  | OnCurrent _ sub => no_slash_first sub
  end.

Lemma skip_slashes_replicate k sub : no_slash_first sub -> skip_slashes (replicate k SLASH ++ sub) = sub.
Proof.
  intros Hs. induction k as [|k IH]; cbn [replicate app skip_slashes].
  - destruct sub as [|c sub]; cbn [skip_slashes]; [done|]. rewrite bool_decide_eq_false_2; [done|].
    intros ->. by apply Hs.
  - by rewrite bool_decide_eq_true_2.
Qed.

Lemma slashes_split l : exists k sub, l = replicate k SLASH ++ sub /\ no_slash_first sub.
Proof.
  induction l as [|c l (k & sub & -> & Hs)]; [by exists 0%nat, []|].
  destruct (decide (c = SLASH)) as [->|Hc]; [by exists (S k), sub|].
  exists 0%nat, (c :: replicate k SLASH ++ sub). split; [done|]. intros [= ?]. done.
Qed.

Lemma no_sep_first c l : no_sep (c :: l) -> c ≠ COLON /\ c ≠ SLASH.
Proof.
  intros [Hc _]%Forall_cons. unfold is_sep in Hc. apply orb_false_iff in Hc as [H1 H2].
  by apply bool_decide_eq_false in H1, H2.
Qed.

Lemma find_sep_skip pre c post i :
  no_sep pre -> find_sep i (pre ++ c :: post) = find_sep (i + Z.of_nat (length pre)) (c :: post).
Proof.
  revert i. induction pre as [|p pre IH]; intros i Hn; [by rewrite Z.add_0_r|].
  apply no_sep_first in Hn as Hp. destruct Hp as [H1 H2]. apply Forall_cons in Hn as [_ Hn].
  change ((p :: pre) ++ c :: post) with (p :: (pre ++ c :: post)). cbn [find_sep].
  rewrite !bool_decide_eq_false_2 by done. rewrite IH by done.
  by replace (i + 1 + Z.of_nat (length pre)) with (i + Z.of_nat (length (p :: pre))) by (cbn [length]; lia).
Qed.

Lemma find_sep_none path i : no_sep path -> find_sep i path = (-1, -1).
Proof.
  revert i. induction path as [|c path IH]; intros i Hn; [done|]. apply no_sep_first in Hn as Hc. destruct Hc as [H1 H2].
  cbn [find_sep]. rewrite !bool_decide_eq_false_2 by done. apply IH. by apply Forall_cons in Hn as [_ ?].
Qed.

(** Every string is a pathname in exactly one of the four forms. *)
Lemma path_exists path : exists p, path_wf p /\ print_path p = path.
Proof.
  destruct (find_sep 0 path) as [slash colon] eqn:Hf.
  apply find_sep_spec in Hf as [(Hn & _)|(pre & post & Hn & Hp)]; [exists (Relative path); split; [by left|done]|].
  destruct (slashes_split post) as (k & sub & Hpost & Hs).
  destruct Hp as [(-> & _)|(-> & _)], pre as [|c pre].
  - exists (OnCurrent k sub). split; [done|]. by rewrite Hpost.
  - exists (OnDevice (c :: pre) k sub). split; [done|]. by rewrite Hpost.
  - exists (OnBootfs k sub). split; [done|]. by rewrite Hpost.
  - exists (Relative ((c :: pre) ++ SLASH :: post)). split; [|done]. right. by exists (c :: pre), post.
Qed.

Section naming.
Context {T : Type} `{vnode_layer T}.

(** Where the translation of a pathname starts, and what is left of it. *)
Definition start_of (p : pathname) : M (vfs T) (list Z * ptr) :=
  match p with
  | Relative path => v ← vfs_getcurdir; mret (path, v)
  | OnDevice name _ sub => v ← vfs_getroot name; mret (sub, v)
  | OnBootfs _ sub => v ← boot_start; mret (sub, v)
  | OnCurrent _ sub => v ← current_start; mret (sub, v)
  end.

(** ** Device names *)

(** What a name leads to: the root of a file system, nothing mounted, or the
    device itself. *)
Inductive target := ToRoot (fs : ptr) | ToNothing | ToDevice (v : ptr).

Definition raw_of (kd : knowndev) : list (list Z) := match kd_rawname kd with Some r => [r] | None => [] end.
Definition vol_of (t : T) (kd : knowndev) : list (list Z) :=
  if bool_decide (kd_fs kd = NULL) then []
  else match FSOP_GETVOLNAME (kd_fs kd) t with Some v => [v] | None => [] end.

(** All names of an entry. *)
Definition names_of (t : T) (kd : knowndev) : list (list Z) := kd_name kd :: vol_of t kd ++ raw_of kd.

(** What an entry answers to one of its names. *)
Definition answer (t : T) (kd : knowndev) (n : list Z) : target :=
  if bool_decide (kd_name kd = n \/ n ∈ vol_of t kd) then
    if bool_decide (kd_fs kd ≠ NULL) then ToRoot (kd_fs kd)
    else if bool_decide (kd_rawname kd = None) then ToDevice (kd_vnode kd)
    else ToNothing
  else ToDevice (kd_vnode kd).

Definition deliver (g : target) : M (vfs T) ptr :=
  match g with
  | ToRoot fs => vop (FSOP_GETROOT fs)
  | ToNothing => fail ENXIO
  | ToDevice v => _ ← vop (VOP_INCREF v); mret v
  end.

(** No name belongs to two entries. *)
Definition distinct (t : T) (kds : list knowndev) : Prop :=
  forall i j kd kd' n, kds !! i = Some kd -> kds !! j = Some kd' ->
    n ∈ names_of t kd -> n ∈ names_of t kd' -> i = j.

Lemma elem_vol t kd n : n ∈ vol_of t kd <-> kd_fs kd ≠ NULL /\ FSOP_GETVOLNAME (kd_fs kd) t = Some n.
Proof.
  unfold vol_of. destruct (bool_decide_reflect (kd_fs kd = NULL)).
  - rewrite elem_of_nil. tauto.
  - destruct (FSOP_GETVOLNAME _ t); rewrite ?elem_of_nil, ?list_elem_of_singleton; naive_solver.
Qed.

Lemma elem_raw kd n : n ∈ raw_of kd <-> kd_rawname kd = Some n.
Proof. unfold raw_of. destruct (kd_rawname kd); rewrite ?elem_of_nil, ?list_elem_of_singleton; naive_solver. Qed.

Lemma elem_names t kd n : n ∈ names_of t kd <-> kd_name kd = n \/ n ∈ vol_of t kd \/ kd_rawname kd = Some n.
Proof. unfold names_of. rewrite elem_of_cons, elem_of_app, elem_raw. split; intros [?|?]; auto. Qed.

(** Decide the tests of the loop from facts in the context. *)
Ltac tests :=
  repeat (match goal with
  | |- context [bool_decide ?P] =>
      first [ rewrite (bool_decide_eq_true_2 P) by tauto | rewrite (bool_decide_eq_false_2 P) by tauto ]
  end; cbn [andb orb]); rewrite ?andb_false_r, ?orb_true_r.

(** One iteration of the loop: the entry answers, or the search goes on. *)
Lemma getroot_loop_cons n kd kds s :
  kd_ok kd ->
  getroot_loop n (kd :: kds) s =
  if bool_decide (n ∈ names_of (low s) kd) then deliver (answer (low s) kd n) s else getroot_loop n kds s.
Proof.
  intros [_ Hreach Hmount]. cbn [getroot_loop]. unfold mbind at 1, M_bind at 1, get. cbn iota beta. unfold answer.
  pose proof (elem_names (low s) kd n) as Hnames. pose proof (elem_vol (low s) kd n) as Hvol.
  assert (Hraw : kd_rawname kd = Some n -> kd_rawname kd ≠ None) by by intros ->.
  destruct (decide (kd_fs kd = NULL)) as [Hf|Hf], (decide (kd_name kd = n)) as [Hn|Hn],
    (decide (kd_rawname kd = None)) as [Hr|Hr], (decide (kd_rawname kd = Some n)) as [Hr'|Hr'],
    (decide (FSOP_GETVOLNAME (kd_fs kd) (low s) = Some n)) as [Hv|Hv]; by tests.
Qed.

Lemma getroot_loop_finds n s kds :
  Forall kd_ok kds -> distinct (low s) kds ->
  (forall kd, kd ∈ kds -> n ∈ names_of (low s) kd -> getroot_loop n kds s = deliver (answer (low s) kd n) s) /\
  ((forall kd, kd ∈ kds -> n ∉ names_of (low s) kd) -> getroot_loop n kds s = fail ENODEV s).
Proof.
  induction kds as [|kd kds IH]; intros Hok Hd; [split; [by intros ? ?%not_elem_of_nil|done]|].
  apply Forall_cons in Hok as [Hk Hok]. rewrite getroot_loop_cons by done. destruct IH as [IH1 IH2]; [done| |].
  { intros i j k k' m Hi Hj H1 H2. specialize (Hd (S i) (S j) k k' m Hi Hj H1 H2). lia. }
  destruct (bool_decide_reflect (n ∈ names_of (low s) kd)) as [Hin|Hin]; split.
  - intros k Hkin Hn. apply list_elem_of_lookup in Hkin as [i Hi]. by pose proof (Hd i 0%nat k kd n Hi eq_refl Hn Hin) as ->;
      injection Hi as ->.
  - intros Hnone. by destruct (Hnone kd); [apply elem_of_cons; left|].
  - intros k [->|Hkin]%elem_of_cons Hn; [done|auto].
  - intros Hnone. apply IH2. intros k Hkin. apply Hnone. by apply elem_of_cons; right.
Qed.

(** The lock around the loop is neutral. *)
Lemma deliver_locked g s :
  unlocked s -> (r ← try (deliver g); _ ← release_knowndevs; give r) (set_klock s true) = deliver g s.
Proof.
  destruct s as [kds kl b bl c t o]. intros [Hk Hb]. cbn in Hk, Hb. subst kl bl.
  destruct g as [fs| |v]; unfold deliver, mbind, M_bind, try, vop; cbn [low set_klock]; [|done|].
  - by destruct (FSOP_GETROOT fs t) as [[[e|r] t']| |].
  - by destruct (VOP_INCREF v t) as [[[e|r] t']| |].
Qed.

(** ** Pathname syntax *)

Lemma print_find_sep p : path_wf p ->
  match p with
  | Relative _ => exists slash, find_sep 0 (print_path p) = (slash, -1) /\ slash ≠ 0
  | OnDevice name _ _ => find_sep 0 (print_path p) = (-1, Z.of_nat (length name)) /\ name ≠ []
  | OnBootfs _ _ => find_sep 0 (print_path p) = (0, -1)
  | OnCurrent _ _ => find_sep 0 (print_path p) = (-1, 0)
  end.
Proof.
  destruct p as [path|name k sub|k sub|k sub]; cbn [path_wf print_path]; [|intros (Hne & Hn & Hs)|done|done].
  - intros [Hn|(pre & post & -> & Hne & Hn)]; [exists (-1); by rewrite find_sep_none|].
    exists (Z.of_nat (length pre)). rewrite find_sep_skip by done. split; [done|]. destruct pre; [done|cbn; lia].
  - rewrite find_sep_skip by done. done.
Qed.

(** Two different positions of the first separator. *)
Ltac destruct_conflict :=
  repeat match goal with
  | H : exists _, _ |- _ => destruct H
  | H : _ /\ _ |- _ => destruct H
  end;
  match goal with
  | H1 : find_sep 0 _ = _, H2 : find_sep 0 _ = _ |- _ => rewrite H1 in H2; injection H2; intros; subst
  end;
  first [ lia | match goal with H : ?l ≠ [] |- _ => destruct l; [done|cbn in *; lia] end ].

Lemma print_path_inj p q : path_wf p -> path_wf q -> print_path p = print_path q -> p = q.
Proof.
  assert (Hslash : forall k k' sub sub', no_slash_first sub -> no_slash_first sub' ->
    replicate k SLASH ++ sub = replicate k' SLASH ++ sub' -> k = k' /\ sub = sub').
  { intros k k' sub sub' H1 H2 Heq. assert (sub = sub') as <-.
    { by rewrite <- (skip_slashes_replicate k sub), <- (skip_slashes_replicate k' sub'), Heq by done. }
    apply (f_equal length) in Heq. rewrite !length_app, !length_replicate in Heq. split; [lia|done]. }
  intros Hp Hq Heq. pose proof (print_find_sep _ Hp) as Fp. pose proof (print_find_sep _ Hq) as Fq.
  rewrite <- Heq in Fq.
  destruct p as [path|name k sub|k sub|k sub], q as [path'|name' k' sub'|k' sub'|k' sub']; cbn [print_path path_wf] in *;
    try (exfalso; clear - Fp Fq; destruct_conflict).
  - by subst.
  - destruct Fp as [Fp _], Fq as [Fq _], Hp as (_ & _ & Hp), Hq as (_ & _ & Hq). rewrite Fp in Fq. injection Fq as Hlen.
    apply app_inj_1 in Heq as [-> Heq]; [|lia]. injection Heq as Heq. by apply Hslash in Heq as [-> ->].
  - injection Heq as Heq. by apply Hslash in Heq as [-> ->].
  - injection Heq as Heq. by apply Hslash in Heq as [-> ->].
Qed.

Lemma getdevice_start p s : path_wf p -> getdevice (print_path p) s = start_of p s.
Proof.
  intros Hp. pose proof (print_find_sep _ Hp) as Hf. unfold getdevice.
  destruct p as [path|name k sub|k sub|k sub]; cbn [path_wf] in Hp.
  - destruct Hf as (slash & Hf & Hs). rewrite Hf. by rewrite (bool_decide_eq_true_2 (slash ≠ 0)).
  - destruct Hf as [Hf Hne], Hp as (_ & _ & Hs). rewrite Hf. cbn [print_path start_of].
    assert (Hl : (0 < length name)%nat) by (destruct name; [done|cbn; lia]).
    rewrite (bool_decide_eq_false_2 (_ < 0)), (bool_decide_eq_true_2 (_ > 0)) by lia. cbn [andb].
    rewrite Nat2Z.id, take_app_length. replace (Z.to_nat (Z.of_nat (length name) + 1)) with (length name + 1)%nat by lia.
    rewrite drop_app_add. cbn [drop]. by rewrite drop_0, skip_slashes_replicate.
  - rewrite Hf. transitivity ((v ← boot_start; mret (skip_slashes (replicate k SLASH ++ sub), v)) s); [done|].
    by rewrite skip_slashes_replicate.
  - rewrite Hf. transitivity ((v ← current_start; mret (skip_slashes (replicate k SLASH ++ sub), v)) s); [done|].
    by rewrite skip_slashes_replicate.
Qed.

(** C19. Pathname syntax: every string is a pathname of exactly one form, a path
    relative to the current directory, [device:path], [/path] or [:path] with
    any number of extra slashes before [path]; [getdevice] recognises the form
    and starts the translation at the current directory, the device, the boot
    file system or the root of the current file system, with the rest of the
    path freed of leading slashes. *)
Theorem getdevice_parses path :
  exists p, path_wf p /\ print_path p = path /\
    (forall q, path_wf q -> print_path q = path -> q = p) /\
    forall s, getdevice path s = start_of p s.
Proof.
  destruct (path_exists path) as (p & Hp & <-). exists p. split_and!; [done|done|..].
  - intros q Hq Heq. by apply print_path_inj.
  - intros s. by apply getdevice_start.
Qed.

(** ** Device names *)

(** C20. When no name belongs to two devices, [vfs_getroot] resolves every name
    of every device in the table, wherever it stands in the table, as the
    comment of [vfslist.c] says: the device name and the volume name lead to
    the root of the mounted file system; the name of a mountable device
    without a file system gives ENXIO; the raw name, and the name of a device
    that is not mountable, lead to the device.  All other names give ENODEV. *)
Theorem vfs_getroot_finds s n :
  unlocked s -> Forall kd_ok (knowndevs s) -> distinct (low s) (knowndevs s) ->
  (forall kd, kd ∈ knowndevs s -> n ∈ names_of (low s) kd ->
     vfs_getroot n s = deliver (answer (low s) kd n) s) /\
  ((forall kd, kd ∈ knowndevs s -> n ∉ names_of (low s) kd) -> vfs_getroot n s = Done (inl ENODEV, s)).
Proof.
  intros Hu Hok Hd. destruct (getroot_loop_finds n (set_klock s true) (knowndevs s)) as [H1 H2]; [done..|].
  assert (Hg : vfs_getroot n s =
    (r ← try (getroot_loop n (knowndevs s)); _ ← release_knowndevs; give r) (set_klock s true)).
  { unfold vfs_getroot, acquire_knowndevs. unfold mbind, M_bind, get, massert, lift, modify.
    destruct Hu as [-> _]. done. }
  split.
  - intros kd Hkd Hn. rewrite Hg. unfold mbind at 1, M_bind at 1, try. rewrite (H1 kd Hkd Hn).
    apply (deliver_locked (answer (low s) kd n) s Hu).
  - intros Hnone. rewrite Hg. unfold mbind at 1, M_bind at 1, try. rewrite (H2 Hnone).
    destruct Hu as [Hk _]. destruct s; cbn in *. by rewrite Hk.
Qed.

(** [badnames] finds every clash with the names of a new device. *)
Lemma samestring3_false a b c d :
  samestring3 a b c d = false -> forall n, a = Some n -> b ≠ Some n /\ c ≠ Some n /\ d ≠ Some n.
Proof.
  unfold samestring3. intros Hs n ->. destruct b, c, d; cbn [samestring] in Hs; revert Hs; repeat case_bool_decide; naive_solver.
Qed.

Lemma badnames_fresh t n1 n2 n3 kds :
  badnames_loop t n1 n2 n3 kds = false ->
  forall kd n, kd ∈ kds -> n ∈ names_of t kd -> n1 ≠ Some n /\ n2 ≠ Some n /\ n3 ≠ Some n.
Proof.
  induction kds as [|k kds IH]; cbn [badnames_loop]; [by intros _ ? ? ?%not_elem_of_nil|].
  destruct (bool_decide (kd_fs k ≠ NULL) && _) eqn:Hv; [done|]. destruct (samestring3 (kd_rawname k) n1 n2 n3 || _) eqn:Hs; [done|].
  apply orb_false_iff in Hs as [Hr Hn]. intros Hrest kd n [->|Hin]%elem_of_cons; [|by apply IH].
  intros [<-|[[Hf Hvol]%elem_vol|Hraw]]%elem_names.
  - by apply (samestring3_false _ _ _ _ Hn).
  - rewrite (bool_decide_eq_true_2 (kd_fs k ≠ NULL)) in Hv by done. by apply (samestring3_false _ _ _ _ Hv).
  - by apply (samestring3_false _ _ _ _ Hr).
Qed.

Lemma distinct_snoc t kds kd :
  distinct t kds -> (forall k n, k ∈ kds -> n ∈ names_of t k -> n ∉ names_of t kd) -> distinct t (kds ++ [kd]).
Proof.
  intros Hd Hf i j k k' n [Hi|[Hi1 Hi2]]%lookup_app_Some [Hj|[Hj1 Hj2]]%lookup_app_Some Hn Hn'.
  - by eapply Hd.
  - apply list_lookup_singleton_Some in Hj2 as [_ <-]. by destruct (Hf k n (list_elem_of_lookup_2 _ _ _ Hi) Hn).
  - apply list_lookup_singleton_Some in Hi2 as [_ <-]. by destruct (Hf k' n (list_elem_of_lookup_2 _ _ _ Hj) Hn').
  - apply list_lookup_singleton_Some in Hi2 as [? _], Hj2 as [? _]. lia.
Qed.

(** A computation that returned went through its first part. *)
Lemma bind_inv {S A B} (m : M S A) (f : A -> M S B) s b s' :
  (m ≫= f) s = Done (inr b, s') -> exists a s1, m s = Done (inr a, s1) /\ f a s1 = Done (inr b, s').
Proof. unfold mbind, M_bind. destruct (m s) as [[[e|a] s1]| |]; intros ?; try done. eauto. Qed.

Lemma massert_inv {S} b (s : S) u s' : massert b s = Done (inr u, s') -> b = true /\ s' = s.
Proof. destruct b; [|done]. by intros [= <-]. Qed.

Lemma kmalloc_inv s ok s1 : kmalloc (T := T) s = Done (inr ok, s1) -> exists o, s1 = set_orc s o.
Proof. unfold kmalloc. destruct (kmalloc_ok (orc s)) as [b o]. intros [= <- <-]. eauto. Qed.

(** The part of [vfs_doadd] under the lock. *)
Lemma doadd_locked_inv s kd n2 n3 s' :
  (_ ← acquire_knowndevs;
   bad ← badnames (Some (kd_name kd)) n2 n3;
   r ← (if bad : bool then mret (inl EEXIST) else try (knowndevs_add kd));
   _ ← release_knowndevs;
   give r) s = Done (inr tt, s') ->
  badnames_loop (low s) (Some (kd_name kd)) n2 n3 (knowndevs s) = false /\
  low s' = low s /\ knowndevs s' = knowndevs s ++ [kd].
Proof.
  intros ([] & s1 & H1 & Hrest)%bind_inv. unfold acquire_knowndevs in H1. apply bind_inv in H1 as (? & ? & [= <- <-] & H1).
  apply bind_inv in H1 as ([] & s2 & [_ ->]%massert_inv & [= <-]).
  apply bind_inv in Hrest as (bad & s3 & Hb & Hrest). unfold badnames in Hb. cbn in Hb. injection Hb as <- <-.
  destruct (badnames_loop (low s) _ n2 n3 (knowndevs s)) eqn:Hbad; (apply bind_inv in Hrest as (r & s4 & Hr & Hrest)).
  { injection Hr as <- <-. apply bind_inv in Hrest as (? & ? & _ & Hg). discriminate Hg. }
  split; [done|]. unfold try, knowndevs_add, mbind, M_bind, kmalloc in Hr. cbn [orc set_klock] in Hr.
  destruct (kmalloc_ok (orc s)) as [[] o]; cbn in Hr; injection Hr as <- <-.
  - apply bind_inv in Hrest as ([] & s5 & Hrel & Hg). cbn in Hrel. injection Hrel as <-. cbn in Hg. by injection Hg as <-.
  - apply bind_inv in Hrest as ([] & s5 & Hrel & Hg). discriminate Hg.
Qed.

(** C21. Adding a device keeps names unambiguous: when no name belongs to two
    devices and [vfs_adddev] succeeds, the table has grown by the new device
    with the given name (and the raw name, if it is mountable), and still no
    name, volume names of mounted file systems included, belongs to two
    devices. *)
Theorem vfs_adddev_distinct s s' name dev mountable :
  (forall t r t', dev_create_vnode dev t = Done (r, t') -> forall f, FSOP_GETVOLNAME f t' = FSOP_GETVOLNAME f t) ->
  distinct (low s) (knowndevs s) ->
  vfs_adddev name dev mountable s = Done (inr tt, s') ->
  distinct (low s') (knowndevs s') /\
  exists v, knowndevs s' = knowndevs s ++
    [mkKd name (if mountable then Some (name ++ str_raw) else None) dev v NULL].
Proof.
  intros Hvol Hd Hrun. unfold vfs_adddev, vfs_doadd in Hrun. apply bind_inv in Hrun as ([] & s1 & Hk & Hrun); [|done].
  apply kmalloc_inv in Hk as [o1 ->]. cbn [negb] in Hrun. apply bind_inv in Hrun as (raw & s2 & Hraw & Hrun).
  assert (exists o, s2 = set_orc s o /\ (raw = if mountable then Some (name ++ str_raw) else None) \/ mountable && bool_decide (raw = None) = true)
    as [o2 [[-> Hr]|Hr]]; [| |by rewrite Hr in Hrun].
  { destruct mountable; [|injection Hraw as <- <-; exists o1; by left]. unfold mkrawname in Hraw.
    apply bind_inv in Hraw as (ok & s3 & [o3 ->]%kmalloc_inv & [= <- <-]). exists o3. destruct ok; [by left|by right]. }
  rewrite Hr in Hrun. assert (mountable && bool_decide ((if mountable then Some (name ++ str_raw) else None) = None) = false) as Hb
    by by destruct mountable.
  rewrite Hb in Hrun. apply bind_inv in Hrun as (v & s3 & Hv & Hrun). unfold vop in Hv. cbn [low set_orc] in Hv.
  destruct (dev_create_vnode dev (low s)) as [[r t]| |] eqn:Hc; [|done|done]. injection Hv as -> <-.
  destruct (bool_decide_reflect (v = NULL)) as [|Hvn]; [done|]. apply bind_inv in Hrun as ([] & s4 & [o4 ->]%kmalloc_inv & Hrun).
  2: { apply bind_inv in Hrun as (? & ? & _ & Hg). discriminate Hg. }
  cbn [negb] in Hrun. apply bind_inv in Hrun as (? & ? & [= <- <-] & Hrun).
  apply (doadd_locked_inv _ (mkKd name _ dev v NULL)) in Hrun as (Hbad & Hlow & Hkds). cbn [low knowndevs set_orc set_low] in *.
  rewrite Hlow, Hkds. split; [|by exists v]. specialize (Hvol _ _ _ Hc).
  assert (Hnames : forall kd, names_of t kd = names_of (low s) kd) by (intros kd; unfold names_of, vol_of; by rewrite Hvol).
  apply distinct_snoc.
  - intros i j k k' n Hi Hj. rewrite !Hnames. by apply Hd.
  - intros k n Hk Hn [<-|[[[] _]%elem_vol|Hraw']]%elem_names; [|done|].
    + by destruct (badnames_fresh _ _ _ _ _ Hbad k name Hk Hn) as [[] _].
    + cbn in Hraw'. by destruct (badnames_fresh _ _ _ _ _ Hbad k n Hk Hn) as (_ & [] & _).
Qed.

(** [vfs_setbootfs] refuses every name with a colon in the part it looks
    at, also one that ends in the colon, and does nothing else. *)
Theorem vfs_setbootfs_colon fsname s :
  COLON ∈ take 254 fsname -> vfs_setbootfs fsname s = Done (inl EINVAL, s).
Proof.
  intros Hc. unfold vfs_setbootfs. change (Z.to_nat (NAME_MAX - 1)) with 254%nat.
  destruct (list_find_elem_of (fun c => c = COLON) _ _ Hc eq_refl) as [[i c] Hf].
  rewrite Hf. apply list_find_Some in Hf as (Hl & _). apply lookup_lt_Some in Hl.
  rewrite bool_decide_eq_true_2; [done|]. rewrite length_drop. lia.
Qed.
End naming.

End VfsNames.
