(* ===== verification/VfsExample.v ===== *)
(** * A small vnode layer with mountable file systems

    Vnodes in memory: device vnodes, and file systems with a root directory and
    one file [f], which can be mounted and unmounted.  It keeps the contract
    without panicking; the witnesses about names run the VFS layer on it, and
    [ex_calls_run] a sequence of calls with a mount and an unmount.  The
    kernel's own vnode code is in [EmuLayer]. *)

From S2P Require Import Prelude Uio Vfs VfsSpec VfsOps VfsCalls VfsTheorems VfsNames.
Import Uio Vfs VfsSpec VfsOps VfsTheorems VfsNames.

Module VfsExample.

Record exv := mkX { x_rc : Z; x_oc : Z; x_fs : ptr; x_dir : bool }.

(** The vnodes by address, the mounted file systems with their volume names,
    and the next unused addresses of device vnodes and of file systems. *)
Record exl := mkL { x_vs : gmap Z exv; x_mnt : gmap Z (list Z); x_next : Z; x_nextfs : Z }.

Definition set_vs (t : exl) vs : exl := mkL vs (x_mnt t) (x_next t) (x_nextfs t).

Definition at_v {A} (v : ptr) (f : exv -> M exl A) : M exl A := fun t =>
  match x_vs t !! v with Some x => f x t | None => Stuck end.

Definition put_v (v : ptr) (x : exv) : M exl unit := modify (fun t => set_vs t (<[v := x]> (x_vs t))).

(** A vnode of a file system: the one in memory, or a new one. *)
Definition load_v (f v : ptr) (dir : bool) : M exl ptr := fun t =>
  match x_vs t !! v with
  | Some x => (n ← lift (int_op (x_rc x + 1)); _ ← put_v v (mkX n (x_oc x) (x_fs x) (x_dir x)); mret v) t
  | None => (_ ← put_v v (mkX 1 0 f dir); mret v) t
  end.

Definition file_name : list Z := [102].

Definition ex_lookup (v : ptr) (path : list Z) : M exl ptr := at_v v (fun x =>
  if x_dir x && bool_decide (path = file_name) then load_v (x_fs x) (2 * x_fs x + 1) false else fail ENOENT).

#[export] Instance ex_layer : vnode_layer exl := {|
  VOP_INCREF v := at_v v (fun x =>
    n ← lift (int_op (x_rc x + 1)); _ ← put_v v (mkX n (x_oc x) (x_fs x) (x_dir x)); mret tt);
  VOP_DECREF v := at_v v (fun x =>
    if bool_decide (x_rc x > 1) then put_v v (mkX (x_rc x - 1) (x_oc x) (x_fs x) (x_dir x))
    else if bool_decide (x_fs x = NULL) then mret tt
    else _ ← massert (bool_decide (x_oc x = 0)); modify (fun t => set_vs t (delete v (x_vs t))));
  VOP_INCOPEN v := at_v v (fun x => n ← lift (int_op (x_oc x + 1)); put_v v (mkX (x_rc x) n (x_fs x) (x_dir x)));
  VOP_DECOPEN v := at_v v (fun x =>
    _ ← massert (bool_decide (x_oc x > 0)); put_v v (mkX (x_rc x) (x_oc x - 1) (x_fs x) (x_dir x)));
  VOP_OPEN v fl := at_v v (fun x => if x_dir x && bool_decide (Z.land fl O_ACCMODE ≠ 0) then fail EISDIR else mret tt);
  VOP_GETTYPE v := at_v v (fun x => mret (if x_dir x then S_IFDIR else 4096));
  VOP_TRUNCATE v len := mret tt;
  VOP_READLINK v := fail EINVAL;
  VOP_NAMEFILE v := mret tt;
  VOP_CREAT v name excl := if excl : bool then fail EEXIST else ex_lookup v name;
  VOP_SYMLINK v name contents := fail EUNIMP;
  VOP_MKDIR v name := fail EUNIMP;
  VOP_LINK v name w := fail EUNIMP;
  VOP_REMOVE v name := fail EUNIMP;
  VOP_RMDIR v name := fail EUNIMP;
  VOP_RENAME v name w name' := fail EUNIMP;
  VOP_LOOKUP := ex_lookup;
  VOP_LOOKPARENT v path len := at_v v (fun x =>
    if x_dir x && bool_decide (Z.of_nat (length path) < len) then
      n ← lift (int_op (x_rc x + 1)); _ ← put_v v (mkX n (x_oc x) (x_fs x) (x_dir x)); mret (v, path)
    else fail ENOTDIR);
  FSOP_SYNC f := mret tt;
  FSOP_GETVOLNAME f t := x_mnt t !! f;
  FSOP_GETROOT f := load_v f (2 * f) true;
  FSOP_UNMOUNT f := fun t =>
    if bool_decide (map_Forall (fun _ x => x_fs x ≠ f) (x_vs t)) then
      Done (inr tt, mkL (x_vs t) (delete f (x_mnt t)) (x_next t) (x_nextfs t))
    else Done (inl EBUSY, t);
  vn_fs v t := match x_vs t !! v with Some x => x_fs x | None => NULL end;
  dev_create_vnode dev := fun t =>
    Done (inr (x_next t), mkL (<[x_next t := mkX 1 0 NULL false]> (x_vs t)) (x_mnt t) (x_next t - 1) (x_nextfs t));
  kfree_vnode v := modify (fun t => set_vs t (delete v (x_vs t)));
  uiomove_out d := mret tt
|}.

(** A mount function: a new file system with the given volume name. *)
Definition ex_mount (vol : list Z) (dev : ptr) : M exl ptr := fun t =>
  Done (inr (x_nextfs t), mkL (x_vs t) (<[x_nextfs t := vol]> (x_mnt t)) (x_next t) (x_nextfs t + 1)).

(** ** Its invariant *)

Definition v_ok (t : exl) (v : ptr) (x : exv) : Prop :=
  1 <= x_rc x /\ 0 <= x_oc x /\
  (x_fs x = NULL /\ x_next t < v < 0 /\ x_dir x = false \/
   is_Some (x_mnt t !! x_fs x) /\ (v = 2 * x_fs x /\ x_dir x = true \/ v = 2 * x_fs x + 1 /\ x_dir x = false)).

Record l_ok (t : exl) : Prop := {
  l_next : x_next t < 0;
  l_nextfs : 0 < x_nextfs t;
  l_mnt f : is_Some (x_mnt t !! f) -> 0 < f < x_nextfs t;
  l_vs v x : x_vs t !! v = Some x -> v_ok t v x
}.

#[export] Instance ex_obs : vnode_obs exl := {|
  refcount t v := match x_vs t !! v with Some x => x_rc x | None => 0 end;
  opencount t v := match x_vs t !! v with Some x => x_oc x | None => 0 end;
  vl_ok := l_ok;
  mounted t f := is_Some (x_mnt t !! f)
|}.

Lemma live_lookup t v : 0 < refcount t v -> exists x, x_vs t !! v = Some x /\ refcount t v = x_rc x.
Proof. cbn. destruct (x_vs t !! v) as [x|]; [eauto|lia]. Qed.

(** A vnode is changed, but not its file system. *)
Lemma put_frame t v x x' :
  l_ok t -> x_vs t !! v = Some x -> x_fs x' = x_fs x -> x_dir x' = x_dir x -> 1 <= x_rc x' -> 0 <= x_oc x' ->
  frame t (set_vs t (<[v := x']> (x_vs t))) /\
  counts t (set_vs t (<[v := x']> (x_vs t)))
    (fun y => (x_rc x' - x_rc x) * one v y) (fun y => (x_oc x' - x_oc x) * one v y).
Proof.
  intros Hok Hv Hf Hd Hr Ho. split; [split|].
  - destruct Hok as [H1 H2 H3 H4]. split; [done..|]. cbn. intros w y [[<- <-]|[Hne Hw]]%lookup_insert_Some; [|by apply H4].
    destruct (H4 _ _ Hv) as (_ & _ & Hx). unfold v_ok. by rewrite Hf, Hd.
  - intros w _ _. cbn. destruct (decide (w = v)) as [->|Hne]; [by rewrite lookup_insert_eq, Hv|by rewrite lookup_insert_ne].
  - done.
  - intros w. cbn. destruct (decide (w = v)) as [->|Hne].
    + rewrite lookup_insert_eq, Hv, one_same. lia.
    + rewrite lookup_insert_ne, one_other by done. lia.
Qed.

(** A vnode comes into memory. *)
Lemma new_frame t t' v x :
  l_ok t -> x_vs t !! v = None -> l_ok t' -> x_vs t' = <[v := x]> (x_vs t) -> x_mnt t' = x_mnt t ->
  x_rc x = 1 -> x_oc x = 0 -> gains False v t t'.
Proof.
  intros Hok Hv Hok' Hvs Hm Hr Ho. split; [split|].
  - done.
  - intros w H1 H2. apply live_lookup in H1 as (y & Hy & _). cbn. rewrite Hvs, Hy.
    rewrite lookup_insert_ne; [by rewrite Hy|]. intros <-. by rewrite Hv in Hy.
  - intros f. cbn. by rewrite Hm.
  - apply counts_settled. intros w. cbn. rewrite Hvs. destruct (decide (w = v)) as [->|Hne].
    + rewrite lookup_insert_eq, Hv, one_same. lia.
    + rewrite lookup_insert_ne, one_other by done. lia.
Qed.

Lemma delete_frame t v x :
  l_ok t -> x_vs t !! v = Some x ->
  frame t (set_vs t (delete v (x_vs t))) /\
  counts t (set_vs t (delete v (x_vs t))) (fun y => - x_rc x * one v y) (fun y => - x_oc x * one v y).
Proof.
  intros Hok Hv. split; [split|].
  - destruct Hok as [H1 H2 H3 H4]. split; [done..|]. cbn. intros w y [_ Hw]%lookup_delete_Some. by apply H4.
  - intros w _ Hw. apply live_lookup in Hw as (y & Hy & _). cbn in *. apply lookup_delete_Some in Hy as [Hne Hy]. by rewrite lookup_delete_ne.
  - done.
  - intros w. cbn. destruct (decide (w = v)) as [->|Hne].
    + rewrite lookup_delete_eq, Hv, one_same. lia.
    + rewrite lookup_delete_ne, one_other by done. lia.
Qed.

Lemma same_refl t : l_ok t -> same False t t.
Proof. intros Hok. split; [by split|]. apply counts_settled. intros x. lia. Qed.

(** One more reference to a vnode in memory. *)
Lemma wpp_more t v x {A} (k : M exl A) (Q : A -> exl -> Prop) E :
  l_ok t -> room t -> x_vs t !! v = Some x ->
  (forall t', gains False v t t' -> vn_fs v t' = x_fs x -> wpp False k Q E t') ->
  wpp False (n ← lift (int_op (x_rc x + 1)); _ ← put_v v (mkX n (x_oc x) (x_fs x) (x_dir x)); k) Q E t.
Proof.
  intros Hok Hroom Hv HQ. destruct (l_vs _ Hok _ _ Hv) as (H1 & H2 & _). specialize (Hroom v). cbn in Hroom.
  rewrite Hv in Hroom. wpp_base. eapply wpp_lift; [apply int_op_ok; unfold INT_MIN, INT_MAX in *; lia|].
  unfold put_v. wpp_steps.
  destruct (put_frame t v x (mkX (x_rc x + 1) (x_oc x) (x_fs x) (x_dir x)) Hok Hv) as [Hf Hc]; [done|done|cbn; lia|done|].
  apply HQ; [split; [done|]|].
  - eapply counts_settled, counts_ext; [exact Hc|intros y; cbn [x_rc]; lia|intros y; cbn [x_oc]; lia].
  - cbn. by rewrite lookup_insert_eq.
Qed.

Lemma wpp_load t f v dir :
  l_ok t -> room t -> is_Some (x_mnt t !! f) -> (v = 2 * f /\ dir = true \/ v = 2 * f + 1 /\ dir = false) ->
  wpp False (load_v f v dir) (fun r t' => r ≠ NULL /\ vn_fs r t' = f /\ gains False r t t') (fun _ _ => False) t.
Proof.
  intros Hok Hroom Hf Hv. pose proof (l_mnt _ Hok _ Hf) as Hfr. assert (Hn : v ≠ NULL) by (unfold NULL; lia).
  unfold wpp at 1, load_v. destruct (x_vs t !! v) as [x|] eqn:Hx.
  - apply (wpp_more t v x (mret v)); [done..|]. intros t' Hg Hfs. wpp_steps. split_and!; [done| |done].
    destruct (l_vs _ Hok _ _ Hx) as (_ & _ & [(_ & ? & _)|(Hm & Hv')]); [lia|]. rewrite Hfs.
    apply (l_mnt _ Hok) in Hm. lia.
  - set (t' := set_vs t (<[v := mkX 1 0 f dir]> (x_vs t))). change (v ≠ NULL /\ vn_fs v t' = f /\ gains False v t t').
    split_and!; [done|cbn [vn_fs ex_layer x_vs set_vs t']; by rewrite lookup_insert_eq|].
    eapply (new_frame _ _ v (mkX 1 0 f dir)); [done..| |done|done|done|done].
    destruct Hok as [H1 H2 H3 H4]. split; [done..|]. cbn. intros w y [[<- <-]|[_ Hw]]%lookup_insert_Some; [|by apply H4].
    split; [done|]. split; [done|]. right. split; [done|]. cbn. naive_solver.
Qed.

Lemma wpp_ex_lookup t v path :
  l_ok t -> room t -> 0 < refcount t v ->
  wpp False (ex_lookup v path) (fun r => found False v r t) (fun _ => same False t) t.
Proof.
  intros Hok Hroom Hv. apply live_lookup in Hv as (x & Hx & _). unfold ex_lookup, wpp, at_v. cbn [vn_fs ex_layer]. rewrite Hx.
  destruct (x_dir x && bool_decide (path = file_name)) eqn:Hd; [|by apply same_refl].
  apply andb_true_iff in Hd as [Hd _].
  assert (Hm : is_Some (x_mnt t !! x_fs x)).
  { destruct (l_vs _ Hok _ _ Hx) as (_ & _ & [(_ & _ & Hd')|(Hm & _)]); [congruence|done]. }
  eapply wpp_mono; [by apply (wpp_load t (x_fs x)); [..|by right]|done| |done].
  intros r t' (H1 & H2 & H3). unfold found. cbn [vn_fs ex_layer] in *. rewrite Hx. split_and!; [done|done| |done].
  intros Hn. apply (l_mnt _ Hok) in Hm. unfold NULL in *. lia.
Qed.

Lemma wpp_at {A} t v (f : exv -> M exl A) (Q : A -> exl -> Prop) E :
  0 < refcount t v -> (forall x, x_vs t !! v = Some x -> wpp False (f x) Q E t) -> wpp False (at_v v f) Q E t.
Proof. intros Hv Hf. apply live_lookup in Hv as (x & Hx & _). unfold wpp, at_v. rewrite Hx. by apply Hf. Qed.

Lemma ex_decref t v :
  l_ok t -> 0 < refcount t v -> (refcount t v = 1 -> opencount t v = 0) -> (vn_fs v t = NULL -> 1 < refcount t v) ->
  wpp False (VOP_DECREF v) (fun _ => drops False v t) (fun _ _ => False) t.
Proof.
  intros Hok Hv Ho Hdev. apply wpp_at; [done|]. intros x Hx. destruct (l_vs _ Hok _ _ Hx) as (Hrc & Hoc & _).
  assert (Hr : refcount t v = x_rc x) by (cbn; by rewrite Hx).
  assert (Ho' : opencount t v = x_oc x) by (cbn; by rewrite Hx). rewrite Hr in *. rewrite Ho' in *.
  assert (Hdrop : forall t', frame t t' -> counts t t' (fun y => - one v y) (fun _ => 0) -> drops False v t t').
  { intros t' Hf Hc. split; [done|]. intros y. destruct (Hc y) as [-> ->]. split; [lia|left; lia]. }
  destruct (bool_decide_reflect (x_rc x > 1)) as [H1|H1]; [|destruct (bool_decide_reflect (x_fs x = NULL)) as [H2|H2]].
  - destruct (put_frame t v x (mkX (x_rc x - 1) (x_oc x) (x_fs x) (x_dir x)) Hok Hx) as [Hf Hc]; [done|done|cbn; lia|done|].
    apply Hdrop; [exact Hf|]. eapply counts_ext; [exact Hc|intros y; cbn [x_rc]; lia|intros y; cbn [x_oc]; lia].
  - cbn [vn_fs ex_layer] in Hdev. rewrite Hx in Hdev. specialize (Hdev H2). lia.
  - wpp_base. apply wpp_massert; [intros _|intros Hb; apply bool_decide_eq_false in Hb; destruct Hb; apply Ho; lia].
    destruct (delete_frame t v x Hok Hx) as [Hf Hc]. apply Hdrop; [exact Hf|].
    eapply counts_ext; [exact Hc|intros y; cbn beta|intros y; cbn beta; rewrite Ho by lia; lia].
    assert (x_rc x = 1) as -> by lia. lia.
Qed.

Lemma ex_incopen t v :
  l_ok t -> room t -> 0 < refcount t v ->
  wpp False (VOP_INCOPEN v) (fun _ t' => frame t t' /\ counts t t' (fun _ => 0) (one v)) (fun _ _ => False) t.
Proof.
  intros Hok Hroom Hv. apply wpp_at; [done|]. intros x Hx. destruct (l_vs _ Hok _ _ Hx) as (Hrc & Hoc & _).
  specialize (Hroom v). cbn in Hroom. rewrite Hx in Hroom. wpp_base.
  eapply wpp_lift; [apply int_op_ok; unfold INT_MIN, INT_MAX in *; lia|].
  destruct (put_frame t v x (mkX (x_rc x) (x_oc x + 1) (x_fs x) (x_dir x)) Hok Hx) as [Hf Hc]; [done|done|cbn; lia..|].
  split; [exact Hf|]. eapply counts_ext; [exact Hc|intros y; cbn [x_rc]; lia|intros y; cbn [x_oc]; lia].
Qed.

Lemma ex_decopen t v :
  l_ok t -> 0 < refcount t v -> 0 < opencount t v ->
  wpp False (VOP_DECOPEN v) (fun _ t' => frame t t' /\ counts t t' (fun _ => 0) (fun x => - one v x)) (fun _ _ => False) t.
Proof.
  intros Hok Hv Ho. apply wpp_at; [done|]. intros x Hx. destruct (l_vs _ Hok _ _ Hx) as (Hrc & Hoc & _).
  cbn in Ho. rewrite Hx in Ho. wpp_base. apply wpp_massert; [intros _|intros Hb; apply bool_decide_eq_false in Hb; lia].
  destruct (put_frame t v x (mkX (x_rc x) (x_oc x - 1) (x_fs x) (x_dir x)) Hok Hx) as [Hf Hc]; [done|done|cbn; lia..|].
  split; [exact Hf|]. eapply counts_ext; [exact Hc|intros y; cbn [x_rc]; lia|intros y; cbn [x_oc]; lia].
Qed.

Lemma ex_unmount t f :
  l_ok t -> mounted t f ->
  wpp False (FSOP_UNMOUNT f)
    (fun _ t' => l_ok t' /\ keeps_fs t t' /\ counts t t' (fun _ => 0) (fun _ => 0) /\
                 forall g, mounted t' g <-> mounted t g /\ g ≠ f) (fun _ => same False t) t.
Proof.
  intros Hok Hf. unfold wpp. cbn [FSOP_UNMOUNT ex_layer]. case_bool_decide as Hfree; [|by apply same_refl].
  split_and!.
  - destruct Hok as [H1 H2 H3 H4]. split; [done|done|..]; cbn.
    + intros g [_ Hg]%lookup_delete_is_Some. by apply H3.
    + intros v x Hx. destruct (H4 _ _ Hx) as (? & ? & [?|(Hm & ?)]); (split; [done|]; split; [done|]); [by left|right].
      split; [|done]. apply lookup_delete_is_Some. split; [|done]. intros Heq. by apply (Hfree v x Hx).
  - by intros x.
  - intros x. cbn. lia.
  - intros g. cbn. rewrite lookup_delete_is_Some. naive_solver.
Qed.

Lemma ex_create t dev :
  l_ok t -> room t ->
  wpp False (dev_create_vnode dev)
    (fun v t' => v = NULL /\ same False t t' \/ v ≠ NULL /\ refcount t v = 0 /\ vn_fs v t' = NULL /\ gains False v t t')
    (fun _ _ => False) t.
Proof.
  intros Hok _. pose proof (l_next _ Hok) as Hn. unfold wpp. cbn [dev_create_vnode ex_layer]. right.
  assert (Hnone : x_vs t !! x_next t = None).
  { destruct (x_vs t !! x_next t) as [x|] eqn:Hx; [|done].
    destruct (l_vs _ Hok _ _ Hx) as (_ & _ & [(_ & ? & _)|(Hm & Hv)]); [lia|]. apply (l_mnt _ Hok) in Hm. lia. }
  split_and!; [unfold NULL; lia|cbn; by rewrite Hnone|cbn [vn_fs ex_layer x_vs]; by rewrite lookup_insert_eq|].
  eapply (new_frame _ _ _ (mkX 1 0 NULL false)); [done|done| |done|done|done|done].
  destruct Hok as [H1 H2 H3 H4]. split; [cbn; lia|done|done|]. intros v x. cbn [x_vs].
  intros [[<- <-]|[_ Hx]]%lookup_insert_Some.
  - split; [done|]. split; [done|]. left. cbn. split_and!; [done|lia|lia|done].
  - destruct (H4 _ _ Hx) as (? & ? & [(? & ? & ?)|?]); (split; [done|]; split; [done|]); [left|by right]. cbn.
    split_and!; [done|lia|lia|done].
Qed.

#[export] Instance ex_laws : VnodeLaws exl False False.
Proof.
  split; try (intros; by apply same_refl); try apply ex_decref; try apply ex_incopen; try apply ex_decopen;
    try apply ex_unmount; try apply ex_create; try apply wpp_ex_lookup.
  - intros t x Hok. cbn. destruct (x_vs t !! x) as [y|] eqn:Hx; [|done]. destruct (l_vs _ Hok _ _ Hx) as (? & _). lia.
  - intros t x Hok Hx. apply live_lookup in Hx as (y & Hy & _). cbn. rewrite Hy.
    destruct (l_vs _ Hok _ _ Hy) as (_ & _ & [(? & _)|(? & _)]); auto.
  - intros t v Hok Hroom Hv. apply wpp_at; [done|]. intros x Hx.
    eapply (wpp_more t v x (mret tt) (fun _ => gains False v t)); [done..|]. intros t' Hg _. done.
  - intros t v fl Hok Hv. apply wpp_at; [done|]. intros x Hx. case_match; by apply same_refl.
  - intros t v Hok Hv. apply wpp_at; [done|]. intros x Hx. split; [by apply same_refl|]. cbn [vn_fs ex_layer]. rewrite Hx.
    destruct (x_dir x) eqn:Hd; [|done]. intros _ Hn.
    destruct (l_vs _ Hok _ _ Hx) as (_ & _ & [(_ & _ & ?)|(Hm & _)]); [congruence|]. apply (l_mnt _ Hok) in Hm. unfold NULL in *. lia.
  - intros t v n ex Hok Hroom Hv. cbn [VOP_CREAT ex_layer]. destruct ex; [by apply same_refl|by apply wpp_ex_lookup].
  - intros t v p len Hok Hroom Hv. apply wpp_at; [done|]. intros x Hx. case_match; [|by apply same_refl].
    apply wpp_more; [done..|]. intros t' Hg Hfs. wpp_steps. split_and!; [|by cbn [vn_fs ex_layer] in *; rewrite Hx|done|done].
    destruct (l_vs _ Hok _ _ Hx) as (_ & _ & [(_ & ? & _)|(Hm & ?)]); [unfold NULL; lia|].
    apply (l_mnt _ Hok) in Hm. unfold NULL. lia.
  - intros t f Hok Hroom Hf. apply wpp_load; [done..|]. by left.
  - intros t v Hok Hr Ho _. assert (0 < refcount t v) as Hv by lia. apply live_lookup in Hv as (x & Hx & Hrx).
    destruct (delete_frame t v x Hok Hx) as [Hf Hc]. split; [exact Hf|]. cbn in Ho. rewrite Hx in Ho.
    eapply counts_ext; [exact Hc|intros y; cbn beta; lia|intros y; cbn beta; lia].
Qed.

Lemma ex_mounts vol : mounts False False (ex_mount vol).
Proof.
  intros dev t Hok. pose proof (l_nextfs _ Hok). assert (Hnew : x_mnt t !! x_nextfs t = None).
  { destruct (x_mnt t !! x_nextfs t) eqn:Hm; [|done]. pose proof (l_mnt _ Hok (x_nextfs t)) as Hr. rewrite Hm in Hr.
    destruct Hr; [done|lia]. }
  split_and!; [split; [split|]|unfold NULL; lia|cbn; rewrite Hnew; by intros [? ?]|cbn; by rewrite lookup_insert_eq].
  - destruct Hok as [H1 H2 H3 H4]. split; [done|cbn; lia|..]; cbn.
    + intros f [<-|[Hne Hf]]%lookup_insert_is_Some; [lia|]. apply H3 in Hf. lia.
    + intros v x Hx. destruct (H4 _ _ Hx) as (? & ? & [?|(Hm & ?)]); (split; [done|]; split; [done|]); [by left|right].
      split; [|done]. cbn. apply lookup_insert_is_Some. destruct (decide (x_nextfs t = x_fs x)); auto.
  - by intros x.
  - intros f Hf. cbn in *. apply lookup_insert_is_Some. destruct (decide (x_nextfs t = f)); auto.
  - apply counts_settled. intros x. cbn. lia.
Qed.


(** ** Witnesses *)

(** "lhd0", "con", "vol" *)
Definition str_lhd0 : list Z := [108; 104; 100; 48].
Definition str_con : list Z := [99; 111; 110].
Definition str_vol : list Z := [118; 111; 108].

(** After start-up: the null device only. *)
Definition ex_boot : vfs exl :=
  mkVfs [mkKd str_null None 4 (-1) NULL] false NULL false NULL
    (mkL {[-1 := mkX 1 0 NULL false]} ∅ (-2) 1) (replicate 40 true).

(** A disk is added and mounted, becomes the boot file system, files are opened
    on it, it cannot be unmounted while they are open, and can after. *)
Definition ex_calls : list (vfs_call exl) :=
  [ CAdddev str_lhd0 5 true; CMount str_lhd0 (ex_mount str_vol); CSetbootfs str_lhd0;
    COpen (SLASH :: file_name) 0; COpen (str_vol ++ COLON :: file_name) 6; CGetcwd;
    CUnmount str_lhd0; CClose 0; CClose 0; CClearcurdir; CClearbootfs; CUnmount str_lhd0;
    COpen (str_null ++ [COLON]) 1 ].

Lemma ex_counts x : refcount (low ex_boot) x = one (-1) x /\ opencount (low ex_boot) x = 0.
Proof.
  cbn. unfold one. destruct (decide (x = -1)) as [->|Hx]; [by rewrite bool_decide_eq_true_2|].
  rewrite bool_decide_eq_false_2 by done. by rewrite lookup_singleton_ne.
Qed.

Lemma ex_extra x : extra ex_boot [] x = 0.
Proof.
  unfold extra. destruct (ex_counts x) as [-> _]. change (occ x (own ex_boot ++ [])) with (one (-1) x + 0). lia.
Qed.

Lemma ex_boot_good : good False (3 + 2 * length ex_calls) ex_boot [].
Proof.
  split; [done|]. split; [|intros x; rewrite ex_extra; unfold MAXREFS; lia]. split.
  - split; [|intros x; left; rewrite ex_extra; destruct (ex_counts x) as [-> ?];
      change (occ x (own ex_boot ++ [])) with (one (-1) x + 0); lia| |].
    + split; [cbn; lia|cbn; lia|intros f [? Hf]; cbn in Hf; by rewrite lookup_empty in Hf|].
      intros v x Hx. cbn in Hx. apply lookup_singleton_Some in Hx as [<- <-]. split; [done|]. split; [done|]. left. cbn. done.
    + intros x. by destruct (ex_counts x) as [_ ->].
    + intros x Hx. left. by apply list_elem_of_singleton in Hx as ->.
  - apply Forall_singleton. by split.
  - apply NoDup_nil_2.
  - by intros f ?%not_elem_of_nil.
  - done.
  - intros x Hx _. exact Hx.
  - intros x. apply (occ_range x (own ex_boot ++ [])).
  - by vm_compute.
Qed.

(** The files open at the end, and the answers to the calls that fail on the way. *)
Definition open_after (calls : list (vfs_call exl)) (s : vfs exl) : option (list ptr) :=
  match run_calls calls [] s with Done (inr (files, _), _) => Some files | _ => None end.

Example ex_calls_run :
  open_after (take 5 ex_calls) ex_boot = Some [3; 3] /\ open_after ex_calls ex_boot = Some [-1].
Proof. by vm_compute. Qed.

Definition after {A} (m : M (vfs exl) A) (s : vfs exl) : vfs exl :=
  match m s with Done (_, s') => s' | _ => s end.
Definition result_of {A} (m : M (vfs exl) A) (s : vfs exl) : option (Z + A) :=
  match m s with Done (r, _) => Some r | _ => None end.

(** The null device and a disk with the volume "vol". *)
Definition ex_table : vfs exl := after (run_calls (take 2 ex_calls) []) ex_boot.

Lemma ex_table_eq : ex_table = mkVfs
    [mkKd str_null None 4 (-1) NULL; mkKd str_lhd0 (Some (str_lhd0 ++ str_raw)) 5 (-2) 1] false NULL false NULL
    (mkL {[-1 := mkX 1 0 NULL false; -2 := mkX 1 0 NULL false]} {[1 := str_vol]} (-3) 2) (replicate 36 true).
Proof. reflexivity. Qed.

Lemma ex_distinct : distinct (low ex_table) (knowndevs ex_table).
Proof.
  rewrite ex_table_eq. cbn [low knowndevs]. apply (distinct_snoc _ [_]).
  - apply (distinct_snoc _ []); [intros i j kd kd' n Hi; by rewrite lookup_nil in Hi|by intros k n ?%not_elem_of_nil].
  - intros k n ->%list_elem_of_singleton Hn. apply elem_names in Hn as [<-|[[[] _]%elem_vol|Hr]]; [|done|done].
    intros Hn. apply elem_names in Hn as [Hn|[Hn|Hn]]; [done| |done]. apply elem_vol in Hn as [_ Hn].
    by vm_compute in Hn.
Qed.

Lemma vfs_getroot_finds_witness :
  vfs_getroot str_vol ex_table = deliver (ToRoot 1) ex_table.
Proof.
  assert (Hu : unlocked ex_table) by by rewrite ex_table_eq.
  assert (Hok : Forall kd_ok (knowndevs ex_table)).
  { rewrite ex_table_eq. apply Forall_cons; split; [by split|]. apply Forall_singleton. by split. }
  apply (proj1 (vfs_getroot_finds ex_table str_vol Hu Hok ex_distinct)
    (mkKd str_lhd0 (Some (str_lhd0 ++ str_raw)) 5 (-2) 1)).
  - rewrite ex_table_eq. apply elem_of_cons. right. by apply list_elem_of_singleton.
  - apply elem_names. right. left. apply elem_vol. split; [done|]. by rewrite ex_table_eq.
Defined.

Lemma vfs_adddev_distinct_witness :
  distinct (low (after (vfs_adddev str_con 6 false) ex_table)) (knowndevs (after (vfs_adddev str_con 6 false) ex_table)).
Proof.
  refine (proj1 (vfs_adddev_distinct ex_table _ str_con 6 false _ ex_distinct _)).
  - intros t r t' [= <- <-] f. reflexivity.
  - reflexivity.
Defined.

Lemma vfs_setbootfs_colon_witness :
  vfs_setbootfs (str_lhd0 ++ [COLON]) ex_table = Done (inl EINVAL, ex_table).
Proof. apply vfs_setbootfs_colon. by vm_compute; repeat constructor. Defined.

(** [vfs_mount] does not check the volume name: a volume called "con" takes the
    name from the device "con" that was added after the disk. *)
Example mount_takes_name :
  let s := after (run_calls [CAdddev str_lhd0 5 true; CAdddev str_con 6 false] []) ex_boot in
  result_of (vfs_getroot str_con) s = Some (inr (-3)) /\
  result_of (vfs_mount str_lhd0 (ex_mount str_con)) s = Some (inr tt) /\
  result_of (vfs_getroot str_con) (after (vfs_mount str_lhd0 (ex_mount str_con)) s) = Some (inr 2).
Proof. by vm_compute. Qed.

End VfsExample.
