(* ===== verification/Device.v ===== *)
(** * Device vnodes: [kern/fs/vfs/device.c] and [devnull.c]

    The vnode operations of devices, on top of the function table of
    [struct device] ([kern/include/dev.h]), here the class [Device]; the null
    device is an instance.  The operations take the device the vnode's
    [vn_data] points to. *)

From S2P Require Import Prelude UserMem Uio BlockDev Lhd Vfs.
Import Uio.

Module Device.

Class Device (D : Type) := {
  d_open : Z -> M D unit;
  d_close : M D unit;
  d_io : M (D * (uio * ctx)) unit;
  d_ioctl : Z -> Z -> M D unit;
  d_blocks : D -> Z;
  d_blocksize : D -> Z
}.

Record stat := mkStat { st_mode : Z; st_nlink : Z; st_size : Z; st_blocks : Z }.

Definition S_IFCHR : Z := 16384.
Definition S_IFBLK : Z := 20480.

Section dev.
Context {D : Type} `{Device D}.

Abbreviation DEV := (M D).
Abbreviation DIO := (M (D * (uio * ctx))).

Definition dev_open (flags : Z) : DEV unit :=
  if bool_decide (Z.land flags (Z.lor (Z.lor (Z.lor Vfs.O_CREAT Vfs.O_TRUNC) Vfs.O_EXCL) Vfs.O_APPEND) ≠ 0)
  then fail EINVAL
  else d_open flags.

Definition dev_close : DEV unit := d_close.

Definition dev_reclaim : DEV unit := mret tt.

Definition dev_read : DIO unit :=
  s ← get;
  _ ← massert (bool_decide (uio_rw (fst (snd s)) = UIO_READ));
  d_io.

Definition null_io : DIO unit := fail EINVAL.

Definition dev_write : DIO unit :=
  s ← get;
  _ ← massert (bool_decide (uio_rw (fst (snd s)) = UIO_WRITE));
  d_io.

Definition dev_ioctl (op data : Z) : DEV unit := d_ioctl op data.

Definition dev_gettype : DEV Z :=
  d ← get;
  mret (if bool_decide (d_blocks d > 0) then S_IFBLK else S_IFCHR).

(** [d_blocks * d_blocksize] is computed in 32 bits and stored in an [off_t]. *)
Definition dev_size (d : D) : Z := s32 (u32 (d_blocks d * d_blocksize d)).

Definition dev_stat : DEV stat :=
  mode ← dev_gettype;
  d ← get;
  mret (mkStat mode 1 (if bool_decide (d_blocks d > 0) then dev_size d else 0) (d_blocks d)).

(** [pos] is signed and [d_blocksize] unsigned, so the remainder and the
    quotient are those of [pos] as an unsigned number; a block size of 0 is a
    division by zero. *)
Definition dev_tryseek (pos : Z) : DEV unit :=
  d ← get;
  if bool_decide (d_blocks d > 0) then
    if bool_decide (d_blocksize d = 0) then lift Stuck
    else if bool_decide (u32 pos mod d_blocksize d ≠ 0) then fail EINVAL
    else if bool_decide (pos < 0) then fail EINVAL
    else if bool_decide (u32 pos / d_blocksize d >= d_blocks d) then fail EINVAL
    else mret tt
  else fail ESPIPE.

Definition null_fsync : DEV unit := mret tt.
Definition dev_mmap : DEV unit := fail EUNIMP.

Definition dev_truncate (len : Z) : DEV unit :=
  d ← get;
  if bool_decide (d_blocks d > 0) && bool_decide (dev_size d = len) then mret tt else fail EINVAL.

Definition dev_namefile : DIO unit := mret tt.

Definition null_creat (name : list Z) (excl : bool) : DEV ptr := fail ENOTDIR.
Definition null_symlink (contents name : list Z) : DEV unit := fail ENOTDIR.
Definition null_nameop (name : list Z) : DEV unit := fail ENOTDIR.
Definition null_link (name : list Z) (file : ptr) : DEV unit := fail ENOTDIR.
Definition null_rename (n1 : list Z) (v2 : ptr) (n2 : list Z) : DEV unit := fail ENOTDIR.

(** The vnode itself for the empty path; [incref] is [VOP_INCREF] on it. *)
Definition dev_lookup {S} (dir : ptr) (incref : M S unit) (pathname : list Z) : M S ptr :=
  if bool_decide (Z.of_nat (length pathname) > 0) then fail ENOENT
  else
    _ ← incref;
    mret dir.

Definition dev_lookparent (pathname : list Z) : DEV (ptr * list Z) := fail ENOTDIR.

(** [dev_create_vnode]: the vnode object, then the lock that [VOP_INIT] makes
    (the lock and its name); without memory for the lock it panics. *)
Record dev_vnode := mkDv { dv_refcount : Z; dv_opencount : Z; dv_fs : ptr; dv_data : D }.

Definition dev_create_vnode (dev : D) (o : oracle) : outcome (option dev_vnode * oracle) :=
  let '(ok, o) := kmalloc_ok o in
  if negb ok then Done (None, o)
  else
    let '(ok1, o) := kmalloc_ok o in
    if negb ok1 then Panic
    else
      let '(ok2, o) := kmalloc_ok o in
      if negb ok2 then Panic
      else Done (Some (mkDv 1 0 NULL dev), o).

(** ** What a seek and a size promise *)

(** A device whose size in bytes fits the kernel's signed offsets. *)
Definition dev_ok (d : D) : Prop :=
  0 <= d_blocks d /\ 0 < d_blocksize d < 4294967296 /\ d_blocks d * d_blocksize d <= INT_MAX.

Lemma dev_size_small d : dev_ok d -> dev_size d = d_blocks d * d_blocksize d.
Proof.
  intros (H1 & H2 & H3). unfold dev_size. assert (0 <= d_blocks d * d_blocksize d) by nia.
  rewrite u32_small by (unfold INT_MAX in *; lia). apply s32_small. unfold INT_MIN, INT_MAX in *. lia.
Qed.

(** A seek is accepted exactly at the starts of the blocks. *)
Lemma dev_tryseek_spec d pos :
  dev_ok d -> INT_MIN <= pos <= INT_MAX ->
  dev_tryseek pos d =
    Done (if bool_decide (d_blocks d = 0) then inl ESPIPE
          else if bool_decide (0 <= pos < d_blocks d * d_blocksize d /\ pos mod d_blocksize d = 0) then inr tt
          else inl EINVAL, d).
Proof.
  intros (H1 & H2 & H3) Hp. unfold dev_tryseek, mbind, M_bind, get.
  destruct (bool_decide_reflect (d_blocks d = 0)) as [Hz|Hz]; [by rewrite bool_decide_eq_false_2 by lia|].
  rewrite (bool_decide_eq_true_2 (d_blocks d > 0)), (bool_decide_eq_false_2 (d_blocksize d = 0)) by lia.
  destruct (decide (pos < 0)) as [Hn|Hn].
  - rewrite (bool_decide_eq_true_2 (pos < 0)), (bool_decide_eq_false_2 (0 <= pos < _ /\ _)) by lia. by case_bool_decide.
  - rewrite u32_small by (unfold INT_MIN, INT_MAX in *; lia). rewrite (bool_decide_eq_false_2 (pos < 0)) by lia.
    destruct (bool_decide_reflect (pos mod d_blocksize d ≠ 0)) as [Hm|Hm].
    + by rewrite (bool_decide_eq_false_2 (_ /\ _)) by tauto.
    + destruct (bool_decide_reflect (pos / d_blocksize d >= d_blocks d)) as [Hd|Hd].
      * rewrite (bool_decide_eq_false_2 (_ /\ _)); [done|]. intros [[_ Hlt] _].
        assert (pos / d_blocksize d < d_blocks d) by (apply Z.div_lt_upper_bound; lia). lia.
      * rewrite (bool_decide_eq_true_2 (_ /\ _)); [done|]. split; [|lia]. split; [lia|].
        pose proof (Z.div_mod pos (d_blocksize d)). nia.
Qed.
End dev.

(** ** The null device: [devnull.c] *)

Definition nullopen (openflags : Z) : M unit unit := mret tt.
Definition nullclose : M unit unit := mret tt.

(** A write discards everything; a read leaves [uio] as it is. *)
Definition nullio : M (unit * (uio * ctx)) unit := fun '(d, (u, c)) =>
  if bool_decide (uio_rw u = UIO_WRITE) then Done (inr tt, (d, (set_pos u (uio_offset u) 0, c)))
  else Done (inr tt, (d, (u, c))).

Definition nullioctl (op data : Z) : M unit unit := fail EINVAL.

#[export] Instance nulldev : Device unit := {|
  d_open := nullopen;
  d_close := nullclose;
  d_io := nullio;
  d_ioctl := nullioctl;
  d_blocks _ := 0;
  d_blocksize _ := 1
|}.


(** ** Devices of two kinds *)

Section sum.
Context {D1 D2 : Type} `{Device D1, Device D2}.

Definition on_left {A} (m : M D1 A) (d : D1) : outcome ((Z + A) * (D1 + D2)) := '(r, d) ← m d; Done (r, inl d).
Definition on_right {A} (m : M D2 A) (d : D2) : outcome ((Z + A) * (D1 + D2)) := '(r, d) ← m d; Done (r, inr d).

#[export] Instance sum_dev : Device (D1 + D2) := {|
  d_open fl := fun d => match d with inl d => on_left (d_open fl) d | inr d => on_right (d_open fl) d end;
  d_close := fun d => match d with inl d => on_left d_close d | inr d => on_right d_close d end;
  d_io := fun '(d, uc) =>
    match d with
    | inl d => '(r, (d, uc)) ← d_io (d, uc); Done (r, (inl d, uc))
    | inr d => '(r, (d, uc)) ← d_io (d, uc); Done (r, (inr d, uc))
    end;
  d_ioctl op data := fun d => match d with inl d => on_left (d_ioctl op data) d | inr d => on_right (d_ioctl op data) d end;
  d_blocks d := match d with inl d => d_blocks d | inr d => d_blocks d end;
  d_blocksize d := match d with inl d => d_blocksize d | inr d => d_blocksize d end
|}.
End sum.

(** Opening and closing return, with or without an error. *)
Class DeviceReturns (D : Type) `{Device D} : Prop := {
  open_returns fl d : exists r d', d_open fl d = Done (r, d');
  close_returns d : exists r d', d_close d = Done (r, d')
}.

#[export] Instance nulldev_returns : DeviceReturns unit.
Proof. split; eexists _, _; reflexivity. Qed.

#[export] Instance sum_returns {D1 D2} `{Device D1, Device D2, !DeviceReturns D1, !DeviceReturns D2} : DeviceReturns (D1 + D2).
Proof.
  split.
  - intros fl [d|d]; cbn; [unfold on_left|unfold on_right]; destruct (open_returns fl d) as (r & d' & ->); by eexists _, _.
  - intros [d|d]; cbn; [unfold on_left|unfold on_right]; destruct (close_returns d) as (r & d' & ->); by eexists _, _.
Qed.

(** ** Block devices as device files *)

Section block.
Context {B : Type} `{BD : BlockDevice B} `{!BlockDeviceLaws B}.

(** A driver's [d_io] as an entry of [struct device]; the entries that do
    nothing are those of [lhd.c]. *)
#[local] Instance block_dev : Device B := {|
  d_open _ := mret tt;
  d_close := mret tt;
  d_io := fun '(b, (u, c)) =>
    '(r, u, c, b) ← BlockDev.d_io b u c;
    Done (if bool_decide (r = 0) then inr tt else inl r, (b, (u, c)));
  d_ioctl _ _ := fail EIOCTL;
  d_blocks := BlockDev.d_blocks;
  d_blocksize := BlockDev.d_blocksize
|}.

Lemma block_returns : @DeviceReturns B block_dev.
Proof. split; eexists _, _; reflexivity. Qed.

(** A program that seeks on a disk's device file and then reads one sector:
    the seek succeeds exactly at the start of a sector of the disk, and the
    read after it transfers the contents of that sector (as [uiomove] does,
    errors of the transfer included) and leaves the disk as it was. *)
Theorem dev_seek_read b u c pos r kb u' c' :
  BlockDev.d_ok b -> BlockDev.d_blocksize b = SECTSIZE ->
  INT_MIN <= pos <= INT_MAX -> BlockDev.d_blocks b * SECTSIZE <= INT_MAX ->
  dev_tryseek pos b = Done (inr tt, b) ->
  uio_offset u = pos -> uio_resid u = SECTSIZE -> uio_rw u = UIO_READ ->
  uiomove (d_sector b (pos / SECTSIZE)) 0 SECTSIZE u c = Done (r, kb, u', c') ->
  0 <= pos / SECTSIZE < BlockDev.d_blocks b /\ pos = pos / SECTSIZE * SECTSIZE /\
  exists b', dev_read (b, (u, c)) = Done (if bool_decide (r = 0) then inr tt else inl r, (b', (u', c'))) /\
    BlockDev.d_ok b' /\ sector_update b b' (pos / SECTSIZE) (d_sector b (pos / SECTSIZE)).
Proof.
  intros Hok Hbs Hp Hsz Hseek Ho Hr Hrw Hmove. pose proof (d_law_range b Hok) as Hrange.
  rewrite dev_tryseek_spec in Hseek; [|split_and!; cbn; rewrite ?Hbs; unfold SECTSIZE in *; lia|done].
  cbn [d_blocks d_blocksize block_dev] in Hseek. rewrite Hbs in Hseek. case_bool_decide as Hz; [done|].
  case_bool_decide as Hin; [|done]. destruct Hin as [Hin Hm].
  assert (Hs : 0 <= pos / SECTSIZE < BlockDev.d_blocks b).
  { split; [apply Z.div_pos; unfold SECTSIZE; lia|]. apply Z.div_lt_upper_bound; unfold SECTSIZE in *; lia. }
  assert (Heq : pos = pos / SECTSIZE * SECTSIZE).
  { pose proof (Z.div_mod pos SECTSIZE). unfold SECTSIZE in *. lia. }
  split_and!; [lia|lia|done|]. edestruct (d_law_read b u (pos / SECTSIZE) c) as (b' & Hio & Hok' & Hupd);
    [done|done|split; [done|by rewrite Ho]|done|exact Hmove|].
  exists b'. split_and!; [|done|done]. unfold dev_read, mbind, M_bind, get, massert, lift. cbn [snd fst].
  rewrite (bool_decide_eq_true_2 (uio_rw u = UIO_READ)) by done. cbn. by rewrite Hio.
Qed.
End block.

Import Lhd.

Definition ex_request : uio := mk_kuio (zeros 512) 512 512 UIO_READ.

(** The second sector of a disk of two. *)
Lemma dev_seek_read_witness :
  exists b' u' c',
    @dev_read _ block_dev (ex_disk, (ex_request, ex_ctx)) = Done (inr tt, (b', (u', c'))) /\ uio_resid u' = 0.
Proof.
  destruct (dev_seek_read ex_disk ex_request ex_ctx 512 0 (zeros 512)
    (mkUio (zeros 512) 512 0 1024 0 UIO_SYSSPACE UIO_READ NULL) ex_ctx) as (_ & _ & b' & Hrun & _).
  - split; [|reflexivity..]. repeat split; try reflexivity; try lia. repeat constructor.
  - reflexivity.
  - unfold INT_MIN, INT_MAX. lia.
  - unfold SECTSIZE, INT_MAX. cbn. lia.
  - reflexivity.
  - reflexivity.
  - reflexivity.
  - reflexivity.
  - reflexivity.
  - exists b', (mkUio (zeros 512) 512 0 1024 0 UIO_SYSSPACE UIO_READ NULL), ex_ctx. split; [exact Hrun|reflexivity].
Defined.

End Device.
