(* ===== verification/Libc.v ===== *)
(** * The C library functions of the kernel: [lib/libc]

    Memory is one list of bytes indexed by address, so that the arguments of a
    function may overlap; a [long] is four bytes of it.  An access outside the
    memory is undefined.  Loops that run to a terminating NUL are bounded by
    the size of the memory: a string without a NUL ends in an access outside.

    [str_at m a s] says that the C string at address [a] is [s].  The theorems
    give the meaning of every function on strings and blocks; [memmove_spec]
    is what the rest of the development takes block copies to be. *)

From stdpp Require Import strings.
From S2P Require Import Prelude.

Module Libc.

(** The characters of a string constant, and with a newline after them. *)
Definition txt (s : string) : list Z := (fun c => Z.of_N (Ascii.N_of_ascii c)) <$> String.list_ascii_of_string s.
Definition line (s : string) : list Z := txt s ++ [10].

Definition SIZEOF_LONG : Z := 4.

(** ** Blocks: [memcpy.c], [memmove.c], [memset.c], [memcmp.c], [bzero.c] *)

(** [d[i] = s[i]] for [char] and for [long] pointers. *)
Definition copy_byte (m : list Z) (d s i : Z) : outcome (list Z) :=
  c ← getZ m (s + i);
  setZ m (d + i) c.
Definition copy_long (m : list Z) (d s i : Z) : outcome (list Z) :=
  w ← mem_read m (s + SIZEOF_LONG * i) SIZEOF_LONG;
  mem_write m (d + SIZEOF_LONG * i) w.

(** The [n] iterations from [i] on, upwards. *)
Fixpoint copy_up (step : list Z -> Z -> Z -> Z -> outcome (list Z)) (n : nat) (i : Z) (m : list Z) (d s : Z)
    : outcome (list Z) :=
  match n with
  | O => Done m
  | S n => m ← step m d s i; copy_up step n (i + 1) m d s
  end.

(** The iterations [i = n, ..., 1] that copy the element [i-1]. *)
Fixpoint copy_down (step : list Z -> Z -> Z -> Z -> outcome (list Z)) (n : nat) (m : list Z) (d s : Z)
    : outcome (list Z) :=
  match n with
  | O => Done m
  | S n => m ← step m d s (Z.of_nat n); copy_down step n m d s
  end.

Definition aligned (dst src len : Z) : bool :=
  bool_decide (dst mod SIZEOF_LONG = 0) && bool_decide (src mod SIZEOF_LONG = 0)
  && bool_decide (len mod SIZEOF_LONG = 0).

Definition memcpy (m : list Z) (dst src len : Z) : outcome (list Z) :=
  if aligned dst src len then copy_up copy_long (Z.to_nat (len / SIZEOF_LONG)) 0 m dst src
  else copy_up copy_byte (Z.to_nat len) 0 m dst src.

Definition memmove (m : list Z) (dst src len : Z) : outcome (list Z) :=
  if bool_decide (dst < src) then memcpy m dst src len
  else if aligned dst src len then copy_down copy_long (Z.to_nat (len / SIZEOF_LONG)) m dst src
  else copy_down copy_byte (Z.to_nat len) m dst src.

Fixpoint set_loop (n : nat) (m : list Z) (p c : Z) : outcome (list Z) :=
  match n with
  | O => Done m
  | S n => m ← setZ m p c; set_loop n m (p + 1) c
  end.

(** The value stored is [(char)ch]. *)
Definition memset (m : list Z) (p ch len : Z) : outcome (list Z) := set_loop (Z.to_nat len) m p (u8 ch).

Fixpoint zero_longs (n : nat) (m : list Z) (p : Z) : outcome (list Z) :=
  match n with
  | O => Done m
  | S n => m ← mem_write m p (zeros SIZEOF_LONG); zero_longs n m (p + SIZEOF_LONG)
  end.

Definition bzero (m : list Z) (block len : Z) : outcome (list Z) :=
  if bool_decide (block mod SIZEOF_LONG = 0) && bool_decide (len mod SIZEOF_LONG = 0)
  then zero_longs (Z.to_nat (len / SIZEOF_LONG)) m block
  else set_loop (Z.to_nat len) m block 0.

Fixpoint memcmp_loop (n : nat) (m : list Z) (a b : Z) : outcome Z :=
  match n with
  | O => Done 0
  | S n =>
      x ← getZ m a;
      y ← getZ m b;
      if bool_decide (x ≠ y) then Done (x - y) else memcmp_loop n m (a + 1) (b + 1)
  end.

Definition memcmp (m : list Z) (a b len : Z) : outcome Z := memcmp_loop (Z.to_nat len) m a b.

(** ** Strings *)

(** [char] is signed. *)
Definition schar (c : Z) : Z := if bool_decide (c < 128) then c else c - 256.

Section loops.
Context (m : list Z).

Fixpoint strlen_loop (fuel : nat) (s ret : Z) : outcome Z :=
  match fuel with
  | O => Stuck
  | S fuel =>
      c ← getZ m (s + ret);
      if bool_decide (c ≠ 0) then strlen_loop fuel s (ret + 1) else Done ret
  end.

Definition strlen (s : Z) : outcome Z := strlen_loop (S (length m)) s 0.

Fixpoint strchr_loop (fuel : nat) (s ch : Z) : outcome (option Z) :=
  match fuel with
  | O => Stuck
  | S fuel =>
      c ← getZ m s;
      if bool_decide (c ≠ 0) then
        if bool_decide (c = ch) then Done (Some s) else strchr_loop fuel (s + 1) ch
      else Done (if bool_decide (c = ch) then Some s else None)
  end.

(** [ch] is a character; the result is the address, [None] for NULL. *)
Definition strchr (s ch : Z) : outcome (option Z) := strchr_loop (S (length m)) s ch.

Fixpoint strrchr_loop (i : nat) (s ch : Z) : outcome (option Z) :=
  match i with
  | O => Done None
  | S i =>
      c ← getZ m (s + Z.of_nat i);
      if bool_decide (c = ch) then Done (Some (s + Z.of_nat i)) else strrchr_loop i s ch
  end.

Definition strrchr (s ch : Z) : outcome (option Z) :=
  n ← strlen s;
  strrchr_loop (Z.to_nat (n + 1)) s ch.

Fixpoint strcmp_loop (fuel : nat) (a b i : Z) : outcome Z :=
  match fuel with
  | O => Stuck
  | S fuel =>
      x ← getZ m (a + i);
      y ← getZ m (b + i);
      if bool_decide (x ≠ 0) && bool_decide (x = y) then strcmp_loop fuel a b (i + 1)
      else Done (if bool_decide (schar x > schar y) then 1 else if bool_decide (x = y) then 0 else -1)
  end.

Definition strcmp (a b : Z) : outcome Z := strcmp_loop (S (length m)) a b 0.
End loops.

Fixpoint strcpy_loop (fuel : nat) (m : list Z) (dest src i : Z) : outcome (list Z) :=
  match fuel with
  | O => Stuck
  | S fuel =>
      c ← getZ m (src + i);
      if bool_decide (c ≠ 0) then
        m ← setZ m (dest + i) c;
        strcpy_loop fuel m dest src (i + 1)
      else setZ m (dest + i) 0
  end.

Definition strcpy (m : list Z) (dest src : Z) : outcome (list Z) := strcpy_loop (S (length m)) m dest src 0.

Definition strcat (m : list Z) (dest src : Z) : outcome (list Z) :=
  offset ← strlen m dest;
  strcpy m (dest + offset) src.

(** ** Words: [strtok_r.c] *)

(** [while ( *p && strchr(seps, *p) == want) p++] *)
Fixpoint tok_scan (fuel : nat) (want : bool) (m : list Z) (p seps : Z) : outcome Z :=
  match fuel with
  | O => Stuck
  | S fuel =>
      c ← getZ m p;
      if bool_decide (c ≠ 0) then
        w ← strchr m seps c;
        if bool_decide (bool_decide (w ≠ None) = want) then tok_scan fuel want m (p + 1) seps else Done p
      else Done p
  end.

(** The result: the word, the context and the memory. *)
Definition strtok_r (m : list Z) (string : option Z) (seps : Z) (context : option Z)
    : outcome (option Z * option Z * list Z) :=
  let context := match string with Some s => Some s | None => context end in
  match context with
  | None => Done (None, context, m)
  | Some head =>
      head ← tok_scan (S (length m)) true m head seps;
      c ← getZ m head;
      if bool_decide (c = 0) then Done (None, None, m)
      else
        tail ← tok_scan (S (length m)) false m head seps;
        c ← getZ m tail;
        if bool_decide (c = 0) then Done (Some head, None, m)
        else
          m ← setZ m tail 0;
          Done (Some head, Some (tail + 1), m)
  end.

(** [strtok] keeps the context in a static variable. *)
Definition strtok (m : list Z) (str : option Z) (seps : Z) (context : option Z)
    : outcome (option Z * option Z * list Z) := strtok_r m str seps context.

(** ** Numbers: [atoi.c] *)

(** The static array [digits]. *)
Definition digits : list Z := [48; 49; 50; 51; 52; 53; 54; 55; 56; 57; 0].

Fixpoint skip_blanks (fuel : nat) (m : list Z) (s : Z) : outcome Z :=
  match fuel with
  | O => Stuck
  | S fuel =>
      c ← getZ m s;
      if bool_decide (c = 32 \/ c = 9) then skip_blanks fuel m (s + 1) else Done s
  end.

(** [val] is an [unsigned]: it wraps around. *)
Fixpoint atoi_loop (fuel : nat) (m : list Z) (s val : Z) : outcome Z :=
  match fuel with
  | O => Stuck
  | S fuel =>
      c ← getZ m s;
      if bool_decide (c ≠ 0) then
        where_ ← strchr digits 0 c;
        match where_ with
        | None => Done val
        | Some digit => atoi_loop fuel m (s + 1) (u32 (val * 10 + digit))
        end
      else Done val
  end.

Definition atoi (m : list Z) (s : Z) : outcome Z :=
  s ← skip_blanks (S (length m)) m s;
  c ← getZ m s;
  let neg := bool_decide (c = 45) in
  let s := if neg || bool_decide (c = 43) then s + 1 else s in
  val ← atoi_loop (S (length m)) m s 0;
  Done (s32 (if neg then u32 (- val) else val)).

(** ** Block operations *)

(** An element copy moves [w] bytes. *)
Definition moves (step : list Z -> Z -> Z -> Z -> outcome (list Z)) (w : Z) : Prop :=
  forall m d s i, 0 <= d + w * i -> 0 <= s + w * i ->
  d + w * i + w <= Z.of_nat (length m) -> s + w * i + w <= Z.of_nat (length m) ->
  step m d s i = Done (splice m (d + w * i) (slice m (s + w * i) w)).

Lemma getZ_slice (m : list Z) a : 0 <= a < Z.of_nat (length m) -> exists c, getZ m a = Done c /\ slice m a 1 = [c].
Proof.
  intros Ha. destruct (getZ_total m a Ha) as (c & Hc & Hl). exists c. split; [done|].
  unfold slice. change (Z.to_nat 1) with 1%nat.
  by rewrite (drop_S _ _ _ Hl).
Qed.

Lemma setZ_splice (m : list Z) a c :
  0 <= a < Z.of_nat (length m) -> setZ m a c = Done (splice m a [c]).
Proof.
  intros Ha. rewrite setZ_ok by lia. f_equal. unfold splice. cbn [length app].
  rewrite insert_take_drop by lia. by rewrite Nat.add_1_r.
Qed.

Lemma copy_byte_moves : moves copy_byte 1.
Proof.
  intros m d s i Hd Hs Hd' Hs'. rewrite Z.mul_1_l in *. unfold copy_byte.
  destruct (getZ_slice m (s + i)) as (c & -> & ->); [lia|]. cbn. apply setZ_splice. lia.
Qed.

Lemma copy_long_moves : moves copy_long SIZEOF_LONG.
Proof.
  intros m d s i Hd Hs Hd' Hs'. unfold copy_long. rewrite mem_read_ok by (unfold SIZEOF_LONG in *; lia).
  cbn. apply mem_write_ok; [lia|]. rewrite length_slice; unfold SIZEOF_LONG in *; lia.
Qed.

Section copies.
Context (step : list Z -> Z -> Z -> Z -> outcome (list Z)) (w : Z) (Hstep : moves step w) (Hw : 0 < w).
Context (m : list Z) (d s : Z).

(** Upwards the copy is right unless the destination starts inside the source. *)
Lemma copy_up_spec n i :
  0 <= d -> 0 <= s -> 0 <= i -> let len := w * (i + Z.of_nat n) in
  d + len <= Z.of_nat (length m) -> s + len <= Z.of_nat (length m) -> d <= s \/ s + len <= d ->
  copy_up step n i (splice m d (slice m s (w * i))) d s = Done (splice m d (slice m s len)).
Proof.
  intros Hd Hs. revert i. induction n as [|n IH]; intros i Hi len Hdl Hsl Hov; subst len; cbn [copy_up].
  { do 4 f_equal. lia. }
  set (sl := slice m s (w * i)).
  assert (Hl : Z.of_nat (length sl) = w * i) by (apply length_slice; nia).
  rewrite Hstep by (try rewrite length_splice; try rewrite Hl; nia). cbn [mbind outcome_bind].
  rewrite slice_splice_away by (try rewrite Hl; nia).
  replace (d + w * i) with (d + Z.of_nat (length sl)) by lia. rewrite splice_app
    by (try rewrite Hl; try rewrite length_slice; nia).
  subst sl. rewrite slice_app by nia. replace (w * i + w) with (w * (i + 1)) by lia.
  rewrite IH by nia. do 4 f_equal. lia.
Qed.

(** Downwards it is right unless the destination lies below the source. *)
Lemma copy_down_spec n k :
  0 <= d -> 0 <= s <= d -> let len := w * (Z.of_nat n + k) in 0 <= k ->
  d + len <= Z.of_nat (length m) ->
  copy_down step n (splice m (d + w * Z.of_nat n) (slice m (s + w * Z.of_nat n) (w * k))) d s =
  Done (splice m d (slice m s len)).
Proof.
  intros Hd Hs len Hk Hdl. subst len. revert k Hk Hdl.
  induction n as [|n IH]; intros k Hk Hdl; cbn [copy_down].
  { replace (w * Z.of_nat 0) with 0 by lia. rewrite !Z.add_0_r. do 4 f_equal. }
  set (sl := slice m (s + w * Z.of_nat (S n)) (w * k)).
  assert (Hl : Z.of_nat (length sl) = w * k) by (apply length_slice; nia).
  rewrite Hstep by (try rewrite length_splice; try rewrite Hl; nia). cbn [mbind outcome_bind].
  rewrite slice_splice_away by (try rewrite Hl; nia).
  set (e := slice m (s + w * Z.of_nat n) w).
  assert (He : Z.of_nat (length e) = w) by (apply length_slice; nia).
  replace (d + w * Z.of_nat (S n)) with (d + w * Z.of_nat n + Z.of_nat (length e)) by lia.
  rewrite splice_before by (try rewrite Hl; try rewrite He; nia).
  subst e sl. replace (s + w * Z.of_nat (S n)) with (s + w * Z.of_nat n + w) by lia.
  rewrite slice_app by nia. replace (w + w * k) with (w * (k + 1)) by lia.
  rewrite IH by nia. do 4 f_equal. lia.
Qed.
End copies.

Lemma aligned_true dst src len :
  aligned dst src len = true -> len mod SIZEOF_LONG = 0.
Proof. unfold aligned. rewrite !andb_true_iff, !bool_decide_eq_true. tauto. Qed.

Lemma memcpy_spec m dst src len :
  0 <= dst -> 0 <= src -> 0 <= len ->
  dst + len <= Z.of_nat (length m) -> src + len <= Z.of_nat (length m) ->
  dst <= src \/ src + len <= dst ->
  memcpy m dst src len = Done (splice m dst (slice m src len)).
Proof.
  intros Hd Hs Hl Hdl Hsl Hov. unfold memcpy. destruct (aligned dst src len) eqn:E.
  - apply aligned_true, Z_div_exact_full_2 in E; [|done]. unfold SIZEOF_LONG in E.
    pose proof (copy_up_spec copy_long 4 copy_long_moves eq_refl m dst src (Z.to_nat (len / SIZEOF_LONG)) 0) as H.
    rewrite slice_mul_0, splice_nil in H. unfold SIZEOF_LONG in *. rewrite H by lia. do 3 f_equal. lia.
  - pose proof (copy_up_spec copy_byte 1 copy_byte_moves eq_refl m dst src (Z.to_nat len) 0) as H.
    rewrite slice_mul_0, splice_nil in H. rewrite H by lia. do 3 f_equal. lia.
Qed.

(** [memmove] copies the bytes the source held at the call, whether the blocks
    overlap or not, by words or by bytes: it is the block copy [mem_read]
    followed by [mem_write]. *)
Theorem memmove_copies m dst src len :
  0 <= dst -> 0 <= src -> 0 <= len ->
  dst + len <= Z.of_nat (length m) -> src + len <= Z.of_nat (length m) ->
  memmove m dst src len = (bytes ← mem_read m src len; mem_write m dst bytes).
Proof.
  intros Hd Hs Hl Hdl Hsl. rewrite mem_read_ok by done. cbn [mbind outcome_bind].
  rewrite mem_write_ok by (rewrite ?length_slice; lia). unfold memmove.
  destruct (bool_decide_reflect (dst < src)); [apply memcpy_spec; lia|].
  destruct (aligned dst src len) eqn:E.
  - apply aligned_true, Z_div_exact_full_2 in E; [|done]. unfold SIZEOF_LONG in E.
    pose proof (copy_down_spec copy_long 4 copy_long_moves eq_refl m dst src (Z.to_nat (len / SIZEOF_LONG)) 0) as H.
    rewrite slice_mul_0, splice_nil in H. unfold SIZEOF_LONG in *. rewrite H by lia. do 3 f_equal. lia.
  - pose proof (copy_down_spec copy_byte 1 copy_byte_moves eq_refl m dst src (Z.to_nat len) 0) as H.
    rewrite slice_mul_0, splice_nil in H. rewrite H by lia. do 3 f_equal. lia.
Qed.

Lemma set_loop_spec n m p c :
  0 <= p -> p + Z.of_nat n <= Z.of_nat (length m) ->
  set_loop n m p c = Done (splice m p (replicate n c)).
Proof.
  revert m p. induction n as [|n IH]; intros m p Hp Hn; cbn [set_loop replicate]; [by rewrite splice_nil|].
  rewrite setZ_splice by lia. cbn [mbind outcome_bind].
  rewrite IH by (rewrite ?length_splice by (cbn; lia); lia). f_equal.
  apply (splice_app m p [c]); rewrite ?length_replicate; cbn; lia.
Qed.

Lemma zero_longs_spec n m p :
  0 <= p -> p + SIZEOF_LONG * Z.of_nat n <= Z.of_nat (length m) ->
  zero_longs n m p = Done (splice m p (zeros (SIZEOF_LONG * Z.of_nat n))).
Proof.
  unfold SIZEOF_LONG. revert m p. induction n as [|n IH]; intros m p Hp Hn; cbn [zero_longs].
  { change (zeros (4 * Z.of_nat 0)) with (@nil Z). by rewrite splice_nil. }
  assert (Hz : Z.of_nat (length (zeros 4)) = 4) by done.
  unfold SIZEOF_LONG. rewrite mem_write_ok by lia. cbn [mbind outcome_bind].
  rewrite IH by (rewrite ?length_splice by lia; lia). f_equal.
  rewrite (splice_app m p (zeros 4)) by (rewrite ?(length_zeros (4 * Z.of_nat n)); lia).
  unfold zeros. rewrite <- replicate_add. do 2 f_equal. lia.
Qed.

(** [bzero] clears the block, by words or by bytes. *)
Lemma bzero_spec m block len :
  0 <= block -> 0 <= len -> block + len <= Z.of_nat (length m) ->
  bzero m block len = Done (splice m block (zeros len)).
Proof.
  intros Hb Hl Hr. unfold bzero. destruct (_ && _) eqn:E.
  - apply andb_true_iff in E as [_ E%bool_decide_eq_true]. apply Z_div_exact_full_2 in E; [|done].
    unfold SIZEOF_LONG in *. rewrite zero_longs_spec by (unfold SIZEOF_LONG; lia).
    do 3 f_equal. unfold SIZEOF_LONG. lia.
  - by rewrite set_loop_spec by lia.
Qed.

Lemma memset_spec m p ch len :
  0 <= p -> 0 <= len -> p + len <= Z.of_nat (length m) ->
  memset m p ch len = Done (splice m p (replicate (Z.to_nat len) (u8 ch))).
Proof. intros. apply set_loop_spec; lia. Qed.

Lemma memcmp_loop_spec n m a b :
  0 <= a -> 0 <= b -> a + Z.of_nat n <= Z.of_nat (length m) -> b + Z.of_nat n <= Z.of_nat (length m) ->
  exists r, memcmp_loop n m a b = Done r /\ (r = 0 <-> slice m a (Z.of_nat n) = slice m b (Z.of_nat n)).
Proof.
  revert a b. induction n as [|n IH]; intros a b Ha Hb Hal Hbl; cbn [memcmp_loop]; [by exists 0|].
  destruct (getZ_slice m a) as (x & -> & Hx); [lia|]. destruct (getZ_slice m b) as (y & -> & Hy); [lia|].
  cbn [mbind outcome_bind].
  rewrite (Nat2Z.inj_succ n), <- Z.add_1_l, <- !slice_app, Hx, Hy by lia.
  destruct (bool_decide_reflect (x ≠ y)) as [Hne|He].
  - exists (x - y). split; [done|]. split; [lia|]. by intros [= ? _].
  - apply dec_stable in He as ->. destruct (IH (a + 1) (b + 1)) as (r & Hr & Heq); [lia..|].
    exists r. split; [done|]. rewrite Heq. split; [by intros ->|by intros [= ?]].
Qed.

(** [memcmp] is zero exactly on equal blocks. *)
Lemma memcmp_spec m a b len :
  0 <= a -> 0 <= b -> 0 <= len -> a + len <= Z.of_nat (length m) -> b + len <= Z.of_nat (length m) ->
  exists r, memcmp m a b len = Done r /\ (r = 0 <-> slice m a len = slice m b len).
Proof.
  intros. pose proof (memcmp_loop_spec (Z.to_nat len) m a b) as H'. rewrite Z2Nat.id in H' by done. auto.
Qed.

(** ** Strings in memory *)

Fixpoint str_at (m : list Z) (a : Z) (s : list Z) : Prop :=
  match s with
  | [] => getZ m a = Done 0
  | c :: s => getZ m a = Done c /\ c ≠ 0 /\ str_at m (a + 1) s
  end.

(** The addresses from [lo] to [hi] hold the same bytes. *)
Definition agree (m m' : list Z) (lo hi : Z) : Prop := forall i, lo <= i <= hi -> getZ m' i = getZ m i.

Lemma getZ_setZ (m m' : list Z) j c i : setZ m j c = Done m' -> getZ m' i = if decide (i = j) then Done c else getZ m i.
Proof.
  intros [Hj ->]%setZ_Done. unfold getZ. case_decide as Hi.
  - subst. rewrite bool_decide_eq_true_2, list_lookup_insert_eq by lia. done.
  - case_bool_decide; [|done]. rewrite list_lookup_insert_ne by lia. done.
Qed.

Lemma str_at_range m a s : str_at m a s -> 0 <= a /\ a + Z.of_nat (length s) < Z.of_nat (length m).
Proof.
  revert a. induction s as [|c s IH]; intros a; cbn [str_at length].
  - intros [??]%getZ_Done. lia.
  - intros ([??]%getZ_Done & _ & [??]%IH). lia.
Qed.

Lemma str_at_fuel m a s : str_at m a s -> (length s < S (length m))%nat.
Proof. intros [??]%str_at_range. lia. Qed.

Lemma str_at_agree m m' a s : agree m m' a (a + Z.of_nat (length s)) -> str_at m a s -> str_at m' a s.
Proof.
  revert a. induction s as [|c s IH]; intros a Ha; cbn [str_at length] in *.
  - intros <-. apply Ha. lia.
  - intros (Hc & Hn & Hs). split_and!; [rewrite <- Hc; apply Ha; lia|done|].
    apply IH; [|done]. intros i ?. apply Ha. lia.
Qed.

Lemma str_at_nonzero m a s : str_at m a s -> Forall (fun c => c ≠ 0) s.
Proof. revert a. induction s as [|c s IH]; intros a; cbn; [constructor|]. intros (?&?&?). constructor; eauto. Qed.

Lemma str_at_app m a s s' : str_at m a (s ++ s') -> str_at m (a + Z.of_nat (length s)) s'.
Proof.
  revert a. induction s as [|c s IH]; intros a; cbn [app str_at length].
  - by rewrite Z.add_0_r.
  - intros (_ & _ & H%IH). by replace (a + Z.of_nat (S (length s))) with (a + 1 + Z.of_nat (length s)) by lia.
Qed.

(** A NUL stored after the first part leaves the first part. *)
Lemma str_at_cut m m' a s s' :
  str_at m a (s ++ s') -> agree m m' a (a + Z.of_nat (length s) - 1) ->
  getZ m' (a + Z.of_nat (length s)) = Done 0 -> str_at m' a s.
Proof.
  revert a. induction s as [|c s IH]; intros a; cbn [app str_at length].
  - rewrite Z.add_0_r. done.
  - intros (Hc & Hn & Hs) Ha H0. split_and!; [rewrite <- Hc; apply Ha; lia|done|].
    apply IH; [done| |rewrite <- H0; f_equal; lia]. intros i ?. apply Ha. lia.
Qed.

Lemma strlen_loop_spec m fuel s ret w :
  str_at m (s + ret) w -> (length w < fuel)%nat -> strlen_loop m fuel s ret = Done (ret + Z.of_nat (length w)).
Proof.
  revert fuel ret. induction w as [|c w IH]; intros [|fuel] ret; cbn [str_at strlen_loop length]; try lia.
  - intros -> _. cbn. f_equal. lia.
  - intros (-> & Hc & Hw) ?. cbn [mbind outcome_bind]. rewrite bool_decide_eq_true_2 by done.
    rewrite IH; [f_equal; lia| |lia]. by rewrite Z.add_assoc.
Qed.

Lemma strlen_spec m a s : str_at m a s -> strlen m a = Done (Z.of_nat (length s)).
Proof.
  intros H. unfold strlen. rewrite (strlen_loop_spec _ _ _ _ s); [done|by rewrite Z.add_0_r|by eapply str_at_fuel].
Qed.

(** The position of the first [ch] in [s]. *)
Fixpoint index_of (ch : Z) (s : list Z) : option Z :=
  match s with
  | [] => None
  | c :: s => if bool_decide (c = ch) then Some 0 else Z.succ <$> index_of ch s
  end.

Lemma index_of_None ch s : index_of ch s = None <-> ch ∉ s.
Proof.
  induction s as [|c s IH]; cbn [index_of]; [split; [intros _; apply not_elem_of_nil|done]|].
  rewrite not_elem_of_cons, <- IH. destruct (bool_decide_reflect (c = ch)) as [->|].
  - split; [done|tauto].
  - destruct (index_of ch s); cbn; [split; [done|by intros [_ ?]]|]. split; [split; congruence|done].
Qed.

Lemma strchr_loop_spec m fuel s ch w :
  str_at m s w -> ch ≠ 0 -> (length w < fuel)%nat ->
  strchr_loop m fuel s ch = Done (Z.add s <$> index_of ch w).
Proof.
  intros Hw Hch. revert fuel s Hw.
  induction w as [|c w IH]; intros [|fuel] s; cbn [str_at strchr_loop length index_of]; try lia.
  - intros -> _. cbn. by rewrite (bool_decide_eq_false_2 (0 = ch)) by done.
  - intros (-> & Hc & Hw) ?. cbn [mbind outcome_bind]. rewrite bool_decide_eq_true_2 by done.
    case_bool_decide; [cbn; do 2 f_equal; lia|]. rewrite IH; [|done|lia].
    f_equal. destruct (index_of ch w); cbn; [f_equal; lia|done].
Qed.

Lemma strchr_spec m a s ch : str_at m a s -> ch ≠ 0 -> strchr m a ch = Done (Z.add a <$> index_of ch s).
Proof. intros. apply strchr_loop_spec; [done..|by eapply str_at_fuel]. Qed.

Lemma str_at_lookup m a s i c : str_at m a s -> s !! i = Some c -> getZ m (a + Z.of_nat i) = Done c.
Proof.
  revert a i. induction s as [|d s IH]; intros a [|i] H Hi; cbn in H, Hi; try done.
  - injection Hi as <-. rewrite Z.add_0_r. apply H.
  - rewrite <- (IH (a + 1) i); [f_equal; lia|apply H|done].
Qed.

Lemma str_at_end m a s : str_at m a s -> getZ m (a + Z.of_nat (length s)) = Done 0.
Proof. intros H. by apply (str_at_app m a s []); rewrite app_nil_r. Qed.

Lemma strrchr_loop_spec m a s ch i :
  str_at m a s -> (i <= length s)%nat ->
  strrchr_loop m i a ch = Done ((fun k => a + (Z.of_nat i - 1 - k)) <$> index_of ch (reverse (take i s))).
Proof.
  intros Hs. induction i as [|i IH]; intros Hi; cbn [strrchr_loop]; [done|].
  destruct (lookup_lt_is_Some_2 s i) as [c Hc]; [lia|].
  rewrite (str_at_lookup _ _ _ _ _ Hs Hc), (take_S_r _ _ _ Hc), reverse_snoc. cbn [mbind outcome_bind index_of].
  case_bool_decide; [cbn; do 2 f_equal; lia|]. rewrite IH by lia.
  destruct (index_of ch _); cbn; [do 2 f_equal; lia|done].
Qed.

(** [strrchr] finds the last occurrence. *)
Lemma strrchr_spec m a s ch :
  str_at m a s -> ch ≠ 0 ->
  strrchr m a ch = Done ((fun k => a + (Z.of_nat (length s) - 1 - k)) <$> index_of ch (reverse s)).
Proof.
  intros Hs Hch. unfold strrchr. rewrite (strlen_spec _ _ _ Hs). cbn [mbind outcome_bind].
  replace (Z.to_nat _) with (S (length s)) by lia. cbn [strrchr_loop].
  rewrite (str_at_end _ _ _ Hs). cbn [mbind outcome_bind]. rewrite bool_decide_eq_false_2 by done.
  by rewrite (strrchr_loop_spec m a s), firstn_all by done.
Qed.

(** Lexicographic order on signed characters. *)
Fixpoint str_cmp (s t : list Z) : Z :=
  match s, t with
  | [], [] => 0
  | [], y :: _ => if bool_decide (0 > schar y) then 1 else -1
  | x :: _, [] => if bool_decide (schar x > 0) then 1 else -1
  | x :: s, y :: t => if bool_decide (x = y) then str_cmp s t else if bool_decide (schar x > schar y) then 1 else -1
  end.

Lemma str_cmp_eq s t : str_cmp s t = 0 <-> s = t.
Proof.
  revert t. induction s as [|x s IH]; intros [|y t]; cbn [str_cmp]; try (repeat case_bool_decide; done).
  case_bool_decide as H; [subst; rewrite IH; split; [by intros ->|by intros [= ->]]|].
  split; [by case_bool_decide|]. by intros [= ? _].
Qed.

Lemma strcmp_loop_spec m fuel a b i s t :
  str_at m (a + i) s -> str_at m (b + i) t -> (length s < fuel)%nat ->
  strcmp_loop m fuel a b i = Done (str_cmp s t).
Proof.
  revert fuel i t. induction s as [|x s IH]; intros [|fuel] i [|y t]; cbn [str_at strcmp_loop length str_cmp]; try lia.
  - intros -> -> _. done.
  - intros -> (-> & Hy & _) _. cbn. rewrite (bool_decide_eq_false_2 (0 = y)) by done. done.
  - intros (-> & Hx & _) -> _. cbn. rewrite (bool_decide_eq_false_2 (x = 0)) by done. by rewrite andb_false_r.
  - intros (-> & Hx & Hs) (-> & Hy & Ht) ?. cbn [mbind outcome_bind].
    rewrite (bool_decide_eq_true_2 (x ≠ 0)) by done. cbn [andb].
    case_bool_decide; [|done]. apply IH; [by rewrite Z.add_assoc..|lia].
Qed.

Lemma strcmp_spec m a b s t : str_at m a s -> str_at m b t -> strcmp m a b = Done (str_cmp s t).
Proof.
  intros Hs Ht. apply strcmp_loop_spec; [by rewrite Z.add_0_r..|by eapply str_at_fuel].
Qed.

Lemma agree_setZ m m' j c lo hi : setZ m j c = Done m' -> ~ (lo <= j <= hi) -> agree m m' lo hi.
Proof. intros H Hj i Hi. rewrite (getZ_setZ _ _ _ _ _ H). case_decide; [lia|done]. Qed.

Lemma strcpy_loop_spec fuel m dest src i s :
  str_at m (src + i) s -> (length s < fuel)%nat -> let n := Z.of_nat (length s) in
  0 <= dest + i -> dest + i + n < Z.of_nat (length m) -> src + n < dest \/ dest + n < src ->
  strcpy_loop fuel m dest src i = Done (splice m (dest + i) (s ++ [0])).
Proof.
  revert fuel m i. induction s as [|c s IH]; intros [|fuel] m i; cbn [str_at strcpy_loop length]; try lia.
  - intros -> _ ???. cbn. apply setZ_splice. lia.
  - intros (-> & Hc & Hs) Hf Hd Hr Hdis. cbn [mbind outcome_bind]. rewrite bool_decide_eq_true_2 by done.
    pose proof (setZ_splice m (dest + i) c ltac:(lia)) as Hset. rewrite Hset. cbn [mbind outcome_bind].
    rewrite IH.
    + f_equal. rewrite Z.add_assoc. apply (splice_app m (dest + i) [c]); rewrite ?length_app; cbn; lia.
    + rewrite Z.add_assoc. eapply str_at_agree; [|done]. eapply agree_setZ; [done|]. lia.
    + lia.
    + lia.
    + rewrite length_splice; cbn; lia.
    + lia.
Qed.

Lemma strcpy_spec m dest src s :
  str_at m src s -> let n := Z.of_nat (length s) in
  0 <= dest -> dest + n < Z.of_nat (length m) -> src + n < dest \/ dest + n < src ->
  strcpy m dest src = Done (splice m dest (s ++ [0])).
Proof.
  intros Hs n ???. unfold strcpy. rewrite (strcpy_loop_spec _ _ _ _ _ s); rewrite ?Z.add_0_r; try done.
  by eapply str_at_fuel.
Qed.

Lemma strcat_spec m dest src s t :
  str_at m dest s -> str_at m src t -> let n := Z.of_nat (length s) + Z.of_nat (length t) in
  dest + n < Z.of_nat (length m) -> src + Z.of_nat (length t) < dest \/ dest + n < src ->
  strcat m dest src = Done (splice m (dest + Z.of_nat (length s)) (t ++ [0])).
Proof.
  intros Hs Ht n ??. unfold strcat. rewrite (strlen_spec _ _ _ Hs). cbn [mbind outcome_bind].
  apply str_at_range in Hs as ?. apply strcpy_spec; [done|lia..].
Qed.

Lemma getZ_splice_in (m d : list Z) a i c :
  0 <= a -> a + Z.of_nat (length d) <= Z.of_nat (length m) -> d !! i = Some c ->
  getZ (splice m a d) (a + Z.of_nat i) = Done c.
Proof.
  intros Ha Hl Hc. apply getZ_ok; [lia|]. apply lookup_lt_Some in Hc as Hi. unfold splice.
  rewrite lookup_app_r by (rewrite length_take; lia). rewrite lookup_app_l by (rewrite length_take; lia).
  rewrite length_take. rewrite <- Hc. f_equal. lia.
Qed.

(** A string that was stored is there. *)
Lemma str_at_intro m a s :
  Forall (fun c => c ≠ 0) s -> (forall i c, (s ++ [0]) !! i = Some c -> getZ m (a + Z.of_nat i) = Done c) ->
  str_at m a s.
Proof.
  intros Hs. revert a. induction Hs as [|c s Hc Hs IH]; intros a H; cbn [str_at].
  - rewrite <- (Z.add_0_r a). by apply (H 0%nat).
  - split_and!; [rewrite <- (Z.add_0_r a); by apply (H 0%nat)|done|]. apply IH. intros i d Hi.
    rewrite <- (H (S i) d Hi). f_equal. lia.
Qed.

Lemma str_at_splice m a s :
  Forall (fun c => c ≠ 0) s -> 0 <= a -> a + Z.of_nat (length s) < Z.of_nat (length m) ->
  str_at (splice m a (s ++ [0])) a s.
Proof.
  intros Hs Ha Hr. apply str_at_intro; [done|]. intros i c Hi.
  apply getZ_splice_in; [done|rewrite length_app; cbn; lia|done].
Qed.

(** ** Words *)

(** The separators end words; a word is not empty. *)
Definition flush (w : list Z) : list (list Z) := if bool_decide (w = []) then [] else [w].
Fixpoint words_from (seps w s : list Z) : list (list Z) :=
  match s with
  | [] => flush w
  | c :: s => if bool_decide (c ∈ seps) then flush w ++ words_from seps [] s else words_from seps (w ++ [c]) s
  end.
Definition words (seps s : list Z) : list (list Z) := words_from seps [] s.

(** The loop of the callers: the first call passes the string, the others
    NULL, until the answer is NULL. *)
Fixpoint strtok_all (fuel : nat) (m : list Z) (string : option Z) (seps : Z) (context : option Z)
    : outcome (list Z * list Z) :=
  match fuel with
  | O => Stuck
  | S fuel =>
      '(w, context, m) ← strtok_r m string seps context;
      match w with
      | None => Done ([], m)
      | Some p => '(ps, m) ← strtok_all fuel m None seps context; Done (p :: ps, m)
      end
  end.

Lemma words_skip seps s s' : Forall (fun c => c ∈ seps) s -> words seps (s ++ s') = words seps s'.
Proof.
  unfold words. induction 1 as [|c s Hc Hs IH]; [done|]. cbn [app words_from].
  by rewrite bool_decide_eq_true_2, IH by done.
Qed.

Lemma words_from_word seps w s s' :
  Forall (fun c => c ∉ seps) s -> words_from seps w (s ++ s') = words_from seps (w ++ s) s'.
Proof.
  intros Hs. revert w. induction Hs as [|c s Hc Hs IH]; intros w; cbn [app words_from]; [by rewrite app_nil_r|].
  rewrite bool_decide_eq_false_2 by done. by rewrite IH, <- app_assoc.
Qed.

Lemma words_word seps w c s :
  w ≠ [] -> Forall (fun c => c ∉ seps) w -> c ∈ seps -> words seps (w ++ c :: s) = w :: words seps s.
Proof.
  intros Hw Hs Hc. unfold words. rewrite words_from_word by done. cbn [words_from app].
  rewrite bool_decide_eq_true_2 by done. unfold flush. by rewrite bool_decide_eq_false_2.
Qed.

Lemma words_last seps w : w ≠ [] -> Forall (fun c => c ∉ seps) w -> words seps w = [w].
Proof.
  intros Hw Hs. unfold words. rewrite <- (app_nil_r w), words_from_word by done.
  cbn [words_from app]. unfold flush. by rewrite bool_decide_eq_false_2, app_nil_r.
Qed.

(** Every string is a longest prefix of characters in (or not in) [seps] and
    a rest. *)
Lemma span (P : Z -> Prop) `{forall c, Decision (P c)} (s : list Z) :
  exists pre post, s = pre ++ post /\ Forall P pre /\ (post = [] \/ exists c r, post = c :: r /\ ~ P c).
Proof.
  induction s as [|c s (pre & post & -> & Hp & Hr)]; [exists [], []; auto|].
  destruct (decide (P c)); [|exists [], (c :: pre ++ post); split_and!; eauto].
  exists (c :: pre), post. split_and!; [done|by constructor|done].
Qed.

Lemma tok_scan_spec fuel want m p b seps pre post :
  str_at m p (pre ++ post) -> str_at m b seps -> (length pre < fuel)%nat ->
  Forall (fun c => bool_decide (c ∈ seps) = want) pre ->
  (post = [] \/ exists c r, post = c :: r /\ bool_decide (c ∈ seps) ≠ want) ->
  tok_scan fuel want m p b = Done (p + Z.of_nat (length pre)).
Proof.
  intros Hs Hb Hf Hpre Hpost. revert fuel p Hs Hf.
  assert (Hch : forall c, c ≠ 0 -> exists w, strchr m b c = Done w /\ bool_decide (w ≠ None) = bool_decide (c ∈ seps)).
  { intros c Hc. eexists. split; [by apply (strchr_spec m b seps)|]. apply bool_decide_ext.
    rewrite fmap_None, index_of_None. split; [apply dec_stable|by intros ? []]. }
  induction Hpre as [|c pre Hc Hpre IH]; intros [|fuel] p Hs Hf; cbn [app length str_at tok_scan] in *; try lia.
  - destruct Hpost as [->|(c & r & -> & Hne)]; cbn [str_at] in Hs.
    + rewrite Hs. cbn. f_equal. lia.
    + destruct Hs as (-> & Hc & _). cbn [mbind outcome_bind]. rewrite (bool_decide_eq_true_2 (c ≠ 0)) by done.
      destruct (Hch c Hc) as (w & -> & Hw). cbn [mbind outcome_bind]. rewrite Hw, bool_decide_eq_false_2 by done.
      f_equal. lia.
  - destruct Hs as (-> & Hz & Hs). cbn [mbind outcome_bind]. rewrite (bool_decide_eq_true_2 (c ≠ 0)) by done.
    destruct (Hch c Hz) as (w & -> & Hw). cbn [mbind outcome_bind]. rewrite Hw, bool_decide_eq_true_2 by done.
    rewrite IH; [f_equal; lia|done|lia].
Qed.

(** What one call answers on the string [s] at [a]: no word is left; or the
    last word; or a word and the rest of the string, with a NUL stored after
    the word. *)
Inductive tok_result (m : list Z) (a : Z) (seps s : list Z) : option Z * option Z * list Z -> Prop :=
  | TokNone : words seps s = [] -> tok_result m a seps s (None, None, m)
  | TokLast p w : words seps s = [w] -> a <= p -> p + Z.of_nat (length w) <= a + Z.of_nat (length s) -> str_at m p w ->
      tok_result m a seps s (Some p, None, m)
  | TokWord p w q rest m' :
      words seps s = w :: words seps rest -> a <= p -> p + Z.of_nat (length w) < q ->
      q + Z.of_nat (length rest) = a + Z.of_nat (length s) ->
      str_at m' p w -> str_at m' q rest -> (forall i, i ≠ q - 1 -> getZ m' i = getZ m i) ->
      tok_result m a seps s (Some p, Some q, m').

Lemma strtok_r_spec m string b context a seps s :
  from_option Some context string = Some a -> str_at m a s -> str_at m b seps ->
  exists r, strtok_r m string b context = Done r /\ tok_result m a seps s r.
Proof.
  intros Hctx Hs Hb. unfold strtok_r.
  replace (match string with Some _ => _ | None => _ end) with (Some a) by (by destruct string).
  destruct (span (fun c => bool_decide (c ∈ seps) = true) s) as (pre & post & -> & Hpre & Hpost).
  pose proof (str_at_fuel _ _ _ Hs) as Hf. rewrite length_app in Hf.
  rewrite (tok_scan_spec _ true m a b seps pre post) by (done || lia). cbn [mbind outcome_bind].
  pose proof (str_at_app _ _ _ _ Hs) as Hs'. set (p := a + Z.of_nat (length pre)) in *.
  assert (Hw0 : words seps (pre ++ post) = words seps post).
  { apply words_skip. eapply Forall_impl; [done|]. intros ? ?%bool_decide_eq_true. done. }
  destruct Hpost as [->|(c & r & -> & Hc)].
  { rewrite Hs'. eexists. split; [done|]. by constructor. }
  assert (Hz : getZ m p = Done c /\ c ≠ 0) by (split; apply Hs').
  rewrite (proj1 Hz). cbn [mbind outcome_bind]. rewrite (bool_decide_eq_false_2 (c = 0)) by apply Hz.
  destruct (span (fun c => bool_decide (c ∈ seps) = false) (c :: r)) as (w & rest & Hsp & Hw & Hrest).
  rewrite Hsp in *. rewrite length_app in Hf.
  rewrite (tok_scan_spec _ false m p b seps w rest) by (done || lia). cbn [mbind outcome_bind].
  assert (Hwne : w ≠ []).
  { intros ->. destruct Hrest as [->|(c' & r' & -> & ?)]; [done|]. simplify_eq/=.
    by destruct (bool_decide (c' ∈ seps)). }
  assert (Hwf : Forall (fun c => c ∉ seps) w).
  { eapply Forall_impl; [done|]. intros ? ?%bool_decide_eq_false. done. }
  pose proof (str_at_app _ _ _ _ Hs') as Hs2. destruct Hrest as [->|(d & rest' & -> & Hd)].
  - rewrite Hs2. eexists. split; [done|]. rewrite app_nil_r in *. apply TokLast with w; [by rewrite Hw0, words_last|lia|rewrite length_app; lia|done].
  - destruct Hs2 as (Hgd & Hdz & Hs2). rewrite Hgd. cbn [mbind outcome_bind].
    rewrite (bool_decide_eq_false_2 (d = 0)) by done. apply getZ_Done in Hgd as [Hr _].
    pose proof (setZ_ok m (p + Z.of_nat (length w)) 0 Hr) as Hset. rewrite Hset.
    eexists. split; [done|]. apply TokWord with w rest'; [|lia|lia| | | |].
    + rewrite Hw0. apply words_word; [done..|]. apply not_false_is_true in Hd. by apply bool_decide_eq_true in Hd.
    + rewrite !length_app. cbn. lia.
    + eapply str_at_cut; [exact Hs'| |].
      * eapply agree_setZ; [exact Hset|lia].
      * rewrite (getZ_setZ _ _ _ _ _ Hset). by rewrite decide_True.
    + eapply str_at_agree; [|exact Hs2]. eapply agree_setZ; [exact Hset|lia].
    + intros i Hi. rewrite (getZ_setZ _ _ _ _ _ Hset). rewrite decide_False; [done|lia].
Qed.

Lemma strtok_all_spec n fuel m string b context a seps s :
  from_option Some context string = Some a -> str_at m a s -> str_at m b seps ->
  b + Z.of_nat (length seps) < a \/ a + Z.of_nat (length s) <= b ->
  (length s <= n)%nat -> (n < fuel)%nat ->
  exists ps m', strtok_all fuel m string b context = Done (ps, m') /\ Forall2 (str_at m') ps (words seps s) /\
  forall i, i < a \/ a + Z.of_nat (length s) <= i -> getZ m' i = getZ m i.
Proof.
  revert fuel m string context a s.
  induction n as [n IH] using lt_wf_ind; intros [|fuel] m string context a s Hctx Hs Hb Hdis Hn Hf; [lia|].
  destruct (strtok_r_spec m string b context a seps s Hctx Hs Hb) as (r & Hr & Hres).
  cbn [strtok_all]. rewrite Hr. destruct Hres as [Hw|p w Hw _ _ Hp|p w q rest m1 Hw Hap Hpq Hq Hp Hrest Hag]; cbn [mbind outcome_bind].
  - exists [], m. rewrite Hw. split_and!; [done|constructor|done].
  - destruct fuel as [|fuel].
    { destruct s; [done|]. cbn in Hn. lia. }
    exists [p], m. rewrite Hw. split_and!; [done|by repeat constructor|done].
  - destruct (IH (length rest) ltac:(lia) fuel m1 None (Some q) q rest) as (ps & m' & -> & Hps & Hout);
      [done|done| |lia|lia|lia|].
    { eapply str_at_agree; [|exact Hb]. intros i ?. apply Hag. lia. }
    exists (p :: ps), m'. rewrite Hw. split_and!; [done| |].
    + constructor; [|done]. eapply str_at_agree; [|exact Hp]. intros i ?. apply Hout. lia.
    + intros i ?. rewrite Hout by lia. apply Hag. lia.
Qed.

(** [strtok_r] called in a loop visits the words of the string in order, each
    NUL-terminated in place, after at most one call more than the string has
    characters; memory outside the string is not touched. *)
Theorem strtok_splits m a b seps s context :
  str_at m a s -> str_at m b seps ->
  b + Z.of_nat (length seps) < a \/ a + Z.of_nat (length s) <= b ->
  exists ps m', strtok_all (S (length s)) m (Some a) b context = Done (ps, m') /\
  Forall2 (str_at m') ps (words seps s) /\
  forall i, i < a \/ a + Z.of_nat (length s) <= i -> getZ m' i = getZ m i.
Proof. intros. eapply (strtok_all_spec (length s)); [done..|lia]. Qed.

(** [  ls  -a ] split at blanks. *)
Lemma strtok_splits_witness :
  exists ps m', strtok_all 8 ([32; 32; 108; 115; 32; 45; 97; 0] ++ [32; 9; 0]) (Some 0) 8 None = Done (ps, m') /\
  Forall2 (str_at m') ps [[108; 115]; [45; 97]] /\
  forall i, i < 0 \/ 7 <= i -> getZ m' i = getZ ([32; 32; 108; 115; 32; 45; 97; 0] ++ [32; 9; 0]) i.
Proof.
  apply (strtok_splits _ 0 8 [32; 9] [32; 32; 108; 115; 32; 45; 97]); [repeat split; done..|by right].
Defined.

Lemma memmove_copies_witness :
  memmove [1; 2; 3; 4; 5; 6; 7; 8; 9; 10; 11; 12] 4 0 8 =
  (bytes ← mem_read [1; 2; 3; 4; 5; 6; 7; 8; 9; 10; 11; 12] 0 8;
   mem_write [1; 2; 3; 4; 5; 6; 7; 8; 9; 10; 11; 12] 4 bytes).
Proof. apply memmove_copies; vm_compute; congruence. Defined.

(** ** Numbers *)

(** The value of a sequence of decimal digits that follows the value [v]. *)
Definition dec_from (v : Z) (ds : list Z) : Z := fold_left (fun v c => v * 10 + (c - 48)) ds v.

Lemma digits_index c : c ≠ 0 ->
  strchr digits 0 c = Done (if decide (48 <= c <= 57) then Some (c - 48) else None).
Proof.
  intros Hc. rewrite (strchr_spec digits 0 (removelast digits)); [|by repeat split|done]. f_equal.
  case_decide.
  - assert (c = 48 \/ c = 49 \/ c = 50 \/ c = 51 \/ c = 52 \/ c = 53 \/ c = 54 \/ c = 55 \/ c = 56 \/ c = 57) as H' by lia.
    by repeat destruct H' as [->|H']; subst.
  - replace (index_of c _) with (@None Z); [done|]. symmetry. apply index_of_None.
    cbn. rewrite !elem_of_cons, elem_of_nil. lia.
Qed.

Lemma u32_digit v d : u32 (u32 v * 10 + d) = u32 (v * 10 + d).
Proof. unfold u32. rewrite Zplus_mod, Zmult_mod_idemp_l, <- Zplus_mod. done. Qed.

Lemma atoi_loop_spec fuel m s v ds rest :
  str_at m s (ds ++ rest) -> (length ds < fuel)%nat -> Forall (fun c => 48 <= c <= 57) ds ->
  (rest = [] \/ exists c r, rest = c :: r /\ ~ 48 <= c <= 57) ->
  atoi_loop fuel m s (u32 v) = Done (u32 (dec_from v ds)).
Proof.
  intros Hs Hf Hds Hrest. revert fuel s v Hs Hf.
  induction Hds as [|c ds Hc Hds IH]; intros [|fuel] s v Hs Hf; cbn [app length str_at atoi_loop dec_from fold_left] in *; try lia.
  - destruct Hrest as [->|(c & r & -> & Hne)]; cbn [str_at] in Hs; [by rewrite Hs|].
    destruct Hs as (-> & Hc & _). cbn [mbind outcome_bind]. rewrite bool_decide_eq_true_2 by done.
    by rewrite digits_index, decide_False by done.
  - destruct Hs as (-> & Hz & Hs). cbn [mbind outcome_bind]. rewrite bool_decide_eq_true_2 by done.
    rewrite digits_index, decide_True by done. cbn [mbind outcome_bind]. rewrite u32_digit.
    apply IH; [done|lia].
Qed.

Lemma skip_blanks_spec fuel m s bs rest :
  str_at m s (bs ++ rest) -> (length bs < fuel)%nat -> Forall (fun c => c = 32 \/ c = 9) bs ->
  (rest = [] \/ exists c r, rest = c :: r /\ c ≠ 32 /\ c ≠ 9) ->
  skip_blanks fuel m s = Done (s + Z.of_nat (length bs)).
Proof.
  intros Hs Hf Hbs Hrest. revert fuel s Hs Hf.
  induction Hbs as [|c bs Hc Hbs IH]; intros [|fuel] s Hs Hf; cbn [app length str_at skip_blanks] in *; try lia.
  - rewrite Z.add_0_r. destruct Hrest as [->|(c & r & -> & Hne)]; cbn [str_at] in Hs; [by rewrite Hs|].
    destruct Hs as (-> & Hc & _). cbn [mbind outcome_bind]. by rewrite bool_decide_eq_false_2 by tauto.
  - destruct Hs as (-> & Hz & Hs). cbn [mbind outcome_bind]. rewrite bool_decide_eq_true_2 by done.
    rewrite IH; [f_equal; lia|done|lia].
Qed.

(** Blanks, a sign, digits: the value modulo [2^32], as an [int]. *)
Lemma atoi_spec m a bs sign ds rest :
  str_at m a (bs ++ sign ++ ds ++ rest) -> Forall (fun c => c = 32 \/ c = 9) bs ->
  sign = [] \/ sign = [43] \/ sign = [45] -> ds ≠ [] -> Forall (fun c => 48 <= c <= 57) ds ->
  (rest = [] \/ exists c r, rest = c :: r /\ ~ 48 <= c <= 57) ->
  atoi m a = Done (s32 (u32 (if decide (sign = [45]) then - u32 (dec_from 0 ds) else dec_from 0 ds))).
Proof.
  intros Hs Hbs Hsign Hne Hds Hrest. unfold atoi.
  destruct ds as [|d ds]; [done|]. pose proof (Forall_inv Hds) as Hd. cbn beta in Hd.
  pose proof (str_at_fuel _ _ _ Hs) as Hf. rewrite !length_app in Hf.
  rewrite (skip_blanks_spec _ m a bs (sign ++ (d :: ds) ++ rest)); [|done|lia|done|].
  2: { right. destruct Hsign as [->|[->| ->]]; cbn; eexists _, _; split_and!; try done; lia. }
  cbn [mbind outcome_bind]. apply str_at_app in Hs. change 0 with (u32 0) at 2.
  destruct Hsign as [->|[->| ->]]; cbn [app] in Hs; cbn [app] in *.
  - destruct Hs as (Hg & Hz & Hs). rewrite Hg. cbn [mbind outcome_bind].
    rewrite !bool_decide_eq_false_2 by lia. cbn [orb].
    by rewrite (atoi_loop_spec _ m _ 0 (d :: ds) rest) by (done || (cbn in *; lia)).
  - destruct Hs as (Hg & Hz & Hs). rewrite Hg. cbn [mbind outcome_bind].
    rewrite (atoi_loop_spec _ m _ 0 (d :: ds) rest) by (done || (cbn in *; lia)). done.
  - destruct Hs as (Hg & Hz & Hs). rewrite Hg. cbn [mbind outcome_bind].
    rewrite (atoi_loop_spec _ m _ 0 (d :: ds) rest) by (done || (cbn in *; lia)). done.
Qed.

End Libc.
