(* ===== verification/Printf.v ===== *)
(** * Formatted output: [lib/libc/__printf.c], [snprintf.c]

    [__vprintf] runs a state machine over the format string and hands the text
    to a client function; [snprintf] is the client that stores into a bounded
    buffer.  The client's data is a type [C], the client function a parameter.

    A format string is specified as a sequence of items, literal characters and
    directives [%<modifiers><conversion>]; [render] is the text it stands for.
    [vprintf_renders] says that the state machine sends exactly that text, for
    every client that appends; [snprintf_stores] instantiates it. *)

From S2P Require Import Prelude Libc.

Module Printf.
Import Libc.

(** ** Arguments

    A number is a machine word, read as the type the directive asks for; a
    string is NULL or the characters before the NUL. *)
Inductive arg : Type :=
  | ANum (n : Z)
  | AStr (s : option (list Z)).

Inductive argsize : Type := INTSZ | LONGSZ.

Definition NUMBER_BUF_SIZE : Z := (4 * 8) / 3 + 2.

Record PF (C : Type) : Type := mkPF {
  clientdata : C;
  ap : list arg;
  charcount : Z;
  in_pct : Z;
  size : argsize;
  num : Z;
  sign : Z;
  spacing : Z;
  rightspc : Z;
  fillchar : Z;
  base : Z;
  baseprefix : Z;
  altformat : Z
}.
Arguments mkPF {C}.
Arguments clientdata {C}.
Arguments ap {C}.
Arguments charcount {C}.
Arguments in_pct {C}.
Arguments size {C}.
Arguments num {C}.
Arguments sign {C}.
Arguments spacing {C}.
Arguments rightspc {C}.
Arguments fillchar {C}.
Arguments base {C}.
Arguments baseprefix {C}.
Arguments altformat {C}.

Section vprintf.
Context {C : Type} (sendfunc : C -> list Z -> outcome C).
Implicit Types pf : PF C.

Definition set_ap pf v := mkPF (clientdata pf) v (charcount pf) (in_pct pf) (size pf) (num pf) (sign pf) (spacing pf) (rightspc pf) (fillchar pf) (base pf) (baseprefix pf) (altformat pf).
Definition set_in_pct pf v := mkPF (clientdata pf) (ap pf) (charcount pf) v (size pf) (num pf) (sign pf) (spacing pf) (rightspc pf) (fillchar pf) (base pf) (baseprefix pf) (altformat pf).
Definition set_size pf v := mkPF (clientdata pf) (ap pf) (charcount pf) (in_pct pf) v (num pf) (sign pf) (spacing pf) (rightspc pf) (fillchar pf) (base pf) (baseprefix pf) (altformat pf).
Definition set_num pf v := mkPF (clientdata pf) (ap pf) (charcount pf) (in_pct pf) (size pf) v (sign pf) (spacing pf) (rightspc pf) (fillchar pf) (base pf) (baseprefix pf) (altformat pf).
Definition set_sign pf v := mkPF (clientdata pf) (ap pf) (charcount pf) (in_pct pf) (size pf) (num pf) v (spacing pf) (rightspc pf) (fillchar pf) (base pf) (baseprefix pf) (altformat pf).
Definition set_spacing pf v := mkPF (clientdata pf) (ap pf) (charcount pf) (in_pct pf) (size pf) (num pf) (sign pf) v (rightspc pf) (fillchar pf) (base pf) (baseprefix pf) (altformat pf).
Definition set_rightspc pf v := mkPF (clientdata pf) (ap pf) (charcount pf) (in_pct pf) (size pf) (num pf) (sign pf) (spacing pf) v (fillchar pf) (base pf) (baseprefix pf) (altformat pf).
Definition set_fillchar pf v := mkPF (clientdata pf) (ap pf) (charcount pf) (in_pct pf) (size pf) (num pf) (sign pf) (spacing pf) (rightspc pf) v (base pf) (baseprefix pf) (altformat pf).
Definition set_base pf v := mkPF (clientdata pf) (ap pf) (charcount pf) (in_pct pf) (size pf) (num pf) (sign pf) (spacing pf) (rightspc pf) (fillchar pf) v (baseprefix pf) (altformat pf).
Definition set_baseprefix pf v := mkPF (clientdata pf) (ap pf) (charcount pf) (in_pct pf) (size pf) (num pf) (sign pf) (spacing pf) (rightspc pf) (fillchar pf) (base pf) v (altformat pf).
Definition set_altformat pf v := mkPF (clientdata pf) (ap pf) (charcount pf) (in_pct pf) (size pf) (num pf) (sign pf) (spacing pf) (rightspc pf) (fillchar pf) (base pf) (baseprefix pf) v.

(** ** The state machine *)

(** The count is an [int] the length is added to. *)
Definition __pf_print pf (txt : list Z) : outcome (PF C) :=
  c ← sendfunc (clientdata pf) txt;
  Done (mkPF c (ap pf) (s32 (charcount pf + Z.of_nat (length txt))) (in_pct pf) (size pf) (num pf) (sign pf)
             (spacing pf) (rightspc pf) (fillchar pf) (base pf) (baseprefix pf) (altformat pf)).

Definition __pf_endfield pf : PF C :=
  mkPF (clientdata pf) (ap pf) (charcount pf) 0 INTSZ 0 0 0 0 32 0 0 0.

Definition __pf_modifier pf (ch : Z) : outcome (PF C) :=
  if bool_decide (ch = 35) then Done (set_altformat pf 1)
  else if bool_decide (ch = 45) then Done (set_rightspc pf 1)
  else if bool_decide (ch = 108) then
    match size pf with
    | LONGSZ => Done pf
    | INTSZ => Done (set_size pf LONGSZ)
    end
  else if bool_decide (ch = 113) then Done (set_size pf LONGSZ)
  else if bool_decide (ch = 48) then
    if bool_decide (spacing pf > 0) then
      spc ← int_op (spacing pf * 10);
      Done (set_spacing pf spc)
    else Done (set_fillchar pf 48)
  else
    assert! bool_decide (48 < ch <= 57);;
    spc ← int_op (spacing pf * 10);
    spc ← int_op (spc + (ch - 48));
    Done (set_spacing pf spc).

(** [va_arg]: an argument that is missing or of the other kind is undefined.
    [int], [long], their unsigned forms and pointers are one word each. *)
Definition va_num pf : outcome (Z * PF C) :=
  match ap pf with
  | ANum n :: rest => Done (n, set_ap pf rest)
  | _ => Stuck
  end.
Definition va_str pf : outcome (option (list Z) * PF C) :=
  match ap pf with
  | AStr s :: rest => Done (s, set_ap pf rest)
  | _ => Stuck
  end.

Definition __pf_getnum pf (ch : Z) : outcome (PF C) :=
  if bool_decide (ch = 112) then
    '(n, pf) ← va_num pf;
    Done (set_num pf (u32 n))
  else if bool_decide (ch = 100) then
    '(n, pf) ← va_num pf;
    let signednum := s32 n in
    if bool_decide (signednum < 0) then
      n ← int_op (- signednum);
      Done (set_num (set_sign pf (-1)) (u32 n))
    else Done (set_num pf (u32 signednum))
  else
    '(n, pf) ← va_num pf;
    Done (set_num pf (u32 n)).

Definition __pf_setbase pf (ch : Z) : PF C :=
  let pf :=
    if bool_decide (ch = 100 \/ ch = 117) then set_base pf 10
    else if bool_decide (ch = 120 \/ ch = 112) then set_base pf 16
    else if bool_decide (ch = 111) then set_base pf 8
    else pf in
  if bool_decide (altformat pf ≠ 0) || bool_decide (ch = 112) then set_baseprefix pf 1 else pf.

Fixpoint fill_loop (n : nat) (f : Z) pf : outcome (PF C) :=
  match n with
  | O => Done pf
  | S n => pf ← __pf_print pf [f]; fill_loop n f pf
  end.

Definition __pf_fill pf (spc : Z) : outcome (PF C) := fill_loop (Z.to_nat spc) (u8 (fillchar pf)) pf.

Definition __pf_printstuff pf (prefix prefix2 stuff : list Z) : outcome (PF C) :=
  let len := s32 (Z.of_nat (length prefix) + Z.of_nat (length prefix2) + Z.of_nat (length stuff)) in
  spc ← (if bool_decide (spacing pf > len) then int_op (spacing pf - len) else Done 0);
  pf ← (if bool_decide (spc > 0) && bool_decide (rightspc pf = 0) && bool_decide (fillchar pf ≠ 48)
        then __pf_fill pf spc else Done pf);
  pf ← __pf_print pf prefix;
  pf ← __pf_print pf prefix2;
  pf ← (if bool_decide (spc > 0) && bool_decide (rightspc pf = 0) && bool_decide (fillchar pf = 48)
        then __pf_fill pf spc else Done pf);
  pf ← __pf_print pf stuff;
  if bool_decide (spc > 0) && bool_decide (rightspc pf ≠ 0) then __pf_fill pf spc else Done pf.

(** [0123456789abcdef] *)
Definition hexdigits : list Z :=
  [48; 49; 50; 51; 52; 53; 54; 55; 56; 57; 97; 98; 99; 100; 101; 102; 0].

(** The do-while loop: the buffer and where [x] ends.  A 32-bit number has at
    most 32 digits. *)
Fixpoint digit_loop (fuel : nat) (buf : list Z) (x xnum b : Z) : outcome (list Z * Z) :=
  match fuel with
  | O => Stuck
  | S fuel =>
      if bool_decide (b = 0) then Stuck
      else
        d ← getZ hexdigits (xnum mod b);
        buf ← setZ buf x d;
        let xnum := xnum / b in
        if bool_decide (xnum > 0) then digit_loop fuel buf (x - 1) xnum b else Done (buf, x - 1)
  end.

(** The C string at [x]. *)
Definition c_str (buf : list Z) (x : Z) : outcome (list Z) :=
  n ← strlen buf x;
  Done (slice buf x n).

(** The buffer is not initialised; what is read of it was written before. *)
Definition __pf_printnum pf : outcome (PF C) :=
  let buf := zeros NUMBER_BUF_SIZE in
  let x := NUMBER_BUF_SIZE - 1 in
  buf ← setZ buf x 0;
  '(buf, x) ← digit_loop 32 buf (x - 1) (num pf) (base pf);
  let x := x + 1 in
  let bprefix :=
    if bool_decide (baseprefix pf ≠ 0) && bool_decide (base pf = 16) then [48; 120]
    else if bool_decide (baseprefix pf ≠ 0) && bool_decide (base pf = 8) then [48]
    else [] in
  let sprefix := if bool_decide (sign pf ≠ 0) then [45] else [] in
  stuff ← c_str buf x;
  __pf_printstuff pf sprefix bprefix stuff.

(** [strchr(lit, ch)] as a condition. *)
Definition in_set (lit : list Z) (ch : Z) : outcome bool :=
  w ← strchr (lit ++ [0]) 0 ch;
  Done (bool_decide (w ≠ None)).

(** [#-ql0123456789] and [doupx] *)
Definition modifiers : list Z := [35; 45; 113; 108; 48; 49; 50; 51; 52; 53; 54; 55; 56; 57].
Definition integer_types : list Z := [100; 111; 117; 112; 120].

(** [(null)] *)
Definition null_str : list Z := [40; 110; 117; 108; 108; 41].

Definition __pf_send pf (ch : Z) : outcome (PF C) :=
  assert! bool_decide (ch ≠ 0);;
  if bool_decide (in_pct pf = 0) && bool_decide (ch ≠ 37) then __pf_print pf [ch]
  else if bool_decide (in_pct pf = 0) then Done (set_in_pct pf 1)
  else
    is_modifier ← in_set modifiers ch;
    if is_modifier : bool then __pf_modifier pf ch
    else
      is_integer ← in_set integer_types ch;
      if is_integer : bool then
        pf ← __pf_getnum pf ch;
        let pf := __pf_setbase pf ch in
        pf ← __pf_printnum pf;
        Done (__pf_endfield pf)
      else if bool_decide (ch = 115) then
        '(str, pf) ← va_str pf;
        let str := match str with None => null_str | Some s => s end in
        pf ← __pf_printstuff pf [] [] str;
        Done (__pf_endfield pf)
      else
        '(c, pf) ← (if bool_decide (ch = 99) then '(n, pf) ← va_num pf; Done (u8 n, pf) else Done (ch, pf));
        x ← c_str [c; 0] 0;
        pf ← __pf_printstuff pf [] [] x;
        Done (__pf_endfield pf).

Fixpoint send_all pf (format : list Z) : outcome (PF C) :=
  match format with
  | [] => Done pf
  | ch :: format => pf ← __pf_send pf ch; send_all pf format
  end.

(** [format] is the characters before the NUL.  The result: the client's data
    and the count. *)
Definition __vprintf (c : C) (format : list Z) (args : list arg) : outcome (C * Z) :=
  let pf := __pf_endfield (mkPF c args 0 0 INTSZ 0 0 0 0 0 0 0 0) in
  pf ← send_all pf format;
  Done (clientdata pf, charcount pf).
End vprintf.

(** ** [snprintf.c] *)

Record SNP : Type := mkSNP { buf : list Z; buflen : Z; bufpos : Z }.

Fixpoint __snprintf_send (snp : SNP) (data : list Z) : outcome SNP :=
  match data with
  | [] => Done snp
  | c :: data =>
      snp ← (if bool_decide (bufpos snp < buflen snp) then
               b ← setZ (buf snp) (bufpos snp) c;
               Done (mkSNP b (buflen snp) (bufpos snp + 1))
             else Done snp);
      __snprintf_send snp data
  end.

Definition vsnprintf (b : list Z) (len : Z) (fmt : list Z) (args : list arg) : outcome (list Z * Z) :=
  let snp := mkSNP b (if bool_decide (len = 0) then 0 else len - 1) 0 in
  '(snp, chars) ← __vprintf __snprintf_send snp fmt args;
  b ← (if bool_decide (len > 0) then setZ (buf snp) (bufpos snp) 0 else Done (buf snp));
  Done (b, chars).

Definition snprintf (b : list Z) (len : Z) (fmt : list Z) (args : list arg) : outcome (list Z * Z) :=
  vsnprintf b len fmt args.

(** ** What a format string stands for *)

(** The digits of [n] in base [b], most significant first; [n < 2^32]. *)
Fixpoint numeral_fuel (fuel : nat) (b n : Z) : list Z :=
  match fuel with
  | O => []
  | S fuel => if bool_decide (n < b) then [n] else numeral_fuel fuel b (n / b) ++ [n mod b]
  end.
Definition numeral (b n : Z) : list Z := numeral_fuel 32 b n.
Definition digit_char (d : Z) : Z := if bool_decide (d < 10) then 48 + d else 87 + d.

(** The field width and the padding a sequence of modifiers asks for: the
    digits among them are the width; zeros pad when the first of them is 0. *)
Definition width_digits (ms : list Z) : list Z := filter (fun c => 48 <= c <= 57) ms.
Definition width (ms : list Z) : Z := dec_from 0 (width_digits ms).
Definition zero_fill (ms : list Z) : bool := bool_decide (head (width_digits ms) = Some 48).

Definition field (ms prefix body : list Z) : list Z :=
  let pad := replicate (Z.to_nat (width ms - Z.of_nat (length prefix + length body)))
                       (if zero_fill ms then 48 else 32) in
  if bool_decide (45 ∈ ms) then prefix ++ body ++ pad
  else if zero_fill ms then prefix ++ pad ++ body
  else pad ++ prefix ++ body.

Definition conv_base (conv : Z) : Z :=
  if bool_decide (conv = 111) then 8 else if bool_decide (conv = 120 \/ conv = 112) then 16 else 10.

(** [0x] and [0] for the alternate format and for pointers. *)
Definition base_prefix (ms : list Z) (conv : Z) : list Z :=
  if bool_decide (35 ∈ ms) || bool_decide (conv = 112) then
    if bool_decide (conv_base conv = 16) then [48; 120]
    else if bool_decide (conv_base conv = 8) then [48] else []
  else [].

(** The text of a directive and the arguments left, [None] when the argument
    is missing or of the wrong kind or the directive is not defined: a width
    or a string longer than an [int], and [%d] of the least integer. *)
Definition directive_text (ms : list Z) (conv : Z) (args : list arg) : option (list Z * list arg) :=
  if bool_decide (width ms <= INT_MAX) then
    if bool_decide (conv ∈ integer_types) then
      match args with
      | ANum n :: args =>
          let v := if bool_decide (conv = 100) then s32 n else u32 n in
          if bool_decide (v = INT_MIN) then None
          else
            let sgn := if bool_decide (v < 0) then [45] else [] in
            Some (field ms (sgn ++ base_prefix ms conv) (digit_char <$> numeral (conv_base conv) (Z.abs v)), args)
      | _ => None
      end
    else if bool_decide (conv = 115) then
      match args with
      | AStr s :: args =>
          let s := default null_str s in
          if bool_decide (Z.of_nat (length s) <= INT_MAX) then Some (field ms [] s, args) else None
      | _ => None
      end
    else if bool_decide (conv = 99) then
      match args with
      | ANum n :: args => Some (field ms [] (if bool_decide (u8 n = 0) then [] else [u8 n]), args)
      | _ => None
      end
    else Some (field ms [] [conv], args)
  else None.

Inductive item : Type :=
  | Lit (c : Z)
  | Dir (ms : list Z) (conv : Z).

Definition item_ok (i : item) : Prop :=
  match i with
  | Lit c => c ≠ 0 /\ c ≠ 37
  | Dir ms conv => Forall (fun c : Z => c ∈ modifiers) ms /\ (conv ∉ modifiers) /\ conv ≠ 0
  end.

Definition item_str (i : item) : list Z :=
  match i with
  | Lit c => [c]
  | Dir ms conv => 37 :: ms ++ [conv]
  end.

Definition format_of (items : list item) : list Z := concat (item_str <$> items).

Fixpoint render (items : list item) (args : list arg) : option (list Z) :=
  match items with
  | [] => Some []
  | Lit c :: items => cons c <$> render items args
  | Dir ms conv :: items =>
      '(t, args) ← directive_text ms conv args;
      app t <$> render items args
  end.

(** ** Clients that append

    [out c t] is the client's data after the text [t] was sent to it. *)
Class Sink {C : Type} (send : C -> list Z -> outcome C) (ok : C -> Prop) (out : C -> list Z -> C) : Prop := {
  sink_send c t : ok c -> send c t = Done (out c t);
  sink_ok c t : ok c -> ok (out c t);
  sink_nil c : ok c -> out c [] = c;
  sink_app c t t' : ok c -> out (out c t) t' = out c (t ++ t')
}.

(** ** Numerals *)

Definition value (b : Z) (ds : list Z) : Z := fold_left (fun v d => v * b + d) ds 0.

Lemma value_snoc b ds d : value b (ds ++ [d]) = value b ds * b + d.
Proof. unfold value. by rewrite fold_left_app. Qed.

Section numerals.
Context (b : Z) (Hb : 2 <= b).

Lemma numeral_fuel_spec fuel n k :
  0 <= n < b ^ Z.of_nat fuel -> (0 < fuel)%nat -> n < b ^ Z.of_nat k -> (0 < k)%nat ->
  value b (numeral_fuel fuel b n) = n /\ Forall (fun d => 0 <= d < b) (numeral_fuel fuel b n) /\
  (0 < length (numeral_fuel fuel b n) <= k)%nat.
Proof.
  revert n k. induction fuel as [|fuel IH]; intros n k Hn Hf Hk Hk0; [lia|]. cbn [numeral_fuel].
  destruct (bool_decide_reflect (n < b)).
  { unfold value. cbn. split_and!; [lia|repeat constructor; lia|lia..]. }
  rewrite Nat2Z.inj_succ, Z.pow_succ_r in Hn by lia.
  destruct k as [|[|k]]; [lia|rewrite Z.pow_1_r in Hk; lia|].
  rewrite Nat2Z.inj_succ, Z.pow_succ_r in Hk by lia.
  assert (0 < fuel)%nat by (destruct fuel; [rewrite Z.pow_0_r in Hn|]; lia).
  destruct (IH (n / b) (S k)) as (Hv & Hd & Hl).
  - split; [apply Z.div_pos; lia|apply Z.div_lt_upper_bound; lia].
  - done.
  - apply Z.div_lt_upper_bound; lia.
  - lia.
  - rewrite value_snoc, Hv, length_app, Forall_app. split_and!; [|done| |cbn; lia..].
    + pose proof (Z.div_mod n b). lia.
    + repeat constructor; apply Z.mod_pos_bound; lia.
Qed.

Lemma numeral_spec n :
  0 <= n < 2 ^ 32 ->
  value b (numeral b n) = n /\ Forall (fun d => 0 <= d < b) (numeral b n).
Proof.
  intros Hn. destruct (numeral_fuel_spec 32 n 32) as (? & ? & _); [|lia| |lia|done].
  - split; [lia|]. eapply Z.lt_le_trans; [apply Hn|]. apply Z.pow_le_mono_l. lia.
  - eapply Z.lt_le_trans; [apply Hn|]. apply Z.pow_le_mono_l. lia.
Qed.
End numerals.

(** A 32-bit number has at most 11 digits in the bases used: it fits the
    buffer with its NUL. *)
Lemma numeral_length b n : 8 <= b -> 0 <= n < 2 ^ 32 -> (0 < length (numeral b n) <= 11)%nat.
Proof.
  intros Hb Hn. apply (numeral_fuel_spec b ltac:(lia) 32 n 11); [|lia| |lia].
  - split; [lia|]. eapply Z.lt_le_trans; [apply Hn|]. apply Z.pow_le_mono_l. lia.
  - eapply Z.lt_le_trans; [apply Hn|]. transitivity (8 ^ 11); [done|]. apply Z.pow_le_mono_l. lia.
Qed.

Lemma numeral_fuel_S fuel b n :
  numeral_fuel (S fuel) b n = if bool_decide (n < b) then [n] else numeral_fuel fuel b (n / b) ++ [n mod b].
Proof. done. Qed.

Lemma hexdigit d : 0 <= d < 16 -> getZ hexdigits d = Done (digit_char d).
Proof.
  intros Hd. assert (d ∈ seqZ 0 16) as Hin by (apply elem_of_seqZ; lia). revert d Hd Hin.
  assert (Forall (fun d => getZ hexdigits d = Done (digit_char d)) (seqZ 0 16)) as H by (by repeat constructor).
  intros d _. by apply (proj1 (Forall_forall _ _) H).
Qed.

Lemma setZ_last (pre tail : list Z) y d :
  setZ ((pre ++ [y]) ++ tail) (Z.of_nat (length pre)) d = Done (pre ++ d :: tail).
Proof.
  rewrite setZ_ok by (rewrite !length_app; cbn; lia).
  rewrite Nat2Z.id, <- app_assoc. by rewrite insert_app_r_alt, Nat.sub_diag by done.
Qed.

(** The loop writes the numeral before what is already in the buffer. *)
Lemma digit_loop_spec fuel b n pre tail :
  2 <= b <= 16 -> 0 <= n < b ^ Z.of_nat fuel -> (0 < fuel)%nat ->
  let ds := numeral_fuel fuel b n in (length ds <= length pre)%nat ->
  digit_loop fuel (pre ++ tail) (Z.of_nat (length pre) - 1) n b =
  Done (take (length pre - length ds) pre ++ (digit_char <$> ds) ++ tail,
        Z.of_nat (length pre) - 1 - Z.of_nat (length ds)).
Proof.
  intros Hb. revert n pre tail. induction fuel as [|fuel IH]; intros n pre tail Hn Hf ds Hl; [lia|]. subst ds.
  rewrite Nat2Z.inj_succ, Z.pow_succ_r in Hn by lia.
  rewrite numeral_fuel_S in *. destruct pre as [|y pre _] using rev_ind.
  { destruct (bool_decide_reflect (n < b)); [|rewrite length_app in Hl]; cbn in Hl; lia. }
  rewrite length_app. cbn [length digit_loop]. rewrite bool_decide_eq_false_2 by lia.
  replace (Z.of_nat (length pre + 1) - 1) with (Z.of_nat (length pre)) by lia.
  pose proof (Z.mod_pos_bound n b ltac:(lia)) as Hm. rewrite hexdigit by lia. cbn [mbind outcome_bind].
  rewrite setZ_last. cbn [mbind outcome_bind].
  destruct (bool_decide_reflect (n < b)) as [Hlt|Hge].
  - rewrite Z.div_small, Z.mod_small by lia. rewrite bool_decide_eq_false_2 by lia. cbn [length fmap list_fmap].
    do 2 f_equal. rewrite Nat.add_sub, take_app_length. done.
  - assert (0 < n / b) by (apply Z.div_str_pos; lia). rewrite bool_decide_eq_true_2 by lia.
    rewrite !length_app in Hl. cbn in Hl.
    assert (0 < fuel)%nat by (destruct fuel; [rewrite Z.pow_0_r in Hn|]; lia).
    rewrite IH; [|split; [lia|apply Z.div_lt_upper_bound; lia]|done|lia].
    rewrite fmap_app, length_app, <- (app_assoc (digit_char <$> _)). cbn [length fmap list_fmap app].
    rewrite take_app_le by lia. do 2 f_equal; [|lia]. do 2 f_equal. lia.
Qed.

Lemma c_str_spec m a t : str_at m a t -> c_str m a = Done t.
Proof.
  intros H. unfold c_str. rewrite (strlen_spec _ _ _ H). cbn [mbind outcome_bind]. f_equal.
  apply str_at_range in H as Hr. apply list_eq. intros i. unfold slice.
  destruct (decide (i < length t)%nat) as [Hi|Hi].
  - rewrite lookup_take_lt, lookup_drop by lia. destruct (lookup_lt_is_Some_2 t i Hi) as [c Hc]. rewrite Hc.
    destruct (getZ_Done _ _ _ (str_at_lookup _ _ _ _ _ H Hc)) as [_ Hg]. rewrite <- Hg. f_equal. lia.
  - rewrite lookup_take_ge, lookup_ge_None_2; [done|lia..].
Qed.

Lemma str_at_app_intro pre t post :
  Forall (fun c => c ≠ 0) t -> str_at (pre ++ t ++ 0 :: post) (Z.of_nat (length pre)) t.
Proof.
  intros Ht. apply str_at_intro; [done|]. intros i c Hi. apply getZ_ok; [lia|].
  rewrite lookup_app_r by lia. rewrite (cons_middle 0 t post), app_assoc, lookup_app_l.
  - rewrite <- Hi. f_equal. lia.
  - apply lookup_lt_Some in Hi. lia.
Qed.

Lemma digit_char_nonzero b ds : b <= 16 -> Forall (fun d => 0 <= d < b) ds -> Forall (fun c => c ≠ 0) (digit_char <$> ds).
Proof.
  intros Hb H. apply Forall_fmap. eapply Forall_impl; [exact H|]. intros d Hd. cbn in *. unfold digit_char.
  case_bool_decide; lia.
Qed.

(** The buffer is long enough, and the string found in it is the numeral. *)
Lemma printnum_digits b n :
  8 <= b <= 16 -> 0 <= n < 2 ^ 32 ->
  exists buf0 buf1 x, setZ (zeros NUMBER_BUF_SIZE) (NUMBER_BUF_SIZE - 1) 0 = Done buf0 /\
  digit_loop 32 buf0 (NUMBER_BUF_SIZE - 1 - 1) n b = Done (buf1, x) /\
  c_str buf1 (x + 1) = Done (digit_char <$> numeral b n).
Proof.
  intros Hb Hn. pose proof (numeral_length b n ltac:(lia) Hn) as Hl.
  destruct (numeral_spec b ltac:(lia) n Hn) as [_ Hd].
  exists (zeros 11 ++ [0]). rewrite setZ_ok by done.
  pose proof (digit_loop_spec 32 b n (zeros 11) [0] ltac:(lia)) as Hloop.
  do 2 eexists. split_and!; [done|apply Hloop; [|lia|apply Hl]|].
  - split; [lia|]. eapply Z.lt_le_trans; [apply Hn|]. apply Z.pow_le_mono_l. lia.
  - apply c_str_spec. fold (numeral b n). change (length (zeros 11)) with 11%nat.
    set (pre := take _ _). replace (_ + 1) with (Z.of_nat (length pre)).
    + apply str_at_app_intro. by apply (digit_char_nonzero b); [lia|].
    + subst pre. rewrite length_take. change (length (zeros 11)) with 11%nat. lia.
Qed.

(** ** Modifiers *)

Lemma width_digits_snoc ms c :
  width_digits (ms ++ [c]) = width_digits ms ++ (if decide (48 <= c <= 57) then [c] else []).
Proof. unfold width_digits. rewrite filter_app. by rewrite filter_cons, filter_nil. Qed.

Lemma dec_from_snoc v ds c : dec_from v (ds ++ [c]) = dec_from v ds * 10 + (c - 48).
Proof. unfold dec_from. by rewrite fold_left_app. Qed.

Lemma dec_from_ge v ds : 0 <= v -> Forall (fun c => 48 <= c <= 57) ds -> v <= dec_from v ds.
Proof.
  intros Hv Hds. revert v Hv. induction Hds as [|c ds Hc Hds IH]; intros v Hv; cbn; [lia|].
  transitivity (v * 10 + (c - 48)); [lia|]. apply IH. lia.
Qed.

Lemma width_digits_digits ms : Forall (fun c => 48 <= c <= 57) (width_digits ms).
Proof. apply Forall_forall. intros c. unfold width_digits. rewrite list_elem_of_filter. by intros []. Qed.

Lemma width_nonneg ms : 0 <= width ms.
Proof. apply dec_from_ge; [done|apply width_digits_digits]. Qed.

Lemma width_snoc ms c :
  width (ms ++ [c]) = if decide (48 <= c <= 57) then width ms * 10 + (c - 48) else width ms.
Proof.
  unfold width. rewrite width_digits_snoc. case_decide; [apply dec_from_snoc|by rewrite app_nil_r].
Qed.

Lemma width_app_le ms ms' : width ms <= width (ms ++ ms').
Proof.
  revert ms. induction ms' as [|c ms' IH]; intros ms; [by rewrite app_nil_r|].
  transitivity (width (ms ++ [c])); [|rewrite (cons_middle c ms ms'), app_assoc; apply IH].
  rewrite width_snoc. pose proof (width_nonneg ms). case_decide; lia.
Qed.

(** The first digit decides the padding. *)
Lemma zero_fill_snoc ms c :
  zero_fill (ms ++ [c]) = if decide (c = 48 /\ width ms = 0) then true else zero_fill ms.
Proof.
  unfold zero_fill, width. rewrite width_digits_snoc. pose proof (width_digits_digits ms) as Hd.
  destruct (width_digits ms) as [|d ds]; cbn [head app].
  - destruct (decide (c = 48)) as [->|Hc]; [done|]. rewrite (decide_False (P := c = 48 /\ _)) by tauto.
    case_decide; cbn; [apply bool_decide_eq_false_2; congruence|done].
  - case_decide as Hw; [|done]. destruct Hw as [_ Hw]. apply bool_decide_eq_true_2. f_equal.
    change (dec_from (d - 48) ds = 0) in Hw. apply Forall_cons in Hd as [Hd0 Hd]. cbn beta in Hd0.
    pose proof (dec_from_ge (d - 48) ds ltac:(lia) Hd). lia.
Qed.

Lemma in_set_spec lit ch :
  Forall (fun c => c ≠ 0) lit -> ch ≠ 0 -> in_set lit ch = Done (bool_decide (ch ∈ lit)).
Proof.
  intros Hl Hch. unfold in_set.
  rewrite (strchr_spec (lit ++ [0]) 0 lit) by (done || apply (str_at_app_intro [] lit []); done).
  cbn [mbind outcome_bind]. f_equal. apply bool_decide_ext. rewrite fmap_None, index_of_None.
  split; [apply dec_stable|by intros ? []].
Qed.

Lemma modifier_cases c :
  c ∈ modifiers -> c = 35 \/ c = 45 \/ c = 113 \/ c = 108 \/ 48 <= c <= 57.
Proof. unfold modifiers. rewrite !elem_of_cons, elem_of_nil. lia. Qed.

Lemma modifiers_nonzero : Forall (fun c => c ≠ 0) modifiers.
Proof. by repeat constructor. Qed.
Lemma integer_types_nonzero : Forall (fun c => c ≠ 0) integer_types.
Proof. by repeat constructor. Qed.

(** ** The machine on a client that appends *)

Lemma s32_add a b : s32 (s32 a + b) = s32 (a + b).
Proof.
  unfold s32. replace ((a + 2147483648) mod 4294967296 - 2147483648 + b + 2147483648)
    with ((a + 2147483648) mod 4294967296 + b) by lia.
  rewrite Zplus_mod_idemp_l. by replace (a + 2147483648 + b) with (a + b + 2147483648) by lia.
Qed.

Lemma s32_idem a : s32 (s32 a) = s32 a.
Proof. pose proof (s32_add a 0) as H. by rewrite !Z.add_0_r in H. Qed.

Section machine.
Context {C : Type} (send : C -> list Z -> outcome C) (ok : C -> Prop) (out : C -> list Z -> C).
Context {HS : Sink send ok out}.
Implicit Types pf : PF C.

Definition emit pf (t : list Z) : PF C :=
  mkPF (out (clientdata pf) t) (ap pf) (s32 (charcount pf + Z.of_nat (length t))) (in_pct pf) (size pf)
       (num pf) (sign pf) (spacing pf) (rightspc pf) (fillchar pf) (base pf) (baseprefix pf) (altformat pf).

Definition pf_ok pf : Prop := ok (clientdata pf) /\ s32 (charcount pf) = charcount pf.

Lemma pf_ok_emit pf t : pf_ok pf -> pf_ok (emit pf t).
Proof. intros [H1 H2]. split; [cbn; by apply (sink_ok (send := send))|apply s32_idem]. Qed.

Lemma emit_nil pf : pf_ok pf -> emit pf [] = pf.
Proof. intros [H1 H2]. destruct pf; unfold emit; cbn in *. by rewrite sink_nil, Z.add_0_r, H2. Qed.

Lemma emit_app pf t t' : pf_ok pf -> emit (emit pf t) t' = emit pf (t ++ t').
Proof.
  intros [H1 H2]. unfold emit; cbn. rewrite sink_app by done. f_equal. rewrite s32_add, length_app. f_equal. lia.
Qed.

Lemma print_spec pf t : pf_ok pf -> __pf_print send pf t = Done (emit pf t).
Proof. intros [H1 H2]. unfold __pf_print. by rewrite sink_send. Qed.

Lemma fill_loop_spec n f pf : pf_ok pf -> fill_loop send n f pf = Done (emit pf (replicate n f)).
Proof.
  revert pf. induction n as [|n IH]; intros pf Hpf; cbn [fill_loop replicate]; [by rewrite emit_nil|].
  rewrite print_spec by done. cbn [mbind outcome_bind]. rewrite IH by by apply pf_ok_emit. by rewrite emit_app.
Qed.

(** The layout the modifiers ask for, as the machine records it. *)
Definition layout (ms : list Z) pf : Prop :=
  spacing pf = width ms /\ rightspc pf = (if bool_decide (45 ∈ ms) then 1 else 0) /\
  fillchar pf = (if zero_fill ms then 48 else 32).

Lemma printstuff_spec ms pf p1 p2 body :
  pf_ok pf -> layout ms pf -> width ms <= INT_MAX ->
  Z.of_nat (length p1 + length p2 + length body) <= INT_MAX ->
  __pf_printstuff send pf p1 p2 body = Done (emit pf (field ms (p1 ++ p2) body)).
Proof.
  intros Hpf (Hs & Hr & Hf) Hw Hl. unfold __pf_printstuff, field. pose proof (width_nonneg ms) as Hw0.
  unfold INT_MAX in *. rewrite s32_small by (unfold INT_MIN, INT_MAX; lia). rewrite Hs, Hr, Hf, length_app.
  remember (width ms - Z.of_nat (length p1 + length p2 + length body)) as n eqn:En.
  assert (Hspc : (if bool_decide (width ms > Z.of_nat (length p1) + Z.of_nat (length p2) + Z.of_nat (length body))
    then int_op (width ms - (Z.of_nat (length p1) + Z.of_nat (length p2) + Z.of_nat (length body))) else Done 0)
    = Done (Z.max n 0)).
  { clear Hr. case_bool_decide; [rewrite int_op_ok by (unfold INT_MIN, INT_MAX; lia)|]; f_equal; lia. }
  rewrite Hspc. cbn [mbind outcome_bind]. unfold __pf_fill.
  replace (Z.to_nat (Z.max n 0)) with (Z.to_nat n) by lia.
  assert (Hz : ~ Z.max n 0 > 0 -> Z.to_nat n = 0%nat) by lia.
  destruct (bool_decide_reflect (45 ∈ ms)), (zero_fill ms), (bool_decide_reflect (Z.max n 0 > 0)) as [?|Hn];
    cbn [negb andb bool_decide]; try (rewrite (Hz Hn); cbn [replicate]).
  all: repeat first
    [ progress change (bool_decide (48 ≠ 48)) with false
    | rewrite (bool_decide_eq_true_2 _) by done | rewrite (bool_decide_eq_false_2 _) by done
    | rewrite print_spec by (repeat apply pf_ok_emit; done)
    | rewrite fill_loop_spec by (repeat apply pf_ok_emit; done)
    | rewrite Hr | rewrite Hf | rewrite emit_app by (repeat apply pf_ok_emit; done)
    | progress cbn [mbind outcome_bind emit rightspc fillchar andb u8] ].
  all: rewrite ?app_nil_r, <- ?app_assoc; done.
Qed.

(** Between directives, and after [%] and the modifiers [ms]. *)
Definition idle (c : C) (args : list arg) (n : Z) : PF C := mkPF c args n 0 INTSZ 0 0 0 0 32 0 0 0.

Record in_dir (c : C) (args : list arg) (n : Z) (ms : list Z) pf : Prop := {
  id_client : clientdata pf = c;
  id_ap : ap pf = args;
  id_count : charcount pf = n;
  id_pct : in_pct pf = 1;
  id_sign : sign pf = 0;
  id_prefix : baseprefix pf = 0;
  id_alt : altformat pf = if bool_decide (35 ∈ ms) then 1 else 0;
  id_layout : layout ms pf
}.

Lemma send_lit c args n ch :
  pf_ok (idle c args n) -> ch ≠ 0 -> ch ≠ 37 ->
  __pf_send send (idle c args n) ch = Done (idle (out c [ch]) args (s32 (n + 1))).
Proof.
  intros Hok H0 H37. unfold __pf_send. rewrite (bool_decide_eq_true_2 (ch ≠ 0)) by done.
  cbn [kassert mbind outcome_bind]. rewrite (bool_decide_eq_true_2 (ch ≠ 37)) by done.
  cbn [idle in_pct andb bool_decide]. by rewrite print_spec.
Qed.

Lemma send_pct c args n : exists pf, __pf_send send (idle c args n) 37 = Done pf /\ in_dir c args n [] pf.
Proof. eexists. split; [done|]. by repeat split. Qed.

Lemma not_in_snoc (x c : Z) ms : x ≠ c -> bool_decide (x ∈ ms ++ [c]) = bool_decide (x ∈ ms).
Proof. intros Hx. apply bool_decide_ext. rewrite elem_of_app, list_elem_of_singleton. tauto. Qed.
Lemma in_snoc (c : Z) ms : bool_decide (c ∈ ms ++ [c]) = true.
Proof. apply bool_decide_eq_true_2. rewrite elem_of_app, list_elem_of_singleton. tauto. Qed.

Ltac in_dir_tac :=
  constructor; cbn; rewrite ?in_snoc, ?not_in_snoc by lia; try done;
  unfold layout; cbn; rewrite width_snoc, zero_fill_snoc, ?in_snoc, ?not_in_snoc by lia;
  repeat case_decide; split_and!; try done; lia.

Lemma modifier_spec c args n ms pf m :
  in_dir c args n ms pf -> m ∈ modifiers -> width (ms ++ [m]) <= INT_MAX ->
  exists pf', __pf_modifier pf m = Done pf' /\ in_dir c args n (ms ++ [m]) pf'.
Proof.
  intros [Hc Ha Hn Hp Hs Hpre Halt (Hw & Hr & Hf)] Hm Hmax. pose proof (width_nonneg ms) as Hw0.
  rewrite width_snoc in Hmax. unfold __pf_modifier.
  apply modifier_cases in Hm as [->|[->|[->|[->|Hm]]]].
  - eexists. split; [done|]. in_dir_tac.
  - eexists. split; [done|]. in_dir_tac.
  - eexists. split; [done|]. in_dir_tac.
  - cbn. destruct (size pf); eexists; (split; [done|]); in_dir_tac.
  - rewrite decide_True in Hmax by done. rewrite Hw, !(bool_decide_eq_false_2 (m = _)) by lia.
    destruct (bool_decide_reflect (m = 48)) as [->|Hm48];
      [destruct (bool_decide_reflect (width ms > 0)) as [Hpos|Hpos]|].
    + rewrite int_op_ok by (unfold INT_MIN, INT_MAX in *; lia). cbn [mbind outcome_bind].
      eexists. split; [done|]. in_dir_tac.
    + eexists. split; [done|]. in_dir_tac.
    + rewrite bool_decide_eq_true_2 by lia. cbn [kassert mbind outcome_bind].
      rewrite int_op_ok by (unfold INT_MIN, INT_MAX in *; lia). cbn [mbind outcome_bind].
      rewrite int_op_ok by (unfold INT_MIN, INT_MAX in *; lia). cbn [mbind outcome_bind].
      eexists. split; [done|]. in_dir_tac.
Qed.

Lemma send_in_dir c args n ms pf ch :
  in_dir c args n ms pf -> ch ≠ 0 -> ch ∈ modifiers -> __pf_send send pf ch = __pf_modifier pf ch.
Proof.
  intros Hd H0 Hm. unfold __pf_send. rewrite (bool_decide_eq_true_2 (ch ≠ 0)) by done.
  cbn [kassert mbind outcome_bind]. rewrite (id_pct _ _ _ _ _ Hd).
  change (bool_decide (1 = 0)) with false. cbn [andb].
  rewrite (in_set_spec modifiers ch modifiers_nonzero) by done. cbn [mbind outcome_bind].
  by rewrite bool_decide_eq_true_2.
Qed.

Lemma send_modifiers c args n ms pf ms' rest :
  in_dir c args n ms pf -> Forall (fun m => m ∈ modifiers) ms' -> width (ms ++ ms') <= INT_MAX ->
  exists pf', send_all send pf (ms' ++ rest) = send_all send pf' rest /\ in_dir c args n (ms ++ ms') pf'.
Proof.
  intros Hd Hms. revert ms pf Hd. induction Hms as [|m ms' Hm Hms IH]; intros ms pf Hd Hw.
  { exists pf. by rewrite app_nil_r. }
  rewrite cons_middle, app_assoc in Hw |- *.
  destruct (modifier_spec c args n ms pf m) as (pf' & Hpf' & Hd'); [done..| |].
  { etransitivity; [apply width_app_le|done]. }
  destruct (IH _ _ Hd' Hw) as (pf'' & Hs & Hd''). exists pf''. split; [|done].
  cbn [app send_all]. rewrite (send_in_dir c args n ms), Hpf'; try done.
  pose proof modifiers_nonzero as Hz. rewrite Forall_forall in Hz. auto.
Qed.

(** A number goes through the buffer. *)
Lemma printnum_spec ms pf sgn pre :
  pf_ok pf -> layout ms pf -> width ms <= INT_MAX -> 8 <= base pf <= 16 -> 0 <= num pf < 2 ^ 32 ->
  (if bool_decide (sign pf ≠ 0) then [45] else []) = sgn ->
  (if bool_decide (baseprefix pf ≠ 0) && bool_decide (base pf = 16) then [48; 120]
   else if bool_decide (baseprefix pf ≠ 0) && bool_decide (base pf = 8) then [48] else []) = pre ->
  __pf_printnum send pf = Done (emit pf (field ms (sgn ++ pre) (digit_char <$> numeral (base pf) (num pf)))).
Proof.
  intros Hpf Hlay Hw Hb Hn Hsgn Hpre. unfold __pf_printnum.
  destruct (printnum_digits (base pf) (num pf) Hb Hn) as (b0 & b1 & x & -> & H1 & H2).
  cbn [mbind outcome_bind]. rewrite H1. cbn [mbind outcome_bind]. rewrite H2. cbn [mbind outcome_bind].
  rewrite Hsgn, Hpre. apply printstuff_spec; [done..|].
  pose proof (numeral_length (base pf) (num pf) ltac:(lia) Hn). rewrite length_fmap.
  assert (length sgn <= 1)%nat by (subst; by case_bool_decide; cbn; lia).
  assert (length pre <= 2)%nat by (subst; by repeat case_bool_decide; cbn; lia).
  unfold INT_MAX. lia.
Qed.

(** What [__pf_getnum] leaves for the integer conversions. *)
Lemma getnum_spec pf conv k rest :
  conv ∈ integer_types -> ap pf = ANum k :: rest -> sign pf = 0 ->
  let v := if bool_decide (conv = 100) then s32 k else u32 k in v ≠ INT_MIN ->
  __pf_getnum pf conv = Done (set_num (set_sign (set_ap pf rest) (if bool_decide (v < 0) then -1 else 0)) (Z.abs v)).
Proof.
  intros Hc Ha Hs v Hv. unfold __pf_getnum, va_num. rewrite Ha. cbn [mbind outcome_bind].
  assert (Hu : forall k, (bool_decide (u32 k < 0) = false) /\ Z.abs (u32 k) = u32 k).
  { intros k'. pose proof (u32_range k'). split; [by apply bool_decide_eq_false_2; lia|lia]. }
  assert (Hss : set_sign (set_ap pf rest) 0 = set_ap pf rest) by (unfold set_sign, set_ap; cbn; by rewrite Hs).
  assert (Hr : - 2 ^ 31 <= s32 k < 2 ^ 31) by (unfold s32; pose proof (Z.mod_pos_bound (k + 2147483648) 4294967296); lia).
  subst v. destruct (bool_decide_reflect (conv = 112)) as [->|Hp];
    [cbn [bool_decide]|destruct (bool_decide_reflect (conv = 100)) as [->|Hd]].
  - change (bool_decide (112 = 100)) with false. cbn [bool_decide]. by rewrite (proj1 (Hu k)), (proj2 (Hu k)), Hss.
  - unfold INT_MIN in Hv. case_bool_decide.
    + rewrite int_op_ok by (unfold INT_MIN, INT_MAX; lia). cbn [mbind outcome_bind].
      rewrite u32_small by lia. by rewrite Z.abs_neq by lia.
    + rewrite Hss, u32_small, Z.abs_eq by lia. done.
  - by rewrite (proj1 (Hu k)), (proj2 (Hu k)), Hss.
Qed.

Lemma setbase_spec pf conv :
  conv ∈ integer_types -> baseprefix pf = 0 ->
  __pf_setbase pf conv =
  set_baseprefix (set_base pf (conv_base conv))
    (if bool_decide (altformat pf ≠ 0) || bool_decide (conv = 112) then 1 else 0).
Proof.
  intros Hc Hp. unfold __pf_setbase. replace (if bool_decide (conv = 100 \/ conv = 117) then _ else _)
    with (set_base pf (conv_base conv)).
  - cbn [set_base altformat]. destruct (_ || _); [done|]. unfold set_baseprefix, set_base; cbn. by rewrite Hp.
  - unfold integer_types in Hc. rewrite !elem_of_cons, elem_of_nil in Hc.
    by destruct Hc as [->|[->|[->|[->|[->|[]]]]]].
Qed.

Lemma conv_base_range conv : 8 <= conv_base conv <= 16.
Proof. unfold conv_base. repeat case_bool_decide; lia. Qed.

Lemma s32_range k : INT_MIN <= s32 k <= INT_MAX.
Proof. unfold s32, INT_MIN, INT_MAX. pose proof (Z.mod_pos_bound (k + 2147483648) 4294967296). lia. Qed.

Lemma send_integer c args n ms pf conv t rest :
  in_dir c args n ms pf -> pf_ok pf -> conv ∈ integer_types -> directive_text ms conv args = Some (t, rest) ->
  exists pf', (pf ← __pf_getnum pf conv; __pf_printnum send (__pf_setbase pf conv)) = Done pf' /\
  __pf_endfield pf' = idle (out c t) rest (s32 (n + Z.of_nat (length t))).
Proof.
  intros Hd [Hok Hcnt] Hc Ht. unfold directive_text in Ht.
  case_bool_decide as Hw; [|done]. rewrite bool_decide_eq_true_2 in Ht by done.
  destruct args as [|[k|] args]; try done.
  set (v := if bool_decide (conv = 100) then s32 k else u32 k) in *. cbv zeta in Ht.
  destruct (bool_decide_reflect (v = INT_MIN)) as [|Hv]; [done|]. injection Ht as <- <-.
  assert (Hvr : INT_MIN <= v < 2 ^ 32).
  { subst v. pose proof (s32_range k). pose proof (u32_range k). unfold INT_MIN, INT_MAX in *. case_bool_decide; lia. }
  destruct Hd as [Hcl Ha Hn Hp Hs Hpre Halt Hlay].
  rewrite (getnum_spec _ _ k args) by done. fold v. cbn [mbind outcome_bind].
  rewrite setbase_spec by done.
  eexists. split.
  - apply (printnum_spec ms); cbn [set_num set_sign set_ap set_base set_baseprefix base num sign baseprefix];
      [done|done|done|apply conv_base_range|unfold INT_MIN in *; lia|done|done].
  - unfold __pf_endfield, emit, idle; cbn. rewrite Hcl, Hn.
    assert (Hsg : (if bool_decide ((if bool_decide (v < 0) then -1 else 0) ≠ 0) then [45] else []) =
      (if bool_decide (v < 0) then [45] else [])) by (by destruct (bool_decide (v < 0))).
    assert (Hpr : (if bool_decide ((if bool_decide (altformat pf ≠ 0) || bool_decide (conv = 112) then 1 else 0) ≠ 0)
      && bool_decide (conv_base conv = 16) then [48; 120]
      else if bool_decide ((if bool_decide (altformat pf ≠ 0) || bool_decide (conv = 112) then 1 else 0) ≠ 0)
      && bool_decide (conv_base conv = 8) then [48] else []) = base_prefix ms conv).
    { unfold base_prefix. rewrite Halt. destruct (bool_decide (35 ∈ ms)), (bool_decide (conv = 112)); done. }
    rewrite Hsg, Hpr. done.
Qed.

(** The character after the modifiers prints the field. *)
Lemma send_conv c args n ms pf conv t rest :
  in_dir c args n ms pf -> pf_ok pf -> conv ≠ 0 -> conv ∉ modifiers ->
  directive_text ms conv args = Some (t, rest) ->
  __pf_send send pf conv = Done (idle (out c t) rest (s32 (n + Z.of_nat (length t)))).
Proof.
  intros Hd Hok H0 Hm Ht. unfold __pf_send. rewrite (bool_decide_eq_true_2 (conv ≠ 0)) by done.
  cbn [kassert mbind outcome_bind]. rewrite (id_pct _ _ _ _ _ Hd).
  change (bool_decide (1 = 0)) with false. cbn [andb].
  rewrite (in_set_spec modifiers conv modifiers_nonzero) by done. cbn [mbind outcome_bind].
  rewrite bool_decide_eq_false_2 by done.
  rewrite (in_set_spec integer_types conv integer_types_nonzero) by done. cbn [mbind outcome_bind].
  destruct (bool_decide_reflect (conv ∈ integer_types)) as [Hi|Hi].
  { destruct (send_integer c args n ms pf conv t rest) as (pf' & Hpf & <-); [done..|].
    apply bind_Done in Hpf as (pf1 & -> & Hpf). cbn [mbind outcome_bind]. by rewrite Hpf. }
  unfold directive_text in Ht. case_bool_decide as Hw; [|done]. rewrite bool_decide_eq_false_2 in Ht by done.
  destruct Hd as [Hcl Ha Hn Hp Hs Hpre Halt Hlay].
  destruct (bool_decide_reflect (conv = 115)) as [->|H115];
    [|destruct (bool_decide_reflect (conv = 99)) as [->|H99]].
  - destruct args as [|[|str] args]; try done. cbv zeta in Ht. case_bool_decide as Hl; [|done]. injection Ht as <- <-.
    unfold va_str. rewrite Ha. cbn [mbind outcome_bind].
    change (match str with None => null_str | Some s => s end) with (default null_str str).
    rewrite (printstuff_spec ms) by (done || (cbn [length]; lia)). cbn [mbind outcome_bind].
    unfold __pf_endfield, emit, idle; cbn. by rewrite Hcl, Hn.
  - destruct args as [|[k|] args]; try done. injection Ht as <- <-.
    unfold va_num. rewrite Ha. cbn [mbind outcome_bind].
    rewrite (c_str_spec _ _ (if bool_decide (u8 k = 0) then [] else [u8 k])).
    2: { destruct (bool_decide_reflect (u8 k = 0)) as [->|]; by repeat split. }
    cbn [mbind outcome_bind].
    rewrite (printstuff_spec ms) by (done || by destruct (bool_decide (u8 k = 0))). cbn [mbind outcome_bind].
    unfold __pf_endfield, emit, idle; cbn [set_ap clientdata ap charcount]. by rewrite Hcl, Hn.
  - injection Ht as <- <-. cbn [mbind outcome_bind].
    rewrite (c_str_spec _ _ [conv]) by (by repeat split). cbn [mbind outcome_bind].
    rewrite (printstuff_spec ms) by done. cbn [mbind outcome_bind].
    unfold __pf_endfield, emit, idle; cbn [set_ap clientdata ap charcount]. by rewrite Hcl, Hn, Ha.
Qed.

Lemma pf_ok_idle c args args' n n' t : pf_ok (idle c args n) -> n' = s32 n' -> pf_ok (idle (out c t) args' n').
Proof. intros [Hc _] Hn. split; [cbn; by apply (sink_ok (send := send))|done]. Qed.

Lemma pf_ok_in_dir c args n ms pf : pf_ok (idle c args n) -> in_dir c args n ms pf -> pf_ok pf.
Proof. intros [Hc Hn] Hd. split; [by rewrite (id_client _ _ _ _ _ Hd)|by rewrite (id_count _ _ _ _ _ Hd)]. Qed.

Lemma send_directive c args n ms conv t rest tail :
  pf_ok (idle c args n) -> item_ok (Dir ms conv) -> directive_text ms conv args = Some (t, rest) ->
  send_all send (idle c args n) (item_str (Dir ms conv) ++ tail) =
  send_all send (idle (out c t) rest (s32 (n + Z.of_nat (length t)))) tail.
Proof.
  intros Hok (Hms & Hc & H0) Ht. cbn [item_str app send_all].
  destruct (send_pct c args n) as (pf & -> & Hd). cbn [mbind outcome_bind]. rewrite <- app_assoc.
  assert (Hw : width ([] ++ ms) <= INT_MAX) by (unfold directive_text in Ht; case_bool_decide; done).
  destruct (send_modifiers c args n [] pf ms ([conv] ++ tail) Hd Hms Hw) as (pf' & -> & Hd'). cbn [app send_all].
  rewrite (send_conv c args n ms pf' conv t rest); try done. by eapply pf_ok_in_dir.
Qed.

Lemma send_items items c args n t tail :
  pf_ok (idle c args n) -> Forall item_ok items -> render items args = Some t ->
  exists rest, send_all send (idle c args n) (format_of items ++ tail) =
  send_all send (idle (out c t) rest (s32 (n + Z.of_nat (length t)))) tail.
Proof.
  intros Hok Hi. revert c args n t Hok.
  induction Hi as [|[ch|ms conv] items Hitem Hi IH]; intros c args n t Hok Ht; cbn [render] in Ht.
  - injection Ht as <-. exists args. destruct Hok as [Hc Hn]. cbn in Hc, Hn.
    by rewrite (sink_nil (send := send)), Z.add_0_r, Hn.
  - apply fmap_Some in Ht as (t' & Ht & ->). destruct Hitem as [H0 H37].
    unfold format_of. cbn [fmap list_fmap concat item_str app send_all].
    rewrite send_lit by done. cbn [mbind outcome_bind].
    destruct (IH (out c [ch]) args (s32 (n + 1)) t') as (rest & Hr); [|done|].
    { eapply pf_ok_idle; [done|by rewrite s32_idem]. }
    exists rest. unfold format_of in Hr. rewrite Hr, (sink_app (send := send)), s32_add by apply Hok.
    by replace (n + 1 + Z.of_nat (length t')) with (n + Z.of_nat (length (ch :: t'))) by (cbn [length]; lia).
  - destruct (directive_text ms conv args) as [[t1 args1]|] eqn:E; [|done]. cbn in Ht.
    apply fmap_Some in Ht as (t' & Ht & ->).
    unfold format_of. cbn [fmap list_fmap concat]. rewrite <- app_assoc.
    rewrite (send_directive _ _ _ _ _ t1 args1) by done.
    destruct (IH (out c t1) args1 (s32 (n + Z.of_nat (length t1))) t') as (rest & Hr); [|done|].
    { eapply pf_ok_idle; [done|by rewrite s32_idem]. }
    exists rest. unfold format_of in Hr. rewrite Hr, (sink_app (send := send)), s32_add by apply Hok.
    by rewrite length_app, Nat2Z.inj_add, Z.add_assoc.
Qed.

(** A directive the format string breaks off prints nothing. *)
Definition unfinished (tail : list Z) : Prop :=
  tail = [] \/ exists ms, tail = 37 :: ms /\ Forall (fun m => m ∈ modifiers) ms.

Lemma vprintf_items c items tail args t :
  ok c -> Forall item_ok items -> unfinished tail -> width tail <= INT_MAX -> render items args = Some t ->
  __vprintf send c (format_of items ++ tail) args = Done (out c t, s32 (Z.of_nat (length t))).
Proof.
  intros Hc Hi Htail Hw Ht. unfold __vprintf.
  change (__pf_endfield _) with (idle c args 0).
  destruct (send_items items c args 0 t tail) as (rest & ->); [done..|].
  destruct Htail as [->|(ms & -> & Hms)]; [done|]. cbn [send_all].
  destruct (send_pct (out c t) rest (s32 (0 + Z.of_nat (length t)))) as (pf & -> & Hd). cbn [mbind outcome_bind].
  destruct (send_modifiers _ _ _ _ _ ms [] Hd Hms) as (pf' & Hs & Hd'); [done|].
  rewrite app_nil_r in Hs. rewrite Hs. cbn [send_all mbind outcome_bind].
  by rewrite (id_client _ _ _ _ _ Hd'), (id_count _ _ _ _ _ Hd').
Qed.
End machine.

(** ** Every format string is a sequence of items *)

Fixpoint parse (dir : option (list Z)) (fmt : list Z) : list item * list Z :=
  match fmt with
  | [] => ([], match dir with None => [] | Some ms => 37 :: ms end)
  | c :: fmt =>
      match dir with
      | None =>
          if bool_decide (c = 37) then parse (Some []) fmt
          else let '(items, tail) := parse None fmt in (Lit c :: items, tail)
      | Some ms =>
          if bool_decide (c ∈ modifiers) then parse (Some (ms ++ [c])) fmt
          else let '(items, tail) := parse None fmt in (Dir ms c :: items, tail)
      end
  end.

Lemma parse_spec dir fmt items tail :
  parse dir fmt = (items, tail) -> Forall (fun c => c ≠ 0) fmt ->
  Forall (fun m => m ∈ modifiers) (default [] dir) ->
  match dir with None => [] | Some ms => 37 :: ms end ++ fmt = format_of items ++ tail /\
  Forall item_ok items /\ unfinished tail.
Proof.
  intros Hp Hf. revert dir items tail Hp.
  induction Hf as [|c fmt Hc Hf IH]; intros dir items tail Hp Hd; cbn [parse] in Hp.
  - injection Hp as <- <-. rewrite app_nil_r. split_and!; [done|constructor|].
    destruct dir as [ms|]; [right; by exists ms|by left].
  - destruct dir as [ms|]; case_bool_decide as Hm.
    + apply IH in Hp as (He & ? & ?).
      * split_and!; [|done..]. rewrite <- He. cbn. by rewrite <- app_assoc.
      * cbn. apply Forall_app. split; [done|by apply Forall_singleton].
    + destruct (parse None fmt) as [its tl] eqn:E. injection Hp as <- <-.
      destruct (IH None its tl E) as (He & ? & ?); [constructor|]. split_and!; [|by constructor|done].
      cbn in He |- *. rewrite He. unfold format_of. cbn. by rewrite <- !app_assoc.
    + subst. apply IH in Hp as (He & ? & ?); [done|constructor].
    + destruct (parse None fmt) as [its tl] eqn:E. injection Hp as <- <-.
      destruct (IH None its tl E) as (He & ? & ?); [constructor|]. split_and!; [|by constructor|done].
      cbn in He |- *. by rewrite He.
Qed.

(** ** The theorems *)

Lemma vprintf_parsed {C} (send : C -> list Z -> outcome C) (ok : C -> Prop) (out : C -> list Z -> C)
    (HS : Sink send ok out) c fmt args items tail t :
  ok c -> Forall (fun ch => ch ≠ 0) fmt -> parse None fmt = (items, tail) -> width tail <= INT_MAX ->
  render items args = Some t ->
  __vprintf send c fmt args = Done (out c t, s32 (Z.of_nat (length t))).
Proof.
  intros Hc Hf Hp Hw Ht. destruct (parse_spec None fmt items tail Hp Hf) as (He & Hi & Hu); [constructor|].
  cbn [app] in He. rewrite He.
  by eapply vprintf_items.
Qed.

(** C30. Every format string [fmt] without a NUL stands for the items [parse]
    finds; when their text is [t], [__vprintf] sends exactly [t] to any client
    that appends, and returns its length as an [int]. *)
Theorem vprintf_renders {C} (send : C -> list Z -> outcome C) (ok : C -> Prop) (out : C -> list Z -> C)
    (HS : Sink send ok out) c fmt args items tail t :
  ok c -> Forall (fun ch => ch ≠ 0) fmt -> parse None fmt = (items, tail) -> width tail <= INT_MAX ->
  render items args = Some t ->
  __vprintf send c fmt args = Done (out c t, s32 (Z.of_nat (length t))).
Proof. by apply vprintf_parsed. Qed.

(** The argument each conversion takes. *)
Definition arg_fits (conv : Z) (a : arg) : bool :=
  match a with
  | ANum n => bool_decide (conv ∈ integer_types \/ conv = 99) && bool_decide (conv = 100 -> s32 n ≠ INT_MIN)
  | AStr s => bool_decide (conv = 115) && bool_decide (Z.of_nat (length (default null_str s)) <= INT_MAX)
  end.
Definition takes_arg (conv : Z) : bool := bool_decide (conv ∈ integer_types \/ conv = 115 \/ conv = 99).

Fixpoint well_typed (items : list item) (args : list arg) : bool :=
  match items with
  | [] => true
  | Lit _ :: items => well_typed items args
  | Dir ms conv :: items =>
      bool_decide (width ms <= INT_MAX) &&
      if takes_arg conv then
        match args with
        | a :: args => arg_fits conv a && well_typed items args
        | [] => false
        end
      else well_typed items args
  end.

Lemma directive_typed ms conv args :
  width ms <= INT_MAX ->
  if takes_arg conv then
    forall a, arg_fits conv a = true -> exists t, directive_text ms conv (a :: args) = Some (t, args)
  else exists t, directive_text ms conv args = Some (t, args).
Proof.
  intros Hw. unfold takes_arg, directive_text. rewrite (bool_decide_eq_true_2 (width ms <= _)) by done.
  destruct (bool_decide_reflect (conv ∈ integer_types \/ conv = 115 \/ conv = 99)) as [H|H].
  - intros [n|s] Ha%andb_true_iff; destruct Ha as [Ha1%bool_decide_eq_true Ha2%bool_decide_eq_true].
    + destruct (bool_decide_reflect (conv ∈ integer_types)) as [Hi|Hi].
      * cbv zeta. rewrite bool_decide_eq_false_2; [eauto|]. case_bool_decide; [auto|].
        pose proof (u32_range n). unfold INT_MIN. lia.
      * assert (conv = 99) as -> by tauto. change (bool_decide (99 = 115)) with false. cbn. eauto.
    + subst. change (bool_decide (115 ∈ integer_types)) with false. change (bool_decide (115 = 115)) with true.
      cbv zeta. rewrite bool_decide_eq_true_2 by done. eauto.
  - rewrite !bool_decide_eq_false_2 by tauto. eauto.
Qed.

Lemma well_typed_renders items args : well_typed items args = true -> exists t, render items args = Some t.
Proof.
  revert args. induction items as [|[c|ms conv] items IH]; intros args; cbn [well_typed render]; [eauto|..].
  - intros [t ->]%IH. cbn. eauto.
  - intros [Hw%bool_decide_eq_true H]%andb_true_iff. pose proof (directive_typed ms conv) as Hd.
    destruct (takes_arg conv).
    + destruct args as [|a args]; [done|]. apply andb_true_iff in H as [Ha [t' Ht]%IH].
      destruct (Hd args Hw a Ha) as [t ->]. cbn. rewrite Ht. eauto.
    + apply IH in H as [t' Ht]. destruct (Hd args Hw) as [t ->]. cbn. rewrite Ht. eauto.
Qed.

(** C31. A call whose arguments have the types the format string names is defined:
    no assertion fails, the number buffer is not overrun, no argument is read
    as what it is not. *)
Theorem vprintf_typed {C} (send : C -> list Z -> outcome C) (ok : C -> Prop) (out : C -> list Z -> C)
    (HS : Sink send ok out) c fmt args :
  ok c -> Forall (fun ch => ch ≠ 0) fmt ->
  (let '(items, tail) := parse None fmt in well_typed items args = true /\ width tail <= INT_MAX) ->
  exists t, __vprintf send c fmt args = Done (out c t, s32 (Z.of_nat (length t))).
Proof.
  intros Hc Hf H. destruct (parse None fmt) as [items tail] eqn:Hp. destruct H as [Hty Hw].
  destruct (parse_spec None fmt items tail Hp Hf) as (He & Hi & Hu); [constructor|].
  cbn [app] in He. rewrite He.
  destruct (well_typed_renders _ _ Hty) as [t Ht]. exists t. by eapply vprintf_items.
Qed.

(** ** [snprintf] *)

Definition snp_ok (snp : SNP) : Prop :=
  0 <= bufpos snp <= buflen snp /\ buflen snp <= Z.of_nat (length (buf snp)).

(** What fits is stored. *)
Definition snp_out (snp : SNP) (t : list Z) : SNP :=
  let t := take (Z.to_nat (buflen snp - bufpos snp)) t in
  mkSNP (splice (buf snp) (bufpos snp) t) (buflen snp) (bufpos snp + Z.of_nat (length t)).

Lemma snp_ok_out snp t : snp_ok snp -> snp_ok (snp_out snp t).
Proof.
  intros [H1 H2]. unfold snp_ok, snp_out; cbn. rewrite length_splice by (rewrite ?length_take; lia).
  rewrite length_take. lia.
Qed.

Lemma snp_out_nil snp : snp_out snp [] = snp.
Proof. unfold snp_out. destruct snp; cbn. rewrite take_nil, splice_nil. cbn. by rewrite Z.add_0_r. Qed.

Lemma snp_out_app snp t t' : snp_ok snp -> snp_out (snp_out snp t) t' = snp_out snp (t ++ t').
Proof.
  intros [H1 H2]. unfold snp_out; cbn [buflen bufpos buf].
  set (k := Z.to_nat (buflen snp - bufpos snp)).
  replace (Z.to_nat (buflen snp - (bufpos snp + Z.of_nat (length (take k t))))) with (k - length t)%nat
    by (rewrite length_take; lia).
  rewrite take_app, splice_app by (rewrite ?length_take; lia).
  f_equal. rewrite length_app. lia.
Qed.

Lemma snprintf_send_spec snp t : snp_ok snp -> __snprintf_send snp t = Done (snp_out snp t).
Proof.
  revert snp. induction t as [|c t IH]; intros snp Hok; cbn [__snprintf_send]; [by rewrite snp_out_nil|].
  assert (Hone : (if bool_decide (bufpos snp < buflen snp) then
      b ← setZ (buf snp) (bufpos snp) c; Done (mkSNP b (buflen snp) (bufpos snp + 1)) else Done snp)
      = Done (snp_out snp [c])).
  { destruct Hok as [H1 H2]. unfold snp_out. case_bool_decide.
    - rewrite setZ_splice by lia. cbn [mbind outcome_bind].
      by rewrite take_ge by (cbn; lia).
    - replace (Z.to_nat _) with 0%nat by lia. cbn [take length]. rewrite splice_nil, Z.add_0_r. by destruct snp. }
  rewrite Hone. cbn [mbind outcome_bind]. rewrite IH by by apply snp_ok_out.
  by rewrite snp_out_app.
Qed.

#[export] Instance snprintf_sink : Sink __snprintf_send snp_ok snp_out.
Proof.
  constructor; intros; [by apply snprintf_send_spec|by apply snp_ok_out|apply snp_out_nil|by apply snp_out_app].
Qed.

Lemma vsnprintf_items b len fmt args items tail t :
  0 <= len <= Z.of_nat (length b) -> fmt = format_of items ++ tail -> Forall item_ok items ->
  unfinished tail -> width tail <= INT_MAX -> render items args = Some t ->
  vsnprintf b len fmt args =
  Done (if bool_decide (len = 0) then b else splice b 0 (take (Z.to_nat (len - 1)) t ++ [0]), s32 (Z.of_nat (length t))).
Proof.
  intros Hl -> Hi Hu Hw Ht. unfold vsnprintf.
  rewrite (vprintf_items __snprintf_send snp_ok snp_out _ _ _ _ t); try done.
  2: { unfold snp_ok; cbn. case_bool_decide; lia. }
  cbn [mbind outcome_bind]. unfold snp_out; cbn [buf buflen bufpos].
  destruct (bool_decide_reflect (len = 0)) as [->|Hne].
  - change (bool_decide (0 > 0)) with false. cbn [mbind outcome_bind].
    change (Z.to_nat (0 - 0)) with 0%nat. by rewrite take_0, splice_nil.
  - rewrite bool_decide_eq_true_2 by lia. rewrite Z.sub_0_r.
    rewrite setZ_splice by (rewrite length_splice; rewrite ?length_take; lia). cbn [mbind outcome_bind].
    by rewrite splice_app by (rewrite ?length_take; cbn; lia).
Qed.

(** [snprintf] into [len] bytes stores the first [len - 1] characters of the
    text and a NUL, nothing beyond, and returns the length of the whole
    text; with [len = 0] it stores nothing. *)
Theorem snprintf_stores b len fmt args items tail t :
  0 <= len <= Z.of_nat (length b) -> Forall (fun ch => ch ≠ 0) fmt -> parse None fmt = (items, tail) ->
  width tail <= INT_MAX -> render items args = Some t ->
  snprintf b len fmt args =
  Done (if bool_decide (len = 0) then b else splice b 0 (take (Z.to_nat (len - 1)) t ++ [0]), s32 (Z.of_nat (length t))).
Proof.
  intros Hl Hf Hp Hw Ht. destruct (parse_spec None fmt items tail Hp Hf) as (He & Hi & Hu); [constructor|].
  by eapply vsnprintf_items.
Qed.

(** ** Decimal numbers come back *)

Lemma dec_from_numeral ds v :
  Forall (fun d => 0 <= d < 10) ds ->
  dec_from v (digit_char <$> ds) = fold_left (fun v d => v * 10 + d) ds v /\
  Forall (fun c => 48 <= c <= 57) (digit_char <$> ds).
Proof.
  intros H. revert v. induction H as [|d ds Hd H IH]; intros v; cbn; [by split; [|constructor]|].
  assert (Hc : digit_char d = 48 + d) by (unfold digit_char; by rewrite bool_decide_eq_true_2 by lia).
  rewrite Hc. destruct (IH (v * 10 + d)) as [<- ?]. split; [|constructor; [lia|done]].
  unfold dec_from. by replace (48 + d - 48) with d by lia.
Qed.

Lemma render_d n :
  INT_MIN < n <= INT_MAX ->
  render [Dir [] 100] [ANum n] = Some ((if decide (n < 0) then [45] else []) ++ (digit_char <$> numeral 10 (Z.abs n))).
Proof.
  intros Hn. cbn [render]. unfold directive_text. change (bool_decide (width [] <= INT_MAX)) with true.
  change (bool_decide (100 ∈ integer_types)) with true. change (bool_decide (100 = 100)) with true. cbv zeta.
  rewrite s32_small by (unfold INT_MIN, INT_MAX in *; lia). rewrite bool_decide_eq_false_2 by lia.
  change (conv_base 100) with 10. change (base_prefix [] 100) with (@nil Z). cbn [mbind option_bind fmap option_fmap option_map].
  rewrite !app_nil_r. f_equal. unfold field. change (width []) with 0. change (bool_decide (45 ∈ [])) with false.
  change (zero_fill []) with false. replace (Z.to_nat _) with 0%nat by lia. cbn [replicate app].
  by destruct (decide (n < 0)); [rewrite bool_decide_eq_true_2|rewrite bool_decide_eq_false_2].
Qed.

(** [atoi] reads back what [snprintf] wrote with [%d], in a buffer of twelve
    bytes or more. *)
Theorem snprintf_atoi b len n :
  INT_MIN < n <= INT_MAX -> 12 <= len <= Z.of_nat (length b) ->
  exists b' chars, snprintf b len [37; 100] [ANum n] = Done (b', chars) /\ atoi b' 0 = Done n.
Proof.
  intros Hn Hl. unfold INT_MIN, INT_MAX in Hn.
  destruct (numeral_spec 10 ltac:(lia) (Z.abs n) ltac:(lia)) as [Hv Hd].
  destruct (numeral_fuel_spec 10 ltac:(lia) 32 (Z.abs n) 10) as (_ & _ & Hlen); [cbn; lia..|].
  fold (numeral 10 (Z.abs n)) in Hlen.
  destruct (dec_from_numeral _ 0 Hd) as [Hdec Hdig].
  set (sgn := if decide (n < 0) then [45] else []). set (ds := digit_char <$> numeral 10 (Z.abs n)) in *.
  assert (Hds : (0 < length ds <= 10)%nat) by (subst ds; by rewrite length_fmap).
  assert (Hsl : (length sgn <= 1)%nat) by (subst sgn; case_decide; cbn; lia).
  eexists _, _. split.
  { unfold snprintf. rewrite (vsnprintf_items b len [37; 100] [ANum n] [Dir [] 100] [] (sgn ++ ds)); [done|lia|done|..].
    - constructor; [|done]. split_and!; [done| |done]. unfold modifiers. rewrite !elem_of_cons, elem_of_nil. lia.
    - by left.
    - done.
    - apply render_d. unfold INT_MIN, INT_MAX. lia. }
  rewrite bool_decide_eq_false_2 by lia. rewrite take_ge by (rewrite length_app; lia).
  rewrite (atoi_spec _ 0 [] sgn ds []); [|..].
  - fold (value 10 (numeral 10 (Z.abs n))) in Hdec. rewrite Hdec, Hv. f_equal. subst sgn.
    destruct (decide (n < 0)); [rewrite decide_True by done|rewrite decide_False by done].
    + rewrite (u32_small (Z.abs n)) by lia. rewrite Z.abs_neq, Z.opp_involutive by lia.
      unfold u32, s32. rewrite Zplus_mod_idemp_l. apply s32_small. unfold INT_MIN, INT_MAX. lia.
    + rewrite Z.abs_eq, u32_small by lia. apply s32_small. unfold INT_MIN, INT_MAX. lia.
  - cbn [app]. rewrite app_nil_r. apply str_at_splice; [|done|rewrite length_app; lia].
    apply Forall_app. split; [subst sgn; case_decide; by repeat constructor|].
    eapply Forall_impl; [exact Hdig|]. cbn. lia.
  - constructor.
  - subst sgn. case_decide; auto.
  - by destruct ds; [cbn in Hds; lia|].
  - done.
  - by left.
Qed.

(** [[%-6s|%#06x]] of a string and a number. *)
Definition ex_fmt : list Z := [91; 37; 45; 54; 115; 124; 37; 35; 48; 54; 120; 93].
Definition ex_args : list arg := [AStr (Some [115; 102; 115]); ANum 511].
(** [[sfs   |0x01ff]] *)
Definition ex_text : list Z := [91; 115; 102; 115; 32; 32; 32; 124; 48; 120; 48; 49; 102; 102; 93].

Lemma vprintf_renders_witness :
  __vprintf __snprintf_send (mkSNP (zeros 20) 19 0) ex_fmt ex_args = Done (snp_out (mkSNP (zeros 20) 19 0) ex_text, 15).
Proof.
  apply (vprintf_renders __snprintf_send snp_ok snp_out snprintf_sink _ ex_fmt ex_args
    [Lit 91; Dir [45; 54] 115; Lit 124; Dir [35; 48; 54] 120; Lit 93] [] ex_text);
    [by vm_compute|by repeat constructor|by vm_compute..].
Defined.

Lemma vprintf_typed_witness :
  exists t, __vprintf __snprintf_send (mkSNP (zeros 20) 19 0) ex_fmt ex_args =
  Done (snp_out (mkSNP (zeros 20) 19 0) t, s32 (Z.of_nat (length t))).
Proof.
  apply (vprintf_typed __snprintf_send snp_ok snp_out snprintf_sink);
    [by vm_compute|by repeat constructor|by vm_compute].
Defined.

(** Into eight bytes: cut, terminated, and the full length returned. *)
Lemma snprintf_stores_witness :
  snprintf (zeros 10) 8 ex_fmt ex_args = Done ([91; 115; 102; 115; 32; 32; 32; 0; 0; 0], 15).
Proof.
  apply (snprintf_stores (zeros 10) 8 ex_fmt ex_args
    [Lit 91; Dir [45; 54] 115; Lit 124; Dir [35; 48; 54] 120; Lit 93] [] ex_text);
    [by vm_compute|by repeat constructor|by vm_compute..].
Defined.

Lemma snprintf_atoi_witness :
  exists b' chars, snprintf (zeros 12) 12 [37; 100] [ANum (-2147483647)] = Done (b', chars) /\
  atoi b' 0 = Done (-2147483647).
Proof. apply (snprintf_atoi (zeros 12) 12 (-2147483647)); vm_compute; intuition congruence. Defined.

(** Two corners of the format language.  [%X] is not a conversion: it prints
    the letter and takes no argument.  Zeros also pad on the right, where they
    change the number that is read. *)
Lemma percent_X n : render [Dir [] 88; Dir [] 100] [ANum n] = app [88] <$> render [Dir [] 100] [ANum n].
Proof. done. Qed.

Lemma minus_zero_pads : render [Dir [45; 48; 53] 100] [ANum 42] = Some [52; 50; 48; 48; 48].
Proof. by vm_compute. Qed.

End Printf.
