(* ===== verification/Monitor.v ===== *)
(** * Threads that share one mutex: the programs of [hw2]

    The programs of [hw2] run POSIX threads whose accesses to shared data all
    lie between [pthread_mutex_lock] and [pthread_mutex_unlock] of one mutex.
    Such a critical section, up to the unlock or the next [pthread_cond_wait],
    is one atomic step: that is what the mutex provides.  Conditions follow
    POSIX: a signal wakes at least one waiting thread if there is one, a
    broadcast all of them, and a waiting thread may also wake up for no
    reason.  A thread that was woken has to get the mutex again before it goes
    on. *)

From S2P Require Import Prelude.

Module Monitor.

(** ** Ring buffers

    The [len] items from [head] on, in a ring of [size] places. *)
Section ring.
Context (size : Z).

Definition ring_items (q : list Z) (head len : Z) : list Z :=
  (fun k => nth (Z.to_nat ((head + k) mod size)) q 0) <$> seqZ 0 len.

Lemma mod_inj_near a b n : 0 < n -> a mod n = b mod n -> - n < a - b < n -> a = b.
Proof.
  intros Hn Hm Hd. pose proof (Z.div_mod a n ltac:(lia)). pose proof (Z.div_mod b n ltac:(lia)).
  assert (a - b = n * (a / n - b / n)) as Hk by (rewrite Z.mul_sub_distr_l; lia).
  clear - Hk Hd Hn. generalize dependent (a / n - b / n). intros k Hk.
  destruct (Z.lt_trichotomy k 0) as [?|[->|?]]; nia.
Qed.

Lemma ring_put q head len c :
  0 <= head < size -> 0 <= len < size -> Z.of_nat (length q) = size ->
  ring_items (<[Z.to_nat ((head + len) mod size) := c]> q) head (len + 1) = ring_items q head len ++ [c].
Proof.
  intros Hh Hl Hq. unfold ring_items. rewrite seqZ_app, fmap_app by lia. rewrite !Z.add_0_l. f_equal.
  - apply list_fmap_ext. intros j k Hk. apply lookup_seqZ in Hk as [-> Hk].
    rewrite !nth_lookup, list_lookup_insert_ne; [done|]. intros Heq.
    apply Z2Nat.inj in Heq; [|apply Z.mod_pos_bound; lia..]. apply mod_inj_near in Heq; lia.
  - rewrite (seqZ_cons _ 1) by lia. cbn. f_equal. rewrite nth_lookup, list_lookup_insert_eq; [done|].
    pose proof (Z.mod_pos_bound (head + len) size). lia.
Qed.

Lemma ring_take q head len :
  0 <= head < size -> 0 < len <= size -> Z.of_nat (length q) = size ->
  exists c, getZ q head = Done c /\ ring_items q head len = c :: ring_items q ((head + 1) mod size) (len - 1).
Proof.
  intros Hh Hl Hq. destruct (getZ_total q head) as (c & Hc & Hlk); [lia|].
  exists c. split; [done|]. unfold ring_items. rewrite (seqZ_cons 0 len) by lia. cbn. f_equal.
  - rewrite Z.add_0_r, Z.mod_small, nth_lookup, Hlk by lia. done.
  - replace (Z.pred len) with (len - 1) by lia. replace (Z.succ 0) with (1 + 0) by lia.
    rewrite <- fmap_add_seqZ, <- list_fmap_compose.
    apply list_fmap_ext. intros j k Hk. cbn. rewrite Zplus_mod_idemp_l. do 3 f_equal. lia.
Qed.
End ring.

(** ** Threads *)

Section monitor.
Context {Sh L Cond : Type}.

(** What a critical section ends with. *)
Inductive act : Type :=
  | Unlock
  | WaitOn (c : Cond)
  | Return.

Inductive wake : Type :=
  | Signal (c : Cond)
  | Broadcast (c : Cond).

(** A thread, with its local data. *)
Inductive tstate : Type :=
  | Outside (l : L)
  | Waiting (c : Cond) (l : L)
  | Woken (l : L)
  | Exited (l : L).

Definition local (t : tstate) : L :=
  match t with Outside l | Waiting _ l | Woken l | Exited l => l end.

(** The thread can take the mutex. *)
Definition runnable (t : tstate) : Prop :=
  match t with Outside _ | Woken _ => True | _ => False end.

Definition ended (t : tstate) : Prop := match t with Exited _ => True | _ => False end.

Definition after (a : act) (l : L) : tstate :=
  match a with
  | Unlock => Outside l
  | WaitOn c => Waiting c l
  | Return => Exited l
  end.

Context `{EqDecision Cond}.

Definition waits_on (c : Cond) (t : tstate) : bool :=
  match t with Waiting c' _ => bool_decide (c = c') | _ => false end.

Definition rouse (c : Cond) (t : tstate) : tstate :=
  match t with Waiting c' l => if bool_decide (c = c') then Woken l else t | _ => t end.

(** The wake-ups of a critical section: a signal wakes any one waiting
    thread, or nobody when nobody waits. *)
Inductive wakes : list wake -> list tstate -> list tstate -> Prop :=
  | WakesNil ts : wakes [] ts ts
  | WakesSignal c ws ts ts' j l :
      ts !! j = Some (Waiting c l) -> wakes ws (<[j := Woken l]> ts) ts' -> wakes (Signal c :: ws) ts ts'
  | WakesNobody c ws ts ts' :
      Forall (fun t => waits_on c t = false) ts -> wakes ws ts ts' -> wakes (Signal c :: ws) ts ts'
  | WakesBroadcast c ws ts ts' : wakes ws (rouse c <$> ts) ts' -> wakes (Broadcast c :: ws) ts ts'.

(** [cs] is the critical section of a thread: entered with the mutex, from
    outside or after a wait. *)
Context (cs : Sh -> L -> outcome (Sh * L * act * list wake)).

Definition config : Type := Sh * list tstate.

Inductive step : config -> config -> Prop :=
  | StepSection sh ts i t sh' l' a ws ts' :
      ts !! i = Some t -> runnable t -> cs sh (local t) = Done (sh', l', a, ws) ->
      wakes ws (<[i := after a l']> ts) ts' -> step (sh, ts) (sh', ts')
  | StepSpurious sh ts i c l :
      ts !! i = Some (Waiting c l) -> step (sh, ts) (sh, <[i := Woken l]> ts).

Definition reachable (init : config) : config -> Prop := rtc step init.

(** Nobody can take the mutex although a thread has not ended. *)
Definition deadlocked (cf : config) : Prop :=
  Forall (fun t => ~ runnable t) (snd cf) /\ ~ Forall ended (snd cf).

Lemma reachable_inv (I : config -> Prop) init cf :
  I init -> (forall c c', I c -> step c c' -> I c') -> reachable init cf -> I cf.
Proof. intros H0 Hs Hr. induction Hr as [|c c' c'' H _ IH]; eauto. Qed.

(** Waking up changes only who waits. *)
Definition wakes_at (t t' : tstate) : Prop := t' = t \/ exists c l, t = Waiting c l /\ t' = Woken l.

Lemma wakes_pointwise ws ts ts' : wakes ws ts ts' -> Forall2 wakes_at ts ts'.
Proof.
  assert (Hrefl : forall ts, Forall2 wakes_at ts ts) 
    by (intros; apply Forall_Forall2_diag, Forall_forall; by left).
  assert (Htrans : forall a b c, wakes_at a b -> wakes_at b c -> wakes_at a c).
  { intros a b c [->|(?&?&->&->)] [->|(?&?&?&?)]; [by left|right; eauto..|done]. }
  assert (Htr : forall a b c, Forall2 wakes_at a b -> Forall2 wakes_at b c -> Forall2 wakes_at a c).
  { intros a b c Hab. revert c. induction Hab; intros c Hbc; inversion Hbc; subst; constructor; eauto. }
  induction 1 as [ts|c ws ts ts' j l Hj _ IH|c ws ts ts' _ _ IH|c ws ts ts' _ IH]; [done| |done|].
  - refine (Htr _ _ _ _ IH). apply Forall2_same_length_lookup_2; [by rewrite length_insert|].
    intros i t t' Ht Ht'. destruct (decide (i = j)) as [->|].
    + rewrite list_lookup_insert_eq in Ht' by (by eapply lookup_lt_Some). simplify_eq. right. eauto.
    + rewrite list_lookup_insert_ne in Ht' by done. simplify_eq. by left.
  - refine (Htr _ _ _ _ IH). apply Forall2_fmap_r, Forall_Forall2_diag, Forall_forall.
    intros t _. destruct t; cbn; [by left|case_bool_decide; [right; eauto|by left]|by left..].
Qed.

Lemma wakes_lookup ws ts ts' i t :
  wakes ws ts ts' -> ts !! i = Some t -> exists t', ts' !! i = Some t' /\ wakes_at t t'.
Proof. intros Hw Ht. destruct (Forall2_lookup_l _ _ _ _ _ (wakes_pointwise _ _ _ Hw) Ht) as (?&?&?). eauto. Qed.

Lemma wakes_lookup_r ws ts ts' i t' :
  wakes ws ts ts' -> ts' !! i = Some t' -> exists t, ts !! i = Some t /\ wakes_at t t'.
Proof. intros Hw Ht. destruct (Forall2_lookup_r _ _ _ _ _ (wakes_pointwise _ _ _ Hw) Ht) as (?&?&?). eauto. Qed.

Lemma wakes_at_local t t' : wakes_at t t' -> local t' = local t.
Proof. by intros [->|(?&?&->&->)]. Qed.

Lemma wakes_local ws ts ts' : wakes ws ts ts' -> local <$> ts' = local <$> ts.
Proof.
  intros Hw%wakes_pointwise. induction Hw as [|t t' ts ts' Ht _ IH]; [done|]. cbn. rewrite IH. f_equal.
  by apply wakes_at_local.
Qed.

Lemma wakes_runnable ws ts ts' i t : wakes ws ts ts' -> ts !! i = Some t -> runnable t -> ts' !! i = Some t.
Proof.
  intros Hw Ht Hr. destruct (wakes_lookup _ _ _ _ _ Hw Ht) as (t' & Ht' & [->|(?&?&->&_)]); done.
Qed.

(** After a signal, if a thread waits for the condition, one was woken. *)
Lemma wakes_signal c ts ts' i l :
  wakes [Signal c] ts ts' -> ts' !! i = Some (Waiting c l) ->
  exists j l', ts !! j = Some (Waiting c l') /\ ts' !! j = Some (Woken l').
Proof.
  intros Hw Hi. inversion Hw as [|? ? ? ? j l' Hj Hrest|? ? ? ? Hno Hrest|]; subst; inversion Hrest; subst.
  - exists j, l'. split; [done|]. rewrite list_lookup_insert_eq; [done|]. by eapply lookup_lt_Some.
  - rewrite Forall_forall in Hno. specialize (Hno _ (list_elem_of_lookup_2 _ _ _ Hi)). cbn in Hno.
    by rewrite bool_decide_eq_true_2 in Hno.
Qed.

(** After a broadcast nobody waits for the condition. *)
Lemma wakes_broadcast c ts ts' i l : wakes [Broadcast c] ts ts' -> ts' !! i ≠ Some (Waiting c l).
Proof.
  intros Hw Hi. inversion Hw as [| | |? ? ? ? Hrest]; subst. inversion Hrest; subst.
  rewrite list_lookup_fmap in Hi. apply fmap_Some in Hi as (t & _ & Ht).
  destruct t; cbn in Ht; try done. case_bool_decide; [done|]. by simplify_eq.
Qed.

(** Sums over the threads' local data. *)
Definition total (f : L -> Z) (ts : list tstate) : Z := foldr (fun t n => f (local t) + n) 0 ts.

Lemma total_insert f ts i t t' :
  ts !! i = Some t -> total f (<[i := t']> ts) = total f ts - f (local t) + f (local t').
Proof.
  revert i. induction ts as [|t0 ts IH]; intros [|i] H; cbn in H; [done..| |].
  - simplify_eq. cbn. lia.
  - change (f (local t0) + total f (<[i := t']> ts) = f (local t0) + total f ts - f (local t) + f (local t')).
    rewrite (IH i) by done. lia.
Qed.

Lemma total_wakes f ws ts ts' : wakes ws ts ts' -> total f ts' = total f ts.
Proof.
  intros Hw%wakes_pointwise. induction Hw as [|t t' ts ts' Ht _ IH]; [done|]. cbn.
  rewrite (wakes_at_local _ _ Ht). unfold total in IH. by rewrite IH.
Qed.

Lemma local_insert (ts : list tstate) i t t' :
  ts !! i = Some t -> local t' = local t -> local <$> <[i := t']> ts = local <$> ts.
Proof.
  intros Hi Hl. rewrite list_fmap_insert, Hl. apply list_insert_id. by rewrite list_lookup_fmap, Hi.
Qed.

(** Who still waits after a section was waiting before. *)
Lemma waiting_before ws ts i t0 a l' ts' j c l :
  ts !! i = Some t0 -> wakes ws (<[i := after a l']> ts) ts' -> ts' !! j = Some (Waiting c l) ->
  (j = i /\ a = WaitOn c /\ l = l') \/ (j ≠ i /\ ts !! j = Some (Waiting c l)).
Proof.
  intros Ht Hw Hj. destruct (wakes_lookup_r _ _ _ _ _ Hw Hj) as (t & Hlk & [<-|(?&?&?&?)]); [|done].
  destruct (decide (j = i)) as [->|Hne].
  - rewrite list_lookup_insert_eq in Hlk by (by eapply lookup_lt_Some). left.
    destruct a; simplify_eq/=; done.
  - rewrite list_lookup_insert_ne in Hlk by done. by right.
Qed.

Lemma exited_before ws ts i t0 a l' ts' j l :
  ts !! i = Some t0 -> wakes ws (<[i := after a l']> ts) ts' -> ts' !! j = Some (Exited l) ->
  (j = i /\ a = Return /\ l = l') \/ (j ≠ i /\ ts !! j = Some (Exited l)).
Proof.
  intros Ht Hw Hj. destruct (wakes_lookup_r _ _ _ _ _ Hw Hj) as (t & Hlk & [<-|(?&?&?&?)]); [|done].
  destruct (decide (j = i)) as [->|Hne].
  - rewrite list_lookup_insert_eq in Hlk by (by eapply lookup_lt_Some). left.
    destruct a; simplify_eq/=; done.
  - rewrite list_lookup_insert_ne in Hlk by done. by right.
Qed.

Lemma still_runnable ws ts i t0 t1 ts' j t :
  ts !! i = Some t0 -> wakes ws (<[i := t1]> ts) ts' -> ts !! j = Some t -> j ≠ i -> runnable t -> ts' !! j = Some t.
Proof.
  intros Ht Hw Hj Hne Hr. eapply wakes_runnable; [exact Hw| |done]. by rewrite list_lookup_insert_ne.
Qed.

(** Who has ended after a section. *)
Lemma ended_after ws ts i t0 a l' ts' j t :
  ts !! i = Some t0 -> wakes ws (<[i := after a l']> ts) ts' -> ts' !! j = Some t ->
  (j = i /\ (ended t <-> a = Return) /\ local t = l') \/
  (j ≠ i /\ exists t1, ts !! j = Some t1 /\ (ended t <-> ended t1) /\ local t = local t1).
Proof.
  intros Ht Hw Hj. destruct (wakes_lookup_r _ _ _ _ _ Hw Hj) as (t1 & Hlk & Hat).
  pose proof (wakes_at_local _ _ Hat) as Hl.
  assert (He : ended t <-> ended t1) by (by destruct Hat as [->|(?&?&->&->)]).
  destruct (decide (j = i)) as [->|Hne].
  - rewrite list_lookup_insert_eq in Hlk by (by eapply lookup_lt_Some). left.
    simplify_eq. rewrite Hl, He. by destruct a.
  - rewrite list_lookup_insert_ne in Hlk by done. right. eauto.
Qed.

Lemma wakes_nil ts ts' : wakes [] ts ts' -> ts' = ts.
Proof. by inversion 1. Qed.
End monitor.

Arguments act : clear implicits.
Arguments wake : clear implicits.
Arguments tstate : clear implicits.

End Monitor.
