(* ===== verification/ProducerConsumer.v ===== *)
(** * A bounded buffer: [hw2/producer_consumer.c]

    Producers put their numbers into a ring buffer, consumers take them out,
    until a given number of items has gone through.  [producer] and [consumer]
    are the critical sections of the two thread functions.

    The theorems: the ring is well formed and the counters are exact in every
    reachable state ([pc_invariant]); the program never deadlocks
    ([pc_no_deadlock]); when the threads have ended every item was produced
    and consumed and is accounted for ([pc_final]). *)

From S2P Require Import Prelude Monitor.

Module ProducerConsumer.
Import Monitor.

Inductive cond : Type := not_full | not_empty.
#[export] Instance cond_eq_dec : EqDecision cond.
Proof. solve_decision. Defined.

Inductive role : Type := Producer | Consumer.
#[export] Instance role_eq_dec : EqDecision role.
Proof. solve_decision. Defined.

(** [thread_info_t], and which of the two functions the thread runs. *)
Record info : Type := mkInfo { trole : role; id : Z; n_sleeps : Z; n_contribs : Z }.

(** The globals the mutex protects. *)
Record shared : Type := mkShared {
  queue : list Z;
  queue_head : Z;
  queue_tail : Z;
  queue_len : Z;
  n_produced : Z;
  n_consumed : Z
}.

Section program.
Context (N_ITEMS QUEUE_SIZE : Z).

(** [x % QUEUE_SIZE] *)
Definition mod_size (x : Z) : outcome Z := if bool_decide (QUEUE_SIZE = 0) then Stuck else Done (Z.rem x QUEUE_SIZE).

Definition producer (sh : shared) (t : info) : outcome (shared * info * act cond * list (wake cond)) :=
  if bool_decide (queue_len sh = QUEUE_SIZE) && bool_decide (n_produced sh < N_ITEMS) then
    n ← int_op (n_sleeps t + 1);
    Done (sh, mkInfo (trole t) (id t) n (n_contribs t), WaitOn not_full, [])
  else if bool_decide (n_produced sh >= N_ITEMS) then
    Done (sh, t, Return, [Broadcast not_full])
  else
    q ← setZ (queue sh) (queue_tail sh) (id t);
    tl ← int_op (queue_tail sh + 1);
    tl ← mod_size tl;
    len ← int_op (queue_len sh + 1);
    p ← int_op (n_produced sh + 1);
    n ← int_op (n_contribs t + 1);
    Done (mkShared q (queue_head sh) tl len p (n_consumed sh),
          mkInfo (trole t) (id t) (n_sleeps t) n, Unlock, [Signal not_empty]).

Definition consumer (sh : shared) (t : info) : outcome (shared * info * act cond * list (wake cond)) :=
  if bool_decide (queue_len sh = 0) && bool_decide (n_consumed sh < N_ITEMS) then
    n ← int_op (n_sleeps t + 1);
    Done (sh, mkInfo (trole t) (id t) n (n_contribs t), WaitOn not_empty, [])
  else if bool_decide (n_consumed sh >= N_ITEMS) then
    Done (sh, t, Return, [Broadcast not_empty])
  else
    producer_id ← getZ (queue sh) (queue_head sh);
    hd ← int_op (queue_head sh + 1);
    hd ← mod_size hd;
    len ← int_op (queue_len sh - 1);
    c ← int_op (n_consumed sh + 1);
    n ← int_op (n_contribs t + 1);
    Done (mkShared (queue sh) hd (queue_tail sh) len (n_produced sh) c,
          mkInfo (trole t) (id t) (n_sleeps t) n, Unlock, [Signal not_full]).

Definition section (sh : shared) (t : info) : outcome (shared * info * act cond * list (wake cond)) :=
  match trole t with
  | Producer => producer sh t
  | Consumer => consumer sh t
  end.

Fixpoint infos (r : role) (n : nat) (i : Z) : list (tstate info cond) :=
  match n with
  | O => []
  | S n => Outside (mkInfo r i 0 0) :: infos r n (i + 1)
  end.

(** What [main] sets up: the queue is what [malloc] returned. *)
Definition main (q : list Z) (producers consumers : nat) : config (Sh := shared) (L := info) (Cond := cond) :=
  (mkShared q 0 0 0 0 0, infos Producer producers 0 ++ infos Consumer consumers 0).

(** ** The ring *)

Record ring_ok (sh : shared) : Prop := {
  ro_queue : Z.of_nat (length (queue sh)) = QUEUE_SIZE;
  ro_head : 0 <= queue_head sh < QUEUE_SIZE;
  ro_len : 0 <= queue_len sh <= QUEUE_SIZE;
  ro_tail : queue_tail sh = (queue_head sh + queue_len sh) mod QUEUE_SIZE;
  ro_items : n_produced sh = n_consumed sh + queue_len sh;
  ro_max : 0 <= n_consumed sh /\ n_produced sh <= N_ITEMS
}.

(** The items in the queue, oldest first. *)
Definition contents (sh : shared) : list Z := ring_items QUEUE_SIZE (queue sh) (queue_head sh) (queue_len sh).

Context (Hsize : 0 < QUEUE_SIZE <= INT_MAX) (Hitems : 0 <= N_ITEMS <= INT_MAX).

Lemma mod_size_spec x : 0 <= x -> mod_size x = Done (x mod QUEUE_SIZE).
Proof. intros. unfold mod_size. rewrite bool_decide_eq_false_2 by lia. by rewrite Z.rem_mod_nonneg by lia. Qed.

(** The two roles, side by side: what a thread of the role waits for, how
    many items the role has moved, when it cannot go on. *)
Definition cond_of (r : role) : cond := match r with Producer => not_full | Consumer => not_empty end.
Definition other (r : role) : role := match r with Producer => Consumer | Consumer => Producer end.
Definition moved (r : role) (sh : shared) : Z := match r with Producer => n_produced sh | Consumer => n_consumed sh end.
Definition blocked (r : role) (sh : shared) : Prop :=
  queue_len sh = match r with Producer => QUEUE_SIZE | Consumer => 0 end.

(** The queue is first in, first out. *)
Definition transfer (t : info) (sh sh' : shared) : Prop :=
  match trole t with
  | Producer => contents sh' = contents sh ++ [id t]
  | Consumer => exists c, contents sh = c :: contents sh'
  end.

(** What a critical section does on a well-formed ring. *)
Inductive sec_result (sh : shared) (t : info) : shared * info * act cond * list (wake cond) -> Prop :=
  | SecWait : blocked (trole t) sh -> moved (trole t) sh < N_ITEMS ->
      sec_result sh t (sh, mkInfo (trole t) (id t) (n_sleeps t + 1) (n_contribs t), WaitOn (cond_of (trole t)), [])
  | SecEnd : N_ITEMS <= moved (trole t) sh -> sec_result sh t (sh, t, Return, [Broadcast (cond_of (trole t))])
  | SecMove sh' : ring_ok sh' -> transfer t sh sh' ->
      moved (trole t) sh' = moved (trole t) sh + 1 -> moved (other (trole t)) sh' = moved (other (trole t)) sh ->
      sec_result sh t (sh', mkInfo (trole t) (id t) (n_sleeps t) (n_contribs t + 1), Unlock,
                       [Signal (cond_of (other (trole t)))]).

(** A section is defined as long as the count of sleeps fits an [int]. *)
Lemma pc_section_spec sh t :
  ring_ok sh -> 0 <= n_sleeps t -> 0 <= n_contribs t <= moved (trole t) sh ->
  match section sh t with
  | Done r => sec_result sh t r
  | _ => INT_MAX <= n_sleeps t
  end.
Proof.
  intros Hr Hs Hc. pose proof Hr as [Hq Hh Hl Ht Hi Hm]. unfold section.
  assert (Htl : 0 <= queue_tail sh < QUEUE_SIZE) by (rewrite Ht; apply Z.mod_pos_bound; lia).
  destruct t as [[|] i sl co]; cbn in *; unfold producer, consumer, INT_MAX in *; cbn [n_sleeps n_contribs id trole].
  - destruct (bool_decide_reflect (n_produced sh < N_ITEMS)) as [Hn|Hn];
      [|rewrite andb_false_r, bool_decide_eq_true_2 by lia; apply SecEnd; cbn; lia].
    destruct (bool_decide_reflect (queue_len sh = QUEUE_SIZE)) as [Hf|Hf]; cbn [andb].
    + unfold int_op. case_bool_decide; [|cbn; unfold INT_MIN, INT_MAX in *; lia]. by apply SecWait.
    + step_tests. rewrite setZ_ok by lia. step_tests. rewrite mod_size_spec by lia. step_tests.
      apply (SecMove sh (mkInfo Producer i sl co)); cbn; [| |done..].
      2: { unfold transfer, contents; cbn. rewrite Ht. apply ring_put; lia. }
      constructor; cbn; try lia; [by rewrite length_insert|]. rewrite Ht, Zplus_mod_idemp_l. f_equal. lia.
  - destruct (bool_decide_reflect (n_consumed sh < N_ITEMS)) as [Hn|Hn];
      [|rewrite andb_false_r, bool_decide_eq_true_2 by lia; apply SecEnd; cbn; lia].
    destruct (bool_decide_reflect (queue_len sh = 0)) as [Hf|Hf]; cbn [andb].
    + unfold int_op. case_bool_decide; [|cbn; unfold INT_MIN, INT_MAX in *; lia]. by apply SecWait.
    + destruct (ring_take QUEUE_SIZE (queue sh) (queue_head sh) (queue_len sh)) as (c & -> & Hcon); [lia..|].
      step_tests. rewrite mod_size_spec by lia. step_tests.
      apply (SecMove sh (mkInfo Consumer i sl co)); cbn; [|by exists c|done..].
      constructor; cbn; try lia; [apply Z.mod_pos_bound; lia|].
      rewrite Ht, Zplus_mod_idemp_l. f_equal. lia.
Qed.

(** ** The invariant *)

Definition contribs (r : role) (l : info) : Z := if decide (trole l = r) then n_contribs l else 0.

Record pc_inv (roles : list role) (cf : config (Sh := shared) (L := info) (Cond := cond)) : Prop := {
  pi_ring : ring_ok (fst cf);
  pi_roles : trole ∘ local <$> snd cf = roles;
  pi_counts : Forall (fun t => 0 <= n_sleeps (local t) /\ 0 <= n_contribs (local t)) (snd cf);
  pi_total r : total (contribs r) (snd cf) = moved r (fst cf);
  pi_cond i c l : snd cf !! i = Some (Waiting c l) -> c = cond_of (trole l);
  pi_exited i l : snd cf !! i = Some (Exited l) -> N_ITEMS <= moved (trole l) (fst cf);
  pi_wake r i l : snd cf !! i = Some (Waiting (cond_of r) l) ->
    (exists j t, snd cf !! j = Some t /\ runnable t /\ trole (local t) = r) \/
    (blocked r (fst cf) /\ moved r (fst cf) < N_ITEMS)
}.

Lemma cond_of_inj r r' : cond_of r = cond_of r' -> r = r'.
Proof. by destruct r, r'. Qed.

Lemma total_ge f (ts : list (tstate info cond)) i t :
  Forall (fun t => 0 <= f (local t)) ts -> ts !! i = Some t -> f (local t) <= total f ts.
Proof.
  intros H. revert i. induction H as [|t0 ts H0 H IH]; intros [|i] Hi; cbn in Hi; [done..| |].
  - simplify_eq. cbn. assert (0 <= total f ts); [|unfold total in *; lia].
    clear -H. induction H; cbn; [lia|]. unfold total in *. lia.
  - change (f (local t) <= f (local t0) + total f ts). specialize (IH _ Hi). lia.
Qed.

Lemma pi_contribs roles cf i t :
  pc_inv roles cf -> snd cf !! i = Some t -> 0 <= n_contribs (local t) <= moved (trole (local t)) (fst cf).
Proof.
  intros Hi Ht. pose proof (pi_counts _ _ Hi) as Hc. rewrite Forall_forall in Hc.
  destruct (Hc _ (list_elem_of_lookup_2 _ _ _ Ht)) as [_ H]. split; [done|].
  rewrite <- (pi_total _ _ Hi). replace (n_contribs (local t)) with (contribs (trole (local t)) (local t))
    by (unfold contribs; by rewrite decide_True).
  apply (total_ge _ _ i); [|done]. apply Forall_forall. intros t' Ht'. unfold contribs.
  case_decide; [|done]. by apply Hc.
Qed.

(** What a section changes, in terms of the roles. *)
Record sec_effect (sh : shared) (t : info) (sh' : shared) (t' : info) : Prop := {
  se_role : trole t' = trole t;
  se_ring : ring_ok sh';
  se_sleeps : n_sleeps t <= n_sleeps t';
  se_contribs : n_contribs t <= n_contribs t';
  se_moved r : moved r sh' = moved r sh - contribs r t + contribs r t'
}.

Lemma sec_result_effect sh t sh' t' a ws :
  ring_ok sh -> sec_result sh t (sh', t', a, ws) -> sec_effect sh t sh' t'.
Proof.
  intros Hr H. inversion H as [Hb Hm|Hm|sh1 Hr' Htr Hm Ho]; subst.
  - constructor; cbn; try done; try lia. intros r. unfold contribs; cbn. case_decide; lia.
  - constructor; try done; try lia.
  - constructor; cbn; try done; try lia. intros r. unfold contribs; cbn.
    case_decide as Hd; [subst; lia|]. assert (r = other (trole t)) as -> by (by destruct r, (trole t)). lia.
Qed.

Lemma moved_mono sh t sh' t' r : sec_effect sh t sh' t' -> moved r sh <= moved r sh'.
Proof.
  intros [Hro _ _ Hc Hm]. rewrite (Hm r). unfold contribs. rewrite Hro. case_decide; lia.
Qed.

Lemma section_result roles sh ts i t r :
  pc_inv roles (sh, ts) -> ts !! i = Some t -> section sh (local t) = Done r -> sec_result sh (local t) r.
Proof.
  intros Hi Ht Hs. pose proof (pi_counts _ _ Hi) as Hc. rewrite Forall_forall in Hc.
  pose proof (pc_section_spec sh (local t) (pi_ring _ _ Hi)) as H. rewrite Hs in H. apply H.
  - by apply Hc, (list_elem_of_lookup_2 _ i).
  - by apply (pi_contribs _ _ i t Hi).
Qed.


Lemma pc_inv_wake roles sh ts i t sh' t' a ws ts' :
  pc_inv roles (sh, ts) -> ts !! i = Some t -> runnable t -> sec_result sh (local t) (sh', t', a, ws) ->
  wakes ws (<[i := after a t']> ts) ts' ->
  forall r j l, ts' !! j = Some (Waiting (cond_of r) l) ->
  (exists j t, ts' !! j = Some t /\ runnable t /\ trole (local t) = r) \/
  (blocked r sh' /\ moved r sh' < N_ITEMS).
Proof.
  intros HI Ht Hrun Hres Hw r j l Hj.
  assert (Hold : sh' = sh -> a ≠ WaitOn (cond_of r) -> trole (local t) ≠ r ->
    (exists j t, ts' !! j = Some t /\ runnable t /\ trole (local t) = r) \/ (blocked r sh' /\ moved r sh' < N_ITEMS)).
  { intros -> Ha Hro.
    destruct (waiting_before _ _ _ _ _ _ _ _ _ _ Ht Hw Hj) as [(-> & -> & _)|(Hne & Hj0)]; [done|].
    destruct (pi_wake _ _ HI r j l Hj0) as [(k & tk & Hk & Hrk & Hrole)|?]; [|by right].
    left. exists k, tk. split_and!; [|done..]. eapply still_runnable; [exact Ht|exact Hw|done| |done].
    intros ->. cbn in Hk. simplify_eq. }
  inversion Hres as [Hb Hm|Hm|sh1 Hr' Htr Hm Ho]; subst; cbn [after] in Hw.
  - destruct (decide (trole (local t) = r)) as [<-|Hne]; [by right|].
    apply Hold; [done| |done]. by intros [= ?%cond_of_inj].
  - destruct (decide (trole (local t) = r)) as [<-|Hne]; [by destruct (wakes_broadcast _ _ _ _ _ Hw Hj)|].
    by apply Hold.
  - left. destruct (decide (trole (local t) = r)) as [<-|Hne].
    + exists i. eexists. split_and!; [eapply wakes_runnable; [exact Hw| |]|..].
      * rewrite list_lookup_insert_eq; [done|by eapply lookup_lt_Some].
      * done.
      * done.
      * done.
    + assert (other (trole (local t)) = r) as <- by (by destruct r, (trole (local t))).
      destruct (wakes_signal _ _ _ _ _ Hw Hj) as (k & lk & Hk & Hk').
      exists k, (Woken lk). split_and!; [done..|]. cbn.
      destruct (decide (k = i)) as [->|Hki].
      { rewrite list_lookup_insert_eq in Hk by (by eapply lookup_lt_Some). done. }
      rewrite list_lookup_insert_ne in Hk by done.
      apply cond_of_inj. symmetry. by apply (pi_cond _ _ HI k).
Qed.

Lemma pc_inv_step roles cf cf' : pc_inv roles cf -> step section cf cf' -> pc_inv roles cf'.
Proof.
  intros HI Hs. destruct Hs as [sh ts i t sh' t' a ws ts' Ht Hrun Hcs Hw|sh ts i c l Hi].
  - pose proof (section_result _ _ _ _ _ _ HI Ht Hcs) as Hres.
    pose proof (sec_result_effect _ _ _ _ _ _ (pi_ring _ _ HI) Hres) as He. cbn [fst] in He.
    pose proof (pi_counts _ _ HI) as Hc. cbn in Hc. rewrite Forall_forall in Hc.
    assert (Hla : local (after a t') = t') by (by destruct a).
    constructor; cbn [fst snd].
    + apply He.
    + rewrite <- (pi_roles _ _ HI). cbn [snd]. rewrite !list_fmap_compose, (wakes_local _ _ _ Hw).
      rewrite !list_fmap_insert, Hla, (se_role _ _ _ _ He).
      apply list_insert_id. by rewrite !list_lookup_fmap, Ht.
    + apply Forall_forall. intros u Hu. apply list_elem_of_lookup in Hu as [j Hj].
      destruct (wakes_lookup_r _ _ _ _ _ Hw Hj) as (u0 & Hu0 & ->%wakes_at_local).
      destruct (decide (j = i)) as [->|Hne].
      * rewrite list_lookup_insert_eq in Hu0 by (by eapply lookup_lt_Some). simplify_eq. rewrite Hla.
        destruct (Hc t) as [? ?]; [by eapply list_elem_of_lookup_2|].
        pose proof (se_sleeps _ _ _ _ He). pose proof (se_contribs _ _ _ _ He). lia.
      * rewrite list_lookup_insert_ne in Hu0 by done. apply Hc. by eapply list_elem_of_lookup_2.
    + intros r. rewrite (total_wakes _ _ _ _ Hw), (total_insert _ _ _ _ _ Ht), Hla.
      rewrite (se_moved _ _ _ _ He r). pose proof (pi_total _ _ HI r) as Htot. cbn [fst snd] in Htot. lia.
    + intros j c l Hj. destruct (waiting_before _ _ _ _ _ _ _ _ _ _ Ht Hw Hj) as [(_ & -> & ->)|(_ & Hj0)].
      * rewrite (se_role _ _ _ _ He). by inversion Hres.
      * by apply (pi_cond _ _ HI j).
    + intros j l Hj. destruct (exited_before _ _ _ _ _ _ _ _ _ Ht Hw Hj) as [(_ & -> & ->)|(_ & Hj0)].
      * by inversion Hres; subst.
      * etransitivity; [by apply (pi_exited _ _ HI j)|]. by eapply moved_mono.
    + by eapply pc_inv_wake.
  - pose proof HI as [H1 H2 H3 H4 H5 H6 H7]. cbn [fst snd] in *. constructor; cbn [fst snd].
    + done.
    + rewrite list_fmap_compose, (local_insert _ _ _ _ Hi), <- list_fmap_compose by done. done.
    + apply Forall_insert; [done|]. rewrite Forall_forall in H3.
      apply (H3 (Waiting c l)). by eapply list_elem_of_lookup_2.
    + intros r. rewrite (total_insert _ _ _ _ _ Hi), H4. cbn. lia.
    + intros j c' l' Hj. apply (H5 j). apply list_lookup_insert_Some in Hj as [(_ & ? & _)|[_ ?]]; done.
    + intros j l' Hj. apply (H6 j). apply list_lookup_insert_Some in Hj as [(_ & ? & _)|[_ ?]]; done.
    + intros r j l' Hj. apply list_lookup_insert_Some in Hj as [(_ & ? & _)|[Hne Hj]]; [done|].
      destruct (H7 r j l' Hj) as [(k & t & Hk & Hrk & Hro)|?]; [|by right]. left.
      exists k, t. split_and!; [|done..]. rewrite list_lookup_insert_ne; [done|]. intros ->. by simplify_eq.
Qed.

(** ** The program *)

Lemma infos_spec r n i :
  Forall (fun t => exists k, t = Outside (mkInfo r k 0 0)) (infos r n i) /\ length (infos r n i) = n.
Proof. revert i. induction n as [|n IH]; intros i; cbn; [done|]. destruct (IH (i + 1)). split; [constructor; eauto|lia]. Qed.

Definition start_roles (np nc : nat) : list role := replicate np Producer ++ replicate nc Consumer.

Lemma infos_roles r n i : trole ∘ local <$> infos r n i = replicate n r.
Proof. revert i. induction n as [|n IH]; intros i; cbn; [done|]. by rewrite IH. Qed.

Lemma main_threads q np nc t : t ∈ snd (main q np nc) -> exists r k, t = Outside (mkInfo r k 0 0).
Proof.
  cbn. rewrite elem_of_app. intros [H|H].
  - destruct (infos_spec Producer np 0) as [Ha _]. rewrite Forall_forall in Ha. destruct (Ha _ H) as [k ->]. eauto.
  - destruct (infos_spec Consumer nc 0) as [Ha _]. rewrite Forall_forall in Ha. destruct (Ha _ H) as [k ->]. eauto.
Qed.

Lemma pc_main_inv q np nc : Z.of_nat (length q) = QUEUE_SIZE -> pc_inv (start_roles np nc) (main q np nc).
Proof.
  intros Hq. pose proof (main_threads q np nc) as Hth. constructor.
  - constructor; cbn; try lia. symmetry. apply Z.mod_0_l. lia.
  - cbn. by rewrite fmap_app, !infos_roles.
  - apply Forall_forall. intros t Ht. destruct (Hth t Ht) as (r & k & ->). cbn. lia.
  - intros r. replace (moved r _) with 0 by (by destruct r). revert Hth. generalize (snd (main q np nc)) as ts.
    induction ts as [|t ts IH]; intros Hth; [done|].
    destruct (Hth t) as (r' & k & ->); [by left|].
    change (contribs r (mkInfo r' k 0 0) + total (contribs r) ts = 0). rewrite IH by (intros; apply Hth; by right).
    unfold contribs. by case_decide.
  - intros i c l H. apply list_elem_of_lookup_2 in H. by destruct (Hth _ H) as (? & ? & ?).
  - intros i l H. apply list_elem_of_lookup_2 in H. by destruct (Hth _ H) as (? & ? & ?).
  - intros r i l H. apply list_elem_of_lookup_2 in H. by destruct (Hth _ H) as (? & ? & ?).
Qed.

Lemma reachable_pc_inv q np nc cf :
  Z.of_nat (length q) = QUEUE_SIZE -> reachable section (main q np nc) cf -> pc_inv (start_roles np nc) cf.
Proof. intros Hq. apply reachable_inv; [by apply pc_main_inv|]. intros c c'. apply pc_inv_step. Qed.

(** A thread of each role is there all along. *)
Lemma role_present roles cf r : pc_inv roles cf -> r ∈ roles -> exists i t, snd cf !! i = Some t /\ trole (local t) = r.
Proof.
  intros HI. rewrite <- (pi_roles _ _ HI). intros H. apply list_elem_of_fmap in H as (t & -> & H).
  apply list_elem_of_lookup in H as [i Hi]. eauto.
Qed.

Lemma both_roles np nc r : (0 < np)%nat -> (0 < nc)%nat -> r ∈ start_roles np nc.
Proof.
  intros Hp Hc. unfold start_roles. apply elem_of_app. destruct r; [left|right]; apply elem_of_replicate; (split; [done|lia]).
Qed.

(** When nobody can run, a thread that waits leaves the other role no way to
    be stopped. *)
Lemma stuck_roles roles cf r i l :
  pc_inv roles cf -> Forall (fun t => ~ runnable t) (snd cf) -> other r ∈ roles ->
  snd cf !! i = Some (Waiting (cond_of r) l) -> False.
Proof.
  intros HI Hno Hro Hi. rewrite Forall_forall in Hno.
  destruct (pi_wake _ _ HI r i l Hi) as [(j & t & Hj & Hrun & _)|[Hb Hm]].
  { by apply (Hno t); [by eapply list_elem_of_lookup_2|]. }
  destruct (role_present _ _ _ HI Hro) as (j & t & Hj & Hrole).
  pose proof (pi_ring _ _ HI) as [Hq Hh Hl Ht Hit Hmax].
  destruct t as [l'|c l'|l'|l']; cbn in Hrole.
  - by apply (Hno (Outside l')); [by eapply list_elem_of_lookup_2|].
  - pose proof (pi_cond _ _ HI j c l' Hj) as ->. rewrite Hrole in Hj.
    destruct (pi_wake _ _ HI (other r) j l' Hj) as [(k & t & Hk & Hrun & _)|[Hb' _]].
    { by apply (Hno t); [by eapply list_elem_of_lookup_2|]. }
    unfold blocked in *. destruct r; cbn in *; lia.
  - by apply (Hno (Woken l')); [by eapply list_elem_of_lookup_2|].
  - pose proof (pi_exited _ _ HI j l' Hj) as He. rewrite Hrole in He. unfold blocked in *. destruct r; cbn in *; lia.
Qed.
End program.

(** In every reachable state the ring is well formed and holds the items
    produced and not yet consumed; the next critical section of every thread
    is defined as long as its count of sleeps fits an [int], and it waits only
    when the queue is full (empty), ends only when all items are through, and
    otherwise puts its number behind the items in the queue (takes the oldest
    one). *)
Theorem pc_invariant N_ITEMS QUEUE_SIZE q np nc cf :
  0 < QUEUE_SIZE <= INT_MAX -> 0 <= N_ITEMS <= INT_MAX -> Z.of_nat (length q) = QUEUE_SIZE ->
  reachable (section N_ITEMS QUEUE_SIZE) (main q np nc) cf ->
  ring_ok N_ITEMS QUEUE_SIZE (fst cf) /\
  forall i t, snd cf !! i = Some t -> runnable t -> n_sleeps (local t) < INT_MAX ->
  exists r, section N_ITEMS QUEUE_SIZE (fst cf) (local t) = Done r /\
            sec_result N_ITEMS QUEUE_SIZE (fst cf) (local t) r.
Proof.
  intros Hs Hn Hq Hr. pose proof (reachable_pc_inv _ _ Hs Hn _ _ _ _ Hq Hr) as HI.
  split; [apply HI|]. intros i t Ht Hrun Hsl. pose proof (pi_counts _ _ _ _ HI) as Hc. rewrite Forall_forall in Hc.
  pose proof (pc_section_spec _ _ Hs Hn (fst cf) (local t) (pi_ring _ _ _ _ HI)) as H.
  destruct (section _ _ _ _) as [r| |]; [exists r; split; [done|]; apply H|exfalso..].
  1: by apply Hc, (list_elem_of_lookup_2 _ i).
  1: by eapply pi_contribs.
  all: assert (INT_MAX <= n_sleeps (local t)); [|lia]; apply H;
    [by apply Hc, (list_elem_of_lookup_2 _ i)|by eapply pi_contribs].
Qed.

(** C33. With a producer, a consumer and room for an item, the program never
    deadlocks: as long as a thread has not ended, some thread can go on,
    whichever waiting threads the signals wake. *)
Theorem pc_no_deadlock N_ITEMS QUEUE_SIZE q np nc cf :
  0 < QUEUE_SIZE <= INT_MAX -> 0 <= N_ITEMS <= INT_MAX -> Z.of_nat (length q) = QUEUE_SIZE ->
  (0 < np)%nat -> (0 < nc)%nat ->
  reachable (section N_ITEMS QUEUE_SIZE) (main q np nc) cf -> ~ deadlocked cf.
Proof.
  intros Hs Hn Hq Hp Hc Hr [Hno Hend]. pose proof (reachable_pc_inv _ _ Hs Hn _ _ _ _ Hq Hr) as HI.
  apply Hend, Forall_forall. intros t Ht. apply list_elem_of_lookup in Ht as [i Hi].
  pose proof Hno as Hno'. rewrite Forall_forall in Hno'. specialize (Hno' t (list_elem_of_lookup_2 _ _ _ Hi)).
  destruct t as [l|c l|l|l]; cbn in *; [tauto| |tauto|done].
  pose proof (pi_cond _ _ _ _ HI i c l Hi) as ->.
  eapply (stuck_roles _ _ Hs _ _ _ i l HI Hno); [|done]. by apply both_roles.
Qed.

(** When all threads have ended, exactly the asked-for number of items was
    produced and consumed, the queue is empty, and the threads' counts add up
    to it. *)
Theorem pc_final N_ITEMS QUEUE_SIZE q np nc cf :
  0 < QUEUE_SIZE <= INT_MAX -> 0 <= N_ITEMS <= INT_MAX -> Z.of_nat (length q) = QUEUE_SIZE ->
  (0 < np)%nat -> (0 < nc)%nat ->
  reachable (section N_ITEMS QUEUE_SIZE) (main q np nc) cf -> Forall ended (snd cf) ->
  n_produced (fst cf) = N_ITEMS /\ n_consumed (fst cf) = N_ITEMS /\ queue_len (fst cf) = 0 /\
  forall r, total (contribs r) (snd cf) = N_ITEMS.
Proof.
  intros Hs Hn Hq Hp Hc Hr Hend. pose proof (reachable_pc_inv _ _ Hs Hn _ _ _ _ Hq Hr) as HI.
  assert (Hall : forall r, N_ITEMS <= moved r (fst cf)).
  { intros r. destruct (role_present _ _ _ _ r HI) as (i & t & Hi & <-); [by apply both_roles|].
    rewrite Forall_forall in Hend. specialize (Hend t (list_elem_of_lookup_2 _ _ _ Hi)).
    destruct t; try done. by apply (pi_exited _ _ _ _ HI i). }
  pose proof (Hall Producer) as Hp'. pose proof (Hall Consumer) as Hc'. cbn in Hp', Hc'.
  pose proof (pi_ring _ _ _ _ HI) as [Hq' Hh Hl Ht Hit Hmax]. split_and!; [lia..|].
  intros r. rewrite (pi_total _ _ _ _ HI r). destruct r; cbn; lia.
Qed.

(** ** A run

    One producer, one consumer, one item: the consumer comes first and waits,
    the producer wakes it, both end. *)
Definition ex_info (r : role) (s c : Z) : info := mkInfo r 0 s c.
Definition ex_waiting : config (Sh := shared) (L := info) (Cond := cond) :=
  (mkShared [7] 0 0 0 0 0, [Outside (ex_info Producer 0 0); Waiting not_empty (ex_info Consumer 1 0)]).
Definition ex_put : config (Sh := shared) (L := info) (Cond := cond) :=
  (mkShared [0] 0 0 1 1 0, [Outside (ex_info Producer 0 1); Woken (ex_info Consumer 1 0)]).
Definition ex_taken : config (Sh := shared) (L := info) (Cond := cond) :=
  (mkShared [0] 0 0 0 1 1, [Outside (ex_info Producer 0 1); Outside (ex_info Consumer 1 1)]).
Definition ex_end : config (Sh := shared) (L := info) (Cond := cond) :=
  (mkShared [0] 0 0 0 1 1, [Exited (ex_info Producer 0 1); Exited (ex_info Consumer 1 1)]).

Ltac take_step i := eapply (StepSection _ _ _ i); [reflexivity|exact I|vm_compute; reflexivity|].

Lemma ex_reach_put : reachable (section 1 1) (main [7] 1 1) ex_put.
Proof.
  apply (rtc_l _ _ ex_waiting); [take_step 1%nat; apply WakesNil|].
  apply rtc_once. take_step 0%nat. apply (WakesSignal _ _ _ _ 1 (ex_info Consumer 1 0)); [done|]. apply WakesNil.
Qed.

Lemma ex_reach_end : reachable (section 1 1) (main [7] 1 1) ex_end.
Proof.
  unfold reachable. etransitivity; [apply ex_reach_put|].
  apply (rtc_l _ _ ex_taken); [take_step 1%nat; apply WakesNobody; [by repeat constructor|apply WakesNil]|].
  apply (rtc_l _ _ (mkShared [0] 0 0 0 1 1, [Exited (ex_info Producer 0 1); Outside (ex_info Consumer 1 1)])).
  - take_step 0%nat. apply WakesBroadcast, WakesNil.
  - apply rtc_once. take_step 1%nat. apply WakesBroadcast, WakesNil.
Qed.

Lemma pc_invariant_witness :
  ring_ok 1 1 (fst ex_put) /\
  forall i t, snd ex_put !! i = Some t -> runnable t -> n_sleeps (local t) < INT_MAX ->
  exists r, section 1 1 (fst ex_put) (local t) = Done r /\ sec_result 1 1 (fst ex_put) (local t) r.
Proof. apply (pc_invariant 1 1 [7] 1 1); [by vm_compute..|apply ex_reach_put]. Defined.

Lemma pc_no_deadlock_witness : ~ deadlocked ex_put.
Proof. apply (pc_no_deadlock 1 1 [7] 1 1); [by vm_compute..|lia|lia|apply ex_reach_put]. Defined.

Lemma pc_final_witness :
  n_produced (fst ex_end) = 1 /\ n_consumed (fst ex_end) = 1 /\ queue_len (fst ex_end) = 0 /\
  forall r, total (contribs r) (snd ex_end) = 1.
Proof. apply (pc_final 1 1 [7] 1 1); [by vm_compute..|lia|lia|apply ex_reach_end|by repeat constructor]. Defined.

End ProducerConsumer.
