(* ===== verification/DataToKernel.v ===== *)
(** * Producers that take turns: [hw2/data_to_kernel.c]

    Producer threads numbered from 1 each put their number into a ring of
    packets, in the order of their numbers; consumer threads serve the packets
    until every producer was served.  [producer] and [consumer] are the
    critical sections of the two thread functions; [served] is what the
    consumers print.

    A producer wakes only consumers, although another producer may wait for
    its turn; that the turn is still taken, because a consumer comes in
    between, is part of [d2k_no_deadlock].  [d2k_in_order] says that the
    producers are served in order, each once. *)

From S2P Require Import Prelude Monitor.

Module DataToKernel.
Import Monitor.

Inductive cond : Type := not_full | not_empty.
#[export] Instance cond_eq_dec : EqDecision cond.
Proof. solve_decision. Defined.

Inductive role : Type := Producer | Consumer.

(** The function a thread runs, and its [id]. *)
Abbreviation thread := (role * Z)%type.

Record shared : Type := mkShared {
  packets : list Z;
  packet_head : Z;
  packet_tail : Z;
  avail_packets : Z;
  curr_producer_id : Z;
  served : list Z
}.

Section program.
Context (N_PACKETS N_PRODUCERS : Z).

(** [x % N_PACKETS] *)
Definition mod_packets (x : Z) : outcome Z := if bool_decide (N_PACKETS = 0) then Stuck else Done (Z.rem x N_PACKETS).

Definition producer (sh : shared) (id : Z) : outcome (shared * thread * act cond * list (wake cond)) :=
  if bool_decide (avail_packets sh = 0) || bool_decide (curr_producer_id sh ≠ id) then
    Done (sh, (Producer, id), WaitOn not_full, [])
  else
    p ← setZ (packets sh) (packet_tail sh) id;
    tl ← int_op (packet_tail sh + 1);
    tl ← mod_packets tl;
    av ← int_op (avail_packets sh - 1);
    cur ← int_op (curr_producer_id sh + 1);
    Done (mkShared p (packet_head sh) tl av cur (served sh), (Producer, id), Return, [Broadcast not_empty]).

Definition consumer (sh : shared) (id : Z) : outcome (shared * thread * act cond * list (wake cond)) :=
  if bool_decide (avail_packets sh = N_PACKETS) then
    last ← int_op (N_PRODUCERS + 1);
    if bool_decide (curr_producer_id sh = last) then Done (sh, (Consumer, id), Return, [])
    else Done (sh, (Consumer, id), WaitOn not_empty, [])
  else
    served_id ← getZ (packets sh) (packet_head sh);
    hd ← int_op (packet_head sh + 1);
    hd ← mod_packets hd;
    av ← int_op (avail_packets sh + 1);
    Done (mkShared (packets sh) hd (packet_tail sh) av (curr_producer_id sh) (served sh ++ [served_id]),
          (Consumer, id), Unlock, [Broadcast not_full]).

Definition section (sh : shared) (t : thread) : outcome (shared * thread * act cond * list (wake cond)) :=
  match t with
  | (Producer, id) => producer sh id
  | (Consumer, id) => consumer sh id
  end.

(** What [main] sets up: the packets are what [malloc] returned. *)
Definition main (p : list Z) (consumers : Z) : config (Sh := shared) (L := thread) (Cond := cond) :=
  (mkShared p 0 0 N_PACKETS 1 [],
   ((fun i => Outside (Producer, i + 1)) <$> seqZ 0 N_PRODUCERS) ++
   ((fun i => Outside (Consumer, i + 1)) <$> seqZ 0 consumers)).

(** ** The ring *)

Definition used (sh : shared) : Z := N_PACKETS - avail_packets sh.

Record ring_ok (sh : shared) : Prop := {
  ro_packets : Z.of_nat (length (packets sh)) = N_PACKETS;
  ro_head : 0 <= packet_head sh < N_PACKETS;
  ro_used : 0 <= used sh <= N_PACKETS;
  ro_tail : packet_tail sh = (packet_head sh + used sh) mod N_PACKETS;
  ro_curr : 1 <= curr_producer_id sh <= N_PRODUCERS + 1;
  ro_order : served sh ++ ring_items N_PACKETS (packets sh) (packet_head sh) (used sh) =
             seqZ 1 (curr_producer_id sh - 1)
}.

Context (Hpackets : 0 < N_PACKETS <= INT_MAX) (Hprod : 0 <= N_PRODUCERS < INT_MAX).

Lemma mod_packets_spec x : 0 <= x -> mod_packets x = Done (x mod N_PACKETS).
Proof. intros. unfold mod_packets. rewrite bool_decide_eq_false_2 by lia. by rewrite Z.rem_mod_nonneg by lia. Qed.

(** What a critical section does. *)
Inductive sec_result (sh : shared) : thread -> shared * thread * act cond * list (wake cond) -> Prop :=
  | SecProdWait id : used sh = N_PACKETS \/ curr_producer_id sh ≠ id ->
      sec_result sh (Producer, id) (sh, (Producer, id), WaitOn not_full, [])
  | SecPut id sh' : curr_producer_id sh = id -> ring_ok sh' -> curr_producer_id sh' = id + 1 ->
      served sh' = served sh -> used sh' = used sh + 1 ->
      sec_result sh (Producer, id) (sh', (Producer, id), Return, [Broadcast not_empty])
  | SecEnd id : used sh = 0 -> curr_producer_id sh = N_PRODUCERS + 1 ->
      sec_result sh (Consumer, id) (sh, (Consumer, id), Return, [])
  | SecConsWait id : used sh = 0 -> curr_producer_id sh <= N_PRODUCERS ->
      sec_result sh (Consumer, id) (sh, (Consumer, id), WaitOn not_empty, [])
  | SecServe id sh' c : 0 < used sh -> ring_ok sh' -> curr_producer_id sh' = curr_producer_id sh ->
      served sh' = served sh ++ [c] -> used sh' = used sh - 1 ->
      sec_result sh (Consumer, id) (sh', (Consumer, id), Unlock, [Broadcast not_full]).

Lemma d2k_section_spec sh t :
  ring_ok sh -> (forall id, t = (Producer, id) -> id <= N_PRODUCERS) ->
  exists r, section sh t = Done r /\ sec_result sh t r.
Proof.
  intros Hr Hid. pose proof Hr as [Hq Hh Hu Ht Hc Ho]. unfold used in *.
  assert (Htl : 0 <= packet_tail sh < N_PACKETS) by (rewrite Ht; apply Z.mod_pos_bound; lia).
  destruct t as [[|] id]; cbn [section]; unfold producer, consumer, INT_MAX in *.
  - destruct (bool_decide_reflect (avail_packets sh = 0)) as [Ha|Ha]; cbn [orb].
    { eexists. split; [done|]. apply SecProdWait. left. unfold used. lia. }
    destruct (bool_decide_reflect (curr_producer_id sh ≠ id)) as [Hne|<-%dec_stable].
    { eexists. split; [done|]. apply SecProdWait. by right. }
    specialize (Hid _ eq_refl).
    rewrite setZ_ok by lia. step_tests. rewrite mod_packets_spec by lia. step_tests.
    eexists. split; [done|]. apply SecPut; cbn; try done; [|unfold used; cbn; lia].
    constructor; unfold used; cbn; try lia; [by rewrite length_insert|..].
    + rewrite Ht, Zplus_mod_idemp_l. f_equal. lia.
    + replace (N_PACKETS - (avail_packets sh - 1)) with (N_PACKETS - avail_packets sh + 1) by lia.
      rewrite Ht, ring_put, app_assoc, Ho by lia.
      replace (curr_producer_id sh + 1 - 1) with (curr_producer_id sh - 1 + 1) by lia.
      rewrite seqZ_app by lia. f_equal. rewrite (seqZ_cons _ 1) by lia. cbn. f_equal. lia.
  - destruct (bool_decide_reflect (avail_packets sh = N_PACKETS)) as [Ha|Ha].
    { step_tests. case_bool_decide; eexists; (split; [done|]).
      - apply SecEnd; [unfold used; lia|done].
      - apply SecConsWait; [unfold used|]; lia. }
    destruct (ring_take N_PACKETS (packets sh) (packet_head sh) (N_PACKETS - avail_packets sh)) as (c & -> & Hcon); [lia..|].
    step_tests. rewrite mod_packets_spec by lia. step_tests.
    eexists. split; [done|]. apply (SecServe sh id _ c); cbn; try done; [unfold used; lia| |unfold used; cbn; lia].
    constructor; unfold used; cbn; try lia; [apply Z.mod_pos_bound; lia|..].
    + rewrite Ht, Zplus_mod_idemp_l. f_equal. lia.
    + rewrite <- app_assoc, <- Ho, Hcon. cbn. do 3 f_equal. lia.
Qed.

(** ** The invariant *)

Record d2k_inv (threads : list thread) (cf : config (Sh := shared) (L := thread) (Cond := cond)) : Prop := {
  di_ring : ring_ok (fst cf);
  di_threads : local <$> snd cf = threads;
  di_cond i c l : snd cf !! i = Some (Waiting c l) -> c = match fst l with Producer => not_full | Consumer => not_empty end;
  di_done i t id : snd cf !! i = Some t -> local t = (Producer, id) -> (ended t <-> id < curr_producer_id (fst cf));
  di_turn i c id : snd cf !! i = Some (Waiting c (Producer, id)) -> id = curr_producer_id (fst cf) -> 0 < used (fst cf);
  di_wait i c id : snd cf !! i = Some (Waiting c (Consumer, id)) ->
    used (fst cf) = 0 /\ curr_producer_id (fst cf) <= N_PRODUCERS;
  di_exit i id : snd cf !! i = Some (Exited (Consumer, id)) ->
    used (fst cf) = 0 /\ curr_producer_id (fst cf) = N_PRODUCERS + 1
}.

Context (threads : list thread).
Context (Hle : forall id, (Producer, id) ∈ threads -> id <= N_PRODUCERS).
Context (Huniq : forall i j id, threads !! i = Some (Producer, id) -> threads !! j = Some (Producer, id) -> i = j).

Lemma d2k_local cf i t : d2k_inv threads cf -> snd cf !! i = Some t -> threads !! i = Some (local t).
Proof. intros HI Ht. by rewrite <- (di_threads _ _ HI), list_lookup_fmap, Ht. Qed.

Lemma d2k_section sh ts i t :
  d2k_inv threads (sh, ts) -> ts !! i = Some t -> exists r, section sh (local t) = Done r /\ sec_result sh (local t) r.
Proof.
  intros HI Ht. apply d2k_section_spec; [apply HI|]. intros id Hid. apply Hle. rewrite <- Hid.
  eapply list_elem_of_lookup_2. by eapply d2k_local.
Qed.

Lemma sec_result_thread sh t sh' t' a ws : sec_result sh t (sh', t', a, ws) -> t' = t.
Proof. by inversion 1. Qed.

Lemma sec_result_ring sh t sh' t' a ws : ring_ok sh -> sec_result sh t (sh', t', a, ws) -> ring_ok sh'.
Proof. by inversion 2; subst. Qed.

Lemma d2k_done_step sh ts i t sh' t' a ws ts' :
  d2k_inv threads (sh, ts) -> ts !! i = Some t -> runnable t -> sec_result sh (local t) (sh', t', a, ws) ->
  wakes ws (<[i := after a t']> ts) ts' ->
  forall j u id, ts' !! j = Some u -> local u = (Producer, id) -> (ended u <-> id < curr_producer_id sh').
Proof.
  intros HI Ht Hrun Hres Hw j u id Hj Hu. pose proof (sec_result_thread _ _ _ _ _ _ Hres) as ->.
  assert (Hold : forall t1, ts !! j = Some t1 -> local u = local t1 -> (ended t1 <-> id < curr_producer_id sh)).
  { intros t1 H1 Hl. rewrite Hl in Hu. by apply (di_done _ _ HI j). }
  assert (Hni : ~ ended t) by (destruct t; cbn in *; tauto).
  destruct (ended_after _ _ _ _ _ _ _ _ _ Ht Hw Hj) as [(-> & He & Hl)|(Hne & t1 & H1 & He & Hl)]; rewrite He.
  - specialize (Hold _ Ht Hl). rewrite Hl in Hu. rewrite Hu in Hres. inversion Hres; subst; [|split; [lia|done]].
    split; [done|]. intros Hlt. destruct Hni. by apply Hold.
  - specialize (Hold _ H1 Hl). rewrite Hold. inversion Hres as [|? ? Hc ? Hc'| | |? ? ? ? ? Hs]; subst; try done.
    + rewrite Hc'. assert (id ≠ curr_producer_id sh); [|lia]. intros ->. apply Hne. symmetry.
      apply (Huniq i j (curr_producer_id sh));
        [rewrite (d2k_local _ _ _ HI Ht)|rewrite (d2k_local _ _ _ HI H1)]; congruence.
    + by rewrite Hs.
Qed.

Lemma d2k_turn_step sh ts i t sh' t' a ws ts' :
  d2k_inv threads (sh, ts) -> ts !! i = Some t -> sec_result sh (local t) (sh', t', a, ws) ->
  wakes ws (<[i := after a t']> ts) ts' ->
  forall j c id, ts' !! j = Some (Waiting c (Producer, id)) -> id = curr_producer_id sh' -> 0 < used sh'.
Proof.
  intros HI Ht Hres Hw j c id Hj ->. pose proof (sec_result_thread _ _ _ _ _ _ Hres) as ->.
  assert (Hold : sh' = sh -> ts !! j = Some (Waiting c (Producer, curr_producer_id sh')) -> 0 < used sh').
  { intros -> H. by apply (di_turn _ _ HI j c (curr_producer_id sh)). }
  destruct (waiting_before _ _ _ _ _ _ _ _ _ _ Ht Hw Hj) as [(-> & -> & Hl)|(Hne & Hj0)].
  - rewrite <- Hl in Hres. inversion Hres as [? [Hf|Hf]| | | |]; subst; [lia|done].
  - inversion Hres as [|? ? ? ? ? ? Hu| | |? ? ? ? ? ? ? Hu]; subst; auto.
    + pose proof (ro_used _ (di_ring _ _ HI)) as ?. cbn in *. lia.
    + pose proof (di_cond _ _ HI j c _ Hj0) as Hc. cbn in Hc. subst c.
      by destruct (wakes_broadcast _ _ _ _ _ Hw Hj).
Qed.

Lemma d2k_consumers_step sh ts i t sh' t' a ws ts' :
  d2k_inv threads (sh, ts) -> ts !! i = Some t -> sec_result sh (local t) (sh', t', a, ws) ->
  wakes ws (<[i := after a t']> ts) ts' ->
  (forall j c id, ts' !! j = Some (Waiting c (Consumer, id)) -> used sh' = 0 /\ curr_producer_id sh' <= N_PRODUCERS) /\
  (forall j id, ts' !! j = Some (Exited (Consumer, id)) -> used sh' = 0 /\ curr_producer_id sh' = N_PRODUCERS + 1).
Proof.
  intros HI Ht Hres Hw. pose proof (sec_result_thread _ _ _ _ _ _ Hres) as ->. split.
  - intros j c id Hj. destruct (waiting_before _ _ _ _ _ _ _ _ _ _ Ht Hw Hj) as [(-> & -> & Hl)|(Hne & Hj0)].
    { rewrite <- Hl in Hres. by inversion Hres; subst. }
    pose proof (di_wait _ _ HI j c id Hj0) as Hold. cbn in Hold.
    pose proof (di_cond _ _ HI j c _ Hj0) as Hc. cbn in Hc. subst c.
    inversion Hres; subst; try done; [|lia]. by destruct (wakes_broadcast _ _ _ _ _ Hw Hj).
  - intros j id Hj. destruct (exited_before _ _ _ _ _ _ _ _ _ Ht Hw Hj) as [(-> & -> & Hl)|(Hne & Hj0)].
    { rewrite <- Hl in Hres. by inversion Hres; subst. }
    pose proof (di_exit _ _ HI j id Hj0) as Hold. cbn in Hold. inversion Hres as [|? ? Hc ? ? ? ? Ht'| | |]; subst; try done; [|lia].
    exfalso. assert (curr_producer_id sh <= N_PRODUCERS); [|lia]. apply Hle.
    eapply list_elem_of_lookup_2. rewrite (d2k_local _ i t HI Ht). congruence.
Qed.

Lemma d2k_inv_step cf cf' : d2k_inv threads cf -> step section cf cf' -> d2k_inv threads cf'.
Proof.
  intros HI Hs. destruct Hs as [sh ts i t sh' t' a ws ts' Ht Hrun Hcs Hw|sh ts i c l Hi].
  - destruct (d2k_section _ _ _ _ HI Ht) as (r & Hr & Hres). rewrite Hcs in Hr. injection Hr as <-.
    destruct (d2k_consumers_step _ _ _ _ _ _ _ _ _ HI Ht Hres Hw) as [H1 H2].
    pose proof (sec_result_thread _ _ _ _ _ _ Hres) as Heq.
    constructor; cbn [fst snd].
    + eapply sec_result_ring; [apply HI|done].
    + rewrite (wakes_local _ _ _ Hw), (local_insert _ _ _ _ Ht); [apply HI|by destruct a].
    + intros j c l Hj. destruct (waiting_before _ _ _ _ _ _ _ _ _ _ Ht Hw Hj) as [(_ & -> & ->)|(_ & Hj0)].
      * rewrite Heq in *. by inversion Hres.
      * by apply (di_cond _ _ HI j).
    + by eapply d2k_done_step.
    + by eapply d2k_turn_step.
    + done.
    + done.
  - pose proof HI as [G1 G2 G3 G4 G5 G6 G7]. cbn [fst snd] in *. constructor; cbn [fst snd].
    + done.
    + by rewrite (local_insert _ _ _ _ Hi).
    + intros j c' l' Hj. apply list_lookup_insert_Some in Hj as [(_ & ? & _)|[_ Hj]]; [done|by apply (G3 j)].
    + intros j t id Hj Hl. apply list_lookup_insert_Some in Hj as [(<- & <- & _)|[_ Hj]]; [|by apply (G4 j)].
      apply (G4 i (Waiting c l) id Hi). done.
    + intros j c' id Hj. apply list_lookup_insert_Some in Hj as [(_ & ? & _)|[_ Hj]]; [done|by apply (G5 j c')].
    + intros j c' id Hj. apply list_lookup_insert_Some in Hj as [(_ & ? & _)|[_ Hj]]; [done|by apply (G6 j c' id)].
    + intros j id Hj. apply list_lookup_insert_Some in Hj as [(_ & ? & _)|[_ Hj]]; [done|by apply (G7 j id)].
Qed.

(** The producer whose turn it is is among the threads and has not ended. *)
Context (Hall : forall id, 1 <= id <= N_PRODUCERS -> (Producer, id) ∈ threads).

Lemma d2k_turn cf : d2k_inv threads cf -> curr_producer_id (fst cf) <= N_PRODUCERS ->
  exists i t, snd cf !! i = Some t /\ local t = (Producer, curr_producer_id (fst cf)) /\ ~ ended t.
Proof.
  intros HI Hc. pose proof (ro_curr _ (di_ring _ _ HI)) as [Hc1 _].
  destruct (list_elem_of_lookup_1 _ _ (Hall _ (conj Hc1 Hc))) as [i Hi].
  rewrite <- (di_threads _ _ HI), list_lookup_fmap in Hi. apply fmap_Some in Hi as (t & Ht & Hl).
  exists i, t. split_and!; [done..|]. rewrite (di_done _ _ HI i t _ Ht (eq_sym Hl)). lia.
Qed.

(** Nobody can run and a producer's turn is left: then a consumer could run. *)
Lemma d2k_stuck cf : d2k_inv threads cf -> Forall (fun t => ~ runnable t) (snd cf) ->
  curr_producer_id (fst cf) <= N_PRODUCERS -> 0 < used (fst cf) /\ forall id, (Consumer, id) ∉ threads.
Proof.
  intros HI Hno Hc. rewrite Forall_forall in Hno. destruct (d2k_turn cf HI Hc) as (i & t & Hi & Hl & Hne).
  pose proof (Hno _ (list_elem_of_lookup_2 _ _ _ Hi)) as Hnr.
  assert (Hu : 0 < used (fst cf)).
  { destruct t as [l|c l|l|l]; cbn in *; try tauto. subst l. by apply (di_turn _ _ HI i c (curr_producer_id (fst cf))). }
  split; [done|]. intros id Hin. apply list_elem_of_lookup in Hin as [j Hj].
  rewrite <- (di_threads _ _ HI), list_lookup_fmap in Hj. apply fmap_Some in Hj as (u & Hj & Hlu).
  pose proof (Hno _ (list_elem_of_lookup_2 _ _ _ Hj)) as Hnu.
  destruct u as [l|c l|l|l]; cbn in Hlu, Hnu; try tauto; subst l.
  - destruct (di_wait _ _ HI j c id Hj). lia.
  - destruct (di_exit _ _ HI j id Hj). lia.
Qed.
End program.

(** ** The program *)

Section start.
Context (N_PACKETS N_PRODUCERS consumers : Z) (p : list Z).

Definition start : list thread :=
  ((fun i => (Producer, i + 1)) <$> seqZ 0 N_PRODUCERS) ++ ((fun i => (Consumer, i + 1)) <$> seqZ 0 consumers).

Lemma start_producer i id : start !! i = Some (Producer, id) -> id = Z.of_nat i + 1 /\ 1 <= id <= N_PRODUCERS.
Proof.
  unfold start. rewrite lookup_app, list_lookup_fmap. destruct (seqZ 0 N_PRODUCERS !! i) as [z|] eqn:E; cbn.
  - apply lookup_seqZ in E as [-> ?]. intros [= <-]. lia.
  - rewrite list_lookup_fmap. intros H. apply fmap_Some in H as (? & _ & ?). done.
Qed.

Lemma start_producers id : 1 <= id <= N_PRODUCERS -> (Producer, id) ∈ start.
Proof.
  intros Hid. apply elem_of_app. left. apply list_elem_of_fmap. exists (id - 1).
  split; [f_equal; lia|]. apply elem_of_seqZ. lia.
Qed.

Lemma start_consumer : 0 < consumers -> (Consumer, 1) ∈ start.
Proof.
  intros Hc. apply elem_of_app. right. apply list_elem_of_fmap. exists 0. split; [done|]. apply elem_of_seqZ. lia.
Qed.

Lemma start_unique i j id : start !! i = Some (Producer, id) -> start !! j = Some (Producer, id) -> i = j.
Proof. intros [? _]%start_producer [? _]%start_producer. lia. Qed.

Context (Hpackets : 0 < N_PACKETS <= INT_MAX) (Hprod : 0 <= N_PRODUCERS < INT_MAX).
Context (Hp : Z.of_nat (length p) = N_PACKETS).

Lemma main_outside t : t ∈ snd (main N_PACKETS N_PRODUCERS p consumers) -> exists l, t = Outside l /\ l ∈ start.
Proof.
  cbn. unfold start. intros H. apply elem_of_app in H as [H|H]; apply list_elem_of_fmap in H as (k & -> & Hk);
    eexists; (split; [done|]); apply elem_of_app; [left|right]; apply list_elem_of_fmap; eauto.
Qed.

Lemma d2k_main_inv : d2k_inv N_PACKETS N_PRODUCERS start (main N_PACKETS N_PRODUCERS p consumers).
Proof.
  pose proof main_outside as Ho. constructor.
  - constructor; unfold used; cbn; rewrite ?Z.sub_diag; try lia; [|done].
    symmetry. apply Z.mod_0_l. lia.
  - cbn. unfold start. by rewrite fmap_app, <- !list_fmap_compose.
  - intros i c l H%list_elem_of_lookup_2. by destruct (Ho _ H) as (? & ? & ?).
  - intros i t id H%list_elem_of_lookup_2 Hl. destruct (Ho _ H) as (l & -> & Hin). cbn in Hl. subst l.
    apply list_elem_of_lookup in Hin as [j Hj]. apply start_producer in Hj. cbn. split; [done|lia].
  - intros i c l H%list_elem_of_lookup_2. by destruct (Ho _ H) as (? & ? & ?).
  - intros i c l H%list_elem_of_lookup_2. by destruct (Ho _ H) as (? & ? & ?).
  - intros i l H%list_elem_of_lookup_2. by destruct (Ho _ H) as (? & ? & ?).
Qed.

Lemma reachable_d2k_inv cf :
  reachable (section N_PACKETS N_PRODUCERS) (main N_PACKETS N_PRODUCERS p consumers) cf ->
  d2k_inv N_PACKETS N_PRODUCERS start cf.
Proof.
  apply reachable_inv; [apply d2k_main_inv|]. intros c c'. apply d2k_inv_step; try done.
  - intros id Hin. apply list_elem_of_lookup in Hin as [j Hj]. apply start_producer in Hj. lia.
  - apply start_unique.
Qed.
End start.

(** The producers are served in the order of their numbers, each at most once,
    in every reachable state; no critical section is undefined. *)
Theorem d2k_in_order N_PACKETS N_PRODUCERS consumers p cf :
  0 < N_PACKETS <= INT_MAX -> 0 <= N_PRODUCERS < INT_MAX -> Z.of_nat (length p) = N_PACKETS ->
  reachable (section N_PACKETS N_PRODUCERS) (main N_PACKETS N_PRODUCERS p consumers) cf ->
  served (fst cf) = seqZ 1 (Z.of_nat (length (served (fst cf)))) /\
  Z.of_nat (length (served (fst cf))) <= N_PRODUCERS /\
  forall i t, snd cf !! i = Some t -> exists r, section N_PACKETS N_PRODUCERS (fst cf) (local t) = Done r.
Proof.
  intros Hp Hn Hl Hr. pose proof (reachable_d2k_inv _ _ _ _ Hp Hn Hl _ Hr) as HI.
  pose proof (di_ring _ _ _ _ HI) as [Hq Hh Hu Ht Hc Ho].
  set (k := Z.of_nat (length (served (fst cf)))).
  assert (Hk : k <= curr_producer_id (fst cf) - 1).
  { apply (f_equal length) in Ho. rewrite length_app, length_seqZ in Ho. lia. }
  split_and!; [|lia|].
  - replace (curr_producer_id (fst cf) - 1) with (k + (curr_producer_id (fst cf) - 1 - k)) in Ho by lia.
    rewrite seqZ_app in Ho by lia. apply app_inj_1 in Ho as [Ho _]; [done|].
    rewrite length_seqZ. subst k. lia.
  - destruct cf as [sh ts]. intros i t Hi. edestruct d2k_section as (r & Hr' & _); [done..| |exact HI|exact Hi|by exists r].
    intros id Hin. apply list_elem_of_lookup in Hin as [j Hj]. apply start_producer in Hj. lia.
Qed.

(** With a consumer and room for a packet the program never deadlocks. *)
Theorem d2k_no_deadlock N_PACKETS N_PRODUCERS consumers p cf :
  0 < N_PACKETS <= INT_MAX -> 0 <= N_PRODUCERS < INT_MAX -> Z.of_nat (length p) = N_PACKETS -> 0 < consumers ->
  reachable (section N_PACKETS N_PRODUCERS) (main N_PACKETS N_PRODUCERS p consumers) cf -> ~ deadlocked cf.
Proof.
  intros Hp Hn Hl Hc Hr [Hno Hend]. pose proof (reachable_d2k_inv _ _ _ _ Hp Hn Hl _ Hr) as HI.
  destruct (decide (curr_producer_id (fst cf) <= N_PRODUCERS)) as [Hle|Hgt].
  { destruct (d2k_stuck _ _ Hp Hn _ (start_producers N_PRODUCERS consumers) cf HI Hno Hle) as [_ H].
    by apply (H 1), start_consumer. }
  apply Hend, Forall_forall. intros t Ht. apply list_elem_of_lookup in Ht as [i Hi].
  rewrite Forall_forall in Hno. specialize (Hno t (list_elem_of_lookup_2 _ _ _ Hi)).
  destruct t as [l|c [[|] id]|l|l]; cbn in *; try tauto.
  - pose proof (di_threads _ _ _ _ HI) as Hth. assert (Hj : start N_PRODUCERS consumers !! i = Some (Producer, id)).
    { by rewrite <- Hth, list_lookup_fmap, Hi. }
    apply start_producer in Hj as [_ Hj]. apply (di_done _ _ _ _ HI i _ id Hi); [done|]. lia.
  - destruct (di_wait _ _ _ _ HI i c id Hi). lia.
Qed.

(** When all threads have ended, every producer was served, in order. *)
Theorem d2k_final N_PACKETS N_PRODUCERS consumers p cf :
  0 < N_PACKETS <= INT_MAX -> 0 <= N_PRODUCERS < INT_MAX -> Z.of_nat (length p) = N_PACKETS -> 0 < consumers ->
  reachable (section N_PACKETS N_PRODUCERS) (main N_PACKETS N_PRODUCERS p consumers) cf ->
  Forall ended (snd cf) -> served (fst cf) = seqZ 1 N_PRODUCERS.
Proof.
  intros Hp Hn Hl Hc Hr Hend. pose proof (reachable_d2k_inv _ _ _ _ Hp Hn Hl _ Hr) as HI.
  destruct (list_elem_of_lookup_1 _ _ (start_consumer N_PRODUCERS consumers Hc)) as [i Hi].
  rewrite <- (di_threads _ _ _ _ HI), list_lookup_fmap in Hi. apply fmap_Some in Hi as (t & Hi & Hlt).
  rewrite Forall_forall in Hend. specialize (Hend t (list_elem_of_lookup_2 _ _ _ Hi)).
  destruct t as [l|c l|l|l]; try done. cbn in Hlt. subst l. destruct (di_exit _ _ _ _ HI i 1 Hi) as [Hu Hcur].
  pose proof (ro_order _ _ _ (di_ring _ _ _ _ HI)) as Ho. rewrite Hu, Hcur in Ho. unfold ring_items in Ho.
  cbn in Ho. rewrite app_nil_r in Ho. rewrite Ho. f_equal. lia.
Qed.

(** ** A run

    One packet, two producers, one consumer; the second producer comes first
    and waits for its turn. *)
Abbreviation cfg := (config (Sh := shared) (L := thread) (Cond := cond)).
Definition ex_c1 : cfg :=
  (mkShared [9] 0 0 1 1 [], [Outside (Producer, 1); Waiting not_full (Producer, 2); Outside (Consumer, 1)]).
Definition ex_c2 : cfg :=
  (mkShared [1] 0 0 0 2 [], [Exited (Producer, 1); Waiting not_full (Producer, 2); Outside (Consumer, 1)]).
Definition ex_c3 : cfg :=
  (mkShared [1] 0 0 1 2 [1], [Exited (Producer, 1); Woken (Producer, 2); Outside (Consumer, 1)]).
Definition ex_c4 : cfg :=
  (mkShared [2] 0 0 0 3 [1], [Exited (Producer, 1); Exited (Producer, 2); Outside (Consumer, 1)]).
Definition ex_c5 : cfg :=
  (mkShared [2] 0 0 1 3 [1; 2], [Exited (Producer, 1); Exited (Producer, 2); Outside (Consumer, 1)]).
Definition ex_c6 : cfg :=
  (mkShared [2] 0 0 1 3 [1; 2], [Exited (Producer, 1); Exited (Producer, 2); Exited (Consumer, 1)]).

Ltac take_step i := eapply (StepSection _ _ _ i); [reflexivity|exact I|vm_compute; reflexivity|].

Lemma ex_reach_c2 : reachable (section 1 2) (main 1 2 [9] 1) ex_c2.
Proof.
  apply (rtc_l _ _ ex_c1); [take_step 1%nat; apply WakesNil|].
  apply rtc_once. take_step 0%nat. apply WakesBroadcast, WakesNil.
Qed.

Lemma ex_reach_c6 : reachable (section 1 2) (main 1 2 [9] 1) ex_c6.
Proof.
  unfold reachable. etransitivity; [apply ex_reach_c2|].
  apply (rtc_l _ _ ex_c3); [take_step 2%nat; apply WakesBroadcast, WakesNil|].
  apply (rtc_l _ _ ex_c4); [take_step 1%nat; apply WakesBroadcast, WakesNil|].
  apply (rtc_l _ _ ex_c5); [take_step 2%nat; apply WakesBroadcast, WakesNil|].
  apply rtc_once. take_step 2%nat. apply WakesNil.
Qed.

Lemma d2k_in_order_witness :
  served (fst ex_c6) = seqZ 1 2 /\ 2 <= 2 /\
  forall i t, snd ex_c6 !! i = Some t -> exists r, section 1 2 (fst ex_c6) (local t) = Done r.
Proof. apply (d2k_in_order 1 2 1 [9]); [by vm_compute..|apply ex_reach_c6]. Defined.

Lemma d2k_no_deadlock_witness : ~ deadlocked ex_c2.
Proof. apply (d2k_no_deadlock 1 2 1 [9]); [by vm_compute..|apply ex_reach_c2]. Defined.

Lemma d2k_final_witness : served (fst ex_c6) = seqZ 1 2.
Proof. apply (d2k_final 1 2 1 [9]); [by vm_compute..|apply ex_reach_c6|by repeat constructor]. Defined.

End DataToKernel.
