(* ===== verification/HelloThreads.v ===== *)
(** * A counter under a mutex: [hw2/hello_threads.c]

    Every thread adds one to [sum] a thousand times, each time under the
    mutex; no update is lost. *)

From S2P Require Import Prelude Monitor.

Module HelloThreads.
Import Monitor.

Definition N_THREADS : Z := 1000.
Definition N_LOOPS : Z := 1000.

(** The shared state is [sum], a thread's local data its loop counter. *)
Definition worker (sum : Z) (i : Z) : outcome (Z * Z * act Empty_set * list (wake Empty_set)) :=
  sum ← int_op (sum + 1);
  i ← int_op (i + 1);
  Done (sum, i, if bool_decide (i < N_LOOPS) then Unlock else Return, []).

Definition main : config (Sh := Z) (L := Z) (Cond := Empty_set) := (0, replicate (Z.to_nat N_THREADS) (Outside 0)).

Definition in_range (t : tstate Z Empty_set) : Prop :=
  match t with
  | Outside i => 0 <= i < N_LOOPS
  | Exited i => i = N_LOOPS
  | _ => False
  end.

(** [sum] is the number of iterations done. *)
Definition sum_inv (cf : config (Sh := Z) (L := Z) (Cond := Empty_set)) : Prop :=
  fst cf = total (fun i => i) (snd cf) /\ Z.of_nat (length (snd cf)) = N_THREADS /\ Forall in_range (snd cf).

Lemma total_range (ts : list (tstate Z Empty_set)) :
  Forall in_range ts -> 0 <= total (fun i => i) ts <= Z.of_nat (length ts) * N_LOOPS.
Proof.
  unfold N_LOOPS. induction 1 as [|t ts Ht _ IH]; [cbn; lia|].
  change (total (fun i => i) (t :: ts)) with (local t + total (fun i => i) ts). cbn [length].
  destruct t; unfold in_range, N_LOOPS in *; cbn in *; [lia|done..|lia].
Qed.

Lemma total_ended (ts : list (tstate Z Empty_set)) :
  Forall in_range ts -> Forall ended ts -> total (fun i => i) ts = Z.of_nat (length ts) * N_LOOPS.
Proof.
  unfold N_LOOPS. induction 1 as [|t ts Ht _ IH]; intros He; [done|]. apply Forall_cons in He as [He0 He].
  change (total (fun i => i) (t :: ts)) with (local t + total (fun i => i) ts). rewrite (IH He). cbn [length].
  destruct t; unfold in_range, N_LOOPS in *; cbn in *; try done. lia.
Qed.

Lemma total_start n : total (fun i : Z => i) (replicate n (Outside (Cond := Empty_set) 0)) = 0.
Proof. induction n as [|n IH]; [done|]. unfold total in *. cbn. by rewrite IH. Qed.

Lemma hello_main_inv : sum_inv main.
Proof.
  split_and!; cbn [fst snd main].
  - by rewrite total_start.
  - by rewrite length_replicate.
  - apply Forall_replicate. cbn. unfold N_LOOPS. lia.
Qed.

Lemma sum_inv_step cf cf' : sum_inv cf -> step worker cf cf' -> sum_inv cf'.
Proof.
  intros (Hs & Hl & Hr) Hst. destruct Hst as [sh ts i t sh' l' a ws ts' Ht Hrun Hcs Hw|? ? ? [] ?].
  cbn [fst snd] in *. pose proof (Forall_lookup_1 _ _ _ _ Hr Ht) as Hti. unfold worker in Hcs. inv_done. simplify_eq.
  apply wakes_nil in Hw as ->. unfold sum_inv. cbn [fst snd].
  destruct t as [k| | |]; cbn in Hrun, Hti |- *; try tauto. split_and!.
  - rewrite (total_insert _ _ _ _ _ Ht). cbn. destruct (bool_decide _); cbn; lia.
  - by rewrite length_insert.
  - apply Forall_insert; [done|]. destruct (bool_decide_reflect (k + 1 < N_LOOPS)); cbn; lia.
Qed.

(** In every reachable state [sum] is the number of increments made, no
    increment overflows, and when all threads have ended it is a million. *)
Theorem hello_sum cf :
  reachable worker main cf ->
  fst cf = total (fun i => i) (snd cf) /\
  (forall i t, snd cf !! i = Some t -> runnable t -> exists r, worker (fst cf) (local t) = Done r) /\
  (Forall ended (snd cf) -> fst cf = 1000000).
Proof.
  intros Hr. assert (HI : sum_inv cf).
  { revert Hr. apply reachable_inv; [apply hello_main_inv|]. intros c c'. apply sum_inv_step. }
  destruct HI as (Hs & Hl & Hrng). split_and!; [done|..].
  - intros i t Hi Hrun. pose proof (total_range _ Hrng) as Htot. rewrite <- Hs, Hl in Htot.
    pose proof (Forall_lookup_1 _ _ _ _ Hrng Hi) as Ht. unfold worker, N_LOOPS, N_THREADS in *.
    rewrite (int_op_ok (fst cf + 1)) by (unfold INT_MIN, INT_MAX; lia). cbn [mbind outcome_bind].
    destruct t; cbn in Ht, Hrun |- *; try tauto.
    rewrite int_op_ok by (unfold INT_MIN, INT_MAX, N_LOOPS in *; lia). cbn [mbind outcome_bind]. eauto.
  - intros He. by rewrite Hs, total_ended, Hl.
Qed.

End HelloThreads.
