(* ===== verification/CatMouse.v ===== *)
(** * Cats and mice: [kern/asst1/bowls.c], [kern/asst1/catmouse.c]

    [bowls.c] keeps the state of a number of food bowls; cats and mice eat
    from them, and the code panics when a rule is broken: one animal per bowl,
    and no cat eats while a mouse does.  [catmouse.c] starts the animals, each
    a thread that eats from randomly chosen bowls, and waits for them.

    Each access to the bowls is a critical section between [P(mutex)] and
    [V(mutex)], so it is one step; [cat_eat] and [mouse_eat] are two such
    steps, with the meal in between.  The random numbers are arbitrary.

    The theorems: in every state short of a panic the rules hold and the
    counters are exact ([bowls_rules]); the driver returns only after every
    animal has finished ([catmouse_waits]); a lone animal never breaks a rule
    ([catmouse_alone]); two may, since the animals are not synchronised
    ([catmouse_can_panic]). *)

From S2P Require Import Prelude Libc.

Module CatMouse.

(** The characters of the bowl array. *)
Definition FREE : Z := 45.
Definition CAT : Z := 99.
Definition MOUSE : Z := 109.

Record bowl_state : Type := mkBowls {
  bowls : list Z;
  num_bowls : Z;
  eating_cats_count : Z;
  eating_mice_count : Z
}.

(** The result code and the state; the answers of [kmalloc] for the array and
    for the semaphore. *)
Definition initialize_bowls (bowlcount : Z) (bowls_ok sem_ok : bool) : outcome (Z * option bowl_state) :=
  if bool_decide (bowlcount = 0) then Done (1, None)
  else if negb bowls_ok then Panic
  else if negb sem_ok then Panic
  else Done (0, Some (mkBowls (replicate (Z.to_nat bowlcount) FREE) (s32 bowlcount) 0 0)).

(** [cat_eat] before and after the meal. *)
Definition cat_eat_start (st : bowl_state) (bowlnumber : Z) : outcome bowl_state :=
  if bool_decide (bowlnumber = 0) || bool_decide (s32 bowlnumber > num_bowls st) then Panic
  else
    b ← getZ (bowls st) (bowlnumber - 1);
    if bool_decide (b = CAT) then Panic
    else if bool_decide (eating_mice_count st > 0) then Panic
    else
      assert! bool_decide (b = FREE);;
      assert! bool_decide (eating_mice_count st = 0);;
      n ← int_op (eating_cats_count st + 1);
      bs ← setZ (bowls st) (bowlnumber - 1) CAT;
      Done (mkBowls bs (num_bowls st) n (eating_mice_count st)).

Definition cat_eat_finish (st : bowl_state) (bowlnumber : Z) : outcome bowl_state :=
  assert! bool_decide (eating_cats_count st > 0);;
  b ← getZ (bowls st) (bowlnumber - 1);
  assert! bool_decide (b = CAT);;
  n ← int_op (eating_cats_count st - 1);
  bs ← setZ (bowls st) (bowlnumber - 1) FREE;
  Done (mkBowls bs (num_bowls st) n (eating_mice_count st)).

Definition mouse_eat_start (st : bowl_state) (bowlnumber : Z) : outcome bowl_state :=
  if bool_decide (bowlnumber = 0) || bool_decide (s32 bowlnumber > num_bowls st) then Panic
  else
    b ← getZ (bowls st) (bowlnumber - 1);
    if bool_decide (b = MOUSE) then Panic
    else if bool_decide (eating_cats_count st > 0) then Panic
    else
      assert! bool_decide (b = FREE);;
      assert! bool_decide (eating_cats_count st = 0);;
      n ← int_op (eating_mice_count st + 1);
      bs ← setZ (bowls st) (bowlnumber - 1) MOUSE;
      Done (mkBowls bs (num_bowls st) (eating_cats_count st) n).

Definition mouse_eat_finish (st : bowl_state) (bowlnumber : Z) : outcome bowl_state :=
  assert! bool_decide (eating_mice_count st > 0);;
  n ← int_op (eating_mice_count st - 1);
  b ← getZ (bowls st) (bowlnumber - 1);
  assert! bool_decide (b = MOUSE);;
  bs ← setZ (bowls st) (bowlnumber - 1) FREE;
  Done (mkBowls bs (num_bowls st) (eating_cats_count st) n).

(** ** The animals *)

Inductive animal : Type := Cat | Mouse.
#[export] Instance animal_eq_dec : EqDecision animal.
Proof. solve_decision. Defined.

(** Where a thread is in its loop: asleep, at a bowl, or finished. *)
Inductive phase : Type :=
  | Away (i : Z)
  | Eating (i : Z) (bowl : Z)
  | Finished.

#[export] Instance phase_eq_dec : EqDecision phase.
Proof. solve_decision. Defined.

Definition thread : Type := animal * phase.

(** The bowls, the semaphore [CatMouseWait], how often the driver has passed
    it, and the animals. *)
Record config : Type := mkConfig { cbowls : bowl_state; wait_count : Z; waited : Z; animals : list thread }.

Section simulation.
Context (NumBowls NumLoops : Z).

(** [((unsigned int)random() % NumBowls) + 1] *)
Definition choose (random : Z) : outcome Z :=
  if bool_decide (u32 NumBowls = 0) then Stuck else Done (u32 (u32 random mod u32 NumBowls + 1)).

Definition eat_start (a : animal) : bowl_state -> Z -> outcome bowl_state :=
  match a with Cat => cat_eat_start | Mouse => mouse_eat_start end.
Definition eat_finish (a : animal) : bowl_state -> Z -> outcome bowl_state :=
  match a with Cat => cat_eat_finish | Mouse => mouse_eat_finish end.

(** The next step of [cat_simulation] or [mouse_simulation]: the bowls, the
    semaphore and where the thread is afterwards. *)
Definition simulation (st : bowl_state) (sem : Z) (a : animal) (p : phase) (random : Z)
    : outcome (bowl_state * Z * phase) :=
  match p with
  | Away i =>
      if bool_decide (i < NumLoops) then
        bowl ← choose random;
        st ← eat_start a st bowl;
        Done (st, sem, Eating i bowl)
      else Done (st, sem + 1, Finished)
  | Eating i bowl =>
      st ← eat_finish a st bowl;
      i ← int_op (i + 1);
      Done (st, sem, Away i)
  | Finished => Done (st, sem, Finished)
  end.

(** The driver waits once for every animal. *)
Definition driver_wait (cf : config) : option config :=
  if bool_decide (waited cf < Z.of_nat (length (animals cf))) && bool_decide (wait_count cf > 0)
  then Some (mkConfig (cbowls cf) (wait_count cf - 1) (waited cf + 1) (animals cf)) else None.

Inductive step : config -> config -> Prop :=
  | StepAnimal cf k a p random st sem p' :
      animals cf !! k = Some (a, p) -> p ≠ Finished ->
      simulation (cbowls cf) (wait_count cf) a p random = Done (st, sem, p') ->
      step cf (mkConfig st sem (waited cf) (<[k := (a, p')]> (animals cf)))
  | StepWait cf cf' : driver_wait cf = Some cf' -> step cf cf'.

(** Some animal's next step panics. *)
Definition can_panic (cf : config) : Prop :=
  exists k a p random, animals cf !! k = Some (a, p) /\ simulation (cbowls cf) (wait_count cf) a p random = Panic.

(** The driver has passed its last wait. *)
Definition driver_done (cf : config) : Prop := waited cf = Z.of_nat (length (animals cf)).

(** What [catmouse] starts. *)
Definition catmouse_start (st : bowl_state) (NumCats NumMice : nat) : config :=
  mkConfig st 0 0 (replicate NumCats (Cat, Away 0) ++ replicate NumMice (Mouse, Away 0)).
End simulation.

(** The arguments of the menu command, each a C string: a usage error, or the
    four numbers. *)
Definition atoi_arg (s : list Z) : outcome Z := Libc.atoi (s ++ [0]) 0.

Definition catmouse_args (args : list (list Z)) : outcome (Z + Z * Z * Z * Z) :=
  match args with
  | [_; a1; a2; a3; a4] =>
      b ← atoi_arg a1;
      if bool_decide (b <= 0) then Done (inl 1)
      else
        c ← atoi_arg a2;
        if bool_decide (c < 0) then Done (inl 1)
        else
          m ← atoi_arg a3;
          if bool_decide (m < 0) then Done (inl 1)
          else
            l ← atoi_arg a4;
            if bool_decide (l <= 0) then Done (inl 1) else Done (inr (b, c, m, l))
  | _ => Done (inl 1)
  end.

(** ** Counting animals *)

Fixpoint count (P : thread -> bool) (ts : list thread) : Z :=
  match ts with
  | [] => 0
  | t :: ts => (if P t then 1 else 0) + count P ts
  end.

Lemma count_insert P ts k t t' :
  ts !! k = Some t -> count P (<[k := t']> ts) = count P ts - (if P t then 1 else 0) + (if P t' then 1 else 0).
Proof.
  revert k. induction ts as [|t0 ts IH]; intros [|k] H; cbn in H; [done..| |].
  - simplify_eq. cbn. lia.
  - change (count P (<[S k := t']> (t0 :: ts))) with ((if P t0 then 1 else 0) + count P (<[k := t']> ts)).
    rewrite (IH k) by done. cbn. lia.
Qed.

Lemma role_count_range P ts : 0 <= count P ts <= Z.of_nat (length ts).
Proof. induction ts as [|t ts IH]; cbn [count length]; [lia|]. destruct (P t); lia. Qed.

Lemma count_pos P ts k t : ts !! k = Some t -> P t = true -> 0 < count P ts.
Proof.
  revert k. induction ts as [|t0 ts IH]; intros [|k] H HP; cbn in H |- *; [done..| |].
  - simplify_eq. rewrite HP. pose proof (role_count_range P ts). lia.
  - specialize (IH k H HP). destruct (P t0); lia.
Qed.

Lemma count_all P ts : count P ts = Z.of_nat (length ts) -> forall k t, ts !! k = Some t -> P t = true.
Proof.
  intros Hc k. revert Hc. revert k. induction ts as [|t0 ts IH]; intros k Hc t H; [done|].
  cbn [count length] in Hc. pose proof (role_count_range P ts). destruct (P t0) eqn:E; [|lia].
  destruct k as [|k]; cbn in H; [by simplify_eq|]. apply (IH k); [lia|done].
Qed.

Lemma count_exists P ts : 0 < count P ts -> exists k t, ts !! k = Some t /\ P t = true.
Proof.
  induction ts as [|t ts IH]; cbn [count]; [lia|]. destruct (P t) eqn:E; [by exists 0%nat, t|].
  intros H. destruct IH as (k & t' & ? & ?); [lia|]. by exists (S k), t'.
Qed.

Definition eats (a : animal) (t : thread) : bool :=
  match t with (a', Eating _ _) => bool_decide (a = a') | _ => false end.
Definition finished (t : thread) : bool := match t with (_, Finished) => true | _ => false end.
Definition mark (a : animal) : Z := match a with Cat => CAT | Mouse => MOUSE end.
Definition eating_count (a : animal) (st : bowl_state) : Z :=
  match a with Cat => eating_cats_count st | Mouse => eating_mice_count st end.
Definition other (a : animal) : animal := match a with Cat => Mouse | Mouse => Cat end.

(** ** The rules *)

Section rules.
Context (NumBowls NumLoops : Z) (Hbowls : 0 < NumBowls <= INT_MAX) (Hloops : 0 < NumLoops <= INT_MAX).

Record inv (cf : config) : Prop := {
  in_num : num_bowls (cbowls cf) = NumBowls;
  in_len : Z.of_nat (length (bowls (cbowls cf))) = NumBowls;
  in_eating k a i b : animals cf !! k = Some (a, Eating i b) ->
    1 <= b <= NumBowls /\ getZ (bowls (cbowls cf)) (b - 1) = Done (mark a) /\ 0 <= i < NumLoops;
  in_distinct k k' a a' i i' b : animals cf !! k = Some (a, Eating i b) -> animals cf !! k' = Some (a', Eating i' b) -> k = k';
  in_marked b c : getZ (bowls (cbowls cf)) b = Done c -> c = FREE \/
    exists k a i, animals cf !! k = Some (a, Eating i (b + 1)) /\ c = mark a;
  in_count a : eating_count a (cbowls cf) = count (eats a) (animals cf);
  in_rule : eating_cats_count (cbowls cf) = 0 \/ eating_mice_count (cbowls cf) = 0;
  in_away k a i : animals cf !! k = Some (a, Away i) -> 0 <= i <= NumLoops;
  in_sem : wait_count cf + waited cf = count finished (animals cf) /\ 0 <= wait_count cf /\ 0 <= waited cf;
  in_few : Z.of_nat (length (animals cf)) < INT_MAX
}.

Lemma choose_spec r : exists b, choose NumBowls r = Done b /\ 1 <= b <= NumBowls.
Proof.
  unfold choose, INT_MAX in *. rewrite (u32_small NumBowls) by lia. rewrite bool_decide_eq_false_2 by lia.
  pose proof (Z.mod_pos_bound (u32 r) NumBowls ltac:(lia)). eexists. split; [done|]. rewrite u32_small by lia. lia.
Qed.

(** The two meals, for a cat or a mouse. *)
Definition set_bowl (st : bowl_state) (a : animal) (b c n : Z) : bowl_state :=
  match a with
  | Cat => mkBowls (<[Z.to_nat (b - 1) := c]> (bowls st)) (num_bowls st) n (eating_mice_count st)
  | Mouse => mkBowls (<[Z.to_nat (b - 1) := c]> (bowls st)) (num_bowls st) (eating_cats_count st) n
  end.

Definition someone_eats (cf : config) : Prop := exists k a i b, animals cf !! k = Some (a, Eating i b).

Lemma eating_someone cf a : inv cf -> 0 < eating_count a (cbowls cf) -> someone_eats cf.
Proof.
  intros HI H. rewrite (in_count _ HI) in H. apply count_exists in H as (k & [a' p] & Hk & Hp).
  destruct p as [|i b|]; cbn in Hp; try done. by exists k, a', i, b.
Qed.

Lemma eat_start_spec cf a b :
  inv cf -> 1 <= b <= NumBowls ->
  (eat_start a (cbowls cf) b = Panic /\ someone_eats cf) \/
  (eating_count (other a) (cbowls cf) = 0 /\ getZ (bowls (cbowls cf)) (b - 1) = Done FREE /\
   eat_start a (cbowls cf) b = Done (set_bowl (cbowls cf) a b (mark a) (eating_count a (cbowls cf) + 1))).
Proof.
  intros HI Hb. pose proof (in_num _ HI) as Hn. pose proof (in_len _ HI) as Hl. unfold INT_MAX in *.
  destruct (getZ_total (bowls (cbowls cf)) (b - 1)) as (c & Hc & _); [lia|].
  pose proof (in_count _ HI Cat) as HC. pose proof (in_count _ HI Mouse) as HM. cbn in HC, HM.
  pose proof (role_count_range (eats Cat) (animals cf)). pose proof (role_count_range (eats Mouse) (animals cf)).
  pose proof (in_few _ HI). unfold INT_MAX in *.
  assert (Hfree : c ≠ FREE -> exists a', c = mark a' /\ 0 < eating_count a' (cbowls cf)).
  { intros Hf. destruct (in_marked _ HI _ _ Hc) as [?|(k & a' & i & Hk & ->)]; [done|].
    exists a'. split; [done|]. rewrite (in_count _ HI). eapply count_pos; [done|]. cbn. by apply bool_decide_eq_true. }
  assert (Hsome : forall a, c ≠ FREE \/ 0 < eating_count a (cbowls cf) -> someone_eats cf).
  { intros a' [(a1 & _ & Hx)%Hfree|Hx]; by eapply eating_someone. }
  destruct a; cbn [eat_start other eating_count mark set_bowl]; unfold cat_eat_start, mouse_eat_start;
    rewrite s32_small, Hn by (unfold INT_MIN, INT_MAX; lia);
    rewrite (bool_decide_eq_false_2 (b = 0)), (bool_decide_eq_false_2 (b > NumBowls)) by lia; cbn [orb];
    rewrite Hc; cbn [mbind outcome_bind]; 
    (case_bool_decide; [left; split; [done|]; apply (Hsome Cat); left; by subst|]);
    (case_bool_decide; [left; split; [done|]; first [apply (Hsome Mouse); right; cbn; lia|apply (Hsome Cat); right; cbn; lia]|]);
    (destruct (decide (c = FREE)) as [->|Hf]; [|destruct (Hfree Hf) as ([|] & -> & ?); cbn in *; (done || lia)]);
    right; (split; [lia|]); (split; [done|]); cbn [kassert mbind outcome_bind bool_decide];
    rewrite (bool_decide_eq_true_2 (_ = 0)) by lia; cbn [kassert mbind outcome_bind];
    rewrite int_op_ok by (unfold INT_MIN, INT_MAX; lia); cbn [mbind outcome_bind];
    by rewrite setZ_ok by lia.
Qed.

Lemma eat_finish_spec cf k a i b :
  inv cf -> animals cf !! k = Some (a, Eating i b) ->
  eat_finish a (cbowls cf) b = Done (set_bowl (cbowls cf) a b FREE (eating_count a (cbowls cf) - 1)).
Proof.
  intros HI Hk. destruct (in_eating _ HI _ _ _ _ Hk) as (Hb & Hg & _). pose proof (in_len _ HI) as Hl.
  assert (Hc : 0 < eating_count a (cbowls cf)).
  { rewrite (in_count _ HI). eapply count_pos; [done|]. cbn. by apply bool_decide_eq_true. }
  assert (Hr : eating_count a (cbowls cf) < INT_MAX).
  { rewrite (in_count _ HI). pose proof (role_count_range (eats a) (animals cf)). pose proof (in_few _ HI). lia. }
  unfold INT_MAX in *. destruct a; cbn [eat_finish eating_count set_bowl mark] in *; unfold cat_eat_finish, mouse_eat_finish;
    rewrite bool_decide_eq_true_2 by lia; rewrite Hg; cbn [kassert mbind outcome_bind];
    rewrite int_op_ok by (unfold INT_MIN, INT_MAX; lia); cbn [kassert mbind outcome_bind bool_decide];
    by rewrite setZ_ok by lia.
Qed.

(** A bowl that is written. *)
Lemma getZ_set_bowl st a b c n j :
  0 <= b - 1 < Z.of_nat (length (bowls st)) ->
  getZ (bowls (set_bowl st a b c n)) j = if decide (j = b - 1) then Done c else getZ (bowls st) j.
Proof.
  intros Hb. replace (bowls (set_bowl st a b c n)) with (<[Z.to_nat (b - 1) := c]> (bowls st)) by (by destruct a).
  unfold getZ. case_decide as Hj.
  - subst. rewrite bool_decide_eq_true_2, list_lookup_insert_eq by lia. done.
  - case_bool_decide; [|done]. by rewrite list_lookup_insert_ne by lia.
Qed.

Lemma set_bowl_eating st a b c n a' :
  eating_count a' (set_bowl st a b c n) = if decide (a' = a) then n else eating_count a' st.
Proof. by destruct a, a'. Qed.

Lemma set_bowl_basics st a b c n :
  num_bowls (set_bowl st a b c n) = num_bowls st /\ length (bowls (set_bowl st a b c n)) = length (bowls st).
Proof. destruct a; cbn; by rewrite length_insert. Qed.

Ltac at_index k :=
  match goal with
  | H : <[?k0 := _]> _ !! k = Some _ |- _ =>
      apply list_lookup_insert_Some in H as [(?&?&?)|[? H]]
  end.

Lemma inv_start cf k a i b :
  inv cf -> animals cf !! k = Some (a, Away i) -> i < NumLoops -> 1 <= b <= NumBowls ->
  eating_count (other a) (cbowls cf) = 0 -> getZ (bowls (cbowls cf)) (b - 1) = Done FREE ->
  inv (mkConfig (set_bowl (cbowls cf) a b (mark a) (eating_count a (cbowls cf) + 1)) (wait_count cf) (waited cf)
                (<[k := (a, Eating i b)]> (animals cf))).
Proof.
  intros HI Hk Hi Hb Ho Hg. destruct (set_bowl_basics (cbowls cf) a b (mark a) (eating_count a (cbowls cf) + 1)) as [E1 E2].
  pose proof (in_len _ HI) as Hl. pose proof (in_away _ HI _ _ _ Hk) as Hiw.
  assert (Hfree : forall k' a' i', animals cf !! k' ≠ Some (a', Eating i' b)).
  { intros k' a' i' H. destruct (in_eating _ HI _ _ _ _ H) as (_ & H' & _). rewrite Hg in H'. by destruct a'. }
  constructor; cbn [cbowls wait_count waited animals].
  - by rewrite E1, (in_num _ HI).
  - by rewrite E2.
  - intros k' a' i' b' H. rewrite getZ_set_bowl by lia. at_index k'.
    + simplify_eq. rewrite decide_True by done. split_and!; [lia|lia|done|lia|lia].
    + destruct (in_eating _ HI _ _ _ _ H) as (? & ? & ?). rewrite decide_False; [done|].
      intros ?. assert (b' = b) as -> by lia. by destruct (Hfree _ _ _ H).
  - intros k1 k2 a1 a2 i1 i2 b' H1 H2. at_index k1; at_index k2; simplify_eq; try done.
    + by destruct (Hfree _ _ _ H2).
    + by destruct (Hfree _ _ _ H1).
    + by eapply (in_distinct _ HI).
  - intros j c. rewrite getZ_set_bowl by lia. case_decide as Hj.
    + intros [= <-]. right. exists k, a, i. split; [|done]. rewrite list_lookup_insert_eq by (by eapply lookup_lt_Some).
      do 3 f_equal. lia.
    + intros H. destruct (in_marked _ HI _ _ H) as [?|(k' & a' & i' & Hk' & ?)]; [by left|]. right.
      exists k', a', i'. split; [|done]. rewrite list_lookup_insert_ne; [done|]. by intros ->; simplify_eq.
  - intros a'. rewrite set_bowl_eating, (count_insert _ _ _ _ _ Hk). cbn [eats].
    rewrite <- (in_count _ HI). case_decide; [subst; rewrite bool_decide_eq_true_2 by done|rewrite bool_decide_eq_false_2 by done]; lia.
  - pose proof (in_rule _ HI). destruct a; cbn in *; lia.
  - intros k' a' i' H. at_index k'; [by simplify_eq|]. by eapply (in_away _ HI).
  - rewrite (count_insert _ _ _ _ _ Hk). cbn [finished]. pose proof (in_sem _ HI). lia.
  - rewrite length_insert. apply HI.
Qed.

Lemma inv_finish cf k a i b :
  inv cf -> animals cf !! k = Some (a, Eating i b) ->
  inv (mkConfig (set_bowl (cbowls cf) a b FREE (eating_count a (cbowls cf) - 1)) (wait_count cf) (waited cf)
                (<[k := (a, Away (i + 1))]> (animals cf))).
Proof.
  intros HI Hk. destruct (set_bowl_basics (cbowls cf) a b FREE (eating_count a (cbowls cf) - 1)) as [E1 E2].
  pose proof (in_len _ HI) as Hl. destruct (in_eating _ HI _ _ _ _ Hk) as (Hb & Hg & Hi).
  constructor; cbn [cbowls wait_count waited animals].
  - by rewrite E1, (in_num _ HI).
  - by rewrite E2.
  - intros k' a' i' b' H. rewrite getZ_set_bowl by lia. at_index k'; [by simplify_eq|].
    destruct (in_eating _ HI _ _ _ _ H) as (? & ? & ?). rewrite decide_False; [done|].
    intros ?. assert (b' = b) as -> by lia. by pose proof (in_distinct _ HI _ _ _ _ _ _ _ Hk H).
  - intros k1 k2 a1 a2 i1 i2 b' H1 H2. at_index k1; at_index k2; simplify_eq; try done.
    by eapply (in_distinct _ HI).
  - intros j c. rewrite getZ_set_bowl by lia. case_decide as Hj; [intros [= <-]; by left|].
    intros H. destruct (in_marked _ HI _ _ H) as [?|(k' & a' & i' & Hk' & ?)]; [by left|]. right.
    exists k', a', i'. split; [|done]. rewrite list_lookup_insert_ne; [done|]. intros ->. simplify_eq. lia.
  - intros a'. rewrite set_bowl_eating, (count_insert _ _ _ _ _ Hk). cbn [eats].
    rewrite <- (in_count _ HI). case_decide; [subst; rewrite bool_decide_eq_true_2 by done|rewrite bool_decide_eq_false_2 by done]; lia.
  - pose proof (in_rule _ HI). assert (0 < eating_count a (cbowls cf)).
    { rewrite (in_count _ HI). eapply count_pos; [done|]. cbn. by apply bool_decide_eq_true. }
    destruct a; cbn in *; lia.
  - intros k' a' i' H. at_index k'; [simplify_eq; lia|]. by eapply (in_away _ HI).
  - rewrite (count_insert _ _ _ _ _ Hk). cbn [finished]. pose proof (in_sem _ HI). lia.
  - rewrite length_insert. apply HI.
Qed.

Lemma inv_end cf k a i :
  inv cf -> animals cf !! k = Some (a, Away i) ->
  inv (mkConfig (cbowls cf) (wait_count cf + 1) (waited cf) (<[k := (a, Finished)]> (animals cf))).
Proof.
  intros HI Hk. constructor; cbn [cbowls wait_count waited animals].
  - apply HI.
  - apply HI.
  - intros k' a' i' b' H. at_index k'; [by simplify_eq|]. by eapply (in_eating _ HI).
  - intros k1 k2 a1 a2 i1 i2 b' H1 H2. at_index k1; at_index k2; simplify_eq; try done. by eapply (in_distinct _ HI).
  - intros j c H. destruct (in_marked _ HI _ _ H) as [?|(k' & a' & i' & Hk' & ?)]; [by left|]. right.
    exists k', a', i'. split; [|done]. rewrite list_lookup_insert_ne; [done|]. by intros ->; simplify_eq.
  - intros a'. rewrite (count_insert _ _ _ _ _ Hk). cbn [eats]. rewrite <- (in_count _ HI). lia.
  - apply HI.
  - intros k' a' i' H. at_index k'; [by simplify_eq|]. by eapply (in_away _ HI).
  - rewrite (count_insert _ _ _ _ _ Hk). cbn [finished]. pose proof (in_sem _ HI). lia.
  - rewrite length_insert. apply HI.
Qed.

(** The next step of an animal is defined or panics, and it panics only when
    it would break a rule. *)
Lemma simulation_spec cf k a p r :
  inv cf -> animals cf !! k = Some (a, p) -> p ≠ Finished ->
  ((exists i, p = Away i) /\ someone_eats cf /\ simulation NumBowls NumLoops (cbowls cf) (wait_count cf) a p r = Panic) \/
  (exists st sem p', simulation NumBowls NumLoops (cbowls cf) (wait_count cf) a p r = Done (st, sem, p') /\
   inv (mkConfig st sem (waited cf) (<[k := (a, p')]> (animals cf)))).
Proof.
  intros HI Hk Hp. destruct p as [i|i b|]; cbn [simulation]; [| |done].
  - case_bool_decide as Hi.
    + destruct (choose_spec r) as (b & Hch & Hb). rewrite Hch. cbn [mbind outcome_bind].
      destruct (eat_start_spec cf a b HI Hb) as [[-> He]|(Ho & Hg & ->)]; cbn [mbind outcome_bind]; [left; eauto|].
      right. do 3 eexists. split; [done|]. by apply inv_start.
    + right. do 3 eexists. split; [done|]. by eapply inv_end.
  - right. destruct (in_eating _ HI _ _ _ _ Hk) as (_ & _ & Hi). unfold INT_MAX in *.
    rewrite (eat_finish_spec cf k a i b HI Hk). cbn [mbind outcome_bind].
    rewrite int_op_ok by (unfold INT_MIN, INT_MAX; lia). cbn [mbind outcome_bind].
    do 3 eexists. split; [done|]. by apply inv_finish.
Qed.

Lemma catmouse_inv_step cf cf' : inv cf -> step NumBowls NumLoops cf cf' -> inv cf'.
Proof.
  intros HI Hs. destruct Hs as [cf k a p r st sem p' Hk Hp Hsim|cf cf' Hw].
  - destruct (simulation_spec cf k a p r HI Hk Hp) as [(_&_&H)|(?&?&?&H&HI')]; rewrite Hsim in H; [done|].
    injection H as -> -> ->. done.
  - unfold driver_wait in Hw. destruct (bool_decide_reflect (wait_count cf > 0)); rewrite ?andb_false_r in Hw; [|done].
    case_bool_decide; [|done]. injection Hw as <-. pose proof HI as [H1 H2 H3 H4 H5 H6 H7 H8 H9 H10].
    constructor; cbn [cbowls wait_count waited animals]; try done. lia.
Qed.

Lemma count_app P ts ts' : count P (ts ++ ts') = count P ts + count P ts'.
Proof. induction ts as [|t ts IH]; cbn [app count]; [lia|]. rewrite IH. lia. Qed.

Lemma count_replicate P n t : P t = false -> count P (replicate n t) = 0.
Proof. intros H. induction n as [|n IH]; cbn [replicate count]; [done|]. by rewrite H, IH. Qed.

Lemma inv_init cats mice :
  Z.of_nat (cats + mice) < INT_MAX -> inv (catmouse_start (mkBowls (replicate (Z.to_nat NumBowls) FREE) NumBowls 0 0) cats mice).
Proof.
  intros Hfew.
  assert (Hth : forall k t, (replicate cats (Cat, Away 0) ++ replicate mice (Mouse, Away 0)) !! k = Some t ->
                exists a, t = (a, Away 0)).
  { intros k t H%list_elem_of_lookup_2. apply elem_of_app in H as [H|H]; apply elem_of_replicate in H as [-> _]; eauto. }
  assert (Hcount : forall P, P (Cat, Away 0) = false -> P (Mouse, Away 0) = false ->
    count P (replicate cats (Cat, Away 0) ++ replicate mice (Mouse, Away 0)) = 0).
  { intros P HC HM. by rewrite count_app, !count_replicate. }
  constructor; cbn [catmouse_start cbowls wait_count waited animals bowls num_bowls].
  - done.
  - rewrite length_replicate. lia.
  - intros k a i b H. by destruct (Hth _ _ H).
  - intros k k' a a' i i' b H. by destruct (Hth _ _ H).
  - intros b c [_ H]%getZ_Done. apply lookup_replicate in H as [-> _]. by left.
  - intros a. rewrite Hcount by done. by destruct a.
  - by left.
  - intros k a i H. destruct (Hth _ _ H) as [a' [= _ ->]]. lia.
  - rewrite Hcount by done. lia.
  - rewrite length_app, !length_replicate. done.
Qed.

Lemma catmouse_reachable_inv cats mice cf :
  Z.of_nat (cats + mice) < INT_MAX ->
  rtc (step NumBowls NumLoops) (catmouse_start (mkBowls (replicate (Z.to_nat NumBowls) FREE) NumBowls 0 0) cats mice) cf ->
  inv cf.
Proof.
  intros Hfew Hr. pose proof (inv_init cats mice Hfew) as H0. revert H0. generalize dependent (catmouse_start (mkBowls (replicate (Z.to_nat NumBowls) FREE) NumBowls 0 0) cats mice).
  induction 1 as [|c c' c'' Hs _ IH]; intros H0; [done|]. apply IH. by eapply catmouse_inv_step.
Qed.
End rules.

(** The state after [initialize_bowls]. *)
Definition full_bowls (n : Z) : bowl_state := mkBowls (replicate (Z.to_nat n) FREE) n 0 0.

(** C34. As long as no rule was broken (the code panics when one is) no cat eats
    while a mouse eats, no bowl feeds two animals, the counters are exact, and
    every next step either is defined or panics at the start of a meal. *)
Theorem bowls_rules NumBowls NumLoops cats mice cf :
  0 < NumBowls <= INT_MAX -> 0 < NumLoops <= INT_MAX -> Z.of_nat (cats + mice) < INT_MAX ->
  rtc (step NumBowls NumLoops) (catmouse_start (full_bowls NumBowls) cats mice) cf ->
  (forall k k' i i' b b', animals cf !! k = Some (Cat, Eating i b) -> animals cf !! k' ≠ Some (Mouse, Eating i' b')) /\
  (forall k k' a a' i i' b, animals cf !! k = Some (a, Eating i b) -> animals cf !! k' = Some (a', Eating i' b) -> k = k') /\
  (forall a, eating_count a (cbowls cf) = count (eats a) (animals cf)) /\
  (forall k a p r, animals cf !! k = Some (a, p) ->
    match simulation NumBowls NumLoops (cbowls cf) (wait_count cf) a p r with
    | Done _ => True | Panic => exists i, p = Away i | Stuck => False end).
Proof.
  intros Hb Hl Hfew Hr. pose proof (catmouse_reachable_inv _ _ Hb Hl _ _ _ Hfew Hr) as HI. split_and!.
  - intros k k' i i' b b' H1 H2. pose proof (in_rule _ _ _ HI) as Hrule.
    pose proof (in_count _ _ _ HI Cat) as HC. pose proof (in_count _ _ _ HI Mouse) as HM. cbn in HC, HM.
    pose proof (count_pos (eats Cat) _ _ _ H1 eq_refl). pose proof (count_pos (eats Mouse) _ _ _ H2 eq_refl). lia.
  - apply HI.
  - apply HI.
  - intros k a p r Hk. destruct (decide (p = Finished)) as [->|Hp]; [done|].
    destruct (simulation_spec _ _ Hb Hl cf k a p r HI Hk Hp) as [([i ->] & _ & ->)|(?&?&?&->&_)]; eauto.
Qed.

(** The driver returns from its last wait only when every animal has
    finished. *)
Theorem catmouse_waits NumBowls NumLoops cats mice cf :
  0 < NumBowls <= INT_MAX -> 0 < NumLoops <= INT_MAX -> Z.of_nat (cats + mice) < INT_MAX ->
  rtc (step NumBowls NumLoops) (catmouse_start (full_bowls NumBowls) cats mice) cf -> driver_done cf ->
  forall k a p, animals cf !! k = Some (a, p) -> p = Finished.
Proof.
  intros Hb Hl Hfew Hr Hd k a p Hk. pose proof (catmouse_reachable_inv _ _ Hb Hl _ _ _ Hfew Hr) as HI.
  destruct (in_sem _ _ _ HI) as (Hs & H0 & _). unfold driver_done in Hd.
  pose proof (role_count_range finished (animals cf)).
  assert (Hall : count finished (animals cf) = Z.of_nat (length (animals cf))) by lia.
  pose proof (count_all _ _ Hall k _ Hk) as Hf. by destruct p.
Qed.

(** A lone animal never breaks a rule. *)
Theorem catmouse_alone NumBowls NumLoops cats mice cf :
  0 < NumBowls <= INT_MAX -> 0 < NumLoops <= INT_MAX -> (cats + mice <= 1)%nat ->
  rtc (step NumBowls NumLoops) (catmouse_start (full_bowls NumBowls) cats mice) cf -> ~ can_panic NumBowls NumLoops cf.
Proof.
  intros Hb Hl Hone Hr (k & a & p & r & Hk & Hp).
  assert (HI : inv NumBowls NumLoops cf) by (eapply (catmouse_reachable_inv _ _ Hb Hl); [unfold INT_MAX|done]; lia).
  assert (Hlen : length (animals cf) = (cats + mice)%nat).
  { revert Hr. clear. intros Hr. replace (cats + mice)%nat with (length (animals (catmouse_start (full_bowls NumBowls) cats mice)))
      by (cbn; by rewrite length_app, !length_replicate).
    induction Hr as [|c c' c'' Hs _ IH]; [done|]. rewrite IH. destruct Hs as [|c c' Hw]; [by cbn; rewrite length_insert|].
    unfold driver_wait in Hw. case_match; [|done]. by injection Hw as <-. }
  destruct (decide (p = Finished)) as [->|Hpf]; [done|].
  destruct (simulation_spec _ _ Hb Hl cf k a p r HI Hk Hpf) as [([i ->] & (k' & a' & i' & b' & Hk') & _)|(?&?&?&H&_)].
  - pose proof (lookup_lt_Some _ _ _ Hk) as L1. pose proof (lookup_lt_Some _ _ _ Hk') as L2.
    unfold thread in Hlen. assert (k = k') as -> by lia. rewrite Hk in Hk'. done.
  - by rewrite Hp in H.
Qed.

(** Nothing keeps two animals from the same bowl: with two cats (and bowls as
    you like) the simulation can panic. *)
Theorem catmouse_can_panic NumBowls NumLoops cats mice :
  0 < NumBowls <= INT_MAX -> 0 < NumLoops <= INT_MAX ->
  exists cf, rtc (step NumBowls NumLoops) (catmouse_start (full_bowls NumBowls) (S (S cats)) mice) cf /\
  can_panic NumBowls NumLoops cf.
Proof.
  intros Hb Hl. unfold INT_MAX in *.
  assert (Hch : choose NumBowls 0 = Done 1).
  { unfold choose. rewrite (u32_small NumBowls) by lia. rewrite bool_decide_eq_false_2 by lia.
    change (u32 0) with 0. by rewrite Z.mod_0_l by lia. }
  assert (Hbs : exists bs, replicate (Z.to_nat NumBowls) FREE = FREE :: bs).
  { exists (replicate (Z.to_nat (NumBowls - 1)) FREE). replace (Z.to_nat NumBowls) with (S (Z.to_nat (NumBowls - 1))) by lia. done. }
  destruct Hbs as [bs Hbs].
  eexists. split.
  - apply rtc_once. eapply (StepAnimal _ _ _ 0 Cat (Away 0) 0); [done|done|].
    cbn [simulation]. rewrite bool_decide_eq_true_2 by lia. rewrite Hch. cbn [mbind outcome_bind eat_start].
    unfold cat_eat_start, full_bowls. cbn [catmouse_start cbowls bowls num_bowls eating_cats_count eating_mice_count].
    rewrite Hbs, (bool_decide_eq_false_2 (s32 1 > NumBowls)) by (change (s32 1) with 1; lia). reflexivity.
  - exists 1%nat, Cat, (Away 0), 0. split; [done|]. cbn [simulation]. rewrite bool_decide_eq_true_2 by lia.
    rewrite Hch. cbn [mbind outcome_bind eat_start]. unfold cat_eat_start. cbn [cbowls num_bowls].
    by rewrite (bool_decide_eq_false_2 (s32 1 > NumBowls)) by (change (s32 1) with 1; lia).
Qed.

(** ** A run: one cat, one loop, two bowls *)

Definition ex_eating : config := mkConfig (mkBowls [FREE; CAT] 2 1 0) 0 0 [(Cat, Eating 0 2)].
Definition ex_away : config := mkConfig (mkBowls [FREE; FREE] 2 0 0) 0 0 [(Cat, Away 1)].
Definition ex_posted : config := mkConfig (mkBowls [FREE; FREE] 2 0 0) 1 0 [(Cat, Finished)].
Definition ex_done : config := mkConfig (mkBowls [FREE; FREE] 2 0 0) 0 1 [(Cat, Finished)].

Lemma ex_reach_eating : rtc (step 2 1) (catmouse_start (full_bowls 2) 1 0) ex_eating.
Proof. apply rtc_once. by apply (StepAnimal 2 1 (catmouse_start (full_bowls 2) 1 0) 0 Cat (Away 0) 5). Qed.

Lemma ex_reach_done : rtc (step 2 1) (catmouse_start (full_bowls 2) 1 0) ex_done.
Proof.
  etransitivity; [apply ex_reach_eating|].
  apply (rtc_l _ _ ex_away); [by apply (StepAnimal 2 1 ex_eating 0 Cat (Eating 0 2) 0)|].
  apply (rtc_l _ _ ex_posted); [by apply (StepAnimal 2 1 ex_away 0 Cat (Away 1) 0)|].
  apply rtc_once. by apply StepWait.
Qed.

Lemma bowls_rules_witness :
  eating_count Cat (cbowls ex_eating) = count (eats Cat) (animals ex_eating) /\
  eating_count Mouse (cbowls ex_eating) = count (eats Mouse) (animals ex_eating).
Proof. split; (eapply (bowls_rules 2 1 1 0); [by vm_compute..|apply ex_reach_eating]). Defined.

Lemma catmouse_waits_witness : forall k a p, animals ex_done !! k = Some (a, p) -> p = Finished.
Proof. apply (catmouse_waits 2 1 1 0); [by vm_compute..|apply ex_reach_done|done]. Defined.

Lemma catmouse_alone_witness : ~ can_panic 2 1 ex_eating.
Proof. apply (catmouse_alone 2 1 1 0); [by vm_compute..|lia|apply ex_reach_eating]. Defined.

Lemma catmouse_can_panic_witness :
  exists cf, rtc (step 6 10) (catmouse_start (full_bowls 6) 2 3) cf /\ can_panic 6 10 cf.
Proof. apply (catmouse_can_panic 6 10 0 3); by vm_compute. Defined.

End CatMouse.
