(* ===== verification/Random.v ===== *)
(** * Random numbers in the kernel: [dev/generic/pseudorand.c], [dev/generic/random.c],
      [dev/lamebus/lrandom.c]

    [pseudorand_random] computes the next number of the Park-Miller generator
    in 32-bit arithmetic with Schrage's method; [pseudorand_schrage] says that
    it is the generator [seed * 16807 mod (2^31 - 1)] and that nothing
    overflows.  The LAMEbus random card is a parameter: a source of 32-bit
    numbers.  [random.c] hands calls on to whichever source it was configured
    with. *)

From S2P Require Import Prelude UserMem Uio.

Module Random.
Import Uio.

(** ** [pseudorand.c] *)

Definition MULTIPLIER : Z := 16807.
Definition MODULUS : Z := 2147483647.
Definition K1 : Z := 127773.
Definition K2 : Z := 2836.

(** The state is [ps_seed], a [u_int32_t]; the result is the value and the new
    seed. *)
Definition pseudorand_random (ps_seed : Z) : outcome (Z * Z) :=
  let hi := s32 (ps_seed / K1) in
  let lo := s32 (ps_seed mod K1) in
  a ← int_op (MULTIPLIER * lo);
  b ← int_op (K2 * hi);
  tmp ← int_op (a - b);
  tmp ← (if bool_decide (tmp <= 0) then int_op (tmp + MODULUS) else Done tmp);
  let ps_seed := u32 tmp in
  Done (u32 (ps_seed - 1), ps_seed).

Definition pseudorand_randmax : Z := MODULUS - 2.

(** [kmalloc] may fail. *)
Definition pseudoattach_pseudorand (malloc_ok : bool) : option Z := if malloc_ok then Some 305824 else None.

(** [bytes[0]], [bytes[1]], [bytes[2]] *)
Definition pseudorand_bytes (val : Z) : list Z :=
  [Z.shiftr (Z.land val 4080) 4; Z.shiftr (Z.land val 1044480) 12; Z.shiftr (Z.land val 267386880) 20].

(** ** Reading a source

    [next] gives the bytes of one number; the loop of [pseudorand_read] and of
    [lrandom_read].  The fuel is the residue: every turn moves a byte. *)
Section read.
Context {D : Type} (next : D -> outcome (list Z * D)).

Fixpoint read_loop (fuel : nat) (d : D) (u : uio) (c : ctx) : outcome (Z * D * uio * ctx) :=
  if bool_decide (uio_resid u > 0) then
    match fuel with
    | O => Stuck
    | S fuel =>
        '(bytes, d) ← next d;
        '(result, _, u, c) ← uiomove bytes 0 (Z.of_nat (length bytes)) u c;
        if bool_decide (result ≠ 0) then Done (result, d, u, c)
        else read_loop fuel d u c
    end
  else Done (0, d, u, c).
End read.

Definition pseudorand_next (seed : Z) : outcome (list Z * Z) :=
  '(val, seed) ← pseudorand_random seed;
  Done (pseudorand_bytes val, seed).

Definition pseudorand_read (seed : Z) (u : uio) (c : ctx) : outcome (Z * Z * uio * ctx) :=
  read_loop pseudorand_next (Z.to_nat (uio_resid u)) seed u c.

(** ** [lrandom.c]

    [bus_read_register] of the card's register. *)
Section lrandom.
Context {D : Type} (read_register : D -> Z * D).

Definition LR_RANDMAX : Z := 4294967295.

Definition lrandom_random (d : D) : Z * D := read_register d.
Definition lrandom_randmax : Z := LR_RANDMAX.

(** The union of the number and its bytes, on a big-endian machine. *)
Definition lrandom_next (d : D) : outcome (list Z * D) :=
  let '(val, d) := read_register d in
  Done ([Z.shiftr val 24 mod 256; Z.shiftr val 16 mod 256; Z.shiftr val 8 mod 256; val mod 256], d).

Definition lrandom_read (d : D) (u : uio) (c : ctx) : outcome (Z * D * uio * ctx) :=
  read_loop lrandom_next (Z.to_nat (uio_resid u)) d u c.
End lrandom.

(** ** [random.c]

    A source, as [struct random_softc] holds it. *)
Record random_softc (D : Type) : Type := mkRandom {
  rs_random : D -> outcome (Z * D);
  rs_randmax : Z;
  rs_read : D -> uio -> ctx -> outcome (Z * D * uio * ctx)
}.
Arguments mkRandom {D}.
Arguments rs_random {D}.
Arguments rs_randmax {D}.
Arguments rs_read {D}.

Definition pseudorand_softc : random_softc Z := mkRandom pseudorand_random pseudorand_randmax pseudorand_read.

(** [kmalloc] may fail. *)
Definition attach_random_to_pseudorand (malloc_ok : bool) : option (random_softc Z) :=
  if malloc_ok then Some pseudorand_softc else None.
Definition attach_random_to_lrandom {D} (read_register : D -> Z * D) (malloc_ok : bool) : option (random_softc D) :=
  if malloc_ok
  then Some (mkRandom (fun d => Done (lrandom_random read_register d)) lrandom_randmax (lrandom_read read_register))
  else None.

Section random.
Context {D : Type}.
Implicit Types (rs : random_softc D) (the_random : option (random_softc D)).

Definition randopen (openflags : Z) : Z := if bool_decide (openflags ≠ 0) then EIO else 0.
Definition randclose : Z := 0.
Definition randioctl : Z := EIOCTL.

Definition randio rs (d : D) (u : uio) (c : ctx) : outcome (Z * D * uio * ctx) :=
  if decide (uio_rw u ≠ UIO_READ) then Done (EIO, d, u, c) else rs_read rs d u c.

(** [vfs_adddev] is the result of registering the device. *)
Definition config_random the_random rs (unit vfs_adddev : Z) : outcome (Z * option (random_softc D)) :=
  if bool_decide (unit ≠ 0) then Done (ENODEV, the_random)
  else
    assert! (match the_random with None => true | Some _ => false end);;
    Done (vfs_adddev, Some rs).

Definition random the_random (d : D) : outcome (Z * D) :=
  match the_random with None => Panic | Some rs => rs_random rs d end.

Definition randmax the_random : outcome Z :=
  match the_random with None => Panic | Some rs => Done (rs_randmax rs) end.
End random.

(** ** Schrage's method *)

(** The generator in the integers. *)
Definition park_miller (seed : Z) : Z := (MULTIPLIER * seed) mod MODULUS.
Definition seed_ok (seed : Z) : Prop := 1 <= seed < MODULUS.

(** The multiplier is invertible, so the seed never becomes 0. *)
Lemma park_miller_ok seed : seed_ok seed -> seed_ok (park_miller seed).
Proof.
  unfold seed_ok, park_miller. intros Hs. pose proof (Z.mod_pos_bound (MULTIPLIER * seed) MODULUS ltac:(done)) as Hm.
  split; [|lia]. assert ((MULTIPLIER * seed) mod MODULUS ≠ 0); [|lia]. intros H0.
  apply Z.mod_divide in H0; [|done]. apply Z.gauss in H0; [|done].
  apply Z.divide_pos_le in H0; lia.
Qed.

Lemma schrage seed :
  seed_ok seed -> let t := MULTIPLIER * (seed mod K1) - K2 * (seed / K1) in
  - MODULUS < t < MODULUS /\ (if bool_decide (t <= 0) then t + MODULUS else t) = park_miller seed.
Proof.
  intros Hs t. pose proof (park_miller_ok seed Hs) as Hp. unfold seed_ok in *.
  assert (Hd : seed = K1 * (seed / K1) + seed mod K1) by (apply Z.div_mod; done).
  pose proof (Z.mod_pos_bound seed K1 ltac:(done)) as Hm.
  assert (0 <= seed / K1 <= 16807).
  { split; [apply Z.div_pos; [lia|done]|]. apply Z.lt_succ_r, Z.div_lt_upper_bound; [done|]. unfold K1, MODULUS in *. lia. }
  assert (Hr : - MODULUS < t < MODULUS) by (subst t; unfold MULTIPLIER, MODULUS, K1, K2 in *; lia).
  split; [done|].
  assert (Ht : (MULTIPLIER * seed) mod MODULUS = t mod MODULUS).
  { replace (MULTIPLIER * seed) with (t + (seed / K1) * MODULUS); [by rewrite Z.mod_add|].
    subst t. unfold MULTIPLIER, MODULUS, K1, K2 in *. lia. }
  unfold park_miller in *. rewrite Ht in Hp |- *. clearbody t. case_bool_decide.
  - assert (Hne : t ≠ 0) by (intros ->; rewrite Z.mod_0_l in Hp by done; lia).
    rewrite <- (Z.mod_add t 1 MODULUS) by done. rewrite Z.mod_small; lia.
  - rewrite Z.mod_small; lia.
Qed.

Lemma pseudorand_random_spec seed :
  seed_ok seed -> pseudorand_random seed = Done (park_miller seed - 1, park_miller seed).
Proof.
  intros Hs. destruct (schrage seed Hs) as [Hr Hp]. pose proof (park_miller_ok seed Hs) as Hok. unfold seed_ok in *.
  pose proof (Z.mod_pos_bound seed K1 ltac:(done)) as Hm.
  assert (0 <= seed / K1 <= 16807).
  { split; [apply Z.div_pos; [lia|done]|]. apply Z.lt_succ_r, Z.div_lt_upper_bound; [done|]. unfold K1, MODULUS in *. lia. }
  unfold pseudorand_random. unfold MULTIPLIER, MODULUS, K1, K2 in *.
  rewrite !s32_small by (unfold INT_MIN, INT_MAX; lia).
  rewrite (int_op_ok (16807 * _)) by (unfold INT_MIN, INT_MAX; lia). cbn [mbind outcome_bind].
  rewrite (int_op_ok (2836 * _)) by (unfold INT_MIN, INT_MAX; lia). cbn [mbind outcome_bind].
  rewrite (int_op_ok (_ - _)) by (unfold INT_MIN, INT_MAX; lia). cbn [mbind outcome_bind].
  case_bool_decide; [rewrite int_op_ok by (unfold INT_MIN, INT_MAX; lia)|]; cbn [mbind outcome_bind];
    rewrite Hp, (u32_small (park_miller seed)), u32_small by lia; done.
Qed.

(** ** Reading *)

(** The bytes of the next [n] numbers. *)
Fixpoint stream (n : nat) (seed : Z) : list Z :=
  match n with
  | O => []
  | S n => pseudorand_bytes (park_miller seed - 1) ++ stream n (park_miller seed)
  end.

(** The numbers a read of [r] bytes uses: three bytes of each. *)
Definition numbers (r : Z) : nat := Z.to_nat ((r + 2) / 3).

Lemma numbers_step r : 0 < r -> numbers r = S (numbers (Z.max (r - 3) 0)).
Proof.
  intros Hr. unfold numbers. destruct (decide (r <= 3)).
  - replace (Z.max (r - 3) 0) with 0 by lia. assert ((r + 2) / 3 = 1) as -> by (symmetry; apply (Z.div_unique _ _ _ (r - 1)); lia). done.
  - replace (r + 2) with (Z.max (r - 3) 0 + 2 + 1 * 3) by lia. rewrite Z.div_add by lia.
    assert (0 <= (Z.max (r - 3) 0 + 2) / 3) by (apply Z.div_pos; lia). lia.
Qed.

(** One turn of the loop moves three bytes or what is left. *)
Lemma uiomove_number bytes u c :
  kwf u -> uio_rw u = UIO_READ -> iov_len u = uio_resid u -> 0 < uio_resid u -> length bytes = 3%nat ->
  uiomove bytes 0 3 u c = Done (0, bytes, filled u (take (Z.to_nat (uio_resid u)) bytes), c).
Proof.
  intros Hwf Hrw Hlen Hr Hb. unfold filled. rewrite length_take, Hb. destruct (decide (uio_resid u < 3)).
  - rewrite uiomove_kernel_read_fill by (done || lia). unfold slice. rewrite drop_0. do 5 f_equal. lia.
  - rewrite uiomove_kernel_read by (done || lia). unfold slice. rewrite drop_0, !take_ge by lia.
    do 5 f_equal. lia.
Qed.

Lemma pseudorand_next_spec seed :
  seed_ok seed -> pseudorand_next seed = Done (pseudorand_bytes (park_miller seed - 1), park_miller seed).
Proof. intros Hs. unfold pseudorand_next. by rewrite pseudorand_random_spec. Qed.

Lemma read_loop_spec fuel seed u c :
  kwf u -> uio_rw u = UIO_READ -> iov_len u = uio_resid u -> seed_ok seed -> uio_resid u <= Z.of_nat fuel ->
  read_loop pseudorand_next fuel seed u c =
  Done (0, Nat.iter (numbers (uio_resid u)) park_miller seed,
        filled u (take (Z.to_nat (uio_resid u)) (stream (numbers (uio_resid u)) seed)), c).
Proof.
  revert seed u. induction fuel as [|fuel IH]; intros seed u Hwf Hrw Hlen Hs Hf; cbn [read_loop].
  all: pose proof (kwf_resid _ Hwf) as Hr.
  all: destruct (decide (uio_resid u = 0)) as [H0|Hne]; [|try lia].
  1, 2: rewrite bool_decide_eq_false_2, H0 by lia; cbn; rewrite take_0; unfold filled; rewrite splice_nil; by rewrite moved_0.
  rewrite bool_decide_eq_true_2 by lia.
  rewrite pseudorand_next_spec by done. cbn [mbind outcome_bind].
  change (Z.of_nat (length (pseudorand_bytes _))) with 3.
  rewrite uiomove_number by (done || lia). cbn [mbind outcome_bind]. rewrite bool_decide_eq_false_2 by lia.
  set (bytes := pseudorand_bytes (park_miller seed - 1)). set (r := uio_resid u) in *.
  assert (Hbl : length bytes = 3%nat) by done.
  destruct (filled_props u (take (Z.to_nat r) bytes)) as (Hwf' & Hlen' & Hrw' & Hr'); [done|rewrite length_take; lia|exact Hlen|done|].
  assert (Hr3 : uio_resid (filled u (take (Z.to_nat r) bytes)) = Z.max (r - 3) 0) by (rewrite Hr', length_take; lia).
  rewrite IH; [|done|done|done|by apply park_miller_ok|lia].
  rewrite Hr3, (numbers_step r) by lia. rewrite <- Nat.iter_succ_r. cbn [stream]. fold bytes.
  do 3 f_equal. rewrite filled_app.
  - f_equal. rewrite take_app. f_equal. f_equal. rewrite Hbl. lia.
  - done.
  - rewrite !length_take. lia.
Qed.

(** ** The theorems *)

(** From a seed in range, Schrage's 32-bit computation is the generator
    [16807 * seed mod (2^31 - 1)]: no operation overflows, the new seed is in
    range again (never 0), and the value returned is at most [randmax]. *)
Theorem pseudorand_schrage seed :
  seed_ok seed ->
  exists val seed', pseudorand_random seed = Done (val, seed') /\
  seed' = (16807 * seed) mod 2147483647 /\ seed_ok seed' /\ val = seed' - 1 /\ 0 <= val <= pseudorand_randmax.
Proof.
  intros Hs. rewrite pseudorand_random_spec by done. pose proof (park_miller_ok seed Hs) as Hok.
  do 2 eexists. split; [done|]. split_and!; try done; unfold seed_ok, pseudorand_randmax, MODULUS in *; lia.
Qed.

(** A read of the [random:] device into a kernel buffer succeeds and fills the
    whole buffer with the bytes of successive numbers, whatever its length is
    modulo three. *)
Theorem pseudorand_read_fills seed u c :
  seed_ok seed -> kwf u -> iov_len u = uio_resid u -> uio_rw u = UIO_READ ->
  exists seed' u', randio pseudorand_softc seed u c = Done (0, seed', u', c) /\ seed_ok seed' /\
  uio_resid u' = 0 /\
  uio_kdata u' = splice (uio_kdata u) (iov_base u)
    (take (Z.to_nat (uio_resid u)) (stream (numbers (uio_resid u)) seed)).
Proof.
  intros Hs Hwf Hlen Hrw. pose proof (kwf_resid _ Hwf) as Hr. unfold randio. rewrite decide_False by (by intros []).
  cbn [rs_read pseudorand_softc]. unfold pseudorand_read. rewrite read_loop_spec by (done || lia).
  do 2 eexists. split; [done|]. split_and!.
  - induction (numbers (uio_resid u)) as [|n IH]; [done|]. cbn. by apply park_miller_ok.
  - assert (Hl : forall n s, length (stream n s) = (3 * n)%nat).
    { clear. induction n as [|n IH]; intros s; cbn [stream]; [done|]. rewrite length_app, IH. cbn. lia. }
    unfold filled. cbn. rewrite length_take, Hl. unfold numbers.
    pose proof (Z.div_mod (uio_resid u + 2) 3 ltac:(lia)). pose proof (Z.mod_pos_bound (uio_resid u + 2) 3 ltac:(lia)). lia.
  - done.
Qed.

Lemma pseudorand_schrage_witness :
  exists val seed', pseudorand_random 305824 = Done (val, seed') /\
  seed' = (16807 * 305824) mod 2147483647 /\ seed_ok seed' /\ val = seed' - 1 /\ 0 <= val <= pseudorand_randmax.
Proof. apply (pseudorand_schrage 305824). by vm_compute. Defined.

Lemma pseudorand_read_fills_witness :
  let u := mk_kuio (zeros 5) 5 0 UIO_READ in
  exists seed' u', randio pseudorand_softc 305824 u ex_ctx = Done (0, seed', u', ex_ctx) /\ seed_ok seed' /\
  uio_resid u' = 0 /\ uio_kdata u' = splice (zeros 5) 0 (take 5 (stream 2 305824)).
Proof.
  apply (pseudorand_read_fills 305824 (mk_kuio (zeros 5) 5 0 UIO_READ) ex_ctx); [by vm_compute| |done|done].
  by apply mk_kuio_kwf; vm_compute.
Defined.

End Random.
