(* ===== verification/LibcRandom.v ===== *)
(** * The C library's random numbers: [lib/libc/random.c]

    An additive generator over a table of [long]s with two pointers that
    cycle through it, or a linear congruential one when the table is small.
    Memory is a list of 32-bit words; [state], [fptr], [rptr] and [end_ptr]
    are word addresses in it, and [randtbl] is at address 0.

    The arithmetic on [long] overflows by design; as the compiler the code is
    written for does, the model wraps it around ([s32]). *)

From S2P Require Import Prelude.

Module LibcRandom.

Definition TYPE_0 : Z := 0.
Definition TYPE_3 : Z := 3.
Definition DEG_3 : Z := 31.
Definition SEP_3 : Z := 3.
Definition MAX_TYPES : Z := 5.
Definition BREAK_0 : Z := 8.
Definition BREAK_1 : Z := 32.
Definition BREAK_2 : Z := 64.
Definition BREAK_3 : Z := 128.
Definition BREAK_4 : Z := 256.
Definition degrees : list Z := [0; 7; 15; 31; 63].
Definition seps : list Z := [0; 3; 1; 3; 1].

Record rng : Type := mkRng {
  mem : list Z;
  state : Z;
  fptr : Z;
  rptr : Z;
  end_ptr : Z;
  rand_type : Z;
  rand_deg : Z;
  rand_sep : Z
}.

(** [randtbl] as the source initialises it. *)
Definition randtbl : list Z := s32 <$>
  [3; 0x9a319039; 0x32d9c024; 0x9b663182; 0x5da1f342; 0xde3b81e0; 0xdf0a6fb5; 0xf103bc02; 0x48f340fb;
   0x7449e56b; 0xbeb1dbb0; 0xab5c5918; 0x946554fd; 0x8c2e680f; 0xeb3d799f; 0xb11ee0b7; 0x2d436b86;
   0xda672e2a; 0x1588ca88; 0xe369735d; 0x904f35f7; 0xd7158fd6; 0x6fa6f051; 0x616e6b96; 0xac94efdc;
   0x36413f93; 0xc622c298; 0xf5a42ab8; 0x8a88d77b; 0xf5ad9d0e; 0x8999220b; 0x27fb47b9].

(** The static variables, with other memory after [randtbl]. *)
Definition initial (rest : list Z) : rng := mkRng (randtbl ++ rest) 1 4 1 32 TYPE_3 DEG_3 SEP_3.

Definition set_mem (g : rng) (m : list Z) : rng :=
  mkRng m (state g) (fptr g) (rptr g) (end_ptr g) (rand_type g) (rand_deg g) (rand_sep g).
Definition set_ptrs (g : rng) (f r : Z) : rng :=
  mkRng (mem g) (state g) f r (end_ptr g) (rand_type g) (rand_deg g) (rand_sep g).

Definition random_unlocked (g : rng) : outcome (Z * rng) :=
  if bool_decide (rand_type g = TYPE_0) then
    i ← getZ (mem g) (state g);
    let i := Z.land (s32 (i * 1103515245 + 12345)) 0x7fffffff in
    m ← setZ (mem g) (state g) i;
    Done (i, set_mem g m)
  else
    let f := fptr g in
    let r := rptr g in
    vf ← getZ (mem g) f;
    vr ← getZ (mem g) r;
    let v := s32 (vf + vr) in
    m ← setZ (mem g) f v;
    let i := Z.land (Z.shiftr (u32 v) 1) 0x7fffffff in
    let '(f, r) :=
      if bool_decide (f + 1 >= end_ptr g) then (state g, r + 1)
      else if bool_decide (r + 1 >= end_ptr g) then (f + 1, state g) else (f + 1, r + 1) in
    Done (i, set_ptrs (set_mem g m) f r).

Fixpoint fill_table (n : nat) (i : Z) (g : rng) : outcome rng :=
  match n with
  | O => Done g
  | S n =>
      v ← getZ (mem g) (state g + i - 1);
      m ← setZ (mem g) (state g + i) (s32 (1103515245 * v + 12345));
      fill_table n (i + 1) (set_mem g m)
  end.

Fixpoint discard (n : nat) (g : rng) : outcome rng :=
  match n with
  | O => Done g
  | S n => '(_, g) ← random_unlocked g; discard n g
  end.

Definition srandom_unlocked (x : Z) (g : rng) : outcome rng :=
  m ← setZ (mem g) (state g) (s32 x);
  let g := set_mem g m in
  if bool_decide (rand_type g = TYPE_0) then Done g
  else
    g ← fill_table (Z.to_nat (rand_deg g - 1)) 1 g;
    let g := set_ptrs g (state g + rand_sep g) (state g) in
    discard (Z.to_nat (10 * rand_deg g)) g.

Definition srandom (x : Z) (g : rng) : outcome rng := srandom_unlocked x g.
Definition random (g : rng) : outcome (Z * rng) := random_unlocked g.

(** [state[-1] = ...]: the type and the place of the rear pointer. *)
Definition save_state (g : rng) : outcome rng :=
  let v := if bool_decide (rand_type g = TYPE_0) then rand_type g
           else s32 (MAX_TYPES * (rptr g - state g) + rand_type g) in
  m ← setZ (mem g) (state g - 1) v;
  Done (set_mem g m).

(** The generator for [n] bytes of state: type, degree, separation. *)
Definition choose_type (n : Z) : option (Z * Z * Z) :=
  if bool_decide (n < BREAK_0) then None
  else if bool_decide (n < BREAK_1) then Some (0, 0, 0)
  else if bool_decide (n < BREAK_2) then Some (1, 7, 3)
  else if bool_decide (n < BREAK_3) then Some (2, 15, 1)
  else if bool_decide (n < BREAK_4) then Some (3, 31, 3)
  else Some (4, 63, 1).

(** The result is the old state array, [None] for NULL. *)
Definition initstate (seed arg_state n : Z) (g : rng) : outcome (option Z * rng) :=
  let ostate := state g - 1 in
  g ← save_state g;
  match choose_type n with
  | None => Done (None, g)
  | Some (ty, deg, sep) =>
      let st := arg_state + 1 in
      g ← srandom_unlocked seed (mkRng (mem g) st (fptr g) (rptr g) (st + deg) ty deg sep);
      g ← save_state g;
      Done (Some ostate, g)
  end.

Definition setstate (arg_state : Z) (g : rng) : outcome (option Z * rng) :=
  let ostate := state g - 1 in
  w ← getZ (mem g) arg_state;
  let ty := Z.rem w MAX_TYPES in
  let rear := Z.quot w MAX_TYPES in
  g ← save_state g;
  if bool_decide (0 <= ty <= 4) then
    deg ← getZ degrees ty;
    sep ← getZ seps ty;
    let st := arg_state + 1 in
    let '(f, r) :=
      if bool_decide (ty ≠ TYPE_0) then (st + Z.rem (rear + sep) deg, st + rear) else (fptr g, rptr g) in
    Done (Some ostate, mkRng (mem g) st f r (st + deg) ty deg sep)
  else Done (None, g).

(** ** The generator *)

(** The table lies in memory, and the front pointer is [rand_sep] places ahead
    of the rear pointer, cyclically. *)
Record rng_ok (g : rng) : Prop := {
  ok_type : 0 <= rand_type g <= 4;
  ok_deg : getZ degrees (rand_type g) = Done (rand_deg g);
  ok_sep : getZ seps (rand_type g) = Done (rand_sep g);
  ok_state : 1 <= state g;
  ok_end : end_ptr g = state g + rand_deg g;
  ok_mem : state g + Z.max (rand_deg g) 1 <= Z.of_nat (length (mem g));
  ok_rear : rand_type g ≠ TYPE_0 -> state g <= rptr g < end_ptr g;
  ok_front : rand_type g ≠ TYPE_0 -> fptr g = state g + (rptr g - state g + rand_sep g) mod rand_deg g
}.

Lemma type_params g : rng_ok g ->
  (rand_type g = 0 /\ rand_deg g = 0 /\ rand_sep g = 0) \/
  (rand_type g ≠ 0 /\ 1 <= rand_sep g /\ rand_sep g < rand_deg g <= 63).
Proof.
  intros H. pose proof (ok_type _ H) as Ht. pose proof (ok_deg _ H) as Hd. pose proof (ok_sep _ H) as Hs.
  assert (rand_type g = 0 \/ rand_type g = 1 \/ rand_type g = 2 \/ rand_type g = 3 \/ rand_type g = 4) as Hc by lia.
  destruct Hc as [E|[E|[E|[E|E]]]]; rewrite E in *; injection Hd as <-; injection Hs as <-; [by left|right; lia..].
Qed.

(** [state[0]] up to the last element of the table. *)
Definition in_table (g : rng) (i : Z) : Prop := state g <= i < state g + Z.max (rand_deg g) 1.

(** Two generators in the same memory with the same variables except for the
    pointers. *)
Definition same_table (g g' : rng) : Prop :=
  state g' = state g /\ end_ptr g' = end_ptr g /\ rand_type g' = rand_type g /\ rand_deg g' = rand_deg g /\
  rand_sep g' = rand_sep g /\ length (mem g') = length (mem g).

Lemma rng_ok_mem g m : rng_ok g -> length m = length (mem g) -> rng_ok (set_mem g m).
Proof. intros [] Hl. constructor; cbn; try done. by rewrite Hl. Qed.

(** The rear pointer moves on by one place. *)
Lemma next_ptrs g :
  rng_ok g -> rand_type g ≠ TYPE_0 ->
  let rear := (rptr g - state g + 1) mod rand_deg g in
  (if bool_decide (fptr g + 1 >= end_ptr g) then (state g, rptr g + 1)
   else if bool_decide (rptr g + 1 >= end_ptr g) then (fptr g + 1, state g) else (fptr g + 1, rptr g + 1)) =
  (state g + (rear + rand_sep g) mod rand_deg g, state g + rear).
Proof.
  intros Hok Hty rear. destruct (type_params g Hok) as [[? _]|(_ & Hs & Hd)]; [done|].
  pose proof (ok_end _ Hok) as He. pose proof (ok_rear _ Hok Hty) as Hr. pose proof (ok_front _ Hok Hty) as Hf.
  set (d := rand_deg g) in *. set (k := rptr g - state g) in *. subst rear.
  assert (Hk : 0 <= k < d) by lia. assert (Hrp : rptr g = state g + k) by lia. clearbody k d.
  destruct (decide (k + 1 = d)) as [Hlast|Hnl].
  - assert (E1 : (k + 1) mod d = 0) by (rewrite Hlast; apply Z.mod_same; lia).
    assert (E2 : (k + rand_sep g) mod d = rand_sep g - 1).
    { symmetry. apply (Z.mod_unique _ _ 1); lia. }
    rewrite E1, Z.add_0_l, (Z.mod_small (rand_sep g)) by lia.
    rewrite bool_decide_eq_false_2, bool_decide_eq_true_2 by lia. f_equal; lia.
  - assert (E1 : (k + 1) mod d = k + 1) by (apply Z.mod_small; lia). rewrite E1.
    destruct (decide (k + rand_sep g < d)) as [Hlt|Hge].
    + rewrite (Z.mod_small (k + rand_sep g)) in Hf by lia. destruct (decide (k + rand_sep g + 1 = d)) as [E|E].
      * rewrite bool_decide_eq_true_2 by lia. replace (k + 1 + rand_sep g) with d by lia. rewrite Z.mod_same by lia.
        f_equal; lia.
      * rewrite !bool_decide_eq_false_2 by lia. rewrite Z.mod_small by lia. f_equal; lia.
    + assert (E2 : (k + rand_sep g) mod d = k + rand_sep g - d) by (symmetry; apply (Z.mod_unique _ _ 1); lia).
      assert (E3 : (k + 1 + rand_sep g) mod d = k + 1 + rand_sep g - d) by (symmetry; apply (Z.mod_unique _ _ 1); lia).
      rewrite E3. rewrite !bool_decide_eq_false_2 by lia. f_equal; lia.
Qed.

Lemma land_31_range v : 0 <= Z.land v 0x7fffffff < 2 ^ 31.
Proof. change 0x7fffffff with (Z.ones 31). rewrite Z.land_ones by lia. by apply Z.mod_pos_bound. Qed.

Lemma fptr_range g : rng_ok g -> rand_type g ≠ TYPE_0 -> state g <= fptr g < end_ptr g.
Proof.
  intros Hok Hty. destruct (type_params g Hok) as [[? _]|(_ & Hs & Hd)]; [done|].
  rewrite (ok_front _ Hok Hty), (ok_end _ Hok).
  pose proof (Z.mod_pos_bound (rptr g - state g + rand_sep g) (rand_deg g)). lia.
Qed.

(** A call is defined, returns 31 bits, keeps the pointers in place and writes
    one word of the table. *)
Lemma random_spec g :
  rng_ok g ->
  exists i v g' k, random_unlocked g = Done (i, g') /\ 0 <= i < 2 ^ 31 /\ rng_ok g' /\ same_table g g' /\
  in_table g k /\ mem g' = <[Z.to_nat k := v]> (mem g).
Proof.
  intros Hok. unfold random_unlocked. pose proof (ok_state _ Hok) as H1. pose proof (ok_mem _ Hok) as Hm.
  destruct (bool_decide_reflect (rand_type g = TYPE_0)) as [Hty|Hty].
  - destruct (getZ_total (mem g) (state g)) as (v & -> & _); [lia|]. cbn [mbind outcome_bind].
    rewrite setZ_ok by lia. cbn [mbind outcome_bind]. eexists _, _, _, (state g).
    split_and!; [done|apply land_31_range..| | |unfold in_table; lia|done].
    + apply rng_ok_mem; [done|]. by rewrite length_insert.
    + unfold same_table; cbn. by rewrite length_insert.
  - pose proof (ok_rear _ Hok Hty) as Hr. pose proof (fptr_range _ Hok Hty) as Hf. pose proof (ok_end _ Hok) as He.
    destruct (type_params g Hok) as [[? _]|(_ & Hs & Hd)]; [done|].
    destruct (getZ_total (mem g) (fptr g)) as (vf & -> & _); [lia|]. cbn [mbind outcome_bind].
    destruct (getZ_total (mem g) (rptr g)) as (vr & -> & _); [lia|]. cbn [mbind outcome_bind].
    rewrite setZ_ok by lia. cbn [mbind outcome_bind]. rewrite next_ptrs by done.
    set (rear := (rptr g - state g + 1) mod rand_deg g).
    assert (Hrear : 0 <= rear < rand_deg g) by (apply Z.mod_pos_bound; lia).
    eexists _, _, _, (fptr g). split_and!; [done|apply land_31_range..| | |unfold in_table; lia|done].
    + destruct Hok. constructor; cbn; try done; rewrite ?length_insert; try done.
      * intros _. lia.
      * intros _. by rewrite Z.add_simpl_l.
    + unfold same_table; cbn. by rewrite length_insert.
Qed.

(** ** Saving and restoring the state *)

(** The word that is stored before the table. *)
Definition code (g : rng) : Z :=
  if bool_decide (rand_type g = TYPE_0) then rand_type g else MAX_TYPES * (rptr g - state g) + rand_type g.

Lemma save_state_spec g : rng_ok g -> save_state g = Done (set_mem g (<[Z.to_nat (state g - 1) := code g]> (mem g))).
Proof.
  intros Hok. pose proof (ok_state _ Hok). pose proof (ok_mem _ Hok). unfold save_state, code.
  replace (s32 (MAX_TYPES * (rptr g - state g) + rand_type g)) with
    (if bool_decide (rand_type g = TYPE_0) then s32 (MAX_TYPES * (rptr g - state g) + rand_type g)
     else MAX_TYPES * (rptr g - state g) + rand_type g).
  - rewrite setZ_ok by lia. cbn [mbind outcome_bind]. do 4 f_equal. by case_bool_decide.
  - case_bool_decide as Hty; [done|]. symmetry. apply s32_small. unfold MAX_TYPES, INT_MIN, INT_MAX.
    destruct (type_params g Hok) as [[? _]|(_ & Hs & Hd)]; [done|]. pose proof (ok_rear _ Hok Hty).
    pose proof (ok_end _ Hok). pose proof (ok_type _ Hok). lia.
Qed.

(** Memory outside the table of [g] and the word before it is the same. *)
Definition only_table (g : rng) (m m' : list Z) : Prop :=
  length m' = length m /\ forall i, ~ (state g - 1 <= i < state g + Z.max (rand_deg g) 1) -> getZ m' i = getZ m i.

Lemma getZ_insert (m : list Z) k v i :
  0 <= k < Z.of_nat (length m) -> getZ (<[Z.to_nat k := v]> m) i = if decide (i = k) then Done v else getZ m i.
Proof.
  intros Hk. unfold getZ. case_decide as Hi.
  - subst. rewrite bool_decide_eq_true_2, list_lookup_insert_eq by lia. done.
  - case_bool_decide; [|done]. by rewrite list_lookup_insert_ne by lia.
Qed.

Lemma only_table_insert g m k v :
  state g - 1 <= k < state g + Z.max (rand_deg g) 1 -> 0 <= k < Z.of_nat (length m) ->
  only_table g m (<[Z.to_nat k := v]> m).
Proof.
  intros Hk Hl. split; [by rewrite length_insert|]. intros i Hi. rewrite getZ_insert by done.
  rewrite decide_False; [done|lia].
Qed.

Lemma only_table_trans g m m' m'' : only_table g m m' -> only_table g m' m'' -> only_table g m m''.
Proof. intros [H1 H2] [H3 H4]. split; [congruence|]. intros i Hi. by rewrite H4, H2. Qed.

Lemma same_table_only g g' m m' : same_table g g' -> only_table g' m m' -> only_table g m m'.
Proof. intros (E1 & _ & _ & E2 & _) [H1 H2]. split; [done|]. intros i Hi. apply H2. by rewrite E1, E2. Qed.

Lemma same_table_trans g g' g'' : same_table g g' -> same_table g' g'' -> same_table g g''.
Proof. unfold same_table. intuition congruence. Qed.

Lemma discard_spec n g :
  rng_ok g -> exists g', discard n g = Done g' /\ rng_ok g' /\ same_table g g' /\ only_table g (mem g) (mem g').
Proof.
  revert g. induction n as [|n IH]; intros g Hok; cbn [discard].
  { exists g. split_and!; try done. }
  destruct (random_spec g Hok) as (i & v & g1 & k & -> & _ & Hok1 & Hs1 & Hk & Hm1). cbn [mbind outcome_bind].
  destruct (IH g1 Hok1) as (g' & -> & Hok' & Hs' & Ho'). exists g'. split_and!; [done|done| |].
  - by eapply same_table_trans.
  - eapply only_table_trans; [|by eapply same_table_only]. rewrite Hm1. pose proof (ok_mem _ Hok). pose proof (ok_state _ Hok).
    unfold in_table in Hk. apply only_table_insert; lia.
Qed.

Lemma fill_table_spec n i g :
  0 < i -> i + Z.of_nat n <= Z.max (rand_deg g) 1 -> 1 <= state g ->
  state g + Z.max (rand_deg g) 1 <= Z.of_nat (length (mem g)) ->
  exists m, fill_table n i g = Done (set_mem g m) /\ only_table g (mem g) m.
Proof.
  revert i g. induction n as [|n IH]; intros i g Hi Hn Hs Hm; cbn [fill_table].
  { exists (mem g). split; [by destruct g|done]. }
  destruct (getZ_total (mem g) (state g + i - 1)) as (v & -> & _); [lia|]. cbn [mbind outcome_bind].
  rewrite setZ_ok by lia. cbn [mbind outcome_bind].
  set (m1 := <[_ := _]> (mem g)).
  assert (Hm1 : length m1 = length (mem g)) by apply length_insert.
  destruct (IH (i + 1) (set_mem g m1)) as (m & -> & Hm'); cbn [set_mem state rand_deg mem]; [lia|lia|done|lia|].
  exists m. split; [done|]. eapply only_table_trans; [|exact Hm']. apply only_table_insert; lia.
Qed.

(** The parts of [rng_ok] that do not speak of the pointers. *)
Record table_ok (g : rng) : Prop := {
  to_type : 0 <= rand_type g <= 4;
  to_deg : getZ degrees (rand_type g) = Done (rand_deg g);
  to_sep : getZ seps (rand_type g) = Done (rand_sep g);
  to_state : 1 <= state g;
  to_end : end_ptr g = state g + rand_deg g;
  to_mem : state g + Z.max (rand_deg g) 1 <= Z.of_nat (length (mem g))
}.

Lemma table_rng_ok g : table_ok g -> (rand_type g ≠ TYPE_0 -> rptr g = state g /\ fptr g = state g + rand_sep g) -> rng_ok g.
Proof.
  intros [] Hp. constructor; try done; intros Hty; destruct (Hp Hty) as [Er Ef]; rewrite ?Er, ?Ef.
  all: assert (Hc : rand_type g = 1 \/ rand_type g = 2 \/ rand_type g = 3 \/ rand_type g = 4) by (unfold TYPE_0 in *; lia).
  all: destruct Hc as [E|[E|[E|E]]]; rewrite E in *; injection to_deg0 as Hd; injection to_sep0 as Hs;
    rewrite <- ?Hd, <- ?Hs in *; try lia; rewrite Z.sub_diag; done.
Qed.

Lemma srandom_spec x g :
  table_ok g -> exists g', srandom_unlocked x g = Done g' /\ rng_ok g' /\ same_table g g' /\ only_table g (mem g) (mem g').
Proof.
  intros Hok. pose proof (to_state _ Hok) as Hst. pose proof (to_mem _ Hok) as Hme. unfold srandom_unlocked.
  rewrite setZ_ok by lia. cbn [mbind outcome_bind]. set (m0 := <[Z.to_nat (state g) := s32 x]> (mem g)).
  assert (H0 : only_table g (mem g) m0) by (apply only_table_insert; lia). cbn [set_mem rand_type].
  case_bool_decide as Hty.
  - eexists. split_and!; [done| | |done].
    + apply table_rng_ok; [|done]. destruct Hok. constructor; cbn; try done. by destruct H0 as [-> _].
    + unfold same_table; cbn. by destruct H0 as [-> _].
  - set (g0 := set_mem g m0).
    assert (Hg0 : table_ok g0) by (destruct Hok; constructor; cbn; try done; by destruct H0 as [-> _]).
    assert (Hdeg : 1 <= rand_deg g).
    { destruct Hok. assert (Hc : rand_type g = 1 \/ rand_type g = 2 \/ rand_type g = 3 \/ rand_type g = 4) by (unfold TYPE_0 in *; lia).
      destruct Hc as [E|[E|[E|E]]]; rewrite E in *; injection to_deg0 as Hd; lia. }
    destruct (fill_table_spec (Z.to_nat (rand_deg g0 - 1)) 1 g0) as (m1 & -> & H1); [lia|cbn; lia|apply Hg0|apply Hg0|].
    cbn [mbind outcome_bind]. set (g1 := set_ptrs _ _ _).
    assert (Hg1 : rng_ok g1).
    { apply table_rng_ok; [|done]. destruct Hg0. constructor; cbn in *; try done. by destruct H1 as [-> _]. }
    destruct (discard_spec (Z.to_nat (10 * rand_deg g1)) g1 Hg1) as (g' & -> & Hok' & Hs' & Ho').
    exists g'. split_and!; [done|done| |].
    + eapply same_table_trans; [|exact Hs']. unfold same_table; cbn. destruct H1 as [-> _]. cbn. by destruct H0 as [-> _].
    + eapply only_table_trans; [exact H0|]. eapply only_table_trans; [exact H1|]. exact Ho'.
Qed.

(** ** Generators with the same table and pointers give the same numbers *)

Record agrees (g g' : rng) : Prop := {
  ag_table : same_table g g';
  ag_ptrs : rand_type g ≠ TYPE_0 -> fptr g' = fptr g /\ rptr g' = rptr g;
  ag_mem i : in_table g i -> getZ (mem g') i = getZ (mem g) i
}.

Fixpoint outputs (n : nat) (g : rng) : outcome (list Z) :=
  match n with
  | O => Done []
  | S n => '(i, g) ← random g; rest ← outputs n g; Done (i :: rest)
  end.

Lemma agrees_ok g g' : rng_ok g -> agrees g g' -> rng_ok g'.
Proof.
  intros [H1 H2 H3 H4 H5 H6 H7 H8] [(E1 & E2 & E3 & E4 & E5 & E6) Hp _].
  constructor; rewrite ?E1, ?E2, ?E3, ?E4, ?E5, ?E6; try done; intros Hty; destruct (Hp Hty) as [Ef Er];
    rewrite ?Ef, ?Er; auto.
Qed.

Lemma agrees_set g g' k v f r :
  agrees g g' -> in_table g k -> 0 <= k < Z.of_nat (length (mem g)) ->
  agrees (set_ptrs (set_mem g (<[Z.to_nat k := v]> (mem g))) f r) (set_ptrs (set_mem g' (<[Z.to_nat k := v]> (mem g'))) f r).
Proof.
  intros [(E1 & E2 & E3 & E4 & E5 & E6) Hp Hm] Hk Hl. constructor; cbn.
  - unfold same_table; cbn. rewrite !length_insert. done.
  - done.
  - intros i Hi. rewrite !getZ_insert by lia. case_decide; [done|]. by apply Hm.
Qed.

Lemma random_agrees g g' i g1 :
  rng_ok g -> agrees g g' -> random_unlocked g = Done (i, g1) ->
  exists g1', random_unlocked g' = Done (i, g1') /\ agrees g1 g1'.
Proof.
  intros Hok Hag. pose proof Hag as [(E1 & E2 & E3 & E4 & E5 & E6) Hp Hm]. unfold random_unlocked.
  pose proof (ok_state _ Hok). pose proof (ok_mem _ Hok). rewrite E3.
  destruct (bool_decide_reflect (rand_type g = TYPE_0)) as [Hty|Hty].
  - rewrite E1, Hm by (unfold in_table; lia).
    destruct (getZ_total (mem g) (state g)) as (v & -> & _); [lia|]. cbn [mbind outcome_bind].
    rewrite !setZ_ok by lia. cbn [mbind outcome_bind]. intros [= <- <-]. eexists. split; [done|].
    constructor; cbn; [|done|].
    + unfold same_table; cbn. rewrite !length_insert. done.
    + intros j Hj. rewrite !getZ_insert by lia. case_decide; [done|]. by apply Hm.
  - destruct (Hp Hty) as [-> ->]. rewrite E1, E2. pose proof (ok_end _ Hok). pose proof (ok_rear _ Hok Hty).
    pose proof (fptr_range _ Hok Hty). rewrite !Hm by (unfold in_table; lia).
    destruct (getZ_total (mem g) (fptr g)) as (vf & -> & _); [lia|]. cbn [mbind outcome_bind].
    destruct (getZ_total (mem g) (rptr g)) as (vr & -> & _); [lia|]. cbn [mbind outcome_bind].
    rewrite !setZ_ok by lia. cbn [mbind outcome_bind].
    destruct (if bool_decide (fptr g + 1 >= end_ptr g) then _ else _) as [f r].
    intros [= <- <-]. eexists. split; [done|]. apply agrees_set; [done|unfold in_table; lia|lia].
Qed.

Lemma outputs_agree n g g' : rng_ok g -> agrees g g' -> outputs n g' = outputs n g.
Proof.
  revert g g'. induction n as [|n IH]; intros g g' Hok Hag; cbn [outputs]; [done|].
  destruct (random_spec g Hok) as (i & v & g1 & k & Hr & _ & Hok1 & _). unfold random.
  destruct (random_agrees g g' i g1 Hok Hag Hr) as (g1' & -> & Hag1). rewrite Hr. cbn [mbind outcome_bind].
  by rewrite (IH g1 g1').
Qed.

(** ** Switching state arrays *)

Lemma choose_type_table n ty deg sep :
  choose_type n = Some (ty, deg, sep) -> getZ degrees ty = Done deg /\ getZ seps ty = Done sep /\ 0 <= ty <= 4.
Proof.
  unfold choose_type. repeat case_bool_decide; try done; intros [= <- <- <-]; (split_and!; [done|done|lia|lia]).
Qed.

(** [initstate] leaves a working generator in the new array, whose first word
    records it, and touches nothing else but the first word of the old one. *)
Lemma initstate_spec seed b n ty deg sep g :
  rng_ok g -> choose_type n = Some (ty, deg, sep) -> 0 <= b -> b + 1 + Z.max deg 1 <= Z.of_nat (length (mem g)) ->
  exists g1, initstate seed b n g = Done (Some (state g - 1), g1) /\ rng_ok g1 /\
  state g1 = b + 1 /\ rand_deg g1 = deg /\
  only_table g1 (<[Z.to_nat (state g - 1) := code g]> (mem g)) (mem g1).
Proof.
  intros Hok Hch Hb Hm. unfold initstate. rewrite save_state_spec by done. cbn [mbind outcome_bind]. rewrite Hch.
  destruct (choose_type_table _ _ _ _ Hch) as (Hd & Hs & Ht). cbn [set_mem mem fptr rptr].
  set (m0 := <[_ := code g]> (mem g)). assert (Hl0 : length m0 = length (mem g)) by apply length_insert.
  set (g0 := mkRng m0 (b + 1) (fptr g) (rptr g) (b + 1 + deg) ty deg sep).
  assert (Hg0 : table_ok g0) by (constructor; cbn; try done; lia).
  destruct (srandom_spec seed g0 Hg0) as (g1 & -> & Hok1 & Hs1 & Ho1). cbn [mbind outcome_bind].
  rewrite save_state_spec by done. cbn [mbind outcome_bind].
  pose proof Hs1 as (E1 & E2 & E3 & E4 & E5 & E6). cbn in E1, E4, E6.
  eexists. split_and!; [done| |done|done|].
  - apply rng_ok_mem; [done|]. by rewrite length_insert.
  - cbn. eapply (only_table_trans _ _ (mem g1)).
    + destruct Ho1 as [Hl Ho]. split; [done|]. intros i Hi. apply Ho. cbn in *. by rewrite <- E1, <- E4.
    + apply only_table_insert; cbn; lia.
Qed.

(** [setstate] on an array whose first word records the generator [g] brings
    back its variables. *)
Lemma setstate_spec g g2 :
  rng_ok g -> rng_ok g2 -> getZ (mem g2) (state g - 1) = Done (code g) ->
  exists g3, setstate (state g - 1) g2 = Done (Some (state g2 - 1), g3) /\
  state g3 = state g /\ end_ptr g3 = end_ptr g /\ rand_type g3 = rand_type g /\ rand_deg g3 = rand_deg g /\
  rand_sep g3 = rand_sep g /\ (rand_type g ≠ TYPE_0 -> fptr g3 = fptr g /\ rptr g3 = rptr g) /\
  mem g3 = <[Z.to_nat (state g2 - 1) := code g2]> (mem g2).
Proof.
  intros Hok Hok2 Hw. unfold setstate. rewrite Hw. cbn [mbind outcome_bind].
  rewrite save_state_spec by done. cbn [mbind outcome_bind].
  pose proof (ok_type _ Hok) as Ht.
  assert (Hdec : Z.rem (code g) MAX_TYPES = rand_type g /\
                 (rand_type g ≠ TYPE_0 -> Z.quot (code g) MAX_TYPES = rptr g - state g /\ 0 <= rptr g - state g)).
  { unfold code, MAX_TYPES, TYPE_0. case_bool_decide as Hty; [rewrite Hty; done|].
    pose proof (ok_rear _ Hok Hty). pose proof (ok_end _ Hok).
    rewrite Z.rem_mod_nonneg, Z.quot_div_nonneg by lia. split.
    - rewrite Z.add_comm, Z.mul_comm, Z.mod_add, Z.mod_small by lia. done.
    - intros _. rewrite Z.mul_comm, Z.div_add_l, (Z.div_small (rand_type g)) by lia. lia. }
  destruct Hdec as [-> Hq]. rewrite bool_decide_eq_true_2 by lia.
  rewrite (ok_deg _ Hok), (ok_sep _ Hok). cbn [mbind outcome_bind].
  replace (state g - 1 + 1) with (state g) by lia.
  destruct (bool_decide_reflect (rand_type g ≠ TYPE_0)) as [Hty|Hty].
  - destruct (Hq Hty) as [-> H0]. eexists. split; [done|]. cbn. rewrite (ok_end _ Hok), (ok_front _ Hok Hty).
    destruct (type_params g Hok) as [[? _]|(_ & ? & ?)]; [done|].
    rewrite Z.rem_mod_nonneg by lia. split_and!; try done. intros _. split; [done|lia].
  - eexists. split; [done|]. cbn. rewrite (ok_end _ Hok). split_and!; done.
Qed.

(** ** The theorems *)

(** The values of the source are a working generator, and exactly what
    [initstate(1, randtbl, 128)] computes, as the comment says. *)
Theorem initial_is_initstate : initstate 1 0 128 (initial []) = Done (Some 0, initial []).
Proof. by vm_compute. Qed.

Lemma initial_ok rest : rng_ok (initial rest).
Proof.
  constructor; cbn [initial rand_type rand_deg rand_sep state end_ptr fptr rptr mem]; try done.
  rewrite length_app. change (length randtbl) with 32%nat. unfold DEG_3. lia.
Qed.

(** Any number of calls is defined and returns numbers of 31 bits. *)
Theorem random_31_bits n g :
  rng_ok g -> exists l, outputs n g = Done l /\ length l = n /\ Forall (fun i => 0 <= i < 2 ^ 31) l.
Proof.
  revert g. induction n as [|n IH]; intros g Hok; cbn [outputs]; [by exists []|].
  destruct (random_spec g Hok) as (i & v & g1 & k & Hr & Hi & Hok1 & _). unfold random. rewrite Hr. cbn [mbind outcome_bind].
  destruct (IH g1 Hok1) as (l & -> & Hl & Hf). exists (i :: l). cbn. split_and!; [done|lia|by constructor].
Qed.

(** Switching to another state array and back resumes the sequence: after
    [initstate] with an array that does not overlap the one in use, any
    number of calls, and [setstate] with the pointer [initstate] returned, the
    generator gives the numbers it would have given without the switch. *)
Theorem setstate_resumes seed b n ty deg sep k m g :
  rng_ok g -> choose_type n = Some (ty, deg, sep) -> 0 <= b -> b + 1 + Z.max deg 1 <= Z.of_nat (length (mem g)) ->
  b + 1 + Z.max deg 1 <= state g - 1 \/ state g + Z.max (rand_deg g) 1 <= b ->
  exists old g1 g2 g3, initstate seed b n g = Done (Some old, g1) /\ discard k g1 = Done g2 /\
  setstate old g2 = Done (Some b, g3) /\ outputs m g3 = outputs m g.
Proof.
  intros Hok Hch Hb Hm Hdis.
  destruct (initstate_spec seed b n ty deg sep g Hok Hch Hb Hm) as (g1 & Hi & Hok1 & Hst & Hdeg & [Hl1 Ho1]).
  destruct (discard_spec k g1 Hok1) as (g2 & Hd & Hok2 & Hs2 & [Hl2 Ho2]).
  rewrite length_insert in Hl1. pose proof (ok_state _ Hok) as Hs0. pose proof (ok_mem _ Hok) as Hm0.
  assert (Hkeep : forall i, state g - 1 <= i < state g + Z.max (rand_deg g) 1 ->
    getZ (mem g2) i = if decide (i = state g - 1) then Done (code g) else getZ (mem g) i).
  { intros i Hi'. rewrite Ho2, Ho1 by lia. apply getZ_insert. lia. }
  assert (Hcode : getZ (mem g2) (state g - 1) = Done (code g)) by (rewrite Hkeep by lia; by rewrite decide_True).
  destruct (setstate_spec g g2 Hok Hok2 Hcode) as (g3 & H3 & E1 & E2 & E3 & E4 & E5 & Hp & Em).
  pose proof Hs2 as (F1 & _ & _ & F4 & _).
  exists (state g - 1), g1, g2, g3. split_and!; [done|done| |].
  - rewrite H3. do 3 f_equal. lia.
  - apply outputs_agree; [done|]. constructor; [|done|].
    + unfold same_table. rewrite Em, length_insert. split_and!; done || congruence.
    + intros i Hin. unfold in_table in Hin. rewrite Em, getZ_insert by lia.
      rewrite decide_False by lia. rewrite Hkeep by lia. by rewrite decide_False by lia.
Qed.

Lemma random_31_bits_witness :
  exists l, outputs 1000 (initial []) = Done l /\ length l = 1000%nat /\ Forall (fun i => 0 <= i < 2 ^ 31) l.
Proof. apply (random_31_bits 1000). apply initial_ok. Defined.

(** A second array of 32 bytes after [randtbl]. *)
Lemma setstate_resumes_witness :
  exists old g1 g2 g3, initstate 7 32 32 (initial (zeros 8)) = Done (Some old, g1) /\ discard 5 g1 = Done g2 /\
  setstate old g2 = Done (Some 32, g3) /\ outputs 40 g3 = outputs 40 (initial (zeros 8)).
Proof.
  apply (setstate_resumes 7 32 32 1 7 3 5 40 (initial (zeros 8)));
    [apply initial_ok|done|done|by vm_compute|right; by vm_compute].
Defined.

End LibcRandom.
