(* ===== verification/Serial.v ===== *)
(** * The serial console: [dev/lamebus/lser.c] under [dev/generic/console.c]

    A thread that prints waits for the semaphore [cs_wsem] and then hands its
    character to the serial driver, which panics if the card is still busy; a
    write-done interrupt posts the semaphore again.  Printing also works with
    interrupts off, by polling, in between.

    The card is a parameter: registers that are read and written, with the
    behaviour [SerialLaws] states.  Code that runs with interrupts off is one
    step.  [console_output] says that in every reachable state the driver does
    not panic, the card is never given a character while it is busy, and what
    it was given is what was printed, in order. *)

From S2P Require Import Prelude.

Module Serial.

Definition LSER_REG_CHAR : Z := 0.
Definition LSER_REG_WIRQ : Z := 4.
Definition LSER_REG_RIRQ : Z := 8.
Definition LSER_IRQ_ENABLE : Z := 1.
Definition LSER_IRQ_ACTIVE : Z := 2.

(** ** The card

    [read_reg] and [write_reg] are [bus_read_register] and
    [bus_write_register]; reading also lets time pass.  [tick] is time passing
    on its own. *)
Class SerialCard (D : Type) : Type := {
  read_reg : D -> Z -> Z * D;
  write_reg : D -> Z -> Z -> D;
  tick : D -> D;
  sent : D -> list Z;          (* the characters transmitted or in transmission *)
  busy : D -> bool;            (* a character is in transmission *)
  wready : D -> bool;          (* the write interrupt is pending *)
  latency : D -> nat           (* how long the transmission can take *)
}.

(** What the driver relies on: a character given to an idle card is
    transmitted; the end of the transmission sets the interrupt; writing
    [ENABLE] to an interrupt register clears it and nothing else; looking
    again and again sees the end of the transmission. *)
Class SerialLaws (D : Type) `{SerialCard D} : Prop := {
  char_sent d c : busy d = false -> wready d = false ->
    sent (write_reg d LSER_REG_CHAR c) = sent d ++ [c] /\ busy (write_reg d LSER_REG_CHAR c) = true /\
    wready (write_reg d LSER_REG_CHAR c) = false;
  wirq_clear d :
    sent (write_reg d LSER_REG_WIRQ LSER_IRQ_ENABLE) = sent d /\
    busy (write_reg d LSER_REG_WIRQ LSER_IRQ_ENABLE) = busy d /\
    wready (write_reg d LSER_REG_WIRQ LSER_IRQ_ENABLE) = false;
  rirq_clear d :
    latency (write_reg d LSER_REG_RIRQ LSER_IRQ_ENABLE) = latency d /\
    sent (write_reg d LSER_REG_RIRQ LSER_IRQ_ENABLE) = sent d /\
    busy (write_reg d LSER_REG_RIRQ LSER_IRQ_ENABLE) = busy d /\
    wready (write_reg d LSER_REG_RIRQ LSER_IRQ_ENABLE) = wready d;
  wirq_read d : Z.testbit (fst (read_reg d LSER_REG_WIRQ)) 1 = wready (snd (read_reg d LSER_REG_WIRQ));
  (* time: a transmission may end, and only that *)
  time_sent d d' : d' = tick d \/ (exists r, d' = snd (read_reg d r)) -> sent d' = sent d;
  time_busy d d' : d' = tick d \/ (exists r, d' = snd (read_reg d r)) ->
    (busy d' = busy d /\ wready d' = wready d) \/ (busy d = true /\ busy d' = false /\ wready d' = true);
  time_latency d d' : d' = tick d \/ (exists r, d' = snd (read_reg d r)) -> (latency d' <= latency d)%nat;
  time_ends d : busy d = true -> latency d = 0%nat -> busy (snd (read_reg d LSER_REG_WIRQ)) = false;
  time_passes d : busy d = true -> busy (snd (read_reg d LSER_REG_WIRQ)) = true ->
    (latency (snd (read_reg d LSER_REG_WIRQ)) < latency d)%nat
}.

Section driver.
Context {D : Type} `{SerialCard D}.

(** The softc: [ls_wbusy], and the semaphores and the character of the
    console above it. *)
Record softc : Type := mkSoftc {
  card : D;
  ls_wbusy : bool;
  cs_wsem : Z;
  cs_rsem : Z;
  cs_gotchar : Z
}.

Definition set_card (s : softc) (d : D) : softc := mkSoftc d (ls_wbusy s) (cs_wsem s) (cs_rsem s) (cs_gotchar s).
Definition set_wbusy (s : softc) (b : bool) : softc := mkSoftc (card s) b (cs_wsem s) (cs_rsem s) (cs_gotchar s).

(** ** [console.c]: what the driver calls *)

(** [V(cs->cs_wsem)] *)
Definition con_start (s : softc) : softc := mkSoftc (card s) (ls_wbusy s) (cs_wsem s + 1) (cs_rsem s) (cs_gotchar s).
(** [V(cs->cs_rsem)] *)
Definition con_input (s : softc) (ch : Z) : softc := mkSoftc (card s) (ls_wbusy s) (cs_wsem s) (cs_rsem s + 1) ch.

(** [P]: [None] when it blocks. *)
Definition P_wsem (s : softc) : option softc :=
  if bool_decide (cs_wsem s > 0) then Some (mkSoftc (card s) (ls_wbusy s) (cs_wsem s - 1) (cs_rsem s) (cs_gotchar s)) else None.

(** [getch_intr]: [P(cs->cs_rsem)], then the character. *)
Definition getch_intr (s : softc) : option (Z * softc) :=
  if bool_decide (cs_rsem s > 0)
  then Some (cs_gotchar s, mkSoftc (card s) (ls_wbusy s) (cs_wsem s) (cs_rsem s - 1) (cs_gotchar s)) else None.

(** ** [lser.c] *)

(** The bit [LSER_IRQ_ACTIVE] of what a register shows. *)
Definition active (x : Z) : bool := Z.testbit x 1.

Definition lser_irq (s : softc) : softc :=
  let '(x, d) := read_reg (card s) LSER_REG_WIRQ in
  let s := set_card s d in
  let clear_to_write := active x in
  let s := if clear_to_write
           then set_card (set_wbusy s false) (write_reg (card s) LSER_REG_WIRQ LSER_IRQ_ENABLE) else s in
  let '(x, d) := read_reg (card s) LSER_REG_RIRQ in
  let s := set_card s d in
  let '(got_a_read, ch, s) :=
    if active x then
      let '(ch, d) := read_reg (card s) LSER_REG_CHAR in
      (true, ch, set_card s (write_reg d LSER_REG_RIRQ LSER_IRQ_ENABLE))
    else (false, 0, s) in
  let s := if clear_to_write then con_start s else s in
  if got_a_read : bool then con_input s ch else s.

Definition lser_write (s : softc) (ch : Z) : outcome softc :=
  if ls_wbusy s then Panic
  else Done (set_card (set_wbusy s true) (write_reg (card s) LSER_REG_CHAR ch)).

Fixpoint lser_spin_until_write (fuel : nat) (s : softc) : outcome softc :=
  match fuel with
  | O => Stuck
  | S fuel =>
      let '(val, d) := read_reg (card s) LSER_REG_WIRQ in
      let s := set_card s d in
      if active val then Done s else lser_spin_until_write fuel s
  end.

(** The fuel is what the card needs: see [spin_spec]. *)
Definition spin (s : softc) : outcome softc := lser_spin_until_write (S (latency (card s))) s.

Definition lser_writepolled (s : softc) (ch : Z) : outcome softc :=
  '(irqpending, s) ←
    (if ls_wbusy s then
       s ← spin s;
       Done (true, set_card s (write_reg (card s) LSER_REG_WIRQ LSER_IRQ_ENABLE))
     else Done (false, s));
  let s := set_card s (write_reg (card s) LSER_REG_CHAR ch) in
  s ← spin s;
  if negb irqpending then Done (set_card s (write_reg (card s) LSER_REG_WIRQ LSER_IRQ_ENABLE)) else Done s.

Definition config_lser (s : softc) : softc :=
  let s := set_wbusy s false in
  let s := set_card s (write_reg (card s) LSER_REG_RIRQ LSER_IRQ_ENABLE) in
  set_card s (write_reg (card s) LSER_REG_WIRQ LSER_IRQ_ENABLE).

(** ** Everything together

    [inflight] holds the characters of the threads that passed the semaphore
    in [putch_intr] and have not called [lser_write] yet; [log] is what was
    printed, in the order in which the driver was called. *)
Record config : Type := mkConfig { sc : softc; inflight : list Z; log : list Z }.

Inductive step : config -> config -> Prop :=
  | StepP cf s ch :                       (* putch_intr: P(cs_wsem) *)
      P_wsem (sc cf) = Some s -> step cf (mkConfig s (inflight cf ++ [ch]) (log cf))
  | StepSend cf k ch s :                  (* putch_intr: cs_send *)
      inflight cf !! k = Some ch -> lser_write (sc cf) ch = Done s ->
      step cf (mkConfig s (delete k (inflight cf)) (log cf ++ [ch]))
  | StepPolled cf ch s :                  (* putch_polled *)
      lser_writepolled (sc cf) ch = Done s -> step cf (mkConfig s (inflight cf) (log cf ++ [ch]))
  | StepIrq cf : step cf (mkConfig (lser_irq (sc cf)) (inflight cf) (log cf))
  | StepTick cf : step cf (mkConfig (set_card (sc cf) (tick (card (sc cf)))) (inflight cf) (log cf))
  | StepGetch cf ch s :
      getch_intr (sc cf) = Some (ch, s) -> step cf (mkConfig s (inflight cf) (log cf)).

(** After [config_lser] and [config_con], whose semaphores start at 1 and 0. *)
Definition started (d : D) : config := mkConfig (config_lser (mkSoftc d false 1 0 0)) [] [].

Definition reachable (d0 : D) : config -> Prop := rtc step (started d0).

(** ** The invariant *)

(** Who may write: the semaphore, a thread that passed it, or the card. *)
Record inv (d0 : D) (cf : config) : Prop := {
  iv_token : cs_wsem (sc cf) + Z.of_nat (length (inflight cf)) + (if ls_wbusy (sc cf) then 1 else 0) = 1;
  iv_sem : 0 <= cs_wsem (sc cf);
  iv_idle : ls_wbusy (sc cf) = false -> busy (card (sc cf)) = false /\ wready (card (sc cf)) = false;
  iv_pending : ls_wbusy (sc cf) = true -> busy (card (sc cf)) = negb (wready (card (sc cf)));
  iv_sent : sent (card (sc cf)) = sent d0 ++ log cf
}.

Context `{!SerialLaws D}.

Definition waiting (d : D) : Prop := busy d = negb (wready d).

Lemma time_waiting d d' : d' = tick d \/ (exists r, d' = snd (read_reg d r)) -> waiting d -> waiting d'.
Proof.
  unfold waiting. intros Ht Hw. destruct (time_busy d d' Ht) as [[-> ->]|(_ & -> & ->)]; done.
Qed.

Lemma time_idle d d' : d' = tick d \/ (exists r, d' = snd (read_reg d r)) ->
  busy d = false -> wready d = false -> busy d' = false /\ wready d' = false.
Proof. intros Ht Hb Hw. destruct (time_busy d d' Ht) as [[-> ->]|(? & _)]; [done|congruence]. Qed.

Lemma set_card_card (s : softc) d : card (set_card s d) = d.
Proof. done. Qed.

(** Polling ends, when the transmission does. *)
Lemma spin_loop fuel s :
  waiting (card s) -> (busy (card s) = true -> (latency (card s) < fuel)%nat) -> (0 < fuel)%nat ->
  exists d, lser_spin_until_write fuel s = Done (set_card s d) /\ busy d = false /\ wready d = true /\ sent d = sent (card s).
Proof.
  revert s. induction fuel as [|fuel IH]; intros s Hw Hl Hf; [lia|]. cbn [lser_spin_until_write].
  destruct (read_reg (card s) LSER_REG_WIRQ) as [val d] eqn:E.
  assert (Hd : d = snd (read_reg (card s) LSER_REG_WIRQ)) by (by rewrite E).
  assert (Ht : d = tick (card s) \/ exists r, d = snd (read_reg (card s) r)) by eauto.
  pose proof (time_sent _ _ Ht) as Hs. pose proof (time_waiting _ _ Ht Hw) as Hw'.
  pose proof (wirq_read (card s)) as Hr. rewrite E in Hr. cbn [fst snd] in Hr. unfold active. rewrite Hr.
  destruct (wready d) eqn:Ew.
  { exists d. unfold waiting in Hw'. rewrite Ew in Hw'. done. }
  assert (Hb' : busy d = true) by (unfold waiting in Hw'; by rewrite Ew in Hw').
  assert (Hb : busy (card s) = true).
  { destruct (time_busy _ _ Ht) as [[<- _]|(? & ? & _)]; congruence. }
  specialize (Hl Hb). destruct (decide (latency (card s) = 0%nat)) as [H0|Hn].
  { pose proof (time_ends _ Hb H0) as He. rewrite <- Hd in He. congruence. }
  pose proof (time_passes (card s) Hb) as Hp. rewrite <- Hd in Hp. specialize (Hp Hb').
  destruct (IH (set_card s d)) as (d' & -> & H1 & H2 & H3); [done|intros _; cbn; lia|lia|].
  exists d'. cbn in H3. split_and!; [done|done|done|congruence].
Qed.

Lemma spin_spec s :
  waiting (card s) ->
  exists d, spin s = Done (set_card s d) /\ busy d = false /\ wready d = true /\ sent d = sent (card s).
Proof. intros Hw. apply spin_loop; [done|lia|lia]. Qed.

(** A polled write ends, transmits its character, and leaves a write that was
    pending before it pending. *)
Lemma writepolled_spec s ch :
  (if ls_wbusy s then waiting (card s) else busy (card s) = false /\ wready (card s) = false) ->
  exists d, lser_writepolled s ch = Done (set_card s d) /\ sent d = sent (card s) ++ [ch] /\ busy d = false /\
  wready d = ls_wbusy s.
Proof.
  intros Hs. unfold lser_writepolled.
  destruct (ls_wbusy s) eqn:Ew.
  - destruct (spin_spec s Hs) as (d1 & -> & Hb1 & Hw1 & Hs1). cbn [mbind outcome_bind].
    destruct (wirq_clear d1) as (E1 & E2 & E3). set (d2 := write_reg d1 _ _) in *.
    destruct (char_sent d2 ch) as (F1 & F2 & F3); [congruence|done|].
    rewrite !set_card_card. fold d2. set (d3 := write_reg d2 _ _) in *.
    destruct (spin_spec (set_card (set_card (set_card s d1) d2) d3)) as (d4 & -> & Hb4 & Hw4 & Hs4).
    { unfold waiting. cbn. by rewrite F2, F3. }
    exists d4. split_and!; [done| |done|done]. rewrite Hs4. cbn. congruence.
  - destruct Hs as [Hb Hw]. cbn [mbind outcome_bind].
    destruct (char_sent (card s) ch Hb Hw) as (F1 & F2 & F3). set (d3 := write_reg _ _ _) in *.
    destruct (spin_spec (set_card s d3)) as (d4 & -> & Hb4 & Hw4 & Hs4).
    { unfold waiting. cbn. by rewrite F2, F3. }
    cbn [mbind outcome_bind negb]. rewrite set_card_card. destruct (wirq_clear d4) as (E1 & E2 & E3).
    eexists. split_and!; [done| |congruence|done]. rewrite E1, Hs4. done.
Qed.

(** ** The invariant holds in every reachable state *)

Definition card_ok (w : bool) (d : D) : Prop :=
  if w then waiting d else busy d = false /\ wready d = false.

Lemma card_ok_time w d d' :
  d' = tick d \/ (exists r, d' = snd (read_reg d r)) -> card_ok w d -> card_ok w d'.
Proof. intros Ht. destruct w; [by apply time_waiting|intros [??]; by apply (time_idle d)]. Qed.

Lemma card_ok_rirq w d : card_ok w d -> card_ok w (write_reg d LSER_REG_RIRQ LSER_IRQ_ENABLE).
Proof. unfold card_ok, waiting. by destruct (rirq_clear d) as (_ & _ & -> & ->). Qed.

Lemma inv_card d0 cf :
  inv d0 cf <->
  cs_wsem (sc cf) + Z.of_nat (length (inflight cf)) + (if ls_wbusy (sc cf) then 1 else 0) = 1 /\
  0 <= cs_wsem (sc cf) /\ card_ok (ls_wbusy (sc cf)) (card (sc cf)) /\ sent (card (sc cf)) = sent d0 ++ log cf.
Proof.
  unfold card_ok, waiting. split.
  - intros [H1 H2 H3 H4 H5]. split_and!; [done|done|destruct (ls_wbusy (sc cf)); auto|done].
  - intros (H1 & H2 & H3 & H5). split; [done|done|intros E; by rewrite E in H3|intros E; by rewrite E in H3|done].
Qed.

Ltac irq_goals :=
  split_and!; try done; try (lia || congruence); intros _ ?;
  repeat match goal with
  | H : false = false -> _ |- _ => specialize (H eq_refl)
  | H : ls_wbusy ?s = true -> _, H' : ls_wbusy ?s = true |- _ => specialize (H H')
  | H : card _ = _ |- _ => rewrite H in *
  end; lia.

(** The interrupt handler posts the semaphore exactly when it ends a write. *)
Lemma lser_irq_spec s :
  card_ok (ls_wbusy s) (card s) ->
  exists w, cs_wsem (lser_irq s) = cs_wsem s + (if w : bool then 1 else 0) /\
    ls_wbusy (lser_irq s) = (if w then false else ls_wbusy s) /\ (w = true -> ls_wbusy s = true) /\
    card_ok (ls_wbusy (lser_irq s)) (card (lser_irq s)) /\ sent (card (lser_irq s)) = sent (card s) /\
    (w = false -> ls_wbusy s = true ->
     (latency (card (lser_irq s)) < latency (card s))%nat /\ latency (card s) ≠ O).
Proof.
  intros Hc. unfold lser_irq. destruct (read_reg (card s) LSER_REG_WIRQ) as [x d] eqn:E.
  assert (Ht : d = tick (card s) \/ exists r, d = snd (read_reg (card s) r)).
  { right. exists LSER_REG_WIRQ. by rewrite E. }
  pose proof (card_ok_time _ _ _ Ht Hc) as Hc1. pose proof (time_sent _ _ Ht) as Hs1.
  pose proof (wirq_read (card s)) as Hr. rewrite E in Hr. cbn [fst snd] in Hr.
  change (Z.testbit x 1) with (active x) in Hr. cbv zeta. rewrite Hr.
  exists (wready d).
  assert (Hwb : wready d = true -> ls_wbusy s = true).
  { intros Ew. destruct (ls_wbusy s); [done|]. destruct Hc1; congruence. }
  assert (Hlat : wready d = false -> ls_wbusy s = true -> (latency d < latency (card s))%nat).
  { intros Ew Ewb. rewrite Ewb in Hc, Hc1. cbn in Hc, Hc1. unfold waiting in Hc1. rewrite Ew in Hc1. cbn in Hc1.
    assert (Hb : busy (card s) = true). { destruct (time_busy _ _ Ht) as [[<- _]|(? & ? & _)]; congruence. }
    pose proof (time_passes (card s) Hb) as Hp. rewrite E in Hp. by apply Hp. }
  set (s1 := if wready d then set_card (set_wbusy (set_card s d) false) _ else _).
  assert (H1 : cs_wsem s1 = cs_wsem s /\ ls_wbusy s1 = (if wready d then false else ls_wbusy s) /\
               card_ok (ls_wbusy s1) (card s1) /\ sent (card s1) = sent (card s) /\
               (wready d = false -> card s1 = d)).
  { subst s1. destruct (wready d) eqn:Ew; [|done]. rewrite Hwb in Hc1 by done. cbn.
    destruct (wirq_clear d) as (-> & -> & ->). cbn in Hc1. unfold waiting in Hc1. rewrite Hc1, Ew. by split_and!. }
  clearbody s1. destruct H1 as (W1 & W2 & W3 & W4 & W5).
  destruct (read_reg (card s1) LSER_REG_RIRQ) as [y d2] eqn:E2.
  assert (Ht2 : d2 = tick (card s1) \/ exists r, d2 = snd (read_reg (card s1) r)).
  { right. exists LSER_REG_RIRQ. by rewrite E2. }
  pose proof (card_ok_time _ _ _ Ht2 W3) as Hc2. pose proof (time_sent _ _ Ht2) as Hs2.
  pose proof (time_latency _ _ Ht2) as Hl2.
  destruct (active y); cbn [card set_card].
  - destruct (read_reg d2 LSER_REG_CHAR) as [ch d3] eqn:E3.
    assert (Ht3 : d3 = tick d2 \/ exists r, d3 = snd (read_reg d2 r)).
    { right. exists LSER_REG_CHAR. by rewrite E3. }
    pose proof (card_ok_rirq _ _ (card_ok_time _ _ _ Ht3 Hc2)) as Hc3. pose proof (time_sent _ _ Ht3) as Hs3.
    pose proof (time_latency _ _ Ht3) as Hl3.
    destruct (rirq_clear d3) as (Hl4 & Hs4 & _ & _).
    destruct (wready d); cbn [con_input con_start set_card card ls_wbusy cs_wsem]; irq_goals.
  - destruct (wready d); cbn [con_input con_start set_card card ls_wbusy cs_wsem]; irq_goals.
Qed.

(** ** One thread that prints, with the interrupts *)

(** [putch_intr]: the thread sleeps in [P(cs_wsem)] until an interrupt has
    posted it.  The fuel is what the card needs: see [putch_intr_spec]. *)
Fixpoint putch_wait (fuel : nat) (s : softc) (ch : Z) : outcome softc :=
  match P_wsem s with
  | Some s => lser_write s ch
  | None => match fuel with O => Stuck | S fuel => putch_wait fuel (lser_irq s) ch end
  end.
Definition putch_intr (s : softc) (ch : Z) : outcome softc := putch_wait (S (latency (card s))) s ch.

(** The invariant without threads in flight. *)
Definition ready (s : softc) : Prop :=
  cs_wsem s + (if ls_wbusy s then 1 else 0) = 1 /\ 0 <= cs_wsem s /\ card_ok (ls_wbusy s) (card s).

Lemma putch_wait_spec fuel s ch :
  ready s -> (ls_wbusy s = true -> (latency (card s) < fuel)%nat) ->
  exists s', putch_wait fuel s ch = Done s' /\ ready s' /\ sent (card s') = sent (card s) ++ [ch].
Proof.
  revert s. induction fuel as [|fuel IH]; intros s (H1 & H2 & H3) Hl; cbn [putch_wait]; unfold P_wsem.
  all: destruct (ls_wbusy s) eqn:Ew.
  1: specialize (Hl eq_refl); lia.
  1, 3: rewrite bool_decide_eq_true_2 by lia; unfold lser_write; cbn [ls_wbusy]; rewrite ?Ew; eexists;
    destruct H3 as [Hb Hw]; destruct (char_sent _ ch Hb Hw) as (F1 & F2 & F3); split_and!;
    [done|unfold ready, card_ok, waiting; cbn -[LSER_REG_CHAR]; rewrite F2, F3; split_and!; [lia|lia|done]|done].
  rewrite bool_decide_eq_false_2 by lia.
  destruct (lser_irq_spec s) as (w & E1 & E2 & E3 & E4 & E5 & E6); [by rewrite Ew|].
  destruct (IH (lser_irq s)) as (s' & -> & Hr & Hs).
  - split_and!; [rewrite E1, E2, Ew; destruct w; lia|rewrite E1; destruct w; lia|done].
  - rewrite E2. destruct w; [done|]. intros _. specialize (E6 eq_refl Ew). specialize (Hl eq_refl). lia.
  - exists s'. split_and!; [done|done|congruence].
Qed.

(** It ends, and the character is transmitted. *)
Lemma putch_intr_spec s ch :
  ready s -> exists s', putch_intr s ch = Done s' /\ ready s' /\ sent (card s') = sent (card s) ++ [ch].
Proof. intros Hr. apply putch_wait_spec; [done|lia]. Qed.

Lemma putch_polled_spec s ch :
  ready s -> exists s', lser_writepolled s ch = Done s' /\ ready s' /\ sent (card s') = sent (card s) ++ [ch].
Proof.
  intros (H1 & H2 & H3). destruct (writepolled_spec s ch H3) as (d & -> & F1 & F2 & F3).
  eexists. split_and!; [done| |done]. unfold ready, card_ok, waiting. cbn. rewrite F2, F3.
  split_and!; [done|done|by destruct (ls_wbusy s)].
Qed.

Lemma inv_started d0 : busy d0 = false -> inv d0 (started d0).
Proof.
  intros Hb. apply inv_card. unfold started, config_lser. cbn.
  set (d1 := write_reg d0 LSER_REG_RIRQ LSER_IRQ_ENABLE).
  destruct (wirq_clear d1) as (-> & -> & ->). unfold d1. destruct (rirq_clear d0) as (_ & -> & -> & _).
  split_and!; [lia|lia|done|done|]. symmetry. apply app_nil_r.
Qed.

Lemma inv_send d0 cf k ch s :
  inv d0 cf -> inflight cf !! k = Some ch -> lser_write (sc cf) ch = Done s ->
  inv d0 (mkConfig s (delete k (inflight cf)) (log cf ++ [ch])).
Proof.
  rewrite !inv_card. intros (H1 & H2 & H3 & H4) Hk. unfold lser_write.
  pose proof (lookup_lt_Some _ _ _ Hk) as Hl.
  destruct (ls_wbusy (sc cf)) eqn:E; intros; simplify_eq. cbn. destruct H3 as [Hb Hw].
  destruct (char_sent _ ch Hb Hw) as (-> & Hb' & Hw'). rewrite length_delete by eauto.
  split_and!; [lia|lia|by unfold waiting; rewrite Hb', Hw'|by rewrite H4, app_assoc].
Qed.

Lemma inv_polled d0 cf ch s :
  inv d0 cf -> lser_writepolled (sc cf) ch = Done s -> inv d0 (mkConfig s (inflight cf) (log cf ++ [ch])).
Proof.
  rewrite !inv_card. intros (H1 & H2 & H3 & H4) Hs.
  destruct (writepolled_spec (sc cf) ch H3) as (d & E & F1 & F2 & F3). rewrite Hs in E. injection E as ->. cbn [sc set_card card ls_wbusy cs_wsem inflight log].
  split_and!; [done|done| |by rewrite F1, H4, app_assoc].
  unfold card_ok, waiting. rewrite F2, F3. by destruct (ls_wbusy (sc cf)).
Qed.

Lemma inv_irq d0 cf : inv d0 cf -> inv d0 (mkConfig (lser_irq (sc cf)) (inflight cf) (log cf)).
Proof.
  rewrite !inv_card. intros (H1 & H2 & H3 & H4).
  destruct (lser_irq_spec (sc cf) H3) as (w & E1 & E2 & E3 & E4 & E5 & _). cbn [sc inflight log].
  rewrite E1, E5. split_and!; [|destruct w; lia|done|done].
  rewrite E2. destruct w; [rewrite E3 in H1 by done|]; lia.
Qed.

Lemma serial_inv_step d0 cf cf' : step cf cf' -> inv d0 cf -> inv d0 cf'.
Proof.
  destruct 1 as [cf s ch HP|cf k ch s Hk Hs|cf ch s Hs|cf|cf|cf ch s Hg]; intros Hi;
    eauto using inv_send, inv_polled, inv_irq.
  - revert Hi. rewrite !inv_card. unfold P_wsem in HP. case_bool_decide; simplify_eq. cbn [sc card ls_wbusy cs_wsem inflight].
    rewrite length_app. cbn [length log]. intros (? & ? & ? & ?). split_and!; [lia|lia|done|done].
  - revert Hi. rewrite !inv_card. cbn [sc set_card card ls_wbusy cs_wsem inflight log]. intros (? & ? & ? & Hs).
    split_and!; [done|done|eapply card_ok_time; eauto|rewrite <- Hs; apply time_sent; auto].
  - revert Hi. rewrite !inv_card. unfold getch_intr in Hg. case_bool_decide; by simplify_eq/=.
Qed.

Lemma inv_reachable d0 cf : busy d0 = false -> reachable d0 cf -> inv d0 cf.
Proof. intros Hb. apply (rtc_ind_r (inv d0)); [by apply inv_started|eauto using serial_inv_step]. Qed.

(** C25. In every state the console can reach, with characters printed by threads
    and by polling in any interleaving with the interrupts: at most one thread
    holds the right to write, its [lser_write] does not panic and gives its
    character to a card that is idle, a polled write ends, and the card was
    given exactly the characters printed, each once and in the order of the
    calls. *)
Theorem console_output d0 cf :
  busy d0 = false -> reachable d0 cf ->
  sent (card (sc cf)) = sent d0 ++ log cf /\
  (length (inflight cf) <= 1)%nat /\
  (forall k ch, inflight cf !! k = Some ch ->
     busy (card (sc cf)) = false /\ exists s, lser_write (sc cf) ch = Done s) /\
  (forall ch, exists s, lser_writepolled (sc cf) ch = Done s).
Proof.
  intros Hb Hr. apply (inv_reachable d0) in Hr; [|done]. pose proof (iv_sem _ _ Hr).
  apply inv_card in Hr as (H1 & _ & H3 & H4). split_and!; [done|destruct (ls_wbusy (sc cf)); lia| |].
  - intros k ch Hk. apply lookup_lt_Some in Hk. unfold lser_write.
    destruct (ls_wbusy (sc cf)); [lia|]. split; [by destruct H3|eauto].
  - intros ch. destruct (writepolled_spec (sc cf) ch H3) as (d & -> & _). eauto.
Qed.
End driver.
Arguments softc : clear implicits.
Arguments config : clear implicits.

(** ** A card, and a run

    Each transmission is over at the fourth look. *)
Record toy : Type := mkToy { t_sent : list Z; t_left : option nat; t_wirq : bool; t_rirq : bool; t_char : Z }.

Definition toy_look (d : toy) : toy :=
  match t_left d with
  | None => d
  | Some O => mkToy (t_sent d) None true (t_rirq d) (t_char d)
  | Some (S n) => mkToy (t_sent d) (Some n) (t_wirq d) (t_rirq d) (t_char d)
  end.

Definition irq_value (b : bool) : Z := if b then 3 else 1.

#[export] Instance toy_card : SerialCard toy := {|
  read_reg d r :=
    if bool_decide (r = LSER_REG_WIRQ) then let d := toy_look d in (irq_value (t_wirq d), d)
    else if bool_decide (r = LSER_REG_RIRQ) then (irq_value (t_rirq d), d)
    else (t_char d, d);
  write_reg d r v :=
    if bool_decide (r = LSER_REG_WIRQ) then mkToy (t_sent d) (t_left d) false (t_rirq d) (t_char d)
    else if bool_decide (r = LSER_REG_RIRQ) then mkToy (t_sent d) (t_left d) (t_wirq d) false (t_char d)
    else mkToy (t_sent d ++ [v]) (Some 3%nat) (t_wirq d) (t_rirq d) (t_char d);
  tick := toy_look;
  sent := t_sent;
  busy d := bool_decide (is_Some (t_left d));
  wready := t_wirq;
  latency d := default O (t_left d)
|}.

Lemma toy_look_spec d :
  t_sent (toy_look d) = t_sent d /\
  ((bool_decide (is_Some (t_left (toy_look d))) = bool_decide (is_Some (t_left d)) /\ t_wirq (toy_look d) = t_wirq d) \/
   (bool_decide (is_Some (t_left d)) = true /\ bool_decide (is_Some (t_left (toy_look d))) = false /\ t_wirq (toy_look d) = true)).
Proof. unfold toy_look. destruct (t_left d) as [[|n]|] eqn:E; cbn; rewrite ?E; auto. Qed.

Lemma toy_time d d' : d' = tick d \/ (exists r, d' = snd (read_reg d r)) -> d' = toy_look d \/ d' = d.
Proof. intros [->|[r ->]]; [auto|]. cbn. do 2 (case_bool_decide; [cbn; auto|]). auto. Qed.

#[export] Instance toy_laws : SerialLaws toy.
Proof.
  split.
  - done.
  - done.
  - done.
  - intros d. change (Z.testbit (irq_value (t_wirq (toy_look d))) 1 = t_wirq (toy_look d)). by destruct (t_wirq _).
  - intros d d' [->| ->]%toy_time; [apply toy_look_spec|done].
  - intros d d' [->| ->]%toy_time; [apply toy_look_spec|auto].
  - intros d d' [->| ->]%toy_time; [|done]. change (default O (t_left (toy_look d)) <= default O (t_left d))%nat.
    unfold toy_look. destruct (t_left d) as [[|n]|] eqn:E; cbn; rewrite ?E; cbn; lia.
  - intros d. change (bool_decide (is_Some (t_left d)) = true -> default O (t_left d) = O ->
      bool_decide (is_Some (t_left (toy_look d))) = false). unfold toy_look. by destruct (t_left d) as [[|n]|].
  - intros d. change (bool_decide (is_Some (t_left d)) = true -> bool_decide (is_Some (t_left (toy_look d))) = true ->
      (default O (t_left (toy_look d)) < default O (t_left d))%nat). unfold toy_look.
    destruct (t_left d) as [[|n]|]; cbn; [done|lia|done].
Qed.

Definition toy0 : toy := mkToy [] None false false 0.

(** A thread prints [a]; while the card transmits it, [b] is printed by
    polling; the interrupt comes, and the thread passes the semaphore to print
    [c]. *)
Definition ex_state : option (config toy) :=
  let c0 := started toy0 in
  s1 ← P_wsem (sc c0);
  s2 ← match lser_write s1 97 with Done s => Some s | _ => None end;
  s3 ← match lser_writepolled s2 98 with Done s => Some s | _ => None end;
  s5 ← P_wsem (lser_irq s3);
  Some (mkConfig s5 [99] [97; 98]).

Lemma ex_state_reachable : exists cf, ex_state = Some cf /\ reachable toy0 cf.
Proof.
  eexists. split; [vm_compute; reflexivity|]. unfold reachable.
  eapply rtc_l. { eapply (StepP (started toy0) _ 97). vm_compute. reflexivity. }
  eapply rtc_l. { eapply (StepSend _ 0 97); [reflexivity|]. vm_compute. reflexivity. }
  eapply rtc_l. { eapply (StepPolled _ 98). vm_compute. reflexivity. }
  eapply rtc_l. { apply StepIrq. }
  eapply rtc_l. { eapply (StepP _ _ 99). vm_compute. reflexivity. }
  vm_compute. apply rtc_refl.
Qed.

Lemma console_output_witness :
  exists cf : config toy, reachable toy0 cf /\ sent (card (sc cf)) = [97; 98] /\ inflight cf = [99] /\
    exists s, lser_write (sc cf) 99 = Done s.
Proof.
  destruct ex_state_reachable as (cf & E & Hr). exists cf. vm_compute in E. injection E as <-.
  pose proof (console_output toy0 _ eq_refl Hr) as (H1 & _ & H3 & _).
  split_and!; [exact Hr|exact H1|reflexivity|]. exact (proj2 (H3 0%nat 99 eq_refl)).
Defined.

(** ** Input

    [con_input] overwrites the character and posts the semaphore every time:
    of two characters that arrive before a thread reads, the first is lost and
    the second is read twice. *)
Lemma input_twice {D : Type} `{SerialCard D} (s : softc D) a b :
  cs_rsem s = 0 ->
  exists s1 s2, getch_intr (con_input (con_input s a) b) = Some (b, s1) /\ getch_intr s1 = Some (b, s2) /\ getch_intr s2 = None.
Proof.
  intros H0. unfold getch_intr, con_input. cbn. rewrite H0.
  rewrite bool_decide_eq_true_2 by lia. eexists _, _. split; [reflexivity|]. cbn.
  rewrite bool_decide_eq_true_2 by lia. split; [reflexivity|]. cbn. by rewrite bool_decide_eq_false_2 by lia.
Qed.

End Serial.
