(* ===== verification/Console.v ===== *)
(** * The console: [dev/generic/console.c], [lib/kprintf.c], [lib/kgets.c]

    Characters go to the driver below once the console is configured, and to a
    buffer of 1024 characters before that.  The driver is the class [ConDev];
    the serial card of [Serial] is an instance.  On top of [putch] and [getch]
    are [kprintf], the line editor [kgets] and the device [con:].

    The state is what one thread sees: a lock that it holds already would make
    it sleep for ever, and so does [getch] when nothing more is typed; both are
    [Stuck] here.  [keys] holds what [getch] returns, key after key. *)

From S2P Require Import Prelude UserMem Uio Libc Printf Serial.

Module Console.
Import Uio Libc Printf.

(** ** The driver below *)

(** [P(cs->cs_wsem); cs->cs_send(...)], and [cs->cs_sendpolled(...)]. *)
Class ConDev (C : Type) : Type := {
  send_intr : C -> Z -> outcome C;
  cs_sendpolled : C -> Z -> outcome C;
  dev_ok : C -> Prop;
  dev_sent : C -> list Z
}.

Class ConDevLaws (C : Type) `{ConDev C} : Prop := {
  send_intr_ok d ch : dev_ok d ->
    exists d', send_intr d ch = Done d' /\ dev_ok d' /\ dev_sent d' = dev_sent d ++ [ch];
  sendpolled_ok d ch : dev_ok d ->
    exists d', cs_sendpolled d ch = Done d' /\ dev_ok d' /\ dev_sent d' = dev_sent d ++ [ch]
}.

(** [attach_con_to_lser] *)
#[export] Instance con_lser {D} `{Serial.SerialCard D} : ConDev (Serial.softc D) := {|
  send_intr := Serial.putch_intr;
  cs_sendpolled := Serial.lser_writepolled;
  dev_ok := Serial.ready;
  dev_sent s := Serial.sent (Serial.card s)
|}.

#[export] Instance con_lser_laws {D} `{Serial.SerialCard D, !Serial.SerialLaws D} : ConDevLaws (Serial.softc D).
Proof. split; intros d ch; [apply Serial.putch_intr_spec|apply Serial.putch_polled_spec]. Qed.

Definition DELAYBUFSIZE : Z := 1024.

Section console.
Context {C : Type} `{ConDev C}.

(** A lock is NULL, or free or held. *)
Record console : Type := mkCon {
  dev : C;
  the_console : bool;              (* not NULL *)
  delayed_outbuf : list Z;
  delayed_outbuf_pos : Z;
  in_interrupt : bool;
  curspl : Z;
  kprintf_lock : option bool;
  con_userlock_read : option bool;
  con_userlock_write : option bool;
  keys : list Z;
  the_beep : option Z              (* NULL, or how often it beeped *)
}.
Implicit Types c : console.

Definition set_dev c d := mkCon d (the_console c) (delayed_outbuf c) (delayed_outbuf_pos c) (in_interrupt c) (curspl c) (kprintf_lock c) (con_userlock_read c) (con_userlock_write c) (keys c) (the_beep c).
Definition set_the_console c b := mkCon (dev c) b (delayed_outbuf c) (delayed_outbuf_pos c) (in_interrupt c) (curspl c) (kprintf_lock c) (con_userlock_read c) (con_userlock_write c) (keys c) (the_beep c).
Definition set_delayed c b p := mkCon (dev c) (the_console c) b p (in_interrupt c) (curspl c) (kprintf_lock c) (con_userlock_read c) (con_userlock_write c) (keys c) (the_beep c).
Definition set_curspl c s := mkCon (dev c) (the_console c) (delayed_outbuf c) (delayed_outbuf_pos c) (in_interrupt c) s (kprintf_lock c) (con_userlock_read c) (con_userlock_write c) (keys c) (the_beep c).
Definition set_kprintf_lock c l := mkCon (dev c) (the_console c) (delayed_outbuf c) (delayed_outbuf_pos c) (in_interrupt c) (curspl c) l (con_userlock_read c) (con_userlock_write c) (keys c) (the_beep c).
Definition set_userlock (rw : uio_rw_t) c l :=
  match rw with
  | UIO_READ => mkCon (dev c) (the_console c) (delayed_outbuf c) (delayed_outbuf_pos c) (in_interrupt c) (curspl c) (kprintf_lock c) l (con_userlock_write c) (keys c) (the_beep c)
  | UIO_WRITE => mkCon (dev c) (the_console c) (delayed_outbuf c) (delayed_outbuf_pos c) (in_interrupt c) (curspl c) (kprintf_lock c) (con_userlock_read c) l (keys c) (the_beep c)
  end.
Definition set_keys c k := mkCon (dev c) (the_console c) (delayed_outbuf c) (delayed_outbuf_pos c) (in_interrupt c) (curspl c) (kprintf_lock c) (con_userlock_read c) (con_userlock_write c) k (the_beep c).
Definition set_the_beep c b := mkCon (dev c) (the_console c) (delayed_outbuf c) (delayed_outbuf_pos c) (in_interrupt c) (curspl c) (kprintf_lock c) (con_userlock_read c) (con_userlock_write c) (keys c) b.

(** [lock_acquire] and [lock_release] *)
Definition acquire c (l : option bool) : outcome (option bool) :=
  match l with
  | None => Panic
  | Some held =>
      assert! negb (in_interrupt c);;
      if held then Stuck else Done (Some true)
  end.
Definition release c (l : option bool) : outcome (option bool) :=
  match l with
  | None => Panic
  | Some held => assert! held;; Done (Some false)
  end.

(** ** [console.c] *)

Definition putch_delayed c (ch : Z) : outcome console :=
  assert! bool_decide (delayed_outbuf_pos c < DELAYBUFSIZE);;
  b ← setZ (delayed_outbuf c) (delayed_outbuf_pos c) (u8 ch);
  Done (set_delayed c b (delayed_outbuf_pos c + 1)).

Definition putch_polled c (ch : Z) : outcome console :=
  d ← cs_sendpolled (dev c) ch;
  Done (set_dev c d).

Definition putch_intr c (ch : Z) : outcome console :=
  d ← send_intr (dev c) ch;
  Done (set_dev c d).

Definition putch c (ch : Z) : outcome console :=
  if negb (the_console c) then putch_delayed c ch
  else if in_interrupt c || bool_decide (curspl c > 0) then putch_polled c ch
  else putch_intr c ch.

(** [putch] of each character in turn. *)
Fixpoint putchs c (l : list Z) : outcome console :=
  match l with
  | [] => Done c
  | ch :: l => c ← putch c ch; putchs c l
  end.

Fixpoint flush_loop (n : nat) (i : Z) c : outcome console :=
  match n with
  | O => Done c
  | S n =>
      ch ← getZ (delayed_outbuf c) i;
      c ← putch c (schar ch);
      flush_loop n (i + 1) c
  end.

Definition flush_delay_buf c : outcome console :=
  c ← flush_loop (Z.to_nat (delayed_outbuf_pos c)) 0 c;
  Done (set_delayed c (delayed_outbuf c) 0).

Definition getch c : outcome (Z * console) :=
  assert! the_console c;;
  assert! negb (in_interrupt c) && bool_decide (curspl c = 0);;
  match keys c with
  | [] => Stuck
  | ch :: k => Done (ch, set_keys c k)
  end.

Definition con_open (openflags : Z) c : Z := 0.
Definition con_close c : Z := 0.
Definition con_ioctl (op data : Z) c : Z := EINVAL.

(** The [while] of [con_io]; each turn that goes on moves a byte, so the
    residue is fuel enough.  [ch] is a [char]. *)
Fixpoint con_io_loop (fuel : nat) c (u : uio) (x : ctx) : outcome (Z * console * uio * ctx) :=
  if bool_decide (uio_resid u > 0) then
    match fuel with
    | O => Stuck
    | S fuel =>
        match uio_rw u with
        | UIO_READ =>
            '(ch, c) ← getch c;
            let ch := u8 ch in
            let ch := if bool_decide (ch = 13) then 10 else ch in
            '(result, _, u, x) ← uiomove [ch] 0 1 u x;
            if bool_decide (result ≠ 0) then Done (result, c, u, x)
            else if bool_decide (ch = 10) then Done (0, c, u, x)
            else con_io_loop fuel c u x
        | UIO_WRITE =>
            '(result, b, u, x) ← uiomove [0] 0 1 u x;
            if bool_decide (result ≠ 0) then Done (result, c, u, x)
            else
              ch ← getZ b 0;
              c ← (if bool_decide (ch = 10) then putch c 13 else Done c);
              c ← putch c (schar ch);
              con_io_loop fuel c u x
        end
    end
  else Done (0, c, u, x).

Definition userlock (rw : uio_rw_t) c : option bool :=
  match rw with UIO_READ => con_userlock_read c | UIO_WRITE => con_userlock_write c end.

Definition con_io c (u : uio) (x : ctx) : outcome (Z * console * uio * ctx) :=
  let rw := uio_rw u in
  l ← acquire c (userlock rw c);
  let c := set_userlock rw c l in
  '(result, c, u, x) ← con_io_loop (Z.to_nat (uio_resid u)) c u x;
  l ← release c (userlock rw c);
  Done (result, set_userlock rw c l, u, x).

(** [kmalloc] may fail; [vfs_adddev] is the result of registering. *)
Definition attach_console_to_vfs (o : oracle) (vfs_adddev : Z) : Z * oracle :=
  let '(ok, o) := kmalloc_ok o in
  if negb ok then (ENOMEM, o) else (vfs_adddev, o).

(** [sem_create] and [lock_create] allocate the object and its name; the
    object is freed again when there is no memory for the name. *)
Definition create_ok (o : oracle) : bool * oracle :=
  let '(ok, o) := kmalloc_ok o in
  if negb ok then (false, o) else kmalloc_ok o.

(** [live] counts the semaphores and locks made and not destroyed. *)
Definition config_con c (unit : Z) (o : oracle) (vfs_adddev : Z) (live : Z) : outcome (Z * console * oracle * Z) :=
  if bool_decide (unit > 0) then
    assert! the_console c;;
    Done (ENODEV, c, o, live)
  else
    assert! negb (the_console c);;
    let '(rsem, o) := create_ok o in
    if negb rsem then Done (ENOMEM, c, o, live)
    else
      let live := live + 1 in
      let '(wsem, o) := create_ok o in
      if negb wsem then Done (ENOMEM, c, o, live - 1)
      else
        let live := live + 1 in
        let '(rlk, o) := create_ok o in
        if negb rlk then Done (ENOMEM, c, o, live - 1 - 1)
        else
          let live := live + 1 in
          let '(wlk, o) := create_ok o in
          if negb wlk then Done (ENOMEM, c, o, live - 1 - 1 - 1)
          else
            let live := live + 1 in
            let c := set_the_console c true in
            let c := set_userlock UIO_READ c (Some false) in
            let c := set_userlock UIO_WRITE c (Some false) in
            c ← flush_delay_buf c;
            let '(result, o) := attach_console_to_vfs o vfs_adddev in
            Done (result, c, o, live).

(** ** [kprintf.c] *)

(** [data] is an array of [char]. *)
Definition console_send c (data : list Z) : outcome console := putchs c (schar <$> data).

Definition kprintf_bootstrap c (o : oracle) : outcome (console * oracle) :=
  assert! (match kprintf_lock c with None => true | Some _ => false end);;
  let '(ok, o) := create_ok o in
  if negb ok then Panic else Done (set_kprintf_lock c (Some false), o).

(** [kprintf_lock != NULL && !in_interrupt && curspl==0] *)
Definition locking c : bool :=
  match kprintf_lock c with None => false | Some _ => negb (in_interrupt c) && bool_decide (curspl c = 0) end.

Definition kprintf c (fmt : list Z) (args : list arg) : outcome (Z * console) :=
  c ← (if locking c then l ← acquire c (kprintf_lock c); Done (set_kprintf_lock c l) else Done c);
  '(c, chars) ← __vprintf console_send c fmt args;
  c ← (if locking c then l ← release c (kprintf_lock c); Done (set_kprintf_lock c l) else Done c);
  Done (chars, c).

(** ** [beep.c] *)

Definition config_beep c (unit : Z) : outcome (Z * console) :=
  if bool_decide (unit ≠ 0) then Done (ENODEV, c)
  else
    assert! (match the_beep c with None => true | Some _ => false end);;
    Done (0, set_the_beep c (Some 0)).

(** ["beep: Warning: no beep device\n"] *)
Definition no_beep : list Z :=
  [98; 101; 101; 112; 58; 32; 87; 97; 114; 110; 105; 110; 103; 58; 32; 110; 111; 32; 98; 101; 101; 112; 32; 100; 101; 118; 105; 99; 101; 10].

Definition beep c : outcome console :=
  match the_beep c with
  | Some n => Done (set_the_beep c (Some (n + 1)))
  | None => '(_, c) ← kprintf c no_beep []; Done c
  end.

(** ** [kgets.c] *)

Definition backsp c : outcome console :=
  c ← putch c 8;
  c ← putch c 32;
  putch c 8.

(** [^U] *)
Fixpoint erase_line (pos : nat) c : outcome console :=
  match pos with
  | O => Done c
  | S pos => c ← backsp c; erase_line pos c
  end.

(** The loops of [^W]: erase while the last character is, or is not, a space. *)
Fixpoint erase_while (blank : bool) (pos : nat) (buf : list Z) c : outcome (nat * console) :=
  match pos with
  | O => Done (O, c)
  | S pos' =>
      ch ← getZ buf (Z.of_nat pos - 1);
      if eqb blank (bool_decide (ch = 32)) then c ← backsp c; erase_while blank pos' buf c
      else Done (pos, c)
  end.

(** ["^R\n%s"] *)
Definition reprint_fmt : list Z := [94; 82; 10; 37; 115].

(** One key: [inl] goes on with the buffer and position, [inr] ends the line. *)
Definition kgets_key (maxlen : Z) (buf : list Z) (pos : nat) (ch : Z) c : outcome ((list Z * nat + nat) * console) :=
  if bool_decide (ch = 10 \/ ch = 13) then
    c ← putch c 10;
    Done (inr pos, c)
  else if bool_decide (32 <= ch < 127 /\ Z.of_nat pos < u32 (maxlen - 1)) then
    c ← putch c ch;
    buf ← setZ buf (Z.of_nat pos) ch;
    Done (inl (buf, S pos), c)
  else if bool_decide ((ch = 8 \/ ch = 127) /\ (0 < pos)%nat) then
    c ← backsp c;
    Done (inl (buf, (pos - 1)%nat), c)
  else if bool_decide (ch = 3) then
    c ← putch c 94;
    c ← putch c 67;
    c ← putch c 10;
    Done (inr O, c)
  else if bool_decide (ch = 18) then
    buf ← setZ buf (Z.of_nat pos) 0;
    s ← c_str buf 0;
    '(_, c) ← kprintf c reprint_fmt [AStr (Some s)];
    Done (inl (buf, pos), c)
  else if bool_decide (ch = 21) then
    c ← erase_line pos c;
    Done (inl (buf, O), c)
  else if bool_decide (ch = 23) then
    '(pos, c) ← erase_while true pos buf c;
    '(pos, c) ← erase_while false pos buf c;
    Done (inl (buf, pos), c)
  else
    c ← beep c;
    Done (inl (buf, pos), c).

(** Each turn takes a key. *)
Fixpoint kgets_loop (fuel : nat) (maxlen : Z) (buf : list Z) (pos : nat) c : outcome (list Z * nat * console) :=
  match fuel with
  | O => Stuck
  | S fuel =>
      '(ch, c) ← getch c;
      '(r, c) ← kgets_key maxlen buf pos ch c;
      match r with
      | inl (buf, pos) => kgets_loop fuel maxlen buf pos c
      | inr pos => Done (buf, pos, c)
      end
  end.

Definition kgets (buf : list Z) (maxlen : Z) c : outcome (list Z * console) :=
  '(buf, pos, c) ← kgets_loop (S (length (keys c))) maxlen buf O c;
  buf ← setZ buf (Z.of_nat pos) 0;
  Done (buf, c).

(** ** Printing *)

Context `{!ConDevLaws C}.

(** [c'] is [c] after its driver was given [t]. *)
Definition prints c (t : list Z) c' : Prop :=
  exists d, c' = set_dev c d /\ dev_ok d /\ dev_sent d = dev_sent (dev c) ++ t.

Definition con_ok c : Prop := the_console c = true /\ dev_ok (dev c).

Lemma prints_ok c t c' : con_ok c -> prints c t c' -> con_ok c'.
Proof. intros [? ?] (d & -> & ? & ?). done. Qed.

Lemma prints_app c t c' t' c'' : prints c t c' -> prints c' t' c'' -> prints c (t ++ t') c''.
Proof.
  intros (d & -> & ? & Hs) (d' & -> & ? & Hs'). exists d'. split_and!; [done|done|].
  cbn in Hs'. by rewrite Hs', Hs, app_assoc.
Qed.

Lemma putch_ok c ch : con_ok c -> exists c', putch c ch = Done c' /\ prints c [ch] c'.
Proof.
  intros [Hc Hd]. unfold putch. rewrite Hc. cbn [negb]. case_match.
  - destruct (sendpolled_ok (dev c) ch Hd) as (d & E & ? & ?). unfold putch_polled. rewrite E.
    eexists. split; [done|]. by exists d.
  - destruct (send_intr_ok (dev c) ch Hd) as (d & E & ? & ?). unfold putch_intr. rewrite E.
    eexists. split; [done|]. by exists d.
Qed.

Lemma set_dev_same c : set_dev c (dev c) = c.
Proof. by destruct c. Qed.

Lemma prints_nil c : con_ok c -> prints c [] c.
Proof. intros [? ?]. exists (dev c). by rewrite set_dev_same, app_nil_r. Qed.

Lemma putchs_ok c t : con_ok c -> exists c', putchs c t = Done c' /\ prints c t c'.
Proof.
  revert c. induction t as [|ch t IH]; intros c Hc; cbn [putchs]; [by eauto using prints_nil|].
  destruct (putch_ok c ch Hc) as (c1 & -> & H1). cbn [mbind outcome_bind].
  destruct (IH c1 (prints_ok _ _ _ Hc H1)) as (c2 & -> & H2). exists c2. split; [done|].
  apply (prints_app _ [ch] _ _ _ H1 H2).
Qed.

Lemma putchs_app c t t' : putchs c (t ++ t') = c ← putchs c t; putchs c t'.
Proof. revert c. induction t as [|ch t IH]; intros c; cbn; [done|]. destruct (putch c ch); cbn; auto. Qed.

Definition console_out c (t : list Z) : console := match console_send c t with Done c' => c' | _ => c end.

Lemma console_send_out c t : con_ok c -> console_send c t = Done (console_out c t) /\ prints c (schar <$> t) (console_out c t).
Proof. intros Hc. unfold console_out, console_send. destruct (putchs_ok c (schar <$> t) Hc) as (c' & -> & ?). done. Qed.

#[export] Instance console_sink : Sink console_send con_ok console_out.
Proof.
  split.
  - intros c t Hc. by apply console_send_out.
  - intros c t Hc. eapply prints_ok; [done|]. by apply console_send_out.
  - done.
  - intros c t t' Hc. unfold console_out at 1 3. unfold console_send. rewrite fmap_app, putchs_app.
    destruct (console_send_out c t Hc) as [E Hp]. change (putchs c (schar <$> t)) with (console_send c t). rewrite E.
    cbn [mbind outcome_bind].
    destruct (console_send_out (console_out c t) t') as [E' _]; [by eapply prints_ok|].
    unfold console_send in E'. by rewrite E'.
Qed.

(** [kprintf] does not sleep and does not panic. *)
Definition lock_free c : Prop := locking c = true -> kprintf_lock c = Some false.

Lemma set_kprintf_lock_back c d b :
  kprintf_lock c = Some false ->
  set_kprintf_lock (set_dev (set_kprintf_lock c b) d) (Some false) = set_dev c d.
Proof. intros E. destruct c. cbn in *. by subst. Qed.

Lemma kprintf_prints c fmt args items tail t :
  con_ok c -> lock_free c -> Forall (fun ch => ch ≠ 0) fmt -> parse None fmt = (items, tail) -> width tail <= INT_MAX ->
  render items args = Some t ->
  exists c', kprintf c fmt args = Done (s32 (Z.of_nat (length t)), c') /\ prints c (schar <$> t) c'.
Proof.
  intros Hc Hl Hf Hp Hw Ht. unfold kprintf, lock_free in *. destruct (locking c) eqn:El.
  - assert (Hk := Hl eq_refl). unfold locking in El. rewrite Hk in El. unfold acquire. rewrite Hk.
    apply andb_true_iff in El as [Ei%negb_true_iff Es]. rewrite Ei. cbn [kassert mbind outcome_bind negb].
    set (c1 := set_kprintf_lock c (Some true)). assert (Hc1 : con_ok c1) by done.
    rewrite (vprintf_parsed _ _ _ _ c1 fmt args items tail t) by done. cbn [mbind outcome_bind].
    destruct (console_send_out c1 t Hc1) as [_ (d & -> & Hd & Hs)]. subst c1. cbn in Hs.
    assert (El' : locking (set_dev (set_kprintf_lock c (Some true)) d) = true).
    { unfold locking. cbn. by rewrite Ei. }
    rewrite El'. unfold release. cbn [kprintf_lock set_dev set_kprintf_lock kassert mbind outcome_bind].
    eexists. split; [done|]. exists d. split_and!; [|done|done]. by apply set_kprintf_lock_back.
  - cbn [mbind outcome_bind]. rewrite (vprintf_parsed _ _ _ _ c fmt args items tail t) by done. cbn [mbind outcome_bind].
    destruct (console_send_out c t Hc) as [_ (d & -> & Hd & Hs)].
    change (locking (set_dev c d)) with (locking c). rewrite El. eexists. split; [done|]. by exists d.
Qed.

(** ** Before the console is configured *)

Definition early c : Prop :=
  the_console c = false /\ Z.of_nat (length (delayed_outbuf c)) = DELAYBUFSIZE /\
  0 <= delayed_outbuf_pos c <= DELAYBUFSIZE.

(** What [delayed_outbuf] holds. *)
Definition delayed c : list Z := slice (delayed_outbuf c) 0 (delayed_outbuf_pos c).

Lemma putch_early c ch :
  early c ->
  if bool_decide (delayed_outbuf_pos c < DELAYBUFSIZE)
  then exists c', putch c ch = Done c' /\ early c' /\ delayed c' = delayed c ++ [u8 ch] /\ dev c' = dev c /\
       delayed_outbuf_pos c' = delayed_outbuf_pos c + 1
  else putch c ch = Panic.
Proof.
  intros (H1 & H2 & H3). unfold putch, putch_delayed. rewrite H1. cbn [negb]. case_bool_decide as Hp; [|done].
  cbn [kassert mbind outcome_bind]. rewrite setZ_splice by lia. cbn [mbind outcome_bind]. eexists. split; [done|].
  split; [|split_and!; [|done|done]].
  - split_and!; cbn; [done|by rewrite length_splice by (cbn; lia)|lia|lia].
  - unfold delayed, slice, splice. cbn -[Z.to_nat]. rewrite drop_0, take_app, length_take.
    rewrite take_take. replace (Z.to_nat (delayed_outbuf_pos c + 1)) with (S (Z.to_nat (delayed_outbuf_pos c))) by lia.
    rewrite Nat.min_r, Nat.min_l by lia. f_equal. rewrite Nat.sub_succ_l, Nat.sub_diag by lia. done.
Qed.

Lemma putchs_early c t :
  early c ->
  if bool_decide (delayed_outbuf_pos c + Z.of_nat (length t) <= DELAYBUFSIZE)
  then exists c', putchs c t = Done c' /\ early c' /\ delayed c' = delayed c ++ (u8 <$> t) /\ dev c' = dev c
  else putchs c t = Panic.
Proof.
  revert c. induction t as [|ch t IH]; intros c Hc; cbn [putchs length].
  { destruct Hc as (H1 & H2 & H3). rewrite bool_decide_eq_true_2 by lia. exists c. by rewrite app_nil_r. }
  pose proof (putch_early c ch Hc) as Hp. destruct (bool_decide_reflect (delayed_outbuf_pos c < DELAYBUFSIZE)) as [Hl|Hl].
  - destruct Hp as (c1 & -> & Hc1 & Hd & He & Hn). specialize (IH c1 Hc1). rewrite Hn in IH. cbn [mbind outcome_bind].
    replace (delayed_outbuf_pos c + Z.of_nat (S (length t))) with (delayed_outbuf_pos c + 1 + Z.of_nat (length t)) by lia.
    case_bool_decide; [|done]. destruct IH as (c2 & -> & Hc2 & Hd2 & He2). exists c2.
    split_and!; [done|done|rewrite Hd2, Hd, <- app_assoc; done|congruence].
  - rewrite Hp. destruct Hc as (_ & _ & ?). rewrite bool_decide_eq_false_2 by lia. done.
Qed.

Lemma flush_loop_spec n i c :
  con_ok c -> 0 <= i -> i + Z.of_nat n <= Z.of_nat (length (delayed_outbuf c)) ->
  exists c', flush_loop n i c = Done c' /\ prints c (schar <$> slice (delayed_outbuf c) i (Z.of_nat n)) c'.
Proof.
  revert i c. induction n as [|n IH]; intros i c Hc Hi Hn; cbn [flush_loop].
  { exists c. split; [done|]. by apply prints_nil. }
  destruct (getZ_slice (delayed_outbuf c) i) as (ch & -> & Hs); [lia|]. cbn [mbind outcome_bind].
  destruct (putch_ok c (schar ch) Hc) as (c1 & -> & H1). cbn [mbind outcome_bind].
  assert (Hb : delayed_outbuf c1 = delayed_outbuf c) by (by destruct H1 as (d & -> & _)).
  destruct (IH (i + 1) c1) as (c2 & -> & H2); [by eapply prints_ok|lia|rewrite Hb; lia|].
  exists c2. split; [done|]. rewrite Hb in H2. replace (Z.of_nat (S n)) with (1 + Z.of_nat n) by lia.
  rewrite <- slice_app, Hs by lia. apply (prints_app _ [schar ch] _ _ _ H1 H2).
Qed.

(** Without memory, [config_con] changes nothing and leaves no semaphore or
    lock behind; otherwise what was printed before is sent to the driver. *)
Lemma config_con_spec c o r live :
  early c -> dev_ok (dev c) ->
  exists res c' o' live', config_con c 0 o r live = Done (res, c', o', live') /\
    ((res = ENOMEM /\ c' = c /\ live' = live) \/
     (live' = live + 4 /\ con_ok c' /\ delayed_outbuf_pos c' = 0 /\
      dev_sent (dev c') = dev_sent (dev c) ++ (schar <$> delayed c) /\ (res = r \/ res = ENOMEM))).
Proof.
  intros (H1 & H2 & H3) Hd. unfold config_con. rewrite bool_decide_eq_false_2 by lia. rewrite H1. cbn [negb kassert mbind outcome_bind].
  destruct (create_ok o) as [[] o1]; cbn [negb]; [|by eauto 10].
  destruct (create_ok o1) as [[] o2]; cbn [negb]; [|eexists _, _, _, _; split; [done|left; split_and!; [done|done|lia]]].
  destruct (create_ok o2) as [[] o3]; cbn [negb]; [|eexists _, _, _, _; split; [done|left; split_and!; [done|done|lia]]].
  destruct (create_ok o3) as [[] o4]; cbn [negb]; [|eexists _, _, _, _; split; [done|left; split_and!; [done|done|lia]]].
  set (c1 := set_userlock _ _ _). unfold flush_delay_buf.
  destruct (flush_loop_spec (Z.to_nat (delayed_outbuf_pos c1)) 0 c1) as (c2 & -> & Hp); [done|lia|cbn; lia|].
  pose proof (prints_ok _ _ _ (conj eq_refl Hd : con_ok c1) Hp) as Hok. destruct Hp as (d & -> & Hd' & Hs). cbn [mbind outcome_bind].
  unfold attach_console_to_vfs. destruct (kmalloc_ok o4) as [ok o5].
  assert (Hsent : dev_sent d = dev_sent (dev c) ++ (schar <$> delayed c)).
  { rewrite Hs. unfold delayed. cbn. by rewrite Z2Nat.id by lia. }
  destruct ok; cbn [negb]; eexists _, _, _, _; (split; [done|right]);
    (refine (conj _ (conj _ (conj _ (conj _ _)))); [lia|done|done|done|auto]).
Qed.

(** Everything printed before the console is configured, if it is at most 1024
    characters, is kept and sent to the driver in order when it is; one
    character more is a panic.  Running out of memory in [config_con] leaves
    the console as it was. *)
Theorem boot_output c t o r live :
  the_console c = false -> Z.of_nat (length (delayed_outbuf c)) = DELAYBUFSIZE -> delayed_outbuf_pos c = 0 -> dev_ok (dev c) ->
  if bool_decide (Z.of_nat (length t) <= DELAYBUFSIZE) then
    exists c1 res c2 o' live', putchs c t = Done c1 /\ dev_sent (dev c1) = dev_sent (dev c) /\
      config_con c1 0 o r live = Done (res, c2, o', live') /\
      ((res = ENOMEM /\ c2 = c1 /\ live' = live) \/
       (live' = live + 4 /\ the_console c2 = true /\
        dev_sent (dev c2) = dev_sent (dev c) ++ ((fun ch => schar (u8 ch)) <$> t)))
  else putchs c t = Panic.
Proof.
  intros H1 H2 H3 Hd. assert (He : early c) by (split_and!; [done|done|lia|unfold DELAYBUFSIZE; lia]).
  pose proof (putchs_early c t He) as Hp. rewrite H3, Z.add_0_l in Hp.
  destruct (bool_decide_reflect (Z.of_nat (length t) <= DELAYBUFSIZE)) as [Hl|Hl]; [|done].
  destruct Hp as (c1 & Hp1 & He1 & Hs1 & Hd1). assert (Hd1' : dev_ok (dev c1)) by (by rewrite Hd1).
  destruct (config_con_spec c1 o r live He1 Hd1') as (res & c2 & o' & live' & Hc & Hcase).
  exists c1, res, c2, o', live'. split_and!; [done|by rewrite Hd1|done|].
  destruct Hcase as [?|(? & [? _] & _ & Hs & _)]; [by left|right]. split_and!; [done|done|].
  rewrite Hs, Hd1, Hs1. change (delayed c) with (slice (delayed_outbuf c) 0 (delayed_outbuf_pos c)). rewrite H3. unfold slice.
  rewrite take_0. cbn [app]. f_equal. symmetry. apply (list_fmap_compose u8 schar).
Qed.
End console.
Arguments console : clear implicits.

End Console.
