(* ===== verification/KGets.v ===== *)
(** * Reading from the console: [kgets] and the device [con:]

    [edit] is the line editor on plain lists: what one key makes of the line
    typed so far.  [kgets_refines] says that [kgets] computes the line that
    [edit] gives for the keys typed, stays inside its buffer, and that what it
    echoes leaves that line on the screen; [con_write_expands] and
    [con_read_line] are about reading and writing [con:]. *)

From S2P Require Import Prelude UserMem Uio Libc Printf Serial Console.

Module KGets.
Import Uio Libc Printf Console.

(** ** The line editor *)

Fixpoint strip (blank : bool) (rl : list Z) : list Z :=
  match rl with
  | [] => []
  | x :: rl' => if eqb blank (bool_decide (x = 32)) then strip blank rl' else rl
  end.
(** Without the blanks at its end, and then without the word at its end. *)
Definition kill_word (line : list Z) : list Z := reverse (strip false (strip true (reverse line))).

(** [inl]: the line goes on; [inr]: it is finished. *)
Definition edit (room : Z) (line : list Z) (key : Z) : list Z + list Z :=
  if bool_decide (key = 10 \/ key = 13) then inr line
  else if bool_decide (32 <= key < 127 /\ Z.of_nat (length line) < room) then inl (line ++ [key])
  else if bool_decide ((key = 8 \/ key = 127) /\ line ≠ []) then inl (take (length line - 1) line)
  else if bool_decide (key = 3) then inr []
  else if bool_decide (key = 21) then inl []
  else if bool_decide (key = 23) then inl (kill_word line)
  else inl line.

(** The finished line and the keys after it, if it is finished. *)
Fixpoint edit_line (room : Z) (line ks : list Z) : option (list Z * list Z) :=
  match ks with
  | [] => None
  | k :: ks => match edit room line k with inr l => Some (l, ks) | inl l => edit_line room l ks end
  end.

(** ** The screen

    The current line of a terminal: what is left of the cursor, from right to
    left, and what is under it and to the right. *)
Abbreviation term := (list Z * list Z)%type.
Definition term_put (tm : term) (ch : Z) : term :=
  if bool_decide (ch = 10) then ([], [])
  else if bool_decide (ch = 8) then
    match fst tm with [] => tm | x :: l => (l, x :: snd tm) end
  else (ch :: fst tm, tail (snd tm)).
Definition screen (tm : term) (t : list Z) : term := fold_left term_put t tm.

(** The line stands to the left of the cursor, after some prompt, and nothing
    to the right. *)
Definition shows (tm : term) (line : list Z) : Prop :=
  exists prompt, fst tm = reverse line ++ prompt /\ Forall (fun x => x = 32) (snd tm).

Definition printable (ch : Z) : Prop := 32 <= ch < 127.

Lemma screen_app tm t t' : screen tm (t ++ t') = screen (screen tm t) t'.
Proof. apply fold_left_app. Qed.

Lemma term_put_printable tm ch : printable ch -> term_put tm ch = (ch :: fst tm, tail (snd tm)).
Proof. intros [? ?]. unfold term_put. by rewrite !bool_decide_eq_false_2 by lia. Qed.

Lemma shows_put tm line ch : printable ch -> shows tm line -> shows (screen tm [ch]) (line ++ [ch]).
Proof.
  intros Hp (pr & Hl & Hr). cbn. rewrite term_put_printable by done. exists pr. cbn.
  rewrite reverse_app, Hl. split; [done|]. destruct Hr; [constructor|done].
Qed.

Lemma shows_puts tm line t : Forall printable t -> shows tm line -> shows (screen tm t) (line ++ t).
Proof.
  revert tm line. induction t as [|ch t IH]; intros tm line Ht Hs; [by rewrite app_nil_r|].
  apply Forall_cons in Ht as [Hc Ht]. rewrite cons_middle, app_assoc.
  change (screen tm (ch :: t)) with (screen (screen tm [ch]) t). by apply IH; [|apply shows_put].
Qed.

Lemma shows_backsp tm line x : shows tm (line ++ [x]) -> shows (screen tm [8; 32; 8]) line.
Proof.
  intros (pr & Hl & Hr). destruct tm as [l r]. cbn in Hl. rewrite reverse_app in Hl. cbn in Hl. subst.
  exists pr. cbn. split; [done|]. by constructor.
Qed.

Section kgets.
Context {C : Type} `{ConDev C, !ConDevLaws C}.
Implicit Types c : console C.

(** A console a thread may read from. *)
Record ready c : Prop := {
  rd_con : con_ok c;
  rd_intr : in_interrupt c = false;
  rd_spl : curspl c = 0;
  rd_lock : kprintf_lock c ≠ Some true;
  rd_beep : is_Some (the_beep c)
}.

(** [c'] is [c] after [t] was printed. *)
Definition talk c (t : list Z) c' : Prop :=
  ready c' /\ keys c' = keys c /\ dev_sent (dev c') = dev_sent (dev c) ++ t.

Lemma prints_talk c t c' : ready c -> prints c t c' -> talk c t c'.
Proof.
  intros [Hc ? ? ? ?] Hp. pose proof (prints_ok _ _ _ Hc Hp). destruct Hp as (d & -> & ? & ?). split; [by split|done].
Qed.

Lemma talk_app c t c' t' c'' : talk c t c' -> talk c' t' c'' -> talk c (t ++ t') c''.
Proof. intros (? & ? & Hs) (? & ? & Hs'). split_and!; [done|congruence|]. by rewrite Hs', Hs, app_assoc. Qed.

Lemma talk_nil c : ready c -> talk c [] c.
Proof. intros. split_and!; [done|done|by rewrite app_nil_r]. Qed.

Lemma ready_lock_free c : ready c -> lock_free c.
Proof. intros [_ _ _ Hl _] E. unfold locking in E. destruct (kprintf_lock c) as [[]|]; congruence. Qed.

Lemma putch_talk c ch : ready c -> exists c', putch c ch = Done c' /\ talk c [ch] c'.
Proof. intros Hr. destruct (putch_ok c ch (rd_con _ Hr)) as (c' & -> & ?). eauto using prints_talk. Qed.

Lemma backsp_talk c : ready c -> exists c', backsp c = Done c' /\ talk c [8; 32; 8] c'.
Proof.
  intros Hr. unfold backsp. destruct (putch_talk c 8 Hr) as (c1 & -> & H1). cbn [mbind outcome_bind].
  destruct (putch_talk c1 32 (proj1 H1)) as (c2 & -> & H2). cbn [mbind outcome_bind].
  destruct (putch_talk c2 8 (proj1 H2)) as (c3 & -> & H3).
  exists c3. split; [done|]. apply (talk_app _ [8] c1 [32; 8]); [done|]. by apply (talk_app _ [32] c2 [8]).
Qed.

(** [n] characters at the end of the line are rubbed out. *)
Lemma shows_take_S tm buf pos :
  (S pos <= length buf)%nat -> shows tm (take (S pos) buf) -> shows (screen tm [8; 32; 8]) (take pos buf).
Proof.
  intros Hp. destruct (lookup_lt_is_Some_2 buf pos) as [x Hx]; [lia|]. rewrite (take_S_r _ _ x) by done. apply shows_backsp.
Qed.

Lemma erase_line_spec pos buf c tm :
  ready c -> (pos <= length buf)%nat -> shows tm (take pos buf) ->
  exists c' t, erase_line pos c = Done c' /\ talk c t c' /\ shows (screen tm t) [].
Proof.
  revert c tm. induction pos as [|pos IH]; intros c tm Hr Hp Hs; cbn [erase_line].
  { exists c, []. split_and!; [done|by apply talk_nil|done]. }
  destruct (backsp_talk c Hr) as (c1 & -> & H1). cbn [mbind outcome_bind].
  destruct (IH c1 (screen tm [8; 32; 8]) (proj1 H1)) as (c2 & t & -> & H2 & Hs2); [lia|by apply shows_take_S|].
  exists c2, ([8; 32; 8] ++ t). split_and!; [done|by eapply talk_app|by rewrite screen_app].
Qed.

Lemma erase_while_spec blank pos buf c tm :
  ready c -> (pos <= length buf)%nat -> shows tm (take pos buf) ->
  exists pos' c' t, erase_while blank pos buf c = Done (pos', c') /\ (pos' <= pos)%nat /\ talk c t c' /\
    take pos' buf = reverse (strip blank (reverse (take pos buf))) /\ shows (screen tm t) (take pos' buf).
Proof.
  revert c tm. induction pos as [|pos IH]; intros c tm Hr Hp Hs; cbn [erase_while].
  { exists O, c, []. split_and!; [done|lia|by apply talk_nil|done|done]. }
  destruct (lookup_lt_is_Some_2 buf pos) as [x Hx]; [lia|].
  rewrite (getZ_ok buf (Z.of_nat (S pos) - 1) x); [|lia|by rewrite <- Hx; f_equal; lia]. cbn [mbind outcome_bind].
  assert (Et : take (S pos) buf = take pos buf ++ [x]) by (by apply take_S_r).
  assert (Er : reverse (take (S pos) buf) = x :: reverse (take pos buf)) by (by rewrite Et, reverse_app).
  destruct (eqb blank (bool_decide (x = 32))) eqn:Eb.
  - destruct (backsp_talk c Hr) as (c1 & -> & H1). cbn [mbind outcome_bind].
    destruct (IH c1 (screen tm [8; 32; 8]) (proj1 H1)) as (p' & c2 & t & -> & Hp' & H2 & Ht & Hs2); [lia|by apply shows_take_S|].
    exists p', c2, ([8; 32; 8] ++ t). rewrite Er. cbn [strip]. rewrite Eb.
    split_and!; [done|lia|by eapply talk_app|done|by rewrite screen_app].
  - exists (S pos), c, []. rewrite Er. cbn [strip]. rewrite Eb, <- Er, reverse_involutive.
    split_and!; [done|lia|by apply talk_nil|done|done].
Qed.

Lemma beep_talk c : ready c -> exists c', beep c = Done c' /\ talk c [] c'.
Proof.
  intros Hr. destruct (rd_beep _ Hr) as [n Hn]. unfold beep. rewrite Hn. eexists. split; [done|].
  destruct Hr. split; [split; [done..|]|split; [done|by rewrite app_nil_r]]. by eexists.
Qed.

(** ** One key *)

(** The state of the editor between keys. *)
Record editing (maxlen : Z) (buf : list Z) (pos : nat) (line : list Z) : Prop := {
  ed_line : take pos buf = line;
  ed_pos : Z.of_nat pos < maxlen;
  ed_max : maxlen <= Z.of_nat (length buf);
  ed_word : maxlen < 2147483648;
  ed_print : Forall printable line
}.

Lemma editing_length maxlen buf pos line : editing maxlen buf pos line -> length line = pos.
Proof. intros [<- ? ? ? ?]. rewrite length_take. lia. Qed.

Lemma editing_shorter maxlen buf pos line pos' :
  editing maxlen buf pos line -> (pos' <= pos)%nat -> editing maxlen buf pos' (take pos' buf).
Proof.
  intros [<- ? ? ? Hp] Hle. split; [done|lia|done|done|].
  replace pos' with (min pos' pos) by lia. rewrite <- take_take. by apply Forall_take.
Qed.

Lemma field_plain t : field [] [] t = t.
Proof.
  unfold field. change (bool_decide (45 ∈ [])) with false. change (zero_fill []) with false. change (width []) with 0.
  by replace (Z.to_nat _) with O by lia.
Qed.

Lemma reprint c line :
  ready c -> Forall printable line -> Z.of_nat (length line) < 2147483648 -> 
  exists n c', kprintf c reprint_fmt [AStr (Some line)] = Done (n, c') /\ talk c ([94; 82; 10] ++ line) c'.
Proof.
  intros Hr Hp Hl.
  destruct (kprintf_prints c reprint_fmt [AStr (Some line)] [Lit 94; Lit 82; Lit 10; Dir [] 115] []
              ([94; 82; 10] ++ line)) as (c' & E & Hpr).
  - apply rd_con, Hr.
  - by apply ready_lock_free.
  - by repeat constructor.
  - done.
  - done.
  - cbn [render]. unfold directive_text. change (bool_decide (width [] <= INT_MAX)) with true.
    change (bool_decide (115 ∈ integer_types)) with false. change (bool_decide (115 = 115)) with true.
    change (default null_str (Some line)) with line.
    rewrite bool_decide_eq_true_2 by (unfold INT_MAX; lia). rewrite field_plain. cbn. by rewrite app_nil_r.
  - exists (s32 (Z.of_nat (length ([94; 82; 10] ++ line)))), c'. split; [done|]. apply (prints_talk _ _ _ Hr) in Hpr.
    replace (schar <$> [94; 82; 10] ++ line) with ([94; 82; 10] ++ line) in Hpr; [done|].
    rewrite fmap_app. f_equal. clear -Hp. induction Hp as [|x l [? ?] _ IH]; [done|]. cbn. rewrite <- IH. f_equal.
    unfold schar. by rewrite bool_decide_eq_true_2 by lia.
Qed.

(** The character after the line is written, inside the buffer. *)
Lemma editing_set maxlen buf pos line x :
  editing maxlen buf pos line ->
  setZ buf (Z.of_nat pos) x = Done (<[pos := x]> buf) /\ take pos (<[pos := x]> buf) = line /\
  length (<[pos := x]> buf) = length buf /\ drop (Z.to_nat maxlen) (<[pos := x]> buf) = drop (Z.to_nat maxlen) buf.
Proof.
  intros [<- ? ? ? ?]. rewrite setZ_ok by lia. rewrite Nat2Z.id.
  split_and!; [done|by rewrite take_insert_ge|apply length_insert|apply drop_insert_lt; lia].
Qed.

Lemma printable_nonzero line : Forall printable line -> Forall (fun x => x ≠ 0) line.
Proof. intros Hf. apply (Forall_impl _ _ _ Hf). intros x [? ?]. lia. Qed.

Lemma editing_str maxlen buf pos line :
  editing maxlen buf pos line -> str_at (<[pos := 0]> buf) 0 line.
Proof.
  intros He. pose proof (editing_length _ _ _ _ He) as Hl. destruct He as [<- ? ? ? Hp].
  rewrite insert_take_drop by lia. rewrite <- (Z2Nat.id 0) at 1 by lia.
  apply (str_at_app_intro [] (take pos buf) (drop (S pos) buf)). by apply printable_nonzero.
Qed.

(** The result of a key against [edit]. *)
Definition key_result (maxlen : Z) (buf : list Z) (tm' : term) (e : list Z + list Z) (r : list Z * nat + nat) : Prop :=
  match e, r with
  | inl line, inl (buf', pos') =>
      editing maxlen buf' pos' line /\ length buf' = length buf /\
      drop (Z.to_nat maxlen) buf' = drop (Z.to_nat maxlen) buf /\ shows tm' line
  | inr line, inr pos' => editing maxlen buf pos' line /\ tm' = ([], [])
  | _, _ => False
  end.

(** One branch of [kgets_key]: it ends, and agrees with the editor. *)
Definition branch_ok (maxlen : Z) (buf : list Z) c (tm : term) (m : outcome ((list Z * nat + nat) * console C))
    (e : list Z + list Z) : Prop :=
  exists r c' t, m = Done (r, c') /\ talk c t c' /\ key_result maxlen buf (screen tm t) e r.

Section branches.
Context (maxlen : Z) (buf : list Z) (pos : nat) (line : list Z) (c : console C) (tm : term).
Context (Hr : ready c) (He : editing maxlen buf pos line) (Hs : shows tm line).

Lemma insert_branch ch :
  32 <= ch < 127 -> Z.of_nat pos < maxlen - 1 ->
  branch_ok maxlen buf c tm
    (c ← putch c ch; buf ← setZ buf (Z.of_nat pos) ch; Done (inl (buf, S pos), c)) (inl (line ++ [ch])).
Proof using All.
  intros Hc Hm. destruct (putch_talk c ch Hr) as (c1 & -> & H1). cbn [mbind outcome_bind].
  destruct (editing_set _ _ _ _ ch He) as (-> & Ht & Hlen & Hd). cbn [mbind outcome_bind].
  exists (inl (<[pos:=ch]> buf, S pos)), c1, [ch]. split_and!; [done|done|].
  split_and!; [|done|done|by apply shows_put].
  destruct He. split; [|lia|lia|done|apply Forall_app; split; [done|by apply Forall_singleton]].
  rewrite (take_S_r _ _ ch) by (apply list_lookup_insert_eq; lia). by rewrite Ht.
Qed.

Lemma rubout_branch :
  (0 < pos)%nat ->
  branch_ok maxlen buf c tm (c ← backsp c; Done (inl (buf, (pos - 1)%nat), c)) (inl (take (pos - 1) line)).
Proof using All.
  intros Hp. destruct (backsp_talk c Hr) as (c1 & -> & H1). exists (inl (buf, (pos - 1)%nat)), c1, [8; 32; 8].
  split_and!; [done|done|]. pose proof (ed_line _ _ _ _ He) as El. rewrite <- El in Hs |- *.
  rewrite take_take, Nat.min_l by lia.
  split_and!; [apply (editing_shorter _ _ _ _ _ He); lia|done|done|].
  apply shows_take_S; [destruct He; lia|]. by replace (S (pos - 1)) with pos by lia.
Qed.

Lemma break_branch :
  branch_ok maxlen buf c tm (c ← putch c 94; c ← putch c 67; c ← putch c 10; Done (inr O, c)) (inr []).
Proof using All.
  destruct (putch_talk c 94 Hr) as (c1 & -> & H1). cbn [mbind outcome_bind].
  destruct (putch_talk c1 67 (proj1 H1)) as (c2 & -> & H2). cbn [mbind outcome_bind].
  destruct (putch_talk c2 10 (proj1 H2)) as (c3 & -> & H3).
  exists (inr O), c3, [94; 67; 10]. split_and!; [done| |].
  - apply (talk_app _ [94] c1 [67; 10]); [done|]. by apply (talk_app _ [67] c2 [10]).
  - split; [apply (editing_shorter _ _ _ _ O He); lia|done].
Qed.

Lemma reprint_branch :
  branch_ok maxlen buf c tm
    (buf ← setZ buf (Z.of_nat pos) 0; s ← c_str buf 0; '(_, c) ← kprintf c reprint_fmt [AStr (Some s)];
     Done (inl (buf, pos), c)) (inl line).
Proof using All.
  destruct (editing_set _ _ _ _ 0 He) as (-> & Ht & Hlen & Hd). cbn [mbind outcome_bind].
  rewrite (c_str_spec _ _ _ (editing_str _ _ _ _ He)). cbn [mbind outcome_bind].
  pose proof (editing_length _ _ _ _ He) as Hl.
  destruct (reprint c line Hr (ed_print _ _ _ _ He)) as (n & c1 & -> & H1); [destruct He; lia|].
  exists (inl (<[pos:=0]> buf, pos)), c1, ([94; 82; 10] ++ line). split_and!; [done|done|].
  split_and!; [destruct He; split; [done|lia|lia|done|done]|done|done|].
  rewrite screen_app. apply (shows_puts _ [] line); [apply He|]. by exists [].
Qed.

Lemma kill_line_branch : branch_ok maxlen buf c tm (c ← erase_line pos c; Done (inl (buf, O), c)) (inl []).
Proof using All.
  pose proof (ed_line _ _ _ _ He) as El. rewrite <- El in Hs.
  destruct (erase_line_spec pos buf c tm Hr) as (c1 & t & -> & H1 & Hs1); [destruct He; lia|done|].
  exists (inl (buf, O)), c1, t. split_and!; [done|done|].
  split_and!; [apply (editing_shorter _ _ _ _ O He); lia|done|done|done].
Qed.

Lemma kill_word_branch :
  branch_ok maxlen buf c tm
    ('(pos, c) ← erase_while true pos buf c; '(pos, c) ← erase_while false pos buf c; Done (inl (buf, pos), c))
    (inl (kill_word line)).
Proof using All.
  pose proof (ed_line _ _ _ _ He) as El. rewrite <- El in Hs.
  destruct (erase_while_spec true pos buf c tm Hr) as (p1 & c1 & t1 & -> & Hp1 & H1 & Ht1 & Hs1); [destruct He; lia|done|].
  cbn [mbind outcome_bind].
  destruct (erase_while_spec false p1 buf c1 (screen tm t1) (proj1 H1)) as (p2 & c2 & t2 & -> & Hp2 & H2 & Ht2 & Hs2);
    [destruct He; lia|done|].
  exists (inl (buf, p2)), c2, (t1 ++ t2). split_and!; [done|by eapply talk_app|].
  assert (Ek : kill_word line = take p2 buf).
  { unfold kill_word. by rewrite Ht2, Ht1, reverse_involutive, El. }
  cbn. rewrite Ek, screen_app. split_and!; [apply (editing_shorter _ _ _ _ p2 He); lia|done|done|done].
Qed.

(** A key does to the buffer and to the screen what [edit] does to the line. *)
Lemma kgets_key_edits ch :
  branch_ok maxlen buf c tm (kgets_key maxlen buf pos ch c) (edit (maxlen - 1) line ch).
Proof using All.
  pose proof (editing_length _ _ _ _ He) as Hl. unfold kgets_key, edit.
  destruct (bool_decide_reflect (ch = 10 \/ ch = 13)) as [_|_].
  { destruct (putch_talk c 10 Hr) as (c1 & -> & H1). exists (inr pos), c1, [10]. by split_and!. }
  rewrite u32_small by (destruct He; lia). rewrite Hl.
  destruct (bool_decide_reflect (32 <= ch < 127 /\ Z.of_nat pos < maxlen - 1)) as [[Hc Hm]|_]; [by apply insert_branch|].
  rewrite (bool_decide_ext (_ /\ line ≠ []) ((ch = 8 \/ ch = 127) /\ (0 < pos)%nat))
    by (rewrite <- Hl; clear; destruct line; cbn; naive_solver lia).
  destruct (bool_decide_reflect ((ch = 8 \/ ch = 127) /\ (0 < pos)%nat)) as [[_ Hp]|_]; [by apply rubout_branch|].
  destruct (bool_decide_reflect (ch = 3)) as [_|_]; [apply break_branch|].
  destruct (bool_decide_reflect (ch = 18)) as [->|_]; [apply reprint_branch|].
  destruct (bool_decide_reflect (ch = 21)) as [_|_]; [apply kill_line_branch|].
  destruct (bool_decide_reflect (ch = 23)) as [_|_]; [apply kill_word_branch|].
  destruct (beep_talk c Hr) as (c1 & -> & H1). exists (inl (buf, pos)), c1, []. by split_and!.
Qed.
End branches.

(** ** The line *)

Lemma getch_ready c ch k : ready c -> keys c = ch :: k -> getch c = Done (ch, set_keys c k) /\ ready (set_keys c k).
Proof.
  intros [[Hc Hd] Hi Hsp Hl Hb] Hk. unfold getch. rewrite Hc, Hi, Hsp, Hk. by split; [|split].
Qed.

Lemma kgets_loop_edits fuel maxlen buf pos line c tm l rest :
  ready c -> editing maxlen buf pos line -> shows tm line ->
  edit_line (maxlen - 1) line (keys c) = Some (l, rest) -> (length (keys c) < fuel)%nat ->
  exists buf' pos' c' t, kgets_loop fuel maxlen buf pos c = Done (buf', pos', c') /\
    editing maxlen buf' pos' l /\ length buf' = length buf /\
    drop (Z.to_nat maxlen) buf' = drop (Z.to_nat maxlen) buf /\ keys c' = rest /\
    dev_sent (dev c') = dev_sent (dev c) ++ t /\ screen tm t = ([], []).
Proof.
  revert buf pos line c tm. induction fuel as [|fuel IH]; intros buf pos line c tm Hr He Hs Hl Hf; [lia|].
  destruct (keys c) as [|ch k] eqn:Hk; [done|]. cbn [edit_line] in Hl. cbn [kgets_loop].
  destruct (getch_ready c ch k Hr Hk) as [-> Hr1]. cbn [mbind outcome_bind].
  destruct (kgets_key_edits maxlen buf pos line (set_keys c k) tm Hr1 He Hs ch) as (r & c1 & t & -> & (Hr2 & Hk2 & Hs2) & Hres).
  cbn [mbind outcome_bind]. cbn in Hk2, Hs2. destruct (edit (maxlen - 1) line ch) as [line'|line'], r as [[buf1 pos1]|pos1]; try done.
  - destruct Hres as (He1 & Hlen & Hd & Hsh). cbn in Hf.
    destruct (IH buf1 pos1 line' c1 (screen tm t)) as (buf2 & pos2 & c2 & t2 & -> & ? & ? & ? & ? & Hse & ?);
      [done|done|done|by rewrite Hk2|rewrite Hk2; lia|].
    exists buf2, pos2, c2, (t ++ t2). split_and!; [done|done|congruence|congruence|done| |by rewrite screen_app].
    by rewrite Hse, Hs2, app_assoc.
  - injection Hl as <- <-. destruct Hres as [He1 Hsc]. by exists buf, pos1, c1, t.
Qed.

(** C27. When the keys typed finish a line [l] in the editor, [kgets] returns with
    [l] and a NUL at the start of its buffer and nothing written past [maxlen],
    and has taken exactly the keys of the line. *)
Theorem kgets_refines buf maxlen c l rest :
  ready c -> 1 <= maxlen <= Z.of_nat (length buf) -> maxlen < 2147483648 ->
  edit_line (maxlen - 1) [] (keys c) = Some (l, rest) ->
  exists buf' c', kgets buf maxlen c = Done (buf', c') /\ str_at buf' 0 l /\ Z.of_nat (length l) < maxlen /\
    length buf' = length buf /\ drop (Z.to_nat maxlen) buf' = drop (Z.to_nat maxlen) buf /\ keys c' = rest.
Proof.
  intros Hr Hm Hw Hl. unfold kgets.
  destruct (kgets_loop_edits (S (length (keys c))) maxlen buf 0 [] c ([], []) l rest)
    as (buf1 & pos1 & c1 & t & -> & He & Hlen & Hd & Hk & _); [done|split; [done|lia|lia|done|constructor]|by exists []|done|lia|].
  cbn [mbind outcome_bind]. destruct (editing_set _ _ _ _ 0 He) as (-> & Ht & Hlen' & Hd').
  pose proof (editing_length _ _ _ _ He). cbn [mbind outcome_bind]. exists (<[pos1:=0]> buf1), c1.
  split_and!; [done|by eapply editing_str|destruct He; lia|congruence|congruence|done].
Qed.

(** What is echoed keeps the screen in step with the buffer: if the line typed
    so far stands at the cursor, then after a key the line that the editor
    makes of it does, and nothing after it; a key that finishes the line moves
    to a new one. *)
Theorem kgets_echoes maxlen buf pos line c tm ch :
  ready c -> editing maxlen buf pos line -> shows tm line ->
  exists r c' t, kgets_key maxlen buf pos ch c = Done (r, c') /\ dev_sent (dev c') = dev_sent (dev c) ++ t /\
    match edit (maxlen - 1) line ch, r with
    | inl line', inl (buf', pos') => take pos' buf' = line' /\ shows (screen tm t) line'
    | inr line', inr pos' => take pos' buf = line' /\ screen tm t = ([], [])
    | _, _ => False
    end.
Proof.
  intros Hr He Hs. destruct (kgets_key_edits maxlen buf pos line c tm Hr He Hs ch) as (r & c' & t & E & (_ & _ & Ht) & Hk).
  exists r, c', t. split_and!; [done|done|]. destruct (edit _ _ _), r as [[buf' pos']|pos']; try done.
  - destruct Hk as ([] & _ & _ & ?). done.
  - destruct Hk as ([] & ?). done.
Qed.

(** ** The device *)

(** What a terminal is sent for a text: [\n] becomes [\r\n]. *)
Definition expand (t : list Z) : list Z := concat ((fun ch => if bool_decide (ch = 10) then [13; 10] else [schar ch]) <$> t).

Lemma con_write_loop n c u x :
  con_ok c -> kwf u -> uio_rw u = UIO_WRITE -> uio_resid u = Z.of_nat n ->
  exists c', con_io_loop n c u x = Done (0, c', moved u (Z.of_nat n), x) /\
    prints c (expand (slice (uio_kdata u) (iov_base u) (Z.of_nat n))) c'.
Proof.
  revert c u. induction n as [|n IH]; intros c u Hc Hw Hrw Hn; cbn [con_io_loop].
  { rewrite bool_decide_eq_false_2 by lia. exists c. split; [|by apply prints_nil].
    change (Z.of_nat 0) with 0. assert (moved u 0 = u) as -> by (rewrite <- (moved_0 u) at 2; by destruct u). done. }
  rewrite bool_decide_eq_true_2 by lia. rewrite Hrw, uiomove_kernel_write by (done || cbn; lia). cbn [mbind outcome_bind].
  destruct (getZ_slice (uio_kdata u) (iov_base u)) as (ch & _ & Hs); [destruct Hw; lia|]. rewrite Hs.
  rewrite splice_all by done. change (bool_decide (0 ≠ 0)) with false. change (getZ [ch] 0) with (Done ch : outcome Z).
  cbn [mbind outcome_bind].
  assert (Hcr : exists c1, (if bool_decide (ch = 10) then putch c 13 else Done c) = Done c1 /\
                  prints c (if bool_decide (ch = 10) then [13] else []) c1).
  { case_bool_decide; [by apply putch_ok|]. eauto using prints_nil. }
  destruct Hcr as (c1 & -> & H1). cbn [mbind outcome_bind].
  destruct (putch_ok c1 (schar ch)) as (c2 & -> & H2); [by eapply prints_ok|]. cbn [mbind outcome_bind].
  pose proof (prints_app _ _ _ _ _ H1 H2) as H3.
  destruct (IH c2 (moved u 1)) as (c3 & E & H4); [by eapply prints_ok|apply kwf_moved; [done|lia]|done|cbn; lia|].
  exists c3. split; [rewrite E, moved_moved; by replace (1 + Z.of_nat n) with (Z.of_nat (S n)) by lia|].
  replace (Z.of_nat (S n)) with (1 + Z.of_nat n) by lia. rewrite <- slice_app, Hs by (destruct Hw; lia).
  replace (expand ([ch] ++ _)) with (((if bool_decide (ch = 10) then [13] else []) ++ [schar ch]) ++ expand (slice (uio_kdata u) (iov_base u + 1) (Z.of_nat n))).
  - by eapply prints_app.
  - unfold expand. cbn. f_equal. by case_bool_decide; subst.
Qed.

(** Writing to [con:] prints the text, with a carriage return before each
    newline. *)
Theorem con_write_expands c u x :
  con_ok c -> in_interrupt c = false -> con_userlock_write c = Some false -> kwf u -> uio_rw u = UIO_WRITE ->
  exists d, con_io c u x = Done (0, set_dev c d, moved u (uio_resid u), x) /\
    dev_sent d = dev_sent (dev c) ++ expand (slice (uio_kdata u) (iov_base u) (uio_resid u)).
Proof.
  intros Hc Hi Hl Hw Hrw. unfold con_io, acquire. rewrite Hrw. cbn [userlock]. rewrite Hl, Hi. cbn [negb kassert mbind outcome_bind].
  destruct (con_write_loop (Z.to_nat (uio_resid u)) (set_userlock UIO_WRITE c (Some true)) u x) as (c1 & -> & (d & -> & Hd & Hs));
    [done|done|done|destruct Hw; lia|].
  cbn [mbind outcome_bind userlock set_dev con_userlock_write set_userlock release kassert]. exists d.
  rewrite Z2Nat.id in * by (destruct Hw; lia). split; [|done].
  do 4 f_equal. destruct c; cbn in *; by subst.
Qed.

(** What a read of [n] bytes takes from the keys: a line, with the newline,
    or [n] characters of it. *)
Definition newline (k : Z) : Z := if bool_decide (u8 k = 13) then 10 else u8 k.
Fixpoint con_line (n : nat) (ks : list Z) : option (list Z * list Z) :=
  match n, ks with
  | O, _ => Some ([], ks)
  | S n, [] => None
  | S n, k :: ks =>
      if bool_decide (newline k = 10) then Some ([10], ks)
      else '(l, r) ← con_line n ks; Some (newline k :: l, r)
  end.

Lemma con_line_length n ks l r : con_line n ks = Some (l, r) -> (length l <= n)%nat.
Proof.
  revert ks l. induction n as [|n IH]; intros ks l; cbn [con_line]; [by intros [= <- <-]|].
  destruct ks as [|k ks]; [done|]. case_bool_decide; [intros [= <- <-]; cbn; lia|].
  destruct (con_line n ks) as [[l' r']|] eqn:E; [|done]. intros [= <- <-]. apply IH in E. cbn. lia.
Qed.

Lemma con_read_loop n c u x l rest :
  ready c -> kwf u -> iov_len u = uio_resid u -> uio_rw u = UIO_READ -> uio_resid u = Z.of_nat n ->
  con_line n (keys c) = Some (l, rest) -> con_io_loop n c u x = Done (0, set_keys c rest, filled u l, x).
Proof.
  revert c u l. induction n as [|n IH]; intros c u l Hr Hw Hiov Hrw Hn Hl; cbn [con_io_loop].
  { rewrite bool_decide_eq_false_2 by lia. cbn in Hl. injection Hl as <- <-. rewrite filled_nil. by destruct c. }
  rewrite bool_decide_eq_true_2 by lia. rewrite Hrw. cbn [con_line] in Hl. destruct (keys c) as [|k ks] eqn:Hk; [done|].
  destruct (getch_ready c k ks Hr Hk) as [-> Hr1]. cbn [mbind outcome_bind]. fold (newline k).
  rewrite uiomove_kernel_read by (done || cbn; lia). cbn [mbind outcome_bind]. change (bool_decide (0 ≠ 0)) with false.
  change (slice [newline k] 0 1) with [newline k].
  change (moved (set_kdata u (splice (uio_kdata u) (iov_base u) [newline k])) 1) with (filled u [newline k]).
  destruct (bool_decide_reflect (newline k = 10)) as [->|_]; [by injection Hl as <- <-|].
  destruct (con_line n ks) as [[l' r']|] eqn:El; [|done]. injection Hl as <- <-.
  destruct (filled_props u [newline k]) as (W1 & W2 & W3 & W4); [done|cbn; lia|done|done|].
  rewrite (IH (set_keys c ks) (filled u [newline k]) l'); [|done|done|done|done|cbn in W4 |- *; lia|done].
  rewrite filled_app; [done|done|]. apply con_line_length in El. cbn. lia.
Qed.

(** Reading [con:] returns what is typed up to the end of the line, the
    carriage return as a newline, or as much of it as was asked for. *)
Theorem con_read_line c u x l rest :
  ready c -> con_userlock_read c = Some false -> kwf u -> iov_len u = uio_resid u -> uio_rw u = UIO_READ ->
  con_line (Z.to_nat (uio_resid u)) (keys c) = Some (l, rest) ->
  con_io c u x = Done (0, set_keys c rest, filled u l, x).
Proof.
  intros Hr Hlk Hw Hiov Hrw Hl. unfold con_io, acquire. rewrite Hrw. cbn [userlock]. rewrite Hlk, (rd_intr _ Hr).
  cbn [negb kassert mbind outcome_bind].
  rewrite (con_read_loop _ (set_userlock UIO_READ c (Some true)) u x l rest);
    [|destruct Hr; by split|done|done|done|destruct Hw; lia|done].
  cbn [mbind outcome_bind userlock set_keys con_userlock_read set_userlock release kassert].
  do 4 f_equal. destruct c; cbn in *; by subst.
Qed.
End kgets.

End KGets.
