(* ===== verification/Panic.v ===== *)
(** * [panic] and [kprintf] on the serial console: [lib/kprintf.c]

    [panic] turns interrupts off, stops the other threads, prints its message,
    syncs the disks and halts; a panic inside one of these starts it again,
    and the variable [evil] makes it go on with the next.  [panic_stages] says
    that every stage runs exactly once whichever of them panic;
    [panic_message] that the message reaches the serial card even when the
    kprintf lock is held; [kprintf_transmits] is what [kprintf] promises. *)

From S2P Require Import Prelude Uio Libc Printf Serial Console KGets.

Module Panic.
Import Libc Printf Console.

(** ** The stages *)

(** How a call ends: it returns, it calls [panic], or the machine halts. *)
Inductive result (S : Type) : Type :=
  | Returns (s : S)
  | Panics (s : S)
  | Halts (s : S).
Arguments Returns {S}.
Arguments Panics {S}.
Arguments Halts {S}.

Definition state_of {S} (r : result S) : S := match r with Returns s | Panics s | Halts s => s end.

(** The machine is halted, or loops at the end of [panic]. *)
Inductive final (S : Type) : Type :=
  | Halted (s : S)
  | Looping (s : S).
Arguments Halted {S}.
Arguments Looping {S}.

Section panic.
Context {S : Type} (splhigh thread_panic message vfs_sync md_panic : S -> result S).

(** [if (evil==k) { evil = k+1; act(); }] followed by [next]; [again] is
    [panic] called from [act]. *)
Definition stage (k : Z) (act : S -> result S) (again next : Z -> S -> outcome (final S)) (evil : Z) (s : S)
    : outcome (final S) :=
  if bool_decide (evil = k) then
    match act s with
    | Returns s => next (k + 1) s
    | Panics s => again (k + 1) s
    | Halts s => Done (Halted s)
    end
  else next evil s.

(** Nested calls use up the fuel; the stages do. *)
Fixpoint panic (fuel : nat) (evil : Z) (s : S) : outcome (final S) :=
  match fuel with
  | O => Stuck
  | Datatypes.S fuel =>
      let again := panic fuel in
      stage 0 splhigh again
        (stage 1 thread_panic again
           (stage 2 message again
              (stage 3 vfs_sync again
                 (stage 4 md_panic again (fun _ s => Done (Looping s)))))) evil s
  end.

Definition goes_on (r : result S) : Prop := match r with Halts _ => False | _ => True end.

Lemma stage_skip k act again next evil s : evil ≠ k -> stage k act again next evil s = next evil s.
Proof. intros. unfold stage. by rewrite bool_decide_eq_false_2. Qed.

(** A stage that may panic goes on with the same whether it does or not. *)
Lemma stage_take k act again next s X :
  goes_on (act s) -> again (k + 1) (state_of (act s)) = X -> next (k + 1) (state_of (act s)) = X ->
  stage k act again next k s = X.
Proof. intros Hg Ha Hn. unfold stage. rewrite bool_decide_eq_true_2 by done. by destruct (act s). Qed.

Definition ending (s : S) : final S :=
  match md_panic s with Halts s => Halted s | r => Looping (state_of r) end.

Lemma stage_4 f s :
  stage 4 md_panic (panic (Datatypes.S f)) (fun _ s => Done (Looping s)) 4 s = Done (ending s).
Proof.
  unfold stage, ending. rewrite bool_decide_eq_true_2 by done. destruct (md_panic s); [done| |done].
  cbn [panic]. by rewrite !stage_skip by lia.
Qed.

Lemma panic_4 f s : panic (2 + f) 4 s = Done (ending s).
Proof. cbn [panic Nat.add]. rewrite !(stage_skip) by lia. apply (stage_4 f). Qed.

Lemma panic_3 f s : goes_on (vfs_sync s) -> panic (3 + f) 3 s = Done (ending (state_of (vfs_sync s))).
Proof. intros. cbn [panic Nat.add]. rewrite !(stage_skip) by lia. apply stage_take; [done|apply (panic_4 f)|apply (stage_4 (1 + f))]. Qed.

Lemma panic_2 f s :
  let s3 := state_of (message s) in
  goes_on (message s) -> goes_on (vfs_sync s3) -> panic (4 + f) 2 s = Done (ending (state_of (vfs_sync s3))).
Proof.
  intros s3 H2 H3. cbn [panic Nat.add]. rewrite !(stage_skip) by lia. apply stage_take; [done|by apply (panic_3 f)|].
  apply stage_take; [done|apply (panic_4 (1 + f))|apply (stage_4 (2 + f))].
Qed.

(** C28. All that is known of the stages is that none before [md_panic] halts the
    machine; each may call [panic] again.  They all run, once and in order,
    and [panic] ends. *)
Theorem panic_stages s :
  let s1 := state_of (splhigh s) in
  let s2 := state_of (thread_panic s1) in
  let s3 := state_of (message s2) in
  let s4 := state_of (vfs_sync s3) in
  goes_on (splhigh s) -> goes_on (thread_panic s1) -> goes_on (message s2) -> goes_on (vfs_sync s3) ->
  panic 6 0 s = Done (match md_panic s4 with Halts s => Halted s | r => Looping (state_of r) end).
Proof.
  intros s1 s2 s3 s4 H0 H1 H2 H3. change (panic 6 0 s = Done (ending s4)). cbn [panic].
  assert (Hn : forall f, stage 1 thread_panic (panic (4 + f)) (stage 2 message (panic (4 + f)) (stage 3 vfs_sync (panic (4 + f))
                 (stage 4 md_panic (panic (4 + f)) (fun _ s => Done (Looping s))))) 1 s1 = Done (ending s4)).
  { intros f. apply stage_take; [done|by apply (panic_2 f)|]. apply stage_take; [done|by apply (panic_3 (1 + f))|].
    apply stage_take; [done|apply (panic_4 (2 + f))|apply (stage_4 (3 + f))]. }
  apply stage_take; [done| |apply (Hn 1%nat)].
  change (panic 5) with (panic (1 + (4 + 0))). cbn [panic Nat.add]. rewrite stage_skip by lia. apply (Hn 0%nat).
Qed.
End panic.

(** ** Printing on the serial card *)

Section serial.
Context {D : Type} `{Serial.SerialCard D, !Serial.SerialLaws D}.
Implicit Types c : console (Serial.softc D).

Definition transmitted c : list Z := Serial.sent (Serial.card (dev c)).

(** C26. A [kprintf] whose arguments have the types its format names returns the
    number of characters, leaves the lock as it was, and makes the card
    transmit the text of the format and nothing else. *)
Theorem kprintf_transmits c fmt args :
  con_ok c -> lock_free c -> Forall (fun ch => ch ≠ 0) fmt ->
  (let '(items, tail) := parse None fmt in well_typed items args = true /\ width tail <= INT_MAX) ->
  exists t c', render (fst (parse None fmt)) args = Some t /\
    kprintf c fmt args = Done (s32 (Z.of_nat (length t)), c') /\ kprintf_lock c' = kprintf_lock c /\ con_ok c' /\
    transmitted c' = transmitted c ++ (schar <$> t).
Proof.
  intros Hc Hl Hf Hty. destruct (parse None fmt) as [items tail] eqn:Hp. destruct Hty as [Hty Hw].
  destruct (well_typed_renders _ _ Hty) as [t Ht]. exists t.
  destruct (kprintf_prints c fmt args items tail t Hc Hl Hf Hp Hw Ht) as (c' & E & Hpr). exists c'.
  pose proof (prints_ok _ _ _ Hc Hpr). destruct Hpr as (d & -> & _ & Hs). by split_and!.
Qed.

(** ["panic: "] *)
Definition panic_prefix : list Z := [112; 97; 110; 105; 99; 58; 32].

Definition SPL_HIGH : Z := 15.

(** The first and the third stage. *)
Definition panic_splhigh c : console (Serial.softc D) := set_curspl c SPL_HIGH.
Definition panic_print c (fmt : list Z) (args : list arg) : outcome (console (Serial.softc D)) :=
  '(_, c) ← kprintf c panic_prefix [];
  '(c, _) ← __vprintf console_send c fmt args;
  Done c.

(** The message is printed by polling, without the lock: also when another
    thread holds it, and whether or not a character is in transmission. *)
Theorem panic_message c fmt args t :
  con_ok c -> Forall (fun ch => ch ≠ 0) fmt -> width (snd (parse None fmt)) <= INT_MAX ->
  render (fst (parse None fmt)) args = Some t ->
  exists c', panic_print (panic_splhigh c) fmt args = Done c' /\
    transmitted c' = transmitted c ++ panic_prefix ++ (schar <$> t).
Proof.
  intros Hc Hf Hw Ht. unfold panic_print. set (c0 := panic_splhigh c). assert (Hc0 : con_ok c0) by done.
  assert (Hl : lock_free c0).
  { unfold lock_free, locking. cbn. destruct (kprintf_lock c); [|done]. by rewrite andb_false_r. }
  destruct (kprintf_prints c0 panic_prefix [] (Lit <$> panic_prefix) [] panic_prefix Hc0 Hl) as (c1 & -> & H1);
    [by repeat constructor|done|done|done|]. cbn [mbind outcome_bind].
  pose proof (prints_ok _ _ _ Hc0 H1) as Hc1. destruct (parse None fmt) as [items tail] eqn:Hp.
  rewrite (vprintf_parsed _ _ _ _ c1 fmt args items tail t) by done. cbn [mbind outcome_bind].
  eexists. split; [done|]. destruct (console_send_out c1 t Hc1) as [_ (d & -> & _ & Hs)].
  destruct H1 as (d1 & -> & _ & Hs1). unfold transmitted. cbn in Hs, Hs1 |- *. rewrite Hs, Hs1, <- app_assoc. done.
Qed.
End serial.

End Panic.
