(* ===== verification/ConsoleExample.v ===== *)
(** * The console theorems at concrete inputs

    A console on the serial card of [Serial], with a key sequence that uses the
    editing keys of [kgets]. *)

From S2P Require Import Prelude UserMem Uio Libc Printf Serial Console KGets Panic.

Module ConsoleExample.
Import Serial Uio Libc Printf Console KGets Panic.

Definition ex_dev : Serial.softc Serial.toy := Serial.mkSoftc Serial.toy0 false 1 0 0.

Definition ex_con (configured : bool) (lock : bool) (ks : list Z) : console (Serial.softc Serial.toy) :=
  mkCon ex_dev configured (replicate 1024 0) 0 false 0 (Some lock) (Some false) (Some false) ks (Some 0).

Lemma ex_dev_ok : dev_ok ex_dev.
Proof. repeat split; vm_compute; congruence. Qed.

Lemma ex_ready ks : KGets.ready (ex_con true false ks).
Proof. split; [split; [done|apply ex_dev_ok]|done|done|done|by eexists]. Qed.

(** [hx<DEL>i yo<^W>!<RETURN>] gives [hi !]. *)
Definition ex_keys : list Z := [104; 120; 127; 105; 32; 121; 111; 23; 33; 13; 122].

Lemma kgets_refines_witness :
  exists buf' c', kgets (replicate 8 7) 8 (ex_con true false ex_keys) = Done (buf', c') /\ str_at buf' 0 [104; 105; 32; 33] /\
    keys c' = [122].
Proof.
  destruct (kgets_refines (replicate 8 7) 8 (ex_con true false ex_keys) [104; 105; 32; 33] [122])
    as (buf' & c' & H1 & H2 & _ & _ & _ & H3); [apply ex_ready|cbn; lia|lia|vm_compute; reflexivity|].
  exists buf', c'. exact (conj H1 (conj H2 H3)).
Defined.

Lemma kgets_echoes_witness :
  exists r c' t, kgets_key 8 [104; 105; 0; 0; 0; 0; 0; 0] 2 127 (ex_con true false []) = Done (inl r, c') /\
    dev_sent (dev c') = t /\ shows (screen ([105; 104; 62], []) t) [104].
Proof.
  destruct (kgets_echoes 8 [104; 105; 0; 0; 0; 0; 0; 0] 2 [104; 105] (ex_con true false []) ([105; 104; 62], []) 127)
    as (r & c' & t & H1 & H2 & H3);
    [apply ex_ready|split; [done|cbn; lia|cbn; lia|lia|repeat constructor; unfold printable; lia]|by exists [62]|].
  destruct r as [[b p]|p]; [|destruct H3]. exists (b, p), c', t. exact (conj H1 (conj H2 (proj2 H3))).
Defined.

Definition ex_uio (rw : uio_rw_t) : uio := mk_kuio [104; 10; 105; 0] 3 0 rw.
Definition ex_uctx : ctx := mkCtx (UserMem.mkU ∅ false) 0.

Lemma con_write_expands_witness :
  exists d, con_io (ex_con true false []) (ex_uio UIO_WRITE) ex_uctx =
              Done (0, set_dev (ex_con true false []) d, moved (ex_uio UIO_WRITE) 3, ex_uctx) /\
    dev_sent d = [104; 13; 10; 105].
Proof.
  destruct (con_write_expands (ex_con true false []) (ex_uio UIO_WRITE) ex_uctx) as (d & H1 & H2);
    [split; [reflexivity|apply ex_dev_ok]|reflexivity|reflexivity|apply mk_kuio_kwf; cbn; unfold INT_MAX; lia|reflexivity|].
  exists d. split; [exact H1|]. rewrite H2. vm_compute. reflexivity.
Defined.

Lemma con_read_line_witness :
  con_io (ex_con true false [111; 13; 107]) (ex_uio UIO_READ) ex_uctx =
    Done (0, set_keys (ex_con true false [111; 13; 107]) [107], filled (ex_uio UIO_READ) [111; 10], ex_uctx).
Proof.
  apply (con_read_line (ex_con true false [111; 13; 107]) (ex_uio UIO_READ) ex_uctx [111; 10] [107]);
    [apply ex_ready|reflexivity|apply mk_kuio_kwf; cbn; unfold INT_MAX; lia|reflexivity|reflexivity|vm_compute; reflexivity].
Defined.

(** ["hi"] before the console is configured. *)
Lemma boot_output_witness :
  exists c1 res c2 o' live', putchs (ex_con false false []) [104; 105] = Done c1 /\
    config_con c1 0 (replicate 9 true) 0 5 = Done (res, c2, o', live') /\
    (c2 = c1 \/ dev_sent (dev c2) = [104; 105]).
Proof.
  destruct (boot_output (ex_con false false []) [104; 105] (replicate 9 true) 0 5 eq_refl eq_refl eq_refl ex_dev_ok)
    as (c1 & res & c2 & o' & live' & H1 & _ & H2 & [(_ & H3 & _)|(_ & _ & H3)]);
  exists c1, res, c2, o', live'; refine (conj H1 (conj H2 _)); [left|right]; exact H3.
Defined.

(** ["%d\n"] *)
Lemma kprintf_transmits_witness :
  exists t c', kprintf (ex_con true false []) [37; 100; 10] [ANum (-7)] = Done (s32 (Z.of_nat (length t)), c') /\
    transmitted c' = schar <$> t /\ render (fst (parse None [37; 100; 10])) [ANum (-7)] = Some t.
Proof.
  destruct (kprintf_transmits (ex_con true false []) [37; 100; 10] [ANum (-7)])
    as (t & c' & H1 & H2 & _ & _ & H3);
    [split; [done|apply ex_dev_ok]|done|by repeat constructor|vm_compute; split; congruence|].
  exists t, c'. exact (conj H2 (conj H3 H1)).
Defined.

(** The lock is held. *)
Lemma panic_message_witness :
  exists c', panic_print (panic_splhigh (ex_con true true [])) [104; 105; 10] [] = Done c' /\
    transmitted c' = panic_prefix ++ [104; 105; 10].
Proof.
  destruct (panic_message (ex_con true true []) [104; 105; 10] [] [104; 105; 10]) as (c' & H1 & H2);
    [split; [reflexivity|apply ex_dev_ok]|by repeat constructor|vm_compute; congruence|vm_compute; reflexivity|].
  exists c'. split; [exact H1|]. rewrite H2. vm_compute. reflexivity.
Defined.

(** The message panics; each stage leaves its number. *)
Lemma panic_stages_witness :
  panic (fun s => Returns (s ++ [0])) (fun s => Returns (s ++ [1])) (fun s => Panics (s ++ [2]))
        (fun s => Returns (s ++ [3])) (fun s => Halts (s ++ [4])) 6 0 [] = Done (Halted [0; 1; 2; 3; 4]).
Proof.
  exact (panic_stages (fun s => Returns (s ++ [0])) (fun s => Returns (s ++ [1])) (fun s => Panics (s ++ [2]))
        (fun s => Returns (s ++ [3])) (fun s => Halts (s ++ [4])) [] I I I I).
Defined.

End ConsoleExample.
