(* ===== verification/Timer.v ===== *)
(** * Timers and the clock: [dev/lamebus/ltimer.c], [dev/generic/rtclock.c]

    The timer card is a parameter: registers, and the time of day they show.
    [ltimer_gettime] reads the seconds before and after the nanoseconds;
    [gettime_exact] says that what it returns is a time the clock showed during
    the call, although the three registers are read at different times.
    [hardclock] is the clock interrupt of [Thread]. *)

From S2P Require Import Prelude.

Module Timer.

Definition LT_REG_SEC : Z := 0.
Definition LT_REG_NSEC : Z := 4.
Definition LT_REG_ROE : Z := 8.
Definition LT_REG_IRQ : Z := 12.
Definition LT_REG_COUNT : Z := 16.
Definition LT_REG_SPKR : Z := 20.
Definition LT_GRANULARITY : Z := 1000000.
Definition HZ : Z := 100.

Class TimerCard (D : Type) : Type := {
  read_register : D -> Z -> Z * D;
  write_register : D -> Z -> Z -> D;
  now : D -> Z                     (* the time of day, in nanoseconds *)
}.

(** The registers show the time at which they are read. *)
Class TimerLaws (D : Type) `{TimerCard D} : Prop := {
  read_sec d : fst (read_register d LT_REG_SEC) = now (snd (read_register d LT_REG_SEC)) / 1000000000;
  read_nsec d : fst (read_register d LT_REG_NSEC) = now (snd (read_register d LT_REG_NSEC)) mod 1000000000;
  now_forward d r : now d <= now (snd (read_register d r))
}.

Section ltimer.
Context {D : Type} `{TimerCard D}.

Record ltimer_softc : Type := mkLt { card : D; lt_hardclock : bool }.

(** The result, the state and [haveclock]. *)
Definition config_ltimer (lt : ltimer_softc) (haveclock : bool) : Z * ltimer_softc * bool :=
  if negb haveclock then
    let d := write_register (card lt) LT_REG_ROE 1 in
    let d := write_register d LT_REG_COUNT (LT_GRANULARITY / HZ) in
    (0, mkLt d true, true)
  else (0, mkLt (card lt) false, haveclock).

Definition ltimer_irq {S : Type} (hardclock : S -> outcome S) (lt : ltimer_softc) (s : S) : outcome (ltimer_softc * S) :=
  let '(val, d) := read_register (card lt) LT_REG_IRQ in
  let lt := mkLt d (lt_hardclock lt) in
  if bool_decide (val ≠ 0) then
    if lt_hardclock lt then
      s ← hardclock s;
      Done (lt, s)
    else Done (lt, s)
  else Done (lt, s).

Definition ltimer_beep (lt : ltimer_softc) : ltimer_softc :=
  mkLt (write_register (card lt) LT_REG_SPKR 440) (lt_hardclock lt).

(** [*secs] and [*nsecs] *)
Definition ltimer_gettime (lt : ltimer_softc) : Z * Z * ltimer_softc :=
  let '(secs1, d) := read_register (card lt) LT_REG_SEC in
  let '(nsecs, d) := read_register d LT_REG_NSEC in
  let '(secs2, d) := read_register d LT_REG_SEC in
  (if bool_decide (nsecs < 5000000) then secs2 else secs1, nsecs, mkLt d (lt_hardclock lt)).

(** The generic clock and beeper keep the timer they use; [kmalloc] may fail. *)
Definition attach_rtclock_to_ltimer (lt : ltimer_softc) (malloc_ok : bool) : option ltimer_softc :=
  if malloc_ok then Some lt else None.
Definition attach_beep_to_ltimer (lt : ltimer_softc) (malloc_ok : bool) : option ltimer_softc :=
  if malloc_ok then Some lt else None.

(** ** [rtclock.c]

    [the_clock] is NULL or the timer. *)
Definition config_rtclock (the_clock : option ltimer_softc) (rtc : ltimer_softc) (unit : Z)
    : outcome (Z * option ltimer_softc) :=
  if bool_decide (unit ≠ 0) then Done (ENODEV, the_clock)
  else
    assert! (match the_clock with None => true | Some _ => false end);;
    Done (0, Some rtc).

Definition gettime (the_clock : option ltimer_softc) : outcome (Z * Z * option ltimer_softc) :=
  match the_clock with
  | None => Panic
  | Some rtc => let '(secs, nsecs, rtc) := ltimer_gettime rtc in Done (secs, nsecs, Some rtc)
  end.

Context `{!TimerLaws D}.

Lemma div_same_second a b :
  a <= b -> b - a <= b mod 1000000000 -> a / 1000000000 = b / 1000000000.
Proof.
  intros Hab Hm. symmetry. apply (Z.div_unique a 1000000000 (b / 1000000000) (b mod 1000000000 - (b - a))).
  - pose proof (Z.mod_pos_bound b 1000000000 ltac:(lia)). lia.
  - pose proof (Z.div_mod b 1000000000 ltac:(lia)). lia.
Qed.

Lemma div_next a b :
  a <= b -> b - a < 1000000000 - a mod 1000000000 -> b / 1000000000 = a / 1000000000.
Proof.
  intros Hab Hm. symmetry. apply (Z.div_unique b 1000000000 (a / 1000000000) (a mod 1000000000 + (b - a))).
  - pose proof (Z.mod_pos_bound a 1000000000 ltac:(lia)). lia.
  - pose proof (Z.div_mod a 1000000000 ltac:(lia)). lia.
Qed.

(** When the call takes at most 5 milliseconds, [gettime] returns exactly the
    time at which the nanoseconds were read, also when the second changes in
    between. *)
Theorem gettime_exact lt :
  (let '(secs, nsecs, lt') := ltimer_gettime lt in now (card lt') - now (card lt) <= 5000000) ->
  exists t secs nsecs lt', gettime (Some lt) = Done (secs, nsecs, Some lt') /\
    secs * 1000000000 + nsecs = t /\ 0 <= nsecs < 1000000000 /\ now (card lt) <= t <= now (card lt').
Proof.
  unfold gettime, ltimer_gettime.
  destruct (read_register (card lt) LT_REG_SEC) as [secs1 d1] eqn:E1.
  destruct (read_register d1 LT_REG_NSEC) as [nsecs d2] eqn:E2.
  destruct (read_register d2 LT_REG_SEC) as [secs2 d3] eqn:E3. cbn [card].
  pose proof (read_sec (card lt)) as H1. pose proof (now_forward (card lt) LT_REG_SEC) as F1. rewrite E1 in H1, F1.
  pose proof (read_nsec d1) as H2. pose proof (now_forward d1 LT_REG_NSEC) as F2. rewrite E2 in H2, F2.
  pose proof (read_sec d2) as H3. pose proof (now_forward d2 LT_REG_SEC) as F3. rewrite E3 in H3, F3.
  cbn [fst snd] in *. intros Hd.
  pose proof (Z.mod_pos_bound (now d2) 1000000000 ltac:(lia)) as Hb.
  assert (Hs : (if bool_decide (nsecs < 5000000) then secs2 else secs1) = now d2 / 1000000000).
  { case_bool_decide; subst; [apply div_next; lia|apply div_same_second; lia]. }
  rewrite Hs. exists (now d2). do 3 eexists. split; [done|]. cbn [card].
  pose proof (Z.div_mod (now d2) 1000000000 ltac:(lia)). lia.
Qed.
End ltimer.
Arguments ltimer_softc : clear implicits.

(** ** A card *)

(** A read takes a millisecond. *)
#[export] Instance ex_timer : TimerCard Z := {|
  read_register t r :=
    let t := t + 1000000 in
    (if bool_decide (r = LT_REG_SEC) then t / 1000000000
     else if bool_decide (r = LT_REG_NSEC) then t mod 1000000000 else 0, t);
  write_register t r v := t;
  now t := t
|}.

#[export] Instance ex_timer_laws : TimerLaws Z.
Proof. split; intros; [reflexivity|reflexivity|]. cbn. lia. Qed.

(** Without the second look at the seconds, this would be a second early. *)
Lemma gettime_exact_witness :
  exists t secs nsecs lt', gettime (Some (mkLt 6998500000 true)) = Done (secs, nsecs, Some lt') /\
    secs * 1000000000 + nsecs = t /\ 0 <= nsecs < 1000000000 /\ 6998500000 <= t.
Proof.
  destruct (gettime_exact (mkLt (6998500000 : Z) true)) as (t & secs & nsecs & lt' & H1 & H2 & H3 & H4);
    [vm_compute; congruence|].
  exists t, secs, nsecs, lt'. exact (conj H1 (conj H2 (conj H3 (proj1 H4)))).
Defined.

End Timer.
