(* ===== verification/Lamebus.v ===== *)
(** * The bus: [dev/lamebus/lamebus.c]

    The bus has 32 slots; the controller sits in the last.  A driver finds its
    card with [lamebus_probe], marks the slot and attaches its interrupt
    handler; [lamebus_interrupt] calls the handlers of the slots that signal.

    The bus itself is a parameter: the registers of its slots, in a world [W]
    that the handlers change too.  [probe_finds] and [probe_mark_all] are about
    finding cards, [interrupt_serves] about the dispatch. *)

From stdpp Require Import sorting.
From S2P Require Import Prelude.

Module Lamebus.

Definition CFGREG_VID : Z := 0.
Definition CFGREG_DID : Z := 4.
Definition CFGREG_DRL : Z := 8.
Definition CTLREG_RAMSZ : Z := 512.
Definition CTLREG_IRQS : Z := 516.
Definition CTLREG_PWR : Z := 520.
Definition LB_CONTROLLER_SLOT : Z := 31.
Definition LB_NSLOTS : Z := 32.
Definition LB_CONFIG_SIZE : Z := 1024.
Definition LB_VENDOR_CS161 : Z := 1.
Definition LBCS161_TIMER : Z := 2.
Definition LBCS161_DISK : Z := 3.
Definition LBCS161_SERIAL : Z := 4.
Definition LBCS161_SCREEN : Z := 5.
Definition LBCS161_NET : Z := 6.
Definition LBCS161_EMUFS : Z := 7.
Definition LBCS161_TRACE : Z := 8.
Definition LBCS161_RANDOM : Z := 9.

(** A handler is known by its number; NULL is no handler. *)
Record lamebus_softc : Type := mkLb {
  ls_slotsinuse : Z;
  ls_devdata : list ptr;
  ls_irqfuncs : list ptr
}.

Section bus.
Context {W : Type} (lamebus_read_register : W -> Z -> Z -> Z * W) (lamebus_write_register : W -> Z -> Z -> Z -> W).

Definition read_cfg_register (w : W) (slot offset : Z) : Z * W :=
  lamebus_read_register w LB_CONTROLLER_SLOT (u32 (offset + LB_CONFIG_SIZE * slot)).
Definition write_cfg_register (w : W) (slot offset val : Z) : W :=
  lamebus_write_register w LB_CONTROLLER_SLOT (u32 (offset + LB_CONFIG_SIZE * slot)) val.
Definition read_ctl_register (w : W) (offset : Z) : Z * W := read_cfg_register w LB_CONTROLLER_SLOT offset.
Definition write_ctl_register (w : W) (offset val : Z) : W := write_cfg_register w LB_CONTROLLER_SLOT offset val.

(** ** Probing *)

Fixpoint probe_loop (n : nat) (slot : Z) (sc : lamebus_softc) (vendorid deviceid lowver highver : Z) (w : W) : Z * W :=
  match n with
  | O => (-1, w)
  | S n =>
      let continue w := probe_loop n (slot + 1) sc vendorid deviceid lowver highver w in
      if bool_decide (Z.land (ls_slotsinuse sc) (Z.shiftl 1 slot) ≠ 0) then continue w
      else
        let '(val, w) := read_cfg_register w slot CFGREG_VID in
        if bool_decide (val ≠ vendorid) then continue w
        else
          let '(val, w) := read_cfg_register w slot CFGREG_DID in
          if bool_decide (val ≠ deviceid) then continue w
          else
            let '(val, w) := read_cfg_register w slot CFGREG_DRL in
            if bool_decide (val < lowver \/ val > highver) then continue w
            else (slot, w)
  end.

Definition lamebus_probe (sc : lamebus_softc) (vendorid deviceid lowver highver : Z) (w : W) : Z * W :=
  probe_loop (Z.to_nat LB_NSLOTS) 0 sc vendorid deviceid lowver highver w.

(** ** Slots *)

Definition slot_ok (slot : Z) : bool := bool_decide (0 <= slot < LB_NSLOTS).

Definition lamebus_mark (sc : lamebus_softc) (slot : Z) : outcome lamebus_softc :=
  let mask := u32 (Z.shiftl 1 slot) in
  assert! slot_ok slot;;
  if bool_decide (Z.land (ls_slotsinuse sc) mask ≠ 0) then Panic
  else Done (mkLb (Z.lor (ls_slotsinuse sc) mask) (ls_devdata sc) (ls_irqfuncs sc)).

Definition lamebus_unmark (sc : lamebus_softc) (slot : Z) : outcome lamebus_softc :=
  let mask := u32 (Z.shiftl 1 slot) in
  assert! slot_ok slot;;
  if bool_decide (Z.land (ls_slotsinuse sc) mask = 0) then Panic
  else Done (mkLb (Z.land (ls_slotsinuse sc) (u32 (Z.lnot mask))) (ls_devdata sc) (ls_irqfuncs sc)).

Definition lamebus_attach_interrupt (sc : lamebus_softc) (slot devdata irqfunc : Z) : outcome lamebus_softc :=
  let mask := u32 (Z.shiftl 1 slot) in
  assert! slot_ok slot;;
  if bool_decide (Z.land (ls_slotsinuse sc) mask = 0) then Panic
  else
    d ← getZ (ls_devdata sc) slot;
    assert! bool_decide (d = NULL);;
    f ← getZ (ls_irqfuncs sc) slot;
    assert! bool_decide (f = NULL);;
    ds ← setZ (ls_devdata sc) slot devdata;
    fs ← setZ (ls_irqfuncs sc) slot irqfunc;
    Done (mkLb (ls_slotsinuse sc) ds fs).

Definition lamebus_detach_interrupt (sc : lamebus_softc) (slot : Z) : outcome lamebus_softc :=
  let mask := u32 (Z.shiftl 1 slot) in
  assert! slot_ok slot;;
  if bool_decide (Z.land (ls_slotsinuse sc) mask = 0) then Panic
  else
    f ← getZ (ls_irqfuncs sc) slot;
    assert! bool_decide (f ≠ NULL);;
    ds ← setZ (ls_devdata sc) slot NULL;
    fs ← setZ (ls_irqfuncs sc) slot NULL;
    Done (mkLb (ls_slotsinuse sc) ds fs).

(** ** Interrupts

    [call f d] runs the handler [f] on [d].  [duds] is the static counter. *)
Context (call : ptr -> ptr -> W -> outcome W).

(** [mask] is a [u_int32_t] shifted once a turn. *)
Fixpoint irq_loop (n : nat) (slot mask irqs : Z) (sc : lamebus_softc) (duds duds_this_time : Z) (w : W)
    : outcome (Z * Z * W) :=
  match n with
  | O => Done (duds, duds_this_time, w)
  | S n =>
      let next irqs duds dtt w := irq_loop n (slot + 1) (u32 (Z.shiftl mask 1)) irqs sc duds dtt w in
      if bool_decide (Z.land irqs mask = 0) then next irqs duds duds_this_time w
      else if bool_decide (Z.land (ls_slotsinuse sc) mask = 0) then
        duds ← int_op (duds + 1);
        duds_this_time ← int_op (duds_this_time + 1);
        next irqs duds duds_this_time w
      else
        f ← getZ (ls_irqfuncs sc) slot;
        if bool_decide (f = NULL) then
          duds ← int_op (duds + 1);
          duds_this_time ← int_op (duds_this_time + 1);
          next irqs duds duds_this_time w
        else
          d ← getZ (ls_devdata sc) slot;
          w ← call f d w;
          let '(irqs, w) := read_ctl_register w CTLREG_IRQS in
          next irqs duds duds_this_time w
  end.

(** A stray interrupt is counted, and nothing else. *)
Definition lamebus_interrupt (curspl : Z) (sc : lamebus_softc) (duds : Z) (w : W) : outcome (Z * W) :=
  assert! bool_decide (curspl > 0);;
  let '(irqs, w) := read_ctl_register w CTLREG_IRQS in
  if bool_decide (irqs = 0) then duds ← int_op (duds + 1); Done (duds, w)
  else
    '(duds, duds_this_time, w) ← irq_loop (Z.to_nat LB_NSLOTS) 0 1 irqs sc duds 0 w;
    let duds := if bool_decide (duds_this_time = 0 /\ duds > 0) then 0 else duds in
    if bool_decide (duds > 10000) then Panic else Done (duds, w).

(** ** Start and end *)

Definition lamebus_poweroff (w : W) : W := write_ctl_register w CTLREG_PWR 0.
Definition lamebus_ramsize (w : W) : Z * W := read_ctl_register w CTLREG_RAMSZ.

Definition lamebus_init (o : oracle) : outcome (lamebus_softc * oracle) :=
  let '(ok, o) := kmalloc_ok o in
  if negb ok then Panic
  else Done (mkLb (u32 (Z.shiftl 1 LB_CONTROLLER_SLOT)) (replicate (Z.to_nat LB_NSLOTS) NULL)
                  (replicate (Z.to_nat LB_NSLOTS) NULL), o).

(** ** Attaching: [dev/lamebus/*_att.c]

    [mem] lists what the calls of [kmalloc] to come return. *)
Definition attach (deviceid lowver highver : Z) (irqfunc : option ptr) (sc : lamebus_softc) (mem : list ptr) (w : W)
    : outcome (option (ptr * Z) * lamebus_softc * list ptr * W) :=
  let '(slot, w) := lamebus_probe sc LB_VENDOR_CS161 deviceid lowver highver w in
  if bool_decide (slot < 0) then Done (None, sc, mem, w)
  else
    match mem with
    | [] => Done (None, sc, [], w)
    | lt :: mem =>
        if bool_decide (lt = NULL) then Done (None, sc, mem, w)
        else
          sc ← lamebus_mark sc slot;
          sc ← (match irqfunc with Some f => lamebus_attach_interrupt sc slot lt f | None => Done sc end);
          Done (Some (lt, slot), sc, mem, w)
    end.

Definition attach_ltimer_to_lamebus (ltimer_irq : ptr) := attach LBCS161_TIMER 1 1 (Some ltimer_irq).
Definition attach_lhd_to_lamebus (lhd_irq : ptr) := attach LBCS161_DISK 2 2 (Some lhd_irq).
Definition attach_lser_to_lamebus (lser_irq : ptr) := attach LBCS161_SERIAL 1 1 (Some lser_irq).
Definition attach_lscreen_to_lamebus (lscreen_irq : ptr) := attach LBCS161_SCREEN 1 1 (Some lscreen_irq).
Definition attach_emu_to_lamebus (emu_irq : ptr) := attach LBCS161_EMUFS 1 1 (Some emu_irq).
Definition attach_ltrace_to_lamebus := attach LBCS161_TRACE 1 1 None.
Definition attach_lrandom_to_lamebus := attach LBCS161_RANDOM 1 1 None.
(** There is no driver; the result is NULL whether or not a card is found. *)
Definition attach_lnet_to_lamebus (sc : lamebus_softc) (w : W) : ptr * W :=
  let '(_, w) := lamebus_probe sc LB_VENDOR_CS161 LBCS161_NET 1 1 w in
  (NULL, w).
End bus.

(** ** [dev/lamebus/ltrace.c]

    [the_trace] is NULL or the card, whose register is written. *)
Section ltrace.
Context {D : Type} (write_register : D -> Z -> Z -> D).

Definition ltrace_write (reg : Z) (the_trace : option D) (code : Z) : option D :=
  (fun d => write_register d reg code) <$> the_trace.
Definition ltrace_on := ltrace_write 0.
Definition ltrace_off := ltrace_write 4.
Definition ltrace_debug := ltrace_write 8.
Definition ltrace_dump := ltrace_write 12.
Definition config_ltrace (sc : D) (the_trace : option D) : Z * option D := (0, Some sc).
End ltrace.

(** ** Finding cards *)

(** What the configuration registers show. *)
Record cards : Type := mkCards { vid : Z -> Z; did : Z -> Z; drl : Z -> Z }.

Definition registers_show {W} (rd : W -> Z -> Z -> Z * W) (cs : cards) : Prop :=
  forall w slot, 0 <= slot < LB_NSLOTS ->
    read_cfg_register rd w slot CFGREG_VID = (vid cs slot, w) /\
    read_cfg_register rd w slot CFGREG_DID = (did cs slot, w) /\
    read_cfg_register rd w slot CFGREG_DRL = (drl cs slot, w).

Definition in_use (sc : lamebus_softc) (slot : Z) : bool := Z.testbit (ls_slotsinuse sc) slot.

Definition suits (cs : cards) (vendorid deviceid lowver highver slot : Z) : Prop :=
  vid cs slot = vendorid /\ did cs slot = deviceid /\ lowver <= drl cs slot <= highver.
#[export] Instance suits_dec cs v d lo hi slot : Decision (suits cs v d lo hi slot).
Proof. apply _. Defined.

(** The free slots with a suitable card, in order. *)
Definition candidates (sc : lamebus_softc) (cs : cards) (v d lo hi : Z) : list Z :=
  filter (fun slot => in_use sc slot = false /\ suits cs v d lo hi slot) (seqZ 0 LB_NSLOTS).

Lemma shiftl_mask slot : 0 <= slot -> Z.shiftl 1 slot = 2 ^ slot.
Proof. intros. by rewrite Z.shiftl_mul_pow2, Z.mul_1_l by lia. Qed.

Lemma mask_small slot : 0 <= slot < LB_NSLOTS -> u32 (Z.shiftl 1 slot) = 2 ^ slot.
Proof.
  unfold LB_NSLOTS. intros. rewrite shiftl_mask by lia. apply u32_small.
  split; [apply Z.pow_nonneg; lia|]. change 4294967296 with (2 ^ 32). apply Z.pow_lt_mono_r; lia.
Qed.

Lemma in_use_mask sc slot : 0 <= slot -> Z.land (ls_slotsinuse sc) (2 ^ slot) = 0 <-> in_use sc slot = false.
Proof. apply land_pow2_0. Qed.

Section finding.
Context {W : Type} (rd : W -> Z -> Z -> Z * W) (cs : cards) (Hrd : registers_show rd cs).

Lemma probe_loop_spec n slot sc v d lo hi w :
  0 <= slot -> slot + Z.of_nat n <= LB_NSLOTS ->
  probe_loop rd n slot sc v d lo hi w =
    (default (-1) (head (filter (fun s => in_use sc s = false /\ suits cs v d lo hi s) (seqZ slot (Z.of_nat n)))), w).
Proof using Hrd.
  revert slot. induction n as [|n IH]; intros slot H0 Hn; [done|]. cbn [probe_loop].
  rewrite seqZ_cons by lia. replace (Z.pred (Z.of_nat (S n))) with (Z.of_nat n) by lia. rewrite filter_cons.
  replace (Z.succ slot) with (slot + 1) by lia.
  rewrite shiftl_mask by done. pose proof (in_use_mask sc slot H0) as Hu.
  destruct (Hrd w slot) as (-> & -> & ->); [lia|]. unfold suits at 1.
  destruct (in_use sc slot) eqn:Eu.
  { rewrite bool_decide_eq_true_2 by (intros ?%Hu; done). rewrite decide_False by naive_solver. apply IH; lia. }
  rewrite (bool_decide_eq_false_2 (Z.land _ _ ≠ 0)) by tauto.
  case_decide as Hs.
  - destruct Hs as (_ & Hv & Hd & Hr). by rewrite !bool_decide_eq_false_2 by lia.
  - repeat case_bool_decide; try (apply IH; lia). destruct Hs. repeat split; lia.
Qed.

Lemma lamebus_probe_spec sc v d lo hi w :
  lamebus_probe rd sc v d lo hi w = (default (-1) (head (candidates sc cs v d lo hi)), w).
Proof using Hrd. apply probe_loop_spec; unfold LB_NSLOTS; lia. Qed.
End finding.

(** ** Slots *)

Definition handler (sc : lamebus_softc) (slot : Z) : ptr := default NULL (ls_irqfuncs sc !! Z.to_nat slot).
Definition device (sc : lamebus_softc) (slot : Z) : ptr := default NULL (ls_devdata sc !! Z.to_nat slot).

(** Handlers belong to slots in use. *)
Record bus_wf (sc : lamebus_softc) : Prop := {
  bw_devdata : length (ls_devdata sc) = Z.to_nat LB_NSLOTS;
  bw_irqfuncs : length (ls_irqfuncs sc) = Z.to_nat LB_NSLOTS;
  bw_free slot : 0 <= slot < LB_NSLOTS -> in_use sc slot = false -> handler sc slot = NULL /\ device sc slot = NULL
}.

Lemma getZ_default (l : list ptr) slot :
  length l = Z.to_nat LB_NSLOTS -> 0 <= slot < LB_NSLOTS -> getZ l slot = Done (default NULL (l !! Z.to_nat slot)).
Proof.
  intros Hl Hs. destruct (lookup_lt_is_Some_2 l (Z.to_nat slot)) as [x Hx]; [unfold LB_NSLOTS in *; lia|].
  rewrite (getZ_ok l slot x); [by rewrite Hx|lia|done].
Qed.

Lemma testbit_mark x slot s : 0 <= slot -> 0 <= s ->
  Z.testbit (Z.lor x (2 ^ slot)) s = Z.testbit x s || bool_decide (s = slot).
Proof.
  intros. rewrite Z.lor_spec, Z.pow2_bits_eqb by lia. f_equal.
  case_bool_decide; [subst; apply Z.eqb_refl|apply Z.eqb_neq; lia].
Qed.

(** Marking a free slot and attaching a handler to it changes that slot only. *)
Definition taken (sc : lamebus_softc) (slot : Z) (lt : ptr) (f : option ptr) : lamebus_softc :=
  mkLb (Z.lor (ls_slotsinuse sc) (2 ^ slot))
       (match f with Some _ => <[Z.to_nat slot := lt]> (ls_devdata sc) | None => ls_devdata sc end)
       (match f with Some f => <[Z.to_nat slot := f]> (ls_irqfuncs sc) | None => ls_irqfuncs sc end).

Lemma mark_attach_spec sc slot lt f :
  bus_wf sc -> 0 <= slot < LB_NSLOTS -> in_use sc slot = false ->
  (sc ← lamebus_mark sc slot;
   match f with Some f => lamebus_attach_interrupt sc slot lt f | None => Done sc end) = Done (taken sc slot lt f).
Proof.
  intros Hw Hs Hu. unfold lamebus_mark, slot_ok. rewrite mask_small by done.
  rewrite (bool_decide_eq_true_2 (0 <= slot < LB_NSLOTS)) by done. cbn [kassert mbind outcome_bind].
  rewrite bool_decide_eq_false_2 by (rewrite in_use_mask by lia; auto). cbn [mbind outcome_bind].
  destruct f as [f|]; [|done]. unfold lamebus_attach_interrupt, slot_ok. rewrite mask_small by done.
  rewrite (bool_decide_eq_true_2 (0 <= slot < LB_NSLOTS)) by done. cbn [kassert mbind outcome_bind ls_slotsinuse ls_devdata ls_irqfuncs].
  rewrite bool_decide_eq_false_2
    by (rewrite land_pow2_0, testbit_mark, (bool_decide_eq_true_2 (slot = slot)), orb_true_r by (lia || done); done).
  destruct (bw_free _ Hw slot Hs Hu) as [Hh Hd]. unfold handler, device in *. destruct Hw as [L1 L2 _].
  rewrite !getZ_default, Hd, Hh by done. cbn [mbind outcome_bind kassert].
  rewrite (bool_decide_eq_true_2 (NULL = NULL)) by done. cbn [mbind outcome_bind kassert].
  unfold LB_NSLOTS in *. rewrite !setZ_ok by lia. done.
Qed.

Lemma in_use_taken sc slot lt f s :
  0 <= slot -> 0 <= s -> in_use (taken sc slot lt f) s = in_use sc s || bool_decide (s = slot).
Proof. apply testbit_mark. Qed.

Lemma handler_taken sc slot lt f s :
  bus_wf sc -> 0 <= slot < LB_NSLOTS -> 0 <= s ->
  handler (taken sc slot lt f) s =
    match f with Some f => if bool_decide (s = slot) then f else handler sc s | None => handler sc s end.
Proof.
  intros [L1 L2 _] Hs H0. unfold LB_NSLOTS in *. unfold handler, taken. cbn. destruct f as [f|]; [|done].
  case_bool_decide; [subst; by rewrite list_lookup_insert_eq by lia|by rewrite list_lookup_insert_ne by lia].
Qed.

Lemma bus_wf_taken sc slot lt f :
  bus_wf sc -> 0 <= slot < LB_NSLOTS -> bus_wf (taken sc slot lt f).
Proof.
  intros Hw Hs. pose proof Hw as [L1 L2 Hf]. split.
  - destruct f; cbn; [by rewrite length_insert|done].
  - destruct f; cbn; [by rewrite length_insert|done].
  - intros s Hs' Hu. rewrite in_use_taken in Hu by lia. apply orb_false_iff in Hu as [Hu Hne%bool_decide_eq_false].
    destruct (Hf s Hs' Hu) as [H1 H2]. unfold handler, device, taken in *. cbn.
    destruct f; [|done]. by rewrite !list_lookup_insert_ne by lia.
Qed.

Lemma filter_ext_in {A} (P Q : A -> Prop) `{!forall x, Decision (P x), !forall x, Decision (Q x)} (l : list A) :
  (forall x, x ∈ l -> P x <-> Q x) -> filter P l = filter Q l.
Proof.
  induction l as [|x l IH]; intros Hx; [done|]. rewrite !filter_cons, IH by (intros; apply Hx; by constructor).
  apply decide_ext, Hx. constructor.
Qed.

Section attaching.
Context {W : Type} (rd : W -> Z -> Z -> Z * W) (cs : cards) (Hrd : registers_show rd cs).
Context (deviceid lowver highver : Z) (irqfunc : option ptr).

Abbreviation wanted sc := (candidates sc cs LB_VENDOR_CS161 deviceid lowver highver).

Lemma wanted_head sc slot rest :
  wanted sc = slot :: rest -> 0 <= slot < LB_NSLOTS /\ in_use sc slot = false.
Proof.
  intros E. assert (Hin : slot ∈ wanted sc) by (rewrite E; constructor).
  apply list_elem_of_filter in Hin as [[Hu _] Hin]. apply elem_of_seqZ in Hin. split; [lia|done].
Qed.

Lemma wanted_taken sc slot rest lt :
  wanted sc = slot :: rest -> wanted (taken sc slot lt irqfunc) = rest.
Proof.
  intros E. destruct (wanted_head sc slot rest E) as [Hs Hu].
  assert (Hnd : NoDup (wanted sc)) by (apply NoDup_filter, NoDup_seqZ). rewrite E in Hnd. apply NoDup_cons in Hnd as [Hni _].
  transitivity (filter (fun s => s ≠ slot) (wanted sc)).
  - unfold candidates. rewrite list_filter_filter. apply filter_ext_in. intros s Hi.
    apply elem_of_seqZ in Hi. rewrite in_use_taken, orb_false_iff, bool_decide_eq_false by lia. tauto.
  - rewrite E. rewrite filter_cons_False by tauto. clear E. induction rest as [|x rest IH]; [done|].
    apply not_elem_of_cons in Hni as [Hx Hni]. rewrite filter_cons_True by done. by rewrite IH.
Qed.

Lemma attach_spec sc mem w lt :
  bus_wf sc -> lt ≠ NULL ->
  attach rd deviceid lowver highver irqfunc sc (lt :: mem) w =
    match wanted sc with
    | [] => Done (None, sc, lt :: mem, w)
    | slot :: _ => Done (Some (lt, slot), taken sc slot lt irqfunc, mem, w)
    end.
Proof using Hrd.
  intros Hw Hlt. unfold attach. rewrite (lamebus_probe_spec rd cs Hrd). destruct (wanted sc) as [|slot rest] eqn:E; [done|].
  destruct (wanted_head sc slot rest E) as [Hs Hu]. change (default (-1) (head (slot :: rest))) with slot.
  rewrite (bool_decide_eq_false_2 (slot < 0)) by lia. rewrite bool_decide_eq_false_2 by done.
  pose proof (mark_attach_spec sc slot lt irqfunc Hw Hs Hu) as Hm.
  destruct (lamebus_mark sc slot) as [sc1| |]; cbn [mbind outcome_bind] in Hm |- *; [|done|done].
  destruct irqfunc as [f|]; cbn [mbind outcome_bind] in Hm |- *; [by rewrite Hm|by injection Hm as ->].
Qed.

(** Attaching until there is no card left. *)
Fixpoint attach_all (fuel : nat) (sc : lamebus_softc) (mem : list ptr) (w : W)
    : outcome (list (ptr * Z) * lamebus_softc * list ptr * W) :=
  match fuel with
  | O => Stuck
  | S fuel =>
      '(r, sc, mem, w) ← attach rd deviceid lowver highver irqfunc sc mem w;
      match r with
      | None => Done ([], sc, mem, w)
      | Some x => '(l, sc, mem, w) ← attach_all fuel sc mem w; Done (x :: l, sc, mem, w)
      end
  end.

Lemma attach_all_spec n fuel sc mem w :
  bus_wf sc -> length (wanted sc) = n -> (n < fuel)%nat -> (n < length mem)%nat -> Forall (fun p => p ≠ NULL) mem ->
  exists sc', attach_all fuel sc mem w = Done (zip mem (wanted sc), sc', drop n mem, w) /\ bus_wf sc' /\ wanted sc' = [] /\
    forall s, 0 <= s < LB_NSLOTS ->
      in_use sc' s = in_use sc s || bool_decide (s ∈ wanted sc) /\
      handler sc' s = (if bool_decide (s ∈ wanted sc) then default (handler sc s) irqfunc else handler sc s).
Proof using Hrd.
  revert fuel sc mem. induction n as [|n IH]; intros fuel sc mem Hw Hn Hf Hm Hmem;
    (destruct fuel as [|fuel]; [lia|]); (destruct mem as [|lt mem]; [cbn in Hm; lia|]);
    apply Forall_cons in Hmem as [Hlt Hmem]; cbn [attach_all]; rewrite attach_spec by done;
    destruct (wanted sc) as [|slot rest] eqn:E; try done.
  - exists sc. split; [by cbn|]. split; [done|]. split; [done|]. intros s Hs. by rewrite orb_false_r.
  - destruct (wanted_head sc slot rest E) as [Hs Hu]. pose proof (wanted_taken sc slot rest lt E) as Et.
    cbn [mbind outcome_bind].
    destruct (IH fuel (taken sc slot lt irqfunc) mem) as (sc' & -> & Hw' & He & Hall);
      [by apply bus_wf_taken|rewrite Et; cbn in Hn; lia|lia|cbn in Hm; lia|done|].
    exists sc'. rewrite Et in *. split; [done|]. split; [done|]. split; [done|]. intros s Hs'.
    destruct (Hall s Hs') as [-> ->]. rewrite in_use_taken by lia. rewrite handler_taken by (done || lia).
    assert (Hnd : NoDup (slot :: rest)) by (rewrite <- E; apply NoDup_filter, NoDup_seqZ).
    apply NoDup_cons in Hnd as [Hni _]. rewrite (bool_decide_ext (s ∈ slot :: rest) (s = slot \/ s ∈ rest)) by set_solver.
    repeat case_bool_decide; subst; try tauto; rewrite ?orb_true_r, ?orb_false_r; destruct irqfunc; auto; naive_solver.
Qed.
End attaching.

(** With memory for every card, attaching a kind of card until no more is
    found takes each free slot with such a card exactly once, in the order of
    the slots, attaches the handler to it and leaves all other slots alone;
    [lamebus_mark] and [lamebus_attach_interrupt] do not panic. *)
Theorem attach_every_card {W} (rd : W -> Z -> Z -> Z * W) cs deviceid lowver highver irqfunc sc mem w :
  registers_show rd cs -> bus_wf sc -> (32 < length mem)%nat -> Forall (fun p => p ≠ NULL) mem ->
  exists sc', let found := candidates sc cs LB_VENDOR_CS161 deviceid lowver highver in
    attach_all rd deviceid lowver highver irqfunc 33 sc mem w = Done (zip mem found, sc', drop (length found) mem, w) /\
    bus_wf sc' /\ candidates sc' cs LB_VENDOR_CS161 deviceid lowver highver = [] /\
    forall s, 0 <= s < LB_NSLOTS ->
      in_use sc' s = in_use sc s || bool_decide (s ∈ found) /\
      handler sc' s = (if bool_decide (s ∈ found) then default (handler sc s) irqfunc else handler sc s).
Proof.
  intros Hrd Hw Hm Hmem. set (found := candidates _ _ _ _ _ _).
  assert (Hl : (length found <= 32)%nat).
  { transitivity (length (seqZ 0 LB_NSLOTS)); [apply length_filter|by rewrite length_seqZ]. }
  destruct (attach_all_spec rd cs Hrd deviceid lowver highver irqfunc (length found) 33 sc mem w) as (sc' & H);
    [done|done|lia|lia|done|]. by exists sc'.
Qed.

(** ** Serving interrupts *)

(** A slot that is in use and has a handler. *)
Definition has_handler (sc : lamebus_softc) (slot : Z) : Prop := in_use sc slot = true /\ handler sc slot ≠ NULL.
#[export] Instance has_handler_dec sc slot : Decision (has_handler sc slot).
Proof. apply _. Defined.

Section serving.
Context {W : Type} (rd : W -> Z -> Z -> Z * W) (call : ptr -> ptr -> W -> outcome W).

(** [pending w] has a bit for each slot that signals in [w]; reading the
    register shows it and does nothing else.  Nothing is assumed of the
    handlers: they may end and raise signals of any slot, panic, or never
    return. *)
Context (pending : W -> Z) (Hirqs : forall w, read_ctl_register rd w CTLREG_IRQS = (pending w, w)).
Context (sc : lamebus_softc) (Hwf : bus_wf sc).

(** A sweep over [n] slots from [slot] on: a slot is looked at once, in order,
    and is served when it signals at that moment and has a handler, whatever
    the handlers of earlier slots did to its signal.  [duds] counts the slots
    that signal when looked at and have no handler. *)
Inductive sweep : nat -> Z -> W -> list Z -> Z -> outcome W -> Prop :=
  | sweep_end slot w : sweep O slot w [] 0 (Done w)
  | sweep_quiet n slot w calls duds r :
      Z.testbit (pending w) slot = false ->
      sweep n (slot + 1) w calls duds r -> sweep (S n) slot w calls duds r
  | sweep_dud n slot w calls duds r :
      Z.testbit (pending w) slot = true -> ~ has_handler sc slot ->
      sweep n (slot + 1) w calls duds r -> sweep (S n) slot w calls (duds + 1) r
  | sweep_serve n slot w w' calls duds r :
      Z.testbit (pending w) slot = true -> has_handler sc slot ->
      call (handler sc slot) (device sc slot) w = Done w' ->
      sweep n (slot + 1) w' calls duds r -> sweep (S n) slot w (slot :: calls) duds r
  | sweep_panic n slot w :
      Z.testbit (pending w) slot = true -> has_handler sc slot ->
      call (handler sc slot) (device sc slot) w = Panic -> sweep (S n) slot w [slot] 0 Panic
  | sweep_stuck n slot w :
      Z.testbit (pending w) slot = true -> has_handler sc slot ->
      call (handler sc slot) (device sc slot) w = Stuck -> sweep (S n) slot w [slot] 0 Stuck.

Lemma sweep_duds n slot w calls duds r : sweep n slot w calls duds r -> 0 <= duds <= Z.of_nat n.
Proof. induction 1; lia. Qed.

Lemma sweep_calls n slot w calls duds r :
  sweep n slot w calls duds r -> StronglySorted Z.lt calls /\ Forall (fun s => slot <= s < slot + Z.of_nat n /\ has_handler sc s) calls.
Proof.
  assert (Hm : forall n slot l, Forall (fun s => slot + 1 <= s < slot + 1 + Z.of_nat n /\ has_handler sc s) l ->
    Forall (fun s => slot <= s < slot + Z.of_nat (S n) /\ has_handler sc s) l).
  { intros m sl l Hl. eapply Forall_impl; [exact Hl|]. cbn. intros s [? ?]. split; [lia|done]. }
  induction 1 as [|?????? _ _ [? ?]|?????? _ _ _ [? ?]|??????? _ Hh _ _ [? Hf]|??? _ Hh _|??? _ Hh _];
    [repeat constructor|by auto|by auto|..].
  - split; [|apply Forall_cons; split; [split; [lia|done]|by auto]]. constructor; [done|].
    eapply Forall_impl; [exact Hf|]. cbn. intros s [? _]. lia.
  - split; repeat constructor; (lia || apply Hh).
  - split; repeat constructor; (lia || apply Hh).
Qed.

Lemma next_mask slot : 0 <= slot < LB_NSLOTS -> u32 (Z.shiftl (2 ^ slot) 1) = u32 (2 ^ (slot + 1)).
Proof. intros. by rewrite Z.shiftl_mul_pow2, <- Z.pow_add_r by lia. Qed.

(** What the loop makes of a sweep. *)
Definition counted (duds dtt new : Z) (r : outcome W) : outcome (Z * Z * W) :=
  w ← r; Done (duds + new, dtt + new, w).

Lemma irq_loop_sweeps n slot duds dtt w :
  0 <= slot -> slot + Z.of_nat n = LB_NSLOTS -> 0 <= duds -> duds + Z.of_nat n <= INT_MAX -> 0 <= dtt <= duds ->
  exists calls new r, sweep n slot w calls new r /\
    irq_loop rd call n slot (u32 (2 ^ slot)) (pending w) sc duds dtt w = counted duds dtt new r.
Proof using Hirqs Hwf.
  revert slot duds dtt w. induction n as [|n IH]; intros slot duds dtt w H0 Hn Hd Hmax Ht; cbn [irq_loop].
  { exists [], 0, (Done w). split; [constructor|]. cbn. by rewrite !Z.add_0_r. }
  assert (Hs : 0 <= slot < LB_NSLOTS) by lia. rewrite <- (shiftl_mask slot), mask_small, next_mask by lia.
  pose proof (land_pow2_0 (pending w) slot H0) as Hp. destruct (Z.testbit (pending w) slot) eqn:Ep.
  2: { rewrite bool_decide_eq_true_2 by tauto. destruct (IH (slot + 1) duds dtt w) as (calls & new & r & Hw & E); [lia..|].
       exists calls, new, r. split; [by apply sweep_quiet|done]. }
  rewrite bool_decide_eq_false_2 by (intros ?%Hp; done). pose proof (in_use_mask sc slot H0) as Hu.
  assert (Hdud : ~ has_handler sc slot -> exists calls new r, sweep (S n) slot w calls new r /\
    (duds ← int_op (duds + 1); dtt ← int_op (dtt + 1);
     irq_loop rd call n (slot + 1) (u32 (2 ^ (slot + 1))) (pending w) sc duds dtt w) = counted duds dtt new r).
  { intros Hh. rewrite !int_op_ok by (unfold INT_MIN in *; lia). cbn [mbind outcome_bind].
    destruct (IH (slot + 1) (duds + 1) (dtt + 1) w) as (calls & new & r & Hw & ->); [lia..|].
    exists calls, (new + 1), r. split; [by apply sweep_dud|]. unfold counted. destruct r; cbn; [|done|done]. do 3 f_equal; lia. }
  destruct (in_use sc slot) eqn:Eu.
  2: { rewrite bool_decide_eq_true_2 by tauto. apply Hdud. intros [? _]. congruence. }
  rewrite bool_decide_eq_false_2 by (intros ?%Hu; done).
  rewrite (getZ_default (ls_irqfuncs sc)) by (done || apply Hwf). change (default NULL (ls_irqfuncs sc !! Z.to_nat slot)) with (handler sc slot).
  cbn [mbind outcome_bind]. destruct (bool_decide_reflect (handler sc slot = NULL)) as [Eh|Eh].
  { apply Hdud. intros [_ ?]. done. }
  rewrite (getZ_default (ls_devdata sc)) by (done || apply Hwf). change (default NULL (ls_devdata sc !! Z.to_nat slot)) with (device sc slot).
  cbn [mbind outcome_bind]. assert (Hh : has_handler sc slot) by done.
  destruct (call (handler sc slot) (device sc slot) w) as [w1| |] eqn:Ec; cbn [mbind outcome_bind].
  2: { exists [slot], 0, Panic. split; [by apply sweep_panic|done]. }
  2: { exists [slot], 0, Stuck. split; [by apply sweep_stuck|done]. }
  rewrite Hirqs. destruct (IH (slot + 1) duds dtt w1) as (calls & new & r & Hw & E); [lia..|].
  exists (slot :: calls), new, r. split; [by eapply sweep_serve|done].
Qed.

(** C29. When slots signal, [lamebus_interrupt] makes one sweep over the 32 slots
    in order.  A slot is served, once, exactly when it is in use, has a handler
    and signals at the moment its turn comes, so that a signal a handler raises
    for a later slot is served in the same sweep and one it ends is not; a
    handler that panics or never returns ends the sweep.  Signals of slots
    without a handler are counted; after a sweep without any the count is reset,
    and the kernel panics when a sweep with some takes it over 10000.  Nothing
    is assumed of the handlers; the count must leave room for 32 more. *)
Theorem interrupt_serves curspl duds w :
  curspl > 0 -> 0 <= duds <= INT_MAX - 32 -> pending w ≠ 0 ->
  exists calls new r, sweep 32 0 w calls new r /\
    lamebus_interrupt rd call curspl sc duds w =
      match r with
      | Done w' => if bool_decide (new = 0) then Done (0, w')
                   else if bool_decide (duds + new > 10000) then Panic else Done (duds + new, w')
      | Panic => Panic
      | Stuck => Stuck
      end.
Proof using Hirqs Hwf.
  intros Hspl Hd Hp. unfold lamebus_interrupt. rewrite (bool_decide_eq_true_2 (curspl > 0)) by done.
  cbn [kassert mbind outcome_bind]. rewrite Hirqs, (bool_decide_eq_false_2 (pending w = 0)) by done.
  destruct (irq_loop_sweeps 32 0 duds 0 w) as (calls & new & r & Hw & E); [lia|done|lia..|].
  exists calls, new, r. split; [done|]. change (u32 (2 ^ 0)) with 1 in E. change (Z.to_nat LB_NSLOTS) with 32%nat. rewrite E.
  pose proof (sweep_duds _ _ _ _ _ _ Hw). destruct r as [w'| |]; cbn [counted mbind outcome_bind]; [|done|done]. rewrite Z.add_0_l.
  destruct (bool_decide_reflect (new = 0)) as [->|Hn].
  - rewrite Z.add_0_r. destruct (decide (duds > 0)).
    + by rewrite (bool_decide_eq_true_2 (0 = 0 /\ _)) by lia.
    + rewrite (bool_decide_eq_false_2 (0 = 0 /\ _)) by lia. assert (duds = 0) as -> by lia. done.
  - by rewrite (bool_decide_eq_false_2 (new = 0 /\ _)) by lia.
Qed.
End serving.

(** Stray interrupts, for which no slot signals, never make the kernel panic,
    as long as the count of them fits an [int]. *)
Lemma stray_never_panics {W} (rd : W -> Z -> Z -> Z * W) call sc curspl duds w :
  curspl > 0 -> 0 <= duds < INT_MAX -> fst (read_ctl_register rd w CTLREG_IRQS) = 0 ->
  exists w', lamebus_interrupt rd call curspl sc duds w = Done (duds + 1, w').
Proof.
  intros Hs Hd Hr. unfold lamebus_interrupt. rewrite bool_decide_eq_true_2 by done. cbn [kassert mbind outcome_bind].
  destruct (read_ctl_register rd w CTLREG_IRQS) as [irqs w']. cbn in Hr. subst. exists w'. cbn. by rewrite int_op_ok by (unfold INT_MIN; lia).
Qed.

(** ** A bus with two timers and a disk *)

Definition ex_world : Type := Z * list Z.
Definition ex_cards : cards :=
  mkCards (fun slot => if bool_decide (slot < 3) then 1 else 0)
          (fun slot => if bool_decide (slot = 1) then LBCS161_DISK else LBCS161_TIMER)
          (fun slot => if bool_decide (slot = 1) then 2 else 1).

Definition ex_read (w : ex_world) (slot offset : Z) : Z * ex_world :=
  let s := offset / 1024 in
  let r := offset mod 1024 in
  (if bool_decide (r = CFGREG_VID) then vid ex_cards s
   else if bool_decide (r = CFGREG_DID) then did ex_cards s
   else if bool_decide (r = CFGREG_DRL) then drl ex_cards s
   else if bool_decide (r = CTLREG_IRQS) then fst w else 0, w).

(** The handler of slot [s] has number [s + 1]; that of slot 0 makes slots 1
    and 2 signal, as the clock does when it lets another thread start a
    device. *)
Definition ex_call (f d : ptr) (w : ex_world) : outcome ex_world :=
  Done (Z.lor (Z.clearbit (fst w) (f - 1)) (if bool_decide (f = 1) then 6 else 0), snd w ++ [f - 1]).

Definition ex_bus : lamebus_softc := mkLb (2 ^ 31) (replicate 32 NULL) (replicate 32 NULL).
(** Slots 0, 1 and 2 are in use; 0 and 2 have a handler. *)
Definition ex_bus2 : lamebus_softc :=
  mkLb (2 ^ 31 + 7) (<[2%nat := 78]> (<[0%nat := 77]> (replicate 32 NULL))) (<[2%nat := 3]> (<[0%nat := 1]> (replicate 32 NULL))).

Lemma ex_registers : registers_show ex_read ex_cards.
Proof.
  intros w slot [H0 H1]. unfold LB_NSLOTS in *. unfold read_cfg_register, ex_read, CFGREG_VID, CFGREG_DID, CFGREG_DRL, LB_CONFIG_SIZE.
  rewrite !u32_small by lia.
  assert (Hd : forall r, 0 <= r < 1024 -> (r + 1024 * slot) / 1024 = slot /\ (r + 1024 * slot) mod 1024 = r).
  { intros r Hr. rewrite (Z.mul_comm 1024). rewrite Z.div_add, Z.mod_add, Z.div_small, Z.mod_small by lia. lia. }
  destruct (Hd 0) as [-> ->]; [lia|]. destruct (Hd 4) as [-> ->]; [lia|]. destruct (Hd 8) as [-> ->]; [lia|]. done.
Qed.

Lemma ex_bus_wf : bus_wf ex_bus.
Proof.
  split; [done|done|]. intros slot Hs _. unfold handler, device. cbn [ex_bus ls_irqfuncs ls_devdata].
  destruct (replicate 32 NULL !! Z.to_nat slot) as [x|] eqn:E; [|done].
  apply lookup_replicate in E as [-> _]. done.
Qed.

Lemma attach_every_card_witness :
  exists sc', attach_all ex_read LBCS161_TIMER 1 1 (Some 5) 33 ex_bus (replicate 33 100) (0, []) =
                Done ([(100, 0); (100, 2)], sc', replicate 31 100, (0, [])) /\ handler sc' 2 = 5 /\ handler sc' 1 = NULL.
Proof.
  destruct (attach_every_card ex_read ex_cards LBCS161_TIMER 1 1 (Some 5) ex_bus (replicate 33 100) (0, []))
    as (sc' & H1 & _ & _ & H4); [apply ex_registers|apply ex_bus_wf|cbn; lia|by apply Forall_replicate|].
  exists sc'. split; [exact H1|]. split; [apply (H4 2); unfold LB_NSLOTS; lia|apply (H4 1); unfold LB_NSLOTS; lia].
Defined.

Lemma ex_bus2_wf : bus_wf ex_bus2.
Proof.
  split; [done|done|]. intros slot Hs Hu. assert (slot ≠ 0 /\ slot ≠ 2) as [H0 H2] by (split; intros ->; done).
  unfold handler, device. cbn [ex_bus2 ls_irqfuncs ls_devdata]. rewrite !list_lookup_insert_ne by lia.
  destruct (replicate 32 NULL !! Z.to_nat slot) as [x|] eqn:E; [|done]. apply lookup_replicate in E as [-> _]. done.
Qed.

(** Only slot 0 signals; slot 2 is served too, and slot 1 is a dud. *)
Lemma interrupt_serves_witness :
  exists calls new r, sweep ex_call fst ex_bus2 32 0 (1, []) calls new r /\
    lamebus_interrupt ex_read ex_call 1 ex_bus2 4 (1, []) = Done (5, (2, [0; 2])) /\ StronglySorted Z.lt calls.
Proof.
  destruct (interrupt_serves ex_read ex_call fst (fun w => eq_refl) ex_bus2 ex_bus2_wf 1 4 (1, [])) as (calls & new & r & Hs & _);
    [lia|unfold INT_MAX; lia|done|].
  exists calls, new, r. split; [exact Hs|]. split; [reflexivity|]. exact (proj1 (sweep_calls _ _ _ _ _ _ _ _ _ Hs)).
Defined.

End Lamebus.
