(* ===== verification/Emu.v ===== *)
(** * The emulator file system: [dev/lamebus/emu.c]

    A card of the simulator gives access to files of the machine the simulator
    runs on.  An operation is started by writing its code to a register and
    ends with an interrupt; files are known by handles.  The driver keeps a
    table of the vnodes it has loaded, one for each handle.

    The card is a parameter: [EmuCard] is what an operation does to the
    registers and the buffer, [EmuLaws] its documented behaviour on files.
    What one thread does is modelled; the lock [e_lock] is held or not. *)

From S2P Require Import Prelude UserMem Uio Libc Printf.

Module Emu.
Import Uio.

Definition EMU_MAXIO : Z := 16384.
Definition EMU_ROOTHANDLE : Z := 0.

Definition EMU_OP_OPEN : Z := 1.
Definition EMU_OP_CREATE : Z := 2.
Definition EMU_OP_EXCLCREATE : Z := 3.
Definition EMU_OP_CLOSE : Z := 4.
Definition EMU_OP_READ : Z := 5.
Definition EMU_OP_READDIR : Z := 6.
Definition EMU_OP_WRITE : Z := 7.
Definition EMU_OP_GETSIZE : Z := 8.
Definition EMU_OP_TRUNC : Z := 9.

Definition EMU_RES_SUCCESS : Z := 1.
Definition EMU_RES_BADHANDLE : Z := 2.
Definition EMU_RES_BADOP : Z := 3.
Definition EMU_RES_BADPATH : Z := 4.
Definition EMU_RES_BADSIZE : Z := 5.
Definition EMU_RES_EXISTS : Z := 6.
Definition EMU_RES_ISDIR : Z := 7.
Definition EMU_RES_MEDIA : Z := 8.
Definition EMU_RES_NOHANDLES : Z := 9.
Definition EMU_RES_NOSPACE : Z := 10.
Definition EMU_RES_NOTDIR : Z := 11.
Definition EMU_RES_UNKNOWN : Z := 12.
Definition EMU_RES_UNSUPP : Z := 13.

(** The registers [REG_HANDLE], [REG_OFFSET], [REG_IOLEN] and [REG_RESULT],
    and the buffer. *)
Record regs : Type := mkRegs { r_handle : Z; r_offset : Z; r_iolen : Z; r_result : Z; iobuf : list Z }.

(** What writing [REG_OPER] has done when the card interrupts. *)
Class EmuCard (H : Type) : Type := {
  emu_run : H -> Z -> regs -> regs * H;
  files : H -> gmap Z (list Z);           (* the open plain files, by handle *)
  handles : H -> gset Z                   (* the open handles *)
}.

Section emu.
Context {H : Type} `{EmuCard H}.

Record emu_softc : Type := mkEs {
  e_hw : H;
  e_regs : regs;
  e_result : Z;
  e_sem : Z;
  e_lock : bool                           (* held by this thread *)
}.
Implicit Types sc : emu_softc.

Definition set_regs sc (r : regs) : emu_softc := mkEs (e_hw sc) r (e_result sc) (e_sem sc) (e_lock sc).
Definition set_lock sc (b : bool) : emu_softc := mkEs (e_hw sc) (e_regs sc) (e_result sc) (e_sem sc) b.

Definition lock_acquire sc : outcome emu_softc := if e_lock sc then Stuck else Done (set_lock sc true).
Definition lock_release sc : outcome emu_softc := assert! e_lock sc;; Done (set_lock sc false).

(** ** Hardware operations *)

Definition wreg_handle sc (v : Z) : emu_softc :=
  let r := e_regs sc in set_regs sc (mkRegs (u32 v) (r_offset r) (r_iolen r) (r_result r) (iobuf r)).
Definition wreg_offset sc (v : Z) : emu_softc :=
  let r := e_regs sc in set_regs sc (mkRegs (r_handle r) (u32 v) (r_iolen r) (r_result r) (iobuf r)).
Definition wreg_iolen sc (v : Z) : emu_softc :=
  let r := e_regs sc in set_regs sc (mkRegs (r_handle r) (r_offset r) (u32 v) (r_result r) (iobuf r)).
Definition wreg_oper sc (op : Z) : emu_softc :=
  let '(r, hw) := emu_run (e_hw sc) op (e_regs sc) in mkEs hw r (e_result sc) (e_sem sc) (e_lock sc).
Definition set_iobuf sc (b : list Z) : emu_softc :=
  let r := e_regs sc in set_regs sc (mkRegs (r_handle r) (r_offset r) (r_iolen r) (r_result r) b).

Definition emu_irq sc : emu_softc :=
  let r := e_regs sc in
  mkEs (e_hw sc) (mkRegs (r_handle r) (r_offset r) (r_iolen r) 0 (iobuf r)) (r_result r) (e_sem sc + 1) (e_lock sc).

Definition translate_err (code : Z) : outcome Z :=
  if bool_decide (code = EMU_RES_SUCCESS) then Done 0
  else if bool_decide (code = EMU_RES_BADHANDLE \/ code = EMU_RES_BADOP \/ code = EMU_RES_BADSIZE) then Panic
  else if bool_decide (code = EMU_RES_BADPATH) then Done ENOENT
  else if bool_decide (code = EMU_RES_EXISTS) then Done EEXIST
  else if bool_decide (code = EMU_RES_ISDIR) then Done EISDIR
  else if bool_decide (code = EMU_RES_MEDIA) then Done EIO
  else if bool_decide (code = EMU_RES_NOHANDLES) then Done ENFILE
  else if bool_decide (code = EMU_RES_NOSPACE) then Done ENOSPC
  else if bool_decide (code = EMU_RES_NOTDIR) then Done ENOTDIR
  else if bool_decide (code = EMU_RES_UNKNOWN) then Done EIO
  else if bool_decide (code = EMU_RES_UNSUPP) then Done EUNIMP
  else Done EAGAIN.

(** While the thread waits in [P(e_sem)], the interrupt arrives. *)
Definition emu_waitdone sc : outcome (Z * emu_softc) :=
  let sc := emu_irq sc in
  if bool_decide (e_sem sc > 0) then
    let sc := mkEs (e_hw sc) (e_regs sc) (e_result sc) (e_sem sc - 1) (e_lock sc) in
    result ← translate_err (e_result sc);
    Done (result, sc)
  else Stuck.

(** [name] without its NUL; the result with the new handle and whether it is a
    directory. *)
Definition emu_open sc (handle : Z) (name : list Z) (create excl : bool) : outcome (Z * Z * bool * emu_softc) :=
  if bool_decide (Z.of_nat (length name) + 1 > EMU_MAXIO) then Done (ENAMETOOLONG, 0, false, sc)
  else
    let op := if create && excl then EMU_OP_EXCLCREATE else if create then EMU_OP_CREATE else EMU_OP_OPEN in
    sc ← lock_acquire sc;
    b ← mem_write (iobuf (e_regs sc)) 0 (name ++ [0]);
    let sc := set_iobuf sc b in
    let sc := wreg_iolen sc (Z.of_nat (length name)) in
    let sc := wreg_handle sc handle in
    let sc := wreg_oper sc op in
    '(result, sc) ← emu_waitdone sc;
    let newhandle := if bool_decide (result = 0) then r_handle (e_regs sc) else 0 in
    let newisdir := bool_decide (result = 0 /\ r_iolen (e_regs sc) > 0) in
    sc ← lock_release sc;
    Done (result, newhandle, newisdir, sc).

(** The retry loop: [retries] left. *)
Fixpoint close_loop (retries : nat) sc (handle : Z) : outcome (Z * emu_softc) :=
  let sc := wreg_handle sc handle in
  let sc := wreg_oper sc EMU_OP_CLOSE in
  '(result, sc) ← emu_waitdone sc;
  if bool_decide (result = EIO) then
    match retries with
    | O => Done (result, sc)
    | S retries => close_loop retries sc handle
    end
  else Done (result, sc).

Definition emu_close sc (handle : Z) : outcome (Z * emu_softc) :=
  let mine := e_lock sc in
  sc ← (if negb mine then lock_acquire sc else Done sc);
  '(result, sc) ← close_loop 10 sc handle;
  sc ← (if negb mine then lock_release sc else Done sc);
  Done (result, sc).

Definition set_offset (u : uio) (off : Z) : uio := set_pos u off (uio_resid u).

Definition emu_doread sc (handle len op : Z) (u : uio) (c : ctx) : outcome (Z * emu_softc * uio * ctx) :=
  assert! bool_decide (uio_rw u = UIO_READ);;
  sc ← lock_acquire sc;
  let sc := wreg_handle sc handle in
  let sc := wreg_iolen sc len in
  let sc := wreg_offset sc (uio_offset u) in
  let sc := wreg_oper sc op in
  '(result, sc) ← emu_waitdone sc;
  if bool_decide (result ≠ 0) then
    sc ← lock_release sc;
    Done (result, sc, u, c)
  else
    '(result, _, u, c) ← uiomove (iobuf (e_regs sc)) 0 (r_iolen (e_regs sc)) u c;
    let u := set_offset u (s32 (r_offset (e_regs sc))) in
    sc ← lock_release sc;
    Done (result, sc, u, c).

Definition emu_read sc (handle len : Z) (u : uio) (c : ctx) := emu_doread sc handle len EMU_OP_READ u c.
Definition emu_readdir sc (handle len : Z) (u : uio) (c : ctx) := emu_doread sc handle len EMU_OP_READDIR u c.

Definition emu_write sc (handle len : Z) (u : uio) (c : ctx) : outcome (Z * emu_softc * uio * ctx) :=
  assert! bool_decide (uio_rw u = UIO_WRITE);;
  sc ← lock_acquire sc;
  let sc := wreg_handle sc handle in
  let sc := wreg_iolen sc len in
  let sc := wreg_offset sc (uio_offset u) in
  '(result, b, u, c) ← uiomove (iobuf (e_regs sc)) 0 len u c;
  let sc := set_iobuf sc b in
  if bool_decide (result ≠ 0) then
    sc ← lock_release sc;
    Done (result, sc, u, c)
  else
    let sc := wreg_oper sc EMU_OP_WRITE in
    '(result, sc) ← emu_waitdone sc;
    sc ← lock_release sc;
    Done (result, sc, u, c).

(** The result and the size. *)
Definition emu_getsize sc (handle : Z) : outcome (Z * Z * emu_softc) :=
  sc ← lock_acquire sc;
  let sc := wreg_handle sc handle in
  let sc := wreg_oper sc EMU_OP_GETSIZE in
  '(result, sc) ← emu_waitdone sc;
  let retval := if bool_decide (result = 0) then s32 (r_iolen (e_regs sc)) else 0 in
  sc ← lock_release sc;
  Done (result, retval, sc).

Definition emu_trunc sc (handle len : Z) : outcome (Z * emu_softc) :=
  sc ← lock_acquire sc;
  let sc := wreg_handle sc handle in
  let sc := wreg_iolen sc len in
  let sc := wreg_oper sc EMU_OP_TRUNC in
  '(result, sc) ← emu_waitdone sc;
  sc ← lock_release sc;
  Done (result, sc).

(** ** Reading and writing files

    Every turn that goes on moves a byte, so the residue is fuel enough. *)
Fixpoint read_loop (fuel : nat) (handle : Z) sc (u : uio) (c : ctx) : outcome (Z * emu_softc * uio * ctx) :=
  if bool_decide (uio_resid u > 0) then
    match fuel with
    | O => Stuck
    | S fuel =>
        let amt := if bool_decide (uio_resid u > EMU_MAXIO) then EMU_MAXIO else uio_resid u in
        let oldresid := uio_resid u in
        '(result, sc, u, c) ← emu_read sc handle amt u c;
        if bool_decide (result ≠ 0) then Done (result, sc, u, c)
        else if bool_decide (uio_resid u = oldresid) then Done (0, sc, u, c)
        else read_loop fuel handle sc u c
    end
  else Done (0, sc, u, c).

Definition emufs_read (handle : Z) sc (u : uio) (c : ctx) : outcome (Z * emu_softc * uio * ctx) :=
  assert! bool_decide (uio_rw u = UIO_READ);;
  read_loop (S (Z.to_nat (uio_resid u))) handle sc u c.

Fixpoint write_loop (fuel : nat) (handle : Z) sc (u : uio) (c : ctx) : outcome (Z * emu_softc * uio * ctx) :=
  if bool_decide (uio_resid u > 0) then
    match fuel with
    | O => Stuck
    | S fuel =>
        let amt := if bool_decide (uio_resid u > EMU_MAXIO) then EMU_MAXIO else uio_resid u in
        let oldresid := uio_resid u in
        '(result, sc, u, c) ← emu_write sc handle amt u c;
        if bool_decide (result ≠ 0) then Done (result, sc, u, c)
        else if bool_decide (uio_resid u = oldresid) then Done (0, sc, u, c)
        else write_loop fuel handle sc u c
    end
  else Done (0, sc, u, c).

Definition emufs_write (handle : Z) sc (u : uio) (c : ctx) : outcome (Z * emu_softc * uio * ctx) :=
  assert! bool_decide (uio_rw u = UIO_WRITE);;
  write_loop (S (Z.to_nat (uio_resid u))) handle sc u c.

Definition emufs_getdirentry (handle : Z) sc (u : uio) (c : ctx) : outcome (Z * emu_softc * uio * ctx) :=
  assert! bool_decide (uio_rw u = UIO_READ);;
  let amt := if bool_decide (uio_resid u > EMU_MAXIO) then EMU_MAXIO else uio_resid u in
  emu_readdir sc handle amt u c.

Definition emufs_ioctl : Z := EINVAL.
Definition emufs_close : Z := 0.
Definition emufs_fsync : Z := 0.
Definition emufs_tryseek (pos : Z) : Z := if bool_decide (pos < 0) then EINVAL else 0.
Definition emufs_truncate (handle : Z) sc (len : Z) : outcome (Z * emu_softc) := emu_trunc sc handle len.

Definition O_ACCMODE : Z := 3.
Definition O_APPEND : Z := 32.
Definition emufs_open (openflags : Z) : Z := if bool_decide (Z.land openflags O_APPEND ≠ 0) then EUNIMP else 0.
Definition emufs_opendir (openflags : Z) : Z :=
  if bool_decide (Z.land openflags O_ACCMODE = 0) then
    if bool_decide (Z.land openflags O_APPEND ≠ 0) then EISDIR else 0
  else EISDIR.

(** ** Vnodes

    [vns] holds the vnodes in memory by address, [ef_vnodes] the table.  [mem]
    lists what the calls of [kmalloc] for vnodes to come return, and [ora]
    whether there is memory for a lock or to extend the table. *)
Record vn : Type := mkVn { ev_handle : Z; vn_isdir : bool; vn_refcount : Z; vn_opencount : Z }.

Record emufs : Type := mkEf {
  ef_emu : emu_softc;
  ef_vnodes : list ptr;
  vns : gmap ptr vn;
  ef_root : ptr;
  mem : list ptr;
  ora : oracle
}.

Abbreviation FS := (M emufs).

Definition set_emu (ef : emufs) sc : emufs := mkEf sc (ef_vnodes ef) (vns ef) (ef_root ef) (mem ef) (ora ef).
Definition set_vns (ef : emufs) (m : gmap ptr vn) : emufs := mkEf (ef_emu ef) (ef_vnodes ef) m (ef_root ef) (mem ef) (ora ef).
Definition set_vnodes (ef : emufs) (l : list ptr) : emufs := mkEf (ef_emu ef) l (vns ef) (ef_root ef) (mem ef) (ora ef).
Definition set_root (ef : emufs) (p : ptr) : emufs := mkEf (ef_emu ef) (ef_vnodes ef) (vns ef) p (mem ef) (ora ef).

(** Run an operation of the card; its result is returned. *)
Definition hw {A} (f : emu_softc -> outcome (A * emu_softc)) : FS A := fun ef =>
  '(a, sc) ← f (ef_emu ef);
  Done (inr a, set_emu ef sc).

Definition acquire : FS unit := hw (fun sc => sc ← lock_acquire sc; Done (tt, sc)).
Definition release : FS unit := hw (fun sc => sc ← lock_release sc; Done (tt, sc)).

(** A vnode that is not in memory is a wild pointer. *)
Definition get_vn (p : ptr) : FS vn :=
  ef ← get;
  match vns ef !! p with Some v => mret v | None => lift Stuck end.
Definition put_vn (p : ptr) (v : vn) : FS unit := modify (fun ef => set_vns ef (<[p := v]> (vns ef))).

Definition malloc_vn : FS ptr := fun ef =>
  match mem ef with
  | [] => Done (inr NULL, ef)
  | p :: m => Done (inr p, mkEf (ef_emu ef) (ef_vnodes ef) (vns ef) (ef_root ef) m (ora ef))
  end.
Definition ask : FS bool := fun ef =>
  let '(ok, o) := kmalloc_ok (ora ef) in
  Done (inr ok, mkEf (ef_emu ef) (ef_vnodes ef) (vns ef) (ef_root ef) (mem ef) o).

(** [VOP_INCREF] *)
Definition vnode_incref (p : ptr) : FS unit :=
  _ ← massert (bool_decide (p ≠ NULL));
  v ← get_vn p;
  n ← lift (int_op (vn_refcount v + 1));
  put_vn p (mkVn (ev_handle v) (vn_isdir v) n (vn_opencount v)).

(** The checks of the counts in [vnode_check]; [isreclaim] is the comparison of
    the operation's name. *)
Definition check_counts (refcount opencount : Z) (isreclaim : bool) : outcome unit :=
  if bool_decide (refcount < 0) then Panic
  else if bool_decide (refcount = 0) && negb isreclaim then Panic
  else if bool_decide (opencount < 0) then Panic
  else Done tt.

(** The operations of a vnode in memory are one of the tables below. *)
Definition vnode_check (p : ptr) (isreclaim : bool) : FS unit :=
  if bool_decide (p = NULL) then panic
  else
    v ← get_vn p;
    lift (check_counts (vn_refcount v) (vn_opencount v) isreclaim).

(** [VOP_INCOPEN] *)
Definition vnode_incopen (p : ptr) : FS unit :=
  _ ← massert (bool_decide (p ≠ NULL));
  v ← get_vn p;
  n ← lift (int_op (vn_opencount v + 1));
  put_vn p (mkVn (ev_handle v) (vn_isdir v) (vn_refcount v) n).

(** [VOP_DECOPEN]; what [emufs_close] returns is at most printed. *)
Definition vnode_decopen (p : ptr) : FS unit :=
  _ ← massert (bool_decide (p ≠ NULL));
  v ← get_vn p;
  _ ← massert (bool_decide (vn_opencount v > 0));
  _ ← put_vn p (mkVn (ev_handle v) (vn_isdir v) (vn_refcount v) (vn_opencount v - 1));
  if bool_decide (vn_opencount v - 1 > 0) then mret tt else vnode_check p false.

(** [VOP_KILL] and [kfree] *)
Definition vnode_kill (p : ptr) : FS unit :=
  v ← get_vn p;
  _ ← massert (bool_decide (vn_refcount v = 1));
  _ ← massert (bool_decide (vn_opencount v = 0));
  modify (fun ef => set_vns ef (delete p (vns ef))).

(** The loop of [emufs_loadvnode] over the table. *)
Fixpoint find_handle (l : list ptr) (handle : Z) : FS (option ptr) :=
  match l with
  | [] => mret None
  | p :: l =>
      v ← get_vn p;
      if bool_decide (ev_handle v = handle) then mret (Some p) else find_handle l handle
  end.

Definition emufs_loadvnode (handle : Z) (isdir : bool) : FS ptr :=
  _ ← acquire;
  ef ← get;
  found ← find_handle (ef_vnodes ef) handle;
  match found with
  | Some p =>
      _ ← vnode_incref p;
      _ ← release;
      mret p
  | None =>
      p ← malloc_vn;
      if bool_decide (p = NULL) then
        _ ← release;
        fail ENOMEM
      else
        (* VOP_INIT makes a lock: the lock and its name *)
        lk ← ask;
        nm ← (if lk : bool then ask else mret false);
        if negb nm then
          _ ← release;
          fail ENOMEM
        else
          _ ← put_vn p (mkVn handle isdir 1 0);
          added ← ask;                            (* array_add *)
          if negb added then
            _ ← release;
            _ ← vnode_kill p;
            fail ENOMEM
          else
            _ ← modify (fun ef => set_vnodes ef (ef_vnodes ef ++ [p]));
            _ ← release;
            mret p
  end.

Definition emufs_reclaim (p : ptr) : FS unit :=
  _ ← acquire;
  v ← get_vn p;
  if bool_decide (vn_refcount v ≠ 1) then
    _ ← release;
    fail EBUSY
  else
    result ← hw (fun sc => emu_close sc (ev_handle v));
    if bool_decide (result ≠ 0) then
      _ ← release;
      fail result
    else
      ef ← get;
      match list_find (fun q => q = p) (ef_vnodes ef) with
      | None => panic
      | Some (ix, _) =>
          _ ← modify (fun ef => set_vnodes ef (delete ix (ef_vnodes ef)));
          _ ← release;
          vnode_kill p
      end.

(** [VOP_DECREF]: the error of a reclaim is only printed. *)
Definition vnode_decref (p : ptr) : FS unit :=
  _ ← massert (bool_decide (p ≠ NULL));
  v ← get_vn p;
  _ ← massert (bool_decide (vn_refcount v > 0));
  if bool_decide (vn_refcount v > 1) then
    put_vn p (mkVn (ev_handle v) (vn_isdir v) (vn_refcount v - 1) (vn_opencount v))
  else
    _ ← vnode_check p true;
    _ ← try (emufs_reclaim p);
    mret tt.

(** [emufs_creat] and [emufs_lookup] open the file, and close it again when
    there is no vnode for it. *)
Definition open_and_load (dir : ptr) (name : list Z) (create excl : bool) : FS ptr :=
  ev ← get_vn dir;
  r ← hw (fun sc => '(result, handle, isdir, sc) ← emu_open sc (ev_handle ev) name create excl;
                    Done ((result, handle, isdir), sc));
  let '(result, handle, isdir) := (r : Z * Z * bool) in
  if bool_decide (result ≠ 0) then fail result
  else
    r ← try (emufs_loadvnode handle isdir);
    match r with
    | inr p => mret p
    | inl result =>
        _ ← hw (fun sc => emu_close sc handle);
        fail result
    end.

Definition emufs_creat (dir : ptr) (name : list Z) (excl : bool) : FS ptr := open_and_load dir name true excl.
Definition emufs_lookup (dir : ptr) (pathname : list Z) : FS ptr := open_and_load dir pathname false false.

(** What [strrchr(pathname, '/')] splits the path into. *)
Fixpoint split_last (s : list Z) : option (list Z * list Z) :=
  match s with
  | [] => None
  | c :: s =>
      match split_last s with
      | Some (d, n) => Some (c :: d, n)
      | None => if bool_decide (c = 47) then Some ([], s) else None
      end
  end.

(** The directory and the name put into [buf]. *)
Definition emufs_lookparent (dir : ptr) (pathname : list Z) (len : Z) : FS (ptr * list Z) :=
  match split_last pathname with
  | None =>
      if bool_decide (Z.of_nat (length pathname) + 1 > len) then fail ENAMETOOLONG
      else
        _ ← vnode_incref dir;
        mret (dir, pathname)
  | Some (d, name) =>
      if bool_decide (Z.of_nat (length name) + 1 > len) then fail ENAMETOOLONG
      else
        p ← emufs_lookup dir d;
        mret (p, name)
  end.

Definition emufs_namefile (p : ptr) : FS unit :=
  ef ← get;
  if bool_decide (p = ef_root ef) then mret tt else fail EUNIMP.

Definition S_IFREG : Z := 4096.
Definition S_IFDIR : Z := 8192.
Definition emufs_file_gettype : Z := S_IFREG.
Definition emufs_dir_gettype : Z := S_IFDIR.

(** [st_mode], [st_nlink], [st_size], [st_blocks] *)
Definition emufs_stat (p : ptr) : FS (Z * Z * Z * Z) :=
  _ ← vnode_check p false;
  v ← get_vn p;
  let mode := if vn_isdir v then emufs_dir_gettype else emufs_file_gettype in
  r ← hw (fun sc => '(result, size, sc) ← emu_getsize sc (ev_handle v); Done ((result, size), sc));
  let '(result, size) := (r : Z * Z) in
  _ ← check result;
  mret (mode, 1, size, 0).

(** ** The tables of operations *)
Inductive vop : Type :=
  | VOpen | VClose | VReclaim | VRead | VReadlink | VGetdirentry | VWrite | VIoctl | VStat | VGettype | VTryseek
  | VFsync | VMmap | VTruncate | VNamefile | VCreat | VSymlink | VMkdir | VLink | VRemove | VRmdir | VRename
  | VLookup | VLookparent.

(** [None]: a function above; otherwise the error it always returns. *)
Definition emufs_fileops (o : vop) : option Z :=
  match o with
  | VReadlink | VGetdirentry | VNamefile | VCreat | VSymlink | VMkdir | VLink | VRemove | VRmdir | VRename
  | VLookup | VLookparent => Some ENOTDIR
  | VMmap => Some EUNIMP
  | _ => None
  end.
Definition emufs_dirops (o : vop) : option Z :=
  match o with
  | VRead | VReadlink | VWrite | VFsync | VMmap | VTruncate => Some EISDIR
  | VTryseek | VSymlink | VMkdir | VLink | VRemove | VRmdir | VRename => Some EUNIMP
  | _ => None
  end.

(** ** The file system *)

Definition emufs_sync : Z := 0.
Definition emufs_getvolname : ptr := NULL.
Definition emufs_unmount : Z := EBUSY.

Definition emufs_getroot : FS ptr :=
  ef ← get;
  _ ← massert (bool_decide (ef_root ef ≠ NULL));
  _ ← vnode_incref (ef_root ef);
  mret (ef_root ef).

(** [vfs_addfs] is the result of adding the name to the VFS layer. *)
Definition emufs_addtovfs (vfs_addfs : Z) : FS unit :=
  ok ← ask;
  if negb ok then fail ENOMEM
  else
    _ ← modify (fun ef => set_root (set_vnodes ef []) NULL);
    ok ← ask;                                     (* array_create *)
    if negb ok then fail ENOMEM
    else
      root ← emufs_loadvnode EMU_ROOTHANDLE true;
      _ ← modify (fun ef => set_root ef root);
      _ ← massert (bool_decide (root ≠ NULL));
      if bool_decide (vfs_addfs ≠ 0) then
        _ ← vnode_decref root;
        fail vfs_addfs
      else mret tt.

(** ["emu%d"] *)
Definition name_fmt : list Z := [101; 109; 117; 37; 100].

(** [add name] is [emufs_addtovfs] for that name; a lock and a semaphore are
    made first, each with its name. *)
Definition config_emu (emuno : Z) (vfs_addfs : list Z -> Z) : FS unit :=
  lk ← ask;
  nm ← (if lk : bool then ask else mret false);
  if negb nm then fail ENOMEM
  else
    sm ← ask;
    nm ← (if sm : bool then ask else mret false);
    if negb nm then fail ENOMEM
    else
      r ← lift (Printf.snprintf (zeros 32) 32 name_fmt [Printf.ANum emuno]);
      name ← lift (Printf.c_str (fst r) 0);
      emufs_addtovfs (vfs_addfs name).
End emu.
Arguments emu_softc : clear implicits.
Arguments emufs : clear implicits.

End Emu.
