(* ===== verification/EmuTheorems.v ===== *)
(** * The emulator file system: theorems

    With a card that behaves as documented, [emufs_read_refines] and
    [emufs_write_refines] say that reads and writes of any length, which the
    driver splits into transfers of at most 16384 bytes, read and write the
    file the handle stands for; [emufs_table] that the table holds one vnode
    for each handle, whatever operations run and fail. *)

From S2P Require Import Prelude UserMem Uio Libc Printf Emu.

Module EmuTheorems.
Import Uio Emu.

(** ** The card *)

(** The codes that mean an error of the driver. *)
Definition fatal (code : Z) : Prop :=
  code = EMU_RES_BADHANDLE \/ code = EMU_RES_BADOP \/ code = EMU_RES_BADSIZE.

(** A read may be short, but is empty only at the end of the file; a write is
    complete or fails. *)
Class EmuLaws (H : Type) `{EmuCard H} : Prop := {
  law_read hw r data r' hw' :
    files hw !! r_handle r = Some data -> 0 <= r_iolen r <= EMU_MAXIO -> Z.of_nat (length (iobuf r)) = EMU_MAXIO ->
    emu_run hw EMU_OP_READ r = (r', hw') ->
    files hw' = files hw /\ Z.of_nat (length (iobuf r')) = EMU_MAXIO /\ ~ fatal (r_result r') /\
    (r_result r' = EMU_RES_SUCCESS ->
     0 <= r_iolen r' <= r_iolen r /\ r_iolen r' <= Z.max 0 (Z.of_nat (length data) - r_offset r) /\
     (r_iolen r' = 0 -> 0 < r_iolen r -> Z.of_nat (length data) <= r_offset r) /\
     r_offset r' = r_offset r + r_iolen r' /\ slice (iobuf r') 0 (r_iolen r') = slice data (r_offset r) (r_iolen r'));
  law_write hw r data r' hw' :
    files hw !! r_handle r = Some data -> 0 <= r_iolen r <= EMU_MAXIO -> Z.of_nat (length (iobuf r)) = EMU_MAXIO ->
    emu_run hw EMU_OP_WRITE r = (r', hw') ->
    Z.of_nat (length (iobuf r')) = EMU_MAXIO /\ ~ fatal (r_result r') /\
    (r_result r' = EMU_RES_SUCCESS ->
     files hw' = <[r_handle r := write_at data (r_offset r) (slice (iobuf r) 0 (r_iolen r))]> (files hw));
  law_open hw op r r' hw' :
    op = EMU_OP_OPEN \/ op = EMU_OP_CREATE \/ op = EMU_OP_EXCLCREATE -> r_handle r ∈ handles hw ->
    emu_run hw op r = (r', hw') ->
    length (iobuf r') = length (iobuf r) /\ ~ fatal (r_result r') /\ 0 <= r_handle r' < 4294967296 /\
    handles hw' = (if bool_decide (r_result r' = EMU_RES_SUCCESS) then {[r_handle r']} ∪ handles hw else handles hw);
  law_close hw r r' hw' :
    r_handle r ∈ handles hw -> emu_run hw EMU_OP_CLOSE r = (r', hw') ->
    length (iobuf r') = length (iobuf r) /\ ~ fatal (r_result r') /\
    handles hw' = (if bool_decide (r_result r' = EMU_RES_SUCCESS) then handles hw ∖ {[r_handle r]} else handles hw);
  law_getsize hw r r' hw' :
    r_handle r ∈ handles hw -> emu_run hw EMU_OP_GETSIZE r = (r', hw') ->
    length (iobuf r') = length (iobuf r) /\ ~ fatal (r_result r') /\ handles hw' = handles hw
}.

Ltac emu_cbn :=
  cbn [emu_irq e_hw e_regs e_sem e_lock e_result wreg_offset wreg_iolen wreg_handle set_iobuf set_regs set_lock
       r_handle r_offset r_iolen r_result iobuf kassert mbind outcome_bind].

Section emu.
Context {H : Type} `{EmuCard H, !EmuLaws H}.
Implicit Types sc : emu_softc H.

(** The driver between operations. *)
Definition idle sc : Prop :=
  e_lock sc = false /\ 0 <= e_sem sc /\ Z.of_nat (length (iobuf (e_regs sc))) = EMU_MAXIO.

Lemma translate_ok code : ~ fatal code -> exists e, translate_err code = Done e /\ (e = 0 <-> code = EMU_RES_SUCCESS).
Proof.
  intros Hf. unfold translate_err. destruct (bool_decide_reflect (code = EMU_RES_SUCCESS)) as [->|Hn]; [by exists 0|].
  rewrite bool_decide_eq_false_2 by done. repeat case_bool_decide; eexists; split; done.
Qed.

(** Starting an operation and waiting for it. *)
Lemma oper_wait sc op r' hw' :
  emu_run (e_hw sc) op (e_regs sc) = (r', hw') -> 0 <= e_sem sc -> ~ fatal (r_result r') ->
  exists e, emu_waitdone (wreg_oper sc op) =
      Done (e, mkEs hw' (mkRegs (r_handle r') (r_offset r') (r_iolen r') 0 (iobuf r')) (r_result r') (e_sem sc) (e_lock sc)) /\
    (e = 0 <-> r_result r' = EMU_RES_SUCCESS).
Proof.
  intros Hr Hs Hf. unfold wreg_oper, emu_waitdone. rewrite Hr. emu_cbn. rewrite bool_decide_eq_true_2 by lia.
  destruct (translate_ok _ Hf) as (e & -> & He). emu_cbn. replace (e_sem sc + 1 - 1) with (e_sem sc) by lia. by exists e.
Qed.

(** A handle and an offset fit their registers. *)
Definition is_handle (h : Z) : Prop := 0 <= h < 4294967296.

(** One transfer. *)
Lemma emu_read_spec sc h data len u c :
  idle sc -> is_handle h -> files (e_hw sc) !! h = Some data -> 0 < len <= EMU_MAXIO -> len <= uio_resid u ->
  kwf u -> iov_len u = uio_resid u -> uio_rw u = UIO_READ ->
  exists e sc' n, emu_read sc h len u c = Done (e, sc', filled u (slice data (uio_offset u) n), c) /\
    idle sc' /\ files (e_hw sc') = files (e_hw sc) /\ 0 <= n <= len /\
    (0 < n -> uio_offset u + n <= Z.of_nat (length data)) /\
    (e ≠ 0 -> n = 0) /\ (e = 0 -> n = 0 -> Z.of_nat (length data) <= uio_offset u).
Proof.
  intros (Hl & Hsem & Hbuf) Hh Hf Hlen Hres Hw Hiov Hrw. pose proof Hw as [].
  unfold emu_read, emu_doread. rewrite bool_decide_eq_true_2 by done. cbn [kassert mbind outcome_bind].
  unfold lock_acquire. rewrite Hl. cbn [mbind outcome_bind].
  set (sc1 := wreg_offset _ _). set (r := e_regs sc1).
  destruct (emu_run (e_hw sc1) EMU_OP_READ r) as [r' hw'] eqn:Er.
  assert (r_handle r = h /\ r_offset r = uio_offset u /\ r_iolen r = len) as (R1 & R2 & R3).
  { subst r. cbn. unfold is_handle, EMU_MAXIO, INT_MAX in *. rewrite !u32_small by lia. done. }
  destruct (law_read (e_hw sc) r data r' hw') as (Hfs & Hb' & Hnf & Hok); [by rewrite R1|rewrite R3; lia|done|done|].
  rewrite R2, R3 in Hok. destruct (oper_wait sc1 EMU_OP_READ r' hw') as (e & -> & He0); [done|done|done|].
  emu_cbn. change (e_sem sc1) with (e_sem sc). change (e_lock sc1) with true.
  destruct (bool_decide_reflect (e ≠ 0)) as [Hne|Heq].
  - unfold lock_release. cbn [e_lock set_lock kassert mbind outcome_bind]. eexists e, _, 0.
    assert (slice data (uio_offset u) 0 = []) as -> by (unfold slice; apply take_0). rewrite filled_nil.
    split; [done|]. split_and!; [split_and!; done|done|lia|lia|lia|done|congruence].
  - assert (e = 0) as -> by lia. destruct Hok as (Hn & Hmax & Hz & Hoff & Hsl); [by apply He0|].
    emu_cbn. set (n := r_iolen r') in *.
    rewrite uiomove_kernel_read by (done || (unfold EMU_MAXIO in *; lia)). cbn [mbind outcome_bind].
    unfold lock_release. cbn [e_lock set_lock kassert mbind outcome_bind].
    eexists 0, _, n. rewrite Hsl. split.
    + do 3 f_equal. unfold filled. f_equal.
      assert (Hlen' : Z.of_nat (length (slice data (uio_offset u) n)) = n).
      { unfold slice. rewrite length_take, length_drop. lia. }
      rewrite Hlen', Hoff, s32_small by (unfold INT_MIN, INT_MAX in *; lia). done.
    + split_and!; [split_and!; done|done|lia|lia|lia|done|]. intros _ Hn0. apply Hz; [done|lia].
Qed.

Lemma length_slice_in (data : list Z) off n :
  0 <= off -> 0 <= n -> (0 < n -> off + n <= Z.of_nat (length data)) -> Z.of_nat (length (slice data off n)) = n.
Proof. intros. unfold slice. rewrite length_take, length_drop. lia. Qed.

Lemma emu_read_loop_spec fuel sc h data u c :
  idle sc -> is_handle h -> files (e_hw sc) !! h = Some data ->
  kwf u -> iov_len u = uio_resid u -> uio_rw u = UIO_READ -> uio_resid u < Z.of_nat fuel ->
  exists e sc' n, read_loop fuel h sc u c = Done (e, sc', filled u (slice data (uio_offset u) n), c) /\
    idle sc' /\ files (e_hw sc') = files (e_hw sc) /\ 0 <= n <= uio_resid u /\
    (0 < n -> uio_offset u + n <= Z.of_nat (length data)) /\
    (e = 0 -> n = Z.min (uio_resid u) (Z.max 0 (Z.of_nat (length data) - uio_offset u))).
Proof.
  revert sc u. induction fuel as [|fuel IH]; intros sc u Hi Hh Hf Hw Hiov Hrw Hfuel; [destruct Hw; lia|]. cbn [read_loop].
  pose proof Hw as []. destruct (bool_decide_reflect (uio_resid u > 0)) as [Hr|Hr].
  2: { exists 0, sc, 0. assert (slice data (uio_offset u) 0 = []) as -> by (unfold slice; apply take_0).
       rewrite filled_nil. split_and!; [done|apply Hi..|done|lia|lia|lia|lia]. }
  set (amt := if bool_decide (uio_resid u > EMU_MAXIO) then EMU_MAXIO else uio_resid u).
  assert (Ha : 0 < amt <= EMU_MAXIO /\ amt <= uio_resid u) by (subst amt; unfold EMU_MAXIO; case_bool_decide; lia).
  clearbody amt.
  destruct (emu_read_spec sc h data amt u c) as (e & sc1 & n & -> & Hi1 & Hf1 & Hn & Hin & Hne & Heof); try done; try lia.
  cbn [mbind outcome_bind]. destruct (bool_decide_reflect (e ≠ 0)) as [He|He].
  { rewrite Hne by done. exists e, sc1, 0. split_and!; [done|apply Hi1..|done|lia|lia|lia|lia]. }
  assert (e = 0) as -> by lia. set (d1 := slice data (uio_offset u) n).
  assert (Hl1 : Z.of_nat (length d1) = n) by (apply length_slice_in; lia || done).
  destruct (filled_props u d1) as (W1 & W2 & W3 & W4); [done|lia|done|done|].
  rewrite W4, Hl1. destruct (bool_decide_reflect (uio_resid u - n = uio_resid u)) as [Hz|Hz].
  { assert (n = 0) as -> by lia. exists 0, sc1, 0. split_and!; [done|apply Hi1..|done|lia|lia|lia|].
    intros _. pose proof (Heof eq_refl eq_refl). lia. }
  assert (Ho : uio_offset (filled u d1) = uio_offset u + n) by (cbn; lia).
  destruct (IH sc1 (filled u d1)) as (e2 & sc2 & n2 & -> & Hi2 & Hf2 & Hn2 & Hin2 & Hall); [done|done|by rewrite Hf1|done|done|done|lia|].
  rewrite Ho, W4, Hl1 in *. exists e2, sc2, (n + n2).
  assert (Hl2 : Z.of_nat (length (slice data (uio_offset u + n) n2)) = n2) by (apply length_slice_in; lia || done).
  split; [rewrite filled_app by (done || lia); subst d1; by rewrite slice_app by lia|].
  split_and!; [apply Hi2..|congruence|lia|lia|lia|]. intros E. specialize (Hall E). lia.
Qed.

(** A read returns the bytes of the file from the offset on, as many as were
    asked for or as there are, however the card splits them; if the card
    reports an error, what was read before it is a prefix of that.  The
    file is not changed and the lock is released. *)
Theorem emufs_read_refines sc h data u c :
  idle sc -> is_handle h -> files (e_hw sc) !! h = Some data ->
  kwf u -> iov_len u = uio_resid u -> uio_rw u = UIO_READ ->
  let all := Z.min (uio_resid u) (Z.max 0 (Z.of_nat (length data) - uio_offset u)) in
  exists e sc' n, emufs_read h sc u c = Done (e, sc', filled u (slice data (uio_offset u) n), c) /\
    idle sc' /\ files (e_hw sc') = files (e_hw sc) /\ 0 <= n <= all /\ (e = 0 -> n = all).
Proof.
  intros Hi Hh Hf Hw Hiov Hrw all. pose proof Hw as []. unfold emufs_read.
  rewrite bool_decide_eq_true_2 by done. cbn [kassert mbind outcome_bind].
  destruct (emu_read_loop_spec (S (Z.to_nat (uio_resid u))) sc h data u c) as (e & sc' & n & E & Hi' & Hf' & Hn & Hin & Hall);
    [done..|lia|]. exists e, sc', n. subst all. split; [done|]. split; [done|]. split; [done|]. split; [lia|done].
Qed.

(** ** Writing *)

Lemma emu_write_spec sc h data len u c :
  idle sc -> is_handle h -> files (e_hw sc) !! h = Some data -> 0 < len <= EMU_MAXIO -> len <= uio_resid u ->
  kwf u -> uio_rw u = UIO_WRITE ->
  exists e sc', emu_write sc h len u c = Done (e, sc', moved u len, c) /\ idle sc' /\
    (e = 0 -> files (e_hw sc') =
       <[h := write_at data (uio_offset u) (slice (uio_kdata u) (iov_base u) len)]> (files (e_hw sc))).
Proof.
  intros (Hl & Hsem & Hbuf) Hh Hf Hlen Hres Hw Hrw. pose proof Hw as [].
  unfold emu_write. rewrite bool_decide_eq_true_2 by done. cbn [kassert mbind outcome_bind].
  unfold lock_acquire. rewrite Hl. emu_cbn.
  rewrite uiomove_kernel_write by (done || (unfold EMU_MAXIO in *; lia)). cbn [mbind outcome_bind].
  change (bool_decide (0 ≠ 0)) with false. cbv iota.
  set (d := slice (uio_kdata u) (iov_base u) len).
  assert (Hd : Z.of_nat (length d) = len) by (apply length_slice; lia).
  set (sc1 := set_iobuf _ _). set (r := e_regs sc1).
  destruct (emu_run (e_hw sc1) EMU_OP_WRITE r) as [r' hw'] eqn:Er.
  assert (r_handle r = h /\ r_offset r = uio_offset u /\ r_iolen r = len) as (R1 & R2 & R3).
  { subst r. cbn. unfold is_handle, EMU_MAXIO, INT_MAX in *. rewrite !u32_small by lia. done. }
  assert (Hb : Z.of_nat (length (iobuf r)) = EMU_MAXIO).
  { subst r. cbn. rewrite length_splice by (unfold EMU_MAXIO in *; lia). done. }
  destruct (law_write (e_hw sc) r data r' hw') as (Hb' & Hnf & Hok); [by rewrite R1|rewrite R3; lia|done|done|].
  rewrite R1, R2, R3 in Hok. destruct (oper_wait sc1 EMU_OP_WRITE r' hw') as (e & -> & He0); [done|done|done|].
  change (e_sem sc1) with (e_sem sc). change (e_lock sc1) with true. unfold lock_release. emu_cbn.
  eexists e, _. split; [done|]. split; [split_and!; done|]. intros ->. emu_cbn. rewrite Hok by (by apply He0).
  do 2 f_equal. subst r sc1. emu_cbn. unfold slice at 1, splice. change (Z.to_nat 0) with 0%nat. rewrite drop_0, take_0.
  cbn [app]. by rewrite take_app_length' by lia.
Qed.

Lemma length_zeros' n : length (zeros n) = Z.to_nat n.
Proof. apply length_replicate. Qed.

Lemma write_at_app data off d1 d2 :
  0 <= off -> write_at (write_at data off d1) (off + Z.of_nat (length d1)) d2 = write_at data off (d1 ++ d2).
Proof.
  intros Ho. unfold write_at. set (A := take (Z.to_nat off) (data ++ zeros (off - Z.of_nat (length data)))).
  assert (HA : length A = Z.to_nat off) by (subst A; rewrite length_take, length_app, length_zeros'; lia).
  replace (Z.to_nat (off + Z.of_nat (length d1))) with (length (A ++ d1)) by (rewrite length_app, HA; lia).
  rewrite (app_assoc A d1), <- (app_assoc (A ++ d1)), take_app_length.
  rewrite drop_app_ge by lia. rewrite drop_drop, length_app, length_app, HA, <- !app_assoc. do 4 f_equal. lia.
Qed.

Lemma write_loop_spec fuel sc h data u c :
  idle sc -> is_handle h -> files (e_hw sc) !! h = Some data -> kwf u -> uio_rw u = UIO_WRITE ->
  uio_resid u < Z.of_nat fuel ->
  exists e sc' n, write_loop fuel h sc u c = Done (e, sc', moved u n, c) /\ idle sc' /\ 0 <= n <= uio_resid u /\
    (e = 0 -> n = uio_resid u /\ files (e_hw sc') =
       if decide (uio_resid u = 0) then files (e_hw sc)
       else <[h := write_at data (uio_offset u) (slice (uio_kdata u) (iov_base u) (uio_resid u))]> (files (e_hw sc))).
Proof.
  revert sc data u. induction fuel as [|fuel IH]; intros sc data u Hi Hh Hf Hw Hrw Hfuel; [destruct Hw; lia|]. cbn [write_loop].
  pose proof Hw as []. destruct (bool_decide_reflect (uio_resid u > 0)) as [Hr|Hr].
  2: { exists 0, sc, 0. split; [|split; [done|split; [lia|intros _; split; [lia|by rewrite decide_True by lia]]]].
       assert (moved u 0 = u) as -> by (rewrite <- (moved_0 u) at 2; by destruct u). done. }
  set (amt := if bool_decide (uio_resid u > EMU_MAXIO) then EMU_MAXIO else uio_resid u).
  assert (Ha : 0 < amt <= EMU_MAXIO /\ amt <= uio_resid u) by (subst amt; unfold EMU_MAXIO; case_bool_decide; lia).
  clearbody amt. destruct (emu_write_spec sc h data amt u c) as (e & sc1 & -> & Hi1 & Hf1); try done; try lia.
  cbn [mbind outcome_bind]. destruct (bool_decide_reflect (e ≠ 0)) as [He|He].
  { exists e, sc1, amt. split; [done|split; [done|split; [lia|done]]]. }
  assert (e = 0) as -> by lia. specialize (Hf1 eq_refl). cbn [uio_resid moved].
  rewrite bool_decide_eq_false_2 by lia. set (d1 := slice (uio_kdata u) (iov_base u) amt) in *.
  assert (Hl1 : Z.of_nat (length d1) = amt) by (apply length_slice; lia).
  destruct (IH sc1 (write_at data (uio_offset u) d1) (moved u amt)) as (e2 & sc2 & n2 & -> & Hi2 & Hn2 & Hall);
    [done|done|by rewrite Hf1, lookup_insert_eq|by apply kwf_moved; [|lia]|done|cbn; lia|].
  cbn [uio_resid moved uio_offset uio_kdata iov_base] in *. exists e2, sc2, (amt + n2).
  split; [by rewrite moved_moved|split; [done|split; [lia|]]]. intros E. destruct (Hall E) as [-> ->]. split; [lia|].
  rewrite (decide_False (P := uio_resid u = 0)) by lia. rewrite Hf1. case_decide as Hz.
  - replace (uio_resid u) with amt by lia. done.
  - rewrite insert_insert_eq. rewrite <- Hl1 at 1. rewrite write_at_app by lia. do 2 f_equal.
    subst d1. rewrite slice_app by lia. f_equal. lia.
Qed.

(** C23. A successful write stores the bytes at the offset, keeps the rest of the
    file, extends it as needed and changes no other file, however the driver
    splits the request; the lock is released also after an error. *)
Theorem emufs_write_refines sc h data u c :
  idle sc -> is_handle h -> files (e_hw sc) !! h = Some data -> kwf u -> uio_rw u = UIO_WRITE -> 0 < uio_resid u ->
  exists e sc' n, emufs_write h sc u c = Done (e, sc', moved u n, c) /\ idle sc' /\ 0 <= n <= uio_resid u /\
    (e = 0 -> n = uio_resid u /\ files (e_hw sc') =
       <[h := write_at data (uio_offset u) (slice (uio_kdata u) (iov_base u) (uio_resid u))]> (files (e_hw sc))).
Proof.
  intros Hi Hh Hf Hw Hrw Hr. unfold emufs_write. rewrite bool_decide_eq_true_2 by done. cbn [kassert mbind outcome_bind].
  destruct (write_loop_spec (S (Z.to_nat (uio_resid u))) sc h data u c) as (e & sc' & n & E & Hi' & Hn & Hall); [done..|lia|].
  rewrite decide_False in Hall by lia. by exists e, sc', n.
Qed.

(** ** The table of vnodes *)

Implicit Types ef : emufs H.

(** The card between operations, with the lock held or not. *)
Definition at_rest (b : bool) sc : Prop :=
  e_lock sc = b /\ 0 <= e_sem sc /\ Z.of_nat (length (iobuf (e_regs sc))) = EMU_MAXIO.

(** The table lists the vnodes in memory; each has a handle of its own, that is
    open, and a reference.  What [kmalloc] will return is not in use. *)
Record table_ok (b : bool) ef : Prop := {
  to_rest : at_rest b (ef_emu ef);
  to_nodup : NoDup (ef_vnodes ef);
  to_dom p : p ∈ ef_vnodes ef <-> is_Some (vns ef !! p);
  to_handle p v : vns ef !! p = Some v -> ev_handle v ∈ handles (e_hw (ef_emu ef)) /\ is_handle (ev_handle v) /\ 1 <= vn_refcount v;
  to_inj p q v w : vns ef !! p = Some v -> vns ef !! q = Some w -> ev_handle v = ev_handle w -> p = q;
  to_fresh p : p ∈ mem ef -> p ≠ NULL -> vns ef !! p = None;
  to_mem : NoDup (filter (fun p => p ≠ NULL) (mem ef));
  to_null : vns ef !! NULL = None
}.

Lemma wp_hw {A} (f : emu_softc H -> outcome (A * emu_softc H)) a sc (Q : A -> emufs H -> Prop) E ef :
  f (ef_emu ef) = Done (a, sc) -> Q a (set_emu ef sc) -> wp (hw f) Q E ef.
Proof. intros Hf HQ. unfold wp, hw. by rewrite Hf. Qed.

Lemma table_set_emu b ef sc :
  table_ok b ef -> at_rest b sc -> handles (e_hw sc) = handles (e_hw (ef_emu ef)) -> table_ok b (set_emu ef sc).
Proof. intros [] Hr Hh. split; cbn; try done. by rewrite Hh. Qed.

Definition with_lock ef (b : bool) : emufs H := set_emu ef (set_lock (ef_emu ef) b).

Lemma wp_acquire (Q : unit -> emufs H -> Prop) E ef :
  e_lock (ef_emu ef) = false -> Q tt (with_lock ef true) -> wp acquire Q E ef.
Proof. intros Hl HQ. eapply wp_hw; [unfold lock_acquire; rewrite Hl; done|done]. Qed.

Lemma wp_release (Q : unit -> emufs H -> Prop) E ef :
  e_lock (ef_emu ef) = true -> Q tt (with_lock ef false) -> wp release Q E ef.
Proof. intros Hl HQ. eapply wp_hw; [unfold lock_release; rewrite Hl; done|done]. Qed.

Lemma table_with_lock b b' ef : table_ok b ef -> table_ok b' (with_lock ef b').
Proof. intros [(Hl & Hs & Hb)]. by split. Qed.

Lemma to_lock b ef : table_ok b ef -> e_lock (ef_emu ef) = b.
Proof. by intros [[? _]]. Qed.

Lemma wp_get_vn p v (Q : vn -> emufs H -> Prop) E ef :
  vns ef !! p = Some v -> Q v ef -> wp (get_vn p) Q E ef.
Proof. intros Hp HQ. unfold wp, get_vn, get, mbind, M_bind. by rewrite Hp. Qed.

Lemma find_handle_spec b l h ef :
  table_ok b ef -> (forall p, p ∈ l -> is_Some (vns ef !! p)) ->
  wp (find_handle l h)
     (fun r ef' => ef' = ef /\
        match r with
        | Some p => p ∈ l /\ exists v, vns ef !! p = Some v /\ ev_handle v = h
        | None => forall p v, p ∈ l -> vns ef !! p = Some v -> ev_handle v ≠ h
        end) (fun _ _ => False) ef.
Proof.
  intros Ht. induction l as [|p l IH]; intros Hl; cbn [find_handle].
  { wp_base. split; [done|]. intros p v Hp. by apply not_elem_of_nil in Hp. }
  destruct (Hl p) as [v Hv]; [constructor|]. wp_base. apply (wp_get_vn p v); [done|]. case_bool_decide as Hh.
  - wp_base. split; [done|]. split; [constructor|eauto].
  - eapply wp_mono; [apply IH; intros q Hq; apply Hl; by constructor| |done].
    intros [q|] ef' [-> Hr]; (split; [done|]).
    + destruct Hr as [Hq ?]. split; [by constructor|done].
    + intros q w [->|Hq]%elem_of_cons Hw; [congruence|eauto].
Qed.

(** A change of the counts of a vnode. *)
Lemma table_update b ef p v w :
  table_ok b ef -> vns ef !! p = Some v -> ev_handle w = ev_handle v -> 1 <= vn_refcount w ->
  table_ok b (set_vns ef (<[p := w]> (vns ef))).
Proof.
  intros [Hr Hnd Hd Hh Hi Hf Hm Hn] Hp Hw Hc.
  assert (Hl : forall q x, <[p := w]> (vns ef) !! q = Some x -> exists y, vns ef !! q = Some y /\ ev_handle x = ev_handle y /\
            (x = y \/ x = w)).
  { intros q x. destruct (decide (q = p)) as [->|]; [rewrite lookup_insert_eq; intros [= <-]; eauto|].
    rewrite lookup_insert_ne by done. eauto. }
  split; cbn; try done.
  - intros q. rewrite Hd. destruct (decide (q = p)) as [->|]; [rewrite lookup_insert_eq, Hp; by split; eauto|].
    by rewrite lookup_insert_ne.
  - intros q x (y & Hy & He & Hxy)%Hl. rewrite He. destruct (Hh q y Hy) as (? & ? & ?). split_and!; [done|done|].
    destruct Hxy; by subst.
  - intros q q' x x' (y & Hy & He & _)%Hl (y' & Hy' & He' & _)%Hl Hxx. eapply Hi; [done|done|congruence].
  - intros q Hq Hn0. rewrite lookup_insert_ne; [auto|]. intros <-. rewrite Hf in Hp; done.
  - rewrite lookup_insert_ne; [done|]. intros ->. congruence.
Qed.

(** No reference count is at the largest [int]. *)
Definition room ef : Prop := forall p v, vns ef !! p = Some v -> vn_refcount v < INT_MAX.

Definition with_refs (v : vn) (n : Z) : vn := mkVn (ev_handle v) (vn_isdir v) n (vn_opencount v).

Lemma incref_spec b ef p v :
  table_ok b ef -> vns ef !! p = Some v -> vn_refcount v < INT_MAX ->
  wp (vnode_incref p) (fun _ ef' =>
    ef' = set_vns ef (<[p := with_refs v (vn_refcount v + 1)]> (vns ef)) /\ table_ok b ef') (fun _ _ => False) ef.
Proof.
  intros Ht Hp Hr. destruct (to_handle _ _ Ht p v Hp) as (_ & _ & Hc). unfold vnode_incref. wp_base. apply wp_massert.
  { apply bool_decide_eq_true_2. intros ->. by rewrite (to_null _ _ Ht) in Hp. }
  wp_base. apply (wp_get_vn p v); [done|]. wp_base.
  eapply wp_lift; [apply int_op_ok; unfold INT_MIN, INT_MAX in *; lia|]. unfold put_vn. wp_base. split; [done|].
  apply (table_update b ef p v); [done|done|done|]. cbn. lia.
Qed.

(** A new vnode at a fresh address, for a handle that no vnode has. *)
Definition with_vnode ef (p : ptr) (v : vn) : emufs H :=
  set_vnodes (set_vns ef (<[p := v]> (vns ef))) (ef_vnodes ef ++ [p]).

Lemma table_add b ef p v :
  table_ok b ef -> p ≠ NULL -> vns ef !! p = None -> p ∉ mem ef ->
  ev_handle v ∈ handles (e_hw (ef_emu ef)) -> is_handle (ev_handle v) -> 1 <= vn_refcount v ->
  (forall q w, vns ef !! q = Some w -> ev_handle w ≠ ev_handle v) -> table_ok b (with_vnode ef p v).
Proof.
  intros [Hr Hnd Hd Hh Hi Hf Hm Hn] Hp0 Hp Hpm Hv1 Hv2 Hv3 Hne. split; cbn; try done.
  - apply NoDup_app. split_and!; [done| |apply NoDup_singleton].
    intros q Hq ->%list_elem_of_singleton. apply Hd in Hq. rewrite Hp in Hq. by destruct Hq.
  - intros q. rewrite elem_of_app, Hd, list_elem_of_singleton. destruct (decide (q = p)) as [->|].
    + rewrite lookup_insert_eq. split; eauto.
    + rewrite lookup_insert_ne by done. tauto.
  - intros q w. destruct (decide (q = p)) as [->|]; [rewrite lookup_insert_eq; intros [= <-]; done|].
    rewrite lookup_insert_ne by done. apply Hh.
  - intros q q' w w'. destruct (decide (q = p)) as [->|], (decide (q' = p)) as [->|]; rewrite ?lookup_insert_eq, ?lookup_insert_ne by done.
    + done.
    + intros [= <-] Hw He. by destruct (Hne _ _ Hw).
    + intros Hw [= <-] He. by destruct (Hne _ _ Hw).
    + apply Hi.
  - intros q Hq Hq0. rewrite lookup_insert_ne; [auto|]. by intros <-.
  - by rewrite lookup_insert_ne.
Qed.

(** Memory was asked for, and nothing else changed. *)
Record same ef ef' : Prop := {
  sm_emu : ef_emu ef' = ef_emu ef;
  sm_vnodes : ef_vnodes ef' = ef_vnodes ef;
  sm_vns : vns ef' = vns ef;
  sm_root : ef_root ef' = ef_root ef;
  sm_mem : mem ef' `suffix_of` mem ef
}.

Lemma emu_same_refl ef : same ef ef.
Proof. done. Qed.

Lemma same_trans ef ef' ef'' : same ef ef' -> same ef' ef'' -> same ef ef''.
Proof. intros [] []. split; [congruence..|by etrans]. Qed.

Lemma table_same b ef ef' : table_ok b ef -> same ef ef' -> mem ef' = mem ef -> table_ok b ef'.
Proof. intros [] [H1 H2 H3 H4 _] Hm. split; rewrite ?H1, ?H2, ?H3, ?Hm; done. Qed.

Lemma wp_ask (Q : bool -> emufs H -> Prop) E b ef :
  table_ok b ef -> (forall ok ef', table_ok b ef' -> same ef ef' -> mem ef' = mem ef -> Q ok ef') -> wp ask Q E ef.
Proof.
  intros Ht HQ. unfold wp, ask. destruct (kmalloc_ok (ora ef)) as [ok o]. apply HQ; [|done|done]. by eapply table_same.
Qed.

Lemma wp_malloc_vn (Q : ptr -> emufs H -> Prop) E b ef :
  table_ok b ef ->
  (forall p ef', table_ok b ef' -> same ef ef' -> (p ≠ NULL -> vns ef' !! p = None /\ p ∉ mem ef' /\ p ∈ mem ef) -> Q p ef') ->
  wp malloc_vn Q E ef.
Proof.
  intros Ht HQ. unfold wp, malloc_vn. destruct (mem ef) as [|p m] eqn:Em; [by apply HQ|].
  pose proof Ht as [Hr Hnd Hd Hh Hi Hf Hm Hn]. rewrite Em in Hf, Hm. apply HQ; [|split; [done..|rewrite Em; by apply suffix_cons_r]|].
  - split; cbn; try done; [intros q Hq; apply Hf; by constructor|]. rewrite filter_cons in Hm.
    case_decide; [by apply NoDup_cons in Hm as [_ ?]|done].
  - intros Hp. cbn. split; [apply Hf; [constructor|done]|]. split; [|constructor]. rewrite filter_cons_True in Hm by done.
    apply NoDup_cons in Hm as [Hni _]. intros Hin. apply Hni. by apply list_elem_of_filter.
Qed.

(** What [emufs_loadvnode] returns: the vnode of the handle with one more
    reference. *)
Definition loaded (h : Z) (isdir : bool) ef (p : ptr) ef' : Prop :=
  exists v, vns ef' = <[p := v]> (vns ef) /\ ev_handle v = h /\
    match vns ef !! p with
    | Some v0 => ev_handle v0 = h /\ v = with_refs v0 (vn_refcount v0 + 1)
    | None => p ∈ mem ef /\ p ≠ NULL /\ v = mkVn h isdir 1 0
    end.

Lemma unlock_lock ef : table_ok false ef -> with_lock (with_lock ef true) false = ef.
Proof. intros Hl%to_lock. destruct ef as [[? ? ? ? l] ? ? ? ? ?]. cbn in Hl. by subst. Qed.

Lemma same_unlock ef ef' : table_ok false ef -> same (with_lock ef true) ef' -> same ef (with_lock ef' false).
Proof.
  intros Ht [H1 H2 H3 H4 H5]. split; try done. cbn [with_lock set_emu ef_emu]. rewrite H1.
  change (ef_emu (with_lock (with_lock ef true) false) = ef_emu ef). by rewrite unlock_lock.
Qed.

(** The vnode is made and entered into the table, or memory runs out. *)
Lemma load_new h isdir ef ef1 (Q : ptr -> emufs H -> Prop) (E : Z -> emufs H -> Prop) p :
  table_ok false ef -> table_ok true ef1 -> same (with_lock ef true) ef1 -> p ≠ NULL -> vns ef1 !! p = None -> p ∉ mem ef1 -> p ∈ mem ef ->
  h ∈ handles (e_hw (ef_emu ef)) -> is_handle h -> (forall q w, vns ef !! q = Some w -> ev_handle w ≠ h) ->
  (forall ef', table_ok false ef' -> loaded h isdir ef p ef' -> ef_emu ef' = ef_emu ef -> ef_root ef' = ef_root ef ->
     mem ef' `suffix_of` mem ef -> Q p ef') ->
  (forall ef', table_ok false ef' -> same ef ef' -> E ENOMEM ef') ->
  wp (lk ← ask; nm ← (if lk : bool then ask else mret false);
      if negb nm then _ ← release; fail ENOMEM
      else
        _ ← put_vn p (mkVn h isdir 1 0);
        added ← ask;
        if negb added then _ ← release; _ ← vnode_kill p; fail ENOMEM
        else _ ← modify (fun ef => set_vnodes ef (ef_vnodes ef ++ [p])); _ ← release; mret p) Q E ef1.
Proof.
  intros Ht Ht1 Hs1 Hp Hvp Hpm Hpin Hh Hi Hne HQ HE.
  assert (Hexit : forall ef', table_ok true ef' -> same (with_lock ef true) ef' -> wp (_ ← release; fail ENOMEM) Q E ef').
  { intros ef' Ht' Hs'. wp_base. apply wp_release; [by apply to_lock|]. wp_base.
    apply HE; [by apply (table_with_lock true)|by apply same_unlock]. }
  wp_base. apply (wp_ask _ _ true); [done|]. intros lk ef2 Ht2 Hs2 Hm2. pose proof (same_trans _ _ _ Hs1 Hs2) as Hs2'.
  wp_base. apply (wp_mono _ (fun nm ef' => table_ok true ef' /\ same ef2 ef' /\ mem ef' = mem ef2) _ (fun _ _ => False)); [|..|done].
  { destruct lk; [by apply (wp_ask _ _ true)|]. by wp_base. }
  intros nm ef3 (Ht3 & Hs3 & Hm3). pose proof (same_trans _ _ _ Hs2' Hs3) as Hs3'.
  destruct nm; cbn [negb]; [|by apply Hexit]. pose proof Hs1 as [A1 A2 A3 A4 A5]. pose proof Hs3' as [B1 B2 B3 B4 B5].
  assert (Hvp3 : vns ef3 !! p = None) by (rewrite B3, <- A3; done).
  assert (Ht4 : table_ok true (with_vnode ef3 p (mkVn h isdir 1 0))).
  { apply table_add; cbn; try done; [rewrite Hm3, Hm2; done|by rewrite B1|intros q w; rewrite B3; apply Hne]. }
  wp_base. unfold put_vn at 1. wp_base. wp_base. unfold wp at 1, ask. cbn [ora set_vns].
  destruct (kmalloc_ok (ora ef3)) as [ok o]. cbn [set_vns ef_emu ef_vnodes vns ef_root mem].
  pose proof (to_lock _ _ Ht3) as Hlk. pose proof (table_with_lock true false _ Ht3) as Ht5.
  pose proof (table_with_lock true false _ Ht4) as Ht6. pose proof (same_unlock _ _ Ht Hs3') as Hs5.
  destruct ok; cbn [negb].
  - wp_base. wp_base. wp_base. apply wp_release; [done|]. wp_base. apply HQ.
    + by eapply table_same.
    + exists (mkVn h isdir 1 0). cbn. rewrite B3. split; [done|]. split; [done|]. change (vns ef) with (vns (with_lock ef true)).
      by rewrite <- A3, Hvp.
    + apply Hs5.
    + apply Hs5.
    + apply Hs5.
  - wp_base. apply wp_release; [done|]. wp_base. unfold vnode_kill. wp_base.
    apply (wp_get_vn p (mkVn h isdir 1 0)); [apply lookup_insert_eq|].
    wp_base. apply wp_massert; [done|]. wp_base. apply wp_massert; [done|]. wp_base. wp_base.
    assert (Hdel : delete p (<[p := mkVn h isdir 1 0]> (vns ef3)) = vns ef3) by (by rewrite delete_insert_id).
    apply HE; [eapply table_same; [exact Ht5| |done]|]; (split; cbn; rewrite ?Hdel; try done; apply Hs5).
Qed.

Lemma loadvnode_spec h isdir ef :
  table_ok false ef -> room ef -> h ∈ handles (e_hw (ef_emu ef)) -> is_handle h ->
  wp (emufs_loadvnode h isdir)
     (fun p ef' => table_ok false ef' /\ loaded h isdir ef p ef' /\ ef_emu ef' = ef_emu ef /\ ef_root ef' = ef_root ef /\
        mem ef' `suffix_of` mem ef)
     (fun e ef' => e = ENOMEM /\ table_ok false ef' /\ same ef ef' /\ forall p v, vns ef !! p = Some v -> ev_handle v ≠ h) ef.
Proof.
  intros Ht Hroom Hh Hi. unfold emufs_loadvnode. wp_base. apply wp_acquire; [by apply to_lock|].
  pose proof (table_with_lock false true ef Ht) as Ht1. set (ef1 := with_lock ef true) in *.
  wp_base. wp_base. wp_base. eapply wp_mono; [apply (find_handle_spec true); [done|]| |done].
  { intros p Hp. by apply (to_dom _ _ Ht1). }
  intros [p|] ef2 [-> Hr].
  - destruct Hr as (Hp & v & Hv & Hvh). wp_base. eapply wp_mono; [apply (incref_spec true); [done|done|by apply (Hroom p)]| |done].
    intros _ ef3 [-> Ht3]. wp_base. apply wp_release; [by apply to_lock|]. wp_base.
    split_and!; [by apply (table_with_lock true false)| |exact (f_equal ef_emu (unlock_lock ef Ht))|done|done].
    eexists. split; [done|]. split; [done|]. change (vns ef1) with (vns ef) in Hv. rewrite Hv. done.
  - assert (Hne : forall q w, vns ef !! q = Some w -> ev_handle w ≠ h).
    { intros q w Hq. apply (Hr q w); [|done]. apply (to_dom _ _ Ht). by eexists. }
    wp_base. apply (wp_malloc_vn _ _ true); [done|]. intros p ef3 Ht3 Hs3 Hfresh.
    case_bool_decide as Hp.
    + wp_base. apply wp_release; [by apply to_lock|]. wp_base.
      split_and!; [done|by apply (table_with_lock true false)|apply same_unlock..|done]; done.
    + destruct (Hfresh Hp) as (? & ? & ?). by eapply (load_new h isdir ef ef3); eauto 10.
Qed.

(** ** Opening and closing *)

(** The card can fail to close an open file. *)
Definition close_fails : Prop :=
  exists hw r r' hw', r_handle r ∈ handles hw /\ emu_run hw EMU_OP_CLOSE r = (r', hw') /\ r_result r' ≠ EMU_RES_SUCCESS.

Lemma close_loop_spec n b sc h :
  at_rest b sc -> is_handle h -> h ∈ handles (e_hw sc) ->
  exists e sc', close_loop n sc h = Done (e, sc') /\ at_rest b sc' /\
    handles (e_hw sc') = (if decide (e = 0) then handles (e_hw sc) ∖ {[h]} else handles (e_hw sc)) /\
    (e ≠ 0 -> close_fails).
Proof.
  revert sc. induction n as [|n IH]; intros sc (Hl & Hs & Hb) Hi Hh; cbn [close_loop];
    set (sc1 := wreg_handle sc h); destruct (emu_run (e_hw sc1) EMU_OP_CLOSE (e_regs sc1)) as [r' hw'] eqn:Er;
    assert (R : r_handle (e_regs sc1) = h) by (by apply u32_small);
    (destruct (law_close _ _ _ _ ltac:(rewrite R; exact Hh) Er) as (Lb & Lf & Lh));
    (destruct (oper_wait sc1 EMU_OP_CLOSE r' hw' Er Hs Lf) as (e & -> & He)); cbn [mbind outcome_bind];
    set (sc2 := mkEs hw' _ _ _ _);
    assert (Hr2 : at_rest b sc2) by (split_and!; [done|done|cbn; rewrite Lb; done]);
    assert (Hh2 : handles (e_hw sc2) = if decide (e = 0) then handles (e_hw sc) ∖ {[h]} else handles (e_hw sc))
      by (cbn; rewrite Lh, R; case_bool_decide; case_decide; tauto); clear Lh;
    assert (Hcf : e ≠ 0 -> close_fails)
      by (intros Hne; exists (e_hw sc1), (e_regs sc1), r', hw'; split_and!; [by rewrite R|done|tauto]).
  - exists e, sc2. by case_bool_decide.
  - case_bool_decide as Hio; [|by exists e, sc2]. rewrite decide_False in Hh2 by (by rewrite Hio).
    destruct (IH sc2) as (e' & sc' & -> & Hr' & Hh' & Hf'); [done|done|by rewrite Hh2|]. rewrite Hh2 in Hh'. by exists e', sc'.
Qed.

Lemma emu_close_spec b sc h :
  at_rest b sc -> is_handle h -> h ∈ handles (e_hw sc) ->
  exists e sc', emu_close sc h = Done (e, sc') /\ at_rest b sc' /\
    handles (e_hw sc') = (if decide (e = 0) then handles (e_hw sc) ∖ {[h]} else handles (e_hw sc)) /\
    (e ≠ 0 -> close_fails).
Proof.
  intros Hr Hi Hh. unfold emu_close. pose proof Hr as (Hl & Hs & Hb). rewrite Hl. destruct b; cbn [negb mbind outcome_bind].
  - destruct (close_loop_spec 10 true sc h Hr Hi Hh) as (e & sc' & -> & ?). by exists e, sc'.
  - unfold lock_acquire. rewrite Hl. cbn [mbind outcome_bind].
    destruct (close_loop_spec 10 true (set_lock sc true) h) as (e & sc' & -> & (Hl' & Hs' & Hb') & Hh' & Hf'); [done|done|done|].
    cbn [mbind outcome_bind]. unfold lock_release. rewrite Hl'. emu_cbn. eexists e, _. by split; [|split].
Qed.

Lemma emu_open_spec sc dir name create excl :
  at_rest false sc -> is_handle dir -> dir ∈ handles (e_hw sc) ->
  exists e h isdir sc', emu_open sc dir name create excl = Done (e, h, isdir, sc') /\ at_rest false sc' /\
    (e = 0 -> is_handle h) /\ handles (e_hw sc') = if decide (e = 0) then {[h]} ∪ handles (e_hw sc) else handles (e_hw sc).
Proof.
  intros (Hl & Hs & Hb) Hi Hd. unfold emu_open. case_bool_decide as Hlong.
  { eexists _, _, _, sc. split; [done|]. split; [done|]. rewrite decide_False by done. done. }
  unfold lock_acquire. rewrite Hl. cbn [mbind outcome_bind].
  rewrite mem_write_ok; [|lia|rewrite length_app; cbn; lia]. cbn [mbind outcome_bind].
  set (op := if create && excl then _ else _). set (sc1 := wreg_handle _ _).
  assert (Hop : op = EMU_OP_OPEN \/ op = EMU_OP_CREATE \/ op = EMU_OP_EXCLCREATE) by (destruct create, excl; auto).
  destruct (emu_run (e_hw sc1) op (e_regs sc1)) as [r' hw'] eqn:Er.
  assert (R : r_handle (e_regs sc1) = dir) by (by apply u32_small).
  destruct (law_open _ _ _ _ _ Hop ltac:(rewrite R; exact Hd) Er) as (Lb & Lf & Li & Lh).
  destruct (oper_wait sc1 op r' hw' Er Hs Lf) as (e & -> & He). emu_cbn. change (e_lock sc1) with true.
  unfold lock_release. emu_cbn. eexists e, _, _, _. split; [done|]. refine (conj _ (conj _ _)).
  - refine (conj eq_refl (conj Hs _)). cbn. rewrite Lb. subst sc1. cbn. rewrite length_splice; [done|lia|rewrite length_app; cbn; lia].
  - intros ->. apply Li.
  - emu_cbn. rewrite Lh. clear Lh. case_decide as E0.
    + rewrite (bool_decide_eq_true_2 (r_result r' = _)) by tauto. by rewrite bool_decide_eq_true_2.
    + by rewrite bool_decide_eq_false_2 by tauto.
Qed.

(** ** Operations on the table *)

(** Removing a vnode whose handle is closed. *)
Lemma table_remove b ef p v ix sc :
  table_ok b ef -> vns ef !! p = Some v -> ef_vnodes ef !! ix = Some p -> at_rest b sc ->
  handles (e_hw sc) = handles (e_hw (ef_emu ef)) ∖ {[ev_handle v]} ->
  table_ok b (set_vns (set_vnodes (set_emu ef sc) (delete ix (ef_vnodes ef))) (delete p (vns ef))).
Proof.
  intros [Hr Hnd Hd Hh Hi Hf Hm Hn] Hp Hix Hrs Hhs.
  assert (Hl : forall q x, delete p (vns ef) !! q = Some x -> q ≠ p /\ vns ef !! q = Some x).
  { intros q x Hx. apply lookup_delete_Some in Hx as [? ?]. auto. }
  pose proof (delete_Permutation (ef_vnodes ef) ix p Hix) as HP.
  assert (Hel : forall q, q ∈ ef_vnodes ef <-> q = p \/ q ∈ delete ix (ef_vnodes ef)).
  { intros q. rewrite <- elem_of_cons. by rewrite <- HP. }
  rewrite HP in Hnd. apply NoDup_cons in Hnd as [Hni Hnd].
  split; cbn; try done.
  - intros q. transitivity (q ∈ ef_vnodes ef /\ q ≠ p).
    + rewrite Hel. split; [|tauto]. intros Hq. split; [by right|]. by intros ->.
    + rewrite Hd. destruct (decide (q = p)) as [->|Hqp].
      * rewrite lookup_delete_eq. split; [tauto|by intros [? ?]].
      * rewrite lookup_delete_ne by done. tauto.
  - intros q x [Hqp Hx]%Hl. destruct (Hh q x Hx) as (? & ? & ?). split_and!; [|done|done]. rewrite Hhs.
    apply elem_of_difference. split; [done|]. rewrite elem_of_singleton. intros He. apply Hqp. by eapply Hi.
  - intros q q' x x' [_ Hx]%Hl [_ Hx']%Hl. by apply Hi.
  - intros q Hq Hq0. rewrite lookup_delete_ne; [auto|]. intros <-. rewrite Hf in Hp; done.
  - rewrite lookup_delete_ne; [done|]. intros ->. congruence.
Qed.

Lemma reclaim_spec ef p v :
  table_ok false ef -> vns ef !! p = Some v -> (vn_refcount v = 1 -> vn_opencount v = 0) ->
  wp (emufs_reclaim p)
     (fun _ ef' => table_ok false ef' /\ vn_refcount v = 1 /\ vns ef' = delete p (vns ef) /\
        ef_root ef' = ef_root ef /\ mem ef' = mem ef)
     (fun _ ef' => table_ok false ef' /\ vns ef' = vns ef /\ ef_root ef' = ef_root ef /\ mem ef' = mem ef /\
        (vn_refcount v = 1 -> close_fails)) ef.
Proof.
  intros Ht Hp Ho. unfold emufs_reclaim. wp_base. apply wp_acquire; [by apply to_lock|].
  pose proof (table_with_lock false true ef Ht) as Ht1. set (ef1 := with_lock ef true) in *.
  wp_base. apply (wp_get_vn p v); [done|]. case_bool_decide as Hc.
  { wp_base. apply wp_release; [by apply to_lock|]. wp_base. split; [by apply (table_with_lock true false)|done]. }
  destruct (to_handle _ _ Ht1 p v Hp) as (Hh & Hi & _).
  destruct (emu_close_spec true (ef_emu ef1) (ev_handle v)) as (e & sc & E & Hr & Hhs & Hcf); [apply Ht1|done|done|].
  wp_base. eapply wp_hw; [exact E|]. case_bool_decide as He.
  { rewrite decide_False in Hhs by done. pose proof (table_set_emu _ _ _ Ht1 Hr Hhs) as Ht2.
    wp_base. apply wp_release; [apply Hr|]. wp_base. split; [by apply (table_with_lock true false)|auto]. }
  assert (e = 0) as -> by lia. rewrite decide_True in Hhs by done. wp_base. wp_base. cbn [set_emu ef_vnodes].
  destruct (list_find (fun q => q = p) (ef_vnodes ef1)) as [[ix q]|] eqn:El.
  - apply list_find_Some in El as (Hix & -> & _). pose proof (table_remove _ _ _ _ _ _ Ht1 Hp Hix Hr Hhs) as Ht2.
    wp_base. wp_base. wp_base. apply wp_release; [apply Hr|]. unfold vnode_kill. wp_base.
    apply (wp_get_vn p v); [done|]. wp_base. apply wp_massert; [by apply bool_decide_eq_true_2; lia|].
    wp_base. apply wp_massert; [apply bool_decide_eq_true_2, Ho; lia|]. wp_base.
    split; [|split; [lia|done]]. by apply (table_with_lock true false) in Ht2.
  - apply list_find_None in El. apply Forall_forall with (x := p) in El; [done|].
    apply (to_dom _ _ Ht1). by exists v.
Qed.

(** A reference is given back: the count goes down, or the vnode is
    reclaimed; if the card cannot close the file it stays. *)
Lemma decref_spec ef p v :
  table_ok false ef -> vns ef !! p = Some v -> (vn_refcount v = 1 -> vn_opencount v = 0) ->
  wp (vnode_decref p)
     (fun _ ef' => table_ok false ef' /\ ef_root ef' = ef_root ef /\ mem ef' = mem ef /\
        (if decide (vn_refcount v = 1) then vns ef' = delete p (vns ef) \/ vns ef' = vns ef /\ close_fails
         else vns ef' = <[p := with_refs v (vn_refcount v - 1)]> (vns ef)))
     (fun _ _ => False) ef.
Proof.
  intros Ht Hp Ho. unfold vnode_decref. destruct (to_handle _ _ Ht p v Hp) as (_ & _ & Hc).
  assert (Hn : p ≠ NULL) by (intros ->; by rewrite (to_null _ _ Ht) in Hp).
  wp_base. apply wp_massert; [by apply bool_decide_eq_true_2|].
  wp_base. apply (wp_get_vn p v); [done|]. wp_base. apply wp_massert; [apply bool_decide_eq_true_2; lia|].
  case_bool_decide as H1.
  - unfold put_vn. wp_base. rewrite decide_False by lia. split; [by apply (table_update false ef p v); [..|cbn; lia]|auto].
  - destruct (decide (vn_refcount v = 1)); [|lia]. wp_base. unfold vnode_check. rewrite bool_decide_eq_false_2 by done.
    wp_base. apply (wp_get_vn p v); [done|]. unfold check_counts. rewrite Ho by lia.
    rewrite bool_decide_eq_false_2, andb_false_r by lia. eapply wp_lift; [done|].
    wp_base. wp_base. eapply wp_mono; [by apply (reclaim_spec ef p v)|..].
    + intros _ ef' (? & ? & ? & ? & ?). wp_base. auto.
    + intros _ ef' (? & ? & ? & ? & Hcf). wp_base. split_and!; [done|done|done|]. right. split; [done|]. apply Hcf. lia.
Qed.

(** Looking up and creating: the vnode of the file opened, or an error, after
    which no vnode has changed. *)
Lemma open_and_load_spec ef dir v name create excl :
  table_ok false ef -> room ef -> vns ef !! dir = Some v ->
  wp (open_and_load dir name create excl)
     (fun p ef' => table_ok false ef' /\ ef_root ef' = ef_root ef /\ mem ef' `suffix_of` mem ef /\
        exists h isdir, loaded h isdir ef p ef')
     (fun _ ef' => table_ok false ef' /\ ef_root ef' = ef_root ef /\ mem ef' `suffix_of` mem ef /\ vns ef' = vns ef) ef.
Proof.
  intros Ht Hroom Hd. unfold open_and_load. destruct (to_handle _ _ Ht dir v Hd) as (Hh & Hi & _).
  wp_base. apply (wp_get_vn dir v); [done|].
  destruct (emu_open_spec (ef_emu ef) (ev_handle v) name create excl) as (e & h & isdir & sc & E & Hr & Hih & Hhs); [apply Ht|done|done|].
  wp_base. eapply wp_hw; [rewrite E; done|]. cbv beta iota. case_bool_decide as He.
  { rewrite decide_False in Hhs by done. wp_base. split; [by apply table_set_emu|done]. }
  assert (e = 0) as -> by lia. rewrite decide_True in Hhs by done. specialize (Hih eq_refl).
  assert (Ht1 : table_ok false (set_emu ef sc)).
  { pose proof Ht as []. split; cbn; try done. intros q w Hq. destruct (to_handle _ _ Ht q w Hq) as (? & ? & ?).
    rewrite Hhs. split; [by apply elem_of_union_r|done]. }
  assert (Hin : h ∈ handles (e_hw sc)) by (rewrite Hhs; apply elem_of_union_l, elem_of_singleton; done).
  wp_base. wp_base. eapply wp_mono; [by apply (loadvnode_spec h isdir)|..].
  - intros p ef' (Ht' & Hload & _ & Hroot & Hmem). wp_base. eauto 10.
  - intros e' ef' (-> & Ht' & [S1 S2 S3 S4 S5] & Hne).
    destruct (emu_close_spec false (ef_emu ef') h) as (e2 & sc2 & E2 & Hr2 & Hhs2 & _); [apply Ht'|done|by rewrite S1|].
    wp_base. eapply wp_hw; [exact E2|]. wp_base. split; [|split; [exact S4|split; [exact S5|exact S3]]]. rewrite S1 in Hhs2.
    pose proof Ht' as [Hr' Hnd' Hd' Hh' Hi' Hf' Hm' Hn']. split; cbn; try done. intros q w Hq.
    destruct (Hh' q w Hq) as (Hq1 & Hq2 & Hq3). rewrite S1 in Hq1. split; [|done]. rewrite Hhs2. case_decide; [|done].
    apply elem_of_difference. split; [done|]. rewrite elem_of_singleton. apply (Hne q). by rewrite <- S3.
Qed.

(** ** Any sequence of operations *)

Inductive fsop : Type :=
  | OpLookup (dir : ptr) (pathname : list Z)
  | OpCreat (dir : ptr) (name : list Z) (excl : bool)
  | OpLookparent (dir : ptr) (pathname : list Z) (len : Z)
  | OpGetroot
  | OpIncref (p : ptr)
  | OpDecref (p : ptr).

(** The vnode an operation returns. *)
Definition run_op (o : fsop) : M (emufs H) (option ptr) :=
  match o with
  | OpLookup dir path => p ← emufs_lookup dir path; mret (Some p)
  | OpCreat dir name excl => p ← emufs_creat dir name excl; mret (Some p)
  | OpLookparent dir path len => r ← emufs_lookparent dir path len; mret (Some (fst r))
  | OpGetroot => p ← emufs_getroot; mret (Some p)
  | OpIncref p => _ ← vnode_incref p; mret None
  | OpDecref p => _ ← vnode_decref p; mret None
  end.

(** The caller has a reference to the vnode it names; the last one is given
    back when the vnode is no longer open.  (The counts are [int]s: no more
    than [INT_MAX] references to a vnode are taken.) *)
Definition allowed (o : fsop) ef : Prop :=
  match o with
  | OpLookup p _ | OpCreat p _ _ | OpLookparent p _ _ => is_Some (vns ef !! p) /\ room ef
  | OpIncref p => exists v, vns ef !! p = Some v /\ vn_refcount v < INT_MAX
  | OpGetroot => exists v, vns ef !! ef_root ef = Some v /\ vn_refcount v < INT_MAX
  | OpDecref p => exists v, vns ef !! p = Some v /\ (vn_refcount v = 1 -> vn_opencount v = 0)
  end.

Lemma run_op_spec o ef :
  table_ok false ef -> allowed o ef ->
  wp (run_op o)
     (fun r ef' => table_ok false ef' /\ ef_root ef' = ef_root ef /\ (forall p, r = Some p -> p ∈ ef_vnodes ef'))
     (fun _ ef' => table_ok false ef' /\ ef_root ef' = ef_root ef /\ vns ef' = vns ef) ef.
Proof.
  intros Ht Ha.
  assert (Hl : forall h isdir p ef', table_ok false ef' -> loaded h isdir ef p ef' -> p ∈ ef_vnodes ef').
  { intros h isdir p ef' Ht' (v & Hv & _). apply (to_dom _ _ Ht'). rewrite Hv, lookup_insert_eq. by exists v. }
  assert (Hi : forall p v, vns ef !! p = Some v -> vn_refcount v < INT_MAX -> wp (vnode_incref p)
            (fun _ ef' => table_ok false ef' /\ ef_root ef' = ef_root ef /\ p ∈ ef_vnodes ef') (fun _ _ => False) ef).
  { intros p v Hv Hr. eapply wp_mono; [by apply (incref_spec false ef p v)| |done]. intros _ ef' [-> Ht']. split; [done|]. split; [done|].
    apply (to_dom _ _ Ht). by exists v. }
  assert (Hopen : forall dir name create excl, is_Some (vns ef !! dir) -> room ef -> wp (open_and_load dir name create excl)
            (fun p ef' => table_ok false ef' /\ ef_root ef' = ef_root ef /\ p ∈ ef_vnodes ef')
            (fun _ ef' => table_ok false ef' /\ ef_root ef' = ef_root ef /\ vns ef' = vns ef) ef).
  { intros dir name create excl [v Hv] Hroom. eapply wp_mono; [by apply (open_and_load_spec ef dir v)|..].
    - intros p ef' (Ht' & Hroot & _ & h & isdir & Hld). eauto 10.
    - intros e ef' (? & ? & _ & ?). done. }
  destruct o as [dir path|dir name excl|dir path len| |p|p]; cbn [run_op allowed] in *.
  - destruct Ha. wp_base. eapply wp_mono; [by apply Hopen|..]; [|done]. intros p ef' (? & ? & ?). wp_base. split_and!; [done|done|by intros ? [= <-]].
  - destruct Ha. wp_base. eapply wp_mono; [by apply Hopen|..]; [|done]. intros p ef' (? & ? & ?). wp_base. split_and!; [done|done|by intros ? [= <-]].
  - destruct Ha as [Ha Hroom]. wp_base. unfold emufs_lookparent. destruct (split_last path) as [[d name]|]; case_bool_decide.
    + by wp_base.
    + wp_base. eapply wp_mono; [by apply Hopen|..]; [|done]. intros p ef' (? & ? & ?). do 2 wp_base. split_and!; [done|done|by intros ? [= <-]].
    + by wp_base.
    + destruct Ha as [v Hv]. wp_base. eapply wp_mono; [by eapply Hi; eauto|..]; [|done]. intros _ ef' (? & ? & ?). do 2 wp_base.
      split_and!; [done|done|by intros ? [= <-]].
  - destruct Ha as (v & Hv & Hr). wp_base. unfold emufs_getroot. wp_base. wp_base. wp_base. apply wp_massert.
    { apply bool_decide_eq_true_2. intros E. rewrite E, (to_null _ _ Ht) in Hv. done. }
    wp_base. eapply wp_mono; [by eapply Hi|..]; [|done]. intros _ ef' (? & ? & ?). do 2 wp_base.
    split_and!; [done|done|by intros ? [= <-]].
  - destruct Ha as (v & Hv & Hr). wp_base. eapply wp_mono; [by eapply Hi|..]; [|done]. intros _ ef' (? & ? & ?). by wp_base.
  - destruct Ha as (v & Hv & Ho). wp_base. eapply wp_mono; [by apply (decref_spec ef p v)|..]; [|done].
    intros _ ef' (? & ? & _). by wp_base.
Qed.

(** One operation, successful or not. *)
Definition fs_step ef ef' : Prop := exists o r, allowed o ef /\ run_op o ef = Done (r, ef').

(** The file system when it is added to the VFS layer: the card is idle and has
    its root handle open. *)
Definition fresh ef : Prop :=
  at_rest false (ef_emu ef) /\ vns ef = ∅ /\ EMU_ROOTHANDLE ∈ handles (e_hw (ef_emu ef)) /\
  NoDup (filter (fun p => p ≠ NULL) (mem ef)).

Lemma addtovfs_spec ef :
  fresh ef ->
  wp (emufs_addtovfs 0)
     (fun _ ef' => table_ok false ef' /\ mem ef' `suffix_of` mem ef /\
        exists h, ef_root ef' ∈ mem ef /\ vns ef' = {[ef_root ef' := mkVn h true 1 0]})
     (fun e ef' => e = ENOMEM /\ fresh ef' /\ mem ef' `suffix_of` mem ef) ef.
Proof.
  intros (Hr & Hv & Hh & Hm). unfold emufs_addtovfs.
  assert (Hask : forall (f : bool -> M (emufs H) unit) Q E ef0, (forall ok o, wp (f ok) Q E (mkEf (ef_emu ef0) (ef_vnodes ef0) (vns ef0) (ef_root ef0) (mem ef0) o)) ->
            wp (ask ≫= f) Q E ef0).
  { intros f Q E ef0 Hf. wp_base. unfold wp at 1, ask. destruct (kmalloc_ok (ora ef0)). apply Hf. }
  apply Hask. intros [] o; cbn [negb]; [|by wp_base]. wp_base. wp_base. apply Hask. intros [] o'; cbn [negb]; [|by wp_base].
  set (ef1 := mkEf _ _ _ _ _ _).
  assert (Ht1 : table_ok false ef1).
  { split; cbn; rewrite ?Hv; try done; [constructor|]. intros p. rewrite lookup_empty. split; [intros Hp; by apply not_elem_of_nil in Hp|by intros [? ?]]. }
  assert (Hroom : room ef1) by (intros p v Hp; cbn in Hp; by rewrite Hv, lookup_empty in Hp).
  wp_base. eapply wp_mono; [apply (loadvnode_spec EMU_ROOTHANDLE true ef1); [done|done|done|unfold is_handle, EMU_ROOTHANDLE; lia]|..].
  - intros p ef2 (Ht2 & (v & Hvs & _ & Hnew) & _ & _ & Hmem). assert (Hv1 : vns ef1 = ∅) by exact Hv.
    rewrite Hv1 in Hvs, Hnew. rewrite lookup_empty in Hnew. destruct Hnew as (Hpm & Hp0 & ->).
    wp_base. wp_base. wp_base. apply wp_massert; [by apply bool_decide_eq_true_2|].
    change (bool_decide (0 ≠ 0)) with false. cbv iota. wp_base. split; [destruct Ht2; by split|]. split; [done|].
    exists EMU_ROOTHANDLE. split; [done|]. cbn. by rewrite Hvs.
  - intros e ef' (-> & Ht' & [S1 S2 S3 S4 S5] & _). split; [done|]. split; [|done].
    split_and!; [by rewrite S1|by rewrite S3|by rewrite S1|apply Ht'].
Qed.

Lemma steps_ok ef ef' : rtc fs_step ef ef' -> table_ok false ef -> table_ok false ef'.
Proof.
  induction 1 as [|ef ef1 ef2 (o & r & Ho & E) _ IH]; [done|]. intros Ht. apply IH.
  pose proof (run_op_spec o ef Ht Ho) as Hw. unfold wp in Hw. rewrite E in Hw. by destruct r; destruct Hw.
Qed.

(** C24. From mounting on, over any sequence of lookups, creations and changes of
    the counts, failing ones included and whatever the card and [kmalloc]
    answer, as long as the reference counts stay below the largest [int]: no
    operation panics or leaves the lock held, every vnode in memory
    is in the table once and has a reference and an open handle, no two have
    the same handle, and what an operation returns is in the table. *)
Theorem emufs_table ef0 ef1 ef o :
  fresh ef0 -> emufs_addtovfs 0 ef0 = Done (inr tt, ef1) -> rtc fs_step ef1 ef -> allowed o ef ->
  table_ok false ef /\
  exists r ef', run_op o ef = Done (r, ef') /\ table_ok false ef' /\
    (forall p, r = inr (Some p) -> p ∈ ef_vnodes ef') /\ (forall e, r = inl e -> vns ef' = vns ef).
Proof.
  intros Hf Ha Hs Ho. pose proof (addtovfs_spec ef0 Hf) as Hw. unfold wp in Hw. rewrite Ha in Hw. destruct Hw as [Ht1 _].
  pose proof (steps_ok _ _ Hs Ht1) as Ht.
  split; [done|]. destruct (wp_done _ _ _ _ (run_op_spec o ef Ht Ho)) as ([e|a] & ef' & E & Hr).
  - destruct Hr as (? & ? & ?). exists (inl e), ef'. split_and!; [done|done|done|by intros ? [= <-]].
  - destruct Hr as (? & ? & Hp). exists (inr a), ef'. split_and!; [done|done| |done]. intros p [= ->]. by apply Hp.
Qed.
End emu.

End EmuTheorems.
