(* ===== verification/EmuExample.v ===== *)
(** * The emulator file system: a card

    A card with one plain file that can be opened, as a witness that the
    documented behaviour [EmuLaws] can hold, and the theorems of the driver
    applied to it. *)

From S2P Require Import Prelude UserMem Uio Libc Printf Emu EmuTheorems.

Module EmuExample.
Import Uio Emu EmuTheorems.

Record toy : Type := mkToy { t_files : gmap Z (list Z); t_handles : gset Z }.

Definition refuse (r : regs) (code : Z) : regs := mkRegs 0 (r_offset r) (r_iolen r) code (iobuf r).

(** Every name opens the file with handle 1; a read gives all there is. *)
Definition toy_run (hw : toy) (op : Z) (r : regs) : regs * toy :=
  match t_files hw !! r_handle r with
  | Some data =>
      if bool_decide (op = EMU_OP_READ) then
        if bool_decide (r_offset r < 0) then (refuse r EMU_RES_MEDIA, hw)
        else
          let n := Z.min (r_iolen r) (Z.max 0 (Z.of_nat (length data) - r_offset r)) in
          (mkRegs (r_handle r) (r_offset r + n) n EMU_RES_SUCCESS
                  (slice data (r_offset r) n ++ drop (Z.to_nat n) (iobuf r)), hw)
      else if bool_decide (op = EMU_OP_WRITE) then
        (mkRegs (r_handle r) (r_offset r) (r_iolen r) EMU_RES_SUCCESS (iobuf r),
         mkToy (<[r_handle r := write_at data (r_offset r) (slice (iobuf r) 0 (r_iolen r))]> (t_files hw)) (t_handles hw))
      else if bool_decide (op = EMU_OP_CLOSE) then
        (refuse r EMU_RES_SUCCESS, mkToy (delete (r_handle r) (t_files hw)) (t_handles hw ∖ {[r_handle r]}))
      else (refuse r EMU_RES_NOTDIR, hw)
  | None =>
      if bool_decide (op = EMU_OP_OPEN \/ op = EMU_OP_CREATE \/ op = EMU_OP_EXCLCREATE) then
        (mkRegs 1 0 0 EMU_RES_SUCCESS (iobuf r),
         mkToy (<[1 := default [] (t_files hw !! 1)]> (t_files hw)) ({[1]} ∪ t_handles hw))
      else (refuse r EMU_RES_ISDIR, hw)
  end.

#[export] Instance toy_card : EmuCard toy := {| emu_run := toy_run; files := t_files; handles := t_handles |}.

Lemma not_fatal code : code ∉ [EMU_RES_BADHANDLE; EMU_RES_BADOP; EMU_RES_BADSIZE] -> ~ fatal code.
Proof. intros Hc [->|[->| ->]]; apply Hc; set_solver. Qed.
Ltac harmless := apply not_fatal; unfold EMU_RES_BADHANDLE, EMU_RES_BADOP, EMU_RES_BADSIZE; set_solver.

#[export] Instance toy_laws : EmuLaws toy.
Proof.
  split; cbn [emu_run files handles toy_card]; unfold toy_run.
  - intros hw r data r' hw' Hf Hl Hb. rewrite Hf. rewrite bool_decide_eq_true_2 by done.
    case_bool_decide as Hneg; intros [= <- <-]; [split_and!; [done|done|harmless|done]|].
    cbn [r_iolen r_offset iobuf r_result refuse]. set (n := Z.min _ _).
    assert (Hs : length (slice data (r_offset r) n) = Z.to_nat n).
    { unfold slice. rewrite length_take, length_drop. lia. }
    split_and!; [done|rewrite length_app, Hs, length_drop; lia|harmless|]. intros _.
    split_and!; [lia|lia|lia|lia|done|]. unfold slice at 1. rewrite drop_0, <- Hs, take_app_length. done.
  - intros hw r data r' hw' Hf Hl Hb. rewrite Hf. rewrite bool_decide_eq_false_2 by done. rewrite bool_decide_eq_true_2 by done.
    intros [= <- <-]. split_and!; [done|harmless|done].
  - intros hw op r r' hw' Hop _. destruct (t_files hw !! r_handle r) as [data|].
    + rewrite !bool_decide_eq_false_2 by (destruct Hop as [->|[->| ->]]; done). intros [= <- <-].
      split_and!; [done|harmless|done|done|done].
    + rewrite bool_decide_eq_true_2 by done. intros [= <- <-]. split_and!; [done|harmless|done|done|done].
  - intros hw r r' hw' _. destruct (t_files hw !! r_handle r) as [data|].
    + rewrite (bool_decide_eq_false_2 (EMU_OP_CLOSE = EMU_OP_READ)), (bool_decide_eq_false_2 (EMU_OP_CLOSE = EMU_OP_WRITE)),
        (bool_decide_eq_true_2 (EMU_OP_CLOSE = EMU_OP_CLOSE)) by done.
      intros [= <- <-]. split_and!; [done|harmless|done].
    + rewrite bool_decide_eq_false_2 by (intros [?|[?|?]]; done). intros [= <- <-]. split_and!; [done|harmless|done].
  - intros hw r r' hw' _. destruct (t_files hw !! r_handle r) as [data|].
    + rewrite !bool_decide_eq_false_2 by done. intros [= <- <-]. split_and!; [done|harmless|done].
    + rewrite bool_decide_eq_false_2 by (intros [?|[?|?]]; done). intros [= <- <-]. split_and!; [done|harmless|done].
Qed.

Definition toy_sc : emu_softc toy :=
  mkEs (mkToy {[1 := [10; 20; 30; 40]]} {[0; 1]}) (mkRegs 0 0 0 0 (zeros EMU_MAXIO)) 0 0 false.
Definition toy_ctx : ctx := mkCtx (UserMem.mkU ∅ false) 0.

Lemma toy_idle : idle toy_sc.
Proof. split_and!; [done|done|]. apply length_zeros. done. Qed.

Lemma emufs_read_refines_witness :
  exists e sc' n, emufs_read 1 toy_sc (mk_kuio (zeros 8) 8 1 UIO_READ) toy_ctx =
      Done (e, sc', filled (mk_kuio (zeros 8) 8 1 UIO_READ) (slice [10; 20; 30; 40] 1 n), toy_ctx) /\ (e = 0 -> n = 3).
Proof.
  destruct (emufs_read_refines toy_sc 1 [10; 20; 30; 40] (mk_kuio (zeros 8) 8 1 UIO_READ) toy_ctx) as (e & sc' & n & E & _ & _ & _ & Hn);
    [apply toy_idle|unfold is_handle; lia|reflexivity|split; cbn; unfold INT_MAX; (lia || done)|reflexivity|reflexivity|].
  exists e, sc', n. exact (conj E Hn).
Defined.

Lemma emufs_write_refines_witness :
  exists e sc' n, emufs_write 1 toy_sc (mk_kuio [7; 8] 2 5 UIO_WRITE) toy_ctx =
      Done (e, sc', moved (mk_kuio [7; 8] 2 5 UIO_WRITE) n, toy_ctx) /\
    (e = 0 -> n = 2 /\ files (e_hw sc') = {[1 := [10; 20; 30; 40; 0; 7; 8]]}).
Proof.
  destruct (emufs_write_refines toy_sc 1 [10; 20; 30; 40] (mk_kuio [7; 8] 2 5 UIO_WRITE) toy_ctx) as (e & sc' & n & E & _ & _ & Hn);
    [apply toy_idle|unfold is_handle; lia|reflexivity|split; cbn; unfold INT_MAX; (lia || done)|reflexivity|cbn; lia|].
  exists e, sc', n. refine (conj E _). intros He. destruct (Hn He) as [-> Hf]. refine (conj eq_refl _).
  rewrite Hf. vm_compute. reflexivity.
Defined.

(** The file system before and after it is mounted, and after a lookup. *)
Definition toy_ef0 : emufs toy := mkEf toy_sc [] ∅ NULL [4096; 4128; 4160] (replicate 16 true).
Definition after {A} (m : M (emufs toy) A) (ef : emufs toy) : emufs toy :=
  match m ef with Done (_, ef') => ef' | _ => ef end.
Definition toy_ef1 : emufs toy := after (emufs_addtovfs 0) toy_ef0.
Definition toy_ef2 : emufs toy := after (run_op (OpLookup 4096 [97])) toy_ef1.

Lemma toy_fresh : fresh toy_ef0.
Proof.
  split_and!; [exact toy_idle|done|cbn; set_solver|]. cbn. repeat constructor; set_solver.
Qed.

Lemma toy_room : room toy_ef1.
Proof.
  assert (Hv : vns toy_ef1 = {[4096 := mkVn 0 true 1 0]}) by (vm_compute; reflexivity).
  intros p v. rewrite Hv. intros [_ <-]%lookup_singleton_Some. done.
Qed.

Lemma emufs_table_witness :
  exists r ef', run_op (OpDecref 4128) toy_ef2 = Done (r, ef') /\ table_ok false ef' /\ ef_vnodes toy_ef2 = [4096; 4128].
Proof.
  destruct (emufs_table toy_ef0 toy_ef1 toy_ef2 (OpDecref 4128)) as (_ & r & ef' & E & Ht & _).
  - apply toy_fresh.
  - vm_compute. reflexivity.
  - apply rtc_once. exists (OpLookup 4096 [97]), (inr (Some 4128)).
    split; [split; [vm_compute; eexists; reflexivity|exact toy_room]|vm_compute; reflexivity].
  - exists (mkVn 1 false 1 0). split; [vm_compute; reflexivity|done].
  - exists r, ef'. refine (conj E (conj Ht _)). vm_compute. reflexivity.
Defined.

End EmuExample.
