(* ===== verification/EmuLayer.v ===== *)
(** * The kernel's vnodes under the VFS layer

    The contract [VnodeLaws] of [VfsSpec] is kept by the kernel's own code: the
    vnodes of devices ([fs/vfs/device.c]), those of the emulator file system
    ([dev/lamebus/emu.c]) and the counts of [fs/vfs/vnode.c].  [layer] puts
    their states together, the instance [kernel_layer] is the dispatch through
    [vn_ops] with the checks of [vnode_check].  EmuLayerTheorems.v proves the
    contract of it, and what sequences of VFS calls do to the reference counts.

    The card and the drivers' [d_open] and [d_close] are parameters, with the
    documented behaviour of the card as laws.  SFS vnodes are not in this
    layer. *)

From S2P Require Import Prelude UserMem Uio Vfs VfsSpec VfsOps VfsCalls VfsTheorems Device Libc Printf Emu EmuTheorems.

Module EmuLayer.
Import Uio Vfs VfsSpec VfsTheorems Device Emu.

(** Truncating an open file. *)
Class EmuTruncates (H : Type) `{EmuCard H} : Prop := {
  law_trunc hw r r' hw' :
    r_handle r ∈ handles hw -> emu_run hw EMU_OP_TRUNC r = (r', hw') ->
    length (iobuf r') = length (iobuf r) /\ ~ EmuTheorems.fatal (r_result r') /\ handles hw' = handles hw
}.

(** ** State *)

Section layer.
Context {D : Type} `{DV : Device D} {H : Type} `{EC : EmuCard H}.

(** The devices by the address of their [struct device], the device vnodes in
    memory, what the calls of [kmalloc] for device vnodes to come return, and
    whether there is memory for each allocation of their locks; the emulator
    file system, the address of its [struct fs] (NULL before it is set up) and
    the one it gets; and what the calls of [uiomove] to come return. *)
Record layer : Type := mkL {
  l_devs : ptr -> D;
  l_dvs : gmap ptr (dev_vnode (D := ptr));
  l_dmem : list ptr;
  l_locks : nat -> bool;
  l_ef : emufs H;
  l_fs : ptr;
  l_newfs : ptr;
  l_moves : list Z
}.
Implicit Types t : layer.

Abbreviation LM := (M layer).

Definition set_devs t x := mkL x (l_dvs t) (l_dmem t) (l_locks t) (l_ef t) (l_fs t) (l_newfs t) (l_moves t).
Definition set_dvs t x := mkL (l_devs t) x (l_dmem t) (l_locks t) (l_ef t) (l_fs t) (l_newfs t) (l_moves t).
Definition set_ef t x := mkL (l_devs t) (l_dvs t) (l_dmem t) (l_locks t) x (l_fs t) (l_newfs t) (l_moves t).
Definition set_moves t x := mkL (l_devs t) (l_dvs t) (l_dmem t) (l_locks t) (l_ef t) (l_fs t) (l_newfs t) x.

(** Run an operation of the emulator file system, or one of a device. *)
Definition on_emu {A} (m : M (emufs H) A) : LM A := fun t =>
  '(r, ef) ← m (l_ef t); Done (r, set_ef t ef).

Definition on_dev {A} (dev : ptr) (m : M D A) : LM A := fun t =>
  '(r, d) ← m (l_devs t dev); Done (r, set_devs t (fun q => if bool_decide (q = dev) then d else l_devs t q)).

Definition put_dv (v : ptr) (dv : dev_vnode) : LM unit := modify (fun t => set_dvs t (<[v := dv]> (l_dvs t))).

(** ** Dispatch *)

(** Where [vn_ops] of a vnode leads; an address that is no vnode is a wild
    pointer. *)
Definition vn_case {A} (v : ptr) (fd : dev_vnode -> LM A) (fe : vn -> LM A) : LM A := fun t =>
  match l_dvs t !! v with
  | Some dv => fd dv t
  | None => match vns (l_ef t) !! v with Some x => fe x t | None => Stuck end
  end.

(** [__VOP]: the check, then the operation. *)
Definition VOP {A} (v : ptr) (fd : dev_vnode -> LM A) (fe : vn -> LM A) : LM A :=
  if bool_decide (v = NULL) then panic
  else vn_case v
    (fun dv => _ ← lift (check_counts (dv_refcount dv) (dv_opencount dv) false); fd dv)
    (fun x => _ ← lift (check_counts (vn_refcount x) (vn_opencount x) false); fe x).

(** The entry of the table of operations of an emufs vnode. *)
Definition emu_op {A} (o : Emu.vop) (x : vn) (k : LM A) : LM A :=
  match (if vn_isdir x then emufs_dirops o else emufs_fileops o) with
  | Some e => fail e
  | None => k
  end.

(** [vnode_incref], [vnode_decref], [vnode_incopen] and [vnode_decopen] on a
    device vnode. *)
Definition dv_incref (v : ptr) (dv : dev_vnode) : LM unit :=
  n ← lift (int_op (dv_refcount dv + 1));
  put_dv v (mkDv n (dv_opencount dv) (dv_fs dv) (dv_data dv)).

Definition dv_decref (v : ptr) (dv : dev_vnode) : LM unit :=
  _ ← massert (bool_decide (dv_refcount dv > 0));
  if bool_decide (dv_refcount dv > 1) then
    put_dv v (mkDv (dv_refcount dv - 1) (dv_opencount dv) (dv_fs dv) (dv_data dv))
  else
    _ ← lift (check_counts (dv_refcount dv) (dv_opencount dv) true);
    on_dev (dv_data dv) dev_reclaim.

Definition dv_incopen (v : ptr) (dv : dev_vnode) : LM unit :=
  n ← lift (int_op (dv_opencount dv + 1));
  put_dv v (mkDv (dv_refcount dv) n (dv_fs dv) (dv_data dv)).

(** The error of [dev_close], if any, is only printed. *)
Definition dv_decopen (v : ptr) (dv : dev_vnode) : LM unit :=
  _ ← massert (bool_decide (dv_opencount dv > 0));
  _ ← put_dv v (mkDv (dv_refcount dv) (dv_opencount dv - 1) (dv_fs dv) (dv_data dv));
  if bool_decide (dv_opencount dv - 1 > 0) then mret tt
  else
    _ ← lift (check_counts (dv_refcount dv) (dv_opencount dv - 1) false);
    _ ← try (on_dev (dv_data dv) dev_close);
    mret tt.

(** An operation on a file system: there is only the emulator's. *)
Definition fs_case {A} (f : ptr) (k : LM A) : LM A := fun t =>
  if bool_decide (f = l_fs t) && bool_decide (f ≠ NULL) then k t else Stuck.

(** [kmalloc] in [dev_create_vnode] returns the next address of [l_dmem]. *)
Definition create_vnode (dev : ptr) : LM ptr := fun t =>
  let '(p, m) := match l_dmem t with [] => (NULL, []) | p :: m => (p, m) end in
  '(r, _) ← Device.dev_create_vnode dev [bool_decide (p ≠ NULL); l_locks t 0%nat; l_locks t 1%nat];
  match r with
  | None => Done (inr NULL, mkL (l_devs t) (l_dvs t) m (l_locks t) (l_ef t) (l_fs t) (l_newfs t) (l_moves t))
  | Some dv => Done (inr p, mkL (l_devs t) (<[p := dv]> (l_dvs t)) m (fun i => l_locks t (2 + i)%nat)
                                (l_ef t) (l_fs t) (l_newfs t) (l_moves t))
  end.

Definition next_move : LM unit := fun t =>
  match l_moves t with
  | [] => Done (inr tt, t)
  | e :: m => check e (set_moves t m)
  end.

#[export] Instance kernel_layer : vnode_layer layer := {|
  VOP_INCREF v := vn_case v (dv_incref v) (fun _ => on_emu (vnode_incref v));
  VOP_DECREF v := vn_case v (dv_decref v) (fun _ => on_emu (vnode_decref v));
  VOP_INCOPEN v := vn_case v (dv_incopen v) (fun _ => on_emu (vnode_incopen v));
  VOP_DECOPEN v := vn_case v (dv_decopen v) (fun _ => on_emu (vnode_decopen v));
  VOP_OPEN v fl := VOP v (fun dv => on_dev (dv_data dv) (dev_open fl))
    (fun x => emu_op VOpen x (check (if vn_isdir x then emufs_opendir fl else emufs_open fl)));
  VOP_GETTYPE v := VOP v (fun dv => on_dev (dv_data dv) dev_gettype)
    (fun x => emu_op VGettype x (mret (if vn_isdir x then emufs_dir_gettype else emufs_file_gettype)));
  VOP_TRUNCATE v len := VOP v (fun dv => on_dev (dv_data dv) (dev_truncate len))
    (fun x => emu_op VTruncate x (r ← on_emu (hw (fun sc => emufs_truncate (ev_handle x) sc len)); check r));
  VOP_READLINK v := VOP v (fun _ => fail EINVAL) (fun x => emu_op VReadlink x (lift Stuck));
  VOP_NAMEFILE v := VOP v (fun _ => mret tt) (fun x => emu_op VNamefile x (on_emu (emufs_namefile v)));
  VOP_CREAT v name excl := VOP v (fun dv => on_dev (dv_data dv) (null_creat name excl))
    (fun x => emu_op VCreat x (on_emu (emufs_creat v name excl)));
  VOP_SYMLINK v name contents := VOP v (fun dv => on_dev (dv_data dv) (null_symlink contents name))
    (fun x => emu_op VSymlink x (lift Stuck));
  VOP_MKDIR v name := VOP v (fun dv => on_dev (dv_data dv) (null_nameop name)) (fun x => emu_op VMkdir x (lift Stuck));
  VOP_LINK v name w := VOP v (fun dv => on_dev (dv_data dv) (null_link name w)) (fun x => emu_op VLink x (lift Stuck));
  VOP_REMOVE v name := VOP v (fun dv => on_dev (dv_data dv) (null_nameop name)) (fun x => emu_op VRemove x (lift Stuck));
  VOP_RMDIR v name := VOP v (fun dv => on_dev (dv_data dv) (null_nameop name)) (fun x => emu_op VRmdir x (lift Stuck));
  VOP_RENAME v name w name' := VOP v (fun dv => on_dev (dv_data dv) (null_rename name w name'))
    (fun x => emu_op VRename x (lift Stuck));
  VOP_LOOKUP v path := VOP v (fun dv => dev_lookup v (dv_incref v dv) path)
    (fun x => emu_op VLookup x (on_emu (emufs_lookup v path)));
  VOP_LOOKPARENT v path len := VOP v (fun dv => on_dev (dv_data dv) (dev_lookparent path))
    (fun x => emu_op VLookparent x (on_emu (emufs_lookparent v path len)));
  FSOP_SYNC f := fs_case f (check emufs_sync);
  FSOP_GETVOLNAME f t := None;
  FSOP_GETROOT f := fs_case f (on_emu emufs_getroot);
  FSOP_UNMOUNT f := fs_case f (check emufs_unmount);
  vn_fs v t :=
    match l_dvs t !! v with
    | Some dv => dv_fs dv
    | None => match vns (l_ef t) !! v with Some _ => l_fs t | None => NULL end
    end;
  Vfs.dev_create_vnode := create_vnode;
  kfree_vnode v := modify (fun t => set_dvs t (delete v (l_dvs t)));
  uiomove_out _ := next_move
|}.

(** What [emufs_addtovfs] does before it calls [vfs_addfs]; there is one card. *)
Definition emu_attach (dev : ptr) : LM ptr := fun t =>
  if bool_decide (l_fs t ≠ NULL) then Done (inl ENXIO, t)
  else
    '(r, ef) ← emufs_addtovfs 0 (l_ef t);
    match r with
    | inl e => Done (inl e, set_ef t ef)
    | inr _ => Done (inr (l_newfs t),
        mkL (l_devs t) (l_dvs t) (l_dmem t) (l_locks t) ef (l_newfs t) (l_newfs t) (l_moves t))
    end.
End layer.

Arguments layer D H : clear implicits.

End EmuLayer.
