(* ===== verification/EmuLayerTheorems.v ===== *)
(** * The kernel's vnodes keep the contract of the VFS layer

    [kernel_laws] proves [VnodeLaws] of the layer in [EmuLayer]: what each
    operation of [device.c], [emu.c] and [vnode.c] does to the reference and
    open counts.  [vfs_calls_balanced] is the resulting theorem about sequences
    of VFS calls. *)

From S2P Require Import Prelude UserMem Uio Vfs VfsSpec VfsOps VfsCalls VfsTheorems Device BlockDev Lhd Libc Printf Emu EmuTheorems EmuExample EmuLayer.

Module EmuLayerTheorems.
Import Uio Device Emu EmuTheorems Vfs VfsSpec VfsTheorems EmuLayer.

(** ** What is counted *)

Section obs.
Context {D : Type} `{DV : Device D} {H : Type} `{EC : EmuCard H, !EmuLaws H}.
Implicit Types (t : layer D H) (ef : emufs H).

(** The file system's own reference to its root is not one of a client. *)
Definition own_ref ef (v : ptr) : Z := if bool_decide (v = ef_root ef) then 1 else 0.
Definition erc ef (v : ptr) : Z := match vns ef !! v with Some x => vn_refcount x - own_ref ef v | None => 0 end.
Definition eoc ef (v : ptr) : Z := match vns ef !! v with Some x => vn_opencount x | None => 0 end.

(** Device vnodes and emufs vnodes have different addresses, also those to
    come; an allocation of a lock can fail at most when [X] holds; the file
    system is not set up yet, or its table is in order and its root loaded. *)
Record lay_ok (X : Prop) t : Prop := {
  lo_dv v dv : l_dvs t !! v = Some dv ->
    1 <= dv_refcount dv /\ 0 <= dv_opencount dv /\ dv_fs dv = NULL /\ v ≠ NULL /\
    vns (l_ef t) !! v = None /\ v ∉ mem (l_ef t);
  lo_dmem p : p ∈ l_dmem t -> p ≠ NULL -> l_dvs t !! p = None /\ vns (l_ef t) !! p = None /\ p ∉ mem (l_ef t);
  lo_nodup : NoDup (filter (fun p => p ≠ NULL) (l_dmem t));
  lo_locks i : l_locks t i = false -> X;
  lo_newfs : l_newfs t ≠ NULL;
  lo_open v x : vns (l_ef t) !! v = Some x -> 0 <= vn_opencount x;
  lo_ef : l_fs t = NULL /\ fresh (l_ef t) \/
          l_fs t ≠ NULL /\ table_ok false (l_ef t) /\ is_Some (vns (l_ef t) !! ef_root (l_ef t))
}.

Definition kernel_obs (X : Prop) : vnode_obs (layer D H) := {|
  refcount t v := match l_dvs t !! v with Some dv => dv_refcount dv | None => erc (l_ef t) v end;
  opencount t v := match l_dvs t !! v with Some dv => dv_opencount dv | None => eoc (l_ef t) v end;
  vl_ok := lay_ok X;
  mounted t f := f ≠ NULL /\ f = l_fs t
|}.
End obs.
#[global] Typeclasses Opaque own_ref.

Section laws.
Context {D : Type} `{DV : Device D, !DeviceReturns D} {H : Type} `{EC : EmuCard H, !EmuLaws H, !EmuTruncates H}.
Context (X : Prop).
Implicit Types (t : layer D H) (ef : emufs H).
#[local] Instance obs : vnode_obs (layer D H) := kernel_obs X.
Abbreviation F := (close_fails (H := H)).

(** ** Steps of the emulator file system *)

Lemma emu_attached t v x : lay_ok X t -> vns (l_ef t) !! v = Some x ->
  l_fs t ≠ NULL /\ table_ok false (l_ef t) /\ is_Some (vns (l_ef t) !! ef_root (l_ef t)).
Proof. intros Hok Hv. destruct (lo_ef _ _ Hok) as [(_ & _ & He & _)|?]; [by rewrite He in Hv|done]. Qed.

Lemma emu_no_dv t v x : lay_ok X t -> vns (l_ef t) !! v = Some x -> l_dvs t !! v = None.
Proof.
  intros Hok Hv. destruct (l_dvs t !! v) as [dv|] eqn:Hd; [|done].
  apply (lo_dv _ _ Hok) in Hd as (_ & _ & _ & _ & Hn & _). congruence.
Qed.

Lemma suffix_elem (l k : list ptr) x : l `suffix_of` k -> x ∈ l -> x ∈ k.
Proof. intros [m ->] Hx. apply elem_of_app. by right. Qed.

(** The file system after an operation: vnodes may have come from free memory
    and the counts are in order. *)
Record estep t ef : Prop := {
  es_table : table_ok false ef;
  es_root : ef_root ef = ef_root (l_ef t);
  es_loaded : is_Some (vns ef !! ef_root ef);
  es_mem : mem ef `suffix_of` mem (l_ef t);
  es_vns v x : vns ef !! v = Some x -> 0 <= vn_opencount x /\ (is_Some (vns (l_ef t) !! v) \/ v ∈ mem (l_ef t))
}.

Lemma estep_frame t ef : lay_ok X t -> l_fs t ≠ NULL -> estep t ef -> frame t (set_ef t ef).
Proof.
  intros Hok Hfs [Ht Hroot Hl Hm Hv].
  assert (Hnone : forall p, vns (l_ef t) !! p = None -> p ∉ mem (l_ef t) -> vns ef !! p = None).
  { intros p H1 H2. destruct (vns ef !! p) as [x|] eqn:Hx; [|done]. destruct (Hv _ _ Hx) as (_ & [[y Hy]|?]); [congruence|done]. }
  split; [split; cbn|..].
  - intros v dv Hd. destruct (lo_dv _ _ Hok _ _ Hd) as (? & ? & ? & ? & ? & Hn). split_and!; auto.
    intros Hin. by apply Hn, (suffix_elem (mem ef)).
  - intros p Hp Hp0. destruct (lo_dmem _ _ Hok p Hp Hp0) as (? & ? & Hn). split_and!; auto.
    intros Hin. by apply Hn, (suffix_elem (mem ef)).
  - apply (lo_nodup _ _ Hok).
  - apply (lo_locks _ _ Hok).
  - apply (lo_newfs _ _ Hok).
  - intros v x Hx. by apply (Hv v x).
  - by right.
  - intros v H1 H2. cbn in *. destruct (l_dvs t !! v); [done|]. unfold erc in *.
    destruct (vns (l_ef t) !! v); [|lia]. destruct (vns ef !! v); [done|lia].
  - done.
Qed.

Lemma rc_emu t v x : l_dvs t !! v = None -> vns (l_ef t) !! v = Some x ->
  refcount t v = vn_refcount x - own_ref (l_ef t) v /\ opencount t v = vn_opencount x.
Proof. intros Hd Hx. cbn. rewrite Hd. unfold erc, eoc. by rewrite Hx. Qed.

(** One vnode is changed. *)
Lemma estep_put t ef v x x' :
  lay_ok X t -> table_ok false ef -> ef_root ef = ef_root (l_ef t) -> mem ef = mem (l_ef t) ->
  vns (l_ef t) !! v = Some x -> vns ef = <[v := x']> (vns (l_ef t)) -> 0 <= vn_opencount x' ->
  frame t (set_ef t ef) /\
  counts t (set_ef t ef) (fun y => (vn_refcount x' - vn_refcount x) * one v y) (fun y => (vn_opencount x' - vn_opencount x) * one v y).
Proof.
  intros Hok Ht Hroot Hm Hx Hv Ho. destruct (emu_attached t v x Hok Hx) as (Hfs & _ & [y Hy]). split.
  - apply estep_frame; [done|done|]. split; [done|done| |by rewrite Hm|].
    + rewrite Hroot, Hv. destruct (decide (v = ef_root (l_ef t))) as [->|]; [by rewrite lookup_insert_eq|]. rewrite lookup_insert_ne by done. by exists y.
    + intros w z. rewrite Hv. intros [[<- <-]|[Hne Hz]]%lookup_insert_Some; [eauto|]. split; [by apply (lo_open _ _ Hok w)|eauto].
  - pose proof (emu_no_dv t v x Hok Hx) as Hd. intros w. cbn. destruct (l_dvs t !! w) eqn:Hw.
    + rewrite one_other by congruence. lia.
    + unfold erc, eoc, own_ref. rewrite Hv, Hroot. destruct (decide (w = v)) as [->|Hne].
      * rewrite lookup_insert_eq, Hx, one_same. lia.
      * rewrite lookup_insert_ne, one_other by done. lia.
Qed.

(** Nothing changes but the card and the memory. *)
Lemma estep_same t ef :
  lay_ok X t -> l_fs t ≠ NULL -> table_ok false ef -> ef_root ef = ef_root (l_ef t) -> mem ef `suffix_of` mem (l_ef t) ->
  vns ef = vns (l_ef t) -> same False t (set_ef t ef).
Proof.
  intros Hok Hfs Ht Hroot Hm Hv. split.
  - apply estep_frame; [done|done|]. split; [done|done| |done|].
    + destruct (lo_ef _ _ Hok) as [[? _]|(_ & _ & ?)]; [done|]. by rewrite Hroot, Hv.
    + intros w z Hz. rewrite Hv in Hz. split; [by apply (lo_open _ _ Hok w)|eauto].
  - apply counts_settled. intros w. cbn. unfold erc, eoc, own_ref. rewrite Hv, Hroot. destruct (l_dvs t !! w); lia.
Qed.

(** A vnode is found in the table or comes into memory. *)
Lemma estep_loaded t ef h isdir p :
  lay_ok X t -> l_fs t ≠ NULL -> table_ok false ef -> ef_root ef = ef_root (l_ef t) -> mem ef `suffix_of` mem (l_ef t) ->
  loaded h isdir (l_ef t) p ef -> p ≠ NULL /\ vn_fs p (set_ef t ef) = l_fs t /\ gains False p t (set_ef t ef).
Proof.
  intros Hok Hfs Ht Hroot Hm (x' & Hv & _ & Hp).
  assert (Hx' : vns ef !! p = Some x') by (by rewrite Hv, lookup_insert_eq).
  assert (Hp0 : p ≠ NULL) by (intros ->; by rewrite (to_null _ _ Ht) in Hx').
  assert (Hroot' : is_Some (vns (l_ef t) !! ef_root (l_ef t))) by (destruct (lo_ef _ _ Hok) as [[? _]|(_ & _ & ?)]; done).
  assert (Hd : l_dvs t !! p = None).
  { destruct (l_dvs t !! p) as [dv|] eqn:Hd; [|done]. apply (lo_dv _ _ Hok) in Hd as (_ & _ & _ & _ & Hn & Hn').
    rewrite Hn in Hp. by destruct Hp. }
  split; [done|]. split; [cbn; by rewrite Hd, Hx'|]. split.
  - apply estep_frame; [done|done|]. split; [done|done| |done|].
    + rewrite Hroot, Hv. destruct (decide (p = ef_root (l_ef t))) as [->|]; [by rewrite lookup_insert_eq|by rewrite lookup_insert_ne].
    + intros w z. rewrite Hv. intros [[<- <-]|[Hne Hz]]%lookup_insert_Some.
      * destruct (vns (l_ef t) !! p) as [x|] eqn:Hx; [destruct Hp as [_ ->]|destruct Hp as (? & _ & ->); split; [done|by right]].
        split; [by apply (lo_open _ _ Hok p x)|eauto].
      * split; [by apply (lo_open _ _ Hok w)|eauto].
  - apply counts_settled. intros w. cbn. destruct (l_dvs t !! w) eqn:Hw.
    + rewrite one_other by congruence. lia.
    + unfold erc, eoc, own_ref. rewrite Hv, Hroot. destruct (decide (w = p)) as [->|Hne].
      * rewrite lookup_insert_eq, one_same. destruct (vns (l_ef t) !! p) as [x|] eqn:Hx.
        -- destruct Hp as [_ ->]. cbn. lia.
        -- destruct Hp as (_ & _ & ->). cbn. rewrite bool_decide_eq_false_2; [lia|]. intros ->. rewrite Hx in Hroot'. by destruct Hroot'.
      * rewrite lookup_insert_ne, one_other by done. lia.
Qed.

(** A vnode other than the root is given up. *)
Lemma estep_delete t ef v x :
  lay_ok X t -> table_ok false ef -> ef_root ef = ef_root (l_ef t) -> mem ef = mem (l_ef t) ->
  vns (l_ef t) !! v = Some x -> v ≠ ef_root (l_ef t) -> vns ef = delete v (vns (l_ef t)) ->
  frame t (set_ef t ef) /\
  counts t (set_ef t ef) (fun y => - vn_refcount x * one v y) (fun y => - vn_opencount x * one v y).
Proof.
  intros Hok Ht Hroot Hm Hx Hne Hv. destruct (emu_attached t v x Hok Hx) as (Hfs & _ & [y Hy]). split.
  - apply estep_frame; [done|done|]. split; [done|done| |by rewrite Hm|].
    + rewrite Hroot, Hv, lookup_delete_ne by done. by exists y.
    + intros w z. rewrite Hv. intros [_ Hz]%lookup_delete_Some. split; [by apply (lo_open _ _ Hok w)|eauto].
  - pose proof (emu_no_dv t v x Hok Hx) as Hd. intros w. cbn. destruct (l_dvs t !! w) eqn:Hw.
    + rewrite one_other by congruence. lia.
    + unfold erc, eoc, own_ref. rewrite Hv, Hroot. destruct (decide (w = v)) as [->|Hwv].
      * rewrite lookup_delete_eq, Hx, one_same, bool_decide_eq_false_2 by done. lia.
      * rewrite lookup_delete_ne, one_other by done. lia.
Qed.

(** ** Steps of the device vnodes *)

Lemma dv_put t v dv dv' :
  lay_ok X t -> l_dvs t !! v = Some dv -> dv_fs dv' = dv_fs dv -> 1 <= dv_refcount dv' -> 0 <= dv_opencount dv' ->
  frame t (set_dvs t (<[v := dv']> (l_dvs t))) /\
  counts t (set_dvs t (<[v := dv']> (l_dvs t)))
    (fun y => (dv_refcount dv' - dv_refcount dv) * one v y) (fun y => (dv_opencount dv' - dv_opencount dv) * one v y).
Proof.
  intros Hok Hv Hf Hr Ho. split; [split; [split; cbn|..]|].
  - intros w dw. intros [[<- <-]|[_ Hw]]%lookup_insert_Some; [|by apply (lo_dv _ _ Hok)].
    destruct (lo_dv _ _ Hok _ _ Hv) as (_ & _ & ? & ?). rewrite Hf. done.
  - intros p Hp Hp0. destruct (lo_dmem _ _ Hok p Hp Hp0) as (Hn & ? & ?). split; [|done].
    rewrite lookup_insert_ne; [done|]. intros ->. congruence.
  - apply (lo_nodup _ _ Hok).
  - apply (lo_locks _ _ Hok).
  - apply (lo_newfs _ _ Hok).
  - apply (lo_open _ _ Hok).
  - apply (lo_ef _ _ Hok).
  - intros w _ _. cbn. destruct (decide (w = v)) as [->|Hne]; [by rewrite lookup_insert_eq, Hv|by rewrite lookup_insert_ne].
  - done.
  - intros w. cbn. destruct (decide (w = v)) as [->|Hne].
    + rewrite lookup_insert_eq, Hv, one_same. lia.
    + rewrite lookup_insert_ne, one_other by done. lia.
Qed.

(** A device changes its state. *)
Lemma devs_frame t devs : lay_ok X t -> same False t (set_devs t devs).
Proof.
  intros Hok. split; [split; [destruct Hok; by split|done|done]|]. apply counts_settled. intros w. cbn. destruct (l_dvs t !! w); lia.
Qed.

Lemma lay_same_refl t : lay_ok X t -> same False t t.
Proof. intros Hok. split; [by split|]. apply counts_settled. intros x. lia. Qed.

Lemma same_ef t : lay_ok X t -> same False t (set_ef t (l_ef t)).
Proof. intros Hok. replace (set_ef t (l_ef t)) with t by by destruct t. by apply lay_same_refl. Qed.

(** ** Rules *)

Lemma wpp_case {A} t v (fd : dev_vnode -> M (layer D H) A) fe (Q : A -> layer D H -> Prop) E :
  lay_ok X t -> 0 < refcount t v ->
  (forall dv, l_dvs t !! v = Some dv -> refcount t v = dv_refcount dv -> opencount t v = dv_opencount dv ->
     vn_fs v t = NULL -> wpp X (fd dv) Q E t) ->
  (forall x, l_dvs t !! v = None -> vns (l_ef t) !! v = Some x -> l_fs t ≠ NULL -> vn_fs v t = l_fs t ->
     wpp X (fe x) Q E t) -> wpp X (vn_case v fd fe) Q E t.
Proof.
  intros Hok Hv Hd He. unfold wpp, vn_case. cbn in *. destruct (l_dvs t !! v) as [dv|] eqn:Edv.
  - apply Hd; [done|done|done|]. apply (lo_dv _ _ Hok v dv Edv).
  - unfold erc in Hv. destruct (vns (l_ef t) !! v) as [x|] eqn:Ex; [|lia]. apply He; [done|done| |done].
    by destruct (emu_attached t v x Hok Ex).
Qed.

(** [vnode_check] passes on a vnode in use. *)
Lemma wpp_VOP {A} t v (fd : dev_vnode -> M (layer D H) A) fe (Q : A -> layer D H -> Prop) E :
  lay_ok X t -> 0 < refcount t v ->
  (forall dv, l_dvs t !! v = Some dv -> vn_fs v t = NULL -> wpp X (fd dv) Q E t) ->
  (forall x, l_dvs t !! v = None -> vns (l_ef t) !! v = Some x -> l_fs t ≠ NULL -> vn_fs v t = l_fs t ->
     wpp X (fe x) Q E t) -> wpp X (VOP v fd fe) Q E t.
Proof.
  intros Hok Hv Hd He. unfold VOP.
  assert (Hchk : forall rc oc, 1 <= rc -> 0 <= oc -> check_counts rc oc false = Done tt).
  { intros rc oc H1 H2. unfold check_counts. rewrite !bool_decide_eq_false_2 by lia. done. }
  destruct (bool_decide_reflect (v = NULL)) as [->|Hn].
  { cbn in Hv. destruct (l_dvs t !! NULL) as [dv|] eqn:Edv; [by apply (lo_dv _ _ Hok) in Edv as (_ & _ & _ & [] & _)|].
    unfold erc in Hv. destruct (vns (l_ef t) !! NULL) as [x|] eqn:Ex; [|lia].
    destruct (emu_attached t _ _ Hok Ex) as (_ & Ht & _). by rewrite (to_null _ _ Ht) in Ex. }
  apply wpp_case; [done|done|..].
  - intros dv Edv _ _ Hfs. destruct (lo_dv _ _ Hok _ _ Edv) as (? & ? & _).
    wpp_base. eapply wpp_lift; [by apply Hchk|]. by apply Hd.
  - intros x Edv Ex Hfs0 Hfs. destruct (emu_attached t _ _ Hok Ex) as (_ & Ht & _). destruct (to_handle _ _ Ht _ _ Ex) as (_ & _ & ?).
    wpp_base. eapply wpp_lift; [apply Hchk; [done|exact (lo_open _ _ Hok v x Ex)]|]. by apply He.
Qed.

Lemma wpp_on_emu {A} (m : M (emufs H) A) t (Q : A -> layer D H -> Prop) E :
  wp m (fun a ef => Q a (set_ef t ef)) (fun e ef => E e (set_ef t ef)) (l_ef t) -> wpp X (on_emu m) Q E t.
Proof. unfold wp, wpp, on_emu. by destruct (m (l_ef t)) as [[[e|a] ef]| |]. Qed.

Lemma wpp_on_dev {A} dev (m : M D A) t (Q : A -> layer D H -> Prop) E :
  (exists r d, m (l_devs t dev) = Done (r, d)) -> lay_ok X t ->
  (forall r d t', m (l_devs t dev) = Done (r, d) -> same False t t' -> match r with inr a => Q a t' | inl e => E e t' end) ->
  wpp X (on_dev dev m) Q E t.
Proof.
  intros (r & d & Hm) Hok HQ. unfold wpp, on_dev. rewrite Hm. cbn [mbind outcome_bind].
  specialize (HQ r d _ Hm (devs_frame t (fun q => if bool_decide (q = dev) then d else l_devs t q) Hok)). by destruct r.
Qed.

(** An operation of the table that is not there. *)
Lemma wpp_emu_none {A} o x (k : M (layer D H) A) t (Q : A -> layer D H -> Prop) :
  lay_ok X t -> ((if vn_isdir x then emufs_dirops o else emufs_fileops o) = None -> wpp X k Q (fun _ => same F t) t) ->
  wpp X (emu_op o x k) Q (fun _ => same F t) t.
Proof.
  intros Hok Hk. unfold emu_op. destruct (if vn_isdir x then _ else _) as [e|]; [|by apply Hk].
  apply wp_wpp, wp_fail. by apply same_mono, lay_same_refl.
Qed.

(** Operations that are errors on devices and on emufs vnodes of both kinds. *)
Lemma wpp_refused {A} t v (m : M D A) o (Q : A -> layer D H -> Prop) e :
  lay_ok X t -> 0 < refcount t v -> (forall d, m d = Done (inl e, d)) ->
  emufs_dirops o ≠ None -> emufs_fileops o ≠ None ->
  wpp X (VOP v (fun dv => on_dev (dv_data dv) m) (fun x => emu_op o x (lift Stuck))) Q (fun _ => same F t) t.
Proof.
  intros Hok Hv Hm H1 H2. apply wpp_VOP; [done|done|..].
  - intros dv _ _. apply wpp_on_dev; [rewrite Hm; eauto|done|]. intros r d t' Hr Hs. rewrite Hm in Hr. injection Hr as <- <-.
    by apply same_mono.
  - intros x _ _ _ _. apply wpp_emu_none; [done|]. by destruct (vn_isdir x).
Qed.

(** ** References *)

Lemma dv_more t v dv (Q : unit -> layer D H -> Prop) E :
  lay_ok X t -> room t -> l_dvs t !! v = Some dv ->
  (forall t', gains False v t t' -> vn_fs v t' = NULL -> Q tt t') -> wpp X (dv_incref v dv) Q E t.
Proof.
  intros Hok Hroom Hv HQ. destruct (lo_dv _ _ Hok _ _ Hv) as (Hr & Ho & Hf & _). specialize (Hroom v). cbn in Hroom. rewrite Hv in Hroom.
  unfold dv_incref. wpp_base. eapply wpp_lift; [apply int_op_ok; unfold INT_MIN, INT_MAX in *; lia|]. unfold put_dv. wpp_base.
  destruct (dv_put t v dv (mkDv (dv_refcount dv + 1) (dv_opencount dv) (dv_fs dv) (dv_data dv)) Hok Hv) as [Hfr Hc]; [done|cbn; lia|done|].
  apply HQ; [split; [done|]|cbn; by rewrite lookup_insert_eq].
  eapply counts_settled, counts_ext; [exact Hc|intros y; cbn [dv_refcount]; lia|intros y; cbn [dv_opencount]; lia].
Qed.

Lemma emu_more t v x (Q : unit -> emufs H -> Prop) (E : Z -> emufs H -> Prop) :
  lay_ok X t -> room t -> l_dvs t !! v = None -> vns (l_ef t) !! v = Some x ->
  (forall ef, gains False v t (set_ef t ef) -> vn_fs v (set_ef t ef) = l_fs t -> Q tt ef) -> wp (vnode_incref v) Q E (l_ef t).
Proof.
  intros Hok Hroom Hd Hx HQ. destruct (emu_attached t v x Hok Hx) as (_ & Ht & _).
  destruct (rc_emu t v x Hd Hx) as [Hrc _]. specialize (Hroom v) as [Hroom _]. rewrite Hrc in Hroom. unfold own_ref in Hroom.
  eapply wp_mono; [apply (incref_spec false (l_ef t) v x); [done|done|case_bool_decide; lia]| |done].
  intros [] ef' [-> Ht'].
  destruct (estep_put t _ v x (with_refs x (vn_refcount x + 1)) Hok Ht') as [Hfr Hc];
    [done|done|done|done|exact (lo_open _ _ Hok v x Hx)|].
  apply HQ; [split; [done|]|cbn; by rewrite Hd, lookup_insert_eq].
  eapply counts_settled, counts_ext; [exact Hc|intros y; cbn [with_refs vn_refcount]; lia|intros y; cbn [with_refs vn_opencount]; lia].
Qed.

Lemma kernel_incref t v :
  lay_ok X t -> room t -> 0 < refcount t v -> wpp X (VOP_INCREF v) (fun _ => gains False v t) (fun _ _ => False) t.
Proof.
  intros Hok Hroom Hv. apply wpp_case; [done|done|..].
  - intros dv Hd _ _ _. by apply dv_more.
  - intros x Hd Hx _ _. apply wpp_on_emu. by eapply emu_more.
Qed.

Lemma drops_counts v t t' : frame t t' -> counts t t' (fun y => - one v y) (fun _ => 0) -> drops F v t t'.
Proof. intros Hf Hc. split; [done|]. intros y. destruct (Hc y) as [-> ->]. split; [lia|left; lia]. Qed.

Lemma kernel_decref t v :
  lay_ok X t -> 0 < refcount t v -> (refcount t v = 1 -> opencount t v = 0) -> (vn_fs v t = NULL -> 1 < refcount t v) ->
  wpp X (VOP_DECREF v) (fun _ => drops F v t) (fun _ _ => False) t.
Proof.
  intros Hok Hv Ho Hdev. apply wpp_case; [done|done|..].
  - intros dv Hd Hr _ Hfs. specialize (Hdev Hfs). rewrite Hr in Hdev. destruct (lo_dv _ _ Hok _ _ Hd) as (_ & ? & _).
    unfold dv_decref. wpp_base. apply wpp_massert; [intros _|intros Hb; apply bool_decide_eq_false in Hb; lia].
    rewrite bool_decide_eq_true_2 by lia. unfold put_dv. wpp_base.
    destruct (dv_put t v dv (mkDv (dv_refcount dv - 1) (dv_opencount dv) (dv_fs dv) (dv_data dv)) Hok Hd) as [Hfr Hc]; [done|cbn; lia|done|].
    apply drops_counts; [done|]. eapply counts_ext; [exact Hc|intros y; cbn [dv_refcount]; lia|intros y; cbn [dv_opencount]; lia].
  - intros x Hd Hx Hfs _. destruct (emu_attached t v x Hok Hx) as (_ & Ht & _).
    destruct (rc_emu t v x Hd Hx) as [Hrc Hoc]. rewrite Hrc, Hoc in Ho. rewrite Hrc in Hv. unfold own_ref in Hv, Ho.
    destruct (to_handle _ _ Ht v x Hx) as (_ & _ & Hpos).
    apply wpp_on_emu. eapply wp_mono; [apply (decref_spec (l_ef t) v x); [done|done|]| |done].
    { intros H1. apply Ho. case_bool_decide; lia. }
    intros [] ef (Ht' & Hroot & Hm & Hcase). destruct (decide (vn_refcount x = 1)) as [H1|H1].
    + assert (Hne : v ≠ ef_root (l_ef t)) by (intros Heq; rewrite bool_decide_eq_true_2 in Hv by done; lia).
      rewrite bool_decide_eq_false_2 in Ho by done. destruct Hcase as [Hdel|[Hsame HF]].
      * destruct (estep_delete t ef v x Hok Ht' Hroot Hm Hx Hne Hdel) as [Hfr Hc]. apply drops_counts; [done|].
        eapply counts_ext; [exact Hc|intros y; cbn beta; rewrite H1; lia|intros y; cbn beta; rewrite Ho by lia; lia].
      * destruct (estep_same t ef Hok Hfs Ht' Hroot) as [Hfr Hc]; [by rewrite Hm|done|]. split; [done|]. intros y.
        destruct (Hc y) as [Hoy [Hry|[[] _]]]. split; [done|]. destruct (decide (y = v)) as [->|Hy].
        -- right. unfold own_ref in Hrc. rewrite bool_decide_eq_false_2 in Hrc by done. split_and!; [done|done|lia|lia].
        -- left. rewrite one_other by done. lia.
    + destruct (estep_put t ef v x (with_refs x (vn_refcount x - 1)) Hok Ht' Hroot Hm Hx Hcase) as [Hfr Hc];
        [exact (lo_open _ _ Hok v x Hx)|].
      apply drops_counts; [done|].
      eapply counts_ext; [exact Hc|intros y; cbn [with_refs vn_refcount]; lia|intros y; cbn [with_refs vn_opencount]; lia].
Qed.

(** ** Open counts *)

Lemma emu_live t v x : lay_ok X t -> vns (l_ef t) !! v = Some x -> table_ok false (l_ef t) /\ v ≠ NULL /\ 1 <= vn_refcount x.
Proof.
  intros Hok Hx. destruct (emu_attached t v x Hok Hx) as (_ & Ht & _). destruct (to_handle _ _ Ht v x Hx) as (_ & _ & ?).
  split_and!; [done| |done]. intros ->. by rewrite (to_null _ _ Ht) in Hx.
Qed.

Lemma kernel_incopen t v :
  lay_ok X t -> room t -> 0 < refcount t v ->
  wpp X (VOP_INCOPEN v) (fun _ t' => frame t t' /\ counts t t' (fun _ => 0) (one v)) (fun _ _ => False) t.
Proof.
  intros Hok Hroom Hv. specialize (Hroom v) as [_ Hroom]. apply wpp_case; [done|done|..].
  - intros dv Hd Hr Ho _. rewrite Ho in Hroom. destruct (lo_dv _ _ Hok _ _ Hd) as (? & ? & _).
    unfold dv_incopen. wpp_base. eapply wpp_lift; [apply int_op_ok; unfold INT_MIN, INT_MAX in *; lia|]. unfold put_dv. wpp_base.
    destruct (dv_put t v dv (mkDv (dv_refcount dv) (dv_opencount dv + 1) (dv_fs dv) (dv_data dv)) Hok Hd) as [Hfr Hc]; [done|cbn; lia|cbn; lia|].
    split; [done|]. eapply counts_ext; [exact Hc|intros y; cbn [dv_refcount]; lia|intros y; cbn [dv_opencount]; lia].
  - intros x Hd Hx Hfs _. destruct (emu_live t v x Hok Hx) as (Ht & Hn & Hpos). destruct (rc_emu t v x Hd Hx) as [_ Hoc].
    rewrite Hoc in Hroom. pose proof (lo_open _ _ Hok v x Hx) as Ho.
    apply wpp_on_emu. unfold vnode_incopen. wp_base. apply wp_massert; [by apply bool_decide_eq_true_2|].
    wp_base. apply (wp_get_vn v x); [done|]. wp_base. eapply wp_lift; [apply int_op_ok; unfold INT_MIN, INT_MAX in *; lia|].
    unfold put_vn. wp_base. set (x' := mkVn _ _ _ _).
    destruct (estep_put t (set_vns (l_ef t) (<[v := x']> (vns (l_ef t)))) v x x' Hok) as [Hfr Hc];
      [by apply (table_update false (l_ef t) v x)|done|done|done|done|cbn; lia|].
    split; [done|]. eapply counts_ext; [exact Hc|intros y; cbn [x' vn_refcount]; lia|intros y; cbn [x' vn_opencount]; lia].
Qed.

Lemma kernel_decopen t v :
  lay_ok X t -> 0 < refcount t v -> 0 < opencount t v ->
  wpp X (VOP_DECOPEN v) (fun _ t' => frame t t' /\ counts t t' (fun _ => 0) (fun y => - one v y)) (fun _ _ => False) t.
Proof.
  intros Hok Hv Hop. apply wpp_case; [done|done|..].
  - intros dv Hd Hr Ho _. rewrite Ho in Hop. destruct (lo_dv _ _ Hok _ _ Hd) as (? & ? & _).
    unfold dv_decopen. wpp_base. apply wpp_massert; [intros _|intros Hb; apply bool_decide_eq_false in Hb; lia]. unfold put_dv. wpp_base. wpp_base.
    destruct (dv_put t v dv (mkDv (dv_refcount dv) (dv_opencount dv - 1) (dv_fs dv) (dv_data dv)) Hok Hd) as [Hfr Hc]; [done|cbn; lia|cbn; lia|].
    assert (Hpost : frame t (set_dvs t (<[v := mkDv (dv_refcount dv) (dv_opencount dv - 1) (dv_fs dv) (dv_data dv)]> (l_dvs t))) /\
      counts t (set_dvs t (<[v := mkDv (dv_refcount dv) (dv_opencount dv - 1) (dv_fs dv) (dv_data dv)]> (l_dvs t))) (fun _ => 0) (fun y => - one v y)).
    { split; [done|]. eapply counts_ext; [exact Hc|intros y; cbn [dv_refcount]; lia|intros y; cbn [dv_opencount]; lia]. }
    case_bool_decide; [by wpp_base|]. wpp_base. eapply wpp_lift.
    { unfold check_counts. rewrite !bool_decide_eq_false_2 by lia. done. }
    wpp_base. apply wpp_try. apply wpp_on_dev; [apply close_returns|apply Hfr|]. intros r d t' _ [Hfr' Hs'].
    assert (frame t t' /\ counts t t' (fun _ => 0) (fun y => - one v y)); [|by destruct r; wpp_base].
    destruct Hpost as [[? Hk ?] Hc1]. destruct Hfr' as [? Hk' ?]. split; [split; [done| |auto]|].
    + intros y Hy1 Hy2. destruct (Hc1 y) as [Hy _]. rewrite Hk', Hk; [done|done|lia|lia|done].
    + intros y. destruct (Hc1 y) as [Hr1 Ho1], (Hs' y) as [Ho2 [Hr2|[[] _]]]. lia.
  - intros x Hd Hx Hfs _. destruct (emu_live t v x Hok Hx) as (Ht & Hn & Hpos). destruct (rc_emu t v x Hd Hx) as [_ Hoc].
    rewrite Hoc in Hop. apply wpp_on_emu. unfold vnode_decopen. wp_base. apply wp_massert; [by apply bool_decide_eq_true_2|].
    wp_base. apply (wp_get_vn v x); [done|]. wp_base. apply wp_massert; [apply bool_decide_eq_true_2; lia|].
    unfold put_vn. wp_base. wp_base. set (x' := mkVn _ _ _ _).
    destruct (estep_put t (set_vns (l_ef t) (<[v := x']> (vns (l_ef t)))) v x x' Hok) as [Hfr Hc];
      [by apply (table_update false (l_ef t) v x)|done|done|done|done|cbn; lia|].
    assert (Hpost : frame t (set_ef t (set_vns (l_ef t) (<[v := x']> (vns (l_ef t))))) /\
      counts t (set_ef t (set_vns (l_ef t) (<[v := x']> (vns (l_ef t))))) (fun _ => 0) (fun y => - one v y)).
    { split; [done|]. eapply counts_ext; [exact Hc|intros y; cbn [x' vn_refcount]; lia|intros y; cbn [x' vn_opencount]; lia]. }
    case_bool_decide; [by wp_base|]. unfold vnode_check. rewrite bool_decide_eq_false_2 by done. wp_base.
    apply (wp_get_vn v x'); [apply lookup_insert_eq|]. eapply wp_lift; [|done]. unfold check_counts. cbn [x' vn_refcount vn_opencount].
    rewrite !bool_decide_eq_false_2 by lia. done.
Qed.

(** ** Operations on vnodes *)

Lemma kernel_open t v fl :
  lay_ok X t -> 0 < refcount t v -> wpp X (VOP_OPEN v fl) (fun _ => same F t) (fun _ => same F t) t.
Proof.
  intros Hok Hv. apply wpp_VOP; [done|done|..].
  - intros dv _ _. apply wpp_on_dev; [|done|intros [e|a] d t' _ Hs; by apply same_mono].
    unfold dev_open. case_bool_decide; [by eexists _, _|apply open_returns].
  - intros x _ _ _ _. apply wpp_emu_none; [done|]. intros _. apply wp_wpp, wp_check; intros _; by apply same_mono, lay_same_refl.
Qed.

Lemma kernel_gettype t v :
  lay_ok X t -> 0 < refcount t v ->
  wpp X (VOP_GETTYPE v) (fun ty t' => same F t t' /\ (S_ISDIR ty = true -> vn_fs v t' ≠ NULL)) (fun _ => same F t) t.
Proof.
  intros Hok Hv. apply wpp_VOP; [done|done|..].
  - intros dv _ _. apply wpp_on_dev; [by eexists _, _|done|]. intros r d t' Hr Hs. injection Hr as <- <-.
    split; [by apply same_mono|]. by case_bool_decide.
  - intros x Hd Hx Hfs Hvf. apply wpp_emu_none; [done|]. intros _. wpp_base. split; [by apply same_mono, lay_same_refl|]. by rewrite Hvf.
Qed.

Lemma trunc_spec ef p x len :
  table_ok false ef -> vns ef !! p = Some x ->
  wp (hw (fun sc => emufs_truncate (ev_handle x) sc len))
    (fun _ ef' => exists sc, ef' = set_emu ef sc /\ table_ok false ef') (fun _ _ => False) ef.
Proof.
  intros Ht Hx. destruct (to_handle _ _ Ht p x Hx) as (Hh & Hi & _). destruct (to_rest _ _ Ht) as (Hl & Hs & Hb).
  set (sc1 := wreg_iolen (wreg_handle (set_lock (ef_emu ef) true) (ev_handle x)) len).
  destruct (emu_run (e_hw sc1) EMU_OP_TRUNC (e_regs sc1)) as [r' hw'] eqn:Er.
  assert (R : r_handle (e_regs sc1) = ev_handle x) by (by apply u32_small).
  destruct (law_trunc _ _ _ _ ltac:(rewrite R; exact Hh) Er) as (Lb & Lf & Lh).
  destruct (oper_wait sc1 EMU_OP_TRUNC r' hw' Er Hs Lf) as (e & Hw & _).
  eapply wp_hw.
  { unfold emufs_truncate, emu_trunc, lock_acquire. rewrite Hl. cbn [mbind outcome_bind]. fold sc1. rewrite Hw.
    cbn [mbind outcome_bind]. unfold lock_release. emu_cbn. change (e_lock sc1) with true. reflexivity. }
  eexists. split; [done|]. apply table_set_emu; [done| |by cbn; rewrite Lh]. refine (conj eq_refl (conj Hs _)). cbn. by rewrite Lb.
Qed.

Lemma kernel_truncate t v len :
  lay_ok X t -> 0 < refcount t v -> wpp X (VOP_TRUNCATE v len) (fun _ => same F t) (fun _ => same F t) t.
Proof.
  intros Hok Hv. apply wpp_VOP; [done|done|..].
  - intros dv _ _. apply wpp_on_dev; [|done|intros [e|a] d t' _ Hs; by apply same_mono].
    unfold dev_truncate, mbind, M_bind, get. case_match; by eexists _, _.
  - intros x Hd Hx Hfs _. apply wpp_emu_none; [done|]. intros _. destruct (emu_attached t v x Hok Hx) as (_ & Ht & _).
    wpp_base. apply wpp_on_emu. eapply wp_mono; [by apply (trunc_spec (l_ef t) v x)| |done].
    intros r ef (sc & -> & Ht'). apply wp_wpp, wp_check; intros _; by apply same_mono, estep_same.
Qed.

Lemma kernel_readlink t v :
  lay_ok X t -> 0 < refcount t v -> wpp X (VOP_READLINK v) (fun _ => same F t) (fun _ => same F t) t.
Proof.
  intros Hok Hv. apply wpp_VOP; [done|done|..].
  - intros dv _ _. apply wp_wpp, wp_fail. by apply same_mono, lay_same_refl.
  - intros x _ _ _ _. apply wpp_emu_none; [done|]. by destruct (vn_isdir x).
Qed.

Lemma kernel_namefile t v :
  lay_ok X t -> 0 < refcount t v -> wpp X (VOP_NAMEFILE v) (fun _ => same F t) (fun _ => same F t) t.
Proof.
  intros Hok Hv. apply wpp_VOP; [done|done|..].
  - intros dv _ _. wpp_base. by apply same_mono, lay_same_refl.
  - intros x _ _ _ _. apply wpp_emu_none; [done|]. intros _. apply wpp_on_emu. unfold emufs_namefile. wp_base. wp_base.
    case_bool_decide; wp_base; by apply same_mono, same_ef.
Qed.

(** ** Finding vnodes *)

Lemma emu_room t : lay_ok X t -> room t -> EmuTheorems.room (l_ef t).
Proof.
  intros Hok Hr p x Hx. pose proof (emu_no_dv t p x Hok Hx) as Hd. destruct (rc_emu t p x Hd Hx) as [Hrc _].
  specialize (Hr p) as [Hr _]. rewrite Hrc in Hr. unfold own_ref in Hr. case_bool_decide; lia.
Qed.

Lemma wp_emu_find t v x name create excl :
  lay_ok X t -> room t -> l_dvs t !! v = None -> vns (l_ef t) !! v = Some x ->
  wp (open_and_load v name create excl) (fun r ef => found F v r t (set_ef t ef)) (fun _ ef => same F t (set_ef t ef)) (l_ef t).
Proof.
  intros Hok Hroom Hd Hx. destruct (emu_attached t v x Hok Hx) as (Hfs & Ht & _).
  eapply wp_mono; [apply (open_and_load_spec (l_ef t) v x); [done|by apply emu_room|done]|..].
  - intros r ef (Ht' & Hroot & Hm & h & isdir & Hld).
    destruct (estep_loaded t ef h isdir r Hok Hfs Ht' Hroot Hm Hld) as (Hr & Hrf & Hg).
    assert (Hvf : vn_fs v t = l_fs t) by (cbn; by rewrite Hd, Hx).
    split; [done|]. rewrite Hvf. split; [done|]. split; [done|by apply gains_mono].
  - intros e ef (Ht' & Hroot & Hm & Hv'). by apply same_mono, estep_same.
Qed.

Lemma kernel_creat t v name excl :
  lay_ok X t -> room t -> 0 < refcount t v ->
  wpp X (VOP_CREAT v name excl) (fun r => found F v r t) (fun _ => same F t) t.
Proof.
  intros Hok Hroom Hv. apply wpp_VOP; [done|done|..].
  - intros dv _ _. apply wpp_on_dev; [by eexists _, _|done|]. intros r d t' Hr Hs. injection Hr as <- <-. by apply same_mono.
  - intros x Hd Hx _ _. apply wpp_emu_none; [done|]. intros _. by eapply wpp_on_emu, wp_emu_find.
Qed.

Lemma kernel_lookup t v path :
  lay_ok X t -> room t -> 0 < refcount t v ->
  wpp X (VOP_LOOKUP v path) (fun r => found F v r t) (fun _ => same F t) t.
Proof.
  intros Hok Hroom Hv. apply wpp_VOP; [done|done|..].
  - intros dv Hd Hfs. unfold dev_lookup. case_bool_decide.
    + apply wp_wpp, wp_fail. by apply same_mono, lay_same_refl.
    + wpp_base. apply dv_more; [done..|]. intros t' Hg Hfs'. wpp_base. destruct (lo_dv _ _ Hok _ _ Hd) as (_ & _ & _ & Hn & _).
      split; [done|]. split; [by rewrite Hfs', Hfs|]. split; [done|by apply gains_mono].
  - intros x Hd Hx _ _. apply wpp_emu_none; [done|]. intros _. by eapply wpp_on_emu, wp_emu_find.
Qed.

Lemma kernel_lookparent t v path len :
  lay_ok X t -> room t -> 0 < refcount t v ->
  wpp X (VOP_LOOKPARENT v path len) (fun '(r, _) => found F v r t) (fun _ => same F t) t.
Proof.
  intros Hok Hroom Hv. apply wpp_VOP; [done|done|..].
  - intros dv _ _. apply wpp_on_dev; [by eexists _, _|done|]. intros r d t' Hr Hs. injection Hr as <- <-. by apply same_mono.
  - intros x Hd Hx Hfs Hvf. apply wpp_emu_none; [done|]. intros _. apply wpp_on_emu. unfold emufs_lookparent.
    pose proof (same_mono F _ _ (same_ef t Hok)) as Hsame.
    destruct (emu_live t v x Hok Hx) as (_ & Hn & _).
    destruct (split_last path) as [[d name]|]; case_bool_decide; [by wp_base| |by wp_base|].
    + wp_base. eapply wp_mono; [by eapply (wp_emu_find t v x)| |done]. intros r ef Hf. by wp_base.
    + wp_base. eapply emu_more; [done..|]. intros ef Hg Hvf'. wp_base. split; [done|]. split; [by rewrite Hvf', Hvf|].
      split; [done|by apply gains_mono].
Qed.

(** ** File systems and device vnodes *)

Lemma wpp_fs {A} t f (k : M (layer D H) A) (Q : A -> layer D H -> Prop) E :
  mounted t f -> wpp X k Q E t -> wpp X (fs_case f k) Q E t.
Proof. intros [Hn ->] Hk. unfold wpp, fs_case. by rewrite !bool_decide_eq_true_2. Qed.

Lemma kernel_getroot t f :
  lay_ok X t -> room t -> mounted t f ->
  wpp X (FSOP_GETROOT f) (fun r t' => r ≠ NULL /\ vn_fs r t' = f /\ gains F r t t') (fun _ _ => False) t.
Proof.
  intros Hok Hroom Hf. pose proof Hf as [Hn ->]. destruct (lo_ef _ _ Hok) as [[? _]|(_ & Ht & [x Hx])]; [done|].
  pose proof (emu_no_dv _ _ _ Hok Hx) as Hd. destruct (emu_live _ _ _ Hok Hx) as (_ & Hr & _).
  apply wpp_fs; [done|]. apply wpp_on_emu. unfold emufs_getroot. wp_base. wp_base. wp_base.
  apply wp_massert; [by apply bool_decide_eq_true_2|]. wp_base. eapply emu_more; [done..|]. intros ef Hg Hvf. wp_base.
  split; [done|]. split; [done|by apply gains_mono].
Qed.

Lemma kernel_create t dev :
  lay_ok X t -> room t ->
  wpp X (Vfs.dev_create_vnode dev)
    (fun v t' => v = NULL /\ same F t t' \/ v ≠ NULL /\ refcount t v = 0 /\ vn_fs v t' = NULL /\ gains False v t t')
    (fun _ _ => False) t.
Proof.
  intros Hok _. unfold wpp. cbn [Vfs.dev_create_vnode kernel_layer]. unfold create_vnode.
  assert (Hnull : forall m, (forall p, p ∈ m -> p ∈ l_dmem t) -> NoDup (filter (fun p => p ≠ NULL) m) -> forall d locks,
    (forall i, locks i = false -> X) -> (forall v dv, d !! v = Some dv -> l_dvs t !! v = Some dv \/
       (1 <= dv_refcount dv /\ 0 <= dv_opencount dv /\ dv_fs dv = NULL /\ v ≠ NULL /\ v ∈ l_dmem t /\ v ∉ m)) ->
    lay_ok X (mkL (l_devs t) d m locks (l_ef t) (l_fs t) (l_newfs t) (l_moves t))).
  { intros m Hm Hnd d locks Hlocks Hd. split; cbn; [|..|done|done|apply (lo_newfs _ _ Hok)|apply (lo_open _ _ Hok)|apply (lo_ef _ _ Hok)].
    - intros v dv Hv. destruct (Hd v dv Hv) as [Hv'|(? & ? & ? & ? & Hin & _)]; [by apply (lo_dv _ _ Hok)|].
      destruct (lo_dmem _ _ Hok v Hin) as (_ & ? & ?); done.
    - intros p Hp Hp0. destruct (lo_dmem _ _ Hok p (Hm p Hp) Hp0) as (Hn & ? & ?). split; [|done].
      destruct (d !! p) as [dv|] eqn:Hdp; [|done]. destruct (Hd p dv Hdp) as [?|(_ & _ & _ & _ & _ & [])]; [congruence|done]. }
  pose proof (lo_nodup _ _ Hok) as Hnd. pose proof (lo_locks _ _ Hok) as Hlocks.
  assert (Hnone : forall m, (forall p, p ∈ m -> p ∈ l_dmem t) -> NoDup (filter (fun p => p ≠ NULL) m) ->
    same F t (mkL (l_devs t) (l_dvs t) m (l_locks t) (l_ef t) (l_fs t) (l_newfs t) (l_moves t))).
  { intros m Hm Hndm. apply same_mono. split; [split; [by apply Hnull; auto|done|done]|].
    apply counts_settled. intros w. cbn. destruct (l_dvs t !! w); lia. }
  destruct (l_dmem t) as [|p m] eqn:Em; [left; split; [done|by apply Hnone]|].
  unfold Device.dev_create_vnode. cbn [kmalloc_ok]. destruct (bool_decide_reflect (p ≠ NULL)) as [Hp|Hp]; cbn [negb].
  2: { left. split; [done|]. apply Hnone; [intros q Hq; by constructor|]. rewrite filter_cons_False in Hnd by done. done. }
  destruct (l_locks t 0%nat) eqn:H0; cbn [negb]; [|by apply (Hlocks 0%nat)].
  destruct (l_locks t 1%nat) eqn:H1; cbn [negb]; [|by apply (Hlocks 1%nat)]. cbn [mbind outcome_bind].
  rewrite filter_cons_True in Hnd by done. apply NoDup_cons in Hnd as [Hni Hnd].
  destruct (lo_dmem _ _ Hok p) as (Hdp & Hvp & _); [rewrite Em; constructor|done|].
  right. split; [done|]. split; [cbn; rewrite Hdp; unfold erc; by rewrite Hvp|]. split; [cbn; by rewrite lookup_insert_eq|].
  split; [split|].
  - apply Hnull; [intros q Hq; by constructor|done|intros i; apply Hlocks|].
    intros v dv [[<- <-]|[_ Hv]]%lookup_insert_Some; [right|by left]. split_and!; [done|done|done|done|constructor|].
    intros Hin. apply Hni. by apply list_elem_of_filter.
  - intros w Hw _. cbn in *. destruct (decide (w = p)) as [->|Hne]; [|by rewrite lookup_insert_ne].
    rewrite Hdp in Hw. unfold erc in Hw. rewrite Hvp in Hw. lia.
  - done.
  - apply counts_settled. intros w. cbn. destruct (decide (w = p)) as [->|Hne].
    + rewrite lookup_insert_eq, Hdp, one_same. unfold erc, eoc. rewrite Hvp. cbn. lia.
    + rewrite lookup_insert_ne, one_other by done. destruct (l_dvs t !! w); lia.
Qed.

Lemma kernel_kfree t v :
  lay_ok X t -> refcount t v = 1 -> opencount t v = 0 -> vn_fs v t = NULL ->
  wpp X (kfree_vnode v) (fun _ t' => frame t t' /\ counts t t' (fun x => - one v x) (fun _ => 0)) (fun _ _ => False) t.
Proof.
  intros Hok Hr Ho Hfs. cbn [kfree_vnode kernel_layer]. wpp_base.
  destruct (l_dvs t !! v) as [dv|] eqn:Hd.
  2: { cbn in Hr, Hfs. rewrite Hd in Hr, Hfs. unfold erc in Hr. destruct (vns (l_ef t) !! v) as [x|] eqn:Hx; [|lia].
       by destruct (emu_attached _ _ _ Hok Hx). }
  cbn in Hr, Ho. rewrite Hd in Hr, Ho. split; [split|].
  - split; cbn; [|..|apply (lo_nodup _ _ Hok)|apply (lo_locks _ _ Hok)|apply (lo_newfs _ _ Hok)|apply (lo_open _ _ Hok)|apply (lo_ef _ _ Hok)].
    + intros w dw [_ Hw]%lookup_delete_Some. by apply (lo_dv _ _ Hok).
    + intros p Hp Hp0. destruct (lo_dmem _ _ Hok p Hp Hp0) as (Hn & ? & ?). split; [|done].
      by apply lookup_delete_None; right.
  - intros w _ Hw. cbn in *. destruct (decide (w = v)) as [->|Hne]; [|by rewrite lookup_delete_ne].
    rewrite lookup_delete_eq in Hw. destruct (lo_dv _ _ Hok _ _ Hd) as (_ & _ & _ & _ & Hvn & _). unfold erc in Hw. rewrite Hvn in Hw. lia.
  - done.
  - intros w. cbn. destruct (decide (w = v)) as [->|Hne].
    + destruct (lo_dv _ _ Hok _ _ Hd) as (_ & _ & _ & _ & Hvn & _). rewrite lookup_delete_eq, Hd, one_same. unfold erc, eoc. rewrite Hvn. lia.
    + rewrite lookup_delete_ne, one_other by done. destruct (l_dvs t !! w); lia.
Qed.

Lemma kernel_uiomove t d : lay_ok X t -> wpp X (uiomove_out d) (fun _ => same F t) (fun _ => same F t) t.
Proof.
  intros Hok. unfold wpp. cbn [uiomove_out kernel_layer]. unfold next_move. destruct (l_moves t) as [|e m]; [by apply same_mono, lay_same_refl|].
  assert (Hs : same F t (set_moves t m)).
  { apply same_mono. split; [split; [destruct Hok; by split|done|done]|]. apply counts_settled. intros w. cbn. destruct (l_dvs t !! w); lia. }
  by apply (wp_wpp X (check e) (fun _ => same F t) (fun _ => same F t)), wp_check.
Qed.

(** ** The contract *)

Lemma kernel_laws : VnodeLaws (layer D H) X F.
Proof.
  split; try apply kernel_incref; try apply kernel_decref; try apply kernel_incopen; try apply kernel_decopen;
    try apply kernel_open; try apply kernel_gettype; try apply kernel_truncate; try apply kernel_readlink;
    try apply kernel_namefile; try apply kernel_creat; try apply kernel_lookup; try apply kernel_lookparent;
    try apply kernel_getroot; try apply kernel_create; try apply kernel_kfree; try apply kernel_uiomove;
    try (intros; by eapply wpp_refused).
  - intros t v Hok. cbn. destruct (l_dvs t !! v) as [dv|] eqn:Hd; [apply (lo_dv _ _ Hok) in Hd; lia|].
    unfold erc, own_ref. destruct (vns (l_ef t) !! v) as [x|] eqn:Hx; [|done].
    destruct (emu_live _ _ _ Hok Hx) as (_ & _ & ?). case_bool_decide; lia.
  - intros t v Hok Hv. cbn in *. destruct (l_dvs t !! v) as [dv|] eqn:Hd; [left; by apply (lo_dv _ _ Hok) in Hd as (_ & _ & ? & _)|].
    unfold erc in Hv. destruct (vns (l_ef t) !! v) as [x|] eqn:Hx; [|by left]. right. by destruct (emu_attached _ _ _ Hok Hx).
  - intros t f Hok Hf. apply wpp_fs; [done|]. apply wp_wpp, wp_check; [|done]. intros _. by apply same_mono, lay_same_refl.
  - intros t f Hok Hf. apply wpp_fs; [done|]. apply wp_wpp, wp_check; [done|]. intros _. by apply same_mono, lay_same_refl.
Qed.

(** Setting up the file system. *)
Lemma attach_mounts : mounts X F emu_attach.
Proof.
  intros dev t Hok. unfold wpp, emu_attach. destruct (bool_decide_reflect (l_fs t ≠ NULL)) as [Hfs|Hfs].
  { by apply same_mono, lay_same_refl. }
  destruct (lo_ef _ _ Hok) as [[Hnull Hfresh]|[? _]]; [|done]. pose proof Hfresh as (_ & Hv0 & _ & _).
  assert (Hlay : forall ef fs, mem ef `suffix_of` mem (l_ef t) ->
    (forall v x, vns ef !! v = Some x -> 0 <= vn_opencount x /\ v ∈ mem (l_ef t)) ->
    (fs = NULL /\ fresh ef \/ fs ≠ NULL /\ table_ok false ef /\ is_Some (vns ef !! ef_root ef)) ->
    (forall v, erc ef v = 0 /\ eoc ef v = 0) ->
    same F t (mkL (l_devs t) (l_dvs t) (l_dmem t) (l_locks t) ef fs (l_newfs t) (l_moves t))).
  { intros ef fs Hm Hv Hef Hz.
    assert (Hnone : forall v, v ∉ mem (l_ef t) -> vns ef !! v = None).
    { intros v Hn. destruct (vns ef !! v) as [x|] eqn:Hx; [|done]. by destruct (Hv v x Hx). }
    apply same_mono. split; [split; [split; cbn|..]|].
    - intros v dv Hd. destruct (lo_dv _ _ Hok _ _ Hd) as (? & ? & ? & ? & _ & Hn). split_and!; auto.
      intros Hin. by apply Hn, (suffix_elem (mem ef)).
    - intros p Hp Hp0. destruct (lo_dmem _ _ Hok p Hp Hp0) as (? & _ & Hn). split_and!; auto.
      intros Hin. by apply Hn, (suffix_elem (mem ef)).
    - apply (lo_nodup _ _ Hok).
    - apply (lo_locks _ _ Hok).
    - apply (lo_newfs _ _ Hok).
    - intros v x Hx. by apply (Hv v x).
    - done.
    - intros v Hlive _. cbn in *. destruct (l_dvs t !! v); [done|]. unfold erc in Hlive. rewrite Hv0, lookup_empty in Hlive. lia.
    - intros f [? ->]. done.
    - apply counts_settled. intros w. cbn. destruct (l_dvs t !! w); [lia|]. destruct (Hz w) as [-> ->]. unfold erc, eoc.
      rewrite Hv0, lookup_empty. lia. }
  pose proof (addtovfs_spec (l_ef t) Hfresh) as Hw. unfold wp in Hw.
  destruct (emufs_addtovfs 0 (l_ef t)) as [[[e|[]] ef]| |]; [| |done|done]; cbn [mbind outcome_bind].
  - destruct Hw as (_ & Hf & Hm). replace (set_ef t ef) with (mkL (l_devs t) (l_dvs t) (l_dmem t) (l_locks t) ef (l_fs t) (l_newfs t) (l_moves t)) by done.
    pose proof Hf as (_ & Hve & _ & _). apply Hlay; [done| |by left|].
    + intros v x. by rewrite Hve, lookup_empty.
    + intros v. unfold erc, eoc. by rewrite Hve, lookup_empty.
  - destruct Hw as (Ht & Hm & h & Hroot & Hv). pose proof (lo_newfs _ _ Hok) as Hnew. split_and!; [|done| |done].
    + apply Hlay; [done| | |].
      * intros v x. rewrite Hv. by intros [<- <-]%lookup_singleton_Some.
      * right. split_and!; [done|done|]. rewrite Hv, lookup_singleton_eq. by eexists.
      * intros v. unfold erc, eoc, own_ref. rewrite Hv. destruct (decide (v = ef_root ef)) as [->|Hne].
        -- by rewrite lookup_singleton_eq, bool_decide_eq_true_2.
        -- by rewrite lookup_singleton_ne by done.
    + intros [_ Heq]. by rewrite Heq in Hnew.
Qed.
End laws.

(** ** Sequences of VFS calls *)

(** An allocation of a lock for a device vnode is refused. *)
Definition lock_refused {D H} (s : vfs (layer D H)) : Prop := exists i, l_locks (low s) i = false.

(** C10. Over any sequence of calls of the VFS layer (open, close, the operations
    on pathnames, changes of the current directory and the boot file system,
    adding devices and file systems, mounting and unmounting, syncing), failing
    calls included, on the vnodes of devices and of the emulator file system:
    unless an allocation of a lock for a new device vnode is refused, on which
    [dev_create_vnode] panics, the calls run to the end, no assertion fails and
    no lock is taken twice; every reference that the layer and the open files hold stays counted, the
    open counts are exact; and beyond these references each vnode has as many
    as before, with two exceptions.  Each failing [vfs_adddev] or [vfs_addfs]
    may lose the one reference of the vnode it made, and a vnode whose file
    the card refuses to close keeps one. *)
Theorem vfs_calls_balanced {D H : Type} `{Device D, !DeviceReturns D} `{EmuCard H, !EmuLaws H, !EmuTruncates H}
    (calls : list (vfs_call (layer D H))) (s : vfs (layer D H)) (files : list ptr) :
  let OBS : vnode_obs (layer D H) := kernel_obs (lock_refused s) in
  good close_fails (3 + 2 * length calls) s files -> Forall (call_ok (lock_refused s) close_fails) calls ->
  wpp (lock_refused s) (run_calls calls files) (balanced close_fails s files) (fun _ _ => False) s.
Proof. intros OBS Hg Hc. pose proof (kernel_laws (D := D) (H := H) (lock_refused s)). by apply (calls_balanced (X := lock_refused s)). Qed.

(** ** Witness *)

Import BlockDev Lhd EmuExample.
#[local] Existing Instance Device.block_dev.
#[local] Existing Instance Device.block_returns.

#[export] Instance toy_truncates : EmuTruncates toy.
Proof.
  split. cbn [emu_run handles toy_card]. unfold toy_run. intros hw r r' hw' _. destruct (t_files hw !! r_handle r) as [data|].
  - rewrite !bool_decide_eq_false_2 by done. intros [= <- <-]. split_and!; [done|harmless|done].
  - rewrite bool_decide_eq_false_2 by (intros [?|[?|?]]; done). intros [= <- <-]. split_and!; [done|harmless|done].
Qed.

Abbreviation exl := (layer (unit + Lhd.lhd_softc Lhd.simdisk) toy).

(** "null", "emu0", "lhd0" and the name of a file *)
Definition str_emu0 : list Z := [101; 109; 117; 48].
Definition str_lhd0 : list Z := [108; 104; 100; 48].
Definition file : list Z := [97].

(** After start-up: the null device, a disk at address 5, and the card. *)
Definition ex_low : exl :=
  mkL (fun dev => if bool_decide (dev = 5) then inr Lhd.ex_disk else inl tt) {[100 := mkDv 1 0 NULL 4]}
    [104; 108; 112; 116] (fun _ => true) toy_ef0 NULL 512 [].
Definition kernel_boot : vfs exl :=
  mkVfs [mkKd str_null None 4 100 NULL] false NULL false NULL ex_low (replicate 40 true).

(** The file system is added and becomes the boot file system; the disk is
    added, and once more under the same name, which fails; a file is opened by
    two names and closed once. *)
Definition kernel_calls : list (vfs_call exl) :=
  [ CAddfs str_emu0 emu_attach; CSetbootfs str_emu0; CAdddev str_lhd0 5 true; CAdddev str_lhd0 5 true;
    COpen (SLASH :: file) 0; COpen (str_emu0 ++ COLON :: file) 2; CMkdir file; CGetcwd; CClose 0;
    COpen (str_null ++ [COLON]) 1; CUnmountall; CSync ].

Lemma kernel_boot_good : good (H0 := kernel_obs (lock_refused kernel_boot)) close_fails (3 + 2 * length kernel_calls) kernel_boot [].
Proof.
  set (OBS := kernel_obs (lock_refused kernel_boot)).
  assert (Hc : forall x, refcount ex_low x = one 100 x /\ opencount ex_low x = 0).
  { intros x. cbn. unfold one. destruct (decide (x = 100)) as [->|Hx]; [by rewrite bool_decide_eq_true_2|].
    rewrite bool_decide_eq_false_2, lookup_singleton_ne by done. unfold erc, eoc. cbn. by rewrite lookup_empty. }
  assert (He : forall x, extra kernel_boot [] x = 0).
  { intros x. unfold extra. change (low kernel_boot) with ex_low. destruct (Hc x) as [-> _].
    change (occ x (own kernel_boot ++ [])) with (one 100 x + 0). lia. }
  split; [done|]. split; [|intros x; rewrite He; unfold MAXREFS; lia]. split.
  - split; [| | |].
    + split.
      * cbn. intros v dv [<- <-]%lookup_singleton_Some. split_and!; [done|done|done|done|done|by vm_compute; set_solver].
      * cbn. intros p Hp _. rewrite lookup_singleton_ne by set_solver. split_and!; [done|by rewrite lookup_empty|set_solver].
      * cbn. repeat constructor; set_solver.
      * done.
      * done.
      * cbn. intros v x Hx. by rewrite lookup_empty in Hx.
      * left. split; [done|apply toy_fresh].
    + intros x. left. rewrite He. change (low kernel_boot) with ex_low. destruct (Hc x) as [-> _].
      change (occ x (own kernel_boot ++ [])) with (one 100 x + 0). lia.
    + intros x. by destruct (Hc x) as [_ Ho].
    + intros x Hx. left. by apply list_elem_of_singleton in Hx as ->.
  - apply Forall_singleton. by split.
  - apply NoDup_nil_2.
  - by intros f ?%not_elem_of_nil.
  - done.
  - intros x Hx _. exact Hx.
  - intros x. apply (occ_range x (own kernel_boot ++ [])).
  - by vm_compute.
Qed.

Lemma vfs_calls_balanced_witness :
  wpp (lock_refused kernel_boot) (run_calls kernel_calls [])
    (balanced (H0 := kernel_obs (lock_refused kernel_boot)) close_fails kernel_boot []) (fun _ _ => False) kernel_boot.
Proof.
  apply vfs_calls_balanced; [exact kernel_boot_good|].
  repeat (apply Forall_cons; split); [apply attach_mounts|done..|by apply Forall_nil].
Defined.

(** The files open at the end and the number of calls of each kind that
    failed: the second [CAdddev] and the [CMkdir]. *)
Example kernel_calls_run :
  match run_calls kernel_calls [] kernel_boot with
  | Done (inr (files, failed), s) => files = [100; 4128] /\ length failed = 2%nat /\ adds failed = 1%nat /\
      dv_refcount <$> (l_dvs (low s) !! 112) = Some 1
  | _ => False
  end.
Proof. vm_compute. done. Qed.

End EmuLayerTheorems.
