(* ===== verification/Mksfs.v ===== *)
(** * Making a file system: [sbin/mksfs]

    [disk.c], the access to a disk image or a raw disk, and [mksfs.c].  The
    program runs on the host, where the image has a header block before the
    blocks of the disk ([HOST]), or on the machine itself.

    The system calls are those of the host: a [read] or [write] moves some of
    the bytes asked for, or is interrupted, or fails; [sched] lists what the
    calls to come do, and after its end they move everything.  A call of [err]
    or [errx] ends the program with its status, which is the error of [M]. *)

From S2P Require Import Prelude KBitmap SfsFormat.

Module Mksfs.
Import SfsFormat.

(** ["System/161 Disk Image"] *)
Definition HOSTSTRING : list Z :=
  [83; 121; 115; 116; 101; 109; 47; 49; 54; 49; 32; 68; 105; 115; 107; 32; 73; 109; 97; 103; 101].
Definition BLOCKSIZE : Z := 512.

(** What a call of [read] or [write] does. *)
Inductive io_res : Type := Moves (n : Z) | Interrupted | Fails.

Record disk : Type := mkDisk {
  image : list Z;                (* the bytes of the file *)
  fd : bool;                     (* it is open *)
  pos : Z;                       (* its offset *)
  nblocks : Z;
  sched : list io_res
}.

Abbreviation Prog := (M disk).

Section prog.
Context (HOST : bool).

(** [read] and [write] on an open file: the number of bytes, or -1 and whether
    the call is worth trying again. *)
Definition next_io : Prog (option io_res) := fun d =>
  match sched d with
  | [] => Done (inr None, d)
  | r :: l => Done (inr (Some r), mkDisk (image d) (fd d) (pos d) (nblocks d) l)
  end.

(** How many of [n] bytes a call moves. *)
Definition moved_of (r : option io_res) (n : Z) : Z + bool :=
  match r with
  | None => inl n
  | Some (Moves k) => inl (Z.max 0 (Z.min k n))
  | Some Interrupted => inr true
  | Some Fails => inr false
  end.

Definition get_file : Prog (list Z) :=
  d ← get;
  if fd d then mret (image d) else lift Stuck.

Definition write (data : list Z) : Prog (Z + bool) :=
  r ← next_io;
  f ← get_file;
  match moved_of r (Z.of_nat (length data)) with
  | inl n =>
      _ ← modify (fun d => mkDisk (write_at f (pos d) (take (Z.to_nat n) data)) true (pos d + n) (nblocks d) (sched d));
      mret (inl n)
  | inr again => mret (inr again)
  end.

(** At the end of the file a read returns less, or nothing. *)
Definition read (n : Z) : Prog (Z * list Z + bool) :=
  r ← next_io;
  f ← get_file;
  d ← get;
  match moved_of r n with
  | inl n =>
      let data := slice f (pos d) n in
      let len := Z.of_nat (length data) in
      _ ← modify (fun d => mkDisk (image d) (fd d) (pos d + len) (nblocks d) (sched d));
      mret (inl (len, data))
  | inr again => mret (inr again)
  end.

(** The part of an object up to its NUL, or all of it. *)
Fixpoint upto_nul (l : list Z) : list Z :=
  match l with
  | [] => []
  | c :: l => if bool_decide (c = 0) then [] else c :: upto_nul l
  end.

(** [ok] and [fstat] say whether [open] and [fstat] succeed.  After a failed
    [read] the code stores outside its buffer. *)
Definition opendisk (ok fstat : bool) : Prog unit :=
  d ← get;
  _ ← massert (negb (fd d));
  if negb ok then fail 1
  else
    _ ← modify (fun d => mkDisk (image d) true 0 (nblocks d) (sched d));
    if negb fstat then fail 1
    else
      let n := u32 (Z.of_nat (length (image d)) / BLOCKSIZE) in
      _ ← modify (fun d => mkDisk (image d) (fd d) (pos d) n (sched d));
      if HOST then
        _ ← modify (fun d => mkDisk (image d) (fd d) (pos d) (u32 (nblocks d - 1)) (sched d));
        r ← read 63;
        match r with
        | inr _ => lift Stuck
        | inl (_, data) =>
            if bool_decide (upto_nul (take (length HOSTSTRING) data) ≠ HOSTSTRING) then fail 1 else mret tt
        end
      else mret tt.

Definition diskblocksize : Prog Z :=
  d ← get;
  _ ← massert (fd d);
  mret BLOCKSIZE.

Definition diskblocks : Prog Z :=
  d ← get;
  _ ← massert (fd d);
  mret (nblocks d).

(** [lseek(fd, block*BLOCKSIZE, SEEK_SET)], after the step over the header; on
    the machine itself [off_t] has 32 bits. *)
Definition seek_block (block : Z) : Prog unit :=
  let block := if HOST then u32 (block + 1) else block in
  let off := u32 (block * BLOCKSIZE) in
  let off := if HOST then off else s32 off in
  if bool_decide (off < 0) then fail 1
  else modify (fun d => mkDisk (image d) (fd d) off (nblocks d) (sched d)).

(** Every turn uses up an answer of [sched] or moves all that is left. *)
Fixpoint write_loop (fuel : nat) (data : list Z) (tot : Z) : Prog unit :=
  if bool_decide (tot < BLOCKSIZE) then
    match fuel with
    | O => lift Stuck
    | S fuel =>
        r ← write (slice data tot (BLOCKSIZE - tot));
        match r with
        | inr true => write_loop fuel data tot
        | inr false => fail 1
        | inl len => if bool_decide (len = 0) then fail 1 else write_loop fuel data (tot + len)
        end
    end
  else mret tt.

Definition diskwrite (data : list Z) (block : Z) : Prog unit :=
  d ← get;
  _ ← massert (fd d);
  _ ← seek_block block;
  write_loop (S (length (sched d))) data 0.

Fixpoint read_loop (fuel : nat) (data : list Z) (tot : Z) : Prog (list Z) :=
  if bool_decide (tot < BLOCKSIZE) then
    match fuel with
    | O => lift Stuck
    | S fuel =>
        r ← read (BLOCKSIZE - tot);
        match r with
        | inr true => read_loop fuel data tot
        | inr false => fail 1
        | inl (len, part) =>
            if bool_decide (len = 0) then fail 1
            else
              data ← lift (mem_write data tot part);
              read_loop fuel data (tot + len)
        end
    end
  else mret data.

(** At the end of the file a read that gets nothing ends the program, so one
    turn more is enough. *)
Definition diskread (data : list Z) (block : Z) : Prog (list Z) :=
  d ← get;
  _ ← massert (fd d);
  _ ← seek_block block;
  read_loop (S (S (length (sched d)))) data 0.

(** [ok] is the result of [close]. *)
Definition closedisk (ok : bool) : Prog unit :=
  d ← get;
  _ ← massert (fd d);
  if negb ok then fail 1
  else modify (fun d => mkDisk (image d) false (pos d) (nblocks d) (sched d)).

(** ** [mksfs.c] *)

Definition MAXBITBLOCKS : Z := 32.

(** [SWAPL] and [SWAPS] make the fields big-endian in memory whatever the
    machine; the volume name fills the first bytes of a cleared field. *)
Definition writesuper (volname : list Z) (nblocks : Z) : Prog unit :=
  if bool_decide (Z.of_nat (length volname) >= SFS_VOLNAME_SIZE) then fail 1
  else
    let sp := mkSuper SFS_MAGIC nblocks (splice (zeros SFS_VOLNAME_SIZE) 0 (volname ++ [0])) (zeros 118) in
    diskwrite (super_bytes sp) SFS_SB_LOCATION.

Definition writerootdir : Prog unit :=
  diskwrite (inode_bytes (mkInode 0 SFS_TYPE_DIR 1 (zeros SFS_NDIRECT) 0 (zeros 110))) SFS_ROOT_LOCATION.

Definition CHAR_BIT : Z := 8.

Definition doallocbit (bitbuf : list Z) (bit : Z) : outcome (list Z) :=
  let byte := bit / CHAR_BIT in
  let mask := u8 (Z.shiftl 1 (bit mod CHAR_BIT)) in
  w ← getZ bitbuf byte;
  assert! bool_decide (Z.land w mask = 0);;
  setZ bitbuf byte (u8 (Z.lor w mask)).

(** The loops that mark [n] bits from [bit] on. *)
Fixpoint alloc_bits (n : nat) (bit : Z) (bitbuf : list Z) : outcome (list Z) :=
  match n with
  | O => Done bitbuf
  | S n =>
      bitbuf ← doallocbit bitbuf bit;
      alloc_bits n (bit + 1) bitbuf
  end.

(** The loop that writes the blocks of the map. *)
Fixpoint write_map (n : nat) (i : Z) (bitbuf : list Z) : Prog unit :=
  match n with
  | O => mret tt
  | S n =>
      _ ← diskwrite (slice bitbuf (i * SFS_BLOCKSIZE) SFS_BLOCKSIZE) (SFS_MAP_LOCATION + i);
      write_map n (i + 1) bitbuf
  end.

Definition writebitmap (fsblocks : Z) : Prog unit :=
  let nbits := SFS_BITMAPSIZE fsblocks in
  let nblocks := SFS_BITBLOCKS fsblocks in
  let bitbuf := zeros (MAXBITBLOCKS * SFS_BLOCKSIZE) in
  if bool_decide (nblocks > MAXBITBLOCKS) then fail 1
  else
    bitbuf ← lift (doallocbit bitbuf SFS_SB_LOCATION);
    bitbuf ← lift (doallocbit bitbuf SFS_ROOT_LOCATION);
    bitbuf ← lift (alloc_bits (Z.to_nat nblocks) SFS_MAP_LOCATION bitbuf);
    bitbuf ← lift (alloc_bits (Z.to_nat (nbits - fsblocks)) fsblocks bitbuf);
    write_map (Z.to_nat nblocks) 0 bitbuf.

(** The volume name without a colon at its end; no other colon and no slash. *)
Definition check_volname (volname : list Z) : Prog (list Z) :=
  volname ← match list_find (fun c => c = 58) volname with
            | Some (i, _) => if bool_decide (length (drop i volname) ≠ 1%nat) then fail 1 else mret (take i volname)
            | None => mret volname
            end;
  match list_find (fun c => c = 47) volname with
  | Some _ => fail 1
  | None => mret volname
  end.

(** [main]: the arguments with the name of the program, and the answers of
    [open], [fstat] and [close]. *)
Definition main (argv : list (list Z)) (open fstat close : bool) : Prog Z :=
  match argv with
  | [_; _; volname] =>
      volname ← check_volname volname;
      _ ← opendisk open fstat;
      blocksize ← diskblocksize;
      if bool_decide (blocksize ≠ SFS_BLOCKSIZE) then fail 1
      else
        size ← diskblocks;
        _ ← writesuper volname size;
        _ ← writerootdir;
        _ ← writebitmap size;
        _ ← closedisk close;
        mret 0
  | _ => fail 1
  end.
End prog.

End Mksfs.
