(* ===== verification/MksfsTheorems.v ===== *)
(** * Making a file system: theorems

    [mksfs_mounts]: whatever the system calls do short of failing, [mksfs] on a
    disk of a size it supports writes a volume that [sfs_domount] accepts,
    with the name given, an empty root directory, and exactly the first blocks
    and those past the end marked in use.  This is a state in which the
    invariant [vol_ok] of a mounted volume holds. *)

From S2P Require Import Prelude KArray KBitmap UserMem Uio BlockDev SfsFormat Sfs SfsBlocks SfsFile SfsIo SfsDir SfsMount Mksfs.

Module MksfsTheorems.
Import SfsFormat SfsBlocks SfsFile SfsIo SfsDir SfsMount Mksfs.

Section prog.
Context (HOST : bool).

(** The blocks before the volume. *)
Definition hd : Z := if HOST then 1 else 0.

(** Block [b] of the volume in the image. *)
Definition vblock (d : disk) (b : Z) : list Z := slice (image d) ((hd + b) * 512) 512.

(** The image has the header and [n] blocks, and is open. *)
Definition ready (d : disk) (n : Z) : Prop :=
  fd d = true /\ Z.of_nat (length (image d)) = (hd + n) * 512 /\ 0 <= n <= 131072.

(** No call fails or writes nothing. *)
Definition calm (l : list io_res) : Prop := Forall (fun r => match r with Moves k => 0 < k | Interrupted => True | Fails => False end) l.

Lemma write_at_in data off d :
  0 <= off -> off + Z.of_nat (length d) <= Z.of_nat (length data) -> write_at data off d = splice data off d.
Proof.
  intros. unfold write_at, splice. by rewrite take_app_le by lia.
Qed.

Lemma calm_suffix l l' : l' `suffix_of` l -> calm l -> calm l'.
Proof. intros [k ->]. unfold calm. rewrite Forall_app. tauto. Qed.

Lemma wp_next_io d (Q : option io_res -> disk -> Prop) E :
  match sched d with
  | [] => Q None d
  | r :: l => Q (Some r) (mkDisk (image d) (fd d) (pos d) (nblocks d) l)
  end -> wp next_io Q E d.
Proof. unfold wp, next_io. by destruct (sched d). Qed.

Lemma wp_get_file d (Q : list Z -> disk -> Prop) E : fd d = true -> Q (image d) d -> wp get_file Q E d.
Proof. intros Hf HQ. unfold get_file. wp_base. wp_base. rewrite Hf. by wp_base. Qed.

(** One call of [write]. *)
Lemma wp_disk_write d data (Q : Z + bool -> disk -> Prop) E :
  fd d = true -> 0 <= pos d -> pos d + Z.of_nat (length data) <= Z.of_nat (length (image d)) -> (0 < length data)%nat ->
  (forall n l, 0 < n <= Z.of_nat (length data) -> l `suffix_of` sched d -> (length l < length (sched d) \/ n = Z.of_nat (length data))%nat ->
     Q (inl n) (mkDisk (splice (image d) (pos d) (take (Z.to_nat n) data)) true (pos d + n) (nblocks d) l)) ->
  (forall l, l `suffix_of` sched d -> (length l < length (sched d))%nat -> Q (inr true) (mkDisk (image d) true (pos d) (nblocks d) l)) ->
  (~ calm (sched d) -> forall d', Q (inr false) d' /\ Q (inl 0) d') ->
  wp (write data) Q E d.
Proof.
  intros Hfd Hpos Hlen Hne Hmove Hintr Hfail. destruct d as [img fd0 ps nb l]. cbn in *. subst fd0.
  assert (Hall : forall n, 0 < n <= Z.of_nat (length data) -> write_at img ps (take (Z.to_nat n) data) = splice img ps (take (Z.to_nat n) data)).
  { intros n Hn. apply write_at_in; [done|]. rewrite length_take. lia. }
  unfold write. wp_base. apply wp_next_io. cbn [sched image fd pos nblocks].
  destruct l as [|r l]; wp_base; (apply wp_get_file; [done|]); cbn [moved_of image].
  - do 3 wp_base. cbn [pos nblocks sched]. rewrite Hall by lia. apply Hmove; [lia|by exists []|by right].
  - assert (Hsuf : l `suffix_of` r :: l) by (by exists [r]). destruct r as [k| |].
    + do 3 wp_base. cbn [pos nblocks sched]. destruct (decide (0 < k)) as [Hk|Hk].
      * rewrite Hall by lia. apply Hmove; [lia|done|left; cbn; lia].
      * replace (Z.max 0 _) with 0 by lia. apply Hfail. unfold calm. rewrite Forall_cons. lia.
    + wp_base. apply Hintr; [done|cbn; lia].
    + wp_base. apply Hfail. unfold calm. rewrite Forall_cons. tauto.
Qed.

Lemma slice_tail (data : list Z) tot : 0 <= tot -> Z.of_nat (length data) = 512 -> slice data tot (512 - tot) = drop (Z.to_nat tot) data.
Proof. intros Ht Hl. unfold slice. apply take_ge. rewrite length_drop. lia. Qed.

Lemma wp_write_loop (fuel : nat) data tot d :
  length data = 512%nat -> 0 <= tot <= 512 -> fd d = true -> 0 <= pos d -> pos d + (512 - tot) <= Z.of_nat (length (image d)) ->
  (length (sched d) < fuel)%nat ->
  wp (write_loop fuel data tot)
     (fun _ d' => exists l, l `suffix_of` sched d /\
        d' = mkDisk (splice (image d) (pos d) (drop (Z.to_nat tot) data)) true (pos d + (512 - tot)) (nblocks d) l)
     (fun e _ => e = 1 /\ ~ calm (sched d)) d.
Proof.
  intros Hdata. revert tot d. induction fuel as [|fuel IH]; intros tot d Ht Hfd Hpos Hlen Hfuel; [lia|].
  cbn [write_loop]. unfold BLOCKSIZE. case_bool_decide as Hlt.
  2: { wp_base. exists (sched d). split; [done|]. rewrite drop_ge, splice_nil by lia. replace (pos d + (512 - tot)) with (pos d) by lia.
       destruct d. cbn in Hfd. by subst. }
  rewrite slice_tail by lia. wp_base. apply wp_disk_write; [done|done|rewrite length_drop; lia|rewrite length_drop; lia|..].
  - rewrite length_drop. intros n l Hn Hsuf Hdec. rewrite bool_decide_eq_false_2 by lia.
    set (d1 := mkDisk _ _ _ _ _).
    assert (Hsp : splice (splice (image d) (pos d) (take (Z.to_nat n) (drop (Z.to_nat tot) data))) (pos d + n) (drop (Z.to_nat (tot + n)) data)
      = splice (image d) (pos d) (drop (Z.to_nat tot) data)).
    { rewrite <- (take_drop (Z.to_nat n) (drop (Z.to_nat tot) data)) at 2. rewrite drop_drop. rewrite <- (Z2Nat.inj_add tot n) by lia.
      rewrite <- splice_app; [|done|rewrite length_take, !length_drop; lia]. f_equal. rewrite length_take, length_drop. lia. }
    destruct (decide (n = 512 - tot)) as [->|Hn'].
    + (* the rest is done whatever fuel is left *)
      replace (tot + (512 - tot)) with 512 in * by lia. destruct fuel; cbn [write_loop]; rewrite bool_decide_eq_false_2 by (unfold BLOCKSIZE; lia); wp_base;
        exists l; (split; [done|]); rewrite (drop_ge data (Z.to_nat 512)), splice_nil in Hsp by lia; unfold d1; by rewrite Hsp.
    + eapply wp_mono; [apply (IH (tot + n) d1); cbn; [lia|done|lia| |]|..].
      * rewrite length_splice by (rewrite ?length_take, ?length_drop; lia). lia.
      * lia.
      * intros _ d' (l' & Hsuf' & ->). exists l'. split; [by etrans|]. cbn. rewrite Hsp. f_equal. lia.
      * intros e _ [-> Hc]. split; [done|]. intros Hcalm. apply Hc. by eapply calm_suffix.
  - intros l Hsuf Hdec. eapply wp_mono; [apply (IH tot); cbn; [done|done|done|done|lia]|..].
    + intros _ d' (l' & Hsuf' & ->). exists l'. split; [by etrans|done].
    + intros e _ [-> Hc]. split; [done|]. intros Hcalm. apply Hc. by eapply calm_suffix.
  - intros Hc d'. split; [by wp_base|]. rewrite bool_decide_eq_true_2 by done. by wp_base.
Qed.

(** [d'] is [d] after writes to the volume, which now holds [f]. *)
Definition now d d' (n : Z) (f : Z -> list Z) : Prop :=
  ready d' n /\ nblocks d' = nblocks d /\ sched d' `suffix_of` sched d /\ forall c, 0 <= c < n -> vblock d' c = f c.

Definition put_block (f : Z -> list Z) (b : Z) (data : list Z) (c : Z) : list Z := if decide (c = b) then data else f c.

Lemma wp_diskwrite d n data b :
  ready d n -> length data = 512%nat -> 0 <= b < n ->
  wp (diskwrite HOST data b) (fun _ d' => now d d' n (put_block (vblock d) b data)) (fun e _ => e = 1 /\ ~ calm (sched d)) d.
Proof.
  intros (Hfd & Hlen & Hn) Hdata Hb. assert (0 <= hd <= 1) by (unfold hd; destruct HOST; lia).
  unfold diskwrite. wp_base. wp_base. wp_base. apply wp_massert; [done|]. wp_base.
  assert (Hseek : wp (seek_block HOST b) (fun _ d' => d' = mkDisk (image d) (fd d) ((hd + b) * 512) (nblocks d) (sched d)) (fun _ _ => False) d).
  { unfold seek_block, BLOCKSIZE. replace (u32 ((if HOST then u32 (b + 1) else b) * 512)) with ((hd + b) * 512).
    2: { unfold hd. destruct HOST; rewrite ?u32_small; rewrite ?u32_small; lia. }
    replace (if HOST then (hd + b) * 512 else s32 ((hd + b) * 512)) with ((hd + b) * 512).
    2: { destruct HOST; [done|]. rewrite s32_small; unfold INT_MIN, INT_MAX; lia. }
    rewrite bool_decide_eq_false_2 by lia. by wp_base. }
  eapply wp_mono; [exact Hseek| |done]. intros _ d1 ->.
  eapply wp_mono; [apply wp_write_loop; cbn; [done|lia|done|lia|lia|lia]|..]; [|done].
  intros _ d' (l & Hsuf & ->). cbn. rewrite drop_0. unfold now, ready, vblock. cbn [fd image nblocks sched].
  rewrite length_splice by lia. split_and!; [done|done|lia|lia|done|done|]. intros c Hc. unfold put_block. case_decide as Hcb.
  - subst c. unfold slice, splice. rewrite drop_app_length' by (rewrite length_take; lia). rewrite take_app_length' by lia. done.
  - apply slice_splice_away; lia.
Qed.

Lemma now_trans d d1 d2 n f g : now d d1 n f -> now d1 d2 n g -> now d d2 n g.
Proof. intros (_ & Hn1 & Hs1 & _) (Hr2 & Hn2 & Hs2 & Hf). split; [done|]. split; [congruence|]. split; [by etrans|done]. Qed.

Lemma now_ext d d' n f g : now d d' n f -> (forall c, 0 <= c < n -> f c = g c) -> now d d' n g.
Proof. intros (? & ? & ? & Hf) Hfg. split_and!; try done. intros c Hc. by rewrite Hf, Hfg. Qed.

(** ** The bits *)

Definition bits (bitbuf : list Z) : KBitmap.bitmap := KBitmap.mkBitmap 131072 bitbuf.

Lemma doallocbit_spec l b :
  KBitmap.wf (bits l) -> 0 <= b < 131072 -> KBitmap.bit (bits l) b = false ->
  exists l', doallocbit l b = Done l' /\ KBitmap.wf (bits l') /\
    forall c, 0 <= c -> KBitmap.bit (bits l') c = KBitmap.bit (bits l) c || bool_decide (c = b).
Proof.
  intros Hwf Hb Hbit. destruct (KBitmap.index_word (bits l) b Hwf Hb) as (Hix & Hk & E).
  destruct (KBitmap.getZ_byte (bits l) (b / 8) Hwf Hix) as (w & Hget & _ & _ & Hbits).
  destruct (KBitmap.or_word_spec (bits l) (b / 8) (b mod 8) Hwf Hix Hk) as (l' & Hor & Hwf' & Hbit').
  exists l'. rewrite E in Hbit'. split; [|done]. unfold doallocbit, CHAR_BIT. fold (KBitmap.word_mask (b mod 8)).
  unfold KBitmap.or_word in Hor. cbn [KBitmap.v bits] in Hget, Hor. rewrite Hget in Hor |- *. cbn [mbind outcome_bind] in Hor |- *.
  rewrite bool_decide_eq_true_2; [done|]. apply KBitmap.land_mask_0; [done|]. by rewrite <- Hbits, E.
Qed.

Lemma alloc_bits_spec (n : nat) b l :
  KBitmap.wf (bits l) -> 0 <= b -> b + Z.of_nat n <= 131072 -> (forall c, b <= c < b + Z.of_nat n -> KBitmap.bit (bits l) c = false) ->
  exists l', alloc_bits n b l = Done l' /\ KBitmap.wf (bits l') /\
    forall c, 0 <= c -> KBitmap.bit (bits l') c = KBitmap.bit (bits l) c || bool_decide (b <= c < b + Z.of_nat n).
Proof.
  revert b l. induction n as [|n IH]; intros b l Hwf Hb Hn Hfree; cbn [alloc_bits].
  - exists l. split; [done|]. split; [done|]. intros c Hc. rewrite (bool_decide_eq_false_2 (b <= c < _)) by lia. by rewrite orb_false_r.
  - destruct (doallocbit_spec l b Hwf ltac:(lia) ltac:(apply Hfree; lia)) as (l1 & -> & Hwf1 & Hbit1). cbn [mbind outcome_bind].
    destruct (IH (b + 1) l1 Hwf1) as (l' & E & Hwf' & Hbit'); [lia|lia| |].
    { intros c Hc. rewrite Hbit1, Hfree by lia. by rewrite bool_decide_eq_false_2 by lia. }
    exists l'. split; [done|]. split; [done|]. intros c Hc. rewrite Hbit', Hbit1, <- orb_assoc by done. f_equal.
    repeat case_bool_decide; (done || lia).
Qed.

(** ** What is on the disk *)

Definition map_blocks (f : Z -> list Z) (j k : Z) (l : list Z) (c : Z) : list Z :=
  if decide (SFS_MAP_LOCATION + j <= c < SFS_MAP_LOCATION + j + k) then slice l ((c - SFS_MAP_LOCATION) * 512) 512 else f c.

Lemma wp_write_map (k : nat) j l d n :
  ready d n -> 0 <= j -> SFS_MAP_LOCATION + j + Z.of_nat k <= n -> (j + Z.of_nat k) * 512 <= Z.of_nat (length l) ->
  wp (write_map HOST k j l) (fun _ d' => now d d' n (map_blocks (vblock d) j (Z.of_nat k) l)) (fun e _ => e = 1 /\ ~ calm (sched d)) d.
Proof.
  revert j d. induction k as [|k IH]; intros j d Hr Hj Hn Hl; cbn [write_map]; wp_base.
  - split; [done|]. split; [done|]. split; [done|]. intros c Hc. unfold map_blocks. by rewrite decide_False by lia.
  - change SFS_BLOCKSIZE with 512. unfold SFS_MAP_LOCATION in *.
    eapply wp_mono; [apply (wp_diskwrite d n); [done|apply Nat2Z.inj; rewrite length_slice; lia|lia]| |done].
    intros [] d1 Hnow1. cbn beta in Hnow1. pose proof Hnow1 as (Hr1 & _ & Hs1 & Hf1).
    eapply wp_mono; [apply (IH (j + 1) d1); [done|lia|lia|lia]|..].
    + intros [] d2 Hnow2. cbn beta in Hnow2. eapply now_ext; [by eapply now_trans|]. intros c Hc. unfold map_blocks, put_block in *. unfold SFS_MAP_LOCATION.
      case_decide; [by rewrite decide_True by lia|]. rewrite Hf1 by done. case_decide; [|by rewrite decide_False by lia].
      rewrite decide_True by lia. f_equal. lia.
    + intros e _ [-> Hc]. split; [done|]. intros Hcalm. apply Hc. by eapply calm_suffix.
Qed.

Definition fsuper (n : Z) (volname : list Z) : SfsFormat.sfs_super :=
  mkSuper SFS_MAGIC n (splice (zeros SFS_VOLNAME_SIZE) 0 (volname ++ [0])) (zeros 118).
Definition froot : sfs_inode := mkInode 0 SFS_TYPE_DIR 1 (zeros SFS_NDIRECT) 0 (zeros 110).

(** The blocks of an empty volume of [n] blocks. *)
Record formatted (f : Z -> list Z) (n : Z) (volname : list Z) : Prop := {
  fm_super : f SFS_SB_LOCATION = super_bytes (fsuper n volname);
  fm_root : f SFS_ROOT_LOCATION = inode_bytes froot;
  fm_map : exists l, KBitmap.wf (bits l) /\
    (forall c, 0 <= c < 4096 * SFS_BITBLOCKS n -> KBitmap.bit (bits l) c = bool_decide (c < SFS_MAP_LOCATION + SFS_BITBLOCKS n \/ n <= c)) /\
    forall k, 0 <= k < SFS_BITBLOCKS n -> f (SFS_MAP_LOCATION + k) = slice l (k * 512) 512
}.

Definition good_name (volname : list Z) : Prop :=
  Forall (fun c => c ≠ 0 /\ c ≠ 58 /\ c ≠ 47) volname /\ Z.of_nat (length volname) < SFS_VOLNAME_SIZE.

Lemma fsuper_wf n volname : 0 <= n < 4294967296 -> good_name volname -> super_wf (fsuper n volname).
Proof.
  intros Hn [_ Hl]. unfold SFS_VOLNAME_SIZE in Hl. split; cbn [fsuper sp_magic sp_nblocks sp_volname sp_reserved].
  - unfold SFS_MAGIC. lia.
  - done.
  - rewrite length_splice; [done|lia|]. rewrite length_app. change (length (zeros SFS_VOLNAME_SIZE)) with 32%nat. cbn [length]. lia.
  - done.
  - apply Forall_replicate. lia.
Qed.

Lemma froot_wf : inode_wf froot.
Proof. split; cbn; try done; try lia; repeat (constructor; [lia|]); constructor. Qed.

(** The sizes [mksfs] supports. *)
Lemma size_bounds n : 3 <= n <= 131072 -> 0 < SFS_BITBLOCKS n <= 32 /\ SFS_MAP_LOCATION + SFS_BITBLOCKS n <= n /\
  SFS_BITMAPSIZE n = 4096 * SFS_BITBLOCKS n /\ n <= 4096 * SFS_BITBLOCKS n <= 131072.
Proof. intros Hn. destruct (bitblocks_spec n) as (? & ? & ?); [lia|]. unfold SFS_MAP_LOCATION. lia. Qed.

Lemma zeros_wf : KBitmap.wf (bits (zeros (MAXBITBLOCKS * SFS_BLOCKSIZE))).
Proof.
  split; cbn [KBitmap.nbits KBitmap.v bits]; [lia|rewrite length_zeros; done|apply Forall_replicate; lia|].
  change (8 * ((131072 + 7) / 8)) with 131072. lia.
Qed.

Lemma zeros_bit c : 0 <= c -> KBitmap.bit (bits (zeros (MAXBITBLOCKS * SFS_BLOCKSIZE))) c = false.
Proof. intros. unfold KBitmap.bit. cbn [KBitmap.v bits]. rewrite nth_zeros. apply Z.bits_0. Qed.

(** The map in memory. *)
Lemma bitbuf_spec n :
  3 <= n <= 131072 ->
  exists l, (l1 ← doallocbit (zeros (MAXBITBLOCKS * SFS_BLOCKSIZE)) SFS_SB_LOCATION;
             l2 ← doallocbit l1 SFS_ROOT_LOCATION;
             l3 ← alloc_bits (Z.to_nat (SFS_BITBLOCKS n)) SFS_MAP_LOCATION l2;
             alloc_bits (Z.to_nat (SFS_BITMAPSIZE n - n)) n l3) = Done l /\ KBitmap.wf (bits l) /\
    forall c, 0 <= c < 4096 * SFS_BITBLOCKS n -> KBitmap.bit (bits l) c = bool_decide (c < SFS_MAP_LOCATION + SFS_BITBLOCKS n \/ n <= c).
Proof.
  intros Hn. destruct (size_bounds n Hn) as (Hb & Hm & Hs & Hu). unfold SFS_SB_LOCATION, SFS_ROOT_LOCATION, SFS_MAP_LOCATION in *.
  destruct (doallocbit_spec _ 0 zeros_wf ltac:(lia) (zeros_bit 0 ltac:(lia))) as (l1 & -> & Hwf1 & Hb1). cbn [mbind outcome_bind].
  destruct (doallocbit_spec l1 1 Hwf1 ltac:(lia)) as (l2 & -> & Hwf2 & Hb2). { rewrite Hb1, zeros_bit by lia. done. } cbn [mbind outcome_bind].
  destruct (alloc_bits_spec (Z.to_nat (SFS_BITBLOCKS n)) 2 l2 Hwf2 ltac:(lia) ltac:(lia)) as (l3 & -> & Hwf3 & Hb3).
  { intros c Hc. rewrite Hb2, Hb1, zeros_bit by lia. rewrite !bool_decide_eq_false_2 by lia. done. } cbn [mbind outcome_bind].
  destruct (alloc_bits_spec (Z.to_nat (SFS_BITMAPSIZE n - n)) n l3 Hwf3 ltac:(lia) ltac:(lia)) as (l4 & -> & Hwf4 & Hb4).
  { intros c Hc. rewrite Hb3, Hb2, Hb1, zeros_bit by lia. rewrite !bool_decide_eq_false_2 by lia. done. }
  exists l4. split; [done|]. split; [done|]. intros c Hc. rewrite Hb4, Hb3, Hb2, Hb1, zeros_bit, !Z2Nat.id by lia.
  repeat case_bool_decide; cbn; (done || lia).
Qed.

Definition ends_badly (d : disk) (e : Z) : Prop := e = 1 /\ ~ calm (sched d).

Lemma ends_badly_suffix d d' e : sched d' `suffix_of` sched d -> ends_badly d' e -> ends_badly d e.
Proof. intros Hs [-> Hc]. split; [done|]. intros Hcalm. apply Hc. by eapply calm_suffix. Qed.

(** Sequencing of writes. *)
Lemma wp_then {A} (m : M disk unit) (k : unit -> M disk A) d n f Q :
  wp m (fun _ d' => now d d' n f) (fun e _ => ends_badly d e) d ->
  (forall d', now d d' n f -> wp (k tt) Q (fun e _ => ends_badly d' e) d') ->
  wp (m ≫= k) Q (fun e _ => ends_badly d e) d.
Proof.
  intros Hm Hk. wp_base. eapply wp_mono; [exact Hm| |done]. intros [] d' Hnow. cbn beta in Hnow.
  eapply wp_mono; [by apply Hk|done|]. intros e d'' He. by eapply ends_badly_suffix; [apply Hnow|].
Qed.

Lemma wp_writebitmap d n :
  ready d n -> 3 <= n ->
  wp (writebitmap HOST n) (fun _ d' => exists l, KBitmap.wf (bits l) /\
      (forall c, 0 <= c < 4096 * SFS_BITBLOCKS n -> KBitmap.bit (bits l) c = bool_decide (c < SFS_MAP_LOCATION + SFS_BITBLOCKS n \/ n <= c)) /\
      now d d' n (map_blocks (vblock d) 0 (SFS_BITBLOCKS n) l)) (fun e _ => ends_badly d e) d.
Proof.
  intros Hr Hn. pose proof Hr as (_ & _ & Hn'). destruct (size_bounds n ltac:(lia)) as (Hb & Hm & Hs & Hu).
  destruct (bitbuf_spec n ltac:(lia)) as (l & E & Hwf & Hbits). unfold writebitmap. rewrite bool_decide_eq_false_2 by (unfold MAXBITBLOCKS; lia).
  apply bind_Done in E as (l1 & E1 & E). apply bind_Done in E as (l2 & E2 & E). apply bind_Done in E as (l3 & E3 & E4).
  wp_base. eapply wp_lift; [exact E1|]. wp_base. eapply wp_lift; [exact E2|]. wp_base. eapply wp_lift; [exact E3|]. wp_base. eapply wp_lift; [exact E4|].
  eapply wp_mono; [apply (wp_write_map _ 0 l d n); [done|lia|lia|]|..].
  - pose proof (KBitmap.wf_len _ Hwf) as Hlen. cbn [KBitmap.v KBitmap.nbits bits] in Hlen. change ((131072 + 7) / 8) with 16384 in Hlen. lia.
  - intros [] d' Hnow. rewrite Z2Nat.id in Hnow by lia. by exists l.
  - done.
Qed.

(** The three parts of the program that write. *)
Lemma wp_writes d n volname (Q : Z -> disk -> Prop) :
  ready d n -> 3 <= n -> good_name volname ->
  (forall d', ready d' n -> sched d' `suffix_of` sched d -> formatted (vblock d') n volname ->
     Q 0 (mkDisk (image d') false (pos d') (nblocks d') (sched d'))) ->
  wp (_ ← writesuper HOST volname n; _ ← writerootdir HOST; _ ← writebitmap HOST n; _ ← closedisk true; mret 0) Q
     (fun e _ => ends_badly d e) d.
Proof.
  intros Hr Hn Hname HQ. pose proof Hr as (_ & _ & Hn'). destruct (size_bounds n ltac:(lia)) as (Hb & Hm & _ & _).
  pose proof Hname as [_ Hl]. unfold writesuper. rewrite bool_decide_eq_false_2 by lia. fold (fsuper n volname). unfold SFS_MAP_LOCATION in Hm.
  eapply wp_then; [apply wp_diskwrite; [done|apply length_super_bytes, fsuper_wf; [lia|done]|unfold SFS_SB_LOCATION; lia]|]. intros d1 Hnow1.
  pose proof Hnow1 as (Hr1 & _ & Hs1 & Hf1). unfold writerootdir. fold froot.
  eapply wp_then; [apply wp_diskwrite; [done|apply length_inode_bytes, froot_wf|unfold SFS_ROOT_LOCATION; lia]|]. intros d2 Hnow2.
  pose proof Hnow2 as (Hr2 & _ & Hs2 & Hf2). wp_base.
  eapply wp_mono; [apply (wp_writebitmap d2 n Hr2 Hn)| |done]. intros [] d3 (l & Hwf & Hbits & Hr3 & _ & Hs3 & Hf3).
  wp_base. unfold closedisk. do 3 wp_base. apply wp_massert; [apply Hr3|]. cbn [negb]. wp_base. wp_base.
  apply HQ; [done|by do 2 (etrans; [|done])|]. unfold SFS_SB_LOCATION, SFS_ROOT_LOCATION, SFS_MAP_LOCATION in *.
  split; unfold SFS_SB_LOCATION, SFS_ROOT_LOCATION, SFS_MAP_LOCATION.
  - rewrite Hf3 by lia. unfold map_blocks, SFS_MAP_LOCATION. rewrite decide_False by lia. rewrite Hf2 by lia. unfold put_block.
    rewrite decide_False by lia. rewrite Hf1 by lia. unfold put_block. by rewrite decide_True.
  - rewrite Hf3 by lia. unfold map_blocks, SFS_MAP_LOCATION. rewrite decide_False by lia. rewrite Hf2 by lia. unfold put_block. by rewrite decide_True.
  - exists l. split; [done|]. split; [done|]. intros k Hk. rewrite Hf3 by lia. unfold map_blocks, SFS_MAP_LOCATION.
    rewrite decide_True by lia. f_equal. lia.
Qed.

(** ** The program *)

(** The name without or with a colon at its end. *)
Lemma wp_check_volname volname colon d (Q : list Z -> disk -> Prop) E :
  good_name volname -> colon = [] \/ colon = [58] -> Q volname d -> wp (check_volname (volname ++ colon)) Q E d.
Proof.
  intros [Hall _] Hcol HQ. unfold check_volname. wp_base.
  assert (Hno : forall c, (c = 58 \/ c = 47) -> list_find (fun x => x = c) volname = None).
  { intros c Hc. apply list_find_None. eapply Forall_impl; [exact Hall|]. intros x (_ & ? & ?). destruct Hc; subst; done. }
  assert (Hfind : forall K : M disk (list Z), wp K (fun v d' => v = volname /\ d' = d) E d -> wp K (fun v d' => wp (match list_find (fun c => c = 47) v with Some _ => fail 1 | None => mret v end) Q E d') E d).
  { intros K HK. eapply wp_mono; [exact HK| |done]. intros v d' [-> ->]. rewrite Hno by auto. by wp_base. }
  apply Hfind. destruct Hcol as [-> | ->].
  - rewrite app_nil_r, Hno by auto. by wp_base.
  - rewrite list_find_app_r by (apply Hno; auto). cbn [list_find]. rewrite decide_True by done. cbn [fmap option_fmap option_map prod_map fst].
    rewrite Nat.add_0_l, drop_app_length, take_app_length. cbn [length]. rewrite bool_decide_eq_false_2 by (by intros []). by wp_base.
Qed.

(** On the host, the image has its header and the read of it gets that far. *)
Definition header_ok (d : disk) : Prop :=
  HOST = true -> take 21 (image d) = HOSTSTRING /\
    match sched d with [] => True | Moves k :: _ => 21 <= k | _ => False end.

Lemma wp_opendisk d n :
  fd d = false -> Z.of_nat (length (image d)) = (hd + n) * 512 -> 3 <= n <= 131072 -> header_ok d ->
  wp (opendisk HOST true true) (fun _ d' => ready d' n /\ nblocks d' = n /\ image d' = image d /\ sched d' `suffix_of` sched d) (fun _ _ => False) d.
Proof.
  intros Hfd Hlen Hn Hhd. unfold opendisk. do 3 wp_base. apply wp_massert; [by rewrite Hfd|]. cbn [negb]. do 2 wp_base. do 2 wp_base. unfold BLOCKSIZE.
  assert (Hdiv : u32 (Z.of_nat (length (image d)) / 512) = hd + n).
  { rewrite Hlen, Z.div_mul by lia. apply u32_small. unfold hd. destruct HOST; lia. }
  rewrite Hdiv. unfold ready, hd in *. destruct HOST eqn:EH.
  2: { wp_base. split_and!; try done; lia. }
  destruct (Hhd EH) as [Hstr Hsched]. do 2 wp_base. cbn [nblocks image fd pos sched]. rewrite u32_small by lia. wp_base. unfold read. wp_base. apply wp_next_io. cbn [sched].
  assert (Hgo : forall r k l, moved_of r 63 = inl k -> 21 <= k -> l `suffix_of` sched d ->
    wp (f ← get_file; d0 ← get;
        match moved_of r 63 with
        | inl n0 => _ ← modify (fun d1 => mkDisk (image d1) (fd d1) (pos d1 + Z.of_nat (length (slice f (pos d0) n0))) (nblocks d1) (sched d1));
                    mret (inl (Z.of_nat (length (slice f (pos d0) n0)), slice f (pos d0) n0))
        | inr again => mret (inr again)
        end)
      (fun r0 s' => wp (match r0 with
          | inl (_, data) => if bool_decide (upto_nul (take (length HOSTSTRING) data) ≠ HOSTSTRING) then fail 1 else mret tt
          | inr _ => lift Stuck end)
        (fun _ d' => (fd d' = true /\ Z.of_nat (length (image d')) = (1 + n) * 512 /\ 0 <= n <= 131072) /\ nblocks d' = n /\ image d' = image d /\ sched d' `suffix_of` sched d)
        (fun _ _ => False) s') (fun _ _ => False) (mkDisk (image d) true 0 (1 + n - 1) l)).
  { intros r k l Hr Hk Hsuf. wp_base. apply wp_get_file; [done|]. do 2 wp_base. rewrite Hr. cbn [pos image]. do 3 wp_base.
    unfold slice. change (Z.to_nat 0) with 0%nat. rewrite drop_0. change (length HOSTSTRING) with 21%nat. rewrite take_take, Nat.min_l, Hstr by lia.
    rewrite bool_decide_eq_false_2 by (by intros []). wp_base. cbn. split_and!; try done; lia. }
  destruct (sched d) as [|[k| |] l]; try done.
  - by apply (Hgo None 63); [done|lia|].
  - apply (Hgo (Some (Moves k)) (Z.max 0 (Z.min k 63))); [done|lia|by exists [Moves k]].
Qed.

Lemma wp_mksfs d n prog path volname colon :
  fd d = false -> Z.of_nat (length (image d)) = (hd + n) * 512 -> 3 <= n <= 131072 -> header_ok d ->
  good_name volname -> colon = [] \/ colon = [58] ->
  wp (main HOST [prog; path; volname ++ colon] true true true) (fun r d' => r = 0 /\ formatted (vblock d') n volname)
     (fun e _ => ends_badly d e) d.
Proof.
  intros Hfd Hlen Hn Hhd Hname Hcol. unfold main. wp_base. apply (wp_check_volname volname colon); [done|done|]. wp_base.
  eapply wp_mono; [by apply (wp_opendisk d n)| |done]. intros [] d1 (Hr1 & Hnb1 & _ & Hs1). wp_base. unfold diskblocksize. do 3 wp_base.
  apply wp_massert; [apply Hr1|]. wp_base. rewrite bool_decide_eq_false_2 by (by intros []). wp_base. unfold diskblocks. do 3 wp_base.
  apply wp_massert; [apply Hr1|]. wp_base. rewrite Hnb1.
  eapply wp_mono; [apply (wp_writes d1 n volname (fun r d' => r = 0 /\ formatted (vblock d') n volname)); [done|lia|done|]|done|].
  - intros d2 _ _ Hf. split; [done|]. exact Hf.
  - intros e d2 He. by eapply ends_badly_suffix.
Qed.
End prog.

(** ** The volume *)

Section mounting.
Context {D : Type} `{BlockDevice D, !BlockDeviceLaws D}.
Implicit Types s : Sfs.sfs_fs D.

Lemma fsuper_name n volname :
  good_name volname -> sp_volname (fsuper n volname) = volname ++ 0 :: zeros (31 - Z.of_nat (length volname)).
Proof.
  intros [_ Hl]. unfold SFS_VOLNAME_SIZE in *. cbn [fsuper sp_volname]. unfold splice. cbn [Z.to_nat take app Nat.add].
  rewrite <- app_assoc. cbn [app]. apply (f_equal (fun x => volname ++ 0 :: x)). unfold zeros, SFS_VOLNAME_SIZE. rewrite drop_replicate, length_app. f_equal. cbn [length]. lia.
Qed.

Lemma fsuper_end n volname : good_name volname -> sp_volname (fsuper n volname) !! 31%nat = Some 0.
Proof.
  intros Hn. rewrite fsuper_name by done. destruct Hn as [_ Hl]. unfold SFS_VOLNAME_SIZE in Hl. rewrite lookup_app_r by lia.
  destruct (31 - length volname)%nat as [|k] eqn:E; [done|]. cbn. apply lookup_replicate_2. lia.
Qed.

Lemma formatted_volume s f n volname :
  d_ok (Sfs.sfs_device s) -> d_blocks (Sfs.sfs_device s) = n -> 3 <= n <= 131072 -> good_name volname ->
  (forall b, 0 <= b < n -> sect s b = f b) -> formatted f n volname ->
  exists bytes, volume s (fsuper n volname) bytes /\
    forall c, 0 <= c < 4096 * SFS_BITBLOCKS n ->
      KBitmap.bit (KBitmap.mkBitmap (SFS_BITMAPSIZE n) bytes) c = bool_decide (c < SFS_MAP_LOCATION + SFS_BITBLOCKS n \/ n <= c).
Proof.
  intros Hok Hd Hn Hname Hsec [Hsup Hroot (l & Hwf & Hbits & Hmap)]. destruct (size_bounds n Hn) as (Hb & Hm & Hs & Hu).
  pose proof (KBitmap.wf_len _ Hwf) as Hlen. cbn [KBitmap.v KBitmap.nbits bits] in Hlen. change ((131072 + 7) / 8) with 16384 in Hlen.
  unfold SFS_MAP_LOCATION in Hm. exists (slice l 0 (SFS_BITBLOCKS n * 512)).
  assert (Hbit : forall c, 0 <= c < 4096 * SFS_BITBLOCKS n ->
    KBitmap.bit (KBitmap.mkBitmap (SFS_BITMAPSIZE n) (slice l 0 (SFS_BITBLOCKS n * 512))) c = KBitmap.bit (bits l) c).
  { intros c Hc. unfold KBitmap.bit, KBitmap.BITS_PER_WORD. cbn [KBitmap.v bits]. f_equal.
    rewrite nth_slice; [done|lia|]. split; [apply Z.div_pos; lia|apply Z.div_lt_upper_bound; lia]. }
  split; [|intros c Hc; rewrite Hbit by done; by apply Hbits]. split; cbn [fsuper sp_magic sp_nblocks]; try done.
  - rewrite Hsec by (unfold SFS_SB_LOCATION; lia). rewrite Hsup. by apply super_roundtrip, fsuper_wf; [lia|].
  - lia.
  - unfold SFS_MAP_LOCATION. lia.
  - apply (map_bytes_slice s l 0); [lia|lia|]. intros k Hk. rewrite Hsec by (unfold SFS_MAP_LOCATION; lia). apply Hmap. lia.
  - unfold slice. apply Forall_take, Forall_drop, Hwf.
  - intros b Hb'. rewrite Hbit, Hbits by lia. apply bool_decide_eq_true_2. lia.
  - rewrite Hbit, Hbits by lia. apply bool_decide_eq_true_2. unfold SFS_MAP_LOCATION. lia.
Qed.

(** Nothing is loaded yet. *)
Lemma mounted_vol_ok s s' n volname bytes :
  d_ok (Sfs.sfs_device s) -> 3 <= n <= 131072 -> good_name volname -> volume s (fsuper n volname) bytes -> Sfs.k_heap s = ∅ ->
  (forall c, 0 <= c < 4096 * SFS_BITBLOCKS n ->
     KBitmap.bit (KBitmap.mkBitmap (SFS_BITMAPSIZE n) bytes) c = bool_decide (c < SFS_MAP_LOCATION + SFS_BITBLOCKS n \/ n <= c)) ->
  mounted s (fsuper n volname) bytes s' ->
  vol_ok s' /\ Sfs.sfs_super s' = fsuper n volname /\ Sfs.k_heap s' = ∅ /\ KArray.num (Sfs.sfs_vnodes s') = 0 /\
  (forall b, 0 <= b < n -> used s' b = bool_decide (b < SFS_MAP_LOCATION + SFS_BITBLOCKS n)) /\
  (forall b, 0 <= b < n -> sect s' b = sect s b).
Proof.
  intros Hok Hn Hname Hvol Hheap Hbits Hm. pose proof (mounted_good _ _ _ _ Hok Hvol Hm) as Hg. destruct Hvol.
  destruct Hm as (d' & o & -> & Hok' & Hbl & Hsec). destruct (size_bounds n Hn) as (Hb & Hroom & Hs & Hu). cbn [fsuper sp_nblocks] in *.
  assert (Hends : ends_name (fsuper n volname) = fsuper n volname).
  { unfold ends_name. rewrite list_insert_id by (by apply fsuper_end). by destruct (fsuper n volname). }
  cbn [fsuper sp_nblocks] in Hends. fold (fsuper n volname) in Hends. rewrite Hends in *. set (s' := Sfs.mkSfs _ _ _ _ _ _ _ _ _) in *.
  assert (Hnb : nb s' = n) by done. assert (Hfb : first_block s' = SFS_MAP_LOCATION + SFS_BITBLOCKS n) by done.
  assert (Hnone : forall p sv, Sfs.k_heap s' !! p = Some sv -> False) by (intros p sv; cbn; rewrite Hheap, lookup_empty; done).
  assert (Hsect : forall b, 0 <= b < n -> sect s' b = sect s b) by (intros b Hb'; apply Hsec; lia).
  split; [|split_and!; [done|done|done| |done]].
  2: { intros b Hb'. unfold used. cbn [Sfs.sfs_freemap s']. rewrite Hbits by lia. apply bool_decide_ext. lia. }
  split; split; try (intros; exfalso; by eapply Hnone).
  - done.
  - by apply fsuper_wf; [lia|].
  - done.
  - by apply fsuper_end.
  - done.
  - by rewrite Hfb, Hnb.
  - intros b. rewrite Hfb. intros Hb'. unfold used. cbn [Sfs.sfs_freemap s']. rewrite Hbits by lia. apply bool_decide_eq_true_2. lia.
  - split; cbn; (lia || done).
  - intros c. cbn. rewrite Hheap. split; [by intros ?%not_elem_of_nil|]. intros (p & _ & [? Hp]). by rewrite lookup_empty in Hp.
  - intros _. rewrite Hsect by (unfold SFS_SB_LOCATION; lia). done.
  - intros _. change (bb s') with (SFS_BITBLOCKS n). cbn [Sfs.sfs_freemap s' KBitmap.v]. rewrite <- v_map0. unfold map_bytes. f_equal.
    apply list_fmap_ext. intros k x [-> Hk]%lookup_seqZ. apply Hsect. unfold SFS_MAP_LOCATION in *. lia.
Qed.

Lemma froot_slots s b : b ∈ slots s froot -> b = 0.
Proof.
  unfold slots, idwords. cbn [froot sfi_direct sfi_indirect]. rewrite decide_True by done.
  rewrite elem_of_app, elem_of_cons. unfold zeros. rewrite !elem_of_replicate. tauto.
Qed.

Lemma froot_ok s : file_ok s froot.
Proof.
  split; [apply froot_wf| | |cbn; unfold MAXFILE; lia].
  - intros j k b Hj%list_elem_of_lookup_2%froot_slots _ Hb. done.
  - intros b Hin%froot_slots Hb. done.
Qed.

Lemma root_loads s n :
  vol_ok s -> KArray.num (Sfs.sfs_vnodes s) = 0 -> Sfs.k_heap s = ∅ -> nb s = n -> 3 <= n -> used s SFS_ROOT_LOCATION = true ->
  sect s SFS_ROOT_LOCATION = inode_bytes froot ->
  wp (Sfs.sfs_loadvnode SFS_ROOT_LOCATION SFS_TYPE_INVAL)
     (fun p s' => vol_ok s' /\ exists sv, dok s' p sv /\ dir_map (dirents s' (Sfs.sv_i sv)) = ∅) (fun e _ => e = ENOMEM) s.
Proof.
  intros Hv Hnum Hheap Hnb Hn Hused Hroot.
  assert (Hlo : loadable s SFS_ROOT_LOCATION froot).
  { split; [|by left|unfold SFS_ROOT_LOCATION; lia|done|rewrite Hroot; apply inode_roundtrip, froot_wf|apply froot_ok| |].
    - intros p sv. rewrite Hheap, lookup_empty. done.
    - intros b Hin%froot_slots Hb. done.
    - intros b p sv. rewrite Hheap, lookup_empty. done. }
  eapply wp_mono; [apply (wp_loadvnode s SFS_ROOT_LOCATION froot Hv); [lia|done|by right]| |by intros e ? [-> _]].
  intros p s' Hw. cbn beta in Hw. assert (Hv' : vol_ok s') by (eapply with_vnode_ok; [exact Hv| | | |exact Hw]; done).
  split; [done|]. destruct Hw as (_ & _ & s1 & a & o & _ & -> & _). eexists. split.
  - split; [apply vol_fok; [apply Hv'|apply lookup_insert_eq]|done|done|constructor].
  - done.
Qed.

(** C9. On a disk of a size it supports, and if no system call fails, [mksfs] makes a
    volume that [sfs_domount] accepts on any device with these blocks, unless
    there is no memory: it has the size and the name given, exactly the
    superblock, the root inode and the free map are in use, the invariant of a
    mounted volume holds, and loading the root gives an empty directory. *)
Theorem mksfs_mounts (HOST : bool) (d : disk) (n : Z) (prog path volname colon : list Z) :
  fd d = false -> Z.of_nat (length (image d)) = (hd HOST + n) * 512 -> 3 <= n <= 131072 -> header_ok HOST d ->
  good_name volname -> colon = [] \/ colon = [58] -> calm (sched d) ->
  exists d', main HOST [prog; path; volname ++ colon] true true true d = Done (inr 0, d') /\
  forall s, d_ok (Sfs.sfs_device s) -> d_blocksize (Sfs.sfs_device s) = SFS_BLOCKSIZE -> d_blocks (Sfs.sfs_device s) = n ->
    (forall b, 0 <= b < n -> d_sector (Sfs.sfs_device s) b = vblock HOST d' b) -> Sfs.k_heap s = ∅ ->
    wp Sfs.sfs_domount
      (fun _ s1 => vol_ok s1 /\ nb s1 = n /\ Sfs.sfs_getvolname s1 = volname /\
         (forall b, 0 <= b < n -> used s1 b = bool_decide (b < SFS_MAP_LOCATION + SFS_BITBLOCKS n)) /\
         wp (Sfs.sfs_loadvnode SFS_ROOT_LOCATION SFS_TYPE_INVAL)
            (fun p s2 => vol_ok s2 /\ exists sv, dok s2 p sv /\ dir_map (dirents s2 (Sfs.sv_i sv)) = ∅) (fun e _ => e = ENOMEM) s1)
      (fun e _ => e = ENOMEM) s.
Proof.
  intros Hfd Hlen Hn Hhd Hname Hcol Hcalm.
  destruct (wp_done _ _ _ _ (wp_mksfs HOST d n prog path volname colon Hfd Hlen Hn Hhd Hname Hcol)) as ([e|r] & d' & E & Hpost).
  { by destruct Hpost. }
  destruct Hpost as [-> Hfm]. exists d'. split; [done|]. intros s Hok Hbs Hbl Hsec Hheap.
  destruct (formatted_volume s (vblock HOST d') n volname Hok Hbl Hn Hname Hsec Hfm) as (bytes & Hvol & Hbits).
  eapply wp_mono; [apply (wp_domount s _ _ Hok Hbs Hvol)| |done]. intros [] s1 Hm. cbn beta in Hm.
  destruct (mounted_vol_ok s s1 n volname bytes Hok Hn Hname Hvol Hheap Hbits Hm) as (Hv1 & Hsup & Hh1 & Hnum & Hused & Hsect).
  destruct (size_bounds n Hn) as (Hb & Hroom & _). assert (Hnb : nb s1 = n) by (unfold nb; by rewrite Hsup).
  split; [done|]. split; [done|]. split.
  - unfold Sfs.sfs_getvolname. rewrite Hsup, fsuper_name by done. apply cstr_app. destruct Hname as [Hall _].
    eapply Forall_impl; [exact Hall|]. by intros ? [? _].
  - split; [done|]. apply (root_loads s1 n); [done|done|done|done|lia| |].
    + rewrite Hused by (unfold SFS_ROOT_LOCATION; lia). apply bool_decide_eq_true_2. unfold SFS_ROOT_LOCATION, SFS_MAP_LOCATION. lia.
    + rewrite Hsect by (unfold SFS_ROOT_LOCATION; lia). rewrite <- (fm_root _ _ _ Hfm). apply Hsec. unfold SFS_ROOT_LOCATION. lia.
Qed.
End mounting.

End MksfsTheorems.
