(* ===== verification/SfsMountExample.v ===== *)
(** * SFS volumes: examples

    The volume of [SfsExample] satisfies the invariant of a mounted volume, and
    the theorems about sync, mounting and [mksfs] are applied to it and to a
    disk image of sixteen blocks. *)

From S2P Require Import Prelude KArray KBitmap UserMem Uio BlockDev Lhd SfsFormat Sfs SfsBlocks SfsFile SfsIo SfsDir SfsExample SfsMount Mksfs MksfsTheorems.

Module SfsMountExample.
Import UserMem Uio SfsFormat Sfs SfsBlocks SfsFile SfsIo SfsDir SfsExample SfsMount Lhd.

Lemma ex_super_wf : super_wf ex_super.
Proof. split; try done. apply Forall_replicate. lia. Qed.

(** The three loaded vnodes. *)
Lemma ex_heap p sv :
  k_heap ex_fs !! p = Some sv -> p = ex_root /\ sv = ex_root_sv \/ p = ex_file /\ sv = ex_file_sv \/ p = ex_big /\ sv = ex_big_sv.
Proof.
  cbn [ex_fs ex_fs_on k_heap]. rewrite !lookup_insert_Some, lookup_empty.
  intros [[<- <-]|(_ & [[<- <-]|(_ & [[<- <-]|(_ & H)])])]; auto. done.
Qed.

(** Their blocks. *)
Lemma ex_slots p sv b :
  k_heap ex_fs !! p = Some sv -> b ∈ slots ex_fs (sv_i sv) -> b ≠ 0 ->
  p = ex_root /\ b = 4 \/ p = ex_file /\ b = 5 \/ p = ex_big /\ (b = 7 \/ b = 8 \/ b = 9).
Proof.
  assert (Hone : forall x n, b ∈ x :: replicate n 0 -> b ≠ 0 -> b = x).
  { intros x n [->|Hr]%elem_of_cons Hb; [done|]. by apply elem_of_replicate in Hr as [-> _]. }
  intros [[-> ->]|[[-> ->]|[-> ->]]]%ex_heap; cbn [sv_i ex_root_sv ex_file_sv ex_big_sv].
  - unfold ex_root_inode. rewrite one_block_slots. intros Hin Hb. left. split; [done|]. by eapply Hone.
  - unfold ex_file_inode. rewrite one_block_slots. intros Hin Hb. right; left. split; [done|]. by eapply Hone.
  - intros [j Hj]%list_elem_of_lookup_1 Hb. right; right. split; [done|]. destruct (ex_big_slot j b Hj Hb). lia.
Qed.

Lemma ex_vnode_ok p sv : k_heap ex_fs !! p = Some sv -> vnode_ok ex_fs p sv.
Proof.
  intros [[-> ->]|[[-> ->]|[-> ->]]]%ex_heap; (split; [done| |done|done| |by vm_compute|by vm_compute]).
  - apply ex_root_fok.
  - by left.
  - apply ex_file_fok.
  - right. by vm_compute.
  - apply ex_big_fok.
  - right. by vm_compute.
Qed.

Lemma ex_vol_struct : vol_struct ex_fs.
Proof.
  split; [apply ex_good|apply ex_super_wf|done|done|done|by vm_compute| | | |apply ex_vnode_ok| | | |].
  - intros b. change (first_block ex_fs) with 3. intros Hb. assert (b = 0 \/ b = 1 \/ b = 2) as [->|[-> | ->]] by lia; done.
  - split; cbn; [lia|by vm_compute|done].
  - intros c. change (KArray.contents (sfs_vnodes ex_fs)) with [Some ex_root; Some ex_file; Some ex_big]. split.
    + intros Hc. repeat (apply elem_of_cons in Hc as [->|Hc]; [eexists; split; [done|]; by eexists|]). by apply not_elem_of_nil in Hc.
    + intros (p & -> & [sv [[-> _]|[[-> _]|[-> _]]]%ex_heap]); rewrite !elem_of_cons; auto.
  - intros p q sv sw [[-> ->]|[[-> ->]|[-> ->]]]%ex_heap [[-> ->]|[[-> ->]|[-> ->]]]%ex_heap E; done.
  - intros p sv b Hp Hin Hb. change (first_block ex_fs) with 3. pose proof (ex_slots p sv b Hp Hin Hb). lia.
  - intros p q sv sw b Hp [[-> ->]|[[-> ->]|[-> ->]]]%ex_heap Hin Hb; pose proof (ex_slots p sv b Hp Hin Hb); cbn; lia.
  - intros p q sv sw Hp Hq Hne b Hin Hb Hin'. pose proof (ex_slots p sv b Hp Hin Hb). pose proof (ex_slots q sw b Hq Hin' Hb). lia.
Qed.

Lemma ex_vol_ok : vol_ok ex_fs.
Proof.
  split; [apply ex_vol_struct|]. split.
  - intros _. vm_compute. reflexivity.
  - intros _. vm_compute. reflexivity.
  - intros p sv [[-> ->]|[[-> ->]|[-> ->]]]%ex_heap _; vm_compute; reflexivity.
Qed.

(** After a write, with the map and the inode not yet on the disk. *)
Lemma ex_write_step : vstep ex_fs (fst ex_after).
Proof.
  eapply (step_write ex_fs (fst ex_after) ex_file ex_file_sv ex_wr (snd ex_after));
    [done|apply ex_wr_kwf|done|cbn; lia|cbn; unfold MAXFILE; lia|]. rewrite ex_after_eq. by destruct ex_after.
Qed.

Lemma volume_invariant_witness : vol_ok (fst ex_after).
Proof. apply (volume_invariant ex_fs); [apply ex_vol_ok|]. apply rtc_once, ex_write_step. Defined.

(** The object [sfs_domount] starts with. *)
Definition unmounted (d : lhd_softc simdisk) : sfs_fs (lhd_softc simdisk) :=
  mkSfs ex_super false d (KArray.mkArray 0 0 None) (KBitmap.mkBitmap 0 []) false ∅ ex_ctx (replicate 8 true).

Lemma sync_remount_witness :
  exists s1, sfs_sync (fst ex_after) = Done (inr tt, s1) /\
    wp sfs_domount (fun _ s3 => sfs_freemap s3 = sfs_freemap (fst ex_after)) (fun e _ => e = ENOMEM) (unmounted (sfs_device s1)).
Proof.
  destruct (sync_remount (fst ex_after) (vstep_ok _ _ ex_vol_ok ex_write_step)) as (s1 & E & _ & Hm).
  exists s1. split; [exact E|]. eapply wp_mono; [apply (Hm (unmounted (sfs_device s1))); done| |done].
  intros _ s3 (_ & _ & Hf & _). exact Hf.
Defined.

(** ** An image *)
Import Mksfs MksfsTheorems.

(** A header and sixteen blocks; a read of the whole header, an interrupted
    write and two that write a part. *)
Definition ex_image : Mksfs.disk :=
  mkDisk (HOSTSTRING ++ zeros 491 ++ zeros 8192) false 0 0 [Moves 63; Interrupted; Moves 100; Moves 1].

(** The name ["v:"]. *)
Definition ex_argv : list (list Z) := [[109]; [100]; [118] ++ [58]].
Definition after {A} (m : M Mksfs.disk A) (d : Mksfs.disk) : Mksfs.disk := match m d with Done (_, d') => d' | _ => d end.
Definition ex_made : Mksfs.disk := after (Mksfs.main true ex_argv true true true) ex_image.
Definition ex_volume : lhd_softc simdisk :=
  mkLhd (mkSim (vblock true ex_made <$> seqZ 0 16) []) LHD_IDLE (zeros 512) 0 1 0 16.

Lemma ex_volume_ready : Lhd.ready ex_volume.
Proof.
  split; try done. split; [done|]. split; [|done]. cbn [sim_sectors lh_hw ex_volume].
  assert (forallb (fun d => Nat.eqb (length d) 512) (vblock true ex_made <$> seqZ 0 16) = true) as Hb by (vm_compute; reflexivity).
  apply Forall_forall. intros d Hd. rewrite forallb_forall in Hb. apply Nat.eqb_eq, Hb. by apply list_elem_of_In.
Qed.

Lemma mksfs_mounts_witness :
  wp sfs_domount (fun _ s1 => vol_ok s1 /\ sfs_getvolname s1 = [118]) (fun e _ => e = ENOMEM) (unmounted ex_volume).
Proof.
  destruct (mksfs_mounts (D := lhd_softc simdisk) true ex_image 16 [109] [100] [118] [58]) as (d' & E & Hm).
  - done.
  - vm_compute. reflexivity.
  - lia.
  - intros _. split; [vm_compute; reflexivity|cbn; lia].
  - split; [repeat constructor; lia|vm_compute; reflexivity].
  - by right.
  - repeat constructor; lia.
  - assert (ex_made = d') as <- by (unfold ex_made, after, ex_argv; rewrite E; reflexivity).
    eapply wp_mono; [apply (Hm (unmounted ex_volume))| |done].
    + apply ex_volume_ready.
    + done.
    + vm_compute. reflexivity.
    + intros b Hb. cbn [d_sector lhd_device hw_sector sim_hw lh_hw ex_volume sfs_device unmounted]. unfold sim_sector.
      rewrite bool_decide_eq_true_2 by lia. cbn [sim_sectors]. rewrite nth_lookup, list_lookup_fmap, lookup_seqZ_lt by lia. cbn.
      f_equal. lia.
    + done.
    + intros _ s1 (Hv & _ & Hn & _). exact (conj Hv Hn).
Defined.

End SfsMountExample.
