(* ===== verification/Syscall.v ===== *)
(** * System calls: [arch/mips/mips/syscall.c], [userprog/simple_syscalls.c] and
      [sys_reboot] of [main/main.c]

    [mips_syscall] on the registers of the trap frame, over a kernel that is
    put together from the components: the console, the virtual memory, the VFS
    layer and the thread system.  [sys_reversestring] reads the string of the
    program itself, with the processor in kernel mode and without [copyin]:
    [kload] is such an access.  The calls as a program makes them, through
    [lib/libc/syscalls-mips.S], and the test program [testA] are at the end. *)

From stdpp Require Import strings.
From S2P Require Import Prelude Uio Libc Printf Console KQueue Thread ThreadSpec.
From S2P Require Import Ram DumbVm DumbVmSpec DumbVmOps DumbVmTheorems VmCopy Vfs VfsSpec VfsOps VfsCalls.

Module Syscall.
Import Libc Printf Console Ram DumbVm DumbVmSpec DumbVmOps DumbVmTheorems VmCopy.

(** ** Constants *)

(** [kern/callno.h] *)
Definition SYS__exit : Z := 0.
Definition SYS_reboot : Z := 8.
Definition SYS_printint : Z := 32.
Definition SYS_reversestring : Z := 33.

(** [kern/unistd.h] *)
Definition RB_REBOOT : Z := 0.
Definition RB_HALT : Z := 1.
Definition RB_POWEROFF : Z := 2.

Definition MIPS_KSEG1 : Z := 2684354560.       (* 0xa0000000 *)
Definition MIPS_KSEG2 : Z := 3221225472.       (* 0xc0000000 *)

(** ** State *)

(** The registers of a trap frame that system calls use. *)
Record trapframe := mkTf {
  tf_v0 : Z;
  tf_a0 : Z;
  tf_a1 : Z;
  tf_a3 : Z;
  tf_epc : Z
}.

(** How the handler ends: back to the program, in another thread, or with the
    machine stopped in [md_halt] or [md_poweroff]. *)
Inductive after :=
  | Resumes (tf : trapframe)
  | Exits
  | Halts
  | PowersOff.

Section syscall.
Context {C : Type} `{ConDev C} {T : Type} `{Vfs.vnode_layer T}.

(** Each component has its copy of [curspl]. *)
Record kern := mkK {
  con : console C;
  mm : vm;
  vfs : Vfs.vfs T;
  thr : Thread.sys
}.

Abbreviation K := (M kern) (only parsing).

Definition set_con (s : kern) c := mkK c (mm s) (vfs s) (thr s).

(** A call of an operation of a component. *)
Definition on_con {A} (f : console C -> outcome (A * console C)) : K A := fun s =>
  match f (con s) with
  | Done (a, c) => Done (inr a, set_con s c)
  | Panic => Panic
  | Stuck => Stuck
  end.
Definition on_mm {A} (m : M vm A) : K A := fun s =>
  match m (mm s) with
  | Done (r, x) => Done (r, mkK (con s) x (vfs s) (thr s))
  | Panic => Panic
  | Stuck => Stuck
  end.
Definition on_vfs {A} (m : M (Vfs.vfs T) A) : K A := fun s =>
  match m (vfs s) with
  | Done (r, x) => Done (r, mkK (con s) (mm s) x (thr s))
  | Panic => Panic
  | Stuck => Stuck
  end.
Definition on_thr {A} (m : M Thread.sys A) : K A := fun s =>
  match m (thr s) with
  | Done (r, x) => Done (r, mkK (con s) (mm s) (vfs s) x)
  | Panic => Panic
  | Stuck => Stuck
  end.

Definition kprintf (fmt : list Z) (args : list arg) : K Z := on_con (fun c => Console.kprintf c fmt args).

Definition splhigh : K unit :=
  _ ← modify (fun s => set_con s (Console.set_curspl (con s) SPL_HIGH));
  _ ← on_mm (on_mach Ram.splhigh);
  _ ← on_thr Thread.splhigh;
  mret tt.

(** A load in kernel mode without [pcb_badfaultfunc].  The segment [kseg0] is
    memory, with a bus error past its end, [kseg1] is memory and devices, and
    [kseg2] goes through the TLB, where it is never mapped. *)
Definition kload (va : Z) : M vm Z :=
  s ← get;
  if bool_decide (va < MIPS_KSEG0) then
    r ← load true false va;
    lift (match r with Some b => Done b | None => Stuck end)
  else if bool_decide (va < MIPS_KSEG1) then
    if bool_decide (va - MIPS_KSEG0 < lastpaddr (mach s)) then mret (phys s (va - MIPS_KSEG0))
    else _ ← mips_trap EX_DBE va true false; lift Stuck
  else if bool_decide (va < MIPS_KSEG2) then
    if bool_decide (va - MIPS_KSEG1 < lastpaddr (mach s)) then mret (phys s (va - MIPS_KSEG1))
    else lift Stuck
  else _ ← mips_trap EX_TLBL va true false; lift Stuck.

(** ** [simple_syscalls.c] *)

(** [thread_exit] prints its own line and does not return; what it does to the
    thread and its memory comes before the switch to another thread. *)
Definition sys__exit (exitCode : Z) : K after :=
  _ ← kprintf (line "_exit exitCode: %d") [ANum exitCode];
  _ ← kprintf (line "thread_exit exitCode: %d") [ANum exitCode];
  _ ← on_thr Thread.thread_exit_begin;
  _ ← on_mm exit_space;
  mret Exits.

Definition sys_printint (c : Z) : K Z :=
  _ ← kprintf (line "%d") [ANum c];
  mret (if bool_decide (Z.rem c 5 ≠ 0) then 1 else 0).

(** [while (len >= 0)]; [*(str+len)] is a [char], passed as an [int]. *)
Fixpoint reverse_loop (fuel : nat) (str len : Z) : K unit :=
  match fuel with
  | O => lift Stuck
  | S fuel =>
      if bool_decide (len >= 0) then
        b ← on_mm (kload (u32 (str + len)));
        _ ← kprintf (txt "%c") [ANum (schar b)];
        len ← lift (int_op (len - 1));
        reverse_loop fuel str len
      else mret tt
  end.

Definition sys_reversestring (str len : Z) : K Z :=
  let og_len := len in
  len ← lift (int_op (len - 1));
  _ ← reverse_loop (S (Z.to_nat og_len)) str len;
  _ ← kprintf (line "") [];
  mret (if bool_decide (Z.rem og_len 2 = 0) then 1 else 0).

(** ** [main.c] *)

Definition shutdown : K unit :=
  _ ← kprintf (line "Shutting down.") [];
  _ ← on_vfs Vfs.vfs_clearbootfs;
  _ ← on_vfs Vfs.vfs_clearcurdir;
  _ ← on_vfs Vfs.vfs_unmountall;
  _ ← splhigh;
  _ ← on_thr Thread.scheduler_shutdown;
  on_thr Thread.thread_shutdown.

(** [lamebus_mips.c]; neither returns. *)
Definition md_halt : K after := mret Halts.
Definition md_poweroff : K after := mret PowersOff.
Definition md_reboot : K after :=
  _ ← kprintf (line "Cannot reboot - powering off instead, sorry.") [];
  md_poweroff.

(** An error code, or the end of the machine. *)
Definition sys_reboot (code : Z) : K (Z + after) :=
  if bool_decide (code = RB_REBOOT) || bool_decide (code = RB_HALT) || bool_decide (code = RB_POWEROFF) then
    _ ← shutdown;
    if bool_decide (code = RB_HALT) then
      _ ← kprintf (line "The system is halted.") [];
      r ← md_halt; mret (inr r)
    else if bool_decide (code = RB_REBOOT) then
      _ ← kprintf (line "Rebooting...") [];
      r ← md_reboot; mret (inr r)
    else
      _ ← kprintf (line "The system is halted.") [];
      r ← md_poweroff; mret (inr r)
  else mret (inl EINVAL).

(** ** [syscall.c] *)

(** [assert(curspl==0)] *)
Definition assert_spl0 : K unit :=
  s ← get; massert (bool_decide (Console.curspl (con s) = 0)).

(** The end of [mips_syscall]. *)
Definition syscall_return (tf : trapframe) (retval err : Z) : K after :=
  let '(v0, a3) := if bool_decide (err ≠ 0) then (u32 err, 1) else (u32 retval, 0) in
  let tf := mkTf v0 (tf_a0 tf) (tf_a1 tf) a3 (u32 (tf_epc tf + 4)) in
  _ ← assert_spl0;
  mret (Resumes tf).

Definition mips_syscall (tf : trapframe) : K after :=
  _ ← assert_spl0;
  let callno := s32 (tf_v0 tf) in
  if bool_decide (callno = SYS_reboot) then
    r ← sys_reboot (s32 (tf_a0 tf));
    match r with
    | inl err => syscall_return tf 0 err
    | inr gone => mret gone
    end
  else if bool_decide (callno = SYS__exit) then sys__exit (s32 (tf_a0 tf))
  else if bool_decide (callno = SYS_printint) then
    retval ← sys_printint (s32 (tf_a0 tf));
    syscall_return tf retval 0
  else if bool_decide (callno = SYS_reversestring) then
    retval ← sys_reversestring (u32 (tf_a0 tf)) (s32 (tf_a1 tf));
    syscall_return tf retval 0
  else
    _ ← kprintf (line "Unknown syscall %d") [ANum callno];
    syscall_return tf 0 ENOSYS.

(** ** The program's side *)

(** [__syscall] of [syscalls-mips.S]: what the function returns and what it
    leaves in [errno]; [None] when it does not return. *)
Definition syscall_stub (num a0 a1 epc errno : Z) : K (option (Z * Z)) :=
  r ← mips_syscall (mkTf num a0 a1 0 epc);
  mret (match r with
        | Resumes tf => Some (if bool_decide (tf_a3 tf = 0) then (s32 (tf_v0 tf), errno) else (-1, tf_v0 tf))
        | _ => None
        end).

Definition printint (c : Z) : K (option Z) :=
  r ← syscall_stub SYS_printint (u32 c) 0 0 0; mret (fst <$> r).
Definition reversestring (str len : Z) : K (option Z) :=
  r ← syscall_stub SYS_reversestring str (u32 len) 0 0; mret (fst <$> r).
Definition _exit (code : Z) : K (option Z) :=
  r ← syscall_stub SYS__exit (u32 code) 0 0 0; mret (fst <$> r).

(** The rest of a program after a call that may not return. *)
Definition then_ {A} (m : K (option A)) (k : A -> K (option Z)) : K (option Z) :=
  r ← m; match r with Some a => k a | None => mret None end.

(** [testbin/testA/testA.c]; the two string constants are at the addresses
    [hello] and [hell]. *)
Definition testA (hello hell : Z) : K (option Z) :=
  then_ (printint 5) (fun ret => then_ (printint ret) (fun _ =>
  then_ (printint 6) (fun ret => then_ (printint ret) (fun _ =>
  then_ (reversestring hello 5) (fun ret => then_ (printint ret) (fun _ =>
  then_ (reversestring hell 4) (fun ret => then_ (printint ret) (fun _ =>
  then_ (_exit 0) (fun _ => printint (-1)))))))))).
End syscall.
End Syscall.
