(* ===== verification/SyscallTheorems.v ===== *)
(** * What the system calls do

    [answer] is what a call means to the program that makes it: the characters
    on the console and the result or the error.  [syscall_answers] shows that
    [mips_syscall] gives it; the two theorems after it are about the pointer
    that [sys_reversestring] does not check; [testA_output] is the transcript of
    the test program, and [reboot_stops] the way the machine is stopped. *)

From stdpp Require Import strings.
From S2P Require Import Prelude Uio Libc Printf Console KQueue Thread ThreadSpec.
From S2P Require Import Ram DumbVm DumbVmSpec DumbVmOps DumbVmTheorems VmCopy Vfs VfsSpec VfsOps VfsCalls Syscall.

Module SyscallTheorems.
Import Libc Printf Console Ram DumbVm DumbVmSpec DumbVmOps DumbVmTheorems VmCopy Syscall.

(** A decidable fact about constants. *)
Ltac by_eval := apply (bool_decide_eq_true_1 _); vm_compute; reflexivity.

(** ** The text of numbers and characters *)

Definition decimal (n : Z) : list Z :=
  (if decide (n < 0) then [45] else []) ++ (digit_char <$> numeral 10 (Z.abs n)).

(** A NUL is not printed by [%c]. *)
Definition shown (l : list Z) : list Z := schar <$> filter (fun c => c ≠ 0) l.

Lemma render_lits l items args : render ((Lit <$> l) ++ items) args = app l <$> render items args.
Proof.
  induction l as [|c l IH]; cbn [fmap list_fmap app render]; [by destruct (render items args)|].
  rewrite IH. by destruct (render items args).
Qed.

Lemma render_line_d l n :
  INT_MIN < n <= INT_MAX -> render ((Lit <$> l) ++ [Dir [] 100; Lit 10]) [ANum n] = Some (l ++ decimal n ++ [10]).
Proof.
  intros Hn. rewrite render_lits. pose proof (render_d n Hn) as Hd. cbn [render] in *.
  destruct (directive_text [] 100 [ANum n]) as [[t args]|]; [|done].
  cbn [mbind option_bind fmap option_fmap option_map] in *. rewrite app_nil_r in Hd. injection Hd as ->. done.
Qed.

Lemma schar_ascii l : Forall (fun c => 0 <= c < 128) l -> schar <$> l = l.
Proof.
  induction 1 as [|c l Hc H IH]; cbn [fmap list_fmap]; [done|]. f_equal; [|done].
  unfold schar. by rewrite bool_decide_eq_true_2 by lia.
Qed.

Lemma decimal_ascii n : INT_MIN < n <= INT_MAX -> Forall (fun c => 0 <= c < 128) (decimal n).
Proof.
  unfold INT_MIN, INT_MAX. intros Hn. destruct (numeral_spec 10 ltac:(lia) (Z.abs n) ltac:(lia)) as [_ Hd].
  apply Forall_app. split; [case_decide; by repeat constructor|]. apply Forall_fmap. eapply Forall_impl; [exact Hd|].
  intros d Hr. cbn beta in Hr. unfold compose, digit_char.
  case_bool_decide; lia.
Qed.

Lemma schar_byte b : 0 <= b < 256 -> schar (u8 (schar b)) = schar b.
Proof.
  intros Hb. unfold schar at 2 3, u8. case_bool_decide as Hc.
  - rewrite Z.mod_small by lia. unfold schar. by rewrite bool_decide_eq_true_2.
  - replace (b - 256) with (b + -1 * 256) by lia. rewrite Z.mod_add, Z.mod_small by lia.
    unfold schar. rewrite bool_decide_eq_false_2 by done. lia.
Qed.

(** ["%c"] *)
Lemma render_c b : 0 <= b < 256 -> exists t, render [Dir [] 99] [ANum (schar b)] = Some t /\ schar <$> t = shown [b].
Proof.
  intros Hb. assert (Hu : u8 (schar b) = 0 <-> b = 0).
  { unfold schar, u8. case_bool_decide.
    - by rewrite Z.mod_small by lia.
    - replace (b - 256) with (b + -1 * 256) by lia. by rewrite Z.mod_add, Z.mod_small by lia. }
  cbn [render]. unfold directive_text. change (bool_decide (width [] <= INT_MAX)) with true.
  change (bool_decide (99 ∈ integer_types)) with false. change (bool_decide (99 = 115)) with false.
  change (bool_decide (99 = 99)) with true. cbv iota. cbn [mbind option_bind fmap option_fmap option_map].
  eexists. split; [done|]. unfold field, shown. change (width []) with 0. change (bool_decide (45 ∈ [])) with false.
  change (zero_fill []) with false. replace (Z.to_nat _) with 0%nat by lia. cbn [replicate app]. rewrite app_nil_r.
  destruct (decide (b = 0)) as [->|Hn]; [done|]. rewrite (bool_decide_eq_false_2 (u8 (schar b) = 0)) by tauto.
  rewrite filter_cons_True by done. cbn. by rewrite schar_byte.
Qed.

Section syscall.
Context {C : Type} `{ConDev C, !ConDevLaws C} {T : Type} `{Vfs.vnode_layer T}.
Implicit Types (s : @kern C T) (a : addrspace) (tf : trapframe).

(** ** Between system calls *)

(** The console works, interrupts are on, and the process in the foreground has
    the address space [a]; memory holds bytes. *)
Record ready s a : Prop := {
  r_con : con_ok (con s);
  r_lock : lock_free (con s);
  r_spl : Console.curspl (con s) = 0;
  r_mm : settled (mm s);
  r_as : spaces (mm s) !! vmspace (mm s) = Some a;
  r_bytes x : 0 <= phys (mm s) x < 256
}.

(** From [s] to [s'] the characters [t] were printed; what is in memory and
    the other components are the same. *)
Record said s (t : list Z) s' : Prop := {
  sd_con : prints (con s) t (con s');
  sd_mm : same_memory (mm s) (mm s');
  sd_inv : vm_inv (mm s) -> vm_inv (mm s');
  sd_vfs : vfs s' = vfs s;
  sd_thr : thr s' = thr s
}.

Lemma said_refl s a : ready s a -> said s [] s.
Proof. intros [[] ? ? ? ? ?]. split; [|done..]. exists (dev (con s)). rewrite app_nil_r. by destruct (con s). Qed.

Lemma said_trans s1 t1 s2 t2 s3 : said s1 t1 s2 -> said s2 t2 s3 -> said s1 (t1 ++ t2) s3.
Proof.
  intros [P1 (A1 & A2 & A3 & A4 & A5) I1 V1 T1] [P2 (B1 & B2 & B3 & B4 & B5) I2 V2 T2].
  split; [by eapply prints_app|repeat split; congruence|auto|congruence..].
Qed.

Lemma said_ready s a t s' : ready s a -> said s t s' -> ready s' a.
Proof.
  intros [Hc Hl Hs [Hi Hall] Ha Hb] [Hp (_ & E2 & E3 & E4 & _) Hinv _ _].
  assert (Hc' : con_ok (con s')) by (by eapply prints_ok). destruct Hp as (d & Ed & _ & _).
  split; [done|by rewrite Ed|by rewrite Ed| |by rewrite E3, E4|by rewrite E2]. split; [auto|]. unfold all_loaded. by rewrite E3.
Qed.

Lemma wp_kprintf_con s fmt args items tail t (Q : Z -> @kern C T -> Prop) E :
  con_ok (con s) -> lock_free (con s) -> Forall (fun ch => ch ≠ 0) fmt -> parse None fmt = (items, tail) -> width tail <= INT_MAX ->
  render items args = Some t -> (forall n c, prints (con s) (schar <$> t) c -> Q n (set_con s c)) -> wp (Syscall.kprintf fmt args) Q E s.
Proof.
  intros Hc Hl Hf Hp Hw Ht HQ. destruct (kprintf_prints (con s) fmt args items tail t Hc Hl Hf Hp Hw Ht) as (c' & E1 & Hpr).
  unfold wp, Syscall.kprintf, on_con. rewrite E1. by apply HQ.
Qed.

Lemma wp_kprintf s a fmt args items tail t (Q : Z -> @kern C T -> Prop) E :
  ready s a -> Forall (fun ch => ch ≠ 0) fmt -> parse None fmt = (items, tail) -> width tail <= INT_MAX ->
  render items args = Some t ->
  (forall n s', said s (schar <$> t) s' -> ready s' a -> Q n s') -> wp (Syscall.kprintf fmt args) Q E s.
Proof.
  intros Hr Hf Hp Hw Ht HQ. eapply wp_kprintf_con; [apply (r_con _ _ Hr)|apply (r_lock _ _ Hr)|done|done|done|done|].
  intros n c' Hpr. assert (Hs : said s (schar <$> t) (set_con s c')) by (by split). by eapply HQ; [|eapply said_ready].
Qed.

(** A line with the number [n] at its end. *)
Lemma wp_kprintf_d s a l n (Q : Z -> @kern C T -> Prop) E :
  ready s a -> Forall (fun c => 0 < c < 128 /\ c ≠ 37) l -> INT_MIN < n <= INT_MAX ->
  parse None (l ++ [37; 100; 10]) = ((Lit <$> l) ++ [Dir [] 100; Lit 10], []) ->
  (forall k s', said s (l ++ decimal n ++ [10]) s' -> ready s' a -> Q k s') ->
  wp (Syscall.kprintf (l ++ [37; 100; 10]) [ANum n]) Q E s.
Proof.
  intros Hr Hl Hn Hp HQ. eapply wp_kprintf; [done| |done|done|by apply render_line_d|].
  - apply Forall_app. split; [eapply Forall_impl; [exact Hl|]; cbn; lia|by repeat constructor].
  - rewrite schar_ascii; [done|]. apply Forall_app. split; [eapply Forall_impl; [exact Hl|]; cbn; lia|].
    apply Forall_app. split; [by apply decimal_ascii|by repeat constructor].
Qed.

Lemma wp_assert_spl0 s a (Q : unit -> @kern C T -> Prop) E : ready s a -> Q tt s -> wp assert_spl0 Q E s.
Proof. intros Hr HQ. unfold assert_spl0. wp_base. wp_base. apply wp_massert; [by rewrite (r_spl _ _ Hr)|done]. Qed.

(** ** Reading the string *)

(** What the processor finds at [va] in kernel mode: a byte of the process, or
    a byte of the kernel's window on physical memory. *)
Definition readable s a (va b : Z) : Prop :=
  (0 <= va < MIPS_KSEG0 /\ view (phys (mm s)) a !! va = Some b) \/
  (MIPS_KSEG0 <= va < MIPS_KSEG1 /\ va - MIPS_KSEG0 < lastpaddr (mach (mm s)) /\ phys (mm s) (va - MIPS_KSEG0) = b).

Lemma readable_said s a t s' va b : said s t s' -> readable s a va b -> readable s' a va b.
Proof. intros [_ (E1 & E2 & _) _ _ _]. unfold readable. by rewrite E1, E2. Qed.

Lemma readable_byte s a va b : ready s a -> readable s a va b -> 0 <= b < 256.
Proof.
  intros Hr [[_ Hv]|(_ & _ & <-)]; [|apply (r_bytes _ _ Hr)].
  rewrite view_lookup in Hv. destruct (translate a va); [|done]. injection Hv as <-. apply (r_bytes _ _ Hr).
Qed.

Lemma wp_kload s a va b (Q : Z -> @kern C T -> Prop) E :
  ready s a -> readable s a va b -> (forall s', said s [] s' -> ready s' a -> Q b s') ->
  wp (on_mm (kload va)) Q E s.
Proof.
  intros Hr Hb HQ. pose proof (said_refl _ _ Hr) as Hs. unfold wp, on_mm, kload, get, mbind, M_bind.
  destruct Hb as [[Hva Hv]|(Hva & Hlast & <-)].
  - rewrite bool_decide_eq_true_2 by lia. destruct (id (r_mm _ _ Hr)) as [Hi Hall].
    destruct (Hall _ _ (r_as _ _ Hr)) as [Hl Hf]. pose proof (load_run (mm s) a true false va Hi (r_as _ _ Hr) Hl Hf Hva) as Hld.
    rewrite Hv in Hld. destruct Hld as (m' & -> & Hi' & Hm). cbn. destruct Hs as [Hp _ _ _ _].
    assert (Hs : said s [] (mkK (con s) m' (vfs s) (thr s))) by (by split). by eapply HQ; [|eapply said_ready].
  - rewrite bool_decide_eq_false_2, bool_decide_eq_true_2, bool_decide_eq_true_2 by lia. cbn. destruct s. by apply HQ.
Qed.

Lemma reverse_snoc {A} (l : list A) x : reverse (l ++ [x]) = x :: reverse l.
Proof. by rewrite reverse_app. Qed.

Lemma shown_cons b l : shown (b :: l) = shown [b] ++ shown l.
Proof. unfold shown. by rewrite <- fmap_app, <- filter_app. Qed.

(** The loop prints the string from its end. *)
Lemma wp_reverse_loop l : forall s a str fuel (Q : unit -> @kern C T -> Prop) E,
  ready s a -> Z.of_nat (length l) <= INT_MAX -> (length l < fuel)%nat ->
  (forall i b, l !! i = Some b -> readable s a (u32 (str + Z.of_nat i)) b) ->
  (forall s', said s (shown (reverse l)) s' -> ready s' a -> Q tt s') ->
  wp (reverse_loop fuel str (Z.of_nat (length l) - 1)) Q E s.
Proof.
  induction l as [|b l IH] using rev_ind; intros s a str fuel Q E Hr Hlen Hf Hrd HQ.
  { destruct fuel; [cbn in Hf; lia|]. cbn [reverse_loop]. rewrite bool_decide_eq_false_2 by (cbn; lia). wp_base.
    apply HQ; [by eapply said_refl|done]. }
  rewrite length_app in *. cbn [length] in *. destruct fuel as [|fuel]; [lia|]. cbn [reverse_loop].
  rewrite bool_decide_eq_true_2 by lia. replace (Z.of_nat (length l + 1) - 1) with (Z.of_nat (length l)) by lia.
  assert (Hb : readable s a (u32 (str + Z.of_nat (length l))) b) by (apply Hrd, list_lookup_middle; done).
  wp_base. eapply wp_kload; [done|done|]. intros s1 H1 Hr1. wp_base.
  destruct (render_c b) as (t & Ht & Hts); [by apply (readable_byte _ _ _ _ Hr Hb)|].
  eapply (wp_kprintf s1 a _ _ [Dir [] 99] [] t); [done|by_eval|done|done|done|]. intros _ s2 H2 Hr2. rewrite Hts in H2.
  wp_base. apply (wp_lift _ (Z.of_nat (length l) - 1)); [apply int_op_ok; unfold INT_MIN, INT_MAX in *; lia|].
  pose proof (said_trans _ _ _ _ _ H1 H2) as H12. eapply IH; [done|lia|lia|..].
  - intros i x Hi. eapply readable_said; [exact H12|]. apply Hrd. by apply lookup_app_l_Some.
  - intros s3 H3 Hr3. apply HQ; [|done]. rewrite reverse_snoc, shown_cons. by eapply (said_trans _ _ _ _ _ H12).
Qed.

Lemma rem_2 n : Z.rem n 2 = 0 <-> Z.even n = true.
Proof. rewrite Z.rem_divide, <- Z.mod_divide, Zmod_even by lia. by destruct (Z.even n). Qed.

Lemma wp_sys_reversestring l s a str len (Q : Z -> @kern C T -> Prop) E :
  ready s a -> INT_MIN < len <= INT_MAX -> length l = Z.to_nat len ->
  (forall i b, l !! i = Some b -> readable s a (u32 (str + Z.of_nat i)) b) ->
  (forall s', said s (shown (reverse l) ++ [10]) s' -> ready s' a -> Q (if Z.even len then 1 else 0) s') ->
  wp (sys_reversestring str len) Q E s.
Proof.
  intros Hr Hlen Hl Hrd HQ. unfold sys_reversestring. wp_base.
  apply (wp_lift _ (len - 1)); [apply int_op_ok; unfold INT_MIN, INT_MAX in *; lia|]. wp_base.
  assert (Hloop : forall (Q : unit -> @kern C T -> Prop) E, (forall s', said s (shown (reverse l)) s' -> ready s' a -> Q tt s') ->
    wp (reverse_loop (S (Z.to_nat len)) str (len - 1)) Q E s).
  { intros Q' E' HQ'. destruct (decide (0 <= len)).
    - replace len with (Z.of_nat (length l)) at 2 by lia. eapply wp_reverse_loop; [done|lia|lia|done|done].
    - cbn [reverse_loop]. rewrite bool_decide_eq_false_2 by lia. wp_base. destruct l; [|cbn in Hl; lia].
      apply HQ'; [by eapply said_refl|done]. }
  apply Hloop. intros s1 H1 Hr1. wp_base.
  eapply (wp_kprintf s1 a _ _ [Lit 10] [] [10]); [done|by_eval|done|done|done|]. intros _ s2 H2 Hr2. wp_base.
  assert (Hs : said s (shown (reverse l) ++ [10]) s2) by (by eapply said_trans). specialize (HQ s2 Hs Hr2).
  pose proof (rem_2 len) as He. destruct (Z.even len).
  - by rewrite bool_decide_eq_true_2 by tauto.
  - by rewrite bool_decide_eq_false_2 by (intros Hx; apply He in Hx; done).
Qed.

(** ** What a call means *)

(** The bytes of a string in the memory of a process. *)
Definition str_bytes (m : gmap Z Z) (str len : Z) : option (list Z) := mapM (fun i => m !! (str + i)) (seqZ 0 len).

(** What is printed, and the error or the result.  The least integer has no
    decimal text, and [--len] overflows on it. *)
Definition answer (m : gmap Z Z) tf : option (list Z * (Z + Z)) :=
  let callno := s32 (tf_v0 tf) in
  let x := s32 (tf_a0 tf) in
  let len := s32 (tf_a1 tf) in
  if decide (callno = SYS_reboot) then
    if decide (0 <= x <= 2) then None else Some ([], inl EINVAL)
  else if decide (callno = SYS__exit) then None
  else if decide (callno = SYS_printint) then
    if decide (x = INT_MIN) then None else Some (decimal x ++ [10], inr (if decide (x mod 5 = 0) then 0 else 1))
  else if decide (callno = SYS_reversestring) then
    if decide (len = INT_MIN) then None
    else bytes ← str_bytes m (tf_a0 tf) len; Some (shown (reverse bytes) ++ [10], inr (if Z.even len then 1 else 0))
  else if decide (callno = INT_MIN) then None
  else Some (txt "Unknown syscall " ++ decimal callno ++ [10], inl ENOSYS).

(** The registers the program gets back. *)
Definition registers tf (r : Z + Z) : trapframe :=
  match r with
  | inl err => mkTf err (tf_a0 tf) (tf_a1 tf) 1 (u32 (tf_epc tf + 4))
  | inr v => mkTf v (tf_a0 tf) (tf_a1 tf) 0 (u32 (tf_epc tf + 4))
  end.

Lemma view_range s a va : ready s a -> is_Some (view (phys (mm s)) a !! va) -> 0 <= va < MIPS_KSEG0.
Proof.
  intros Hr [r Hin]%view_dom. destruct (r_mm _ _ Hr) as [Hi Hall]. destruct (Hall _ _ (r_as _ _ Hr)) as [Hl _].
  pose proof (ld_layout _ _ (i_loaded _ Hi _ _ (r_as _ _ Hr) Hl)) as Hlay. unfold in_region in Hin.
  pose proof (lo_pos _ Hlay r). pose proof (lo_top _ Hlay r). lia.
Qed.

Lemma str_bytes_readable s a str len l :
  ready s a -> str_bytes (view (phys (mm s)) a) str len = Some l ->
  length l = Z.to_nat len /\ forall i b, l !! i = Some b -> readable s a (u32 (u32 str + Z.of_nat i)) b.
Proof.
  intros Hr Hb. apply mapM_Some_1 in Hb. pose proof (Forall2_length _ _ _ Hb) as Hlen. rewrite length_seqZ in Hlen.
  split; [done|]. intros i b Hi. destruct (Forall2_lookup_r _ _ _ _ _ Hb Hi) as (z & [-> Hlt]%lookup_seqZ & Hz).
  pose proof (view_range s a _ Hr (mk_is_Some _ _ Hz)) as Hva. unfold u32. rewrite Zplus_mod_idemp_l.
  rewrite Z.mod_small by (unfold MIPS_KSEG0 in Hva; lia). by left.
Qed.

Lemma wp_syscall_return s a tf retval err r (Q : after -> @kern C T -> Prop) E :
  ready s a -> r = (if bool_decide (err ≠ 0) then inl err else inr retval) -> 0 <= retval <= 1 -> 0 <= err <= ENOSYS ->
  Q (Resumes (registers tf r)) s -> wp (syscall_return tf retval err) Q E s.
Proof.
  unfold ENOSYS. intros Hr -> Hv He HQ. unfold syscall_return.
  case_bool_decide; wp_base; (eapply wp_assert_spl0; [done|]); wp_base; unfold registers in HQ; by rewrite u32_small by lia.
Qed.

Lemma rem_5 n : Z.rem n 5 = 0 <-> n mod 5 = 0.
Proof. by rewrite Z.rem_divide, Z.mod_divide by lia. Qed.

Lemma wp_sys_printint s a c (Q : Z -> @kern C T -> Prop) E :
  ready s a -> INT_MIN < c <= INT_MAX ->
  (forall s', said s (decimal c ++ [10]) s' -> ready s' a -> Q (if decide (c mod 5 = 0) then 0 else 1) s') ->
  wp (sys_printint c) Q E s.
Proof.
  intros Hr Hc HQ. unfold sys_printint. wp_base. change (line "%d") with ([] ++ [37; 100; 10]).
  eapply (wp_kprintf_d s a []); [done|by constructor|done|done|]. intros _ s' Hs Hr'. wp_base. specialize (HQ s' Hs Hr').
  pose proof (rem_5 c). destruct (decide (c mod 5 = 0)); [rewrite bool_decide_eq_false_2 by tauto|rewrite bool_decide_eq_true_2 by tauto]; done.
Qed.

Lemma wp_mips_syscall s a tf out r (Q : after -> @kern C T -> Prop) E :
  ready s a -> answer (view (phys (mm s)) a) tf = Some (out, r) ->
  (forall s', said s out s' -> ready s' a -> Q (Resumes (registers tf r)) s') -> wp (mips_syscall tf) Q E s.
Proof.
  intros Hr Ha HQ.
  unfold mips_syscall, answer in *. cbv zeta in *.
  pose proof (s32_range (tf_v0 tf)). pose proof (s32_range (tf_a0 tf)). pose proof (s32_range (tf_a1 tf)).
  wp_base. eapply wp_assert_spl0; [done|].
  destruct (decide (s32 (tf_v0 tf) = SYS_reboot)) as [Hn|Hn]; [rewrite bool_decide_eq_true_2 by done|rewrite bool_decide_eq_false_2 by done].
  { destruct (decide (0 <= s32 (tf_a0 tf) <= 2)); [done|]. injection Ha as <- <-. unfold sys_reboot, RB_REBOOT, RB_HALT, RB_POWEROFF.
    rewrite !bool_decide_eq_false_2 by lia. cbn [orb]. do 2 wp_base. eapply wp_syscall_return; [done|done|lia|by unfold EINVAL, ENOSYS|].
    apply HQ; [by eapply said_refl|done]. }
  clear Hn. destruct (decide (s32 (tf_v0 tf) = SYS__exit)) as [Hn|Hn]; [done|rewrite bool_decide_eq_false_2 by done].
  clear Hn. destruct (decide (s32 (tf_v0 tf) = SYS_printint)) as [Hn|Hn]; [rewrite bool_decide_eq_true_2 by done|rewrite bool_decide_eq_false_2 by done].
  { destruct (decide (s32 (tf_a0 tf) = INT_MIN)); [done|]. injection Ha as <- <-. wp_base.
    eapply wp_sys_printint; [done|lia|]. intros s' Hs Hr'. eapply wp_syscall_return; [done|done|by case_decide|by unfold ENOSYS|by apply HQ]. }
  clear Hn. destruct (decide (s32 (tf_v0 tf) = SYS_reversestring)) as [Hn|Hn]; [rewrite bool_decide_eq_true_2 by done|rewrite bool_decide_eq_false_2 by done].
  { destruct (decide (s32 (tf_a1 tf) = INT_MIN)); [done|].
    destruct (str_bytes _ _ _) as [l|] eqn:Hl; [|done]. injection Ha as <- <-.
    destruct (str_bytes_readable _ _ _ _ _ Hr Hl) as [Hlen Hrd]. wp_base. eapply (wp_sys_reversestring l); [done|lia|done|done|].
    intros s' Hs Hr'. eapply wp_syscall_return; [done|done|by destruct (Z.even _)|by unfold ENOSYS|by apply HQ]. }
  destruct (decide (s32 (tf_v0 tf) = INT_MIN)); [done|]. injection Ha as <- <-. wp_base.
  change (line "Unknown syscall %d") with (txt "Unknown syscall " ++ [37; 100; 10]).
  eapply wp_kprintf_d; [done|by_eval|lia|done|]. intros _ s' Hs Hr'. eapply wp_syscall_return; [done|done|lia|by unfold ENOSYS|by apply HQ].
Qed.
(** C4. Every call that returns to the program prints its text, returns its result
    in [v0] with [a3] clear or its error in [v0] with [a3] set, skips the
    [syscall] instruction, and changes no memory and no other part of the
    kernel. *)
Theorem syscall_answers s a tf out r :
  ready s a -> answer (view (phys (mm s)) a) tf = Some (out, r) ->
  exists s', mips_syscall tf s = Done (inr (Resumes (registers tf r)), s') /\ said s out s'.
Proof.
  intros Hr Ha.
  assert (Hwp : wp (mips_syscall tf) (fun x s' => x = Resumes (registers tf r) /\ said s out s') (fun _ _ => False) s).
  { by eapply wp_mips_syscall. }
  apply wp_done in Hwp as ([e|x] & s' & Hm & Hx); [done|]. destruct Hx as [-> Hs]. by exists s'.
Qed.

(** ** The pointer that is not checked *)

Lemma panic_bind {A B} (m : M (@kern C T) A) (f : A -> M (@kern C T) B) s :
  wp m (fun x s' => f x s' = Panic) (fun _ _ => False) s -> (m ≫= f) s = Panic.
Proof. unfold wp, mbind, M_bind. destruct (m s) as [[[e|x] s']| |]; done. Qed.

Lemma reverse_loop_panics n : forall s a str fuel,
  ready s a -> Z.of_nat n <= INT_MAX -> (n < fuel)%nat -> 0 <= str -> str + Z.of_nat n <= MIPS_KSEG0 ->
  (exists i, 0 <= i < Z.of_nat n /\ view (phys (mm s)) a !! (str + i) = None) ->
  reverse_loop fuel str (Z.of_nat n - 1) s = Panic.
Proof.
  induction n as [|n IH]; intros s a str fuel Hr Hn Hf Hp Htop (i & Hi & Hv); [lia|]. destruct fuel as [|fuel]; [lia|].
  cbn [reverse_loop]. rewrite bool_decide_eq_true_2 by lia. replace (Z.of_nat (S n) - 1) with (Z.of_nat n) by lia.
  rewrite (u32_small (str + Z.of_nat n)) by (unfold MIPS_KSEG0 in *; lia).
  destruct (view (phys (mm s)) a !! (str + Z.of_nat n)) as [b|] eqn:Hb.
  - assert (Hrd : readable s a (str + Z.of_nat n) b) by (left; split; [lia|done]).
    apply panic_bind. eapply wp_kload; [done|done|]. intros s1 H1 Hr1.
    destruct (render_c b) as (t & Ht & _); [by apply (readable_byte _ _ _ _ Hr Hrd)|].
    apply panic_bind. eapply (wp_kprintf s1 a _ _ [Dir [] 99] [] t); [done|by_eval|done|done|done|]. intros _ s2 H2 Hr2.
    apply panic_bind, (wp_lift _ (Z.of_nat n - 1)); [apply int_op_ok; unfold INT_MIN, INT_MAX in *; lia|].
    destruct (said_trans _ _ _ _ _ H1 H2) as [_ (_ & Eph & _) _ _ _].
    eapply IH; [done|lia|lia|done|lia|]. exists i. rewrite Eph. split; [|done]. destruct (decide (i = Z.of_nat n)); [congruence|lia].
  - destruct (r_mm _ _ Hr) as [Hinv Hall]. destruct (Hall _ _ (r_as _ _ Hr)) as [Hl Hft].
    pose proof (load_run (mm s) a true false (str + Z.of_nat n) Hinv (r_as _ _ Hr) Hl Hft ltac:(lia)) as Hld. rewrite Hb in Hld.
    unfold mbind at 1, M_bind at 1, on_mm, kload, get, mbind, M_bind. rewrite bool_decide_eq_true_2 by lia. by rewrite Hld.
Qed.

(** C38. A program that passes [reversestring] a string that lies below the kernel's
    segments and has a byte outside the memory of the program does not get an
    error: the kernel panics.  (A string in the kernel's direct-mapped segment
    is printed instead, [kernel_string_printed].) *)
Theorem bad_string_panics s a tf :
  ready s a -> s32 (tf_v0 tf) = SYS_reversestring -> 0 <= tf_a0 tf ->
  0 < s32 (tf_a1 tf) -> tf_a0 tf + s32 (tf_a1 tf) <= MIPS_KSEG0 ->
  str_bytes (view (phys (mm s)) a) (tf_a0 tf) (s32 (tf_a1 tf)) = None ->
  mips_syscall tf s = Panic.
Proof.
  intros Hr Hn Hp Hl Htop Hb. unfold mips_syscall. pose proof (s32_range (tf_a1 tf)) as Hrange. set (len := s32 (tf_a1 tf)) in *.
  apply panic_bind. eapply wp_assert_spl0; [done|]. cbv zeta. rewrite Hn. do 3 (rewrite bool_decide_eq_false_2 by done).
  rewrite bool_decide_eq_true_2 by done. rewrite (u32_small (tf_a0 tf)) by (unfold MIPS_KSEG0 in *; lia).
  assert (Hex : exists i, 0 <= i < len /\ view (phys (mm s)) a !! (tf_a0 tf + i) = None).
  { apply mapM_None_1, Exists_exists in Hb as (i & Hi%elem_of_seqZ & Hv). exists i. split; [lia|done]. }
  assert (Hpan : sys_reversestring (tf_a0 tf) len s = Panic).
  { unfold sys_reversestring. apply panic_bind, (wp_lift _ (len - 1)); [apply int_op_ok; unfold INT_MIN, INT_MAX in *; lia|].
    unfold mbind, M_bind. replace (len - 1) with (Z.of_nat (Z.to_nat len) - 1) by lia.
    rewrite (reverse_loop_panics (Z.to_nat len) s a); [done|done|lia|lia|done|lia|]. destruct Hex as (i & Hi & Hv). exists i. split; [lia|done]. }
  unfold mbind, M_bind. by rewrite Hpan.
Qed.

(** A program that passes it an address of the kernel gets the kernel's memory
    printed. *)
Theorem kernel_string_printed s a tf p :
  ready s a -> s32 (tf_v0 tf) = SYS_reversestring -> tf_a0 tf = MIPS_KSEG0 + p -> 0 <= p ->
  0 < s32 (tf_a1 tf) -> p + s32 (tf_a1 tf) <= Z.min (lastpaddr (mach (mm s))) (MIPS_KSEG1 - MIPS_KSEG0) ->
  exists s' r, mips_syscall tf s = Done (inr (Resumes (registers tf (inr r))), s') /\
    said s (shown (reverse (phys (mm s) <$> seqZ p (s32 (tf_a1 tf)))) ++ [10]) s'.
Proof.
  intros Hr Hn Ha Hp Hl Htop. pose proof (s32_range (tf_a1 tf)) as Hrange. set (len := s32 (tf_a1 tf)) in *.
  set (l := phys (mm s) <$> seqZ p len).
  assert (Hwp : wp (mips_syscall tf) (fun x s' => x = Resumes (registers tf (inr (if Z.even len then 1 else 0))) /\ said s (shown (reverse l) ++ [10]) s')
    (fun _ _ => False) s).
  { unfold mips_syscall. wp_base. eapply wp_assert_spl0; [done|]. cbv zeta. rewrite Hn. do 3 (rewrite bool_decide_eq_false_2 by done).
    rewrite bool_decide_eq_true_2 by done. unfold MIPS_KSEG0, MIPS_KSEG1 in *. rewrite u32_small by lia. fold len. wp_base.
    eapply (wp_sys_reversestring l); [done|unfold INT_MIN, INT_MAX in *; lia|subst l; by rewrite length_fmap, length_seqZ| |].
    - intros i b Hi. subst l. rewrite list_lookup_fmap_Some in Hi. destruct Hi as (x & -> & [-> Hx]%lookup_seqZ). right.
      unfold MIPS_KSEG0, MIPS_KSEG1. rewrite u32_small by lia. split_and!; [lia|lia|lia|]. f_equal. lia.
    - intros s' Hs Hr'. eapply wp_syscall_return; [done|done|by destruct (Z.even _)|by unfold ENOSYS|done]. }
  apply wp_done in Hwp as ([e|x] & s' & Hm & Hx); [done|]. destruct Hx as [-> Hs]. eauto.
Qed.

(** ** Leaving *)

(** The current thread has its structure, its stack is intact, and it is counted. *)
Definition can_exit (x : Thread.sys) : Prop :=
  exists t, Thread.threads x !! Thread.curthread x = Some t /\
    (Thread.t_stack t = None \/ Thread.t_stack t = Some Thread.STACK_MAGIC) /\ 0 < Thread.numthreads x.

Lemma wp_exit_begin x (Q : unit -> Thread.sys -> Prop) E : can_exit x ->
  (forall x', Thread.numthreads x' = Thread.numthreads x - 1 -> Q tt x') -> wp Thread.thread_exit_begin Q E x.
Proof.
  intros (t & Ht & Hst & Hn) HQ. apply (wpp_wp False); [tauto|]. unfold Thread.thread_exit_begin. wpp_steps.
  eapply ThreadSpec.wpp_tread; [exact Ht|]. wpp_steps. unfold Thread.check_stack.
  assert (Hck : wpp False (Thread.check_stack t) (fun _ y => y = x) (fun _ _ => False) x).
  { unfold Thread.check_stack. destruct Hst as [-> | ->]; [done|]. by apply ThreadSpec.wpp_assert. }
  eapply wpp_mono; [exact Hck|done| |done]. intros _ y ->. wpp_steps. apply ThreadSpec.wpp_splx. wpp_steps.
  set (x1 := Thread.set_curspl x _).
  assert (Hvm : forall (Q' : unit -> Thread.sys -> Prop) E', (forall x2 t2, Thread.threads x2 !! Thread.curthread x = Some t2 ->
      Thread.numthreads x2 = Thread.numthreads x -> Q' tt x2) ->
    wpp False (if bool_decide (Thread.t_vmspace t ≠ NULL) then _ ← Thread.twrite (Thread.curthread x) (Thread.set_vmspace t NULL);
                 Thread.external (Thread.as_destroy (Thread.t_vmspace t)) else mret tt) Q' E' x1).
  { intros Q' E' HQ'. case_bool_decide; wpp_steps; [|by eapply HQ']. apply ThreadSpec.wpp_twrite. wpp_steps. apply ThreadSpec.wpp_external.
    eapply HQ'; [apply lookup_insert_eq|done]. }
  apply Hvm. intros x2 t2 Ht2 Hn2. wpp_steps. eapply ThreadSpec.wpp_tread; [exact Ht2|]. wpp_steps.
  assert (Hcw : forall (Q' : unit -> Thread.sys -> Prop) E', (forall x3, Thread.numthreads x3 = Thread.numthreads x -> Q' tt x3) ->
    wpp False (if bool_decide (Thread.t_cwd t2 ≠ NULL) then _ ← Thread.external (Thread.VOP_DECREF (Thread.t_cwd t2));
                 Thread.twrite (Thread.curthread x) (Thread.set_cwd t2 NULL) else mret tt) Q' E' x2).
  { intros Q' E' HQ'. destruct (bool_decide (Thread.t_cwd t2 ≠ NULL)); wpp_steps; [|by apply HQ']. apply ThreadSpec.wpp_external. wpp_steps. apply ThreadSpec.wpp_twrite. by apply HQ'. }
  apply Hcw. intros x3 Hn3. wpp_steps. apply ThreadSpec.wpp_assert; [by rewrite bool_decide_eq_true_2 by lia|]. wpp_steps. apply HQ. cbn. lia.
Qed.

Lemma wp_on_thr {A} (m : M Thread.sys A) s (Q : A -> @kern C T -> Prop) E :
  wp m (fun r x => Q r (mkK (con s) (mm s) (vfs s) x)) (fun e x => E e (mkK (con s) (mm s) (vfs s) x)) (thr s) -> wp (on_thr m) Q E s.
Proof. unfold wp, on_thr. destruct (m (thr s)) as [[[e|r] x]| |]; done. Qed.

Lemma wp_on_mm {A} (m : M vm A) s (Q : A -> @kern C T -> Prop) E :
  wp m (fun r x => Q r (mkK (con s) x (vfs s) (thr s))) (fun e x => E e (mkK (con s) x (vfs s) (thr s))) (mm s) -> wp (on_mm m) Q E s.
Proof. unfold wp, on_mm. destruct (m (mm s)) as [[[e|r] x]| |]; done. Qed.

(** The process is gone: its memory, and one thread. *)
Record left_ s (t : list Z) s' : Prop := {
  lf_con : prints (con s) t (con s');
  lf_mm : procs (mm s') = delete (vmspace (mm s)) (procs (mm s));
  lf_space : vmspace (mm s') = NULL;
  lf_thr : Thread.numthreads (thr s') = Thread.numthreads (thr s) - 1
}.

(** The lines of [sys__exit] and [thread_exit]. *)
Definition exit_lines (c : Z) : list Z :=
  txt "_exit exitCode: " ++ decimal c ++ [10] ++ txt "thread_exit exitCode: " ++ decimal c ++ [10].

Lemma wp_sys__exit s a tf (Q : after -> @kern C T -> Prop) E :
  ready s a -> can_exit (thr s) -> s32 (tf_v0 tf) = SYS__exit -> s32 (tf_a0 tf) ≠ INT_MIN ->
  (forall s', left_ s (exit_lines (s32 (tf_a0 tf))) s' -> Q Exits s') -> wp (mips_syscall tf) Q E s.
Proof.
  intros Hr Hx Hn Hc HQ. unfold mips_syscall, sys__exit. pose proof (s32_range (tf_a0 tf)). wp_base. eapply wp_assert_spl0; [done|].
  cbv zeta. rewrite Hn. rewrite bool_decide_eq_false_2, bool_decide_eq_true_2 by done. wp_base.
  change (line "_exit exitCode: %d") with (txt "_exit exitCode: " ++ [37; 100; 10]).
  change (line "thread_exit exitCode: %d") with (txt "thread_exit exitCode: " ++ [37; 100; 10]).
  eapply wp_kprintf_d; [done|by_eval|lia|done|]. intros _ s0 Hs0 Hr0. wp_base.
  eapply wp_kprintf_d; [done|by_eval|lia|done|]. intros _ s1 Hs1 Hr1. wp_base.
  pose proof (said_trans _ _ _ _ _ Hs0 Hs1) as [Hp (_ & Eph & Esp & Ev & _) Hi _ Eth]. rewrite <- !app_assoc in Hp.
  apply wp_on_thr, wp_exit_begin; [by rewrite Eth|]. intros x' Hn'. wp_base. apply wp_on_mm, wp_exit_space; [cbn; apply Hi, (r_mm _ _ Hr)|].
  intros m' Hi' Hnull Hsp Hpr. wp_base. apply HQ. split; [done| |done|cbn; congruence].
  cbn [mm] in *. rewrite Hpr, Ev. by rewrite (same_procs (mm s)).
Qed.

(** [_exit] prints its lines, frees the memory of the process and gives up its
    thread; it does not return to the program. *)
Theorem exit_leaves s a tf :
  ready s a -> can_exit (thr s) -> s32 (tf_v0 tf) = SYS__exit -> s32 (tf_a0 tf) ≠ INT_MIN ->
  exists s', mips_syscall tf s = Done (inr Exits, s') /\ left_ s (exit_lines (s32 (tf_a0 tf))) s'.
Proof.
  intros Hr Hx Hn Hc. set (t := exit_lines _).
  assert (Hwp : wp (mips_syscall tf) (fun r s' => r = Exits /\ left_ s t s') (fun _ _ => False) s) by (by eapply wp_sys__exit).
  apply wp_done in Hwp as ([e|x] & s' & Hm & Hl); [done|]. destruct Hl as [-> Hl]. by exists s'.
Qed.

(** ** The test program *)

Lemma wp_call s a (num a0 a1 : Z) out v (Q : option Z -> @kern C T -> Prop) E :
  ready s a -> answer (view (phys (mm s)) a) (mkTf num a0 a1 0 0) = Some (out, inr v) -> s32 v = v ->
  (forall s', said s out s' -> ready s' a -> Q (Some v) s') ->
  wp (r ← syscall_stub num a0 a1 0 0; mret (fst <$> r)) Q E s.
Proof.
  intros Hr Ha Hv HQ. unfold syscall_stub. do 2 wp_base. eapply wp_mips_syscall; [done|done|]. intros s' Hs Hr'. do 2 wp_base.
  cbn. rewrite Hv. by apply HQ.
Qed.

Lemma wp_then_call {A} (m : M (@kern C T) (option A)) (k : A -> M (@kern C T) (option Z)) s (Q : option Z -> @kern C T -> Prop) E :
  wp m (fun r s' => match r with Some x => wp (k x) Q E s' | None => Q None s' end) E s -> wp (then_ m k) Q E s.
Proof. intros Hm. unfold then_. wp_base. eapply wp_mono; [exact Hm| |done]. intros [x|] s' Hx; [done|by wp_base]. Qed.

(** The view of memory stays the same while a program makes calls. *)
Lemma said_view s t s' a : said s t s' -> view (phys (mm s')) a = view (phys (mm s)) a.
Proof. by intros [_ (_ & -> & _) _ _ _]. Qed.

(** [s] is where [testA] is after it has printed [t]. *)
Definition at_ s0 a (t : list Z) s : Prop := said s0 t s /\ ready s a.

Lemma at_said s0 a t s out s' : at_ s0 a t s -> said s out s' -> ready s' a -> at_ s0 a (t ++ out) s'.
Proof. intros [Hs _] Hs' Hr. split; [by eapply said_trans|done]. Qed.

Lemma wp_printint_then s0 a t s c out v k (Q : option Z -> @kern C T -> Prop) E :
  at_ s0 a t s -> answer ∅ (mkTf SYS_printint (u32 c) 0 0 0) = Some (out, inr v) -> s32 v = v ->
  (forall s', at_ s0 a (t ++ out) s' -> wp (k v) Q E s') -> wp (then_ (printint c) k) Q E s.
Proof.
  intros [Hs Hr] Ha Hv Hk. apply wp_then_call. eapply wp_call; [done|exact Ha|done|]. intros s' Hs' Hr'. eapply Hk, at_said; done.
Qed.

Lemma wp_reversestring_then s0 a t s str len bytes k (Q : option Z -> @kern C T -> Prop) E :
  at_ s0 a t s -> 0 <= len <= INT_MAX -> str_bytes (view (phys (mm s0)) a) str len = Some bytes ->
  (forall s', at_ s0 a (t ++ shown (reverse bytes) ++ [10]) s' -> wp (k (if Z.even len then 1 else 0)) Q E s') ->
  wp (then_ (reversestring str len) k) Q E s.
Proof.
  intros [Hs Hr] Hlen Hb Hk. apply wp_then_call. eapply (wp_call s a _ _ _ _ (if Z.even len then 1 else 0)); [done| |by destruct (Z.even len)|].
  - unfold answer. cbv zeta. cbn [tf_v0 tf_a0 tf_a1]. change (s32 SYS_reversestring) with 33.
    do 3 (rewrite decide_False by done). rewrite decide_True by done.
    assert (s32 (u32 len) = len) as ->.
    { rewrite u32_small by (unfold INT_MAX in Hlen; lia). apply s32_small. unfold INT_MIN, INT_MAX in *. lia. }
    rewrite decide_False by (unfold INT_MIN; lia). rewrite (said_view _ _ _ _ Hs), Hb. done.
  - intros s' Hs' Hr'. eapply Hk, at_said; done.
Qed.

(** C12. The output of [testA] is the one its comments announce, and the line after
    [_exit] is not printed. *)
Theorem testA_output s a hello hell :
  ready s a -> can_exit (thr s) ->
  str_bytes (view (phys (mm s)) a) hello 5 = Some (txt "hello") -> str_bytes (view (phys (mm s)) a) hell 4 = Some (txt "hell") ->
  exists s', testA hello hell s = Done (inr None, s') /\
    left_ s (line "5" ++ line "0" ++ line "6" ++ line "1" ++ line "olleh" ++ line "0" ++ line "lleh" ++ line "1" ++
      line "_exit exitCode: 0" ++ line "thread_exit exitCode: 0") s'.
Proof.
  intros Hr Hx H1 H2. set (t := line "5" ++ _).
  assert (Hwp : wp (testA hello hell) (fun r s' => r = None /\ left_ s t s') (fun _ _ => False) s).
  { assert (H0' : at_ s a [] s) by (split; [by eapply said_refl|done]). unfold testA.
    do 4 (eapply wp_printint_then; [done|vm_compute; reflexivity|done|]; clear H0'; intros ? H0').
    eapply wp_reversestring_then; [done|done|done|]; clear H0'; intros ? H0'.
    eapply wp_printint_then; [done|vm_compute; reflexivity|done|]; clear H0'; intros ? H0'.
    eapply wp_reversestring_then; [done|done|done|]; clear H0'; intros ? H0'.
    eapply wp_printint_then; [done|vm_compute; reflexivity|done|]; clear H0'; intros s1 [Hs Hr1].
    apply wp_then_call. unfold _exit, syscall_stub. do 2 wp_base. destruct Hs as [Hp (_ & Eph & Esp & Ev & _) Hi _ Eth].
    eapply wp_sys__exit; [done|by rewrite Eth|done|done|]. intros s2 [Lc Lm Lv Lt]. do 2 wp_base. cbn [fmap option_fmap option_map]. split; [done|].
    split; [|by rewrite Lm, Ev, (same_procs (mm s))|done|by rewrite Lt, Eth].
    eapply prints_app in Lc; [|exact Hp]. exact Lc. }
  apply wp_done in Hwp as ([e|x] & s' & Hm & Hl); [done|]. destruct Hl as [-> Hl]. by exists s'.
Qed.
End syscall.

(** ** Stopping the machine *)

Section reboot.
Context {C : Type} `{ConDev C, !ConDevLaws C}.
Context {T : Type} `{Vfs.vnode_layer T} `{VfsSpec.vnode_obs T} {X F : Prop} `{!VfsSpec.VnodeLaws T X F}.
Context (ext : ptr -> Z) (ext_range : forall x, 0 <= ext x <= VfsSpec.MAXREFS).
Implicit Types (s : @kern C T).

Lemma killall_runs n : forall q, KQueue.wf q -> (length (KQueue.contents q) <= n)%nat ->
  exists q', Thread.killall_loop n q = Done q' /\ KQueue.q_empty q' = true.
Proof.
  induction n as [|n IH]; intros q Hq Hl; cbn [Thread.killall_loop].
  - assert (He : KQueue.q_empty q = true) by (apply KQueue.q_empty_spec; [done|]; by apply length_zero_iff_nil; lia).
    rewrite He. by exists q.
  - destruct (KQueue.q_empty q) eqn:He; [by exists q|]. pose proof (KQueue.q_remhead_spec q Hq) as Hh.
    destruct (KQueue.contents q) as [|x rest] eqn:Hc.
    { apply (proj2 (KQueue.q_empty_spec q Hq)) in Hc. congruence. }
    destruct Hh as (q' & -> & Hq' & _ & Hc'). cbn [mbind outcome_bind]. apply IH; [done|]. rewrite Hc'. cbn in Hl. lia.
Qed.

Lemma wpp_scheduler_shutdown (x : Thread.sys) run sl zo (Q : unit -> Thread.sys -> Prop) E :
  ThreadSpec.lists x run sl zo -> Thread.curspl x > 0 ->
  (forall x', Thread.runqueue x' = None -> Thread.sleepers x' = Thread.sleepers x -> Thread.zombies x' = Thread.zombies x -> Q tt x') ->
  wpp X Thread.scheduler_shutdown Q E x.
Proof.
  intros [(q & Hq & Hwf & Hc) _ _] Hs HQ.
  unfold Thread.scheduler_shutdown, Thread.scheduler_killall. wpp_steps. apply ThreadSpec.wpp_assert_spl; [done|]. wpp_steps.
  eapply ThreadSpec.wpp_global; [exact Hq|]. wpp_steps. pose proof (KQueue.length_ring_contents q Hwf). pose proof (KQueue.count_range q Hwf).
  destruct (killall_runs (Z.to_nat (KQueue.size q)) q Hwf) as (q' & Hk & He); [lia|].
  eapply wpp_lift; [exact Hk|]. wpp_steps. apply ThreadSpec.wpp_assert_spl; [done|]. wpp_steps.
  eapply ThreadSpec.wpp_global; [done|]. wpp_steps. eapply wpp_lift; [unfold KQueue.q_destroy; by rewrite He|]. wpp_steps. by apply HQ.
Qed.

Lemma wpp_thread_shutdown (x : Thread.sys) a z (Q : unit -> Thread.sys -> Prop) E :
  Thread.sleepers x = Some a -> Thread.zombies x = Some z -> (forall x', Thread.runqueue x' = Thread.runqueue x -> Q tt x') ->
  wpp X Thread.thread_shutdown Q E x.
Proof.
  intros Ha Hz HQ. unfold Thread.thread_shutdown. wpp_steps. eapply ThreadSpec.wpp_global; [exact Ha|]. wpp_steps.
  eapply ThreadSpec.wpp_global; [exact Hz|]. wpp_steps. by apply HQ.
Qed.

Lemma wpp_on_vfs {A} (m : M (Vfs.vfs T) A) s (Q : A -> @kern C T -> Prop) E :
  wpp X m (fun r x => Q r (mkK (con s) (mm s) x (thr s))) (fun e x => E e (mkK (con s) (mm s) x (thr s))) (vfs s) -> wpp X (on_vfs m) Q E s.
Proof. unfold wpp, on_vfs. destruct (m (vfs s)) as [[[e|r] x]| |]; done. Qed.

Lemma wpp_on_thr {A} (m : M Thread.sys A) s (Q : A -> @kern C T -> Prop) E :
  wpp X m (fun r x => Q r (mkK (con s) (mm s) (vfs s) x)) (fun e x => E e (mkK (con s) (mm s) (vfs s) x)) (thr s) -> wpp X (on_thr m) Q E s.
Proof. unfold wpp, on_thr. destruct (m (thr s)) as [[[e|r] x]| |]; done. Qed.

(** A message of constant text. *)
Lemma wpp_message s l (Q : Z -> @kern C T -> Prop) E :
  con_ok (con s) -> lock_free (con s) -> Forall (fun ch => ch ≠ 0) l -> parse None l = (Lit <$> l, []) ->
  (forall n c, prints (con s) (schar <$> l) c -> con_ok c -> Q n (set_con s c)) -> wpp X (Syscall.kprintf l []) Q E s.
Proof.
  intros Hc Hl Hf Hp HQ. apply wp_wpp. eapply wp_kprintf_con; [done|done|done|exact Hp|done| |].
  - pose proof (render_lits l [] []) as Hr. rewrite app_nil_r in Hr. rewrite Hr. cbn. by rewrite app_nil_r.
  - intros n c Hpr. apply HQ; [done|by eapply prints_ok].
Qed.

(** The kernel that is ready to stop: interrupts off, the references the VFS
    layer holds accounted for, and nothing left to run. *)
Record stopped n cs os s : Prop := {
  st_con : con_ok (con s);
  st_spl : Console.curspl (con s) = SPL_HIGH;
  st_vfs : VfsOps.stays F ext n cs os (vfs s);
  st_thr : Thread.runqueue (thr s) = None
}.

Lemma stopped_prints n cs os s c t : stopped n cs os s -> prints (con s) t c -> stopped n cs os (set_con s c).
Proof.
  intros [Hc Hs Hv Ht] Hp. pose proof (prints_ok _ _ _ Hc Hp). destruct Hp as (d & -> & _). by split.
Qed.

Lemma stopped_lock n cs os s : stopped n cs os s -> lock_free (con s).
Proof.
  intros Hs. unfold lock_free, locking. rewrite (st_spl _ _ _ _ Hs). by destruct (kprintf_lock (con s)), (in_interrupt (con s)).
Qed.

Lemma wpp_splhigh s (Q : unit -> @kern C T -> Prop) E :
  (forall m, Q tt (mkK (Console.set_curspl (con s) SPL_HIGH) m (vfs s) (Thread.set_curspl (thr s) SPL_HIGH))) -> wpp X splhigh Q E s.
Proof. intros HQ. apply HQ. Qed.

Lemma wpp_shutdown n cs os run sl zo s a (Q : unit -> @kern C T -> Prop) E :
  ready s a -> VfsOps.stays F ext n cs os (vfs s) -> VfsSpec.sub os cs -> ThreadSpec.lists (thr s) run sl zo ->
  (forall s', stopped n cs os s' -> Q tt s') -> wpp X shutdown Q E s.
Proof.
  intros Hr Hv Hsub Hth HQ. unfold shutdown. wpp_base.
  apply wpp_message; [apply (r_con _ _ Hr)|apply (r_lock _ _ Hr)|by_eval|done|]. intros _ c _ Hc. wpp_base.
  apply wpp_on_vfs. cbn [vfs set_con con mm thr].
  eapply wpp_mono; [apply (VfsOps.wpp_change_bootfs ext ext_range n _ cs os NULL); [apply Hv|done|apply Hv]|done| |done].
  intros [] v1 Hv1. cbn beta. wpp_base. apply wpp_on_vfs. cbn [vfs set_con con mm thr].
  eapply wpp_mono; [apply (VfsOps.wpp_clearcurdir ext ext_range n _ cs os); [apply Hv1|done|apply Hv1]|done| |done].
  intros [] v2 Hv2. cbn beta. wpp_base. apply wpp_on_vfs. cbn [vfs set_con con mm thr].
  eapply wpp_mono; [apply (VfsCalls.wpp_unmountall ext ext_range n _ cs os); apply Hv2|done| |done].
  intros [] v3 Hv3. cbn beta. wpp_base. apply wpp_splhigh. intros m. cbn [vfs set_con con mm thr]. wpp_base.
  apply wpp_on_thr. cbn [vfs set_con con mm thr].
  eapply wpp_scheduler_shutdown; [split; apply Hth|done|]. intros x1 Hx1 Hsl Hzo. apply wpp_on_thr. cbn [vfs set_con con mm thr].
  destruct (ThreadSpec.l_sl _ _ _ _ Hth) as (sa & Ha & _), (ThreadSpec.l_zo _ _ _ _ Hth) as (za & Hz & _).
  eapply wpp_thread_shutdown; [by rewrite Hsl|by rewrite Hzo|]. intros x2 Hx2. apply HQ. split; cbn; [done|done|done|congruence].
Qed.

(** [reboot] with one of its three codes does not return to the program.  The
    references to vnodes are in balance, the run queue is gone and interrupts
    are off when the machine halts or is powered off; and [reboot] panics only
    if the file systems do. *)
Theorem reboot_stops n cs os run sl zo s a tf :
  ready s a -> VfsOps.stays F ext n cs os (vfs s) -> VfsSpec.sub os cs -> ThreadSpec.lists (thr s) run sl zo ->
  s32 (tf_v0 tf) = SYS_reboot -> 0 <= s32 (tf_a0 tf) <= 2 ->
  wpp X (mips_syscall tf)
    (fun r s' => r = (if decide (s32 (tf_a0 tf) = RB_HALT) then Halts else PowersOff) /\ stopped n cs os s')
    (fun _ _ => False) s.
Proof.
  intros Hr Hv Hsub Hth Hn Hcode. unfold mips_syscall. wpp_base. apply wp_wpp. eapply wp_assert_spl0; [done|]. cbv zeta.
  rewrite Hn. rewrite (bool_decide_eq_true_2 (SYS_reboot = SYS_reboot)) by done. unfold sys_reboot.
  set (code := s32 (tf_a0 tf)) in *.
  assert (bool_decide (code = RB_REBOOT) || bool_decide (code = RB_HALT) || bool_decide (code = RB_POWEROFF) = true) as ->.
  { assert (Hx : code = 0 \/ code = 1 \/ code = 2) by lia. by destruct Hx as [-> |[-> | ->]]. }
  wpp_base. wpp_base. eapply wpp_shutdown; [done..|]. intros s1 Hs1.
  pose proof (stopped_lock _ _ _ _ Hs1) as Hl1. pose proof (st_con _ _ _ _ Hs1) as Hc1.
  destruct (decide (code = RB_HALT)) as [Hh|Hh]; [rewrite bool_decide_eq_true_2 by done|rewrite bool_decide_eq_false_2 by done].
  { wpp_base. apply wpp_message; [done|done|by_eval|done|]. intros _ c Hp _. unfold md_halt. wpp_steps. split; [done|by eapply stopped_prints]. }
  destruct (bool_decide (code = RB_REBOOT)); wpp_base; (apply wpp_message; [done|done|by_eval|done|]); intros _ c Hp _.
  - pose proof (stopped_prints _ _ _ _ _ _ Hs1 Hp) as Hs2. unfold md_reboot, md_poweroff. wpp_base. wpp_base.
    apply wpp_message; [apply (st_con _ _ _ _ Hs2)|by eapply stopped_lock|by_eval|done|]. intros _ c2 Hp2 _. wpp_steps.
    split; [done|]. by eapply (stopped_prints _ _ _ (set_con s1 c)).
  - unfold md_poweroff. wpp_steps. split; [done|by eapply stopped_prints].
Qed.
End reboot.
End SyscallTheorems.
