(* ===== verification/SyscallExample.v ===== *)
(** * The system calls at concrete inputs

    A kernel with a serial console, the memory of a process that holds the two
    strings of [testA], the VFS layer of [VfsExample] and the threads after the
    boot. *)

From stdpp Require Import strings.
From S2P Require Import Prelude Uio Libc Printf Serial Console ConsoleExample KQueue Thread ThreadSpec.
From S2P Require Import Ram DumbVm DumbVmSpec DumbVmOps DumbVmTheorems Vfs VfsSpec VfsOps VfsTheorems VfsExample Syscall SyscallTheorems.

Module SyscallExample.
#[local] Existing Instances Serial.toy_card Serial.toy_laws VfsExample.ex_layer VfsExample.ex_obs VfsExample.ex_laws.
Import Libc Printf Console Ram DumbVm DumbVmSpec DumbVmOps DumbVmTheorems Syscall SyscallTheorems.

(** [hello\0hell\0] at the start of the first region. *)
Definition text : list Z := txt "hello" ++ [0] ++ txt "hell" ++ [0].
Definition HELLO : Z := 4194304.
Definition HELL : Z := 4194310.

Definition ex_phys (x : Z) : Z := default 0 (text !! Z.to_nat (x - 262144)).
Definition run_on (ph : Z -> Z) : vm :=
  match vm_run ex_load (boot_vm 262144 1048576 ph [2147745792]) with Done (_, s) => s | _ => boot_vm 0 0 ph [] end.
Definition ex_mm : vm := run_on ex_phys.
Definition ex_as : addrspace := default empty_as (spaces ex_mm !! vmspace ex_mm).

Lemma ex_phys_byte x : 0 <= ex_phys x < 256.
Proof.
  unfold ex_phys. destruct (text !! Z.to_nat (x - 262144)) as [b|] eqn:Hb; [|cbn; lia]. cbn.
  assert (Hall : Forall (fun b => 0 <= b < 256) text) by by_eval. by apply (Forall_lookup_1 _ _ _ _ Hall Hb).
Qed.

Lemma ex_mm_settled : settled ex_mm.
Proof.
  assert (settled (boot_vm 262144 1048576 ex_phys [2147745792]) /\ Forall op_ok ex_load) as [H1 H2].
  { split; [by apply boot_settled|]. constructor; [|constructor]. split_and!; [split; done..|done]. }
  pose proof (wp_vm_run ex_load _ (fun _ _ => False) H1 H2) as Hwp. unfold ex_mm, run_on. unfold wp in Hwp.
  destruct (vm_run _ _) as [[[e|os] s]| |]; [destruct Hwp|exact (proj1 Hwp)|destruct Hwp..].
Qed.

Definition ex_thr : Thread.sys := match Thread.boot_threads (Thread.power_on (replicate 40 true)) with Done (_, x) => x | _ => Thread.power_on [] end.

Lemma ex_can_exit : can_exit ex_thr.
Proof. eexists. split_and!; [vm_compute; reflexivity|left; reflexivity|reflexivity]. Qed.

Lemma ex_lists : ThreadSpec.lists ex_thr [] [] [].
Proof.
  assert (Hb : wpp True Thread.boot_threads (fun _ x => ThreadSpec.lists x [] [] []) (fun _ _ => False) (Thread.power_on (replicate 40 true))).
  { apply ThreadSpec.wpp_boot. intros x Hx _ _ _. apply Hx. }
  assert (Hd : Thread.boot_threads (Thread.power_on (replicate 40 true)) = Done (inr tt, ex_thr)) by (vm_compute; reflexivity).
  unfold wpp in Hb. by rewrite Hd in Hb.
Qed.

Lemma ex_mm_as : spaces ex_mm !! vmspace ex_mm = Some ex_as.
Proof. vm_compute. reflexivity. Qed.

Lemma run_on_phys ph : phys (run_on ph) = ph /\ lastpaddr (mach (run_on ph)) = 1048576.
Proof. split; vm_compute; reflexivity. Qed.

Definition ex_k : @kern (Serial.softc Serial.toy) VfsExample.exl :=
  mkK (ConsoleExample.ex_con true false []) ex_mm VfsExample.ex_boot ex_thr.

Lemma ex_k_phys : phys (mm ex_k) = ex_phys.
Proof. exact (proj1 (run_on_phys ex_phys)). Qed.

Lemma ex_k_ready : ready ex_k ex_as.
Proof.
  split; [split; [done|apply ConsoleExample.ex_dev_ok]|done|done|apply ex_mm_settled|apply ex_mm_as|].
  intros x. rewrite ex_k_phys. apply ex_phys_byte.
Qed.

(** Strings in the memory of the process, through its page layout. *)
Lemma ex_bytes str len : str_bytes (view (phys (mm ex_k)) ex_as) str len =
  mapM (fun i => ex_phys <$> translate ex_as (str + i)) (seqZ 0 len).
Proof.
  rewrite ex_k_phys. unfold str_bytes. apply mapM_ext.
  intros i. apply view_lookup.
Qed.

Lemma syscall_answers_witness :
  exists s', mips_syscall (mkTf SYS_reversestring HELLO 5 7 4194400) ex_k =
    Done (inr (Resumes (mkTf 0 HELLO 5 0 4194404)), s') /\ said ex_k (line "olleh") s'.
Proof.
  apply (syscall_answers ex_k ex_as (mkTf SYS_reversestring HELLO 5 7 4194400) (line "olleh") (inr 0)); [exact ex_k_ready|].
  change (answer (view (phys (mm ex_k)) ex_as) (mkTf SYS_reversestring HELLO 5 7 4194400)) with
    (bytes ← str_bytes (view (phys (mm ex_k)) ex_as) HELLO 5; Some (shown (reverse bytes) ++ [10], inr (A := Z) 0)).
  rewrite ex_bytes. vm_compute. reflexivity.
Defined.

Lemma bad_string_panics_witness : mips_syscall (mkTf SYS_reversestring 0 3 0 0) ex_k = Panic.
Proof.
  apply (bad_string_panics ex_k ex_as); [exact ex_k_ready|reflexivity|cbn; lia|reflexivity|vm_compute; congruence|].
  rewrite ex_bytes. vm_compute. reflexivity.
Defined.

(** The string again, by its physical address. *)
Lemma kernel_string_printed_witness :
  exists s' r, mips_syscall (mkTf SYS_reversestring 2147745792 5 0 0) ex_k = Done (inr (Resumes r), s') /\ said ex_k (line "olleh") s'.
Proof.
  destruct (kernel_string_printed ex_k ex_as (mkTf SYS_reversestring 2147745792 5 0 0) 262144) as (s' & r & H1 & H2);
    [exact ex_k_ready|reflexivity|reflexivity|lia|reflexivity|vm_compute; congruence|].
  exists s'. eexists. split; [exact H1|]. rewrite ex_k_phys in H2. exact H2.
Defined.

Lemma exit_leaves_witness :
  exists s', mips_syscall (mkTf SYS__exit 3 0 0 0) ex_k = Done (inr Exits, s') /\ left_ ex_k (line "_exit exitCode: 3" ++ line "thread_exit exitCode: 3") s'.
Proof.
  apply (exit_leaves ex_k ex_as (mkTf SYS__exit 3 0 0 0)); [exact ex_k_ready|exact ex_can_exit|reflexivity|vm_compute; congruence].
Defined.

Lemma testA_output_witness :
  exists s', testA HELLO HELL ex_k = Done (inr None, s') /\
    left_ ex_k (line "5" ++ line "0" ++ line "6" ++ line "1" ++ line "olleh" ++ line "0" ++ line "lleh" ++ line "1" ++ line "_exit exitCode: 0" ++ line "thread_exit exitCode: 0") s'.
Proof.
  apply (testA_output ex_k ex_as HELLO HELL); [exact ex_k_ready|exact ex_can_exit|rewrite ex_bytes; vm_compute; reflexivity..].
Defined.

Lemma reboot_stops_witness :
  wpp False (mips_syscall (mkTf SYS_reboot RB_HALT 0 0 0)) (fun r s' => r = Halts /\ Thread.runqueue (thr s') = None) (fun _ _ => False) ex_k.
Proof.
  destruct VfsExample.ex_boot_good as (Hu & Hi & He).
  eapply wpp_mono; [apply (reboot_stops _ He 29 [] [] [] [] [] ex_k ex_as (mkTf SYS_reboot RB_HALT 0 0 0))| | |];
    [exact ex_k_ready|exact (conj Hi Hu)|intros x; cbn; lia|exact ex_lists|reflexivity|vm_compute; split; congruence|trivial| |trivial].
  intros r s' [-> [_ _ _ Hq]]. exact (conj eq_refl Hq).
Defined.
End SyscallExample.
