(* ===== verification/Sort.v ===== *)
(** * The sorting test: [testbin/sort/sort.c]

    A merge sort on an array of integers (the comment of the file calls it
    quicksort), in place with one static buffer that all calls of the
    recursion share.  [sort_sorts] is its correctness; [sort_passes] that the
    program, on whatever numbers [random] returns, prints "Passed.". *)

From stdpp Require Import sorting.
From S2P Require Import Prelude LibcRandom.

Module Sort.

Definition SIZE : Z := 144 * 1024.

(** ** The code *)

(** [while (i<pivot && j<size)] *)
Fixpoint merge_loop (fuel : nat) (arr : list Z) (off pivot size : Z) (tmp : list Z) (i j k : Z)
    : outcome (list Z * Z * Z * Z) :=
  if bool_decide (i < pivot) && bool_decide (j < size) then
    match fuel with
    | O => Stuck
    | S fuel =>
        x ← getZ arr (off + i);
        y ← getZ arr (off + j);
        if bool_decide (x < y) then
          tmp ← setZ tmp k x;
          merge_loop fuel arr off pivot size tmp (i + 1) j (k + 1)
        else
          tmp ← setZ tmp k y;
          merge_loop fuel arr off pivot size tmp i (j + 1) (k + 1)
    end
  else Done (tmp, i, j, k).

(** [while (i<stop) { tmp[k++] = arr[i++]; }] *)
Fixpoint copy_loop (fuel : nat) (arr : list Z) (off i stop : Z) (tmp : list Z) (k : Z) : outcome (list Z * Z) :=
  if bool_decide (i < stop) then
    match fuel with
    | O => Stuck
    | S fuel =>
        x ← getZ arr (off + i);
        tmp ← setZ tmp k x;
        copy_loop fuel arr off (i + 1) stop tmp (k + 1)
    end
  else Done (tmp, k).

(** [sort(&A[off], size)] on the array and the static buffer. *)
Fixpoint sort (fuel : nat) (off size : Z) (arr tmp : list Z) : outcome (list Z * list Z) :=
  match fuel with
  | O => Stuck
  | S fuel =>
      if bool_decide (size < 2) then Done (arr, tmp)
      else
        let pivot := Z.quot size 2 in
        '(arr, tmp) ← sort fuel off pivot arr tmp;
        '(arr, tmp) ← sort fuel (off + pivot) (size - pivot) arr tmp;
        '(tmp, i, j, k) ← merge_loop (Z.to_nat size) arr off pivot size tmp 0 pivot 0;
        '(tmp, k) ← copy_loop (Z.to_nat size) arr off i pivot tmp k;
        '(tmp, k) ← copy_loop (Z.to_nat size) arr off j size tmp k;
        data ← mem_read tmp 0 size;
        arr ← mem_write arr off data;
        Done (arr, tmp)
  end.

(** [for (i = 0; i < SIZE; i++) A[i] = random();] *)
Fixpoint init_loop (n : nat) (i : Z) (A : list Z) (g : LibcRandom.rng) : outcome (list Z * LibcRandom.rng) :=
  match n with
  | O => Done (A, g)
  | S n =>
      '(x, g) ← LibcRandom.random g;
      A ← setZ A i x;
      init_loop n (i + 1) A g
  end.

Definition initarray (A : list Z) (g : LibcRandom.rng) : outcome (list Z * LibcRandom.rng) :=
  g ← LibcRandom.srandom 533 g;
  init_loop (Z.to_nat SIZE) 0 A g.

(** [None] is [warnx("Passed.")], [Some i] the call of [errx] at [i]. *)
Fixpoint check_loop (n : nat) (i : Z) (A : list Z) : outcome (option Z) :=
  match n with
  | O => Done None
  | S n =>
      x ← getZ A i;
      y ← getZ A (i + 1);
      if bool_decide (x > y) then Done (Some i) else check_loop n (i + 1) A
  end.

Definition check (A : list Z) : outcome (option Z) := check_loop (Z.to_nat (SIZE - 1)) 0 A.

(** A call of [sort] has a smaller size than its caller. *)
Definition main (A tmp : list Z) (g : LibcRandom.rng) : outcome (option Z * list Z) :=
  '(A, g) ← initarray A g;
  '(A, tmp) ← sort (S (Z.to_nat SIZE)) 0 SIZE A tmp;
  r ← check A;
  Done (r, A).

(** ** Merging *)

Fixpoint merge (l : list Z) : list Z -> list Z :=
  fix merge_r (r : list Z) :=
    match l, r with
    | [], _ => r
    | _, [] => l
    | x :: l', y :: r' => if decide (x < y) then x :: merge l' r else y :: merge_r r'
    end.

Lemma merge_nil_r l : merge l [] = l.
Proof. by destruct l. Qed.

Lemma merge_cons x l y r : merge (x :: l) (y :: r) = if decide (x < y) then x :: merge l (y :: r) else y :: merge (x :: l) r.
Proof. done. Qed.

Lemma merge_perm l r : merge l r ≡ₚ l ++ r.
Proof.
  revert r. induction l as [|x l IHl]; intros r; [by destruct r|].
  induction r as [|y r IHr]; [by rewrite merge_nil_r, app_nil_r|]. rewrite merge_cons. case_decide.
  - by rewrite IHl.
  - rewrite IHr. by rewrite Permutation_middle.
Qed.

Lemma merge_sorted l r : StronglySorted Z.le l -> StronglySorted Z.le r -> StronglySorted Z.le (merge l r).
Proof.
  revert r. induction l as [|x l IHl]; intros r Hl Hr; [by destruct r|].
  induction r as [|y r IHr]; [by rewrite merge_nil_r|]. rewrite merge_cons.
  apply StronglySorted_inv in Hl as [Hl Hx]. pose proof Hr as Hr0. apply StronglySorted_inv in Hr0 as [Hr' Hy]. case_decide as Hc.
  - constructor; [by apply IHl|]. rewrite merge_perm. apply Forall_app. split; [done|]. constructor; [lia|].
    eapply Forall_impl; [exact Hy|]. cbn. lia.
  - constructor; [by apply IHr|]. rewrite merge_perm. apply Forall_app. split; [|done]. constructor; [lia|].
    eapply Forall_impl; [exact Hx|]. cbn. lia.
Qed.

(** ** The loops *)

Lemma getZ_slice_cons (l : list Z) b n : 0 <= b -> b < Z.of_nat (length l) -> 0 < n ->
  exists x, getZ l b = Done x /\ slice l b n = x :: slice l (b + 1) (n - 1).
Proof.
  intros Hb Hl Hn. destruct (lookup_lt_is_Some_2 l (Z.to_nat b)) as [x Hx]; [lia|]. exists x.
  split; [unfold getZ; rewrite bool_decide_eq_true_2 by lia; by rewrite Hx|]. unfold slice. rewrite (drop_S _ _ _ Hx).
  replace (Z.to_nat n) with (S (Z.to_nat (n - 1))) by lia. cbn [take]. by replace (S (Z.to_nat b)) with (Z.to_nat (b + 1)) by lia.
Qed.

Lemma slice_insert (l : list Z) k x : 0 <= k < Z.of_nat (length l) -> slice (<[Z.to_nat k := x]> l) 0 (k + 1) = slice l 0 k ++ [x].
Proof.
  intros Hk. unfold slice. rewrite !drop_0. replace (Z.to_nat (k + 1)) with (S (Z.to_nat k)) by lia.
  rewrite (take_S_r _ _ x); [by rewrite take_insert_ge|]. apply list_lookup_insert_eq. lia.
Qed.

Lemma slice_0 (l : list Z) b : slice l b 0 = [].
Proof. done. Qed.

Section loops.
Context (arr : list Z) (off pivot size : Z).
Context (Hoff : 0 <= off) (Hlen : off + size <= Z.of_nat (length arr)).

Lemma merge_loop_spec fuel : forall tmp i j k,
  0 <= i <= pivot -> pivot <= j <= size -> k = i + (j - pivot) -> size <= Z.of_nat (length tmp) ->
  (pivot - i) + (size - j) <= Z.of_nat fuel ->
  exists tmp' i' j' k', merge_loop fuel arr off pivot size tmp i j k = Done (tmp', i', j', k') /\
    0 <= i' <= pivot /\ pivot <= j' <= size /\ k' = i' + (j' - pivot) /\ length tmp' = length tmp /\
    slice tmp' 0 k' ++ slice arr (off + i') (pivot - i') ++ slice arr (off + j') (size - j') =
    slice tmp 0 k ++ merge (slice arr (off + i) (pivot - i)) (slice arr (off + j) (size - j)).
Proof.
  induction fuel as [|fuel IH]; intros tmp i j k Hi Hj Hk Ht Hf; cbn [merge_loop].
  { rewrite bool_decide_eq_false_2 by lia. exists tmp, i, j, k. split_and!; [done|lia..|done|]. f_equal.
    replace (size - j) with 0 by lia. by rewrite slice_0, merge_nil_r, app_nil_r. }
  destruct (bool_decide (i < pivot)) eqn:Ei; cbn [andb].
  2: { apply bool_decide_eq_false_1 in Ei. exists tmp, i, j, k. (split_and!; [done|lia..|done|]). f_equal.
       replace (pivot - i) with 0 by lia. by destruct (slice arr (off + j) (size - j)). }
  apply bool_decide_eq_true_1 in Ei. destruct (bool_decide (j < size)) eqn:Ej.
  2: { apply bool_decide_eq_false_1 in Ej. exists tmp, i, j, k. (split_and!; [done|lia..|done|]). f_equal.
       replace (size - j) with 0 by lia. rewrite slice_0, merge_nil_r. apply app_nil_r. }
  apply bool_decide_eq_true_1 in Ej.
  destruct (getZ_slice_cons arr (off + i) (pivot - i)) as (x & -> & Ex); [lia..|]. cbn [mbind outcome_bind].
  destruct (getZ_slice_cons arr (off + j) (size - j)) as (y & -> & Ey); [lia..|]. cbn [mbind outcome_bind].
  rewrite Ex, Ey, merge_cons. destruct (decide (x < y)) as [Hxy|Hxy].
  - rewrite bool_decide_eq_true_2 by done. rewrite setZ_ok by lia. cbn [mbind outcome_bind].
    destruct (IH (<[Z.to_nat k := x]> tmp) (i + 1) j (k + 1)) as (tmp' & i' & j' & k' & E & H1 & H2 & H3 & H4 & H5); [lia..|rewrite length_insert; lia|lia|].
    exists tmp', i', j', k'. split_and!; [done|lia..|by rewrite length_insert in H4|]. rewrite H5, slice_insert by lia. rewrite <- app_assoc. cbn [app].
    by replace (off + (i + 1)) with (off + i + 1) by lia; replace (pivot - (i + 1)) with (pivot - i - 1) by lia; rewrite <- Ey.
  - rewrite bool_decide_eq_false_2 by done. rewrite setZ_ok by lia. cbn [mbind outcome_bind].
    destruct (IH (<[Z.to_nat k := y]> tmp) i (j + 1) (k + 1)) as (tmp' & i' & j' & k' & E & H1 & H2 & H3 & H4 & H5); [lia..|rewrite length_insert; lia|lia|].
    exists tmp', i', j', k'. split_and!; [done|lia..|by rewrite length_insert in H4|]. rewrite H5, slice_insert by lia. rewrite <- app_assoc. cbn [app].
    by replace (off + (j + 1)) with (off + j + 1) by lia; replace (size - (j + 1)) with (size - j - 1) by lia; rewrite <- Ex.
Qed.

Lemma copy_loop_spec fuel : forall tmp i stop k,
  0 <= i <= stop -> stop <= size -> 0 <= k -> k + (stop - i) <= Z.of_nat (length tmp) -> stop - i <= Z.of_nat fuel ->
  exists tmp', copy_loop fuel arr off i stop tmp k = Done (tmp', k + (stop - i)) /\ length tmp' = length tmp /\
    slice tmp' 0 (k + (stop - i)) = slice tmp 0 k ++ slice arr (off + i) (stop - i).
Proof.
  induction fuel as [|fuel IH]; intros tmp i stop k Hi Hs Hk Ht Hf; cbn [copy_loop].
  { rewrite bool_decide_eq_false_2 by lia. exists tmp. replace (stop - i) with 0 by lia. rewrite slice_0, app_nil_r, Z.add_0_r. done. }
  destruct (decide (i < stop)).
  - rewrite bool_decide_eq_true_2 by done. destruct (getZ_slice_cons arr (off + i) (stop - i)) as (x & -> & Ex); [lia..|]. cbn [mbind outcome_bind].
    rewrite setZ_ok by lia. cbn [mbind outcome_bind].
    destruct (IH (<[Z.to_nat k := x]> tmp) (i + 1) stop (k + 1)) as (tmp' & E & H1 & H2); [lia..|rewrite length_insert; lia|lia|].
    exists tmp'. replace (k + (stop - i)) with (k + 1 + (stop - (i + 1))) by lia. split_and!; [done|by rewrite length_insert in H1|].
    rewrite H2, slice_insert, Ex, <- app_assoc by lia. cbn [app]. by replace (off + (i + 1)) with (off + i + 1) by lia; replace (stop - (i + 1)) with (stop - i - 1) by lia.
  - rewrite bool_decide_eq_false_2 by done. exists tmp. replace (stop - i) with 0 by lia. rewrite slice_0, app_nil_r, Z.add_0_r. done.
Qed.

(** The three loops together. *)
Lemma merge_halves tmp : 0 <= pivot <= size -> size <= Z.of_nat (length tmp) ->
  exists tmp1 i j k tmp2 k2 tmp3 k3, merge_loop (Z.to_nat size) arr off pivot size tmp 0 pivot 0 = Done (tmp1, i, j, k) /\
    copy_loop (Z.to_nat size) arr off i pivot tmp1 k = Done (tmp2, k2) /\ copy_loop (Z.to_nat size) arr off j size tmp2 k2 = Done (tmp3, k3) /\
    length tmp3 = length tmp /\ slice tmp3 0 size = merge (slice arr off pivot) (slice arr (off + pivot) (size - pivot)).
Proof.
  intros Hp Ht. destruct (merge_loop_spec (Z.to_nat size) tmp 0 pivot 0) as (tmp1 & i & j & k & E1 & Hi & Hj & Hk & Hl1 & H1); [lia..|].
  destruct (copy_loop_spec (Z.to_nat size) tmp1 i pivot k) as (tmp2 & E2 & Hl2 & H2); [lia..|].
  destruct (copy_loop_spec (Z.to_nat size) tmp2 j size (k + (pivot - i))) as (tmp3 & E3 & Hl3 & H3); [lia..|].
  exists tmp1, i, j, k, tmp2, (k + (pivot - i)), tmp3, (k + (pivot - i) + (size - j)). split_and!; [done..|congruence|].
  replace (k + (pivot - i) + (size - j)) with size in H3 by lia. rewrite H3, H2, <- app_assoc, H1. cbn [app].
  by rewrite Z.add_0_r, Z.sub_0_r.
Qed.
End loops.

(** ** Sorting *)

Lemma slice_splice_self (l d : list Z) off n :
  0 <= off -> off + n <= Z.of_nat (length l) -> Z.of_nat (length d) = n -> slice (splice l off d) off n = d.
Proof.
  intros Ho Hl <-. unfold slice, splice. rewrite drop_app_length' by (rewrite length_take; lia). rewrite Nat2Z.id. by rewrite take_app_length.
Qed.

Lemma splice_over (l d d' : list Z) off :
  0 <= off -> off + Z.of_nat (length d) <= Z.of_nat (length l) -> length d' = length d -> splice (splice l off d) off d' = splice l off d'.
Proof.
  intros Ho Hl Hd. unfold splice. rewrite take_app_length' by (rewrite length_take; lia). do 2 f_equal.
  rewrite drop_app_ge by (rewrite length_take; lia). rewrite drop_app_ge by (rewrite length_take; lia). rewrite drop_drop, length_take. f_equal. lia.
Qed.

(** The part of the array is replaced by [d]. *)
Lemma sort_spec fuel : forall off size arr tmp,
  0 <= off -> size < Z.of_nat fuel -> 0 <= size -> off + size <= Z.of_nat (length arr) -> size <= Z.of_nat (length tmp) ->
  exists d tmp', sort fuel off size arr tmp = Done (splice arr off d, tmp') /\ length tmp' = length tmp /\
    Z.of_nat (length d) = size /\ d ≡ₚ slice arr off size /\ StronglySorted Z.le d.
Proof.
  induction fuel as [|fuel IH]; intros off size arr tmp Ho Hf Hs Hl Ht; [lia|]. cbn [sort]. destruct (decide (size < 2)) as [H2|H2].
  { rewrite bool_decide_eq_true_2 by done. exists (slice arr off size), tmp. pose proof (length_slice arr off size Ho Hs Hl) as Hd.
    split_and!; [|done|done|done|].
    - do 2 f_equal. unfold splice, slice in *. rewrite <- (take_drop (Z.to_nat off) arr) at 1. f_equal.
      rewrite <- (take_drop (Z.to_nat size) (drop (Z.to_nat off) arr)) at 1. f_equal. rewrite drop_drop. f_equal. lia.
    - destruct (slice arr off size) as [|x [|y r]]; [constructor|repeat constructor|cbn in Hd; lia]. }
  rewrite bool_decide_eq_false_2 by done. cbv zeta. set (pivot := Z.quot size 2).
  assert (Hp : 0 < pivot < size /\ size - pivot < size) by (subst pivot; rewrite Z.quot_div_nonneg by lia; pose proof (Z.div_mod size 2); pose proof (Z.mod_pos_bound size 2); lia).
  destruct (IH off pivot arr tmp) as (d1 & tmp1 & -> & Ht1 & Hd1 & Hp1 & Hs1); [lia..|]. cbn [mbind outcome_bind].
  assert (Hl1 : length (splice arr off d1) = length arr) by (apply length_splice; lia).
  destruct (IH (off + pivot) (size - pivot) (splice arr off d1) tmp1) as (d2 & tmp2 & -> & Ht2 & Hd2 & Hp2 & Hs2); [lia..|]. cbn [mbind outcome_bind].
  rewrite slice_splice_away in Hp2 by lia. rewrite <- Hd1 in *. rewrite splice_app by lia. set (arr2 := splice arr off (d1 ++ d2)).
  assert (Hl2 : length arr2 = length arr) by (apply length_splice; rewrite ?length_app; lia).
  destruct (merge_halves arr2 off (Z.of_nat (length d1)) size Ho ltac:(lia) tmp2) as (t1 & i & j & k & t2 & k2 & t3 & k3 & -> & E2 & E3 & Hl3 & Hm); [lia..|].
  cbn [mbind outcome_bind]. rewrite E2. cbn [mbind outcome_bind]. rewrite E3. cbn [mbind outcome_bind].
  rewrite mem_read_ok by lia. cbn [mbind outcome_bind]. rewrite Hm.
  assert (Hsl1 : slice arr2 off (Z.of_nat (length d1)) = d1 /\ slice arr2 (off + Z.of_nat (length d1)) (size - Z.of_nat (length d1)) = d2).
  { subst arr2. rewrite <- splice_app by lia. split; [rewrite slice_splice_away by lia|]; apply slice_splice_self; lia. }
  destruct Hsl1 as [-> ->]. pose proof (merge_perm d1 d2) as Hmp. pose proof (Permutation_length Hmp) as Hml. rewrite length_app in Hml.
  rewrite mem_write_ok by lia. cbn [mbind outcome_bind]. exists (merge d1 d2), t3. split_and!.
  - subst arr2. by rewrite splice_over by (rewrite ?length_app; lia).
  - congruence.
  - lia.
  - rewrite Hmp, Hp1, Hp2. replace size with (Z.of_nat (length d1) + (size - Z.of_nat (length d1))) at 2 by lia. by rewrite slice_app by lia.
  - by apply merge_sorted.
Qed.

(** C37. [sort] ends with the part of the array sorted: a permutation of what was
    there, in order; and leaves the rest of the array alone. *)
Theorem sort_sorts off size arr tmp :
  0 <= off -> 0 <= size -> off + size <= Z.of_nat (length arr) -> size <= Z.of_nat (length tmp) ->
  exists d tmp', sort (S (Z.to_nat size)) off size arr tmp = Done (splice arr off d, tmp') /\
    d ≡ₚ slice arr off size /\ StronglySorted Z.le d.
Proof.
  intros Ho Hs Hl Ht. destruct (sort_spec (S (Z.to_nat size)) off size arr tmp) as (d & tmp' & E & _ & _ & Hp & Hd); [lia..|]. by exists d, tmp'.
Qed.

(** ** The program *)

Lemma init_loop_spec n : forall i A g, LibcRandom.rng_ok g -> 0 <= i -> i + Z.of_nat n <= Z.of_nat (length A) ->
  exists A' g', init_loop n i A g = Done (A', g') /\ length A' = length A.
Proof.
  induction n as [|n IH]; intros i A g Hg Hi Hl; cbn [init_loop]; [by exists A, g|].
  destruct (LibcRandom.random_spec g Hg) as (x & v & g' & k & Er & _ & Hg' & _). unfold LibcRandom.random. rewrite Er. cbn [mbind outcome_bind].
  rewrite setZ_ok by lia. cbn [mbind outcome_bind]. destruct (IH (i + 1) (<[Z.to_nat i := x]> A) g') as (A' & g2 & -> & HA); [done|lia|rewrite length_insert; lia|].
  exists A', g2. by rewrite length_insert in HA.
Qed.

Lemma sorted_lookup (A : list Z) i j x y : StronglySorted Z.le A -> A !! i = Some x -> A !! j = Some y -> (i < j)%nat -> x <= y.
Proof.
  intros HA. revert i j. induction HA as [|z A HA IH Hz]; intros i j Hx Hy Hij; [done|]. destruct j as [|j]; [lia|]. destruct i as [|i].
  - cbn in Hx, Hy. injection Hx as <-. rewrite Forall_lookup in Hz. by eapply Hz.
  - cbn in Hx, Hy. eapply IH; [done|done|lia].
Qed.

Lemma check_loop_sorted n : forall i A, StronglySorted Z.le A -> 0 <= i -> i + Z.of_nat n < Z.of_nat (length A) -> check_loop n i A = Done None.
Proof.
  induction n as [|n IH]; intros i A HA Hi Hl; cbn [check_loop]; [done|].
  destruct (getZ_slice_cons A i 1) as (x & Ex & _); [lia..|]. destruct (getZ_slice_cons A (i + 1) 1) as (y & Ey & _); [lia..|].
  rewrite Ex. cbn [mbind outcome_bind]. rewrite Ey. cbn [mbind outcome_bind]. rewrite bool_decide_eq_false_2; [apply IH; [done|lia|lia]|].
  assert (Hlk : forall b z, 0 <= b -> getZ A b = Done z -> A !! Z.to_nat b = Some z).
  { intros b z Hb Hz. unfold getZ in Hz. case_bool_decide; [|done]. by destruct (A !! Z.to_nat b); [injection Hz as ->|]. }
  pose proof (sorted_lookup A (Z.to_nat i) (Z.to_nat (i + 1)) x y HA (Hlk _ _ Hi Ex) (Hlk (i + 1) _ ltac:(lia) Ey) ltac:(lia)). lia.
Qed.

Lemma run_passes N A tmp g :
  0 < N -> Z.of_nat (length A) = N -> Z.of_nat (length tmp) = N -> LibcRandom.rng_ok g ->
  exists A', ('(A, g) ← (g ← LibcRandom.srandom 533 g; init_loop (Z.to_nat N) 0 A g);
              '(A, tmp) ← sort (S (Z.to_nat N)) 0 N A tmp;
              r ← check_loop (Z.to_nat (N - 1)) 0 A;
              Done (r, A)) = Done (None, A') /\ StronglySorted Z.le A'.
Proof.
  intros HN HA Ht Hg. unfold LibcRandom.srandom.
  destruct (LibcRandom.srandom_spec 533 g) as (g1 & -> & Hg1 & _); [by split; apply Hg|]. cbn [mbind outcome_bind].
  destruct (init_loop_spec (Z.to_nat N) 0 A g1) as (A1 & g2 & -> & HA1); [done|lia|lia|]. cbn [mbind outcome_bind].
  destruct (sort_spec (S (Z.to_nat N)) 0 N A1 tmp) as (d & tmp' & -> & _ & Hd & _ & Hsd); [lia..|]. cbn [mbind outcome_bind].
  rewrite splice_all by lia. rewrite check_loop_sorted by (done || lia). by exists d.
Qed.

(** The program passes: whatever is in memory and in the table of [random], the
    run ends, no index is out of range, and [check] finds nothing to report. *)
Theorem sort_passes A tmp g :
  Z.of_nat (length A) = SIZE -> Z.of_nat (length tmp) = SIZE -> LibcRandom.rng_ok g ->
  exists A', main A tmp g = Done (None, A') /\ StronglySorted Z.le A'.
Proof. intros HA Ht Hg. apply (run_passes SIZE A tmp g); [unfold SIZE; lia|assumption..]. Qed.

Lemma sort_sorts_witness :
  exists d tmp', sort 6 1 5 [9; 5; 3; 4; 3; 1; 0] [0; 0; 0; 0; 0] = Done ([9] ++ d ++ [0], tmp') /\ d = [1; 3; 3; 4; 5].
Proof.
  destruct (sort_sorts 1 5 [9; 5; 3; 4; 3; 1; 0] [0; 0; 0; 0; 0]) as (d & tmp' & E & _ & _); [lia..|cbn; lia|cbn; lia|].
  assert (Hd : sort 6 1 5 [9; 5; 3; 4; 3; 1; 0] [0; 0; 0; 0; 0] = Done ([9; 1; 3; 3; 4; 5; 0], [1; 3; 3; 4; 5])) by (vm_compute; reflexivity).
  exists [1; 3; 3; 4; 5], [1; 3; 3; 4; 5]. split; [exact Hd|reflexivity].
Defined.

Lemma sort_passes_witness :
  exists A', main (zeros SIZE) (zeros SIZE) (LibcRandom.initial []) = Done (None, A') /\ StronglySorted Z.le A'.
Proof.
  apply sort_passes; [apply length_zeros; unfold SIZE; lia..|apply LibcRandom.initial_ok].
Defined.
End Sort.
