(* ===== verification/Screen.v ===== *)
(** * The screen driver: [dev/lamebus/lscreen.c] and [con_lscreen.c]

    The screen is an area of memory, a row after the other; the driver keeps
    the place of the next character, wraps long lines and scrolls.
    [screen_refines] says that it shows the last lines of the text written;
    [screen_console_hangs] that as the console's device it blocks at the second
    character, because nothing ever calls [con_start]. *)

From S2P Require Import Prelude Uio.

Module Screen.

(** ** Registers *)

Definition LSCR_IRQ_ENABLE : Z := 1.
Definition LSCR_IRQ_ACTIVE : Z := 2.

(** [LSCR_REG_POSN], [LSCR_REG_SIZE], [LSCR_REG_CHAR], [LSCR_REG_RIRQ] *)
Record regs := mkRegs {
  r_posn : Z;
  r_size : Z;
  r_char : Z;
  r_rirq : Z
}.

(** [x] and [y] *)
Definition splitxy (xy : Z) : Z * Z := (Z.shiftr xy 16, Z.land xy 65535).
Definition mergexy (x y : Z) : Z := Z.lor (u32 (Z.shiftl x 16)) y.

(** ** The driver *)

Record lscreen_softc := mkLs {
  ls_width : Z;
  ls_height : Z;
  ls_cx : Z;
  ls_cy : Z;
  ls_screen : list Z;
  ls_regs : regs
}.

Definition set_cursor (sc : lscreen_softc) x y := mkLs (ls_width sc) (ls_height sc) x y (ls_screen sc) (ls_regs sc).
Definition set_screen (sc : lscreen_softc) s := mkLs (ls_width sc) (ls_height sc) (ls_cx sc) (ls_cy sc) s (ls_regs sc).
Definition set_regs (sc : lscreen_softc) r := mkLs (ls_width sc) (ls_height sc) (ls_cx sc) (ls_cy sc) (ls_screen sc) r.

(** The character handed to [ls_input], if any. *)
Definition lscreen_irq (curspl : Z) (sc : lscreen_softc) : outcome (option Z * lscreen_softc) :=
  assert! bool_decide (curspl > 0);;
  let r := ls_regs sc in
  if bool_decide (Z.land (r_rirq r) LSCR_IRQ_ACTIVE ≠ 0) then
    Done (Some (r_char r), set_regs sc (mkRegs (r_posn r) (r_size r) (r_char r) LSCR_IRQ_ENABLE))
  else Done (None, sc).

Definition lscreen_newline (sc : lscreen_softc) : outcome lscreen_softc :=
  if bool_decide (ls_cy sc >= u32 (ls_height sc - 1)) then
    let rest := u32 (ls_width sc * u32 (ls_height sc - 1)) in
    d ← mem_read (ls_screen sc) (ls_width sc) rest;
    s ← mem_write (ls_screen sc) 0 d;
    s ← mem_write s rest (zeros (ls_width sc));
    Done (set_cursor (set_screen sc s) 0 (ls_cy sc))
  else Done (set_cursor sc 0 (u32 (ls_cy sc + 1))).

Definition lscreen_char (sc : lscreen_softc) (ch : Z) : outcome lscreen_softc :=
  sc ← (if bool_decide (ls_cx sc >= ls_width sc) then lscreen_newline sc else Done sc);
  s ← setZ (ls_screen sc) (u32 (ls_cy sc * ls_width sc + ls_cx sc)) (u8 ch);
  Done (set_cursor (set_screen sc s) (u32 (ls_cx sc + 1)) (ls_cy sc)).

Definition lscreen_write (sc : lscreen_softc) (ch : Z) : outcome lscreen_softc :=
  sc ← (if bool_decide (ch = 10) then lscreen_newline sc else lscreen_char sc ch);
  let ccx := if bool_decide (ls_cx sc = ls_width sc) then ls_cx sc - 1 else ls_cx sc in
  let r := ls_regs sc in
  Done (set_regs sc (mkRegs (mergexy ccx (ls_cy sc)) (r_size r) (r_char r) (r_rirq r))).

(** The memory mapped at [LSCR_SCREEN] is an argument. *)
Definition config_lscreen (r : regs) (area : list Z) : lscreen_softc :=
  let r := mkRegs (r_posn r) (r_size r) (r_char r) LSCR_IRQ_ENABLE in
  let '(w, h) := splitxy (r_size r) in
  let '(x, y) := splitxy (r_posn r) in
  mkLs w h x y area r.

Fixpoint write_text (sc : lscreen_softc) (t : list Z) : outcome lscreen_softc :=
  match t with
  | [] => Done sc
  | ch :: t => sc ← lscreen_write sc ch; write_text sc t
  end.

(** ** As the console's device *)

(** [con_softc] with [cs_send] and [cs_sendpolled] both [lscreen_write]; the
    count of [cs_wsem], which [con_start] would raise. *)
Definition con_lscreen : Type := lscreen_softc * Z.

(** [P(cs->cs_wsem); cs->cs_send(...)]; with the count at 0 the thread sleeps. *)
Definition putch_intr (c : con_lscreen) (ch : Z) : outcome con_lscreen :=
  let '(sc, wsem) := c in
  if bool_decide (wsem = 0) then Stuck
  else sc ← lscreen_write sc ch; Done (sc, wsem - 1).

Definition putch_polled (c : con_lscreen) (ch : Z) : outcome con_lscreen :=
  let '(sc, wsem) := c in
  sc ← lscreen_write sc ch; Done (sc, wsem).

(** ** What a terminal shows *)

(** The lines written, the last one first; a line that is full is continued on
    the next. *)
Definition type_char (w : Z) (ls : list (list Z)) (ch : Z) : list (list Z) :=
  if decide (ch = 10) then [] :: ls
  else match ls with
       | l :: rest => if decide (Z.of_nat (length l) = w) then [u8 ch] :: ls else (l ++ [u8 ch]) :: rest
       | [] => [[u8 ch]]
       end.

Definition type_text (w : Z) (t : list Z) (ls : list (list Z)) : list (list Z) := fold_left (type_char w) t ls.

Definition pad (w : Z) (l : list Z) : list Z := l ++ zeros (w - Z.of_nat (length l)).

(** The rows of the last [h] lines, from the top. *)
Definition rows (w h : Z) (ls : list (list Z)) : list Z := concat (pad w <$> reverse (take (Z.to_nat h) ls)).

Record shows (sc : lscreen_softc) (l : list Z) (above : list (list Z)) : Prop := {
  sh_w : 0 < ls_width sc < 65536;
  sh_h : 0 < ls_height sc < 65536;
  sh_fit : Forall (fun l => Z.of_nat (length l) <= ls_width sc) (l :: above);
  sh_cx : ls_cx sc = Z.of_nat (length l);
  sh_cy : ls_cy sc = Z.min (Z.of_nat (length above)) (ls_height sc - 1);
  sh_screen : ls_screen sc = rows (ls_width sc) (ls_height sc) (l :: above) ++ zeros (ls_width sc * (ls_height sc - 1 - ls_cy sc))
}.

Lemma length_pad w l : Z.of_nat (length l) <= w -> Z.of_nat (length (pad w l)) = w.
Proof. intros Hl. unfold pad. rewrite length_app, Nat2Z.inj_add, length_zeros by lia. lia. Qed.

Lemma length_concat_pad w ls : Forall (fun l => Z.of_nat (length l) <= w) ls -> Z.of_nat (length (concat (pad w <$> ls))) = w * Z.of_nat (length ls).
Proof.
  induction 1 as [|l ls Hl H IH]; cbn [fmap list_fmap concat length]; [lia|]. rewrite length_app, Nat2Z.inj_add, IH, length_pad by done. lia.
Qed.

Lemma rows_cons w h l above : 0 < h ->
  rows w h (l :: above) = concat (pad w <$> reverse (take (Z.to_nat (h - 1)) above)) ++ pad w l.
Proof.
  intros Hh. unfold rows. replace (Z.to_nat h) with (S (Z.to_nat (h - 1))) by lia. cbn [take]. rewrite reverse_cons, fmap_app, concat_app.
  cbn [fmap list_fmap concat]. by rewrite app_nil_r.
Qed.

(** The rows above the cursor. *)
Definition top (sc : lscreen_softc) (above : list (list Z)) : list Z :=
  concat (pad (ls_width sc) <$> reverse (take (Z.to_nat (ls_height sc - 1)) above)).

Lemma length_top sc l above : shows sc l above -> Z.of_nat (length (top sc above)) = ls_width sc * ls_cy sc.
Proof.
  intros Hs. pose proof (sh_h _ _ _ Hs). unfold top. rewrite length_concat_pad.
  - rewrite length_reverse, length_take, (sh_cy _ _ _ Hs). f_equal. lia.
  - pose proof (sh_fit _ _ _ Hs) as Hf. apply Forall_cons in Hf as [_ Hf]. apply Forall_reverse. by apply Forall_take.
Qed.

Lemma screen_top sc l above : shows sc l above ->
  ls_screen sc = top sc above ++ pad (ls_width sc) l ++ zeros (ls_width sc * (ls_height sc - 1 - ls_cy sc)).
Proof. intros Hs. rewrite (sh_screen _ _ _ Hs), rows_cons by apply Hs. by rewrite <- app_assoc. Qed.

Lemma length_screen sc l above : shows sc l above -> Z.of_nat (length (ls_screen sc)) = ls_width sc * ls_height sc.
Proof.
  intros Hs. pose proof (sh_w _ _ _ Hs). pose proof (sh_h _ _ _ Hs). pose proof (sh_cy _ _ _ Hs). rewrite (screen_top _ _ _ Hs).
  pose proof (sh_fit _ _ _ Hs) as Hf. apply Forall_cons in Hf as [Hf _].
  rewrite !length_app, !Nat2Z.inj_add, (length_top _ _ _ Hs), length_pad, length_zeros by (done || nia). nia.
Qed.

Definition same_size (sc sc' : lscreen_softc) : Prop := ls_width sc' = ls_width sc /\ ls_height sc' = ls_height sc.

(** Scrolling: the rows below the first, and an empty one. *)
Lemma scroll_spec (w n : Z) (s d : list Z) :
  0 <= w -> 0 <= n -> Z.of_nat (length d) = n -> Z.of_nat (length s) = w + n -> slice s w n = d ->
  (d' ← mem_read s w n; s' ← mem_write s 0 d'; mem_write s' n (zeros w)) = Done (d ++ zeros w).
Proof.
  intros Hw Hn Hd Hs Hsl. rewrite mem_read_ok by lia. cbn [mbind outcome_bind]. rewrite Hsl, mem_write_ok by lia. cbn [mbind outcome_bind].
  rewrite mem_write_ok by (rewrite ?length_splice, ?length_zeros by lia; lia).
  replace n with (0 + Z.of_nat (length d)) at 1 by lia. rewrite splice_app by (rewrite ?length_zeros by lia; lia).
  rewrite splice_all; [done|]. rewrite length_app. apply Nat2Z.inj. rewrite Nat2Z.inj_add, length_zeros by lia. lia.
Qed.

Lemma newline_shows sc l above : shows sc l above ->
  exists sc', lscreen_newline sc = Done sc' /\ shows sc' [] (l :: above) /\ same_size sc sc' /\ ls_regs sc' = ls_regs sc.
Proof.
  intros Hs. pose proof (sh_w _ _ _ Hs) as Hw. pose proof (sh_h _ _ _ Hs) as Hh. pose proof (sh_cy _ _ _ Hs) as Hcy.
  pose proof (sh_fit _ _ _ Hs) as Hf. pose proof (length_screen _ _ _ Hs) as Hlen. unfold lscreen_newline. rewrite (u32_small (ls_height sc - 1)) by lia.
  assert (Hf' : Forall (fun l => Z.of_nat (length l) <= ls_width sc) ([] :: l :: above)) by (constructor; [cbn; lia|done]).
  destruct (decide (Z.of_nat (length above) < ls_height sc - 1)) as [Hlt|Hge].
  - rewrite bool_decide_eq_false_2 by lia. eexists. split; [done|]. split; [|done].
    split; cbn [set_cursor ls_width ls_height ls_cx ls_cy ls_screen]; [done|done|done|done|cbn [length]; rewrite u32_small by lia; lia|].
    rewrite u32_small by lia. rewrite (sh_screen _ _ _ Hs), (rows_cons _ _ []) by lia. unfold rows.
    rewrite !take_ge by (cbn [length]; lia). rewrite <- app_assoc. f_equal. unfold pad. cbn [app length]. rewrite Z.sub_0_r, <- Uio.zeros_app by nia.
    f_equal. nia.
  - rewrite bool_decide_eq_true_2 by lia. rewrite (u32_small (ls_width sc * (ls_height sc - 1))) by nia.
    set (rest := concat (pad (ls_width sc) <$> reverse (take (Z.to_nat (ls_height sc - 1)) (l :: above)))).
    assert (Hrest : Z.of_nat (length rest) = ls_width sc * (ls_height sc - 1)).
    { subst rest. rewrite length_concat_pad by (by apply Forall_reverse, Forall_take). rewrite length_reverse, length_take. cbn [length]. f_equal. lia. }
    assert (Hsl : slice (ls_screen sc) (ls_width sc) (ls_width sc * (ls_height sc - 1)) = rest).
    { destruct (lookup_lt_is_Some_2 (l :: above) (Z.to_nat (ls_height sc - 1))) as [v Hv]; [cbn [length]; lia|].
      rewrite (sh_screen _ _ _ Hs). unfold rows. replace (Z.to_nat (ls_height sc)) with (S (Z.to_nat (ls_height sc - 1))) by lia.
      rewrite (take_S_r _ _ v) by done. rewrite reverse_snoc. cbn [fmap list_fmap concat]. fold rest.
      replace (ls_height sc - 1 - ls_cy sc) with 0 by lia. rewrite Z.mul_0_r. cbn [zeros replicate]. change (zeros 0) with (@nil Z). rewrite app_nil_r.
      assert (Hv' : Z.of_nat (length (pad (ls_width sc) v)) = ls_width sc) by (apply length_pad; by apply (Forall_lookup_1 _ _ _ _ Hf Hv)).
      unfold slice. rewrite drop_app_length' by lia. apply take_ge. lia. }
    pose proof (scroll_spec (ls_width sc) (ls_width sc * (ls_height sc - 1)) (ls_screen sc) rest ltac:(lia) ltac:(nia) Hrest ltac:(nia) Hsl) as E.
    destruct (mem_read (ls_screen sc) _ _) as [d| |]; [|done..]. cbn [mbind outcome_bind] in *. destruct (mem_write _ 0 d) as [s1| |]; [|done..].
    cbn [mbind outcome_bind] in *. rewrite E. cbn [mbind outcome_bind]. eexists. split; [done|]. split; [|done].
    split; cbn [set_cursor set_screen ls_width ls_height ls_cx ls_cy ls_screen]; [done|done|done|done|cbn [length]; lia|].
    rewrite rows_cons by lia. fold rest. replace (ls_height sc - 1 - ls_cy sc) with 0 by lia. rewrite Z.mul_0_r. change (zeros 0) with (@nil Z).
    rewrite app_nil_r. unfold pad. cbn [length app]. by rewrite Z.sub_0_r.
Qed.

Lemma put_shows sc l above c : shows sc l above -> Z.of_nat (length l) < ls_width sc -> 
  exists s, setZ (ls_screen sc) (u32 (ls_cy sc * ls_width sc + ls_cx sc)) c = Done s /\
    shows (set_cursor (set_screen sc s) (u32 (ls_cx sc + 1)) (ls_cy sc)) (l ++ [c]) above.
Proof.
  intros Hs Hl. pose proof (sh_w _ _ _ Hs) as Hw. pose proof (sh_h _ _ _ Hs) as Hh. pose proof (sh_cy _ _ _ Hs) as Hcy.
  pose proof (sh_cx _ _ _ Hs) as Hcx. pose proof (length_screen _ _ _ Hs) as Hlen. pose proof (length_top _ _ _ Hs) as Htop.
  rewrite (u32_small (ls_cy sc * ls_width sc + ls_cx sc)), (u32_small (ls_cx sc + 1)) by nia. rewrite setZ_ok by nia. eexists. split; [done|].
  pose proof (sh_fit _ _ _ Hs) as Hf. apply Forall_cons in Hf as [_ Hf].
  split; cbn [set_cursor set_screen ls_width ls_height ls_cx ls_cy ls_screen]; [done|done| | |done|].
  - constructor; [cbn beta; rewrite length_app; cbn [length]; lia|done].
  - rewrite length_app. cbn [length]. lia.
  - rewrite (screen_top _ _ _ Hs), rows_cons by lia. fold (top sc above). rewrite <- !app_assoc.
    replace (Z.to_nat (ls_cy sc * ls_width sc + ls_cx sc)) with (length (top sc above) + length l)%nat by nia.
    rewrite insert_app_r. f_equal. unfold pad. rewrite <- !app_assoc. replace (length l) with (length l + 0)%nat at 1 by lia. rewrite insert_app_r. f_equal.
    replace (ls_width sc - Z.of_nat (length l)) with (1 + (ls_width sc - Z.of_nat (length (l ++ [c])))) by (rewrite length_app; cbn [length]; lia).
    rewrite Uio.zeros_app by (rewrite ?length_app; cbn [length]; lia). done.
Qed.

Lemma char_shows sc l above ch : shows sc l above -> ch ≠ 10 ->
  exists sc' l' above', lscreen_char sc ch = Done sc' /\ shows sc' l' above' /\ type_char (ls_width sc) (l :: above) ch = l' :: above' /\
    same_size sc sc' /\ ls_regs sc' = ls_regs sc.
Proof.
  intros Hs Hch. unfold lscreen_char, type_char. rewrite (decide_False (P := ch = 10)) by done. pose proof (sh_cx _ _ _ Hs) as Hcx.
  pose proof (sh_fit _ _ _ Hs) as Hf. apply Forall_cons in Hf as [Hl _]. destruct (decide (Z.of_nat (length l) = ls_width sc)) as [He|Hne].
  - rewrite bool_decide_eq_true_2 by lia. destruct (newline_shows _ _ _ Hs) as (sc1 & -> & Hs1 & Hw1 & Hr1). cbn [mbind outcome_bind].
    destruct (put_shows sc1 [] (l :: above) (u8 ch) Hs1) as (s & -> & Hs2); [apply Hs1|]. cbn [mbind outcome_bind]. eexists _, [u8 ch], (l :: above). by split_and!.
  - rewrite bool_decide_eq_false_2 by lia. cbn [mbind outcome_bind]. destruct (put_shows sc l above (u8 ch) Hs) as (s & -> & Hs2); [lia|].
    cbn [mbind outcome_bind]. eexists _, (l ++ [u8 ch]), above. by split_and!.
Qed.

Lemma write_shows sc l above ch : shows sc l above ->
  exists sc' l' above', lscreen_write sc ch = Done sc' /\ shows sc' l' above' /\ type_char (ls_width sc) (l :: above) ch = l' :: above' /\
    same_size sc sc' /\ r_posn (ls_regs sc') = mergexy (Z.min (ls_cx sc') (ls_width sc - 1)) (ls_cy sc').
Proof.
  intros Hs. unfold lscreen_write.
  assert (H : exists sc' l' above', (if bool_decide (ch = 10) then lscreen_newline sc else lscreen_char sc ch) = Done sc' /\
    shows sc' l' above' /\ type_char (ls_width sc) (l :: above) ch = l' :: above' /\ same_size sc sc').
  { case_bool_decide as Hc.
    - destruct (newline_shows _ _ _ Hs) as (sc1 & -> & Hs1 & Hw1 & _). unfold type_char. rewrite decide_True by done. eauto 8.
    - destruct (char_shows _ _ _ ch Hs Hc) as (sc1 & l' & above' & -> & Hs1 & Ht & Hw1 & _). eauto 8. }
  destruct H as (sc1 & l' & above' & -> & Hs1 & Ht & Hw1). destruct (id Hw1) as [Ew _]. cbn [mbind outcome_bind]. eexists _, l', above'. split; [done|].
  split; [destruct Hs1; by split|]. split_and!; [done|done|]. cbn [set_regs ls_regs ls_cx ls_cy r_posn]. f_equal.
  pose proof (sh_cx _ _ _ Hs1). pose proof (sh_fit _ _ _ Hs1) as Hf. apply Forall_cons in Hf as [Hf _]. cbn beta in Hf.
  destruct (decide (ls_cx sc1 = ls_width sc1)); [rewrite bool_decide_eq_true_2 by done|rewrite bool_decide_eq_false_2 by done]; lia.
Qed.

(** A screen that was cleared, with the cursor in its first place. *)
Definition cleared (sc : lscreen_softc) : Prop :=
  0 < ls_width sc < 65536 /\ 0 < ls_height sc < 65536 /\ ls_cx sc = 0 /\ ls_cy sc = 0 /\
  ls_screen sc = zeros (ls_width sc * ls_height sc).

Lemma cleared_shows sc : cleared sc -> shows sc [] [].
Proof.
  intros (Hw & Hh & Hx & Hy & Hsc). split; [done|done|repeat constructor; cbn; lia|done|cbn; lia|].
  rewrite rows_cons by lia. rewrite take_nil. cbn. unfold pad. cbn. rewrite Z.sub_0_r, Hsc, Hy, <- Uio.zeros_app by nia. f_equal. lia.
Qed.

(** The cursor register shows the place of the next character. *)
Definition cursor_shown (sc : lscreen_softc) : Prop :=
  r_posn (ls_regs sc) = mergexy (Z.min (ls_cx sc) (ls_width sc - 1)) (ls_cy sc).

Lemma text_shows t : forall sc l above, shows sc l above ->
  exists sc' l' above', write_text sc t = Done sc' /\ shows sc' l' above' /\ type_text (ls_width sc) t (l :: above) = l' :: above' /\
    same_size sc sc' /\ (t ≠ [] -> cursor_shown sc').
Proof.
  induction t as [|ch t IH]; intros sc l above Hs; cbn [write_text].
  { by exists sc, l, above. }
  destruct (write_shows sc l above ch Hs) as (sc1 & l1 & above1 & -> & Hs1 & Ht1 & [Ew Eh] & Hp). cbn [mbind outcome_bind].
  destruct (IH sc1 l1 above1 Hs1) as (sc2 & l2 & above2 & E2 & Hs2 & Ht2 & [Ew2 Eh2] & Hp2). exists sc2, l2, above2.
  split_and!; [done|done| |split; congruence|]. { unfold type_text in *. cbn [fold_left]. by rewrite Ht1, <- Ew. }
  intros _. destruct t as [|ch' t]; [|by apply Hp2]. cbn in E2. injection E2 as <-. unfold cursor_shown. by rewrite Hp, Ew.
Qed.

(** Writing any text on a cleared screen is defined: no byte outside the screen
    is touched.  The screen then shows the last lines of the text, long lines
    wrapped, each in a row of its own and blank to the right and below, and the
    cursor register has the place of the next character, kept on the screen. *)
Theorem screen_refines sc t : cleared sc -> t ≠ [] ->
  exists sc', write_text sc t = Done sc' /\
    let ls := type_text (ls_width sc) t [[]] in
    let x := Z.of_nat (length (default [] (head ls))) in
    let y := Z.min (Z.of_nat (length ls)) (ls_height sc) - 1 in
    ls_screen sc' = rows (ls_width sc) (ls_height sc) ls ++ zeros (ls_width sc * (ls_height sc - 1 - y)) /\
    r_posn (ls_regs sc') = mergexy (Z.min x (ls_width sc - 1)) y.
Proof.
  intros Hc Ht. destruct (text_shows t sc [] [] (cleared_shows _ Hc)) as (sc' & l & above & E & Hs & Htt & [Ew Eh] & Hp).
  exists sc'. split; [done|]. cbv zeta. rewrite Htt. cbn [head default length]. pose proof (sh_cy _ _ _ Hs) as Hy. rewrite Eh in Hy.
  replace (Z.min (Z.of_nat (S (length above))) (ls_height sc) - 1) with (ls_cy sc') by lia.
  rewrite (sh_screen _ _ _ Hs), Hp by done. rewrite Ew, Eh, (sh_cx _ _ _ Hs). done.
Qed.

(** As the device of the console the driver prints one character for each unit
    of [cs_wsem], which starts at 1; a second one blocks for ever. *)
Theorem screen_console_hangs sc ch ch' : cleared sc ->
  exists sc', putch_intr (sc, 1) ch = Done (sc', 0) /\ putch_intr (sc', 0) ch' = Stuck /\
    exists sc'', putch_polled (sc', 0) ch' = Done (sc'', 0).
Proof.
  intros Hc. destruct (write_shows sc [] [] ch (cleared_shows _ Hc)) as (sc1 & l1 & a1 & E1 & Hs1 & _).
  destruct (write_shows sc1 l1 a1 ch' Hs1) as (sc2 & _ & _ & E2 & _). exists sc1. unfold putch_intr, putch_polled. rewrite E1, E2.
  split_and!; [done|done|by exists sc2].
Qed.

(** The registers carry every place of a screen of less than 65536 rows and
    columns. *)
Lemma splitxy_mergexy x y : 0 <= x < 65536 -> 0 <= y < 65536 -> splitxy (mergexy x y) = (x, y).
Proof.
  intros Hx Hy. unfold splitxy, mergexy. rewrite Z.shiftl_mul_pow2, u32_small by lia. change (2 ^ 16) with 65536.
  assert (Hl : Z.lor (x * 65536) y = x * 65536 + y).
  { rewrite Z.add_nocarry_lxor, Z.lxor_lor; [done| |].
    all: change 65536 with (2 ^ 16); rewrite <- Z.shiftl_mul_pow2 by lia; apply Z.bits_inj'; intros n Hn;
      rewrite Z.land_spec, Z.bits_0; destruct (decide (n < 16)); [by rewrite Z.shiftl_spec_low|].
    all: replace (Z.testbit y n) with false; [apply andb_false_r|]; symmetry; destruct (decide (y = 0)) as [->|]; [apply Z.bits_0|];
      apply Z.bits_above_log2; [lia|]; enough (Z.log2 y < 16) by lia; apply Z.log2_lt_pow2; lia. }
  rewrite Hl. f_equal.
  - rewrite Z.shiftr_div_pow2 by lia. change (2 ^ 16) with 65536. rewrite Z.div_add_l, Z.div_small by lia. lia.
  - change 65535 with (Z.ones 16). rewrite Z.land_ones by lia. change (2 ^ 16) with 65536. rewrite Z.add_comm, Z.mod_add, Z.mod_small by lia. done.
Qed.

(** ** An instance *)

(** Three rows of four columns. *)
Definition ex_screen : lscreen_softc := mkLs 4 3 0 0 (zeros 12) (mkRegs 0 (mergexy 4 3) 0 0).

(** The text of five lines, with [abcdef] wrapped. *)
Definition ex_text : list Z := [120; 10; 97; 98; 99; 100; 101; 102; 10; 121; 122].

Lemma ex_cleared : cleared ex_screen.
Proof. repeat split; reflexivity || lia. Qed.

Lemma screen_refines_witness :
  exists sc', write_text ex_screen ex_text = Done sc' /\
    ls_screen sc' = [97; 98; 99; 100; 101; 102; 0; 0; 121; 122; 0; 0] /\ r_posn (ls_regs sc') = mergexy 2 2.
Proof.
  destruct (screen_refines ex_screen ex_text) as (sc' & H1 & H2 & H3); [exact ex_cleared|discriminate|].
  exists sc'. split; [exact H1|]. split; [exact H2|exact H3].
Defined.

Lemma screen_console_hangs_witness : exists sc', putch_intr (ex_screen, 1) 97 = Done (sc', 0) /\ putch_intr (sc', 0) 98 = Stuck.
Proof. destruct (screen_console_hangs ex_screen 97 98 ex_cleared) as (sc' & H1 & H2 & _). exists sc'. split; [exact H1|exact H2]. Defined.
End Screen.
