(* ===== verification/Menu.v ===== *)
(** * The kernel menu: [main/menu.c], with [strerror] and [kstrdup] of [lib/misc.c]

    A line of commands separated by semicolons, each a name and arguments
    separated by blanks; [strtok_r] cuts both in place, the words inside the
    loop over the commands.  The functions of the command table are an
    interface ([MenuEnv], with its laws): they get the words where they are in
    the line and may destroy them.  [menu_executes] says that a line is carried
    out as its commands read; the commands of [menu.c] itself are in
    [MenuCmds]. *)

From stdpp Require Import strings.
From S2P Require Import Prelude Libc Printf.

Module Menu.
Import Libc Printf.

(** ** [lib/misc.c] and [kern/errmsg.h] *)

Definition sys_errlist : list (list Z) := txt <$>
  ["Operation succeeded"; "Invalid argument"; "Bad memory address"; "String too long"; "Out of memory";
   "Input/output error"; "No such file or directory"; "Not a directory"; "Is a directory"; "File or object exists";
   "Cross-device link"; "Try again later"; "Illegal seek"; "Unimplemented feature"; "Device not available";
   "No such device"; "Device or resource busy"; "Invalid/inappropriate ioctl"; "Directory not empty";
   "Result too large"; "No space left on device"; "Too many open files"; "Too many open files in system";
   "No such system call"; "File is not executable"; "Argument list too long"; "Bad file number"].

Definition strerror (errcode : Z) : outcome (list Z) :=
  if bool_decide (errcode >= 0) && bool_decide (errcode < Z.of_nat (length sys_errlist)) then getZ sys_errlist errcode else Panic.

(** The block [kmalloc] returns is at [z], [None] is NULL. *)
Definition kstrdup (m : list Z) (s : Z) (z : option Z) : outcome (option Z * list Z) :=
  match z with
  | None => Done (None, m)
  | Some z => m ← strcpy m z s; Done (Some z, m)
  end.

(** ** The command table *)

Inductive func :=
  | cmd_mainmenu | cmd_opsmenu | cmd_testmenu | cmd_shell | cmd_prog | cmd_mount | cmd_unmount | cmd_bootfs
  | printfile | cmd_chdir | cmd_pwd | cmd_sync | cmd_panic | cmd_quit | catmouse | createcars | cmd_kheapstats
  | arraytest | bitmaptest | queuetest | malloctest | mallocstress | nettest | threadtest | threadtest2 | threadtest3
  | semtest | locktest | cvtest | fstest | readstress | writestress | writestress2 | createstress.

Definition cmdtable (OPT_SYNCHPROBS OPT_NET : bool) : list (list Z * func) :=
  [(txt "?", cmd_mainmenu); (txt "h", cmd_mainmenu); (txt "help", cmd_mainmenu); (txt "?o", cmd_opsmenu); (txt "?t", cmd_testmenu);
   (txt "s", cmd_shell); (txt "p", cmd_prog); (txt "mount", cmd_mount); (txt "unmount", cmd_unmount); (txt "bootfs", cmd_bootfs);
   (txt "pf", printfile); (txt "cd", cmd_chdir); (txt "pwd", cmd_pwd); (txt "sync", cmd_sync); (txt "panic", cmd_panic);
   (txt "q", cmd_quit); (txt "exit", cmd_quit); (txt "halt", cmd_quit)] ++
  (if OPT_SYNCHPROBS then [(txt "1a", catmouse); (txt "1b", createcars)] else []) ++
  [(txt "kh", cmd_kheapstats); (txt "at", arraytest); (txt "bt", bitmaptest); (txt "qt", queuetest); (txt "km1", malloctest);
   (txt "km2", mallocstress)] ++
  (if OPT_NET then [(txt "net", nettest)] else []) ++
  [(txt "tt1", threadtest); (txt "tt2", threadtest2); (txt "tt3", threadtest3); (txt "sy1", semtest); (txt "sy2", locktest);
   (txt "sy3", cvtest); (txt "fs1", fstest); (txt "fs2", readstress); (txt "fs3", writestress); (txt "fs4", writestress2);
   (txt "fs5", createstress)].

(** A command returns a code, or control does not come back to the menu. *)
Inductive ret := Code (result : Z) | Gone.

(** ** What the menu calls *)

(** A function of the table gets the memory with the words at the addresses it
    is given; [func_does] is what it does with the words. *)
Class MenuEnv (S : Type) := {
  e_kprintf : list Z -> list arg -> S -> outcome S;
  e_gettime : S -> outcome (Z * Z * S);
  e_func : func -> list Z -> list Z -> S -> outcome (ret * list Z * S);
  func_does : func -> list (list Z) -> S -> outcome (ret * S)
}.

(** The words [ws] are at the addresses [ps], one after the other between [lo]
    and [hi]. *)
Fixpoint words_at (m : list Z) (lo hi : Z) (ps : list Z) (ws : list (list Z)) : Prop :=
  match ps, ws with
  | [], [] => True
  | p :: ps, w :: ws =>
      str_at m p w /\ w ≠ [] /\ lo <= p /\ p + Z.of_nat (length w) <= hi /\ words_at m (p + Z.of_nat (length w) + 1) hi ps ws
  | _, _ => False
  end.

(** Memory outside of [lo], ..., [hi - 1] is the same. *)
Definition same_outside (m m' : list Z) (lo hi : Z) : Prop := forall i, i < lo \/ hi <= i -> getZ m' i = getZ m i.

Class MenuLaws (S : Type) `{MenuEnv S} : Prop := {
  law_gettime s secs nsecs s' : e_gettime s = Done (secs, nsecs, s') -> 0 <= secs <= INT_MAX /\ 0 <= nsecs < 1000000000;
  law_func f m lo hi ps ws s : words_at m lo hi ps ws ->
    match func_does f ws s with
    | Done (r, s') => exists m', e_func f m ps s = Done (r, m', s') /\ same_outside m m' lo hi
    | Panic => e_func f m ps s = Panic
    | Stuck => e_func f m ps s = Stuck
    end
}.

Definition MAXMENUARGS : Z := 16.

(** Times are in seconds and nanoseconds; [time_t] is signed. *)
Definition getinterval (s1 ns1 s2 ns2 : Z) : Z * Z :=
  let '(s2, ns2) := if bool_decide (ns2 < ns1) then (s32 (s2 - 1), u32 (ns2 + 1000000000)) else (s2, ns2) in
  (s32 (s2 - s1), u32 (ns2 - ns1)).

Lemma words_at_length m lo hi ps ws : words_at m lo hi ps ws -> length ps = length ws.
Proof. revert lo ws. induction ps as [|p ps IH]; intros lo [|w ws]; cbn [words_at length]; [done..|]. intros (_ & _ & _ & _ & Hps). f_equal. by eapply IH. Qed.

Section menu.
Context {W : Type} `{MenuEnv W} (table : list (list Z * func)) (BLANKS SEMI : Z).
Implicit Types (s : W) (m : list Z).

(** ** [cmd_dispatch] *)

(** The loop over the words, whose separators are at [BLANKS]; [None] when
    there are too many. *)
Fixpoint collect (fuel : nat) m (string context : option Z) (args : list Z) : outcome (option (list Z) * list Z) :=
  match fuel with
  | O => Stuck
  | S fuel =>
      '(word, context, m) ← strtok_r m string BLANKS context;
      match word with
      | None => Done (Some args, m)
      | Some p =>
          if bool_decide (Z.of_nat (length args) >= MAXMENUARGS) then Done (None, m)
          else collect fuel m None context (args ++ [p])
      end
  end.

(** [*cmdtable[i].name && !strcmp(args[0], cmdtable[i].name)] *)
Fixpoint find_cmd (t : list (list Z * func)) (name : list Z) : option func :=
  match t with
  | [] => None
  | (n, f) :: t => if bool_decide (n ≠ []) && bool_decide (name = n) then Some f else find_cmd t name
  end.

(** After the function has returned. *)
Definition operation_took (beforesecs beforensecs : Z) s : outcome W :=
  '(aftersecs, afternsecs, s) ← e_gettime s;
  let '(secs, nsecs) := getinterval beforesecs beforensecs aftersecs afternsecs in
  e_kprintf (line "Operation took %lu.%09lu seconds") [ANum secs; ANum nsecs] s.

Definition cmd_dispatch m (cmd : Z) s : outcome (ret * list Z * W) :=
  '(args, m) ← collect (S (length m)) m (Some cmd) None [];
  match args with
  | None =>
      s ← e_kprintf (line "Command line has too many words") [] s;
      Done (Code E2BIG, m, s)
  | Some [] => Done (Code 0, m, s)
  | Some ((arg0 :: _) as args) =>
      name ← c_str m arg0;
      match find_cmd table name with
      | Some f =>
          '(beforesecs, beforensecs, s) ← e_gettime s;
          '(r, m, s) ← e_func f m args s;
          match r with
          | Gone => Done (Gone, m, s)
          | Code result => s ← operation_took beforesecs beforensecs s; Done (Code result, m, s)
          end
      | None =>
          s ← e_kprintf (line "%s: Command not found") [AStr (Some name)] s;
          Done (Code EINVAL, m, s)
      end
  end.

(** ** [menu_execute] *)

(** After a command: [true] goes on with the next. *)
Definition after_command (isargs : bool) (r : ret) s : outcome (bool * W) :=
  match r with
  | Gone => Done (false, s)
  | Code result =>
      if bool_decide (result ≠ 0) then
        msg ← strerror result;
        s ← e_kprintf (line "Menu command failed: %s") [AStr (Some msg)] s;
        if isargs then Panic else Done (true, s)
      else Done (true, s)
  end.

(** The separator of commands is at [SEMI].  The result tells whether the menu
    goes on. *)
Fixpoint execute_loop (fuel : nat) m (string context : option Z) (isargs : bool) s : outcome (bool * list Z * W) :=
  match fuel with
  | O => Stuck
  | S fuel =>
      '(word, context, m) ← strtok_r m string SEMI context;
      match word with
      | None => Done (true, m, s)
      | Some command =>
          s ← (if isargs then
                 text ← c_str m command;
                 e_kprintf (line "OS/161 kernel: %s") [AStr (Some text)] s
               else Done s);
          '(r, m, s) ← cmd_dispatch m command s;
          '(go, s) ← after_command isargs r s;
          if (go : bool) then execute_loop fuel m None context isargs s else Done (false, m, s)
      end
  end.

Definition menu_execute m (ln : Z) (isargs : bool) s : outcome (bool * list Z * W) :=
  execute_loop (S (length m)) m (Some ln) None isargs s.

(** ** What a line means

    Written without the functions of the code: times are numbers of
    nanoseconds, a command is the first of its name in the table, and the error
    messages are looked up by number. *)

Definition NSEC : Z := 1000000000.

Definition command_named (name : list Z) : option func := snd <$> head (filter (fun e => e.1 = name) table).

Definition message (e : Z) : option (list Z) := if decide (0 <= e) then sys_errlist !! Z.to_nat e else None.

(** The time since [before], a number of nanoseconds. *)
Definition report_time (before : Z) s : outcome W :=
  '(secs, nsecs, s) ← e_gettime s;
  let elapsed := secs * NSEC + nsecs - before in
  e_kprintf (line "Operation took %lu.%09lu seconds") [ANum (elapsed / NSEC); ANum (elapsed mod NSEC)] s.

Definition dispatch_words (ws : list (list Z)) s : outcome (ret * W) :=
  match ws with
  | [] => Done (Code 0, s)
  | name :: args =>
      if decide (16 <= length args)%nat then
        s ← e_kprintf (line "Command line has too many words") [] s; Done (Code E2BIG, s)
      else
        match command_named name with
        | None => s ← e_kprintf (line "%s: Command not found") [AStr (Some name)] s; Done (Code EINVAL, s)
        | Some f =>
            '(secs, nsecs, s) ← e_gettime s;
            '(r, s) ← func_does f ws s;
            match r with
            | Gone => Done (Gone, s)
            | Code result => s ← report_time (secs * NSEC + nsecs) s; Done (Code result, s)
            end
        end
  end.

(** What is done when a command has ended, [next] being the rest of the line. *)
Definition ended (isargs : bool) (r : ret) (next : W -> outcome (bool * W)) s : outcome (bool * W) :=
  match r with
  | Gone => Done (false, s)
  | Code e =>
      if decide (e = 0) then next s
      else
        match message e with
        | None => Panic
        | Some msg =>
            s ← e_kprintf (line "Menu command failed: %s") [AStr (Some msg)] s;
            match isargs with true => Panic | false => next s end
        end
  end.

Fixpoint execute_commands (isargs : bool) (cmds : list (list Z)) s : outcome (bool * W) :=
  match cmds with
  | [] => Done (true, s)
  | c :: cmds =>
      s ← (if isargs then e_kprintf (line "OS/161 kernel: %s") [AStr (Some c)] s else Done s);
      '(r, s) ← dispatch_words (words [32; 9] c) s;
      ended isargs r (execute_commands isargs cmds) s
  end.

(** ** Refinement *)

Context `{!MenuLaws W}.

Lemma same_outside_agree m m' lo hi a b : same_outside m m' lo hi -> b < lo \/ hi <= a -> agree m m' a b.
Proof. intros Hs Hab i Hi. apply Hs. lia. Qed.

Lemma same_outside_refl m lo hi : same_outside m m lo hi.
Proof. done. Qed.

Lemma same_outside_trans m1 m2 m3 lo hi lo' hi' :
  same_outside m1 m2 lo hi -> same_outside m2 m3 lo' hi' -> lo <= lo' -> hi' <= hi -> same_outside m1 m3 lo hi.
Proof. intros H1 H2 Hl Hh i Hi. rewrite H2 by lia. apply H1. lia. Qed.

Lemma words_at_mono m lo lo' hi ps ws : words_at m lo hi ps ws -> lo' <= lo -> words_at m lo' hi ps ws.
Proof. destruct ps, ws; cbn; [done..|]. intros (? & ? & ? & ? & ?) Hl. split_and!; [done|done|lia|done|done]. Qed.

Lemma words_nonempty seps l w0 : Forall (fun w => w ≠ []) (words_from seps w0 l).
Proof.
  revert w0. induction l as [|c l IH]; intros w; cbn [words_from].
  - unfold flush. case_bool_decide; by repeat constructor.
  - case_bool_decide; [|apply IH]. apply Forall_app. split; [unfold flush; case_bool_decide; by repeat constructor|apply IH].
Qed.

Lemma word_nonempty l w ws : words [32; 9] l = w :: ws -> w ≠ [].
Proof. intros Hw. pose proof (words_nonempty [32; 9] l []) as Hn. unfold words in Hw. rewrite Hw in Hn. by apply Forall_cons in Hn as [? _]. Qed.

Lemma collect_spec n : forall fuel m string context a l args,
  from_option Some context string = Some a -> str_at m a l -> str_at m BLANKS [32; 9] ->
  BLANKS + 2 < a \/ a + Z.of_nat (length l) <= BLANKS -> (length l <= n)%nat -> (n < fuel)%nat ->
  Z.of_nat (length args) <= MAXMENUARGS ->
  exists m', same_outside m m' a (a + Z.of_nat (length l)) /\
    if decide (MAXMENUARGS < Z.of_nat (length args + length (words [32; 9] l)))
    then collect fuel m string context args = Done (None, m')
    else exists ps, collect fuel m string context args = Done (Some (args ++ ps), m') /\
           words_at m' a (a + Z.of_nat (length l)) ps (words [32; 9] l).
Proof.
  induction n as [n IH] using lt_wf_ind; intros [|fuel] m string context a l args Hctx Hl Hb Hdis Hn Hf Hargs; [lia|].
  destruct (strtok_r_spec m string BLANKS context a [32; 9] l Hctx Hl Hb) as (r & Hr & Hres).
  cbn [collect]. rewrite Hr. destruct Hres as [Hw|p w Hw Hp1 Hp2 Hp|p w q rest m1 Hw Hap Hpq Hq Hp Hrest Hag]; cbn [mbind outcome_bind]; rewrite Hw.
  - exists m. split; [done|]. rewrite decide_False by (cbn [length]; lia). exists []. rewrite app_nil_r. split; [done|constructor].
  - exists m. split; [done|]. cbn [length]. destruct (decide (Z.of_nat (length args) >= MAXMENUARGS)) as [Hge|Hlt].
    + rewrite decide_True by lia. by rewrite bool_decide_eq_true_2.
    + rewrite decide_False by lia. rewrite bool_decide_eq_false_2 by done. pose proof (word_nonempty _ _ _ Hw). exists [p]. split; [|by cbn].
      destruct fuel as [|fuel]; [destruct l; [done|cbn in Hn; lia]|]. done.
  - assert (Hm1 : same_outside m m1 a (a + Z.of_nat (length l))) by (intros i Hi; apply Hag; lia). cbn [length].
    destruct (decide (Z.of_nat (length args) >= MAXMENUARGS)) as [Hge|Hlt].
    { exists m1. split; [done|]. rewrite decide_True by lia. by rewrite bool_decide_eq_true_2. }
    rewrite bool_decide_eq_false_2 by done.
    destruct (IH (length rest) ltac:(lia) fuel m1 None (Some q) q rest (args ++ [p])) as (m' & Hm' & Hrec);
      [done|done| |lia|lia|lia|rewrite length_app; cbn [length]; lia|].
    { eapply str_at_agree; [|exact Hb]. intros i ?. cbn in *. apply Hag. lia. }
    exists m'. split; [eapply same_outside_trans; [exact Hm1|exact Hm'|lia|lia]|]. rewrite length_app in Hrec. cbn [length] in Hrec.
    set (k := length (words [32; 9] rest)) in *. replace (length args + S k)%nat with (length args + 1 + k)%nat by lia.
    case_decide; [done|]. destruct Hrec as (ps & -> & Hps). exists (p :: ps). rewrite <- app_assoc. split; [done|].
    cbn [words_at]. split_and!; [|by apply (word_nonempty _ _ _ Hw)|lia|lia|].
    + eapply str_at_agree; [|exact Hp]. eapply same_outside_agree; [exact Hm'|lia].
    + rewrite <- Hq. eapply words_at_mono; [exact Hps|lia].
Qed.

Lemma find_cmd_named name : name ≠ [] -> find_cmd table name = command_named name.
Proof.
  intros Hn. unfold command_named. induction table as [|[n f] t IH]; cbn [find_cmd]; [done|]. rewrite filter_cons. cbn [fst].
  destruct (decide (n = name)) as [->|Hne].
  - rewrite !bool_decide_eq_true_2 by done. done.
  - rewrite (bool_decide_eq_false_2 (name = n)), andb_false_r by congruence. exact IH.
Qed.

Lemma strerror_message e : strerror e = match message e with Some t => Done t | None => Panic end.
Proof.
  unfold strerror, message. case_decide as He.
  2: { by rewrite bool_decide_eq_false_2 by lia. }
  rewrite (bool_decide_eq_true_2 (e >= 0)) by lia. cbn [andb].
  destruct (sys_errlist !! Z.to_nat e) as [t|] eqn:Et.
  - pose proof (lookup_lt_Some _ _ _ Et). rewrite bool_decide_eq_true_2 by lia. by apply getZ_ok.
  - apply lookup_ge_None in Et. by rewrite bool_decide_eq_false_2 by lia.
Qed.

(** The borrow of [getinterval] is the one of division. *)
Lemma getinterval_div (s1 ns1 s2 ns2 : Z) :
  0 <= s1 <= INT_MAX -> 0 <= s2 <= INT_MAX -> 0 <= ns1 < NSEC -> 0 <= ns2 < NSEC ->
  getinterval s1 ns1 s2 ns2 =
    ((s2 * NSEC + ns2 - (s1 * NSEC + ns1)) / NSEC, (s2 * NSEC + ns2 - (s1 * NSEC + ns1)) mod NSEC).
Proof.
  unfold INT_MAX, NSEC. intros H1 H2 H3 H4. unfold getinterval. case_bool_decide.
  - rewrite (u32_small (ns2 + _)), u32_small by lia. rewrite (s32_small (s2 - 1)), s32_small by (unfold INT_MIN, INT_MAX; lia).
    f_equal; [apply Z.div_unique with (ns2 + 1000000000 - ns1); lia|apply Z.mod_unique with (s2 - 1 - s1); lia].
  - rewrite u32_small by lia. rewrite s32_small by (unfold INT_MIN, INT_MAX; lia).
    f_equal; [apply Z.div_unique with (ns2 - ns1); lia|apply Z.mod_unique with (s2 - s1); lia].
Qed.

Lemma operation_took_spec secs nsecs s :
  0 <= secs <= INT_MAX -> 0 <= nsecs < NSEC -> operation_took secs nsecs s = report_time (secs * NSEC + nsecs) s.
Proof.
  intros Hs Hn. unfold operation_took, report_time. destruct (e_gettime s) as [[[s2 ns2] s']| |] eqn:Et; cbn [mbind outcome_bind]; [|done..].
  destruct (law_gettime _ _ _ _ Et) as [H1 H2]. by rewrite getinterval_div.
Qed.

Lemma after_command_spec isargs r s (K : W -> outcome (bool * W)) :
  ('(go, s) ← after_command isargs r s; if (go : bool) then K s else Done (false, s)) = ended isargs r K s.
Proof.
  unfold after_command, ended. destruct r as [e|]; [|done]. destruct (decide (e = 0)) as [->|He]; [done|].
  rewrite bool_decide_eq_true_2 by done. rewrite strerror_message. destruct (message e) as [t|]; cbn [mbind outcome_bind]; [|done].
  destruct (e_kprintf _ _ s); cbn [mbind outcome_bind]; [|done..]. by destruct isargs.
Qed.

(** One command, in place. *)
Lemma dispatch_spec m a l s :
  str_at m a l -> str_at m BLANKS [32; 9] -> BLANKS + 2 < a \/ a + Z.of_nat (length l) <= BLANKS ->
  match dispatch_words (words [32; 9] l) s with
  | Done (r, s') => exists m', cmd_dispatch m a s = Done (r, m', s') /\ same_outside m m' a (a + Z.of_nat (length l))
  | Panic => cmd_dispatch m a s = Panic
  | Stuck => cmd_dispatch m a s = Stuck
  end.
Proof.
  intros Hl Hb Hdis. unfold cmd_dispatch, dispatch_words. pose proof (str_at_fuel _ _ _ Hl).
  destruct (collect_spec (length l) (S (length m)) m (Some a) None a l []) as (m' & Hm' & Hc); [done..|lia|cbn; unfold MAXMENUARGS; lia|].
  cbn [length] in Hc. rewrite Nat.add_0_l in Hc. unfold MAXMENUARGS in Hc.
  destruct (words [32; 9] l) as [|w ws] eqn:Ew; cbn [length] in Hc.
  { rewrite decide_False in Hc by lia. destruct Hc as ([|] & -> & Hps); [|done]. cbn [mbind outcome_bind app]. eauto. }
  destruct (decide (16 <= length ws)%nat) as [Hmany|Hfew].
  { rewrite decide_True in Hc by lia. rewrite Hc. cbn [mbind outcome_bind]. destruct (e_kprintf _ _ s); cbn [mbind outcome_bind]; eauto. }
  rewrite decide_False in Hc by lia. destruct Hc as ([|p ps] & -> & Hps); [done|]. cbn [mbind outcome_bind app].
  rewrite (c_str_spec m' p w) by apply Hps. cbn [mbind outcome_bind]. rewrite (find_cmd_named w) by apply Hps.
  destruct (command_named w) as [f|].
  2: { destruct (e_kprintf _ _ s); cbn [mbind outcome_bind]; eauto. }
  destruct (e_gettime s) as [[[bs bn] s1]| |] eqn:Et; cbn [mbind outcome_bind]; [|done..]. destruct (law_gettime _ _ _ _ Et) as [Hbs Hbn].
  pose proof (law_func f m' a (a + Z.of_nat (length l)) (p :: ps) (w :: ws) s1 Hps) as Hlaw.
  destruct (func_does f (w :: ws) s1) as [[r s2]| |]; cbn [mbind outcome_bind]; [|by rewrite Hlaw..].
  destruct Hlaw as (m2 & -> & Hm2). cbn [mbind outcome_bind].
  assert (Hm : same_outside m m2 a (a + Z.of_nat (length l))) by (by eapply same_outside_trans).
  destruct r as [result|]; [|eauto]. rewrite operation_took_spec by done. destruct (report_time _ s2); cbn [mbind outcome_bind]; eauto.
Qed.

(** A string of constants is apart from the line. *)
Definition apart (b n a k : Z) : Prop := b + n < a \/ a + k <= b.

(** Code that works in the line does what [x] says. *)
Definition does {A} (x : outcome (A * W)) (y : outcome (A * list Z * W)) : Prop :=
  match x with
  | Done (r, s) => exists m, y = Done (r, m, s)
  | Panic => y = Panic
  | Stuck => y = Stuck
  end.

(** What follows the cutting of a command is the same in both. *)
Lemma command_spec isargs m a l s (K : list Z -> W -> outcome (bool * list Z * W)) (K' : W -> outcome (bool * W)) :
  str_at m a l -> str_at m BLANKS [32; 9] -> apart BLANKS 2 a (Z.of_nat (length l)) ->
  (forall m' s, same_outside m m' a (a + Z.of_nat (length l)) -> does (K' s) (K m' s)) ->
  does (s ← (if isargs then e_kprintf (line "OS/161 kernel: %s") [AStr (Some l)] s else Done s);
        '(r, s) ← dispatch_words (words [32; 9] l) s;
        ended isargs r K' s)
       (s ← (if isargs then text ← c_str m a; e_kprintf (line "OS/161 kernel: %s") [AStr (Some text)] s else Done s);
        '(r, m, s) ← cmd_dispatch m a s;
        '(go, s) ← after_command isargs r s;
        if (go : bool) then K m s else Done (false, m, s)).
Proof.
  intros Hl Hb Hap HK. rewrite (c_str_spec m a l Hl). cbn [mbind outcome_bind].
  destruct (if isargs then e_kprintf _ _ s else Done s) as [s1| |]; cbn [mbind outcome_bind]; [|done..].
  pose proof (dispatch_spec m a l s1 Hl Hb Hap) as Hd. destruct (dispatch_words (words [32; 9] l) s1) as [[r s2]| |]; cbn [mbind outcome_bind]; [|by rewrite Hd..].
  destruct Hd as (m1 & -> & Hm1). cbn [mbind outcome_bind]. rewrite <- after_command_spec.
  destruct (after_command isargs r s2) as [[go s3]| |]; cbn [mbind outcome_bind]; [|done..]. destruct go; [by apply HK|by exists m1].
Qed.

Lemma execute_spec isargs n : forall fuel m string context a l s,
  from_option Some context string = Some a -> str_at m a l -> str_at m BLANKS [32; 9] -> str_at m SEMI [59] ->
  apart BLANKS 2 a (Z.of_nat (length l)) -> apart SEMI 1 a (Z.of_nat (length l)) -> (length l <= n)%nat -> (n < fuel)%nat ->
  does (execute_commands isargs (words [59] l) s) (execute_loop fuel m string context isargs s).
Proof.
  induction n as [n IH] using lt_wf_ind; intros [|fuel] m string context a l s Hctx Hl Hb Hse Hd1 Hd2 Hn Hf; [lia|].
  destruct (strtok_r_spec m string SEMI context a [59] l Hctx Hl Hse) as (r & Hr & Hres). cbn [execute_loop]. rewrite Hr. unfold apart in *.
  destruct Hres as [Hw|p w Hw Hp1 Hp2 Hp|p w q rest m1 Hw Hap Hpq Hq Hp Hrest Hag]; cbn [mbind outcome_bind]; rewrite Hw; cbn [execute_commands].
  - by exists m.
  - apply (command_spec isargs m p w s (fun m s => execute_loop fuel m None None isargs s) (fun s => Done (true, s))); [done|done|unfold apart; lia|].
    intros m' s' _. destruct fuel as [|fuel]; [destruct l; [done|cbn in Hn; lia]|]. by exists m'.
  - assert (Hb1 : str_at m1 BLANKS [32; 9]) by (eapply str_at_agree; [|exact Hb]; intros i ?; cbn in *; apply Hag; lia).
    assert (Hse1 : str_at m1 SEMI [59]) by (eapply str_at_agree; [|exact Hse]; intros i ?; cbn in *; apply Hag; lia).
    apply (command_spec isargs m1 p w s (fun m s => execute_loop fuel m None (Some q) isargs s) (fun s => execute_commands isargs (words [59] rest) s));
      [done|done|unfold apart; lia|].
    intros m' s' Hm'. apply (IH (length rest) ltac:(lia) fuel m' None (Some q) q rest s'); [done|..|unfold apart; lia|unfold apart; lia|lia|lia].
    + eapply str_at_agree; [|exact Hrest]. eapply same_outside_agree; [exact Hm'|lia].
    + eapply str_at_agree; [|exact Hb1]. eapply same_outside_agree; [exact Hm'|cbn; lia].
    + eapply str_at_agree; [|exact Hse1]. eapply same_outside_agree; [exact Hm'|cbn; lia].
Qed.

(** C35. A line is carried out as it reads: the commands between the semicolons in
    order, each with the words between its blanks; although the words are cut
    out of the line in place and commands may destroy them, no command sees
    anything of another.  The command is the first of its name in the table; an
    unknown name and more than sixteen words are errors; after a command the
    time it took is printed, exact to the nanosecond.  An error is reported with
    its message; in a line from the boot loader it then panics, in a line that
    was typed the next command follows. *)
Theorem menu_executes m a l isargs s :
  str_at m a l -> str_at m BLANKS [32; 9] -> str_at m SEMI [59] ->
  apart BLANKS 2 a (Z.of_nat (length l)) -> apart SEMI 1 a (Z.of_nat (length l)) ->
  does (execute_commands isargs (words [59] l) s) (menu_execute m a isargs s).
Proof.
  intros Hl Hb Hse Hd1 Hd2. unfold menu_execute. pose proof (str_at_fuel _ _ _ Hl). eapply (execute_spec isargs (length l)); try done.
Qed.
End menu.

(** ** Times and messages *)

(** The interval between two times, the second not before the first, is exact
    and has less than a second of nanoseconds. *)
Theorem getinterval_exact s1 ns1 s2 ns2 :
  0 <= s1 <= INT_MAX -> 0 <= s2 <= INT_MAX -> 0 <= ns1 < 1000000000 -> 0 <= ns2 < 1000000000 ->
  s1 * 1000000000 + ns1 <= s2 * 1000000000 + ns2 ->
  let '(rs, rns) := getinterval s1 ns1 s2 ns2 in
  rs * 1000000000 + rns = (s2 * 1000000000 + ns2) - (s1 * 1000000000 + ns1) /\ 0 <= rns < 1000000000 /\ 0 <= rs.
Proof.
  unfold INT_MAX. intros H1 H2 H3 H4 H5. unfold getinterval. case_bool_decide.
  - rewrite (u32_small (ns2 + _)), u32_small by lia. rewrite (s32_small (s2 - 1)), s32_small by (unfold INT_MIN, INT_MAX; lia). lia.
  - rewrite u32_small by lia. rewrite s32_small by (unfold INT_MIN, INT_MAX; lia). lia.
Qed.

(** Every error number of [kern/errno.h] has a message. *)
Lemma strerror_defined e : 0 <= e <= EBADF -> exists t, strerror e = Done t.
Proof.
  unfold EBADF. intros He. unfold strerror. change (Z.of_nat (length sys_errlist)) with 27.
  rewrite (bool_decide_eq_true_2 (e >= 0)), (bool_decide_eq_true_2 (e < 27)) by lia. cbn [andb].
  destruct (lookup_lt_is_Some_2 sys_errlist (Z.to_nat e)) as [t Ht]; [change (length sys_errlist) with 27%nat; lia|].
  exists t. unfold getZ. change (Z.of_nat (length sys_errlist)) with 27. rewrite bool_decide_eq_true_2 by lia. by rewrite Ht.
Qed.

(** ** An instance *)

(** An environment that records the functions called and with how many words. *)
#[local] Instance log_env : MenuEnv (list (func * nat)) := {|
  e_kprintf _ _ s := Done s;
  e_gettime s := Done (0, 0, s);
  e_func f m ps s := Done (Code 0, m, s ++ [(f, length ps)]);
  func_does f ws s := Done (Code 0, s ++ [(f, length ws)])
|}.

#[local] Instance log_laws : MenuLaws (list (func * nat)).
Proof.
  split.
  - intros s secs nsecs s' [= <- <- <-]. unfold INT_MAX. lia.
  - intros f m lo hi ps ws s Hw. cbn. exists m. by rewrite (words_at_length _ _ _ _ _ Hw).
Qed.

(** [p  prog x;cd y ; ;q] and the two strings of separators. *)
Definition ex_line : list Z := txt "p  prog x;cd y ; ;q".
Definition ex_mem : list Z := [32; 9; 0; 59; 0] ++ ex_line ++ [0].

Lemma menu_executes_witness :
  exists m', menu_execute (cmdtable false false) 0 3 ex_mem 5 true [] = Done (true, m', [(cmd_prog, 3%nat); (cmd_chdir, 2%nat); (cmd_quit, 1%nat)]).
Proof.
  assert (Hx : execute_commands (cmdtable false false) true (words [59] ex_line) [] =
    Done (true, [(cmd_prog, 3%nat); (cmd_chdir, 2%nat); (cmd_quit, 1%nat)])) by (vm_compute; reflexivity).
  assert (Hd : does (execute_commands (cmdtable false false) true (words [59] ex_line) []) (menu_execute (cmdtable false false) 0 3 ex_mem 5 true [])).
  { apply menu_executes; [exact log_laws|repeat split; done|repeat split; done|repeat split; done|left; cbn; lia|left; cbn; lia]. }
  rewrite Hx in Hd. exact Hd.
Defined.
End Menu.
