(* ===== verification/MenuCmds.v ===== *)
(** * The commands of [main/menu.c]

    The functions of the command table that [menu.c] defines itself, on the
    words where they stand in the line, over the kernel of [Syscall]; the other
    functions of the table, the clock and the running of programs are
    arguments.  [menu_laws] shows that the functions do what [cmd_does] says of
    the words, so that [Menu] applies to them. *)

From stdpp Require Import strings.
From S2P Require Import Prelude Libc Printf Console Vfs Syscall Menu.

Module MenuCmds.
Import Libc Printf Console Syscall Menu.

(** ** The menus *)

Definition opsmenu : list (list Z) :=
  [txt "[s]       Shell                     "; txt "[p]       Other program             ";
   txt "[mount]   Mount a filesystem        "; txt "[unmount] Unmount a filesystem      ";
   txt "[bootfs]  Set " ++ [34] ++ txt "boot" ++ [34] ++ txt " filesystem     ";
   txt "[pf]      Print a file              "; txt "[cd]      Change directory          ";
   txt "[pwd]     Print current directory   "; txt "[sync]    Sync filesystems          ";
   txt "[panic]   Intentional panic         "; txt "[q]       Quit and shut down        "].

Definition testmenu (OPT_NET : bool) : list (list Z) :=
  [txt "[at]  Array test                    "; txt "[bt]  Bitmap test                   ";
   txt "[qt]  Queue test                    "; txt "[km1] Kernel malloc test            ";
   txt "[km2] kmalloc stress test           "; txt "[tt1] Thread test 1                 ";
   txt "[tt2] Thread test 2                 "; txt "[tt3] Thread test 3                 "] ++
  (if OPT_NET then [txt "[net] Network test                  "] else []) ++
  [txt "[sy1] Semaphore test                "; txt "[sy2] Lock test             (1)     ";
   txt "[sy3] CV test               (1)     "; txt "[fs1] Filesystem test               ";
   txt "[fs2] FS read stress        (4)     "; txt "[fs3] FS write stress       (4)     ";
   txt "[fs4] FS write stress 2     (4)     "; txt "[fs5] FS create stress      (4)     "].

Definition mainmenu (OPT_SYNCHPROBS : bool) : list (list Z) :=
  [txt "[?o] Operations menu                "; txt "[?t] Tests menu                     "] ++
  (if OPT_SYNCHPROBS then [txt "[1a] Cat/mouse                      "; txt "[1b] Stoplight                      "] else []) ++
  [txt "[kh] Kernel heap stats              "; txt "[q] Quit and shut down              "].

(** [if (device[strlen(device)-1]==':') device[strlen(device)-1] = 0;] *)
Definition strip_colon (m : list Z) (device : Z) : outcome (list Z) :=
  n ← strlen m device;
  c ← getZ m (device + n - 1);
  if bool_decide (c = 58) then setZ m (device + n - 1) 0 else Done m.

(** The same on the word. *)
Definition no_colon (w : list Z) : list Z := if bool_decide (last w = Some 58) then take (length w - 1) w else w.

Section commands.
Context {C : Type} `{ConDev C} {T : Type} `{Vfs.vnode_layer T}.
Context (OPT_SYNCHPROBS OPT_NET OPT_SFS : bool).
Abbreviation world := (@kern C T).

(** [gettime] of the clock, [common_prog] (the fork of the program's thread
    and the wait for its end), [sfs_mount]'s function for [vfs_mount], and the
    functions of the table that other files define, with [cmd_pwd] and
    [cmd_kheapstats]. *)
Context (gettime : world -> outcome (Z * Z * world)) (common_prog : list (list Z) -> world -> outcome (Z * world)).
Context (sfs_domount_on : ptr -> M T ptr) (other : func -> list (list Z) -> world -> outcome (Z * world)).
Implicit Types (s : world) (m args : list Z) (ws : list (list Z)).

Definition print (fmt : list Z) (a : list arg) s : outcome world :=
  match Syscall.kprintf fmt a s with Done (_, s) => Done s | Panic => Panic | Stuck => Stuck end.

(** The result code of a call. *)
Definition code_of (k : M world unit) s : outcome (Z * world) :=
  match k s with
  | Done (inl e, s) => Done (e, s)
  | Done (inr _, s) => Done (0, s)
  | Panic => Panic
  | Stuck => Stuck
  end.

Fixpoint showmenu_loop (n : nat) (i half : Z) (x : list (list Z)) s : outcome world :=
  match n with
  | O => Done s
  | S n =>
      a ← getZ x i;
      s ← print (txt "    %-36s") [AStr (Some a)] s;
      s ← (if bool_decide (i + half < Z.of_nat (length x)) then b ← getZ x (i + half); print (txt "%s") [AStr (Some b)] s else Done s);
      s ← print (line "") [] s;
      showmenu_loop n (i + 1) half x s
  end.

Definition showmenu (name : list Z) (x : list (list Z)) s : outcome world :=
  s ← print (line "") [] s;
  s ← print (line "%s") [AStr (Some name)] s;
  let half := Z.quot (Z.of_nat (length x) + 1) 2 in
  s ← showmenu_loop (Z.to_nat half) 0 half x s;
  print (line "") [] s.

(** ** Commands that do not look at the words *)

Definition do_mainmenu s : outcome (ret * world) :=
  s ← showmenu (txt "OS/161 kernel menu") (mainmenu OPT_SYNCHPROBS) s; Done (Code 0, s).
Definition do_opsmenu s : outcome (ret * world) := s ← showmenu (txt "OS/161 operations menu") opsmenu s; Done (Code 0, s).
Definition do_testmenu s : outcome (ret * world) :=
  s ← showmenu (txt "OS/161 tests menu") (testmenu OPT_NET) s;
  s ← print (line "    (1) These tests will fail until you finish the synch assignment.") [] s;
  s ← print (line "    (4) These tests will fail until you finish the file system assignment.") [] s;
  s ← print (line "") [] s;
  Done (Code 0, s).
Definition do_sync s : outcome (ret * world) := '(_, s) ← code_of (on_vfs Vfs.vfs_sync) s; Done (Code 0, s).
Definition do_panic s : outcome (ret * world) := Panic.

(** [sys_reboot] does not come back; if it did, [thread_exit] would not. *)
Definition do_quit s : outcome (ret * world) :=
  '(_, s) ← code_of (on_vfs Vfs.vfs_sync) s;
  match sys_reboot RB_POWEROFF s with
  | Done (_, s) => Done (Gone, s)
  | Panic => Panic
  | Stuck => Stuck
  end.

Definition usage (text : string) s : outcome (ret * world) := s ← print (line text) [] s; Done (Code EINVAL, s).

(** ** Commands with arguments, in the line *)

(** The word at index [i] of the arguments. *)
Definition word m args (i : Z) : outcome (list Z) := p ← getZ args i; c_str m p.

Definition in_place m (r : outcome (ret * world)) : outcome (ret * list Z * world) := '(r, s) ← r; Done (r, m, s).
Definition result (r : outcome (Z * world)) : outcome (ret * world) := '(e, s) ← r; Done (Code e, s).

(** The words from [i] on. *)
Fixpoint words_of m args : outcome (list (list Z)) :=
  match args with
  | [] => Done []
  | p :: args => w ← c_str m p; ws ← words_of m args; Done (w :: ws)
  end.

Definition do_prog m args s : outcome (ret * list Z * world) :=
  if bool_decide (Z.of_nat (length args) < 2) then in_place m (usage "Usage: p program [arguments]" s)
  else ws ← words_of m (drop 1 args); in_place m (result (common_prog ws s)).

Definition do_shell m args s : outcome (ret * list Z * world) :=
  if bool_decide (Z.of_nat (length args) ≠ 1) then in_place m (usage "Usage: s" s)
  else in_place m (result (common_prog [txt "/bin/sh"] s)).

Definition do_chdir m args s : outcome (ret * list Z * world) :=
  if bool_decide (Z.of_nat (length args) ≠ 2) then in_place m (usage "Usage: cd directory" s)
  else path ← word m args 1; in_place m (result (code_of (on_vfs (Vfs.vfs_chdir path)) s)).

(** [mounttable] *)
Definition mount_as (fstype device : list Z) s : outcome (ret * world) :=
  if OPT_SFS && bool_decide (txt "sfs" = fstype) then result (code_of (on_vfs (Vfs.vfs_mount device sfs_domount_on)) s)
  else s ← print (line "Unknown filesystem type %s") [AStr (Some fstype)] s; Done (Code EINVAL, s).

Definition do_mount m args s : outcome (ret * list Z * world) :=
  if bool_decide (Z.of_nat (length args) ≠ 3) then in_place m (usage "Usage: mount fstype device:" s)
  else
    device ← getZ args 2;
    m ← strip_colon m device;
    fstype ← word m args 1;
    device ← c_str m device;
    in_place m (mount_as fstype device s).

Definition on_device (usage_text : string) (f : list Z -> M (Vfs.vfs T) unit) m args s : outcome (ret * list Z * world) :=
  if bool_decide (Z.of_nat (length args) ≠ 2) then in_place m (usage usage_text s)
  else
    device ← getZ args 1;
    m ← strip_colon m device;
    device ← c_str m device;
    in_place m (result (code_of (on_vfs (f device)) s)).

Definition do_unmount := on_device "Usage: unmount device:" Vfs.vfs_unmount.
Definition do_bootfs := on_device "Usage: bootfs device" Vfs.vfs_setbootfs.

(** A function of another file does not change the words. *)
Definition do_other (f : func) m args s : outcome (ret * list Z * world) :=
  ws ← words_of m args; in_place m (result (other f ws s)).

Definition run_func (f : func) m args s : outcome (ret * list Z * world) :=
  match f with
  | cmd_mainmenu => in_place m (do_mainmenu s)
  | cmd_opsmenu => in_place m (do_opsmenu s)
  | cmd_testmenu => in_place m (do_testmenu s)
  | cmd_shell => do_shell m args s
  | cmd_prog => do_prog m args s
  | cmd_mount => do_mount m args s
  | cmd_unmount => do_unmount m args s
  | cmd_bootfs => do_bootfs m args s
  | cmd_chdir => do_chdir m args s
  | cmd_sync => in_place m (do_sync s)
  | cmd_panic => in_place m (do_panic s)
  | cmd_quit => in_place m (do_quit s)
  | f => do_other f m args s
  end.

(** [cmd_progthread]: what runs in the thread of a program. *)
Definition cmd_progthread (runprogram : list Z -> world -> outcome (Z * world)) ws s : outcome world :=
  let nargs := Z.of_nat (length ws) in
  assert! bool_decide (nargs >= 1);;
  s ← (if bool_decide (nargs > 2) then print (line "Warning: argument passing from menu not supported") [] s else Done s);
  name ← getZ ws 0;
  assert! bool_decide (Z.of_nat (length name) < 128);;
  '(result, s) ← runprogram name s;
  if bool_decide (result ≠ 0) then
    msg ← strerror result;
    print (line "Running program %s failed: %s") [AStr (Some name); AStr (Some msg)] s
  else Done s.

(** ** What the commands mean *)

Definition cmd_does (f : func) ws s : outcome (ret * world) :=
  match f, ws with
  | cmd_mainmenu, _ => do_mainmenu s
  | cmd_opsmenu, _ => do_opsmenu s
  | cmd_testmenu, _ => do_testmenu s
  | cmd_sync, _ => do_sync s
  | cmd_panic, _ => Panic
  | cmd_quit, _ => do_quit s
  | cmd_shell, [_] => result (common_prog [txt "/bin/sh"] s)
  | cmd_shell, _ => usage "Usage: s" s
  | cmd_prog, _ :: (_ :: _) as prog => result (common_prog prog s)
  | cmd_prog, _ => usage "Usage: p program [arguments]" s
  | cmd_mount, [_; fstype; device] => mount_as fstype (no_colon device) s
  | cmd_mount, _ => usage "Usage: mount fstype device:" s
  | cmd_unmount, [_; device] => result (code_of (on_vfs (Vfs.vfs_unmount (no_colon device))) s)
  | cmd_unmount, _ => usage "Usage: unmount device:" s
  | cmd_bootfs, [_; device] => result (code_of (on_vfs (Vfs.vfs_setbootfs (no_colon device))) s)
  | cmd_bootfs, _ => usage "Usage: bootfs device" s
  | cmd_chdir, [_; path] => result (code_of (on_vfs (Vfs.vfs_chdir path)) s)
  | cmd_chdir, _ => usage "Usage: cd directory" s
  | f, ws => result (other f ws s)
  end.

#[local] Instance menu_env : MenuEnv world := {|
  e_kprintf := print;
  e_gettime := gettime;
  e_func := run_func;
  func_does := cmd_does
|}.

(** [y] does [x] and keeps to the words. *)
Definition keeps m lo hi (x : outcome (ret * world)) (y : outcome (ret * list Z * world)) : Prop :=
  match x with
  | Done (r, s') => exists m', y = Done (r, m', s') /\ same_outside m m' lo hi
  | Panic => y = Panic
  | Stuck => y = Stuck
  end.

Lemma keeps_in_place m m' lo hi x : same_outside m m' lo hi -> keeps m lo hi x (in_place m' x).
Proof. intros Hm. unfold keeps, in_place. destruct x as [[r s']| |]; cbn; eauto. Qed.

Lemma words_of_spec m lo hi ps ws : words_at m lo hi ps ws -> words_of m ps = Done ws.
Proof.
  revert lo ws. induction ps as [|p ps IH]; intros lo [|w ws]; cbn [words_at words_of]; [done..|]. intros (Hp & _ & _ & _ & Hps).
  rewrite (c_str_spec m p w Hp). cbn [mbind outcome_bind]. by rewrite (IH _ _ Hps).
Qed.

Lemma strip_colon_spec m p w : str_at m p w -> w ≠ [] ->
  exists m', strip_colon m p = Done m' /\ str_at m' p (no_colon w) /\ same_outside m m' p (p + Z.of_nat (length w)).
Proof.
  intros Hw Hne. unfold strip_colon, no_colon. rewrite (strlen_spec m p w Hw). cbn [mbind outcome_bind].
  destruct (exists_last Hne) as (l & c & ->). rewrite length_app in *. cbn [length] in *.
  rewrite last_snoc. replace (p + Z.of_nat (length l + 1) - 1) with (p + Z.of_nat (length l)) by lia.
  pose proof (str_at_app _ _ _ _ Hw) as Hc. destruct Hc as (Hc & _ & _). rewrite Hc. cbn [mbind outcome_bind].
  case_bool_decide as Hcol.
  - rewrite (bool_decide_eq_true_2 (Some c = Some 58)) by congruence. apply getZ_Done in Hc as [Hr _].
    pose proof (setZ_ok m (p + Z.of_nat (length l)) 0 Hr) as Hset. rewrite Hset. eexists. split; [done|].
    replace (length l + 1 - 1)%nat with (length l) by lia. rewrite take_app_length. split.
    + eapply str_at_cut; [exact Hw|eapply agree_setZ; [exact Hset|lia]|]. rewrite (getZ_setZ _ _ _ _ _ Hset). by rewrite decide_True.
    + intros i Hi. rewrite (getZ_setZ _ _ _ _ _ Hset). rewrite decide_False; [done|lia].
  - rewrite (bool_decide_eq_false_2 (Some c = Some 58)) by congruence. by exists m.
Qed.

Lemma on_device_spec text f m lo hi p0 w0 p w s :
  words_at m lo hi [p0; p] [w0; w] -> keeps m lo hi (result (code_of (on_vfs (f (no_colon w))) s)) (on_device text f m [p0; p] s).
Proof.
  intros (Hp0 & _ & Hlo & Hhi & Hp & Hne & Hlo' & Hhi' & _). unfold on_device. rewrite bool_decide_eq_false_2 by (cbn; lia).
  change (getZ [p0; p] 1) with (Done p). cbn [mbind outcome_bind]. destruct (strip_colon_spec m p w Hp Hne) as (m' & -> & Hp' & Hm'). cbn [mbind outcome_bind].
  rewrite (c_str_spec _ _ _ Hp'). cbn [mbind outcome_bind]. apply keeps_in_place. intros i Hi. apply Hm'. lia.
Qed.

(** A wrong number of words prints the usage. *)
Lemma usage_spec text m lo hi s (b : bool) y :
  b = true -> keeps m lo hi (usage text s) (if b then in_place m (usage text s) else y).
Proof. intros ->. by apply keeps_in_place. Qed.

Lemma mount_spec m lo hi ps ws s : words_at m lo hi ps ws -> keeps m lo hi (cmd_does cmd_mount ws s) (do_mount m ps s).
Proof.
  intros Hw. pose proof (words_at_length _ _ _ _ _ Hw) as Hl. unfold do_mount.
  destruct ps as [|p0 [|p1 [|p2 [|p3 ps]]]], ws as [|w0 [|w1 [|w2 [|w3 ws]]]]; try done; try (by apply usage_spec, bool_decide_eq_true_2; cbn; lia).
  rewrite bool_decide_eq_false_2 by (cbn; lia).
  destruct Hw as (Hp0 & _ & Hlo & Hhi & Hp1 & Hne1 & Hlo1 & Hhi1 & Hp2 & Hne2 & Hlo2 & Hhi2 & _).
  change (getZ [p0; p1; p2] 2) with (Done p2). cbn [mbind outcome_bind]. destruct (strip_colon_spec m p2 w2 Hp2 Hne2) as (m' & -> & Hp2' & Hm'). cbn [mbind outcome_bind].
  unfold word. change (getZ [p0; p1; p2] 1) with (Done p1). cbn [mbind outcome_bind].
  rewrite (c_str_spec m' p1 w1); [|eapply str_at_agree; [|exact Hp1]; intros i Hi; apply Hm'; lia]. cbn [mbind outcome_bind].
  rewrite (c_str_spec _ _ _ Hp2'). cbn [mbind outcome_bind]. apply keeps_in_place. intros i Hi. apply Hm'. lia.
Qed.

Lemma device_spec f text g m lo hi ps ws s :
  (f = cmd_unmount /\ text = "Usage: unmount device:"%string /\ g = Vfs.vfs_unmount) \/ (f = cmd_bootfs /\ text = "Usage: bootfs device"%string /\ g = Vfs.vfs_setbootfs) ->
  words_at m lo hi ps ws -> keeps m lo hi (cmd_does f ws s) (on_device text g m ps s).
Proof.
  intros Hf Hw. pose proof (words_at_length _ _ _ _ _ Hw) as Hl.
  destruct ps as [|p0 [|p1 [|p2 ps]]], ws as [|w0 [|w1 [|w2 ws]]]; try done; destruct Hf as [(-> & -> & ->)|(-> & -> & ->)];
    try (by apply usage_spec, bool_decide_eq_true_2; cbn; lia); by apply (on_device_spec _ _ _ _ _ _ w0).
Qed.

(** The functions do what [cmd_does] says, and change no byte outside their
    words. *)
Lemma func_spec f m lo hi ps ws s : words_at m lo hi ps ws -> keeps m lo hi (cmd_does f ws s) (run_func f m ps s).
Proof.
  intros Hw. pose proof (words_at_length _ _ _ _ _ Hw) as Hl. pose proof (words_of_spec _ _ _ _ _ Hw) as Hws.
  destruct f; cbn [run_func cmd_does]; try (by apply keeps_in_place);
    try (by unfold do_other; rewrite Hws; cbn [mbind outcome_bind]; apply keeps_in_place).
  - unfold do_shell. destruct ps as [|p0 [|p1 ps]], ws as [|w0 [|w1 ws]]; try done; try (by apply usage_spec, bool_decide_eq_true_2; cbn; lia).
    rewrite bool_decide_eq_false_2 by (cbn; lia). by apply keeps_in_place.
  - unfold do_prog. destruct ps as [|p0 [|p1 ps]], ws as [|w0 [|w1 ws]]; try done; try (by apply usage_spec, bool_decide_eq_true_2; cbn; lia).
    rewrite bool_decide_eq_false_2 by (cbn [length]; lia). change (drop 1 (p0 :: p1 :: ps)) with (p1 :: ps). destruct Hw as (_ & _ & _ & _ & Hw).
    rewrite (words_of_spec _ _ _ _ _ Hw). cbn [mbind outcome_bind]. by apply keeps_in_place.
  - by apply mount_spec.
  - apply (device_spec cmd_unmount); [by left|done].
  - apply (device_spec cmd_bootfs); [by right|done].
  - unfold do_chdir. destruct ps as [|p0 [|p1 [|p2 ps]]], ws as [|w0 [|w1 [|w2 ws]]]; try done; try (by apply usage_spec, bool_decide_eq_true_2; cbn; lia).
    rewrite bool_decide_eq_false_2 by (cbn; lia). unfold word. change (getZ [p0; p1] 1) with (Done p1). cbn [mbind outcome_bind].
    destruct Hw as (_ & _ & _ & _ & Hp1 & _). rewrite (c_str_spec _ _ _ Hp1). cbn [mbind outcome_bind]. by apply keeps_in_place.
Qed.

Lemma menu_laws :
  (forall s secs nsecs s', gettime s = Done (secs, nsecs, s') -> 0 <= secs <= INT_MAX /\ 0 <= nsecs < 1000000000) -> MenuLaws world.
Proof. intros Ht. split; [exact Ht|]. intros f m lo hi ps ws s Hw. exact (func_spec f m lo hi ps ws s Hw). Qed.
End commands.
End MenuCmds.
